(* ===== verification/_CoqProject ===== *)
-Q . S2P
Prelude.v
Seq.v
Timing.v
FloatBounds.v
Cursor.v
Codec.v
Flags.v
WireV2.v
WireV1.v
Prefix.v
Congestion.v
SendWindow.v
RecvWindow.v
Loss.v
Connection.v
ConnectionInv.v
ConnectionProps.v
Handshake.v
ConnectionTimers.v
Sender.v
Delivery.v
Mutation.v
Crates.v
History.v
Zgfx.v
ZgfxTokens.v
ZgfxSafety.v
ZgfxEncode.v
ZgfxCompress.v
ZgfxRoundtrip.v
TunnelWire.v
Tunnel.v
PduText.v
DvcWire.v
DvcCodec.v
WriteBuf.v
Mcs.v
McsCodec.v
Svc.v
SvcProps.v
SvcSet.v
Framed.v
Nego.v
NegoCodec.v
Sequence.v
ChannelConnection.v
AutoDetect.v
ConnectTime.v
ShareData.v
ShareCodec.v
Finalization.v
MessageChannel.v
Acceptor.v
AcceptorSteps.v
Accept.v
AcceptProps.v
Admission.v
Input.v
InputCodec.v
InputFlow.v
InputProps.v
SvcStream.v
Dvc.v
DvcProps.v
DvcServer.v
DvcServerProps.v
Pipeline.v
Dispatch.v
DispatchProps.v
Supervisor.v
HostText.v
Registry.v
DisplayAlloc.v
Gate.v
Sessions.v
X11Input.v
X11Props.v
