(* ===== verification/Prelude.v ===== *)
(** * LinRDP: verified connections, transports, channels and sessions

    LinRDP is an RDP server written in Rust on top of the IronRDP protocol
    crates it carries in src/crates.  This library models the connection
    sequence that lets a client in, the parts that move bytes between the two ends of a session - the UDP transport, the tunnel
    over it, the packet layers of the main TCP connection, the static and
    dynamic virtual channels and the compression of the graphics channel - and
    the parts that decide whose desktop a connection is served - as shallow
    embeddings, and proves them correct.

    ** The program and how its parts interact

    The main connection is a TCP stream.  A framed reader (ironrdp-async
    framed.rs) cuts it into PDUs by their TPKT or fast-path headers
    (ironrdp-pdu lib.rs, tpkt.rs, tpdu.rs, x224.rs); the PDUs of a channel are
    MCS Send Data PDUs (mcs.rs, with the PER primitives of per.rs) that carry
    chunks of static virtual channel messages (ironrdp-svc).  One static
    channel, DRDYNVC, carries the PDUs of dynamic virtual channels
    (ironrdp-dvc), which split messages once more; the graphics channel
    compresses its messages with ZGFX (ironrdp-graphics zgfx).

    The server may move dynamic channels to a UDP tunnel by a Soft-Sync
    exchange.  The tunnel (ironrdp-rdpemt) runs over a sans-I/O reliable
    connection (ironrdp-rdpeudp connection.rs), driven by its caller through
    [handle_datagram], [poll_transmit], [handle_timeout], [send], [poll_event]
    and [close]: a three-way handshake of version 1 datagrams, then version 2
    packets with a send window, loss detection, a retransmit queue, NewReno
    congestion control, a receive window, a round-trip estimator and timers.

    Before any channel there is the connection sequence.  The server
    (ironrdp-server server.rs, PendingConnection) drives an acceptor
    (ironrdp-acceptor): a state machine that negotiates the security protocol,
    is told of the TLS upgrade and of CredSSP, exchanges the settings, joins
    the channels, takes the logon, measures the link, offers the UDP tunnel,
    exchanges the capabilities and finalizes.  A driver (ironrdp-async) reads
    a PDU when the sequence asks for one, steps it and sends what it wrote.

    LinRDP itself (src/linrdp) runs one worker process per connection.  A
    supervisor accepts connections within a budget, forks the workers and owns
    the one UDP port, whose datagrams it hands to the worker whose request
    they answer.  A login is routed to the account's desktop: a session found
    in the registry of the state directory, or one a keeper process starts on
    a display number claimed with a file lock.  The worker's gate then says
    which display, account and sound server the process may touch.

    What the user does goes the other way: a client's input database
    (ironrdp-input) turns keys, buttons and motion into events, which go out in
    fast-path PDUs (ironrdp-pdu input/); the server decodes them and calls its
    input handler (ironrdp-server handler.rs).  LinRDP's handler (input.rs)
    sends XTEST requests to the X server of the desktop the gate names, and a
    selector in front of it (main.rs, AnyInput) connects it when the gate has
    been bound and again when the gate has moved.

    ** The files

    Shared:
    - [Prelude]: results with errors and panics ([outcome]), the state monad
      [M], machine integers as [Z] with their wrap-around written out, tactics,
      hints and the lemmas on lists and integers everything shares.
    - [Cursor], [Codec]: ironrdp-core's cursors and codec entry points
      (cursor.rs, padding.rs, encode.rs, decode.rs), the judgements [encodes],
      [decodes], [safe], and the class [Codec] that states what a wire
      structure promises to the layers above: exact size, decoding what it
      encodes, no panic on any input.
    - [WriteBuf]: ironrdp-core's write_buf.rs and [encode_buf]; boxed PDUs.
    - [Flags], [Crates]: third-party crates (bitflags; bitvec, byteorder,
      bit_field, subtle) as parameter classes with their documented laws, each
      with an instance that has them.
    - [Mutation]: code on [&mut] state that returns a [Result] ([Mut]): what
      was done before an error stays done; weakest preconditions.

    UDP transport (src/crates/ironrdp-rdpeudp/src):
    - [Seq] (seq.rs), [Timing] (rtt.rs, timer.rs and ironrdp-core's time.rs),
      [FloatBounds] (error bounds of the estimator's binary64 arithmetic),
      [WireV2], [WireV1], [Prefix] (pdu/), [Congestion], [SendWindow],
      [RecvWindow], [Loss] (the files of those names; reliability.rs is Module
      [Reliability] of [Loss]).
    - [Connection]: connection.rs, one definition per method in the monad [C]
      over the record [RdpeudpConnection].
    - [ConnectionInv]: weakest preconditions for [C], the invariant [cinv] and
      a lemma per method.  [ConnectionProps]: the methods as a transition
      system ([reachable]).  [Handshake], [ConnectionTimers], [Sender]:
      handshake, timers, what the sending half holds on to.  [Delivery]: two
      connections and a network that loses, repeats, reorders and delays.

    Tunnel (src/crates/ironrdp-rdpemt/src): [TunnelWire] (pdu/), [Tunnel]
    (tunnel.rs, both sides and the channel between them).

    ZGFX (src/crates/ironrdp-graphics/src/zgfx): [History]
    (circular_buffer.rs), [Zgfx] (mod.rs, control_messages.rs, utils.rs),
    [ZgfxTokens] (what a token stream stands for), [ZgfxSafety], [ZgfxEncode]
    (compressor.rs, wrapper.rs, api.rs), [ZgfxCompress], [ZgfxRoundtrip].

    Main connection and channels:
    - [PduText]: strings (ironrdp-pdu utils.rs) with the parts of UTF-8 and
      UTF-16 of the Rust standard library they use.
    - [Mcs], [McsCodec]: per.rs, tpkt.rs, tpdu.rs, x224.rs, mcs.rs; classes
      [X224Pdu] and [McsPdu] for the traits, [X224Codec] and [McsCodec] for
      what their instances promise.
    - [Framed]: find_size, the hints and the reading loops over a stream that
      arrives in arbitrary pieces.
    - [Svc], [SvcProps], [SvcSet]: ironrdp-svc lib.rs (chunking, reassembly,
      channels; the channel set).  [SvcStream]: server to client over TCP.
    - [DvcWire], [DvcCodec]: ironrdp-dvc pdu.rs.  [Dvc]: complete_data.rs,
      lib.rs and server.rs, one definition per method over the record
      [DrdynvcServer].  [DvcProps]: messages and routing.  [DvcServer]: the
      invariant of the server and its methods as a transition system with any
      client and embedder.  [DvcServerProps]: what the server guarantees.
    - [Pipeline]: the graphics channel end to end (ZGFX, dynamic channel,
      static channel, MCS, TCP).

    Connection sequence (src/crates/ironrdp-acceptor/src and the PDUs of
    src/crates/ironrdp-pdu/src it uses):
    - [Nego], [NegoCodec]: nego.rs, the X.224 request and confirm with their
      negotiation data, cookies and routing tokens.
    - [Sequence]: the Sequence trait and Written of ironrdp-connector, the step
      driver of ironrdp-async's framed.rs and util.rs of the acceptor; the
      class [Sequence] is what the sub-sequences offer to the driver.
    - [ChannelConnection] (channel_connection.rs), [ConnectTime]
      (autodetect.rs), [Finalization] (finalization.rs): the three
      sub-sequences, each with its invariant and an abstract specification it
      refines.
    - [AutoDetect], [MessageChannel], [ShareData], [ShareCodec]: the PDUs they
      speak (rdp/autodetect.rs, multitransport.rs, heartbeat.rs, headers.rs,
      finalization_messages.rs, server_error_info.rs and others).
    - [Acceptor]: connection.rs; the struct as a record of configuration,
      settings and what was received, the state as an inductive type, one
      definition per arm of [step] and per method.  [AcceptorSteps]: its
      invariant [acceptor_ok], what a step preserves ([served]) and a lemma
      per arm.
    - [Accept]: lib.rs and credssp.rs of the acceptor, and of server.rs the
      PendingConnection with its security upgrade.  [AcceptProps]: the loops
      end, and what each driver establishes.  [Admission]: a connection from
      the server's setup and the client's bytes to the session it is given.

    User input:
    - [Input], [InputCodec]: the slow-path and fast-path input PDUs
      (ironrdp-pdu input/) and their codecs.
    - [InputFlow]: the database (ironrdp-input lib.rs), the frames its events
      go out in (ironrdp-session active_stage.rs, process_fastpath_input), the
      handler trait as the class [RdpServerInputHandler] with the conversions
      to its events (ironrdp-server handler.rs) and the dispatch (server.rs,
      handle_fastpath and handle_input_event).  [InputProps]: the bookkeeping
      handler [Held] as the specification, and that it mirrors the database.

    LinRDP (src/linrdp/src):
    - [Dispatch], [DispatchProps]: udp_dispatch.rs and the SYN reader of
      ironrdp-rdpeudp-tokio; the dispatcher as a system of events.
      [Supervisor]: supervisor.rs, one turn of its loop as a function of what
      the kernel answers.
    - [HostText]: text as the session code uses it (decimal numbers, lines,
      prefixes, paths).  [Registry]: session/registry.rs over a file system.
      [DisplayAlloc]: session/display_alloc.rs over inodes, descriptors and
      flock.  [Gate]: session/gate.rs, the statics as a record.  [Sessions]:
      session/mod.rs, router.rs, backends and keeper_main.rs - a login from the
      verified account to the bound worker and back to the locked record.
    - [X11Input], [X11Props]: input.rs, AnyInput of main.rs, connect of gate.rs
      and the cookie files of session/xauth.rs; methods on [&mut self] as the
      state monad [On], with every request recorded.

    ** What the theorems show

    - Transport: a connection never panics on any input, its datagrams fit the
      MTU, the handshake establishes both sides with matching parameters,
      nothing unacknowledged is forgotten, timers stay armed, and whatever the
      network does the receiver's stream is a prefix of the sender's.
    - Tunnel: two tunnels with the same secret establish and deliver in order;
      a server admits only its client.
    - ZGFX: decompression undoes compression over whole sessions; neither side
      panics or grows beyond its bounds on any input; the ring buffer equals a
      byte-at-a-time sliding window.
    - Packet layers: every wire structure round-trips in exactly its size, and
      no byte string makes a decoder panic; what is decoded is canonical.
    - Reading: every read of a PDU ends, with exactly the bytes the hint says,
      and no byte is lost or repeated.
    - Channels: chunking and reassembly are inverse for every chunk length,
      a refused chunk leaves a channel usable, the channel set stays consistent;
      end to end the client's channel gets exactly the server's messages,
      however the TCP stream is cut.  Dynamic channels round-trip messages and
      route data PDUs to the tunnel of their channel.  The dynamic channel
      server keeps its invariant and never panics whatever its peers do, calls
      each processor in the order its contract says, requests exactly the
      waiting channels, hands each its messages, and treats frames that arrive
      early on the tunnel as it treats them later.  The graphics channel is
      correct end to end.
    - Connection sequence: serving a connection returns whatever the client
      sends; a session it returns uses the protocol the setup selects for the
      client's own request, and the client's own messages proved its identity to
      CredSSP or logged on with the expected credentials, if any are expected;
      the session stays within the server's setup.  The acceptor is
      well formed after any steps and never goes back a phase; the negotiation
      takes the strongest common protocol.  The sub-sequences do what their
      abstract specifications say on any input, the PDUs round-trip, and a PDU
      of the message channel is of one kind only.
    - Dispatch and supervision: a datagram reaches only the worker whose
      request its client answered, a request is answered once, that worker
      gets everything its client sends and it keeps up with, and the budget is
      never exceeded.
    - Sessions: display claims are exclusive through hand-over and adoption; a
      record written is the record read; locking at start leaves nothing
      unlocked; an armed worker reaches only what it was bound to and never
      changes desktops; a login ends at the account's own desktop or nowhere
      and the desktop is locked when the client leaves.
    - Input: the PDUs round-trip and their decoders never panic; the server's
      handler is told of exactly what the client's database holds; what it
      sends to X servers goes to the display the gate names at that moment and
      is bounded per event; lock keys follow the client's synchronisations if
      the client leaves them alone;
      a cookie file gives each display its own secret.

    ** Bounds and fuel

    A loop that is not structural runs on fuel, and running out of fuel counts
    as a panic: "never panics" therefore includes termination, and each fuel
    has a lemma that it is enough (as many rounds as bytes, entries or
    segments).  A connection is followed for fewer than 2^45 calls and steps
    of the clock below 2^18 milliseconds each ([CALLS], [STEP]), which keeps
    64-bit counters from wrapping.  [stream_integrity] needs what the wire
    format needs: a channel number within 2^15 of the receiver's cursor.
    [zgfx_roundtrip] is for messages of up to 64 MiB (the decompressor's own
    limit) and for sessions that do not return from mode Never to a
    compressing mode, where the code loses synchronization (see the findings).
    A static channel message is below 4 GiB and its extra flags are not FIRST
    or LAST.  The driver of the acceptor has sixteen turns for every byte and
    piece the stream still holds and sixteen more ([drive_fuel]; between two
    reads the acceptor takes fewer steps, [steps_left]); a turn of CredSSP
    takes a byte at least ([credssp_run]).  The server's capability sets are
    taken to fit a Demand Active ([caps_ok]).  A worker's gate is moved fewer
    than 2^64 times, and [handler_mirrors_client] is for characters of the basic
    plane and PDUs whose length takes the byte or two the header reserved
    ([length_fits]; see the findings).

    ** Parameters

    Code outside the repository is a class: bitflags, bitvec (slices and
    arrays), byteorder, bit_field, subtle.  X servers with their sockets, files
    and the clock are the class [X11], which says only that a connection leads
    to the display it was opened for; compositors are handlers of any kind.
    Channel processors, which the embedder supplies through the traits
    SvcProcessor and DvcProcessor, are classes too; the stream under the framed
    reader is the list of pieces it will return.  The guarantees of
    the dynamic channel server ask of processors only that they do not panic
    and, where stated, that they record what they are called with.  What the
    kernel and other processes answer to the session code - sockets, accept,
    fork, waitpid, polls of the state directory, NSS, the X server's
    handshake, the account policy - is an argument of the functions that ask.

    The acceptor's settings messages (BER and GCC blocks, the Client Info and
    licensing PDUs) are the class [SettingsCodecs] with the laws
    [SettingsLaws], the bodies of share PDUs it does not look into (input,
    save session info, capability sets, redirection) [ShareBodies],
    [ShareCodecs] and [ShareLaws]: decoders that do not panic and give values
    in their ranges, encoders that write what their size says.  The sspi crate
    is the class [Sspi]: its server is a state that processes requests, and
    [SspiLaws] asks only that its length hint is sound.  Whether the TLS
    handshake succeeds, and the stream after it, is an argument.  Module
    [DemoBodies] of [ShareCodec] and [DemoServer] of [Admission] are instances
    that have these laws, with connections run to their end.

    ** Not modelled

    Formatting (Debug, Display), logging and error contexts; sockets, tasks and
    locks; TLS, PAM, the sspi crate and other system interfaces, which are not
    in the repository or only call the system; the image codecs other than
    ZGFX and the bulk compressors of ironrdp-bulk, self-contained libraries
    that would each be a development of their own; the BER and GCC codecs and
    the capability sets, which are parameters of the acceptor; the session
    loop of ironrdp-server after the acceptance and its redirection channels,
    which are tasks around the channel layers modelled here; the client side
    (connector, session, the DRDYNVC client), which the server does not run;
    the waiting of concurrent logins of one account for each other's lock, a
    write to a session record that fails halfway, the interleaving of one
    process's search for a display number with another's, the GNOME backends
    and the logon screen. *)

From stdpp Require Export base tactics decidable option list numbers strings sets gmap sorting.
From Stdlib Require Export ZArith Lia.

#[export] Set Default Goal Selector "!".

Open Scope Z_scope.

(** ** Machine integers

    A [w]-bit unsigned integer is a [Z] in [[0, 2^w)].  The release profile of
    the workspace does not turn overflow checks on, so [+], [-] and [*] wrap. *)

Definition is_u8 (x : Z) : Prop := 0 <= x < 256.
Definition is_u16 (x : Z) : Prop := 0 <= x < 65536.
Definition is_u32 (x : Z) : Prop := 0 <= x < 4294967296.
Definition is_u64 (x : Z) : Prop := 0 <= x < 18446744073709551616.

Create HintDb rdp.
Create Rewrite HintDb rdp.
#[export] Hint Unfold is_u8 is_u16 is_u32 is_u64 : rdp.

Definition U64_MAX : Z := 18446744073709551615.

Definition wrap64 (x : Z) : Z := x mod 18446744073709551616.
Definition wadd64 (a b : Z) : Z := wrap64 (a + b).
Definition wsub64 (a b : Z) : Z := wrap64 (a - b).
Definition wmul64 (a b : Z) : Z := wrap64 (a * b).
Definition sat_add64 (a b : Z) : Z := Z.min (a + b) U64_MAX.
Definition sat_sub (a b : Z) : Z := Z.max 0 (a - b).
Definition not64 (x : Z) : Z := Z.lxor x U64_MAX.

Declare Scope rust_scope.
Delimit Scope rust_scope with rust.
Notation "a ⊕ b" := (wadd64 a b) (at level 50, left associativity) : rust_scope.
Notation "a ⊖ b" := (wsub64 a b) (at level 50, left associativity) : rust_scope.
Notation "a ⊗ b" := (wmul64 a b) (at level 40, left associativity) : rust_scope.
Open Scope rust_scope.

(** The length of a Rust [Vec], [VecDeque] or slice, as a [usize]. *)
Definition llen {A} (l : list A) : Z := Z.of_nat (length l).

(** [o.is_some()] *)
Definition is_some {A} (o : option A) : bool := match o with Some _ => true | None => false end.

(** ** Fallible code

    A Rust function that returns [Result<A, E>] and may panic (an index out
    of range, a failed [expect]) has three outcomes. *)

Inductive outcome (E A : Type) : Type :=
| Ok (a : A)
| Err (e : E)
| Panic.
Arguments Ok {E A} a.
Arguments Err {E A} e.
Arguments Panic {E A}.

#[export] Instance outcome_ret {E} : MRet (outcome E) := fun A a => Ok a.
#[export] Instance outcome_bind {E} : MBind (outcome E) := fun A B f m =>
  match m with Ok a => f a | Err e => Err e | Panic => Panic end.

Definition is_ok {E A} (r : outcome E A) : bool :=
  match r with Ok _ => true | _ => false end.
Definition no_panic {E A} (r : outcome E A) : Prop := r <> Panic.
Definition map_err {E F A} (f : E -> F) (r : outcome E A) : outcome F A :=
  match r with Ok a => Ok a | Err e => Err (f e) | Panic => Panic end.

(** A fallible computation that threads a state [S]: the decoders thread a
    [ReadCursor], the encoders a [WriteCursor]. *)
Definition M (S E A : Type) : Type := S -> outcome E (A * S).

#[export] Instance M_ret {S E} : MRet (M S E) := fun A a s => Ok (a, s).
#[export] Instance M_bind {S E} : MBind (M S E) := fun A B f m s =>
  match m s with
  | Ok (a, s') => f a s'
  | Err e => Err e
  | Panic => Panic
  end.

Definition fail {S E A} (e : E) : M S E A := fun _ => Err e.
Definition crash {S E A} : M S E A := fun _ => Panic.
Definition gets {S E A} (f : S -> A) : M S E A := fun s => Ok (f s, s).

(** [r?] on a result that does not touch the state. *)
Definition lift {S E A} (r : outcome E A) : M S E A := fun s => a ← r; mret (a, s).

(** [for _ in 0..n { v.push(m?) }] *)
Fixpoint repeat_m {S E A} (n : nat) (m : M S E A) : M S E (list A) :=
  match n with
  | O => mret []
  | Datatypes.S n' => x ← m; xs ← repeat_m n' m; mret (x :: xs)
  end.

(** [for x in xs { f(x)?; }] *)
Fixpoint iter_m {S E A} (f : A -> M S E unit) (xs : list A) : M S E unit :=
  match xs with
  | [] => mret tt
  | x :: xs' => _ ← f x; iter_m f xs'
  end.

(** [if let Some(x) = o { f(x)?; }] *)
Definition opt_m {S E A} (f : A -> M S E unit) (o : option A) : M S E unit :=
  match o with Some x => f x | None => mret tt end.

(** [if b { Some(m?) } else { None }] *)
Definition when_m {S E A} (b : bool) (m : M S E A) : M S E (option A) :=
  if b then x ← m; mret (Some x) else mret None.

(** [while v.len() < n { v.push(x) }]; [push_while_spec]: no more rounds than
    the missing length. *)
Fixpoint push_while {A} (fuel : nat) (n : Z) (x : A) (v : list A) : list A :=
  match fuel with
  | O => v
  | S fuel' => if llen v <? n then push_while fuel' n x (v ++ [x]) else v
  end.

(** [data.chunks(n)] for [n > 0]; as many rounds as elements are enough
    ([chunks_loop_spec]). *)
Fixpoint chunks_loop {A} (fuel : nat) (n : nat) (data : list A) : list (list A) :=
  match fuel, data with
  | S fuel', _ :: _ => take n data :: chunks_loop fuel' n (drop n data)
  | _, _ => []
  end.
Definition chunks {A} (n : nat) (data : list A) : list (list A) := chunks_loop (length data) n data.

(** [usize::div_ceil] *)
Definition div_ceil (a b : Z) : Z := (a + b - 1) / b.

(** ** Tactics *)

(** Splits every integer comparison that decides a branch of the goal or of a
    hypothesis. *)
Ltac zcase :=
  repeat match goal with
  | |- context [?a <? ?b] => destruct (Z.ltb_spec a b)
  | |- context [?a <=? ?b] => destruct (Z.leb_spec a b)
  | |- context [?a =? ?b] => destruct (Z.eqb_spec a b)
  | H : context [?a <? ?b] |- _ => destruct (Z.ltb_spec a b)
  | H : context [?a <=? ?b] |- _ => destruct (Z.leb_spec a b)
  | H : context [?a =? ?b] |- _ => destruct (Z.eqb_spec a b)
  end.

(** Arithmetic with [/] and [mod] by constants. *)
Ltac zdm := Z.to_euclidean_division_equations; lia.

(** Opens the width predicates, then arithmetic. *)
Ltac width := unfold is_u8, is_u16, is_u32, is_u64, U64_MAX in *; lia.

(** ** Machine-integer lemmas *)

Lemma wrap64_small x : is_u64 x -> wrap64 x = x.
Proof. apply Z.mod_small. Qed.

Lemma wadd64_small a b : is_u64 (a + b) -> a ⊕ b = a + b.
Proof. apply Z.mod_small. Qed.

Lemma wsub64_small a b : is_u64 (a - b) -> a ⊖ b = a - b.
Proof. apply Z.mod_small. Qed.

Lemma wmul64_small a b : is_u64 (a * b) -> a ⊗ b = a * b.
Proof. apply Z.mod_small. Qed.

Lemma wrap64_range x : is_u64 (wrap64 x).
Proof. apply Z.mod_pos_bound. lia. Qed.

Lemma wadd64_range a b : is_u64 (a ⊕ b).
Proof. apply wrap64_range. Qed.

Lemma wsub64_range a b : is_u64 (a ⊖ b).
Proof. apply wrap64_range. Qed.

#[export] Hint Resolve wadd64_range wsub64_range wrap64_range : rdp.

(** Masking with [2^k - 1] keeps the low [k] bits. *)
Lemma land_low x k : 0 <= k -> Z.land x (2 ^ k - 1) = x mod 2 ^ k.
Proof.
  intros Hk. rewrite Z.sub_1_r, <- Z.ones_equiv. apply Z.land_ones. lia.
Qed.

Lemma land_u16 x : Z.land x 0xFFFF = x mod 65536.
Proof. apply (land_low x 16). lia. Qed.

Lemma land_u3 x : Z.land x 0x07 = x mod 8.
Proof. apply (land_low x 3). lia. Qed.

Lemma land_u4 x : Z.land x 0x0F = x mod 16.
Proof. apply (land_low x 4). lia. Qed.

Lemma land_u6 x : Z.land x 0x3F = x mod 64.
Proof. apply (land_low x 6). lia. Qed.

Lemma land_u7 x : Z.land x 0x7F = x mod 128.
Proof. apply (land_low x 7). lia. Qed.

Lemma land_u12 x : Z.land x 0x0FFF = x mod 4096.
Proof. apply (land_low x 12). lia. Qed.

Lemma land_u24 x : Z.land x 0xFFFFFF = x mod 16777216.
Proof. apply (land_low x 24). lia. Qed.

(** [x & !(2^k - 1)] clears the low [k] bits of a 64-bit value. *)
Lemma land_not64_low x k :
  0 <= k < 64 -> is_u64 x -> Z.land x (not64 (2 ^ k - 1)) = x - x mod 2 ^ k.
Proof.
  intros Hk Hx. rewrite <- land_low by lia.
  assert (Hl : Z.land x (not64 (2 ^ k - 1)) = Z.ldiff x (2 ^ k - 1)).
  { apply Z.bits_inj'. intros n Hn. unfold not64.
    rewrite Z.land_spec, Z.lxor_spec, Z.ldiff_spec.
    destruct (Z.lt_ge_cases n 64) as [H|H].
    - replace (Z.testbit U64_MAX n) with true.
      + destruct (Z.testbit x n), (Z.testbit (2 ^ k - 1) n); reflexivity.
      + symmetry. change U64_MAX with (Z.pred (2 ^ 64)).
        rewrite <- Z.ones_equiv. apply Z.ones_spec_low. lia.
    - replace (Z.testbit x n) with false; [reflexivity|]. symmetry.
      destruct (Z.eq_dec x 0) as [->|]; [apply Z.bits_0|].
      apply Z.bits_above_log2; [width|].
      apply Z.lt_le_trans with 64; [|lia].
      apply Z.log2_lt_pow2; width. }
  rewrite Hl, (Z.sub_nocarry_ldiff x).
  - apply Z.bits_inj'. intros n Hn. rewrite !Z.ldiff_spec, Z.land_spec.
    destruct (Z.testbit x n), (Z.testbit (2 ^ k - 1) n); reflexivity.
  - apply Z.bits_inj'. intros n Hn. rewrite Z.ldiff_spec, Z.land_spec, Z.bits_0.
    destruct (Z.testbit x n), (Z.testbit (2 ^ k - 1) n); reflexivity.
Qed.

(** A high part with no low bits and a low part add up under [|]. *)
Lemma lor_high_low h l k :
  0 <= k -> h mod 2 ^ k = 0 -> 0 <= l < 2 ^ k -> Z.lor h l = h + l.
Proof.
  intros Hk Hh Hl. rewrite <- Z.add_lor_land.
  assert (Z.land h l = 0) as ->; [|lia].
  apply Z.mod_divide in Hh as [q ->]; [|lia].
  apply Z.bits_inj'. intros n Hn. rewrite Z.land_spec, Z.bits_0.
  destruct (Z.lt_ge_cases n k).
  - rewrite Z.mul_pow2_bits_low by lia. reflexivity.
  - destruct (Z.eq_dec l 0) as [->|]; [by rewrite Z.bits_0, andb_false_r|].
    rewrite (Z.bits_above_log2 l), andb_false_r; [reflexivity|lia|].
    apply Z.lt_le_trans with k; [|lia]. apply Z.log2_lt_pow2; lia.
Qed.

Lemma shiftl_lor_low h l k :
  0 <= k -> 0 <= l < 2 ^ k -> Z.lor (Z.shiftl h k) l = h * 2 ^ k + l.
Proof.
  intros Hk Hl. rewrite Z.shiftl_mul_pow2 by lia. apply (lor_high_low _ _ k); [lia| |lia].
  apply Z.mod_mul. lia.
Qed.

(** ** List lemmas *)

Section lists.
Context {A : Type}.

Lemma llen_nonneg (l : list A) : 0 <= llen l.
Proof. unfold llen. lia. Qed.

Lemma llen_app (l k : list A) : llen (l ++ k) = llen l + llen k.
Proof. unfold llen. rewrite length_app. lia. Qed.

Lemma llen_cons (x : A) l : llen (x :: l) = 1 + llen l.
Proof. unfold llen. simpl length. lia. Qed.

Lemma filter_all (P : A -> Prop) `{!forall x, Decision (P x)} (l : list A) :
  Forall P l -> filter P l = l.
Proof. induction 1; [done|]. rewrite filter_cons_True by done. congruence. Qed.

Lemma filter_none (P : A -> Prop) `{!forall x, Decision (P x)} (l : list A) :
  Forall (fun x => ~ P x) l -> filter P l = [].
Proof. induction 1; [done|]. by rewrite filter_cons_False. Qed.

Lemma Forall_filter_keep (P Q : A -> Prop) `{!forall x, Decision (P x)} (l : list A) :
  Forall Q l -> Forall Q (filter P l).
Proof. induction 1; [constructor|]. rewrite filter_cons. case_decide; auto. Qed.

Lemma llen_nil : llen (@nil A) = 0.
Proof. reflexivity. Qed.

Lemma push_while_spec fuel n (x : A) v :
  (Z.to_nat n <= fuel + length v)%nat ->
  push_while fuel n x v = v ++ replicate (Z.to_nat n - length v) x.
Proof.
  revert v. induction fuel as [|fuel IH]; intros v Hf; cbn [push_while].
  { replace (Z.to_nat n - length v)%nat with 0%nat by lia. by rewrite app_nil_r. }
  unfold llen. zcase.
  - rewrite IH by (rewrite length_app; cbn; lia). rewrite length_app, <- app_assoc. cbn [length].
    replace (Z.to_nat n - length v)%nat with (S (Z.to_nat n - (length v + 1)))%nat by lia. done.
  - replace (Z.to_nat n - length v)%nat with 0%nat by lia. by rewrite app_nil_r.
Qed.

End lists.

#[export] Hint Rewrite @llen_app @llen_cons @llen_nil : rdp.

(** Checking a decidable claim about every integer of a small range. *)
Lemma forall_range (f : Z -> bool) (n : Z) :
  forallb f (seqZ 0 n) = true -> forall x, 0 <= x < n -> f x = true.
Proof.
  intros H x Hx. rewrite forallb_forall in H. apply H, list_elem_of_In, elem_of_seqZ. lia.
Qed.

Lemma land_le_r x y : 0 <= y -> 0 <= Z.land x y <= y.
Proof.
  intros Hy. assert (0 <= Z.land x y) by (apply Z.land_nonneg; by right).
  assert (Hs : y - Z.land x y = Z.ldiff y (Z.land x y)).
  { apply Z.sub_nocarry_ldiff, Z.bits_inj'. intros n _.
    rewrite Z.ldiff_spec, Z.land_spec, Z.bits_0.
    destruct (Z.testbit x n), (Z.testbit y n); reflexivity. }
  assert (0 <= Z.ldiff y (Z.land x y)) by (apply Z.ldiff_nonneg; by left). lia.
Qed.

(** [chunks] cuts the data into non-empty pieces of at most [n] bytes. *)
Lemma chunks_loop_spec {A} fuel n (data : list A) :
  (0 < n)%nat -> (length data <= fuel)%nat ->
  concat (chunks_loop fuel n data) = data /\
  Forall (fun d => d <> [] /\ (length d <= n)%nat) (chunks_loop fuel n data) /\
  (length data <= n * length (chunks_loop fuel n data) < length data + n)%nat.
Proof.
  intros Hn. revert data. induction fuel as [|fuel IH]; intros data Hf.
  { destruct data; [|cbn in Hf; lia]. split; [done|]. split; [constructor|cbn; lia]. }
  destruct data as [|x data]; [split; [done|]; split; [constructor|cbn; lia]|]. cbn [chunks_loop].
  set (l := x :: data) in *.
  destruct (IH (drop n l)) as (H1 & H2 & H3); [rewrite length_drop; unfold l in *; cbn [length] in *; lia|].
  rewrite length_drop in H3. split; [|split].
  - cbn [concat]. rewrite H1. apply take_drop.
  - constructor; [|done]. rewrite length_take. split; [|lia]. unfold l. destruct n; [lia|]. done.
  - cbn [length]. set (m := length (chunks_loop fuel n (drop n l))) in *.
    assert (0 < length l)%nat by (unfold l; cbn; lia). rewrite Nat.mul_succ_r.
    destruct (Nat.le_gt_cases n (length l)); [lia|]. assert (m = 0)%nat as -> by nia. lia.
Qed.

Lemma length_chunks {A} n (data : list A) :
  0 < n -> llen (chunks (Z.to_nat n) data) = div_ceil (llen data) n.
Proof.
  intros Hn. destruct (chunks_loop_spec (length data) (Z.to_nat n) data) as (_ & _ & H); [lia|lia|].
  fold (chunks (Z.to_nat n) data) in H. unfold div_ceil, llen in *.
  apply Z.div_unique with (Z.of_nat (length data) + n - 1 - n * Z.of_nat (length (chunks (Z.to_nat n) data))); [|lia].
  left. nia.
Qed.
