(* ===== verification/Seq.v ===== *)
(** Sequence numbers and timestamps of the RDP-UDP2 transport
    (src/crates/ironrdp-rdpeudp/src/seq.rs): the truncation of 64-bit numbers
    to their 16- and 24-bit wire forms, and the reconstruction of the full
    number from a nearby reference. *)

From S2P Require Import Prelude.

Definition reconstruct_seq (wire_seq reference : Z) : Z :=
  let wire := wire_seq in
  let high := Z.land reference (not64 0xFFFF) in
  let candidate := Z.lor high wire in
  if reference <? candidate then
    let diff := candidate - reference in
    if (0x8000 <? diff) && (0x10000 <=? candidate) then candidate - 0x10000 else candidate
  else
    let diff := reference - candidate in
    if 0x8000 <? diff then candidate ⊕ 0x10000 else candidate.

Definition next_channel_seq (channel_seq : Z) : Z :=
  let next := channel_seq ⊕ 1 in
  if Z.land next 0xFFFF =? 0 then next ⊕ 1 else next.

Definition truncate_seq (full : Z) : Z := Z.land full 0xFFFF.

Definition TIMESTAMP_24BIT_MASK : Z := 0x00FFFFFF.
Definition TIMESTAMP_UNIT_US : Z := 4.
Definition TIMESTAMP_WRAP : Z := Z.shiftl 1 24.
Definition TIMESTAMP_HALF_RANGE : Z := TIMESTAMP_WRAP / 2.
Definition TIMESTAMP_STALENESS_LIMIT : Z := 32000000 / TIMESTAMP_UNIT_US.

Definition reconstruct_timestamp (wire_ts reference : Z) : Z :=
  let wire := Z.land wire_ts TIMESTAMP_24BIT_MASK in
  let high := Z.land reference (not64 TIMESTAMP_24BIT_MASK) in
  let candidate := Z.lor high wire in
  if reference <? candidate then
    let diff := candidate - reference in
    if (TIMESTAMP_HALF_RANGE <? diff) && (TIMESTAMP_WRAP <=? candidate)
    then candidate - TIMESTAMP_WRAP else candidate
  else
    let diff := reference - candidate in
    if TIMESTAMP_HALF_RANGE <? diff then candidate ⊕ TIMESTAMP_WRAP else candidate.

Definition truncate_timestamp (full : Z) : Z := Z.land full TIMESTAMP_24BIT_MASK.
Definition us_to_timestamp_units (us : Z) : Z := us / TIMESTAMP_UNIT_US.
Definition timestamp_units_to_us (units : Z) : Z := units ⊗ TIMESTAMP_UNIT_US.

(** ** Reconstruction *)

(** Both reconstructions are the same function of the width [k] of the wire
    field; this is what they compute on 64-bit references. *)
Definition reconstruct_spec (k wire reference : Z) : Z :=
  let candidate := reference - reference mod 2 ^ k + wire in
  if reference <? candidate then
    if (2 ^ (k - 1) <? candidate - reference) && (2 ^ k <=? candidate)
    then candidate - 2 ^ k else candidate
  else
    if 2 ^ (k - 1) <? reference - candidate then candidate ⊕ 2 ^ k else candidate.

Lemma candidate_eq k wire reference :
  0 <= k < 64 -> 0 <= wire < 2 ^ k -> is_u64 reference ->
  Z.lor (Z.land reference (not64 (2 ^ k - 1))) wire = reference - reference mod 2 ^ k + wire.
Proof.
  intros Hk Hw Hr. rewrite land_not64_low by done.
  apply (lor_high_low _ _ k); [lia| |lia].
  rewrite Zminus_mod_idemp_r, Z.sub_diag. apply Z.mod_0_l. lia.
Qed.

Lemma reconstruct_seq_spec wire reference :
  is_u16 wire -> is_u64 reference ->
  reconstruct_seq wire reference = reconstruct_spec 16 wire reference.
Proof.
  intros Hw Hr. unfold reconstruct_seq.
  change 0xFFFF with (2 ^ 16 - 1). rewrite candidate_eq by width. reflexivity.
Qed.

Lemma reconstruct_timestamp_spec wire reference :
  is_u64 reference ->
  reconstruct_timestamp wire reference = reconstruct_spec 24 (wire mod 2 ^ 24) reference.
Proof.
  intros Hr. unfold reconstruct_timestamp, TIMESTAMP_24BIT_MASK. cbv zeta.
  rewrite land_u24. change 0xFFFFFF with (2 ^ 24 - 1).
  rewrite candidate_eq; [reflexivity|lia| |done].
  apply Z.mod_pos_bound. lia.
Qed.

(** The reconstruction recovers every number within half the wire range of
    the reference. *)
Lemma reconstruct_spec_near k full reference :
  0 < k < 64 -> 0 <= full -> is_u64 reference -> full < 2 ^ 64 ->
  Z.abs (full - reference) < 2 ^ (k - 1) ->
  reconstruct_spec k (full mod 2 ^ k) reference = full.
Proof.
  intros Hk Hf Hr Hb Habs. unfold reconstruct_spec.
  assert (H2 : 2 ^ k = 2 * 2 ^ (k - 1)) by (rewrite <- Z.pow_succ_r; f_equal; lia).
  assert (0 < 2 ^ (k - 1)) by (apply Z.pow_pos_nonneg; lia).
  set (h := 2 ^ (k - 1)) in *. clearbody h.
  rewrite H2 in *. clear H2. 
  pose proof (Z.div_mod reference (2 * h) ltac:(lia)) as Er.
  pose proof (Z.div_mod full (2 * h) ltac:(lia)) as Ef.
  pose proof (Z.mod_pos_bound reference (2 * h) ltac:(lia)).
  pose proof (Z.mod_pos_bound full (2 * h) ltac:(lia)).
  set (rr := reference mod (2 * h)) in *. set (rq := reference / (2 * h)) in *.
  set (fr := full mod (2 * h)) in *. set (fq := full / (2 * h)) in *.
  assert (Hq : fq = rq \/ fq = rq - 1 \/ fq = rq + 1) by nia.
  destruct Hq as [Hq|[Hq|Hq]]; rewrite Hq in *; zcase; simpl; try nia.
  rewrite wadd64_small; [nia|]. unfold is_u64. nia.
Qed.

Lemma truncate_seq_mod full : truncate_seq full = full mod 2 ^ 16.
Proof. apply land_u16. Qed.

Lemma truncate_seq_range full : is_u16 (truncate_seq full).
Proof. rewrite truncate_seq_mod. apply Z.mod_pos_bound. lia. Qed.

Lemma truncate_timestamp_mod full : truncate_timestamp full = full mod 2 ^ 24.
Proof. apply land_u24. Qed.

(** The result always carries the wire value in its low bits. *)
Lemma reconstruct_spec_low k wire reference :
  0 < k < 64 -> 0 <= wire < 2 ^ k -> is_u64 reference ->
  reconstruct_spec k wire reference mod 2 ^ k = wire.
Proof.
  intros Hk Hw Hr. unfold reconstruct_spec.
  assert (H64 : 2 ^ 64 = 2 ^ k * 2 ^ (64 - k)) by (rewrite <- Z.pow_add_r; [f_equal|..]; lia).
  assert (0 < 2 ^ k) by lia. assert (0 < 2 ^ (64 - k)) by (apply Z.pow_pos_nonneg; lia).
  assert (Hc : forall z i,
    z = reference - reference mod 2 ^ k + wire + i * 2 ^ k -> z mod 2 ^ k = wire).
  { intros z i ->. rewrite Z.mod_add by lia. rewrite <- Z.add_mod_idemp_l by lia.
    rewrite Zminus_mod_idemp_r, Z.sub_diag, Z.mod_0_l by lia. apply Z.mod_small. lia. }
  assert (H1 := Hc _ 1 eq_refl).
  destruct (_ <? _); [destruct (_ && _)|destruct (_ <? _)].
  - apply (Hc _ (-1)). lia.
  - apply (Hc _ 0). lia.
  - unfold wadd64, wrap64. change 18446744073709551616 with (2 ^ 64). rewrite H64.
    rewrite Z.rem_mul_r, Z.mul_comm, Z.mod_add, Z.mod_mod by lia.
    rewrite <- H1. f_equal. lia.
  - apply (Hc _ 0). lia.
Qed.

(** Among the values that agree with the wire, the result is a closest one to
    the reference, as long as the reference is not within one wire range of
    the end of the 64-bit space. *)
Lemma reconstruct_spec_closest k wire reference y :
  0 < k < 63 -> 0 <= wire < 2 ^ k -> 0 <= reference -> reference + 2 ^ k < 2 ^ 64 ->
  0 <= y -> y mod 2 ^ k = wire ->
  Z.abs (reconstruct_spec k wire reference - reference) <= Z.abs (y - reference).
Proof.
  intros Hk Hw Hr Hr' Hy Hyw. unfold reconstruct_spec.
  assert (H2 : 2 ^ k = 2 * 2 ^ (k - 1)) by (rewrite <- Z.pow_succ_r; f_equal; lia).
  assert (0 < 2 ^ (k - 1)) by (apply Z.pow_pos_nonneg; lia).
  set (h := 2 ^ (k - 1)) in *. clearbody h. rewrite H2 in *. clear H2.
  pose proof (Z.div_mod reference (2 * h) ltac:(lia)) as Er.
  pose proof (Z.div_mod y (2 * h) ltac:(lia)) as Ey.
  pose proof (Z.mod_pos_bound reference (2 * h) ltac:(lia)).
  rewrite Hyw in Ey.
  set (rr := reference mod (2 * h)) in *. set (rq := reference / (2 * h)) in *.
  set (yq := y / (2 * h)) in *.
  assert (0 <= yq) by nia. assert (0 <= rq) by nia.
  assert (Hq : yq <= rq - 2 \/ yq = rq - 1 \/ yq = rq \/ yq = rq + 1 \/ rq + 2 <= yq) by lia.
  destruct Hq as [Hq|[Hq|[Hq|[Hq|Hq]]]]; try rewrite Hq in *; zcase; simpl;
    try (rewrite wadd64_small by (unfold is_u64; nia)); nia.
Qed.

(** The result is a 64-bit number less than one wire range above the
    reference. *)
Lemma reconstruct_seq_bound wire reference :
  is_u16 wire -> is_u64 reference ->
  0 <= reconstruct_seq wire reference < reference + 2 ^ 16 + 1 /\
  is_u64 (reconstruct_seq wire reference).
Proof.
  intros Hw Hr. rewrite reconstruct_seq_spec by done. unfold reconstruct_spec.
  pose proof (Z.mod_pos_bound reference (2 ^ 16) ltac:(lia)).
  assert (reference mod 2 ^ 16 <= reference) by (apply Z.mod_le; width).
  unfold is_u16, is_u64 in *. change (2 ^ 16) with 65536 in *. change (2 ^ (16 - 1)) with 32768.
  assert (reference - reference mod 65536 <= 18446744073709486080).
  { pose proof (Z.div_mod reference 65536 ltac:(lia)).
    assert (reference / 65536 < 281474976710656) by (apply Z.div_lt_upper_bound; lia). lia. }
  zcase; cbn [andb]; try lia.
  unfold wadd64, wrap64.
  pose proof (Z.mod_pos_bound (reference - reference mod 65536 + wire + 65536) 18446744073709551616 ltac:(lia)).
  pose proof (Z.mod_le (reference - reference mod 65536 + wire + 65536) 18446744073709551616 ltac:(lia) ltac:(lia)).
  lia.
Qed.

(** ** Channel sequence numbers *)

(** The channel sequence numbers in the order the sender assigns them: the
    naturals from 1 on, without the multiples of 65536. *)
Definition chan (k : nat) : Z := 1 + Z.of_nat k + Z.of_nat k / 65535.

Lemma chan_0 : chan 0 = 1.
Proof. reflexivity. Qed.

Lemma chan_eq k :
  chan k = 65536 * (Z.of_nat k / 65535) + Z.of_nat k mod 65535 + 1.
Proof. unfold chan. zdm. Qed.

Lemma chan_range k : chan k < U64_MAX -> is_u64 (chan k).
Proof. unfold chan, is_u64, U64_MAX. zdm. Qed.

Lemma next_channel_seq_spec c :
  0 <= c -> c + 2 < 2 ^ 64 ->
  next_channel_seq c = if (c + 1) mod 65536 =? 0 then c + 2 else c + 1.
Proof.
  intros Hc Hb. unfold next_channel_seq.
  rewrite (wadd64_small c) by width. rewrite land_u16.
  zcase; [|done]. rewrite wadd64_small by width. lia.
Qed.

Lemma next_channel_seq_chan k :
  chan k + 2 < 2 ^ 64 -> next_channel_seq (chan k) = chan (S k).
Proof.
  intros Hb. rewrite next_channel_seq_spec; [|unfold chan; zdm|done].
  rewrite (chan_eq (S k)), (chan_eq k), Nat2Z.inj_succ.
  pose proof (Z.mod_pos_bound (Z.of_nat k) 65535 ltac:(lia)).
  set (q := Z.of_nat k / 65535). set (r := Z.of_nat k mod 65535) in *.
  replace (65536 * q + r + 1 + 1) with (r + 2 + q * 65536) by lia.
  rewrite Z.mod_add by lia.
  assert (Hk : Z.of_nat k = 65535 * q + r) by (apply Z.div_mod; lia).
  destruct (Z.eqb_spec ((r + 2) mod 65536) 0) as [E|E].
  - assert (r = 65534) by zdm. rewrite Hk. zdm.
  - assert (r <> 65534) by (intros ->; by apply E). rewrite Hk. zdm.
Qed.

Lemma chan_mono i j : (i < j)%nat -> chan i < chan j.
Proof. intros H. unfold chan. zdm. Qed.

Lemma chan_inj i j : chan i = chan j -> i = j.
Proof.
  intros H. destruct (Nat.lt_trichotomy i j) as [Hl|[->|Hl]]; [|done|];
    apply chan_mono in Hl; lia.
Qed.

Lemma chan_wire_nonzero k : truncate_seq (chan k) <> 0.
Proof. rewrite truncate_seq_mod. unfold chan. zdm. Qed.

Lemma chan_surj c : 0 < c -> c mod 65536 <> 0 -> exists k, chan k = c.
Proof.
  intros Hc Hm. exists (Z.to_nat (c - 1 - c / 65536)). unfold chan.
  rewrite Z2Nat.id; zdm.
Qed.

(** ** Properties *)

Lemma reconstruct_truncate full reference :
  is_u64 full -> is_u64 reference -> Z.abs (full - reference) < 2 ^ 15 ->
  reconstruct_seq (truncate_seq full) reference = full.
Proof.
  intros Hf Hr Habs. rewrite reconstruct_seq_spec by (done || apply truncate_seq_range).
  rewrite truncate_seq_mod. apply reconstruct_spec_near; [lia|width|done|width|lia].
Qed.

(** Truncating a 64-bit sequence number to its 16-bit wire form and
    reconstructing it against any reference less than half the wire range
    away, on either side and across every wrap of the low half, gives back the
    number. *)
Theorem seq_roundtrip full reference :
  is_u64 full -> is_u64 reference -> Z.abs (full - reference) < 2 ^ 15 ->
  reconstruct_seq (truncate_seq full) reference = full.
Proof. apply reconstruct_truncate. Qed.

Lemma seq_roundtrip_witness : reconstruct_seq (truncate_seq 65540) 65530 = 65540.
Proof. apply (seq_roundtrip 65540 65530); vm_compute; split; congruence || reflexivity. Defined.

(** Whatever the peer puts on the wire, the reconstructed number carries
    that wire value and no 64-bit number that does is closer to the
    reference. *)
Theorem seq_closest wire reference y :
  is_u16 wire -> is_u64 reference -> reference + 2 ^ 16 < 2 ^ 64 ->
  0 <= y -> truncate_seq y = wire ->
  truncate_seq (reconstruct_seq wire reference) = wire /\
  Z.abs (reconstruct_seq wire reference - reference) <= Z.abs (y - reference).
Proof.
  intros Hw Hr Hb Hy Hyw. rewrite truncate_seq_mod in *. rewrite reconstruct_seq_spec by done.
  split; [apply reconstruct_spec_low; [lia|width|done]|].
  apply reconstruct_spec_closest; [lia|width|width|lia|lia|done].
Qed.

Lemma seq_closest_witness :
  truncate_seq (reconstruct_seq 3 131070) = 3 /\
  Z.abs (reconstruct_seq 3 131070 - 131070) <= Z.abs (65539 - 131070).
Proof. apply (seq_closest 3 131070 65539); vm_compute; (split; congruence) || congruence || reflexivity. Defined.

(** A 24-bit timestamp is reconstructed exactly when the clocks it is
    compared with are less than half its range (about 33 seconds) apart. *)
Theorem timestamp_roundtrip full reference :
  is_u64 full -> is_u64 reference -> Z.abs (full - reference) < 2 ^ 23 ->
  reconstruct_timestamp (truncate_timestamp full) reference = full.
Proof.
  intros Hf Hr Habs. rewrite reconstruct_timestamp_spec, truncate_timestamp_mod by done.
  rewrite Z.mod_mod by lia. apply reconstruct_spec_near; [lia|width|done|width|lia].
Qed.

Lemma timestamp_roundtrip_witness :
  reconstruct_timestamp (truncate_timestamp 16777300) 16777000 = 16777300.
Proof. apply (timestamp_roundtrip 16777300 16777000); vm_compute; split; congruence || reflexivity. Defined.

(** The channel sequence numbers the sender hands out from 1 on are, in
    order and without a gap or a repetition, the positive integers that are
    not multiples of 65536: the wire value 0 is never sent. *)
Theorem channel_numbers_enumerate :
  chan 0 = 1 /\
  (forall k, chan k + 2 < 2 ^ 64 -> next_channel_seq (chan k) = chan (S k)) /\
  (forall c, (exists k, chan k = c) <-> 0 < c /\ truncate_seq c <> 0) /\
  (forall i j, chan i = chan j -> i = j).
Proof.
  split_and!; [done|apply next_channel_seq_chan| |apply chan_inj].
  intros c. split.
  - intros [k <-]. split; [unfold chan; zdm|apply chan_wire_nonzero].
  - rewrite truncate_seq_mod. intros [Hc Hm]. by apply chan_surj.
Qed.
