(* ===== verification/Timing.v ===== *)
(** Time in the RDP-UDP2 transport: [MonotonicInstant]
    (src/crates/ironrdp-core/src/time.rs), the part of [core::time::Duration]
    the transport uses, the RTT estimator
    (src/crates/ironrdp-rdpeudp/src/rtt.rs) and the timer table
    (src/crates/ironrdp-rdpeudp/src/timer.rs).

    A [Duration] is its length in nanoseconds, a [MonotonicInstant] its
    reading in milliseconds. *)

From Stdlib Require Import SpecFloat.
From stdpp Require Export vector.
From S2P Require Import Prelude.

(** ** Duration *)

Module Duration.

Definition NANOS_PER_SEC : Z := 1000000000.
Definition from_millis (ms : Z) : Z := ms * 1000000.
Definition from_secs (s : Z) : Z := s * NANOS_PER_SEC.
Definition as_millis (d : Z) : Z := d / 1000000.
Definition abs_diff (a b : Z) : Z := Z.abs (a - b).
Definition clamp (d lo hi : Z) : Z := if d <? lo then lo else if hi <? d then hi else d.
Definition checked_sub (a b : Z) : option Z := if b <=? a then Some (a - b) else None.

(** IEEE 754 binary64, on the specification floats of the standard library. *)
Definition f64 := spec_float.
Definition f64_of_Z (n : Z) : f64 := binary_normalize 53 1024 n 0 false.
Definition f64_add (x y : f64) : f64 := SFadd 53 1024 x y.
Definition f64_sub (x y : f64) : f64 := SFsub 53 1024 x y.
Definition f64_mul (x y : f64) : f64 := SFmul 53 1024 x y.
Definition f64_div (x y : f64) : f64 := SFdiv 53 1024 x y.

Definition as_secs_f64 (d : Z) : f64 :=
  f64_add (f64_of_Z (d / NANOS_PER_SEC))
          (f64_div (f64_of_Z (d mod NANOS_PER_SEC)) (f64_of_Z NANOS_PER_SEC)).

(** The nearest integer to [n / d], ties to even. *)
Definition round_half_even (n d : Z) : Z :=
  let q := n / d in
  let r := n mod d in
  if 2 * r <? d then q
  else if d <? 2 * r then q + 1
  else if Z.even q then q else q + 1.

(** [Duration::from_secs_f64]: [None] is its panic on a value that is
    negative, not finite or too large. *)
Definition from_secs_f64 (x : f64) : option Z :=
  match x with
  | S754_zero _ => Some 0
  | S754_finite false m e =>
      let nanos :=
        if 0 <=? e then Zpos m * 2 ^ e * NANOS_PER_SEC
        else round_half_even (Zpos m * NANOS_PER_SEC) (2 ^ (- e)) in
      if nanos <? 2 ^ 64 * NANOS_PER_SEC then Some nanos else None
  | _ => None
  end.

Definition mul_f64 (d : Z) (k : f64) : option Z := from_secs_f64 (f64_mul k (as_secs_f64 d)).

End Duration.

(** ** MonotonicInstant *)

Module Instant.

Definition duration_since (now earlier : Z) : Z := Duration.from_millis (sat_sub now earlier).

Definition saturating_add (now duration : Z) : Z :=
  let milliseconds :=
    if Duration.as_millis duration <=? U64_MAX then Duration.as_millis duration else U64_MAX in
  sat_add64 now milliseconds.

Lemma saturating_add_range now d : is_u64 now -> 0 <= d -> is_u64 (saturating_add now d).
Proof.
  intros Hn Hd. unfold saturating_add, sat_add64, Duration.as_millis.
  assert (0 <= d / 1000000) by (apply Z.div_pos; lia). zcase; width.
Qed.

(** A deadline is never before the instant it was set at. *)
Lemma saturating_add_ge now d : is_u64 now -> 0 <= d -> now <= saturating_add now d.
Proof.
  intros Hn Hd. unfold saturating_add, sat_add64, Duration.as_millis.
  assert (0 <= d / 1000000) by (apply Z.div_pos; lia). zcase; width.
Qed.

End Instant.

(** ** RttEstimator *)

Module Rtt.
Import Duration.

Definition MIN_RTO : Z := from_millis 100.
Definition MAX_RTO : Z := from_secs 16.
Definition INITIAL_RTO : Z := from_secs 1.
Definition SRTT_ALPHA : Z := 8.
Definition RTTVAR_BETA : Z := 4.

Record RttEstimator := mkRtt { srtt : option Z; rttvar : Z; rto : Z }.

Definition new : RttEstimator := mkRtt None 0 INITIAL_RTO.

Definition recompute_rto (e : RttEstimator) : RttEstimator :=
  match srtt e with
  | Some s =>
      let k_rttvar := rttvar e * 4 in
      let variance_floor := from_millis 1 in
      let r := s + Z.max k_rttvar variance_floor in
      mkRtt (srtt e) (rttvar e) (clamp r MIN_RTO MAX_RTO)
  | None => e
  end.

(** [1.0 - 1.0 / f64::from(n)] *)
Definition one_minus_inv (n : Z) : f64 :=
  f64_sub (f64_of_Z 1) (f64_div (f64_of_Z 1) (f64_of_Z n)).

(** [None] is a panic of [mul_f64]; [update_total] shows there is none. *)
Definition update (e : RttEstimator) (rtt : Z) : option RttEstimator :=
  match srtt e with
  | None => Some (recompute_rto (mkRtt (Some rtt) (rtt / 2) (rto e)))
  | Some s =>
      v ← mul_f64 (rttvar e) (one_minus_inv RTTVAR_BETA);
      w ← mul_f64 s (one_minus_inv SRTT_ALPHA);
      let rttvar' := v + abs_diff s rtt / RTTVAR_BETA in
      let srtt' := w + rtt / SRTT_ALPHA in
      Some (recompute_rto (mkRtt (Some srtt') rttvar' (rto e)))
  end.

Definition on_timeout (e : RttEstimator) : RttEstimator :=
  mkRtt (srtt e) (rttvar e) (Z.min (rto e * 2) MAX_RTO).

Definition reset_backoff (e : RttEstimator) : RttEstimator := recompute_rto e.

End Rtt.

(** ** TimerTable *)

Module Timers.

Inductive Timer := Retransmit | AckDelay | Idle | KeepAlive.

#[export] Instance Timer_eq_dec : EqDecision Timer.
Proof. solve_decision. Defined.

Definition TIMER_COUNT : nat := 4.

Definition ALL : list Timer := [Retransmit; AckDelay; Idle; KeepAlive].

Definition index (t : Timer) : fin TIMER_COUNT :=
  match t with
  | Retransmit => 0%fin
  | AckDelay => 1%fin
  | Idle => 2%fin
  | KeepAlive => 3%fin
  end.

Definition TimerTable : Type := vec (option Z) TIMER_COUNT.

Definition new : TimerTable := vreplicate TIMER_COUNT None.
Definition set (tt : TimerTable) (t : Timer) (deadline : Z) : TimerTable :=
  vinsert (index t) (Some deadline) tt.
Definition clear (tt : TimerTable) (t : Timer) : TimerTable := vinsert (index t) None tt.
Definition get (tt : TimerTable) (t : Timer) : option Z := tt !!! index t.
Definition is_set (tt : TimerTable) (t : Timer) : bool :=
  match tt !!! index t with Some _ => true | None => false end.

(** [Iterator::min] over the active deadlines. *)
Definition min_opt (l : list Z) : option Z :=
  match l with
  | [] => None
  | x :: l' => Some (foldl Z.min x l')
  end.

Definition next_deadline (tt : TimerTable) : option Z := min_opt (omap id (vec_to_list tt)).

Definition expired (tt : TimerTable) (now : Z) : list Timer :=
  filter (fun t => match tt !!! index t with Some d => d <=? now | None => false end = true) ALL.

Lemma index_inj : Inj (=) (=) index.
Proof. intros [] [] H; done || discriminate. Qed.

Lemma get_set tt t t' d : get (set tt t d) t' = if decide (t = t') then Some d else get tt t'.
Proof.
  unfold get, set. case_decide as E.
  - subst. apply vlookup_insert.
  - apply vlookup_insert_ne. intros Hi. by apply E, index_inj.
Qed.

Lemma get_clear tt t t' : get (clear tt t) t' = if decide (t = t') then None else get tt t'.
Proof.
  unfold get, clear. case_decide as E.
  - subst. apply vlookup_insert.
  - apply vlookup_insert_ne. intros Hi. by apply E, index_inj.
Qed.

Lemma get_new t : get new t = None.
Proof. by destruct t. Qed.

Lemma is_set_get tt t : is_set tt t = bool_decide (is_Some (get tt t)).
Proof.
  unfold is_set, get. destruct (tt !!! index t); [by rewrite bool_decide_true|].
  by rewrite bool_decide_false by apply is_Some_None.
Qed.

(** Two tables that agree on every timer are equal. *)
Lemma table_ext (tt tt' : TimerTable) : (forall t, get tt t = get tt' t) -> tt = tt'.
Proof.
  intros H. apply vec_eq. intros i.
  pose proof (H Retransmit). pose proof (H AckDelay). pose proof (H Idle). pose proof (H KeepAlive).
  repeat (inv_fin i; [done|intros i]). inv_fin i.
Qed.

Lemma elem_of_expired tt now t :
  t ∈ expired tt now <-> exists d, get tt t = Some d /\ d <= now.
Proof.
  unfold expired. rewrite list_elem_of_filter. unfold get.
  split.
  - intros [H _]. destruct (tt !!! index t) as [d|]; [|done]. exists d.
    split; [done|]. lia.
  - intros (d & -> & H). split; [lia|]. destruct t; unfold ALL; set_solver.
Qed.

Lemma foldl_min x l y : y ∈ x :: l -> foldl Z.min x l <= y.
Proof.
  revert x y. induction l as [|z l IH]; intros x y H; simpl.
  - apply list_elem_of_singleton in H. lia.
  - apply elem_of_cons in H as [->|H].
    + pose proof (IH (Z.min x z) (Z.min x z) ltac:(left)). lia.
    + apply elem_of_cons in H as [->|H].
      * pose proof (IH (Z.min x z) (Z.min x z) ltac:(left)). lia.
      * apply IH. by right.
Qed.

Lemma foldl_min_in x l : foldl Z.min x l ∈ x :: l.
Proof.
  revert x. induction l as [|z l IH]; intros x; simpl; [left|].
  specialize (IH (Z.min x z)). apply elem_of_cons in IH as [->|IH]; [|set_solver].
  destruct (Z.min_spec x z) as [[_ ->]|[_ ->]]; set_solver.
Qed.

Lemma elem_of_active tt d : d ∈ omap id (vec_to_list tt) <-> exists t, get tt t = Some d.
Proof.
  rewrite list_elem_of_omap. split.
  - intros (o & Ho & Hd). simpl in Hd. subst o.
    apply elem_of_vlookup in Ho as [i Hi].
    repeat (inv_fin i; [intros Hi; (by exists Retransmit) || (by exists AckDelay) ||
      (by exists Idle) || (by exists KeepAlive)|intros i Hi; revert Hi]).
    inv_fin i.
  - intros [t H]. exists (Some d). split; [|done]. apply elem_of_vlookup. by exists (index t).
Qed.

(** [next_deadline] is the earliest active deadline. *)
Lemma next_deadline_spec tt :
  match next_deadline tt with
  | Some d => (exists t, get tt t = Some d) /\ forall t d', get tt t = Some d' -> d <= d'
  | None => forall t, get tt t = None
  end.
Proof.
  unfold next_deadline, min_opt. pose proof (elem_of_active tt) as H.
  destruct (omap id (vec_to_list tt)) as [|x l].
  - intros t. destruct (get tt t) as [d|] eqn:E; [|done].
    assert (d ∈ []) by (apply H; eauto). set_solver.
  - split.
    + apply H, foldl_min_in.
    + intros t d' E. apply foldl_min, H. eauto.
Qed.

(** [next_deadline] and [expired] agree: before the reported deadline no
    timer has expired, at the deadline one has, and when none is reported no
    timer ever expires; [expired] lists exactly the armed timers whose deadline
    has passed. *)
Theorem deadline_contract tt :
  match next_deadline tt with
  | Some d => expired tt d <> [] /\ forall now, now < d -> expired tt now = []
  | None => forall now, expired tt now = []
  end /\
  forall now t, t ∈ expired tt now <-> exists d, get tt t = Some d /\ d <= now.
Proof.
  split; [|intros; apply elem_of_expired].
  pose proof (next_deadline_spec tt) as H. destruct (next_deadline tt) as [d|].
  - destruct H as [[t Ht] Hmin]. split.
    + intros E. assert (t ∈ expired tt d) as Hin by (apply elem_of_expired; eauto with lia).
      rewrite E in Hin. set_solver.
    + intros now Hn. destruct (expired tt now) as [|t' l] eqn:E; [done|].
      assert (t' ∈ expired tt now) as Hin by (rewrite E; left).
      apply elem_of_expired in Hin as (d' & Hd' & Hle). specialize (Hmin _ _ Hd'). lia.
  - intros now. destruct (expired tt now) as [|t' l] eqn:E; [done|].
    assert (t' ∈ expired tt now) as Hin by (rewrite E; left).
    apply elem_of_expired in Hin as (d' & Hd' & _). rewrite H in Hd'. done.
Qed.

End Timers.
