(* ===== verification/FloatBounds.v ===== *)
(** Upper bounds for the binary64 arithmetic behind [Duration::mul_f64], and
    with them the totality of the RTT estimator
    (src/crates/ironrdp-rdpeudp/src/rtt.rs): its updates never reach the panic
    of [Duration::from_secs_f64], for any round trip a [MonotonicInstant] can
    measure.

    A nonnegative float is bounded through its value scaled by [2^1200], an
    integer for every exponent that occurs. *)

From Stdlib Require Import SpecFloat.
From S2P Require Import Prelude Timing.

Open Scope Z_scope.

(** ** Digits and shifts *)

Lemma digits2_pos_bounds p : 2 ^ (Zpos (digits2_pos p) - 1) <= Zpos p < 2 ^ Zpos (digits2_pos p).
Proof.
  induction p as [p IH|p IH|]; cbn [digits2_pos]; [| |by split].
  - rewrite Pos2Z.inj_succ. replace (Z.succ (Zpos (digits2_pos p)) - 1) with (Z.succ (Zpos (digits2_pos p) - 1)) by lia.
    rewrite !Z.pow_succ_r by lia. lia.
  - rewrite Pos2Z.inj_succ. replace (Z.succ (Zpos (digits2_pos p)) - 1) with (Z.succ (Zpos (digits2_pos p) - 1)) by lia.
    rewrite !Z.pow_succ_r by lia. lia.
Qed.

Lemma iter_pos_add {A} (f : A -> A) (P : Z -> A -> Prop) p x :
  P 0 x -> (forall k y, 0 <= k -> P k y -> P (k + 1) (f y)) -> P (Zpos p) (SpecFloat.iter_pos f p x).
Proof.
  intros H0 HS.
  assert (Hg : forall p k y, 0 <= k -> P k y -> P (k + Zpos p) (SpecFloat.iter_pos f p y)).
  { clear p x H0. intros p. induction p as [p IH|p IH|]; intros k y Hk Hy; cbn [SpecFloat.iter_pos].
    - replace (k + Zpos p~1) with ((k + 1) + Zpos p + Zpos p) by lia.
      apply IH; [lia|]. apply IH; [lia|]. by apply HS.
    - replace (k + Zpos p~0) with (k + Zpos p + Zpos p) by lia. apply IH; [lia|]. by apply IH.
    - by apply HS. }
  by apply (Hg p 0 x).
Qed.

Lemma shr_1_div r : 0 <= shr_m r -> shr_m (shr_1 r) = shr_m r / 2.
Proof.
  destruct r as [m b s]. cbn [shr_m]. intros Hm. destruct m as [|[p|p|]|p]; cbn; try done; try lia.
  - rewrite Pos2Z.inj_xI. zdm.
  - rewrite Pos2Z.inj_xO. zdm.
Qed.

Lemma iter_shr_div p r : 0 <= shr_m r -> shr_m (SpecFloat.iter_pos shr_1 p r) = shr_m r / 2 ^ Zpos p.
Proof.
  intros Hm.
  apply (iter_pos_add shr_1 (fun k y => shr_m y = shr_m r / 2 ^ k)).
  - by rewrite Z.div_1_r.
  - intros k y Hk Hy. assert (0 <= shr_m y) by (rewrite Hy; apply Z.div_pos; lia).
    rewrite shr_1_div, Hy by done. rewrite Z.pow_add_r, Z.div_div by lia. done.
Qed.

(** ** Rounding *)

Definition scale : Z := 1200.

(** A float that is zero or positive and finite, of value at most [B / 2^1200]. *)
Definition ub (x : spec_float) (B : Z) : Prop :=
  match x with
  | S754_zero false => 0 <= B
  | S754_finite false m e => -1074 <= e /\ Zpos m * 2 ^ (e + scale) <= B
  | _ => False
  end.

Lemma ub_weaken x B B' : ub x B -> B <= B' -> ub x B'.
Proof. destruct x as [[]| | |[]]; cbn; lia. Qed.

Abbreviation fx := (fexp 53 1024).

Lemma fx_eq e : fx e = Z.max (e - 53) (-1074).
Proof. reflexivity. Qed.

Lemma loc_record m l : loc_of_shr_record (shr_record_of_loc m l) = l.
Proof. by destruct l as [|[]]. Qed.

Lemma shr_m_record m l : shr_m (shr_record_of_loc m l) = m.
Proof. by destruct l as [|[]]. Qed.

(** Whether a location means the value is above the integer mantissa. *)
Definition above (l : location) : Z := match l with loc_Exact => 0 | _ => 1 end.

Lemma round_le m l : m <= round_nearest_even m l <= m + above l.
Proof. destruct l as [|[]]; cbn; try destruct (Z.even m); lia. Qed.

(** The first rounding step: the mantissa and exponent it produces exceed the
    true value by at most one unit in the 53rd digit. *)
Lemma round_step m e l mrs e' X :
  0 <= m -> - scale <= e -> (m + above l) * 2 ^ (e + scale) <= X ->
  shr_fexp 53 1024 m e l = (mrs, e') ->
  let m' := round_nearest_even (shr_m mrs) (loc_of_shr_record mrs) in
  0 <= m' /\ -1074 <= e' /\
  m' * 2 ^ (e' + scale) * 2 ^ 52 <= X * (2 ^ 52 + 1) + 2 ^ (52 + 126).
Proof.
  intros Hm He HX Hs m'. unfold shr_fexp, shr in Hs.
  assert (Hpe : 0 < 2 ^ (e + scale)) by (apply Z.pow_pos_nonneg; lia).
  assert (0 <= above l) by (destruct l; cbn; lia).
  assert (Hm0 : m * 2 ^ (e + scale) <= X) by nia.
  rewrite fx_eq in Hs. set (d := Zdigits2 m) in *.
  destruct (Z.max (d + e - 53) (-1074) - e) as [|p|p] eqn:En.
  1, 3: injection Hs as <- <-; subst m'; rewrite shr_m_record, loc_record;
    pose proof (round_le m l); split_and!; [lia|lia|]; nia.
  injection Hs as <- <-.
  pose proof (iter_shr_div p (shr_record_of_loc m l)) as Hd. rewrite shr_m_record in Hd.
  specialize (Hd Hm). set (r := SpecFloat.iter_pos shr_1 p (shr_record_of_loc m l)) in *.
  pose proof (round_le (shr_m r) (loc_of_shr_record r)) as Hr. fold m' in Hr.
  assert (above (loc_of_shr_record r) <= 1) by (destruct (loc_of_shr_record r); cbn; lia).
  assert (Hq0 : 0 <= shr_m r) by (rewrite Hd; apply Z.div_pos; lia).
  assert (Hq1 : shr_m r * 2 ^ Zpos p <= m) by (rewrite Hd, Z.mul_comm; apply Z.mul_div_le; lia).
  split_and!; [lia|lia|].
  replace (e + Zpos p + scale) with (Zpos p + (e + scale)) by lia.
  rewrite Z.pow_add_r by lia. set (P := 2 ^ Zpos p) in *. set (E := 2 ^ (e + scale)) in *.
  assert (0 < P) by (apply Z.pow_pos_nonneg; lia).
  assert (Hcase : P * E <= 2 ^ 126 \/ P * 2 ^ 52 <= m).
  { destruct (Z.le_ge_cases (d + e - 53) (-1074)).
    - left. unfold P, E. rewrite <- Z.pow_add_r by lia. apply Z.pow_le_mono_r; [lia|]. unfold scale. lia.
    - right. assert (Hdp : Zpos p = d - 53) by lia. destruct m as [|mp|mp]; [cbn in d; lia| |lia].
      unfold d in Hdp. cbn [Zdigits2] in Hdp. pose proof (digits2_pos_bounds mp) as [Hlo _].
      unfold P. rewrite <- Z.pow_add_r by lia. replace (Zpos p + 52) with (Zpos (digits2_pos mp) - 1) by lia.
      done. }
  assert (Hval : m' * (P * E) <= X + P * E) by nia.
  destruct Hcase as [Hc|Hc].
  - rewrite Z.pow_add_r by lia. nia.
  - assert (P * 2 ^ 52 * E <= X) by nia. nia.
Qed.

Lemma round_ub m e l X B :
  0 <= m -> - scale <= e -> (m + above l) * 2 ^ (e + scale) <= X ->
  X * (2 ^ 52 + 1) + 2 ^ (52 + 126) <= B * 2 ^ 52 -> B <= 2 ^ 900 * 2 ^ scale ->
  ub (binary_round_aux 53 1024 false m e l) B.
Proof.
  intros Hm He HX HB HB2. unfold binary_round_aux.
  destruct (shr_fexp 53 1024 m e l) as [mrs e'] eqn:E1.
  pose proof (round_step m e l mrs e' X Hm He HX E1) as (Hm' & He' & Hv).
  set (m' := round_nearest_even (shr_m mrs) (loc_of_shr_record mrs)) in *.
  assert (Hv' : m' * 2 ^ (e' + scale) <= B) by nia.
  clearbody m'. clear E1 Hv HX HB.
  destruct (shr_fexp 53 1024 m' e' loc_Exact) as [mrs2 e2] eqn:E2.
  unfold shr_fexp, shr in E2. rewrite fx_eq in E2.
  assert (H2 : 0 <= shr_m mrs2 <= m' /\ e' <= e2 /\ shr_m mrs2 * 2 ^ (e2 + scale) <= B).
  { unfold scale in *.
    destruct (Z.max (Zdigits2 m' + e' - 53) (-1074) - e') as [|p|p] eqn:En;
      injection E2 as <- <-; [cbn; lia| |cbn; lia].
    pose proof (iter_shr_div p (shr_record_of_loc m' loc_Exact)) as Hd. cbn [shr_record_of_loc shr_m] in Hd.
    specialize (Hd Hm'). rewrite Hd.
    assert (0 < 2 ^ Zpos p) by lia. assert (0 <= m' / 2 ^ Zpos p) by (apply Z.div_pos; lia).
    pose proof (Z.mul_div_le m' (2 ^ Zpos p) ltac:(lia)).
    split_and!; [lia|nia|lia|]. replace (e' + Zpos p + 1200) with (Zpos p + (e' + 1200)) by lia.
    rewrite Z.pow_add_r by lia. assert (0 < 2 ^ (e' + 1200)) by (apply Z.pow_pos_nonneg; lia). nia. }
  destruct H2 as (Hpos & Hee & Hval).
  destruct (shr_m mrs2) as [|p|p]; [cbn; lia| |lia].
  assert (e2 <= 900).
  { assert (Hle : 2 ^ (e2 + scale) <= 2 ^ (900 + scale)).
    { rewrite (Z.pow_add_r 2 900) by (unfold scale; lia).
      assert (0 < 2 ^ (e2 + scale)) by (apply Z.pow_pos_nonneg; unfold scale; lia). nia. }
    apply Z.pow_le_mono_r_iff in Hle; unfold scale in *; lia. }
  destruct (Z.leb_spec e2 (1024 - 53)); [|lia]. cbn [ub]. lia.
Qed.

(** ** Operations *)

Import Duration.

Lemma pos_iter_xO d p : Zpos (Pos.iter xO p d) = Zpos p * 2 ^ Zpos d.
Proof.
  induction d using Pos.peano_ind; [change (Zpos p~0 = Zpos p * 2); lia|].
  rewrite Pos.iter_succ, Pos2Z.inj_xO, IHd, Pos2Z.inj_succ, Z.pow_succ_r by lia. lia.
Qed.

Lemma shl_align_value m e e' :
  let '(m2, e2) := shl_align m e e' in
  e2 = Z.min e e' /\ Zpos m2 = Zpos m * 2 ^ (e - e2).
Proof.
  unfold shl_align. destruct (e' - e) as [|d|d] eqn:E.
  - split; [lia|]. by rewrite Z.sub_diag, Z.mul_1_r.
  - split; [lia|]. by rewrite Z.sub_diag, Z.mul_1_r.
  - split; [lia|]. rewrite pos_iter_xO. f_equal. f_equal. lia.
Qed.

(** [binary_round] of an exact value [m * 2^e]. *)
Lemma binary_round_ub m e X B :
  - scale <= e -> Zpos m * 2 ^ (e + scale) <= X ->
  X * (2 ^ 52 + 1) + 2 ^ (52 + 126) <= B * 2 ^ 52 -> B <= 2 ^ 900 * 2 ^ scale ->
  ub (binary_round 53 1024 false m e) B.
Proof.
  intros He HX HB HB2. unfold binary_round.
  pose proof (shl_align_value m e (fx (Zpos (digits2_pos m) + e))) as Hs.
  destruct (shl_align _ _ _) as [m2 e2]. destruct Hs as [He2 Hm2]. rewrite fx_eq in He2.
  apply (round_ub _ _ _ X); [lia|unfold scale in *; lia| |done|done]. cbn [above]. rewrite Z.add_0_r, Hm2.
  rewrite <- Z.mul_assoc, <- Z.pow_add_r by (unfold scale in *; lia).
  replace (e - e2 + (e2 + scale)) with (e + scale) by lia. done.
Qed.

Lemma f64_of_Z_ub n N B :
  0 <= n <= N -> N * 2 ^ scale * (2 ^ 52 + 1) + 2 ^ (52 + 126) <= B * 2 ^ 52 ->
  B <= 2 ^ 900 * 2 ^ scale -> ub (f64_of_Z n) B.
Proof.
  intros Hn HB HB2. unfold f64_of_Z, binary_normalize. destruct n as [|p|p]; [cbn; lia| |lia].
  apply (binary_round_ub _ _ (N * 2 ^ scale)); [unfold scale; lia| |done|done].
  rewrite Z.add_0_l. nia.
Qed.

Lemma f64_add_ub x y A A' B :
  ub x A -> ub y A' ->
  (A + A') * (2 ^ 52 + 1) + 2 ^ (52 + 126) <= B * 2 ^ 52 -> B <= 2 ^ 900 * 2 ^ scale ->
  ub (f64_add x y) B.
Proof.
  intros Hx Hy HB HB2. unfold f64_add, SFadd.
  assert (HA : 0 <= A).
  { destruct x as [[]| | |[] m e]; cbn in Hx; try done. assert (0 < 2 ^ (e + scale)) by (apply Z.pow_pos_nonneg; unfold scale; lia). nia. }
  assert (HA' : 0 <= A').
  { destruct y as [[]| | |[] m e]; cbn in Hy; try done. assert (0 < 2 ^ (e + scale)) by (apply Z.pow_pos_nonneg; unfold scale; lia). nia. }
  destruct x as [[]| | |[] m1 e1], y as [[]| | |[] m2 e2]; cbn [ub] in Hx, Hy; try done.
  - cbn [ub]. nia.
  - apply (ub_weaken _ A'); [done|nia].
  - apply (ub_weaken _ A); [done|nia].
  - pose proof (shl_align_value m1 e1 (Z.min e1 e2)) as H1.
    pose proof (shl_align_value m2 e2 (Z.min e1 e2)) as H2.
    destruct (shl_align m1 e1 _) as [k1 f1]. destruct (shl_align m2 e2 _) as [k2 f2].
    destruct H1 as [Hf1 Hk1], H2 as [Hf2 Hk2]. cbn [fst cond_Zopp].
    unfold binary_normalize. destruct (Zpos k1 + Zpos k2) as [|p|p] eqn:Ep; [lia| |lia].
    set (ez := Z.min e1 e2) in *.
    apply (binary_round_ub _ _ (A + A')); [unfold scale; lia| |done|done]. rewrite <- Ep, Z.mul_add_distr_r.
    rewrite Hk1, Hk2, <- !Z.mul_assoc, <- !Z.pow_add_r by (unfold scale; lia).
    replace (e1 - f1 + (ez + scale)) with (e1 + scale) by lia.
    replace (e2 - f2 + (ez + scale)) with (e2 + scale) by lia. lia.
Qed.

(** Multiplying by a constant [mk * 2^ek]. *)
Lemma f64_mul_ub mk ek x A B :
  -100 <= ek <= 0 -> ub x A ->
  Zpos mk * A * (2 ^ 52 + 1) + 2 ^ (52 + 126) * 2 ^ (- ek) <= B * 2 ^ 52 * 2 ^ (- ek) ->
  B <= 2 ^ 900 * 2 ^ scale ->
  ub (f64_mul (S754_finite false mk ek) x) B.
Proof.
  intros Hk Hx HB HB2. unfold f64_mul, SFmul. assert (0 < 2 ^ (- ek)) by (apply Z.pow_pos_nonneg; lia).
  destruct x as [[]| | |[] m e]; cbn [ub xorb] in *; try done.
  { nia. }
  destruct Hx as [He HA]. set (P := Zpos mk * A / 2 ^ (- ek)).
  pose proof (Z.mul_div_le (Zpos mk * A) (2 ^ (- ek)) ltac:(lia)) as HP. fold P in HP.
  assert (H1 : Zpos (mk * m) * 2 ^ (ek + e + scale) * 2 ^ (- ek) <= Zpos mk * A).
  { rewrite Pos2Z.inj_mul, <- Z.mul_assoc, <- Z.pow_add_r by (unfold scale; lia).
    replace (ek + e + scale + - ek) with (e + scale) by lia. nia. }
  apply (round_ub _ _ _ P); [lia|unfold scale; lia| | |done].
  - cbn [above]. rewrite Z.add_0_r. unfold P. apply Z.div_le_lower_bound; [lia|]. lia.
  - apply (Zmult_le_reg_r _ _ (2 ^ (- ek))); [lia|].
    rewrite Z.mul_add_distr_r. nia.
Qed.

(** Dividing by [10^9]: the fraction of a second is at most four. *)
Lemma nanos_div_ub x :
  ub x (2 * 10 ^ 9 * 2 ^ scale) -> ub (f64_div x (f64_of_Z NANOS_PER_SEC)) (4 * 2 ^ scale).
Proof.
  assert (H9 : f64_of_Z NANOS_PER_SEC = S754_finite false 8388608000000000 (-23)) by (vm_compute; reflexivity).
  rewrite H9. destruct x as [[]| | |[] m e]; cbn [ub]; try done. intros [He Hx].
  unfold f64_div, SFdiv, SFdiv_core_binary.
  change (Zdigits2 8388608000000000) with 53. cbn [Zdigits2]. rewrite fx_eq.
  set (d := Zpos (digits2_pos m)). set (e' := Z.min (Z.max (d + e - (53 + -23) - 53) (-1074)) (e - -23)).
  set (s := e - -23 - e'). assert (0 <= s) by lia. assert (-1074 <= e') by lia.
  replace (match s with 0 => Zpos m | Zpos _ => Z.shiftl (Zpos m) s | Zneg _ => 0 end)
    with (Zpos m * 2 ^ s).
  2: { destruct s as [|p|p]; [by rewrite Z.mul_1_r|by rewrite Z.shiftl_mul_pow2|lia]. }
  pose proof (Z_div_mod (Zpos m * 2 ^ s) 8388608000000000 ltac:(lia)) as Hdm.
  destruct (Z.div_eucl (Zpos m * 2 ^ s) 8388608000000000) as [q r]. destruct Hdm as [Hdm Hr].
  cbn [xorb]. assert (0 <= q) by (assert (0 < 2 ^ s) by (apply Z.pow_pos_nonneg; lia); nia).
  assert (He0 : 0 < 2 ^ (e' + scale)) by (apply Z.pow_pos_nonneg; unfold scale; lia).
  assert (Hle : 2 ^ (e' + scale) <= 2 ^ scale).
  { apply Z.pow_le_mono_r; [lia|]. pose proof (digits2_pos_bounds m) as [Hlo _]. fold d in Hlo.
    assert (2 ^ (d - 1) * 2 ^ (e + scale) <= 2 ^ (31 + scale)).
    { rewrite (Z.pow_add_r 2 31) by (unfold scale; lia).
      assert (0 < 2 ^ (e + scale)) by (apply Z.pow_pos_nonneg; unfold scale; lia).
      change (2 ^ 31) with 2147483648. nia. }
    rewrite <- Z.pow_add_r in H2 by (unfold scale, d; lia).
    apply Z.pow_le_mono_r_iff in H2; unfold scale in *; lia. }
  assert (Hq : q * 2 ^ (e' + scale) <= 2 * 2 ^ scale).
  { assert (Hs : 2 ^ s * 2 ^ (e' + scale) * 2 ^ 0 = 2 ^ 23 * 2 ^ (e + scale)).
    { rewrite <- !Z.pow_add_r by (unfold scale; lia). f_equal. lia. }
    rewrite Z.pow_0_r, Z.mul_1_r in Hs. change (2 ^ 23) with 8388608 in Hs. nia. }
  apply (round_ub _ _ _ (3 * 2 ^ scale)); [done|unfold scale; lia| | |].
  - assert (above (new_location 8388608000000000 r) <= 1) by (destruct (new_location _ r); cbn; lia). nia.
  - apply Z.leb_le. vm_compute. reflexivity.
  - apply Z.leb_le. vm_compute. reflexivity.
Qed.

(** ** Duration::mul_f64 *)

(** The range of round trips: [2^64] milliseconds. *)
Definition RTT_MAX : Z := from_millis (2 ^ 64).

Lemma round_half_even_bounds n d :
  0 <= n -> 0 < d -> n / d <= round_half_even n d <= n / d + 1.
Proof. intros. unfold round_half_even. repeat case_match; lia. Qed.

Lemma from_secs_ub x T :
  ub x (T * 2 ^ scale) -> T + 1 < 2 ^ 64 ->
  exists r, from_secs_f64 x = Some r /\ 0 <= r <= T * NANOS_PER_SEC + 1.
Proof.
  assert (HU : 0 < 2 ^ scale) by (apply Z.pow_pos_nonneg; unfold scale; lia).
  intros Hx HT. destruct x as [[]| | |[] m e]; cbn [ub] in Hx; try done.
  { exists 0. split; [done|]. unfold NANOS_PER_SEC. nia. }
  destruct Hx as [He Hx]. cbn [from_secs_f64].
  set (nanos := if 0 <=? e then _ else _).
  assert (Hn : 0 <= nanos <= T * NANOS_PER_SEC + 1).
  { unfold nanos, NANOS_PER_SEC. destruct (Z.leb_spec 0 e).
    - assert (0 < 2 ^ e) by (apply Z.pow_pos_nonneg; lia).
      rewrite Z.pow_add_r, Z.mul_assoc in Hx by (unfold scale; lia).
      apply Zmult_le_reg_r in Hx; [nia|lia].
    - set (P := 2 ^ (- e)). assert (0 < P) by (apply Z.pow_pos_nonneg; lia).
      assert (Hm : Zpos m <= T * P).
      { apply (Zmult_le_reg_r _ _ (2 ^ (e + scale))); [apply Z.lt_gt, Z.pow_pos_nonneg; unfold scale; lia|].
        unfold P. rewrite <- Z.mul_assoc, <- Z.pow_add_r by (unfold scale; lia).
        replace (- e + (e + scale)) with scale by lia. done. }
      pose proof (round_half_even_bounds (Zpos m * 1000000000) P ltac:(lia) ltac:(lia)).
      assert (0 <= Zpos m * 1000000000 / P) by (apply Z.div_pos; lia).
      assert (Zpos m * 1000000000 / P <= T * 1000000000); [|lia].
      apply Z.div_le_upper_bound; [lia|]. nia. }
  exists nanos. split; [|done]. destruct (Z.ltb_spec nanos (2 ^ 64 * NANOS_PER_SEC)) as [|Hge]; [done|].
  exfalso. unfold NANOS_PER_SEC in *. lia.
Qed.

(** The numeric conditions of the chain [mul_f64] goes through, for durations
    up to [N] nanoseconds: [S] bounds the seconds, [S1] their float, [S2] the
    float duration, and [T] the product, all in seconds. *)
Definition mul_check (mk : positive) (ek N S1 S2 T : Z) : bool :=
  let U := 2 ^ scale in
  let slack := 2 ^ (52 + 126) in
  let cap := 2 ^ 900 * U in
  (N / NANOS_PER_SEC * U * (2 ^ 52 + 1) + slack <=? S1 * U * 2 ^ 52) && (S1 * U <=? cap) &&
  ((S1 * U + 4 * U) * (2 ^ 52 + 1) + slack <=? S2 * U * 2 ^ 52) && (S2 * U <=? cap) &&
  (Zpos mk * (S2 * U) * (2 ^ 52 + 1) + slack * 2 ^ (- ek) <=? T * U * 2 ^ 52 * 2 ^ (- ek)) &&
  (T * U <=? cap) && (T + 1 <? 2 ^ 64).

Lemma mul_f64_ub mk ek N S1 S2 T d :
  -100 <= ek <= 0 -> mul_check mk ek N S1 S2 T = true -> 0 <= d <= N ->
  exists r, mul_f64 d (S754_finite false mk ek) = Some r /\ 0 <= r <= T * NANOS_PER_SEC + 1.
Proof.
  intros Hk Hc Hd. unfold mul_check in Hc. cbv zeta in Hc. rewrite !andb_true_iff, !Z.leb_le, Z.ltb_lt in Hc.
  destruct Hc as ((((((H1 & H2) & H3) & H4) & H5) & H6) & H7).
  assert (Hsec : 0 <= d / NANOS_PER_SEC <= N / NANOS_PER_SEC).
  { split; [apply Z.div_pos; unfold NANOS_PER_SEC; lia|]. apply Z.div_le_mono; unfold NANOS_PER_SEC; lia. }
  assert (Hn : ub (f64_div (f64_of_Z (d mod NANOS_PER_SEC)) (f64_of_Z NANOS_PER_SEC)) (4 * 2 ^ scale)).
  { apply nanos_div_ub, (f64_of_Z_ub _ (10 ^ 9)).
    - pose proof (Z.mod_pos_bound d NANOS_PER_SEC ltac:(done)). unfold NANOS_PER_SEC in *. lia.
    - apply Z.leb_le. vm_compute. reflexivity.
    - apply Z.leb_le. vm_compute. reflexivity. }
  apply from_secs_ub; [|done]. unfold mul_f64.
  apply (f64_mul_ub _ _ _ (S2 * 2 ^ scale)); [done| |done|done].
  apply (f64_add_ub _ _ (S1 * 2 ^ scale) (4 * 2 ^ scale)); [|done|done|done].
  by apply (f64_of_Z_ub _ (N / NANOS_PER_SEC)).
Qed.

(** ** The RTT estimator *)

Module RttBounds.
Import Rtt.

(** The estimator's durations stay in range: the smoothed round trip within
    twice, its variation within four times the largest round trip. *)
Definition inv (e : RttEstimator) : Prop :=
  (forall s, srtt e = Some s -> 0 <= s <= 2 * RTT_MAX) /\ 0 <= rttvar e <= 4 * RTT_MAX /\
  MIN_RTO <= rto e <= MAX_RTO.

Definition SECS : Z := 2 * RTT_MAX / NANOS_PER_SEC.

Lemma weight_var_eq : one_minus_inv RTTVAR_BETA = S754_finite false 6755399441055744 (-53).
Proof. vm_compute. reflexivity. Qed.
Lemma weight_srtt_eq : one_minus_inv SRTT_ALPHA = S754_finite false 7881299347898368 (-53).
Proof. vm_compute. reflexivity. Qed.

Lemma srtt_decay s :
  0 <= s <= 2 * RTT_MAX ->
  exists r, mul_f64 s (one_minus_inv SRTT_ALPHA) = Some r /\
    0 <= r <= (SECS * 7 / 8 + 100) * NANOS_PER_SEC + 1.
Proof.
  intros Hs. rewrite weight_srtt_eq.
  apply (mul_f64_ub _ _ (2 * RTT_MAX) (SECS + 20) (SECS + 60)); [lia|vm_compute; reflexivity|done].
Qed.

Lemma rttvar_decay v :
  0 <= v <= 4 * RTT_MAX ->
  exists r, mul_f64 v (one_minus_inv RTTVAR_BETA) = Some r /\
    0 <= r <= (2 * SECS * 3 / 4 + 100) * NANOS_PER_SEC + 1.
Proof.
  intros Hv. rewrite weight_var_eq.
  apply (mul_f64_ub _ _ (4 * RTT_MAX) (2 * SECS + 40) (2 * SECS + 90)); [lia|vm_compute; reflexivity|done].
Qed.

Lemma clamp_range r : MIN_RTO <= clamp r MIN_RTO MAX_RTO <= MAX_RTO.
Proof. unfold clamp. change MIN_RTO with 100000000. change MAX_RTO with 16000000000. zcase; lia. Qed.

Lemma recompute_inv e : inv e -> inv (recompute_rto e).
Proof.
  intros (Hs & Hv & Hr). unfold recompute_rto. destruct (srtt e) as [s|] eqn:E; [|by rewrite <- E in Hs].
  split_and!; cbn; [done|lia|lia| |]; apply clamp_range.
Qed.

Lemma rtt_new_inv : inv new.
Proof. split_and!; [done|apply Z.leb_le; vm_compute; reflexivity..]. Qed.

Lemma on_timeout_inv e : inv e -> inv (on_timeout e).
Proof.
  intros (Hs & Hv & Hr). unfold on_timeout, inv. cbn [srtt rttvar rto].
  change MIN_RTO with 100000000 in *. change MAX_RTO with 16000000000 in *.
  split_and!; [apply Hs|apply Hv..|lia|lia].
Qed.

(** The update never panics and keeps the estimator in range. *)
Lemma update_total e r :
  inv e -> 0 <= r <= RTT_MAX -> exists e', update e r = Some e' /\ inv e'.
Proof.
  intros (Hs & Hv & Hr) Hrtt. unfold update.
  assert (HM : RTT_MAX = 18446744073709551616000000) by reflexivity.
  assert (HS : SECS = 36893488147419103) by reflexivity. unfold NANOS_PER_SEC in *.
  destruct (srtt e) as [s|] eqn:E.
  - specialize (Hs s eq_refl).
    destruct (rttvar_decay (rttvar e) Hv) as (v & -> & Hv1). cbn [mbind option_bind].
    destruct (srtt_decay s Hs) as (w & -> & Hw1). cbn [mbind option_bind].
    eexists. split; [done|]. apply recompute_inv. unfold inv. cbn [srtt rttvar rto].
    unfold abs_diff, NANOS_PER_SEC, RTTVAR_BETA, SRTT_ALPHA in *.
    rewrite HS, HM in *.
    split_and!; [intros ? [= <-]; zdm|zdm|zdm|apply Hr..].
  - eexists. split; [done|]. apply recompute_inv. unfold inv. cbn [srtt rttvar rto].
    rewrite HM in *. split_and!; [intros ? [= <-]; lia|zdm|zdm|apply Hr..].
Qed.

(** What the connection does to its estimator: a round trip measured in
    whole milliseconds, a retransmission timeout, the end of a backoff. *)
Inductive RttOp := Measure (ms : Z) | Timeout | Reset_backoff.

Definition rtt_exec (e : RttEstimator) (o : RttOp) : option RttEstimator :=
  match o with
  | Measure ms => update e (from_millis ms)
  | Timeout => Some (on_timeout e)
  | Reset_backoff => Some (reset_backoff e)
  end.

Fixpoint rtt_run (e : RttEstimator) (os : list RttOp) : option RttEstimator :=
  match os with
  | [] => Some e
  | o :: os => e' ← rtt_exec e o; rtt_run e' os
  end.

Definition measured (o : RttOp) : Prop :=
  match o with Measure ms => is_u64 ms | _ => True end.

Lemma from_millis_range ms : is_u64 ms -> 0 <= from_millis ms <= RTT_MAX.
Proof.
  intros H. assert (HM : RTT_MAX = 18446744073709551616000000) by reflexivity. rewrite HM.
  unfold from_millis, is_u64, U64_MAX in *. lia.
Qed.

Lemma rtt_exec_inv e o : inv e -> measured o -> exists e', rtt_exec e o = Some e' /\ inv e'.
Proof.
  intros Hi Hm. destruct o as [ms| |]; cbn.
  - by apply update_total, from_millis_range.
  - eexists. split; [done|]. by apply on_timeout_inv.
  - eexists. split; [done|]. by apply recompute_inv.
Qed.

Lemma rtt_run_inv os : forall e, inv e -> Forall measured os -> exists e', rtt_run e os = Some e' /\ inv e'.
Proof.
  induction os as [|o os IH]; intros e Hi Ho; [by exists e|].
  apply Forall_cons in Ho as [H1 H2].
  destruct (rtt_exec_inv e o Hi H1) as (e1 & He1 & Hi1). cbn [rtt_run]. rewrite He1. by apply IH.
Qed.

(** From a fresh estimator, any sequence of round-trip samples (every
    64-bit millisecond count), timeouts and backoff resets runs without the
    floating-point scaling of a [Duration] panicking, and the retransmission
    timeout it ends with lies between [MIN_RTO] and [MAX_RTO]. *)
Theorem rto_always_bounded os :
  Forall measured os ->
  exists e, rtt_run new os = Some e /\ MIN_RTO <= rto e <= MAX_RTO.
Proof.
  intros Ho. destruct (rtt_run_inv os new rtt_new_inv Ho) as (e & He & Hi).
  exists e. split; [exact He|apply Hi].
Qed.

Lemma rto_always_bounded_witness :
  let os := [Measure 20; Measure 35; Timeout; Measure 18446744073709551615; Measure 1; Reset_backoff] in
  exists e, rtt_run new os = Some e /\ MIN_RTO <= rto e <= MAX_RTO.
Proof.
  apply (rto_always_bounded [Measure 20; Measure 35; Timeout; Measure 18446744073709551615; Measure 1; Reset_backoff]).
  repeat constructor; vm_compute; congruence.
Defined.

End RttBounds.
