(* ===== verification/Cursor.v ===== *)
(** The byte cursors of ironrdp-core
    (src/crates/ironrdp-core/src/cursor.rs, padding.rs) and its encode and
    decode entry points (encode.rs, decode.rs, the [ensure_size!] macro of
    macros.rs).

    A byte is a [Z] below 256.  [read_array] and [write_slice] index the
    underlying slice, so they panic when it is too short; the decoders are
    shown never to reach that panic. *)

From S2P Require Import Prelude.

(** ** Integers and bytes *)

Fixpoint from_le_bytes (bs : list Z) : Z :=
  match bs with
  | [] => 0
  | b :: bs' => b + 256 * from_le_bytes bs'
  end.
Definition from_be_bytes (bs : list Z) : Z := from_le_bytes (reverse bs).

Fixpoint to_le_bytes (n : nat) (x : Z) : list Z :=
  match n with
  | O => []
  | S n' => x mod 256 :: to_le_bytes n' (x / 256)
  end.
Definition to_be_bytes (n : nat) (x : Z) : list Z := reverse (to_le_bytes n x).

(** The two's complement reading of a [w]-bit pattern. *)
Definition to_signed (w x : Z) : Z := if x <? 2 ^ (w - 1) then x else x - 2 ^ w.

(** ** Errors *)

Record NotEnoughBytesError := mkNotEnoughBytes { received : Z; expected : Z }.

Inductive DecodeErrorKind :=
| DNotEnoughBytes (received expected : Z) (offset : option Z)
| DInvalidField (field reason : string) (offset : option Z)
| DUnexpectedMessageType (got : Z) (offset : option Z)
| DUnsupportedVersion (got : Z) (offset : option Z)
| DUnsupportedValue (name value : string) (offset : option Z)
| DOther (description : string).

Inductive EncodeErrorKind :=
| ENotEnoughBytes (received expected : Z) (offset : option Z)
| EInvalidField (field reason : string) (offset : option Z)
| EUnexpectedMessageType (got : Z) (offset : option Z)
| EUnsupportedVersion (got : Z) (offset : option Z)
| EUnsupportedValue (name value : string) (offset : option Z)
| EOther (description : string).

(** ** ReadCursor *)

Module ReadCursor.

Record t := mk { inner : list Z; pos : nat }.

Definition new (bytes : list Z) : t := mk bytes 0.
Definition len (c : t) : Z := llen (inner c) - Z.of_nat (pos c).
Definition is_empty (c : t) : bool := len c =? 0.
Definition eof (c : t) : bool := is_empty c.
Definition remaining (c : t) : list Z := drop (Nat.min (pos c) (length (inner c))) (inner c).

(** [slice::split_at] panics past the end. *)
Definition split_at_peek (c : t) (mid : nat) : outcome Empty_set (t * t) :=
  if (pos c + mid <=? length (inner c))%nat
  then Ok (mk (take (pos c + mid) (inner c)) (pos c), mk (drop (pos c + mid) (inner c)) 0)
  else Panic.
Definition split_at (c : t) (mid : nat) : outcome Empty_set ((t * t) * t) :=
  res ← split_at_peek c mid; mret (res, mk (inner c) (length (inner c))).

Section reads.
Context {E : Type}.

(** [&self.inner[self.pos..self.pos + n]] *)
Definition peek_slice (n : nat) : M t E (list Z) := fun c =>
  if (pos c + n <=? length (inner c))%nat
  then Ok (take n (drop (pos c) (inner c)), c)
  else Panic.
Definition advance (n : nat) : M t E unit := fun c => Ok (tt, mk (inner c) (pos c + n)).
(** [self.pos -= len] wraps below zero in the release profile; callers only
    rewind over what they have read. *)
Definition rewind (n : nat) : M t E unit := fun c => Ok (tt, mk (inner c) (pos c - n)).

Definition read_slice (n : nat) : M t E (list Z) := bs ← peek_slice n; _ ← advance n; mret bs.
Definition read_array (n : nat) : M t E (list Z) := read_slice n.
Definition read_remaining : M t E (list Z) := n ← gets len; read_slice (Z.to_nat n).

Definition read_u8 : M t E Z := bs ← read_array 1; mret (from_le_bytes bs).
Definition read_u16 : M t E Z := bs ← read_array 2; mret (from_le_bytes bs).
Definition read_u16_be : M t E Z := bs ← read_array 2; mret (from_be_bytes bs).
Definition read_u32 : M t E Z := bs ← read_array 4; mret (from_le_bytes bs).
Definition read_u32_be : M t E Z := bs ← read_array 4; mret (from_be_bytes bs).
Definition read_u64 : M t E Z := bs ← read_array 8; mret (from_le_bytes bs).
Definition read_u64_be : M t E Z := bs ← read_array 8; mret (from_be_bytes bs).
Definition read_u128 : M t E Z := bs ← read_array 16; mret (from_le_bytes bs).
Definition read_u128_be : M t E Z := bs ← read_array 16; mret (from_be_bytes bs).
Definition read_i16 : M t E Z := bs ← read_array 2; mret (to_signed 16 (from_le_bytes bs)).
Definition read_i16_be : M t E Z := bs ← read_array 2; mret (to_signed 16 (from_be_bytes bs)).
Definition read_i32 : M t E Z := bs ← read_array 4; mret (to_signed 32 (from_le_bytes bs)).
Definition read_i32_be : M t E Z := bs ← read_array 4; mret (to_signed 32 (from_be_bytes bs)).
Definition read_i64 : M t E Z := bs ← read_array 8; mret (to_signed 64 (from_le_bytes bs)).
Definition read_i64_be : M t E Z := bs ← read_array 8; mret (to_signed 64 (from_be_bytes bs)).

Definition peek_u8 : M t E Z := bs ← peek_slice 1; mret (from_le_bytes bs).
Definition peek_u16 : M t E Z := bs ← peek_slice 2; mret (from_le_bytes bs).
Definition peek_u16_be : M t E Z := bs ← peek_slice 2; mret (from_be_bytes bs).
Definition peek_u32 : M t E Z := bs ← peek_slice 4; mret (from_le_bytes bs).
Definition peek_u32_be : M t E Z := bs ← peek_slice 4; mret (from_be_bytes bs).
Definition peek_u64 : M t E Z := bs ← peek_slice 8; mret (from_le_bytes bs).
Definition peek_u64_be : M t E Z := bs ← peek_slice 8; mret (from_be_bytes bs).

End reads.

(** [ensure_enough_bytes!(in: self, size: n)] in front of an unchecked read. *)
Definition ensure_enough_bytes (n : nat) : M t NotEnoughBytesError unit := fun c =>
  if Z.of_nat n <=? len c then Ok (tt, c) else Err (mkNotEnoughBytes (len c) (Z.of_nat n)).

Definition try_read_u8 := _ ← ensure_enough_bytes 1; read_u8.
Definition try_read_u16 := _ ← ensure_enough_bytes 2; read_u16.
Definition try_read_u16_be := _ ← ensure_enough_bytes 2; read_u16_be.
Definition try_read_u32 := _ ← ensure_enough_bytes 4; read_u32.
Definition try_read_u32_be := _ ← ensure_enough_bytes 4; read_u32_be.
Definition try_read_u64 := _ ← ensure_enough_bytes 8; read_u64.
Definition try_read_u64_be := _ ← ensure_enough_bytes 8; read_u64_be.
Definition try_read_u128 := _ ← ensure_enough_bytes 16; read_u128.
Definition try_read_u128_be := _ ← ensure_enough_bytes 16; read_u128_be.
Definition try_read_i16 := _ ← ensure_enough_bytes 2; read_i16.
Definition try_read_i16_be := _ ← ensure_enough_bytes 2; read_i16_be.
Definition try_read_i32 := _ ← ensure_enough_bytes 4; read_i32.
Definition try_read_i32_be := _ ← ensure_enough_bytes 4; read_i32_be.
Definition try_read_i64 := _ ← ensure_enough_bytes 8; read_i64.
Definition try_read_i64_be := _ ← ensure_enough_bytes 8; read_i64_be.
Definition try_peek_u8 := _ ← ensure_enough_bytes 1; peek_u8.
Definition try_peek_u16 := _ ← ensure_enough_bytes 2; peek_u16.
Definition try_peek_u16_be := _ ← ensure_enough_bytes 2; peek_u16_be.
Definition try_peek_u32 := _ ← ensure_enough_bytes 4; peek_u32.
Definition try_peek_u32_be := _ ← ensure_enough_bytes 4; peek_u32_be.
Definition try_peek_u64 := _ ← ensure_enough_bytes 8; peek_u64.
Definition try_peek_u64_be := _ ← ensure_enough_bytes 8; peek_u64_be.

(** Moves the cursor over padding without looking at it. *)
Definition read_padding {E} (n : nat) : M t E unit := advance n.

(** [ensure_size!(in: src, size: n)] of a decoder. *)
Definition ensure_size (n : Z) : M t DecodeErrorKind unit := fun c =>
  if n <=? len c then Ok (tt, c)
  else Err (DNotEnoughBytes (len c) n (Some (Z.of_nat (pos c)))).

End ReadCursor.

(** ** WriteCursor *)

Module WriteCursor.

Record t := mk { inner : list Z; pos : nat }.

Definition new (bytes : list Z) : t := mk bytes 0.
Definition len (c : t) : Z := llen (inner c) - Z.of_nat (pos c).
Definition is_empty (c : t) : bool := len c =? 0.
Definition eof (c : t) : bool := is_empty c.
Definition remaining (c : t) : list Z := drop (Nat.min (pos c) (length (inner c))) (inner c).

Section writes.
Context {E : Type}.

Definition write_slice (bs : list Z) : M t E unit := fun c =>
  if (pos c + length bs <=? length (inner c))%nat
  then Ok (tt, mk (take (pos c) (inner c) ++ bs ++ drop (pos c + length bs) (inner c))
                  (pos c + length bs))
  else Panic.
Definition write_array (bs : list Z) : M t E unit := write_slice bs.

Definition write_u8 (v : Z) : M t E unit := write_array (to_le_bytes 1 v).
Definition write_i8 (v : Z) : M t E unit := write_array (to_le_bytes 1 v).
Definition write_u16 (v : Z) : M t E unit := write_array (to_le_bytes 2 v).
Definition write_u16_be (v : Z) : M t E unit := write_array (to_be_bytes 2 v).
Definition write_i16 (v : Z) : M t E unit := write_array (to_le_bytes 2 v).
Definition write_i16_be (v : Z) : M t E unit := write_array (to_be_bytes 2 v).
Definition write_u32 (v : Z) : M t E unit := write_array (to_le_bytes 4 v).
Definition write_u32_be (v : Z) : M t E unit := write_array (to_be_bytes 4 v).
Definition write_i32 (v : Z) : M t E unit := write_array (to_le_bytes 4 v).
Definition write_u64 (v : Z) : M t E unit := write_array (to_le_bytes 8 v).
Definition write_u64_be (v : Z) : M t E unit := write_array (to_be_bytes 8 v).
Definition write_i64 (v : Z) : M t E unit := write_array (to_le_bytes 8 v).
Definition write_i64_be (v : Z) : M t E unit := write_array (to_be_bytes 8 v).
Definition write_u128 (v : Z) : M t E unit := write_array (to_le_bytes 16 v).
Definition write_u128_be (v : Z) : M t E unit := write_array (to_be_bytes 16 v).
Definition advance (n : nat) : M t E unit := fun c => Ok (tt, mk (inner c) (pos c + n)).
Definition rewind (n : nat) : M t E unit := fun c => Ok (tt, mk (inner c) (pos c - n)).

(** The loop of [write_padding]; every round lowers [n], so [n] rounds are
    enough ([write_padding_spec]). *)
Fixpoint write_padding_loop (fuel n : nat) : M t E unit :=
  match n with
  | O => mret tt
  | S _ =>
      match fuel with
      | O => crash
      | S fuel' =>
          if (n =? 1)%nat then _ ← write_u8 0; write_padding_loop fuel' (n - 1)
          else if (n <=? 3)%nat then _ ← write_u16 0; write_padding_loop fuel' (n - 2)
          else if (n <=? 7)%nat then _ ← write_u32 0; write_padding_loop fuel' (n - 4)
          else _ ← write_u64 0; write_padding_loop fuel' (n - 8)
      end
  end.
Definition write_padding (n : nat) : M t E unit := write_padding_loop n n.

End writes.

(** [ensure_size!(in: dst, size: n)] of an encoder. *)
Definition ensure_size (n : Z) : M t EncodeErrorKind unit := fun c =>
  if n <=? len c then Ok (tt, c)
  else Err (ENotEnoughBytes (len c) n (Some (Z.of_nat (pos c)))).

End WriteCursor.

Abbreviation Decoder := (M ReadCursor.t DecodeErrorKind).
Abbreviation Encoder := (M WriteCursor.t EncodeErrorKind).

(** [Err(..(Some(src.pos())))] *)
Definition fail_at {A} (e : option Z -> DecodeErrorKind) : Decoder A :=
  fun c => Err (e (Some (Z.of_nat (ReadCursor.pos c)))).

(** [Err(..(Some(dst.pos())))] *)
Definition encode_fail_at {A} (e : option Z -> EncodeErrorKind) : Encoder A :=
  fun c => Err (e (Some (Z.of_nat (WriteCursor.pos c)))).

(** [cast_length!(field, n)?] to an unsigned type with maximum [max]. *)
Definition cast_length (field : string) (max n : Z) : outcome EncodeErrorKind Z :=
  if n <=? max then Ok n else Err (EInvalidField field "too many elements" None).

(** [cast_length!(field, n, in: dst)?] *)
Definition cast_length_at (field : string) (max n : Z) : Encoder Z :=
  if n <=? max then mret n else encode_fail_at (EInvalidField field "too many elements").

(** [m.map_err(f)] *)
Definition map_err_m {S E F A} (f : E -> F) (m : M S E A) : M S F A := fun s => map_err f (m s).

(** ** Encode and Decode *)

Class Encode (A : Type) := { encode_into : A -> Encoder unit; size : A -> Z }.
Class Decode (A : Type) := { decode_from : Decoder A }.
#[export] Hint Mode Encode ! : typeclass_instances.
#[export] Hint Mode Decode ! : typeclass_instances.

Definition encode {A} `{Encode A} (pdu : A) (dst : list Z) : outcome EncodeErrorKind (Z * list Z) :=
  '(_, c) ← encode_into pdu (WriteCursor.new dst);
  mret (Z.of_nat (WriteCursor.pos c), WriteCursor.inner c).

Definition encode_vec {A} `{Encode A} (pdu : A) : outcome EncodeErrorKind (list Z) :=
  let pdu_size := size pdu in
  let buf := replicate (Z.to_nat pdu_size) 0 in
  '(_, buf') ← encode pdu buf;
  mret buf'.

Definition decode (A : Type) `{Decode A} (src : list Z) : outcome DecodeErrorKind A :=
  '(a, _) ← decode_from (ReadCursor.new src);
  mret a.

(** [if let Some(ref x) = o { total += x.size(); }] *)
Definition opt_size {A} `{Encode A} (o : option A) : Z := from_option size 0 o.
