(* ===== verification/Codec.v ===== *)
(** Reasoning about encoders and decoders: byte-exact specifications that
    compose along the monads, a safety judgement for decoders on arbitrary
    input, and the interface [Codec] every wire structure implements. *)

From S2P Require Import Prelude Cursor.

(** ** Bytes *)

Abbreviation bytes_ok := (Forall is_u8).

Lemma from_le_bytes_range bs :
  bytes_ok bs -> 0 <= from_le_bytes bs < 256 ^ llen bs.
Proof.
  induction 1 as [|b bs Hb _ IH]; [by split|].
  rewrite llen_cons, Z.pow_add_r by (pose proof (llen_nonneg bs); lia).
  cbn [from_le_bytes]. width.
Qed.

Lemma length_to_le_bytes n x : length (to_le_bytes n x) = n.
Proof. revert x. induction n; intros x; simpl; auto. Qed.

Lemma length_to_be_bytes n x : length (to_be_bytes n x) = n.
Proof. unfold to_be_bytes. rewrite length_reverse. apply length_to_le_bytes. Qed.

Lemma to_le_bytes_ok n x : bytes_ok (to_le_bytes n x).
Proof.
  revert x. induction n; intros x; simpl; constructor; [|done].
  apply Z.mod_pos_bound. lia.
Qed.

Lemma to_be_bytes_ok n x : bytes_ok (to_be_bytes n x).
Proof. apply Forall_reverse, to_le_bytes_ok. Qed.

Lemma from_to_le_bytes n x : from_le_bytes (to_le_bytes n x) = x mod 256 ^ Z.of_nat n.
Proof.
  revert x. induction n as [|n IH]; intros x; [cbn; by rewrite Z.mod_1_r|].
  cbn [to_le_bytes from_le_bytes]. rewrite IH, Nat2Z.inj_succ, Z.pow_succ_r by lia.
  rewrite Z.rem_mul_r by lia. lia.
Qed.

Lemma from_to_be_bytes n x : from_be_bytes (to_be_bytes n x) = x mod 256 ^ Z.of_nat n.
Proof. unfold from_be_bytes, to_be_bytes. rewrite reverse_involutive. apply from_to_le_bytes. Qed.

Lemma to_from_le_bytes bs : bytes_ok bs -> to_le_bytes (length bs) (from_le_bytes bs) = bs.
Proof.
  induction 1 as [|b bs Hb _ IH]; [done|]. cbn [length to_le_bytes from_le_bytes].
  rewrite Z.mul_comm, Z.mod_add, Z.div_add by lia.
  rewrite Z.mod_small, Z.div_small, Z.add_0_l, IH by width. done.
Qed.

Lemma to_from_be_bytes bs : bytes_ok bs -> to_be_bytes (length bs) (from_be_bytes bs) = bs.
Proof.
  intros H. unfold to_be_bytes, from_be_bytes.
  rewrite <- length_reverse, to_from_le_bytes by by apply Forall_reverse.
  apply reverse_involutive.
Qed.

(** ** Decoders on exact bytes

    The judgements do not depend on the type of the errors. *)

Abbreviation Reader := (M ReadCursor.t).
Abbreviation Writer := (M WriteCursor.t).

Definition decodes {E A} (d : Reader E A) (bs : list Z) (a : A) : Prop :=
  forall pre post,
    d (ReadCursor.mk (pre ++ bs ++ post) (length pre)) =
    Ok (a, ReadCursor.mk (pre ++ bs ++ post) (length pre + length bs)).

(** A decoder that takes everything up to the end of the buffer. *)
Definition decodes_end {E A} (d : Reader E A) (bs : list Z) (a : A) : Prop :=
  forall pre,
    d (ReadCursor.mk (pre ++ bs) (length pre)) =
    Ok (a, ReadCursor.mk (pre ++ bs) (length pre + length bs)).

Section decodes.
Context {E A B : Type}.
Implicit Types (d : Reader E A) (k : A -> Reader E B).

Lemma decodes_to_end d bs a : decodes d bs a -> decodes_end d bs a.
Proof. intros H pre. specialize (H pre []). by rewrite app_nil_r in H. Qed.

Lemma decodes_ret a : decodes (mret a : Reader E A) [] a.
Proof. intros pre post. cbn. by rewrite Nat.add_0_r. Qed.

Lemma decodes_bind d k bs cs a b :
  decodes d bs a -> decodes (k a) cs b -> decodes (d ≫= k) (bs ++ cs) b.
Proof.
  intros Hd Hk pre post. unfold mbind, M_bind. rewrite <- app_assoc, Hd.
  specialize (Hk (pre ++ bs) post). rewrite <- app_assoc, length_app in Hk.
  rewrite Hk. by rewrite length_app, Nat.add_assoc.
Qed.

Lemma decodes_bind_end d k bs cs a b :
  decodes d bs a -> decodes_end (k a) cs b -> decodes_end (d ≫= k) (bs ++ cs) b.
Proof.
  intros Hd Hk pre. unfold mbind, M_bind. rewrite Hd.
  specialize (Hk (pre ++ bs)). rewrite <- app_assoc, length_app in Hk.
  rewrite Hk. by rewrite length_app, Nat.add_assoc.
Qed.

Lemma decodes_bind_nil d k cs a b :
  decodes d [] a -> decodes (k a) cs b -> decodes (d ≫= k) cs b.
Proof. intros. by apply (decodes_bind d k [] cs a b). Qed.

Lemma decodes_last d k bs a b :
  decodes d bs a -> decodes (k a) [] b -> decodes (d ≫= k) bs b.
Proof. intros. rewrite <- (app_nil_r bs). by eapply decodes_bind. Qed.

Lemma decodes_ensure n bs a (k : unit -> Decoder A) :
  n <= llen bs -> decodes (k tt) bs a -> decodes (ReadCursor.ensure_size n ≫= k) bs a.
Proof.
  intros Hn Hk pre post. unfold mbind, M_bind, ReadCursor.ensure_size, ReadCursor.len. cbn.
  rewrite !llen_app. pose proof (llen_nonneg post).
  replace (n <=? _) with true by (symmetry; apply Z.leb_le; unfold llen in *; lia). apply Hk.
Qed.

Lemma decodes_ensure_end n bs a (k : unit -> Decoder A) :
  n <= llen bs -> decodes_end (k tt) bs a -> decodes_end (ReadCursor.ensure_size n ≫= k) bs a.
Proof.
  intros Hn Hk pre. unfold mbind, M_bind, ReadCursor.ensure_size, ReadCursor.len. cbn.
  rewrite !llen_app.
  replace (n <=? _) with true by (symmetry; apply Z.leb_le; unfold llen in *; lia). apply Hk.
Qed.

Lemma decodes_when_true d bs a :
  decodes d bs a -> decodes (when_m true d) bs (Some a).
Proof.
  intros H. unfold when_m. intros pre post. unfold mbind, M_bind. by rewrite H.
Qed.

Lemma decodes_when_true_end d bs a :
  decodes_end d bs a -> decodes_end (when_m true d) bs (Some a).
Proof. intros H pre. unfold when_m, mbind, M_bind. by rewrite H. Qed.

Lemma decodes_when_false d : decodes (when_m false d) [] None.
Proof. intros pre post. cbn. by rewrite Nat.add_0_r. Qed.

End decodes.

Lemma decodes_lift {E A} (r : outcome E A) a : r = Ok a -> decodes (lift r) [] a.
Proof. intros -> pre post. cbn. by rewrite Nat.add_0_r. Qed.

Lemma decodes_repeat {E A} (d : Reader E A) (f : A -> list Z) xs :
  Forall (fun x => decodes d (f x) x) xs ->
  decodes (repeat_m (length xs) d) (xs ≫= f) xs.
Proof.
  induction 1 as [|x xs Hx _ IH]; [apply decodes_ret|].
  cbn [length repeat_m]. rewrite bind_cons. eapply decodes_bind; [exact Hx|].
  eapply decodes_last; [exact IH|]. apply decodes_ret.
Qed.

Lemma decodes_read_slice {E} bs : decodes (ReadCursor.read_slice (E := E) (length bs)) bs bs.
Proof.
  intros pre post. unfold ReadCursor.read_slice, ReadCursor.peek_slice, ReadCursor.advance.
  unfold mbind, M_bind. cbn.
  rewrite (proj2 (Nat.leb_le _ _)) by (rewrite !length_app; lia).
  by rewrite drop_app_length, take_app_length.
Qed.

Lemma decodes_read_array {E} n bs : length bs = n -> decodes (ReadCursor.read_array (E := E) n) bs bs.
Proof. intros <-. apply decodes_read_slice. Qed.

Lemma decodes_read_remaining {E} bs : decodes_end (ReadCursor.read_remaining (E := E)) bs bs.
Proof.
  intros pre. unfold ReadCursor.read_remaining, gets. unfold mbind at 1, M_bind at 1. cbn.
  unfold ReadCursor.len. cbn. rewrite llen_app.
  replace (Z.to_nat (llen pre + llen bs - Z.of_nat (length pre))) with (length bs)
    by (unfold llen; lia).
  pose proof (decodes_read_slice (E := E) bs pre []) as H. by rewrite app_nil_r in H.
Qed.

Lemma decodes_read_padding {E} bs : decodes (ReadCursor.read_padding (E := E) (length bs)) bs tt.
Proof. intros pre post. done. Qed.

(** Reading back what [to_le_bytes] or [to_be_bytes] wrote. *)
Lemma decodes_le {E} (m : Reader E Z) n x :
  m = (bs ← ReadCursor.read_array n; mret (from_le_bytes bs)) ->
  0 <= x < 256 ^ Z.of_nat n -> decodes m (to_le_bytes n x) x.
Proof.
  intros -> Hx. eapply decodes_last.
  - apply decodes_read_array, length_to_le_bytes.
  - rewrite from_to_le_bytes, Z.mod_small by done. apply decodes_ret.
Qed.

Lemma decodes_be {E} (m : Reader E Z) n x :
  m = (bs ← ReadCursor.read_array n; mret (from_be_bytes bs)) ->
  0 <= x < 256 ^ Z.of_nat n -> decodes m (to_be_bytes n x) x.
Proof.
  intros -> Hx. eapply decodes_last.
  - apply decodes_read_array, length_to_be_bytes.
  - rewrite from_to_be_bytes, Z.mod_small by done. apply decodes_ret.
Qed.

Lemma decodes_u8 {E} x : is_u8 x -> decodes (ReadCursor.read_u8 (E := E)) [x] x.
Proof.
  intros Hx. replace [x] with (to_le_bytes 1 x) by (cbn; by rewrite Z.mod_small).
  by apply (decodes_le _ 1).
Qed.
Lemma decodes_u16 {E} x : is_u16 x -> decodes (ReadCursor.read_u16 (E := E)) (to_le_bytes 2 x) x.
Proof. by apply (decodes_le _ 2). Qed.
Lemma decodes_u16_be {E} x : is_u16 x -> decodes (ReadCursor.read_u16_be (E := E)) (to_be_bytes 2 x) x.
Proof. by apply (decodes_be _ 2). Qed.
Lemma decodes_u32 {E} x : is_u32 x -> decodes (ReadCursor.read_u32 (E := E)) (to_le_bytes 4 x) x.
Proof. by apply (decodes_le _ 4). Qed.
Lemma decodes_u32_be {E} x : is_u32 x -> decodes (ReadCursor.read_u32_be (E := E)) (to_be_bytes 4 x) x.
Proof. by apply (decodes_be _ 4). Qed.

Create HintDb codec.
#[export] Hint Resolve decodes_u8 decodes_u16 decodes_u16_be decodes_u32 decodes_u32_be
  decodes_ret decodes_when_false decodes_read_padding : codec.

(** ** Encoders on exact bytes *)

Definition encodes {E} (e : Writer E unit) (bs : list Z) : Prop :=
  forall pre hole post, length hole = length bs ->
    e (WriteCursor.mk (pre ++ hole ++ post) (length pre)) =
    Ok (tt, WriteCursor.mk (pre ++ bs ++ post) (length pre + length bs)).

Lemma encodes_ret {E} : encodes (mret tt : Writer E unit) [].
Proof.
  intros pre hole post H. destruct hole; [|done]. cbn. by rewrite Nat.add_0_r.
Qed.

Lemma encodes_bind {E} (e : Writer E unit) (k : unit -> Writer E unit) bs cs :
  encodes e bs -> encodes (k tt) cs -> encodes (e ≫= k) (bs ++ cs).
Proof.
  intros He Hk pre hole post Hl. rewrite length_app in Hl.
  rewrite <- (take_drop (length bs) hole).
  set (h1 := take (length bs) hole). set (h2 := drop (length bs) hole).
  assert (length h1 = length bs) by (unfold h1; rewrite length_take; lia).
  assert (length h2 = length cs) by (unfold h2; rewrite length_drop; lia).
  unfold mbind, M_bind. rewrite <- app_assoc, He by done.
  specialize (Hk (pre ++ bs) h2 post). rewrite <- !app_assoc, length_app in Hk.
  rewrite <- !app_assoc, Hk by done. by rewrite length_app, Nat.add_assoc.
Qed.

Lemma encodes_last {E} (e : Writer E unit) (k : unit -> Writer E unit) bs :
  encodes e bs -> encodes (k tt) [] -> encodes (e ≫= k) bs.
Proof. intros. rewrite <- (app_nil_r bs). by apply encodes_bind. Qed.

Lemma encodes_ensure n bs (k : unit -> Encoder unit) :
  n <= llen bs -> encodes (k tt) bs -> encodes (WriteCursor.ensure_size n ≫= k) bs.
Proof.
  intros Hn Hk pre hole post Hl. unfold mbind, M_bind, WriteCursor.ensure_size, WriteCursor.len. cbn.
  rewrite !llen_app. pose proof (llen_nonneg post).
  replace (n <=? _) with true by (symmetry; apply Z.leb_le; unfold llen in *; lia).
  by apply Hk.
Qed.

Lemma encodes_lift {E} (r : outcome E unit) (k : unit -> Writer E unit) bs :
  r = Ok tt -> encodes (k tt) bs -> encodes (lift r ≫= k) bs.
Proof. intros -> Hk pre hole post Hl. cbn. by apply Hk. Qed.

Lemma encodes_value {E A} (r : outcome E A) a (k : A -> Writer E unit) bs :
  r = Ok a -> encodes (k a) bs -> encodes (lift r ≫= k) bs.
Proof. intros -> Hk pre hole post Hl. cbn. by apply Hk. Qed.

Lemma encodes_write_slice {E} bs : encodes (WriteCursor.write_slice (E := E) bs) bs.
Proof.
  intros pre hole post Hl. unfold WriteCursor.write_slice. cbn.
  rewrite (proj2 (Nat.leb_le _ _)) by (rewrite !length_app; lia).
  rewrite take_app_length, <- drop_drop, drop_app_length.
  rewrite drop_app_length' by done. done.
Qed.

Lemma encodes_u8 {E} x : is_u8 x -> encodes (WriteCursor.write_u8 (E := E) x) [x].
Proof.
  intros Hx. replace [x] with (to_le_bytes 1 x) by (cbn; by rewrite Z.mod_small).
  apply encodes_write_slice.
Qed.
Lemma encodes_u16 {E} x : encodes (WriteCursor.write_u16 (E := E) x) (to_le_bytes 2 x).
Proof. apply encodes_write_slice. Qed.
Lemma encodes_u16_be {E} x : encodes (WriteCursor.write_u16_be (E := E) x) (to_be_bytes 2 x).
Proof. apply encodes_write_slice. Qed.
Lemma encodes_u32 {E} x : encodes (WriteCursor.write_u32 (E := E) x) (to_le_bytes 4 x).
Proof. apply encodes_write_slice. Qed.
Lemma encodes_u32_be {E} x : encodes (WriteCursor.write_u32_be (E := E) x) (to_be_bytes 4 x).
Proof. apply encodes_write_slice. Qed.

Lemma to_le_bytes_0 n : to_le_bytes n 0 = replicate n 0.
Proof. induction n; simpl; by f_equal. Qed.

(** [write_padding] writes [n] zero bytes, and its loop needs no more than
    [n] rounds. *)
Lemma write_padding_loop_spec {E} fuel n :
  (n <= fuel)%nat -> encodes (WriteCursor.write_padding_loop (E := E) fuel n) (replicate n 0).
Proof.
  revert n. induction fuel as [|fuel IH]; intros n Hn.
  { assert (n = 0)%nat as -> by lia. apply encodes_ret. }
  destruct n as [|n]; [apply encodes_ret|]. cbn [WriteCursor.write_padding_loop].
  assert (Hstep : forall k (w : Writer E unit), (0 < k <= S n)%nat ->
    w = WriteCursor.write_slice (to_le_bytes k 0) ->
    encodes (_ ← w; WriteCursor.write_padding_loop fuel (S n - k)) (replicate (S n) 0)).
  { intros k w Hk ->. replace (replicate (S n) 0) with (replicate k 0 ++ replicate (S n - k) 0)
      by (rewrite <- replicate_add; f_equal; lia).
    apply encodes_bind; [rewrite <- to_le_bytes_0; apply encodes_write_slice|]. apply IH. lia. }
  destruct (Nat.eqb_spec (S n) 1); [by apply (Hstep 1%nat); [lia|]|].
  destruct (Nat.leb_spec (S n) 3); [by apply (Hstep 2%nat); [lia|]|].
  destruct (Nat.leb_spec (S n) 7); [by apply (Hstep 4%nat); [lia|]|].
  by apply (Hstep 8%nat); [lia|].
Qed.

Lemma encodes_padding {E} n : encodes (WriteCursor.write_padding (E := E) n) (replicate n 0).
Proof. by apply write_padding_loop_spec. Qed.

Lemma encodes_opt {E A} (f : A -> Writer E unit) (g : A -> list Z) o :
  (forall x, o = Some x -> encodes (f x) (g x)) ->
  encodes (opt_m f o) (from_option g [] o).
Proof. destruct o; intros H; [by apply H|apply encodes_ret]. Qed.

Lemma encodes_iter {E A} (f : A -> Writer E unit) (g : A -> list Z) xs :
  Forall (fun x => encodes (f x) (g x)) xs -> encodes (iter_m f xs) (xs ≫= g).
Proof.
  induction 1 as [|x xs Hx _ IH]; [apply encodes_ret|].
  rewrite bind_cons. cbn [iter_m]. by apply encodes_bind.
Qed.

#[export] Hint Resolve encodes_u8 encodes_u16 encodes_u16_be encodes_u32 encodes_u32_be
  encodes_ret encodes_write_slice encodes_padding : codec.

(** ** Decoders on arbitrary bytes

    [safe n d m P]: with at least [n] bytes left, [d] does not panic, and if
    it succeeds it leaves at least [m] bytes and a value that satisfies [P]. *)

Definition rc_wf (c : ReadCursor.t) : Prop :=
  (ReadCursor.pos c <= length (ReadCursor.inner c))%nat /\ bytes_ok (ReadCursor.inner c).

Definition safe {E A} (n : Z) (d : Reader E A) (m : Z) (P : A -> Prop) : Prop :=
  forall c, rc_wf c -> n <= ReadCursor.len c ->
    match d c with
    | Ok (a, c') =>
        rc_wf c' /\ m <= ReadCursor.len c' /\ P a /\
        ReadCursor.inner c' = ReadCursor.inner c /\ (ReadCursor.pos c <= ReadCursor.pos c')%nat
    | Err _ => True
    | Panic => False
    end.

Section safe.
Context {E A B : Type}.

Lemma safe_bind n m l (d : Reader E A) (k : A -> Reader E B) P Q :
  safe n d m P -> (forall a, P a -> safe m (k a) l Q) -> safe n (d ≫= k) l Q.
Proof.
  intros Hd Hk c Hc Hn. unfold mbind, M_bind. specialize (Hd c Hc Hn).
  destruct (d c) as [[a c']| |]; [|done..]. destruct Hd as (Hc' & Hm & Ha & Hi & Hp).
  specialize (Hk a Ha c' Hc' Hm). destruct (k a c') as [[b c'']| |]; [|done..].
  destruct Hk as (? & ? & ? & Hi' & Hp'). split_and!; [done..|by rewrite Hi'|lia].
Qed.

Lemma safe_ret n (a : A) (P : A -> Prop) : P a -> safe n (mret a : Reader E A) n P.
Proof. intros Ha c Hc Hn. cbn. by split_and!. Qed.

Lemma safe_fail n m e (P : A -> Prop) : safe n (fail e : Reader E A) m P.
Proof. intros c Hc Hn. done. Qed.

Lemma safe_weaken n n' m m' (d : Reader E A) (P Q : A -> Prop) :
  safe n d m P -> n <= n' -> m' <= m -> (forall a, P a -> Q a) -> safe n' d m' Q.
Proof.
  intros Hd Hn Hm HPQ c Hc Hl. specialize (Hd c Hc ltac:(lia)).
  destruct (d c) as [[a c']| |]; [|done..]. destruct Hd as (?&?&?&?&?). split_and!; auto; lia.
Qed.

Lemma safe_lift n (r : outcome E A) :
  no_panic r -> safe n (lift r) n (fun a => r = Ok a).
Proof. intros Hr c Hc Hn. destruct r; cbn; [by split_and!|done|by apply Hr]. Qed.

Lemma safe_when n (b : bool) (d : Reader E A) P :
  safe n d 0 P -> safe n (when_m b d) 0 (fun o => (if b then is_Some o else o = None) /\
    forall a, o = Some a -> P a).
Proof.
  intros Hd. destruct b; cbn [when_m].
  - intros c Hc Hn. unfold mbind, M_bind. specialize (Hd c Hc Hn).
    destruct (d c) as [[a c']| |]; [|done..]. cbn. destruct Hd as (?&?&?&?&?).
    split_and!; [done|done|done|by intros ? [= <-]|done|done].
  - intros c Hc Hn. cbn. destruct Hc. split_and!; [done..| |done|done|done|lia].
    unfold ReadCursor.len, llen. lia.
Qed.

Lemma safe_repeat n k (d : Reader E A) P :
  0 <= n -> safe 1 d 0 P ->
  (forall c, rc_wf c -> 1 <= ReadCursor.len c ->
    forall a c', d c = Ok (a, c') -> ReadCursor.len c' = ReadCursor.len c - 1) ->
  safe (n + Z.of_nat k) (repeat_m k d) n (fun l => length l = k /\ Forall P l).
Proof.
  intros Hn Hd H1. induction k as [|k IH]; cbn [repeat_m].
  { replace (n + Z.of_nat 0) with n by lia. intros c Hc Hl. cbn. by split_and!. }
  intros c Hc Hl. unfold mbind, M_bind.
  pose proof (Hd c Hc ltac:(lia)) as H. specialize (H1 c Hc ltac:(lia)).
  destruct (d c) as [[a c']| |]; [|done..]. destruct H as (Hc' & _ & Ha & Hi & Hp).
  specialize (H1 a c' eq_refl). specialize (IH c' Hc' ltac:(lia)).
  destruct (repeat_m k d c') as [[l c'']| |]; [|done..]. cbn.
  destruct IH as (? & ? & [Hlen HP] & Hi' & Hp'). split_and!; [done..|simpl; lia| |congruence|lia].
  by constructor.
Qed.

End safe.

Lemma safe_fail_at {A} n m e (P : A -> Prop) : safe n (fail_at e) m P.
Proof. done. Qed.

Lemma safe_ensure n m : safe n (ReadCursor.ensure_size m) (Z.max n m) (fun _ => True).
Proof.
  intros c Hc Hn. unfold ReadCursor.ensure_size. zcase; [|done]. split_and!; [done..|lia|done|done|lia].
Qed.

Lemma safe_read_slice {E} n k :
  0 <= n -> safe (n + Z.of_nat k) (ReadCursor.read_slice (E := E) k) n (fun bs => length bs = k /\ bytes_ok bs).
Proof.
  intros Hn c [Hp Hb] Hl. unfold ReadCursor.read_slice, ReadCursor.peek_slice, ReadCursor.advance.
  unfold mbind, M_bind. unfold ReadCursor.len, llen in *.
  rewrite (proj2 (Nat.leb_le _ _)) by lia. unfold rc_wf. cbn. split_and!; [lia|done|lia| | |done|lia].
  - rewrite length_take, length_drop. lia.
  - by apply Forall_take, Forall_drop.
Qed.

Lemma safe_padding {E} n k :
  0 <= n -> safe (n + Z.of_nat k) (ReadCursor.read_padding (E := E) k) n (fun _ => True).
Proof.
  intros Hn c [Hp Hb] Hl. unfold ReadCursor.read_padding, ReadCursor.advance, rc_wf.
  unfold ReadCursor.len, llen in *. cbn. split_and!; [lia|done|lia|done|done|lia].
Qed.

Lemma safe_remaining {E} : safe 0 (ReadCursor.read_remaining (E := E)) 0 bytes_ok.
Proof.
  intros c Hc Hl. unfold ReadCursor.read_remaining, gets. unfold mbind at 1, M_bind at 1.
  pose proof (safe_read_slice (E := E) 0 (Z.to_nat (ReadCursor.len c)) ltac:(lia) c Hc ltac:(lia)) as H.
  destruct (ReadCursor.read_slice _ c) as [[bs c']| |]; [|done..].
  destruct H as (?&?&[_ ?]&?&?). by split_and!.
Qed.

Lemma safe_int {E} n k (f : list Z -> Z) (P : Z -> Prop) (m : Reader E Z) :
  0 <= n -> m = (bs ← ReadCursor.read_array k; mret (f bs)) ->
  (forall bs, length bs = k -> bytes_ok bs -> P (f bs)) ->
  safe (n + Z.of_nat k) m n P.
Proof.
  intros Hn -> HP. eapply safe_bind; [by apply safe_read_slice|].
  intros bs [Hk Hb]. by apply safe_ret, HP.
Qed.

Lemma from_be_bytes_range bs :
  bytes_ok bs -> 0 <= from_be_bytes bs < 256 ^ llen bs.
Proof.
  intros H. unfold from_be_bytes.
  pose proof (from_le_bytes_range (reverse bs) ltac:(by apply Forall_reverse)) as Hr.
  unfold llen in *. by rewrite length_reverse in Hr.
Qed.

Lemma safe_u8 {E} n : 0 <= n -> safe (n + 1) (ReadCursor.read_u8 (E := E)) n is_u8.
Proof.
  intros. apply (safe_int n 1 from_le_bytes); [done..|]. intros bs Hl Hb.
  apply from_le_bytes_range in Hb. unfold llen in Hb. by rewrite Hl in Hb.
Qed.
Lemma safe_u16 {E} n : 0 <= n -> safe (n + 2) (ReadCursor.read_u16 (E := E)) n is_u16.
Proof.
  intros. apply (safe_int n 2 from_le_bytes); [done..|]. intros bs Hl Hb.
  apply from_le_bytes_range in Hb. unfold llen in Hb. by rewrite Hl in Hb.
Qed.
Lemma safe_u16_be {E} n : 0 <= n -> safe (n + 2) (ReadCursor.read_u16_be (E := E)) n is_u16.
Proof.
  intros. apply (safe_int n 2 from_be_bytes); [done..|]. intros bs Hl Hb.
  apply from_be_bytes_range in Hb. unfold llen in Hb. by rewrite Hl in Hb.
Qed.
Lemma safe_u32_be {E} n : 0 <= n -> safe (n + 4) (ReadCursor.read_u32_be (E := E)) n is_u32.
Proof.
  intros. apply (safe_int n 4 from_be_bytes); [done..|]. intros bs Hl Hb.
  apply from_be_bytes_range in Hb. unfold llen in Hb. by rewrite Hl in Hb.
Qed.
Lemma safe_u32 {E} n : 0 <= n -> safe (n + 4) (ReadCursor.read_u32 (E := E)) n is_u32.
Proof.
  intros. apply (safe_int n 4 from_le_bytes); [done..|]. intros bs Hl Hb.
  apply from_le_bytes_range in Hb. unfold llen in Hb. by rewrite Hl in Hb.
Qed.

Lemma bind_ok_inv {E A B} (d : Reader E A) (k : A -> Reader E B) c b c' :
  (d ≫= k) c = Ok (b, c') -> exists a c1, d c = Ok (a, c1) /\ k a c1 = Ok (b, c').
Proof. unfold mbind, M_bind. destruct (d c) as [[a c1]| |]; [eauto|done..]. Qed.

Lemma ensure_size_len n c u c' : ReadCursor.ensure_size n c = Ok (u, c') -> c' = c.
Proof. unfold ReadCursor.ensure_size. case_match; [by intros [= _ <-]|done]. Qed.

Lemma len_read_slice {E} k c bs c' :
  ReadCursor.read_slice (E := E) k c = Ok (bs, c') ->
  ReadCursor.len c' = ReadCursor.len c - Z.of_nat k /\ llen bs = Z.of_nat k.
Proof.
  unfold ReadCursor.read_slice, ReadCursor.peek_slice, ReadCursor.advance, mbind, M_bind.
  destruct (Nat.leb_spec (ReadCursor.pos c + k) (length (ReadCursor.inner c))); [|done]. cbn.
  intros [= <- <-]. unfold ReadCursor.len, llen. cbn. rewrite length_take, length_drop. lia.
Qed.

Lemma len_read_u8 (c : ReadCursor.t) (a : Z) c' :
  (ReadCursor.read_u8 : Decoder Z) c = Ok (a, c') -> ReadCursor.len c' = ReadCursor.len c - 1.
Proof.
  unfold ReadCursor.read_u8, ReadCursor.read_array, ReadCursor.read_slice, ReadCursor.peek_slice,
    ReadCursor.advance, mbind, M_bind. destruct (_ <=? _)%nat; [|done]. cbn.
  intros [= <- <-]. unfold ReadCursor.len. cbn. lia.
Qed.

(** ** The codec interface

    What a wire structure promises to the layers that put it on the wire:
    [wf] values are written as exactly [wire a], [size] is the length of that,
    reading it back gives [a], and the decoder survives every input and only
    produces [wf] values. *)

Class Codec (A : Type) {E : Encode A} {D : Decode A} := {
  wf : A -> Prop;
  wire : A -> list Z;
  wire_encodes a : wf a -> encodes (encode_into a) (wire a);
  wire_size a : wf a -> size a = llen (wire a);
  wire_decodes a : wf a -> decodes_end decode_from (wire a) a;
  decode_safe : safe 0 decode_from 0 wf;
}.
#[export] Hint Mode Codec ! - - : typeclass_instances.

(** A structure that marks its own end, so that bytes may follow it. *)
Class Framed (A : Type) {E : Encode A} {D : Decode A} {C : Codec A} := {
  framed (a : A) : wf a -> decodes decode_from (wire a) a;
}.

Section codec.
Context {A : Type} {E : Encode A} {D : Decode A} {C : Codec A}.

Lemma encode_vec_wire (a : A) : wf a -> encode_vec a = Ok (wire a).
Proof.
  intros Hwf. unfold encode_vec, encode, WriteCursor.new.
  pose proof (wire_encodes a Hwf [] (replicate (Z.to_nat (size a)) 0) []) as He.
  rewrite length_replicate, (wire_size a Hwf) in He. unfold llen in He. rewrite Nat2Z.id in He.
  rewrite !app_nil_r in He. cbn [length app] in He. rewrite (wire_size a Hwf). unfold llen.
  rewrite Nat2Z.id. rewrite He by done. done.
Qed.

Lemma decode_wire (a : A) : wf a -> decode A (wire a) = Ok a.
Proof.
  intros Hwf. unfold decode, ReadCursor.new. pose proof (wire_decodes a Hwf []) as Hd.
  cbn [length app] in Hd. by rewrite Hd.
Qed.

Lemma decode_wire_framed `{!Framed A} (a : A) rest : wf a -> decode A (wire a ++ rest) = Ok a.
Proof.
  intros Hwf. unfold decode, ReadCursor.new. pose proof (framed a Hwf [] rest) as Hd.
  cbn [length app] in Hd. by rewrite Hd.
Qed.

Lemma decode_no_panic bs : bytes_ok bs -> decode A bs <> Panic.
Proof.
  intros Hb. unfold decode, ReadCursor.new.
  pose proof (decode_safe (A := A) (ReadCursor.mk bs 0)) as Hs.
  destruct (decode_from _) as [[a c]| |]; [done..|]. intros _. apply Hs; [split; cbn; [lia|done]|].
  unfold ReadCursor.len, llen. cbn. lia.
Qed.

Lemma decode_wf bs (a : A) : bytes_ok bs -> decode A bs = Ok a -> wf a.
Proof.
  intros Hb. unfold decode, ReadCursor.new.
  pose proof (decode_safe (A := A) (ReadCursor.mk bs 0)) as Hs.
  destruct (decode_from _) as [[a' c]| |]; [|done..]. intros [= <-]. apply Hs.
  - split; cbn; [lia|done].
  - unfold ReadCursor.len, llen. cbn. lia.
Qed.

(** What a decoder accepts is canonical: it can be written again, and what is
    written reads back as the same value. *)
Lemma decode_canonical bs (a : A) :
  bytes_ok bs -> decode A bs = Ok a ->
  exists out, encode_vec a = Ok out /\ llen out = size a /\ decode A out = Ok a.
Proof.
  intros Hb Hd. pose proof (decode_wf _ _ Hb Hd) as Hw. exists (wire a).
  split_and!; [by apply encode_vec_wire|symmetry; by apply wire_size|by apply decode_wire].
Qed.

Lemma encode_decode (a : A) :
  wf a -> exists out, encode_vec a = Ok out /\ llen out = size a /\ decode A out = Ok a.
Proof.
  intros Hw. exists (wire a).
  split_and!; [by apply encode_vec_wire|symmetry; by apply wire_size|by apply decode_wire].
Qed.

End codec.

(** ** Optional payloads *)

Definition opt_wire {A} {E : Encode A} {D : Decode A} {C : Codec A} (o : option A) : list Z :=
  from_option wire [] o.

Lemma opt_size_wire {A} {E : Encode A} {D : Decode A} {C : Codec A} (o : option A) :
  (forall x, o = Some x -> wf x) -> opt_size o = llen (opt_wire o).
Proof. destruct o; intros H; [apply wire_size, H; done|done]. Qed.

Lemma encodes_opt_wire {A} {E : Encode A} {D : Decode A} {C : Codec A} (o : option A) :
  (forall x, o = Some x -> wf x) -> encodes (opt_m encode_into o) (opt_wire o).
Proof. intros H. apply encodes_opt. intros x Hx. apply wire_encodes, H, Hx. Qed.

Lemma decodes_opt_wire {A} {E : Encode A} {D : Decode A} {C : Codec A} {F : Framed A} b (o : option A) :
  b = is_some o -> (forall x, o = Some x -> wf x) ->
  decodes (when_m b decode_from) (opt_wire o) o.
Proof.
  intros -> H. destruct o as [x|]; [|apply decodes_when_false].
  apply decodes_when_true, framed, H. done.
Qed.

Lemma when_is_some {A} (b : bool) (o : option A) :
  (if b then is_Some o else o = None) -> is_some o = b.
Proof. destruct b; [by intros [? ->]|by intros ->]. Qed.

(** Turns a goal about a decoder built from a fixed sequence of reads into the
    goals about its parts. *)
Ltac decode_step :=
  first
  [ apply decodes_ret
  | apply decodes_ensure; [unfold llen; simpl; rewrite ?length_app, ?length_to_le_bytes,
      ?length_to_be_bytes; simpl; try lia|]
  | eapply decodes_bind; [solve [eauto with codec]|] ].

Ltac safe_step :=
  first
  [ apply safe_ret
  | apply safe_fail
  | eapply safe_bind; [first
      [ apply safe_ensure
      | apply (safe_u8 _); lia | apply (safe_u16 _); lia | apply (safe_u16_be _); lia
      | apply (safe_u32 _); lia | apply (safe_u32_be _); lia ]|intros ? ?; cbv beta] ].
