(* ===== verification/Flags.v ===== *)
(** Bit sets generated by the [bitflags!] macro.

    The macro comes from the bitflags crate, outside the repository: its
    operations are a parameter of the definitions that use them, with their
    documented meaning as laws.  A value is its [bits()]. *)

From S2P Require Import Prelude.

Class Bitflags := {
  (** [a | b] *)
  union : Z -> Z -> Z;
  (** [a & b] *)
  intersection : Z -> Z -> Z;
  (** [a.contains(b)] *)
  contains : Z -> Z -> bool;
  (** [a.intersects(b)] *)
  intersects : Z -> Z -> bool;
  (** [a.difference(b)], and [a.remove(b)] in place *)
  difference : Z -> Z -> Z;
  (** [a.symmetric_difference(b)], and [a.toggle(b)] in place *)
  symmetric_difference : Z -> Z -> Z;
  (** [Flags::from_bits_truncate(bits)], for a type whose known bits are [all] *)
  from_bits_truncate : Z -> Z -> Z;
  union_bits a b : union a b = Z.lor a b;
  intersection_bits a b : intersection a b = Z.land a b;
  contains_bits a b : contains a b = (Z.land a b =? b);
  intersects_bits a b : intersects a b = negb (Z.land a b =? 0);
  difference_bits a b : difference a b = Z.ldiff a b;
  symmetric_difference_bits a b : symmetric_difference a b = Z.lxor a b;
  from_bits_truncate_bits all bits : from_bits_truncate all bits = Z.land bits all;
}.

(** The operations exist: bitwise [or], [and] and inclusion. *)
Definition bits_flags : Bitflags := {|
  union := Z.lor;
  intersection := Z.land;
  contains a b := Z.land a b =? b;
  intersects a b := negb (Z.land a b =? 0);
  difference := Z.ldiff;
  symmetric_difference := Z.lxor;
  from_bits_truncate all bits := Z.land bits all;
  union_bits a b := eq_refl;
  intersection_bits a b := eq_refl;
  contains_bits a b := eq_refl;
  intersects_bits a b := eq_refl;
  difference_bits a b := eq_refl;
  symmetric_difference_bits a b := eq_refl;
  from_bits_truncate_bits all bits := eq_refl;
|}.

(** [flags.set(other, value)] inserts or removes. *)
Definition set_flag `{Bitflags} (flags other : Z) (value : bool) : Z :=
  if value then union flags other else difference flags other.
