(* ===== verification/WireV2.v ===== *)
(** The RDP-UDP2 packet format
    (src/crates/ironrdp-rdpeudp/src/pdu: v2_flags.rs, v2_header.rs, v2_ack.rs,
    v2_control.rs, v2_data.rs and the composite packet of mod.rs): the
    encoders and decoders, and the [Codec] interface for each structure. *)

From S2P Require Import Prelude Cursor Codec Flags.

(** ** V2Flags *)

Module V2Flags.

Definition ACK : Z := 0x001.
Definition DATA : Z := 0x004.
Definition ACKVEC : Z := 0x008.
Definition AOA : Z := 0x010.
Definition OVERHEADSIZE : Z := 0x040.
Definition DELAYACKINFO : Z := 0x100.
(** [V2Flags::all()]: the bits the table above defines. *)
Definition ALL : Z := 0x15D.
Definition MASK : Z := 0x0FFF.
(** [V2Flags::empty()] *)
Definition empty : Z := 0.

Section ops.
Context {BF : Bitflags}.

Definition ack_flags_valid (f : Z) : bool := negb (contains f (union ACK ACKVEC)).

End ops.
End V2Flags.

Definition LOG_WINDOW_SIZE_MAX : Z := 15.

(** ** V2Header *)

Record V2Header := mkV2Header { h_flags : Z; h_log_window_size : Z }.

Section header.
Context {BF : Bitflags}.

Definition V2Header_to_wire (h : V2Header) : Z :=
  let flags_bits := Z.land (h_flags h) V2Flags.MASK in
  let window_bits := Z.shiftl (Z.land (h_log_window_size h) 0x0F) 12 in
  Z.lor flags_bits window_bits.

Definition V2Header_from_wire (wire : Z) : outcome DecodeErrorKind V2Header :=
  let flags := from_bits_truncate V2Flags.ALL (Z.land wire V2Flags.MASK) in
  let log_window_size := Z.land (Z.shiftr wire 12) 0x0F in
  if negb (V2Flags.ack_flags_valid flags) then
    Err (DInvalidField "flags" "ACK and ACKVEC are mutually exclusive" None)
  else Ok (mkV2Header flags log_window_size).

Definition V2Header_window_size (h : V2Header) : Z := Z.shiftl 1 (h_log_window_size h).

Definition V2Header_encode (h : V2Header) : Encoder unit :=
  _ ← WriteCursor.ensure_size 2;
  if LOG_WINDOW_SIZE_MAX <? h_log_window_size h then
    fail (EInvalidField "log_window_size" "exceeds 4-bit maximum (15)" None)
  else if negb (V2Flags.ack_flags_valid (h_flags h)) then
    fail (EInvalidField "flags" "ACK and ACKVEC are mutually exclusive" None)
  else WriteCursor.write_u16 (V2Header_to_wire h).

Definition V2Header_decode : Decoder V2Header :=
  _ ← ReadCursor.ensure_size 2;
  wire ← ReadCursor.read_u16;
  fun c => h ← V2Header_from_wire wire; mret (h, c).

#[export] Instance V2Header_Encode : Encode V2Header :=
  { encode_into := V2Header_encode; size := fun _ => 2 }.
#[export] Instance V2Header_Decode : Decode V2Header := { decode_from := V2Header_decode }.

End header.

(** ** AckPayload *)

Record AckPayload := mkAckPayload {
  seq_num : Z;
  received_ts : Z;
  send_ack_time_gap : Z;
  delay_ack_time_scale : Z;
  delay_ack_time_additions : list Z;
}.

Definition TIMESTAMP_MASK : Z := 0x00FFFFFF.

Definition AckPayload_size (a : AckPayload) : Z := 7 + llen (delay_ack_time_additions a).

(** Three bytes, little-endian: the low 24 bits of a [u32]. *)
Definition write_u24 {E} (ts : Z) : M WriteCursor.t E unit :=
  let ts_bytes := to_le_bytes 4 (Z.land ts TIMESTAMP_MASK) in
  _ ← WriteCursor.write_u8 (nth 0 ts_bytes 0);
  _ ← WriteCursor.write_u8 (nth 1 ts_bytes 0);
  WriteCursor.write_u8 (nth 2 ts_bytes 0).

Definition read_u24 {E} : M ReadCursor.t E Z :=
  ts_b0 ← ReadCursor.read_u8;
  ts_b1 ← ReadCursor.read_u8;
  ts_b2 ← ReadCursor.read_u8;
  mret (Z.lor (Z.lor ts_b0 (Z.shiftl ts_b1 8)) (Z.shiftl ts_b2 16)).

Definition AckPayload_encode (a : AckPayload) : Encoder unit :=
  _ ← WriteCursor.ensure_size (AckPayload_size a);
  _ ← WriteCursor.write_u16 (seq_num a);
  _ ← write_u24 (received_ts a);
  _ ← WriteCursor.write_u8 (send_ack_time_gap a);
  let num_delayed_acks := llen (delay_ack_time_additions a) in
  if 0x0F <? num_delayed_acks then
    fail (EInvalidField "numDelayedAcks" "exceeds 4-bit maximum (15)" None)
  else
    let packed := Z.lor (Z.shiftl (Z.land (delay_ack_time_scale a) 0x0F) 4) num_delayed_acks in
    _ ← WriteCursor.write_u8 packed;
    WriteCursor.write_slice (delay_ack_time_additions a).

Definition AckPayload_decode : Decoder AckPayload :=
  _ ← ReadCursor.ensure_size 7;
  seq_num ← ReadCursor.read_u16;
  received_ts ← read_u24;
  send_ack_time_gap ← ReadCursor.read_u8;
  packed ← ReadCursor.read_u8;
  let num_delayed_acks := Z.land packed 0x0F in
  let delay_ack_time_scale := Z.land (Z.shiftr packed 4) 0x0F in
  let additions_len := num_delayed_acks in
  _ ← ReadCursor.ensure_size additions_len;
  delay_ack_time_additions ← ReadCursor.read_slice (Z.to_nat additions_len);
  mret (mkAckPayload seq_num received_ts send_ack_time_gap delay_ack_time_scale
          delay_ack_time_additions).

#[export] Instance AckPayload_Encode : Encode AckPayload :=
  { encode_into := AckPayload_encode; size := AckPayload_size }.
#[export] Instance AckPayload_Decode : Decode AckPayload := { decode_from := AckPayload_decode }.

(** ** AckVectorPayload *)

Definition ACK_VECTOR_MAX_ENTRIES : Z := 127.

Inductive AckVectorEntry :=
| StateMap (bitmap : Z)
| RunLength (received : bool) (length : Z).

Definition AckVectorEntry_to_byte (e : AckVectorEntry) : Z :=
  match e with
  | StateMap bitmap => Z.land bitmap 0x7F
  | RunLength received length =>
      let byte := 0x80 in
      let byte := if received then Z.lor byte 0x40 else byte in
      Z.lor byte (Z.land length 0x3F)
  end.

Definition AckVectorEntry_from_byte (byte : Z) : AckVectorEntry :=
  if Z.land byte 0x80 =? 0 then StateMap (Z.land byte 0x7F)
  else RunLength (negb (Z.land byte 0x40 =? 0)) (Z.land byte 0x3F).

Definition AckVectorEntry_coverage (e : AckVectorEntry) : Z :=
  match e with StateMap _ => 7 | RunLength _ length => length end.

Record AckVectorPayload := mkAckVectorPayload {
  base_seq_num : Z;
  timestamp : option Z;
  send_ack_time_gap_ms : option Z;
  entries : list AckVectorEntry;
}.

Definition AckVectorPayload_size (v : AckVectorPayload) : Z :=
  let total := 3 in
  let total := if is_some (timestamp v) && is_some (send_ack_time_gap_ms v) then total + 4 else total in
  total + llen (entries v).

(** The width check of one entry at the head of [encode]. *)
Definition AckVectorEntry_check (e : AckVectorEntry) : Encoder unit :=
  match e with
  | StateMap bitmap =>
      if 0x7F <? bitmap then
        fail (EInvalidField "entries" "StateMap bitmap exceeds 7-bit maximum (0x7F)" None)
      else mret tt
  | RunLength _ length =>
      if 0x3F <? length then
        fail (EInvalidField "entries" "RunLength length exceeds 6-bit maximum (0x3F)" None)
      else mret tt
  end.

Definition AckVectorPayload_encode (v : AckVectorPayload) : Encoder unit :=
  _ ← WriteCursor.ensure_size (AckVectorPayload_size v);
  _ ← iter_m AckVectorEntry_check (entries v);
  if negb (Bool.eqb (is_some (timestamp v)) (is_some (send_ack_time_gap_ms v))) then
    fail (EInvalidField "timestamp"
      "timestamp and send_ack_time_gap_ms must be both present or both absent" None)
  else
  _ ← WriteCursor.write_u16 (base_seq_num v);
  let vec_size := llen (entries v) in
  if 255 <? vec_size then fail (EInvalidField "codedAckVecSize" "too many elements" None)
  else if ACK_VECTOR_MAX_ENTRIES <? vec_size then
    fail (EInvalidField "codedAckVecSize" "exceeds 7-bit maximum (127)" None)
  else
  let timestamp_present := is_some (timestamp v) && is_some (send_ack_time_gap_ms v) in
  let packed := Z.lor (Z.land vec_size 0x7F) (if timestamp_present then 0x80 else 0x00) in
  _ ← WriteCursor.write_u8 packed;
  _ ← match timestamp v, send_ack_time_gap_ms v with
      | Some ts, Some gap => _ ← write_u24 ts; WriteCursor.write_u8 gap
      | _, _ => mret tt
      end;
  iter_m (fun e => WriteCursor.write_u8 (AckVectorEntry_to_byte e)) (entries v).

Definition AckVectorPayload_decode : Decoder AckVectorPayload :=
  _ ← ReadCursor.ensure_size 3;
  base_seq_num ← ReadCursor.read_u16;
  packed ← ReadCursor.read_u8;
  let coded_ack_vec_size := Z.land packed 0x7F in
  let timestamp_present := negb (Z.land packed 0x80 =? 0) in
  '(timestamp, send_ack_time_gap_ms) ←
    (if timestamp_present then
      _ ← ReadCursor.ensure_size 4;
      ts ← read_u24;
      gap ← ReadCursor.read_u8;
      mret (Some ts, Some gap)
    else mret (None, None));
  let entries_len := coded_ack_vec_size in
  _ ← ReadCursor.ensure_size entries_len;
  entries ← repeat_m (Z.to_nat entries_len)
    (b ← ReadCursor.read_u8; mret (AckVectorEntry_from_byte b));
  mret (mkAckVectorPayload base_seq_num timestamp send_ack_time_gap_ms entries).

#[export] Instance AckVectorPayload_Encode : Encode AckVectorPayload :=
  { encode_into := AckVectorPayload_encode; size := AckVectorPayload_size }.
#[export] Instance AckVectorPayload_Decode : Decode AckVectorPayload :=
  { decode_from := AckVectorPayload_decode }.

(** ** Control payloads *)

Record OverheadSizePayload := mkOverheadSize { overhead_size : Z }.
Definition OverheadSize_encode (p : OverheadSizePayload) : Encoder unit :=
  _ ← WriteCursor.ensure_size 1; WriteCursor.write_u8 (overhead_size p).
Definition OverheadSize_decode : Decoder OverheadSizePayload :=
  _ ← ReadCursor.ensure_size 1; n ← ReadCursor.read_u8; mret (mkOverheadSize n).
#[export] Instance OverheadSize_Encode : Encode OverheadSizePayload :=
  { encode_into := OverheadSize_encode; size := fun _ => 1 }.
#[export] Instance OverheadSize_Decode : Decode OverheadSizePayload :=
  { decode_from := OverheadSize_decode }.

Record DelayAckInfoPayload := mkDelayAckInfo {
  max_delayed_acks : Z; delayed_ack_timeout_ms : Z }.
Definition DelayAckInfo_encode (p : DelayAckInfoPayload) : Encoder unit :=
  _ ← WriteCursor.ensure_size 3;
  _ ← WriteCursor.write_u8 (max_delayed_acks p);
  WriteCursor.write_u16 (delayed_ack_timeout_ms p).
Definition DelayAckInfo_decode : Decoder DelayAckInfoPayload :=
  _ ← ReadCursor.ensure_size 3;
  max_delayed_acks ← ReadCursor.read_u8;
  delayed_ack_timeout_ms ← ReadCursor.read_u16;
  mret (mkDelayAckInfo max_delayed_acks delayed_ack_timeout_ms).
#[export] Instance DelayAckInfo_Encode : Encode DelayAckInfoPayload :=
  { encode_into := DelayAckInfo_encode; size := fun _ => 3 }.
#[export] Instance DelayAckInfo_Decode : Decode DelayAckInfoPayload :=
  { decode_from := DelayAckInfo_decode }.

Record AckOfAcksPayload := mkAckOfAcks { ack_of_acks_seq_num : Z }.
Definition AckOfAcks_encode (p : AckOfAcksPayload) : Encoder unit :=
  _ ← WriteCursor.ensure_size 2; WriteCursor.write_u16 (ack_of_acks_seq_num p).
Definition AckOfAcks_decode : Decoder AckOfAcksPayload :=
  _ ← ReadCursor.ensure_size 2; n ← ReadCursor.read_u16; mret (mkAckOfAcks n).
#[export] Instance AckOfAcks_Encode : Encode AckOfAcksPayload :=
  { encode_into := AckOfAcks_encode; size := fun _ => 2 }.
#[export] Instance AckOfAcks_Decode : Decode AckOfAcksPayload :=
  { decode_from := AckOfAcks_decode }.

(** ** Data payloads *)

Record DataHeader := mkDataHeader { data_seq_num : Z }.
Definition DataHeader_encode (p : DataHeader) : Encoder unit :=
  _ ← WriteCursor.ensure_size 2; WriteCursor.write_u16 (data_seq_num p).
Definition DataHeader_decode : Decoder DataHeader :=
  _ ← ReadCursor.ensure_size 2; n ← ReadCursor.read_u16; mret (mkDataHeader n).
#[export] Instance DataHeader_Encode : Encode DataHeader :=
  { encode_into := DataHeader_encode; size := fun _ => 2 }.
#[export] Instance DataHeader_Decode : Decode DataHeader := { decode_from := DataHeader_decode }.

Record DataBody := mkDataBody { channel_seq_num : Z; body_data : list Z }.
Definition DataBody_size (p : DataBody) : Z := 2 + llen (body_data p).
Definition DataBody_encode (p : DataBody) : Encoder unit :=
  _ ← WriteCursor.ensure_size (DataBody_size p);
  _ ← WriteCursor.write_u16 (channel_seq_num p);
  WriteCursor.write_slice (body_data p).
Definition DataBody_decode : Decoder DataBody :=
  _ ← ReadCursor.ensure_size 2;
  channel_seq_num ← ReadCursor.read_u16;
  data ← ReadCursor.read_remaining;
  mret (mkDataBody channel_seq_num data).
#[export] Instance DataBody_Encode : Encode DataBody :=
  { encode_into := DataBody_encode; size := DataBody_size }.
#[export] Instance DataBody_Decode : Decode DataBody := { decode_from := DataBody_decode }.

(** ** V2Packet *)

Record V2Packet := mkV2Packet {
  p_header : V2Header;
  p_ack : option AckPayload;
  p_overhead_size : option OverheadSizePayload;
  p_delay_ack_info : option DelayAckInfoPayload;
  p_ack_of_acks : option AckOfAcksPayload;
  p_data_header : option DataHeader;
  p_ack_vector : option AckVectorPayload;
  p_data_body : option DataBody;
}.

Section packet.
Context {BF : Bitflags}.

Definition V2Packet_compute_flags (p : V2Packet) : Z :=
  let flags := V2Flags.empty in
  let flags := if is_some (p_ack p) then union flags V2Flags.ACK else flags in
  let flags := if is_some (p_overhead_size p) then union flags V2Flags.OVERHEADSIZE else flags in
  let flags := if is_some (p_delay_ack_info p) then union flags V2Flags.DELAYACKINFO else flags in
  let flags := if is_some (p_ack_of_acks p) then union flags V2Flags.AOA else flags in
  let flags := if is_some (p_data_header p) then union flags V2Flags.DATA else flags in
  let flags := if is_some (p_ack_vector p) then union flags V2Flags.ACKVEC else flags in
  flags.

Definition V2Packet_size (p : V2Packet) : Z :=
  let total := size (p_header p) in
  let total := total + opt_size (p_ack p) in
  let total := total + opt_size (p_overhead_size p) in
  let total := total + opt_size (p_delay_ack_info p) in
  let total := total + opt_size (p_ack_of_acks p) in
  let total := total + opt_size (p_data_header p) in
  let total := total + opt_size (p_ack_vector p) in
  let total := total + opt_size (p_data_body p) in
  total.

Definition V2Packet_encode (p : V2Packet) : Encoder unit :=
  if negb (Bool.eqb (is_some (p_data_header p)) (is_some (p_data_body p))) then
    fail (EInvalidField "DATA" "data_header and data_body must be both present or both absent" None)
  else if is_some (p_ack p) && is_some (p_ack_vector p) then
    fail (EInvalidField "ACK/ACKVEC" "ACK and ACKVEC are mutually exclusive" None)
  else
  _ ← WriteCursor.ensure_size (V2Packet_size p);
  let header := mkV2Header (V2Packet_compute_flags p) (h_log_window_size (p_header p)) in
  _ ← encode_into header;
  _ ← opt_m encode_into (p_ack p);
  _ ← opt_m encode_into (p_overhead_size p);
  _ ← opt_m encode_into (p_delay_ack_info p);
  _ ← opt_m encode_into (p_ack_of_acks p);
  _ ← opt_m encode_into (p_data_header p);
  _ ← opt_m encode_into (p_ack_vector p);
  opt_m encode_into (p_data_body p).

Definition V2Packet_decode : Decoder V2Packet :=
  header ← decode_from;
  let flags := h_flags header in
  ack ← when_m (contains flags V2Flags.ACK) decode_from;
  overhead_size ← when_m (contains flags V2Flags.OVERHEADSIZE) decode_from;
  delay_ack_info ← when_m (contains flags V2Flags.DELAYACKINFO) decode_from;
  ack_of_acks ← when_m (contains flags V2Flags.AOA) decode_from;
  data_header ← when_m (contains flags V2Flags.DATA) decode_from;
  ack_vector ← when_m (contains flags V2Flags.ACKVEC) decode_from;
  data_body ← when_m (contains flags V2Flags.DATA) decode_from;
  mret (mkV2Packet header ack overhead_size delay_ack_info ack_of_acks data_header ack_vector data_body).

#[export] Instance V2Packet_Encode : Encode V2Packet :=
  { encode_into := V2Packet_encode; size := V2Packet_size }.
#[export] Instance V2Packet_Decode : Decode V2Packet := { decode_from := V2Packet_decode }.

End packet.

(** ** Codec instances *)

Section header_codec.
Context {BF : Bitflags}.

Definition V2Header_wf (h : V2Header) : Prop :=
  Z.land (h_flags h) V2Flags.ALL = h_flags h /\ 0 <= h_log_window_size h <= 15 /\
  V2Flags.ack_flags_valid (h_flags h) = true.

Definition V2Header_wire (h : V2Header) : list Z := to_le_bytes 2 (V2Header_to_wire h).

Lemma flags_range f : Z.land f V2Flags.ALL = f -> 0 <= f <= V2Flags.ALL.
Proof. intros <-. by apply land_le_r. Qed.

Lemma V2Header_to_wire_eq h :
  V2Header_wf h -> V2Header_to_wire h = h_flags h + h_log_window_size h * 4096.
Proof.
  intros (Hf%flags_range & Hl & _). unfold V2Header_to_wire, V2Flags.MASK, V2Flags.ALL in *.
  rewrite land_u12, land_u4.
  rewrite !Z.mod_small by lia. rewrite Z.lor_comm, shiftl_lor_low by lia. lia.
Qed.

Lemma V2Header_to_wire_range h : V2Header_wf h -> is_u16 (V2Header_to_wire h).
Proof.
  intros Hw. rewrite V2Header_to_wire_eq by done. destruct Hw as (Hf%flags_range & Hl & _).
  unfold V2Flags.ALL in *. width.
Qed.

Lemma V2Header_from_to_wire h : V2Header_wf h -> V2Header_from_wire (V2Header_to_wire h) = Ok h.
Proof.
  intros Hw. rewrite V2Header_to_wire_eq by done. destruct Hw as (Hf & Hl & Hv).
  pose proof (flags_range _ Hf). unfold V2Header_from_wire, V2Flags.MASK, V2Flags.ALL in *.
  rewrite from_bits_truncate_bits, land_u12, land_u4.
  rewrite Z.shiftr_div_pow2 by lia.
  rewrite Z.mod_add, (Z.mod_small (h_flags h)), Hf, Hv by lia. cbn [negb].
  rewrite Z.div_add, (Z.div_small (h_flags h)), Z.mod_small by lia. by destruct h.
Qed.

Lemma V2Header_from_wire_wf wire h : V2Header_from_wire wire = Ok h -> V2Header_wf h.
Proof.
  unfold V2Header_from_wire. rewrite from_bits_truncate_bits.
  destruct (V2Flags.ack_flags_valid _) eqn:E; [|done]. cbn [negb]. intros [= <-].
  split_and!; [|apply (land_le_r _ 15); lia..|done].
  cbn [h_flags]. rewrite <- !Z.land_assoc. done.
Qed.

Lemma V2Header_decodes h : V2Header_wf h -> decodes V2Header_decode (V2Header_wire h) h.
Proof.
  intros Hw. apply decodes_ensure; [done|]. eapply decodes_last.
  - by apply decodes_u16, V2Header_to_wire_range.
  - intros pre post. rewrite V2Header_from_to_wire by done. cbn. by rewrite Nat.add_0_r.
Qed.

#[export] Program Instance V2Header_Codec : Codec V2Header :=
  { wf := V2Header_wf; wire := V2Header_wire }.
Next Obligation.
  intros h Hw. cbn. unfold V2Header_encode. apply encodes_ensure; [done|].
  destruct Hw as (Hf & Hl & Hv). unfold LOG_WINDOW_SIZE_MAX. rewrite Hv.
  destruct (Z.ltb_spec 15 (h_log_window_size h)); [lia|]. apply encodes_u16.
Qed.
Next Obligation. done. Qed.
Next Obligation. intros h Hw. by apply decodes_to_end, V2Header_decodes. Qed.
Next Obligation.
  cbn. unfold V2Header_decode. eapply safe_bind; [apply safe_ensure|]. intros _ _.
  eapply safe_bind; [by apply (safe_u16 0)|]. intros wire Hwire c Hc Hl.
  destruct (V2Header_from_wire wire) as [h| |] eqn:E; [|done|].
  - cbn. apply V2Header_from_wire_wf in E. by split_and!.
  - unfold V2Header_from_wire in E. by destruct (negb _).
Qed.

#[export] Instance V2Header_Framed : Framed V2Header := { framed := V2Header_decodes }.

End header_codec.

Lemma u24_range_bytes x : 0 <= x < 2 ^ 24 ->
  to_le_bytes 3 x = [x mod 256; x / 256 mod 256; x / 65536].
Proof.
  intros Hx. cbn [to_le_bytes]. rewrite Z.div_div by lia. repeat f_equal. apply Z.mod_small. zdm.
Qed.

Lemma encodes_u24 ts : 0 <= ts < 2 ^ 24 -> encodes (write_u24 ts : Encoder unit) (to_le_bytes 3 ts).
Proof.
  intros Hts. unfold write_u24, TIMESTAMP_MASK. rewrite land_u24, Z.mod_small by lia.
  change (to_le_bytes 3 ts) with
    ([ts mod 256] ++ [ts / 256 mod 256] ++ [ts / 256 / 256 mod 256]).
  cbn [to_le_bytes nth].
  repeat apply encodes_bind; apply encodes_u8; apply Z.mod_pos_bound; lia.
Qed.

Lemma decodes_u24 ts : 0 <= ts < 2 ^ 24 -> decodes (read_u24 : Decoder Z) (to_le_bytes 3 ts) ts.
Proof.
  intros Hts. rewrite u24_range_bytes by done. unfold read_u24.
  apply (decodes_bind _ _ [_] [_; _] (ts mod 256)); [apply decodes_u8; unfold is_u8; zdm|].
  apply (decodes_bind _ _ [_] [_] (ts / 256 mod 256)); [apply decodes_u8; unfold is_u8; zdm|].
  apply (decodes_last _ _ [_] (ts / 65536)); [apply decodes_u8; unfold is_u8; zdm|].
  replace (Z.lor _ _) with ts; [apply decodes_ret|].
  rewrite Z.lor_comm, (Z.lor_comm (ts mod 256)).
  rewrite (shiftl_lor_low (ts / 256 mod 256)) by zdm.
  rewrite shiftl_lor_low; zdm.
Qed.

Lemma safe_u24 n : 0 <= n -> safe (n + 3) (read_u24 : Decoder Z) n (fun ts => 0 <= ts < 2 ^ 24).
Proof.
  intros Hn. unfold read_u24.
  eapply safe_bind; [replace (n + 3) with (n + 2 + 1) by lia; apply safe_u8; lia|]. intros b0 H0.
  eapply safe_bind; [replace (n + 2) with (n + 1 + 1) by lia; apply safe_u8; lia|]. intros b1 H1.
  eapply safe_bind; [apply safe_u8; lia|]. intros b2 H2. apply safe_ret.
  rewrite Z.lor_comm, (Z.lor_comm b0), (shiftl_lor_low b1), shiftl_lor_low by width. width.
Qed.

(** *** AckPayload *)

Definition AckPayload_wf (a : AckPayload) : Prop :=
  is_u16 (seq_num a) /\ 0 <= received_ts a < 2 ^ 24 /\ is_u8 (send_ack_time_gap a) /\
  0 <= delay_ack_time_scale a <= 15 /\ llen (delay_ack_time_additions a) <= 15 /\
  bytes_ok (delay_ack_time_additions a).

Definition AckPayload_wire (a : AckPayload) : list Z :=
  to_le_bytes 2 (seq_num a) ++ to_le_bytes 3 (received_ts a) ++ [send_ack_time_gap a] ++
  [delay_ack_time_scale a * 16 + llen (delay_ack_time_additions a)] ++ delay_ack_time_additions a.

Lemma AckPayload_packed a :
  AckPayload_wf a ->
  Z.lor (Z.shiftl (Z.land (delay_ack_time_scale a) 0x0F) 4) (llen (delay_ack_time_additions a)) =
  delay_ack_time_scale a * 16 + llen (delay_ack_time_additions a).
Proof.
  intros (_ & _ & _ & Hs & Hl & _). pose proof (llen_nonneg (delay_ack_time_additions a)).
  rewrite land_u4, Z.mod_small, shiftl_lor_low by lia. done.
Qed.

Lemma AckPayload_decodes a : AckPayload_wf a -> decodes AckPayload_decode (AckPayload_wire a) a.
Proof.
  intros Hw. pose proof Hw as (Hq & Ht & Hg & Hs & Hl & Hb).
  pose proof (llen_nonneg (delay_ack_time_additions a)).
  unfold AckPayload_decode, AckPayload_wire.
  apply decodes_ensure; [rewrite !llen_app; unfold llen; simpl; lia|].
  eapply decodes_bind; [by apply decodes_u16|].
  eapply decodes_bind; [by apply decodes_u24|].
  eapply decodes_bind; [by apply decodes_u8|].
  eapply decodes_bind; [apply decodes_u8; width|].
  rewrite !land_u4, Z.shiftr_div_pow2 by lia. change (2 ^ 4) with 16.
  rewrite (Z.add_comm (_ * 16)), Z.mod_add, Z.div_add by lia.
  rewrite (Z.mod_small (llen _)), (Z.div_small (llen _)), Z.add_0_l, Z.mod_small by lia.
  apply decodes_ensure; [lia|]. unfold llen. rewrite Nat2Z.id.
  eapply decodes_last; [apply decodes_read_slice|]. destruct a. apply decodes_ret.
Qed.

#[export] Program Instance AckPayload_Codec : Codec AckPayload :=
  { wf := AckPayload_wf; wire := AckPayload_wire }.
Next Obligation.
  intros a Hw. pose proof Hw as (Hq & Ht & Hg & Hs & Hl & Hb).
  pose proof (llen_nonneg (delay_ack_time_additions a)).
  change (encodes (AckPayload_encode a) (AckPayload_wire a)).
  unfold AckPayload_encode, AckPayload_wire, AckPayload_size.
  apply encodes_ensure; [rewrite !llen_app; unfold llen; simpl; lia|].
  apply encodes_bind; [apply encodes_u16|]. apply encodes_bind; [by apply encodes_u24|].
  apply encodes_bind; [by apply encodes_u8|].
  destruct (Z.ltb_spec 0x0F (llen (delay_ack_time_additions a))); [lia|].
  rewrite AckPayload_packed by done.
  apply encodes_bind; [apply encodes_u8; width|apply encodes_write_slice].
Qed.
Next Obligation.
  intros a Hw. change (AckPayload_size a = llen (AckPayload_wire a)).
  unfold AckPayload_size, AckPayload_wire. rewrite !llen_app. unfold llen. simpl. lia.
Qed.
Next Obligation. intros a Hw. by apply decodes_to_end, AckPayload_decodes. Qed.
Next Obligation.
  cbn. unfold AckPayload_decode. eapply safe_bind; [apply (safe_ensure 0 7)|]. intros _ _.
  eapply safe_bind; [apply (safe_u16 5); lia|]. intros q Hq.
  eapply safe_bind; [apply (safe_u24 2); lia|]. intros ts Hts.
  eapply safe_bind; [apply (safe_u8 1); lia|]. intros gap Hg.
  eapply safe_bind; [apply (safe_u8 0); lia|]. intros packed Hp.
  pose proof (land_le_r packed 15 ltac:(lia)). pose proof (land_le_r (Z.shiftr packed 4) 15 ltac:(lia)).
  eapply safe_bind; [apply safe_ensure|]. intros _ _.
  eapply safe_bind.
  { eapply safe_weaken; [apply (safe_read_slice 0); lia|rewrite Z2Nat.id; lia|done|by intros ? HH]. }
  intros bs [Hl Hb]. apply safe_ret. unfold AckPayload_wf. cbn.
  unfold llen. split_and!; width || done.
Qed.

#[export] Instance AckPayload_Framed : Framed AckPayload := { framed := AckPayload_decodes }.

(** *** AckVectorPayload *)

Definition AckVectorEntry_wf (e : AckVectorEntry) : Prop :=
  match e with
  | StateMap bitmap => 0 <= bitmap <= 0x7F
  | RunLength _ length => 0 <= length <= 0x3F
  end.

Lemma AckVectorEntry_byte_range e : is_u8 (AckVectorEntry_to_byte e).
Proof.
  destruct e as [b|[] l]; unfold is_u8, AckVectorEntry_to_byte.
  - rewrite land_u7. zdm.
  - change (Z.lor 0x80 0x40) with 0xC0. rewrite land_u6, (lor_high_low _ _ 6); [zdm|lia|done|zdm].
  - rewrite land_u6, (lor_high_low _ _ 6); [zdm|lia|done|zdm].
Qed.

Lemma AckVectorEntry_from_to e :
  AckVectorEntry_wf e -> AckVectorEntry_from_byte (AckVectorEntry_to_byte e) = e.
Proof.
  destruct e as [b|r l]; cbn [AckVectorEntry_wf]; intros H.
  - assert (Hb : forall x, 0 <= x < 128 ->
      match AckVectorEntry_from_byte (AckVectorEntry_to_byte (StateMap x)) with
      | StateMap y => y =? x | RunLength _ _ => false end = true)
      by (apply forall_range; vm_compute; reflexivity).
    specialize (Hb b ltac:(lia)). destruct (AckVectorEntry_from_byte _); [|done].
    f_equal. lia.
  - assert (Hb : forall x, 0 <= x < 64 ->
      match AckVectorEntry_from_byte (AckVectorEntry_to_byte (RunLength r x)) with
      | StateMap _ => false | RunLength r' y => Bool.eqb r r' && (y =? x) end = true)
      by (destruct r; apply forall_range; vm_compute; reflexivity).
    specialize (Hb l ltac:(lia)). destruct (AckVectorEntry_from_byte _); [done|].
    apply andb_true_iff in Hb as [Hr Hy]. apply Bool.eqb_prop in Hr as <-. f_equal. lia.
Qed.

Lemma AckVectorEntry_from_byte_wf b : AckVectorEntry_wf (AckVectorEntry_from_byte b).
Proof.
  unfold AckVectorEntry_from_byte. destruct (Z.land b 0x80 =? 0); cbn [AckVectorEntry_wf].
  - apply (land_le_r _ 0x7F). lia.
  - apply (land_le_r _ 0x3F). lia.
Qed.

Definition AckVectorPayload_wf (v : AckVectorPayload) : Prop :=
  is_u16 (base_seq_num v) /\ is_some (timestamp v) = is_some (send_ack_time_gap_ms v) /\
  (forall ts, timestamp v = Some ts -> 0 <= ts < 2 ^ 24) /\
  (forall gap, send_ack_time_gap_ms v = Some gap -> is_u8 gap) /\
  llen (entries v) <= ACK_VECTOR_MAX_ENTRIES /\ Forall AckVectorEntry_wf (entries v).

(** The timestamp block: TimeStamp, then SendAckTimeGapInMs. *)
Definition timestamp_wire (v : AckVectorPayload) : list Z :=
  match timestamp v, send_ack_time_gap_ms v with
  | Some ts, Some gap => to_le_bytes 3 ts ++ [gap]
  | _, _ => []
  end.

Definition AckVectorPayload_wire (v : AckVectorPayload) : list Z :=
  to_le_bytes 2 (base_seq_num v) ++
  [llen (entries v) + if is_some (timestamp v) then 128 else 0] ++
  timestamp_wire v ++ (entries v ≫= fun e => [AckVectorEntry_to_byte e]).

Lemma bind_nil_fun {A} (l : list A) : (l ≫= fun _ => []) = @nil Z.
Proof. by induction l. Qed.

Lemma llen_bind_singleton {A} (f : A -> Z) l : llen (l ≫= fun e => [f e]) = llen l.
Proof. induction l; [done|]. by rewrite bind_cons, llen_app, (llen_cons _ l), IHl. Qed.

Lemma AckVectorPayload_size_wire v :
  AckVectorPayload_wf v -> AckVectorPayload_size v = llen (AckVectorPayload_wire v).
Proof.
  intros (_ & Hs & _). unfold AckVectorPayload_size, AckVectorPayload_wire, timestamp_wire.
  rewrite !llen_app, llen_bind_singleton.
  destruct (timestamp v), (send_ack_time_gap_ms v); try done; unfold llen; simpl; lia.
Qed.

Lemma ack_vector_packed n b :
  0 <= n <= 127 ->
  Z.lor (Z.land n 0x7F) (if b : bool then 0x80 else 0x00) = n + if b then 128 else 0.
Proof.
  intros Hn. rewrite land_u7, Z.mod_small by lia. destruct b.
  - rewrite Z.lor_comm, (lor_high_low _ _ 7); [lia|lia|done|lia].
  - rewrite Z.lor_0_r. lia.
Qed.

Lemma ack_vector_unpacked n b :
  0 <= n <= 127 ->
  Z.land (n + if b : bool then 128 else 0) 0x7F = n /\
  negb (Z.land (n + if b then 128 else 0) 0x80 =? 0) = b.
Proof.
  intros Hn. assert (H : forall x, 0 <= x < 128 ->
    ((Z.land (x + if b then 128 else 0) 0x7F =? x) &&
     Bool.eqb (negb (Z.land (x + if b then 128 else 0) 0x80 =? 0)) b) = true)
    by (destruct b; apply forall_range; vm_compute; reflexivity).
  specialize (H n ltac:(lia)). apply andb_true_iff in H as [H1 H2%Bool.eqb_prop]. split; [lia|done].
Qed.

Lemma AckVectorPayload_decodes v :
  AckVectorPayload_wf v -> decodes AckVectorPayload_decode (AckVectorPayload_wire v) v.
Proof.
  intros (Hb & Hs & Ht & Hg & Hl & He). unfold ACK_VECTOR_MAX_ENTRIES in Hl.
  pose proof (llen_nonneg (entries v)).
  destruct (ack_vector_unpacked (llen (entries v)) (is_some (timestamp v)) ltac:(lia)) as [E1 E2].
  unfold AckVectorPayload_decode, AckVectorPayload_wire.
  apply decodes_ensure; [rewrite !llen_app; unfold llen; simpl; lia|].
  eapply decodes_bind; [by apply decodes_u16|].
  eapply decodes_bind; [apply decodes_u8; destruct (is_some (timestamp v)); width|].
  cbv zeta. rewrite E1, E2.
  apply (decodes_bind _ _ _ _ (timestamp v, send_ack_time_gap_ms v)).
  - unfold timestamp_wire. destruct (timestamp v) as [ts|], (send_ack_time_gap_ms v) as [gap|];
      try done; cbn [is_some].
    + apply decodes_ensure; [rewrite llen_app; done|].
      eapply decodes_bind; [by apply decodes_u24, Ht|].
      eapply decodes_last; [by apply decodes_u8, Hg|]. apply decodes_ret.
    + apply decodes_ret.
  - apply decodes_ensure; [by rewrite llen_bind_singleton|]. unfold llen. rewrite Nat2Z.id.
    apply (decodes_last _ _ _ (entries v)); [|destruct v; apply decodes_ret].
    apply decodes_repeat. eapply Forall_impl; [exact He|]. intros e Hwf.
    eapply decodes_last; [apply decodes_u8, AckVectorEntry_byte_range|]. cbv beta.
    rewrite AckVectorEntry_from_to by done. apply decodes_ret.
Qed.

Lemma AckVectorEntry_check_ok e : AckVectorEntry_wf e -> encodes (AckVectorEntry_check e) [].
Proof.
  destruct e as [b|r l]; cbn [AckVectorEntry_wf AckVectorEntry_check]; intros H.
  - destruct (Z.ltb_spec 0x7F b); [lia|apply encodes_ret].
  - destruct (Z.ltb_spec 0x3F l); [lia|apply encodes_ret].
Qed.

Lemma AckVectorPayload_encodes v :
  AckVectorPayload_wf v -> encodes (AckVectorPayload_encode v) (AckVectorPayload_wire v).
Proof.
  intros Hw. unfold AckVectorPayload_encode.
  apply encodes_ensure; [by rewrite AckVectorPayload_size_wire|].
  destruct Hw as (Hb & Hs & Ht & Hg & Hl & He). unfold ACK_VECTOR_MAX_ENTRIES in *.
  pose proof (llen_nonneg (entries v)).
  apply (encodes_bind _ _ [] (AckVectorPayload_wire v)).
  { rewrite <- (bind_nil_fun (entries v)).
    apply encodes_iter. eapply Forall_impl; [exact He|]. apply AckVectorEntry_check_ok. }
  rewrite Hs, eqb_reflx. cbn [negb]. unfold AckVectorPayload_wire.
  apply encodes_bind; [apply encodes_u16|].
  destruct (Z.ltb_spec 255 (llen (entries v))); [lia|].
  destruct (Z.ltb_spec 127 (llen (entries v))); [lia|].
  rewrite <- Hs, andb_diag, ack_vector_packed by lia.
  apply encodes_bind; [apply encodes_u8; destruct (is_some (timestamp v)); width|].
  apply encodes_bind.
  - unfold timestamp_wire. destruct (timestamp v) as [ts|], (send_ack_time_gap_ms v) as [gap|];
      try apply encodes_ret.
    apply encodes_bind; [by apply encodes_u24, Ht|by apply encodes_u8, Hg].
  - apply encodes_iter, Forall_true. intros e. apply encodes_u8, AckVectorEntry_byte_range.
Qed.

#[export] Program Instance AckVectorPayload_Codec : Codec AckVectorPayload :=
  { wf := AckVectorPayload_wf; wire := AckVectorPayload_wire;
    wire_encodes := AckVectorPayload_encodes; wire_size := AckVectorPayload_size_wire }.
Next Obligation. intros v Hw. by apply decodes_to_end, AckVectorPayload_decodes. Qed.
Next Obligation.
  cbn. unfold AckVectorPayload_decode. eapply safe_bind; [apply (safe_ensure 0 3)|]. intros _ _.
  eapply safe_bind; [apply (safe_u16 1); lia|]. intros b Hb.
  eapply safe_bind; [apply (safe_u8 0); lia|]. intros packed Hp.
  pose proof (land_le_r packed 0x7F ltac:(lia)).
  eapply (safe_bind _ 0 _ _ _ (fun '(ts, gap) => is_some ts = is_some gap /\
    (forall x, ts = Some x -> 0 <= x < 2 ^ 24) /\ (forall x, gap = Some x -> is_u8 x))).
  { destruct (negb _); [|by apply safe_ret].
    eapply safe_bind; [apply (safe_ensure 0 4)|]. intros _ _.
    eapply safe_bind; [apply (safe_u24 1); lia|]. intros ts Hts.
    eapply safe_bind; [apply (safe_u8 0); lia|]. intros gap Hg.
    apply safe_ret. split_and!; [done|by intros ? [= <-]|by intros ? [= <-]]. }
  intros [ts gap] (Hs & Hts & Hg).
  eapply safe_bind; [apply safe_ensure|]. intros _ _.
  eapply safe_bind.
  { eapply safe_weaken.
    - apply (safe_repeat 0 _ _ AckVectorEntry_wf); [lia| |].
      + eapply safe_bind; [apply (safe_u8 0); lia|]. intros x Hx.
        apply safe_ret, AckVectorEntry_from_byte_wf.
      + intros c Hc Hl a c'. unfold mbind, M_bind.
        destruct (ReadCursor.read_u8 c) as [[x c'']| |] eqn:E; [|done..]. intros [= <- <-].
        by eapply len_read_u8.
    - rewrite Z2Nat.id; lia.
    - done.
    - by intros ? HH. }
  intros es [Hl He]. apply safe_ret. unfold AckVectorPayload_wf, ACK_VECTOR_MAX_ENTRIES, llen. cbn.
  split_and!; [done..|lia|done].
Qed.

#[export] Instance AckVectorPayload_Framed : Framed AckVectorPayload :=
  { framed := AckVectorPayload_decodes }.

(** *** Control and data payloads *)

#[export] Program Instance OverheadSize_Codec : Codec OverheadSizePayload :=
  { wf p := is_u8 (overhead_size p); wire p := [overhead_size p] }.
Next Obligation. intros p Hw. apply encodes_ensure; [done|]. by apply encodes_u8. Qed.
Next Obligation. done. Qed.
Next Obligation.
  intros p Hw. apply decodes_to_end, decodes_ensure; [done|].
  eapply decodes_last; [by apply decodes_u8|]. destruct p. apply decodes_ret.
Qed.
Next Obligation.
  eapply safe_bind; [apply (safe_ensure 0 1)|]. intros _ _.
  eapply safe_bind; [apply (safe_u8 0); lia|]. intros n Hn. by apply safe_ret.
Qed.
#[export] Instance OverheadSize_Framed : Framed OverheadSizePayload.
Proof.
  split. intros p Hw. apply decodes_ensure; [done|].
  eapply decodes_last; [by apply decodes_u8|]. destruct p. apply decodes_ret.
Qed.

#[export] Program Instance DelayAckInfo_Codec : Codec DelayAckInfoPayload :=
  { wf p := is_u8 (max_delayed_acks p) /\ is_u16 (delayed_ack_timeout_ms p);
    wire p := [max_delayed_acks p] ++ to_le_bytes 2 (delayed_ack_timeout_ms p) }.
Next Obligation.
  intros p [Hm Ht]. apply encodes_ensure; [done|].
  apply encodes_bind; [by apply encodes_u8|apply encodes_u16].
Qed.
Next Obligation. done. Qed.
Next Obligation.
  intros p [Hm Ht]. apply decodes_to_end, decodes_ensure; [done|].
  eapply decodes_bind; [by apply decodes_u8|].
  eapply decodes_last; [by apply decodes_u16|]. destruct p. apply decodes_ret.
Qed.
Next Obligation.
  eapply safe_bind; [apply (safe_ensure 0 3)|]. intros _ _.
  eapply safe_bind; [apply (safe_u8 2); lia|]. intros n Hn.
  eapply safe_bind; [apply (safe_u16 0); lia|]. intros t Ht. by apply safe_ret.
Qed.
#[export] Instance DelayAckInfo_Framed : Framed DelayAckInfoPayload.
Proof.
  split. intros p [Hm Ht]. apply decodes_ensure; [done|].
  eapply decodes_bind; [by apply decodes_u8|].
  eapply decodes_last; [by apply decodes_u16|]. destruct p. apply decodes_ret.
Qed.

#[export] Program Instance AckOfAcks_Codec : Codec AckOfAcksPayload :=
  { wf p := is_u16 (ack_of_acks_seq_num p); wire p := to_le_bytes 2 (ack_of_acks_seq_num p) }.
Next Obligation. intros p Hw. apply encodes_ensure; [done|]. apply encodes_u16. Qed.
Next Obligation. done. Qed.
Next Obligation.
  intros p Hw. apply decodes_to_end, decodes_ensure; [done|].
  eapply decodes_last; [by apply decodes_u16|]. destruct p. apply decodes_ret.
Qed.
Next Obligation.
  eapply safe_bind; [apply (safe_ensure 0 2)|]. intros _ _.
  eapply safe_bind; [apply (safe_u16 0); lia|]. intros n Hn. by apply safe_ret.
Qed.
#[export] Instance AckOfAcks_Framed : Framed AckOfAcksPayload.
Proof.
  split. intros p Hw. apply decodes_ensure; [done|].
  eapply decodes_last; [by apply decodes_u16|]. destruct p. apply decodes_ret.
Qed.

#[export] Program Instance DataHeader_Codec : Codec DataHeader :=
  { wf p := is_u16 (data_seq_num p); wire p := to_le_bytes 2 (data_seq_num p) }.
Next Obligation. intros p Hw. apply encodes_ensure; [done|]. apply encodes_u16. Qed.
Next Obligation. done. Qed.
Next Obligation.
  intros p Hw. apply decodes_to_end, decodes_ensure; [done|].
  eapply decodes_last; [by apply decodes_u16|]. destruct p. apply decodes_ret.
Qed.
Next Obligation.
  eapply safe_bind; [apply (safe_ensure 0 2)|]. intros _ _.
  eapply safe_bind; [apply (safe_u16 0); lia|]. intros n Hn. by apply safe_ret.
Qed.
#[export] Instance DataHeader_Framed : Framed DataHeader.
Proof.
  split. intros p Hw. apply decodes_ensure; [done|].
  eapply decodes_last; [by apply decodes_u16|]. destruct p. apply decodes_ret.
Qed.

(** The body takes the rest of the packet, so it is not framed. *)
#[export] Program Instance DataBody_Codec : Codec DataBody :=
  { wf p := is_u16 (channel_seq_num p) /\ bytes_ok (body_data p);
    wire p := to_le_bytes 2 (channel_seq_num p) ++ body_data p }.
Next Obligation.
  intros p [Hc Hb]. apply encodes_ensure; [by rewrite llen_app|].
  apply encodes_bind; [apply encodes_u16|apply encodes_write_slice].
Qed.
Next Obligation. intros p [Hc Hb]. cbv beta. by rewrite llen_app. Qed.
Next Obligation.
  intros p [Hc Hb]. apply decodes_ensure_end.
  { rewrite llen_app. pose proof (llen_nonneg (body_data p)). unfold llen at 1. simpl. lia. }
  eapply decodes_bind_end; [by apply decodes_u16|]. intros pre.
  unfold mbind, M_bind. rewrite decodes_read_remaining. by destruct p.
Qed.
Next Obligation.
  eapply safe_bind; [apply (safe_ensure 0 2)|]. intros _ _.
  eapply safe_bind; [apply (safe_u16 0); lia|]. intros n Hn.
  eapply safe_bind; [apply safe_remaining|]. intros bs Hb. by apply safe_ret.
Qed.

(** *** V2Packet *)

Section packet_codec.
Context {BF : Bitflags}.

(** The flags announce exactly the payloads that are present. *)
Lemma V2Packet_flags_contain p :
  let f := V2Packet_compute_flags p in
  contains f V2Flags.ACK = is_some (p_ack p) /\
  contains f V2Flags.OVERHEADSIZE = is_some (p_overhead_size p) /\
  contains f V2Flags.DELAYACKINFO = is_some (p_delay_ack_info p) /\
  contains f V2Flags.AOA = is_some (p_ack_of_acks p) /\
  contains f V2Flags.DATA = is_some (p_data_header p) /\
  contains f V2Flags.ACKVEC = is_some (p_ack_vector p) /\
  V2Flags.ack_flags_valid f = negb (is_some (p_ack p) && is_some (p_ack_vector p)) /\
  Z.land f V2Flags.ALL = f.
Proof.
  cbv zeta. unfold V2Packet_compute_flags, V2Flags.ack_flags_valid. rewrite !contains_bits, !union_bits.
  destruct (is_some (p_ack p)), (is_some (p_overhead_size p)), (is_some (p_delay_ack_info p)),
    (is_some (p_ack_of_acks p)), (is_some (p_data_header p)), (is_some (p_ack_vector p));
    vm_compute; auto 10.
Qed.

(** A flag word within [V2Flags::all()] is the union of the flags it contains. *)
Lemma V2Flags_union f :
  Z.land f V2Flags.ALL = f ->
  f = Z.lor (Z.lor (Z.lor (Z.lor (Z.lor (Z.lor V2Flags.empty
    (if contains f V2Flags.ACK then V2Flags.ACK else 0))
    (if contains f V2Flags.OVERHEADSIZE then V2Flags.OVERHEADSIZE else 0))
    (if contains f V2Flags.DELAYACKINFO then V2Flags.DELAYACKINFO else 0))
    (if contains f V2Flags.AOA then V2Flags.AOA else 0))
    (if contains f V2Flags.DATA then V2Flags.DATA else 0))
    (if contains f V2Flags.ACKVEC then V2Flags.ACKVEC else 0).
Proof.
  intros Hf. pose proof (flags_range _ Hf). rewrite !contains_bits.
  pose (g := fun f => negb (Z.land f V2Flags.ALL =? f) || (f =? Z.lor (Z.lor (Z.lor (Z.lor (Z.lor (Z.lor V2Flags.empty
    (if Z.land f V2Flags.ACK =? V2Flags.ACK then V2Flags.ACK else 0))
    (if Z.land f V2Flags.OVERHEADSIZE =? V2Flags.OVERHEADSIZE then V2Flags.OVERHEADSIZE else 0))
    (if Z.land f V2Flags.DELAYACKINFO =? V2Flags.DELAYACKINFO then V2Flags.DELAYACKINFO else 0))
    (if Z.land f V2Flags.AOA =? V2Flags.AOA then V2Flags.AOA else 0))
    (if Z.land f V2Flags.DATA =? V2Flags.DATA then V2Flags.DATA else 0))
    (if Z.land f V2Flags.ACKVEC =? V2Flags.ACKVEC then V2Flags.ACKVEC else 0))).
  assert (Hg : forall x, 0 <= x < 0x15E -> g x = true) by (apply forall_range; vm_compute; reflexivity).
  specialize (Hg f ltac:(unfold V2Flags.ALL in *; lia)). unfold g in Hg.
  rewrite Hf, Z.eqb_refl in Hg. cbn [negb orb] in Hg. by apply Z.eqb_eq.
Qed.

Lemma V2Flags_ack_valid f :
  Z.land f V2Flags.ALL = f ->
  V2Flags.ack_flags_valid f = negb (contains f V2Flags.ACK && contains f V2Flags.ACKVEC).
Proof.
  intros Hf. pose proof (flags_range _ Hf). unfold V2Flags.ack_flags_valid.
  rewrite !contains_bits, union_bits.
  assert (Hg : forall x, 0 <= x < 0x15E ->
    eqb (Z.land x (Z.lor V2Flags.ACK V2Flags.ACKVEC) =? Z.lor V2Flags.ACK V2Flags.ACKVEC)
      ((Z.land x V2Flags.ACK =? V2Flags.ACK) && (Z.land x V2Flags.ACKVEC =? V2Flags.ACKVEC)) = true)
    by (apply forall_range; vm_compute; reflexivity).
  specialize (Hg f ltac:(unfold V2Flags.ALL in *; lia)). apply eqb_prop in Hg. by rewrite Hg.
Qed.

Definition V2Packet_wf (p : V2Packet) : Prop :=
  h_flags (p_header p) = V2Packet_compute_flags p /\
  0 <= h_log_window_size (p_header p) <= 15 /\
  is_some (p_data_header p) = is_some (p_data_body p) /\
  is_some (p_ack p) && is_some (p_ack_vector p) = false /\
  (forall x, p_ack p = Some x -> wf x) /\ (forall x, p_overhead_size p = Some x -> wf x) /\
  (forall x, p_delay_ack_info p = Some x -> wf x) /\ (forall x, p_ack_of_acks p = Some x -> wf x) /\
  (forall x, p_data_header p = Some x -> wf x) /\ (forall x, p_ack_vector p = Some x -> wf x) /\
  (forall x, p_data_body p = Some x -> wf x).

Definition V2Packet_wire (p : V2Packet) : list Z :=
  wire (p_header p) ++ opt_wire (p_ack p) ++ opt_wire (p_overhead_size p) ++
  opt_wire (p_delay_ack_info p) ++ opt_wire (p_ack_of_acks p) ++ opt_wire (p_data_header p) ++
  opt_wire (p_ack_vector p) ++ opt_wire (p_data_body p).

Lemma V2Packet_header_wf p : V2Packet_wf p -> wf (p_header p).
Proof.
  intros (Hf & Hl & _ & Hx & _). pose proof (V2Packet_flags_contain p) as (_&_&_&_&_&_&Hv&Ha).
  cbv zeta in *. change (V2Header_wf (p_header p)). unfold V2Header_wf. rewrite Hf, Ha, Hv, Hx. done.
Qed.

Lemma V2Packet_size_wire p : V2Packet_wf p -> V2Packet_size p = llen (V2Packet_wire p).
Proof.
  intros (_&_&_&_&?&?&?&?&?&?&?). unfold V2Packet_size, V2Packet_wire.
  rewrite !llen_app, !opt_size_wire by done. change (llen (wire (p_header p))) with 2.
  change (size (p_header p)) with 2. lia.
Qed.

Lemma V2Packet_encodes p : V2Packet_wf p -> encodes (V2Packet_encode p) (V2Packet_wire p).
Proof.
  intros Hw. pose proof (V2Packet_header_wf _ Hw) as Hh. pose proof (V2Packet_size_wire _ Hw) as Hsz.
  destruct Hw as (Hf&Hl&Hd&Hx&?&?&?&?&?&?&?). unfold V2Packet_encode.
  rewrite Hd, eqb_reflx, Hx. cbn [negb]. apply encodes_ensure; [lia|].
  unfold V2Packet_wire. rewrite <- Hf.
  replace (mkV2Header (h_flags (p_header p)) (h_log_window_size (p_header p))) with (p_header p)
    by (by destruct (p_header p)).
  repeat (apply encodes_bind; [first [by apply wire_encodes|by apply encodes_opt_wire]|]).
  by apply encodes_opt_wire.
Qed.

Lemma V2Packet_decodes p : V2Packet_wf p -> decodes_end V2Packet_decode (V2Packet_wire p) p.
Proof.
  intros Hw. pose proof (V2Packet_header_wf _ Hw) as Hh.
  pose proof (V2Packet_flags_contain p) as (H1&H2&H3&H4&H5&H6&_&_). cbv zeta in *.
  destruct Hw as (Hf&Hl&Hd&Hx&?&?&?&?&?&?&?). unfold V2Packet_decode, V2Packet_wire.
  rewrite <- Hf in *.
  eapply decodes_bind_end; [by apply framed|]. cbv zeta.
  repeat (eapply decodes_bind_end; [by apply decodes_opt_wire|]).
  rewrite H5, Hd. intros pre. unfold mbind, M_bind.
  assert (Hb : decodes_end (when_m (is_some (p_data_body p)) decode_from) (opt_wire (p_data_body p)) (p_data_body p)).
  { destruct (p_data_body p) as [x|]; [|apply decodes_to_end, decodes_when_false].
    apply decodes_when_true_end, wire_decodes. auto. }
  rewrite Hb. by destruct p.
Qed.

#[export] Program Instance V2Packet_Codec : Codec V2Packet :=
  { wf := V2Packet_wf; wire := V2Packet_wire; wire_encodes := V2Packet_encodes;
    wire_size := V2Packet_size_wire; wire_decodes := V2Packet_decodes }.
Next Obligation.
  change (safe 0 V2Packet_decode 0 V2Packet_wf). unfold V2Packet_decode.
  eapply safe_bind; [apply decode_safe|]. intros h (Hf & Hl & Hv).
  eapply safe_bind; [apply safe_when, decode_safe|]. intros ack [Hack%when_is_some ?].
  eapply safe_bind; [apply safe_when, decode_safe|]. intros ov [Hov%when_is_some ?].
  eapply safe_bind; [apply safe_when, decode_safe|]. intros dai [Hdai%when_is_some ?].
  eapply safe_bind; [apply safe_when, decode_safe|]. intros aoa [Haoa%when_is_some ?].
  eapply safe_bind; [apply safe_when, decode_safe|]. intros dh [Hdh%when_is_some ?].
  eapply safe_bind; [apply safe_when, decode_safe|]. intros av [Hav%when_is_some ?].
  eapply safe_bind; [apply safe_when, decode_safe|]. intros db [Hdb%when_is_some ?].
  apply safe_ret. unfold V2Packet_wf. cbn [p_header p_ack p_overhead_size p_delay_ack_info
    p_ack_of_acks p_data_header p_ack_vector p_data_body].
  split_and!; [|lia|lia|congruence| |done..].
  - rewrite (V2Flags_union (h_flags h)) at 1 by done. unfold V2Packet_compute_flags.
    cbn [p_ack p_overhead_size p_delay_ack_info p_ack_of_acks p_data_header p_ack_vector].
    rewrite Hack, Hov, Hdai, Haoa, Hdh, Hav, !union_bits.
    destruct (contains _ _), (contains _ _), (contains _ _), (contains _ _), (contains _ _),
      (contains _ _); reflexivity.
  - rewrite V2Flags_ack_valid in Hv by done. rewrite Hack, Hav. by apply negb_true_iff.
Qed.

(** C39: every well-formed RDP-UDP2 packet is written in exactly [size] bytes
    and read back unchanged: header, the six optional payloads in the flag
    order, and the data body. *)
Theorem v2_packet_roundtrip (p : V2Packet) :
  V2Packet_wf p ->
  exists out, encode_vec p = Ok out /\ llen out = V2Packet_size p /\ decode V2Packet out = Ok p.
Proof. intros H. exact (encode_decode p H). Qed.

(** No datagram makes the RDP-UDP2 decoder panic (no read past the end, no
    index out of range), and whatever it accepts is well formed, so that it
    can be written again and reads back the same. *)
Theorem v2_decode_total bs :
  bytes_ok bs ->
  match decode V2Packet bs with
  | Ok p => V2Packet_wf p /\
      exists out, encode_vec p = Ok out /\ llen out = V2Packet_size p /\ decode V2Packet out = Ok p
  | Err _ => True
  | Panic => False
  end.
Proof.
  intros Hb. pose proof (decode_no_panic (A := V2Packet) bs Hb) as Hn.
  destruct (decode V2Packet bs) as [p| |] eqn:E; [|done..].
  split; [exact (decode_wf _ _ Hb E)|exact (decode_canonical _ _ Hb E)].
Qed.

End packet_codec.

(** A data packet with a piggybacked acknowledgment vector. *)
Definition sample_packet : V2Packet :=
  mkV2Packet (mkV2Header 0x00C 10) None None None None (Some (mkDataHeader 107))
    (Some (mkAckVectorPayload 100 (Some 4242) (Some 3) [RunLength true 5; RunLength false 1]))
    (Some (mkDataBody 9 [1; 2; 3])).

Lemma v2_packet_roundtrip_witness :
  let _ := bits_flags in
  exists out, encode_vec sample_packet = Ok out /\ llen out = V2Packet_size sample_packet /\
    decode V2Packet out = Ok sample_packet.
Proof.
  apply (@v2_packet_roundtrip bits_flags sample_packet).
  unfold V2Packet_wf. split_and!; try reflexivity; try (intros x [= <-]); try done.
  - unfold AckVectorPayload_wf. cbn. split_and!; try done.
    + by intros ts [= <-].
    + by intros gap [= <-].
    + repeat constructor; done.
  - cbn. split; [done|]. repeat constructor; done.
Defined.

Lemma v2_decode_total_witness :
  let _ := bits_flags in
  match decode V2Packet [0x01; 0xA0; 5; 0; 9; 9; 9; 7; 0] with
  | Ok p => V2Packet_wf p /\
      exists out, encode_vec p = Ok out /\ llen out = V2Packet_size p /\ decode V2Packet out = Ok p
  | Err _ => True
  | Panic => False
  end.
Proof.
  apply (@v2_decode_total bits_flags [0x01; 0xA0; 5; 0; 9; 9; 9; 7; 0]).
  repeat constructor; done.
Defined.
