(* ===== verification/WireV1.v ===== *)
(** The RDP-UDP version 1 handshake format
    (src/crates/ironrdp-rdpeudp/src/pdu: v1_flags.rs, v1_header.rs, v1_ack.rs,
    v1_syn.rs and the composite datagram of mod.rs): big-endian structures,
    their encoders and decoders, and the [Codec] interface for each.

    A SYN datagram is followed on the wire by zero padding up to the MTU, so
    the composite datagram has to mark its own end: [V1Datagram_Framed]. *)

From S2P Require Import Prelude Cursor Codec Flags.

(** ** V1Flags *)

Module V1Flags.

Definition SYN : Z := 0x0001.
Definition FIN : Z := 0x0002.
Definition ACK : Z := 0x0004.
Definition DATA : Z := 0x0008.
Definition FEC : Z := 0x0010.
Definition CN : Z := 0x0020.
Definition CWR : Z := 0x0040.
Definition SACK_OPTION : Z := 0x0080.
Definition ACK_OF_ACKS : Z := 0x0100.
Definition SYNLOSSY : Z := 0x0200.
Definition ACKDELAYED : Z := 0x0400.
Definition CORRELATION_ID : Z := 0x0800.
Definition SYNEX : Z := 0x1000.
(** [V1Flags::all()]: the bits the table above defines. *)
Definition ALL : Z := 0x1FFF.

End V1Flags.

(** ** FecHeader *)

Record FecHeader := mkFecHeader {
  sn_source_ack : Z;
  receive_window_size : Z;
  fh_flags : Z;
}.

Section fec_header.
Context {BF : Bitflags}.

Definition FecHeader_encode (h : FecHeader) : Encoder unit :=
  _ ← WriteCursor.ensure_size 8;
  _ ← WriteCursor.write_u32_be (sn_source_ack h);
  _ ← WriteCursor.write_u16_be (receive_window_size h);
  WriteCursor.write_u16_be (fh_flags h).

Definition FecHeader_decode : Decoder FecHeader :=
  _ ← ReadCursor.ensure_size 8;
  sn_source_ack ← ReadCursor.read_u32_be;
  receive_window_size ← ReadCursor.read_u16_be;
  flags_raw ← ReadCursor.read_u16_be;
  let flags := from_bits_truncate V1Flags.ALL flags_raw in
  mret (mkFecHeader sn_source_ack receive_window_size flags).

#[export] Instance FecHeader_Encode : Encode FecHeader :=
  { encode_into := FecHeader_encode; size := fun _ => 8 }.
#[export] Instance FecHeader_Decode : Decode FecHeader := { decode_from := FecHeader_decode }.

End fec_header.

(** ** The ACK vector *)

Inductive VectorElementState :=
| DatagramReceived
| Reserved1
| Reserved2
| DatagramNotYetReceived.

#[export] Instance VectorElementState_eq_dec : EqDecision VectorElementState.
Proof. solve_decision. Defined.

Definition VectorElementState_to_bits (s : VectorElementState) : Z :=
  match s with
  | DatagramReceived => 0
  | Reserved1 => 1
  | Reserved2 => 2
  | DatagramNotYetReceived => 3
  end.

Definition VectorElementState_from_bits (bits : Z) : VectorElementState :=
  match Z.land bits 0x03 with
  | 0 => DatagramReceived
  | 1 => Reserved1
  | 2 => Reserved2
  | _ => DatagramNotYetReceived
  end.

Definition is_received (s : VectorElementState) : bool :=
  match s with DatagramReceived => true | _ => false end.

Record V1AckVectorElement := mkV1AckVectorElement { ve_state : VectorElementState; ve_length : Z }.

Definition MAX_LENGTH : Z := 0x3F.

Definition V1AckVectorElement_to_byte (e : V1AckVectorElement) : Z :=
  Z.lor (Z.shiftl (VectorElementState_to_bits (ve_state e)) 6) (Z.land (ve_length e) MAX_LENGTH).

Definition V1AckVectorElement_from_byte (byte : Z) : V1AckVectorElement :=
  mkV1AckVectorElement (VectorElementState_from_bits (Z.shiftr byte 6)) (Z.land byte MAX_LENGTH).

Record V1AckVectorHeader := mkV1AckVectorHeader { elements : list V1AckVectorElement }.

Definition MAX_ACK_VECTOR_SIZE : Z := 2048.

(** [usize::next_multiple_of] *)
Definition next_multiple_of (x n : Z) : Z :=
  let r := x mod n in if r =? 0 then x else x + (n - r).

Definition V1AckVectorHeader_padding_len (element_count : Z) : Z :=
  next_multiple_of (2 + element_count) 4 - 2 - element_count.

(** [validate_element_count], generic in the error type it builds. *)
Definition validate_element_count {E} (invalid_field : string -> string -> option Z -> E) (count : Z)
    : outcome E unit :=
  if MAX_ACK_VECTOR_SIZE <? count then
    Err (invalid_field "uAckVectorSize"%string "ack vector must not exceed 2048 bytes"%string None)
  else Ok tt.

Definition V1AckVectorHeader_size (h : V1AckVectorHeader) : Z :=
  2 + llen (elements h) + V1AckVectorHeader_padding_len (llen (elements h)).

Definition V1AckVectorHeader_encode (h : V1AckVectorHeader) : Encoder unit :=
  _ ← lift (validate_element_count EInvalidField (llen (elements h)));
  if 65535 <? llen (elements h) then
    fail (EInvalidField "uAckVectorSize" "too many elements" None)
  else
    let count := llen (elements h) in
    _ ← WriteCursor.ensure_size (V1AckVectorHeader_size h);
    _ ← WriteCursor.write_u16_be count;
    _ ← iter_m (fun e => WriteCursor.write_u8 (V1AckVectorElement_to_byte e)) (elements h);
    WriteCursor.write_padding (Z.to_nat (V1AckVectorHeader_padding_len (llen (elements h)))).

Definition V1AckVectorHeader_decode : Decoder V1AckVectorHeader :=
  _ ← ReadCursor.ensure_size 2;
  count ← ReadCursor.read_u16_be;
  _ ← lift (validate_element_count DInvalidField count);
  let padding := V1AckVectorHeader_padding_len count in
  _ ← ReadCursor.ensure_size (count + padding);
  elements ← repeat_m (Z.to_nat count)
    (b ← ReadCursor.read_u8; mret (V1AckVectorElement_from_byte b));
  _ ← ReadCursor.read_padding (Z.to_nat padding);
  mret (mkV1AckVectorHeader elements).

#[export] Instance V1AckVectorHeader_Encode : Encode V1AckVectorHeader :=
  { encode_into := V1AckVectorHeader_encode; size := V1AckVectorHeader_size }.
#[export] Instance V1AckVectorHeader_Decode : Decode V1AckVectorHeader :=
  { decode_from := V1AckVectorHeader_decode }.

(** ** AckOfAcks and correlation id *)

Record V1AckOfAcksHeader := mkV1AckOfAcksHeader { reset_seq_num : Z }.

Definition V1AckOfAcksHeader_encode (h : V1AckOfAcksHeader) : Encoder unit :=
  _ ← WriteCursor.ensure_size 4;
  WriteCursor.write_u32_be (reset_seq_num h).

Definition V1AckOfAcksHeader_decode : Decoder V1AckOfAcksHeader :=
  _ ← ReadCursor.ensure_size 4;
  reset_seq_num ← ReadCursor.read_u32_be;
  mret (mkV1AckOfAcksHeader reset_seq_num).

#[export] Instance V1AckOfAcksHeader_Encode : Encode V1AckOfAcksHeader :=
  { encode_into := V1AckOfAcksHeader_encode; size := fun _ => 4 }.
#[export] Instance V1AckOfAcksHeader_Decode : Decode V1AckOfAcksHeader :=
  { decode_from := V1AckOfAcksHeader_decode }.

Record CorrelationIdPayload := mkCorrelationIdPayload { correlation_id : list Z }.

Definition CORRELATION_ID_SIZE : nat := 16.
Definition RESERVED_SIZE : nat := 16.

Definition CorrelationIdPayload_encode (p : CorrelationIdPayload) : Encoder unit :=
  _ ← WriteCursor.ensure_size 32;
  _ ← WriteCursor.write_slice (correlation_id p);
  WriteCursor.write_padding RESERVED_SIZE.

Definition CorrelationIdPayload_decode : Decoder CorrelationIdPayload :=
  _ ← ReadCursor.ensure_size 32;
  correlation_id ← ReadCursor.read_array CORRELATION_ID_SIZE;
  _ ← ReadCursor.read_padding RESERVED_SIZE;
  mret (mkCorrelationIdPayload correlation_id).

#[export] Instance CorrelationIdPayload_Encode : Encode CorrelationIdPayload :=
  { encode_into := CorrelationIdPayload_encode; size := fun _ => 32 }.
#[export] Instance CorrelationIdPayload_Decode : Decode CorrelationIdPayload :=
  { decode_from := CorrelationIdPayload_decode }.

(** ** SynDataPayload *)

Definition MTU_MIN : Z := 1132.
Definition MTU_MAX : Z := 1232.

Record SynDataPayload := mkSynDataPayload {
  initial_sequence_number : Z;
  upstream_mtu : Z;
  downstream_mtu : Z;
}.

Definition validate_mtu {E} (invalid_field : string -> string -> option Z -> E) (value : Z)
    (field : string) : outcome E unit :=
  if negb ((MTU_MIN <=? value) && (value <=? MTU_MAX)) then
    Err (invalid_field field "mtu must be in 1132..=1232"%string None)
  else Ok tt.

Definition SynDataPayload_encode (p : SynDataPayload) : Encoder unit :=
  _ ← WriteCursor.ensure_size 8;
  _ ← lift (validate_mtu EInvalidField (upstream_mtu p) "uUpStreamMtu");
  _ ← lift (validate_mtu EInvalidField (downstream_mtu p) "uDownStreamMtu");
  _ ← WriteCursor.write_u32_be (initial_sequence_number p);
  _ ← WriteCursor.write_u16_be (upstream_mtu p);
  WriteCursor.write_u16_be (downstream_mtu p).

Definition SynDataPayload_decode : Decoder SynDataPayload :=
  _ ← ReadCursor.ensure_size 8;
  initial_sequence_number ← ReadCursor.read_u32_be;
  upstream_mtu ← ReadCursor.read_u16_be;
  downstream_mtu ← ReadCursor.read_u16_be;
  _ ← lift (validate_mtu DInvalidField upstream_mtu "uUpStreamMtu");
  _ ← lift (validate_mtu DInvalidField downstream_mtu "uDownStreamMtu");
  mret (mkSynDataPayload initial_sequence_number upstream_mtu downstream_mtu).

#[export] Instance SynDataPayload_Encode : Encode SynDataPayload :=
  { encode_into := SynDataPayload_encode; size := fun _ => 8 }.
#[export] Instance SynDataPayload_Decode : Decode SynDataPayload :=
  { decode_from := SynDataPayload_decode }.

(** ** SynDataExPayload *)

Module SynExFlags.
Definition VERSION_INFO_VALID : Z := 0x0001.
Definition ALL : Z := 0x0001.
End SynExFlags.

(** [UdpVersion(u16)], by its raw value. *)
Module UdpVersion.
Definition V1 : Z := 0x0001.
Definition V2 : Z := 0x0002.
Definition V3 : Z := 0x0101.
Definition uses_v2_wire_format (v : Z) : bool := v =? V3.
End UdpVersion.

Record SynDataExPayload := mkSynDataExPayload {
  syn_ex_flags : Z;
  udp_ver : Z;
  cookie_hash : option (list Z);
}.

Definition COOKIE_HASH_SIZE : nat := 32.

Definition SynDataExPayload_encoded_size (p : SynDataExPayload) : Z :=
  let base := 4 in
  if is_some (cookie_hash p) then base + Z.of_nat COOKIE_HASH_SIZE else base.

Section syn_data_ex.
Context {BF : Bitflags}.

Definition SynDataExPayload_decode_fixed_part : Decoder (Z * Z) :=
  _ ← ReadCursor.ensure_size 4;
  syn_ex_flags_raw ← ReadCursor.read_u16_be;
  let syn_ex_flags := from_bits_truncate SynExFlags.ALL syn_ex_flags_raw in
  udp_ver ← ReadCursor.read_u16_be;
  mret (syn_ex_flags, udp_ver).

Definition SynDataExPayload_decode_directional (is_client_syn : bool) : Decoder SynDataExPayload :=
  '(syn_ex_flags, udp_ver) ← SynDataExPayload_decode_fixed_part;
  cookie_hash ←
    (if is_client_syn && (udp_ver =? UdpVersion.V3) then
       _ ← ReadCursor.ensure_size (Z.of_nat COOKIE_HASH_SIZE);
       h ← ReadCursor.read_array COOKIE_HASH_SIZE;
       mret (Some h)
     else mret None);
  mret (mkSynDataExPayload syn_ex_flags udp_ver cookie_hash).

Definition SynDataExPayload_encode (p : SynDataExPayload) : Encoder unit :=
  if is_some (cookie_hash p) && negb (udp_ver p =? UdpVersion.V3) then
    fail (EInvalidField "cookieHash" "is only carried when uUdpVer is version 3" None)
  else
    _ ← WriteCursor.ensure_size (SynDataExPayload_encoded_size p);
    _ ← WriteCursor.write_u16_be (syn_ex_flags p);
    _ ← WriteCursor.write_u16_be (udp_ver p);
    opt_m (fun hash => WriteCursor.write_slice hash) (cookie_hash p).

Definition SynDataExPayload_decode : Decoder SynDataExPayload :=
  '(syn_ex_flags, udp_ver) ← SynDataExPayload_decode_fixed_part;
  len ← gets ReadCursor.len;
  cookie_hash ←
    (if (udp_ver =? UdpVersion.V3) && (Z.of_nat COOKIE_HASH_SIZE <=? len) then
       h ← ReadCursor.read_array COOKIE_HASH_SIZE;
       mret (Some h)
     else mret None);
  mret (mkSynDataExPayload syn_ex_flags udp_ver cookie_hash).

#[export] Instance SynDataExPayload_Encode : Encode SynDataExPayload :=
  { encode_into := SynDataExPayload_encode; size := SynDataExPayload_encoded_size }.
#[export] Instance SynDataExPayload_Decode : Decode SynDataExPayload :=
  { decode_from := SynDataExPayload_decode }.

End syn_data_ex.

(** ** V1Datagram *)

Definition V1_STANDALONE_FLAGS : Z :=
  Z.lor (Z.lor (Z.lor (Z.lor (Z.lor V1Flags.FIN V1Flags.CN) V1Flags.CWR) V1Flags.SACK_OPTION)
    V1Flags.SYNLOSSY) V1Flags.ACKDELAYED.

Record V1Datagram := mkV1Datagram {
  d_header : FecHeader;
  d_ack_vector : option V1AckVectorHeader;
  d_ack_of_acks : option V1AckOfAcksHeader;
  d_syn_data : option SynDataPayload;
  d_correlation_id : option CorrelationIdPayload;
  d_syn_data_ex : option SynDataExPayload;
}.

Section datagram.
Context {BF : Bitflags}.

Definition V1Datagram_compute_flags (d : V1Datagram) : Z :=
  let flags := from_bits_truncate V1Flags.ALL (Z.land (fh_flags (d_header d)) V1_STANDALONE_FLAGS) in
  let flags := if is_some (d_ack_vector d) then union flags V1Flags.ACK else flags in
  let flags := if is_some (d_ack_of_acks d) then union flags V1Flags.ACK_OF_ACKS else flags in
  let flags :=
    if is_some (d_syn_data d) then
      union (union flags V1Flags.SYN) (intersection (fh_flags (d_header d)) V1Flags.ACK)
    else flags in
  let flags := if is_some (d_correlation_id d) then union flags V1Flags.CORRELATION_ID else flags in
  let flags := if is_some (d_syn_data_ex d) then union flags V1Flags.SYNEX else flags in
  flags.

Definition V1Datagram_size (d : V1Datagram) : Z :=
  let total := size (d_header d) in
  let total := total + opt_size (d_ack_vector d) in
  let total := total + opt_size (d_ack_of_acks d) in
  let total := total + opt_size (d_syn_data d) in
  let total := total + opt_size (d_correlation_id d) in
  let total := total + opt_size (d_syn_data_ex d) in
  total.

(** The direction test: SYN set, ACK clear. *)
Definition is_client_syn (flags : Z) : bool :=
  contains flags V1Flags.SYN && negb (contains flags V1Flags.ACK).

Definition V1Datagram_encode (d : V1Datagram) : Encoder unit :=
  if is_some (d_syn_data d) && is_some (d_ack_vector d) then
    fail (EInvalidField "ack_vector" "a SYN datagram cannot carry an ACK vector" None)
  else
    let flags := V1Datagram_compute_flags d in
    if match d_syn_data_ex d with
       | Some sx =>
           negb (Bool.eqb (is_some (cookie_hash sx))
             (is_client_syn flags && (udp_ver sx =? UdpVersion.V3)))
       | None => false
       end
    then fail (EInvalidField "syn_data_ex"
      "cookieHash must be present if and only if this is a version 3 client-to-server SYN" None)
    else
      _ ← WriteCursor.ensure_size (V1Datagram_size d);
      let header := mkFecHeader (sn_source_ack (d_header d)) (receive_window_size (d_header d)) flags in
      _ ← encode_into header;
      _ ← opt_m encode_into (d_ack_vector d);
      _ ← opt_m encode_into (d_ack_of_acks d);
      _ ← opt_m encode_into (d_syn_data d);
      _ ← opt_m encode_into (d_correlation_id d);
      opt_m encode_into (d_syn_data_ex d).

Definition V1Datagram_decode : Decoder V1Datagram :=
  header ← decode_from;
  let flags := fh_flags header in
  if contains flags V1Flags.DATA then
    fail (DInvalidField "flags" "DATA flag is not supported in handshake datagrams" None)
  else if contains flags V1Flags.FEC then
    fail (DInvalidField "flags" "FEC flag is not supported in handshake datagrams" None)
  else
    ack_vector ← when_m (contains flags V1Flags.ACK && negb (contains flags V1Flags.SYN)) decode_from;
    ack_of_acks ← when_m (contains flags V1Flags.ACK_OF_ACKS) decode_from;
    syn_data ← when_m (contains flags V1Flags.SYN) decode_from;
    correlation_id ← when_m (contains flags V1Flags.CORRELATION_ID) decode_from;
    syn_data_ex ← when_m (contains flags V1Flags.SYNEX)
      (SynDataExPayload_decode_directional (is_client_syn flags));
    mret (mkV1Datagram header ack_vector ack_of_acks syn_data correlation_id syn_data_ex).

#[export] Instance V1Datagram_Encode : Encode V1Datagram :=
  { encode_into := V1Datagram_encode; size := V1Datagram_size }.
#[export] Instance V1Datagram_Decode : Decode V1Datagram := { decode_from := V1Datagram_decode }.

End datagram.

(** ** The codecs *)

Section fec_header_codec.
Context {BF : Bitflags}.

Definition FecHeader_wf (h : FecHeader) : Prop :=
  is_u32 (sn_source_ack h) /\ is_u16 (receive_window_size h) /\
  Z.land (fh_flags h) V1Flags.ALL = fh_flags h.

Definition FecHeader_wire (h : FecHeader) : list Z :=
  to_be_bytes 4 (sn_source_ack h) ++ to_be_bytes 2 (receive_window_size h) ++
  to_be_bytes 2 (fh_flags h).

Lemma v1_flags_range f : Z.land f V1Flags.ALL = f -> 0 <= f < 8192.
Proof. intros <-. pose proof (land_le_r f V1Flags.ALL ltac:(done)). unfold V1Flags.ALL in *. lia. Qed.

Lemma FecHeader_decodes h : FecHeader_wf h -> decodes FecHeader_decode (FecHeader_wire h) h.
Proof.
  intros (Hs & Hr & Hf). pose proof (v1_flags_range _ Hf). apply decodes_ensure; [done|].
  eapply decodes_bind; [by apply decodes_u32_be|]. eapply decodes_bind; [by apply decodes_u16_be|].
  eapply decodes_last; [apply decodes_u16_be; width|]. cbv zeta.
  rewrite from_bits_truncate_bits, Hf. destruct h. apply decodes_ret.
Qed.

#[export] Program Instance FecHeader_Codec : Codec FecHeader :=
  { wf := FecHeader_wf; wire := FecHeader_wire }.
Next Obligation.
  intros h Hw. apply encodes_ensure; [done|].
  apply encodes_bind; [apply encodes_u32_be|]. apply encodes_bind; apply encodes_u16_be.
Qed.
Next Obligation. done. Qed.
Next Obligation. intros h Hw. by apply decodes_to_end, FecHeader_decodes. Qed.
Next Obligation.
  eapply safe_bind; [apply (safe_ensure 0 8)|]. intros _ _.
  eapply safe_bind; [apply (safe_u32_be 4); lia|]. intros s Hs.
  eapply safe_bind; [apply (safe_u16_be 2); lia|]. intros r Hr.
  eapply safe_bind; [apply (safe_u16_be 0); lia|]. intros f Hf.
  apply safe_ret. split_and!; [done..|]. cbn. rewrite from_bits_truncate_bits.
  by rewrite <- Z.land_assoc, Z.land_diag.
Qed.
#[export] Instance FecHeader_Framed : Framed FecHeader := { framed := FecHeader_decodes }.

End fec_header_codec.

(** *** The ACK vector *)

Definition V1AckVectorElement_wf (e : V1AckVectorElement) : Prop := 0 <= ve_length e <= MAX_LENGTH.

Lemma ve_to_byte_eq e :
  V1AckVectorElement_wf e ->
  V1AckVectorElement_to_byte e = VectorElementState_to_bits (ve_state e) * 64 + ve_length e.
Proof.
  intros He. unfold V1AckVectorElement_wf, V1AckVectorElement_to_byte, MAX_LENGTH in *.
  rewrite land_u6, Z.mod_small by lia. apply (shiftl_lor_low _ _ 6); lia.
Qed.

Lemma ve_to_byte_u8 e : V1AckVectorElement_wf e -> is_u8 (V1AckVectorElement_to_byte e).
Proof.
  intros He. rewrite ve_to_byte_eq by done. unfold V1AckVectorElement_wf, MAX_LENGTH in He.
  destruct (ve_state e); cbn; width.
Qed.

Lemma ve_from_to_byte e :
  V1AckVectorElement_wf e -> V1AckVectorElement_from_byte (V1AckVectorElement_to_byte e) = e.
Proof.
  intros He. rewrite ve_to_byte_eq by done. unfold V1AckVectorElement_wf, MAX_LENGTH in He.
  unfold V1AckVectorElement_from_byte, MAX_LENGTH, VectorElementState_from_bits.
  rewrite land_u6, Z.shiftr_div_pow2 by lia. change (2 ^ 6) with 64.
  rewrite Z.div_add_l, (Z.div_small (ve_length e) 64), Z.add_0_r by lia.
  rewrite Z.add_comm, Z.mod_add, Z.mod_small by lia.
  destruct e as [[] l]; reflexivity.
Qed.

Lemma ve_from_byte_wf b : V1AckVectorElement_wf (V1AckVectorElement_from_byte b).
Proof. apply land_le_r. done. Qed.

Lemma padding_len_range n : 0 <= n -> 0 <= V1AckVectorHeader_padding_len n < 4.
Proof. intros Hn. unfold V1AckVectorHeader_padding_len, next_multiple_of. zcase; zdm. Qed.

(** The structure ends on a DWORD boundary. *)
Lemma padding_len_aligned n : (2 + n + V1AckVectorHeader_padding_len n) mod 4 = 0.
Proof. unfold V1AckVectorHeader_padding_len, next_multiple_of. zcase; zdm. Qed.

Definition V1AckVectorHeader_wf (h : V1AckVectorHeader) : Prop :=
  llen (elements h) <= MAX_ACK_VECTOR_SIZE /\ Forall V1AckVectorElement_wf (elements h).

Definition V1AckVectorHeader_wire (h : V1AckVectorHeader) : list Z :=
  to_be_bytes 2 (llen (elements h)) ++
  (elements h ≫= fun e => [V1AckVectorElement_to_byte e]) ++
  replicate (Z.to_nat (V1AckVectorHeader_padding_len (llen (elements h)))) 0.

Lemma length_bind_singleton {A B} (f : A -> B) (l : list A) : length (l ≫= fun x => [f x]) = length l.
Proof. induction l; [done|]. rewrite bind_cons. cbn. by f_equal. Qed.

Lemma V1AckVectorHeader_size_wire h :
  V1AckVectorHeader_wf h -> V1AckVectorHeader_size h = llen (V1AckVectorHeader_wire h).
Proof.
  intros _. unfold V1AckVectorHeader_size, V1AckVectorHeader_wire.
  pose proof (padding_len_range (llen (elements h)) (llen_nonneg _)).
  rewrite !llen_app. unfold llen at 5 6. rewrite length_bind_singleton, length_replicate.
  rewrite Z2Nat.id by lia. unfold llen at 3. rewrite length_to_be_bytes. unfold llen. lia.
Qed.

Lemma validate_element_count_ok {E} (f : string -> string -> option Z -> E) n :
  n <= MAX_ACK_VECTOR_SIZE -> validate_element_count f n = Ok tt.
Proof. intros. unfold validate_element_count. zcase; [lia|done]. Qed.

Lemma V1AckVectorHeader_encodes h :
  V1AckVectorHeader_wf h -> encodes (V1AckVectorHeader_encode h) (V1AckVectorHeader_wire h).
Proof.
  intros Hw. pose proof (V1AckVectorHeader_size_wire _ Hw). destruct Hw as [Hn He].
  apply encodes_lift; [by apply validate_element_count_ok|].
  unfold MAX_ACK_VECTOR_SIZE in Hn. zcase; [lia|]. apply encodes_ensure; [lia|].
  apply encodes_bind; [apply encodes_u16_be|]. apply encodes_bind; [|apply encodes_padding].
  apply encodes_iter. eapply Forall_impl; [exact He|]. intros e Hwe. by apply encodes_u8, ve_to_byte_u8.
Qed.

Lemma V1AckVectorHeader_decodes h :
  V1AckVectorHeader_wf h -> decodes V1AckVectorHeader_decode (V1AckVectorHeader_wire h) h.
Proof.
  intros Hw. pose proof (V1AckVectorHeader_size_wire _ Hw) as Hsz. destruct Hw as [Hn He].
  pose proof (llen_nonneg (elements h)).
  pose proof (padding_len_range (llen (elements h)) (llen_nonneg _)).
  unfold V1AckVectorHeader_size in Hsz.
  apply decodes_ensure; [lia|]. unfold V1AckVectorHeader_wire in *. rewrite llen_app in Hsz.
  eapply decodes_bind; [apply decodes_u16_be; unfold MAX_ACK_VECTOR_SIZE in *; width|].
  eapply decodes_bind_nil; [apply decodes_lift; by apply validate_element_count_ok|].
  cbv zeta. apply decodes_ensure; [unfold llen in Hsz at 3; rewrite length_to_be_bytes in Hsz; lia|].
  eapply decodes_bind.
  { unfold llen. rewrite Nat2Z.id. apply decodes_repeat. eapply Forall_impl; [exact He|].
    intros e Hwe. eapply decodes_last; [by apply decodes_u8, ve_to_byte_u8|].
    rewrite ve_from_to_byte by done. apply decodes_ret. }
  eapply decodes_last.
  { pose proof (decodes_read_padding (E := DecodeErrorKind)
      (replicate (Z.to_nat (V1AckVectorHeader_padding_len (llen (elements h)))) 0)) as Hp.
    rewrite length_replicate in Hp. exact Hp. }
  destruct h. apply decodes_ret.
Qed.

#[export] Program Instance V1AckVectorHeader_Codec : Codec V1AckVectorHeader :=
  { wf := V1AckVectorHeader_wf; wire := V1AckVectorHeader_wire;
    wire_encodes := V1AckVectorHeader_encodes; wire_size := V1AckVectorHeader_size_wire }.
Next Obligation. intros h Hw. by apply decodes_to_end, V1AckVectorHeader_decodes. Qed.
Next Obligation.
  eapply safe_bind; [apply (safe_ensure 0 2)|]. intros _ _.
  eapply safe_bind; [apply (safe_u16_be 0); lia|]. intros n Hn.
  eapply safe_bind; [apply safe_lift; unfold validate_element_count; by case_match|].
  intros [] Hv. cbv zeta. pose proof (padding_len_range n ltac:(width)).
  assert (n <= MAX_ACK_VECTOR_SIZE) by (unfold validate_element_count in Hv; zcase; [done|lia]).
  eapply safe_bind; [apply safe_ensure|]. intros _ _.
  eapply safe_bind.
  { eapply safe_weaken.
    - apply (safe_repeat (V1AckVectorHeader_padding_len n) _ _ V1AckVectorElement_wf); [lia| |].
      + eapply safe_bind; [apply (safe_u8 0); lia|]. intros x Hx. apply safe_ret, ve_from_byte_wf.
      + intros c Hc Hl a c'. unfold mbind, M_bind.
        destruct (ReadCursor.read_u8 c) as [[x c'']| |] eqn:E; [|done..]. intros [= <- <-].
        by eapply len_read_u8.
    - rewrite Z2Nat.id; width.
    - done.
    - by intros ? HH. }
  intros es [Hl He].
  eapply safe_bind.
  { eapply safe_weaken; [apply (safe_padding 0); lia| |done|by intros]. rewrite Z2Nat.id; lia. }
  intros _ _. apply safe_ret. split; [|done]. unfold llen. cbn. rewrite Hl, Z2Nat.id; width.
Qed.
#[export] Instance V1AckVectorHeader_Framed : Framed V1AckVectorHeader :=
  { framed := V1AckVectorHeader_decodes }.

(** *** AckOfAcks, correlation id, SYNDATA *)

#[export] Program Instance V1AckOfAcks_Codec : Codec V1AckOfAcksHeader :=
  { wf p := is_u32 (reset_seq_num p); wire p := to_be_bytes 4 (reset_seq_num p) }.
Next Obligation. intros p Hw. apply encodes_ensure; [done|]. apply encodes_u32_be. Qed.
Next Obligation. done. Qed.
Next Obligation.
  intros p Hw. apply decodes_to_end, decodes_ensure; [done|].
  eapply decodes_last; [by apply decodes_u32_be|]. destruct p. apply decodes_ret.
Qed.
Next Obligation.
  eapply safe_bind; [apply (safe_ensure 0 4)|]. intros _ _.
  eapply safe_bind; [apply (safe_u32_be 0); lia|]. intros n Hn. by apply safe_ret.
Qed.
#[export] Instance V1AckOfAcks_Framed : Framed V1AckOfAcksHeader.
Proof.
  split. intros p Hw. apply decodes_ensure; [done|].
  eapply decodes_last; [by apply decodes_u32_be|]. destruct p. apply decodes_ret.
Qed.

Definition CorrelationId_wf (p : CorrelationIdPayload) : Prop :=
  length (correlation_id p) = CORRELATION_ID_SIZE /\ bytes_ok (correlation_id p).

Definition CorrelationId_wire (p : CorrelationIdPayload) : list Z :=
  correlation_id p ++ replicate RESERVED_SIZE 0.

Lemma CorrelationId_decodes p :
  CorrelationId_wf p -> decodes CorrelationIdPayload_decode (CorrelationId_wire p) p.
Proof.
  intros [Hl Hb]. unfold CorrelationId_wire. apply decodes_ensure.
  { rewrite llen_app. unfold llen. rewrite Hl. done. }
  eapply decodes_bind; [by apply decodes_read_array|].
  eapply decodes_last; [apply (decodes_read_padding (replicate RESERVED_SIZE 0))|].
  destruct p. apply decodes_ret.
Qed.

#[export] Program Instance CorrelationId_Codec : Codec CorrelationIdPayload :=
  { wf := CorrelationId_wf; wire := CorrelationId_wire }.
Next Obligation.
  intros p [Hl Hb]. unfold CorrelationId_wire. apply encodes_ensure.
  { rewrite llen_app. unfold llen. rewrite Hl. done. }
  apply encodes_bind; [apply encodes_write_slice|apply encodes_padding].
Qed.
Next Obligation.
  intros p [Hl Hb]. unfold CorrelationId_wire. rewrite llen_app. unfold llen. by rewrite Hl.
Qed.
Next Obligation. intros p Hw. by apply decodes_to_end, CorrelationId_decodes. Qed.
Next Obligation.
  eapply safe_bind; [apply (safe_ensure 0 32)|]. intros _ _.
  eapply safe_bind; [apply (safe_read_slice 16 16); lia|]. intros bs [Hl Hb].
  eapply safe_bind; [apply (safe_padding 0 16); lia|]. intros _ _. by apply safe_ret.
Qed.
#[export] Instance CorrelationId_Framed : Framed CorrelationIdPayload :=
  { framed := CorrelationId_decodes }.

Definition mtu_ok (m : Z) : Prop := MTU_MIN <= m <= MTU_MAX.

Lemma validate_mtu_ok {E} (f : string -> string -> option Z -> E) m field :
  mtu_ok m -> validate_mtu f m field = Ok tt.
Proof. unfold mtu_ok. intros. unfold validate_mtu. zcase; [done|lia..]. Qed.

Lemma validate_mtu_inv {E} (f : string -> string -> option Z -> E) m field :
  validate_mtu f m field = Ok tt -> mtu_ok m.
Proof. unfold validate_mtu, mtu_ok. zcase; done. Qed.

Definition SynData_wf (p : SynDataPayload) : Prop :=
  is_u32 (initial_sequence_number p) /\ mtu_ok (upstream_mtu p) /\ mtu_ok (downstream_mtu p).

Definition SynData_wire (p : SynDataPayload) : list Z :=
  to_be_bytes 4 (initial_sequence_number p) ++ to_be_bytes 2 (upstream_mtu p) ++
  to_be_bytes 2 (downstream_mtu p).

Lemma mtu_u16 m : mtu_ok m -> is_u16 m.
Proof. unfold mtu_ok, MTU_MIN, MTU_MAX. width. Qed.

Lemma SynData_decodes p : SynData_wf p -> decodes SynDataPayload_decode (SynData_wire p) p.
Proof.
  intros (Hi & Hu & Hd). apply decodes_ensure; [done|].
  eapply decodes_bind; [by apply decodes_u32_be|].
  eapply decodes_bind; [by apply decodes_u16_be, mtu_u16|].
  eapply decodes_last; [by apply decodes_u16_be, mtu_u16|].
  eapply decodes_bind_nil; [apply decodes_lift; by apply validate_mtu_ok|].
  eapply decodes_bind_nil; [apply decodes_lift; by apply validate_mtu_ok|].
  destruct p. apply decodes_ret.
Qed.

#[export] Program Instance SynData_Codec : Codec SynDataPayload :=
  { wf := SynData_wf; wire := SynData_wire }.
Next Obligation.
  intros p (Hi & Hu & Hd). apply encodes_ensure; [done|].
  apply encodes_lift; [by apply validate_mtu_ok|]. apply encodes_lift; [by apply validate_mtu_ok|].
  apply encodes_bind; [apply encodes_u32_be|]. apply encodes_bind; apply encodes_u16_be.
Qed.
Next Obligation. done. Qed.
Next Obligation. intros p Hw. by apply decodes_to_end, SynData_decodes. Qed.
Next Obligation.
  eapply safe_bind; [apply (safe_ensure 0 8)|]. intros _ _.
  eapply safe_bind; [apply (safe_u32_be 4); lia|]. intros i Hi.
  eapply safe_bind; [apply (safe_u16_be 2); lia|]. intros u Hu.
  eapply safe_bind; [apply (safe_u16_be 0); lia|]. intros d Hd.
  eapply safe_bind; [apply safe_lift; unfold validate_mtu; by case_match|]. intros [] Hu'%validate_mtu_inv.
  eapply safe_bind; [apply safe_lift; unfold validate_mtu; by case_match|]. intros [] Hd'%validate_mtu_inv.
  by apply safe_ret.
Qed.
#[export] Instance SynData_Framed : Framed SynDataPayload := { framed := SynData_decodes }.

(** *** SYNDATAEX *)

Section syn_data_ex_codec.
Context {BF : Bitflags}.

Definition SynDataEx_wf (p : SynDataExPayload) : Prop :=
  Z.land (syn_ex_flags p) SynExFlags.ALL = syn_ex_flags p /\ is_u16 (udp_ver p) /\
  (forall h, cookie_hash p = Some h ->
    udp_ver p = UdpVersion.V3 /\ length h = COOKIE_HASH_SIZE /\ bytes_ok h).

Definition SynDataEx_wire (p : SynDataExPayload) : list Z :=
  to_be_bytes 2 (syn_ex_flags p) ++ to_be_bytes 2 (udp_ver p) ++ default [] (cookie_hash p).

Lemma SynDataEx_fixed_decodes p :
  SynDataEx_wf p ->
  decodes SynDataExPayload_decode_fixed_part
    (to_be_bytes 2 (syn_ex_flags p) ++ to_be_bytes 2 (udp_ver p)) (syn_ex_flags p, udp_ver p).
Proof.
  intros (Hf & Hv & _). pose proof (land_le_r (syn_ex_flags p) SynExFlags.ALL ltac:(done)) as Hr.
  rewrite Hf in Hr. apply decodes_ensure; [done|].
  eapply decodes_bind; [apply decodes_u16_be; unfold SynExFlags.ALL in *; width|]. cbv zeta.
  eapply decodes_last; [by apply decodes_u16_be|].
  rewrite from_bits_truncate_bits, Hf. apply decodes_ret.
Qed.

Lemma SynDataEx_size_wire p : SynDataEx_wf p -> SynDataExPayload_encoded_size p = llen (SynDataEx_wire p).
Proof.
  intros (_ & _ & Hh). unfold SynDataExPayload_encoded_size, SynDataEx_wire. rewrite !llen_app.
  destruct (cookie_hash p) as [h|]; [|done]. destruct (Hh h eq_refl) as (_ & Hl & _).
  change (default [] (Some h)) with h. unfold llen at 3. rewrite Hl. done.
Qed.

Lemma SynDataEx_encodes p : SynDataEx_wf p -> encodes (SynDataExPayload_encode p) (SynDataEx_wire p).
Proof.
  intros Hw. pose proof (SynDataEx_size_wire _ Hw) as Hsz. destruct Hw as (Hf & Hv & Hh).
  unfold SynDataExPayload_encode.
  replace (is_some (cookie_hash p) && negb (udp_ver p =? UdpVersion.V3)) with false.
  { apply encodes_ensure; [lia|]. apply encodes_bind; [apply encodes_u16_be|].
    apply encodes_bind; [apply encodes_u16_be|].
    destruct (cookie_hash p); [apply encodes_write_slice|apply encodes_ret]. }
  destruct (cookie_hash p) as [h|]; [|done]. by destruct (Hh h eq_refl) as [-> _].
Qed.

(** The directional decoder reads back a payload whose cookie hash is present
    exactly when the direction calls for one, whatever follows. *)
Lemma SynDataEx_directional_decodes (cl : bool) p :
  SynDataEx_wf p -> is_some (cookie_hash p) = cl && (udp_ver p =? UdpVersion.V3) ->
  decodes (SynDataExPayload_decode_directional cl) (SynDataEx_wire p) p.
Proof.
  intros Hw Hc. pose proof (SynDataEx_fixed_decodes _ Hw) as Hd. destruct Hw as (Hf & Hv & Hh).
  unfold SynDataEx_wire. rewrite app_assoc. eapply decodes_bind; [exact Hd|].
  cbn [fst snd]. rewrite <- Hc. destruct p as [f v [h|]]; cbn [cookie_hash is_some default from_option id] in *.
  - destruct (Hh h eq_refl) as (_ & Hl & _). eapply decodes_last; [|apply decodes_ret].
    apply decodes_ensure; [unfold llen; by rewrite Hl|].
    eapply decodes_last; [by apply decodes_read_array|apply decodes_ret].
  - eapply decodes_bind_nil; [apply decodes_ret|apply decodes_ret].
Qed.

Lemma SynDataEx_decodes_end p :
  SynDataEx_wf p -> decodes_end SynDataExPayload_decode (SynDataEx_wire p) p.
Proof.
  intros Hw. pose proof (SynDataEx_fixed_decodes _ Hw) as Hd. destruct Hw as (Hf & Hv & Hh).
  unfold SynDataEx_wire. rewrite app_assoc. eapply decodes_bind_end; [exact Hd|].
  intros pre. unfold gets. unfold mbind at 1, M_bind at 1. unfold ReadCursor.len. cbn [ReadCursor.inner ReadCursor.pos].
  rewrite llen_app. replace (llen pre + llen (default [] (cookie_hash p)) - Z.of_nat (length pre))
    with (llen (default [] (cookie_hash p))) by (unfold llen; lia).
  destruct p as [f v [h|]]; cbn [cookie_hash default from_option id syn_ex_flags udp_ver] in *.
  - destruct (Hh h eq_refl) as (-> & Hl & _). unfold llen. rewrite Hl. cbn [Z.eqb].
    pose proof (decodes_read_array (E := DecodeErrorKind) _ _ Hl pre []) as Hr. rewrite app_nil_r in Hr.
    change ((UdpVersion.V3 =? UdpVersion.V3) && (Z.of_nat COOKIE_HASH_SIZE <=? Z.of_nat COOKIE_HASH_SIZE))
      with true. cbv iota. unfold mbind, M_bind. rewrite Hr, Hl. done.
  - cbn. rewrite andb_false_r. by rewrite Nat.add_0_r.
Qed.

Lemma SynDataEx_fixed_safe :
  safe 0 SynDataExPayload_decode_fixed_part 0
    (fun '(f, v) => Z.land f SynExFlags.ALL = f /\ is_u16 v).
Proof.
  eapply safe_bind; [apply (safe_ensure 0 4)|]. intros _ _.
  eapply safe_bind; [apply (safe_u16_be 2); lia|]. intros f Hf. cbv zeta.
  eapply safe_bind; [apply (safe_u16_be 0); lia|]. intros v Hv. apply safe_ret. split; [|done].
  by rewrite from_bits_truncate_bits, <- Z.land_assoc, Z.land_diag.
Qed.

Lemma SynDataEx_directional_safe (cl : bool) :
  safe 0 (SynDataExPayload_decode_directional cl) 0
    (fun p => SynDataEx_wf p /\ is_some (cookie_hash p) = cl && (udp_ver p =? UdpVersion.V3)).
Proof.
  eapply safe_bind; [apply SynDataEx_fixed_safe|]. intros [f v] [Hf Hv].
  eapply (safe_bind _ 0 _ _ _ (fun o => is_some o = cl && (v =? UdpVersion.V3) /\
    forall h, o = Some h -> length h = COOKIE_HASH_SIZE /\ bytes_ok h)).
  { destruct (cl && _); [|by apply safe_ret].
    eapply safe_bind; [apply (safe_ensure 0 32)|]. intros _ _.
    eapply safe_bind; [apply (safe_read_slice 0 32); lia|]. intros h Hh. apply safe_ret.
    split; [done|]. by intros ? [= <-]. }
  intros o [Ho Hl]. apply safe_ret. split; [|done]. split_and!; [done..|]. intros h Hs. cbn in Hs. subst o.
  cbn in Ho. symmetry in Ho. apply andb_prop in Ho as [_ Hv3%Z.eqb_eq]. split; [done|by apply Hl].
Qed.

#[export] Program Instance SynDataEx_Codec : Codec SynDataExPayload :=
  { wf := SynDataEx_wf; wire := SynDataEx_wire; wire_encodes := SynDataEx_encodes;
    wire_size := SynDataEx_size_wire; wire_decodes := SynDataEx_decodes_end }.
Next Obligation.
  eapply safe_bind; [apply SynDataEx_fixed_safe|]. intros [f v] [Hf Hv].
  intros c Hc Hn. unfold gets. unfold mbind at 1, M_bind at 1.
  destruct ((v =? UdpVersion.V3) && (Z.of_nat COOKIE_HASH_SIZE <=? ReadCursor.len c)) eqn:E.
  - apply andb_prop in E as [E1%Z.eqb_eq E2%Z.leb_le].
    assert (Hs : safe (E := DecodeErrorKind) 32 (cookie_hash ← (h ← ReadCursor.read_array COOKIE_HASH_SIZE; mret (Some h));
      mret (mkSynDataExPayload f v cookie_hash)) 0 SynDataEx_wf); [|apply Hs; [done|unfold COOKIE_HASH_SIZE in E2; lia]].
    eapply safe_bind; [|intros o Ho; apply safe_ret, Ho].
    eapply safe_bind; [apply (safe_read_slice 0 32); lia|]. intros h [Hl Hb]. apply safe_ret.
    split_and!; [done..|]. by intros ? [= <-].
  - destruct Hc. cbn. by split_and!.
Qed.

End syn_data_ex_codec.

(** *** V1Datagram *)

Section datagram_codec.
Context {BF : Bitflags}.

(** A handshake flag word is the standalone flags and the payload flags it
    contains; without SYN an ACK flag announces a vector. *)
Definition v1_flag_word (f : Z) (av aoa syn cid ex : bool) : Z :=
  let w := Z.land f V1_STANDALONE_FLAGS in
  let w := if av then Z.lor w V1Flags.ACK else w in
  let w := if aoa then Z.lor w V1Flags.ACK_OF_ACKS else w in
  let w := if syn then Z.lor (Z.lor w V1Flags.SYN) (Z.land f V1Flags.ACK) else w in
  let w := if cid then Z.lor w V1Flags.CORRELATION_ID else w in
  if ex then Z.lor w V1Flags.SYNEX else w.

Lemma standalone_in_all f : Z.land (Z.land f V1_STANDALONE_FLAGS) V1Flags.ALL = Z.land f V1_STANDALONE_FLAGS.
Proof. by rewrite <- Z.land_assoc. Qed.

Lemma V1Datagram_compute_flags_eq d :
  V1Datagram_compute_flags d =
  v1_flag_word (fh_flags (d_header d)) (is_some (d_ack_vector d)) (is_some (d_ack_of_acks d))
    (is_some (d_syn_data d)) (is_some (d_correlation_id d)) (is_some (d_syn_data_ex d)).
Proof.
  unfold V1Datagram_compute_flags, v1_flag_word.
  by rewrite !union_bits, intersection_bits, from_bits_truncate_bits, standalone_in_all.
Qed.

Definition has (f b : Z) : bool := Z.land f b =? b.

(** What the decoder reads off a word the encoder computed. *)
Lemma v1_flag_word_contains f av aoa syn cid ex :
  0 <= f < 8192 -> syn && av = false ->
  let w := v1_flag_word f av aoa syn cid ex in
  has w V1Flags.DATA = false /\ has w V1Flags.FEC = false /\
  has w V1Flags.ACK && negb (has w V1Flags.SYN) = av /\
  has w V1Flags.ACK_OF_ACKS = aoa /\ has w V1Flags.SYN = syn /\
  has w V1Flags.CORRELATION_ID = cid /\ has w V1Flags.SYNEX = ex /\
  Z.land w V1Flags.ALL = w.
Proof.
  intros Hf Hx.
  assert (Hg : forall x, 0 <= x < 8192 ->
    forallb (fun '(av, aoa, syn, (cid, ex)) => (syn && av) ||
      let w := v1_flag_word x av aoa syn cid ex in
      negb (has w V1Flags.DATA) && negb (has w V1Flags.FEC) &&
      eqb (has w V1Flags.ACK && negb (has w V1Flags.SYN)) av &&
      eqb (has w V1Flags.ACK_OF_ACKS) aoa && eqb (has w V1Flags.SYN) syn &&
      eqb (has w V1Flags.CORRELATION_ID) cid && eqb (has w V1Flags.SYNEX) ex &&
      (Z.land w V1Flags.ALL =? w))
      (list_prod (list_prod (list_prod [true;false] [true;false]) [true;false])
        (list_prod [true;false] [true;false])) = true)
    by (apply forall_range; vm_compute; reflexivity).
  specialize (Hg f Hf). rewrite forallb_forall in Hg.
  specialize (Hg ((av, aoa, syn), (cid, ex))). 
  assert (Hin : In (av, aoa, syn, (cid, ex)) (list_prod (list_prod (list_prod [true;false] [true;false]) [true;false])
        (list_prod [true;false] [true;false]))).
  { destruct av, aoa, syn, cid, ex; cbn; tauto. }
  specialize (Hg Hin). cbv beta iota zeta in Hg |- *. rewrite Hx, orb_false_l, !andb_true_iff in Hg.
  destruct Hg as (((((((H1 & H2) & H3) & H4) & H5) & H6) & H7) & H8).
  apply negb_true_iff in H1, H2. apply eqb_prop in H3, H4, H5, H6, H7. apply Z.eqb_eq in H8. done.
Qed.

(** Conversely, a word the decoder accepts is the one the encoder computes
    from the payloads it announces. *)
Lemma v1_flag_word_complete f :
  0 <= f < 8192 -> has f V1Flags.DATA = false -> has f V1Flags.FEC = false ->
  f = v1_flag_word f (has f V1Flags.ACK && negb (has f V1Flags.SYN)) (has f V1Flags.ACK_OF_ACKS)
        (has f V1Flags.SYN) (has f V1Flags.CORRELATION_ID) (has f V1Flags.SYNEX).
Proof.
  intros Hf Hd He.
  assert (Hg : forall x, 0 <= x < 8192 -> has x V1Flags.DATA || has x V1Flags.FEC ||
    (x =? v1_flag_word x (has x V1Flags.ACK && negb (has x V1Flags.SYN)) (has x V1Flags.ACK_OF_ACKS)
        (has x V1Flags.SYN) (has x V1Flags.CORRELATION_ID) (has x V1Flags.SYNEX)) = true)
    by (apply forall_range; vm_compute; reflexivity).
  specialize (Hg f Hf). rewrite Hd, He in Hg. by apply Z.eqb_eq in Hg.
Qed.

Definition V1Datagram_wf (d : V1Datagram) : Prop :=
  wf (d_header d) /\
  fh_flags (d_header d) = V1Datagram_compute_flags d /\
  is_some (d_syn_data d) && is_some (d_ack_vector d) = false /\
  (forall x, d_ack_vector d = Some x -> wf x) /\ (forall x, d_ack_of_acks d = Some x -> wf x) /\
  (forall x, d_syn_data d = Some x -> wf x) /\ (forall x, d_correlation_id d = Some x -> wf x) /\
  (forall x, d_syn_data_ex d = Some x -> wf x /\
    is_some (cookie_hash x) = is_client_syn (fh_flags (d_header d)) && (udp_ver x =? UdpVersion.V3)).

Definition V1Datagram_wire (d : V1Datagram) : list Z :=
  wire (d_header d) ++ opt_wire (d_ack_vector d) ++ opt_wire (d_ack_of_acks d) ++
  opt_wire (d_syn_data d) ++ opt_wire (d_correlation_id d) ++ opt_wire (d_syn_data_ex d).

Lemma V1Datagram_size_wire d : V1Datagram_wf d -> V1Datagram_size d = llen (V1Datagram_wire d).
Proof.
  intros (_&_&_&?&?&?&?&Hx). unfold V1Datagram_size, V1Datagram_wire.
  assert (forall x, d_syn_data_ex d = Some x -> wf x) by (intros x E; apply (Hx x E)).
  rewrite !llen_app, !opt_size_wire by done. change (llen (wire (d_header d))) with 8.
  change (size (d_header d)) with 8. lia.
Qed.

Lemma V1Datagram_encodes d : V1Datagram_wf d -> encodes (V1Datagram_encode d) (V1Datagram_wire d).
Proof.
  intros Hw. pose proof (V1Datagram_size_wire _ Hw) as Hsz.
  destruct Hw as (Hh&Hf&Hs&?&?&?&?&Hx). unfold V1Datagram_encode. rewrite Hs, <- Hf.
  assert (forall x, d_syn_data_ex d = Some x -> wf x) by (intros x E; apply (Hx x E)).
  replace (match d_syn_data_ex d with Some _ => _ | None => _ end) with false.
  2: { destruct (d_syn_data_ex d) as [x|]; [|done]. destruct (Hx x eq_refl) as [_ ->].
       by rewrite eqb_reflx. }
  apply encodes_ensure; [lia|]. cbv zeta. unfold V1Datagram_wire.
  replace (mkFecHeader _ _ _) with (d_header d) by (by destruct (d_header d)).
  repeat (apply encodes_bind; [first [by apply wire_encodes|by apply encodes_opt_wire]|]).
  by apply encodes_opt_wire.
Qed.

Lemma V1Datagram_decodes d : V1Datagram_wf d -> decodes V1Datagram_decode (V1Datagram_wire d) d.
Proof.
  intros (Hh&Hf&Hs&Hav&Haoa&Hsyn&Hcid&Hx). pose proof Hh as (_ & _ & Hr%v1_flags_range).
  destruct (v1_flag_word_contains _ _ (is_some (d_ack_of_acks d)) _ (is_some (d_correlation_id d))
    (is_some (d_syn_data_ex d)) Hr Hs) as (H1&H2&H3&H4&H5&H6&H7&_).
  rewrite <- V1Datagram_compute_flags_eq, <- Hf in *. unfold has in *. rewrite <- !contains_bits in *.
  unfold V1Datagram_decode, V1Datagram_wire. eapply decodes_bind; [by apply framed|]. cbv zeta.
  rewrite H1, H2.
  repeat (eapply decodes_bind; [by apply decodes_opt_wire|]).
  apply (decodes_last _ _ _ (d_syn_data_ex d)); [|destruct d; apply decodes_ret]. rewrite H7.
  destruct (d_syn_data_ex d) as [x|]; [|apply decodes_when_false].
  destruct (Hx x eq_refl) as [Hwx Hcx]. by apply decodes_when_true, SynDataEx_directional_decodes.
Qed.

#[export] Program Instance V1Datagram_Codec : Codec V1Datagram :=
  { wf := V1Datagram_wf; wire := V1Datagram_wire; wire_encodes := V1Datagram_encodes;
    wire_size := V1Datagram_size_wire }.
Next Obligation. intros d Hw. by apply decodes_to_end, V1Datagram_decodes. Qed.
Next Obligation.
  change (safe 0 V1Datagram_decode 0 V1Datagram_wf). unfold V1Datagram_decode.
  eapply safe_bind; [apply decode_safe|]. intros h Hh. cbv zeta.
  pose proof Hh as (_ & _ & Hr%v1_flags_range).
  destruct (contains _ V1Flags.DATA) eqn:Hd; [apply safe_fail|].
  destruct (contains _ V1Flags.FEC) eqn:He; [apply safe_fail|].
  eapply safe_bind; [apply safe_when, decode_safe|]. intros av [Hav%when_is_some ?].
  eapply safe_bind; [apply safe_when, decode_safe|]. intros aoa [Haoa%when_is_some ?].
  eapply safe_bind; [apply safe_when, decode_safe|]. intros syn [Hsyn%when_is_some ?].
  eapply safe_bind; [apply safe_when, decode_safe|]. intros cid [Hcid%when_is_some ?].
  eapply safe_bind; [apply safe_when, SynDataEx_directional_safe|]. intros ex [Hex%when_is_some ?].
  apply safe_ret. unfold V1Datagram_wf. rewrite V1Datagram_compute_flags_eq.
  cbn [d_header d_ack_vector d_ack_of_acks d_syn_data d_correlation_id d_syn_data_ex].
  rewrite Hav, Haoa, Hsyn, Hcid, Hex. rewrite !contains_bits in *.
  split_and!; [done| | |done..].
  - by apply v1_flag_word_complete.
  - destruct (Z.land _ V1Flags.SYN =? _); [|done]. by rewrite andb_false_r.
Qed.
#[export] Instance V1Datagram_Framed : Framed V1Datagram := { framed := V1Datagram_decodes }.

(** Every well-formed handshake datagram is written in exactly [size]
    bytes and read back unchanged, also when any bytes (the zero padding up to
    the MTU) follow it. *)
Theorem v1_datagram_roundtrip (d : V1Datagram) (padding : list Z) :
  V1Datagram_wf d ->
  exists out, encode_vec d = Ok out /\ llen out = V1Datagram_size d /\
    decode V1Datagram (out ++ padding) = Ok d.
Proof.
  intros H. exists (wire d).
  split_and!; [exact (encode_vec_wire d H)|symmetry; exact (wire_size d H)|exact (decode_wire_framed d padding H)].
Qed.

(** No datagram makes the handshake decoder panic, and whatever it accepts
    is well formed (MTUs within the protocol's range, a cookie hash exactly in
    a version 3 client SYN, no SYN with an acknowledgment vector), so that it
    can be written again and reads back the same. *)
Theorem v1_decode_total bs :
  bytes_ok bs ->
  match decode V1Datagram bs with
  | Ok d => V1Datagram_wf d /\
      exists out, encode_vec d = Ok out /\ llen out = V1Datagram_size d /\ decode V1Datagram out = Ok d
  | Err _ => True
  | Panic => False
  end.
Proof.
  intros Hb. pose proof (decode_no_panic (A := V1Datagram) bs Hb) as Hn.
  destruct (decode V1Datagram bs) as [d| |] eqn:E; [|done..].
  split; [exact (decode_wf _ _ Hb E)|exact (decode_canonical _ _ Hb E)].
Qed.

End datagram_codec.

(** A client SYN of version 3. *)
Definition sample_syn : V1Datagram :=
  mkV1Datagram (mkFecHeader 0xFFFFFFFF 1024 0x1001) None None
    (Some (mkSynDataPayload 77 1232 1232)) None
    (Some (mkSynDataExPayload 1 UdpVersion.V3 (Some (replicate 32 5)))).

Lemma sample_syn_wf : @V1Datagram_wf bits_flags sample_syn.
Proof.
  unfold V1Datagram_wf. split_and!; try done; try reflexivity; try (intros x [= <-]); try done.
  split; [|reflexivity]. unfold wf. cbn. unfold SynDataEx_wf. split_and!; try done.
  intros h [= <-]. split_and!; try done. repeat constructor; done.
Qed.

Lemma v1_datagram_roundtrip_witness :
  let _ := bits_flags in
  exists out, encode_vec sample_syn = Ok out /\ llen out = V1Datagram_size sample_syn /\
    decode V1Datagram (out ++ replicate 100 0) = Ok sample_syn.
Proof. apply (@v1_datagram_roundtrip bits_flags sample_syn (replicate 100 0)), sample_syn_wf. Defined.

Lemma v1_decode_total_witness :
  let _ := bits_flags in
  match decode V1Datagram [0; 0; 0; 0; 0; 64; 0; 4; 0; 1; 0x01; 0x00] with
  | Ok d => V1Datagram_wf d /\
      exists out, encode_vec d = Ok out /\ llen out = V1Datagram_size d /\ decode V1Datagram out = Ok d
  | Err _ => True
  | Panic => False
  end.
Proof.
  apply (@v1_decode_total bits_flags [0; 0; 0; 0; 0; 64; 0; 4; 0; 1; 0x01; 0x00]).
  repeat constructor; done.
Defined.
