(* ===== verification/Prefix.v ===== *)
(** The PacketPrefixByte framing of RDP-UDP2 packets
    (src/crates/ironrdp-rdpeudp/src/pdu/prefix.rs): a prefix byte in front of
    the packet, swapped with the eighth byte of the wire payload.

    Both transforms work in place on a caller's buffer, so each returns the
    buffer it leaves behind next to its result. *)

From S2P Require Import Prelude Codec.

Definition PREFIX_SWAP_INDEX : nat := 7.
Definition MIN_WIRE_SIZE : Z := 8.

Record PacketPrefixByte := mkPrefix { packet_type_index : Z; short_packet_length : Z }.

Inductive PrefixError :=
| PayloadTooShort (len : Z)
| InvalidPacketType (got : Z).

Definition compute_short_length (packet_size : Z) : Z := if packet_size <? 7 then packet_size else 7.

Definition prefix_normal (packet_size : Z) : PacketPrefixByte :=
  mkPrefix 0 (compute_short_length packet_size).
Definition prefix_dummy (packet_size : Z) : PacketPrefixByte :=
  mkPrefix 8 (compute_short_length packet_size).
Definition is_dummy (p : PacketPrefixByte) : bool := packet_type_index p =? 8.

(** [u8] shifts drop the bits above the width. *)
Definition prefix_to_byte (p : PacketPrefixByte) : Z :=
  Z.lor (Z.shiftl (Z.land (short_packet_length p) 0x07) 5 mod 256)
    (Z.shiftl (Z.land (packet_type_index p) 0x0F) 1 mod 256).
Definition prefix_from_byte (byte : Z) : PacketPrefixByte :=
  mkPrefix (Z.land (Z.shiftr byte 1) 0x0F) (Z.land (Z.shiftr byte 5) 0x07).

(** [slice::swap], which panics when an index is out of range. *)
Definition swap {A} (l : list A) (i j : nat) : option (list A) :=
  x ← l !! i; y ← l !! j; Some (<[j := x]> (<[i := y]> l)).

Definition encode_with_prefix (packet : list Z) (dummy : bool) (wire_buf : list Z)
    : outcome PrefixError Z * list Z :=
  let prefix := if dummy then prefix_dummy (llen packet) else prefix_normal (llen packet) in
  let padded_size := Z.max (llen packet) 7 in
  let wire_buf := [prefix_to_byte prefix] ++ packet in
  let wire_buf := push_while (Z.to_nat (1 + padded_size)) (1 + padded_size) 0 wire_buf in
  if llen wire_buf <? MIN_WIRE_SIZE then (Err (PayloadTooShort (llen wire_buf)), wire_buf)
  else
    match swap wire_buf 0 PREFIX_SWAP_INDEX with
    | Some wire_buf => (Ok (llen wire_buf), wire_buf)
    | None => (Panic, wire_buf)
    end.

Definition decode_with_prefix (wire : list Z)
    : outcome PrefixError (PacketPrefixByte * list Z) * list Z :=
  if llen wire <? MIN_WIRE_SIZE then (Err (PayloadTooShort (llen wire)), wire)
  else
    match swap wire 0 PREFIX_SWAP_INDEX with
    | None => (Panic, wire)
    | Some wire =>
        match wire with
        | [] => (Panic, wire)
        | b0 :: packet_data =>
            let prefix := prefix_from_byte b0 in
            if negb (packet_type_index prefix =? 0) && negb (packet_type_index prefix =? 8) then
              (Err (InvalidPacketType (packet_type_index prefix)), wire)
            else
              let actual_len :=
                if (0 <? short_packet_length prefix) && (short_packet_length prefix <? 7)
                then short_packet_length prefix else llen packet_data in
              if llen packet_data <? actual_len then
                (Err (PayloadTooShort (llen packet_data)), wire)
              else (Ok (prefix, take (Z.to_nat actual_len) packet_data), wire)
        end
    end.

(** ** The transforms on a buffer of at least eight bytes *)

Lemma swap_eight {A} (a b c d e f g h : A) (l : list A) :
  swap (a :: b :: c :: d :: e :: f :: g :: h :: l) 0 PREFIX_SWAP_INDEX =
  Some (h :: b :: c :: d :: e :: f :: g :: a :: l).
Proof. reflexivity. Qed.

Lemma eight_bytes {A} (l : list A) :
  (8 <= length l)%nat -> exists a b c d e f g h l', l = a :: b :: c :: d :: e :: f :: g :: h :: l'.
Proof. intros H. do 8 (destruct l as [|? l]; [cbn in H; lia|]). by repeat eexists. Qed.

Lemma prefix_from_to_byte (dummy : bool) n :
  0 <= n <= 7 ->
  prefix_from_byte (prefix_to_byte (mkPrefix (if dummy then 8 else 0) n)) =
  mkPrefix (if dummy then 8 else 0) n.
Proof.
  intros Hn.
  assert (Hg : forall x, 0 <= x < 8 ->
    (packet_type_index (prefix_from_byte (prefix_to_byte (mkPrefix (if dummy then 8 else 0) x))) =?
      (if dummy then 8 else 0)) &&
    (short_packet_length (prefix_from_byte (prefix_to_byte (mkPrefix (if dummy then 8 else 0) x))) =? x) = true)
    by (apply forall_range; destruct dummy; vm_compute; reflexivity).
  specialize (Hg n ltac:(lia)). apply andb_prop in Hg as [H1%Z.eqb_eq H2%Z.eqb_eq].
  destruct (prefix_from_byte _). cbn in *. by subst.
Qed.

Lemma prefix_to_byte_u8 p : is_u8 (prefix_to_byte p).
Proof.
  unfold prefix_to_byte.
  assert (H : forall x y, is_u8 x -> is_u8 y -> is_u8 (Z.lor x y)).
  { intros x y Hx Hy. split; [apply Z.lor_nonneg; width|].
    destruct (Z.eq_dec (Z.lor x y) 0) as [->|]; [done|].
    assert (0 <= Z.lor x y) by (apply Z.lor_nonneg; width).
    apply (Z.log2_lt_pow2 _ 8); [lia|]. rewrite Z.log2_lor by width.
    assert (forall v, is_u8 v -> Z.log2 v < 8).
    { intros v Hv. destruct (Z.eq_dec v 0) as [->|]; [done|]. apply Z.log2_lt_pow2; width. }
    by apply Z.max_lub_lt; auto. }
  apply H; apply Z.mod_pos_bound; lia.
Qed.

Definition prefix_of (dummy : bool) (packet : list Z) : PacketPrefixByte :=
  mkPrefix (if dummy then 8 else 0) (compute_short_length (llen packet)).

(** The wire payload: the padded packet with the prefix byte in the eighth
    place, whose own byte moves to the front. *)
Definition padded (packet : list Z) : list Z := packet ++ replicate (7 - length packet) 0.

Lemma length_padded packet : length (padded packet) = Nat.max (length packet) 7.
Proof. unfold padded. rewrite length_app, length_replicate. lia. Qed.

Lemma encode_with_prefix_eq packet dummy buf :
  exists a b c d e f g l, padded packet = a :: b :: c :: d :: e :: f :: g :: l /\
  encode_with_prefix packet dummy buf =
  (Ok (1 + llen (padded packet)),
   g :: a :: b :: c :: d :: e :: f :: prefix_to_byte (prefix_of dummy packet) :: l).
Proof.
  assert (Hp : push_while (Z.to_nat (1 + Z.max (llen packet) 7)) (1 + Z.max (llen packet) 7) 0
    ([prefix_to_byte (prefix_of dummy packet)] ++ packet) =
    prefix_to_byte (prefix_of dummy packet) :: padded packet).
  { rewrite push_while_spec by lia. cbn [app length]. unfold padded. f_equal. f_equal. f_equal.
    unfold llen. lia. }
  destruct (eight_bytes (prefix_to_byte (prefix_of dummy packet) :: padded packet))
    as (p0 & a & b & c & d & e & f & g & l & Heq).
  { cbn [length]. rewrite length_padded. lia. }
  exists a, b, c, d, e, f, g, l. injection Heq as Hp0 Hl. split; [done|].
  unfold encode_with_prefix.
  replace (if dummy then prefix_dummy (llen packet) else prefix_normal (llen packet))
    with (prefix_of dummy packet) by (unfold prefix_of; by destruct dummy).
  rewrite Hp, Hl, Hp0, swap_eight, !llen_cons. pose proof (llen_nonneg l).
  unfold MIN_WIRE_SIZE. zcase; [lia|]. done.
Qed.

Lemma decode_prefixed a b c d e f g l p :
  packet_type_index (prefix_from_byte p) = 0 \/ packet_type_index (prefix_from_byte p) = 8 ->
  let q := prefix_from_byte p in
  let rest := a :: b :: c :: d :: e :: f :: g :: l in
  decode_with_prefix (g :: a :: b :: c :: d :: e :: f :: p :: l) =
  (Ok (q, take (Z.to_nat (if (0 <? short_packet_length q) && (short_packet_length q <? 7)
                          then short_packet_length q else llen rest)) rest),
   p :: rest).
Proof.
  intros Ht q rest. unfold decode_with_prefix. rewrite swap_eight, !llen_cons. pose proof (llen_nonneg l).
  unfold MIN_WIRE_SIZE. cbv zeta. fold q. destruct (Z.ltb_spec (1 + (1 + (1 + (1 + (1 + (1 + (1 + (1 + llen l)))))))) 8); [lia|].
  replace (negb _ && negb _) with false by (unfold q; destruct Ht as [-> | ->]; done).
  unfold rest. rewrite !llen_cons.
  destruct (_ <? (if (0 <? _) && _ then _ else _)) eqn:E; [exfalso|done].
  destruct ((0 <? short_packet_length q) && (short_packet_length q <? 7)) eqn:E2; zcase; lia.
Qed.

(** ** Properties *)

(** Receiving never panics, and the packet consists of bytes of the buffer. *)
Lemma decode_prefix_safe wire :
  bytes_ok wire ->
  match fst (decode_with_prefix wire) with
  | Ok (_, packet) => bytes_ok packet
  | Err _ => True
  | Panic => False
  end.
Proof.
  intros Hb. unfold decode_with_prefix, MIN_WIRE_SIZE. destruct (Z.ltb_spec (llen wire) 8); [done|].
  destruct (eight_bytes wire) as (a&b&c&d&e&f&g&h&l&->); [unfold llen in *; lia|].
  rewrite swap_eight. cbv zeta. destruct (negb _ && negb _); [done|].
  destruct (_ <? _); [done|]. cbn [fst]. apply Forall_take.
  repeat match goal with H : Forall _ (_ :: _) |- _ => apply Forall_cons in H as [? H] end.
  by repeat (apply Forall_cons; split; [done|]).
Qed.

Lemma prefix_undone packet dummy buf :
  packet <> [] ->
  exists n wire,
    encode_with_prefix packet dummy buf = (Ok n, wire) /\ n = llen wire /\ MIN_WIRE_SIZE <= n /\
    decode_with_prefix wire = (Ok (prefix_of dummy packet, packet),
      prefix_to_byte (prefix_of dummy packet) :: padded packet) /\
    is_dummy (prefix_of dummy packet) = dummy.
Proof.
  intros Hne. destruct (encode_with_prefix_eq packet dummy buf) as (a&b&c&d&e&f&g&l&Hp&->).
  eexists _, _. split; [done|].
  assert (0 <= compute_short_length (llen packet) <= 7).
  { pose proof (llen_nonneg packet). unfold compute_short_length. zcase; lia. }
  pose proof (prefix_from_to_byte dummy (compute_short_length (llen packet)) ltac:(done)) as Hq.
  change (mkPrefix _ _) with (prefix_of dummy packet) in Hq.
  assert (length (padded packet) = Nat.max (length packet) 7) as Hlen by apply length_padded.
  rewrite Hp in Hlen |- *. rewrite decode_prefixed; [|rewrite Hq; destruct dummy; cbn; auto].
  split_and!; [unfold llen; cbn [length]; lia|unfold llen, MIN_WIRE_SIZE; cbn [length]; lia| |by destruct dummy].
  rewrite Hq, <- Hp. f_equal. f_equal. f_equal. cbn [prefix_of short_packet_length].
  assert (0 < llen packet) by (destruct packet; [done|rewrite llen_cons; pose proof (llen_nonneg packet); lia]).
  unfold compute_short_length. destruct (Z.ltb_spec (llen packet) 7).
  - replace ((0 <? llen packet) && (llen packet <? 7)) with true by (symmetry; apply andb_true_intro; split; apply Z.ltb_lt; lia).
    unfold padded, llen. rewrite Nat2Z.id. by rewrite take_app_length.
  - cbn [Z.ltb andb]. change ((0 <? 7) && (7 <? 7)) with false. cbv iota.
    unfold padded. replace (7 - length packet)%nat with 0%nat by (unfold llen in *; lia).
    cbn [replicate]. rewrite app_nil_r. unfold llen. rewrite Nat2Z.id. by rewrite take_ge.
Qed.

(** The receive transform undoes the send transform: for every nonempty
    packet, whatever the buffer held before, sending succeeds and receiving
    returns exactly the packet, with its dummy mark; padding never leaks. *)
Theorem prefix_roundtrip packet dummy buf :
  packet <> [] ->
  exists n wire,
    encode_with_prefix packet dummy buf = (Ok n, wire) /\ n = llen wire /\ MIN_WIRE_SIZE <= n /\
    decode_with_prefix wire = (Ok (prefix_of dummy packet, packet),
      prefix_to_byte (prefix_of dummy packet) :: padded packet) /\
    is_dummy (prefix_of dummy packet) = dummy.
Proof. apply prefix_undone. Qed.

Lemma prefix_roundtrip_witness :
  let packet := [1; 2; 3] in
  exists n wire,
    encode_with_prefix packet true [9; 9] = (Ok n, wire) /\ n = llen wire /\ MIN_WIRE_SIZE <= n /\
    decode_with_prefix wire = (Ok (prefix_of true packet, packet),
      prefix_to_byte (prefix_of true packet) :: padded packet) /\
    is_dummy (prefix_of true packet) = true.
Proof. apply (prefix_roundtrip [1; 2; 3] true [9; 9]). done. Defined.

(** The receive transform never panics, on any buffer; it rejects exactly
    the buffers of fewer than eight bytes and the packet types other than 0
    and 8, and what it accepts is shorter than the buffer. *)
Theorem decode_with_prefix_total wire :
  match fst (decode_with_prefix wire) with
  | Ok (p, packet) =>
      (packet_type_index p = 0 \/ packet_type_index p = 8) /\ llen packet < llen wire /\
      8 <= llen wire
  | Err (PayloadTooShort n) => n = llen wire /\ n < 8
  | Err (InvalidPacketType t) => t <> 0 /\ t <> 8 /\ 8 <= llen wire
  | Panic => False
  end.
Proof.
  unfold decode_with_prefix, MIN_WIRE_SIZE. destruct (Z.ltb_spec (llen wire) 8); [done|].
  destruct (eight_bytes wire) as (a&b&c&d&e&f&g&h&l&->); [unfold llen in *; lia|].
  rewrite swap_eight. cbv zeta. set (q := prefix_from_byte h).
  assert (0 <= short_packet_length q <= 7) by (apply land_le_r; done).
  rewrite !llen_cons in *. pose proof (llen_nonneg l).
  destruct (negb _ && negb _) eqn:E; cbn [fst].
  - apply andb_prop in E as [E1%negb_true_iff%Z.eqb_neq E2%negb_true_iff%Z.eqb_neq]. done.
  - set (n := if _ && _ then _ else _).
    assert (n <= 1 + (1 + (1 + (1 + (1 + (1 + (1 + llen l))))))) by (unfold n; clearbody q; clear n E; case (_ && _); lia).
    destruct (Z.ltb_spec (1 + (1 + (1 + (1 + (1 + (1 + (1 + llen l))))))) n); [lia|]. cbn [fst].
    split_and!; [|unfold llen at 1; rewrite length_take; cbn [length]; unfold llen; lia|lia].
    apply andb_false_iff in E as [E%negb_false_iff%Z.eqb_eq|E%negb_false_iff%Z.eqb_eq]; auto.
Qed.

(** The empty packet is the one that does not come back: its short length 0
    reads as "no short length", and the seven bytes of padding are returned. *)
Lemma prefix_empty_not_roundtrip buf :
  fst (decode_with_prefix (snd (encode_with_prefix [] false buf))) =
  Ok (mkPrefix 0 0, [0; 0; 0; 0; 0; 0; 0]).
Proof. reflexivity. Qed.
