(* ===== verification/Congestion.v ===== *)
(** NewReno congestion control
    (src/crates/ironrdp-rdpeudp/src/congestion.rs). *)

From S2P Require Import Prelude.

Module Congestion.

Definition INITIAL_WINDOW : Z := 10 * 1232.
Definition MIN_WINDOW : Z := 2 * 1232.

Record CongestionControl := mkCC {
  window : Z;
  ssthresh : Z;
  bytes_acked : Z;
  recovery_seq : option Z;
}.

Definition with_initial_window (initial_window : Z) : CongestionControl :=
  mkCC initial_window U64_MAX 0 None.

Definition new : CongestionControl := with_initial_window INITIAL_WINDOW.

Definition in_slow_start (c : CongestionControl) : bool := window c <? ssthresh c.

Definition on_ack (c : CongestionControl) (newly_acked_bytes : Z) : CongestionControl :=
  if in_slow_start c then
    let w := window c ⊕ newly_acked_bytes in
    if ssthresh c <=? w then mkCC w (ssthresh c) 0 (recovery_seq c)
    else mkCC w (ssthresh c) (bytes_acked c) (recovery_seq c)
  else
    let a := bytes_acked c ⊕ newly_acked_bytes in
    if window c <=? a then mkCC (window c ⊕ 1232) (ssthresh c) (a ⊖ window c) (recovery_seq c)
    else mkCC (window c) (ssthresh c) a (recovery_seq c).

Definition halve_window (c : CongestionControl) : CongestionControl :=
  let s := Z.max (window c / 2) MIN_WINDOW in
  mkCC s s 0 (recovery_seq c).

Definition on_loss (c : CongestionControl) (loss_seq largest_sent : Z) : bool * CongestionControl :=
  if match recovery_seq c with Some recovery => loss_seq <=? recovery | None => false end then
    (false, c)
  else
    let c := mkCC (window c) (ssthresh c) (bytes_acked c) (Some largest_sent) in
    (true, halve_window c).

(** ** Invariant *)

Definition wf (c : CongestionControl) : Prop :=
  MIN_WINDOW <= window c /\ MIN_WINDOW <= ssthresh c /\ 0 <= bytes_acked c.

Lemma new_wf : wf new.
Proof. done. Qed.

Lemma halve_wf c : wf (halve_window c).
Proof. unfold wf, halve_window. cbn. unfold MIN_WINDOW. lia. Qed.

Lemma on_loss_wf c l g : wf c -> wf (on_loss c l g).2.
Proof.
  intros H. unfold on_loss. destruct (match recovery_seq c with Some _ => _ | None => _ end); [done|].
  apply halve_wf.
Qed.

Lemma on_ack_wf c n :
  wf c -> 0 <= n -> window c + bytes_acked c + n + 1232 <= U64_MAX -> wf (on_ack c n).
Proof.
  intros (Hw & Hs & Ha) Hn Hb. unfold on_ack. unfold wf, MIN_WINDOW in *.
  rewrite (wadd64_small (window c) n), (wadd64_small (bytes_acked c) n),
    (wadd64_small (window c) 1232) by width.
  destruct (in_slow_start c); [zcase; cbn; lia|]. zcase; cbn; [|lia].
  rewrite wsub64_small by width. lia.
Qed.

(** Whether a loss starts a new recovery epoch. *)
Definition fresh (c : CongestionControl) (l : Z) : bool :=
  match recovery_seq c with Some r => negb (l <=? r) | None => true end.

Definition on_losses (c : CongestionControl) (ls : list Z) (largest : Z) : CongestionControl :=
  foldl (fun c l => (on_loss c l largest).2) c ls.

Lemma on_loss_eq c l g :
  on_loss c l g =
  if fresh c l then (true, halve_window (mkCC (window c) (ssthresh c) (bytes_acked c) (Some g)))
  else (false, c).
Proof. unfold on_loss, fresh. destruct (recovery_seq c) as [r|]; [|done]. by destruct (l <=? r). Qed.

Lemma on_losses_covered c ls g :
  recovery_seq c = Some g -> Forall (fun l => l <= g) ls -> on_losses c ls g = c.
Proof.
  intros Hr. induction 1 as [|l ls Hl _ IH]; [done|]. cbn [on_losses foldl].
  rewrite on_loss_eq. unfold fresh. rewrite Hr. destruct (Z.leb_spec l g); [exact IH|lia].
Qed.

(** A burst of losses halves the congestion window at most once: folding
    [on_loss] over packets that were all in flight reduces the window exactly
    once if some packet was sent after the last reduction, and changes nothing
    otherwise. *)
Theorem loss_burst_halves_once c ls largest :
  Forall (fun l => l <= largest) ls ->
  on_losses c ls largest =
  if existsb (fresh c) ls
  then halve_window (mkCC (window c) (ssthresh c) (bytes_acked c) (Some largest)) else c.
Proof.
  induction 1 as [|l ls Hl Hls IH]; [done|]. cbn [on_losses foldl existsb]. rewrite on_loss_eq.
  destruct (fresh c l); [|exact IH]. cbn [snd orb]. by apply on_losses_covered.
Qed.

Lemma loss_burst_halves_once_witness :
  Forall (fun l => l <= 9) [3; 4; 7] /\
  on_losses new [3; 4; 7] 9 = halve_window (mkCC 12320 U64_MAX 0 (Some 9)).
Proof.
  assert (H : Forall (fun l => l <= 9) [3; 4; 7]) by (repeat constructor; lia).
  split; [exact H|]. exact (loss_burst_halves_once new [3; 4; 7] 9 H).
Defined.

(** The congestion window never falls below two MTUs: no acknowledgment
    and no loss takes it there, as long as the byte counters stay within 64
    bits. *)
Theorem window_floor c n l largest :
  wf c -> 0 <= n -> window c + bytes_acked c + n + 1232 <= U64_MAX ->
  MIN_WINDOW <= window (on_ack c n) /\ MIN_WINDOW <= window (on_loss c l largest).2 /\
  wf (on_ack c n) /\ wf (on_loss c l largest).2.
Proof.
  intros Hw Hn Hb. pose proof (on_ack_wf c n Hw Hn Hb) as Ha. pose proof (on_loss_wf c l largest Hw) as Hl.
  split_and!; [apply Ha|apply Hl|exact Ha|exact Hl].
Qed.

Lemma window_floor_witness :
  wf new /\ MIN_WINDOW <= window (on_ack new 1000) /\ MIN_WINDOW <= window (on_loss new 5 7).2.
Proof.
  split; [done|].
  pose proof (window_floor new 1000 5 7 new_wf ltac:(lia) ltac:(vm_compute; congruence)) as H.
  split; apply H.
Defined.

(** Growth per acknowledgment: in slow start the window grows by exactly
    the bytes acknowledged; in congestion avoidance by one MTU once a window's
    worth has been acknowledged (the surplus carries over), and not before. *)
Theorem on_ack_growth c n :
  wf c -> 0 <= n -> window c + bytes_acked c + n + 1232 <= U64_MAX ->
  let c' := on_ack c n in
  ssthresh c' = ssthresh c /\ recovery_seq c' = recovery_seq c /\
  if in_slow_start c then window c' = window c + n
  else if window c <=? bytes_acked c + n
  then window c' = window c + 1232 /\ bytes_acked c' = bytes_acked c + n - window c
  else window c' = window c /\ bytes_acked c' = bytes_acked c + n.
Proof.
  intros (Hw & Hs & Ha) Hn Hb. unfold MIN_WINDOW in *. unfold on_ack. cbv zeta.
  rewrite (wadd64_small (window c) n), (wadd64_small (bytes_acked c) n),
    (wadd64_small (window c) 1232) by width.
  destruct (in_slow_start c); [zcase; cbn; auto|]. zcase; cbn; auto.
  rewrite wsub64_small by width. auto.
Qed.

Lemma on_ack_growth_witness :
  let c' := on_ack new 1000 in
  ssthresh c' = U64_MAX /\ recovery_seq c' = None /\ window c' = 13320.
Proof. exact (on_ack_growth new 1000 new_wf ltac:(lia) ltac:(vm_compute; congruence)). Defined.

End Congestion.
