(* ===== verification/SendWindow.v ===== *)
(** The sender window
    (src/crates/ironrdp-rdpeudp/src/send_window.rs): the packets in flight,
    with the payload each one would need for a retransmission. *)

From S2P Require Import Prelude Seq.

Module SendWindow.

Inductive SendEntryState := Pending | Received.

#[export] Instance SendEntryState_eq_dec : EqDecision SendEntryState.
Proof. solve_decision. Defined.

Record SendEntry := mkEntry {
  data_seq : Z;
  channel_seq : Z;
  sent_at : Z;
  size : Z;
  state : SendEntryState;
  transmit_count : Z;
}.

Record LostPacketInfo := mkLost { l_channel_seq : Z; l_data : list Z; l_size : Z }.

Record t := mk {
  entries : list SendEntry;
  data_store : list (Z * list Z);
  next_data_seq : Z;
  next_channel_seq : Z;
  bytes_in_flight : Z;
  max_entries : Z;
}.

Definition is_pending (e : SendEntry) : bool := bool_decide (state e = Pending).

(** [1usize << n] with the shift amount masked to the width. *)
Definition usize_shl1 (n : Z) : Z := Z.shiftl 1 (n mod 64).

Definition new (initial_data_seq initial_channel_seq log_window_size : Z) : t :=
  mk [] [] initial_data_seq initial_channel_seq 0 (usize_shl1 log_window_size).

Definition set_peer_window (w : t) (log_window_size : Z) : t :=
  mk (entries w) (data_store w) (next_data_seq w) (next_channel_seq w) (bytes_in_flight w)
    (usize_shl1 (Z.min log_window_size 15)).

Definition has_capacity (w : t) : bool := llen (entries w) <? max_entries w.

Definition push (w : t) (data : list Z) (now : Z) : option (Z * Z) * t :=
  if negb (has_capacity w) then (None, w)
  else
    let data_seq := next_data_seq w in
    let channel_seq := next_channel_seq w in
    let size := llen data in
    (Some (data_seq, channel_seq),
     mk (entries w ++ [mkEntry data_seq channel_seq now size Pending 1])
        (data_store w ++ [(data_seq, data)])
        (next_data_seq w ⊕ 1)
        (Seq.next_channel_seq (next_channel_seq w))
        (bytes_in_flight w ⊕ size)
        (max_entries w)).

Definition push_retransmit (w : t) (channel_seq : Z) (data : list Z) (now : Z) : option Z * t :=
  if negb (has_capacity w) then (None, w)
  else
    let data_seq := next_data_seq w in
    let size := llen data in
    (Some data_seq,
     mk (entries w ++ [mkEntry data_seq channel_seq now size Pending 2])
        (data_store w ++ [(data_seq, data)])
        (next_data_seq w ⊕ 1)
        (next_channel_seq w)
        (bytes_in_flight w ⊕ size)
        (max_entries w)).

(** [data_store.retain(|(seq, _)| *seq != data_seq)] *)
Definition retain_ne (s : Z) (store : list (Z * list Z)) : list (Z * list Z) :=
  filter (fun p => p.1 <> s) store.

(** The loop of [advance_window]: it pops the front, so it is structural. *)
Fixpoint advance (es : list SendEntry) (store : list (Z * list Z))
    : list SendEntry * list (Z * list Z) :=
  match es with
  | [] => ([], store)
  | front :: es' =>
      if is_pending front then (es, store) else advance es' (retain_ne (data_seq front) store)
  end.

Definition advance_window (w : t) : t :=
  let '(es, store) := advance (entries w) (data_store w) in
  mk es store (next_data_seq w) (next_channel_seq w) (bytes_in_flight w) (max_entries w).

Definition set_received (e : SendEntry) : SendEntry :=
  mkEntry (data_seq e) (channel_seq e) (sent_at e) (size e) Received (transmit_count e).

(** [iter_mut().find(|e| e.data_seq == s)]: the entry and its position. *)
Definition find_seq (s : Z) (es : list SendEntry) : option (nat * SendEntry) :=
  list_find (fun e => data_seq e = s) es.

Definition mark_received (w : t) (s : Z) : option Z * t :=
  match find_seq s (entries w) with
  | None => (None, w)
  | Some (i, e) =>
      if negb (is_pending e) then (None, w)
      else
        (Some (size e),
         advance_window
           (mk (<[i := set_received e]> (entries w)) (retain_ne s (data_store w))
              (next_data_seq w) (next_channel_seq w) (bytes_in_flight w ⊖ size e) (max_entries w)))
  end.

(** The loop of [mark_received_through]; each round removes the front entry,
    so as many rounds as there are entries are enough
    ([mark_received_through_fuel]). *)
Fixpoint mark_received_through_loop (fuel : nat) (w : t) (s bytes : Z) : Z * t :=
  match fuel with
  | O => (bytes, w)
  | S fuel' =>
      match entries w with
      | [] => (bytes, w)
      | front :: _ =>
          if s <? data_seq front then (bytes, w)
          else
            match mark_received w (data_seq front) with
            | (None, w') => (bytes, w')
            | (Some size, w') => mark_received_through_loop fuel' w' s (bytes ⊕ size)
            end
      end
  end.

Definition mark_received_through (w : t) (s : Z) : Z * t :=
  mark_received_through_loop (length (entries w)) w s 0.

(** [VecDeque::remove(i)] *)
Definition remove_at {A} (i : nat) (l : list A) : list A := delete i l.

Definition mark_lost (w : t) (s : Z) : option LostPacketInfo * t :=
  match find_seq s (entries w) with
  | None => (None, w)
  | Some (i, e) =>
      if negb (is_pending e) then (None, w)
      else
        let '(data, store) :=
          match list_find (fun p => p.1 = s) (data_store w) with
          | Some (j, p) => (p.2, remove_at j (data_store w))
          | None => ([], data_store w)
          end in
        (Some (mkLost (channel_seq e) data (size e)),
         advance_window
           (mk (remove_at i (entries w)) store (next_data_seq w) (next_channel_seq w)
              (bytes_in_flight w ⊖ size e) (max_entries w)))
  end.

Definition get_by_data_seq (w : t) (s : Z) : option SendEntry := snd <$> find_seq s (entries w).

Definition pending_entries (w : t) : list SendEntry := filter (fun e => state e = Pending) (entries w).

Definition lowest_unacknowledged (w : t) : Z :=
  match entries w with [] => next_data_seq w | e :: _ => data_seq e end.

(** [Iterator::max] *)
Definition max_opt (l : list Z) : option Z :=
  match l with [] => None | x :: l' => Some (foldl Z.max x l') end.

Definition highest_acked_data_seq (w : t) : option Z :=
  max_opt (data_seq <$> filter (fun e => state e = Received) (entries w)).

(** ** Invariant *)

Definition sum_size (es : list SendEntry) : Z := foldr (fun e n => size e + n) 0 es.

(** The stored payload belongs to the entry. *)
Definition stored (e : SendEntry) (p : Z * list Z) : Prop := p.1 = data_seq e /\ llen p.2 = size e.

Record inv (w : t) : Prop := {
  inv_sorted : StronglySorted Z.lt (data_seq <$> entries w);
  inv_below : Forall (fun e => 0 <= data_seq e < next_data_seq w) (entries w);
  inv_next : is_u64 (next_data_seq w);
  inv_front : match entries w with e :: _ => state e = Pending | [] => True end;
  inv_bytes : bytes_in_flight w = sum_size (pending_entries w);
  inv_bytes_u64 : is_u64 (bytes_in_flight w);
  inv_store : Forall2 stored (pending_entries w) (data_store w);
}.

(** ** The abstract window

    What the window promises: the packets in flight, oldest first, each with
    its two sequence numbers and its payload. *)

Record Flight := mkFlight { f_seq : Z; f_chan : Z; f_data : list Z }.

Definition flight_of (e : SendEntry) (p : Z * list Z) : Flight :=
  mkFlight (data_seq e) (channel_seq e) p.2.

Definition abs (w : t) : list Flight := zip_with flight_of (pending_entries w) (data_store w).

Definition flight_bytes (fs : list Flight) : Z := foldr (fun f n => llen (f_data f) + n) 0 fs.

(** *** Lists of entries *)

Abbreviation pend := (filter (fun e => state e = Pending)).

Fixpoint drop_received (es : list SendEntry) : list SendEntry :=
  match es with
  | [] => []
  | e :: es' => if is_pending e then es else drop_received es'
  end.

Lemma is_pending_true e : is_pending e = true <-> state e = Pending.
Proof. apply bool_decide_eq_true. Qed.

Lemma is_pending_false e : is_pending e = false -> state e = Received.
Proof. intros H%bool_decide_eq_false. by destruct (state e). Qed.

Lemma pend_drop_received es : pend (drop_received es) = pend es.
Proof.
  induction es as [|e es IH]; [done|]. cbn [drop_received]. destruct (is_pending e) eqn:E; [done|].
  apply is_pending_false in E. rewrite filter_cons_False by congruence. done.
Qed.

Lemma drop_received_front es :
  match drop_received es with e :: _ => state e = Pending | [] => True end.
Proof.
  induction es as [|e es IH]; [done|]. cbn [drop_received]. destruct (is_pending e) eqn:E; [|done].
  by apply is_pending_true.
Qed.

Lemma drop_received_suffix es : drop_received es `suffix_of` es.
Proof.
  induction es as [|e es IH]; [done|]. cbn [drop_received]. destruct (is_pending e); [done|].
  by apply suffix_cons_r.
Qed.

Lemma drop_received_pending e es : state e = Pending -> drop_received (e :: es) = e :: es.
Proof. intros H. cbn [drop_received]. by rewrite (proj2 (is_pending_true e) H). Qed.

Lemma drop_received_filter (P : SendEntry -> Prop) `{!forall e, Decision (P e)} es :
  drop_received (filter P (drop_received es)) = drop_received (filter P es).
Proof.
  induction es as [|e es IH]; [done|]. cbn [drop_received]. destruct (is_pending e) eqn:E; [done|].
  rewrite IH. rewrite (filter_cons _ e). case_decide; [|done]. cbn [drop_received]. by rewrite E.
Qed.

Lemma sum_size_app l1 l2 : sum_size (l1 ++ l2) = sum_size l1 + sum_size l2.
Proof.
  induction l1 as [|e l1 IH]; [done|].
  change (size e + sum_size (l1 ++ l2) = size e + sum_size l1 + sum_size l2). lia.
Qed.

Lemma sorted_suffix (l k : list SendEntry) :
  l `suffix_of` k -> StronglySorted Z.lt (data_seq <$> k) -> StronglySorted Z.lt (data_seq <$> l).
Proof. intros [j ->]. rewrite fmap_app. apply StronglySorted_app_1_r. Qed.

Lemma sorted_middle l1 e l2 :
  StronglySorted Z.lt (data_seq <$> l1 ++ e :: l2) ->
  StronglySorted Z.lt (data_seq <$> l1 ++ l2) /\
  Forall (fun x => data_seq x < data_seq e) l1 /\ Forall (fun x => data_seq e < data_seq x) l2.
Proof.
  induction l1 as [|x l1 IH]; cbn.
  - intros H. apply StronglySorted_inv in H as [H1 H2]. rewrite Forall_fmap in H2. split_and!; [done|by apply Forall_nil|done].
  - intros H. apply StronglySorted_inv in H as [H1 H2]. destruct (IH H1) as (H3 & H4 & H5).
    rewrite Forall_fmap in H2. apply Forall_app in H2 as [H2 H6]. apply Forall_cons in H6 as [H6 H7].
    split_and!; [|by constructor|done]. constructor; [done|]. apply Forall_fmap, Forall_app. done.
Qed.

(** Finding an entry splits the list at it. *)
Lemma find_seq_split s es i e :
  find_seq s es = Some (i, e) ->
  exists l1 l2, es = l1 ++ e :: l2 /\ data_seq e = s /\
    (forall y, <[i := y]> es = l1 ++ y :: l2) /\ delete i es = l1 ++ l2.
Proof.
  intros (Hi & Hs & _)%list_find_Some. exists (take i es), (drop (S i) es).
  assert (i < length es)%nat by (by apply lookup_lt_Some in Hi).
  split_and!; [by rewrite take_drop_middle|done| |apply delete_take_drop].
  intros y. by apply insert_take_drop.
Qed.

Lemma find_seq_None s es : find_seq s es = None -> Forall (fun e => data_seq e <> s) es.
Proof. apply list_find_None. Qed.

(** *** The payload store *)

Lemma store_keys es store : Forall2 stored es store -> store.*1 = data_seq <$> es.
Proof. induction 1 as [|e p es store [He _] _ IH]; [done|]. cbn. by rewrite He, IH. Qed.

Lemma retain_ne_absent s store : s ∉ store.*1 -> retain_ne s store = store.
Proof.
  intros H. apply filter_all. apply Forall_forall. intros p Hp E. apply H.
  apply list_elem_of_fmap. by exists p.
Qed.

Lemma store_split l1 e l2 store s :
  Forall2 stored (l1 ++ e :: l2) store -> data_seq e = s ->
  Forall (fun x => data_seq x < s) l1 -> Forall (fun x => s < data_seq x) l2 ->
  exists s1 d s2, store = s1 ++ (s, d) :: s2 /\ llen d = size e /\
    Forall2 stored l1 s1 /\ Forall2 stored l2 s2 /\ Forall2 stored (l1 ++ l2) (s1 ++ s2) /\
    retain_ne s store = s1 ++ s2 /\
    list_find (fun p => p.1 = s) store = Some (length s1, (s, d)).
Proof.
  intros H Hs H1 H2. apply Forall2_app_inv_l in H as (s1 & k & Hs1 & Hk & ->).
  apply Forall2_cons_inv_l in Hk as ([s' d] & s2 & [Hd Hl] & Hs2 & ->). cbn in Hd, Hl. subst s'.
  assert (N1 : s ∉ s1.*1).
  { rewrite (store_keys _ _ Hs1). intros (x & -> & Hx)%list_elem_of_fmap.
    rewrite Forall_forall in H1. specialize (H1 x Hx). lia. }
  assert (N2 : s ∉ s2.*1).
  { rewrite (store_keys _ _ Hs2). intros (x & -> & Hx)%list_elem_of_fmap.
    rewrite Forall_forall in H2. specialize (H2 x Hx). lia. }
  rewrite Hs. exists s1, d, s2. split_and!; [done..|by apply Forall2_app| |].
  - unfold retain_ne. rewrite filter_app, filter_cons_False by (cbn; intros []; done).
    f_equal; by apply retain_ne_absent.
  - apply list_find_app_Some. right. split_and!.
    + cbn. lia.
    + apply list_find_None, Forall_forall. intros p Hp E. apply N1, list_elem_of_fmap. by exists p.
    + rewrite Nat.sub_diag. cbn. rewrite decide_True by done. done.
Qed.

(** *** Draining the front *)

Lemma advance_eq es store :
  StronglySorted Z.lt (data_seq <$> es) -> Forall2 stored (pend es) store ->
  advance es store = (drop_received es, store).
Proof.
  revert store. induction es as [|e es IH]; intros store Hs Hf; [done|].
  cbn [advance drop_received]. destruct (is_pending e) eqn:E; [done|].
  apply is_pending_false in E. rewrite filter_cons_False in Hf by congruence.
  cbn in Hs. apply StronglySorted_inv in Hs as [Hs Hlt].
  rewrite retain_ne_absent; [by apply IH|]. rewrite (store_keys _ _ Hf).
  intros (x & Hx & Hin)%list_elem_of_fmap. apply list_elem_of_filter in Hin as [_ Hin].
  rewrite Forall_fmap, Forall_forall in Hlt. specialize (Hlt x Hin). cbn in Hlt. lia.
Qed.

(** The window after its entries were changed and before the front is
    drained. *)
Lemma advance_window_inv w :
  StronglySorted Z.lt (data_seq <$> entries w) ->
  Forall (fun e => 0 <= data_seq e < next_data_seq w) (entries w) ->
  is_u64 (next_data_seq w) ->
  bytes_in_flight w = sum_size (pending_entries w) -> is_u64 (bytes_in_flight w) ->
  Forall2 stored (pending_entries w) (data_store w) ->
  inv (advance_window w) /\
  advance_window w = mk (drop_received (entries w)) (data_store w) (next_data_seq w)
    (next_channel_seq w) (bytes_in_flight w) (max_entries w).
Proof.
  intros Hs Hb Hn Hbi Hu Hst. unfold advance_window. rewrite advance_eq by done.
  split; [|done]. pose proof (drop_received_suffix (entries w)) as Hsuf.
  constructor; cbn; [by eapply sorted_suffix| |done|apply drop_received_front| |done|];
    unfold pending_entries; cbn; rewrite ?pend_drop_received; [|done..].
  destruct Hsuf as [k Hk]. rewrite Hk in Hb. by apply Forall_app in Hb as [_ ?].
Qed.

(** *** Operations *)

Lemma sw_new_inv d c l : is_u64 d -> inv (new d c l).
Proof. intros Hd. constructor; cbn; try done; constructor. Qed.

Lemma pend_app_cons l1 e l2 : state e = Pending -> pend (l1 ++ e :: l2) = pend l1 ++ e :: pend l2.
Proof. intros H. by rewrite filter_app, filter_cons_True. Qed.

Lemma length_abs w : inv w -> length (abs w) = length (pending_entries w).
Proof. intros Hw. apply length_zip_with_l_eq. by eapply Forall2_length, inv_store. Qed.

Lemma abs_seqs w : inv w -> f_seq <$> abs w = data_seq <$> pending_entries w.
Proof.
  intros Hw. unfold abs. pose proof (inv_store w Hw) as H.
  induction H as [|e p es ps _ _ IH]; [done|]. cbn. by f_equal.
Qed.

Lemma abs_bytes w : inv w -> flight_bytes (abs w) = bytes_in_flight w.
Proof.
  intros Hw. rewrite (inv_bytes w Hw). unfold abs. pose proof (inv_store w Hw) as H.
  induction H as [|e p es ps [_ Hl] _ IH]; [done|].
  change (llen p.2 + flight_bytes (zip_with flight_of es ps) = size e + sum_size es). lia.
Qed.

Lemma sum_size_nonneg w : inv w -> Forall (fun e => 0 <= size e) (pending_entries w).
Proof.
  intros Hw. pose proof (inv_store w Hw) as H. induction H as [|e p es ps [_ Hl] _ IH]; constructor; [|done].
  rewrite <- Hl. apply llen_nonneg.
Qed.

Lemma sum_size_ge0 es : Forall (fun e => 0 <= size e) es -> 0 <= sum_size es.
Proof. induction 1 as [|e es He _ IH]; [done|]. change (0 <= size e + sum_size es). lia. Qed.

(** Adding a packet at the end: the common part of [push] and
    [push_retransmit]. *)
Lemma append_inv w e data c :
  inv w -> next_data_seq w + 1 < 2 ^ 64 -> bytes_in_flight w + llen data < 2 ^ 64 ->
  data_seq e = next_data_seq w -> state e = Pending -> size e = llen data ->
  let w' := mk (entries w ++ [e]) (data_store w ++ [(next_data_seq w, data)])
              (next_data_seq w ⊕ 1) c (bytes_in_flight w ⊕ llen data) (max_entries w) in
  inv w' /\ abs w' = abs w ++ [mkFlight (next_data_seq w) (channel_seq e) data].
Proof.
  intros Hw Hn Hb Hd Hs Hsz w'. pose proof (llen_nonneg data). destruct (inv_next w Hw).
  pose proof (inv_bytes_u64 w Hw) as Hbu.
  assert (Hp : pending_entries w' = pending_entries w ++ [e]).
  { unfold pending_entries, w'. cbn [entries]. by rewrite filter_app, filter_cons_True. }
  split.
  - constructor; rewrite ?Hp; unfold w'; cbn [entries data_store next_data_seq bytes_in_flight].
    + rewrite fmap_app. apply StronglySorted_app_2; [|apply Hw|by repeat constructor].
      intros x y (e1 & -> & He1)%list_elem_of_fmap Hy. cbn in Hy. apply list_elem_of_singleton in Hy as ->.
      pose proof (inv_below w Hw) as HB. rewrite Forall_forall in HB. specialize (HB _ He1). lia.
    + rewrite wadd64_small by width. apply Forall_app. split.
      * eapply Forall_impl; [apply (inv_below w Hw)|]. cbn. lia.
      * constructor; [lia|constructor].
    + rewrite wadd64_small; width.
    + pose proof (inv_front w Hw). destruct (entries w); done.
    + rewrite wadd64_small by width. rewrite sum_size_app, <- (inv_bytes w Hw). cbn. lia.
    + rewrite wadd64_small; width.
    + apply Forall2_app; [apply Hw|]. constructor; [|constructor]. split; cbn; congruence.
  - unfold abs. rewrite Hp. unfold w'. cbn [data_store]. rewrite zip_with_app.
    + unfold flight_of at 2. cbn. by rewrite Hd.
    + by eapply Forall2_length, inv_store.
Qed.

(** Removing one pending packet from the middle: the common part of
    [mark_received] and [mark_lost]. *)
Lemma remove_inv w l1 e l2 es' :
  inv w -> entries w = l1 ++ e :: l2 -> state e = Pending ->
  StronglySorted Z.lt (data_seq <$> es') ->
  Forall (fun e => 0 <= data_seq e < next_data_seq w) es' -> pend es' = pend l1 ++ pend l2 ->
  let w' := advance_window (mk es' (retain_ne (data_seq e) (data_store w)) (next_data_seq w)
    (next_channel_seq w) (bytes_in_flight w ⊖ size e) (max_entries w)) in
  inv w' /\ entries w' = drop_received es' /\
  abs w' = filter (fun f => f_seq f <> data_seq e) (abs w) /\
  bytes_in_flight w' = bytes_in_flight w - size e /\
  next_data_seq w' = next_data_seq w /\ next_channel_seq w' = next_channel_seq w /\
  max_entries w' = max_entries w /\
  exists d, llen d = size e /\
    list_find (fun p => p.1 = data_seq e) (data_store w) =
      Some (length (pend l1), (data_seq e, d)) /\
    retain_ne (data_seq e) (data_store w) = delete (length (pend l1)) (data_store w) /\
    mkFlight (data_seq e) (channel_seq e) d ∈ abs w.
Proof.
  intros Hw He Hp Hs Hb Hpend.
  pose proof (inv_sorted w Hw) as Hsort. rewrite He in Hsort.
  apply sorted_middle in Hsort as (_ & Hl1 & Hl2).
  pose proof (inv_store w Hw) as Hst. unfold pending_entries in Hst. rewrite He, pend_app_cons in Hst by done.
  assert (Forall (fun x => data_seq x < data_seq e) (pend l1)) as Hp1.
  { apply Forall_forall. intros x [_ Hx]%list_elem_of_filter. rewrite Forall_forall in Hl1. auto. }
  assert (Forall (fun x => data_seq e < data_seq x) (pend l2)) as Hp2.
  { apply Forall_forall. intros x [_ Hx]%list_elem_of_filter. rewrite Forall_forall in Hl2. auto. }
  destruct (store_split _ _ _ _ _ Hst eq_refl Hp1 Hp2) as (s1 & d & s2 & Hstore & Hd & Hs1 & Hs2 & H12 & Hret & Hfind).
  pose proof (inv_bytes w Hw) as Hby. unfold pending_entries in Hby. rewrite He, pend_app_cons, sum_size_app in Hby by done.
  change (sum_size (e :: pend l2)) with (size e + sum_size (pend l2)) in Hby.
  pose proof (sum_size_nonneg w Hw) as Hnn. unfold pending_entries in Hnn. rewrite He, pend_app_cons in Hnn by done.
  apply Forall_app in Hnn as [Hn1%sum_size_ge0 [Hne Hn2%sum_size_ge0]%Forall_cons].
  pose proof (inv_bytes_u64 w Hw) as Hbu.
  assert (bytes_in_flight w ⊖ size e = bytes_in_flight w - size e) as Hsub by (apply wsub64_small; width).
  destruct (advance_window_inv (mk es' (retain_ne (data_seq e) (data_store w)) (next_data_seq w)
    (next_channel_seq w) (bytes_in_flight w ⊖ size e) (max_entries w))) as [Hinv Heq]; cbn.
  { done. } { done. } { apply Hw. }
  { unfold pending_entries. cbn. rewrite Hpend, sum_size_app, Hsub. lia. }
  { rewrite Hsub. width. }
  { unfold pending_entries. cbn. by rewrite Hpend, Hret. }
  assert (Habs : abs w = zip_with flight_of (pend l1) s1 ++ mkFlight (data_seq e) (channel_seq e) d ::
    zip_with flight_of (pend l2) s2).
  { unfold abs, pending_entries. rewrite He, pend_app_cons, Hstore by done.
    rewrite zip_with_app by (by eapply Forall2_length). done. }
  assert (Hne1 : forall l k, Forall2 stored l k -> Forall (fun x => data_seq x <> data_seq e) l ->
    Forall (fun f => f_seq f <> data_seq e) (zip_with flight_of l k)).
  { intros l k H. induction H as [|x y l k _ _ IH]; cbn; [done|]. intros [? ?]%Forall_cons. constructor; [done|auto]. }
  cbv zeta. rewrite Heq in Hinv |- *. cbn [entries bytes_in_flight next_data_seq next_channel_seq max_entries].
  split_and!; [done|done| |done|done|done|done|].
  - unfold abs at 1. unfold pending_entries. cbn [entries data_store]. rewrite pend_drop_received, Hpend, Hret.
    rewrite zip_with_app by (by eapply Forall2_length). rewrite Habs, filter_app, filter_cons_False by (cbn; intros []; done).
    f_equal; symmetry; apply filter_all, Hne1; [done| |done|].
    + eapply Forall_impl; [exact Hp1|]. cbn. lia.
    + eapply Forall_impl; [exact Hp2|]. cbn. lia.
  - exists d. rewrite (Forall2_length _ _ _ Hs1). split_and!; [done|done| |].
    + rewrite Hret, Hstore. rewrite delete_middle. done.
    + rewrite Habs. set_solver.
Qed.

Lemma pending_absent w s :
  inv w -> (forall e, e ∈ pending_entries w -> data_seq e <> s) ->
  Forall (fun f => f_seq f <> s) (abs w).
Proof.
  intros Hw H. apply Forall_forall. intros f Hf.
  assert (Hs : f_seq f ∈ f_seq <$> abs w) by (apply list_elem_of_fmap; eauto).
  rewrite abs_seqs in Hs by done. apply list_elem_of_fmap in Hs as (e & -> & He). auto.
Qed.

(** An entry that is not pending is not in flight. *)
Lemma find_not_pending w s :
  inv w ->
  match find_seq s (entries w) with Some (_, e) => is_pending e = false | None => True end ->
  Forall (fun f => f_seq f <> s) (abs w).
Proof.
  intros Hw H. apply pending_absent; [done|]. intros e [Hp He]%list_elem_of_filter Hs.
  destruct (find_seq s (entries w)) as [[i e']|] eqn:E.
  - apply find_seq_split in E as (l1 & l2 & Heq & Hs' & _). pose proof (inv_sorted w Hw) as Hso.
    rewrite Heq in Hso, He. apply sorted_middle in Hso as (_ & H1 & H2).
    rewrite Forall_forall in H1, H2. apply elem_of_app in He as [He|He]; [specialize (H1 e He); lia|].
    apply elem_of_cons in He as [->|He]; [|specialize (H2 e He); lia].
    apply is_pending_true in Hp. congruence.
  - apply find_seq_None in E. rewrite Forall_forall in E. by apply (E e).
Qed.

Lemma set_received_seqs l1 e l2 :
  data_seq <$> l1 ++ set_received e :: l2 = data_seq <$> l1 ++ e :: l2.
Proof. by rewrite !fmap_app. Qed.

Lemma mark_received_spec w s :
  inv w ->
  let '(r, w') := mark_received w s in
  inv w' /\ abs w' = filter (fun f => f_seq f <> s) (abs w) /\
  next_data_seq w' = next_data_seq w /\ next_channel_seq w' = next_channel_seq w /\
  max_entries w' = max_entries w /\
  match r with
  | Some n => (exists f, f ∈ abs w /\ f_seq f = s /\ n = llen (f_data f)) /\
      bytes_in_flight w' = bytes_in_flight w - n /\
      exists i l1 e l2, find_seq s (entries w) = Some (i, e) /\ entries w = l1 ++ e :: l2 /\
        entries w' = drop_received (l1 ++ set_received e :: l2) /\ n = size e
  | None => w' = w /\ Forall (fun f => f_seq f <> s) (abs w)
  end.
Proof.
  intros Hw. pose proof (find_not_pending w s Hw) as Hnp. unfold mark_received.
  assert (Hskip : Forall (fun f => f_seq f <> s) (abs w) ->
    inv w /\ abs w = filter (fun f => f_seq f <> s) (abs w) /\
    next_data_seq w = next_data_seq w /\ next_channel_seq w = next_channel_seq w /\
    max_entries w = max_entries w /\ w = w /\ Forall (fun f => f_seq f <> s) (abs w)).
  { intros H. split_and!; try done. by rewrite filter_all. }
  destruct (find_seq s (entries w)) as [[i e]|] eqn:E; [|by apply Hskip, Hnp].
  destruct (is_pending e) eqn:Hp; cbn [negb]; [|by apply Hskip, Hnp].
  apply is_pending_true in Hp. apply find_seq_split in E as (l1 & l2 & Heq & Hs & Hins & _).
  assert (Hb : Forall (fun x => 0 <= data_seq x < next_data_seq w) (l1 ++ set_received e :: l2)).
  { pose proof (inv_below w Hw) as HB. rewrite Heq in HB.
    apply Forall_app in HB as [? [? ?]%Forall_cons]. apply Forall_app. split; [done|by constructor]. }
  destruct (remove_inv w l1 e l2 (l1 ++ set_received e :: l2) Hw Heq Hp)
    as (Hinv & Hent & Habs & Hby & Hn & Hc & Hm & d & Hd & _ & _ & Hin).
  { rewrite set_received_seqs, <- Heq. apply Hw. } { done. }
  { rewrite filter_app, filter_cons_False by done. done. }
  rewrite Hins. subst s. split_and!; try done.
  - exists (mkFlight (data_seq e) (channel_seq e) d). by split_and!.
  - by exists i, l1, e, l2.
Qed.

Lemma mark_lost_spec w s :
  inv w ->
  let '(r, w') := mark_lost w s in
  inv w' /\ abs w' = filter (fun f => f_seq f <> s) (abs w) /\
  next_data_seq w' = next_data_seq w /\ next_channel_seq w' = next_channel_seq w /\
  max_entries w' = max_entries w /\
  match r with
  | Some info => mkFlight s (l_channel_seq info) (l_data info) ∈ abs w /\
      l_size info = llen (l_data info) /\ bytes_in_flight w' = bytes_in_flight w - l_size info
  | None => w' = w /\ Forall (fun f => f_seq f <> s) (abs w)
  end.
Proof.
  intros Hw. pose proof (find_not_pending w s Hw) as Hnp. unfold mark_lost.
  assert (Hskip : Forall (fun f => f_seq f <> s) (abs w) ->
    inv w /\ abs w = filter (fun f => f_seq f <> s) (abs w) /\
    next_data_seq w = next_data_seq w /\ next_channel_seq w = next_channel_seq w /\
    max_entries w = max_entries w /\ w = w /\ Forall (fun f => f_seq f <> s) (abs w)).
  { intros H. split_and!; try done. by rewrite filter_all. }
  destruct (find_seq s (entries w)) as [[i e]|] eqn:E; [|by apply Hskip, Hnp].
  destruct (is_pending e) eqn:Hp; cbn [negb]; [|by apply Hskip, Hnp].
  apply is_pending_true in Hp. apply find_seq_split in E as (l1 & l2 & Heq & Hs & _ & Hdel).
  assert (Hb : Forall (fun x => 0 <= data_seq x < next_data_seq w) (l1 ++ l2)).
  { pose proof (inv_below w Hw) as HB. rewrite Heq in HB.
    apply Forall_app in HB as [? [? ?]%Forall_cons]. by apply Forall_app. }
  pose proof (inv_sorted w Hw) as Hso. rewrite Heq in Hso. apply sorted_middle in Hso as (Hso & _).
  destruct (remove_inv w l1 e l2 (l1 ++ l2) Hw Heq Hp Hso Hb (filter_app _ _ _))
    as (Hinv & Hent & Habs & Hby & Hn & Hc & Hm & d & Hd & Hfind & Hret & Hin).
  subst s. rewrite Hfind. cbn [snd]. unfold remove_at. rewrite Hdel, <- Hret.
  by split_and!.
Qed.

(** *** The cumulative acknowledgment *)

Lemma abs_above w s e es :
  inv w -> entries w = e :: es -> s < data_seq e ->
  Forall (fun f => s < f_seq f) (abs w) /\ Forall (fun x => s < data_seq x) (entries w).
Proof.
  intros Hw He Hs. pose proof (inv_sorted w Hw) as Hso. rewrite He in Hso. cbn in Hso.
  apply StronglySorted_inv in Hso as [_ Hlt]. rewrite Forall_fmap in Hlt.
  assert (Ha : Forall (fun x => s < data_seq x) (entries w)).
  { rewrite He. constructor; [done|]. eapply Forall_impl; [exact Hlt|]. cbn. lia. }
  split; [|done]. apply Forall_forall. intros f Hf.
  assert (Hq : f_seq f ∈ f_seq <$> abs w) by (apply list_elem_of_fmap; eauto).
  rewrite abs_seqs in Hq by done. apply list_elem_of_fmap in Hq as (x & -> & Hx).
  apply list_elem_of_filter in Hx as [_ Hx]. rewrite Forall_forall in Ha. auto.
Qed.

Lemma filter_gt_ne s q (fs : list Flight) :
  q <= s -> filter (fun f => s < f_seq f) (filter (fun f => f_seq f <> q) fs) =
  filter (fun f => s < f_seq f) fs.
Proof. intros H. apply list_filter_filter_l. intros f Hf. lia. Qed.

Lemma drop_received_length es : (length (drop_received es) <= length es)%nat.
Proof. apply suffix_length, drop_received_suffix. Qed.

(** The front of the window is pending, so acknowledging it always succeeds
    and takes it, and the resolved packets behind it, off the window. *)
Lemma mark_received_front w e es :
  inv w -> entries w = e :: es ->
  exists w', mark_received w (data_seq e) = (Some (size e), w') /\ inv w' /\
    entries w' = drop_received es /\ abs w' = filter (fun f => f_seq f <> data_seq e) (abs w) /\
    0 <= size e /\ bytes_in_flight w' = bytes_in_flight w - size e /\
    next_data_seq w' = next_data_seq w /\ next_channel_seq w' = next_channel_seq w /\
    max_entries w' = max_entries w.
Proof.
  intros Hw He. pose proof (inv_front w Hw) as Hfr. rewrite He in Hfr.
  assert (Hfind : find_seq (data_seq e) (entries w) = Some (0%nat, e)).
  { unfold find_seq. rewrite He. cbn. by rewrite decide_True. }
  pose proof (mark_received_spec w (data_seq e) Hw) as Hm.
  destruct (mark_received w (data_seq e)) as [[n|] w1] eqn:E.
  2: { exfalso. unfold mark_received in E. rewrite Hfind in E.
       by rewrite (proj2 (is_pending_true e) Hfr) in E. }
  destruct Hm as (Hinv & Habs & Hn & Hc & Hmx & (f & _ & _ & Hnf) & Hby &
    (i & l1 & e' & l2 & Hfi & Hl & Hent & ->)).
  rewrite Hfind in Hfi. injection Hfi as <- <-.
  assert (l1 = []) as ->.
  { destruct l1 as [|x l1]; [done|]. exfalso. rewrite Hl in He. injection He as -> <-.
    pose proof (inv_sorted w Hw) as Hso. rewrite Hl in Hso. apply sorted_middle in Hso as (_ & Hx & _).
    apply Forall_cons in Hx as [Hx _]. lia. }
  cbn [app] in Hl, Hent. rewrite Hl in He. injection He as ->.
  exists w1. pose proof (llen_nonneg (f_data f)). split_and!; try done. lia.
Qed.

Lemma mark_received_through_loop_spec fuel w s b :
  inv w -> (length (entries w) <= fuel)%nat -> 0 <= b -> b + bytes_in_flight w < 2 ^ 64 ->
  let '(bytes, w') := mark_received_through_loop fuel w s b in
  inv w' /\ abs w' = filter (fun f => s < f_seq f) (abs w) /\
  bytes + bytes_in_flight w' = b + bytes_in_flight w /\
  entries w' = drop_received (filter (fun e => s < data_seq e) (entries w)) /\
  next_data_seq w' = next_data_seq w /\ next_channel_seq w' = next_channel_seq w /\
  max_entries w' = max_entries w.
Proof.
  revert w b. induction fuel as [|fuel IH]; intros w b Hw Hf Hb Hsum; cbn [mark_received_through_loop].
  { destruct w as [[|] ? ? ? ? ?]; cbn in Hf; [|lia]. done. }
  destruct (entries w) as [|e es] eqn:He.
  { unfold abs, pending_entries. rewrite He. by split_and!. }
  pose proof (inv_front w Hw) as Hfr. rewrite He in Hfr.
  destruct (Z.ltb_spec s (data_seq e)) as [Hs|Hs].
  { destruct (abs_above w s e es Hw He Hs) as [Ha Hb']. rewrite He in *.
    rewrite !filter_all, drop_received_pending by done. by split_and!. }
  destruct (mark_received_front w e es Hw He) as (w1 & -> & Hinv & Hent & Habs & Hsz & Hby & ? & ? & ?).
  pose proof (inv_bytes_u64 w1 Hinv) as Hu. rewrite wadd64_small by width.
  specialize (IH w1 (b + size e) Hinv).
  destruct (mark_received_through_loop fuel w1 s (b + size e)) as [bytes w'].
  assert (Hlen : (length (entries w1) <= length es)%nat) by (rewrite Hent; apply drop_received_length).
  destruct IH as (Hinv' & Habs' & Hby' & Hent' & ? & ? & ?); [cbn in Hf; lia|lia|lia|].
  split_and!; try congruence; [|lia|].
  - rewrite Habs', Habs. by apply filter_gt_ne.
  - rewrite Hent', Hent. rewrite drop_received_filter. by rewrite filter_cons_False by lia.
Qed.

Lemma mark_received_through_spec w s :
  inv w ->
  let '(bytes, w') := mark_received_through w s in
  inv w' /\ abs w' = filter (fun f => s < f_seq f) (abs w) /\
  bytes + bytes_in_flight w' = bytes_in_flight w /\
  entries w' = drop_received (filter (fun e => s < data_seq e) (entries w)) /\
  next_data_seq w' = next_data_seq w /\ next_channel_seq w' = next_channel_seq w /\
  max_entries w' = max_entries w.
Proof.
  intros Hw. pose proof (inv_bytes_u64 w Hw).
  by apply mark_received_through_loop_spec; [|lia|lia|width].
Qed.

(** More rounds than entries change nothing. *)
Lemma mark_received_through_fuel w s b fuel :
  inv w -> (length (entries w) <= fuel)%nat ->
  mark_received_through_loop fuel w s b = mark_received_through_loop (length (entries w)) w s b.
Proof.
  enough (H : forall n fuel w b, inv w -> (length (entries w) <= n)%nat -> (n <= fuel)%nat ->
    mark_received_through_loop fuel w s b = mark_received_through_loop n w s b) by eauto.
  clear. intros n. induction n as [|n IH]; intros fuel w b Hw Hn Hf.
  { destruct w as [[|] ? ? ? ? ?]; cbn in Hn; [|lia]. by destruct fuel. }
  destruct fuel as [|fuel]; [lia|]. cbn [mark_received_through_loop].
  destruct (entries w) as [|e es] eqn:He; [done|].
  destruct (s <? data_seq e); [done|].
  destruct (mark_received_front w e es Hw He) as (w1 & -> & Hinv & Hent & _).
  apply IH; [done| |lia]. rewrite Hent. pose proof (drop_received_length es). cbn in Hn. lia.
Qed.

(** ** Properties every operation keeps

    A predicate on entries that the received mark does not change, and one on
    the stored payloads, survive the acknowledgments and the losses, which
    only ever shorten the window. *)

Section preserve.
Variables (P : SendEntry -> Prop) (Q : Z * list Z -> Prop).
Hypothesis P_received : forall e, P e -> P (set_received e).

Definition kept (w w' : t) : Prop :=
  Forall P (entries w) -> Forall Q (data_store w) ->
  Forall P (entries w') /\ Forall Q (data_store w') /\
  (length (entries w') <= length (entries w))%nat.

Lemma kept_refl w : kept w w.
Proof. by intros H1 H2. Qed.

Lemma kept_trans w1 w2 w3 : kept w1 w2 -> kept w2 w3 -> kept w1 w3.
Proof. intros H12 H23 H1 H2. destruct (H12 H1 H2) as (H3 & H4 & ?). destruct (H23 H3 H4) as (?&?&?). split_and!; [done..|lia]. Qed.

Lemma advance_kept es store :
  Forall P es -> Forall Q store ->
  Forall P (advance es store).1 /\ Forall Q (advance es store).2 /\
  (length (advance es store).1 <= length es)%nat.
Proof.
  revert store. induction es as [|e es IH]; intros store He Hs; cbn [advance]; [done|].
  destruct (is_pending e); [done|]. apply Forall_cons in He as [_ He].
  destruct (IH (retain_ne (data_seq e) store) He) as (?&?&?); [by apply Forall_filter_keep|].
  split_and!; [done..|cbn; lia].
Qed.

Lemma advance_window_kept w : kept w (advance_window w).
Proof.
  intros H1 H2. unfold advance_window. pose proof (advance_kept _ _ H1 H2) as H.
  by destruct (advance (entries w) (data_store w)).
Qed.

Lemma mark_received_kept w s : kept w (mark_received w s).2.
Proof.
  intros H1 H2. unfold mark_received. destruct (find_seq s (entries w)) as [[i e]|] eqn:E; [|done].
  destruct (negb (is_pending e)); [done|]. cbn [snd].
  apply list_find_Some in E as (Hi & _ & _).
  edestruct advance_window_kept as (?&?&Hl); [..|split_and!; [done|done|]]; cbn [entries data_store].
  - apply Forall_insert; [done|]. apply P_received. by eapply Forall_lookup_1.
  - by apply Forall_filter_keep.
  - cbn [entries] in Hl. by rewrite length_insert in Hl.
Qed.

Lemma mark_lost_kept w s : kept w (mark_lost w s).2.
Proof.
  intros H1 H2. unfold mark_lost. destruct (find_seq s (entries w)) as [[i e]|] eqn:E; [|done].
  destruct (negb (is_pending e)); [done|].
  set (r := match list_find _ (data_store w) with Some (j, p) => _ | None => _ end).
  assert (Hr : Forall Q r.2).
  { unfold r. destruct (list_find _ _) as [[j p]|]; cbn; [by apply Forall_delete|done]. }
  destruct r as [data store]. cbn [snd] in *.
  edestruct advance_window_kept as (?&?&Hl); [..|split_and!; [done|done|]]; cbn [entries data_store].
  - by apply Forall_delete.
  - done.
  - cbn [entries] in Hl. unfold remove_at in Hl. etrans; [exact Hl|].
    apply list_find_Some in E as (Hi%lookup_lt_Some & _). rewrite length_delete by (by apply lookup_lt_is_Some). lia.
Qed.

Lemma mark_received_through_kept w s : kept w (mark_received_through w s).2.
Proof.
  unfold mark_received_through. generalize (length (entries w)). intros fuel. generalize 0.
  revert w. induction fuel as [|fuel IH]; intros w b; cbn [mark_received_through_loop]; [apply kept_refl|].
  destruct (entries w) as [|e es] eqn:He; [apply kept_refl|].
  destruct (s <? data_seq e); [apply kept_refl|].
  pose proof (mark_received_kept w (data_seq e)) as Hk.
  destruct (mark_received w (data_seq e)) as [[n|] w1]; [|exact Hk]. exact (kept_trans _ _ _ Hk (IH _ _)).
Qed.

End preserve.

(** ** Properties *)

(** The window after sending three packets from 7 on. *)
Definition sample : t :=
  (push (push (push (new 7 1 4) [10; 11] 0).2 [20] 5).2 [30; 31; 32] 9).2.

Lemma push_inv w data now :
  inv w -> next_data_seq w + 1 < 2 ^ 64 -> bytes_in_flight w + llen data < 2 ^ 64 ->
  inv (push w data now).2.
Proof.
  intros Hw Hn Hb. unfold push. destruct (has_capacity w); [|done]. cbn [negb snd].
  by apply (append_inv w (mkEntry (next_data_seq w) (next_channel_seq w) now (llen data) Pending 1)).
Qed.

Lemma sample_inv : inv sample.
Proof.
  unfold sample. do 3 (apply push_inv; [|vm_compute; reflexivity|vm_compute; reflexivity]).
  by apply sw_new_inv.
Qed.

(** Sending: [push] refuses exactly when the window is full, and then
    changes nothing; otherwise it assigns the next DataSeqNum and ChannelSeqNum
    and appends the packet to those in flight, accounting for its bytes. *)
Theorem push_refines w data now :
  inv w -> next_data_seq w + 1 < 2 ^ 64 -> bytes_in_flight w + llen data < 2 ^ 64 ->
  let '(r, w') := push w data now in
  inv w' /\
  if has_capacity w then
    r = Some (next_data_seq w, next_channel_seq w) /\
    abs w' = abs w ++ [mkFlight (next_data_seq w) (next_channel_seq w) data] /\
    bytes_in_flight w' = bytes_in_flight w + llen data /\
    next_data_seq w' = next_data_seq w + 1 /\
    next_channel_seq w' = Seq.next_channel_seq (next_channel_seq w)
  else r = None /\ w' = w.
Proof.
  intros Hw Hn Hb. unfold push. destruct (has_capacity w) eqn:Hc; cbn [negb]; [|done].
  destruct (append_inv w (mkEntry (next_data_seq w) (next_channel_seq w) now (llen data) Pending 1)
    data (Seq.next_channel_seq (next_channel_seq w))) as [Hi Ha]; [done..|].
  pose proof (inv_next w Hw). pose proof (inv_bytes_u64 w Hw). pose proof (llen_nonneg data).
  split_and!; try done; cbn; rewrite wadd64_small; width.
Qed.

Lemma push_refines_witness :
  let '(r, w') := push sample [40] 12 in
  inv w' /\ r = Some (10, 4) /\ abs w' = abs sample ++ [mkFlight 10 4 [40]] /\
  bytes_in_flight w' = 7.
Proof.
  pose proof (push_refines sample [40] 12 sample_inv ltac:(vm_compute; reflexivity)
    ltac:(vm_compute; reflexivity)) as H.
  destruct (push sample [40] 12) as [r w']. destruct H as (Hi & Hr & Ha & Hb & _). by split_and!.
Defined.

(** Retransmitting: the same, with the caller's ChannelSeqNum, so the
    retransmission carries a fresh DataSeqNum and the old ChannelSeqNum and
    consumes no new one. *)
Theorem push_retransmit_refines w c data now :
  inv w -> next_data_seq w + 1 < 2 ^ 64 -> bytes_in_flight w + llen data < 2 ^ 64 ->
  let '(r, w') := push_retransmit w c data now in
  inv w' /\ next_channel_seq w' = next_channel_seq w /\
  if has_capacity w then
    r = Some (next_data_seq w) /\
    abs w' = abs w ++ [mkFlight (next_data_seq w) c data] /\
    bytes_in_flight w' = bytes_in_flight w + llen data /\
    next_data_seq w' = next_data_seq w + 1
  else r = None /\ w' = w.
Proof.
  intros Hw Hn Hb. unfold push_retransmit. destruct (has_capacity w) eqn:Hc; cbn [negb]; [|done].
  destruct (append_inv w (mkEntry (next_data_seq w) c now (llen data) Pending 2)
    data (next_channel_seq w)) as [Hi Ha]; [done..|].
  pose proof (inv_next w Hw). pose proof (inv_bytes_u64 w Hw). pose proof (llen_nonneg data).
  split_and!; try done; cbn; rewrite wadd64_small; width.
Qed.

Lemma push_retransmit_refines_witness :
  let '(r, w') := push_retransmit sample 2 [20] 12 in
  inv w' /\ r = Some 10 /\ abs w' = abs sample ++ [mkFlight 10 2 [20]] /\ next_channel_seq w' = 4.
Proof.
  pose proof (push_retransmit_refines sample 2 [20] 12 sample_inv ltac:(vm_compute; reflexivity)
    ltac:(vm_compute; reflexivity)) as H.
  destruct (push_retransmit sample 2 [20] 12) as [r w']. destruct H as (Hi & Hc & Hr & Ha & _). by split_and!.
Defined.

(** The cumulative acknowledgment: [mark_received_through] removes from
    flight exactly the packets up to the acknowledged number, and the bytes it
    reports are exactly the payload bytes removed; the loop terminates, since
    rounds beyond the number of entries change nothing. *)
Theorem cumulative_ack_refines w s fuel :
  inv w -> (length (entries w) <= fuel)%nat ->
  let '(bytes, w') := mark_received_through w s in
  inv w' /\ abs w' = filter (fun f => s < f_seq f) (abs w) /\
  bytes = flight_bytes (abs w) - flight_bytes (abs w') /\
  mark_received_through_loop fuel w s 0 = (bytes, w').
Proof.
  intros Hw Hf. pose proof (mark_received_through_spec w s Hw) as H.
  pose proof (mark_received_through_fuel w s 0 fuel Hw Hf) as Hfu.
  unfold mark_received_through in *. destruct (mark_received_through_loop _ w s 0) as [bytes w'].
  destruct H as (Hi & Ha & Hb & _). rewrite !abs_bytes by done. split_and!; try done. lia.
Qed.

Lemma cumulative_ack_refines_witness :
  let '(bytes, w') := mark_received_through sample 8 in
  inv w' /\ abs w' = [mkFlight 9 3 [30; 31; 32]] /\ bytes = 3.
Proof.
  pose proof (cumulative_ack_refines sample 8 3 sample_inv ltac:(vm_compute; lia)) as H.
  destruct (mark_received_through sample 8) as [bytes w']. destruct H as (Hi & Ha & -> & _).
  rewrite Ha. by split_and!.
Defined.

(** Selective acknowledgment: [mark_received] removes from flight the one
    packet with the given number, reporting its size, and does nothing when no
    such packet is in flight. *)
Theorem selective_ack_refines w s :
  inv w ->
  let '(r, w') := mark_received w s in
  inv w' /\ abs w' = filter (fun f => f_seq f <> s) (abs w) /\
  match r with
  | Some n => exists f, f ∈ abs w /\ f_seq f = s /\ n = llen (f_data f) /\
      flight_bytes (abs w') = flight_bytes (abs w) - n
  | None => w' = w /\ Forall (fun f => f_seq f <> s) (abs w)
  end.
Proof.
  intros Hw. pose proof (mark_received_spec w s Hw) as H. destruct (mark_received w s) as [[n|] w'].
  - destruct H as (Hi & Ha & _ & _ & _ & (f & ? & ? & ?) & Hb & _). split_and!; [done..|].
    exists f. rewrite !abs_bytes by done. done.
  - destruct H as (Hi & Ha & _ & _ & _ & ? & ?). by split_and!.
Qed.

Lemma selective_ack_refines_witness :
  let '(r, w') := mark_received sample 8 in
  r = Some 1 /\ abs w' = [mkFlight 7 1 [10; 11]; mkFlight 9 3 [30; 31; 32]].
Proof.
  pose proof (selective_ack_refines sample 8 sample_inv) as H.
  destruct (mark_received sample 8) as [r w'] eqn:E. destruct H as (Hi & Ha & _).
  split; [vm_compute in E; by injection E as <- _|]. rewrite Ha. reflexivity.
Defined.

(** A loss hands the payload back: [mark_lost] removes from flight the one
    packet with the given number and returns the ChannelSeqNum and the very
    bytes it was sent with, so nothing is lost between the window and the
    retransmit queue. *)
Theorem loss_refines w s :
  inv w ->
  let '(r, w') := mark_lost w s in
  inv w' /\ abs w' = filter (fun f => f_seq f <> s) (abs w) /\
  match r with
  | Some info => mkFlight s (l_channel_seq info) (l_data info) ∈ abs w /\
      l_size info = llen (l_data info) /\
      flight_bytes (abs w') = flight_bytes (abs w) - llen (l_data info)
  | None => w' = w /\ Forall (fun f => f_seq f <> s) (abs w)
  end.
Proof.
  intros Hw. pose proof (mark_lost_spec w s Hw) as H. destruct (mark_lost w s) as [[info|] w'].
  - destruct H as (Hi & Ha & _ & _ & _ & ? & Hs & Hb). rewrite Hs in Hb. split_and!; try done.
    rewrite !abs_bytes by done. done.
  - destruct H as (Hi & Ha & _ & _ & _ & ? & ?). by split_and!.
Qed.

Lemma loss_refines_witness :
  let '(r, w') := mark_lost sample 8 in
  r = Some (mkLost 2 [20] 1) /\ abs w' = [mkFlight 7 1 [10; 11]; mkFlight 9 3 [30; 31; 32]].
Proof.
  pose proof (loss_refines sample 8 sample_inv) as H.
  destruct (mark_lost sample 8) as [r w'] eqn:E. destruct H as (Hi & Ha & _).
  split; [vm_compute in E; by injection E as <- _|]. rewrite Ha. reflexivity.
Defined.

End SendWindow.
