(* ===== verification/RecvWindow.v ===== *)
(** The receiver window
    (src/crates/ironrdp-rdpeudp/src/recv_window.rs): which DataSeqNums have
    arrived, for acknowledgments, and the data waiting for delivery in
    ChannelSeqNum order. *)

From S2P Require Import Prelude Seq.

Module RecvWindow.

Inductive RecvEntryState := Pending | Received.

#[export] Instance RecvEntryState_eq_dec : EqDecision RecvEntryState.
Proof. solve_decision. Defined.

Record RecvEntry := mkEntry { state : RecvEntryState; channel_seq : option Z }.

Record t := mk {
  entries : list RecvEntry;
  base_seq : Z;
  highest_seq : Z;
  next_channel_seq : Z;
  reorder_buf : gmap Z (list Z);
  max_entries : Z;
}.

Definition is_recv (e : RecvEntry) : bool := bool_decide (state e = Received).

Definition new (initial_data_seq initial_channel_seq log_window_size : Z) : t :=
  mk [] initial_data_seq (sat_sub initial_data_seq 1) initial_channel_seq ∅
    (Z.shiftl 1 (log_window_size mod 64)).

(** [None] is an index out of range; [occupy_slot_total] shows there is none. *)
Definition occupy_slot (w : t) (data_seq : Z) (chan : option Z) : option (bool * t) :=
  if data_seq <? base_seq w then Some (false, w)
  else
    let index := data_seq - base_seq w in
    if max_entries w <=? index then Some (false, w)
    else
      let idx := Z.to_nat index in
      let es := push_while (S idx) (index + 1) (mkEntry Pending None) (entries w) in
      e ← es !! idx;
      let w := mk es (base_seq w) (highest_seq w) (next_channel_seq w) (reorder_buf w) (max_entries w) in
      if is_recv e then Some (false, w)
      else
        let es := <[idx := mkEntry Received chan]> es in
        let highest := if highest_seq w <? data_seq then data_seq else highest_seq w in
        Some (true, mk es (base_seq w) highest (next_channel_seq w) (reorder_buf w) (max_entries w)).

Definition map_len (m : gmap Z (list Z)) : Z := Z.of_nat (stdpp.base.size m).

Definition receive (w : t) (data_seq chan : Z) (data : list Z) : option (bool * t) :=
  let already_delivered := chan <? next_channel_seq w in
  if negb already_delivered && negb (chan =? next_channel_seq w) &&
     (max_entries w <=? map_len (reorder_buf w)) &&
     negb (bool_decide (is_Some (reorder_buf w !! chan)))
  then Some (false, w)
  else
    '(ok, w) ← occupy_slot w data_seq (Some chan);
    if negb ok then Some (false, w)
    else
      let buf := if already_delivered then reorder_buf w else <[chan := data]> (reorder_buf w) in
      Some (true, mk (entries w) (base_seq w) (highest_seq w) (next_channel_seq w) buf (max_entries w)).

Definition receive_without_payload (w : t) (data_seq : Z) : option (bool * t) :=
  occupy_slot w data_seq None.

(** The loop of [drain_ordered]: each round removes an entry of the buffer, so
    as many rounds as it has entries are enough ([drain_loop_done]). *)
Fixpoint drain_loop (fuel : nat) (next : Z) (buf : gmap Z (list Z))
    : list (list Z) * Z * gmap Z (list Z) :=
  match fuel with
  | O => ([], next, buf)
  | S fuel' =>
      match buf !! next with
      | None => ([], next, buf)
      | Some data =>
          let '(delivered, next', buf') :=
            drain_loop fuel' (Seq.next_channel_seq next) (delete next buf) in
          (data :: delivered, next', buf')
      end
  end.

Definition drain_ordered (w : t) : list (list Z) * t :=
  let '(delivered, next, buf) :=
    drain_loop (stdpp.base.size (reorder_buf w)) (next_channel_seq w) (reorder_buf w) in
  (delivered, mk (entries w) (base_seq w) (highest_seq w) next buf (max_entries w)).

(** [iter().take_while(received).count()] *)
Fixpoint leading_received (es : list RecvEntry) : nat :=
  match es with
  | e :: es' => if is_recv e then S (leading_received es') else 0
  | [] => 0
  end.

Definition release_acknowledged (w : t) : Z * t :=
  let received := leading_received (entries w) in
  if (0 <? received)%nat then
    (Z.of_nat received,
     mk (drop received (entries w)) (base_seq w ⊕ Z.of_nat received) (highest_seq w)
       (next_channel_seq w) (reorder_buf w) (max_entries w))
  else (Z.of_nat received, w).

Definition advance_base (w : t) (new_base : Z) : t :=
  if new_base <=? base_seq w then w
  else
    let advance_by := new_base - base_seq w in
    let drain_count := Z.to_nat (Z.min advance_by (llen (entries w))) in
    mk (drop drain_count (entries w)) new_base (highest_seq w) (next_channel_seq w)
      (reorder_buf w) (max_entries w).

(** The runs of [ack_vector], given the current run. *)
Fixpoint runs_from (current_state : bool) (current_count : Z) (es : list RecvEntry)
    : list (bool * Z) :=
  match es with
  | [] => [(current_state, current_count)]
  | e :: es' =>
      let received := is_recv e in
      if Bool.eqb received current_state then runs_from current_state (current_count + 1) es'
      else (current_state, current_count) :: runs_from received 1 es'
  end.

Definition ack_vector (w : t) : list (bool * Z) :=
  match entries w with
  | [] => []
  | e :: es => runs_from (is_recv e) 1 es
  end.

Definition has_gaps (w : t) : bool := existsb (fun e => negb (is_recv e)) (entries w).

(** ** Invariant *)

Record inv (w : t) : Prop := {
  inv_base : 0 <= base_seq w;
  inv_len : llen (entries w) <= max_entries w;
  inv_last : match last (entries w) with Some e => state e = Received | None => True end;
  inv_highest : match entries w with
    | [] => highest_seq w < base_seq w
    | _ => highest_seq w = base_seq w + llen (entries w) - 1
    end;
  inv_next : 0 <= next_channel_seq w;
  inv_keys : forall c, is_Some (reorder_buf w !! c) ->
    (0 <= c /\ c + 2 < 2 ^ 64) /\ (next_channel_seq w <= c \/ c mod 65536 = 0);
  inv_buf : map_len (delete (next_channel_seq w) (reorder_buf w)) <= max_entries w;
}.

(** Whether the DataSeqNum [s] has been accepted: it is below the window, or
    its slot is marked received. *)
Definition seen (w : t) (s : Z) : Prop :=
  s < base_seq w \/
  exists e, entries w !! Z.to_nat (s - base_seq w) = Some e /\ state e = Received.

Lemma is_recv_true e : is_recv e = true <-> state e = Received.
Proof. apply bool_decide_eq_true. Qed.

Lemma is_recv_false e : is_recv e = false <-> state e = Pending.
Proof. unfold is_recv. rewrite bool_decide_eq_false. destruct (state e); split; congruence. Qed.

Lemma rw_new_inv d c l : 1 <= d -> 0 <= c -> inv (new d c l).
Proof.
  intros Hd Hc. constructor; cbn; try done; try lia.
  - unfold llen. cbn. apply Z.shiftl_nonneg. lia.
  - unfold sat_sub. lia.
  - intros x [? Hx]. by rewrite lookup_empty in Hx.
  - unfold map_len. rewrite delete_empty, map_size_empty. apply Z.shiftl_nonneg. lia.
Qed.

(** *** Occupying a slot *)

Lemma extend_eq (es : list RecvEntry) idx :
  push_while (S idx) (Z.of_nat idx + 1) (mkEntry Pending None) es =
  es ++ replicate (S idx - length es) (mkEntry Pending None).
Proof. rewrite push_while_spec by lia. f_equal. f_equal. lia. Qed.

Lemma extend_lookup (es : list RecvEntry) idx :
  (es ++ replicate (S idx - length es) (mkEntry Pending None)) !! idx =
  match es !! idx with Some e => Some e | None => Some (mkEntry Pending None) end.
Proof.
  destruct (es !! idx) eqn:E; [by rewrite lookup_app_l_Some with (1 := E)|].
  apply lookup_ge_None in E. rewrite lookup_app_r by done.
  apply lookup_replicate_2. lia.
Qed.

(** The slot table after [idx] was occupied. *)
Definition occupied (es : list RecvEntry) (idx : nat) (c : option Z) : list RecvEntry :=
  <[idx := mkEntry Received c]> (es ++ replicate (S idx - length es) (mkEntry Pending None)).

Lemma length_occupied es idx c : length (occupied es idx c) = Nat.max (length es) (S idx).
Proof. unfold occupied. rewrite length_insert, length_app, length_replicate. lia. Qed.

Lemma occupied_lookup es idx c j :
  (exists e, occupied es idx c !! j = Some e /\ state e = Received) <->
  j = idx \/ exists e, es !! j = Some e /\ state e = Received.
Proof.
  unfold occupied. destruct (decide (j = idx)) as [->|Hne].
  - rewrite list_lookup_insert_eq by (rewrite length_app, length_replicate; lia). split; [by left|intros _; by eexists].
  - rewrite list_lookup_insert_ne by done. split.
    + intros (e & He & Hs). right. apply lookup_app_Some in He as [He|[_ He]]; [eauto|].
      apply lookup_replicate in He as [-> _]. done.
    + intros [?|(e & He & Hs)]; [done|]. exists e. by rewrite lookup_app_l_Some with (1 := He).
Qed.

Lemma occupied_last es idx c :
  match last es with Some e => state e = Received | None => True end ->
  match last (occupied es idx c) with Some e => state e = Received | None => True end.
Proof.
  intros H. rewrite last_lookup, length_occupied. unfold occupied.
  destruct (Nat.le_gt_cases (length es) (S idx)).
  - replace (Nat.pred (Nat.max (length es) (S idx))) with idx by lia.
    by rewrite list_lookup_insert_eq by (rewrite length_app, length_replicate; lia).
  - replace (S idx - length es)%nat with 0%nat by lia. rewrite app_nil_r.
    rewrite list_lookup_insert_ne by lia. rewrite last_lookup in H.
    replace (Nat.max (length es) (S idx)) with (length es) by lia. done.
Qed.

Lemma occupy_slot_spec w s c :
  0 <= s ->
  exists b w', occupy_slot w s c = Some (b, w') /\
    (b = true <-> base_seq w <= s < base_seq w + max_entries w /\ ~ seen w s) /\
    if b then
      w' = mk (occupied (entries w) (Z.to_nat (s - base_seq w)) c) (base_seq w)
             (Z.max (highest_seq w) s) (next_channel_seq w) (reorder_buf w) (max_entries w)
    else w' = w.
Proof.
  intros Hs. unfold occupy_slot. destruct (Z.ltb_spec s (base_seq w)).
  { eexists _, _. split; [done|]. split; [|done]. split; [done|]. unfold seen. lia. }
  destruct (Z.leb_spec (max_entries w) (s - base_seq w)).
  { eexists _, _. split; [done|]. split; [|done]. split; [done|]. lia. }
  cbv zeta. set (idx := Z.to_nat (s - base_seq w)).
  replace (s - base_seq w + 1) with (Z.of_nat idx + 1) by lia.
  rewrite extend_eq, extend_lookup.
  assert (Hd : (exists e, entries w !! idx = Some e /\ state e = Received) \/
    (forall e, entries w !! idx = Some e -> state e = Pending)).
  { destruct (entries w !! idx) as [e|]; [|by right]. destruct (state e) eqn:E; [right|left].
    - by intros ? [= <-].
    - eauto. }
  destruct Hd as [(e & He & Hr)|Hp].
  - rewrite He. cbn. rewrite (proj2 (is_recv_true e) Hr). eexists _, _. split; [done|]. split.
    + split; [done|]. intros [_ Hn]. exfalso. apply Hn. right. eauto.
    + apply lookup_lt_Some in He. replace (S idx - length (entries w))%nat with 0%nat by lia.
      rewrite app_nil_r. by destruct w.
  - assert (Hn : ~ seen w s).
    { intros [?|(e & He & Hr)]; [lia|]. specialize (Hp e He). congruence. }
    assert (Hr : exists e, match entries w !! idx with Some e => Some e | None => Some (mkEntry Pending None) end = Some e /\ is_recv e = false).
    { destruct (entries w !! idx) as [e|]; [|by eexists]. exists e. split; [done|]. by apply is_recv_false, Hp. }
    destruct Hr as (e & -> & Hr). cbn [mbind option_bind]. rewrite Hr. eexists _, _. split; [done|].
    split; [split; [|done]; intros _; split; [lia|done]|]. unfold occupied. cbn [highest_seq base_seq next_channel_seq reorder_buf max_entries].
    f_equal. zcase; lia.
Qed.

Lemma occupy_inv w s c :
  inv w -> base_seq w <= s < base_seq w + max_entries w ->
  let w' := mk (occupied (entries w) (Z.to_nat (s - base_seq w)) c) (base_seq w)
             (Z.max (highest_seq w) s) (next_channel_seq w) (reorder_buf w) (max_entries w) in
  inv w' /\ forall s', base_seq w <= s' -> (seen w' s' <-> s' = s \/ seen w s').
Proof.
  intros Hw Hs w'. pose proof (inv_len w Hw). pose proof (inv_highest w Hw) as Hh.
  split.
  - constructor; unfold w'; cbn [entries base_seq highest_seq next_channel_seq reorder_buf max_entries].
    + apply Hw.
    + unfold llen in *. rewrite length_occupied. lia.
    + apply occupied_last, Hw.
    + destruct (occupied (entries w) (Z.to_nat (s - base_seq w)) c) eqn:E.
      { apply (f_equal length) in E. rewrite length_occupied in E. cbn in E. lia. }
      rewrite <- E. unfold llen. rewrite length_occupied.
      destruct (entries w) as [|e es] eqn:Ee; [cbn; lia|]. unfold llen in Hh. rewrite <- Ee in *. lia.
    + apply Hw.
    + apply Hw.
    + apply Hw.
  - intros s' Hb. unfold seen, w'. cbn [entries base_seq]. rewrite occupied_lookup.
    split.
    + intros [?|[Hi|?]]; [auto|left; lia|auto].
    + intros [->|[?|?]]; [right; by left|by left|right; by right].
Qed.

(** *** Receiving *)

(** A packet the full reorder buffer has no room for. *)
Definition refused (w : t) (c : Z) : Prop :=
  next_channel_seq w < c /\ max_entries w <= map_len (reorder_buf w) /\ reorder_buf w !! c = None.

Lemma map_len_insert (m : gmap Z (list Z)) k v :
  map_len (<[k := v]> m) = map_len (delete k m) + 1.
Proof.
  unfold map_len. rewrite <- (insert_delete_eq m k v).
  rewrite map_size_insert_None by apply lookup_delete_eq. rewrite Nat2Z.inj_succ. done.
Qed.

Lemma map_len_delete_le (m : gmap Z (list Z)) k : map_len (delete k m) <= map_len m.
Proof. unfold map_len. rewrite map_size_delete. case_match; cbn; lia. Qed.

(** Buffering keeps the bound on the reorder buffer. *)
Lemma buffer_bound w c data :
  inv w -> ~ refused w c -> next_channel_seq w <= c ->
  map_len (delete (next_channel_seq w) (<[c := data]> (reorder_buf w))) <= max_entries w.
Proof.
  intros Hw Hr Hc. pose proof (inv_buf w Hw) as Hb. set (n := next_channel_seq w) in *.
  destruct (decide (c = n)) as [->|Hne]; [by rewrite delete_insert_eq|].
  rewrite delete_insert_ne by done. rewrite map_len_insert.
  destruct (reorder_buf w !! c) as [d|] eqn:E.
  - assert (map_len (delete n (reorder_buf w)) = map_len (delete c (delete n (reorder_buf w))) + 1); [|lia].
    rewrite <- (insert_id (delete n (reorder_buf w)) c d) at 1 by (by rewrite lookup_delete_ne).
    apply map_len_insert.
  - pose proof (map_len_delete_le (delete n (reorder_buf w)) c).
    pose proof (map_len_delete_le (reorder_buf w) n).
    assert (map_len (reorder_buf w) < max_entries w); [|lia].
    apply Z.nle_gt. intros Hle. apply Hr. split_and!; [unfold n in *; lia|done|done].
Qed.

Lemma receive_spec w s c data :
  inv w -> 0 <= s -> 0 <= c -> c + 2 < 2 ^ 64 ->
  exists b w', receive w s c data = Some (b, w') /\ inv w' /\
    (b = true <-> ~ refused w c /\ base_seq w <= s < base_seq w + max_entries w /\ ~ seen w s) /\
    base_seq w' = base_seq w /\ next_channel_seq w' = next_channel_seq w /\
    max_entries w' = max_entries w /\
    if b then
      (forall s', base_seq w <= s' -> (seen w' s' <-> s' = s \/ seen w s')) /\
      highest_seq w' = Z.max (highest_seq w) s /\
      reorder_buf w' =
        (if c <? next_channel_seq w then reorder_buf w else <[c := data]> (reorder_buf w))
    else w' = w.
Proof.
  intros Hw Hs Hc Hc2. unfold receive.
  destruct (negb (c <? next_channel_seq w) && negb (c =? next_channel_seq w) &&
    (max_entries w <=? map_len (reorder_buf w)) &&
    negb (bool_decide (is_Some (reorder_buf w !! c)))) eqn:E.
  { rewrite !andb_true_iff, !negb_true_iff in E.
    destruct E as [[[E1%Z.ltb_ge E2%Z.eqb_neq] E3%Z.leb_le] E4%bool_decide_eq_false].
    exists false, w. split; [done|]. split_and!; try done. split; [done|]. intros [Hr _]. exfalso. apply Hr.
    split_and!; [lia|done|]. by apply eq_None_not_Some. }
  assert (Hnr : ~ refused w c).
  { intros (H1 & H2 & H3). rewrite !andb_false_iff, !negb_false_iff in E. rewrite H3 in E.
    rewrite bool_decide_eq_true in E. destruct E as [[[E|E]|E]|E]; zcase; try lia. by destruct E. }
  destruct (occupy_slot_spec w s (Some c) Hs) as (b & w1 & -> & Hb & Hw1). cbn [mbind option_bind].
  destruct b; cbn [negb].
  2: { subst w1. exists false, w. split; [done|]. split_and!; try done. split; [done|]. intros [_ H]. by apply Hb in H. }
  destruct (proj1 Hb eq_refl) as [Hrange Hns].
  destruct (occupy_inv w s (Some c) Hw Hrange) as [Hi1 Hseen]. cbv zeta in Hi1, Hseen.
  rewrite <- Hw1 in Hi1, Hseen.
  eexists true, _. split; [done|].
  cbn [base_seq next_channel_seq max_entries highest_seq reorder_buf].
  assert (Hbuf : reorder_buf w1 = reorder_buf w) by (by subst w1).
  assert (Hn1 : next_channel_seq w1 = next_channel_seq w) by (by subst w1).
  assert (Hm1 : max_entries w1 = max_entries w) by (by subst w1).
  split_and!; try done; try (by subst w1).
  constructor; cbn [entries base_seq next_channel_seq max_entries highest_seq reorder_buf]; try apply Hi1.
  - rewrite Hn1, Hbuf. destruct (Z.ltb_spec c (next_channel_seq w)); [apply Hw|].
    intros k [d Hd]. apply lookup_insert_Some in Hd as [[<- _]|[_ Hd]]; [by split; [|left]|].
    apply (inv_keys w Hw). eauto.
  - rewrite Hn1, Hm1, Hbuf. destruct (Z.ltb_spec c (next_channel_seq w)); [apply Hw|].
    by apply buffer_bound.
Qed.

(** *** Delivery *)

(** The first [n] ChannelSeqNums from [c] on. *)
Fixpoint chans (c : Z) (n : nat) : list Z :=
  match n with O => [] | S n' => c :: chans (Seq.next_channel_seq c) n' end.

(** The ChannelSeqNum [n] steps after [c]. *)
Fixpoint chan_after (c : Z) (n : nat) : Z :=
  match n with O => c | S n' => chan_after (Seq.next_channel_seq c) n' end.

Lemma length_chans c n : length (chans c n) = n.
Proof. revert c. induction n as [|n IH]; intros c; cbn; [done|]. by rewrite IH. Qed.

Lemma chans_app c n m : chans c (n + m) = chans c n ++ chans (chan_after c n) m.
Proof. revert c. induction n as [|n IH]; intros c; cbn; [done|]. by rewrite IH. Qed.

Lemma chan_after_add c n m : chan_after c (n + m) = chan_after (chan_after c n) m.
Proof. revert c. induction n as [|n IH]; intros c; cbn; [done|]. by rewrite IH. Qed.

Definition keys_ok (next : Z) (buf : gmap Z (list Z)) : Prop :=
  forall c, is_Some (buf !! c) -> (0 <= c /\ c + 2 < 2 ^ 64) /\ (next <= c \/ c mod 65536 = 0).

Lemma keys_ok_step next buf :
  0 <= next -> is_Some (buf !! next) -> keys_ok next buf ->
  keys_ok (Seq.next_channel_seq next) (delete next buf) /\ 0 <= Seq.next_channel_seq next.
Proof.
  intros Hn Hs Hk. destruct (Hk next Hs) as [[_ Hb] _].
  rewrite next_channel_seq_spec by lia. split; [|zcase; lia].
  intros c [d Hd]. apply lookup_delete_Some in Hd as [Hne Hd].
  destruct (Hk c ltac:(eauto)) as [Hr Hc]. split; [done|]. destruct Hc as [Hc|]; [|by right].
  destruct (Z.eqb_spec ((next + 1) mod 65536) 0); [|left; lia].
  destruct (decide (c = next + 1)) as [->|]; [by right|left; lia].
Qed.

(** What a drain delivers: the consecutive data from the cursor on, up to the
    first gap. *)
Lemma drain_loop_spec fuel next buf :
  (stdpp.base.size buf <= fuel)%nat -> 0 <= next -> keys_ok next buf ->
  let '(ds, next', buf') := drain_loop fuel next buf in
  next' = chan_after next (length ds) /\ buf' !! next' = None /\ buf' ⊆ buf /\
  keys_ok next' buf' /\ 0 <= next' /\
  (forall i c, chans next (length ds) !! i = Some c -> buf !! c = ds !! i) /\
  map_len (delete next' buf') <= map_len (delete next buf).
Proof.
  revert next buf. induction fuel as [|fuel IH]; intros next buf Hf Hn Hk; cbn [drain_loop].
  { assert (buf = ∅) as -> by (apply map_size_empty_inv; lia). done. }
  destruct (buf !! next) as [d|] eqn:E; [|done].
  destruct (keys_ok_step next buf Hn ltac:(eauto) Hk) as [Hk' Hn'].
  specialize (IH (Seq.next_channel_seq next) (delete next buf)).
  destruct (drain_loop fuel (Seq.next_channel_seq next) (delete next buf)) as [[ds next'] buf'].
  destruct IH as (H1 & H2 & H3 & H4 & H5 & H6 & H7); [|done|done|].
  { rewrite map_size_delete_Some by eauto. lia. }
  split_and!; try done.
  - etrans; [exact H3|]. apply delete_subseteq.
  - intros [|i] c; cbn; [by intros [= <-]|]. intros Hc. specialize (H6 i c Hc).
    destruct (decide (c = next)) as [->|Hne]; [|by rewrite lookup_delete_ne in H6].
    rewrite lookup_delete_eq in H6. exfalso. clear -H6 Hc.
    assert (is_Some (ds !! i)) as [x Hx]; [|congruence].
    apply lookup_lt_is_Some. apply lookup_lt_Some in Hc. by rewrite length_chans in Hc.
  - etrans; [exact H7|]. apply map_len_delete_le.
Qed.

Lemma drain_ordered_spec w :
  inv w ->
  let '(ds, w') := drain_ordered w in
  inv w' /\ entries w' = entries w /\ base_seq w' = base_seq w /\ highest_seq w' = highest_seq w /\
  max_entries w' = max_entries w /\
  next_channel_seq w' = chan_after (next_channel_seq w) (length ds) /\
  reorder_buf w' !! next_channel_seq w' = None /\ reorder_buf w' ⊆ reorder_buf w /\
  (forall i c, chans (next_channel_seq w) (length ds) !! i = Some c -> reorder_buf w !! c = ds !! i) /\
  map_len (reorder_buf w') <= max_entries w.
Proof.
  intros Hw. unfold drain_ordered.
  pose proof (drain_loop_spec (stdpp.base.size (reorder_buf w)) (next_channel_seq w) (reorder_buf w)
    ltac:(lia) (inv_next w Hw) (inv_keys w Hw)) as H.
  destruct (drain_loop _ _ _) as [[ds next'] buf'].
  destruct H as (H1 & H2 & H3 & H4 & H5 & H6 & H7). pose proof (inv_buf w Hw).
  cbn [entries base_seq highest_seq next_channel_seq reorder_buf max_entries].
  split_and!; try done.
  - constructor; cbn [entries base_seq highest_seq next_channel_seq reorder_buf max_entries];
      [apply Hw..|exact H5|exact H4|lia].
  - rewrite <- (delete_id buf' next') by done. lia.
Qed.

(** *** Moving the lower bound *)

(** The window with its first [k] slots dropped. *)
Definition shifted (w : t) (k : nat) : t :=
  mk (drop k (entries w)) (base_seq w + Z.of_nat k) (highest_seq w) (next_channel_seq w)
    (reorder_buf w) (max_entries w).

Lemma shifted_inv w k : inv w -> inv (shifted w k).
Proof.
  intros Hw. pose proof (inv_len w Hw) as Hl. pose proof (inv_highest w Hw) as Hh.
  pose proof (inv_base w Hw). pose proof (inv_last w Hw) as Hlast.
  constructor; unfold shifted; cbn [entries base_seq highest_seq next_channel_seq reorder_buf max_entries];
    [lia| | | |apply Hw|apply Hw|apply Hw].
  - unfold llen in *. rewrite length_drop. lia.
  - rewrite <- (take_drop k (entries w)), last_app in Hlast.
    destruct (last (drop k (entries w))); done.
  - destruct (drop k (entries w)) eqn:E; apply (f_equal length) in E; rewrite length_drop in E; cbn in E.
    + destruct (entries w); [lia|]. unfold llen in *. lia.
    + destruct (entries w); [done|]. unfold llen in *. cbn [length] in *. lia.
Qed.

Lemma shifted_seen w k s :
  seen (shifted w k) s <-> s < base_seq w + Z.of_nat k \/ seen w s.
Proof.
  unfold seen, shifted. cbn [entries base_seq]. setoid_rewrite lookup_drop.
  destruct (Z.lt_ge_cases s (base_seq w + Z.of_nat k)); [split; auto|].
  replace (k + Z.to_nat (s - (base_seq w + Z.of_nat k)))%nat with (Z.to_nat (s - base_seq w)) by lia.
  split; [by intros [?|?]; auto|]. intros [?|[?|?]]; [lia|lia|auto].
Qed.

Lemma leading_received_spec es i :
  (i < leading_received es)%nat -> exists e, es !! i = Some e /\ state e = Received.
Proof.
  revert i. induction es as [|e es IH]; intros i Hi; cbn in Hi; [lia|].
  destruct (is_recv e) eqn:E; [|lia]. apply is_recv_true in E.
  destruct i as [|i]; [by exists e|]. apply IH. lia.
Qed.

Lemma leading_received_le es : (leading_received es <= length es)%nat.
Proof. induction es as [|e es IH]; cbn; [lia|]. destruct (is_recv e); lia. Qed.

(** The run is maximal: the slot after it, if any, is a hole. *)
Lemma leading_received_stop es e :
  es !! leading_received es = Some e -> state e = Pending.
Proof.
  induction es as [|x es IH]; cbn; [done|]. destruct (is_recv x) eqn:E; cbn; [done|].
  intros [= <-]. by apply is_recv_false.
Qed.

Lemma release_spec w :
  inv w -> base_seq w + max_entries w < 2 ^ 64 ->
  release_acknowledged w =
    (Z.of_nat (leading_received (entries w)), shifted w (leading_received (entries w))) /\
  inv (shifted w (leading_received (entries w))) /\
  forall s, seen (shifted w (leading_received (entries w))) s <-> seen w s.
Proof.
  intros Hw Hb. pose proof (inv_base w Hw). pose proof (inv_len w Hw) as Hl. unfold llen in Hl.
  pose proof (leading_received_le (entries w)).
  split_and!; [|by apply shifted_inv|].
  - unfold release_acknowledged, shifted. destruct (Nat.ltb_spec 0 (leading_received (entries w))).
    + rewrite wadd64_small by width. done.
    + replace (leading_received (entries w)) with 0%nat by lia. rewrite Z.add_0_r, drop_0.
      by destruct w.
  - intros s. rewrite shifted_seen. split; [|auto]. intros [Hs|?]; [|done].
    destruct (Z.lt_ge_cases s (base_seq w)); [by left|]. right. apply leading_received_spec. lia.
Qed.

Lemma advance_base_spec w b :
  inv w ->
  inv (advance_base w b) /\ base_seq (advance_base w b) = Z.max (base_seq w) b /\
  next_channel_seq (advance_base w b) = next_channel_seq w /\
  reorder_buf (advance_base w b) = reorder_buf w /\
  max_entries (advance_base w b) = max_entries w /\ highest_seq (advance_base w b) = highest_seq w /\
  forall s, seen (advance_base w b) s <-> s < b \/ seen w s.
Proof.
  intros Hw. unfold advance_base. destruct (Z.leb_spec b (base_seq w)).
  { split_and!; try done; [lia|]. intros s. split; [auto|]. intros [?|?]; [left; lia|done]. }
  pose proof (shifted_inv w (Z.to_nat (b - base_seq w)) Hw) as Hi.
  pose proof (shifted_seen w (Z.to_nat (b - base_seq w))) as Hs.
  assert (Heq : shifted w (Z.to_nat (b - base_seq w)) =
    mk (drop (Z.to_nat (Z.min (b - base_seq w) (llen (entries w)))) (entries w)) b (highest_seq w)
      (next_channel_seq w) (reorder_buf w) (max_entries w)).
  { unfold shifted. f_equal; [|lia].
    destruct (Z.le_ge_cases (b - base_seq w) (llen (entries w))).
    - by rewrite Z.min_l.
    - rewrite !drop_ge; [done|unfold llen in *; lia|unfold llen in *; lia]. }
  rewrite Heq in Hi, Hs. split_and!; try done; [cbn; lia|].
  intros s. rewrite Hs. replace (base_seq w + Z.of_nat (Z.to_nat (b - base_seq w))) with b by lia. done.
Qed.

(** *** The ACK vector *)

Definition expand (runs : list (bool * Z)) : list bool :=
  runs ≫= fun r => replicate (Z.to_nat r.2) r.1.

Lemma runs_from_expand b n es :
  1 <= n -> expand (runs_from b n es) = replicate (Z.to_nat n) b ++ (is_recv <$> es).
Proof.
  revert b n. induction es as [|e es IH]; intros b n Hn; cbn [runs_from].
  - unfold expand. cbn. by rewrite !app_nil_r.
  - destruct (Bool.eqb (is_recv e) b) eqn:E.
    + apply eqb_prop in E. rewrite IH by lia. cbn. rewrite E.
      replace (Z.to_nat (n + 1)) with (Z.to_nat n + 1)%nat by lia. rewrite replicate_add, <- app_assoc. done.
    + unfold expand in *. rewrite bind_cons, IH by lia. cbn. done.
Qed.

(** Runs are nonempty and alternate. *)
Fixpoint alternating (runs : list (bool * Z)) : Prop :=
  match runs with
  | (b, n) :: (((b', _) :: _) as rest) => 1 <= n /\ b <> b' /\ alternating rest
  | [(b, n)] => 1 <= n
  | [] => True
  end.

Lemma runs_from_head b n es : exists m rest, runs_from b n es = (b, m) :: rest.
Proof.
  revert b n. induction es as [|e es IH]; intros b n; cbn; [eauto|].
  destruct (Bool.eqb (is_recv e) b); [apply IH|eauto].
Qed.

Lemma runs_from_alternating b n es : 1 <= n -> alternating (runs_from b n es).
Proof.
  revert b n. induction es as [|e es IH]; intros b n Hn; cbn [runs_from]; [done|].
  destruct (Bool.eqb (is_recv e) b) eqn:E; [apply IH; lia|].
  specialize (IH (is_recv e) 1 ltac:(lia)).
  destruct (runs_from_head (is_recv e) 1 es) as (m & rest & Hr). rewrite Hr in *.
  apply eqb_false_iff in E. by split_and!.
Qed.

Lemma ack_vector_expand w : expand (ack_vector w) = is_recv <$> entries w.
Proof. unfold ack_vector. destruct (entries w) as [|e es]; [done|]. by rewrite runs_from_expand. Qed.

Lemma has_gaps_false w s :
  inv w -> has_gaps w = false -> base_seq w <= s <= highest_seq w -> seen w s.
Proof.
  intros Hw Hg Hs. right. pose proof (inv_highest w Hw) as Hh.
  destruct (entries w) as [|e0 es0] eqn:E; [lia|]. rewrite <- E in *.
  destruct (lookup_lt_is_Some_2 (entries w) (Z.to_nat (s - base_seq w))) as [e He]; [unfold llen in *; lia|].
  exists e. split; [done|]. unfold has_gaps in Hg. apply is_recv_true.
  destruct (is_recv e) eqn:Er; [done|]. exfalso.
  assert (existsb (fun e => negb (is_recv e)) (entries w) = true); [|congruence].
  apply existsb_exists. exists e. split; [|by rewrite Er]. by apply list_elem_of_In, list_elem_of_lookup_2 with (1 := He).
Qed.

(** ** Runs of a window *)

Inductive op :=
| Receive (s c : Z) (data : list Z)
| Dummy (s : Z)
| Drain
| Release
| Advance (b : Z).

Inductive res := Accepted (s : Z) | Rejected | Delivered (ds : list (list Z)) | Moved.

Definition exec (w : t) (o : op) : option (res * t) :=
  match o with
  | Receive s c data => '(b, w') ← receive w s c data; Some (if b : bool then Accepted s else Rejected, w')
  | Dummy s => '(b, w') ← receive_without_payload w s; Some (if b : bool then Accepted s else Rejected, w')
  | Drain => let '(ds, w') := drain_ordered w in Some (Delivered ds, w')
  | Release => Some (Moved, (release_acknowledged w).2)
  | Advance b => Some (Moved, advance_base w b)
  end.

Fixpoint run (w : t) (ops : list op) : option (list res * t) :=
  match ops with
  | [] => Some ([], w)
  | o :: ops' => '(r, w') ← exec w o; '(rs, w'') ← run w' ops'; Some (r :: rs, w'')
  end.

Definition accepted (rs : list res) : list Z :=
  omap (fun r => match r with Accepted s => Some s | _ => None end) rs.
Definition delivered (rs : list res) : list (list Z) :=
  rs ≫= fun r => match r with Delivered ds => ds | _ => [] end.

(** Sequence numbers that stay clear of the end of the 64-bit space. *)
Definition op_ok (m : Z) (o : op) : Prop :=
  match o with
  | Receive s c _ => 0 <= s /\ s + 1 + m < 2 ^ 64 /\ 0 <= c /\ c + 2 < 2 ^ 64
  | Dummy s => 0 <= s /\ s + 1 + m < 2 ^ 64
  | Advance b => b + m < 2 ^ 64
  | _ => True
  end.

(** The data of a ChannelSeqNum is always the same: what an honest sender
    guarantees. *)
Definition from_source (src : Z -> list Z) (o : op) : Prop :=
  match o with Receive _ c data => data = src c | _ => True end.

Record good (src : Z -> list Z) (w : t) : Prop := {
  good_inv : inv w;
  good_base : base_seq w + max_entries w < 2 ^ 64;
  good_high : highest_seq w + 1 + max_entries w < 2 ^ 64;
  good_buf : forall c d, reorder_buf w !! c = Some d -> d = src c;
}.

(** One step of a run: it never panics, keeps the window good, and what it
    accepts had not been seen and now has. *)
Lemma exec_spec src w o :
  good src w -> op_ok (max_entries w) o -> from_source src o ->
  exists r w', exec w o = Some (r, w') /\ good src w' /\ max_entries w' = max_entries w /\
    (forall s, seen w s -> seen w' s) /\
    match r with
    | Accepted s => ~ seen w s /\ seen w' s /\ next_channel_seq w' = next_channel_seq w
    | Delivered ds => ds = src <$> chans (next_channel_seq w) (length ds) /\
        next_channel_seq w' = chan_after (next_channel_seq w) (length ds)
    | _ => next_channel_seq w' = next_channel_seq w
    end.
Proof.
  intros [Hi Hb Hh Hs] Ho Hsrc. destruct o as [s c data|s| | |b]; cbn [exec op_ok from_source] in *.
  - destruct Ho as (H1 & H2 & H3 & H4).
    destruct (receive_spec w s c data Hi H1 H3 H4) as (b & w' & -> & Hi' & Hiff & Hba & Hn & Hm & Hif).
    cbn [mbind option_bind]. eexists _, _. split; [done|]. destruct b.
    + destruct Hif as (Hseen & Hhi & Hbuf). destruct (proj1 Hiff eq_refl) as (_ & Hr & Hns).
      assert (Hmono : forall s', seen w s' -> seen w' s').
      { intros s' Hs'. destruct (Z.lt_ge_cases s' (base_seq w)); [left; lia|]. apply Hseen; auto. }
      split_and!; try done; [|apply Hseen; [lia|auto]].
      split; [done|lia|lia|]. rewrite Hbuf. intros c' d'. destruct (c <? next_channel_seq w); [apply Hs|].
      intros [[<- <-]|[_ Hd]]%lookup_insert_Some; [done|by apply Hs].
    + subst w'. by split_and!.
  - destruct Ho as (H1 & H2). unfold receive_without_payload.
    destruct (occupy_slot_spec w s None H1) as (b & w' & -> & Hiff & Hw').
    cbn [mbind option_bind]. eexists _, _. split; [done|]. destruct b; [|by subst w'].
    destruct (proj1 Hiff eq_refl) as (Hr & Hns). destruct (occupy_inv w s None Hi Hr) as [Hi' Hseen].
    cbv zeta in Hi', Hseen. rewrite <- Hw' in Hi', Hseen.
    assert (Hmono : forall s', seen w s' -> seen w' s').
    { intros s' Hs'. destruct (Z.lt_ge_cases s' (base_seq w)); [subst w'; by left|]. apply Hseen; auto. }
    split_and!; try done; try (by subst w'); [|apply Hseen; [lia|auto]].
    split; [done|subst w'; cbn; lia..|by subst w'].
  - pose proof (drain_ordered_spec w Hi) as H. destruct (drain_ordered w) as [ds w'].
    destruct H as (Hi' & He & Hba & Hhi & Hm & Hn & _ & Hsub & Hds & _). eexists _, _. split; [done|].
    split_and!; try done.
    + split; [done|lia|lia|]. intros c d Hd. apply Hs. by apply (lookup_weaken _ _ _ _ Hd).
    + intros s. unfold seen. by rewrite He, Hba.
    + apply list_eq. intros i. rewrite list_lookup_fmap.
      destruct (chans (next_channel_seq w) (length ds) !! i) as [c|] eqn:E; cbn.
      * specialize (Hds i c E). assert (is_Some (ds !! i)) as [d Hd].
        { apply lookup_lt_is_Some. apply lookup_lt_Some in E. by rewrite length_chans in E. }
        rewrite Hd in *. f_equal. by apply Hs.
      * apply lookup_ge_None in E. rewrite length_chans in E. by apply lookup_ge_None.
  - destruct (release_spec w Hi Hb) as (-> & Hi' & Hseen). eexists _, _. split; [done|]. cbn [snd].
    pose proof (leading_received_le (entries w)). pose proof (inv_highest w Hi) as Hhi.
    split_and!; try done; [|by intros s; apply Hseen]. split; [done| |done|done]. cbn.
    destruct (entries w) as [|e es]; [cbn; lia|]. unfold llen in Hhi. cbn [length] in *. lia.
  - destruct (advance_base_spec w b Hi) as (Hi' & Hba & Hn & Hbuf & Hm & Hhi & Hseen).
    eexists _, _. split; [done|]. split_and!; try done; [|intros s Hs'; apply Hseen; auto].
    split; [done|lia|lia|by rewrite Hbuf].
Qed.

Lemma run_spec src ops w :
  good src w -> Forall (op_ok (max_entries w)) ops -> Forall (from_source src) ops ->
  exists rs w', run w ops = Some (rs, w') /\ good src w' /\
    NoDup (accepted rs) /\ (forall s, s ∈ accepted rs -> ~ seen w s) /\
    delivered rs = src <$> chans (next_channel_seq w) (length (delivered rs)) /\
    next_channel_seq w' = chan_after (next_channel_seq w) (length (delivered rs)).
Proof.
  revert w. induction ops as [|o ops IH]; intros w Hg Hok Hsrc; cbn [run].
  { eexists _, _. split; [done|]. split_and!; try done; [apply NoDup_nil_2|set_solver]. }
  apply Forall_cons in Hok as [Ho Hok]. apply Forall_cons in Hsrc as [Hs Hsrc].
  destruct (exec_spec src w o Hg Ho Hs) as (r & w1 & -> & Hg1 & Hm & Hmono & Hr).
  cbn [mbind option_bind]. rewrite <- Hm in Hok.
  destruct (IH w1 Hg1 Hok Hsrc) as (rs & w2 & -> & Hg2 & Hnd & Hnew & Hdel & Hn2).
  cbn [mbind option_bind]. eexists _, _. split; [done|]. split; [done|].
  assert (Hnew' : forall s, s ∈ accepted rs -> ~ seen w s) by (intros s H1 H2; by apply (Hnew s H1), Hmono).
  destruct r as [s| |ds|]; cbn [accepted omap list_omap] in *.
  2, 4: change (delivered (_ :: rs)) with (delivered rs); rewrite Hr in *; by split_and!.
  - change (delivered (_ :: rs)) with (delivered rs).
    destruct Hr as (Hns & Hse & Hr). rewrite Hr in *. split_and!; try done.
    + apply NoDup_cons_2; [|done]. intros H. by apply (Hnew s H).
    + intros x [->|Hx]%elem_of_cons; auto.
  - change (delivered (_ :: rs)) with (ds ++ delivered rs).
    destruct Hr as [Hds Hr]. rewrite length_app, chans_app, fmap_app, chan_after_add.
    rewrite <- Hr, <- Hds, <- Hdel. by split_and!.
Qed.

Lemma new_good src d l :
  1 <= d -> 0 <= l < 16 -> d + 1 + 2 ^ 15 < 2 ^ 64 -> good src (new d 1 l).
Proof.
  intros Hd Hl Hb. assert (Z.shiftl 1 (l mod 64) <= 2 ^ 15).
  { rewrite Z.mod_small, Z.shiftl_1_l by lia. apply Z.pow_le_mono_r; lia. }
  split; [apply rw_new_inv; lia|cbn; lia| |].
  - cbn. unfold sat_sub. lia.
  - cbn. intros c x Hx. by rewrite lookup_empty in Hx.
Qed.

Lemma chan_after_chan n k :
  chan (n + k) + 2 < 2 ^ 64 -> chan_after (chan n) k = chan (n + k).
Proof.
  revert n. induction k as [|k IH]; intros n Hb; cbn [chan_after]; [by rewrite Nat.add_0_r|].
  assert (chan n <= chan (n + S k)) by (apply Z.lt_le_incl, chan_mono; lia).
  rewrite next_channel_seq_chan by lia. rewrite IH; [f_equal; lia|].
  replace (S n + k)%nat with (n + S k)%nat by lia. done.
Qed.

(** ** Properties *)

(** A small window, four slots from DataSeqNum 100. *)
Definition sample_ops : list op :=
  [Receive 101 2 [2; 2]; Receive 100 1 [1]; Drain; Receive 101 2 [2; 2]; Release; Dummy 102; Drain].
Definition sample_src (c : Z) : list Z := replicate (Z.to_nat c) c.

(** In-order, exactly-once delivery: whatever the network does (loss,
    duplication, reordering, dummies, window moves in any order), as long as
    the data of a ChannelSeqNum is always the sender's, a fresh window never
    panics and the chunks it delivers are exactly the sender's chunks
    [1, 2, 3, ...], in order, without gaps and without repetition, up to the
    delivery cursor. *)
Theorem delivery_in_order src d l ops :
  1 <= d -> 0 <= l < 16 -> d + 1 + 2 ^ 15 < 2 ^ 64 ->
  Forall (op_ok (max_entries (new d 1 l))) ops -> Forall (from_source src) ops ->
  exists rs w', run (new d 1 l) ops = Some (rs, w') /\
    delivered rs = src <$> chans 1 (length (delivered rs)) /\
    next_channel_seq w' = chan_after 1 (length (delivered rs)).
Proof.
  intros Hd Hl Hb Hok Hsrc.
  destruct (run_spec src ops (new d 1 l) (new_good src d l Hd Hl Hb) Hok Hsrc)
    as (rs & w' & Hrun & _ & _ & _ & Hdel & Hn). by exists rs, w'.
Qed.

Lemma delivery_in_order_witness :
  exists rs w', run (new 100 1 2) sample_ops = Some (rs, w') /\
    delivered rs = sample_src <$> chans 1 (length (delivered rs)) /\
    next_channel_seq w' = chan_after 1 (length (delivered rs)).
Proof.
  apply (delivery_in_order sample_src 100 2 sample_ops); [lia|lia|lia| |];
    repeat constructor; vm_compute; congruence.
Defined.

(** No DataSeqNum is accepted twice: over any run of a fresh window the
    sequence numbers accepted as new are pairwise distinct, so a replayed
    packet is never processed a second time. *)
Theorem accepted_at_most_once src d l ops :
  1 <= d -> 0 <= l < 16 -> d + 1 + 2 ^ 15 < 2 ^ 64 ->
  Forall (op_ok (max_entries (new d 1 l))) ops -> Forall (from_source src) ops ->
  exists rs w', run (new d 1 l) ops = Some (rs, w') /\ NoDup (accepted rs) /\
    Forall (fun s => d <= s) (accepted rs).
Proof.
  intros Hd Hl Hb Hok Hsrc.
  destruct (run_spec src ops (new d 1 l) (new_good src d l Hd Hl Hb) Hok Hsrc)
    as (rs & w' & Hrun & _ & Hnd & Hnew & _ & _). exists rs, w'. split_and!; try done.
  apply Forall_forall. intros s Hs. apply Z.nlt_ge. intros Hlt. apply (Hnew s Hs). by left.
Qed.

Lemma accepted_at_most_once_witness :
  exists rs w', run (new 100 1 2) sample_ops = Some (rs, w') /\ NoDup (accepted rs) /\
    Forall (fun s => 100 <= s) (accepted rs).
Proof.
  apply (accepted_at_most_once sample_src 100 2 sample_ops); [lia|lia|lia| |];
    repeat constructor; vm_compute; congruence.
Defined.

(** The decision on a data packet: it is accepted exactly when its
    DataSeqNum lies in the window and is new and the reorder buffer has room
    for its ChannelSeqNum (the packet at the delivery cursor always has), and a
    rejected packet leaves the window as it was. *)
Theorem receive_decision w s c data :
  inv w -> 0 <= s -> 0 <= c -> c + 2 < 2 ^ 64 ->
  exists b w', receive w s c data = Some (b, w') /\ inv w' /\
    (b = true <-> ~ refused w c /\ base_seq w <= s < base_seq w + max_entries w /\ ~ seen w s) /\
    (b = false -> w' = w) /\
    (b = true -> seen w' s /\
      (next_channel_seq w <= c -> reorder_buf w' !! c = Some data) /\
      (c < next_channel_seq w -> reorder_buf w' = reorder_buf w)).
Proof.
  intros Hw Hs Hc Hc2. destruct (receive_spec w s c data Hw Hs Hc Hc2)
    as (b & w' & Hr & Hi & Hiff & Hb & _ & _ & Hif).
  exists b, w'. split_and!; try done; [by intros ->|]. intros ->.
  destruct Hif as (Hseen & _ & Hbuf). destruct (proj1 Hiff eq_refl) as (_ & Hrange & _).
  split_and!; [apply Hseen; [lia|by left]| |]; intros H; rewrite Hbuf; zcase; try lia; [|done].
  apply lookup_insert_eq.
Qed.

Lemma receive_decision_witness :
  exists b w', receive (new 100 1 2) 101 2 [7] = Some (b, w') /\ inv w' /\ b = true.
Proof.
  destruct (receive_decision (new 100 1 2) 101 2 [7] (rw_new_inv 100 1 2 ltac:(lia) ltac:(lia))
    ltac:(lia) ltac:(lia) ltac:(lia)) as (b & w' & Hr & Hi & _).
  exists b, w'. split_and!; try done. vm_compute in Hr. congruence.
Defined.

(** The reorder buffer is bounded: in every window that satisfies the
    invariant it holds at most one entry more than the window has slots, and
    after a drain at most as many entries as slots and none at the cursor. *)
Theorem reorder_buffer_bounded w :
  inv w ->
  map_len (reorder_buf w) <= max_entries w + 1 /\
  let '(ds, w') := drain_ordered w in
  inv w' /\ map_len (reorder_buf w') <= max_entries w /\
  reorder_buf w' !! next_channel_seq w' = None.
Proof.
  intros Hw. split.
  - pose proof (inv_buf w Hw). unfold map_len in *. rewrite map_size_delete in *. case_match; cbn in *; lia.
  - pose proof (drain_ordered_spec w Hw) as H. destruct (drain_ordered w).
    destruct H as (? & _ & _ & _ & _ & _ & ? & _ & _ & ?). by split_and!.
Qed.

Lemma reorder_buffer_bounded_witness :
  map_len (reorder_buf (new 100 1 2)) <= 5 /\ inv (drain_ordered (new 100 1 2)).2.
Proof.
  destruct (reorder_buffer_bounded (new 100 1 2) (rw_new_inv 100 1 2 ltac:(lia) ltac:(lia))) as [H1 H2].
  split; [exact H1|]. destruct (drain_ordered (new 100 1 2)). apply H2.
Defined.

(** The ACK vector is faithful: expanding its runs gives back the
    reception state of every slot from the base on, and its runs are nonempty
    and alternate between received and missing. *)
Theorem ack_vector_faithful w :
  expand (ack_vector w) = is_recv <$> entries w /\ alternating (ack_vector w) /\
  (has_gaps w = existsb negb (expand (ack_vector w))).
Proof.
  rewrite ack_vector_expand. split_and!; [done| |].
  - unfold ack_vector. destruct (entries w); [done|]. by apply runs_from_alternating.
  - unfold has_gaps. induction (entries w) as [|e es IH]; [done|]. cbn. by rewrite IH.
Qed.

(** Releasing acknowledged slots and following an AckOfAcks only move the
    lower bound: nothing that was seen becomes unseen, an acknowledgment
    releases exactly the leading run of received packets (the next slot is a
    hole), and an AckOfAcks makes exactly the numbers below it count as
    seen. *)
Theorem lower_bound_moves w b :
  inv w -> base_seq w + max_entries w < 2 ^ 64 ->
  (let '(n, w') := release_acknowledged w in
   inv w' /\ base_seq w' = base_seq w + n /\ (forall s, seen w' s <-> seen w s) /\
   match entries w' with e :: _ => state e = Pending | [] => True end) /\
  inv (advance_base w b) /\ base_seq (advance_base w b) = Z.max (base_seq w) b /\
  (forall s, seen (advance_base w b) s <-> s < b \/ seen w s).
Proof.
  intros Hw Hb. destruct (release_spec w Hw Hb) as (-> & Hi & Hs).
  destruct (advance_base_spec w b Hw) as (? & ? & _ & _ & _ & _ & ?). split_and!; try done.
  unfold shifted. cbn [entries]. destruct (drop _ (entries w)) as [|e es] eqn:E; [done|].
  apply (leading_received_stop (entries w)). apply (f_equal head) in E. cbn in E.
  by rewrite <- (Nat.add_0_r (leading_received (entries w))), <- lookup_drop, <- head_lookup.
Qed.

Lemma lower_bound_moves_witness :
  (let '(n, w') := release_acknowledged (new 100 1 2) in inv w' /\ base_seq w' = 100 + n) /\
  base_seq (advance_base (new 100 1 2) 103) = 103.
Proof.
  pose proof (lower_bound_moves (new 100 1 2) 103 (rw_new_inv 100 1 2 ltac:(lia) ltac:(lia))
    ltac:(vm_compute; reflexivity)) as (H1 & _ & H2 & _).
  split; [|exact H2]. destruct (release_acknowledged (new 100 1 2)). split; apply H1.
Defined.

End RecvWindow.
