(* ===== verification/Loss.v ===== *)
(** Loss detection and the retransmit queue
    (src/crates/ironrdp-rdpeudp/src/loss.rs, reliability.rs). *)

From S2P Require Import Timing SendWindow Prelude.

Open Scope Z_scope.

(** ** ReliabilityController *)

Module Reliability.

Record RetransmitEntry := mkRetransmit { channel_seq : Z; data : list Z }.

Definition t := list RetransmitEntry.

Definition new : t := [].

Definition enqueue (q : t) (c : Z) (d : list Z) : t :=
  if existsb (fun e => channel_seq e =? c) q then q else q ++ [mkRetransmit c d].

Definition dequeue (q : t) : option RetransmitEntry * t :=
  match q with [] => (None, []) | e :: q' => (Some e, q') end.

Definition has_pending (q : t) : bool := match q with [] => false | _ => true end.

(** No ChannelSeqNum is queued twice. *)
Definition inv (q : t) : Prop := NoDup (channel_seq <$> q).

Lemma existsb_chan q c : existsb (fun e => channel_seq e =? c) q = true <-> c ∈ channel_seq <$> q.
Proof.
  rewrite existsb_exists, list_elem_of_fmap. split.
  - intros (e & He & Hc%Z.eqb_eq). exists e. split; [done|]. by apply list_elem_of_In.
  - intros (e & -> & He). exists e. split; [by apply list_elem_of_In|]. apply Z.eqb_refl.
Qed.

Lemma enqueue_inv q c d : inv q -> inv (enqueue q c d).
Proof.
  unfold inv, enqueue. intros H. destruct (existsb _ q) eqn:E; [done|].
  rewrite fmap_app. apply NoDup_app. split_and!; [done| |apply NoDup_singleton].
  intros x Hx Hx'. cbn in Hx'. apply list_elem_of_singleton in Hx' as ->.
  apply existsb_chan in Hx. congruence.
Qed.

(** The retransmit queue holds each ChannelSeqNum at most once, in the
    order of the losses: a second report keeps the entry already queued, a
    first one goes to the back, and nothing else changes. *)
Theorem enqueue_once q c d :
  inv q ->
  inv (enqueue q c d) /\
  (c ∈ channel_seq <$> q -> enqueue q c d = q) /\
  (c ∉ channel_seq <$> q -> enqueue q c d = q ++ [mkRetransmit c d]) /\
  c ∈ channel_seq <$> enqueue q c d.
Proof.
  intros H. pose proof (existsb_chan q c) as Hx.
  split_and!; [by apply enqueue_inv| | |]; unfold enqueue; destruct (existsb _ q) eqn:E; try done.
  - intros Hc. by apply Hx in Hc.
  - intros Hc. exfalso. by apply Hc, Hx.
  - by apply Hx.
  - rewrite fmap_app. cbn. set_solver.
Qed.

Lemma enqueue_once_witness :
  inv (enqueue [mkRetransmit 3 [9]] 4 [8]) /\
  4 ∈ channel_seq <$> enqueue [mkRetransmit 3 [9]] 4 [8].
Proof.
  assert (H : inv [mkRetransmit 3 [9]]) by apply NoDup_singleton.
  pose proof (enqueue_once [mkRetransmit 3 [9]] 4 [8] H) as (H1 & _ & _ & H2). exact (conj H1 H2).
Defined.

End Reliability.

(** ** LossDetector *)

Module Loss.
Import SendWindow.

Definition DEFAULT_REORDER_THRESHOLD : Z := 3.
Definition TIME_THRESHOLD_NUMERATOR : Z := 5.
Definition TIME_THRESHOLD_DENOMINATOR : Z := 4.

Record LossDetector := mkLossDetector { reorder_threshold : Z }.

Definition new : LossDetector := mkLossDetector DEFAULT_REORDER_THRESHOLD.

Definition time_threshold (rto : Z) : Z := rto * TIME_THRESHOLD_NUMERATOR / TIME_THRESHOLD_DENOMINATOR.

(** The two loss criteria on one entry. *)
Definition meets_criteria (det : LossDetector) (highest_acked : option Z) (time_thresh now : Z)
    (e : SendEntry) : bool :=
  let reorder_lost :=
    match highest_acked with
    | Some ha => (data_seq e <=? ha) && (reorder_threshold det <=? ha - data_seq e)
    | None => false
    end in
  let time_lost := time_thresh <? Instant.duration_since now (sent_at e) in
  reorder_lost || time_lost.

(** [lost_seqs.contains(&s)] *)
Definition contains (l : list Z) (s : Z) : bool := existsb (Z.eqb s) l.

(** The second pass pushes onto [lost_seqs] while it tests it. *)
Fixpoint add_lower (highest_lost : Z) (es : list SendEntry) (lost : list Z) : list Z :=
  match es with
  | [] => lost
  | e :: es' =>
      if (data_seq e <? highest_lost) && negb (contains lost (data_seq e))
      then add_lower highest_lost es' (lost ++ [data_seq e])
      else add_lower highest_lost es' lost
  end.

Definition detect (det : LossDetector) (w : SendWindow.t) (highest_acked : option Z) (rto now : Z)
    : list Z :=
  let time_thresh := time_threshold rto in
  let lost_seqs :=
    data_seq <$> filter (fun e => meets_criteria det highest_acked time_thresh now e = true)
      (pending_entries w) in
  match max_opt lost_seqs with
  | None => lost_seqs
  | Some highest_lost => merge_sort Z.le (add_lower highest_lost (pending_entries w) lost_seqs)
  end.

Lemma contains_spec l s : contains l s = true <-> s ∈ l.
Proof.
  unfold contains. rewrite existsb_exists. split.
  - intros (x & Hx & ->%Z.eqb_eq). by apply list_elem_of_In.
  - intros H. exists s. split; [by apply list_elem_of_In|apply Z.eqb_refl].
Qed.

Lemma add_lower_spec h es lost :
  NoDup lost ->
  NoDup (add_lower h es lost) /\
  forall s, s ∈ add_lower h es lost <-> s ∈ lost \/ (s < h /\ s ∈ data_seq <$> es).
Proof.
  revert lost. induction es as [|e es IH]; intros lost Hn; cbn [add_lower].
  { split; [done|]. set_solver. }
  destruct (Z.ltb_spec (data_seq e) h) as [Hl|Hl]; cbn [andb].
  - destruct (contains lost (data_seq e)) eqn:E; cbn [negb].
    + apply contains_spec in E. destruct (IH lost Hn) as [H1 H2]. split; [done|].
      intros s. rewrite H2, fmap_cons, elem_of_cons. split; [tauto|].
      intros [?|[? [->|?]]]; auto.
    + assert (E' : data_seq e ∉ lost) by (intros H; apply contains_spec in H; congruence).
      destruct (IH (lost ++ [data_seq e])) as [H1 H2].
      { apply NoDup_app. split_and!; [done| |apply NoDup_singleton]. set_solver. }
      split; [done|]. intros s. rewrite H2, fmap_cons, elem_of_cons, elem_of_app, list_elem_of_singleton.
      split; [intros [[?| ->]|[? ?]]; auto|]. intros [?|[? [->|?]]]; auto.
  - destruct (IH lost Hn) as [H1 H2]. split; [done|].
    intros s. rewrite H2, fmap_cons, elem_of_cons. split; [tauto|]. intros [?|[? [->|?]]]; auto. lia.
Qed.

Lemma foldl_max_ge x l y : y ∈ x :: l -> y <= foldl Z.max x l.
Proof.
  revert x y. induction l as [|z l IH]; intros x y H; simpl.
  - apply list_elem_of_singleton in H. lia.
  - apply elem_of_cons in H as [->|H].
    + pose proof (IH (Z.max x z) (Z.max x z) ltac:(left)). lia.
    + apply elem_of_cons in H as [->|H].
      * pose proof (IH (Z.max x z) (Z.max x z) ltac:(left)). lia.
      * apply IH. by right.
Qed.

Lemma foldl_max_in x l : foldl Z.max x l ∈ x :: l.
Proof.
  revert x. induction l as [|z l IH]; intros x; simpl; [left|].
  specialize (IH (Z.max x z)). apply elem_of_cons in IH as [->|IH]; [|set_solver].
  destruct (Z.max_spec x z) as [[_ ->]|[_ ->]]; set_solver.
Qed.

Lemma max_opt_spec l :
  match max_opt l with
  | Some m => m ∈ l /\ forall x, x ∈ l -> x <= m
  | None => l = []
  end.
Proof. destruct l as [|x l]; [done|]. split; [apply foldl_max_in|]. intros y. apply foldl_max_ge. Qed.

Lemma pending_seqs_nodup w : SendWindow.inv w -> NoDup (data_seq <$> pending_entries w).
Proof.
  intros Hw. pose proof (inv_sorted w Hw) as Hs. unfold pending_entries.
  induction (entries w) as [|e es IH]; [apply NoDup_nil_2|]. cbn in Hs.
  apply StronglySorted_inv in Hs as [Hs Hlt]. rewrite Forall_fmap, Forall_forall in Hlt.
  rewrite filter_cons. case_decide; [|by apply IH]. cbn. apply NoDup_cons_2; [|by apply IH].
  intros (x & Hx & Hin)%list_elem_of_fmap. apply list_elem_of_filter in Hin as [_ Hin].
  specialize (Hlt x Hin). cbn in Hlt. lia.
Qed.

Lemma NoDup_fmap_filter {A B} (f : A -> B) (P : A -> Prop) `{!forall x, Decision (P x)} l :
  NoDup (f <$> l) -> NoDup (f <$> filter P l).
Proof.
  induction l as [|x l IH]; [done|]. rewrite fmap_cons. intros [Hx Hl]%NoDup_cons. rewrite filter_cons.
  case_decide; [|by apply IH]. cbn. apply NoDup_cons_2; [|by apply IH].
  intros (y & Hy & Hin)%list_elem_of_fmap. apply list_elem_of_filter in Hin as [_ Hin].
  apply Hx, list_elem_of_fmap. eauto.
Qed.

Lemma detect_spec det w ha rto now :
  SendWindow.inv w ->
  StronglySorted Z.le (detect det w ha rto now) /\ NoDup (detect det w ha rto now) /\
  forall s, s ∈ detect det w ha rto now <->
    exists e, e ∈ pending_entries w /\ data_seq e = s /\
      exists e', e' ∈ pending_entries w /\ data_seq e <= data_seq e' /\
        meets_criteria det ha (time_threshold rto) now e' = true.
Proof.
  intros Hw. unfold detect.
  set (lost := data_seq <$> filter _ (pending_entries w)). pose proof (max_opt_spec lost) as Hm.
  assert (Hl : forall s, s ∈ lost <-> exists e, e ∈ pending_entries w /\ data_seq e = s /\
    meets_criteria det ha (time_threshold rto) now e = true).
  { intros s. unfold lost. rewrite list_elem_of_fmap. split.
    - intros (e & -> & [Hc He]%list_elem_of_filter). eauto.
    - intros (e & He & <- & Hc). exists e. split; [done|]. by apply list_elem_of_filter. }
  assert (Hn : NoDup lost) by (apply NoDup_fmap_filter, pending_seqs_nodup, Hw).
  destruct (max_opt lost) as [h|].
  - destruct Hm as [Hh Hmax]. destruct (add_lower_spec h (pending_entries w) lost Hn) as [H1 H2].
    pose proof (merge_sort_Permutation Z.le (add_lower h (pending_entries w) lost)) as Hp.
    split_and!.
    + apply StronglySorted_merge_sort; apply _.
    + by rewrite Hp.
    + intros s. rewrite Hp, H2. apply Hl in Hh as (eh & Heh & Hsh & Hch). split.
      * intros [Hs|[Hs Hin]].
        -- apply Hl in Hs as (e & He & Hse & Hc). exists e. split_and!; try done. exists e. split_and!; [done|lia|done].
        -- apply list_elem_of_fmap in Hin as (e & -> & He). exists e. split_and!; try done.
           exists eh. split_and!; [done|lia|done].
      * intros (e & He & <- & e' & He' & Hle & Hc).
        assert (data_seq e' <= h) by (apply Hmax, Hl; eauto).
        destruct (Z.lt_ge_cases (data_seq e) h); [right; split; [done|]; apply list_elem_of_fmap; eauto|].
        left. replace (data_seq e) with h by lia. apply Hl. eauto.
  - split_and!; [rewrite Hm; constructor|done|]. intros s. split.
    + rewrite Hm. set_solver.
    + intros (e & He & <- & e' & He' & Hle & Hc). exfalso.
      assert (data_seq e' ∈ lost) as Hi by (apply Hl; eauto). rewrite Hm in Hi. set_solver.
Qed.

(** Loss detection declares lost exactly the pending packets at or below
    one that meets a criterion (three or more numbers below the highest
    acknowledged, or in flight for more than 1.25 RTO), each once and in
    sequence order. *)
Theorem detect_exact det w ha rto now :
  SendWindow.inv w ->
  StronglySorted Z.le (detect det w ha rto now) /\ NoDup (detect det w ha rto now) /\
  forall s, s ∈ detect det w ha rto now <->
    exists e, e ∈ pending_entries w /\ data_seq e = s /\
      exists e', e' ∈ pending_entries w /\ data_seq e <= data_seq e' /\
        meets_criteria det ha (time_threshold rto) now e' = true.
Proof. apply detect_spec. Qed.

Lemma detect_exact_witness :
  detect new SendWindow.sample (Some 11) (Duration.from_millis 100) 50 = [7; 8] /\
  NoDup (detect new SendWindow.sample (Some 11) (Duration.from_millis 100) 50).
Proof.
  split; [vm_compute; reflexivity|].
  apply (detect_exact new SendWindow.sample (Some 11) (Duration.from_millis 100) 50 SendWindow.sample_inv).
Defined.

End Loss.
