(* ===== verification/Connection.v ===== *)
(** The RDP-UDP2 connection state machine
    (src/crates/ironrdp-rdpeudp/src/connection.rs, error.rs).

    Every method that takes [&mut self] is a computation of the monad [C] over
    the connection's state.  [Panic] is a Rust panic (a failed [expect], an
    overflow in [Duration::mul_f64]).  A method that returns [Result] returns a
    sum: what it did to the state before an error stays done. *)

From S2P Require Import Prelude Timing Loss RecvWindow SendWindow Congestion.
From S2P Require Import Cursor Codec Flags Seq Prefix WireV1 WireV2.

Open Scope Z_scope.

(** ** Types *)

Inductive RdpeudpErrorKind :=
| KDecode (e : DecodeErrorKind)
| KEncode (e : EncodeErrorKind)
| KPrefix (e : PrefixError)
| KInvalidState
| KSendBufferFull
| KConnectionClosed
| KInvalidPacket (reason : string).

Record SendError := mkSendError { se_error : RdpeudpErrorKind; se_data : list Z }.

Inductive Side := Client | Server.

Inductive Event :=
| Connected
| DataReceived (data : list Z)
| ConnectionClosed.

Record Transmit := mkTransmit { contents : list Z }.

Record ConnectionConfig := mkConfig {
  cfg_initial_sequence_number : Z;
  cfg_log_window_size : Z;
  cfg_upstream_mtu : Z;
  cfg_downstream_mtu : Z;
  cfg_idle_timeout : Z;
  cfg_keep_alive_interval : Z;
  cfg_cookie_hash : option (list Z);
}.

Definition default_config : ConnectionConfig :=
  mkConfig 0 10 1232 1232 (Duration.from_secs 65) (Duration.from_secs 4) None.

Definition RDPEUDP2_MTU : Z := 1232.
Definition INVALID_ACK_TIME_GAP : Z := 255.
Definition MTU_RANGE_START : Z := 1132.
Definition MTU_RANGE_END : Z := 1232.

(** [Ord::clamp] *)
Definition clamp (x lo hi : Z) : Z := if x <? lo then lo else if hi <? x then hi else x.

Definition negotiated_mtu (sender receiver : Z) : Z :=
  clamp (Z.min sender receiver) MTU_RANGE_START MTU_RANGE_END.

Definition DATA_PACKET_OVERHEAD : Z := 7.
Definition PIGGYBACK_RESERVE : Z := 134 + 2.
Definition HANDSHAKE_RETRANSMIT_LIMIT : Z := 5.
Definition SEND_BUFFER_WINDOW_MULTIPLE : Z := 8.

Inductive State := SynSent | SynReceived | Established | Closed.

#[export] Instance State_eq_dec : EqDecision State.
Proof. solve_decision. Defined.
#[export] Instance Side_eq_dec : EqDecision Side.
Proof. solve_decision. Defined.

Record Acknowledgement := mkAcknowledgement {
  a_flag : Z;
  a_ack : option AckPayload;
  a_ack_vector : option AckVectorPayload;
}.

Record NegotiatedParams := mkParams {
  local_isn : Z;
  remote_isn : Z;
  mtu : Z;
  log_window_size : Z;
}.

Record Stats := mkStats {
  datagrams_in : Z;
  datagrams_out : Z;
  data_sent : Z;
  retransmits : Z;
  retransmit_timeouts : Z;
  st_bytes_in_flight : Z;
  congestion_window : Z;
  send_queue : Z;
  rto_ms : Z;
  srtt_ms : option Z;
}.

Record RdpeudpConnection := mkConn {
  side : Side;
  state : State;
  config : ConnectionConfig;
  params : option NegotiatedParams;
  send_window : option SendWindow.t;
  recv_window : option RecvWindow.t;
  congestion : Congestion.CongestionControl;
  loss_detector : Loss.LossDetector;
  reliability : Reliability.t;
  rtt : Rtt.RttEstimator;
  timers : Timers.TimerTable;
  pending_transmits : list Transmit;
  pending_events : list Event;
  send_buffer : list (list Z);
  ack_pending : bool;
  pending_ack_of_acks : option Z;
  handshake_datagram : option (list Z);
  handshake_retransmits : Z;
  handshake_sent_at : option Z;
  stats : Stats;
  ack_delay_started_at : option Z;
  remote_timestamp_ref : Z;
  wire_buf : list Z;
}.

(** Assignments to single fields. *)
Definition with_state (v : State) (c : RdpeudpConnection) : RdpeudpConnection :=
  mkConn
    (side c) v (config c) (params c) (send_window c) (recv_window c) (congestion c)
    (loss_detector c) (reliability c) (rtt c) (timers c) (pending_transmits c)
    (pending_events c) (send_buffer c) (ack_pending c) (pending_ack_of_acks c)
    (handshake_datagram c) (handshake_retransmits c) (handshake_sent_at c) (stats c)
    (ack_delay_started_at c) (remote_timestamp_ref c) (wire_buf c).
Definition with_params (v : option NegotiatedParams) (c : RdpeudpConnection) : RdpeudpConnection :=
  mkConn
    (side c) (state c) (config c) v (send_window c) (recv_window c) (congestion c)
    (loss_detector c) (reliability c) (rtt c) (timers c) (pending_transmits c)
    (pending_events c) (send_buffer c) (ack_pending c) (pending_ack_of_acks c)
    (handshake_datagram c) (handshake_retransmits c) (handshake_sent_at c) (stats c)
    (ack_delay_started_at c) (remote_timestamp_ref c) (wire_buf c).
Definition with_send_window (v : option SendWindow.t) (c : RdpeudpConnection) : RdpeudpConnection :=
  mkConn
    (side c) (state c) (config c) (params c) v (recv_window c) (congestion c) (loss_detector
    c) (reliability c) (rtt c) (timers c) (pending_transmits c) (pending_events c)
    (send_buffer c) (ack_pending c) (pending_ack_of_acks c) (handshake_datagram c)
    (handshake_retransmits c) (handshake_sent_at c) (stats c) (ack_delay_started_at c)
    (remote_timestamp_ref c) (wire_buf c).
Definition with_recv_window (v : option RecvWindow.t) (c : RdpeudpConnection) : RdpeudpConnection :=
  mkConn
    (side c) (state c) (config c) (params c) (send_window c) v (congestion c) (loss_detector
    c) (reliability c) (rtt c) (timers c) (pending_transmits c) (pending_events c)
    (send_buffer c) (ack_pending c) (pending_ack_of_acks c) (handshake_datagram c)
    (handshake_retransmits c) (handshake_sent_at c) (stats c) (ack_delay_started_at c)
    (remote_timestamp_ref c) (wire_buf c).
Definition with_congestion (v : Congestion.CongestionControl) (c : RdpeudpConnection) : RdpeudpConnection :=
  mkConn
    (side c) (state c) (config c) (params c) (send_window c) (recv_window c) v
    (loss_detector c) (reliability c) (rtt c) (timers c) (pending_transmits c)
    (pending_events c) (send_buffer c) (ack_pending c) (pending_ack_of_acks c)
    (handshake_datagram c) (handshake_retransmits c) (handshake_sent_at c) (stats c)
    (ack_delay_started_at c) (remote_timestamp_ref c) (wire_buf c).
Definition with_reliability (v : Reliability.t) (c : RdpeudpConnection) : RdpeudpConnection :=
  mkConn
    (side c) (state c) (config c) (params c) (send_window c) (recv_window c) (congestion c)
    (loss_detector c) v (rtt c) (timers c) (pending_transmits c) (pending_events c)
    (send_buffer c) (ack_pending c) (pending_ack_of_acks c) (handshake_datagram c)
    (handshake_retransmits c) (handshake_sent_at c) (stats c) (ack_delay_started_at c)
    (remote_timestamp_ref c) (wire_buf c).
Definition with_rtt (v : Rtt.RttEstimator) (c : RdpeudpConnection) : RdpeudpConnection :=
  mkConn
    (side c) (state c) (config c) (params c) (send_window c) (recv_window c) (congestion c)
    (loss_detector c) (reliability c) v (timers c) (pending_transmits c) (pending_events c)
    (send_buffer c) (ack_pending c) (pending_ack_of_acks c) (handshake_datagram c)
    (handshake_retransmits c) (handshake_sent_at c) (stats c) (ack_delay_started_at c)
    (remote_timestamp_ref c) (wire_buf c).
Definition with_timers (v : Timers.TimerTable) (c : RdpeudpConnection) : RdpeudpConnection :=
  mkConn
    (side c) (state c) (config c) (params c) (send_window c) (recv_window c) (congestion c)
    (loss_detector c) (reliability c) (rtt c) v (pending_transmits c) (pending_events c)
    (send_buffer c) (ack_pending c) (pending_ack_of_acks c) (handshake_datagram c)
    (handshake_retransmits c) (handshake_sent_at c) (stats c) (ack_delay_started_at c)
    (remote_timestamp_ref c) (wire_buf c).
Definition with_pending_transmits (v : list Transmit) (c : RdpeudpConnection) : RdpeudpConnection :=
  mkConn
    (side c) (state c) (config c) (params c) (send_window c) (recv_window c) (congestion c)
    (loss_detector c) (reliability c) (rtt c) (timers c) v (pending_events c) (send_buffer
    c) (ack_pending c) (pending_ack_of_acks c) (handshake_datagram c) (handshake_retransmits
    c) (handshake_sent_at c) (stats c) (ack_delay_started_at c) (remote_timestamp_ref c)
    (wire_buf c).
Definition with_pending_events (v : list Event) (c : RdpeudpConnection) : RdpeudpConnection :=
  mkConn
    (side c) (state c) (config c) (params c) (send_window c) (recv_window c) (congestion c)
    (loss_detector c) (reliability c) (rtt c) (timers c) (pending_transmits c) v
    (send_buffer c) (ack_pending c) (pending_ack_of_acks c) (handshake_datagram c)
    (handshake_retransmits c) (handshake_sent_at c) (stats c) (ack_delay_started_at c)
    (remote_timestamp_ref c) (wire_buf c).
Definition with_send_buffer (v : list (list Z)) (c : RdpeudpConnection) : RdpeudpConnection :=
  mkConn
    (side c) (state c) (config c) (params c) (send_window c) (recv_window c) (congestion c)
    (loss_detector c) (reliability c) (rtt c) (timers c) (pending_transmits c)
    (pending_events c) v (ack_pending c) (pending_ack_of_acks c) (handshake_datagram c)
    (handshake_retransmits c) (handshake_sent_at c) (stats c) (ack_delay_started_at c)
    (remote_timestamp_ref c) (wire_buf c).
Definition with_ack_pending (v : bool) (c : RdpeudpConnection) : RdpeudpConnection :=
  mkConn
    (side c) (state c) (config c) (params c) (send_window c) (recv_window c) (congestion c)
    (loss_detector c) (reliability c) (rtt c) (timers c) (pending_transmits c)
    (pending_events c) (send_buffer c) v (pending_ack_of_acks c) (handshake_datagram c)
    (handshake_retransmits c) (handshake_sent_at c) (stats c) (ack_delay_started_at c)
    (remote_timestamp_ref c) (wire_buf c).
Definition with_pending_ack_of_acks (v : option Z) (c : RdpeudpConnection) : RdpeudpConnection :=
  mkConn
    (side c) (state c) (config c) (params c) (send_window c) (recv_window c) (congestion c)
    (loss_detector c) (reliability c) (rtt c) (timers c) (pending_transmits c)
    (pending_events c) (send_buffer c) (ack_pending c) v (handshake_datagram c)
    (handshake_retransmits c) (handshake_sent_at c) (stats c) (ack_delay_started_at c)
    (remote_timestamp_ref c) (wire_buf c).
Definition with_handshake_datagram (v : option (list Z)) (c : RdpeudpConnection) : RdpeudpConnection :=
  mkConn
    (side c) (state c) (config c) (params c) (send_window c) (recv_window c) (congestion c)
    (loss_detector c) (reliability c) (rtt c) (timers c) (pending_transmits c)
    (pending_events c) (send_buffer c) (ack_pending c) (pending_ack_of_acks c) v
    (handshake_retransmits c) (handshake_sent_at c) (stats c) (ack_delay_started_at c)
    (remote_timestamp_ref c) (wire_buf c).
Definition with_handshake_retransmits (v : Z) (c : RdpeudpConnection) : RdpeudpConnection :=
  mkConn
    (side c) (state c) (config c) (params c) (send_window c) (recv_window c) (congestion c)
    (loss_detector c) (reliability c) (rtt c) (timers c) (pending_transmits c)
    (pending_events c) (send_buffer c) (ack_pending c) (pending_ack_of_acks c)
    (handshake_datagram c) v (handshake_sent_at c) (stats c) (ack_delay_started_at c)
    (remote_timestamp_ref c) (wire_buf c).
Definition with_handshake_sent_at (v : option Z) (c : RdpeudpConnection) : RdpeudpConnection :=
  mkConn
    (side c) (state c) (config c) (params c) (send_window c) (recv_window c) (congestion c)
    (loss_detector c) (reliability c) (rtt c) (timers c) (pending_transmits c)
    (pending_events c) (send_buffer c) (ack_pending c) (pending_ack_of_acks c)
    (handshake_datagram c) (handshake_retransmits c) v (stats c) (ack_delay_started_at c)
    (remote_timestamp_ref c) (wire_buf c).
Definition with_stats (v : Stats) (c : RdpeudpConnection) : RdpeudpConnection :=
  mkConn
    (side c) (state c) (config c) (params c) (send_window c) (recv_window c) (congestion c)
    (loss_detector c) (reliability c) (rtt c) (timers c) (pending_transmits c)
    (pending_events c) (send_buffer c) (ack_pending c) (pending_ack_of_acks c)
    (handshake_datagram c) (handshake_retransmits c) (handshake_sent_at c) v
    (ack_delay_started_at c) (remote_timestamp_ref c) (wire_buf c).
Definition with_ack_delay_started_at (v : option Z) (c : RdpeudpConnection) : RdpeudpConnection :=
  mkConn
    (side c) (state c) (config c) (params c) (send_window c) (recv_window c) (congestion c)
    (loss_detector c) (reliability c) (rtt c) (timers c) (pending_transmits c)
    (pending_events c) (send_buffer c) (ack_pending c) (pending_ack_of_acks c)
    (handshake_datagram c) (handshake_retransmits c) (handshake_sent_at c) (stats c) v
    (remote_timestamp_ref c) (wire_buf c).
Definition with_remote_timestamp_ref (v : Z) (c : RdpeudpConnection) : RdpeudpConnection :=
  mkConn
    (side c) (state c) (config c) (params c) (send_window c) (recv_window c) (congestion c)
    (loss_detector c) (reliability c) (rtt c) (timers c) (pending_transmits c)
    (pending_events c) (send_buffer c) (ack_pending c) (pending_ack_of_acks c)
    (handshake_datagram c) (handshake_retransmits c) (handshake_sent_at c) (stats c)
    (ack_delay_started_at c) v (wire_buf c).
Definition with_wire_buf (v : list Z) (c : RdpeudpConnection) : RdpeudpConnection :=
  mkConn
    (side c) (state c) (config c) (params c) (send_window c) (recv_window c) (congestion c)
    (loss_detector c) (reliability c) (rtt c) (timers c) (pending_transmits c)
    (pending_events c) (send_buffer c) (ack_pending c) (pending_ack_of_acks c)
    (handshake_datagram c) (handshake_retransmits c) (handshake_sent_at c) (stats c)
    (ack_delay_started_at c) (remote_timestamp_ref c) v.

Abbreviation C := (M RdpeudpConnection Empty_set).

Definition modify (f : RdpeudpConnection -> RdpeudpConnection) : C unit := fun c => Ok (tt, f c).

(** [self.timers.set(..)], [.clear(..)] *)
Definition timer_set (t : Timers.Timer) (deadline : Z) : C unit :=
  modify (fun c => with_timers (Timers.set (timers c) t deadline) c).
Definition timer_clear (t : Timers.Timer) : C unit :=
  modify (fun c => with_timers (Timers.clear (timers c) t) c).
Definition push_event (e : Event) : C unit :=
  modify (fun c => with_pending_events (pending_events c ++ [e]) c).

(** [now + duration] *)
Abbreviation after := Instant.saturating_add.

(** A decode or an encode, as a value. *)
Definition try_m {E A} (r : outcome E A) : C (E + A) :=
  match r with Ok a => mret (inr a) | Err e => mret (inl e) | Panic => crash end.

(** [self.rtt.update(sample)] *)
Definition rtt_update (sample : Z) : C unit :=
  c ← gets id;
  match Rtt.update (rtt c) sample with
  | Some r => modify (with_rtt r)
  | None => crash
  end.

Definition default_stats : Stats := mkStats 0 0 0 0 0 0 0 0 0 None.

Definition bump_datagrams_in (s : Stats) : Stats :=
  mkStats (datagrams_in s ⊕ 1) (datagrams_out s) (data_sent s) (retransmits s) (retransmit_timeouts s)
    (st_bytes_in_flight s) (congestion_window s) (send_queue s) (rto_ms s) (srtt_ms s).
Definition bump_datagrams_out (s : Stats) : Stats :=
  mkStats (datagrams_in s) (datagrams_out s ⊕ 1) (data_sent s) (retransmits s) (retransmit_timeouts s)
    (st_bytes_in_flight s) (congestion_window s) (send_queue s) (rto_ms s) (srtt_ms s).
Definition bump_data_sent (s : Stats) : Stats :=
  mkStats (datagrams_in s) (datagrams_out s) (data_sent s ⊕ 1) (retransmits s) (retransmit_timeouts s)
    (st_bytes_in_flight s) (congestion_window s) (send_queue s) (rto_ms s) (srtt_ms s).
Definition bump_retransmits (s : Stats) : Stats :=
  mkStats (datagrams_in s) (datagrams_out s) (data_sent s) (retransmits s ⊕ 1) (retransmit_timeouts s)
    (st_bytes_in_flight s) (congestion_window s) (send_queue s) (rto_ms s) (srtt_ms s).
Definition bump_timeouts (s : Stats) : Stats :=
  mkStats (datagrams_in s) (datagrams_out s) (data_sent s) (retransmits s) (retransmit_timeouts s ⊕ 1)
    (st_bytes_in_flight s) (congestion_window s) (send_queue s) (rto_ms s) (srtt_ms s).
Definition bump (f : Stats -> Stats) : C unit := modify (fun c => with_stats (f (stats c)) c).

Definition new (s : Side) (cfg : ConnectionConfig) : RdpeudpConnection :=
  mkConn s SynSent cfg None None None Congestion.new Loss.new Reliability.new Rtt.new Timers.new
    [] [] [] false None None 0 None default_stats None 0 [].

Definition close : C unit :=
  c ← gets id;
  if decide (state c = Closed) then mret tt
  else
    _ ← modify (with_state Closed);
    _ ← timer_clear Timers.Retransmit;
    _ ← timer_clear Timers.AckDelay;
    _ ← timer_clear Timers.Idle;
    _ ← timer_clear Timers.KeepAlive;
    push_event ConnectionClosed.

Definition max_payload (c : RdpeudpConnection) : Z :=
  let m := match params c with Some p => Z.min (mtu p) RDPEUDP2_MTU | None => RDPEUDP2_MTU end in
  Z.max (sat_sub m (DATA_PACKET_OVERHEAD + PIGGYBACK_RESERVE)) 1.

Definition send (data : list Z) : C (SendError + unit) :=
  c ← gets id;
  match state c with
  | Closed => mret (inl (mkSendError KConnectionClosed data))
  | Established =>
      let mp := max_payload c in
      let max_entries :=
        SEND_BUFFER_WINDOW_MULTIPLE * SendWindow.usize_shl1 (cfg_log_window_size (config c)) in
      let chunks_needed := Z.max (div_ceil (llen data) mp) 1 in
      if max_entries <? llen (send_buffer c) + chunks_needed then
        mret (inl (mkSendError KSendBufferFull data))
      else if llen data <=? mp then
        _ ← modify (fun c => with_send_buffer (send_buffer c ++ [data]) c);
        mret (inr tt)
      else
        _ ← modify (fun c => with_send_buffer (send_buffer c ++ chunks (Z.to_nat mp) data) c);
        mret (inr tt)
  | _ => mret (inl (mkSendError KInvalidState data))
  end.

Definition poll_timeout (c : RdpeudpConnection) : option Z := Timers.next_deadline (timers c).

Definition poll_event : C (option Event) :=
  c ← gets id;
  match pending_events c with
  | [] => mret None
  | e :: es => _ ← modify (with_pending_events es); mret (Some e)
  end.

Definition is_established (c : RdpeudpConnection) : bool := bool_decide (state c = Established).
Definition is_closed (c : RdpeudpConnection) : bool := bool_decide (state c = Closed).
Definition conn_srtt (c : RdpeudpConnection) : option Z := Rtt.srtt (rtt c).
Definition conn_rto (c : RdpeudpConnection) : Z := Rtt.rto (rtt c).
Definition conn_mtu (c : RdpeudpConnection) : option Z := mtu <$> params c.

(** [u64::try_from(d.as_millis()).unwrap_or(u64::MAX)] *)
Definition millis_u64 (d : Z) : Z := Z.min (Duration.as_millis d) U64_MAX.

Definition conn_stats (c : RdpeudpConnection) : Stats :=
  let s := stats c in
  mkStats (datagrams_in s) (datagrams_out s) (data_sent s) (retransmits s) (retransmit_timeouts s)
    (match send_window c with Some w => SendWindow.bytes_in_flight w | None => 0 end)
    (Congestion.window (congestion c))
    (llen (send_buffer c))
    (millis_u64 (Rtt.rto (rtt c)))
    (millis_u64 <$> Rtt.srtt (rtt c)).

Definition ack_delay_timeout (c : RdpeudpConnection) : Z :=
  let FLOOR := Duration.from_millis 50 in
  let CEILING := Duration.from_millis 200 in
  match Rtt.srtt (rtt c) with
  | Some srtt => clamp (srtt / 2) FLOOR CEILING
  | None => FLOOR
  end.

Section connection.
Context {BF : Bitflags}.

(** ** Handshake: SYN generation *)

Definition enqueue_handshake (datagram : V1Datagram) : C bool :=
  r ← try_m (encode_vec datagram);
  match r with
  | inl _ => _ ← close; mret false
  | inr bytes =>
      _ ← modify (fun c => with_pending_transmits (pending_transmits c ++ [mkTransmit bytes]) c);
      _ ← modify (with_handshake_datagram (Some bytes));
      _ ← modify (with_handshake_retransmits 0);
      mret true
  end.

Definition syn_datagram_of (cfg : ConnectionConfig) : V1Datagram :=
  mkV1Datagram
    (mkFecHeader 0xFFFFFFFF (Z.shiftl 1 (cfg_log_window_size cfg)) (union V1Flags.SYN V1Flags.SYNEX))
    None None
    (Some (mkSynDataPayload (cfg_initial_sequence_number cfg) (cfg_upstream_mtu cfg) (cfg_downstream_mtu cfg)))
    None
    (Some (mkSynDataExPayload SynExFlags.VERSION_INFO_VALID UdpVersion.V3 (cfg_cookie_hash cfg))).

Definition enqueue_syn (now : Z) : C unit :=
  c ← gets id;
  ok ← enqueue_handshake (syn_datagram_of (config c));
  if ok : bool then
    _ ← modify (with_handshake_sent_at (Some now));
    _ ← timer_set Timers.Retransmit (after now (Rtt.rto (rtt c)));
    timer_set Timers.Idle (after now (cfg_idle_timeout (config c)))
  else mret tt.

Definition syn_ack_datagram_of (cfg : ConnectionConfig) (remote_isn upstream_mtu downstream_mtu : Z)
    : V1Datagram :=
  mkV1Datagram
    (mkFecHeader remote_isn (Z.shiftl 1 (cfg_log_window_size cfg))
       (union (union V1Flags.SYN V1Flags.ACK) V1Flags.SYNEX))
    None None
    (Some (mkSynDataPayload (cfg_initial_sequence_number cfg) upstream_mtu downstream_mtu))
    None
    (Some (mkSynDataExPayload SynExFlags.VERSION_INFO_VALID UdpVersion.V3 None)).

Definition enqueue_syn_ack (remote_isn upstream_mtu downstream_mtu now : Z) : C unit :=
  c ← gets id;
  ok ← enqueue_handshake (syn_ack_datagram_of (config c) remote_isn upstream_mtu downstream_mtu);
  if ok : bool then
    _ ← modify (with_handshake_sent_at (Some now));
    timer_set Timers.Retransmit (after now (Rtt.rto (rtt c)))
  else mret tt.

Definition resend_handshake_datagram : C unit :=
  c ← gets id;
  match handshake_datagram c with
  | Some datagram =>
      modify (fun c => with_pending_transmits (pending_transmits c ++ [mkTransmit datagram]) c)
  | None => mret tt
  end.

(** ** Constructors *)

Definition connect (cfg : ConnectionConfig) (now : Z)
    : outcome Empty_set (RdpeudpErrorKind + RdpeudpConnection) :=
  if LOG_WINDOW_SIZE_MAX <? cfg_log_window_size cfg then mret (inl KInvalidState)
  else if negb (is_some (cfg_cookie_hash cfg)) then mret (inl KInvalidState)
  else '(_, conn) ← enqueue_syn now (new Client cfg); mret (inr conn).

Definition accept (cfg : ConnectionConfig) (syn_datagram : V1Datagram) (now : Z)
    : outcome Empty_set (RdpeudpErrorKind + RdpeudpConnection) :=
  if LOG_WINDOW_SIZE_MAX <? cfg_log_window_size cfg then mret (inl KInvalidState)
  else
    match d_syn_data syn_datagram, d_syn_data_ex syn_datagram, cfg_cookie_hash cfg with
    | None, _, _ => mret (inl (KInvalidPacket "SYN datagram missing SynData payload"))
    | _, None, _ => mret (inl (KInvalidPacket "SYN datagram missing SynDataEx payload"))
    | _, _, None => mret (inl KInvalidState)
    | Some sd, Some sx, Some expected_hash =>
        let offered :=
          if contains (syn_ex_flags sx) SynExFlags.VERSION_INFO_VALID then udp_ver sx else UdpVersion.V1 in
        if offered <? UdpVersion.V3 then
          mret (inl (KInvalidPacket "remote's highest protocol version is below 3; the highest version both endpoints support (MS-RDPEUDP 3.1.5.1.3) would use the MS-RDPEUDP data transfer, which is not implemented"))
        else
          match cookie_hash sx with
          | None => mret (inl (KInvalidPacket "version 3 SYN carries no cookieHash"))
          | Some offered_hash =>
              if negb (bool_decide (offered_hash = expected_hash)) then
                mret (inl (KInvalidPacket "cookieHash does not match the security cookie for this multitransport request"))
              else
                let conn := with_state SynReceived (new Server cfg) in
                let remote_isn := initial_sequence_number sd in
                let local_isn := cfg_initial_sequence_number cfg in
                let mtu :=
                  Z.min (Z.min (Z.min (cfg_upstream_mtu cfg) (cfg_downstream_mtu cfg))
                    (upstream_mtu sd)) (downstream_mtu sd) in
                let conn :=
                  with_params (Some (mkParams local_isn remote_isn mtu (cfg_log_window_size cfg))) conn in
                let upstream_mtu := negotiated_mtu (upstream_mtu sd) (cfg_downstream_mtu cfg) in
                let downstream_mtu := negotiated_mtu (downstream_mtu sd) (cfg_upstream_mtu cfg) in
                '(_, conn) ←
                  (_ ← enqueue_syn_ack remote_isn upstream_mtu downstream_mtu now;
                   timer_set Timers.Idle (after now (cfg_idle_timeout cfg))) conn;
                mret (inr conn)
          end
    end.

(** ** Handshake: receiving *)

Definition sample_handshake_rtt (now : Z) : C unit :=
  c ← gets id;
  if negb (handshake_retransmits c =? 0) then mret tt
  else
    match handshake_sent_at c with
    | Some sent_at => rtt_update (Instant.duration_since now sent_at)
    | None => mret tt
    end.

Definition INITIAL_DATA_SEQ : Z := 100.

Definition transition_to_established (now : Z) : C unit :=
  _ ← modify (with_state Established);
  _ ← timer_clear Timers.Retransmit;
  _ ← modify (fun c => if decide (side c = Server) then with_handshake_datagram None c else c);
  c ← gets id;
  match params c with
  | None => crash
  | Some p =>
      let initial_channel_seq := 1 in
      _ ← modify (with_send_window
        (Some (SendWindow.new INITIAL_DATA_SEQ initial_channel_seq (log_window_size p))));
      _ ← modify (with_recv_window
        (Some (RecvWindow.new INITIAL_DATA_SEQ initial_channel_seq (log_window_size p))));
      _ ← timer_set Timers.Idle (after now (cfg_idle_timeout (config c)));
      _ ← timer_set Timers.KeepAlive (after now (cfg_keep_alive_interval (config c)));
      push_event Connected
  end.

Definition final_ack_of (cfg : ConnectionConfig) (remote_isn : Z) : V1Datagram :=
  mkV1Datagram
    (mkFecHeader remote_isn (Z.shiftl 1 (cfg_log_window_size cfg)) V1Flags.ACK)
    (Some (mkV1AckVectorHeader [mkV1AckVectorElement DatagramReceived 1]))
    None None None None.

Definition enqueue_final_ack (remote_isn : Z) : C unit :=
  c ← gets id;
  _ ← enqueue_handshake (final_ack_of (config c) remote_isn);
  mret tt.

Definition handle_syn_ack (wire : list Z) (now : Z) : C (RdpeudpErrorKind + unit) :=
  r ← try_m (decode V1Datagram wire);
  match r with
  | inl e => mret (inl (KDecode e))
  | inr datagram =>
      if negb (contains (fh_flags (d_header datagram)) (union V1Flags.SYN V1Flags.ACK)) then
        mret (inl (KInvalidPacket "expected SYN+ACK during handshake"))
      else
        match d_syn_data datagram, d_syn_data_ex datagram with
        | None, _ => mret (inl (KInvalidPacket "SYN+ACK missing SynData"))
        | _, None => mret (inl (KInvalidPacket "SYN+ACK missing SynDataEx"))
        | Some sd, Some sx =>
            if negb (UdpVersion.uses_v2_wire_format (udp_ver sx)) then
              mret (inl (KInvalidPacket "server settled on a protocol version below 3, whose data transfer is MS-RDPEUDP rather than MS-RDPEUDP2"))
            else
              c ← gets id;
              let cfg := config c in
              let local_isn := cfg_initial_sequence_number cfg in
              let remote_isn := initial_sequence_number sd in
              let mtu :=
                Z.min (Z.min (Z.min (cfg_upstream_mtu cfg) (cfg_downstream_mtu cfg))
                  (upstream_mtu sd)) (downstream_mtu sd) in
              _ ← modify (with_params
                (Some (mkParams local_isn remote_isn mtu (cfg_log_window_size cfg))));
              _ ← sample_handshake_rtt now;
              _ ← enqueue_final_ack remote_isn;
              _ ← transition_to_established now;
              mret (inr tt)
        end
  end.

(** [Result<bool, _>] that is always [Ok]. *)
Definition handle_final_ack (wire : list Z) (now : Z) : C bool :=
  r ← try_m (decode V1Datagram wire);
  match r with
  | inl _ => mret false
  | inr datagram =>
      let flags := fh_flags (d_header datagram) in
      if contains flags V1Flags.SYN then
        _ ← resend_handshake_datagram; mret true
      else if negb (contains flags V1Flags.ACK) then mret false
      else
        _ ← sample_handshake_rtt now;
        _ ← transition_to_established now;
        mret true
  end.

Definition is_repeated_syn_ack (wire : list Z) : C bool :=
  c ← gets id;
  if decide (side c <> Client) then mret false
  else
    match params c with
    | None => mret false
    | Some p =>
        r ← try_m (decode FecHeader wire);
        match r with
        | inl _ => mret false
        | inr header =>
            if negb (contains (fh_flags header) (union V1Flags.SYN V1Flags.ACK)) then mret false
            else
              r ← try_m (decode V1Datagram wire);
              match r with
              | inl _ => mret false
              | inr datagram =>
                  mret (match d_syn_data datagram with
                        | Some sd => initial_sequence_number sd =? remote_isn p
                        | None => false
                        end)
              end
        end
    end.

(** ** Loss detection *)

(** [if let Some(w) = self.send_window.as_mut()] *)
Definition set_sw (w : SendWindow.t) : C unit := modify (with_send_window (Some w)).
Definition set_rw (w : RecvWindow.t) : C unit := modify (with_recv_window (Some w)).

Definition declare_lost (data_seq : Z) : C unit :=
  c ← gets id;
  match send_window c with
  | None => mret tt
  | Some w =>
      let largest_sent := sat_sub (SendWindow.next_data_seq w) 1 in
      let '(info, w) := SendWindow.mark_lost w data_seq in
      _ ← set_sw w;
      match info with
      | None => mret tt
      | Some info =>
          let lowest_unacknowledged := SendWindow.lowest_unacknowledged w in
          _ ← modify (fun c =>
            with_congestion (Congestion.on_loss (congestion c) data_seq largest_sent).2 c);
          _ ← modify (fun c =>
            with_reliability
              (Reliability.enqueue (reliability c) (SendWindow.l_channel_seq info) (SendWindow.l_data info)) c);
          modify (with_pending_ack_of_acks (Some lowest_unacknowledged))
      end
  end.

Definition run_loss_detection (now : Z) : C unit :=
  c ← gets id;
  match send_window c with
  | None => mret tt
  | Some w =>
      let highest_acked := SendWindow.highest_acked_data_seq w in
      let rto := Rtt.rto (rtt c) in
      let lost_seqs := Loss.detect (loss_detector c) w highest_acked rto now in
      iter_m declare_lost lost_seqs
  end.

Definition retire_ack_of_acks (peer_reported_seq : Z) : C unit :=
  modify (fun c =>
    match pending_ack_of_acks c with
    | Some advertised =>
        if advertised <? peer_reported_seq then with_pending_ack_of_acks None c else c
    | None => c
    end).

Definition declare_oldest_pending_lost : C unit :=
  c ← gets id;
  match send_window c with
  | None => mret tt
  | Some w =>
      match Timers.min_opt (SendWindow.data_seq <$> SendWindow.pending_entries w) with
      | None => mret tt
      | Some oldest => declare_lost oldest
      end
  end.

Definition declare_overdue_lost (now : Z) : C unit :=
  c ← gets id;
  let rto := Rtt.rto (rtt c) in
  let overdue :=
    match send_window c with
    | None => []
    | Some w =>
        SendWindow.data_seq <$>
          filter (fun e => (rto <=? Instant.duration_since now (SendWindow.sent_at e)) = true)
            (SendWindow.pending_entries w)
    end in
  match overdue with
  | [] => declare_oldest_pending_lost
  | _ => iter_m declare_lost overdue
  end.

Definition update_retransmit_timer (now : Z) : C unit :=
  c ← gets id;
  match send_window c with
  | None => mret tt
  | Some w =>
      let has_pending := match SendWindow.pending_entries w with [] => false | _ => true end in
      if has_pending || Reliability.has_pending (reliability c) then
        if negb (Timers.is_set (timers c) Timers.Retransmit) then
          timer_set Timers.Retransmit (after now (Rtt.rto (rtt c)))
        else mret tt
      else timer_clear Timers.Retransmit
  end.

(** ** V2 packet handling *)

(** The Karn-filtered age of a packet: sent once and still pending. *)
Definition time_entry (w : SendWindow.t) (s now : Z) : option Z :=
  match SendWindow.get_by_data_seq w s with
  | Some e =>
      if (SendWindow.transmit_count e =? 1) && SendWindow.is_pending e
      then Some (Instant.duration_since now (SendWindow.sent_at e)) else None
  | None => None
  end.

(** An RTT sample less the delay the peer reports. *)
Definition sample_rtt (elapsed : option Z) (gap_ms : option Z) : C unit :=
  match elapsed, gap_ms with
  | Some elapsed, Some gap =>
      match Duration.checked_sub elapsed (Duration.from_millis gap) with
      | Some rtt_sample => rtt_update rtt_sample
      | None => mret tt
      end
  | _, _ => mret tt
  end.

Definition valid_gap (gap : Z) : option Z := if gap =? INVALID_ACK_TIME_GAP then None else Some gap.

(** What follows an acknowledgment: growth, loss detection, timers. *)
Definition after_ack (newly_acked_bytes now : Z) : C unit :=
  _ ← (if 0 <? newly_acked_bytes then
         modify (fun c => with_congestion (Congestion.on_ack (congestion c) newly_acked_bytes) c)
       else mret tt);
  _ ← run_loss_detection now;
  _ ← (if 0 <? newly_acked_bytes then
         _ ← timer_clear Timers.Retransmit;
         modify (fun c => with_rtt (Rtt.reset_backoff (rtt c)) c)
       else mret tt);
  update_retransmit_timer now.

Definition process_ack (ack : AckPayload) (now : Z) : C unit :=
  c ← gets id;
  match send_window c with
  | None => mret tt
  | Some w =>
      _ ← modify (fun c =>
        with_remote_timestamp_ref (reconstruct_timestamp (received_ts ack) (remote_timestamp_ref c)) c);
      let reference := sat_sub (SendWindow.next_data_seq w) 1 in
      let acked_seq := reconstruct_seq (seq_num ack) reference in
      if SendWindow.next_data_seq w <=? acked_seq then mret tt
      else
        let elapsed := time_entry w acked_seq now in
        let '(newly_acked_bytes, w) := SendWindow.mark_received_through w acked_seq in
        _ ← set_sw w;
        _ ← sample_rtt elapsed (valid_gap (send_ack_time_gap ack));
        _ ← after_ack newly_acked_bytes now;
        retire_ack_of_acks acked_seq
  end.

Record VectorWalk := mkWalk {
  vw_window : SendWindow.t;
  vw_seq : Z;
  vw_bytes : Z;
  vw_elapsed : option Z;
}.

(** One sequence number of the vector. *)
Definition walk_one (now : Z) (v : VectorWalk) (received : bool) : VectorWalk :=
  let v :=
    if received then
      let elapsed :=
        match time_entry (vw_window v) (vw_seq v) now with
        | Some sample => Some sample
        | None => vw_elapsed v
        end in
      let '(size, w) := SendWindow.mark_received (vw_window v) (vw_seq v) in
      mkWalk w (vw_seq v) (match size with Some n => vw_bytes v ⊕ n | None => vw_bytes v end) elapsed
    else v in
  mkWalk (vw_window v) (vw_seq v ⊕ 1) (vw_bytes v) (vw_elapsed v).

(** The sequence numbers an entry covers: a run, or the seven low bits of a
    state map. *)
Definition entry_states (e : AckVectorEntry) : list bool :=
  match e with
  | RunLength received length => replicate (Z.to_nat length) received
  | StateMap bitmap => (fun bit_pos => Z.land (Z.shiftr bitmap bit_pos) 1 =? 1) <$> [0; 1; 2; 3; 4; 5; 6]
  end.

Definition walk_entry (now : Z) (v : VectorWalk) (e : AckVectorEntry) : VectorWalk :=
  foldl (walk_one now) v (entry_states e).

Definition process_ack_vector (av : AckVectorPayload) (now : Z) : C unit :=
  c ← gets id;
  match send_window c with
  | None => mret tt
  | Some w =>
      let reference := sat_sub (SendWindow.next_data_seq w) 1 in
      let base := reconstruct_seq (base_seq_num av) reference in
      let v := foldl (walk_entry now) (mkWalk w base 0 None) (entries av) in
      _ ← set_sw (vw_window v);
      _ ← sample_rtt (vw_elapsed v) (g ← send_ack_time_gap_ms av; valid_gap g);
      _ ← after_ack (vw_bytes v) now;
      retire_ack_of_acks base
  end.

Definition process_ack_of_acks (aoa : AckOfAcksPayload) : C unit :=
  c ← gets id;
  match recv_window c with
  | None => mret tt
  | Some rw =>
      let reference := RecvWindow.highest_seq rw in
      let new_base := reconstruct_seq (ack_of_acks_seq_num aoa) reference in
      set_rw (RecvWindow.advance_base rw new_base)
  end.

(** An acknowledgment is owed. *)
Definition owe_ack (now : Z) : C unit :=
  _ ← modify (with_ack_pending true);
  c ← gets id;
  if negb (Timers.is_set (timers c) Timers.AckDelay) then
    _ ← timer_set Timers.AckDelay (after now (ack_delay_timeout c));
    modify (with_ack_delay_started_at (Some now))
  else mret tt.

Definition process_dummy_data (dh : DataHeader) (now : Z) : C unit :=
  c ← gets id;
  match recv_window c with
  | None => mret tt
  | Some rw =>
      let reference := RecvWindow.highest_seq rw in
      let data_seq := reconstruct_seq (data_seq_num dh) reference in
      match RecvWindow.receive_without_payload rw data_seq with
      | None => crash
      | Some (is_new, rw) =>
          _ ← set_rw rw;
          if is_new : bool then owe_ack now else mret tt
      end
  end.

Definition process_data (dh : DataHeader) (db : DataBody) (now : Z) : C unit :=
  c ← gets id;
  match recv_window c with
  | None => mret tt
  | Some rw =>
      let reference_data := RecvWindow.highest_seq rw in
      let data_seq := reconstruct_seq (data_seq_num dh) reference_data in
      let reference_channel := RecvWindow.next_channel_seq rw in
      let channel_seq := reconstruct_seq (channel_seq_num db) reference_channel in
      match RecvWindow.receive rw data_seq channel_seq (body_data db) with
      | None => crash
      | Some (is_new, rw) =>
          _ ← set_rw rw;
          if is_new : bool then
            let '(delivered, rw) := RecvWindow.drain_ordered rw in
            _ ← set_rw rw;
            _ ← iter_m (fun chunk => push_event (DataReceived chunk)) delivered;
            owe_ack now
          else mret tt
      end
  end.

Definition handle_v2_packet (wire : list Z) (now : Z) : C (RdpeudpErrorKind + unit) :=
  r ← try_m (fst (decode_with_prefix wire));
  match r with
  | inl e => mret (inl (KPrefix e))
  | inr (prefix, packet_bytes) =>
      r ← try_m (decode V2Packet packet_bytes);
      match r with
      | inl e => mret (inl (KDecode e))
      | inr packet =>
          _ ← modify (fun c =>
            match send_window c with
            | Some w =>
                with_send_window
                  (Some (SendWindow.set_peer_window w (h_log_window_size (p_header packet)))) c
            | None => c
            end);
          _ ← opt_m (fun ack => process_ack ack now) (p_ack packet);
          _ ← opt_m (fun av => process_ack_vector av now) (p_ack_vector packet);
          _ ← opt_m process_ack_of_acks (p_ack_of_acks packet);
          _ ← match p_data_header packet, p_data_body packet with
              | Some dh, Some db =>
                  if is_dummy prefix then process_dummy_data dh now else process_data dh db now
              | _, _ => mret tt
              end;
          mret (inr tt)
      end
  end.

Definition handle_datagram (wire : list Z) (now : Z) : C (RdpeudpErrorKind + unit) :=
  _ ← bump bump_datagrams_in;
  c ← gets id;
  match state c with
  | Closed => mret (inl KConnectionClosed)
  | st =>
      _ ← timer_set Timers.Idle (after now (cfg_idle_timeout (config c)));
      match st with
      | SynSent => handle_syn_ack wire now
      | SynReceived =>
          done ← handle_final_ack wire now;
          if done : bool then mret (inr tt)
          else
            _ ← transition_to_established now;
            handle_v2_packet wire now
      | Established =>
          repeated ← is_repeated_syn_ack wire;
          if repeated : bool then _ ← resend_handshake_datagram; mret (inr tt)
          else handle_v2_packet wire now
      | Closed => mret (inl KConnectionClosed)
      end
  end.

(** ** Transmit generation *)

Definition timestamp_units (instant : Z) : Z := us_to_timestamp_units (instant ⊗ 1000).

Definition build_ack_payload (c : RdpeudpConnection) (rw : RecvWindow.t) (now : Z) : AckPayload :=
  let cumulative_seq := RecvWindow.highest_seq rw in
  let received_at := default now (ack_delay_started_at c) in
  let gap := Duration.as_millis (Instant.duration_since now received_at) in
  mkAckPayload (truncate_seq cumulative_seq)
    (truncate_timestamp (timestamp_units received_at))
    (if gap <=? 255 then gap else 255) 0 [].

(** The inner loop of the run splitter: [Some] says it stopped at the size
    limit, which ends the outer loop too.  Every round takes at least one off
    [remaining], so that many rounds are enough. *)
Fixpoint split_run (fuel : nat) (received : bool) (remaining : Z) (acc : list AckVectorEntry)
    : bool * list AckVectorEntry :=
  match fuel with
  | O => (false, acc)
  | S fuel' =>
      if 0 <? remaining then
        if ACK_VECTOR_MAX_ENTRIES <=? llen acc then (true, acc)
        else
          let chunk := Z.min remaining 63 in
          split_run fuel' received (remaining - chunk) (acc ++ [RunLength received chunk])
      else (false, acc)
  end.

Fixpoint split_runs (runs : list (bool * Z)) (acc : list AckVectorEntry) : list AckVectorEntry :=
  match runs with
  | [] => acc
  | (received, count) :: runs' =>
      let '(full, acc) := split_run (Z.to_nat count) received count acc in
      if full : bool then acc else split_runs runs' acc
  end.

Definition build_ack_vector_payload (c : RdpeudpConnection) (rw : RecvWindow.t) (now : Z)
    : AckVectorPayload :=
  let received_at := default now (ack_delay_started_at c) in
  let ack_vec := RecvWindow.ack_vector rw in
  let entries := split_runs ack_vec [] in
  let gap := Duration.as_millis (Instant.duration_since now received_at) in
  mkAckVectorPayload (truncate_seq (RecvWindow.base_seq rw))
    (Some (truncate_timestamp (timestamp_units received_at)))
    (Some (Z.min (if gap <=? 255 then gap else 254) 254))
    entries.

Definition build_acknowledgement (c : RdpeudpConnection) (now : Z) : option Acknowledgement :=
  rw ← recv_window c;
  if RecvWindow.has_gaps rw then
    Some (mkAcknowledgement V2Flags.ACKVEC None (Some (build_ack_vector_payload c rw now)))
  else Some (mkAcknowledgement V2Flags.ACK (Some (build_ack_payload c rw now)) None).

Definition commit_acknowledgement : C unit :=
  _ ← modify (fun c =>
    match recv_window c with
    | Some rw => with_recv_window (Some (RecvWindow.release_acknowledged rw).2) c
    | None => c
    end);
  modify (with_ack_delay_started_at None).

Definition encode_v2_packet (packet : V2Packet) : C (option Transmit) :=
  r ← try_m (encode_vec packet);
  match r with
  | inl _ => mret None
  | inr packet_bytes =>
      _ ← modify (with_wire_buf []);
      c ← gets id;
      let '(res, buf) := encode_with_prefix packet_bytes false (wire_buf c) in
      _ ← modify (with_wire_buf buf);
      r ← try_m res;
      match r with
      | inl _ => mret None
      | inr _ => mret (Some (mkTransmit buf))
      end
  end.

(** The packet both builders fill in. *)
Definition v2_packet (flags log : Z) (ack : option AckPayload) (av : option AckVectorPayload)
    (aoa : option Z) (data : option (Z * Z * list Z)) : V2Packet :=
  mkV2Packet (mkV2Header flags log) ack None None
    ((fun seq => mkAckOfAcks (truncate_seq seq)) <$> aoa)
    ((fun '(ds, _, _) => mkDataHeader (truncate_seq ds)) <$> data)
    av
    ((fun '(_, cs, d) => mkDataBody (truncate_seq cs) d) <$> data).

Definition build_data_packet (data_seq channel_seq : Z) (data : list Z) (now : Z) : C (option Transmit) :=
  c ← gets id;
  match params c with
  | None => mret None
  | Some p =>
      let log := log_window_size p in
      let flags := V2Flags.DATA in
      let '(acknowledged, flags, ack, ack_vector) :=
        if ack_pending c then
          match build_acknowledgement c now with
          | Some a => (true, union flags (a_flag a), a_ack a, a_ack_vector a)
          | None => (false, flags, None, None)
          end
        else (false, flags, None, None) in
      let flags := if is_some (pending_ack_of_acks c) then union flags V2Flags.AOA else flags in
      let packet := v2_packet flags log ack ack_vector (pending_ack_of_acks c)
        (Some (data_seq, channel_seq, data)) in
      t ← encode_v2_packet packet;
      match t with
      | None => mret None
      | Some transmit =>
          _ ← (if acknowledged : bool then
                 _ ← modify (with_ack_pending false);
                 _ ← timer_clear Timers.AckDelay;
                 commit_acknowledgement
               else mret tt);
          mret (Some transmit)
      end
  end.

Definition build_standalone_ack (now : Z) : C (option Transmit) :=
  c ← gets id;
  match params c, build_acknowledgement c now with
  | Some p, Some a =>
      let flags := if is_some (pending_ack_of_acks c) then union (a_flag a) V2Flags.AOA else a_flag a in
      let packet := v2_packet flags (log_window_size p) (a_ack a) (a_ack_vector a)
        (pending_ack_of_acks c) None in
      t ← encode_v2_packet packet;
      match t with
      | None => mret None
      | Some transmit => _ ← commit_acknowledgement; mret (Some transmit)
      end
  | _, _ => mret None
  end.

Definition try_retransmit (now : Z) : C (option Transmit) :=
  c ← gets id;
  if negb (Reliability.has_pending (reliability c)) then mret None
  else
    match send_window c with
    | None => mret None
    | Some w =>
        if Congestion.window (congestion c) <=? SendWindow.bytes_in_flight w then mret None
        else if negb (SendWindow.has_capacity w) then mret None
        else
          let '(e, q) := Reliability.dequeue (reliability c) in
          _ ← modify (with_reliability q);
          match e with
          | None => mret None
          | Some entry =>
              let '(r, w) := SendWindow.push_retransmit w (Reliability.channel_seq entry)
                (Reliability.data entry) now in
              _ ← set_sw w;
              match r with
              | None => mret None
              | Some new_data_seq =>
                  t ← build_data_packet new_data_seq (Reliability.channel_seq entry)
                        (Reliability.data entry) now;
                  _ ← (if is_some t then
                         _ ← bump bump_retransmits;
                         timer_set Timers.Retransmit (after now (Rtt.rto (rtt c)))
                       else mret tt);
                  mret t
              end
          end
    end.

Definition try_send_new_data (now : Z) : C (option Transmit) :=
  c ← gets id;
  match send_buffer c with
  | [] => mret None
  | data :: rest =>
      match send_window c with
      | None => mret None
      | Some w =>
          if Congestion.window (congestion c) <=? SendWindow.bytes_in_flight w then mret None
          else if negb (SendWindow.has_capacity w) then mret None
          else
            _ ← modify (with_send_buffer rest);
            let '(r, w) := SendWindow.push w data now in
            _ ← set_sw w;
            match r with
            | None => mret None
            | Some (data_seq, channel_seq) =>
                t ← build_data_packet data_seq channel_seq data now;
                _ ← (if is_some t then
                       _ ← bump bump_data_sent;
                       c ← gets id;
                       if negb (Timers.is_set (timers c) Timers.Retransmit) then
                         timer_set Timers.Retransmit (after now (Rtt.rto (rtt c)))
                       else mret tt
                     else mret tt);
                mret t
            end
      end
  end.

(** [self.timers.set(Timer::KeepAlive, ..); return Some(t);] *)
Definition transmitted (t : Transmit) (now : Z) : C (option Transmit) :=
  c ← gets id;
  _ ← timer_set Timers.KeepAlive (after now (cfg_keep_alive_interval (config c)));
  mret (Some t).

Definition poll_transmit_inner (now : Z) : C (option Transmit) :=
  c ← gets id;
  if decide (state c = Closed) then mret None
  else
    match pending_transmits c with
    | t :: rest => _ ← modify (with_pending_transmits rest); transmitted t now
    | [] =>
        if decide (state c <> Established) then mret None
        else
          t ← try_retransmit now;
          match t with
          | Some t => transmitted t now
          | None =>
              t ← try_send_new_data now;
              match t with
              | Some t => transmitted t now
              | None =>
                  c ← gets id;
                  if ack_pending c then
                    t ← build_standalone_ack now;
                    match t with
                    | Some t =>
                        _ ← modify (with_ack_pending false);
                        _ ← timer_clear Timers.AckDelay;
                        transmitted t now
                    | None => mret None
                    end
                  else mret None
              end
          end
    end.

Definition poll_transmit (now : Z) : C (option Transmit) :=
  t ← poll_transmit_inner now;
  _ ← (if is_some t then bump bump_datagrams_out else mret tt);
  mret t.

(** ** Timer handlers *)

Definition retransmit_handshake (now : Z) : C unit :=
  c ← gets id;
  match handshake_datagram c with
  | None => mret tt
  | Some _ =>
      if HANDSHAKE_RETRANSMIT_LIMIT <=? handshake_retransmits c then close
      else
        _ ← modify (with_handshake_retransmits (handshake_retransmits c + 1));
        _ ← resend_handshake_datagram;
        timer_set Timers.Retransmit (after now (Rtt.rto (rtt c)))
  end.

Definition on_timeout : C unit := modify (fun c => with_rtt (Rtt.on_timeout (rtt c)) c).

Definition handle_retransmit_timeout (now : Z) : C unit :=
  _ ← timer_clear Timers.Retransmit;
  _ ← bump bump_timeouts;
  c ← gets id;
  if decide (state c <> Established) then
    _ ← on_timeout;
    retransmit_handshake now
  else
    _ ← declare_overdue_lost now;
    _ ← on_timeout;
    update_retransmit_timer now.

Definition handle_ack_delay_timeout : C unit :=
  _ ← timer_clear Timers.AckDelay;
  modify (with_ack_pending true).

Definition handle_idle_timeout : C unit := close.

Definition handle_keep_alive_timeout (now : Z) : C unit :=
  _ ← timer_clear Timers.KeepAlive;
  _ ← modify (with_ack_pending true);
  c ← gets id;
  timer_set Timers.KeepAlive (after now (cfg_keep_alive_interval (config c))).

Definition fire (now : Z) (t : Timers.Timer) : C unit :=
  match t with
  | Timers.Retransmit => handle_retransmit_timeout now
  | Timers.AckDelay => handle_ack_delay_timeout
  | Timers.Idle => handle_idle_timeout
  | Timers.KeepAlive => handle_keep_alive_timeout now
  end.

(** The loop over the timers that had expired when it started; it stops once
    the connection is closed. *)
Fixpoint fire_all (now : Z) (ts : list Timers.Timer) : C unit :=
  match ts with
  | [] => mret tt
  | t :: ts' =>
      c ← gets id;
      if decide (state c = Closed) then mret tt
      else _ ← fire now t; fire_all now ts'
  end.

Definition handle_timeout (now : Z) : C unit :=
  c ← gets id;
  if decide (state c = Closed) then mret tt
  else fire_all now (Timers.expired (timers c) now).

End connection.
