(* ===== verification/ConnectionInv.v ===== *)
(** The connection invariant (src/crates/ironrdp-rdpeudp/src/connection.rs)
    and what every operation of the connection does to it: a weakest
    precondition over the connection monad, in which a panic satisfies no
    postcondition, and one lemma per method. *)

From S2P Require Import Prelude Timing FloatBounds Loss RecvWindow SendWindow Congestion.
From S2P Require Import Cursor Codec Flags Seq Prefix WireV1 WireV2 Connection.

Open Scope Z_scope.

(** ** Weakest preconditions *)

Definition wp {A} (m : C A) (Q : A -> RdpeudpConnection -> Prop) (c : RdpeudpConnection) : Prop :=
  match m c with
  | Ok (a, c') => Q a c'
  | Err _ => False
  | Panic => False
  end.

Section wp_rules.
Context {A B : Type}.
Implicit Types (c : RdpeudpConnection).

Lemma wp_ret (a : A) Q c : Q a c -> wp (mret a) Q c.
Proof. done. Qed.

Lemma wp_bind (m : C A) (k : A -> C B) Q c :
  wp m (fun a => wp (k a) Q) c -> wp (m ≫= k) Q c.
Proof. unfold wp, mbind, M_bind. by destruct (m c) as [[a c']| |]. Qed.

Lemma wp_mono (m : C A) (Q Q' : A -> RdpeudpConnection -> Prop) c :
  wp m Q c -> (forall a c', Q a c' -> Q' a c') -> wp m Q' c.
Proof. unfold wp. destruct (m c) as [[a c']| |]; auto. Qed.

Lemma wp_conj (m : C A) (Q Q' : A -> RdpeudpConnection -> Prop) c :
  wp m Q c -> wp m Q' c -> wp m (fun a c' => Q a c' /\ Q' a c') c.
Proof. unfold wp. destruct (m c) as [[a c']| |]; auto. Qed.

Lemma wp_gets (f : RdpeudpConnection -> A) Q c : Q (f c) c -> wp (gets f) Q c.
Proof. done. Qed.

Lemma wp_modify f (Q : unit -> RdpeudpConnection -> Prop) c : Q tt (f c) -> wp (modify f) Q c.
Proof. done. Qed.

Lemma wp_try {E} (r : outcome E A) (Q : E + A -> RdpeudpConnection -> Prop) c :
  r <> Panic -> (forall a, r = Ok a -> Q (inr a) c) -> (forall e, r = Err e -> Q (inl e) c) ->
  wp (try_m r) Q c.
Proof. unfold wp, try_m. destruct r; cbn; intros; auto. Qed.

Lemma bind_ok (m : C A) (k : A -> C B) c a c' : m c = Ok (a, c') -> (m ≫= k) c = k a c'.
Proof. intros H. unfold mbind, M_bind. by rewrite H. Qed.

(** What [m] ends in, from a [wp]. *)
Lemma wp_run (m : C A) Q c : wp m Q c -> exists a c', m c = Ok (a, c') /\ Q a c'.
Proof. unfold wp. destruct (m c) as [[a c']| |]; [eauto|done..]. Qed.

End wp_rules.

Lemma wp_iter {A} (f : A -> C unit) (Inv : RdpeudpConnection -> Prop) xs :
  (forall x c, x ∈ xs -> Inv c -> wp (f x) (fun _ => Inv) c) ->
  forall c, Inv c -> wp (iter_m f xs) (fun _ => Inv) c.
Proof.
  induction xs as [|x xs IH]; intros Hf c Hc; [done|]. cbn [iter_m]. apply wp_bind.
  eapply wp_mono; [apply Hf; [left|done]|]. intros [] c' Hc'. apply IH; [|exact Hc'].
  intros y c'' Hy. apply Hf. by right.
Qed.

(** One step of a straight-line method body. *)
Ltac wp_step :=
  lazymatch goal with
  | |- wp (mbind _ (gets _)) _ _ => apply wp_bind, wp_gets; unfold id
  | |- wp (mbind _ (modify _)) _ _ => apply wp_bind, wp_modify
  | |- wp (mbind _ (mret _)) _ _ => apply wp_bind, wp_ret
  | |- wp (mbind _ _) _ _ => apply wp_bind
  | |- wp (mret _) _ _ => apply wp_ret
  | |- wp (modify _) _ _ => apply wp_modify
  | |- wp (gets _) _ _ => apply wp_gets
  end;
  cbv beta.

(** ** The invariant *)

(** A configuration as the field types and the protocol's MTU range allow it,
    within the window size [connect] and [accept] enforce. *)
Record cfg_ok (cfg : ConnectionConfig) : Prop := {
  cfg_isn : is_u32 (cfg_initial_sequence_number cfg);
  cfg_log : 0 <= cfg_log_window_size cfg <= LOG_WINDOW_SIZE_MAX;
  cfg_up : mtu_ok (cfg_upstream_mtu cfg);
  cfg_down : mtu_ok (cfg_downstream_mtu cfg);
  cfg_idle : 0 <= cfg_idle_timeout cfg;
  cfg_keep : 0 <= cfg_keep_alive_interval cfg;
  cfg_cookie : forall h, cfg_cookie_hash cfg = Some h -> length h = COOKIE_HASH_SIZE /\ bytes_ok h;
}.

Record params_ok (p : NegotiatedParams) : Prop := {
  po_local : is_u32 (local_isn p);
  po_remote : is_u32 (remote_isn p);
  po_mtu : mtu_ok (mtu p);
  po_log : 0 <= log_window_size p <= LOG_WINDOW_SIZE_MAX;
}.

(** A payload that fits in a data packet of the connection. *)
Definition payload_ok (mp : Z) (d : list Z) : Prop := bytes_ok d /\ llen d <= mp.

Definition WINDOW_MAX : Z := 32768.

(** The send window, with every DataSeqNum assigned so far at most [N]. *)
Record sw_ok (N mp : Z) (w : SendWindow.t) : Prop := {
  sw_inv : SendWindow.inv w;
  sw_next : SendWindow.next_data_seq w <= N;
  sw_sent : Forall (fun e => is_u64 (SendWindow.sent_at e)) (SendWindow.entries w);
  sw_pay : Forall (fun p => payload_ok mp p.2) (SendWindow.data_store w);
  sw_len : llen (SendWindow.entries w) <= WINDOW_MAX;
  sw_max : 0 <= SendWindow.max_entries w <= WINDOW_MAX;
}.

(** The receive window, with every number the peer has used so far at most
    [N]. *)
Record rw_ok (N : Z) (w : RecvWindow.t) : Prop := {
  rw_inv : RecvWindow.inv w;
  rw_high : 0 <= RecvWindow.highest_seq w <= N;
  rw_base : RecvWindow.base_seq w <= N;
  rw_next : RecvWindow.next_channel_seq w <= N;
  rw_keys : forall k, is_Some (RecvWindow.reorder_buf w !! k) -> k <= N;
  rw_max : 0 <= RecvWindow.max_entries w <= WINDOW_MAX;
}.

(** Handshake datagrams are far below the smallest MTU. *)
Definition HANDSHAKE_MAX : Z := 52.

Definition windows_empty (c : RdpeudpConnection) : Prop :=
  send_window c = None /\ recv_window c = None /\ send_buffer c = [] /\ reliability c = [].

Record cinv (N : Z) (c : RdpeudpConnection) : Prop := {
  ci_N : 65536 <= N < 2 ^ 64;
  ci_cfg : cfg_ok (config c);
  ci_rtt : RttBounds.inv (rtt c);
  ci_sent_at : forall s, handshake_sent_at c = Some s -> is_u64 s;
  ci_delay : forall s, ack_delay_started_at c = Some s -> is_u64 s;
  ci_params : forall p, params c = Some p -> params_ok p;
  ci_hs : forall d, handshake_datagram c = Some d -> llen d <= HANDSHAKE_MAX;
  ci_tx : Forall (fun t => llen (contents t) <= HANDSHAKE_MAX) (pending_transmits c);
  ci_sw : forall w, send_window c = Some w -> sw_ok N (max_payload c) w;
  ci_rw : forall w, recv_window c = Some w -> rw_ok N w;
  ci_buf : Forall (payload_ok (max_payload c)) (send_buffer c);
  ci_rel : Forall (fun e => payload_ok (max_payload c) (Reliability.data e)) (reliability c);
  ci_queue : Reliability.inv (reliability c);
  ci_pre : state c = SynSent \/ state c = SynReceived ->
    windows_empty c /\ is_Some (handshake_datagram c);
  ci_syn : state c = SynReceived -> is_Some (params c);
  ci_est : state c = Established ->
    is_Some (params c) /\ is_Some (send_window c) /\ is_Some (recv_window c);
  ci_closed : state c = Closed -> forall t, Timers.get (timers c) t = None;
}.

Lemma sw_mono N N' mp w : sw_ok N mp w -> N <= N' -> sw_ok N' mp w.
Proof. intros [] ?. constructor; try done; lia. Qed.

Lemma rw_mono N N' w : rw_ok N w -> N <= N' -> rw_ok N' w.
Proof.
  intros [] ?. constructor; try done; try lia. intros k Hk. specialize (rw_keys0 k Hk). lia.
Qed.

Lemma cinv_mono N N' c : cinv N c -> N <= N' < 2 ^ 64 -> cinv N' c.
Proof.
  intros [] HN. constructor; try done; try lia.
  - intros w Hw. eapply sw_mono; [by apply ci_sw0|lia].
  - intros w Hw. eapply rw_mono; [by apply ci_rw0|lia].
Qed.

(** ** Assignments that keep the invariant *)

Ltac cinv_keep H :=
  destruct H; constructor; first [assumption | idtac].

Section assign.
Context (N : Z) (c : RdpeudpConnection) (Hc : cinv N c).

Lemma cinv_timers v :
  (state c = Closed -> forall t, Timers.get v t = None) -> cinv N (with_timers v c).
Proof. intros. by cinv_keep Hc. Qed.
Lemma cinv_events v : cinv N (with_pending_events v c).
Proof. by cinv_keep Hc. Qed.
Lemma cinv_stats v : cinv N (with_stats v c).
Proof. by cinv_keep Hc. Qed.
Lemma cinv_ack_pending v : cinv N (with_ack_pending v c).
Proof. by cinv_keep Hc. Qed.
Lemma cinv_aoa v : cinv N (with_pending_ack_of_acks v c).
Proof. by cinv_keep Hc. Qed.
Lemma cinv_wire_buf v : cinv N (with_wire_buf v c).
Proof. by cinv_keep Hc. Qed.
Lemma cinv_ts_ref v : cinv N (with_remote_timestamp_ref v c).
Proof. by cinv_keep Hc. Qed.
Lemma cinv_congestion v : cinv N (with_congestion v c).
Proof. by cinv_keep Hc. Qed.
Lemma cinv_hs_retransmits v : cinv N (with_handshake_retransmits v c).
Proof. by cinv_keep Hc. Qed.
Lemma cinv_rtt v : RttBounds.inv v -> cinv N (with_rtt v c).
Proof. intros. by cinv_keep Hc. Qed.
Lemma cinv_sent_at v : is_u64 v -> cinv N (with_handshake_sent_at (Some v) c).
Proof. intros. cinv_keep Hc. by intros s [= <-]. Qed.
Lemma cinv_delay v : (forall s, v = Some s -> is_u64 s) -> cinv N (with_ack_delay_started_at v c).
Proof. intros. by cinv_keep Hc. Qed.
Lemma cinv_tx v :
  Forall (fun t => llen (contents t) <= HANDSHAKE_MAX) v -> cinv N (with_pending_transmits v c).
Proof. intros. by cinv_keep Hc. Qed.
Lemma cinv_hs d : llen d <= HANDSHAKE_MAX -> cinv N (with_handshake_datagram (Some d) c).
Proof.
  intros. cinv_keep Hc.
  - by intros ? [= <-].
  - intros Hp. split; [by apply ci_pre0|by eexists].
Qed.
Lemma cinv_sw w : state c = Established -> sw_ok N (max_payload c) w -> cinv N (with_send_window (Some w) c).
Proof.
  intros Hs Hw. cinv_keep Hc; cbn.
  - by intros ? [= <-].
  - rewrite Hs. by intros [?|?].
  - intros _. destruct (ci_est0 Hs) as (?&_&?). by split_and!.
Qed.
Lemma cinv_rw w : state c = Established -> rw_ok N w -> cinv N (with_recv_window (Some w) c).
Proof.
  intros Hs Hw. cinv_keep Hc; cbn.
  - by intros ? [= <-].
  - rewrite Hs. by intros [?|?].
  - intros _. destruct (ci_est0 Hs) as (?&?&_). by split_and!.
Qed.
Lemma cinv_buf v : state c = Established -> Forall (payload_ok (max_payload c)) v -> cinv N (with_send_buffer v c).
Proof. intros Hs Hw. cinv_keep Hc; cbn. rewrite Hs. by intros [?|?]. Qed.
Lemma cinv_rel v :
  state c = Established -> Forall (fun e => payload_ok (max_payload c) (Reliability.data e)) v ->
  Reliability.inv v -> cinv N (with_reliability v c).
Proof. intros Hs Hw. cinv_keep Hc; cbn. rewrite Hs. by intros [?|?]. Qed.

(** Arming or clearing a timer. *)
Lemma cinv_set t d : state c <> Closed -> cinv N (with_timers (Timers.set (timers c) t d) c).
Proof. intros. by apply cinv_timers. Qed.
Lemma cinv_clear t : cinv N (with_timers (Timers.clear (timers c) t) c).
Proof.
  apply cinv_timers. intros Hs t'. rewrite Timers.get_clear. case_decide; [done|]. by apply (ci_closed _ _ Hc).
Qed.

End assign.

#[export] Hint Resolve cinv_events cinv_stats cinv_ack_pending cinv_aoa cinv_wire_buf cinv_ts_ref
  cinv_congestion cinv_hs_retransmits cinv_rtt cinv_delay cinv_tx cinv_hs cinv_sw cinv_rw cinv_buf
  cinv_rel cinv_set cinv_clear : rdp.

(** What the methods of an established connection leave alone. *)
Record keeps (c c' : RdpeudpConnection) : Prop := {
  k_state : state c' = state c;
  k_side : side c' = side c;
  k_config : config c' = config c;
  k_params : params c' = params c;
}.

Lemma keeps_refl c : keeps c c.
Proof. done. Qed.
Lemma keeps_trans c1 c2 c3 : keeps c1 c2 -> keeps c2 c3 -> keeps c1 c3.
Proof. intros [] []. constructor; congruence. Qed.

Lemma keeps_max_payload c c' : keeps c c' -> max_payload c' = max_payload c.
Proof. intros []. unfold max_payload. by rewrite k_params0. Qed.

(** ** The windows under their operations *)

Section windows.
Context (N mp : Z).
Implicit Types (w : SendWindow.t).

Lemma sw_kept w w' :
  sw_ok N mp w -> SendWindow.inv w' ->
  SendWindow.next_data_seq w' = SendWindow.next_data_seq w ->
  SendWindow.max_entries w' = SendWindow.max_entries w ->
  (forall P Q, (forall e, P e -> P (SendWindow.set_received e)) -> SendWindow.kept P Q w w') ->
  sw_ok N mp w'.
Proof.
  intros [] Hi Hn Hm Hk.
  destruct (Hk (fun e => is_u64 (SendWindow.sent_at e)) (fun p => payload_ok mp p.2) ltac:(done))
    as (? & ? & ?); [done..|].
  constructor; try done; [lia|unfold llen in *; lia|lia].
Qed.

Lemma sw_mark_received w s : sw_ok N mp w -> sw_ok N mp (SendWindow.mark_received w s).2.
Proof.
  intros Hw. pose proof (SendWindow.mark_received_spec w s (sw_inv _ _ _ Hw)) as H.
  eapply (sw_kept w); [done|..|intros; by apply SendWindow.mark_received_kept];
    by destruct (SendWindow.mark_received w s) as [r w'], H as (?&?&?&?&?&?).
Qed.

Lemma sw_through w s :
  sw_ok N mp w ->
  sw_ok N mp (SendWindow.mark_received_through w s).2 /\ 0 <= (SendWindow.mark_received_through w s).1.
Proof.
  intros Hw. pose proof (SendWindow.mark_received_through_spec w s (sw_inv _ _ _ Hw)) as H.
  split.
  - eapply (sw_kept w); [done|..|intros; by apply SendWindow.mark_received_through_kept];
      by destruct (SendWindow.mark_received_through w s) as [r w'], H as (?&?&?&?&?&?&?).
  - destruct (SendWindow.mark_received_through w s) as [r w'], H as (Hi&Ha&Hb&_). cbn.
    pose proof (SendWindow.abs_bytes w (sw_inv _ _ _ Hw)) as H1.
    pose proof (SendWindow.abs_bytes w' Hi) as H2. rewrite Ha in H2.
    enough (SendWindow.flight_bytes (filter (fun f => s < SendWindow.f_seq f) (SendWindow.abs w)) <=
      SendWindow.flight_bytes (SendWindow.abs w)) by lia.
    unfold SendWindow.flight_bytes. clear. induction (SendWindow.abs w) as [|f fs IH]; [done|]. rewrite filter_cons.
    pose proof (llen_nonneg (SendWindow.f_data f)). case_decide; cbn [foldr]; lia.

Qed.

Lemma abs_payload w f :
  sw_ok N mp w -> f ∈ SendWindow.abs w -> payload_ok mp (SendWindow.f_data f).
Proof.
  intros Hw Hf. apply list_elem_of_lookup in Hf as [i Hi]. unfold SendWindow.abs in Hi.
  apply lookup_zip_with_Some in Hi as (e & p & -> & _ & Hp). cbn.
  exact (Forall_lookup_1 _ _ _ _ (sw_pay _ _ _ Hw) Hp).
Qed.

Lemma sw_mark_lost w s :
  sw_ok N mp w ->
  sw_ok N mp (SendWindow.mark_lost w s).2 /\
  (forall i, (SendWindow.mark_lost w s).1 = Some i -> payload_ok mp (SendWindow.l_data i)).
Proof.
  intros Hw. pose proof (SendWindow.mark_lost_spec w s (sw_inv _ _ _ Hw)) as H.
  split.
  - eapply (sw_kept w); [done|..|intros; by apply SendWindow.mark_lost_kept];
      by destruct (SendWindow.mark_lost w s) as [r w'], H as (?&?&?&?&?&?).
  - destruct (SendWindow.mark_lost w s) as [r w'], H as (?&?&?&?&?&H). cbn. intros i ->.
    destruct H as (Hin & _). by apply (abs_payload w _ Hw) in Hin.
Qed.

Lemma flight_bound w : 0 <= mp <= 1232 -> sw_ok N mp w -> SendWindow.bytes_in_flight w <= 1232 * WINDOW_MAX.
Proof.
  intros Hmp [Hi _ _ Hp Hl _]. rewrite (SendWindow.inv_bytes _ Hi).
  assert (Hlen : llen (SendWindow.pending_entries w) <= llen (SendWindow.entries w)).
  { unfold llen, SendWindow.pending_entries. apply inj_le, length_filter. }
  enough (forall es store, Forall2 SendWindow.stored es store -> Forall (fun p => payload_ok mp p.2) store ->
    SendWindow.sum_size es <= 1232 * llen es).
  { specialize (H _ _ (SendWindow.inv_store _ Hi) Hp). lia. }
  clear -Hmp. intros es store H. induction H as [|e p es store [_ He] _ IH]; [done|].
  intros [[_ Hp] Hs]%Forall_cons. specialize (IH Hs). rewrite llen_cons. unfold SendWindow.sum_size in *. cbn [foldr]. lia.
Qed.

Lemma sw_append w e data ch :
  0 <= mp <= 1232 -> sw_ok N mp w -> N + 1 < 2 ^ 64 -> payload_ok mp data ->
  SendWindow.has_capacity w = true ->
  SendWindow.data_seq e = SendWindow.next_data_seq w -> SendWindow.state e = SendWindow.Pending ->
  SendWindow.size e = llen data -> is_u64 (SendWindow.sent_at e) ->
  sw_ok (N + 1) mp
    (SendWindow.mk (SendWindow.entries w ++ [e])
       (SendWindow.data_store w ++ [(SendWindow.next_data_seq w, data)])
       (SendWindow.next_data_seq w ⊕ 1) ch (SendWindow.bytes_in_flight w ⊕ llen data)
       (SendWindow.max_entries w)).
Proof.
  intros Hmp Hw HN Hd Hcap He Hst Hsz Hnow. pose proof (flight_bound w Hmp Hw) as Hb. unfold WINDOW_MAX in Hb.
  destruct Hw as [Hi Hn Hsent Hpay Hlen Hmax]. pose proof (SendWindow.inv_next _ Hi).
  destruct (SendWindow.append_inv w e data ch Hi) as [Hi' _]; [lia|destruct Hd; lia|done..|].
  apply Z.ltb_lt in Hcap.
  constructor; cbn [SendWindow.next_data_seq SendWindow.entries SendWindow.data_store SendWindow.max_entries].
  - exact Hi'.
  - rewrite wadd64_small by width. lia.
  - apply Forall_app. split; [done|]. by constructor.
  - apply Forall_app. split; [done|]. by constructor.
  - rewrite llen_app, llen_cons, llen_nil. lia.
  - done.
Qed.

Lemma sw_push w data now :
  0 <= mp <= 1232 -> sw_ok N mp w -> N + 1 < 2 ^ 64 -> payload_ok mp data -> is_u64 now ->
  SendWindow.has_capacity w = true ->
  exists w', SendWindow.push w data now =
    (Some (SendWindow.next_data_seq w, SendWindow.next_channel_seq w), w') /\ sw_ok (N + 1) mp w'.
Proof.
  intros Hmp Hw HN Hd Hnow Hcap. unfold SendWindow.push. rewrite Hcap. cbn [negb].
  eexists. split; [done|].
  by apply (sw_append w (SendWindow.mkEntry _ _ _ _ _ _)).
Qed.

Lemma sw_push_retransmit w ch data now :
  0 <= mp <= 1232 -> sw_ok N mp w -> N + 1 < 2 ^ 64 -> payload_ok mp data -> is_u64 now ->
  SendWindow.has_capacity w = true ->
  exists w', SendWindow.push_retransmit w ch data now = (Some (SendWindow.next_data_seq w), w') /\
    sw_ok (N + 1) mp w'.
Proof.
  intros Hmp Hw HN Hd Hnow Hcap. unfold SendWindow.push_retransmit. rewrite Hcap. cbn [negb].
  eexists. split; [done|].
  by apply (sw_append w (SendWindow.mkEntry _ _ _ _ _ _)).
Qed.

Lemma shl1_range n : 0 <= n <= 15 -> 0 <= SendWindow.usize_shl1 n <= WINDOW_MAX.
Proof.
  intros Hn. unfold SendWindow.usize_shl1, WINDOW_MAX. rewrite Z.mod_small by lia.
  rewrite Z.shiftl_mul_pow2, Z.mul_1_l by lia. change 32768 with (2 ^ 15).
  split; [lia|]. apply Z.pow_le_mono_r; lia.
Qed.

Lemma sw_set_peer w n : 0 <= n -> sw_ok N mp w -> sw_ok N mp (SendWindow.set_peer_window w n).
Proof.
  intros Hn [Hi Hx Hs Hp Hl Hm]. unfold SendWindow.set_peer_window.
  constructor; cbn [SendWindow.next_data_seq SendWindow.entries SendWindow.data_store SendWindow.max_entries];
    try done; [|apply shl1_range; lia].
  destruct Hi. constructor; done.
Qed.

Lemma sw_new d ch l : is_u64 d -> d <= N -> 0 <= l <= 15 -> sw_ok N mp (SendWindow.new d ch l).
Proof.
  intros Hd HN Hl. constructor;
    [by apply SendWindow.sw_new_inv|cbn; lia|constructor|constructor|done|by apply shl1_range].
Qed.

End windows.

Section recv_windows.
Implicit Types (w : RecvWindow.t).

Lemma rw_receive N M' w s ch data :
  rw_ok N w -> 0 <= s <= M' -> 0 <= ch <= M' -> N <= M' -> M' + 2 < 2 ^ 64 ->
  exists b w', RecvWindow.receive w s ch data = Some (b, w') /\ rw_ok M' w'.
Proof.
  intros Hw Hs Hch HN HM. pose proof (rw_mono _ _ _ Hw HN) as Hw'.
  destruct (RecvWindow.receive_spec w s ch data (rw_inv _ _ Hw)) as (b & w' & -> & Hi & _ & Hb & Hnx & Hmx & H); [lia..|].
  exists b, w'. split; [done|]. destruct b; [|by subst w'].
  destruct H as (_ & Hh & Hbuf). destruct Hw'. constructor; try done; try lia.
  rewrite Hbuf. destruct (ch <? _); [done|]. intros k [d Hk].
  apply lookup_insert_Some in Hk as [[<- _]|[_ Hk]]; [lia|]. by apply rw_keys0.
Qed.

Lemma rw_receive_without N M' w s :
  rw_ok N w -> 0 <= s <= M' -> N <= M' ->
  exists b w', RecvWindow.receive_without_payload w s = Some (b, w') /\ rw_ok M' w'.
Proof.
  intros Hw Hs HN. pose proof (rw_mono _ _ _ Hw HN) as Hw'. unfold RecvWindow.receive_without_payload.
  destruct (RecvWindow.occupy_slot_spec w s None ltac:(lia)) as (b & w' & -> & Hb & H).
  exists b, w'. split; [done|]. destruct b; [|by subst w']. destruct (proj1 Hb eq_refl) as [Hr _].
  destruct (RecvWindow.occupy_inv w s None (rw_inv _ _ Hw) Hr) as [Hi _]. cbv zeta in Hi. rewrite <- H in Hi.
  destruct Hw'. subst w'. constructor; cbn [RecvWindow.highest_seq RecvWindow.base_seq
    RecvWindow.next_channel_seq RecvWindow.reorder_buf RecvWindow.max_entries]; try done; lia.
Qed.

Lemma chans_last ch n : RecvWindow.chans ch (S n) !! n = Some (RecvWindow.chan_after ch n).
Proof. revert ch. induction n as [|n IH]; intros ch; [done|]. exact (IH _). Qed.

Lemma rw_drain N w :
  rw_ok N w -> rw_ok (N + 2) (RecvWindow.drain_ordered w).2.
Proof.
  intros Hw. pose proof (RecvWindow.drain_ordered_spec w (rw_inv _ _ Hw)) as H.
  destruct (RecvWindow.drain_ordered w) as [ds w'].
  destruct H as (Hi & _ & Hb & Hh & Hm & Hn & _ & Hsub & Hks & _). cbn [snd].
  destruct Hw as [Hi0 ? ? ? Hk0 ?]. constructor; try done; try lia.
  - rewrite Hn. destruct (length ds) as [|n] eqn:El; [cbn; lia|].
    assert (exists d, ds !! n = Some d) as [d Hd] by (apply lookup_lt_is_Some; lia).
    specialize (Hks n _ (chans_last _ n)). rewrite Hd in Hks.
    assert (Hkey : is_Some (RecvWindow.reorder_buf w !! RecvWindow.chan_after (RecvWindow.next_channel_seq w) n)) by eauto.
    specialize (Hk0 _ Hkey). destruct (RecvWindow.inv_keys _ Hi0 _ Hkey) as [Hk1 _].
    replace (S n) with (n + 1)%nat by lia. rewrite RecvWindow.chan_after_add. cbn [RecvWindow.chan_after].
    rewrite next_channel_seq_spec by lia. zcase; lia.
  - intros k [d Hk]. eapply lookup_weaken in Hk; [|exact Hsub]. specialize (Hk0 k (mk_is_Some _ _ Hk)). lia.
Qed.

Lemma rw_release N w :
  rw_ok N w -> N + WINDOW_MAX < 2 ^ 64 -> rw_ok (N + 1) (RecvWindow.release_acknowledged w).2.
Proof.
  intros Hw HN. unfold WINDOW_MAX in *. pose proof Hw as [Hi ? ? ? Hk Hmx]. unfold WINDOW_MAX in Hmx.
  destruct (RecvWindow.release_spec w Hi) as (-> & Hi' & _); [lia|]. cbn [snd].
  pose proof (RecvWindow.inv_highest _ Hi) as Hh. pose proof (RecvWindow.leading_received_le (RecvWindow.entries w)).
  unfold RecvWindow.shifted in *.
  constructor; cbn [RecvWindow.highest_seq RecvWindow.base_seq
    RecvWindow.next_channel_seq RecvWindow.reorder_buf RecvWindow.max_entries]; try done; try lia.
  - destruct (RecvWindow.entries w) as [|e es] eqn:Ee; [cbn; lia|]. rewrite <- Ee in *. unfold llen in Hh. lia.
  - intros k Hk'. specialize (Hk k Hk'). lia.
Qed.

Lemma rw_advance N M' w b :
  rw_ok N w -> b <= M' -> N <= M' -> rw_ok M' (RecvWindow.advance_base w b).
Proof.
  intros Hw Hb HN. pose proof (rw_mono _ _ _ Hw HN) as [].
  destruct (RecvWindow.advance_base_spec w b (rw_inv _ _ Hw)) as (Hi & Hbs & Hn & Hbuf & Hm & Hh & _).
  constructor; rewrite ?Hbuf, ?Hbs; try done; lia.
Qed.

Lemma rw_new N l : 100 <= N -> 0 <= l <= 15 -> rw_ok N (RecvWindow.new 100 1 l).
Proof.
  intros HN Hl. constructor;
    [by apply RecvWindow.rw_new_inv|unfold RecvWindow.new, sat_sub; cbn [RecvWindow.highest_seq]; lia|cbn; lia..| |].
  - intros k [? Hk]. unfold RecvWindow.new in Hk. cbn [RecvWindow.reorder_buf] in Hk. by rewrite lookup_empty in Hk.
  - by apply (shl1_range l).
Qed.

End recv_windows.

(** ** The methods *)

Definition stays (N : Z) (c c' : RdpeudpConnection) : Prop := cinv N c' /\ keeps c c'.

Lemma stays_trans N N' c1 c2 c3 : stays N c1 c2 -> stays N' c2 c3 -> stays N' c1 c3.
Proof. intros [_ H1] [H2 H3]. split; [done|]. by eapply keeps_trans. Qed.

Lemma stays_mono N N' c c' : stays N c c' -> N <= N' < 2 ^ 64 -> stays N' c c'.
Proof. intros [H1 H2] ?. split; [|done]. by eapply cinv_mono. Qed.

Lemma stays_set N c f :
  cinv N (f c) -> keeps c (f c) -> stays N c (f c).
Proof. by split. Qed.

Lemma stays_state N c c' s : stays N c c' -> state c = s -> state c' = s.
Proof. intros [_ []]. congruence. Qed.

Lemma max_payload_range c : 1 <= max_payload c <= 1089.
Proof.
  unfold max_payload, RDPEUDP2_MTU, sat_sub, DATA_PACKET_OVERHEAD, PIGGYBACK_RESERVE.
  destruct (params c); lia.
Qed.

(** A method that leaves the connection as [stays] describes. *)
Ltac stays_tac :=
  split; [eauto 10 with rdp | constructor; reflexivity].

(** Runs a method whose lemma ends in [stays], from a connection that already
    [stays]. *)
Ltac wp_stays lem :=
  eapply wp_mono; [apply lem | ]; [..|intros ? ? ?; cbv beta in *].

Section methods.
Context {BF : Bitflags}.
Implicit Types (c : RdpeudpConnection).

Lemma established_not_closed c : state c = Established -> state c <> Closed.
Proof. congruence. Qed.
Local Hint Resolve established_not_closed : rdp.

Lemma wp_timer_set N c t d :
  cinv N c -> state c <> Closed -> wp (timer_set t d) (fun _ => stays N c) c.
Proof. intros Hc Hs. apply wp_modify. stays_tac. Qed.

Lemma wp_timer_clear N c t : cinv N c -> wp (timer_clear t) (fun _ => stays N c) c.
Proof. intros Hc. apply wp_modify. stays_tac. Qed.

Lemma wp_bump N c f : cinv N c -> wp (bump f) (fun _ => stays N c) c.
Proof. intros Hc. apply wp_modify. stays_tac. Qed.

Lemma wp_push_event N c e : cinv N c -> wp (push_event e) (fun _ => stays N c) c.
Proof. intros Hc. apply wp_modify. stays_tac. Qed.

Lemma wp_rtt_update N c sample :
  cinv N c -> 0 <= sample <= RTT_MAX -> wp (rtt_update sample) (fun _ => stays N c) c.
Proof.
  intros Hc Hs. unfold rtt_update. wp_step.
  destruct (RttBounds.update_total (rtt c) sample (ci_rtt _ _ Hc) Hs) as (e & -> & He).
  apply wp_modify. stays_tac.
Qed.

Lemma wp_declare_lost N c s :
  cinv N c -> state c = Established -> wp (declare_lost s) (fun _ => stays N c) c.
Proof.
  intros Hc Hs. unfold declare_lost. wp_step.
  destruct (send_window c) as [w|] eqn:Ew; [|by apply wp_ret].
  destruct (sw_mark_lost N (max_payload c) w s (ci_sw _ _ Hc w Ew)) as [Hw Hp].
  destruct (SendWindow.mark_lost w s) as [info w']. cbn [fst snd] in *.
  apply wp_bind, wp_modify.
  assert (Hc1 : cinv N (with_send_window (Some w') c)) by by apply cinv_sw.
  destruct info as [info|]; [|apply wp_ret; by split].
  do 2 wp_step. apply wp_modify. split; [|by constructor].
  apply cinv_aoa, cinv_rel; [by apply cinv_congestion|done| |].
  - unfold Reliability.enqueue. pose proof (ci_rel _ _ Hc) as Hr. cbn.
    destruct (existsb _ _); [done|]. apply Forall_app. split; [done|]. constructor; [|done]. exact (Hp info eq_refl).
  - apply Reliability.enqueue_inv, (ci_queue _ _ Hc).
Qed.

Lemma wp_declare_all N c ss :
  cinv N c -> state c = Established -> wp (iter_m declare_lost ss) (fun _ => stays N c) c.
Proof.
  intros Hc Hs. apply (wp_iter _ (stays N c)); [|by split].
  intros s c' _ Hst. eapply wp_mono; [apply wp_declare_lost; [apply Hst|by eapply stays_state]|].
  intros [] c'' ?. by eapply stays_trans.
Qed.

Lemma wp_run_loss_detection N c now :
  cinv N c -> state c = Established -> wp (run_loss_detection now) (fun _ => stays N c) c.
Proof.
  intros Hc Hs. unfold run_loss_detection. wp_step.
  destruct (send_window c); [by apply wp_declare_all|by apply wp_ret].
Qed.

Lemma wp_declare_overdue_lost N c now :
  cinv N c -> state c = Established -> wp (declare_overdue_lost now) (fun _ => stays N c) c.
Proof.
  intros Hc Hs. unfold declare_overdue_lost. wp_step.
  match goal with |- context [match ?l with [] => _ | _ :: _ => _ end] => destruct l end;
    [|by apply wp_declare_all].
  unfold declare_oldest_pending_lost. wp_step. destruct (send_window c); [|by apply wp_ret].
  destruct (Timers.min_opt _); [by apply wp_declare_lost|by apply wp_ret].
Qed.

Lemma wp_update_retransmit_timer N c now :
  cinv N c -> state c = Established -> wp (update_retransmit_timer now) (fun _ => stays N c) c.
Proof.
  intros Hc Hs. unfold update_retransmit_timer. wp_step.
  destruct (send_window c); [|by apply wp_ret].
  destruct (_ || _); [|by apply wp_timer_clear]. destruct (negb _); [|by apply wp_ret].
  apply wp_timer_set; [done|congruence].
Qed.

Lemma wp_retire N c s : cinv N c -> wp (retire_ack_of_acks s) (fun _ => stays N c) c.
Proof.
  intros Hc. apply wp_modify. destruct (pending_ack_of_acks c); [|by split].
  destruct (_ <? _); [stays_tac|by split].
Qed.

Lemma wp_sample_rtt N c elapsed gap :
  cinv N c -> (forall e, elapsed = Some e -> 0 <= e <= RTT_MAX) -> (forall g, gap = Some g -> 0 <= g) ->
  wp (sample_rtt elapsed gap) (fun _ => stays N c) c.
Proof.
  intros Hc He Hg. unfold sample_rtt. destruct elapsed as [e|]; [|by apply wp_ret].
  destruct gap as [g|]; [|by apply wp_ret]. specialize (He e eq_refl). specialize (Hg g eq_refl).
  unfold Duration.checked_sub. destruct (_ <=? _) eqn:E; [|by apply wp_ret].
  apply wp_rtt_update; [done|]. apply Z.leb_le in E. unfold Duration.from_millis in *. lia.
Qed.

Lemma wp_after_ack N c bytes now :
  cinv N c -> state c = Established -> wp (after_ack bytes now) (fun _ => stays N c) c.
Proof.
  intros Hc Hs. unfold after_ack.
  assert (H1 : wp (if 0 <? bytes then modify (fun c => with_congestion (Congestion.on_ack (congestion c) bytes) c)
    else mret tt) (fun _ => stays N c) c).
  { destruct (0 <? bytes); [apply wp_modify; stays_tac|by apply wp_ret]. }
  apply wp_bind. eapply wp_mono; [exact H1|]. intros [] c1 H2.
  apply wp_bind. eapply wp_mono; [apply wp_run_loss_detection; [apply H2|by eapply stays_state]|].
  intros [] c2 H3. pose proof (stays_trans _ _ _ _ _ H2 H3) as H4.
  apply wp_bind. apply (wp_mono _ (fun _ => stays N c)).
  - destruct (0 <? bytes); [|by apply wp_ret]. apply wp_bind, wp_modify, wp_modify.
    eapply stays_trans; [exact H4|]. split; [|by constructor].
    apply cinv_rtt; [apply cinv_clear, H4|]. apply RttBounds.recompute_inv, (ci_rtt _ _ (proj1 H4)).
  - intros [] c3 H5. eapply wp_mono; [apply wp_update_retransmit_timer; [apply H5|by eapply stays_state]|].
    intros [] c4 ?. by eapply stays_trans.
Qed.

Lemma duration_since_range now earlier :
  is_u64 now -> is_u64 earlier -> 0 <= Instant.duration_since now earlier <= RTT_MAX.
Proof. intros. apply RttBounds.from_millis_range. unfold sat_sub. width. Qed.

Lemma time_entry_range N mp w s now e :
  sw_ok N mp w -> is_u64 now -> time_entry w s now = Some e -> 0 <= e <= RTT_MAX.
Proof.
  intros Hw Hn. unfold time_entry, SendWindow.get_by_data_seq.
  destruct (SendWindow.find_seq s (SendWindow.entries w)) as [[i x]|] eqn:E; [|done]. cbn.
  destruct (_ && _); [|done]. intros [= <-]. apply duration_since_range; [done|].
  apply list_find_Some in E as (Hi & _). exact (Forall_lookup_1 _ _ _ _ (sw_sent _ _ _ Hw) Hi).
Qed.

Lemma valid_gap_nonneg g g' : is_u8 g -> valid_gap g = Some g' -> 0 <= g'.
Proof. unfold valid_gap. intros Hg. destruct (_ =? _); [done|]. intros [= <-]. width. Qed.

(** What follows the marking of a send window. *)
Lemma wp_ack_tail N c elapsed gap bytes now s :
  cinv N c -> state c = Established ->
  (forall e, elapsed = Some e -> 0 <= e <= RTT_MAX) -> (forall g, gap = Some g -> 0 <= g) ->
  wp (_ ← sample_rtt elapsed gap; _ ← after_ack bytes now; retire_ack_of_acks s) (fun _ => stays N c) c.
Proof.
  intros Hc Hs He Hg. apply wp_bind. eapply wp_mono; [by apply wp_sample_rtt|]. intros [] c1 H1.
  apply wp_bind. eapply wp_mono; [apply wp_after_ack; [apply H1|by eapply stays_state]|]. intros [] c2 H2.
  pose proof (stays_trans _ _ _ _ _ H1 H2) as H3.
  eapply wp_mono; [apply wp_retire, H3|]. intros [] c3 H4. by eapply stays_trans.
Qed.

Lemma wp_process_ack N c ack now :
  cinv N c -> state c = Established -> is_u64 now -> AckPayload_wf ack ->
  wp (process_ack ack now) (fun _ => stays N c) c.
Proof.
  intros Hc Hs Hn (_ & _ & Hg & _). unfold process_ack. wp_step.
  destruct (send_window c) as [w|] eqn:Ew; [|by apply wp_ret]. wp_step.
  pose proof (ci_sw _ _ Hc w Ew) as Hw.
  set (s := reconstruct_seq _ _).
  assert (Hc1 : forall v, cinv N (with_remote_timestamp_ref v c)) by (intros; by apply cinv_ts_ref).
  destruct (_ <=? s); [apply wp_ret; by split|].
  pose proof (sw_through N (max_payload c) w s Hw) as [Hw' _].
  pose proof (fun e => time_entry_range N (max_payload c) w s now e Hw Hn) as Ht.
  destruct (SendWindow.mark_received_through w s) as [bytes w']. cbn [snd] in Hw'.
  unfold set_sw. wp_step. eapply wp_mono; [apply (wp_ack_tail N)|].
  - apply cinv_sw; [apply Hc1|done|done].
  - done.
  - exact Ht.
  - intros g. by apply valid_gap_nonneg.
  - intros [] c' [H1 H2]. split; [done|]. destruct H2. by constructor.
Qed.

Definition walk_ok (N mp : Z) (v : VectorWalk) : Prop :=
  sw_ok N mp (vw_window v) /\ forall e, vw_elapsed v = Some e -> 0 <= e <= RTT_MAX.

Lemma walk_one_ok N mp now v b : is_u64 now -> walk_ok N mp v -> walk_ok N mp (walk_one now v b).
Proof.
  intros Hn [Hw He]. unfold walk_one. destruct b; [|done].
  pose proof (sw_mark_received N mp (vw_window v) (vw_seq v) Hw) as Hm.
  destruct (SendWindow.mark_received (vw_window v) (vw_seq v)) as [size w]. split; [done|]. cbn.
  intros e. destruct (time_entry _ _ _) eqn:E; [|by apply He]. intros [= <-]. exact (time_entry_range _ _ _ _ _ _ Hw Hn E).
Qed.

Lemma foldl_ind {A B} (P : B -> Prop) (f : B -> A -> B) xs b :
  (forall b x, P b -> P (f b x)) -> P b -> P (foldl f b xs).
Proof. intros Hf. revert b. induction xs as [|x xs IH]; intros b Hb; [done|]. cbn. by apply IH, Hf. Qed.

Lemma wp_process_ack_vector N c av now :
  cinv N c -> state c = Established -> is_u64 now -> AckVectorPayload_wf av ->
  wp (process_ack_vector av now) (fun _ => stays N c) c.
Proof.
  intros Hc Hs Hn (_ & _ & _ & Hg & _). unfold process_ack_vector. wp_step.
  destruct (send_window c) as [w|] eqn:Ew; [|by apply wp_ret].
  pose proof (ci_sw _ _ Hc w Ew) as Hw. set (base := reconstruct_seq _ _).
  assert (Hv : walk_ok N (max_payload c) (foldl (walk_entry now) (mkWalk w base 0 None) (entries av))).
  { apply foldl_ind; [|split; [done|by intros e]]. intros v e Hv. unfold walk_entry.
    apply foldl_ind; [|done]. intros v' b. by apply walk_one_ok. }
  destruct (foldl _ _ _) as [w' s bytes elapsed], Hv as [Hw' He]. cbn [vw_window vw_bytes vw_elapsed] in *.
  unfold set_sw. wp_step. eapply wp_mono; [apply (wp_ack_tail N)|].
  - by apply cinv_sw.
  - done.
  - done.
  - intros g. destruct (send_ack_time_gap_ms av) as [g0|]; [|done]. cbn. apply valid_gap_nonneg. by apply Hg.
  - intros [] c' [H1 H2]. split; [done|]. destruct H2. by constructor.
Qed.

(** How far one datagram can move the numbers of the connection. *)
Definition STEP : Z := 262144.

Lemma wp_process_ack_of_acks N c aoa :
  cinv N c -> state c = Established -> is_u16 (ack_of_acks_seq_num aoa) -> N + 65537 < 2 ^ 64 ->
  wp (process_ack_of_acks aoa) (fun _ => stays (N + 65537) c) c.
Proof.
  intros Hc Hs Ha HN. assert (Hc' : cinv (N + 65537) c) by (eapply cinv_mono; [done|lia]).
  unfold process_ack_of_acks. wp_step. destruct (recv_window c) as [rw|] eqn:Er; [|by apply wp_ret].
  pose proof (ci_rw _ _ Hc rw Er) as Hr. unfold set_rw. wp_step.
  destruct (reconstruct_seq_bound (ack_of_acks_seq_num aoa) (RecvWindow.highest_seq rw)) as [Hb _]; [done|destruct Hr; width|].
  split; [|by constructor]. apply cinv_rw; [done|done|]. eapply rw_advance; [exact Hr| |lia]. destruct Hr. lia.
Qed.

Lemma wp_owe_ack N c now :
  cinv N c -> state c = Established -> is_u64 now -> wp (owe_ack now) (fun _ => stays N c) c.
Proof.
  intros Hc Hs Hn. unfold owe_ack. do 2 wp_step. cbn [timers with_ack_pending].
  destruct (negb _); [|apply wp_ret; stays_tac]. unfold timer_set. do 2 wp_step.
  split; [|by constructor]. apply cinv_delay; [|by intros s [= <-]].
  apply cinv_set; [by apply cinv_ack_pending|cbn; congruence].
Qed.

Lemma wp_process_dummy_data N c dh now :
  cinv N c -> state c = Established -> is_u64 now -> is_u16 (data_seq_num dh) -> N + 65537 < 2 ^ 64 ->
  wp (process_dummy_data dh now) (fun _ => stays (N + 65537) c) c.
Proof.
  intros Hc Hs Hn Hd HN. assert (Hc' : cinv (N + 65537) c) by (eapply cinv_mono; [done|lia]).
  unfold process_dummy_data. wp_step. destruct (recv_window c) as [rw|] eqn:Er; [|by apply wp_ret].
  pose proof (ci_rw _ _ Hc rw Er) as Hr.
  destruct (reconstruct_seq_bound (data_seq_num dh) (RecvWindow.highest_seq rw)) as [Hb _]; [done|destruct Hr; width|].
  destruct (rw_receive_without N (N + 65537) rw (reconstruct_seq (data_seq_num dh) (RecvWindow.highest_seq rw)))
    as (b & rw' & -> & Hr'); [done|destruct Hr; lia|lia|].
  unfold set_rw. wp_step. assert (Hc1 : cinv (N + 65537) (with_recv_window (Some rw') c)) by by apply cinv_rw.
  destruct b; [|apply wp_ret; by split].
  eapply wp_mono; [by apply wp_owe_ack|]. intros [] c' H. eapply stays_trans; [|exact H].
  split; [done|by constructor].
Qed.

Lemma wp_process_data N c dh db now :
  cinv N c -> state c = Established -> is_u64 now -> is_u16 (data_seq_num dh) -> is_u16 (channel_seq_num db) ->
  N + 65541 < 2 ^ 64 ->
  wp (process_data dh db now) (fun _ => stays (N + 65539) c) c.
Proof.
  intros Hc Hs Hn Hd Hb HN. assert (Hc' : cinv (N + 65539) c) by (eapply cinv_mono; [done|lia]).
  unfold process_data. wp_step. destruct (recv_window c) as [rw|] eqn:Er; [|by apply wp_ret].
  pose proof (ci_rw _ _ Hc rw Er) as Hr.
  destruct (reconstruct_seq_bound (data_seq_num dh) (RecvWindow.highest_seq rw)) as [Hb1 _]; [done|destruct Hr; width|].
  destruct (reconstruct_seq_bound (channel_seq_num db) (RecvWindow.next_channel_seq rw)) as [Hb2 _];
    [done|destruct Hr as [Hi ? ? ? ? ?]; pose proof (RecvWindow.inv_next _ Hi); width|].
  cbv zeta.
  destruct (rw_receive N (N + 65537) rw (reconstruct_seq (data_seq_num dh) (RecvWindow.highest_seq rw))
    (reconstruct_seq (channel_seq_num db) (RecvWindow.next_channel_seq rw)) (body_data db))
    as (b & rw' & -> & Hr'); [done|destruct Hr; lia|destruct Hr; lia|lia|lia|].
  unfold set_rw. wp_step.
  assert (Hc1 : cinv (N + 65539) (with_recv_window (Some rw') c)).
  { apply cinv_rw; [done|done|]. eapply rw_mono; [done|lia]. }
  destruct b; [|apply wp_ret; by split].
  pose proof (rw_drain _ _ Hr') as Hr2. destruct (RecvWindow.drain_ordered rw') as [ds rw2]. cbn [snd] in Hr2.
  replace (N + 65537 + 2) with (N + 65539) in Hr2 by lia.
  wp_step. apply wp_bind. set (c2 := with_recv_window (Some rw2) (with_recv_window (Some rw') c)).
  assert (Hc2 : stays (N + 65539) c c2) by (split; [by apply cinv_rw|by constructor]).
  eapply wp_mono.
  { apply (wp_iter _ (stays (N + 65539) c)); [|exact Hc2]. intros d c3 _ H3.
    eapply wp_mono; [apply wp_push_event, H3|]. intros [] c4 ?. by eapply stays_trans. }
  intros [] c3 H3. cbv beta in H3.
  eapply wp_mono; [apply wp_owe_ack; [apply H3|by eapply stays_state|done]|]. intros [] c4 ?. by eapply stays_trans.
Qed.

(** *** Handshake datagrams *)

Lemma recv_window_u16 n : 0 <= n <= LOG_WINDOW_SIZE_MAX -> is_u16 (Z.shiftl 1 n).
Proof.
  unfold LOG_WINDOW_SIZE_MAX. intros Hn. rewrite Z.shiftl_mul_pow2, Z.mul_1_l by lia.
  assert (2 ^ n <= 2 ^ 15) by (apply Z.pow_le_mono_r; lia). split; lia.
Qed.

(** The flags of a datagram, decided for concrete flag words. *)
Ltac flags_tac :=
  unfold is_client_syn; rewrite ?V1Datagram_compute_flags_eq, ?contains_bits, ?union_bits; reflexivity.

Lemma syn_wf cfg : cfg_ok cfg -> is_Some (cfg_cookie_hash cfg) -> V1Datagram_wf (syn_datagram_of cfg).
Proof.
  intros [] [h Hh]. unfold V1Datagram_wf, syn_datagram_of. cbn [d_header d_ack_vector d_ack_of_acks d_syn_data
    d_correlation_id d_syn_data_ex fh_flags].
  split_and!; try done; try flags_tac.
  - unfold wf. cbn. unfold FecHeader_wf. cbn. split_and!; [done|apply recv_window_u16, cfg_log0|].
    by rewrite union_bits.
  - by intros x [= <-].
  - intros x [= <-]. cbn [cookie_hash udp_ver]. rewrite Hh. split; [|flags_tac]. unfold wf. cbn. unfold SynDataEx_wf.
    cbn [syn_ex_flags udp_ver cookie_hash]. split_and!; [done..|]. intros h' [= <-]. split; [done|by apply cfg_cookie0].
Qed.

Lemma syn_ack_wf cfg isn up down :
  cfg_ok cfg -> is_u32 isn -> mtu_ok up -> mtu_ok down -> V1Datagram_wf (syn_ack_datagram_of cfg isn up down).
Proof.
  intros [] Hi Hu Hd. unfold V1Datagram_wf, syn_ack_datagram_of. cbn [d_header d_ack_vector d_ack_of_acks d_syn_data
    d_correlation_id d_syn_data_ex fh_flags].
  split_and!; try done; try flags_tac.
  - unfold wf. cbn. unfold FecHeader_wf. cbn. split_and!; [done|apply recv_window_u16, cfg_log0|].
    by rewrite !union_bits.
  - by intros x [= <-].
  - intros x [= <-]. split; [|flags_tac]. unfold wf. cbn. unfold SynDataEx_wf.
    cbn [syn_ex_flags udp_ver cookie_hash]. split_and!; done.
Qed.

Lemma final_ack_wf cfg isn : cfg_ok cfg -> is_u32 isn -> V1Datagram_wf (final_ack_of cfg isn).
Proof.
  intros [] Hi. unfold V1Datagram_wf, final_ack_of. cbn [d_header d_ack_vector d_ack_of_acks d_syn_data
    d_correlation_id d_syn_data_ex fh_flags].
  split_and!; try done; try flags_tac.
  - unfold wf. cbn. unfold FecHeader_wf. cbn. split_and!; [done|apply recv_window_u16, cfg_log0|done].
  - intros x [= <-]. unfold wf. cbn. split; [done|]. by repeat constructor.
Qed.

Lemma V1Datagram_wire_len (d : V1Datagram) : V1Datagram_wf d -> llen (wire d) = V1Datagram_size d.
Proof. intros H. symmetry. exact (wire_size d H). Qed.

(** *** The handshake *)

(** The connection with a handshake datagram queued and remembered. *)
Definition queued (bytes : list Z) (c : RdpeudpConnection) : RdpeudpConnection :=
  with_handshake_retransmits 0 (with_handshake_datagram (Some bytes)
    (with_pending_transmits (pending_transmits c ++ [mkTransmit bytes]) c)).

Lemma enqueue_handshake_eq d c :
  V1Datagram_wf d -> enqueue_handshake d c = Ok (true, queued (wire d) c).
Proof.
  intros Hd. unfold enqueue_handshake. unfold mbind at 1, M_bind at 1.
  rewrite (encode_vec_wire (C := V1Datagram_Codec) d Hd). reflexivity.
Qed.

Lemma enqueue_final_ack_eq isn c :
  cfg_ok (config c) -> is_u32 isn ->
  enqueue_final_ack isn c = Ok (tt, queued (wire (final_ack_of (config c) isn)) c).
Proof.
  intros Hc Hi. unfold enqueue_final_ack. unfold mbind at 1, M_bind at 1. cbn [gets].
  unfold mbind, M_bind. unfold id. rewrite enqueue_handshake_eq by by apply final_ack_wf. reflexivity.
Qed.

Lemma cinv_queued N c d :
  cinv N c -> V1Datagram_wf d -> V1Datagram_size d <= HANDSHAKE_MAX -> cinv N (queued (wire d) c).
Proof.
  intros Hc Hd Hs. rewrite <- V1Datagram_wire_len in Hs by done.
  apply cinv_hs_retransmits, cinv_hs; [|done]. apply cinv_tx; [done|].
  apply Forall_app. split; [apply Hc|]. by constructor.
Qed.

(** A connection in the middle of the handshake. *)
Lemma cinv_handshake N c d :
  65536 <= N < 2 ^ 64 -> cfg_ok (config c) -> RttBounds.inv (rtt c) ->
  (forall s, handshake_sent_at c = Some s -> is_u64 s) -> ack_delay_started_at c = None ->
  (forall p, params c = Some p -> params_ok p) ->
  handshake_datagram c = Some d -> llen d <= HANDSHAKE_MAX ->
  Forall (fun t => llen (contents t) <= HANDSHAKE_MAX) (pending_transmits c) -> windows_empty c ->
  state c = SynSent \/ (state c = SynReceived /\ is_Some (params c)) -> cinv N c.
Proof.
  intros HN Hcfg Hr Hsa Hd Hp Hhs Hlen Htx (Hw1 & Hw2 & Hw3 & Hw4) Hst.
  constructor; try done; rewrite ?Hw1, ?Hw2, ?Hw3, ?Hw4, ?Hd, ?Hhs; try done.
  - by intros d' [= <-].
  - constructor.
  - by destruct Hst as [->|[-> ?]].
  - by destruct Hst as [->|[-> ?]].
  - by destruct Hst as [->|[-> ?]].
Qed.

(** What [connect] and [accept] build. *)
Definition client_start (cfg : ConnectionConfig) (now : Z) : RdpeudpConnection :=
  let c := with_handshake_sent_at (Some now) (queued (wire (syn_datagram_of cfg)) (new Client cfg)) in
  with_timers
    (Timers.set (Timers.set Timers.new Timers.Retransmit (after now Rtt.INITIAL_RTO)) Timers.Idle
       (after now (cfg_idle_timeout cfg))) c.

Lemma connect_eq cfg now :
  cfg_ok cfg -> is_Some (cfg_cookie_hash cfg) ->
  connect cfg now = Ok (inr (client_start cfg now)).
Proof.
  intros Hcfg [h Hh]. pose proof (syn_wf cfg Hcfg ltac:(eauto)) as Hwf. pose proof (cfg_log _ Hcfg).
  unfold connect. destruct (Z.ltb_spec LOG_WINDOW_SIZE_MAX (cfg_log_window_size cfg)); [lia|]. rewrite Hh. cbn [is_some negb].
  unfold enqueue_syn. rewrite (bind_ok (gets id) _ _ _ _ eq_refl).
  rewrite (bind_ok _ _ _ _ _ (enqueue_handshake_eq _ _ Hwf)). reflexivity.
Qed.

Lemma size_syn cfg : cfg_ok cfg -> V1Datagram_size (syn_datagram_of cfg) <= HANDSHAKE_MAX.
Proof. intros _. unfold syn_datagram_of. destruct (cfg_cookie_hash cfg); done. Qed.

Lemma client_start_inv cfg now :
  cfg_ok cfg -> is_Some (cfg_cookie_hash cfg) -> is_u64 now -> cinv 65536 (client_start cfg now).
Proof.
  intros Hcfg Hck Hn. pose proof (syn_wf cfg Hcfg Hck) as Hwf.
  assert (Hl : llen (wire (syn_datagram_of cfg)) <= HANDSHAKE_MAX) by (rewrite V1Datagram_wire_len; [by apply size_syn|done]).
  apply (cinv_handshake _ _ (wire (syn_datagram_of cfg)));
    [lia|done|apply RttBounds.rtt_new_inv|by intros s [= <-]|done|done|done|done| |done|by left].
  by repeat constructor.
Qed.

(** [accept] once its checks have passed. *)
Definition server_start (cfg : ConnectionConfig) (sd : SynDataPayload) (now : Z) : RdpeudpConnection :=
  let mtu := Z.min (Z.min (Z.min (cfg_upstream_mtu cfg) (cfg_downstream_mtu cfg)) (upstream_mtu sd))
    (downstream_mtu sd) in
  let isn := initial_sequence_number sd in
  let reply := syn_ack_datagram_of cfg isn (negotiated_mtu (upstream_mtu sd) (cfg_downstream_mtu cfg))
    (negotiated_mtu (downstream_mtu sd) (cfg_upstream_mtu cfg)) in
  let c := with_params (Some (mkParams (cfg_initial_sequence_number cfg) isn mtu (cfg_log_window_size cfg)))
    (with_state SynReceived (new Server cfg)) in
  let c := with_handshake_sent_at (Some now) (queued (wire reply) c) in
  with_timers
    (Timers.set (Timers.set Timers.new Timers.Retransmit (after now Rtt.INITIAL_RTO)) Timers.Idle
       (after now (cfg_idle_timeout cfg))) c.

Lemma negotiated_ok a b : mtu_ok (negotiated_mtu a b).
Proof. unfold negotiated_mtu, clamp, mtu_ok, MTU_RANGE_START, MTU_RANGE_END, MTU_MIN, MTU_MAX. zcase; lia. Qed.

Lemma enqueue_syn_ack_eq isn up down now c :
  cfg_ok (config c) -> is_u32 isn -> mtu_ok up -> mtu_ok down ->
  enqueue_syn_ack isn up down now c =
  Ok (tt, with_timers (Timers.set (timers c) Timers.Retransmit (after now (Rtt.rto (rtt c))))
    (with_handshake_sent_at (Some now)
       (queued (wire (syn_ack_datagram_of (config c) isn up down)) c))).
Proof.
  intros Hc Hi Hu Hd. pose proof (syn_ack_wf _ _ _ _ Hc Hi Hu Hd) as Hwf.
  unfold enqueue_syn_ack. rewrite (bind_ok (gets id) _ _ _ _ eq_refl).
  by rewrite (bind_ok _ _ _ _ _ (enqueue_handshake_eq _ _ Hwf)).
Qed.

(** The decision [accept] makes on a decoded datagram. *)
Lemma accept_spec cfg d now :
  cfg_ok cfg -> V1Datagram_wf d ->
  match accept cfg d now with
  | Ok (inr c) =>
      exists sd sx, d_syn_data d = Some sd /\ d_syn_data_ex d = Some sx /\
        contains (syn_ex_flags sx) SynExFlags.VERSION_INFO_VALID = true /\ UdpVersion.V3 <= udp_ver sx /\
        is_Some (cfg_cookie_hash cfg) /\ cookie_hash sx = cfg_cookie_hash cfg /\
        c = server_start cfg sd now
  | Ok (inl _) => True
  | Err _ => False
  | Panic => False
  end.
Proof.
  intros Hcfg (_ & _ & _ & _ & _ & Hsd & _ & _). unfold accept.
  pose proof (cfg_log _ Hcfg). destruct (Z.ltb_spec LOG_WINDOW_SIZE_MAX (cfg_log_window_size cfg)); [lia|].
  destruct (d_syn_data d) as [sd|]; [|done]. destruct (d_syn_data_ex d) as [sx|]; [|done].
  destruct (cfg_cookie_hash cfg) as [h|] eqn:Eh; [|done]. cbv zeta.
  destruct (contains (syn_ex_flags sx) _) eqn:Ec; [|done].
  destruct (Z.ltb_spec (udp_ver sx) UdpVersion.V3); [done|].
  destruct (cookie_hash sx) as [o|] eqn:Eo; [|done].
  destruct (bool_decide_reflect (o = h)) as [->|]; cbn [negb]; [|done].
  destruct (Hsd sd eq_refl) as (Hi & _).
  set (c0 := with_params _ _).
  pose proof (enqueue_syn_ack_eq (initial_sequence_number sd)
    (negotiated_mtu (upstream_mtu sd) (cfg_downstream_mtu cfg))
    (negotiated_mtu (downstream_mtu sd) (cfg_upstream_mtu cfg)) now c0 Hcfg Hi (negotiated_ok _ _)
    (negotiated_ok _ _)) as He.
  rewrite (bind_ok _ _ _ _ _ He). exists sd, sx. by split_and!.
Qed.

Lemma server_start_inv cfg sd now :
  cfg_ok cfg -> SynData_wf sd -> is_u64 now -> cinv 65536 (server_start cfg sd now).
Proof.
  intros Hcfg (Hi & Hu & Hd) Hn.
  pose proof (syn_ack_wf cfg _ _ _ Hcfg Hi (negotiated_ok (upstream_mtu sd) (cfg_downstream_mtu cfg))
    (negotiated_ok (downstream_mtu sd) (cfg_upstream_mtu cfg))) as Hwf.
  eapply cinv_handshake;
    [lia|done|apply RttBounds.rtt_new_inv|by intros s [= <-]|done| |reflexivity| | |done|].
  - intros p [= <-]. destruct Hcfg. constructor; cbn; try done. unfold mtu_ok in *. lia.
  - by rewrite V1Datagram_wire_len.
  - constructor; [|done]. cbn [contents]. by rewrite V1Datagram_wire_len.
  - right. split; [done|by eexists].
Qed.

(** The connection after the handshake: fresh windows, the handshake's
    retransmission over, the idle and keep-alive timers armed. *)
Definition established (p : NegotiatedParams) (now : Z) (c : RdpeudpConnection) : RdpeudpConnection :=
  let c := with_timers (Timers.clear (timers c) Timers.Retransmit) (with_state Established c) in
  let c := if decide (side c = Server) then with_handshake_datagram None c else c in
  let c := with_send_window (Some (SendWindow.new INITIAL_DATA_SEQ 1 (log_window_size p))) c in
  let c := with_recv_window (Some (RecvWindow.new INITIAL_DATA_SEQ 1 (log_window_size p))) c in
  let c := with_timers (Timers.set (timers c) Timers.Idle (after now (cfg_idle_timeout (config c)))) c in
  let c := with_timers
    (Timers.set (timers c) Timers.KeepAlive (after now (cfg_keep_alive_interval (config c)))) c in
  with_pending_events (pending_events c ++ [Connected]) c.

Lemma transition_eq p now c :
  params c = Some p -> transition_to_established now c = Ok (tt, established p now c).
Proof.
  intros Hp. unfold transition_to_established, established, timer_clear. cbv zeta.
  do 4 rewrite (bind_ok _ _ _ _ _ eq_refl). unfold id.
  assert (Hq : forall x c', params (with_handshake_datagram x c') = params c') by done.
  destruct (decide _); rewrite ?Hq; cbn [params with_timers with_state]; rewrite Hp; reflexivity.
Qed.

Lemma established_inv N p now c :
  cinv N c -> state c <> Closed -> state c <> Established -> params c = Some p ->
  cinv N (established p now c) /\ state (established p now c) = Established /\
  side (established p now c) = side c /\ config (established p now c) = config c /\
  params (established p now c) = params c.
Proof.
  intros Hc Hs He Hp. pose proof (ci_params _ _ Hc p Hp) as [_ _ _ Hlog]. pose proof (ci_N _ _ Hc).
  destruct (ci_pre _ _ Hc) as [(_ & _ & Hb & Hr) _]; [destruct (state c); [by left|by right|done..]|].
  assert (Hsw : forall mp, sw_ok N mp (SendWindow.new INITIAL_DATA_SEQ 1 (log_window_size p))).
  { intros mp. apply sw_new; [done|unfold INITIAL_DATA_SEQ; lia|done]. }
  assert (Hrw : rw_ok N (RecvWindow.new INITIAL_DATA_SEQ 1 (log_window_size p))) by (apply rw_new; [lia|done]).
  unfold established. destruct Hc. cbv zeta. cbn [side with_timers with_state].
  destruct (decide (side c = Server)); (split_and!; [|reflexivity..]); constructor; cbn; try done.
  all: try (by intros ? [= <-]).
  all: by intros [|].
Qed.

Lemma wp_resend N c : cinv N c -> wp resend_handshake_datagram (fun _ => stays N c) c.
Proof.
  intros Hc. unfold resend_handshake_datagram. wp_step.
  destruct (handshake_datagram c) as [d|] eqn:E; [|by apply wp_ret]. wp_step. split; [|by constructor].
  apply cinv_tx; [done|]. apply Forall_app. split; [apply Hc|]. constructor; [|done]. by apply (ci_hs _ _ Hc).
Qed.

Lemma wp_sample_handshake_rtt N c now :
  cinv N c -> is_u64 now -> wp (sample_handshake_rtt now) (fun _ => stays N c) c.
Proof.
  intros Hc Hn. unfold sample_handshake_rtt. wp_step. destruct (negb _); [by apply wp_ret|].
  destruct (handshake_sent_at c) as [t|] eqn:E; [|by apply wp_ret].
  apply wp_rtt_update; [done|]. apply duration_since_range; [done|]. by apply (ci_sent_at _ _ Hc).
Qed.

(** A handshake step either leaves the connection in its state or
    establishes it. *)
Definition advances (N : Z) (c c' : RdpeudpConnection) : Prop :=
  cinv N c' /\ side c' = side c /\ config c' = config c /\
  (state c' = state c /\ params c' = params c \/ state c' = Established).

Lemma stays_advances N c c' : stays N c c' -> advances N c c'.
Proof. intros [H []]. split_and!; try done. left. done. Qed.

Lemma cinv_set_params N c p :
  cinv N c -> state c = SynSent -> params_ok p -> cinv N (with_params (Some p) c).
Proof.
  intros Hc Hs Hp. destruct (ci_pre _ _ Hc) as [(Hw1 & Hw2 & Hb & Hr) _]; [by left|].
  destruct Hc. constructor; cbn; try done.
  - by intros ? [= <-].
  - intros w. by rewrite Hw1.
  - by rewrite Hb.
  - by rewrite Hr.
  - by rewrite Hs.
Qed.

Lemma wp_handle_syn_ack N c bytes now :
  cinv N c -> state c = SynSent -> is_u64 now -> bytes_ok bytes ->
  wp (handle_syn_ack bytes now) (fun _ => advances N c) c.
Proof.
  intros Hc Hs Hn Hb. unfold handle_syn_ack. apply wp_bind, wp_try.
  { by apply decode_no_panic. } 2: { intros. apply wp_ret, stays_advances. by split. }
  intros d Hd. apply (decode_wf (C := V1Datagram_Codec)) in Hd as (_ & _ & _ & _ & _ & Hsd & _); [|done].
  assert (Hstay : advances N c c) by by apply stays_advances.
  destruct (negb _); [by apply wp_ret|]. destruct (d_syn_data d) as [sd|]; [|by apply wp_ret].
  destruct (d_syn_data_ex d) as [sx|]; [|by apply wp_ret]. destruct (negb _); [by apply wp_ret|].
  destruct (Hsd sd eq_refl) as (Hi & Hu & Hdn). wp_step. cbv zeta. wp_step.
  set (p := mkParams _ _ _ _). set (c1 := with_params (Some p) c).
  assert (Hc1 : cinv N c1).
  { apply cinv_set_params; [done|done|]. destruct (ci_cfg _ _ Hc). constructor; cbn; try done.
    unfold mtu_ok in *. lia. }
  apply wp_bind. eapply wp_mono; [by apply wp_sample_handshake_rtt|]. intros [] c2 [Hc2 [Hs2 Hsd2 Hcf2 Hp2]].
  apply wp_bind. unfold wp at 1. rewrite enqueue_final_ack_eq; [|apply Hc2|done].
  pose proof (cinv_queued N c2 (final_ack_of (config c2) (initial_sequence_number sd)) Hc2
    (final_ack_wf _ _ (ci_cfg _ _ Hc2) Hi) ltac:(done)) as Hc3.
  apply wp_bind. unfold wp at 1. rewrite (transition_eq p); [|exact Hp2]. apply wp_ret.
  destruct (established_inv N p now _ Hc3) as (Hc4 & Hs4 & Hsd4 & Hcf4 & _); [by cbn; rewrite Hs2; cbn; rewrite Hs..|exact Hp2|].
  split_and!; [done| | |by right].
  - rewrite Hsd4. cbn. by rewrite Hsd2.
  - rewrite Hcf4. cbn. by rewrite Hcf2.
Qed.

Lemma wp_handle_final_ack N c bytes now :
  cinv N c -> state c = SynReceived -> is_u64 now -> bytes_ok bytes ->
  wp (handle_final_ack bytes now) (fun _ => advances N c) c /\
  wp (handle_final_ack bytes now) (fun b c' => b = false -> c' = c) c.
Proof.
  intros Hc Hs Hn Hb. unfold handle_final_ack.
  assert (Hstay : advances N c c) by by apply stays_advances.
  pose proof (decode_no_panic (A := V1Datagram) bytes Hb) as Hnp.
  destruct (decode V1Datagram bytes) as [d| |]; [|done..]. unfold try_m. split; wp_step; cbv iota.
  - destruct (contains _ V1Flags.SYN).
    + apply wp_bind. eapply wp_mono; [by apply wp_resend|]. intros [] c1 H1. by apply wp_ret, stays_advances.
    + destruct (negb _); [by apply wp_ret|].
      apply wp_bind. eapply wp_mono; [by apply wp_sample_handshake_rtt|]. intros [] c1 [Hc1 [Hs1 Hsd1 Hcf1 Hp1]].
      destruct (ci_syn _ _ Hc Hs) as [p Hp]. apply wp_bind. unfold wp at 1.
      rewrite (transition_eq p) by congruence. apply wp_ret.
      destruct (established_inv N p now _ Hc1) as (Hc4 & Hs4 & Hsd4 & Hcf4 & _); [congruence..|].
      split_and!; [done|congruence|congruence|by right].
  - destruct (contains _ V1Flags.SYN); [|destruct (negb _); [by apply wp_ret|]].
    + apply wp_bind. eapply wp_mono; [by apply wp_resend|]. intros [] c1 H1. by apply wp_ret.
    + apply wp_bind. eapply wp_mono; [by apply wp_sample_handshake_rtt|]. intros [] c1 [Hc1 [Hs1 Hsd1 Hcf1 Hp1]].
      destruct (ci_syn _ _ Hc Hs) as [p Hp]. apply wp_bind. unfold wp at 1.
      rewrite (transition_eq p) by congruence. by apply wp_ret.
Qed.

(** *** Receiving a datagram *)

Lemma wp_is_repeated N c bytes :
  cinv N c -> bytes_ok bytes -> wp (is_repeated_syn_ack bytes) (fun _ c' => c' = c) c.
Proof.
  intros Hc Hb. unfold is_repeated_syn_ack. wp_step. destruct (decide _); [by apply wp_ret|].
  destruct (params c); [|by apply wp_ret]. apply wp_bind, wp_try; [by apply decode_no_panic| |by intros; apply wp_ret].
  intros h _. destruct (negb _); [by apply wp_ret|].
  apply wp_bind, wp_try; [by apply decode_no_panic|by intros; apply wp_ret..].
Qed.

Lemma opt_stays {A} (f : A -> C unit) (o : option A) N N' c :
  cinv N c -> N <= N' < 2 ^ 64 -> (forall x, o = Some x -> wp (f x) (fun _ => stays N' c) c) ->
  wp (opt_m f o) (fun _ => stays N' c) c.
Proof.
  intros Hc HN Hf. destruct o as [x|]; [by apply Hf|]. apply wp_ret. split; [by eapply cinv_mono|done].
Qed.

Lemma wp_handle_v2_packet N c bytes now :
  cinv N c -> state c = Established -> is_u64 now -> bytes_ok bytes -> N + STEP < 2 ^ 64 ->
  wp (handle_v2_packet bytes now) (fun _ => stays (N + STEP) c) c.
Proof.
  intros Hc Hs Hn Hb HN. unfold STEP in *. unfold handle_v2_packet.
  pose proof (ci_N _ _ Hc).
  assert (Hstay : stays (N + 262144) c c) by (split; [eapply cinv_mono; [done|lia]|done]).
  pose proof (decode_prefix_safe bytes Hb) as Hp. apply wp_bind, wp_try; [by intros E; rewrite E in Hp| |by intros; apply wp_ret].
  intros [prefix packet_bytes] E. rewrite E in Hp. cbn in Hp.
  apply wp_bind, wp_try; [by apply decode_no_panic| |by intros; apply wp_ret].
  intros p Hd. apply (decode_wf (C := V2Packet_Codec)) in Hd as (_ & Hl & _ & _ & Hack & _ & _ & Haoa & Hdh & Hav & Hdb); [|done].
  wp_step.
  set (c1 := match send_window c with Some w => _ | None => c end).
  assert (H1 : stays N c c1).
  { unfold c1. destruct (send_window c) as [w|] eqn:E1; [|done]. split; [|by constructor].
    apply cinv_sw; [done|done|]. apply sw_set_peer; [lia|]. by apply (ci_sw _ _ Hc). }
  apply wp_bind. eapply wp_mono.
  { apply (opt_stays _ _ N N); [apply H1|destruct (ci_N _ _ Hc); lia|]. intros a Ha.
    apply wp_process_ack; [apply H1|by eapply stays_state|done|by apply Hack]. }
  intros [] c2 H2. pose proof (stays_trans _ _ _ _ _ H1 H2) as H3.
  apply wp_bind. eapply wp_mono.
  { apply (opt_stays _ _ N N); [apply H3|destruct (ci_N _ _ Hc); lia|]. intros a Ha.
    apply wp_process_ack_vector; [apply H3|by eapply stays_state|done|by apply Hav]. }
  intros [] c3 H4. pose proof (stays_trans _ _ _ _ _ H3 H4) as H5.
  apply wp_bind. eapply wp_mono.
  { apply (opt_stays _ _ N (N + 65537)); [apply H5|destruct (ci_N _ _ Hc); lia|]. intros a Ha.
    apply wp_process_ack_of_acks; [apply H5|by eapply stays_state|by apply Haoa|lia]. }
  intros [] c4 H6. pose proof (stays_trans _ _ _ _ _ H5 H6) as H7.
  apply wp_bind. apply (wp_mono _ (fun _ => stays (N + 262144) c)).
  2: { intros [] c5 H8. by apply wp_ret. }
  assert (H8 : stays (N + 262144) c c4) by (eapply stays_mono; [done|destruct (ci_N _ _ Hc); lia]).
  destruct (p_data_header p) as [dh|]; [|by apply wp_ret]. destruct (p_data_body p) as [db|]; [|by apply wp_ret].
  destruct (is_dummy prefix).
  - eapply wp_mono; [apply (wp_process_dummy_data (N + 65537)); [apply H7|by eapply stays_state|done|by apply Hdh|lia]|].
    intros [] c5 H9. eapply stays_mono; [by eapply stays_trans|destruct (ci_N _ _ Hc); lia].
  - eapply wp_mono; [apply (wp_process_data (N + 65537)); [apply H7|by eapply stays_state|done|by apply Hdh|by apply Hdb|lia]|].
    intros [] c5 H9. eapply stays_mono; [by eapply stays_trans|destruct (ci_N _ _ Hc); lia].
Qed.

Lemma wp_handle_datagram N c bytes now :
  cinv N c -> is_u64 now -> bytes_ok bytes -> N + STEP < 2 ^ 64 ->
  wp (handle_datagram bytes now) (fun _ => advances (N + STEP) c) c.
Proof.
  intros Hc Hn Hb HN. unfold handle_datagram. pose proof (ci_N _ _ Hc).
  apply wp_bind. eapply wp_mono; [by apply wp_bump|]. intros [] c1 H1. wp_step.
  destruct H1 as [Hc1 Hk1]. pose proof Hk1 as [Hs1 Hsd1 Hcf1 Hp1].
  assert (Hmono : forall c', advances N c1 c' -> advances (N + STEP) c c').
  { intros c' (? & ? & ? & ?). split_and!; [eapply cinv_mono; [done|unfold STEP in *; lia]|congruence|congruence|].
    rewrite <- Hs1, <- Hp1. done. }
  assert (Hset : forall d, state c1 <> Closed -> wp (timer_set Timers.Idle d) (fun _ => stays N c1) c1)
    by (intros; by apply wp_timer_set).
  assert (Hout : forall c2 c', stays N c1 c2 -> advances N c2 c' -> advances (N + STEP) c c').
  { intros c2 c' [? []] (? & ? & ? & Hx). apply Hmono. split_and!; [done|congruence|congruence|].
    destruct Hx as [[? ?]|?]; [left; split; congruence|by right]. }
  assert (Hv2 : forall c2, cinv N c2 -> side c2 = side c1 -> config c2 = config c1 -> state c2 = Established ->
    wp (handle_v2_packet bytes now) (fun _ => advances (N + STEP) c) c2).
  { intros c2 Hc2 Hsd2 Hcf2 Hs2. eapply wp_mono; [by apply wp_handle_v2_packet|]. intros r c3 [Hc3 []].
    split_and!; [done|congruence|congruence|right; congruence]. }
  destruct (state c1) eqn:Es.
  - apply wp_bind. eapply wp_mono; [by apply Hset|]. intros [] c2 H2. cbv iota.
    eapply wp_mono; [apply wp_handle_syn_ack; [apply H2|by eapply stays_state|done..]|]. intros r c3. by apply Hout.
  - apply wp_bind. eapply wp_mono; [by apply Hset|]. intros [] c2 H2. cbv iota.
    destruct (wp_handle_final_ack N c2 bytes now) as [Ha Hf]; [apply H2|by eapply stays_state|done..|].
    apply wp_bind. eapply wp_mono; [apply (wp_conj _ _ _ _ Ha Hf)|]. intros b c3 [H3 H4]. destruct b; [apply wp_ret; by eapply Hout|].
    specialize (H4 eq_refl) as ->. pose proof (stays_state _ _ _ _ H2 Es) as Hs2.
    destruct (ci_syn _ _ (proj1 H2) Hs2) as [p Hp]. apply wp_bind. unfold wp at 1. rewrite (transition_eq p) by done.
    destruct (established_inv N p now c2 (proj1 H2)) as (Hc4 & Hs4 & Hsd4 & Hcf4 & _); [congruence..|].
    destruct H2 as [_ []]. apply Hv2; [done|congruence|congruence|done].
  - apply wp_bind. eapply wp_mono; [by apply Hset|]. intros [] c2 H2. cbv iota.
    apply wp_bind. eapply wp_mono; [apply (wp_is_repeated N); [apply H2|done]|]. intros b c3 ->.
    pose proof (stays_state _ _ _ _ H2 Es) as Hs2. destruct b.
    + apply wp_bind. eapply wp_mono; [apply wp_resend, H2|]. intros [] c3 H3. apply wp_ret.
      by eapply Hout; [|apply stays_advances].
    + destruct H2 as [Hc2 []]. by apply Hv2.
  - apply wp_ret, Hmono, stays_advances. by split.
Qed.

(** *** Building packets *)

Definition entries_ok (es : list AckVectorEntry) : Prop :=
  llen es <= ACK_VECTOR_MAX_ENTRIES /\ Forall AckVectorEntry_wf es.

Lemma split_run_ok fuel b n acc : entries_ok acc -> entries_ok (split_run fuel b n acc).2.
Proof.
  revert n acc. induction fuel as [|fuel IH]; intros n acc Ha; cbn [split_run]; [done|].
  destruct (Z.ltb_spec 0 n); [|done]. destruct (Z.leb_spec ACK_VECTOR_MAX_ENTRIES (llen acc)); [done|].
  apply IH. destruct Ha as [Hl Hf]. split.
  - rewrite llen_app, llen_cons, llen_nil. lia.
  - apply Forall_app. split; [done|]. constructor; [|done]. cbn [AckVectorEntry_wf]. lia.
Qed.

Lemma split_runs_ok runs acc : entries_ok acc -> entries_ok (split_runs runs acc).
Proof.
  revert acc. induction runs as [|[b n] runs IH]; intros acc Ha; cbn [split_runs]; [done|].
  pose proof (split_run_ok (Z.to_nat n) b n acc Ha) as H. destruct (split_run _ _ _ _) as [full acc'].
  destruct full; [done|by apply IH].
Qed.

(** An acknowledgment the connection builds: of one kind, well formed and
    within the space reserved for it. *)
Inductive ack_ok : Acknowledgement -> Prop :=
| ack_cumulative p : AckPayload_wf p -> AckPayload_size p = 7 ->
    ack_ok (mkAcknowledgement V2Flags.ACK (Some p) None)
| ack_selective v : AckVectorPayload_wf v -> AckVectorPayload_size v <= 134 ->
    ack_ok (mkAcknowledgement V2Flags.ACKVEC None (Some v)).

Lemma truncate_timestamp_range x : 0 <= truncate_timestamp x < 2 ^ 24.
Proof. rewrite truncate_timestamp_mod. apply Z.mod_pos_bound. lia. Qed.

Lemma build_acknowledgement_ok c now a :
  is_u64 now -> build_acknowledgement c now = Some a -> ack_ok a.
Proof.
  intros Hn. unfold build_acknowledgement. destruct (recv_window c) as [rw|]; [|done]. cbn [mbind option_bind].
  assert (Hgap : forall x, 0 <= Duration.as_millis (Instant.duration_since now x)).
  { intros x. unfold Instant.duration_since, Duration.as_millis, Duration.from_millis, sat_sub.
    apply Z.div_pos; lia. }
  destruct (RecvWindow.has_gaps rw); intros [= <-]; constructor.
  - destruct (split_runs_ok (RecvWindow.ack_vector rw) []) as [Hl Hf]; [by split|].
    unfold build_ack_vector_payload. unfold AckVectorPayload_wf.
    cbn [base_seq_num timestamp send_ack_time_gap_ms entries].
    split_and!; [apply truncate_seq_range|done| |intros g [= <-]; specialize (Hgap (default now (ack_delay_started_at c))); zcase; width|done|done].
    intros ts [= <-]. apply truncate_timestamp_range.
  - destruct (split_runs_ok (RecvWindow.ack_vector rw) []) as [Hl Hf]; [by split|].
    unfold build_ack_vector_payload, AckVectorPayload_size. cbn [timestamp send_ack_time_gap_ms entries is_some andb].
    unfold ACK_VECTOR_MAX_ENTRIES in Hl. lia.
  - unfold build_ack_payload, AckPayload_wf.
    cbn [seq_num received_ts send_ack_time_gap delay_ack_time_scale delay_ack_time_additions].
    split_and!; [apply truncate_seq_range|apply truncate_timestamp_range|apply truncate_timestamp_range| |done..].
    specialize (Hgap (default now (ack_delay_started_at c))). zcase; width.
  - done.
Qed.

Definition sent_payload (data : option (Z * Z * list Z)) : list Z := from_option snd [] data.

(** The packets both builders produce are well formed and as small as the
    reserved space promises. *)
Lemma v2_packet_ok log (oa : option Acknowledgement) (aoa : option Z) (data : option (Z * Z * list Z)) :
  0 <= log <= 15 -> (forall a, oa = Some a -> ack_ok a) -> bytes_ok (sent_payload data) ->
  let flags := if is_some data then V2Flags.DATA else 0 in
  let flags := match oa with Some a => Z.lor flags (a_flag a) | None => flags end in
  let flags := if is_some aoa then Z.lor flags V2Flags.AOA else flags in
  let p := v2_packet flags log (a ← oa; a_ack a) (a ← oa; a_ack_vector a) aoa data in
  V2Packet_wf p /\ V2Packet_size p <= 142 + llen (sent_payload data).
Proof.
  intros Hl Ha Hd. cbv zeta.
  assert (Haoa : forall x, (fun seq => mkAckOfAcks (truncate_seq seq)) <$> aoa = Some x -> wf x).
  { intros x. destruct aoa; [|done]. intros [= <-]. apply truncate_seq_range. }
  assert (Hdh : forall x, (fun '(ds, _, _) => mkDataHeader (truncate_seq ds)) <$> data = Some x -> wf x).
  { intros x. destruct data as [[[ds cs] d]|]; [|done]. intros [= <-]. apply truncate_seq_range. }
  assert (Hdb : forall x, (fun '(_, cs, d) => mkDataBody (truncate_seq cs) d) <$> data = Some x -> wf x).
  { intros x. destruct data as [[[ds cs] d]|]; [|done]. intros [= <-]. split; [apply truncate_seq_range|done]. }
  assert (Hsz : forall a, oa = Some a -> opt_size (a_ack a) + opt_size (a_ack_vector a) <= 134).
  { intros a ->. destruct (Ha a eq_refl) as [p Hp Hs|v Hv Hs].
    - change (AckPayload_size p + 0 <= 134). lia.
    - change (0 + AckVectorPayload_size v <= 134). lia. }
  pose proof (llen_nonneg (sent_payload data)) as Hnn.
  split.
  - unfold V2Packet_wf, v2_packet. cbn [p_header p_ack p_overhead_size p_delay_ack_info p_ack_of_acks
      p_data_header p_ack_vector p_data_body h_flags h_log_window_size].
    split_and!; try done; try lia.
    + unfold V2Packet_compute_flags. cbn [p_header p_ack p_overhead_size p_delay_ack_info p_ack_of_acks
        p_data_header p_ack_vector p_data_body]. rewrite !union_bits.
      destruct oa as [a|]; [destruct (Ha a eq_refl)|]; destruct aoa, data; reflexivity.
    + by destruct data.
    + destruct oa as [a|]; [destruct (Ha a eq_refl)|]; done.
    + intros x. destruct oa as [a|]; [|done]. destruct (Ha a eq_refl); [|done]. by intros [= <-].
    + intros x. destruct oa as [a|]; [|done]. destruct (Ha a eq_refl); [done|]. by intros [= <-].
  - unfold V2Packet_size, v2_packet. cbn [p_header p_ack p_overhead_size p_delay_ack_info p_ack_of_acks
      p_data_header p_ack_vector p_data_body].
    assert (Hack : opt_size (a ← oa; a_ack a) + opt_size (a ← oa; a_ack_vector a) <= 134).
    { destruct oa as [a|]; [by apply Hsz|done]. }
    assert (opt_size ((fun seq => mkAckOfAcks (truncate_seq seq)) <$> aoa) <= 2) by (by destruct aoa).
    assert (opt_size ((fun '(ds, _, _) => mkDataHeader (truncate_seq ds)) <$> data) +
      opt_size ((fun '(_, cs, d) => mkDataBody (truncate_seq cs) d) <$> data) <= 4 + llen (sent_payload data)).
    { destruct data as [[[ds cs] d]|]; [|done]. change (2 + (2 + llen d) <= 4 + llen d). lia. }
    change (opt_size (@None OverheadSizePayload)) with 0.
    change (opt_size (@None DelayAckInfoPayload)) with 0.
    change (size (mkV2Header _ log)) with 2. lia.
Qed.

(** The datagram a packet becomes. *)
Definition datagram_of (p : V2Packet) : list Z := snd (encode_with_prefix (wire p) false []).

Lemma encode_v2_packet_eq p c :
  V2Packet_wf p ->
  encode_v2_packet p c = Ok (Some (mkTransmit (datagram_of p)), with_wire_buf (datagram_of p) c) /\
  llen (datagram_of p) = 1 + Z.max (V2Packet_size p) 7.
Proof.
  intros Hp. unfold encode_v2_packet, datagram_of.
  assert (Hw : llen (wire p) = V2Packet_size p) by (symmetry; exact (wire_size p Hp)).
  destruct (encode_with_prefix_eq (wire p) false []) as (b1&b2&b3&b4&b5&b6&b7&l&Hl&He).
  split.
  - rewrite (encode_vec_wire (C := V2Packet_Codec) p Hp). cbn [try_m].
    do 3 rewrite (bind_ok _ _ _ _ _ eq_refl). cbn [id wire_buf with_wire_buf].
    rewrite He. cbn [fst snd]. reflexivity.
  - rewrite He. cbn [snd]. pose proof (length_padded (wire p)) as Hlen. rewrite Hl in Hlen.
    rewrite <- Hw. unfold llen. cbn [length] in *. lia.
Qed.

(** What building a packet leaves alone. *)
Record tx_frame (c c' : RdpeudpConnection) : Prop := {
  tf_keeps : keeps c c';
  tf_sw : send_window c' = send_window c;
  tf_rel : reliability c' = reliability c;
  tf_buf : send_buffer c' = send_buffer c;
  tf_rtt : rtt c' = rtt c;
  tf_cc : congestion c' = congestion c;
  tf_tx : pending_transmits c' = pending_transmits c;
  tf_hs : handshake_datagram c' = handshake_datagram c;
  tf_timers : forall t, t <> Timers.AckDelay -> Timers.get (timers c') t = Timers.get (timers c) t;
}.

Lemma tx_frame_trans c1 c2 c3 : tx_frame c1 c2 -> tx_frame c2 c3 -> tx_frame c1 c3.
Proof.
  intros [] []. constructor; try congruence; [by eapply keeps_trans|].
  intros t Ht. rewrite tf_timers1, tf_timers0 by done. done.
Qed.

Lemma wp_commit N c :
  cinv N c -> state c = Established -> N + WINDOW_MAX < 2 ^ 64 ->
  wp commit_acknowledgement (fun _ c' => cinv (N + 1) c' /\ tx_frame c c') c.
Proof.
  intros Hc Hs HN. pose proof (ci_N _ _ Hc). unfold WINDOW_MAX in *.
  assert (Hc' : cinv (N + 1) c) by (eapply cinv_mono; [done|lia]).
  unfold commit_acknowledgement. do 2 wp_step.
  destruct (recv_window c) as [rw|] eqn:E; (split; [|by constructor]); (apply cinv_delay; [|done]); [|done].
  apply cinv_rw; [done|done|]. apply rw_release; [by apply (ci_rw _ _ Hc)|done].
Qed.

(** The acknowledgment a data packet carries. *)
Definition carried (c : RdpeudpConnection) (now : Z) : option Acknowledgement :=
  if ack_pending c then build_acknowledgement c now else None.

Definition data_packet (c : RdpeudpConnection) (log ds cs : Z) (data : list Z) (now : Z) : V2Packet :=
  let oa := carried c now in
  let flags := match oa with Some a => Z.lor V2Flags.DATA (a_flag a) | None => V2Flags.DATA end in
  let flags := if is_some (pending_ack_of_acks c) then Z.lor flags V2Flags.AOA else flags in
  v2_packet flags log (a ← oa; a_ack a) (a ← oa; a_ack_vector a) (pending_ack_of_acks c)
    (Some (ds, cs, data)).

Lemma carried_ok c now a : is_u64 now -> carried c now = Some a -> ack_ok a.
Proof. unfold carried. intros Hn. destruct (ack_pending c); [by apply build_acknowledgement_ok|done]. Qed.

Lemma data_packet_ok c log ds cs data now :
  0 <= log <= 15 -> is_u64 now -> bytes_ok data ->
  V2Packet_wf (data_packet c log ds cs data now) /\
  V2Packet_size (data_packet c log ds cs data now) <= 142 + llen data.
Proof.
  intros Hl Hn Hd.
  exact (v2_packet_ok log (carried c now) (pending_ack_of_acks c) (Some (ds, cs, data)) Hl
    (fun a => carried_ok c now a Hn) Hd).
Qed.

Lemma wp_build_data_packet N c p ds cs data now :
  cinv N c -> state c = Established -> params c = Some p -> is_u64 now -> bytes_ok data ->
  N + WINDOW_MAX < 2 ^ 64 ->
  wp (build_data_packet ds cs data now)
    (fun r c' => r = Some (mkTransmit (datagram_of (data_packet c (log_window_size p) ds cs data now))) /\
       cinv (N + 1) c' /\ tx_frame c c') c.
Proof.
  intros Hc Hs Hp Hn Hd HN. pose proof (ci_N _ _ Hc). pose proof (ci_params _ _ Hc p Hp) as [_ _ _ Hlog].
  assert (Hc' : cinv (N + 1) c) by (eapply cinv_mono; [done|unfold WINDOW_MAX in *; lia]).
  unfold build_data_packet. wp_step. rewrite Hp.
  assert (Hsplit : (if ack_pending c then
      match build_acknowledgement c now with
      | Some a => (true, union V2Flags.DATA (a_flag a), a_ack a, a_ack_vector a)
      | None => (false, V2Flags.DATA, None, None)
      end
    else (false, V2Flags.DATA, None, None)) =
    (is_some (carried c now), match carried c now with Some a => Z.lor V2Flags.DATA (a_flag a) | None => V2Flags.DATA end,
     a ← carried c now; a_ack a, a ← carried c now; a_ack_vector a)).
  { unfold carried. destruct (ack_pending c); [|done]. destruct (build_acknowledgement c now); [|done].
    cbn [is_some mbind option_bind]. by rewrite union_bits. }
  rewrite Hsplit. cbv zeta beta iota.
  rewrite union_bits.
  destruct (data_packet_ok c (log_window_size p) ds cs data now Hlog Hn Hd) as [Hwf _].
  change (v2_packet _ _ _ _ _ _) with (data_packet c (log_window_size p) ds cs data now).
  apply wp_bind. unfold wp at 1. destruct (encode_v2_packet_eq _ c Hwf) as [-> _].
  set (pk := data_packet _ _ _ _ _ _). apply wp_bind.
  apply (wp_mono _ (fun _ c' => cinv (N + 1) c' /\ tx_frame c c')); [|intros [] c1 H1; by apply wp_ret].
  destruct (is_some (carried c now)).
  - unfold timer_clear. do 2 wp_step. eapply wp_mono; [apply (wp_commit N)|].
    + by apply cinv_clear, cinv_ack_pending, cinv_wire_buf.
    + done.
    + done.
    + intros [] c1 [Hc1 Hf]. split; [done|]. eapply tx_frame_trans; [|exact Hf].
      constructor; try done. intros t Ht. cbn [timers with_timers with_ack_pending with_wire_buf].
      rewrite Timers.get_clear. by case_decide; [subst|].
  - apply wp_ret. split; [by apply cinv_wire_buf|by constructor].
Qed.

Lemma wp_build_standalone N c now :
  cinv N c -> state c = Established -> is_u64 now -> N + WINDOW_MAX < 2 ^ 64 ->
  wp (build_standalone_ack now)
    (fun r c' => (exists p, r = Some (mkTransmit (datagram_of p)) /\ V2Packet_wf p /\ p_data_body p = None /\
         llen (datagram_of p) <= 143) /\
       cinv (N + 1) c' /\ tx_frame c c') c.
Proof.
  intros Hc Hs Hn HN. pose proof (ci_N _ _ Hc). destruct (ci_est _ _ Hc Hs) as ([p Hp] & _ & [rw Hr]).
  pose proof (ci_params _ _ Hc p Hp) as [_ _ _ Hlog].
  unfold build_standalone_ack. wp_step. rewrite Hp.
  destruct (build_acknowledgement c now) as [a|] eqn:Ea.
  2: { unfold build_acknowledgement in Ea. rewrite Hr in Ea. cbn in Ea. by destruct (RecvWindow.has_gaps rw). }
  destruct (v2_packet_ok (log_window_size p) (Some a) (pending_ack_of_acks c) None Hlog) as [Hwf Hsz].
  { intros a' [= <-]. by eapply build_acknowledgement_ok. } { constructor. }
  cbn [is_some mbind option_bind sent_payload from_option] in Hwf, Hsz. rewrite Z.lor_0_l in Hwf, Hsz.
  rewrite union_bits. apply wp_bind. unfold wp at 1. destruct (encode_v2_packet_eq _ c Hwf) as [-> Hlen].
  set (pk := v2_packet _ _ _ _ _ _) in *. apply wp_bind. eapply wp_mono; [apply (wp_commit N); [by apply cinv_wire_buf|done|done]|].
  intros [] c1 [Hc1 Hf]. apply wp_ret. split_and!; [|done|].
  - exists pk. split_and!; [done|done|done|]. rewrite Hlen, llen_nil in *. lia.
  - eapply tx_frame_trans; [|exact Hf]. by constructor.
Qed.

(** *** Transmitting *)

(** A datagram fits the negotiated MTU; before the negotiation, the smallest
    MTU of the protocol. *)
Definition fits (c : RdpeudpConnection) (t : Transmit) : Prop :=
  llen (contents t) <= match params c with Some p => mtu p | None => MTU_MIN end.

Lemma handshake_fits N c t : cinv N c -> llen (contents t) <= HANDSHAKE_MAX -> fits c t.
Proof.
  intros Hc Ht. unfold fits, HANDSHAKE_MAX in *. destruct (params c) as [p|] eqn:E; [|unfold MTU_MIN; lia].
  destruct (ci_params _ _ Hc p E) as [_ _ Hm _]. unfold mtu_ok, MTU_MIN in Hm. lia.
Qed.

Lemma data_fits N c p c0 ds cs data now :
  cinv N c -> params c = Some p -> is_u64 now -> payload_ok (max_payload c) data ->
  fits c (mkTransmit (datagram_of (data_packet c0 (log_window_size p) ds cs data now))).
Proof.
  intros Hc Hp Hn [Hb Hl]. destruct (ci_params _ _ Hc p Hp) as [_ _ Hm Hlog].
  destruct (data_packet_ok c0 (log_window_size p) ds cs data now Hlog Hn Hb) as [Hwf Hsz].
  destruct (encode_v2_packet_eq _ c Hwf) as [_ Hlen]. unfold fits. rewrite Hp. cbn [contents]. rewrite Hlen.
  unfold max_payload in Hl. rewrite Hp in Hl. unfold mtu_ok, MTU_MIN, MTU_MAX in Hm.
  unfold RDPEUDP2_MTU, sat_sub, DATA_PACKET_OVERHEAD, PIGGYBACK_RESERVE in Hl.
  pose proof (llen_nonneg data). lia.
Qed.

(** What a transmission attempt promises. *)
Definition sends (N : Z) (c : RdpeudpConnection) (r : option Transmit) (c' : RdpeudpConnection) : Prop :=
  stays N c c' /\ forall t, r = Some t -> fits c t.

Lemma wp_try_retransmit N c now :
  cinv N c -> state c = Established -> is_u64 now -> N + 65536 < 2 ^ 64 ->
  wp (try_retransmit now) (fun r c' => sends (N + 2) c r c') c.
Proof.
  intros Hc Hs Hn HN. pose proof (ci_N _ _ Hc). destruct (ci_est _ _ Hc Hs) as ([p Hp] & [w Hw] & _).
  assert (Hc' : forall k, 0 <= k <= 4 -> cinv (N + k) c) by (intros; eapply cinv_mono; [done|lia]).
  assert (Hno : sends (N + 2) c None c) by (split; [split; [apply Hc'; lia|done]|done]).
  unfold try_retransmit. wp_step. rewrite Hw.
  destruct (negb (Reliability.has_pending _)); [by apply wp_ret|].
  destruct (_ <=? _); [by apply wp_ret|].
  destruct (SendWindow.has_capacity w) eqn:Hcap; cbn [negb]; [|by apply wp_ret].
  destruct (reliability c) as [|e q] eqn:Eq; cbn [Reliability.dequeue].
  { wp_step. apply wp_ret. split; [|done]. split; [|by constructor].
    apply cinv_rel; [apply Hc'; lia|done|constructor|constructor]. }
  wp_step. pose proof (ci_rel _ _ Hc) as Hrel. pose proof (ci_queue _ _ Hc) as Hqu. rewrite Eq in Hrel, Hqu.
  apply Forall_cons in Hrel as [He Hq].
  assert (Hc1 : cinv N (with_reliability q c)).
  { apply cinv_rel; [done..|]. unfold Reliability.inv in *. cbn in Hqu. by apply NoDup_cons in Hqu as [_ ?]. }
  pose proof (max_payload_range c).
  destruct (sw_push_retransmit N (max_payload c) w (Reliability.channel_seq e) (Reliability.data e) now)
    as (w' & -> & Hw'); [lia|by apply (ci_sw _ _ Hc)|lia|done..|].
  unfold set_sw. wp_step. set (c1 := with_send_window (Some w') (with_reliability q c)).
  assert (Hc2 : cinv (N + 1) c1) by (apply cinv_sw; [eapply cinv_mono; [done|lia]|done|done]).
  apply wp_bind. eapply wp_mono; [apply (wp_build_data_packet (N + 1) c1 p); [done|done|exact Hp|done|apply He|unfold WINDOW_MAX; lia]|].
  intros r c2 (-> & Hc3 & Hf). cbn [is_some]. replace (N + 1 + 1) with (N + 2) in Hc3 by lia.
  assert (Hk : keeps c c2) by (eapply keeps_trans; [|apply Hf]; by constructor).
  apply wp_bind. unfold bump, timer_set. wp_step. wp_step. apply wp_ret. split.
  - split; [|by destruct Hk; constructor]. apply cinv_set; [by apply cinv_stats|]. cbn. destruct Hk. congruence.
  - intros t [= <-]. by eapply data_fits.
Qed.

Lemma wp_try_send_new_data N c now :
  cinv N c -> state c = Established -> is_u64 now -> N + 65536 < 2 ^ 64 ->
  wp (try_send_new_data now) (fun r c' => sends (N + 2) c r c') c.
Proof.
  intros Hc Hs Hn HN. pose proof (ci_N _ _ Hc). destruct (ci_est _ _ Hc Hs) as ([p Hp] & [w Hw] & _).
  assert (Hc' : forall k, 0 <= k <= 4 -> cinv (N + k) c) by (intros; eapply cinv_mono; [done|lia]).
  assert (Hno : sends (N + 2) c None c) by (split; [split; [apply Hc'; lia|done]|done]).
  unfold try_send_new_data. wp_step. destruct (send_buffer c) as [|data rest] eqn:Eb; [by apply wp_ret|].
  rewrite Hw. destruct (_ <=? _); [by apply wp_ret|].
  destruct (SendWindow.has_capacity w) eqn:Hcap; cbn [negb]; [|by apply wp_ret].
  pose proof (ci_buf _ _ Hc) as Hbuf. rewrite Eb in Hbuf. apply Forall_cons in Hbuf as [Hd Hrest].
  wp_step. assert (Hc1 : cinv N (with_send_buffer rest c)) by by apply cinv_buf.
  pose proof (max_payload_range c).
  destruct (sw_push N (max_payload c) w data now) as (w' & -> & Hw'); [lia|by apply (ci_sw _ _ Hc)|lia|done..|].
  unfold set_sw. wp_step. set (c1 := with_send_window (Some w') (with_send_buffer rest c)).
  assert (Hc2 : cinv (N + 1) c1) by (apply cinv_sw; [eapply cinv_mono; [done|lia]|done|done]).
  apply wp_bind. eapply wp_mono; [apply (wp_build_data_packet (N + 1) c1 p); [done|done|exact Hp|done|apply Hd|unfold WINDOW_MAX; lia]|].
  intros r c2 (-> & Hc3 & Hf). cbn [is_some]. replace (N + 1 + 1) with (N + 2) in Hc3 by lia.
  assert (Hk : keeps c c2) by (eapply keeps_trans; [|apply Hf]; by constructor).
  apply wp_bind. unfold bump, timer_set. do 2 wp_step.
  apply (wp_mono _ (fun _ => stays (N + 2) c)).
  - destruct (negb _).
    + wp_step. split; [|by destruct Hk; constructor]. apply cinv_set; [by apply cinv_stats|]. cbn. destruct Hk. congruence.
    + apply wp_ret. split; [by apply cinv_stats|by destruct Hk; constructor].
  - intros [] c3 H3. apply wp_ret. split; [done|]. intros t [= <-]. by eapply data_fits.
Qed.

Lemma wp_transmitted N c t now :
  cinv N c -> state c <> Closed ->
  wp (transmitted t now) (fun r c' => r = Some t /\ stays N c c') c.
Proof.
  intros Hc Hs. unfold transmitted. wp_step. apply wp_bind. eapply wp_mono; [by apply wp_timer_set|].
  intros [] c1 H1. by apply wp_ret.
Qed.

Lemma sends_transmitted N N' c c1 t now :
  sends N c (Some t) c1 -> state c <> Closed -> N <= N' < 2 ^ 64 ->
  wp (transmitted t now) (fun r c' => sends N' c r c') c1.
Proof.
  intros [H1 Ht] Hs HN. eapply wp_mono; [apply wp_transmitted; [apply H1|destruct H1 as [_ []]; congruence]|].
  intros r c2 [-> H2]. split.
  - eapply stays_mono; [by eapply stays_trans|done].
  - intros t' [= <-]. by apply Ht.
Qed.

Lemma sends_trans N N' c c1 r r' c2 :
  sends N c r c1 -> sends N' c1 r' c2 -> sends N' c r' c2.
Proof.
  intros [H1 _] [H2 H3]. split; [by eapply stays_trans|]. intros t Ht. specialize (H3 t Ht).
  unfold fits in *. destruct H1 as [_ []]. by rewrite <- k_params0.
Qed.

Lemma wp_poll_transmit N c now :
  cinv N c -> is_u64 now -> N + STEP < 2 ^ 64 ->
  wp (poll_transmit now) (fun r c' => sends (N + STEP) c r c') c.
Proof.
  intros Hc Hn HN. pose proof (ci_N _ _ Hc). unfold poll_transmit. apply wp_bind.
  apply (wp_mono _ (fun r c' => sends (N + STEP) c r c')).
  2: { intros r c1 [H1 H2]. apply wp_bind. apply (wp_mono _ (fun _ => stays (N + STEP) c)).
       - destruct (is_some r); [|by apply wp_ret]. eapply wp_mono; [apply wp_bump, H1|]. intros [] c2 ?. by eapply stays_trans.
       - intros [] c2 H3. by apply wp_ret. }
  assert (Hno : sends (N + STEP) c None c) by (split; [split; [eapply cinv_mono; [done|unfold STEP in *; lia]|done]|done]).
  unfold poll_transmit_inner. wp_step. destruct (decide (state c = Closed)); [by apply wp_ret|].
  destruct (pending_transmits c) as [|t rest] eqn:Et.
  - destruct (decide (state c <> Established)) as [|Hs%dec_stable]; [by apply wp_ret|].
    apply wp_bind. eapply wp_mono; [apply (wp_try_retransmit N); [done|done|done|unfold STEP in *; lia]|]. intros r c1 H1.
    destruct r as [t|]; [eapply sends_transmitted; [exact H1|done|unfold STEP in *; lia]|].
    apply wp_bind. eapply wp_mono.
    { apply (wp_try_send_new_data (N + 2)); [apply H1|by eapply stays_state; [apply H1|]|done|unfold STEP in *; lia]. }
    intros r c2 H2. pose proof (sends_trans _ _ _ _ _ _ _ H1 H2) as H3.
    destruct r as [t|]; [eapply sends_transmitted; [exact H3|done|unfold STEP in *; lia]|].
    assert (H4 : sends (N + STEP) c None c2).
    { split; [|done]. eapply stays_mono; [apply H3|unfold STEP in *; lia]. }
    wp_step. destruct (ack_pending c2); [|by apply wp_ret].
    apply wp_bind. eapply wp_mono.
    { apply (wp_build_standalone (N + 2 + 2)); [apply H3|by eapply stays_state; [apply H3|]|done|unfold STEP, WINDOW_MAX in *; lia]. }
    intros r c3 ((pk & -> & _ & _ & Ht) & Hc3 & Hf). unfold timer_clear. do 2 wp_step.
    eapply (sends_transmitted (N + 2 + 2 + 1)); [|done|unfold STEP in *; lia]. split.
    + split; [by apply cinv_clear, cinv_ack_pending|].
      eapply keeps_trans; [apply H3|]. eapply keeps_trans; [apply Hf|]. by constructor.
    + intros t' [= <-]. unfold fits. destruct (ci_est _ _ Hc Hs) as ([p Hp] & _). rewrite Hp.
      destruct (ci_params _ _ Hc p Hp) as [_ _ Hm _]. unfold mtu_ok, MTU_MIN in Hm. cbn [contents]. lia.
  - wp_step. pose proof (ci_tx _ _ Hc) as Htx. rewrite Et in Htx. apply Forall_cons in Htx as [Ht Hrest].
    eapply (sends_transmitted N); [|done|unfold STEP in *; lia]. split.
    + split; [by apply cinv_tx|by constructor].
    + intros t' [= <-]. by eapply handshake_fits.
Qed.


(** *** Closing, timers, sending *)

Definition closed (c : RdpeudpConnection) : RdpeudpConnection :=
  let tt := Timers.clear (Timers.clear (Timers.clear (Timers.clear (timers c) Timers.Retransmit)
    Timers.AckDelay) Timers.Idle) Timers.KeepAlive in
  with_pending_events (pending_events c ++ [ConnectionClosed]) (with_timers tt (with_state Closed c)).

Lemma close_eq c :
  close c = Ok (tt, if decide (state c = Closed) then c else closed c).
Proof.
  unfold close. rewrite (bind_ok _ _ _ _ _ eq_refl). unfold id. by destruct (decide (state c = Closed)).
Qed.

Lemma cinv_closed N c : cinv N c -> cinv N (closed c).
Proof.
  intros Hc. unfold closed. cinv_keep Hc; try (by intros [|]); try done. intros _ t.
  cbn [timers with_pending_events with_timers]. rewrite !Timers.get_clear. by destruct t; repeat case_decide.
Qed.

(** A step that may close the connection. *)
Definition ends (N : Z) (c c' : RdpeudpConnection) : Prop :=
  stays N c c' \/ (cinv N c' /\ state c' = Closed /\ side c' = side c /\ config c' = config c /\ params c' = params c).

Lemma ends_inv N c c' : ends N c c' -> cinv N c'.
Proof. by intros [[]|[]]. Qed.

Lemma stays_ends N c1 c2 c3 : stays N c1 c2 -> ends N c2 c3 -> ends N c1 c3.
Proof.
  intros [Hc []] [[? []]|(?&?&?&?&?)]; [left; split; [done|]; constructor; congruence|].
  right. split_and!; congruence || done.
Qed.

Lemma wp_close N c : cinv N c -> wp close (fun _ => ends N c) c.
Proof.
  intros Hc. unfold wp. rewrite close_eq. destruct (decide _); [by left|]. right.
  split_and!; try done. by apply cinv_closed.
Qed.

Lemma wp_fire N c t now :
  cinv N c -> state c <> Closed -> is_u64 now -> wp (fire now t) (fun _ => ends N c) c.
Proof.
  intros Hc Hs Hn. destruct t; cbn [fire].
  - unfold handle_retransmit_timeout. apply wp_bind. eapply wp_mono; [by apply wp_timer_clear|]. intros [] c1 H1.
    apply wp_bind. eapply wp_mono; [apply wp_bump, H1|]. intros [] c2 H2. pose proof (stays_trans _ _ _ _ _ H1 H2) as H3.
    wp_step. unfold on_timeout. destruct (decide (state c2 <> Established)) as [Hne|Hest%dec_stable].
    + wp_step. set (c3 := with_rtt _ c2).
      assert (H4 : stays N c c3).
      { eapply stays_trans; [exact H3|]. split; [|by constructor].
        apply cinv_rtt; [apply H3|]. apply RttBounds.on_timeout_inv, (ci_rtt _ _ (proj1 H3)). }
      unfold retransmit_handshake. wp_step. destruct (handshake_datagram c3) as [d|]; [|by apply wp_ret; left].
      destruct (_ <=? _).
      * eapply wp_mono; [apply wp_close, H4|]. intros [] c4 H5. by eapply stays_ends.
      * wp_step. set (c4 := with_handshake_retransmits _ c3).
        assert (H5 : stays N c c4).
        { eapply stays_trans; [exact H4|]. split; [by apply cinv_hs_retransmits, H4|by constructor]. }
        apply wp_bind. eapply wp_mono; [apply wp_resend, H5|]. intros [] c5 H6.
        pose proof (stays_trans _ _ _ _ _ H5 H6) as H7.
        eapply wp_mono; [apply wp_timer_set; [apply H7|destruct H7 as [_ []]; congruence]|].
        intros [] c6 H8. left. by eapply stays_trans.
    + apply wp_bind. eapply wp_mono; [apply wp_declare_overdue_lost; [apply H3|done]|]. intros [] c3 H4.
      pose proof (stays_trans _ _ _ _ _ H3 H4) as H5. pose proof (stays_state _ _ _ _ H4 Hest) as Hs3.
      wp_step. eapply wp_mono; [apply (wp_update_retransmit_timer N); [|done]|].
      * apply cinv_rtt; [apply H5|]. apply RttBounds.on_timeout_inv, (ci_rtt _ _ (proj1 H5)).
      * intros [] c4 [Hc4 Hk4]. left. eapply stays_trans; [exact H5|]. split; [done|]. destruct Hk4. by constructor.
  - unfold handle_ack_delay_timeout. unfold timer_clear. do 2 wp_step. left. stays_tac.
  - by apply wp_close.
  - unfold handle_keep_alive_timeout, timer_clear, timer_set. do 4 wp_step. left. split; [|by constructor].
    apply cinv_set; [|done]. by apply cinv_ack_pending, cinv_clear.
Qed.

Lemma wp_handle_timeout N c now :
  cinv N c -> is_u64 now -> wp (handle_timeout now) (fun _ => ends N c) c.
Proof.
  intros Hc Hn. unfold handle_timeout. wp_step. destruct (decide _); [apply wp_ret; by left|].
  generalize (Timers.expired (timers c) now). intros ts.
  assert (He : ends N c c) by by left.
  enough (H : forall c1, ends N c c1 -> wp (fire_all now ts) (fun _ => ends N c) c1) by by apply H.
  induction ts as [|t ts IH]; intros c1 H1; [done|]. cbn [fire_all]. wp_step.
  destruct (decide (state c1 = Closed)) as [|Hs1]; [by apply wp_ret|].
  apply wp_bind. eapply wp_mono; [apply (wp_fire N); [by eapply ends_inv|done|done]|]. intros [] c2 H2.
  apply IH. destruct H1 as [H1|(?&?&_)]; [by eapply stays_ends|done].
Qed.

Lemma chunks_payload mp data :
  1 <= mp -> bytes_ok data -> Forall (payload_ok mp) (chunks (Z.to_nat mp) data).
Proof.
  intros Hm Hb. destruct (chunks_loop_spec (length data) (Z.to_nat mp) data) as (Hc & Hf & _); [lia|lia|].
  unfold chunks. set (ch := chunks_loop _ _ _) in *. rewrite <- Hc in Hb. clear Hc. induction Hf as [|d ch [_ Hd] Hch IH]; [constructor|].
  cbn [concat] in Hb. apply Forall_app in Hb as [H1 H2]. constructor; [|by apply IH].
  split; [done|]. unfold llen. lia.
Qed.

Lemma wp_send N c data :
  cinv N c -> bytes_ok data -> wp (send data) (fun _ => stays N c) c.
Proof.
  intros Hc Hb. unfold send. wp_step. pose proof (max_payload_range c).
  destruct (state c) eqn:Es; try (by apply wp_ret). cbv zeta.
  destruct (_ <? _); [by apply wp_ret|].
  destruct (Z.leb_spec (llen data) (max_payload c)).
  - wp_step. apply wp_ret. split; [|by constructor]. apply cinv_buf; [done|done|].
    apply Forall_app. split; [apply Hc|]. by repeat constructor.
  - wp_step. apply wp_ret. split; [|by constructor]. apply cinv_buf; [done|done|].
    apply Forall_app. split; [apply Hc|]. apply chunks_payload; [lia|done].
Qed.

Lemma wp_poll_event N c : cinv N c -> wp poll_event (fun _ => stays N c) c.
Proof.
  intros Hc. unfold poll_event. wp_step. destruct (pending_events c); [by apply wp_ret|].
  wp_step. apply wp_ret. split; [by apply cinv_events|by constructor].
Qed.

End methods.
