(* ===== verification/ConnectionProps.v ===== *)
(** What holds of every reachable connection
    (src/crates/ironrdp-rdpeudp/src/connection.rs): the public methods as the
    steps of a transition system, and its safety properties. *)

From S2P Require Import Prelude Timing FloatBounds Loss RecvWindow SendWindow Congestion.
From S2P Require Import Cursor Codec Flags Seq Prefix WireV1 WireV2 Connection ConnectionInv.

Open Scope Z_scope.

(** ** The public interface as a transition system *)

Inductive call :=
| HandleDatagram (wire : list Z) (now : Z)
| PollTransmit (now : Z)
| HandleTimeout (now : Z)
| Send (data : list Z)
| PollEvent
| Close.

Inductive reply :=
| Handled (r : RdpeudpErrorKind + unit)
| Transmitted (t : option Transmit)
| Fired
| Accepted (r : SendError + unit)
| Polled (e : option Event)
| Done.

(** The arguments are what the Rust types allow: bytes and 64-bit instants. *)
Definition call_ok (k : call) : Prop :=
  match k with
  | HandleDatagram wire now => bytes_ok wire /\ is_u64 now
  | PollTransmit now => is_u64 now
  | HandleTimeout now => is_u64 now
  | Send data => bytes_ok data
  | PollEvent => True
  | Close => True
  end.

Section props.
Context {BF : Bitflags}.

Definition perform (k : call) : C reply :=
  match k with
  | HandleDatagram wire now => r ← handle_datagram wire now; mret (Handled r)
  | PollTransmit now => t ← poll_transmit now; mret (Transmitted t)
  | HandleTimeout now => _ ← handle_timeout now; mret Fired
  | Send data => r ← send data; mret (Accepted r)
  | PollEvent => e ← poll_event; mret (Polled e)
  | Close => _ ← close; mret Done
  end.

(** The connections that [n] calls reach from [connect] or from [accept] of a
    datagram off the wire. *)
Inductive reachable : nat -> RdpeudpConnection -> Prop :=
| reach_connect cfg now c :
    cfg_ok cfg -> is_u64 now -> connect cfg now = Ok (inr c) -> reachable 0 c
| reach_accept cfg wire d now c :
    cfg_ok cfg -> is_u64 now -> bytes_ok wire -> decode V1Datagram wire = Ok d ->
    accept cfg d now = Ok (inr c) -> reachable 0 c
| reach_call n c k r c' :
    reachable n c -> call_ok k -> perform k c = Ok (r, c') -> reachable (S n) c'.

(** Sequence numbers are 64 bits wide and one call moves them by less than
    2^18, so they cannot wrap within 2^45 calls. *)
Definition CALLS : Z := 2 ^ 45.

Definition budget (n : nat) : Z := 65536 + Z.of_nat n * STEP.

Lemma wp_perform N c k :
  cinv N c -> call_ok k -> N + STEP < 2 ^ 64 -> wp (perform k) (fun _ => cinv (N + STEP)) c.
Proof.
  intros Hc Hk HN. pose proof (ci_N _ _ Hc).
  assert (Hm : forall c', cinv N c' -> cinv (N + STEP) c') by (intros; eapply cinv_mono; [done|unfold STEP in *; lia]).
  destruct k; cbn [perform call_ok] in *; apply wp_bind.
  - destruct Hk. eapply wp_mono; [by apply wp_handle_datagram|]. intros r c' Hx. apply wp_ret, Hx.
  - eapply wp_mono; [by apply wp_poll_transmit|]. intros r c' Hx. apply wp_ret, Hx.
  - eapply wp_mono; [by apply wp_handle_timeout|]. intros r c' Hx. apply wp_ret, Hm. exact (ends_inv _ _ _ Hx).
  - eapply wp_mono; [by apply wp_send|]. intros r c' Hx. apply wp_ret, Hm, Hx.
  - eapply wp_mono; [by apply wp_poll_event|]. intros r c' Hx. apply wp_ret, Hm, Hx.
  - eapply wp_mono; [by apply wp_close|]. intros r c' Hx. apply wp_ret, Hm. exact (ends_inv _ _ _ Hx).
Qed.

Lemma connect_start cfg now c :
  cfg_ok cfg -> connect cfg now = Ok (inr c) ->
  is_Some (cfg_cookie_hash cfg) /\ c = client_start cfg now.
Proof.
  intros Hcfg Hc. destruct (cfg_cookie_hash cfg) as [h|] eqn:Eh.
  - rewrite connect_eq in Hc by (done || by rewrite Eh). split; [by eexists|congruence].
  - unfold connect in Hc. rewrite Eh in Hc. by destruct (_ <? _).
Qed.

Lemma reachable_inv n c : reachable n c -> Z.of_nat n < CALLS -> cinv (budget n) c.
Proof.
  unfold CALLS, budget, STEP. intros Hr. induction Hr as [cfg now c Hcfg Hn Hc|cfg wire d now c Hcfg Hn Hb Hd Ha|n c k r c' _ IH Hk Hp]; intros HN.
  - apply connect_start in Hc as [Hck ->]; [|done]. by apply client_start_inv.
  - apply (decode_wf (C := V1Datagram_Codec)) in Hd; [|done]. pose proof (accept_spec cfg d now Hcfg Hd) as H.
    rewrite Ha in H. destruct H as (sd & sx & Hsd & _ & _ & _ & _ & _ & ->).
    destruct Hd as (_ & _ & _ & _ & _ & Hwf & _). apply server_start_inv; [done|by apply Hwf|done].
  - assert (Hc : cinv (65536 + Z.of_nat n * 262144) c) by (apply IH; lia).
    pose proof (wp_perform _ _ k Hc Hk) as H. unfold wp in H. rewrite Hp in H. unfold STEP in H.
    replace (65536 + Z.of_nat (S n) * 262144) with (65536 + Z.of_nat n * 262144 + 262144) by lia. apply H. lia.
Qed.

Lemma budget_room n : Z.of_nat n < CALLS -> budget n + STEP < 2 ^ 64.
Proof. unfold CALLS, budget, STEP. lia. Qed.

Lemma perform_close c : state c <> Closed -> perform Close c = Ok (Done, closed c).
Proof. intros Hs. unfold perform. rewrite (bind_ok _ _ _ _ _ (close_eq c)). by rewrite decide_False. Qed.

(** C1: no panic: from every connection reachable by fewer than 2^45 calls,
    every call returns, whatever bytes the network delivers, whatever the
    clock reads and whatever the peer acknowledges. *)
Theorem connection_never_panics n c k :
  reachable n c -> Z.of_nat n < CALLS -> call_ok k ->
  exists r c', perform k c = Ok (r, c').
Proof.
  intros Hr Hn Hk. pose proof (reachable_inv _ _ Hr Hn) as Hc.
  pose proof (wp_perform _ _ k Hc Hk (budget_room _ Hn)) as H.
  apply wp_run in H as (r & c' & H & _). by exists r, c'.
Qed.

(** C38: every datagram a reachable connection emits fits: at most the
    negotiated MTU once there is one (a data packet with its acknowledgment
    vector and ack-of-acks included), and the smallest MTU of the protocol
    before. *)
Theorem datagrams_fit_mtu n c now t c' :
  reachable n c -> Z.of_nat n < CALLS -> is_u64 now ->
  poll_transmit now c = Ok (Some t, c') ->
  llen (contents t) <= match params c with Some p => mtu p | None => MTU_MIN end /\
  forall p, params c = Some p -> MTU_MIN <= mtu p <= MTU_MAX.
Proof.
  intros Hr Hn Hnow Hp. pose proof (reachable_inv _ _ Hr Hn) as Hc.
  pose proof (wp_poll_transmit _ _ now Hc Hnow (budget_room _ Hn)) as H. unfold wp in H. rewrite Hp in H.
  split; [exact (proj2 H t eq_refl)|]. intros p Hpp. apply (ci_params _ _ Hc p Hpp).
Qed.

(** Closed is terminal and silent: no datagram, timer, poll or send
    changes a closed connection beyond its datagram counter; datagrams are
    refused, data handed to [send] comes back to the caller, nothing is
    transmitted. *)
Theorem closed_is_terminal c wire now data :
  state c = Closed ->
  handle_datagram wire now c =
    Ok (inl KConnectionClosed, with_stats (bump_datagrams_in (stats c)) c) /\
  poll_transmit now c = Ok (None, c) /\
  handle_timeout now c = Ok (tt, c) /\
  send data c = Ok (inl (mkSendError KConnectionClosed data), c) /\
  close c = Ok (tt, c).
Proof.
  intros Hs. split_and!.
  - unfold handle_datagram, bump. do 2 rewrite (bind_ok _ _ _ _ _ eq_refl). unfold id.
    cbn [state with_stats]. by rewrite Hs.
  - unfold poll_transmit, poll_transmit_inner.
    rewrite (bind_ok _ _ _ None c); [done|]. rewrite (bind_ok _ _ _ _ _ eq_refl). unfold id.
    by rewrite decide_True.
  - unfold handle_timeout. rewrite (bind_ok _ _ _ _ _ eq_refl). unfold id. by rewrite decide_True.
  - unfold send. rewrite (bind_ok _ _ _ _ _ eq_refl). unfold id. by rewrite Hs.
  - rewrite close_eq. by rewrite decide_True.
Qed.

(** Once a reachable connection is closed it has no deadline left, so the
    caller's timer loop ends. *)
Theorem closed_has_no_deadline n c :
  reachable n c -> Z.of_nat n < CALLS -> state c = Closed -> poll_timeout c = None.
Proof.
  intros Hr Hn Hs. pose proof (ci_closed _ _ (reachable_inv _ _ Hr Hn) Hs) as Ht.
  unfold poll_timeout. pose proof (Timers.next_deadline_spec (timers c)) as H.
  destruct (Timers.next_deadline (timers c)); [|done]. destruct H as [[t Hd] _]. by rewrite Ht in Hd.
Qed.

(** [send] is all or nothing: accepted data is appended to the send buffer
    as non-empty pieces that concatenate to exactly that data, each small
    enough for one packet; refused data is returned whole and the connection
    is unchanged; the buffer never exceeds eight windows. *)
Theorem send_all_or_nothing c data :
  state c = Established ->
  match send data c with
  | Ok (inr _, c') =>
      exists pieces, send_buffer c' = send_buffer c ++ pieces /\ concat pieces = data /\
        Forall (fun d => llen d <= max_payload c) pieces /\
        c' = with_send_buffer (send_buffer c ++ pieces) c /\
        (data <> [] -> Forall (fun d => d <> []) pieces) /\
        llen (send_buffer c') <= 8 * SendWindow.usize_shl1 (cfg_log_window_size (config c))
  | Ok (inl e, c') => e = mkSendError KSendBufferFull data /\ c' = c
  | Err _ => False
  | Panic => False
  end.
Proof.
  intros Hs. unfold send. rewrite (bind_ok _ _ _ _ _ eq_refl). unfold id. rewrite Hs. cbv zeta.
  pose proof (max_payload_range c) as Hm. unfold SEND_BUFFER_WINDOW_MULTIPLE. set (mx := SendWindow.usize_shl1 _).
  destruct (Z.ltb_spec (8 * mx) (llen (send_buffer c) + Z.max (div_ceil (llen data) (max_payload c)) 1)) as [|Hroom]; [done|].
  destruct (Z.leb_spec (llen data) (max_payload c)) as [Hle|Hgt].
  - rewrite (bind_ok _ _ _ _ _ eq_refl). exists [data]. cbn [send_buffer with_send_buffer].
    split_and!; try done; [apply app_nil_r|by repeat constructor|by repeat constructor|].
    rewrite llen_app, llen_cons, llen_nil. lia.
  - rewrite (bind_ok _ _ _ _ _ eq_refl). exists (chunks (Z.to_nat (max_payload c)) data).
    destruct (chunks_loop_spec (length data) (Z.to_nat (max_payload c)) data) as (Hcat & Hf & Hcount); [lia|lia|].
    cbn [send_buffer with_send_buffer]. unfold chunks. set (ch := chunks_loop _ _ _) in *.
    split_and!; try done.
    + eapply Forall_impl; [exact Hf|]. intros d [_ Hd]. unfold llen. lia.
    + intros _. eapply Forall_impl; [exact Hf|]. by intros d [? _].
    + rewrite llen_app. enough (llen ch <= div_ceil (llen data) (max_payload c)) by lia.
      unfold div_ceil, llen in *. apply Z.div_le_lower_bound; [lia|]. nia.
Qed.

End props.

(** ** Witnesses *)

Definition sample_cfg : ConnectionConfig :=
  mkConfig 7 10 1232 1232 (Duration.from_secs 65) (Duration.from_secs 4) (Some (replicate 32 5)).

Lemma sample_cfg_ok : cfg_ok sample_cfg.
Proof.
  constructor; cbn; try done. intros h [= <-]. split; [done|]. by repeat constructor.
Qed.

Lemma sample_reachable : @reachable bits_flags 0 (@client_start bits_flags sample_cfg 100).
Proof.
  apply (@reach_connect bits_flags sample_cfg 100); [apply sample_cfg_ok|done|].
  apply connect_eq; [apply sample_cfg_ok|by eexists].
Qed.

(** An established client without a peer: the state [send] accepts data in. *)
Definition sample_established : RdpeudpConnection :=
  @established (mkParams 7 9 1232 10) 100 (@client_start bits_flags sample_cfg 100).

Lemma connection_never_panics_witness :
  exists r c', @perform bits_flags (HandleDatagram [1; 2; 3; 255] 120)
    (@client_start bits_flags sample_cfg 100) = Ok (r, c').
Proof.
  apply (@connection_never_panics bits_flags 0 _ _ sample_reachable); [done|].
  split; [by repeat constructor|done].
Defined.

Lemma datagrams_fit_mtu_witness :
  exists t c', @poll_transmit bits_flags 120 (@client_start bits_flags sample_cfg 100) = Ok (Some t, c') /\
    llen (contents t) <= MTU_MIN.
Proof.
  eexists _, _. split; [vm_compute; reflexivity|].
  refine (proj1 (@datagrams_fit_mtu bits_flags 0 (@client_start bits_flags sample_cfg 100) 120 _ _
    sample_reachable _ _ _)); [done|done|vm_compute; reflexivity].
Defined.

Lemma closed_is_terminal_witness :
  let c := closed (@client_start bits_flags sample_cfg 100) in
  @poll_transmit bits_flags 120 c = Ok (None, c) /\ @handle_timeout 120 c = Ok (tt, c).
Proof.
  intros c. pose proof (@closed_is_terminal bits_flags c [] 120 [] eq_refl) as (_ & H1 & H2 & _). exact (conj H1 H2).
Defined.

Lemma closed_has_no_deadline_witness :
  poll_timeout (closed (@client_start bits_flags sample_cfg 100)) = None.
Proof.
  apply (@closed_has_no_deadline bits_flags 1); [|done|done].
  apply (@reach_call bits_flags 0 (@client_start bits_flags sample_cfg 100) Close Done);
    [apply sample_reachable|done|by apply perform_close].
Defined.

Lemma sample_established_state : state sample_established = Established.
Proof. vm_compute. reflexivity. Qed.

Lemma send_all_or_nothing_witness :
  match send [1; 2; 3] sample_established with
  | Ok (inr _, c') =>
      exists pieces, send_buffer c' = send_buffer sample_established ++ pieces /\
        concat pieces = [1; 2; 3] /\
        Forall (fun d => llen d <= max_payload sample_established) pieces /\
        c' = with_send_buffer (send_buffer sample_established ++ pieces) sample_established /\
        ([1; 2; 3] <> [] -> Forall (fun d => d <> []) pieces) /\
        llen (send_buffer c') <= 8 * SendWindow.usize_shl1 (cfg_log_window_size (config sample_established))
  | Ok (inl e, c') => e = mkSendError KSendBufferFull [1; 2; 3] /\ c' = sample_established
  | Err _ => False
  | Panic => False
  end.
Proof. apply (send_all_or_nothing sample_established [1; 2; 3]), sample_established_state. Defined.
