(* ===== verification/Handshake.v ===== *)
(** The three-way handshake end to end
    (src/crates/ironrdp-rdpeudp/src/connection.rs): a client and a server
    exchange the datagrams they emit, through the wire formats. *)

From S2P Require Import Prelude Timing FloatBounds Loss RecvWindow SendWindow Congestion.
From S2P Require Import Cursor Codec Flags Seq Prefix WireV1 WireV2 Connection ConnectionInv ConnectionProps.

Open Scope Z_scope.

Section handshake.
Context {BF : Bitflags}.

(** A queued datagram is sent as it is, with the keep-alive timer restarted. *)
Lemma poll_pending c t rest now :
  state c <> Closed -> pending_transmits c = t :: rest ->
  wp (poll_transmit now) (fun r c' => r = Some t /\ pending_transmits c' = rest /\ keeps c c' /\
    handshake_sent_at c' = handshake_sent_at c /\ handshake_retransmits c' = handshake_retransmits c) c.
Proof.
  intros Hs Ht. unfold poll_transmit. apply wp_bind. unfold poll_transmit_inner. wp_step.
  rewrite decide_False by done. rewrite Ht. wp_step. unfold transmitted. wp_step.
  unfold timer_set, bump. do 2 wp_step. cbn [is_some]. do 2 wp_step. by split_and!.
Qed.

(** The client takes a version 3 SYN+ACK and queues the final acknowledgment. *)
Lemma client_takes_syn_ack N c cfg isn up down now :
  cinv N c -> N + STEP < 2 ^ 64 -> state c = SynSent -> is_u64 now ->
  cfg_ok cfg -> is_u32 isn -> mtu_ok up -> mtu_ok down ->
  wp (handle_datagram (wire (syn_ack_datagram_of cfg isn up down)) now)
    (fun r c' => r = inr tt /\ state c' = Established /\ config c' = config c /\
       params c' = Some (mkParams (cfg_initial_sequence_number (config c)) (cfg_initial_sequence_number cfg)
         (Z.min (Z.min (Z.min (cfg_upstream_mtu (config c)) (cfg_downstream_mtu (config c))) up) down)
         (cfg_log_window_size (config c))) /\
       pending_transmits c' =
         pending_transmits c ++ [mkTransmit (wire (final_ack_of (config c) (cfg_initial_sequence_number cfg)))]) c.
Proof.
  intros Hc HN Hs Hn Hcfg Hi Hu Hd.
  set (d := syn_ack_datagram_of cfg isn up down).
  assert (Hwf : V1Datagram_wf d) by by apply syn_ack_wf.
  assert (Hfl : contains (fh_flags (d_header d)) (union V1Flags.SYN V1Flags.ACK) = true).
  { unfold d, syn_ack_datagram_of. cbn [d_header fh_flags]. rewrite contains_bits, !union_bits. reflexivity. }
  unfold handle_datagram, bump. do 2 wp_step. cbn [state config with_stats]. rewrite Hs.
  apply wp_bind. unfold timer_set. wp_step. unfold handle_syn_ack.
  rewrite (decode_wire (C := V1Datagram_Codec) d Hwf). unfold try_m. wp_step. rewrite Hfl. cbn [negb].
  cbn [d d_syn_data d_syn_data_ex syn_ack_datagram_of udp_ver].
  change (UdpVersion.uses_v2_wire_format UdpVersion.V3) with true. cbn [negb]. wp_step. wp_step.
  set (c1 := with_params _ _).
  assert (Hc1 : cinv N c1).
  { apply cinv_set_params; [apply cinv_set; [by apply cinv_stats|cbn; congruence]|done|].
    destruct (ci_cfg _ _ Hc), Hcfg. constructor; cbn; try done. unfold mtu_ok in *. lia. }
  apply wp_bind. eapply wp_mono.
  { eapply wp_conj; [by apply wp_sample_handshake_rtt|].
    instantiate (1 := fun _ c' => pending_transmits c' = pending_transmits c).
    unfold sample_handshake_rtt. wp_step. destruct (negb _); [by apply wp_ret|].
    destruct (handshake_sent_at c1) as [t|] eqn:Et; [|by apply wp_ret].
    unfold rtt_update. wp_step.
    destruct (RttBounds.update_total (rtt c1) (Instant.duration_since now t) (ci_rtt _ _ Hc1)) as (e & -> & _); [|done].
    apply duration_since_range; [done|]. by apply (ci_sent_at _ _ Hc1). }
  intros [] c2 [[Hc2 [Hs2 _ Hcf2 Hp2]] Htx2]. apply wp_bind. unfold wp at 1.
  rewrite enqueue_final_ack_eq; [|apply Hc2|by destruct Hcfg]. apply wp_bind. unfold wp at 1.
  erewrite transition_eq; [|exact Hp2]. apply wp_ret. unfold established. cbv zeta.
  set (tx := mkTransmit (wire (final_ack_of (config c2) (cfg_initial_sequence_number cfg)))).
  assert (Htx : pending_transmits c2 ++ [tx] =
    pending_transmits c ++ [mkTransmit (wire (final_ack_of (config c) (cfg_initial_sequence_number cfg)))])
    by (unfold tx; by rewrite Htx2, Hcf2).
  destruct (decide _); (split_and!; [done|done|exact Hcf2|exact Hp2|exact Htx]).
Qed.

(** The server takes the final acknowledgment. *)
Lemma server_takes_final_ack N c cfg isn now :
  cinv N c -> state c = SynReceived -> is_u64 now -> cfg_ok cfg -> is_u32 isn ->
  wp (handle_datagram (wire (final_ack_of cfg isn)) now)
    (fun r c' => r = inr tt /\ state c' = Established /\ params c' = params c) c.
Proof.
  intros Hc Hs Hn Hcfg Hi. set (d := final_ack_of cfg isn).
  assert (Hwf : V1Datagram_wf d) by by apply final_ack_wf.
  unfold handle_datagram, bump. do 2 wp_step. cbn [state config with_stats]. rewrite Hs.
  apply wp_bind. unfold timer_set. wp_step. apply wp_bind. unfold handle_final_ack.
  rewrite (decode_wire (C := V1Datagram_Codec) d Hwf). unfold try_m. wp_step.
  unfold d, final_ack_of. cbn [d_header fh_flags].
  assert (contains V1Flags.ACK V1Flags.SYN = false) as -> by (rewrite contains_bits; reflexivity).
  assert (contains V1Flags.ACK V1Flags.ACK = true) as -> by (rewrite contains_bits; reflexivity). cbn [negb].
  set (c1 := with_timers _ _).
  assert (Hc1 : cinv N c1) by (apply cinv_set; [by apply cinv_stats|cbn; congruence]).
  apply wp_bind. eapply wp_mono; [by apply wp_sample_handshake_rtt|]. intros [] c2 [Hc2 [Hs2 _ Hcf2 Hp2]].
  destruct (ci_syn _ _ Hc1 Hs) as [p Hp]. apply wp_bind. unfold wp at 1. rewrite (transition_eq p) by congruence.
  destruct (established_inv N p now c2 Hc2) as (_ & Hs3 & _ & _ & Hp3); [rewrite Hs2; cbn; congruence..|congruence|].
  do 2 apply wp_ret. split_and!; [done|done|]. rewrite Hp3, Hp2. done.
Qed.

(** [accept] of a valid SYN with the right cookie. *)
Lemma accept_syn cfgS cfgC now :
  cfg_ok cfgS -> cfg_ok cfgC -> is_Some (cfg_cookie_hash cfgC) ->
  cfg_cookie_hash cfgS = cfg_cookie_hash cfgC ->
  accept cfgS (syn_datagram_of cfgC) now =
  Ok (inr (server_start cfgS (mkSynDataPayload (cfg_initial_sequence_number cfgC)
    (cfg_upstream_mtu cfgC) (cfg_downstream_mtu cfgC)) now)).
Proof.
  intros HS HC [h Hh] Hck. pose proof (accept_spec cfgS _ now HS (syn_wf cfgC HC ltac:(eauto))) as H.
  destruct (accept cfgS (syn_datagram_of cfgC) now) as [[e|c]| |] eqn:E; [|by destruct H as (sd & sx & [= <-] & _ & _ & _ & _ & _ & ->)|done..].
  exfalso. revert E. unfold accept. pose proof (cfg_log _ HS).
  destruct (Z.ltb_spec LOG_WINDOW_SIZE_MAX (cfg_log_window_size cfgS)); [lia|].
  cbn [d_syn_data d_syn_data_ex syn_datagram_of syn_ex_flags udp_ver cookie_hash]. rewrite Hck, Hh.
  assert (contains SynExFlags.VERSION_INFO_VALID SynExFlags.VERSION_INFO_VALID = true) as -> by (rewrite contains_bits; reflexivity).
  rewrite bool_decide_true by done.
  change (UdpVersion.V3 <? UdpVersion.V3) with false. cbv zeta iota. cbn [negb].
  unfold mbind at 1, outcome_bind at 1. by repeat case_match.
Qed.

(** The MTU both sides arrive at. *)
Definition agreed_mtu (cfgC cfgS : ConnectionConfig) : Z :=
  Z.min (Z.min (Z.min (cfg_upstream_mtu cfgS) (cfg_downstream_mtu cfgS)) (cfg_upstream_mtu cfgC))
    (cfg_downstream_mtu cfgC).

Lemma client_mtu cfgC cfgS :
  cfg_ok cfgC -> cfg_ok cfgS ->
  Z.min (Z.min (Z.min (cfg_upstream_mtu cfgC) (cfg_downstream_mtu cfgC))
    (negotiated_mtu (cfg_upstream_mtu cfgC) (cfg_downstream_mtu cfgS)))
    (negotiated_mtu (cfg_downstream_mtu cfgC) (cfg_upstream_mtu cfgS)) = agreed_mtu cfgC cfgS.
Proof.
  intros [] []. unfold agreed_mtu, negotiated_mtu, clamp, mtu_ok, MTU_MIN, MTU_MAX, MTU_RANGE_START, MTU_RANGE_END in *.
  zcase; lia.
Qed.

(** C27: the handshake works: for all valid configurations that share the
    cookie, at all instants, the SYN the client emits is decoded and accepted
    by the server, the SYN+ACK it answers with establishes the client, and the
    client's final acknowledgment establishes the server; both then hold the
    same MTU and each other's initial sequence number. *)
Theorem handshake_establishes cfgC cfgS h t0 t1 t2 t3 t4 t5 t6 :
  cfg_ok cfgC -> cfg_ok cfgS -> cfg_cookie_hash cfgC = Some h -> cfg_cookie_hash cfgS = Some h ->
  is_u64 t0 -> is_u64 t1 -> is_u64 t2 -> is_u64 t3 -> is_u64 t4 -> is_u64 t6 ->
  exists c0 syn c1 d s0 syn_ack s1 c2 ack c3 s2,
    connect cfgC t0 = Ok (inr c0) /\
    poll_transmit t1 c0 = Ok (Some (mkTransmit syn), c1) /\
    decode V1Datagram syn = Ok d /\ accept cfgS d t2 = Ok (inr s0) /\
    poll_transmit t3 s0 = Ok (Some (mkTransmit syn_ack), s1) /\
    handle_datagram syn_ack t4 c1 = Ok (inr tt, c2) /\ state c2 = Established /\
    poll_transmit t5 c2 = Ok (Some (mkTransmit ack), c3) /\
    handle_datagram ack t6 s1 = Ok (inr tt, s2) /\ state s2 = Established /\
    params c2 = Some (mkParams (cfg_initial_sequence_number cfgC) (cfg_initial_sequence_number cfgS)
      (agreed_mtu cfgC cfgS) (cfg_log_window_size cfgC)) /\
    params s2 = Some (mkParams (cfg_initial_sequence_number cfgS) (cfg_initial_sequence_number cfgC)
      (agreed_mtu cfgC cfgS) (cfg_log_window_size cfgS)).
Proof.
  intros HC HS HhC HhS H0 H1 H2 H3 H4 H6.
  assert (Hck : is_Some (cfg_cookie_hash cfgC)) by eauto.
  pose proof (syn_wf cfgC HC Hck) as Hsyn.
  pose proof (client_start_inv cfgC t0 HC Hck H0) as Hc0.
  set (sd := mkSynDataPayload (cfg_initial_sequence_number cfgC) (cfg_upstream_mtu cfgC) (cfg_downstream_mtu cfgC)).
  assert (Hsd : SynData_wf sd) by (destruct HC; by split_and!).
  pose proof (server_start_inv cfgS sd t2 HS Hsd H2) as Hs0.
  (* the client emits the SYN *)
  destruct (wp_run _ _ _ (wp_conj _ _ _ _ (wp_poll_transmit _ _ t1 Hc0 H1 ltac:(done))
    (poll_pending (client_start cfgC t0) _ _ t1 ltac:(done) eq_refl)))
    as (? & c1 & Hp1 & [[Hc1 _] _] & -> & Htx1 & [Hst1 _ Hcf1 _] & _).
  (* the server answers *)
  destruct (wp_run _ _ _ (wp_conj _ _ _ _ (wp_poll_transmit _ _ t3 Hs0 H3 ltac:(done))
    (poll_pending (server_start cfgS sd t2) _ _ t3 ltac:(done) eq_refl)))
    as (? & s1 & Hp3 & [[Hs1 _] _] & -> & _ & [Hst3 _ Hcf3 Hpar3] & _).
  (* the client takes the answer and emits the final acknowledgment *)
  destruct (wp_run _ _ _ (client_takes_syn_ack _ c1 cfgS (initial_sequence_number sd)
    (negotiated_mtu (upstream_mtu sd) (cfg_downstream_mtu cfgS))
    (negotiated_mtu (downstream_mtu sd) (cfg_upstream_mtu cfgS)) t4 Hc1 ltac:(done) Hst1 H4 HS
    ltac:(by destruct HC) (negotiated_ok _ _) (negotiated_ok _ _)))
    as (? & c2 & Hh2 & -> & Hst2 & Hcf2 & Hpar2 & Htx2).
  rewrite Htx1 in Htx2. rewrite Hcf1 in Hcf2, Hpar2, Htx2.
  destruct (wp_run _ _ _ (poll_pending c2 _ _ t5 ltac:(congruence) Htx2)) as (? & c3 & Hp5 & -> & _).
  (* the server takes it *)
  destruct (wp_run _ _ _ (server_takes_final_ack _ s1 cfgC (cfg_initial_sequence_number cfgS) t6 Hs1 Hst3 H6 HC
    ltac:(by destruct HS))) as (? & s2 & Hh6 & -> & Hst6 & Hpar6).
  exists (client_start cfgC t0), (wire (syn_datagram_of cfgC)), c1, (syn_datagram_of cfgC), (server_start cfgS sd t2).
  eexists _, s1, c2, _, c3, s2. split_and!; try done.
  - by apply connect_eq.
  - exact (decode_wire (C := V1Datagram_Codec) _ Hsyn).
  - rewrite accept_syn; [done|done|done|done|congruence].
  - rewrite Hpar2. f_equal. f_equal. by apply client_mtu.
  - rewrite Hpar6, Hpar3. done.
Qed.


(** The server only answers a peer that proves it holds the security
    cookie: a SYN off the wire is accepted only if it is a version 3 SYN that
    carries exactly the configured cookie hash; the connection is then waiting
    for the final acknowledgment with a negotiated MTU within the protocol's
    range, and its only queued datagram is the SYN+ACK. *)
Theorem accept_authenticates cfg wire d now c :
  cfg_ok cfg -> bytes_ok wire -> decode V1Datagram wire = Ok d -> accept cfg d now = Ok (inr c) ->
  (exists sx h, d_syn_data_ex d = Some sx /\ cookie_hash sx = Some h /\ cfg_cookie_hash cfg = Some h /\
     UdpVersion.V3 <= udp_ver sx /\ contains (syn_ex_flags sx) SynExFlags.VERSION_INFO_VALID = true) /\
  state c = SynReceived /\ side c = Server /\
  (exists p, params c = Some p /\ MTU_MIN <= mtu p <= MTU_MAX) /\ length (pending_transmits c) = 1%nat.
Proof.
  intros Hcfg Hb Hd Ha. apply (decode_wf (C := V1Datagram_Codec)) in Hd; [|done].
  pose proof (accept_spec cfg d now Hcfg Hd) as H. rewrite Ha in H.
  destruct H as (sd & sx & Hsd & Hsx & Hv & H3 & [h Hh] & Hck & ->).
  destruct Hd as (_ & _ & _ & _ & _ & Hwf & _). destruct (Hwf sd Hsd) as (_ & Hu & Hdn).
  split_and!; [exists sx, h; split_and!; congruence|done|done| |done].
  eexists. split; [done|]. cbn. destruct Hcfg. unfold mtu_ok in *. lia.
Qed.

End handshake.

Lemma handshake_establishes_witness :
  let _ := bits_flags in
  exists c0 syn c1 d s0 syn_ack s1 c2 ack c3 s2,
    connect sample_cfg 0 = Ok (inr c0) /\
    poll_transmit 0 c0 = Ok (Some (mkTransmit syn), c1) /\
    decode V1Datagram syn = Ok d /\ accept sample_cfg d 10 = Ok (inr s0) /\
    poll_transmit 10 s0 = Ok (Some (mkTransmit syn_ack), s1) /\
    handle_datagram syn_ack 20 c1 = Ok (inr tt, c2) /\ state c2 = Established /\
    poll_transmit 20 c2 = Ok (Some (mkTransmit ack), c3) /\
    handle_datagram ack 30 s1 = Ok (inr tt, s2) /\ state s2 = Established /\
    params c2 = Some (mkParams 7 7 (agreed_mtu sample_cfg sample_cfg) 10) /\
    params s2 = Some (mkParams 7 7 (agreed_mtu sample_cfg sample_cfg) 10).
Proof.
  apply (@handshake_establishes bits_flags sample_cfg sample_cfg (replicate 32 5) 0 0 10 10 20 20 30);
    [apply sample_cfg_ok|apply sample_cfg_ok|reflexivity|reflexivity|done..].
Defined.

Lemma accept_authenticates_witness :
  let _ := bits_flags in
  let wire := wire (syn_datagram_of sample_cfg) in
  exists c, accept sample_cfg (syn_datagram_of sample_cfg) 10 = Ok (inr c) /\
    state c = SynReceived /\ length (pending_transmits c) = 1%nat.
Proof.
  cbv zeta. pose proof sample_cfg_ok as Hcfg.
  assert (Hck : is_Some (cfg_cookie_hash sample_cfg)) by by eexists.
  assert (Ha := @accept_syn bits_flags sample_cfg sample_cfg 10 Hcfg Hcfg Hck eq_refl).
  assert (Hb : bytes_ok (wire (Codec := @V1Datagram_Codec bits_flags) (@syn_datagram_of bits_flags sample_cfg))).
  { repeat constructor; vm_compute; congruence. }
  pose proof (@accept_authenticates bits_flags sample_cfg _ _ 10 _ Hcfg Hb
    (decode_wire (C := @V1Datagram_Codec bits_flags) _ (@syn_wf bits_flags _ Hcfg Hck)) Ha) as (_ & H1 & _ & _ & H2).
  eexists. split; [exact Ha|]. exact (conj H1 H2).
Defined.
