(* ===== verification/ConnectionTimers.v ===== *)
(** Timers of a reachable connection
    (src/crates/ironrdp-rdpeudp/src/connection.rs): a connection that is not
    closed always has a deadline, and unacknowledged data always has the
    retransmission timer armed. *)

From S2P Require Import Prelude Timing FloatBounds Loss RecvWindow SendWindow Congestion.
From S2P Require Import Cursor Codec Flags Seq Prefix WireV1 WireV2 Connection ConnectionInv ConnectionProps.

Open Scope Z_scope.

(** ** Partial correctness

    Where [wp] has already ruled a panic out, the weaker judgement suffices. *)

Definition wlp {A} (m : C A) (Q : A -> RdpeudpConnection -> Prop) (c : RdpeudpConnection) : Prop :=
  match m c with Ok (a, c') => Q a c' | _ => True end.

Section wlp_rules.
Context {A B : Type}.
Implicit Types (c : RdpeudpConnection).

Lemma wlp_ret (a : A) Q c : Q a c -> wlp (mret a) Q c.
Proof. done. Qed.
Lemma wlp_bind (m : C A) (k : A -> C B) Q c : wlp m (fun a => wlp (k a) Q) c -> wlp (m ≫= k) Q c.
Proof. unfold wlp, mbind, M_bind. by destruct (m c) as [[a c']| |]. Qed.
Lemma wlp_mono (m : C A) (Q Q' : A -> RdpeudpConnection -> Prop) c :
  wlp m Q c -> (forall a c', Q a c' -> Q' a c') -> wlp m Q' c.
Proof. unfold wlp. destruct (m c) as [[a c']| |]; auto. Qed.
Lemma wlp_gets (f : RdpeudpConnection -> A) Q c : Q (f c) c -> wlp (gets f) Q c.
Proof. done. Qed.
Lemma wlp_modify f (Q : unit -> RdpeudpConnection -> Prop) c : Q tt (f c) -> wlp (modify f) Q c.
Proof. done. Qed.
Lemma wlp_try {E} (r : outcome E A) (Q : E + A -> RdpeudpConnection -> Prop) c :
  (forall x, Q x c) -> wlp (try_m r) Q c.
Proof. unfold wlp, try_m. destruct r; cbn; auto. Qed.
Lemma wlp_wp (m : C A) Q Q' c : wp m Q c -> wlp m Q' c -> wp m (fun a c' => Q a c' /\ Q' a c') c.
Proof. unfold wp, wlp. destruct (m c) as [[a c']| |]; auto. Qed.
Lemma wp_wlp (m : C A) Q c : wp m Q c -> wlp m Q c.
Proof. unfold wp, wlp. destruct (m c) as [[a c']| |]; auto. Qed.

End wlp_rules.

Lemma wlp_iter {A} (f : A -> C unit) (Inv : RdpeudpConnection -> Prop) xs :
  (forall x c, Inv c -> wlp (f x) (fun _ => Inv) c) ->
  forall c, Inv c -> wlp (iter_m f xs) (fun _ => Inv) c.
Proof.
  intros Hf. induction xs as [|x xs IH]; intros c Hc; [done|]. cbn [iter_m]. apply wlp_bind.
  eapply wlp_mono; [by apply Hf|]. intros [] c' Hc'. by apply IH.
Qed.

Ltac wlp_step :=
  lazymatch goal with
  | |- wlp (mbind _ (gets _)) _ _ => apply wlp_bind, wlp_gets; unfold id
  | |- wlp (mbind _ (modify _)) _ _ => apply wlp_bind, wlp_modify
  | |- wlp (mbind _ (mret _)) _ _ => apply wlp_bind, wlp_ret
  | |- wlp (mbind _ _) _ _ => apply wlp_bind
  | |- wlp (mret _) _ _ => apply wlp_ret
  | |- wlp (modify _) _ _ => apply wlp_modify
  end;
  cbv beta.

(** ** The predicates *)

Abbreviation set_in := (fun c t => is_Some (Timers.get (timers c) t)).

(** Established, with the two standing timers armed. *)
Record semi (c : RdpeudpConnection) : Prop := {
  se_state : state c = Established;
  se_idle : set_in c Timers.Idle;
  se_keep : set_in c Timers.KeepAlive;
}.

(** Data that has not been acknowledged keeps the retransmission timer armed. *)
Definition data_armed (c : RdpeudpConnection) : Prop :=
  forall w, send_window c = Some w ->
    SendWindow.pending_entries w <> [] \/ reliability c <> [] -> set_in c Timers.Retransmit.

Record armed (c : RdpeudpConnection) : Prop := {
  ar_idle : state c <> Closed -> set_in c Timers.Idle;
  ar_keep : state c = Established -> set_in c Timers.KeepAlive;
  ar_hs : state c = SynSent \/ state c = SynReceived -> set_in c Timers.Retransmit;
  ar_data : state c = Established -> data_armed c;
}.

Definition armed_est (c : RdpeudpConnection) : Prop := armed c /\ state c = Established.

Lemma semi_armed c : semi c -> data_armed c -> armed_est c.
Proof. intros [] ?. split; [|done]. constructor; try done. rewrite se_state0. by intros [|]. Qed.

Lemma armed_semi c : state c = Established -> armed c -> semi c.
Proof. intros Hs []. constructor; [done|apply ar_idle0; congruence|by apply ar_keep0]. Qed.

(** Setting a timer only arms; clearing one disarms only that one. *)
Lemma set_in_set c t t' d : set_in c t -> is_Some (Timers.get (Timers.set (timers c) t' d) t).
Proof. intros H. rewrite Timers.get_set. by case_decide. Qed.
Lemma set_in_same (tt : Timers.TimerTable) t d : is_Some (Timers.get (Timers.set tt t d) t).
Proof. rewrite Timers.get_set. by rewrite decide_True. Qed.
Lemma set_in_clear c t t' : t' <> t -> set_in c t -> is_Some (Timers.get (Timers.clear (timers c) t') t).
Proof. intros Hn H. rewrite Timers.get_clear. by rewrite decide_False. Qed.

Ltac semi_tac :=
  match goal with H : semi ?c |- semi _ => destruct H as [Hst Hidle Hkeep]; constructor;
    [exact Hst
    |first [exact Hidle | by apply set_in_set | by apply set_in_clear | by apply set_in_same]
    |first [exact Hkeep | by apply set_in_set | by apply set_in_clear | by apply set_in_same]] end.

Section timers.
Context {BF : Bitflags}.
Implicit Types (c : RdpeudpConnection).

Lemma semi_declare_lost c s : semi c -> wlp (declare_lost s) (fun _ => semi) c.
Proof.
  intros H. unfold declare_lost. wlp_step. destruct (send_window c) as [w|]; [|by apply wlp_ret].
  destruct (SendWindow.mark_lost w s) as [info w']. unfold set_sw. wlp_step.
  destruct info; [|apply wlp_ret; semi_tac]. do 3 wlp_step. semi_tac.
Qed.

Lemma semi_rtt_update c x : semi c -> wlp (rtt_update x) (fun _ => semi) c.
Proof. intros H. unfold rtt_update. wlp_step. destruct (Rtt.update _ _); [wlp_step; semi_tac|done]. Qed.

Lemma semi_sample_rtt c e g : semi c -> wlp (sample_rtt e g) (fun _ => semi) c.
Proof.
  intros H. unfold sample_rtt. destruct e; [|by apply wlp_ret]. destruct g; [|by apply wlp_ret].
  destruct (Duration.checked_sub _ _); [by apply semi_rtt_update|by apply wlp_ret].
Qed.

Lemma semi_run_loss_detection c now : semi c -> wlp (run_loss_detection now) (fun _ => semi) c.
Proof.
  intros H. unfold run_loss_detection. wlp_step. destruct (send_window c); [|by apply wlp_ret].
  apply wlp_iter; [|done]. intros x c'. apply semi_declare_lost.
Qed.

Lemma semi_declare_overdue c now : semi c -> wlp (declare_overdue_lost now) (fun _ => semi) c.
Proof.
  intros H. unfold declare_overdue_lost. wlp_step.
  match goal with |- context [match ?l with [] => _ | _ :: _ => _ end] => destruct l end.
  - unfold declare_oldest_pending_lost. wlp_step. destruct (send_window c); [|by apply wlp_ret].
    destruct (Timers.min_opt _); [by apply semi_declare_lost|by apply wlp_ret].
  - apply wlp_iter; [|done]. intros x c'. apply semi_declare_lost.
Qed.

(** The common end of every handler that changes what is in flight. *)
Lemma armed_update_retransmit c now :
  semi c -> wlp (update_retransmit_timer now) (fun _ => armed_est) c.
Proof.
  intros H. unfold update_retransmit_timer. wlp_step. destruct (send_window c) as [w|] eqn:Ew.
  2: { apply wlp_ret, semi_armed; [done|]. intros w Hw. congruence. }
  destruct (match SendWindow.pending_entries w with [] => false | _ => true end ||
    Reliability.has_pending (reliability c)) eqn:Ep.
  - destruct (Timers.is_set (timers c) Timers.Retransmit) eqn:Es; cbn [negb].
    + apply wlp_ret, semi_armed; [done|]. intros w' _ _. rewrite Timers.is_set_get in Es.
      by apply bool_decide_eq_true in Es.
    + unfold timer_set. wlp_step. apply semi_armed; [semi_tac|]. intros w' _ _. apply set_in_same.
  - apply orb_false_iff in Ep as [E1 E2]. unfold timer_clear. wlp_step. apply semi_armed; [semi_tac|].
    intros w' Hw' Hx. cbn in Hw'. rewrite Ew in Hw'. injection Hw' as <-. destruct Hx as [Hx|Hx].
    + by destruct (SendWindow.pending_entries w).
    + cbn in Hx. by destruct (reliability c).
Qed.

Lemma armed_after_ack c bytes now : semi c -> wlp (after_ack bytes now) (fun _ => armed_est) c.
Proof.
  intros H. unfold after_ack. apply wlp_bind. apply (wlp_mono _ (fun _ => semi)).
  { destruct (0 <? bytes); [wlp_step; semi_tac|by apply wlp_ret]. }
  intros [] c1 H1. apply wlp_bind. eapply wlp_mono; [by apply semi_run_loss_detection|]. intros [] c2 H2.
  apply wlp_bind. apply (wlp_mono _ (fun _ => semi)).
  { destruct (0 <? bytes); [|by apply wlp_ret]. unfold timer_clear. do 2 wlp_step. semi_tac. }
  intros [] c3 H3. by apply armed_update_retransmit.
Qed.

(** Steps that change nothing the predicates look at. *)
Lemma armed_same c c' :
  armed c -> state c' = state c -> timers c' = timers c -> reliability c' = reliability c ->
  (send_window c' = send_window c \/ exists w w', send_window c = Some w /\ send_window c' = Some w' /\
     SendWindow.pending_entries w' = SendWindow.pending_entries w) -> armed c'.
Proof.
  intros [] Hs Ht Hr Hw. constructor; rewrite ?Hs, ?Ht; try done.
  intros He w' Hw' Hp. rewrite Ht. destruct Hw as [Hw|(w & w1 & Hw & Hw1 & Hpe)].
  - apply (ar_data0 He w'); [congruence|]. by rewrite <- Hr.
  - rewrite Hw1 in Hw'. injection Hw' as <-. apply (ar_data0 He w); [done|]. by rewrite <- Hpe, <- Hr.
Qed.

Lemma armed_set c t d : armed c -> armed (with_timers (Timers.set (timers c) t d) c).
Proof.
  intros []. constructor; unfold data_armed; cbn [state timers with_timers send_window reliability].
  - intros Hs. by apply set_in_set, ar_idle0.
  - intros Hs. by apply set_in_set, ar_keep0.
  - intros Hs. by apply set_in_set, ar_hs0.
  - intros Hs w Hw Hp. by apply set_in_set, (ar_data0 Hs w).
Qed.

Lemma armed_clear_delay c : armed c -> armed (with_timers (Timers.clear (timers c) Timers.AckDelay) c).
Proof.
  intros []. constructor; unfold data_armed; cbn [state timers with_timers send_window reliability].
  - intros Hs. by apply set_in_clear, ar_idle0.
  - intros Hs. by apply set_in_clear, ar_keep0.
  - intros Hs. by apply set_in_clear, ar_hs0.
  - intros Hs w Hw Hp. by apply set_in_clear, (ar_data0 Hs w).
Qed.

Ltac armed_tac H :=
  lazymatch goal with
  | |- armed_est _ => split; [eapply (armed_same _ _ (proj1 H)); [done|done|done|by left]|exact (proj2 H)]
  | |- armed _ => eapply (armed_same _ _ H); [done|done|done|by left]
  end.

Lemma est_set c t d : armed_est c -> armed_est (with_timers (Timers.set (timers c) t d) c).
Proof. intros [H Hs]. split; [by apply armed_set|done]. Qed.

Lemma armed_retire c s : armed_est c -> wlp (retire_ack_of_acks s) (fun _ => armed_est) c.
Proof.
  intros H. unfold retire_ack_of_acks. wlp_step. destruct (pending_ack_of_acks c); [|done].
  destruct (_ <? _); [armed_tac H|done].
Qed.

Lemma armed_ack_tail c e g b now s :
  semi c -> wlp (_ ← sample_rtt e g; _ ← after_ack b now; retire_ack_of_acks s) (fun _ => armed_est) c.
Proof.
  intros H. apply wlp_bind. eapply wlp_mono; [by apply semi_sample_rtt|]. intros [] c1 H1.
  apply wlp_bind. eapply wlp_mono; [by apply armed_after_ack|]. intros [] c2 H2. by apply armed_retire.
Qed.

Lemma armed_process_ack c ack now : armed_est c -> wlp (process_ack ack now) (fun _ => armed_est) c.
Proof.
  intros H. pose proof (armed_semi c (proj2 H) (proj1 H)) as Hse. unfold process_ack. wlp_step.
  destruct (send_window c) as [w|]; [|by apply wlp_ret]. wlp_step.
  destruct (_ <=? _); [apply wlp_ret; armed_tac H|].
  destruct (SendWindow.mark_received_through _ _) as [bytes w']. unfold set_sw. wlp_step. apply armed_ack_tail. semi_tac.
Qed.

Lemma armed_process_ack_vector c av now : armed_est c -> wlp (process_ack_vector av now) (fun _ => armed_est) c.
Proof.
  intros H. pose proof (armed_semi c (proj2 H) (proj1 H)) as Hse. unfold process_ack_vector. wlp_step.
  destruct (send_window c) as [w|]; [|by apply wlp_ret]. unfold set_sw. wlp_step. apply armed_ack_tail. semi_tac.
Qed.

Lemma armed_process_ack_of_acks c aoa : armed_est c -> wlp (process_ack_of_acks aoa) (fun _ => armed_est) c.
Proof.
  intros H. unfold process_ack_of_acks. wlp_step. destruct (recv_window c); [|by apply wlp_ret].
  unfold set_rw. wlp_step. armed_tac H.
Qed.

Lemma armed_owe_ack c now : armed_est c -> wlp (owe_ack now) (fun _ => armed_est) c.
Proof.
  intros H. unfold owe_ack. do 2 wlp_step. destruct (negb _); [|apply wlp_ret; armed_tac H].
  unfold timer_set. do 2 wlp_step. set (c1 := with_timers _ _).
  assert (H1 : armed_est c1) by (apply est_set; armed_tac H). armed_tac H1.
Qed.

Lemma armed_process_data c dh db now (dummy : bool) :
  armed_est c -> wlp (if dummy then process_dummy_data dh now else process_data dh db now) (fun _ => armed_est) c.
Proof.
  intros H. destruct dummy.
  - unfold process_dummy_data. wlp_step. destruct (recv_window c); [|by apply wlp_ret].
    destruct (RecvWindow.receive_without_payload _ _) as [[b rw]|]; [|done]. unfold set_rw. wlp_step.
    set (c1 := with_recv_window _ _). assert (H1 : armed_est c1) by armed_tac H.
    destruct b; [by apply armed_owe_ack|by apply wlp_ret].
  - unfold process_data. wlp_step. destruct (recv_window c); [|by apply wlp_ret]. cbv zeta.
    destruct (RecvWindow.receive _ _ _ _) as [[b rw]|]; [|done]. unfold set_rw. wlp_step.
    set (c1 := with_recv_window _ _). assert (H1 : armed_est c1) by armed_tac H.
    destruct b; [|by apply wlp_ret]. destruct (RecvWindow.drain_ordered rw) as [ds rw']. wlp_step.
    set (c2 := with_recv_window _ _). assert (H2 : armed_est c2) by armed_tac H1.
    apply wlp_bind. eapply wlp_mono.
    { apply (wlp_iter _ armed_est); [|exact H2]. intros d c3 H3. unfold push_event. wlp_step. armed_tac H3. }
    intros [] c3 H3. by apply armed_owe_ack.
Qed.

Lemma armed_opt {A} (f : A -> C unit) (o : option A) c :
  armed_est c -> (forall x, wlp (f x) (fun _ => armed_est) c) -> wlp (opt_m f o) (fun _ => armed_est) c.
Proof. intros H Hf. destruct o; [apply Hf|by apply wlp_ret]. Qed.

Lemma armed_handle_v2 c bytes now : armed_est c -> wlp (handle_v2_packet bytes now) (fun _ => armed_est) c.
Proof.
  intros H. unfold handle_v2_packet. apply wlp_bind, wlp_try. intros [e|[prefix pb]]; [by apply wlp_ret|].
  apply wlp_bind, wlp_try. intros [e|p]; [by apply wlp_ret|]. wlp_step.
  set (c1 := match send_window c with Some _ => _ | None => _ end).
  assert (H1 : armed_est c1).
  { unfold c1. destruct (send_window c) as [w|] eqn:E; [|done]. split; [|apply H].
    eapply (armed_same _ _ (proj1 H)); [done|done|done|]. right. by exists w, (SendWindow.set_peer_window w (h_log_window_size (p_header p))). }
  apply wlp_bind. eapply wlp_mono; [apply armed_opt; [done|intros; by apply armed_process_ack]|]. intros [] c2 H2.
  apply wlp_bind. eapply wlp_mono; [apply armed_opt; [done|intros; by apply armed_process_ack_vector]|]. intros [] c3 H3.
  apply wlp_bind. eapply wlp_mono; [apply armed_opt; [done|intros; by apply armed_process_ack_of_acks]|]. intros [] c4 H4.
  apply wlp_bind. apply (wlp_mono _ (fun _ => armed_est)); [|intros [] c5 H5; by apply wlp_ret].
  destruct (p_data_header p) as [dh|]; [|by apply wlp_ret]. destruct (p_data_body p) as [db|]; [|by apply wlp_ret].
  by apply armed_process_data.
Qed.

(** Establishing starts with nothing in flight and the standing timers armed. *)
Lemma armed_established p now c :
  reliability c = [] -> armed_est (established p now c).
Proof.
  intros Hr. unfold established. cbv zeta. apply semi_armed.
  - destruct (decide _); constructor; try done; cbn [timers with_pending_events with_timers].
    1, 3: by apply (set_in_set (with_timers (Timers.set _ Timers.Idle _) c)), set_in_same.
    all: by apply set_in_same.
  - intros w Hw Hp. exfalso. destruct (decide _); cbn in Hw, Hp; injection Hw as <-; rewrite Hr in Hp; by destruct Hp.
Qed.

Lemma handshake_idle N c : cinv N c -> state c = SynSent \/ state c = SynReceived -> reliability c = [].
Proof. intros Hc Hs. by destruct (ci_pre _ _ Hc Hs) as [(_ & _ & _ & ?) _]. Qed.

Lemma armed_rtt c r : armed c -> armed (with_rtt r c).
Proof. intros H. armed_tac H. Qed.

(** What the handshake steps before establishing leave alone. *)
Definition calm (c c' : RdpeudpConnection) : Prop := reliability c' = reliability c /\ params c' = params c.

Lemma calm_sample_handshake c now : wlp (sample_handshake_rtt now) (fun _ => calm c) c.
Proof.
  unfold sample_handshake_rtt. wlp_step. destruct (negb _); [by apply wlp_ret|].
  destruct (handshake_sent_at c); [|by apply wlp_ret]. unfold rtt_update. wlp_step.
  destruct (Rtt.update _ _); [by wlp_step|done].
Qed.

Lemma calm_final_ack c isn : wlp (enqueue_final_ack isn) (fun _ => calm c) c.
Proof.
  unfold enqueue_final_ack. wlp_step. apply wlp_bind. unfold enqueue_handshake. apply wlp_bind, wlp_try. intros [e|bs].
  - apply wlp_bind. unfold wlp at 1. rewrite close_eq. by destruct (decide _).
  - by do 5 wlp_step.
Qed.

Lemma armed_transition c now :
  reliability c = [] -> wlp (transition_to_established now) (fun _ => armed) c.
Proof.
  intros Hr. unfold wlp. destruct (params c) as [p|] eqn:Ep.
  - rewrite (transition_eq p) by done. by apply armed_established.
  - unfold transition_to_established, timer_clear. do 4 rewrite (bind_ok _ _ _ _ _ eq_refl). unfold id.
    destruct (decide _); cbn [params with_timers with_state with_handshake_datagram]; by rewrite Ep.
Qed.

Lemma armed_resend c : armed c -> wlp resend_handshake_datagram (fun _ => armed) c.
Proof.
  intros H. unfold resend_handshake_datagram. wlp_step.
  destruct (handshake_datagram c); [|by apply wlp_ret]. wlp_step. armed_tac H.
Qed.

Lemma armed_handle_syn_ack c bytes now :
  armed c -> reliability c = [] -> wlp (handle_syn_ack bytes now) (fun _ => armed) c.
Proof.
  intros H Hr. unfold handle_syn_ack. apply wlp_bind, wlp_try. intros [e|d]; [by apply wlp_ret|].
  destruct (negb _); [by apply wlp_ret|]. destruct (d_syn_data d) as [sd|]; [|by apply wlp_ret].
  destruct (d_syn_data_ex d) as [sx|]; [|by apply wlp_ret]. destruct (negb _); [by apply wlp_ret|]. do 2 wlp_step.
  apply wlp_bind. eapply wlp_mono; [apply calm_sample_handshake|]. intros [] c1 [Hr1 _].
  apply wlp_bind. eapply wlp_mono; [apply calm_final_ack|]. intros [] c2 [Hr2 _].
  apply wlp_bind. eapply wlp_mono; [apply armed_transition|].
  - rewrite Hr2, Hr1. exact Hr.
  - intros [] c3 H3. by apply wlp_ret.
Qed.

Lemma armed_handle_final_ack c bytes now :
  armed c -> reliability c = [] ->
  wlp (handle_final_ack bytes now) (fun b c' => armed c' /\ (b = false -> c' = c)) c.
Proof.
  intros H Hr. unfold handle_final_ack. apply wlp_bind, wlp_try. intros [e|d]; [by apply wlp_ret|].
  destruct (contains _ _).
  - apply wlp_bind. eapply wlp_mono; [by apply armed_resend|]. intros [] c1 H1. by apply wlp_ret.
  - destruct (negb _); [by apply wlp_ret|]. apply wlp_bind.
    eapply wlp_mono; [apply calm_sample_handshake|]. intros [] c1 [Hr1 _].
    apply wlp_bind. eapply wlp_mono; [apply armed_transition; congruence|]. intros [] c2 H2. by apply wlp_ret.
Qed.

Lemma armed_handle_datagram N c bytes now :
  cinv N c -> is_u64 now -> bytes_ok bytes -> armed c ->
  wlp (handle_datagram bytes now) (fun _ => armed) c.
Proof.
  intros Hc Hn Hb H. unfold handle_datagram, bump. do 2 wlp_step. set (c1 := with_stats _ c).
  assert (H1 : armed c1) by armed_tac H. assert (Hc1 : cinv N c1) by by apply cinv_stats.
  change (state c1) with (state c).
  destruct (state c) eqn:Es; unfold timer_set; [wlp_step..|by apply wlp_ret];
    (set (c2 := with_timers _ c1); assert (H2 : armed c2) by (by apply armed_set);
     assert (Hc2 : cinv N c2) by (apply cinv_set; [done|change (state c <> Closed); congruence])).
  - apply armed_handle_syn_ack; [done|]. apply (handshake_idle N c2 Hc2). by left.
  - assert (Hr2 : reliability c2 = []) by (apply (handshake_idle N c2 Hc2); by right).
    destruct (ci_syn _ _ Hc2 Es) as [p Hp2].
    apply wlp_bind. eapply wlp_mono; [by apply armed_handle_final_ack|].
    intros b c3 [H3 H4]. destruct b; [by apply wlp_ret|]. rewrite (H4 eq_refl). apply wlp_bind. unfold wlp at 1.
    rewrite (transition_eq p) by done. eapply wlp_mono; [by apply armed_handle_v2, armed_established|]. by intros r c4 [].
  - apply wlp_bind. eapply wlp_mono; [apply wp_wlp, (wp_is_repeated N c2 bytes Hc2 Hb)|]. intros b c3 ->. destruct b.
    + apply wlp_bind. eapply wlp_mono; [by apply armed_resend|]. intros [] c3 H3. by apply wlp_ret.
    + eapply wlp_mono; [by apply armed_handle_v2|]. by intros r c4 [].
Qed.

Lemma frame_semi c c' : tx_frame c c' -> semi c -> semi c'.
Proof.
  intros [Hk _ _ _ _ _ _ _ Ht] [Hs Hi Hka]. destruct Hk as [Hks _ _ _].
  constructor; [congruence|by rewrite Ht..].
Qed.

Lemma frame_armed c c' : tx_frame c c' -> armed_est c -> armed_est c'.
Proof.
  intros Hf [H Hs]. pose proof (frame_semi _ _ Hf (armed_semi c Hs H)) as Hse. apply semi_armed; [done|].
  destruct Hf as [_ Hsw Hrel _ _ _ _ _ Ht]. intros w Hw Hp. rewrite Ht by done.
  apply (ar_data c H Hs w); congruence.
Qed.

(** A sent data packet leaves the retransmission timer armed. *)
Lemma armed_try_retransmit N c now :
  cinv N c -> armed_est c -> is_u64 now -> N + 65536 < 2 ^ 64 ->
  wlp (try_retransmit now) (fun _ => armed_est) c.
Proof.
  intros Hc H Hn HN. pose proof (proj2 H) as Hs. pose proof (ci_N _ _ Hc).
  destruct (ci_est _ _ Hc Hs) as ([p Hp] & [w Hw] & _). pose proof (max_payload_range c).
  unfold try_retransmit. wlp_step. rewrite Hw. unfold Reliability.has_pending.
  destruct (reliability c) as [|e q] eqn:Eq; cbn [negb]; [by apply wlp_ret|].
  destruct (_ <=? _); [by apply wlp_ret|].
  destruct (SendWindow.has_capacity w) eqn:Hcap; cbn [negb]; [|by apply wlp_ret]. cbn [Reliability.dequeue].
  pose proof (ci_rel _ _ Hc) as Hrel. pose proof (ci_queue _ _ Hc) as Hqu. rewrite Eq in Hrel, Hqu.
  apply Forall_cons in Hrel as [He Hq].
  assert (Hc1 : cinv N (with_reliability q c)).
  { apply cinv_rel; [done..|]. unfold Reliability.inv in *. cbn in Hqu. by apply NoDup_cons in Hqu as [_ ?]. }
  destruct (sw_push_retransmit N (max_payload c) w (Reliability.channel_seq e) (Reliability.data e) now)
    as (w' & -> & Hw'); [lia|by apply (ci_sw _ _ Hc)|lia|done..|].
  unfold set_sw. do 2 wlp_step. set (c1 := with_send_window (Some w') (with_reliability q c)).
  assert (Hc2 : cinv (N + 1) c1) by (apply cinv_sw; [eapply cinv_mono; [done|lia]|done|done]).
  apply wlp_bind. eapply wlp_mono; [apply wp_wlp, (wp_build_data_packet (N + 1) c1 p); [done|exact Hs|exact Hp|done|apply He|unfold WINDOW_MAX; lia]|].
  intros r c2 (-> & _ & Hf). cbn [is_some]. apply wlp_bind. unfold bump, timer_set. do 2 wlp_step. apply wlp_ret.
  assert (Hse1 : semi c1) by (destruct (armed_semi c Hs (proj1 H)); by constructor).
  pose proof (frame_semi _ _ Hf Hse1) as Hse2. apply semi_armed; [semi_tac|]. intros w2 _ _. apply set_in_same.
Qed.

Lemma armed_try_send N c now :
  cinv N c -> armed_est c -> is_u64 now -> N + 65536 < 2 ^ 64 ->
  wlp (try_send_new_data now) (fun _ => armed_est) c.
Proof.
  intros Hc H Hn HN. pose proof (proj2 H) as Hs. pose proof (ci_N _ _ Hc).
  destruct (ci_est _ _ Hc Hs) as ([p Hp] & [w Hw] & _). pose proof (max_payload_range c).
  unfold try_send_new_data. wlp_step. destruct (send_buffer c) as [|data rest] eqn:Eb; [by apply wlp_ret|].
  rewrite Hw. destruct (_ <=? _); [by apply wlp_ret|].
  destruct (SendWindow.has_capacity w) eqn:Hcap; cbn [negb]; [|by apply wlp_ret].
  pose proof (ci_buf _ _ Hc) as Hbuf. rewrite Eb in Hbuf. apply Forall_cons in Hbuf as [Hd Hrest].
  assert (Hc1 : cinv N (with_send_buffer rest c)) by by apply cinv_buf.
  destruct (sw_push N (max_payload c) w data now) as (w' & -> & Hw'); [lia|by apply (ci_sw _ _ Hc)|lia|done..|].
  unfold set_sw. do 2 wlp_step. set (c1 := with_send_window (Some w') (with_send_buffer rest c)).
  assert (Hc2 : cinv (N + 1) c1) by (apply cinv_sw; [eapply cinv_mono; [done|lia]|done|done]).
  apply wlp_bind. eapply wlp_mono; [apply wp_wlp, (wp_build_data_packet (N + 1) c1 p); [done|exact Hs|exact Hp|done|apply Hd|unfold WINDOW_MAX; lia]|].
  intros r c2 (-> & _ & Hf). cbn [is_some]. apply wlp_bind. unfold bump, timer_set. do 2 wlp_step.
  assert (Hse1 : semi c1) by (destruct (armed_semi c Hs (proj1 H)); by constructor).
  pose proof (frame_semi _ _ Hf Hse1) as Hse2. cbn [timers with_stats].
  destruct (Timers.is_set (timers c2) Timers.Retransmit) eqn:Es; cbn [negb].
  - do 2 apply wlp_ret. apply semi_armed; [semi_tac|]. intros w2 _ _. cbn [timers with_stats].
    rewrite Timers.is_set_get in Es. by apply bool_decide_eq_true in Es.
  - wlp_step. apply wlp_ret. apply semi_armed; [semi_tac|]. intros w2 _ _. apply set_in_same.
Qed.

Lemma armed_transmitted c t now : armed c -> wlp (transmitted t now) (fun _ => armed) c.
Proof.
  intros H. unfold transmitted. wlp_step. unfold timer_set. wlp_step. apply wlp_ret. by apply armed_set.
Qed.

Lemma armed_poll_transmit N c now :
  cinv N c -> armed c -> is_u64 now -> N + STEP < 2 ^ 64 -> wlp (poll_transmit now) (fun _ => armed) c.
Proof.
  intros Hc H Hn HN. unfold STEP in HN. unfold poll_transmit. apply wlp_bind. apply (wlp_mono _ (fun _ => armed)).
  2: { intros r c1 H1. apply wlp_bind. destruct (is_some r); [unfold bump; wlp_step|]; apply wlp_ret; [armed_tac H1|].
       by apply wlp_ret. }
  unfold poll_transmit_inner. wlp_step. destruct (decide _); [by apply wlp_ret|].
  destruct (pending_transmits c) as [|t rest].
  2: { wlp_step. apply armed_transmitted. armed_tac H. }
  destruct (decide (state c <> Established)) as [|Hs%dec_stable]; [by apply wlp_ret|].
  apply wlp_bind. eapply wlp_mono.
  { apply wp_wlp, wlp_wp; [apply (wp_try_retransmit N); [done|done|done|lia]|]. apply (armed_try_retransmit N); [done|by split|done|lia]. }
  intros r c1 [[[Hc1 _] _] H1]. destruct r; [by apply armed_transmitted, H1|].
  apply wlp_bind. eapply wlp_mono.
  { apply wp_wlp, wlp_wp; [apply (wp_try_send_new_data (N + 2)); [done|apply H1|done|lia]|]. apply (armed_try_send (N + 2)); [done|done|done|lia]. }
  intros r c2 [[[Hc2 _] _] H2]. destruct r; [by apply armed_transmitted, H2|].
  wlp_step. destruct (ack_pending c2); [|apply wlp_ret, H2]. apply wlp_bind.
  eapply wlp_mono; [apply wp_wlp, (wp_build_standalone (N + 2 + 2)); [done|apply H2|done|unfold WINDOW_MAX; lia]|].
  intros r c3 ((pk & -> & _) & _ & Hf). pose proof (frame_armed _ _ Hf H2) as H3. unfold timer_clear. do 2 wlp_step.
  apply armed_transmitted. apply armed_clear_delay. destruct H3 as [H3 _]. armed_tac H3.
Qed.

Lemma armed_closed c : armed (closed c).
Proof. constructor; try done. by intros [|]. Qed.

Lemma armed_close c : armed c -> wlp close (fun _ => armed) c.
Proof. intros H. unfold wlp. rewrite close_eq. destruct (decide _); [done|apply armed_closed]. Qed.

Lemma armed_handshake_timeout N c now :
  cinv N c -> state c = SynSent \/ state c = SynReceived -> set_in c Timers.Idle ->
  wlp (retransmit_handshake now) (fun _ => armed) c.
Proof.
  intros Hc Hs Hi. destruct (ci_pre _ _ Hc Hs) as [_ [d Hd]]. unfold retransmit_handshake. wlp_step. rewrite Hd.
  destruct (_ <=? _).
  - unfold wlp. rewrite close_eq. rewrite decide_False by (destruct Hs; congruence). apply armed_closed.
  - wlp_step. apply wlp_bind. unfold resend_handshake_datagram. wlp_step. cbn [handshake_datagram with_handshake_retransmits].
    rewrite Hd. wlp_step. unfold timer_set. wlp_step. constructor; cbn [state timers with_timers with_pending_transmits with_handshake_retransmits].
    + intros _. by apply set_in_set.
    + intros He. destruct Hs; congruence.
    + intros _. apply set_in_same.
    + intros He. destruct Hs; congruence.
Qed.

Lemma armed_fire N c t now :
  cinv N c -> state c <> Closed -> armed c -> wlp (fire now t) (fun _ => armed) c.
Proof.
  intros Hc Hs H. destruct t; cbn [fire].
  - unfold handle_retransmit_timeout, timer_clear, bump, on_timeout. do 3 wlp_step.
    set (c1 := with_stats _ _). cbn [state c1 with_stats with_timers].
    assert (Hc1 : cinv N c1) by by apply cinv_stats, cinv_clear.
    assert (Hi1 : set_in c1 Timers.Idle) by (apply set_in_clear; [done|by apply (ar_idle c H)]).
    destruct (decide (state c <> Established)) as [Hne|He%dec_stable].
    + wlp_step. apply (armed_handshake_timeout N).
      * apply cinv_rtt; [done|]. apply RttBounds.on_timeout_inv, (ci_rtt _ _ Hc1).
      * cbn. destruct (state c); [by left|by right|done|done].
      * exact Hi1.
    + assert (Hse : semi c1) by (destruct (armed_semi c He H); constructor; [done|done|by apply set_in_clear]).
      apply wlp_bind. eapply wlp_mono; [by apply semi_declare_overdue|]. intros [] c2 H2. wlp_step.
      eapply wlp_mono; [apply armed_update_retransmit|by intros [] c3 []]. semi_tac.
  - unfold handle_ack_delay_timeout, timer_clear. do 2 wlp_step.
    pose proof (armed_clear_delay c H) as H1. armed_tac H1.
  - by apply armed_close.
  - unfold handle_keep_alive_timeout, timer_clear, timer_set. do 4 wlp_step. destruct H.
    constructor; unfold data_armed; cbn [state timers with_timers with_ack_pending send_window reliability].
    + intros Hx. rewrite Timers.get_set, decide_False, Timers.get_clear, decide_False by done. by apply ar_idle0.
    + intros Hx. apply set_in_same.
    + intros Hx. rewrite Timers.get_set, decide_False, Timers.get_clear, decide_False by done. by apply ar_hs0.
    + intros Hx w Hw Hp. rewrite Timers.get_set, decide_False, Timers.get_clear, decide_False by done. by apply (ar_data0 Hx w).
Qed.

Lemma armed_handle_timeout N c now :
  cinv N c -> is_u64 now -> armed c -> wlp (handle_timeout now) (fun _ => armed) c.
Proof.
  intros Hc Hn H. unfold handle_timeout. wlp_step. destruct (decide _); [by apply wlp_ret|].
  generalize (Timers.expired (timers c) now). intros ts. clear n. revert c Hc H.
  induction ts as [|t ts IH]; intros c Hc H; [done|]. cbn [fire_all]. wlp_step.
  destruct (decide (state c = Closed)) as [|Hs]; [by apply wlp_ret|].
  apply wlp_bind. eapply wlp_mono; [apply wp_wlp, wlp_wp; [by apply (wp_fire N)|by apply (armed_fire N)]|].
  intros [] c1 [H1 H2]. apply IH; [exact (ends_inv _ _ _ H1)|done].
Qed.

Lemma armed_perform N c k :
  cinv N c -> call_ok k -> N + STEP < 2 ^ 64 -> armed c -> wlp (perform k) (fun _ => armed) c.
Proof.
  intros Hc Hk HN H. destruct k; cbn [perform call_ok] in *; apply wlp_bind.
  - destruct Hk. eapply wlp_mono; [by eapply armed_handle_datagram|]. intros r c' Hx. by apply wlp_ret.
  - eapply wlp_mono; [by eapply armed_poll_transmit|]. intros r c' Hx. by apply wlp_ret.
  - eapply wlp_mono; [by eapply armed_handle_timeout|]. intros r c' Hx. by apply wlp_ret.
  - unfold send. wlp_step. destruct (state c); try (by do 2 apply wlp_ret). cbv zeta.
    destruct (_ <? _); [by do 2 apply wlp_ret|]. destruct (_ <=? _); wlp_step; do 2 apply wlp_ret; armed_tac H.
  - unfold poll_event. wlp_step. destruct (pending_events c); [by do 2 apply wlp_ret|]. wlp_step. do 2 apply wlp_ret. armed_tac H.
  - eapply wlp_mono; [by apply armed_close|]. intros r c' Hx. by apply wlp_ret.
Qed.

Lemma armed_start (tt : Timers.TimerTable) c a b :
  timers c = Timers.set (Timers.set tt Timers.Retransmit a) Timers.Idle b ->
  state c <> Established -> armed c.
Proof.
  intros Ht Hs. constructor; rewrite ?Ht; try done.
  - intros _. apply set_in_same.
  - intros _. rewrite Timers.get_set, decide_False by done. apply set_in_same.
Qed.

Lemma reachable_armed n c : reachable n c -> Z.of_nat n < CALLS -> armed c.
Proof.
  intros Hr. induction Hr as [cfg now c Hcfg Hn Hc|cfg wire d now c Hcfg Hn Hb Hd Ha|n c k r c' Hr IH Hk Hp]; intros HN.
  - apply connect_start in Hc as [_ ->]; [|done]. by eapply armed_start.
  - apply (decode_wf (C := V1Datagram_Codec)) in Hd; [|done]. pose proof (accept_spec cfg d now Hcfg Hd) as H.
    rewrite Ha in H. destruct H as (sd & sx & _ & _ & _ & _ & _ & _ & ->). by eapply armed_start.
  - assert (Hn : Z.of_nat n < CALLS) by lia. pose proof (reachable_inv _ _ Hr Hn) as Hc.
    pose proof (armed_perform _ c k Hc Hk (budget_room _ Hn) (IH Hn)) as H. unfold wlp in H. by rewrite Hp in H.
Qed.

(** C35: a connection never falls asleep: until it is closed it has a deadline;
    during the handshake the retransmission timer is armed; once established
    the idle and keep-alive timers are armed, and as long as any packet is
    unacknowledged or waiting to be retransmitted, so is the retransmission
    timer. *)
Theorem timers_stay_armed n c :
  reachable n c -> Z.of_nat n < CALLS -> state c <> Closed ->
  is_Some (poll_timeout c) /\ is_Some (Timers.get (timers c) Timers.Idle) /\
  (state c <> Established -> is_Some (Timers.get (timers c) Timers.Retransmit)) /\
  (state c = Established ->
     is_Some (Timers.get (timers c) Timers.KeepAlive) /\
     exists w, send_window c = Some w /\
       (SendWindow.pending_entries w <> [] \/ reliability c <> [] ->
        is_Some (Timers.get (timers c) Timers.Retransmit))).
Proof.
  intros Hr Hn Hs. pose proof (reachable_armed _ _ Hr Hn) as []. pose proof (reachable_inv _ _ Hr Hn) as Hc.
  split_and!.
  - unfold poll_timeout. pose proof (Timers.next_deadline_spec (timers c)) as H.
    destruct (Timers.next_deadline (timers c)); [by eexists|]. destruct (ar_idle0 Hs) as [d Hd]. by rewrite H in Hd.
  - by apply ar_idle0.
  - intros He. apply ar_hs0. destruct (state c); [by left|by right|done|done].
  - intros He. split; [by apply ar_keep0|]. destruct (ci_est _ _ Hc He) as (_ & [w Hw] & _).
    exists w. split; [done|]. by apply (ar_data0 He).
Qed.

(** The handshake is retried and then given up: when the retransmission
    timer fires before the connection is established, the same datagram is
    queued again and the timer armed at twice the timeout, up to five times;
    the next expiry closes the connection and tells the caller. *)
Theorem handshake_retries_then_closes c now d :
  state c = SynSent \/ state c = SynReceived -> handshake_datagram c = Some d ->
  exists c', handle_retransmit_timeout now c = Ok (tt, c') /\
  if HANDSHAKE_RETRANSMIT_LIMIT <=? handshake_retransmits c
  then state c' = Closed /\ pending_events c' = pending_events c ++ [ConnectionClosed] /\
    pending_transmits c' = pending_transmits c /\ forall t, Timers.get (timers c') t = None
  else state c' = state c /\ pending_transmits c' = pending_transmits c ++ [mkTransmit d] /\
    handshake_retransmits c' = handshake_retransmits c + 1 /\
    Rtt.rto (rtt c') = Z.min (Rtt.rto (rtt c) * 2) Rtt.MAX_RTO /\
    Timers.get (timers c') Timers.Retransmit = Some (after now (Rtt.rto (rtt c'))).
Proof.
  intros Hs Hd. unfold handle_retransmit_timeout, timer_clear, bump, on_timeout.
  do 3 rewrite (bind_ok _ _ _ _ _ eq_refl). unfold id. cbn [state with_stats with_timers].
  rewrite decide_True by (destruct Hs; congruence). rewrite (bind_ok _ _ _ _ _ eq_refl).
  unfold retransmit_handshake. rewrite (bind_ok _ _ _ _ _ eq_refl). unfold id.
  cbn [handshake_datagram handshake_retransmits with_rtt with_stats with_timers]. rewrite Hd.
  destruct (HANDSHAKE_RETRANSMIT_LIMIT <=? handshake_retransmits c).
  - rewrite close_eq. cbn [state with_rtt with_stats with_timers]. rewrite decide_False by (destruct Hs; congruence).
    eexists. split; [done|]. split_and!; try done. intros t. unfold closed.
    cbn [timers with_pending_events with_timers]. rewrite !Timers.get_clear. by destruct t; repeat case_decide.
  - unfold resend_handshake_datagram, timer_set. rewrite (bind_ok _ _ _ _ _ eq_refl).
    erewrite bind_ok; [|rewrite (bind_ok _ _ _ _ _ eq_refl); unfold id;
      cbn [handshake_datagram with_handshake_retransmits with_rtt with_stats with_timers]; rewrite Hd; reflexivity].
    eexists. split; [done|]. split_and!; try done. cbn [timers with_timers rtt with_rtt].
    rewrite Timers.get_set. by rewrite decide_True.
Qed.

End timers.

Lemma timers_stay_armed_witness :
  is_Some (poll_timeout (@client_start bits_flags sample_cfg 100)).
Proof.
  refine (proj1 (@timers_stay_armed bits_flags 0 _ sample_reachable _ _)); [done|discriminate].
Defined.

Lemma handshake_retries_then_closes_witness :
  exists c', @handle_retransmit_timeout 1100 (@client_start bits_flags sample_cfg 100) = Ok (tt, c') /\
    state c' = SynSent /\ handshake_retransmits c' = 1.
Proof.
  destruct (handshake_retries_then_closes (@client_start bits_flags sample_cfg 100) 1100 _ (or_introl eq_refl) eq_refl)
    as (c' & H1 & H2).
  exists c'. split; [exact H1|]. destruct H2 as (H2 & _ & H3 & _). split; [exact H2|exact H3].
Defined.
