(* ===== verification/Sender.v ===== *)
(** What the sending half of a connection holds on to
    (src/crates/ironrdp-rdpeudp/src/connection.rs with send_window.rs and
    reliability.rs): every payload that has been given a ChannelSeqNum is in
    flight or queued for retransmission until the peer acknowledges it. *)

From S2P Require Import Prelude Timing FloatBounds Loss RecvWindow SendWindow Congestion.
From S2P Require Import Cursor Codec Flags Seq Prefix WireV1 WireV2 Connection ConnectionInv ConnectionProps.
From S2P Require Import ConnectionTimers.

Open Scope Z_scope.

(** ** The payloads not yet acknowledged *)

Definition flights (c : RdpeudpConnection) : list SendWindow.Flight :=
  match send_window c with Some w => SendWindow.abs w | None => [] end.

Definition load (f : SendWindow.Flight) : Z * list Z := (SendWindow.f_chan f, SendWindow.f_data f).
Definition queue_load (e : Reliability.RetransmitEntry) : Z * list Z :=
  (Reliability.channel_seq e, Reliability.data e).

(** In flight or waiting for retransmission, each with its ChannelSeqNum. *)
Definition outstanding (c : RdpeudpConnection) : list (Z * list Z) :=
  (load <$> flights c) ++ (queue_load <$> reliability c).

(** The ChannelSeqNum the next new payload gets. *)
Definition next_chan (c : RdpeudpConnection) : Z :=
  match send_window c with Some w => SendWindow.next_channel_seq w | None => 1 end.

Section sender.
Context {BF : Bitflags}.
Implicit Types (c : RdpeudpConnection).

(** The datagrams of the handshake. *)
Inductive handshake_bytes : list Z -> Prop :=
| hb_syn cfg : cfg_ok cfg -> is_Some (cfg_cookie_hash cfg) -> handshake_bytes (wire (syn_datagram_of cfg))
| hb_syn_ack cfg isn up down :
    cfg_ok cfg -> is_u32 isn -> mtu_ok up -> mtu_ok down ->
    handshake_bytes (wire (syn_ack_datagram_of cfg isn up down))
| hb_final cfg isn : cfg_ok cfg -> is_u32 isn -> handshake_bytes (wire (final_ack_of cfg isn)).

(** No ChannelSeqNum is outstanding twice, and none from [n] on is. *)
Definition chans_ok (n : Z) (l : list (Z * list Z)) : Prop :=
  NoDup l.*1 /\ Forall (fun kd => kd.1 < n) l.

(** The send window is well formed, every outstanding payload has a
    ChannelSeqNum of its own, and what is queued ahead of the packets is the
    handshake's. *)
Record tidy c : Prop := {
  td_inv : forall w, send_window c = Some w -> SendWindow.inv w;
  td_chans : chans_ok (next_chan c) (outstanding c);
  td_tx : Forall (fun t => handshake_bytes (contents t)) (pending_transmits c);
  td_hs : forall d, handshake_datagram c = Some d -> handshake_bytes d;
}.

(** [c'] has the send buffer and the ChannelSeqNum cursor of [c], and
    outstanding payloads in relation [R] to those of [c]. *)
Record shifts (R : relation (list (Z * list Z))) c c' : Prop := {
  sh_tidy : tidy c';
  sh_buf : send_buffer c' = send_buffer c;
  sh_chan : next_chan c' = next_chan c;
  sh_out : R (outstanding c') (outstanding c);
}.

(** Nothing lost and nothing added; nothing added. *)
Abbreviation moved := (shifts (≡ₚ)).
Abbreviation acked := (shifts submseteq).

Lemma shifts_refl R `{!Reflexive R} c : tidy c -> shifts R c c.
Proof. by constructor. Qed.

Lemma shifts_trans R `{!Transitive R} c1 c2 c3 : shifts R c1 c2 -> shifts R c2 c3 -> shifts R c1 c3.
Proof. intros [] []. constructor; [done|congruence|congruence|by etrans]. Qed.

Lemma moved_shifts R `{!PreOrder R, !subrelation (≡ₚ) R} c c' : moved c c' -> shifts R c c'.
Proof. intros []. constructor; [done..|]. by apply subrelation0. Qed.

#[local] Instance perm_submseteq : subrelation (≡ₚ) (submseteq (A := Z * list Z)).
Proof. intros l k ->. done. Qed.
#[local] Instance perm_perm : subrelation (≡ₚ) (≡ₚ@{Z * list Z}).
Proof. by intros l k. Qed.

Lemma moved_acked c c' : moved c c' -> acked c c'.
Proof. apply moved_shifts; apply _. Qed.

(** A step that leaves the sending half alone. *)
Lemma shifts_quiet R `{!Reflexive R} c c' :
  tidy c -> send_window c' = send_window c -> reliability c' = reliability c ->
  send_buffer c' = send_buffer c ->
  Forall (fun t => handshake_bytes (contents t)) (pending_transmits c') ->
  (forall d, handshake_datagram c' = Some d -> handshake_bytes d) -> shifts R c c'.
Proof.
  intros [] Hw Hr Hb Ht Hh.
  assert (Ho : outstanding c' = outstanding c) by (unfold outstanding, flights; by rewrite Hw, Hr).
  assert (Hn : next_chan c' = next_chan c) by (unfold next_chan; by rewrite Hw).
  constructor; [constructor|..]; rewrite ?Ho, ?Hn, ?Hw; try done.
Qed.

(** The outstanding payloads are those of a permutation, or of a part. *)
Lemma chans_ok_perm n l k : l ≡ₚ k -> chans_ok n k -> chans_ok n l.
Proof. intros H. unfold chans_ok. by rewrite H. Qed.

Lemma chans_ok_sub n l k : l ⊆+ k -> chans_ok n k -> chans_ok n l.
Proof.
  intros (z & H)%submseteq_Permutation [Hn Hf]. rewrite H in Hn, Hf. rewrite fmap_app in Hn.
  split; [by apply NoDup_app in Hn as [? _]|by apply Forall_app in Hf as [? _]].
Qed.

(** Taking one packet out of the window. *)
Lemma flights_split w s f :
  SendWindow.inv w -> f ∈ SendWindow.abs w -> SendWindow.f_seq f = s ->
  SendWindow.abs w ≡ₚ f :: filter (fun g => SendWindow.f_seq g <> s) (SendWindow.abs w).
Proof.
  intros Hw Hf Hs. assert (Hn : NoDup (SendWindow.f_seq <$> SendWindow.abs w)).
  { rewrite SendWindow.abs_seqs by done. by apply Loss.pending_seqs_nodup. }
  apply list_elem_of_split in Hf as (l1 & l2 & Hl). rewrite Hl in *.
  rewrite fmap_app, fmap_cons in Hn. apply NoDup_app in Hn as (_ & H12 & [H2 _]%NoDup_cons).
  rewrite filter_app, filter_cons_False by (by intros []).
  assert (Hk : forall l : list SendWindow.Flight, s ∉ SendWindow.f_seq <$> l -> filter (fun g => SendWindow.f_seq g <> s) l = l).
  { intros l Hl'. apply filter_all, Forall_forall. intros g Hg E. apply Hl', list_elem_of_fmap. eauto. }
  rewrite !Hk; [apply Permutation_sym, Permutation_middle|by rewrite <- Hs|].
  intros Hin. apply (H12 _ Hin). rewrite Hs. left.
Qed.

Lemma moved_declare_lost c s : tidy c -> wlp (declare_lost s) (fun _ => moved c) c.
Proof.
  intros Ht. unfold declare_lost. wlp_step. destruct (send_window c) as [w|] eqn:Ew; [|by apply wlp_ret, shifts_refl; [apply _|]].
  pose proof (td_inv c Ht w Ew) as Hw. pose proof (SendWindow.mark_lost_spec w s Hw) as H.
  destruct (SendWindow.mark_lost w s) as [info w'].
  destruct H as (Hi & Ha & Hn & Hch & Hmx & H). unfold set_sw. wlp_step.
  destruct info as [info|].
  2: { apply wlp_ret. destruct H as [-> _]. destruct Ht. apply shifts_quiet; [apply _|by constructor|done..]. }
  destruct H as (Hin & _). do 3 wlp_step.
  set (f := SendWindow.mkFlight s (SendWindow.l_channel_seq info) (SendWindow.l_data info)) in *.
  set (c' := with_pending_ack_of_acks _ _).
  pose proof (flights_split w s f Hw Hin eq_refl) as Hsplit. rewrite <- Ha in Hsplit.
  assert (Hc : outstanding c ≡ₚ load f :: (load <$> SendWindow.abs w') ++ (queue_load <$> reliability c)).
  { unfold outstanding, flights. rewrite Ew, Hsplit. done. }
  assert (Hne : SendWindow.l_channel_seq info ∉ Reliability.channel_seq <$> reliability c).
  { destruct (td_chans c Ht) as [Hnd _]. rewrite Hc in Hnd. cbn in Hnd. apply NoDup_cons in Hnd as [Hnd _].
    intros (e & He & Hx)%list_elem_of_fmap. apply Hnd. rewrite fmap_app, elem_of_app. right.
    rewrite <- list_fmap_compose. apply list_elem_of_fmap. by exists e. }
  assert (Ho : outstanding c' ≡ₚ outstanding c).
  { unfold outstanding at 1, flights. cbn [c' send_window reliability with_pending_ack_of_acks with_reliability
      with_congestion with_send_window]. unfold Reliability.enqueue.
    destruct (existsb _ _) eqn:Ex; [by apply Reliability.existsb_chan in Ex|].
    rewrite fmap_app, app_assoc, Hc. cbn. rewrite Permutation_app_comm. done. }
  assert (Hnc : next_chan c' = next_chan c) by (unfold next_chan; by rewrite Ew).
  destruct Ht. constructor; [constructor| | |done]; try done.
  - by intros ? [= <-].
  - rewrite Hnc. by eapply chans_ok_perm.
Qed.

(** Sequencing. *)
Lemma shifts_bind {A B} R `{!Transitive R} (m : C A) (k : A -> C B) c :
  wlp m (fun _ => shifts R c) c ->
  (forall a c1, tidy c1 -> wlp (k a) (fun _ => shifts R c1) c1) ->
  wlp (m ≫= k) (fun _ => shifts R c) c.
Proof.
  intros Hm Hk. apply wlp_bind. eapply wlp_mono; [exact Hm|]. intros a c1 H1.
  eapply wlp_mono; [apply Hk, H1|]. intros b c2 H2. exact (shifts_trans R _ _ _ H1 H2).
Qed.

Lemma shifts_iter {A} R `{!PreOrder R} (f : A -> C unit) xs :
  (forall x c, tidy c -> wlp (f x) (fun _ => shifts R c) c) ->
  forall c, tidy c -> wlp (iter_m f xs) (fun _ => shifts R c) c.
Proof.
  intros Hf. induction xs as [|x xs IH]; intros c Hc; cbn [iter_m]; [by apply wlp_ret, shifts_refl; [apply _|]|].
  apply shifts_bind; [apply _|by apply Hf|]. intros []. apply IH.
Qed.

Lemma wlp_moved_acked {A} (m : C A) c : wlp m (fun _ => moved c) c -> wlp m (fun _ => acked c) c.
Proof. intros H. eapply wlp_mono; [exact H|]. intros a c'. apply moved_acked. Qed.

(** A method that ends here having left the sending half alone. *)
Ltac quiet H :=
  try apply wlp_ret;
  apply shifts_quiet; [apply _|exact H|done|done|done|apply (td_tx _ H)|apply (td_hs _ H)].

Lemma moved_rtt_update c x : tidy c -> wlp (rtt_update x) (fun _ => moved c) c.
Proof. intros H. unfold rtt_update. wlp_step. destruct (Rtt.update _ _); [wlp_step; quiet H|done]. Qed.

Lemma moved_sample_rtt c e g : tidy c -> wlp (sample_rtt e g) (fun _ => moved c) c.
Proof.
  intros H. unfold sample_rtt. destruct e; [|quiet H]. destruct g; [|quiet H].
  destruct (Duration.checked_sub _ _); [by apply moved_rtt_update|quiet H].
Qed.

Lemma moved_run_loss_detection c now : tidy c -> wlp (run_loss_detection now) (fun _ => moved c) c.
Proof.
  intros H. unfold run_loss_detection. wlp_step. destruct (send_window c); [|quiet H].
  apply shifts_iter; [apply _|intros ? ?; apply moved_declare_lost|done].
Qed.

Lemma moved_declare_overdue c now : tidy c -> wlp (declare_overdue_lost now) (fun _ => moved c) c.
Proof.
  intros H. unfold declare_overdue_lost. wlp_step.
  match goal with |- context [match ?l with [] => _ | _ :: _ => _ end] => destruct l end.
  - unfold declare_oldest_pending_lost. wlp_step. destruct (send_window c); [|quiet H].
    destruct (Timers.min_opt _); [by apply moved_declare_lost|quiet H].
  - apply shifts_iter; [apply _|intros ? ?; apply moved_declare_lost|done].
Qed.

Lemma moved_update_retransmit c now : tidy c -> wlp (update_retransmit_timer now) (fun _ => moved c) c.
Proof.
  intros H. unfold update_retransmit_timer. wlp_step. destruct (send_window c); [|quiet H].
  destruct (_ || _); [destruct (negb _); [unfold timer_set; wlp_step|]|unfold timer_clear; wlp_step]; quiet H.
Qed.

Lemma moved_after_ack c bytes now : tidy c -> wlp (after_ack bytes now) (fun _ => moved c) c.
Proof.
  intros H. unfold after_ack. apply shifts_bind; [apply _|destruct (0 <? bytes); [wlp_step|]; quiet H|]. intros [] c1 H1.
  apply shifts_bind; [apply _|by apply moved_run_loss_detection|]. intros [] c2 H2.
  apply shifts_bind; [apply _| |intros [] c3; apply moved_update_retransmit].
  destruct (0 <? bytes); [unfold timer_clear; do 2 wlp_step|]; quiet H2.
Qed.

Lemma moved_ack_tail c e g b now s :
  tidy c -> wlp (_ ← sample_rtt e g; _ ← after_ack b now; retire_ack_of_acks s) (fun _ => moved c) c.
Proof.
  intros H. apply shifts_bind; [apply _|by apply moved_sample_rtt|]. intros [] c1 H1.
  apply shifts_bind; [apply _|by apply moved_after_ack|]. intros [] c2 H2. unfold retire_ack_of_acks. wlp_step.
  destruct (pending_ack_of_acks c2); [destruct (_ <? _)|]; quiet H2.
Qed.

(** ** What acknowledgments remove *)

(** A window that lost packets only, put in place of the old one. *)
Lemma acked_window c w w' :
  tidy c -> send_window c = Some w -> SendWindow.inv w' ->
  SendWindow.next_channel_seq w' = SendWindow.next_channel_seq w ->
  SendWindow.abs w' ⊆+ SendWindow.abs w -> acked c (with_send_window (Some w') c).
Proof.
  intros [] Hw Hi Hn Ha.
  assert (Ho : outstanding (with_send_window (Some w') c) ⊆+ outstanding c).
  { unfold outstanding, flights. cbn [send_window reliability with_send_window]. rewrite Hw.
    apply submseteq_app; [|done]. by apply fmap_submseteq. }
  assert (Hnc : next_chan (with_send_window (Some w') c) = next_chan c) by (unfold next_chan; by rewrite Hw).
  constructor; [constructor| | |done]; try done.
  - by intros ? [= <-].
  - rewrite Hnc. by eapply chans_ok_sub.
Qed.

Lemma filter_sub {A} (P : A -> Prop) `{!forall x, Decision (P x)} (l : list A) : filter P l ⊆+ l.
Proof. apply sublist_submseteq, sublist_filter. Qed.

(** The window the acknowledgment was applied to, then the common end. *)
Lemma acked_then_tail c w w' e g b now s :
  tidy c -> send_window c = Some w -> SendWindow.inv w' ->
  SendWindow.next_channel_seq w' = SendWindow.next_channel_seq w ->
  SendWindow.abs w' ⊆+ SendWindow.abs w ->
  wlp (_ ← set_sw w'; _ ← sample_rtt e g; _ ← after_ack b now; retire_ack_of_acks s) (fun _ => acked c) c.
Proof.
  intros H Hw Hi Hn Ha. apply shifts_bind; [apply _|unfold set_sw; wlp_step; by eapply acked_window|].
  intros [] c1 H1. by apply wlp_moved_acked, moved_ack_tail.
Qed.

Lemma acked_process_ack c ack now : tidy c -> wlp (process_ack ack now) (fun _ => acked c) c.
Proof.
  intros H. unfold process_ack. wlp_step. destruct (send_window c) as [w|] eqn:Ew; [|quiet H]. wlp_step.
  set (c1 := with_remote_timestamp_ref _ c).
  assert (H1 : acked c c1) by quiet H. pose proof (sh_tidy _ _ _ H1) as Ht.
  destruct (_ <=? _); [by apply wlp_ret|].
  pose proof (SendWindow.mark_received_through_spec w (reconstruct_seq (seq_num ack)
    (sat_sub (SendWindow.next_data_seq w) 1)) (td_inv _ H w Ew)) as Hm.
  destruct (SendWindow.mark_received_through _ _) as [bytes w']. destruct Hm as (Hi & Ha & _ & _ & _ & Hch & _).
  eapply wlp_mono; [apply (acked_then_tail c1 w w'); [done|done|done|done|rewrite Ha; apply filter_sub]|].
  intros [] c2 H2. by eapply shifts_trans; [apply _|..].
Qed.

(** The walk over an ACK vector only removes packets. *)
Definition thinned (w : SendWindow.t) (v : VectorWalk) : Prop :=
  SendWindow.inv (vw_window v) /\
  SendWindow.next_channel_seq (vw_window v) = SendWindow.next_channel_seq w /\
  SendWindow.abs (vw_window v) ⊆+ SendWindow.abs w.

Lemma walk_one_thinned w now v b : thinned w v -> thinned w (walk_one now v b).
Proof.
  intros (Hi & Hc & Ha). unfold walk_one. destruct b; [|done].
  pose proof (SendWindow.mark_received_spec (vw_window v) (vw_seq v) Hi) as Hm.
  destruct (SendWindow.mark_received _ _) as [size w'].
  assert (SendWindow.inv w' /\ SendWindow.next_channel_seq w' = SendWindow.next_channel_seq (vw_window v) /\
    SendWindow.abs w' ⊆+ SendWindow.abs (vw_window v)) as (Hi' & Hc' & Ha').
  { destruct Hm as (? & Hx & ? & ? & _). rewrite Hx. split_and!; [done|done|apply filter_sub]. }
  split_and!; cbn [vw_window]; [done|congruence|by etrans].
Qed.

Lemma acked_process_ack_vector c av now : tidy c -> wlp (process_ack_vector av now) (fun _ => acked c) c.
Proof.
  intros H. unfold process_ack_vector. wlp_step. destruct (send_window c) as [w|] eqn:Ew; [|quiet H].
  set (v := foldl (walk_entry now) _ (entries av)).
  assert (Hv : thinned w v).
  { unfold v. apply foldl_ind; [|split_and!; [by apply (td_inv _ H)|done|done]]. intros v' e Hv'.
    unfold walk_entry. apply foldl_ind; [|done]. intros v'' b. apply walk_one_thinned. }
  destruct Hv as (Hi & Hc & Ha). by apply (acked_then_tail c w).
Qed.

(** Receiving data touches nothing of the sending half. *)
Lemma moved_owe_ack c now : tidy c -> wlp (owe_ack now) (fun _ => moved c) c.
Proof.
  intros H. unfold owe_ack. do 2 wlp_step. destruct (negb _); [unfold timer_set; do 2 wlp_step|]; quiet H.
Qed.

Lemma moved_process_data c dh db now (dummy : bool) :
  tidy c -> wlp (if dummy then process_dummy_data dh now else process_data dh db now) (fun _ => moved c) c.
Proof.
  intros H. destruct dummy.
  - unfold process_dummy_data. wlp_step. destruct (recv_window c); [|quiet H].
    destruct (RecvWindow.receive_without_payload _ _) as [[b rw]|]; [|done]. unfold set_rw.
    apply shifts_bind; [apply _|wlp_step; quiet H|]. intros [] c1 H1. destruct b; [by apply moved_owe_ack|quiet H1].
  - unfold process_data. wlp_step. destruct (recv_window c); [|quiet H]. cbv zeta.
    destruct (RecvWindow.receive _ _ _ _) as [[b rw]|]; [|done]. unfold set_rw.
    apply shifts_bind; [apply _|wlp_step; quiet H|]. intros [] c1 H1. destruct b; [|quiet H1].
    destruct (RecvWindow.drain_ordered rw) as [ds rw'].
    apply shifts_bind; [apply _|wlp_step; quiet H1|]. intros [] c2 H2.
    apply shifts_bind; [apply _| |intros [] c3; apply moved_owe_ack].
    apply shifts_iter; [apply _| |done]. intros x c3 H3. unfold push_event. wlp_step. quiet H3.
Qed.

Lemma acked_opt {A} (f : A -> C unit) (o : option A) c :
  tidy c -> (forall x, wlp (f x) (fun _ => acked c) c) -> wlp (opt_m f o) (fun _ => acked c) c.
Proof. intros H Hf. destruct o; [apply Hf|quiet H]. Qed.

Lemma acked_handle_v2 c bytes now : tidy c -> wlp (handle_v2_packet bytes now) (fun _ => acked c) c.
Proof.
  intros H. unfold handle_v2_packet. apply wlp_bind, wlp_try. intros [e|[prefix pb]]; [quiet H|].
  apply wlp_bind, wlp_try. intros [e|p]; [quiet H|].
  apply shifts_bind; [apply _| |intros [] c1 H1].
  { wlp_step. destruct (send_window c) as [w|] eqn:Ew; [|quiet H]. pose proof (td_inv _ H w Ew) as Hi.
    eapply acked_window; [done|done| |done|done]. destruct Hi. by constructor. }
  apply shifts_bind; [apply _|apply acked_opt; [done|intros; by apply acked_process_ack]|]. intros [] c2 H2.
  apply shifts_bind; [apply _|apply acked_opt; [done|intros; by apply acked_process_ack_vector]|]. intros [] c3 H3.
  apply shifts_bind; [apply _|apply acked_opt; [done|intros aoa]|intros [] c4 H4].
  { unfold process_ack_of_acks. wlp_step. destruct (recv_window c3); [unfold set_rw; wlp_step|]; quiet H3. }
  apply shifts_bind; [apply _| |intros [] c5 H5; quiet H5]. apply wlp_moved_acked.
  destruct (p_data_header p) as [dh|]; [|quiet H4]. destruct (p_data_body p) as [db|]; [|quiet H4].
  by apply moved_process_data.
Qed.

(** ** The handshake *)

Lemma wlp_try_eq {E A} (r : outcome E A) (Q : E + A -> RdpeudpConnection -> Prop) c :
  (forall a, r = Ok a -> Q (inr a) c) -> (forall e, Q (inl e) c) -> wlp (try_m r) Q c.
Proof. unfold wlp, try_m. destruct r; cbn; auto. Qed.

Lemma moved_established p now c : tidy c -> windows_empty c -> moved c (established p now c).
Proof.
  intros [] (Hw & _ & Hb & Hr). unfold established. cbv zeta.
  assert (Ho : outstanding c = []) by (unfold outstanding, flights; by rewrite Hw, Hr).
  destruct (decide _); (constructor; [constructor|..]);
    unfold outstanding, flights, next_chan;
    cbn [send_window reliability send_buffer with_pending_events with_timers with_recv_window with_send_window
      with_handshake_datagram with_state pending_transmits handshake_datagram]; rewrite ?Hr, ?Hw; try done.
  all: try (intros w [= <-]; by apply SendWindow.sw_new_inv).
  all: try (split; [apply NoDup_nil_2|constructor]).
  all: fold (flights c); unfold flights; by rewrite Hw.
Qed.

Lemma moved_resend c : tidy c -> wlp resend_handshake_datagram (fun _ => moved c) c.
Proof.
  intros H. unfold resend_handshake_datagram. wlp_step.
  destruct (handshake_datagram c) as [d|] eqn:E; [wlp_step|quiet H].
  apply shifts_quiet; [apply _|done..| |apply (td_hs _ H)].
  apply Forall_app. split; [apply H|]. constructor; [by apply (td_hs _ H)|done].
Qed.

(** A handshake sample only changes the estimator. *)
Lemma sample_handshake_only c now :
  wlp (sample_handshake_rtt now) (fun _ c' => c' = c \/ exists r, c' = with_rtt r c) c.
Proof.
  unfold sample_handshake_rtt. wlp_step. destruct (negb _); [by apply wlp_ret; left|].
  destruct (handshake_sent_at c); [|by apply wlp_ret; left]. unfold rtt_update. wlp_step.
  destruct (Rtt.update _ _); [wlp_step; right; eauto|done].
Qed.

Lemma moved_handle_syn_ack N c bytes now :
  cinv N c -> state c = SynSent -> bytes_ok bytes -> tidy c ->
  wlp (handle_syn_ack bytes now) (fun _ => moved c) c.
Proof.
  intros Hc Hs Hb H. unfold handle_syn_ack. apply wlp_bind, wlp_try_eq; [|intros e; quiet H].
  intros d Hd. apply (decode_wf (C := V1Datagram_Codec)) in Hd as (_ & _ & _ & _ & _ & Hsd & _); [|done].
  destruct (negb _); [quiet H|]. destruct (d_syn_data d) as [sd|]; [|quiet H].
  destruct (d_syn_data_ex d) as [sx|]; [|quiet H]. destruct (negb _); [quiet H|].
  destruct (Hsd sd eq_refl) as (Hi & _ & _). wlp_step. cbv zeta. wlp_step. set (c1 := with_params _ c).
  destruct (ci_pre _ _ Hc (or_introl Hs)) as [(Hw & Hrw & Hbuf & Hr) _].
  apply wlp_bind. eapply wlp_mono; [apply sample_handshake_only|]. intros [] c2 H2.
  assert (Hm : moved c c2 /\ windows_empty c2 /\ config c2 = config c /\ params c2 = params c1)
    by (destruct H2 as [->|[r ->]]; (split; [quiet H|done])).
  destruct Hm as (Hm & (Hw2 & Hrw2 & Hb2 & Hr2) & Hcf & Hp). apply wlp_bind. unfold wlp at 1.
  rewrite enqueue_final_ack_eq; [|rewrite Hcf; apply Hc|done]. set (c3 := queued _ c2).
  assert (Ht3 : moved c2 c3).
  { pose proof (sh_tidy _ _ _ Hm) as H3.
    assert (Hhb : handshake_bytes (wire (final_ack_of (config c2) (initial_sequence_number sd))))
      by (apply hb_final; [rewrite Hcf; apply Hc|done]).
    apply shifts_quiet; [apply _|done..| |].
    - apply Forall_app. split; [apply H3|]. by constructor.
    - by intros ? [= <-]. }
  apply wlp_bind. unfold wlp at 1. erewrite transition_eq; [|exact Hp]. apply wlp_ret.
  eapply shifts_trans; [apply _|exact Hm|]. eapply shifts_trans; [apply _|exact Ht3|].
  apply moved_established; [apply Ht3|done].
Qed.

Lemma moved_handle_final_ack N c bytes now :
  cinv N c -> state c = SynReceived -> tidy c ->
  wlp (handle_final_ack bytes now) (fun b c' => moved c c' /\ (b = false -> c' = c)) c.
Proof.
  intros Hc Hs H. unfold handle_final_ack.
  assert (Hr : moved c c) by (apply shifts_refl; [apply _|done]).
  apply wlp_bind, wlp_try. intros [e|d]; [by apply wlp_ret|]. destruct (contains _ _).
  - apply wlp_bind. eapply wlp_mono; [by apply moved_resend|]. intros [] c1 H1. by apply wlp_ret.
  - destruct (negb _); [by apply wlp_ret|]. destruct (ci_pre _ _ Hc (or_intror Hs)) as [Hwe _].
    destruct (ci_syn _ _ Hc Hs) as [p Hp].
    apply wlp_bind. eapply wlp_mono; [apply sample_handshake_only|]. intros [] c1 H1.
    assert (Hm : moved c c1 /\ windows_empty c1 /\ params c1 = params c)
      by (destruct H1 as [->|[r ->]]; (split; [quiet H|done])).
    destruct Hm as (Hm & Hwe1 & Hp1). apply wlp_bind. unfold wlp at 1. rewrite (transition_eq p) by congruence.
    apply wlp_ret. split; [|done]. eapply shifts_trans; [apply _|exact Hm|].
    apply moved_established; [apply Hm|done].
Qed.

(** A datagram does to the sending half what its packet does. *)
Lemma shifts_handle_datagram R `{!PreOrder R, !subrelation (≡ₚ) R} N c bytes now :
  cinv N c -> bytes_ok bytes -> tidy c ->
  (forall c', tidy c' -> wlp (handle_v2_packet bytes now) (fun _ => shifts R c') c') ->
  wlp (handle_datagram bytes now) (fun _ => shifts R c) c.
Proof.
  intros Hc Hb H Hv2. unfold handle_datagram, bump. do 2 wlp_step. set (c1 := with_stats _ c).
  assert (H1 : shifts R c c1) by quiet H. assert (Hc1 : cinv N c1) by by apply cinv_stats.
  change (state c1) with (state c).
  destruct (state c) eqn:Es; unfold timer_set; [wlp_step..|by apply wlp_ret];
    (set (c2 := with_timers _ c1); assert (H2 : shifts R c c2) by quiet H;
     assert (Hc2 : cinv N c2) by (apply cinv_set; [done|change (state c <> Closed); congruence]);
     pose proof (sh_tidy _ _ _ H2) as Ht).
  - eapply wlp_mono; [by apply (moved_handle_syn_ack N)|]. intros r c3 H3%(moved_shifts R).
    exact (shifts_trans R _ _ _ H2 H3).
  - apply wlp_bind. eapply wlp_mono; [by apply (moved_handle_final_ack N)|]. intros b c3 [H3%(moved_shifts R) H4].
    destruct b; [apply wlp_ret; exact (shifts_trans R _ _ _ H2 H3)|]. rewrite (H4 eq_refl).
    destruct (ci_syn _ _ Hc2 Es) as [p Hp]. destruct (ci_pre _ _ Hc2 (or_intror Es)) as [Hwe _].
    apply wlp_bind. unfold wlp at 1. rewrite (transition_eq p) by done.
    pose proof (moved_established p now c2 Ht Hwe) as H5.
    eapply wlp_mono; [apply Hv2, H5|]. intros r c5 H6. apply (moved_shifts R) in H5.
    exact (shifts_trans R _ _ _ H2 (shifts_trans R _ _ _ H5 H6)).
  - apply wlp_bind. eapply wlp_mono; [apply wp_wlp, (wp_is_repeated N c2 bytes Hc2 Hb)|]. intros b c3 ->. destruct b.
    + apply wlp_bind. eapply wlp_mono; [by apply moved_resend|]. intros [] c3 H3%(moved_shifts R). apply wlp_ret.
      exact (shifts_trans R _ _ _ H2 H3).
    + eapply wlp_mono; [by apply Hv2|]. intros r c3 H3. exact (shifts_trans R _ _ _ H2 H3).
Qed.

Lemma acked_handle_datagram N c bytes now :
  cinv N c -> bytes_ok bytes -> tidy c -> wlp (handle_datagram bytes now) (fun _ => acked c) c.
Proof. intros Hc Hb H. eapply (shifts_handle_datagram _ N); [done..|]. intros c'. apply acked_handle_v2. Qed.

(** Whether the datagram carries an acknowledgment. *)
Definition acknowledges (bytes : list Z) : bool :=
  match fst (decode_with_prefix bytes) with
  | Ok (_, packet_bytes) =>
      match decode V2Packet packet_bytes with
      | Ok p => is_some (p_ack p) || is_some (p_ack_vector p)
      | _ => false
      end
  | _ => false
  end.

Lemma moved_handle_v2 c bytes now :
  acknowledges bytes = false -> tidy c -> wlp (handle_v2_packet bytes now) (fun _ => moved c) c.
Proof.
  intros Hno H. unfold handle_v2_packet, acknowledges in *. apply wlp_bind, wlp_try_eq; [|intros e; quiet H].
  intros [prefix pb] E. rewrite E in Hno. apply wlp_bind, wlp_try_eq; [|intros e; quiet H].
  intros p Ep. rewrite Ep in Hno. destruct (p_ack p), (p_ack_vector p); try done. cbn [opt_m].
  apply shifts_bind; [apply _| |intros [] c1 H1].
  { wlp_step. destruct (send_window c) as [w|] eqn:Ew; [|quiet H]. pose proof (td_inv _ H w Ew) as Hi.
    destruct H. constructor; [constructor|..]; unfold next_chan, outstanding, flights in *; rewrite ?Ew in *; try done.
    intros ? [= <-]. destruct Hi. by constructor. }
  do 2 wlp_step. apply shifts_bind; [apply _| |intros [] c4 H4].
  { destruct (p_ack_of_acks p); [|quiet H1]. cbn [opt_m]. unfold process_ack_of_acks. wlp_step.
    destruct (recv_window c1); [unfold set_rw; wlp_step|]; quiet H1. }
  apply shifts_bind; [apply _| |intros [] c5 H5; quiet H5].
  destruct (p_data_header p) as [dh|]; [|quiet H4]. destruct (p_data_body p) as [db|]; [|quiet H4].
  by apply moved_process_data.
Qed.

(** ** Timers, events, closing *)

Lemma moved_close c : tidy c -> wlp close (fun _ => moved c) c.
Proof.
  intros H. unfold wlp. rewrite close_eq. destruct (decide _); [by apply shifts_refl; [apply _|]|].
  unfold closed. cbv zeta. quiet H.
Qed.

Lemma moved_fire c t now : tidy c -> wlp (fire now t) (fun _ => moved c) c.
Proof.
  intros H. destruct t; cbn [fire].
  - unfold handle_retransmit_timeout, timer_clear, bump, on_timeout.
    apply shifts_bind; [apply _|wlp_step; quiet H|]. intros [] c1 H1.
    apply shifts_bind; [apply _|wlp_step; quiet H1|]. intros [] c2 H2. wlp_step.
    destruct (decide (state c2 <> Established)).
    + apply shifts_bind; [apply _|wlp_step; quiet H2|]. intros [] c3 H3. unfold retransmit_handshake. wlp_step.
      destruct (handshake_datagram c3); [|quiet H3]. destruct (_ <=? _); [by apply moved_close|].
      apply shifts_bind; [apply _|wlp_step; quiet H3|]. intros [] c4 H4.
      apply shifts_bind; [apply _|by apply moved_resend|]. intros [] c5 H5. unfold timer_set. wlp_step. quiet H5.
    + apply shifts_bind; [apply _|by apply moved_declare_overdue|]. intros [] c3 H3.
      apply shifts_bind; [apply _|wlp_step; quiet H3|]. intros [] c4 H4. by apply moved_update_retransmit.
  - unfold handle_ack_delay_timeout, timer_clear. do 2 wlp_step. quiet H.
  - by apply moved_close.
  - unfold handle_keep_alive_timeout, timer_clear, timer_set. do 4 wlp_step. quiet H.
Qed.

Lemma moved_handle_timeout c now : tidy c -> wlp (handle_timeout now) (fun _ => moved c) c.
Proof.
  intros H. unfold handle_timeout. wlp_step. destruct (decide _) as [|_]; [quiet H|].
  generalize (Timers.expired (timers c) now). intros ts. revert c H. induction ts as [|t ts IH]; intros c H; cbn [fire_all]; [quiet H|].
  wlp_step. destruct (decide _); [quiet H|]. apply shifts_bind; [apply _|by apply moved_fire|]. intros []. apply IH.
Qed.

Lemma moved_poll_event c : tidy c -> wlp poll_event (fun _ => moved c) c.
Proof.
  intros H. unfold poll_event. wlp_step. destruct (pending_events c); [quiet H|]. wlp_step. quiet H.
Qed.

(** [send] only appends to the buffer, and only what it accepts. *)
Lemma send_appends c data :
  tidy c ->
  wlp (send data) (fun r c' => tidy c' /\ outstanding c' = outstanding c /\ next_chan c' = next_chan c /\
    concat (send_buffer c') = concat (send_buffer c) ++ match r with inr _ => data | inl _ => [] end) c.
Proof.
  intros H. unfold send. wlp_step.
  assert (Hno : forall e : SendError, wlp (mret (inl e) : C (SendError + unit)) (fun r c' => tidy c' /\
    outstanding c' = outstanding c /\ next_chan c' = next_chan c /\
    concat (send_buffer c') = concat (send_buffer c) ++ match r with inr _ => data | inl _ => [] end) c).
  { intros e. apply wlp_ret. by rewrite app_nil_r. }
  destruct (state c); try apply Hno. cbv zeta. destruct (_ <? _); [apply Hno|].
  pose proof (max_payload_range c).
  destruct (_ <=? _); wlp_step; apply wlp_ret; (split; [by destruct H; constructor|]); (split_and!; [done|done|]);
    cbn [send_buffer with_send_buffer]; rewrite concat_app; f_equal; [cbn; apply app_nil_r|].
  unfold chunks. apply chunks_loop_spec; lia.
Qed.

(** ** Transmitting *)

Definition cursor (c : RdpeudpConnection) : Z :=
  match send_window c with Some w => SendWindow.next_data_seq w | None => 0 end.

(** The packet that went into flight between [c] and [c']. *)
Definition sent_flight (c c' : RdpeudpConnection) : option SendWindow.Flight :=
  if cursor c =? cursor c' then None else last (flights c').

(** What happens to the send buffer and the outstanding payloads: they stay,
    or the oldest buffered payload gets the next ChannelSeqNum. *)
Definition pops c c' : Prop :=
  exists d, send_buffer c = d :: send_buffer c' /\
    next_chan c' = Seq.next_channel_seq (next_chan c) /\
    outstanding c' ≡ₚ (next_chan c, d) :: outstanding c.

(** What is on the wire. *)
Definition carries (f : option SendWindow.Flight) (bytes : list Z) : Prop :=
  match f with
  | Some f => exists p, V2Packet_wf p /\ bytes = datagram_of p /\ is_Some (p_data_header p) /\
      p_data_body p = Some (mkDataBody (truncate_seq (SendWindow.f_chan f)) (SendWindow.f_data f))
  | None => handshake_bytes bytes \/
      exists p, V2Packet_wf p /\ bytes = datagram_of p /\ p_data_body p = None
  end.

Record emits c (r : option Transmit) c' : Prop := {
  em_tidy : tidy c';
  em_buf : moved c c' \/ pops c c';
  em_wire : forall t, r = Some t -> carries (sent_flight c c') (contents t);
  em_flight : forall f, sent_flight c c' = Some f -> load f ∈ outstanding c';
}.

Lemma emits_quiet c c' : moved c c' -> cursor c' = cursor c -> emits c None c'.
Proof.
  intros H Hw. assert (sent_flight c c' = None) as E by (unfold sent_flight; by rewrite Hw, Z.eqb_refl).
  constructor; [apply H|by left|done|]. by rewrite E.
Qed.

(** Steps before and after the one that transmits. *)
Lemma emits_frame_r c c1 c2 r :
  emits c r c1 -> send_window c2 = send_window c1 -> reliability c2 = reliability c1 ->
  send_buffer c2 = send_buffer c1 -> pending_transmits c2 = pending_transmits c1 ->
  handshake_datagram c2 = handshake_datagram c1 -> emits c r c2.
Proof.
  intros [Ht Hb Hw Hf] H1 H2 H3 H4 H5.
  assert (Ho : outstanding c2 = outstanding c1) by (unfold outstanding, flights; by rewrite H1, H2).
  assert (Hn : next_chan c2 = next_chan c1) by (unfold next_chan; by rewrite H1).
  assert (Hs : sent_flight c c2 = sent_flight c c1) by (unfold sent_flight, cursor, flights; by rewrite H1).
  assert (Ht2 : tidy c2) by (destruct Ht; constructor; rewrite ?H1, ?Ho, ?Hn, ?H4, ?H5; done).
  constructor; rewrite ?Hs, ?Ho; try done. destruct Hb as [[]|(d & Hd & Hc & Hp)]; [left|right].
  - constructor; rewrite ?Ho, ?Hn, ?H3; done.
  - exists d. by rewrite H3, Hn, Ho.
Qed.

Lemma emits_frame_l c c1 r c2 :
  moved c c1 -> cursor c1 = cursor c -> emits c1 r c2 -> emits c r c2.
Proof.
  intros Hm Hw [Ht Hb Hwi Hf].
  assert (Hs : sent_flight c c2 = sent_flight c1 c2) by (unfold sent_flight; by rewrite Hw).
  constructor; rewrite ?Hs; try done. destruct Hb as [Hb|(d & Hd & Hc & Hp)]; [left; by eapply shifts_trans; [apply _|..]|right].
  destruct Hm as [_ H1 H2 H3]. exists d. rewrite <- H1, <- H2. split_and!; [done|done|]. by rewrite Hp, H3.
Qed.

(** A data packet on its way. *)
Lemma emits_data c c1 c2 w w' f log now :
  send_window c = Some w -> send_window c1 = Some w' -> SendWindow.abs w' = SendWindow.abs w ++ [f] ->
  SendWindow.next_data_seq w' = SendWindow.next_data_seq w + 1 -> tidy c1 -> moved c c1 \/ pops c c1 ->
  0 <= log <= 15 -> is_u64 now -> bytes_ok (SendWindow.f_data f) -> tx_frame c1 c2 ->
  emits c (Some (mkTransmit (datagram_of
    (data_packet c1 log (SendWindow.f_seq f) (SendWindow.f_chan f) (SendWindow.f_data f) now)))) c2.
Proof.
  intros Hw Hw1 Ha Hn Ht Hp Hl Hnow Hd [_ Hsw Hrel Hbuf _ _ Htx Hhs _].
  eapply (emits_frame_r _ c1); [|done..].
  assert (Hs : sent_flight c c1 = Some f).
  { unfold sent_flight, cursor, flights. rewrite Hw, Hw1, Hn, Ha, last_snoc.
    destruct (Z.eqb_spec (SendWindow.next_data_seq w) (SendWindow.next_data_seq w + 1)); [lia|done]. }
  constructor; [done|done|rewrite Hs|rewrite Hs].
  - intros t [= <-]. destruct (data_packet_ok c1 log (SendWindow.f_seq f) (SendWindow.f_chan f)
      (SendWindow.f_data f) now Hl Hnow Hd) as [Hwf _]. eexists. split_and!; [exact Hwf|done|by eexists|done].
  - intros f' [= <-]. unfold outstanding, flights. rewrite Hw1, Ha, fmap_app.
    apply elem_of_app. left. apply elem_of_app. right. by left.
Qed.

(** A window with room takes the packet. *)
Lemma push_abs N c w e data ch :
  cinv N c -> N + 1 < 2 ^ 64 -> send_window c = Some w -> payload_ok (max_payload c) data ->
  SendWindow.data_seq e = SendWindow.next_data_seq w -> SendWindow.state e = SendWindow.Pending ->
  SendWindow.size e = llen data ->
  let w' := SendWindow.mk (SendWindow.entries w ++ [e])
    (SendWindow.data_store w ++ [(SendWindow.next_data_seq w, data)])
    (SendWindow.next_data_seq w ⊕ 1) ch (SendWindow.bytes_in_flight w ⊕ llen data)
    (SendWindow.max_entries w) in
  SendWindow.inv w' /\
  SendWindow.abs w' = SendWindow.abs w ++
    [SendWindow.mkFlight (SendWindow.next_data_seq w) (SendWindow.channel_seq e) data] /\
  SendWindow.next_data_seq w' = SendWindow.next_data_seq w + 1.
Proof.
  intros Hc HN Hw [Hb Hl] Hd Hs Hz. pose proof (ci_sw _ _ Hc w Hw) as Hsw. pose proof (max_payload_range c) as Hmp.
  pose proof (flight_bound N (max_payload c) w ltac:(lia) Hsw) as Hfb. unfold WINDOW_MAX in Hfb.
  destruct Hsw as [Hi Hn _ _ _ _]. pose proof (SendWindow.inv_next w Hi).
  destruct (SendWindow.append_inv w e data ch Hi) as [H1 H2]; [lia|lia|done..|].
  split_and!; [done|done|]. cbn. apply wadd64_small; width.
Qed.

Lemma retransmit_abs N c w ch data now :
  cinv N c -> N + 1 < 2 ^ 64 -> send_window c = Some w -> payload_ok (max_payload c) data -> is_u64 now ->
  SendWindow.has_capacity w = true ->
  exists w', SendWindow.push_retransmit w ch data now = (Some (SendWindow.next_data_seq w), w') /\
    sw_ok (N + 1) (max_payload c) w' /\
    SendWindow.abs w' = SendWindow.abs w ++ [SendWindow.mkFlight (SendWindow.next_data_seq w) ch data] /\
    SendWindow.next_data_seq w' = SendWindow.next_data_seq w + 1 /\
    SendWindow.next_channel_seq w' = SendWindow.next_channel_seq w.
Proof.
  intros Hc HN Hw Hd Hn Hcap. pose proof (max_payload_range c).
  destruct (sw_push_retransmit N (max_payload c) w ch data now) as (w' & Hp & Hw'); [lia|by apply (ci_sw _ _ Hc)|done..|].
  exists w'. split; [done|]. split; [done|]. unfold SendWindow.push_retransmit in Hp. rewrite Hcap in Hp.
  injection Hp as <-.
  destruct (push_abs N c w (SendWindow.mkEntry (SendWindow.next_data_seq w) ch now (llen data) SendWindow.Pending 2)
    data (SendWindow.next_channel_seq w)) as (_ & Ha & Hnx); done.
Qed.

Lemma push_new_abs N c w data now :
  cinv N c -> N + 1 < 2 ^ 64 -> send_window c = Some w -> payload_ok (max_payload c) data -> is_u64 now ->
  SendWindow.has_capacity w = true ->
  exists w', SendWindow.push w data now = (Some (SendWindow.next_data_seq w, SendWindow.next_channel_seq w), w') /\
    sw_ok (N + 1) (max_payload c) w' /\
    SendWindow.abs w' = SendWindow.abs w ++
      [SendWindow.mkFlight (SendWindow.next_data_seq w) (SendWindow.next_channel_seq w) data] /\
    SendWindow.next_data_seq w' = SendWindow.next_data_seq w + 1 /\
    SendWindow.next_channel_seq w' = Seq.next_channel_seq (SendWindow.next_channel_seq w).
Proof.
  intros Hc HN Hw Hd Hn Hcap. pose proof (max_payload_range c).
  destruct (sw_push N (max_payload c) w data now) as (w' & Hp & Hw'); [lia|by apply (ci_sw _ _ Hc)|done..|].
  exists w'. split; [done|]. split; [done|]. unfold SendWindow.push in Hp. rewrite Hcap in Hp. injection Hp as <-.
  destruct (push_abs N c w (SendWindow.mkEntry (SendWindow.next_data_seq w) (SendWindow.next_channel_seq w) now
    (llen data) SendWindow.Pending 1) data (Seq.next_channel_seq (SendWindow.next_channel_seq w))) as (_ & Ha & Hnx); done.
Qed.

Lemma emits_try_retransmit N c now :
  cinv N c -> state c = Established -> tidy c -> is_u64 now -> N + 65536 < 2 ^ 64 ->
  wlp (try_retransmit now) (fun r c' => emits c r c' /\ (r = None -> moved c c' /\ cursor c' = cursor c)) c.
Proof.
  intros Hc Hs H Hn HN. pose proof (ci_N _ _ Hc). destruct (ci_est _ _ Hc Hs) as ([p Hp] & [w Hw] & _).
  pose proof (ci_params _ _ Hc p Hp) as [_ _ _ Hlog].
  assert (Hr : moved c c) by (by apply shifts_refl; [apply _|]).
  assert (Hno : emits c None c /\ (@None Transmit = None -> moved c c /\ cursor c = cursor c))
    by (split; [by apply emits_quiet|done]).
  unfold try_retransmit. wlp_step. rewrite Hw. unfold Reliability.has_pending.
  destruct (reliability c) as [|e q] eqn:Eq; cbn [negb]; [by apply wlp_ret|].
  destruct (_ <=? _); [by apply wlp_ret|].
  destruct (SendWindow.has_capacity w) eqn:Hcap; cbn [negb]; [|by apply wlp_ret]. cbn [Reliability.dequeue]. wlp_step.
  pose proof (ci_rel _ _ Hc) as Hrel. pose proof (ci_queue _ _ Hc) as Hqu. rewrite Eq in Hrel, Hqu.
  apply Forall_cons in Hrel as [He Hq].
  assert (Hc1 : cinv N (with_reliability q c)).
  { apply cinv_rel; [done..|]. unfold Reliability.inv in *. cbn in Hqu. by apply NoDup_cons in Hqu as [_ ?]. }
  destruct (retransmit_abs N c w (Reliability.channel_seq e) (Reliability.data e) now)
    as (w' & -> & Hw' & Ha & Hnx & Hch); [done|lia|done..|].
  unfold set_sw. wlp_step. set (c1 := with_send_window (Some w') (with_reliability q c)).
  assert (Hc2 : cinv (N + 1) c1) by (apply cinv_sw; [eapply cinv_mono; [done|lia]|done|done]).
  assert (Hnc : next_chan c1 = next_chan c) by (unfold next_chan; by rewrite Hw).
  assert (Ho : outstanding c1 ≡ₚ outstanding c).
  { unfold outstanding, flights. cbn [send_window reliability c1 with_send_window with_reliability].
    rewrite Hw, Eq, Ha, fmap_app, <- app_assoc. done. }
  assert (Ht1 : tidy c1).
  { destruct H. constructor; [intros ? [= <-]; apply Hw'|rewrite Hnc; by eapply chans_ok_perm|done|done]. }
  apply wlp_bind. eapply wlp_mono; [apply wp_wlp, (wp_build_data_packet (N + 1) c1 p);
    [done|exact Hs|exact Hp|done|apply He|unfold WINDOW_MAX; lia]|].
  intros r c2 (-> & _ & Hf). cbn [is_some]. apply wlp_bind. unfold bump, timer_set. do 2 wlp_step. apply wlp_ret.
  split; [|done]. eapply (emits_frame_r _ c2); [|done..].
  eapply (emits_data c c1 c2 w w' (SendWindow.mkFlight _ _ _)); try done; [by left|apply He].
Qed.

Lemma emits_try_send N c now :
  cinv N c -> state c = Established -> tidy c -> is_u64 now -> N + 65536 < 2 ^ 64 ->
  0 <= next_chan c -> next_chan c + 2 < 2 ^ 64 ->
  wlp (try_send_new_data now) (fun r c' => emits c r c' /\ (r = None -> moved c c' /\ cursor c' = cursor c)) c.
Proof.
  intros Hc Hs H Hn HN Hlo Hhi. pose proof (ci_N _ _ Hc). destruct (ci_est _ _ Hc Hs) as ([p Hp] & [w Hw] & _).
  pose proof (ci_params _ _ Hc p Hp) as [_ _ _ Hlog].
  assert (Hr : moved c c) by (by apply shifts_refl; [apply _|]).
  assert (Hno : emits c None c /\ (@None Transmit = None -> moved c c /\ cursor c = cursor c))
    by (split; [by apply emits_quiet|done]).
  unfold try_send_new_data. wlp_step. destruct (send_buffer c) as [|data rest] eqn:Eb; [by apply wlp_ret|].
  rewrite Hw. destruct (_ <=? _); [by apply wlp_ret|].
  destruct (SendWindow.has_capacity w) eqn:Hcap; cbn [negb]; [|by apply wlp_ret].
  pose proof (ci_buf _ _ Hc) as Hbuf. rewrite Eb in Hbuf. apply Forall_cons in Hbuf as [Hd Hrest].
  wlp_step. assert (Hc1 : cinv N (with_send_buffer rest c)) by by apply cinv_buf.
  destruct (push_new_abs N c w data now) as (w' & -> & Hw' & Ha & Hnx & Hch); [done|lia|done..|].
  unfold set_sw. wlp_step. set (c1 := with_send_window (Some w') (with_send_buffer rest c)).
  assert (Hc2 : cinv (N + 1) c1) by (apply cinv_sw; [eapply cinv_mono; [done|lia]|done|done]).
  assert (Hold : next_chan c = SendWindow.next_channel_seq w) by (unfold next_chan; by rewrite Hw).
  assert (Hnc : next_chan c1 = Seq.next_channel_seq (next_chan c)) by (by rewrite Hold, <- Hch).
  assert (Ho : outstanding c1 ≡ₚ (next_chan c, data) :: outstanding c).
  { unfold outstanding, flights. cbn [send_window reliability c1 with_send_window with_send_buffer].
    rewrite Hw, Ha, fmap_app, Hold. cbn. rewrite <- app_assoc. cbn. symmetry. apply Permutation_middle. }
  assert (Ht1 : tidy c1).
  { destruct H as [_ [Hnd Hlt] Htx Hhs].
    constructor; [intros ? [= <-]; apply Hw'| |done|done]. eapply chans_ok_perm; [exact Ho|].
    rewrite Hnc, Seq.next_channel_seq_spec by done. split; cbn.
    - apply NoDup_cons_2; [|done]. intros (kd & Hk & Hin)%list_elem_of_fmap.
      rewrite Forall_forall in Hlt. specialize (Hlt kd Hin). lia.
    - constructor; [cbn; zcase; lia|]. eapply Forall_impl; [exact Hlt|]. cbn. intros kd. zcase; lia. }
  assert (Hpop : pops c c1) by (exists data; by split_and!).
  apply wlp_bind. eapply wlp_mono; [apply wp_wlp, (wp_build_data_packet (N + 1) c1 p);
    [done|exact Hs|exact Hp|done|apply Hd|unfold WINDOW_MAX; lia]|].
  intros r c2 (-> & _ & Hf). cbn [is_some].
  assert (He : emits c (Some (mkTransmit (datagram_of (data_packet c1 (log_window_size p)
    (SendWindow.next_data_seq w) (SendWindow.next_channel_seq w) data now)))) c2).
  { eapply (emits_data c c1 c2 w w' (SendWindow.mkFlight _ _ _)); try done; [by right|apply Hd]. }
  apply wlp_bind. unfold bump, timer_set. do 2 wlp_step.
  destruct (negb _); [wlp_step|apply wlp_ret]; apply wlp_ret; (split; [by apply (emits_frame_r _ c2)|done]).
Qed.

Lemma emits_poll_transmit N c now :
  cinv N c -> tidy c -> is_u64 now -> N + STEP < 2 ^ 64 -> 0 <= next_chan c -> next_chan c + 2 < 2 ^ 64 ->
  wlp (poll_transmit now) (emits c) c.
Proof.
  intros Hc H Hn HN Hlo Hhi. unfold STEP in HN. unfold poll_transmit. apply wlp_bind. apply (wlp_mono _ (emits c)).
  2: { intros r c1 H1. apply wlp_bind. destruct (is_some r); [unfold bump; wlp_step|]; apply wlp_ret.
       - by apply (emits_frame_r _ c1).
       - by apply wlp_ret. }
  assert (Hr : moved c c) by (by apply shifts_refl; [apply _|]).
  assert (Hno : emits c None c) by (by apply emits_quiet).
  assert (Hsend : forall c1 t, emits c (Some t) c1 -> wlp (transmitted t now) (emits c) c1).
  { intros c1 t H1. unfold transmitted, timer_set. do 2 wlp_step. apply wlp_ret. by apply (emits_frame_r _ c1). }
  unfold poll_transmit_inner. wlp_step. destruct (decide _); [by apply wlp_ret|].
  destruct (pending_transmits c) as [|t rest] eqn:Et.
  2: { wlp_step. apply Hsend. pose proof (td_tx _ H) as Htx. rewrite Et in Htx. apply Forall_cons in Htx as [Ht Hrest].
    assert (Hm : moved c (with_pending_transmits rest c))
      by (apply shifts_quiet; [apply _|done|done|done|done|done|apply (td_hs _ H)]).
    constructor; [apply Hm|by left| |]; unfold sent_flight; change (cursor (with_pending_transmits rest c)) with (cursor c);
      rewrite Z.eqb_refl; [|done]. intros t' [= <-]. by left. }
  destruct (decide (state c <> Established)) as [|Hs%dec_stable]; [by apply wlp_ret|].
  apply wlp_bind. eapply wlp_mono.
  { apply wp_wlp, wlp_wp; [apply (wp_try_retransmit N); [done|done|done|lia]|]. apply (emits_try_retransmit N); [done|done|done|done|lia]. }
  intros r c1 [[[Hc1 [Hs1 _ _ _]] _] [H1 H1n]]. destruct r; [by apply Hsend|]. destruct (H1n eq_refl) as [Hm1 Hcu1].
  apply wlp_bind. eapply wlp_mono.
  { apply wp_wlp, wlp_wp; [apply (wp_try_send_new_data (N + 2)); [done|congruence|done|lia]|].
    apply (emits_try_send (N + 2)); [done|congruence|apply Hm1|done|lia|rewrite (sh_chan _ _ _ Hm1); done..]. }
  intros r c2 [[[Hc2 [Hs2 _ _ _]] _] [H2 H2n]]. pose proof (emits_frame_l _ _ _ _ Hm1 Hcu1 H2) as H3.
  destruct r; [by apply Hsend|]. destruct (H2n eq_refl) as [Hm2 Hcu2].
  wlp_step. destruct (ack_pending c2); [|by apply wlp_ret]. apply wlp_bind.
  eapply wlp_mono; [apply wp_wlp, (wp_build_standalone (N + 2 + 2)); [done|congruence|done|unfold WINDOW_MAX; lia]|].
  intros r c3 ((pk & -> & Hwf & Hnb & _) & _ & [_ Hsw Hrel Hbuf _ _ Htx Hhs _]). unfold timer_clear. do 2 wlp_step. apply Hsend.
  apply (emits_frame_r _ c3); [|done..]. apply (emits_frame_r _ c2); [|done..].
  assert (Hm : moved c c2) by (by eapply shifts_trans; [apply _|..]).
  constructor; [apply Hm|by left| |]; unfold sent_flight; rewrite Hcu2, Hcu1, Z.eqb_refl; [|done].
  intros t' [= <-]. right. by exists pk.
Qed.

(** ** Every reachable connection *)

Lemma handshake_tidy c d :
  windows_empty c -> handshake_bytes d -> pending_transmits c = [mkTransmit d] ->
  handshake_datagram c = Some d -> tidy c.
Proof.
  intros (Hw & _ & _ & Hr) Hd Htx Hhs.
  constructor; unfold outstanding, flights; rewrite ?Hw, ?Hr, ?Htx, ?Hhs; try done.
  - split; [apply NoDup_nil_2|constructor].
  - by constructor.
  - by intros ? [= <-].
Qed.

Lemma client_start_tidy cfg now :
  cfg_ok cfg -> is_Some (cfg_cookie_hash cfg) -> tidy (client_start cfg now).
Proof. intros Hc Hh. by apply (handshake_tidy _ (wire (syn_datagram_of cfg))); [|apply hb_syn|..]. Qed.

Lemma server_start_tidy cfg sd now : cfg_ok cfg -> SynData_wf sd -> tidy (server_start cfg sd now).
Proof.
  intros Hc (Hi & _ & _).
  eapply (handshake_tidy _ (wire (syn_ack_datagram_of cfg (initial_sequence_number sd) _ _)));
    [done|apply hb_syn_ack; [done|done|apply negotiated_ok..]|done..].
Qed.

(** What one call does to the payloads on their way. *)
Definition call_effect (k : call) (r : reply) c c' : Prop :=
  match k with
  | PollTransmit _ => moved c c' \/ pops c c'
  | Send data =>
      outstanding c' = outstanding c /\ next_chan c' = next_chan c /\
      concat (send_buffer c') =
        concat (send_buffer c) ++ match r with Accepted (inr _) => data | _ => [] end
  | HandleDatagram bytes _ => acked c c' /\ (acknowledges bytes = false -> moved c c')
  | _ => moved c c'
  end.

Lemma wlp_perform_tidy N c k :
  cinv N c -> tidy c -> call_ok k -> N + STEP < 2 ^ 64 -> 0 <= next_chan c -> next_chan c + 2 < 2 ^ 64 ->
  wlp (perform k) (fun r c' => tidy c' /\ call_effect k r c c') c.
Proof.
  intros Hc H Hk HN Hlo Hhi. destruct k as [bytes now|now|now|data| |]; cbn [perform call_ok] in *; apply wlp_bind.
  - destruct Hk as [Hb Hn]. cbn [call_effect]. destruct (acknowledges bytes) eqn:Ea.
    + eapply wlp_mono; [by apply (acked_handle_datagram N)|]. intros r c' Ha. apply wlp_ret. by split; [apply Ha|].
    + eapply wlp_mono; [by apply (shifts_handle_datagram (≡ₚ) N); [..|intros; apply moved_handle_v2]|].
      intros r c' Ha. apply wlp_ret. split; [apply Ha|]. split; [by apply moved_acked|done].
  - eapply wlp_mono; [by apply (emits_poll_transmit N)|]. intros r c' [Ht Hb _ _]. by apply wlp_ret.
  - eapply wlp_mono; [by apply moved_handle_timeout|]. intros r c' Hm. apply wlp_ret. split; [apply Hm|done].
  - eapply wlp_mono; [by apply send_appends|]. intros r c' (Ht & Ho & Hn & Hb). apply wlp_ret. by split_and!.
  - eapply wlp_mono; [by apply moved_poll_event|]. intros r c' Hm. apply wlp_ret. split; [apply Hm|done].
  - eapply wlp_mono; [by apply moved_close|]. intros r c' Hm. apply wlp_ret. split; [apply Hm|done].
Qed.

Lemma chan_bound m n : (m <= n)%nat -> Z.of_nat n < CALLS -> 0 <= chan m /\ chan m + 2 < 2 ^ 64.
Proof. unfold chan, CALLS. intros ? ?. zdm. Qed.

(** The cursor only moves along the channel numbers, at most one per call. *)
Definition on_track (n : nat) c : Prop := exists m, (m <= n)%nat /\ next_chan c = chan m.

Lemma call_effect_track n c k r c' :
  call_effect k r c c' -> on_track n c -> Z.of_nat n < CALLS -> on_track (S n) c'.
Proof.
  intros He (m & Hm & Hc) Hn. destruct (chan_bound m n Hm Hn) as [Hlo Hhi].
  assert (Hsame : next_chan c' = next_chan c -> on_track (S n) c') by (intros E; exists m; split; [lia|congruence]).
  destruct k; cbn [call_effect] in He.
  2: { destruct He as [He|(d & _ & E & _)]; [apply Hsame, He|]. exists (S m). split; [lia|].
       by rewrite E, Hc, next_channel_seq_chan. }
  3: { apply Hsame, He. }
  1: { destruct He as [He _]. apply Hsame, He. }
  all: apply Hsame, He.
Qed.

Lemma reachable_tidy n c : reachable n c -> Z.of_nat n < CALLS -> tidy c /\ on_track n c.
Proof.
  intros Hr. induction Hr as [cfg now c Hcfg Hn Hc|cfg wire d now c Hcfg Hn Hb Hd Ha|n c k r c' Hr IH Hk Hp]; intros HN.
  - apply connect_start in Hc as [Hck ->]; [|done]. split; [by apply client_start_tidy|by exists 0%nat].
  - apply (decode_wf (C := V1Datagram_Codec)) in Hd; [|done]. pose proof (accept_spec cfg d now Hcfg Hd) as H.
    rewrite Ha in H. destruct H as (sd & sx & Hsd & _ & _ & _ & _ & _ & ->).
    destruct Hd as (_ & _ & _ & _ & _ & Hwf & _). split; [apply server_start_tidy; [done|by apply Hwf]|by exists 0%nat].
  - assert (HN' : Z.of_nat n < CALLS) by lia. destruct (IH HN') as [Ht Htr]. pose proof Htr as (m & Hm & Hc).
    destruct (chan_bound m n Hm HN') as [Hlo Hhi].
    pose proof (wlp_perform_tidy _ c k (reachable_inv _ _ Hr HN') Ht Hk (budget_room _ HN')) as H.
    unfold wlp in H. rewrite Hp, Hc in H. destruct (H Hlo Hhi) as [Ht' He]. split; [done|]. by eapply call_effect_track.
Qed.

(** C21: nothing is dropped: in a reachable connection every payload that got a
    ChannelSeqNum stays in flight or queued for retransmission, under that
    number and only once, until a datagram of the peer that carries an
    acknowledgment is handled.  Timers, polls and closing lose nothing, a
    transmission at most gives the oldest buffered payload the next number, a
    datagram without an acknowledgment removes nothing, one with an
    acknowledgment only removes, and [send] appends exactly the data it
    accepts. *)
Theorem unacknowledged_kept n c k r c' :
  reachable n c -> Z.of_nat n < CALLS -> call_ok k -> perform k c = Ok (r, c') ->
  call_effect k r c c' /\ NoDup (outstanding c').*1.
Proof.
  intros Hr Hn Hk Hp. destruct (reachable_tidy _ _ Hr Hn) as [Ht (m & Hm & Hc)].
  destruct (chan_bound m n Hm Hn) as [Hlo Hhi].
  pose proof (wlp_perform_tidy _ c k (reachable_inv _ _ Hr Hn) Ht Hk (budget_room _ Hn)) as H.
  unfold wlp in H. rewrite Hp, Hc in H. destruct (H Hlo Hhi) as [Ht' He]. split; [done|apply Ht'].
Qed.

End sender.

Lemma unacknowledged_kept_witness :
  exists r c', @perform bits_flags (HandleTimeout 5000) (@client_start bits_flags sample_cfg 100) = Ok (r, c') /\
    @call_effect bits_flags (HandleTimeout 5000) r (@client_start bits_flags sample_cfg 100) c' /\
    NoDup (outstanding c').*1.
Proof.
  destruct (@perform bits_flags (HandleTimeout 5000) (@client_start bits_flags sample_cfg 100)) as [[r c']| |] eqn:E.
  - exists r, c'. split; [done|].
    exact (@unacknowledged_kept bits_flags 0 _ (HandleTimeout 5000) r c' sample_reachable eq_refl
      ltac:(vm_compute; split; congruence) E).
  - vm_compute in E. discriminate.
  - vm_compute in E. discriminate.
Defined.
