(* ===== verification/Delivery.v ===== *)
(** End-to-end delivery over a connection pair
    (src/crates/ironrdp-rdpeudp/src/connection.rs on both sides): whatever the
    network does to the datagrams of the sender, the receiver's application
    gets a prefix of the bytes the sender's application handed in. *)

From S2P Require Import Prelude Timing FloatBounds Loss RecvWindow SendWindow Congestion.
From S2P Require Import Cursor Codec Flags Seq Prefix WireV1 WireV2 Connection ConnectionInv ConnectionProps.
From S2P Require Import ConnectionTimers Sender.

Open Scope Z_scope.

(** ** Handshake datagrams are never data

    A connection feeds everything that arrives once it is established to the
    RDP-UDP2 decoder, late copies of the handshake included. *)

Section inert.
Context {BF : Bitflags}.

Definition inert (bytes : list Z) : Prop :=
  forall prefix packet_bytes p,
    fst (decode_with_prefix bytes) = Ok (prefix, packet_bytes) -> decode V2Packet packet_bytes <> Ok p.

(** The eighth byte decides: a SYN+ACK or an ACK names a packet type that does
    not exist. *)
Lemma inert_type b0 b1 b2 b3 b4 b5 b6 b7 l :
  Z.land (Z.shiftr b7 1) 0x0F <> 0 -> Z.land (Z.shiftr b7 1) 0x0F <> 8 ->
  inert (b0 :: b1 :: b2 :: b3 :: b4 :: b5 :: b6 :: b7 :: l).
Proof.
  intros H0 H8 prefix pb p. unfold decode_with_prefix. rewrite swap_eight.
  destruct (_ <? _); [done|]. unfold prefix_from_byte. cbn [packet_type_index].
  rewrite (proj2 (Z.eqb_neq _ 0) H0), (proj2 (Z.eqb_neq _ 8) H8). done.
Qed.

(** A handshake datagram starts with its header: six bytes, then the flags. *)
Lemma v1_wire_shape (d : V1Datagram) :
  exists b0 b1 b2 b3 b4 b5 l,
    wire d = b0 :: b1 :: b2 :: b3 :: b4 :: b5 :: to_be_bytes 2 (fh_flags (d_header d)) ++ l /\
    to_be_bytes 4 (sn_source_ack (d_header d)) = [b0; b1; b2; b3].
Proof.
  destruct (to_be_bytes 4 (sn_source_ack (d_header d))) as [|b0 [|b1 [|b2 [|b3 [|]]]]] eqn:E4;
    try (by apply (f_equal length) in E4; rewrite length_to_be_bytes in E4).
  destruct (to_be_bytes 2 (receive_window_size (d_header d))) as [|b4 [|b5 [|]]] eqn:E2;
    try (by apply (f_equal length) in E2; rewrite length_to_be_bytes in E2).
  change (wire d) with (V1Datagram_wire d). unfold V1Datagram_wire.
  change (wire (d_header d)) with (FecHeader_wire (d_header d)). unfold FecHeader_wire. rewrite E4, E2.
  eexists _, _, _, _, _, _, _. split; [|done]. reflexivity.
Qed.

(** A packet cannot start with the SYN's 0xFFFFFFFF: its header would have both
    acknowledgment flags. *)
Lemma syn_not_packet l p : decode V2Packet (255 :: 255 :: l) <> Ok p.
Proof.
  assert (Hh : exists e, V2Header_decode (ReadCursor.new (255 :: 255 :: l)) = Err e).
  { eexists. unfold V2Header_decode, ReadCursor.ensure_size, mbind, M_bind, ReadCursor.len.
    assert (llen (ReadCursor.inner (ReadCursor.new (255 :: 255 :: l))) -
      Z.of_nat (ReadCursor.pos (ReadCursor.new (255 :: 255 :: l))) = 2 + llen l) as ->.
    { cbn [ReadCursor.inner ReadCursor.pos ReadCursor.new]. rewrite !llen_cons. lia. }
    pose proof (llen_nonneg l). destruct (Z.leb_spec 2 (2 + llen l)); [|lia]. cbn -[V2Header_from_wire].
    change (ReadCursor.read_u16 (ReadCursor.new (255 :: 255 :: l))) with
      (Ok (65535, ReadCursor.mk (255 :: 255 :: l) 2) : outcome DecodeErrorKind (Z * ReadCursor.t)).
    cbv iota beta. unfold V2Header_from_wire, V2Flags.ack_flags_valid.
    rewrite from_bits_truncate_bits, contains_bits, union_bits. reflexivity. }
  destruct Hh as [e Hh]. unfold decode. change (@decode_from V2Packet _) with V2Packet_decode.
  unfold V2Packet_decode. unfold mbind at 1, outcome_bind. unfold mbind at 1, M_bind at 1.
  change (@decode_from V2Header _) with V2Header_decode. by rewrite Hh.
Qed.

Lemma handshake_inert bytes : handshake_bytes bytes -> inert bytes.
Proof.
  intros [cfg Hc Hh|cfg isn up down Hc Hi Hu Hd|cfg isn Hc Hi].
  - destruct (v1_wire_shape (syn_datagram_of cfg)) as (b0&b1&b2&b3&b4&b5&l&->&E). cbn [d_header syn_datagram_of fh_flags sn_source_ack] in *.
    rewrite union_bits. change (to_be_bytes 4 0xFFFFFFFF) with [255; 255; 255; 255] in E. injection E as <- <- <- <-.
    change (to_be_bytes 2 (Z.lor V1Flags.SYN V1Flags.SYNEX)) with [16; 1]. cbn [app].
    intros prefix pb p. unfold decode_with_prefix. rewrite swap_eight.
    destruct (_ <? _); [done|]. change (prefix_from_byte 1) with (mkPrefix 0 0).
    cbn [packet_type_index short_packet_length Z.eqb negb andb Z.ltb Z.compare].
    destruct (_ <? _); [done|]. cbn [fst]. intros [= _ <-]. unfold llen. rewrite Nat2Z.id, take_ge by done.
    apply syn_not_packet.
  - destruct (v1_wire_shape (syn_ack_datagram_of cfg isn up down)) as (b0&b1&b2&b3&b4&b5&l&->&_).
    cbn [d_header syn_ack_datagram_of fh_flags]. rewrite !union_bits.
    change (to_be_bytes 2 _) with [16; 5]. by apply inert_type.
  - destruct (v1_wire_shape (final_ack_of cfg isn)) as (b0&b1&b2&b3&b4&b5&l&->&_).
    cbn [d_header final_ack_of fh_flags]. change (to_be_bytes 2 _) with [0; 4]. by apply inert_type.
Qed.

(** The datagram of a packet decodes to that packet, as data. *)
Lemma datagram_decodes p :
  V2Packet_wf p ->
  exists prefix, fst (decode_with_prefix (datagram_of p)) = Ok (prefix, wire p) /\
    is_dummy prefix = false /\ decode V2Packet (wire p) = Ok p.
Proof.
  intros Hp. assert (Hne : wire p <> []).
  { change (V2Packet_wire p <> []). unfold V2Packet_wire. intros [E _]%app_eq_nil. done. }
  destruct (prefix_undone (wire p) false [] Hne) as (n & w & He & _ & _ & Hd & Hu).
  unfold datagram_of. rewrite He. cbn [snd]. rewrite Hd. eexists. split_and!; [done|done|].
  by apply (decode_wire (C := V2Packet_Codec)).
Qed.

End inert.

(** ** What the receiving half has taken in *)

Definition data_of (es : list Event) : list (list Z) :=
  omap (fun e => match e with DataReceived d => Some d | _ => None end) es.

(** The delivery cursor and the payloads waiting for it, with the payloads
    delivered but not yet polled. *)
Definition rview (w : RecvWindow.t) : Z * gmap Z (list Z) :=
  (RecvWindow.next_channel_seq w, RecvWindow.reorder_buf w).
Definition heard (c : RdpeudpConnection) : option (Z * gmap Z (list Z)) * list (list Z) :=
  (rview <$> recv_window c, data_of (pending_events c)).

Lemma data_of_app es es' : data_of (es ++ es') = data_of es ++ data_of es'.
Proof. apply omap_app. Qed.

Lemma rview_advance w b : rview (RecvWindow.advance_base w b) = rview w.
Proof. unfold RecvWindow.advance_base. by destruct (_ <=? _). Qed.

Lemma rview_release w : rview (RecvWindow.release_acknowledged w).2 = rview w.
Proof. unfold RecvWindow.release_acknowledged. by destruct (_ <? _)%nat. Qed.

Lemma rview_occupy w s ch b w' : RecvWindow.occupy_slot w s ch = Some (b, w') -> rview w' = rview w.
Proof.
  unfold RecvWindow.occupy_slot. destruct (_ <? _); [by intros [= _ <-]|]. cbv zeta.
  destruct (_ <=? _); [by intros [= _ <-]|]. destruct (_ !! _) as [e|]; [|done]. cbn [mbind option_bind].
  by destruct (RecvWindow.is_recv e); intros [= _ <-].
Qed.

(** Receiving puts the payload into the buffer or changes nothing there. *)
Lemma rview_receive w s ch data b w' :
  RecvWindow.receive w s ch data = Some (b, w') ->
  rview w' = rview w \/ rview w' = (RecvWindow.next_channel_seq w, <[ch := data]> (RecvWindow.reorder_buf w)).
Proof.
  unfold RecvWindow.receive. destruct (_ && _); [intros [= _ <-]; by left|].
  destruct (RecvWindow.occupy_slot w s (Some ch)) as [[ok w1]|] eqn:E; [|done]. cbn [mbind option_bind].
  apply rview_occupy in E. injection E as Hn Hb. destruct ok; cbn [negb].
  - intros [= _ <-]. unfold rview. cbn. rewrite Hn, Hb. destruct (_ <? _); [by left|by right].
  - intros [= _ <-]. left. unfold rview. by rewrite Hn, Hb.
Qed.

(** A predicate on [heard] through straight-line code. *)
Ltac listen :=
  repeat (cbv zeta; lazymatch goal with
  | |- heard (match ?x with _ => _ end) = _ => destruct x
  | |- heard _ = _ => done
  | |- wlp (mret _) _ _ => apply wlp_ret
  | |- wlp crash _ _ => exact I
  | |- wlp (modify _) _ _ => apply wlp_modify
  | |- wlp (mbind _ (gets _)) _ _ => apply wlp_bind, wlp_gets; unfold id; cbv beta
  | |- wlp (mbind _ (modify _)) _ _ => apply wlp_bind, wlp_modify; cbv beta
  | |- wlp (mbind _ (mret _)) _ _ => apply wlp_bind, wlp_ret; cbv beta
  | |- wlp (mbind _ (try_m _)) _ _ => apply wlp_bind, wlp_try; intros ?; cbv beta
  | |- wlp (match ?x with _ => _ end) _ _ => destruct x
  | |- wlp (mbind _ _) (fun _ c' => heard c' = ?h) _ =>
      apply wlp_bind, (wlp_mono _ (fun _ c' => heard c' = h)); [|intros ? ? ?; cbv beta]
  | |- wlp _ _ _ => solve [eauto with heard]
  end).

Create HintDb heard.

Section hears.
Context {BF : Bitflags}.
Context (h : option (Z * gmap Z (list Z)) * list (list Z)).
Implicit Types (c : RdpeudpConnection).

Lemma hears_iter {A} (f : A -> C unit) xs :
  (forall x c, heard c = h -> wlp (f x) (fun _ c' => heard c' = h) c) ->
  forall c, heard c = h -> wlp (iter_m f xs) (fun _ c' => heard c' = h) c.
Proof. intros Hf. by apply (wlp_iter f (fun c => heard c = h)). Qed.

Lemma hears_rtt_update c x : heard c = h -> wlp (rtt_update x) (fun _ c' => heard c' = h) c.
Proof. intros H. unfold rtt_update. listen. Qed.
Hint Resolve hears_rtt_update : heard.

Lemma hears_declare_lost c s : heard c = h -> wlp (declare_lost s) (fun _ c' => heard c' = h) c.
Proof. intros H. unfold declare_lost, set_sw. listen. Qed.

Lemma hears_declare_all c ss : heard c = h -> wlp (iter_m declare_lost ss) (fun _ c' => heard c' = h) c.
Proof. apply hears_iter. intros s c'. apply hears_declare_lost. Qed.
Hint Resolve hears_declare_lost hears_declare_all : heard.

Lemma hears_run_loss c now : heard c = h -> wlp (run_loss_detection now) (fun _ c' => heard c' = h) c.
Proof. intros H. unfold run_loss_detection. listen. Qed.

Lemma hears_overdue c now : heard c = h -> wlp (declare_overdue_lost now) (fun _ c' => heard c' = h) c.
Proof. intros H. unfold declare_overdue_lost, declare_oldest_pending_lost. listen. Qed.

Lemma hears_update_retransmit c now : heard c = h -> wlp (update_retransmit_timer now) (fun _ c' => heard c' = h) c.
Proof. intros H. unfold update_retransmit_timer, timer_set, timer_clear. listen. Qed.
Hint Resolve hears_run_loss hears_overdue hears_update_retransmit : heard.

Lemma hears_sample_rtt c e g : heard c = h -> wlp (sample_rtt e g) (fun _ c' => heard c' = h) c.
Proof. intros H. unfold sample_rtt. listen. Qed.

Lemma hears_after_ack c b now : heard c = h -> wlp (after_ack b now) (fun _ c' => heard c' = h) c.
Proof. intros H. unfold after_ack, timer_clear. listen. Qed.

Lemma hears_retire c s : heard c = h -> wlp (retire_ack_of_acks s) (fun _ c' => heard c' = h) c.
Proof. intros H. unfold retire_ack_of_acks. listen. Qed.
Hint Resolve hears_sample_rtt hears_after_ack hears_retire : heard.

Lemma hears_process_ack c ack now : heard c = h -> wlp (process_ack ack now) (fun _ c' => heard c' = h) c.
Proof. intros H. unfold process_ack, set_sw. listen. Qed.

Lemma hears_process_ack_vector c av now : heard c = h -> wlp (process_ack_vector av now) (fun _ c' => heard c' = h) c.
Proof. intros H. unfold process_ack_vector, set_sw. listen. Qed.

Lemma hears_process_aoa c aoa : heard c = h -> wlp (process_ack_of_acks aoa) (fun _ c' => heard c' = h) c.
Proof.
  intros H. unfold process_ack_of_acks, set_rw. wlp_step. destruct (recv_window c) as [rw|] eqn:E; [|listen].
  wlp_step. rewrite <- H. unfold heard. cbn. by rewrite E, rview_advance.
Qed.

Lemma hears_owe_ack c now : heard c = h -> wlp (owe_ack now) (fun _ c' => heard c' = h) c.
Proof. intros H. unfold owe_ack, timer_set. listen. Qed.
Hint Resolve hears_process_ack hears_process_ack_vector hears_process_aoa hears_owe_ack : heard.

Lemma hears_close c : heard c = h -> wlp close (fun _ c' => heard c' = h) c.
Proof.
  intros H. unfold wlp. rewrite close_eq. destruct (decide _); [done|]. rewrite <- H.
  unfold heard, closed. cbn. by rewrite data_of_app, app_nil_r.
Qed.
Hint Resolve hears_close : heard.

Lemma hears_resend c : heard c = h -> wlp resend_handshake_datagram (fun _ c' => heard c' = h) c.
Proof. intros H. unfold resend_handshake_datagram. listen. Qed.

Lemma hears_sample_handshake c now : heard c = h -> wlp (sample_handshake_rtt now) (fun _ c' => heard c' = h) c.
Proof. intros H. unfold sample_handshake_rtt. listen. Qed.
Hint Resolve hears_resend hears_sample_handshake : heard.

(** Transmitting releases acknowledged slots, and nothing else of the window. *)
Lemma hears_commit c : heard c = h -> wlp commit_acknowledgement (fun _ c' => heard c' = h) c.
Proof.
  intros H. unfold commit_acknowledgement. do 2 wlp_step. rewrite <- H.
  destruct (recv_window c) as [rw|] eqn:E; [|done]. unfold heard. cbn. by rewrite E, rview_release.
Qed.

Lemma hears_encode c p : heard c = h -> wlp (encode_v2_packet p) (fun _ c' => heard c' = h) c.
Proof. intros H. unfold encode_v2_packet. listen. Qed.
Hint Resolve hears_commit hears_encode : heard.

Lemma hears_build_data c ds cs d now : heard c = h -> wlp (build_data_packet ds cs d now) (fun _ c' => heard c' = h) c.
Proof. intros H. unfold build_data_packet, timer_clear. listen. Qed.

Lemma hears_build_ack c now : heard c = h -> wlp (build_standalone_ack now) (fun _ c' => heard c' = h) c.
Proof. intros H. unfold build_standalone_ack. listen. Qed.
Hint Resolve hears_build_data hears_build_ack : heard.

Lemma hears_try_retransmit c now : heard c = h -> wlp (try_retransmit now) (fun _ c' => heard c' = h) c.
Proof. intros H. unfold try_retransmit, set_sw, bump, timer_set. listen. Qed.

Lemma hears_try_send c now : heard c = h -> wlp (try_send_new_data now) (fun _ c' => heard c' = h) c.
Proof. intros H. unfold try_send_new_data, set_sw, bump, timer_set. listen. Qed.

Lemma hears_transmitted c t now : heard c = h -> wlp (transmitted t now) (fun _ c' => heard c' = h) c.
Proof. intros H. unfold transmitted, timer_set. listen. Qed.
Hint Resolve hears_try_retransmit hears_try_send hears_transmitted : heard.

Lemma hears_poll_transmit c now : heard c = h -> wlp (poll_transmit now) (fun _ c' => heard c' = h) c.
Proof. intros H. unfold poll_transmit, poll_transmit_inner, bump, timer_clear. listen. Qed.

Lemma hears_fire c t now : heard c = h -> wlp (fire now t) (fun _ c' => heard c' = h) c.
Proof.
  intros H. unfold fire, handle_retransmit_timeout, handle_ack_delay_timeout, handle_idle_timeout,
    handle_keep_alive_timeout, retransmit_handshake, on_timeout, bump, timer_clear, timer_set. listen.
Qed.

Lemma hears_handle_timeout c now : heard c = h -> wlp (handle_timeout now) (fun _ c' => heard c' = h) c.
Proof.
  intros H. unfold handle_timeout. wlp_step. destruct (decide _) as [|_]; [listen|].
  generalize (Timers.expired (timers c) now). intros ts. revert c H.
  induction ts as [|t ts IH]; intros c H; cbn [fire_all]; [listen|]. wlp_step. destruct (decide _); [listen|].
  apply wlp_bind. eapply wlp_mono; [by apply hears_fire|]. intros [] c'. apply IH.
Qed.

Lemma hears_send c data : heard c = h -> wlp (send data) (fun _ c' => heard c' = h) c.
Proof. intros H. unfold send. listen. Qed.

End hears.

(** ** The receiver against the sender's channel

    [ps] is the sequence of payloads the sender has given a ChannelSeqNum;
    [got] is what the receiver's application has polled. *)

Definition assigned (ps : list (list Z)) (k : Z) (d : list Z) : Prop :=
  exists i, k = chan i /\ ps !! i = Some d.

Definition takes (ps got : list (list Z)) (h : option (Z * gmap Z (list Z)) * list (list Z)) : Prop :=
  (got ++ h.2) `prefix_of` ps /\
  match h.1 with
  | Some (next, buf) =>
      next = chan (length (got ++ h.2)) /\ forall k d, buf !! k = Some d -> assigned ps k d
  | None => got ++ h.2 = []
  end.

Abbreviation receiver := (fun ps got c => takes ps got (heard c)).

(** Every channel number in use fits 64 bits. *)
Definition roomy (ps : list (list Z)) : Prop := chan (length ps) + 2 < 2 ^ 64.

Lemma assigned_mono ps ps' k d : ps `prefix_of` ps' -> assigned ps k d -> assigned ps' k d.
Proof. intros Hp (i & -> & Hi). exists i. split; [done|]. by eapply prefix_lookup_Some. Qed.

Lemma takes_mono ps ps' got h : ps `prefix_of` ps' -> takes ps got h -> takes ps' got h.
Proof.
  intros Hp [H1 H2]. split; [by etrans|]. destruct h.1 as [[next buf]|]; [|done].
  destruct H2 as [H2 H3]. split; [done|]. intros k d Hk. by eapply assigned_mono, H3.
Qed.

Lemma chan_mono_le i j : (i <= j)%nat -> chan i <= chan j.
Proof. intros H. destruct (decide (i = j)) as [->|]; [done|]. apply Z.lt_le_incl, chan_mono. lia. Qed.

Lemma chan_u64 ps i : roomy ps -> (i <= length ps)%nat -> is_u64 (chan i) /\ chan i + 2 < 2 ^ 64.
Proof.
  unfold roomy. intros H Hi. pose proof (chan_mono_le i (length ps) Hi). pose proof (chan_mono_le 0 i ltac:(lia)).
  rewrite chan_0 in *. split; [split|]; lia.
Qed.

(** A drain continues the channel. *)
Lemma drain_prefix ps fuel n buf :
  roomy ps -> (n <= length ps)%nat -> (forall k d, buf !! k = Some d -> assigned ps k d) ->
  let '(ds, next', buf') := RecvWindow.drain_loop fuel (chan n) buf in
  ds `prefix_of` drop n ps /\ next' = chan (n + length ds) /\ buf' ⊆ buf.
Proof.
  intros Hr. revert n buf. induction fuel as [|fuel IH]; intros n buf Hn Hb; cbn [RecvWindow.drain_loop].
  { split_and!; [apply prefix_nil|by rewrite Nat.add_0_r|done]. }
  destruct (buf !! chan n) as [d|] eqn:E; [|split_and!; [apply prefix_nil|by rewrite Nat.add_0_r|done]].
  destruct (Hb _ _ E) as (i & ->%chan_inj & Hi). destruct (chan_u64 ps i Hr Hn) as [_ Hc].
  rewrite next_channel_seq_chan by done. apply lookup_lt_Some in Hi as Hlt.
  specialize (IH (S i) (delete (chan i) buf) Hlt). destruct (RecvWindow.drain_loop _ _ _) as [[ds next'] buf'].
  destruct IH as (H1 & H2 & H3).
  { intros k d' [_ Hk]%lookup_delete_Some. by apply Hb. }
  split_and!; [rewrite (drop_S _ _ _ Hi); by apply prefix_cons|rewrite H2; f_equal; cbn; lia|].
  etrans; [done|apply delete_subseteq].
Qed.

Lemma drop_prefix {A} (l k ds : list A) : l `prefix_of` k -> ds `prefix_of` drop (length l) k -> l ++ ds `prefix_of` k.
Proof. intros [z ->] H. rewrite drop_app_length in H. by apply prefix_app. Qed.

Section receiving.
Context {BF : Bitflags}.
Implicit Types (c : RdpeudpConnection).

Definition rcursor (c : RdpeudpConnection) : Z :=
  match recv_window c with Some w => RecvWindow.next_channel_seq w | None => 1 end.

(** The 16-bit ChannelSeqNum of the packet identifies it. *)
Definition fresh (f : option SendWindow.Flight) (c : RdpeudpConnection) : Prop :=
  match f with Some f => Z.abs (SendWindow.f_chan f - rcursor c) < 2 ^ 15 | None => True end.

Lemma heard_push_all ds c :
  wlp (iter_m (fun chunk => push_event (DataReceived chunk)) ds)
    (fun _ c' => heard c' = ((heard c).1, (heard c).2 ++ ds)) c.
Proof.
  revert c. induction ds as [|d ds IH]; intros c; cbn [iter_m].
  { apply wlp_ret. rewrite app_nil_r. by destruct (heard c). }
  apply wlp_bind. unfold push_event. wlp_step. eapply wlp_mono; [apply IH|]. intros [] c' ->.
  unfold heard. cbn. by rewrite data_of_app, <- app_assoc.
Qed.

Lemma receiver_process_data ps got c dh k d now :
  receiver ps got c -> roomy ps -> assigned ps k d -> Z.abs (k - rcursor c) < 2 ^ 15 ->
  wlp (process_data dh (mkDataBody (truncate_seq k) d) now) (fun _ => receiver ps got) c.
Proof.
  intros [Hpre Hw] Hr Hk Hf. unfold process_data. wlp_step. unfold rcursor in Hf.
  unfold heard in Hpre, Hw. cbn [fst snd] in Hpre, Hw.
  destruct (recv_window c) as [rw|] eqn:Erw; [|by apply wlp_ret; split; unfold heard; rewrite Erw].
  cbn [fmap option_fmap option_map rview] in Hw. destruct Hw as [Hn Hb]. set (all := got ++ data_of (pending_events c)) in *.
  assert (Hla : (length all <= length ps)%nat) by (by apply prefix_length).
  destruct (chan_u64 ps (length all) Hr Hla) as [Hnu _].
  assert (Hku : is_u64 k).
  { destruct Hk as (i & -> & Hi%lookup_lt_Some). apply (chan_u64 ps i Hr). lia. }
  cbv zeta. cbn [channel_seq_num body_data]. rewrite (reconstruct_truncate k) by (done || by rewrite Hn).
  destruct (RecvWindow.receive rw _ k d) as [[b rw']|] eqn:E; [|done]. apply rview_receive in E.
  assert (Hv : RecvWindow.next_channel_seq rw' = chan (length all) /\
    forall k' d', RecvWindow.reorder_buf rw' !! k' = Some d' -> assigned ps k' d').
  { destruct E as [[= -> ->]|[= -> ->]]; (split; [done|]); [done|].
    intros k' d' [[<- <-]|[_ ?]]%lookup_insert_Some; [done|by apply Hb]. }
  destruct Hv as [Hn' Hb']. unfold set_rw. wlp_step.
  destruct b; [|apply wlp_ret; by split_and!].
  pose proof (drain_prefix ps (stdpp.base.size (RecvWindow.reorder_buf rw')) (length all) _ Hr Hla Hb') as Hd.
  unfold RecvWindow.drain_ordered. rewrite Hn'. destruct (RecvWindow.drain_loop _ _ _) as [[ds next'] buf'].
  destruct Hd as (Hds & -> & Hsub). wlp_step. apply wlp_bind. eapply wlp_mono; [apply heard_push_all|]. intros [] c2 H2.
  eapply wlp_mono; [by apply (hears_owe_ack (heard c2))|]. intros [] c3 ->. rewrite H2.
  change (takes ps got (Some (chan (length all + length ds), buf'), data_of (pending_events c) ++ ds)).
  unfold takes. cbn [fst snd]. rewrite (app_assoc got). fold all.
  split; [by apply drop_prefix|]. rewrite length_app. split; [done|].
  intros k' d' Hk'. apply Hb'. by eapply lookup_weaken.
Qed.

Lemma rcursor_heard c c' : heard c' = heard c -> rcursor c' = rcursor c.
Proof.
  unfold heard, rcursor. intros [= H _]. destruct (recv_window c), (recv_window c'); try done. by injection H.
Qed.

Lemma hears_opt {A} h (f : A -> C unit) (o : option A) c :
  heard c = h -> (forall x, wlp (f x) (fun _ c' => heard c' = h) c) -> wlp (opt_m f o) (fun _ c' => heard c' = h) c.
Proof. intros H Hf. destruct o; [apply Hf|by apply wlp_ret]. Qed.

(** A datagram the sender emitted. *)
Definition genuine (ps : list (list Z)) (bytes : list Z) (f : option SendWindow.Flight) : Prop :=
  carries f bytes /\ forall f', f = Some f' -> assigned ps (SendWindow.f_chan f') (SendWindow.f_data f').

Lemma receiver_handle_v2 ps got c bytes f now :
  receiver ps got c -> roomy ps -> genuine ps bytes f -> fresh f c ->
  wlp (handle_v2_packet bytes now) (fun _ => receiver ps got) c.
Proof.
  intros Hc Hr [Hw Hf] Hfr. unfold handle_v2_packet.
  assert (Hpk : inert bytes \/ exists p, V2Packet_wf p /\ bytes = datagram_of p /\
    (p_data_body p = None \/ exists f', f = Some f' /\
      p_data_body p = Some (mkDataBody (truncate_seq (SendWindow.f_chan f')) (SendWindow.f_data f')))).
  { destruct f as [f|]; cbn in Hw.
    - destruct Hw as (p & ? & ? & _ & ?). right. exists p. split_and!; [done|done|]. right. eauto.
    - destruct Hw as [Hh|(p & ? & ? & ?)]; [left; by apply handshake_inert|right; eauto]. }
  destruct Hpk as [Hi|(p & Hwf & -> & Hbody)].
  { apply wlp_bind, wlp_try_eq; [|by intros; apply wlp_ret]. intros [prefix pb] E.
    apply wlp_bind, wlp_try_eq; [|by intros; apply wlp_ret]. intros p Ep. by destruct (Hi _ _ p E). }
  destruct (datagram_decodes p Hwf) as (prefix & -> & Hnd & Hdec).
  unfold try_m. wlp_step. cbv iota. rewrite Hdec. wlp_step. cbv iota.
  set (h := heard c) in *.
  apply wlp_bind, (wlp_mono _ (fun _ c' => heard c' = h)); [wlp_step; by destruct (send_window c)|]. intros [] c1 H1.
  apply wlp_bind, (wlp_mono _ (fun _ c' => heard c' = h));
    [apply hears_opt; [done|]; intros; by apply hears_process_ack|]. intros [] c2 H2.
  apply wlp_bind, (wlp_mono _ (fun _ c' => heard c' = h));
    [apply hears_opt; [done|]; intros; by apply hears_process_ack_vector|]. intros [] c3 H3.
  apply wlp_bind, (wlp_mono _ (fun _ c' => heard c' = h));
    [apply hears_opt; [done|]; intros; by apply hears_process_aoa|]. intros [] c4 H4.
  assert (Hc4 : receiver ps got c4) by (by rewrite H4).
  apply wlp_bind, (wlp_mono _ (fun _ => receiver ps got)); [|intros [] c5 H5; by apply wlp_ret].
  destruct (p_data_header p) as [dh|]; [|by apply wlp_ret]. destruct Hbody as [->|(f' & -> & ->)]; [by apply wlp_ret|].
  rewrite Hnd. apply receiver_process_data; [done|done|by apply Hf|]. cbn in Hfr. by rewrite (rcursor_heard c c4).
Qed.

(** Establishing opens the window at the start of the channel. *)
Lemma heard_established p now c : heard (established p now c) = (Some (1, ∅), (heard c).2).
Proof.
  unfold established, heard. cbv zeta. destruct (decide _); cbn; by rewrite data_of_app, app_nil_r.
Qed.

Lemma receiver_established ps got p now c :
  receiver ps got c -> recv_window c = None -> receiver ps got (established p now c).
Proof.
  intros [Hp Hw] E. cbn beta. rewrite heard_established. unfold heard in Hw at 1. rewrite E in Hw. cbn [fst fmap option_fmap option_map] in Hw.
  split; [done|]. cbn [fst snd]. rewrite Hw. split; [done|]. intros k d H. by rewrite lookup_empty in H.
Qed.

Lemma hears_enqueue_final h c isn : heard c = h ->
  wlp (enqueue_final_ack isn) (fun _ c' => heard c' = h /\ recv_window c' = recv_window c /\ params c' = params c) c.
Proof.
  intros H. unfold enqueue_final_ack. wlp_step. apply wlp_bind. unfold enqueue_handshake. apply wlp_bind, wlp_try. intros [e|bs].
  - apply wlp_bind. pose proof (hears_close h c H) as Hc. unfold wlp in *. rewrite close_eq in *. by destruct (decide _).
  - by do 5 wlp_step.
Qed.

Lemma receiver_transition ps got c now :
  receiver ps got c -> recv_window c = None ->
  wlp (transition_to_established now) (fun _ c' => receiver ps got c' /\ rcursor c' = 1) c.
Proof.
  intros H E. unfold wlp. destruct (params c) as [p|] eqn:Ep.
  - rewrite (transition_eq p) by done. split; [by apply receiver_established|].
    unfold established, rcursor. cbv zeta. by destruct (decide _).
  - unfold transition_to_established, timer_clear. do 4 rewrite (bind_ok _ _ _ _ _ eq_refl). unfold id.
    destruct (decide _); cbn [params with_timers with_state with_handshake_datagram]; by rewrite Ep.
Qed.

Lemma sample_handshake_frame c now :
  wlp (sample_handshake_rtt now) (fun _ c' => heard c' = heard c /\ recv_window c' = recv_window c) c.
Proof. eapply wlp_mono; [apply sample_handshake_only|]. by intros [] c' [->|[r ->]]. Qed.

Lemma receiver_handle_syn_ack ps got c bytes now :
  receiver ps got c -> recv_window c = None -> wlp (handle_syn_ack bytes now) (fun _ => receiver ps got) c.
Proof.
  intros H E. unfold handle_syn_ack. apply wlp_bind, wlp_try. intros [e|d]; [by apply wlp_ret|].
  destruct (negb _); [by apply wlp_ret|]. destruct (d_syn_data d) as [sd|]; [|by apply wlp_ret].
  destruct (d_syn_data_ex d); [|by apply wlp_ret]. destruct (negb _); [by apply wlp_ret|]. do 2 wlp_step.
  apply wlp_bind. eapply wlp_mono; [apply sample_handshake_frame|]. intros [] c1 [H1 E1].
  apply wlp_bind. eapply wlp_mono; [by apply (hears_enqueue_final (heard c1))|]. intros [] c2 (H2 & E2 & _).
  apply wlp_bind. eapply wlp_mono; [apply (receiver_transition ps got)|].
  - rewrite H2, H1. exact H.
  - rewrite E2, E1. exact E.
  - intros [] c3 [H3 _]. by apply wlp_ret.
Qed.

Lemma receiver_handle_final_ack ps got c bytes now :
  receiver ps got c -> recv_window c = None ->
  wlp (handle_final_ack bytes now) (fun b c' => receiver ps got c' /\ (b = false -> c' = c)) c.
Proof.
  intros H E. unfold handle_final_ack. apply wlp_bind, wlp_try. intros [e|d]; [by apply wlp_ret|].
  destruct (contains _ _).
  - apply wlp_bind. eapply wlp_mono; [by apply (hears_resend (heard c))|]. intros [] c1 H1. apply wlp_ret.
    split; [rewrite H1; exact H|done].
  - destruct (negb _); [by apply wlp_ret|].
    apply wlp_bind. eapply wlp_mono; [apply sample_handshake_frame|]. intros [] c1 [H1 E1].
    apply wlp_bind. eapply wlp_mono; [apply (receiver_transition ps got); [rewrite H1; exact H|congruence]|].
    intros [] c2 [H2 _]. by apply wlp_ret.
Qed.

Lemma receiver_handle_datagram ps got N c bytes f now :
  cinv N c -> receiver ps got c -> roomy ps -> genuine ps bytes f -> fresh f c -> bytes_ok bytes ->
  wlp (handle_datagram bytes now) (fun _ => receiver ps got) c.
Proof.
  intros Hc H Hr Hg Hf Hb. unfold handle_datagram, bump. do 2 wlp_step. set (c1 := with_stats _ c).
  assert (Hc1 : cinv N c1) by by apply cinv_stats. change (state c1) with (state c).
  destruct (state c) eqn:Es; unfold timer_set; [wlp_step..|by apply wlp_ret];
    (set (c2 := with_timers _ c1);
     assert (Hc2 : cinv N c2) by (apply cinv_set; [done|change (state c <> Closed); congruence])).
  - destruct (ci_pre _ _ Hc2 (or_introl Es)) as [(_ & Hrw & _) _]. by apply receiver_handle_syn_ack.
  - destruct (ci_pre _ _ Hc2 (or_intror Es)) as [(_ & Hrw & _) _].
    apply wlp_bind. eapply wlp_mono; [by apply (receiver_handle_final_ack ps got)|]. intros b c3 [H3 H4].
    destruct b; [by apply wlp_ret|]. rewrite (H4 eq_refl). apply wlp_bind.
    eapply wlp_mono; [by apply (receiver_transition ps got)|]. intros [] c4 [H5 H6].
    eapply receiver_handle_v2; [done|done|done|]. unfold fresh in *. destruct f; [|done]. rewrite H6.
    unfold rcursor in Hf. change (recv_window c2) with (recv_window c) in Hrw. by rewrite Hrw in Hf.
  - apply wlp_bind. eapply wlp_mono; [apply wp_wlp, (wp_is_repeated N c2 bytes Hc2 Hb)|]. intros b c3 ->. destruct b.
    + apply wlp_bind. eapply wlp_mono; [by apply (hears_resend (heard c2))|]. intros [] c3 H3. apply wlp_ret.
      rewrite H3. exact H.
    + by eapply receiver_handle_v2.
Qed.

End receiving.

(** ** Two connections and a network *)

(** [w_log] is everything the sender has put on the wire, with the packet it
    carries; [w_taken] the bytes [send] has accepted; [w_got] the payloads the
    receiver's application has polled. *)
Record world := mkWorld {
  w_a : RdpeudpConnection;
  w_b : RdpeudpConnection;
  w_log : list (list Z * option SendWindow.Flight);
  w_taken : list Z;
  w_got : list (list Z);
}.

Definition log_of (c : RdpeudpConnection) (r : reply) (c' : RdpeudpConnection)
    : list (list Z * option SendWindow.Flight) :=
  match r with Transmitted (Some t) => [(contents t, sent_flight c c')] | _ => [] end.
Definition taken_of (k : call) (r : reply) : list Z :=
  match k, r with Send data, Accepted (inr _) => data | _, _ => [] end.
Definition got_of (r : reply) : list (list Z) :=
  match r with Polled (Some (DataReceived d)) => [d] | _ => [] end.
Definition is_datagram (k : call) : bool :=
  match k with HandleDatagram _ _ => true | _ => false end.

Section world.
Context {BF : Bitflags}.

(** The sender's side is called in any way at all, with datagrams from
    anywhere.  The receiver's side is called in any way, except that its
    datagrams are the sender's: lost, repeated, reordered and delayed as the
    network likes, as long as the ChannelSeqNum of a data packet is less than
    half the 16-bit range away from the delivery cursor. *)
Inductive wstep (s : world) : world -> Prop :=
| w_sender k r a' :
    call_ok k -> perform k (w_a s) = Ok (r, a') ->
    wstep s (mkWorld a' (w_b s) (w_log s ++ log_of (w_a s) r a') (w_taken s ++ taken_of k r) (w_got s))
| w_receiver k r b' :
    call_ok k -> is_datagram k = false -> perform k (w_b s) = Ok (r, b') ->
    wstep s (mkWorld (w_a s) b' (w_log s) (w_taken s) (w_got s ++ got_of r))
| w_network bytes f now r b' :
    (bytes, f) ∈ w_log s -> fresh f (w_b s) -> call_ok (HandleDatagram bytes now) ->
    perform (HandleDatagram bytes now) (w_b s) = Ok (r, b') ->
    wstep s (mkWorld (w_a s) b' (w_log s) (w_taken s) (w_got s)).

(** From two connections that have just been created. *)
Inductive wreach : nat -> world -> Prop :=
| wr_start a b : reachable 0 a -> reachable 0 b -> wreach 0 (mkWorld a b [] [] [])
| wr_step n s s' : wreach n s -> wstep s s' -> wreach (S n) s'.

Record winv (n : nat) (s : world) : Prop := {
  wi_a : exists m, (m <= n)%nat /\ reachable m (w_a s);
  wi_b : exists m, (m <= n)%nat /\ reachable m (w_b s);
  wi_channel : exists ps, (length ps <= n)%nat /\ next_chan (w_a s) = chan (length ps) /\
    Forall (fun kd => assigned ps kd.1 kd.2) (outstanding (w_a s)) /\
    Forall (fun bf => genuine ps bf.1 bf.2) (w_log s) /\
    receiver ps (w_got s) (w_b s) /\
    concat ps ++ concat (send_buffer (w_a s)) = w_taken s;
}.

Lemma genuine_mono ps ps' bytes f : ps `prefix_of` ps' -> genuine ps bytes f -> genuine ps' bytes f.
Proof. intros Hp [H1 H2]. split; [done|]. intros f' Hf. by eapply assigned_mono, H2. Qed.

Lemma roomy_calls ps n : (length ps <= n)%nat -> Z.of_nat n < CALLS -> roomy ps.
Proof. intros H Hn. unfold roomy. by destruct (chan_bound (length ps) n H Hn). Qed.

Lemma Forall_sub {A} (P : A -> Prop) (l k : list A) : l ⊆+ k -> Forall P k -> Forall P l.
Proof. rewrite !Forall_forall. intros Hs H x Hx. apply H. by eapply elem_of_submseteq. Qed.

Lemma bind_ret_inv {A B} (m : C A) (g : A -> B) c r c' :
  (m ≫= fun a => mret (g a)) c = Ok (r, c') -> exists a, m c = Ok (a, c') /\ r = g a.
Proof. unfold mbind, M_bind. destruct (m c) as [[a c1]| |]; intros [= <- <-]. by exists a. Qed.

(** What a call of the sender does to the channel. *)
Definition channel_step (ps : list (list Z)) c k r c' : Prop :=
  exists ps', ps `prefix_of` ps' /\ (length ps' <= S (length ps))%nat /\ next_chan c' = chan (length ps') /\
    Forall (fun kd => assigned ps' kd.1 kd.2) (outstanding c') /\
    Forall (fun bf => genuine ps' bf.1 bf.2) (log_of c r c') /\
    concat ps' ++ concat (send_buffer c') = concat ps ++ concat (send_buffer c) ++ taken_of k r.

Abbreviation acked := (shifts submseteq).

Lemma channel_quiet ps c k r c' :
  next_chan c = chan (length ps) -> Forall (fun kd => assigned ps kd.1 kd.2) (outstanding c) ->
  acked c c' -> log_of c r c' = [] -> taken_of k r = [] -> channel_step ps c k r c'.
Proof.
  intros Hn Ho [_ Hb Hc Hs] Hl Ht. exists ps. rewrite Hl, Ht, Hb, app_nil_r.
  split_and!; [done|lia|congruence| |constructor|done]. by eapply Forall_sub.
Qed.

Lemma channel_poll ps c k r c' :
  next_chan c = chan (length ps) -> roomy ps -> Forall (fun kd => assigned ps kd.1 kd.2) (outstanding c) ->
  emits c r c' -> (forall d, k <> Send d) -> channel_step ps c k (Transmitted r) c'.
Proof.
  intros Hn Hr Ho [_ Hb Hw Hf] Hk.
  assert (Ht : taken_of k (Transmitted r) = []) by by destruct k.
  enough (exists ps', ps `prefix_of` ps' /\ (length ps' <= S (length ps))%nat /\ next_chan c' = chan (length ps') /\
    Forall (fun kd => assigned ps' kd.1 kd.2) (outstanding c') /\
    concat ps' ++ concat (send_buffer c') = concat ps ++ concat (send_buffer c)) as (ps' & H1 & H2 & H3 & H4 & H5).
  { exists ps'. rewrite Ht, app_nil_r. split_and!; try done. destruct r as [t|]; [|constructor].
    constructor; [|constructor]. split; [by apply Hw|]. intros f Ef. specialize (Hf f Ef).
    rewrite Forall_forall in H4. exact (H4 _ Hf). }
  destruct Hb as [[_ Hb Hc Hs]|(d & Hd & Hc & Hs)].
  - exists ps. rewrite Hb. split_and!; [done|lia|congruence|by rewrite Hs|done].
  - exists (ps ++ [d]). rewrite length_app. cbn [length]. rewrite Hd, concat_app.
    split_and!; [by apply prefix_app_r|lia| | |cbn; by rewrite app_nil_r, <- app_assoc].
    + rewrite Hc, Hn, next_channel_seq_chan by done. f_equal. lia.
    + rewrite Hs. constructor.
      * exists (length ps). split; [done|]. cbn. by rewrite lookup_app_r, Nat.sub_diag.
      * eapply Forall_impl; [exact Ho|]. intros kd. apply assigned_mono. by apply prefix_app_r.
Qed.

Lemma sender_step n ps c k r c' :
  reachable n c -> Z.of_nat n < CALLS -> call_ok k -> perform k c = Ok (r, c') ->
  next_chan c = chan (length ps) -> roomy ps -> Forall (fun kd => assigned ps kd.1 kd.2) (outstanding c) ->
  channel_step ps c k r c'.
Proof.
  intros Hr HN Hk Hp Hn Hro Ho. destruct (reachable_tidy _ _ Hr HN) as [Ht _].
  pose proof (reachable_inv _ _ Hr HN) as Hc. pose proof (budget_room _ HN) as HB.
  assert (Hlo : 0 <= next_chan c) by (rewrite Hn; apply (chan_u64 ps (length ps) Hro); lia).
  assert (Hhi : next_chan c + 2 < 2 ^ 64) by (rewrite Hn; done).
  pose proof (wlp_perform_tidy _ c k Hc Ht Hk HB Hlo Hhi) as H. unfold wlp in H. rewrite Hp in H. destruct H as [_ He].
  destruct k as [bytes now|now|now|data| |]; cbn [perform call_effect] in *; apply bind_ret_inv in Hp as (a & Hp & ->).
  - destruct He as [He _]. by apply channel_quiet.
  - pose proof (emits_poll_transmit _ c now Hc Ht Hk HB Hlo Hhi) as H. unfold wlp in H. rewrite Hp in H.
    by apply channel_poll.
  - apply channel_quiet; [done|done|by apply moved_acked|done|done].
  - destruct He as (Ho' & Hn' & Hb'). exists ps. rewrite Ho', Hn', Hb'.
    split_and!; [done|lia|done|done|constructor|by destruct a].
  - apply channel_quiet; [done|done|by apply moved_acked|done|done].
  - apply channel_quiet; [done|done|by apply moved_acked|done|done].
Qed.

(** A call of the receiver other than a datagram only moves payloads from its
    events to the application. *)
Lemma receiver_step ps got c k r c' :
  receiver ps got c -> is_datagram k = false -> perform k c = Ok (r, c') -> receiver ps (got ++ got_of r) c'.
Proof.
  intros H Hk Hp.
  assert (Hq : got_of r = [] -> heard c' = heard c -> receiver ps (got ++ got_of r) c')
    by (intros -> E; rewrite app_nil_r, E; exact H).
  assert (Hw : forall A (m : C A) x, m c = Ok (x, c') -> wlp m (fun _ c' => heard c' = heard c) c -> heard c' = heard c)
    by (intros A m x E Hw; unfold wlp in Hw; by rewrite E in Hw).
  destruct k as [|now|now|data| |]; cbn [perform is_datagram] in *; [done|..]; apply bind_ret_inv in Hp as (a & Hp & ->).
  - apply Hq; [done|]. by eapply Hw; [|apply hears_poll_transmit].
  - apply Hq; [done|]. by eapply Hw; [|apply hears_handle_timeout].
  - apply Hq; [done|]. by eapply Hw; [|apply hears_send].
  - unfold poll_event in Hp. rewrite (bind_ok _ _ _ _ _ eq_refl) in Hp. unfold id in Hp.
    destruct (pending_events c) as [|e es] eqn:Ee; [injection Hp as <- <-; by apply Hq|].
    rewrite (bind_ok _ _ _ _ _ eq_refl) in Hp. injection Hp as <- <-.
    destruct e as [|d|]; [by apply Hq; [|unfold heard; rewrite Ee]| |by apply Hq; [|unfold heard; rewrite Ee]].
    unfold takes, heard in H |- *. rewrite Ee in H. cbn in *. by rewrite <- app_assoc.
  - apply Hq; [done|]. by eapply Hw; [|apply hears_close].
Qed.

Lemma winv_step n s s' : Z.of_nat n < CALLS -> winv n s -> wstep s s' -> winv (S n) s'.
Proof.
  intros HN [(ma & Hma & Ha) (mb & Hmb & Hb) (ps & Hlen & Hn & Ho & Hl & Hrc & Hcat)] Hs.
  pose proof (roomy_calls _ _ Hlen HN) as Hro. assert (Z.of_nat ma < CALLS /\ Z.of_nat mb < CALLS) as [HA HB] by lia.
  destruct Hs as [k r a' Hk Hp|k r b' Hk Hd Hp|bytes f now r b' Hin Hf Hk Hp]; constructor; cbn [w_a w_b w_log w_taken w_got].
  - exists (S ma). split; [lia|by econstructor].
  - exists mb. split; [lia|done].
  - destruct (sender_step ma ps _ k r a' Ha HA Hk Hp Hn Hro Ho) as (ps' & H1 & H2 & H3 & H4 & H5 & H6).
    exists ps'. split_and!; [lia|done|done| |by eapply takes_mono|by rewrite H6, app_assoc, Hcat].
    apply Forall_app. split; [|done]. eapply Forall_impl; [exact Hl|]. intros bf. by apply genuine_mono.
  - exists ma. split; [lia|done].
  - exists (S mb). split; [lia|by econstructor].
  - exists ps. split_and!; [lia|done..|by eapply receiver_step|done].
  - exists ma. split; [lia|done].
  - exists (S mb). split; [lia|by econstructor].
  - exists ps. split_and!; [lia|done..| |done].
    rewrite Forall_forall in Hl. specialize (Hl _ Hin). cbn in Hp. apply bind_ret_inv in Hp as (x & Hp & ->).
    pose proof (receiver_handle_datagram ps (w_got s) _ (w_b s) bytes f now (reachable_inv _ _ Hb HB) Hrc Hro Hl Hf (proj1 Hk)) as H.
    unfold wlp in H. by rewrite Hp in H.
Qed.

(** A connection starts with nothing to send or to deliver. *)
Lemma reachable_zero c : reachable 0 c -> windows_empty c /\ pending_events c = [] /\ next_chan c = 1.
Proof.
  intros Hr. inversion Hr as [cfg now c0 Hcfg Hn Hc|cfg wire d now c0 Hcfg Hn Hb Hd Ha|]; subst c0.
  - by apply connect_start in Hc as [_ ->].
  - apply (decode_wf (C := V1Datagram_Codec)) in Hd; [|done]. pose proof (accept_spec cfg d now Hcfg Hd) as H'.
    rewrite Ha in H'. by destruct H' as (sd & sx & _ & _ & _ & _ & _ & _ & ->).
Qed.

Lemma winv_start a b : reachable 0 a -> reachable 0 b -> winv 0 (mkWorld a b [] [] []).
Proof.
  intros Ha Hb. destruct (reachable_zero a Ha) as ((Hw & _ & Hsb & Hrl) & _ & Hc).
  destruct (reachable_zero b Hb) as ((_ & Hrw & _) & Hev & _).
  constructor; cbn [w_a w_b w_log w_taken w_got]; [by exists 0%nat|by exists 0%nat|]. exists [].
  unfold outstanding, flights, heard. rewrite Hsb, Hw, Hrl, Hrw, Hev.
  split_and!; [done|done|constructor|constructor|done|done].
Qed.

Lemma wreach_inv n s : wreach n s -> Z.of_nat n <= CALLS -> winv n s.
Proof.
  induction 1 as [a b Ha Hb|n s s' Hr IH Hs]; intros HN; [by apply winv_start|].
  apply (winv_step n s); [lia|apply IH; lia|done].
Qed.

(** C3: stream integrity, end to end: over fewer than 2^45 steps of a sender
    and a receiver, each called in any order, with any clock, and connected by
    a network that loses, repeats, reorders and delays datagrams, as long as
    none arrives so late that its ChannelSeqNum is 2^15 or more away from where
    the receiver's delivery stands, and with whatever bytes are injected towards
    the sender, the bytes the receiver's
    application has polled are at every moment a prefix of the bytes the
    sender's application has handed to [send]. *)
Theorem stream_integrity n s :
  wreach n s -> Z.of_nat n <= CALLS -> concat (w_got s) `prefix_of` w_taken s.
Proof.
  intros Hr HN. destruct (wreach_inv _ _ Hr HN) as [_ _ (ps & _ & _ & _ & _ & [Hp _] & <-)].
  apply (prefix_app_r _ _ (concat (send_buffer (w_a s)))). destruct Hp as [z ->]. rewrite !concat_app, <- app_assoc.
  by apply prefix_app_r.
Qed.

End world.

(** ** Executing a world *)

Definition u64b (x : Z) : bool := (0 <=? x) && (x <? 2 ^ 64).
Definition bytesb (bs : list Z) : bool := forallb (fun b => (0 <=? b) && (b <? 256)) bs.
Definition call_okb (k : call) : bool :=
  match k with
  | HandleDatagram bytes now => bytesb bytes && u64b now
  | PollTransmit now => u64b now
  | HandleTimeout now => u64b now
  | Send data => bytesb data
  | PollEvent => true
  | Close => true
  end.
Definition freshb (f : option SendWindow.Flight) (c : RdpeudpConnection) : bool :=
  match f with Some f => Z.abs (SendWindow.f_chan f - rcursor c) <? 2 ^ 15 | None => true end.

Lemma u64b_sound x : u64b x = true -> is_u64 x.
Proof. unfold u64b. rewrite andb_true_iff, Z.leb_le, Z.ltb_lt. done. Qed.
Lemma bytesb_sound bs : bytesb bs = true -> bytes_ok bs.
Proof.
  unfold bytesb. rewrite forallb_forall. intros H. apply Forall_forall. intros b Hb.
  apply list_elem_of_In in Hb. specialize (H b Hb). rewrite andb_true_iff, Z.leb_le, Z.ltb_lt in H. done.
Qed.
Lemma call_okb_sound k : call_okb k = true -> call_ok k.
Proof.
  destruct k; cbn; rewrite ?andb_true_iff; try done; [intros [? ?]; split| | |]; auto using u64b_sound, bytesb_sound.
Qed.

Inductive command := ToSender (k : call) | ToReceiver (k : call) | Arrives (i : nat) (now : Z).

Section run.
Context {BF : Bitflags}.

Definition wexec (s : world) (cmd : command) : option world :=
  match cmd with
  | ToSender k =>
      if call_okb k then
        match perform k (w_a s) with
        | Ok (r, a') => Some (mkWorld a' (w_b s) (w_log s ++ log_of (w_a s) r a') (w_taken s ++ taken_of k r) (w_got s))
        | _ => None
        end
      else None
  | ToReceiver k =>
      if call_okb k && negb (is_datagram k) then
        match perform k (w_b s) with
        | Ok (r, b') => Some (mkWorld (w_a s) b' (w_log s) (w_taken s) (w_got s ++ got_of r))
        | _ => None
        end
      else None
  | Arrives i now =>
      '(bytes, f) ← w_log s !! i;
      if freshb f (w_b s) && call_okb (HandleDatagram bytes now) then
        match perform (HandleDatagram bytes now) (w_b s) with
        | Ok (r, b') => Some (mkWorld (w_a s) b' (w_log s) (w_taken s) (w_got s))
        | _ => None
        end
      else None
  end.

Fixpoint wrun (s : world) (cmds : list command) : option world :=
  match cmds with [] => Some s | cmd :: cmds' => s' ← wexec s cmd; wrun s' cmds' end.

Lemma wexec_sound s cmd s' : wexec s cmd = Some s' -> wstep s s'.
Proof.
  destruct cmd as [k|k|i now]; cbn [wexec].
  - destruct (call_okb k) eqn:Ek; [|done]. apply call_okb_sound in Ek.
    destruct (perform k (w_a s)) as [[r a']| |] eqn:Ep; [|done..]. intros [= <-]. by apply w_sender.
  - destruct (call_okb k) eqn:Ek; [|done]. apply call_okb_sound in Ek. destruct (is_datagram k) eqn:Ed; [done|]. cbn [negb andb].
    destruct (perform k (w_b s)) as [[r b']| |] eqn:Ep; [|done..]. intros [= <-]. by eapply w_receiver.
  - destruct (w_log s !! i) as [[bytes f]|] eqn:Ei; [|done]. cbn [mbind option_bind].
    destruct (freshb f (w_b s)) eqn:Ef; [|done]. destruct (call_okb (HandleDatagram bytes now)) eqn:Ek; [|done].
    apply call_okb_sound in Ek. cbn [andb]. destruct (perform _ (w_b s)) as [[r b']| |] eqn:Ep; [|done..]. intros [= <-].
    eapply (w_network s bytes f now); [by eapply list_elem_of_lookup_2| |done|done].
    unfold freshb, fresh in *. destruct f; [by apply Z.ltb_lt|done].
Qed.

Lemma wrun_sound cmds n s s' : wreach n s -> wrun s cmds = Some s' -> wreach (n + length cmds) s'.
Proof.
  revert n s. induction cmds as [|cmd cmds IH]; intros n s Hr; cbn [wrun length].
  { intros [= <-]. by rewrite Nat.add_0_r. }
  destruct (wexec s cmd) as [s1|] eqn:E; [|done]. cbn [mbind option_bind]. intros H.
  rewrite Nat.add_succ_r. apply (IH (S n) s1); [|done]. econstructor; [done|]. by eapply wexec_sound.
Qed.

End run.

(** A client sends two payloads; the second overtakes the first and the
    handshake's last datagram, the SYN comes back late and the first payload
    arrives twice. *)
Definition sample_sender : RdpeudpConnection := @client_start bits_flags sample_cfg 100.
Definition sample_syn : SynDataPayload := mkSynDataPayload 7 1232 1232.
Definition sample_receiver : RdpeudpConnection := @server_start bits_flags sample_cfg sample_syn 110.

Definition sample_syn_ack : list Z :=
  match @encode_vec _ (@V1Datagram_Encode bits_flags) (@syn_ack_datagram_of bits_flags sample_cfg 7 1232 1232) with
  | Ok bytes => bytes
  | _ => []
  end.

Definition sample_script : list command :=
  [ToSender (HandleDatagram sample_syn_ack 120); ToSender (Send [1; 2; 3]); ToSender (PollTransmit 121);
   ToSender (PollTransmit 122); ToSender (PollTransmit 123); ToSender (Send [4; 5]);
   ToSender (PollTransmit 124); Arrives 3 130; Arrives 0 131; Arrives 2 132; Arrives 2 133; Arrives 1 134;
   ToReceiver PollEvent; ToReceiver PollEvent; ToReceiver PollEvent; ToReceiver (PollTransmit 140)].

Lemma sample_receiver_reachable : @reachable bits_flags 0 sample_receiver.
Proof.
  apply (@reach_accept bits_flags sample_cfg (@wire _ _ _ (@V1Datagram_Codec bits_flags) (@syn_datagram_of bits_flags sample_cfg))
    (@syn_datagram_of bits_flags sample_cfg) 110).
  - apply sample_cfg_ok.
  - done.
  - apply bytesb_sound. vm_compute. reflexivity.
  - vm_compute. reflexivity.
  - vm_compute. reflexivity.
Qed.

Definition sample_world : world := mkWorld sample_sender sample_receiver [] [] [].

Lemma sample_world_reach : @wreach bits_flags 0 sample_world.
Proof. apply wr_start; [exact sample_reachable|exact sample_receiver_reachable]. Qed.

Lemma stream_integrity_witness :
  exists s, @wrun bits_flags sample_world sample_script = Some s /\
    concat (w_got s) `prefix_of` w_taken s /\ w_got s = [[1; 2; 3]; [4; 5]] /\ w_taken s = [1; 2; 3; 4; 5].
Proof.
  destruct (@wrun bits_flags sample_world sample_script) as [s|] eqn:E.
  2: { vm_compute in E. discriminate. }
  exists s. split; [reflexivity|].
  pose proof (@wrun_sound bits_flags sample_script 0 sample_world s sample_world_reach E) as Hr.
  split; [exact (@stream_integrity bits_flags _ s Hr ltac:(vm_compute; congruence))|].
  assert (Hv : (fun s => (w_got s, w_taken s)) <$> @wrun bits_flags sample_world sample_script
    = Some ([[1; 2; 3]; [4; 5]], [1; 2; 3; 4; 5])) by (vm_compute; reflexivity).
  rewrite E in Hv. cbn [fmap option_fmap option_map] in Hv. injection Hv as H1 H2. exact (conj H1 H2).
Defined.
