(* ===== verification/Mutation.v ===== *)
(** Code that changes a state through [&mut] references and returns a
    [Result]: what it did before an error stays done.  [None] is a panic, and
    so is a loop that outlives its fuel: a proof that the code does not panic
    is also a proof that its loops end. *)

From S2P Require Import Prelude.

Definition Mut (S E A : Type) : Type := S -> option ((E + A) * S).

#[export] Instance Mut_ret {S E} : MRet (Mut S E) := fun A a s => Some (inr a, s).
#[export] Instance Mut_bind {S E} : MBind (Mut S E) := fun A B f m s =>
  match m s with
  | Some (inr a, s') => f a s'
  | Some (inl e, s') => Some (inl e, s')
  | None => None
  end.

Section mut.
Context {S E : Type}.

Definition throw {A} (e : E) : Mut S E A := fun s => Some (inl e, s).
Definition boom {A} : Mut S E A := fun _ => None.
Definition access {A} (f : S -> A) : Mut S E A := fun s => Some (inr (f s), s).
Definition update (f : S -> S) : Mut S E unit := fun s => Some (inr tt, f s).

(** [o.ok_or(e)?] *)
Definition ok_or {A} (e : E) (o : option A) : Mut S E A :=
  match o with Some a => mret a | None => throw e end.
(** [o.expect(..)], and an index that must be in range *)
Definition expect {A} (o : option A) : Mut S E A :=
  match o with Some a => mret a | None => boom end.
(** [r?] with the error mapped by [f], the implicit [From] conversion *)
Definition question {F A} (f : F -> E) (r : outcome F A) : Mut S E A :=
  match r with Ok a => mret a | Err e => throw (f e) | Panic => boom end.

(** [for x in xs { f(x)?; }] *)
Fixpoint each {A} (f : A -> Mut S E unit) (xs : list A) : Mut S E unit :=
  match xs with
  | [] => mret tt
  | x :: xs' => _ ← f x; each f xs'
  end.

(** ** Weakest preconditions *)

Definition wpm {A} (m : Mut S E A) (Q : E + A -> S -> Prop) (s : S) : Prop :=
  match m s with Some (r, s') => Q r s' | None => False end.

Context {A B : Type}.

Lemma wpm_ret (a : A) Q s : Q (inr a) s -> wpm (mret a) Q s.
Proof. done. Qed.

Lemma wpm_throw e (Q : E + A -> S -> Prop) s : Q (inl e) s -> wpm (throw e) Q s.
Proof. done. Qed.

Lemma wpm_bind (m : Mut S E A) (k : A -> Mut S E B) Q s :
  wpm m (fun r s' => match r with inr a => wpm (k a) Q s' | inl e => Q (inl e) s' end) s ->
  wpm (m ≫= k) Q s.
Proof. unfold wpm, mbind, Mut_bind. by destruct (m s) as [[[]]|]. Qed.

Lemma wpm_mono (m : Mut S E A) (P Q : E + A -> S -> Prop) s :
  wpm m P s -> (forall r s', P r s' -> Q r s') -> wpm m Q s.
Proof. unfold wpm. destruct (m s) as [[r s']|]; auto. Qed.

Lemma wpm_access {C} (f : S -> C) (k : C -> Mut S E B) Q s :
  wpm (k (f s)) Q s -> wpm (access f ≫= k) Q s.
Proof. done. Qed.

Lemma wpm_update (f : S -> S) (k : unit -> Mut S E B) Q s :
  wpm (k tt) Q (f s) -> wpm (update f ≫= k) Q s.
Proof. done. Qed.

Lemma wpm_ok_or e (o : option A) (Q : E + A -> S -> Prop) s :
  (forall a, o = Some a -> Q (inr a) s) -> (o = None -> Q (inl e) s) -> wpm (ok_or e o) Q s.
Proof. destruct o; cbn; auto. Qed.

Lemma wpm_expect (o : option A) a (Q : E + A -> S -> Prop) s :
  o = Some a -> Q (inr a) s -> wpm (expect o) Q s.
Proof. by intros ->. Qed.

Lemma wpm_question {F} (f : F -> E) (r : outcome F A) a (Q : E + A -> S -> Prop) s :
  r = Ok a -> Q (inr a) s -> wpm (question f r) Q s.
Proof. by intros ->. Qed.

(** A judgement about what holds when the code returns [a]. *)
Lemma wpm_inv (m : Mut S E A) Q s r s' : wpm m Q s -> m s = Some (r, s') -> Q r s'.
Proof. unfold wpm. intros H Hm. by rewrite Hm in H. Qed.

Lemma wpm_run (m : Mut S E A) Q s : wpm m Q s -> exists r s', m s = Some (r, s') /\ Q r s'.
Proof. unfold wpm. destruct (m s) as [[r s']|]; [eauto|done]. Qed.

Lemma mut_bind_ok (m : Mut S E A) (k : A -> Mut S E B) s s' a :
  m s = Some (inr a, s') -> (m ≫= k) s = k a s'.
Proof. unfold mbind, Mut_bind. by intros ->. Qed.

End mut.
