(* ===== verification/Crates.v ===== *)
(** The third-party crates ZGFX is written with, as parameters: bitvec's bit
    slices, byteorder's integer reads and writes, bit_field's bit ranges.  Each
    class has the operations the code calls with their documented meaning as
    laws, and an instance that has them. *)

From S2P Require Import Prelude Codec Cursor.

(** ** Bits and bytes *)

(** The bits of a byte, most significant first ([Msb0]). *)
Definition byte_bits (b : Z) : list bool := Z.testbit b <$> [7; 6; 5; 4; 3; 2; 1; 0].

(** The number a sequence of bits spells, most significant first. *)
Definition bits_value (l : list bool) : Z := foldl (fun a (b : bool) => 2 * a + Z.b2z b) 0 l.

(** The bytes a sequence of whole bytes of bits spells. *)
Fixpoint pack_bits (n : nat) (l : list bool) : list Z :=
  match n with
  | O => []
  | S n' => bits_value (take 8 l) :: pack_bits n' (drop 8 l)
  end.

(** ** bitvec *)

Class Bitvec := {
  (** [BitSlice<u8, Msb0>] *)
  BitSlice : Type;
  (** its bits in order *)
  view : BitSlice -> list bool;
  (** where in its first byte it starts *)
  head : BitSlice -> Z;
  (** [BitSlice::from_slice(bytes)] *)
  from_slice : list Z -> BitSlice;
  (** [s.split_at(n)]; [None] is the panic of a split past the end *)
  split_at : BitSlice -> Z -> option (BitSlice * BitSlice);
  (** [s.leading_ones()] *)
  leading_ones : BitSlice -> Z;
  (** [s.load_be()] into an integer of [w] bits; [None] is the panic on a slice
      of no bits or of more than [w] *)
  load_be : Z -> BitSlice -> option Z;
  (** [s.to_bitvec().as_raw_slice()] *)
  raw_bytes : BitSlice -> list Z;
  view_from_slice bs : Forall is_u8 bs -> view (from_slice bs) = bs ≫= byte_bits;
  head_from_slice bs : head (from_slice bs) = 0;
  split_at_spec s n :
    split_at s n = None /\ ~ 0 <= n <= llen (view s) \/
    exists a b, split_at s n = Some (a, b) /\ 0 <= n <= llen (view s) /\
      view a = take (Z.to_nat n) (view s) /\ view b = drop (Z.to_nat n) (view s) /\
      (view a <> [] -> head a = head s) /\ (view b <> [] -> head b = (head s + n) mod 8);
  leading_ones_spec s : exists k rest,
    leading_ones s = Z.of_nat k /\ view s = replicate k true ++ rest /\ hd false rest = false;
  load_be_spec w s :
    load_be w s = if (1 <=? llen (view s)) && (llen (view s) <=? w) then Some (bits_value (view s)) else None;
  raw_bytes_spec s n :
    view s = [] \/ head s = 0 -> length (view s) = (8 * n)%nat -> raw_bytes s = pack_bits n (view s);
}.

Fixpoint ones (l : list bool) : Z :=
  match l with true :: l' => 1 + ones l' | _ => 0 end.

(** The operations exist: a slice as its bits and the place of the first. *)
Program Definition list_bitvec : Bitvec := {|
  BitSlice := (list bool * Z)%type;
  view := fst;
  head := snd;
  from_slice bs := (bs ≫= byte_bits, 0);
  split_at s n :=
    if (0 <=? n) && (n <=? llen s.1)
    then Some ((take (Z.to_nat n) s.1, s.2), (drop (Z.to_nat n) s.1, (s.2 + n) mod 8)) else None;
  leading_ones s := ones s.1;
  load_be w s := if (1 <=? llen s.1) && (llen s.1 <=? w) then Some (bits_value s.1) else None;
  raw_bytes s := pack_bits (Nat.div (length s.1) 8) s.1;
|}.
Next Obligation. done. Qed.
Next Obligation. done. Qed.
Next Obligation.
  intros [l h] n. cbn [fst snd]. zcase; cbn [andb]; [right|left; split; [done|lia]..].
  eexists _, _. split; [reflexivity|]. by split_and!.
Qed.
Next Obligation.
  intros [l h]. cbn [fst]. induction l as [|[] l IH]; cbn [ones].
  - by exists 0%nat, [].
  - destruct IH as (k & rest & Hk & -> & Hr). exists (S k), rest. rewrite Hk. split_and!; [lia|done|done].
  - by exists 0%nat, (false :: l).
Qed.
Next Obligation. done. Qed.
Next Obligation.
  intros [l h] n _ H. cbn [fst] in *. rewrite H, Nat.mul_comm. by rewrite Nat.div_mul.
Qed.

(** ** byteorder *)

Class Byteorder := {
  (** [r.read_u8()] and the like on a slice; [None] is an unexpected end *)
  bo_read_u8 : list Z -> option (Z * list Z);
  bo_read_u16_le : list Z -> option (Z * list Z);
  bo_read_u32_le : list Z -> option (Z * list Z);
  (** what [w.write_u8(n)] and the like hand to [write_all] *)
  bo_u8 : Z -> list Z;
  bo_u16_le : Z -> list Z;
  bo_u32_le : Z -> list Z;
  bo_read_u8_spec bs :
    bo_read_u8 bs = if 1 <=? llen bs then Some (from_le_bytes (take 1 bs), drop 1 bs) else None;
  bo_read_u16_le_spec bs :
    bo_read_u16_le bs = if 2 <=? llen bs then Some (from_le_bytes (take 2 bs), drop 2 bs) else None;
  bo_read_u32_le_spec bs :
    bo_read_u32_le bs = if 4 <=? llen bs then Some (from_le_bytes (take 4 bs), drop 4 bs) else None;
  bo_u8_spec n : bo_u8 n = to_le_bytes 1 n;
  bo_u16_le_spec n : bo_u16_le n = to_le_bytes 2 n;
  bo_u32_le_spec n : bo_u32_le n = to_le_bytes 4 n;
}.

Definition le_byteorder : Byteorder := {|
  bo_read_u8 bs := if 1 <=? llen bs then Some (from_le_bytes (take 1 bs), drop 1 bs) else None;
  bo_read_u16_le bs := if 2 <=? llen bs then Some (from_le_bytes (take 2 bs), drop 2 bs) else None;
  bo_read_u32_le bs := if 4 <=? llen bs then Some (from_le_bytes (take 4 bs), drop 4 bs) else None;
  bo_u8 := to_le_bytes 1;
  bo_u16_le := to_le_bytes 2;
  bo_u32_le := to_le_bytes 4;
  bo_read_u8_spec bs := eq_refl;
  bo_read_u16_le_spec bs := eq_refl;
  bo_read_u32_le_spec bs := eq_refl;
  bo_u8_spec n := eq_refl;
  bo_u16_le_spec n := eq_refl;
  bo_u32_le_spec n := eq_refl;
|}.

(** ** bit_field *)

Class BitField := {
  (** [v.get_bits(lo..hi)] *)
  get_bits : Z -> Z -> Z -> Z;
  get_bits_spec v lo hi : 0 <= lo < hi -> get_bits v lo hi = Z.shiftr v lo mod 2 ^ (hi - lo);
  (** [v.set_bits(lo..hi, x)], which panics if [x] does not fit the range *)
  set_bits : Z -> Z -> Z -> Z -> option Z;
  set_bits_spec v lo hi x : 0 <= lo < hi -> 0 <= x ->
    set_bits v lo hi x =
      if x <? 2 ^ (hi - lo) then Some (Z.lor (Z.ldiff v (Z.shiftl (Z.ones (hi - lo)) lo)) (Z.shiftl x lo)) else None;
}.

Definition shift_bit_field : BitField := {|
  get_bits v lo hi := Z.shiftr v lo mod 2 ^ (hi - lo);
  get_bits_spec v lo hi _ := eq_refl;
  set_bits v lo hi x :=
    if x <? 2 ^ (hi - lo) then Some (Z.lor (Z.ldiff v (Z.shiftl (Z.ones (hi - lo)) lo)) (Z.shiftl x lo)) else None;
  set_bits_spec v lo hi x _ _ := eq_refl;
|}.

(** Bits set above those of [v] add to it. *)
Lemma set_bits_above `{BitField} v lo hi x :
  0 <= lo < hi -> 0 <= v < 2 ^ lo -> 0 <= x < 2 ^ (hi - lo) -> set_bits v lo hi x = Some (v + x * 2 ^ lo).
Proof.
  intros Hr Hv Hx. rewrite set_bits_spec by lia. rewrite (proj2 (Z.ltb_lt _ _)) by lia. f_equal.
  assert (Hlow : forall y, Z.land v (Z.shiftl y lo) = 0).
  { intros y. apply Z.bits_inj'. intros n Hn. rewrite Z.land_spec, Z.bits_0. destruct (Z.lt_ge_cases n lo).
    - by rewrite Z.shiftl_spec_low, andb_false_r.
    - destruct (Z.eq_dec v 0) as [->|]; [by rewrite Z.bits_0|]. rewrite (Z.bits_above_log2 v n); [done|lia|].
      apply Z.log2_lt_pow2; [lia|]. apply Z.lt_le_trans with (2 ^ lo); [lia|apply Z.pow_le_mono_r; lia]. }
  assert (Hkeep : Z.ldiff v (Z.shiftl (Z.ones (hi - lo)) lo) = v).
  { apply Z.bits_inj'. intros n Hn. rewrite Z.ldiff_spec. specialize (Hlow (Z.ones (hi - lo))).
    apply (f_equal (fun z => Z.testbit z n)) in Hlow. rewrite Z.land_spec, Z.bits_0 in Hlow.
    by destruct (Z.testbit v n), (Z.testbit (Z.shiftl _ _) n). }
  rewrite Hkeep, <- Z.lxor_lor, <- Z.add_nocarry_lxor by apply Hlow. by rewrite Z.shiftl_mul_pow2 by lia.
Qed.

(** ** Bits and numbers *)

Lemma bits_value_app l k : bits_value (l ++ k) = bits_value l * 2 ^ llen k + bits_value k.
Proof.
  unfold bits_value. rewrite foldl_app. generalize (foldl (fun a (b : bool) => 2 * a + Z.b2z b) 0 l).
  induction k as [|b k IH] using rev_ind; intros a; [change (2 ^ llen (@nil bool)) with 1; cbn [foldl]; lia|].
  rewrite !foldl_app. cbn [foldl]. rewrite (IH a), llen_app.
  rewrite Z.pow_add_r by (try apply llen_nonneg). change (2 ^ llen [b]) with 2. lia.
Qed.

Lemma bits_value_range l : 0 <= bits_value l < 2 ^ llen l.
Proof.
  induction l as [|b l IH] using rev_ind; [done|]. rewrite bits_value_app, llen_app.
  rewrite Z.pow_add_r by (try apply llen_nonneg). change (2 ^ llen [b]) with 2.
  change (bits_value [b]) with (2 * 0 + Z.b2z b). destruct b; cbn [Z.b2z]; lia.
Qed.

Lemma length_byte_bits b : length (byte_bits b) = 8%nat.
Proof. done. Qed.

Lemma byte_bits_value b : is_u8 b -> bits_value (byte_bits b) = b.
Proof.
  intros Hb. apply Z.eqb_eq.
  by apply (forall_range (fun b => bits_value (byte_bits b) =? b) 256).
Qed.

Lemma length_byte_bits_bind bs : length (bs ≫= byte_bits) = (8 * length bs)%nat.
Proof.
  induction bs as [|b bs IH]; [done|]. rewrite bind_cons, length_app, IH, length_byte_bits. simpl. lia.
Qed.

Lemma pack_byte_bits bs :
  Forall is_u8 bs -> pack_bits (length bs) (bs ≫= byte_bits) = bs.
Proof.
  induction 1 as [|b bs Hb _ IH]; [done|]. cbn [length pack_bits]. rewrite bind_cons.
  rewrite (take_app_length' _ _ 8), (drop_app_length' _ _ 8) by done.
  by rewrite byte_bits_value, IH.
Qed.

Lemma length_pack_bits n l : length (pack_bits n l) = n.
Proof. revert l. induction n; intros l; simpl; auto. Qed.

Lemma pack_bits_ok n l : Forall is_u8 (pack_bits n l).
Proof.
  revert l. induction n as [|n IH]; intros l; cbn [pack_bits]; constructor; [|done].
  pose proof (bits_value_range (take 8 l)) as H. unfold is_u8.
  assert (2 ^ llen (take 8 l) <= 2 ^ 8); [|lia].
  apply Z.pow_le_mono_r; [lia|]. unfold llen. rewrite length_take. lia.
Qed.
