(* ===== verification/History.v ===== *)
(** The history buffer of the ZGFX decompressor
    (src/crates/ironrdp-graphics/src/zgfx/circular_buffer.rs): a ring of fixed
    size that is written at the end and read back at a distance.

    Its contract: the ring holds the last [size] bytes written, and reading at
    a distance copies byte by byte the way LZ77 defines it, also when the copy
    runs into the bytes it has just produced. *)

From S2P Require Import Prelude.

(** ** Slices *)

(** [&l[lo..hi]]; [None] is the panic of a range outside [l]. *)
Definition slice {A} (lo hi : Z) (l : list A) : option (list A) :=
  if (0 <=? lo) && (lo <=? hi) && (hi <=? llen l)
  then Some (take (Z.to_nat (hi - lo)) (drop (Z.to_nat lo) l)) else None.

(** [l[lo..lo + src.len()].clone_from_slice(src)] *)
Definition write_slice_at {A} (lo : Z) (src l : list A) : option (list A) :=
  if (0 <=? lo) && (lo + llen src <=? llen l)
  then Some (take (Z.to_nat lo) l ++ src ++ drop (Z.to_nat (lo + llen src)) l) else None.

Inductive IoError := InvalidData | UnexpectedEof | WriteZero.

Definition or_panic {E A} (o : option A) : outcome E A :=
  match o with Some a => Ok a | None => Panic end.

Module FixedCircularBuffer.

Record t := mk { buffer : list Z; position : Z }.

Definition new (size : Z) : t := mk (replicate (Z.to_nat size) 0) 0.

(** [a % n], which panics when [n] is zero *)
Definition rem {E} (a n : Z) : outcome E Z := if n =? 0 then Panic else Ok (a mod n).

(** The loop of the branch where the source is in one piece.  Every round
    writes at least one byte when [dst_length] is positive, so [length] rounds
    are enough; with [dst_length = 0] the loop does not end. *)
Fixpoint copy_flat (fuel : nat) (buf : list Z) (pos dst_length length written : Z)
    (output : list Z) : outcome IoError (list Z) :=
  if written <? length then
    match fuel with
    | O => Panic
    | S fuel' =>
        let to_write := Z.min (length - written) dst_length in
        chunk ← or_panic (slice pos (pos + to_write) buf);
        copy_flat fuel' buf pos dst_length length (written + to_write) (output ++ chunk)
    end
  else Ok output.

(** The loop of the branch where the source wraps around the end. *)
Fixpoint copy_wrapped (fuel : nat) (to_front to_back : list Z) (dst_length length written : Z)
    (output : list Z) : outcome IoError (list Z) :=
  if written <? length then
    match fuel with
    | O => Panic
    | S fuel' =>
        let to_write := Z.min (length - written) dst_length in
        let to_write_to_front := Z.min (llen to_front) to_write in
        front ← or_panic (slice 0 to_write_to_front to_front);
        back ← or_panic (slice 0 (to_write - to_write_to_front) to_back);
        copy_wrapped fuel' to_front to_back dst_length length (written + to_write)
          ((output ++ front) ++ back)
    end
  else Ok output.

Definition read_with_offset (b : t) (offset length : Z) (output : list Z) : outcome IoError (list Z) :=
  if llen (buffer b) <? offset then Err InvalidData
  else
    pos ← rem (llen (buffer b) + position b - offset) (llen (buffer b));
    let dst_length := Z.min offset length in
    if pos + dst_length <=? llen (buffer b) then
      copy_flat (Z.to_nat length) (buffer b) pos dst_length length 0 output
    else
      to_front ← or_panic (slice pos (llen (buffer b)) (buffer b));
      to_back ← or_panic (slice 0 (dst_length - llen to_front) (buffer b));
      copy_wrapped (Z.to_nat length) to_front to_back dst_length length 0 output.

(** [if self.position == self.buffer.len() { self.position = 0 }] *)
Definition wrap_position (b : t) : t :=
  if position b =? llen (buffer b) then mk (buffer b) 0 else b.

Definition write (b : t) (buf : list Z) : outcome IoError (Z * t) :=
  let bytes_written := llen buf in
  '(buf, pos) ←
    (if llen (buffer b) <? llen buf then
       let residue := llen buf - llen (buffer b) in
       pos ← rem (position b + residue) (llen (buffer b));
       mret (drop (Z.to_nat residue) buf, pos)
     else mret (buf, position b));
  b' ←
    (if pos + llen buf <=? llen (buffer b) then
       buffer' ← or_panic (write_slice_at pos buf (buffer b));
       mret (mk buffer' (pos + llen buf))
     else
       to_back ← or_panic (slice 0 (llen (buffer b) - pos) buf);
       to_front ← or_panic (slice (llen (buffer b) - pos) (llen buf) buf);
       buffer1 ← or_panic (write_slice_at pos to_back (buffer b));
       buffer2 ← or_panic (write_slice_at 0 to_front buffer1);
       mret (mk buffer2 (llen buf - llen to_back)));
  mret (bytes_written, wrap_position b').

(** [io::Write::write_all]: [write] until nothing is left. *)
Fixpoint write_all_loop (fuel : nat) (b : t) (buf : list Z) : outcome IoError t :=
  match buf with
  | [] => Ok b
  | _ :: _ =>
      match fuel with
      | O => Panic
      | S fuel' =>
          '(n, b') ← write b buf;
          if n =? 0 then Err WriteZero else write_all_loop fuel' b' (drop (Z.to_nat n) buf)
      end
  end.
Definition write_all (b : t) (buf : list Z) : outcome IoError t := write_all_loop (length buf) b buf.

End FixedCircularBuffer.

(** ** The contract *)

(** LZ77 copies one byte at a time from [offset] bytes back, and each copied
    byte joins the history. *)
Fixpoint lz_copy (hist : list Z) (offset n : nat) : list Z :=
  match n with
  | O => []
  | S n' =>
      match hist !! (length hist - offset)%nat with
      | Some x => x :: lz_copy (hist ++ [x]) offset n'
      | None => []
      end
  end.

(** Appending to a history that keeps its length. *)
Definition slide (hist data : list Z) : list Z := drop (length data) (hist ++ data).

Module Ring.
Import FixedCircularBuffer.

(** What the ring holds, oldest byte first. *)
Definition contents (b : t) : list Z :=
  drop (Z.to_nat (position b)) (buffer b) ++ take (Z.to_nat (position b)) (buffer b).

Definition ring_wf (b : t) : Prop := 0 <= position b < llen (buffer b).

Lemma length_contents b : length (contents b) = length (buffer b).
Proof. unfold contents. rewrite length_app, length_drop, length_take. lia. Qed.

Lemma slice_ok {A} lo hi (l : list A) :
  0 <= lo <= hi -> hi <= llen l -> slice lo hi l = Some (take (Z.to_nat (hi - lo)) (drop (Z.to_nat lo) l)).
Proof. intros. unfold slice. by rewrite !(proj2 (Z.leb_le _ _)) by lia. Qed.

Lemma write_slice_at_ok {A} lo (src l : list A) :
  0 <= lo -> lo + llen src <= llen l ->
  write_slice_at lo src l = Some (take (Z.to_nat lo) l ++ src ++ drop (Z.to_nat (lo + llen src)) l).
Proof. intros. unfold write_slice_at. by rewrite !(proj2 (Z.leb_le _ _)) by lia. Qed.

Lemma length_slide hist data : length (slide hist data) = length hist.
Proof. unfold slide. rewrite length_drop, length_app. lia. Qed.

Lemma slide_app hist a c : slide hist (a ++ c) = slide (slide hist a) c.
Proof.
  unfold slide. rewrite app_assoc, length_app, <- drop_drop.
  rewrite (drop_app_le (hist ++ a) c) by (rewrite length_app; lia). done.
Qed.

Lemma slide_nil hist : slide hist [] = hist.
Proof. unfold slide. by rewrite app_nil_r. Qed.

(** The two ways a write lands in the ring, on the bare list. *)
Definition rotate (p : nat) (buf : list Z) : list Z := drop p buf ++ take p buf.

Lemma rotate_flat p buf data :
  (p + length data <= length buf)%nat ->
  rotate (p + length data) (take p buf ++ data ++ drop (p + length data) buf) =
  slide (rotate p buf) data.
Proof.
  intros H. unfold rotate, slide.
  rewrite <- (app_assoc (drop p buf)), (drop_app_le (drop p buf)) by (rewrite length_drop; lia).
  rewrite drop_drop, (app_assoc (take p buf)).
  assert (Hl : (p + length data)%nat = length (take p buf ++ data))
    by (rewrite length_app, length_take; lia).
  rewrite Hl at 1 3. by rewrite drop_app_length, take_app_length.
Qed.

Lemma rotate_wrapped p buf data :
  (p <= length buf)%nat -> (length data <= length buf < p + length data)%nat ->
  let k := (length buf - p)%nat in
  rotate (length data - k) (drop k data ++ drop (length data - k) (take p buf ++ take k data)) =
  slide (rotate p buf) data.
Proof.
  intros Hp H k. unfold rotate, slide.
  assert (Hf : (length data - k)%nat = length (drop k data)) by (rewrite length_drop; lia).
  rewrite Hf at 1 3. rewrite drop_app_length, take_app_length.
  rewrite drop_app_le by (rewrite length_take; lia). rewrite <- (app_assoc _ _ (drop k data)), take_drop.
  rewrite <- (app_assoc (drop p buf)), (drop_app_ge (drop p buf)) by (rewrite length_drop; lia).
  rewrite length_drop, drop_app_le by (rewrite length_take; lia). done.
Qed.

Lemma wrap_position_spec b :
  0 <= position b <= llen (buffer b) -> 0 < llen (buffer b) ->
  ring_wf (wrap_position b) /\ buffer (wrap_position b) = buffer b /\
  contents (wrap_position b) = contents b.
Proof.
  destruct b as [buf p]. unfold ring_wf, wrap_position, contents. cbn [buffer position]. intros Hp Hb.
  destruct (Z.eqb_spec p (llen buf)) as [->|]; cbn [buffer position]; [|split_and!; [lia|lia|done|done]].
  split_and!; [lia|lia|done|]. unfold llen. rewrite Nat2Z.id.
  by rewrite drop_0, take_0, app_nil_r, drop_all, firstn_all.
Qed.

(** Writing at most a ring's worth. *)
Lemma write_fit b data :
  ring_wf b -> llen data <= llen (buffer b) ->
  exists b', write b data = Ok (llen data, b') /\ ring_wf b' /\
    length (buffer b') = length (buffer b) /\ contents b' = slide (contents b) data.
Proof.
  destruct b as [buf p]. unfold ring_wf at 1, write. cbn [buffer position].
  intros Hp Hd. rewrite (proj2 (Z.ltb_ge _ _)) by lia.
  unfold mbind, outcome_bind, mret, outcome_ret.
  assert (Hr : contents (mk buf p) = rotate (Z.to_nat p) buf) by done. rewrite Hr.
  destruct (Z.leb_spec (p + llen data) (llen buf)) as [Hl|Hl].
  - rewrite write_slice_at_ok by lia. cbn [or_panic]. eexists. split; [reflexivity|].
    assert (Hlen : length (take (Z.to_nat p) buf ++ data ++ drop (Z.to_nat (p + llen data)) buf) = length buf).
    { rewrite !length_app, length_take, length_drop. unfold llen in *. lia. }
    destruct (wrap_position_spec (mk (take (Z.to_nat p) buf ++ data ++ drop (Z.to_nat (p + llen data)) buf)
      (p + llen data))) as (Hw & Hb & Hc); cbn [buffer position].
    { unfold llen at 3. rewrite Hlen. unfold llen in *. lia. }
    { unfold llen at 1. rewrite Hlen. unfold llen in *. lia. }
    split; [exact Hw|]. split; [by rewrite Hb|]. rewrite Hc. unfold contents. cbn [buffer position].
    replace (Z.to_nat (p + llen data)) with (Z.to_nat p + length data)%nat by (unfold llen; lia).
    apply rotate_flat. unfold llen in *. lia.
  - rewrite !slice_ok by (unfold llen in *; lia). cbn [or_panic].
    set (k := (length buf - Z.to_nat p)%nat).
    replace (Z.to_nat (llen buf - p)) with k by (unfold k, llen; lia).
    replace (Z.to_nat (llen buf - p - 0)) with k by (unfold k, llen; lia). rewrite drop_0.
    assert (Hk : length (take k data) = k) by (rewrite length_take; unfold llen, k in *; lia).
    rewrite write_slice_at_ok; [|lia|unfold llen in *; lia]. cbn [or_panic].
    rewrite (drop_ge buf) by (unfold llen; lia). rewrite app_nil_r.
    rewrite take_ge by (rewrite length_drop; unfold llen, k in *; lia).
    rewrite write_slice_at_ok; [|lia|unfold llen, k in *; rewrite length_app, length_take, Hk, length_drop; lia].
    cbn [or_panic]. eexists. split; [reflexivity|]. rewrite take_0, app_nil_l.
    replace (Z.to_nat (0 + llen (drop k data))) with (length data - k)%nat
      by (unfold llen; rewrite length_drop; lia).
    replace (llen data - llen (take k data)) with (Z.of_nat (length data - k)) by (unfold llen, k in *; lia).
    set (buf' := drop k data ++ drop (length data - k) (take (Z.to_nat p) buf ++ take k data)).
    assert (Hlen : length buf' = length buf).
    { unfold buf'. rewrite length_app, !length_drop, length_app, length_take, Hk. unfold llen, k in *. lia. }
    destruct (wrap_position_spec (mk buf' (Z.of_nat (length data - k)))) as (Hw & Hb & Hc);
      cbn [buffer position]; [unfold llen, k in *; lia..|].
    split; [exact Hw|]. split; [by rewrite Hb|]. rewrite Hc. unfold contents. cbn [buffer position].
    rewrite Nat2Z.id. apply rotate_wrapped; unfold llen, k in *; lia.
Qed.

(** Any write leaves the last bytes of everything written. *)
Lemma write_spec b data :
  ring_wf b ->
  exists b', write b data = Ok (llen data, b') /\ ring_wf b' /\
    length (buffer b') = length (buffer b) /\ contents b' = slide (contents b) data.
Proof.
  intros Hb. destruct (Z.le_gt_cases (llen data) (llen (buffer b))) as [Hl|Hl]; [by apply write_fit|].
  set (r := Z.to_nat (llen data - llen (buffer b))).
  set (q := (position b + (llen data - llen (buffer b))) mod llen (buffer b)).
  assert (Hd : llen (drop r data) = llen (buffer b)) by (unfold r, llen in *; rewrite length_drop; lia).
  assert (Hq : ring_wf (mk (buffer b) q)).
  { unfold ring_wf, q in *. cbn. apply Z.mod_pos_bound. lia. }
  destruct (write_fit (mk (buffer b) q) (drop r data) Hq) as (b' & Hw & Hwf & Hlen & Hc); [cbn; lia|].
  exists b'. split_and!; [|done|done|].
  - unfold write in *. rewrite (proj2 (Z.ltb_lt _ _)) by lia. unfold rem.
    destruct (Z.eqb_spec (llen (buffer b)) 0) as [H0|_]; [unfold ring_wf in Hb; lia|].
    cbn [buffer position] in Hw. rewrite Hd in Hw. rewrite Z.ltb_irrefl in Hw.
    unfold mbind, outcome_bind, mret, outcome_ret in *. fold r q.
    destruct (if _ <=? _ then _ else _) as [b1| |]; [|done..]. congruence.
  - rewrite Hc. unfold slide.
    rewrite !drop_app_ge; rewrite ?length_contents; cbn [buffer]; [|unfold llen in *; lia..].
    unfold llen in Hd. rewrite drop_drop. f_equal. unfold r, llen in *. lia.
Qed.

Lemma write_all_spec b data :
  ring_wf b ->
  exists b', write_all b data = Ok b' /\ ring_wf b' /\
    length (buffer b') = length (buffer b) /\ contents b' = slide (contents b) data.
Proof.
  intros Hb. unfold write_all. destruct data as [|x data].
  { exists b. by rewrite slide_nil. }
  destruct (write_spec b (x :: data) Hb) as (b' & Hw & ? & ? & ?). exists b'. split_and!; [|done..].
  cbn [length write_all_loop]. rewrite Hw. unfold mbind, outcome_bind.
  rewrite (proj2 (Z.eqb_neq _ _)) by (unfold llen; simpl; lia).
  rewrite drop_ge by (unfold llen; lia). by destruct (length data).
Qed.

(** *** Reading *)

Lemma length_lz_copy hist offset n :
  (0 < offset <= length hist)%nat -> length (lz_copy hist offset n) = n.
Proof.
  revert hist. induction n as [|n IH]; intros hist H; [done|]. cbn [lz_copy].
  destruct (lookup_lt_is_Some_2 hist (length hist - offset)) as [x ->]; [lia|].
  simpl. rewrite IH; [done|rewrite length_app; simpl; lia].
Qed.

Lemma lz_copy_app hist offset n m :
  (0 < offset <= length hist)%nat ->
  lz_copy hist offset (n + m) =
  lz_copy hist offset n ++ lz_copy (hist ++ lz_copy hist offset n) offset m.
Proof.
  revert hist. induction n as [|n IH]; intros hist H; cbn [lz_copy plus app]; [by rewrite app_nil_r|].
  destruct (lookup_lt_is_Some_2 hist (length hist - offset)) as [x Hx]; [lia|]. rewrite Hx.
  rewrite IH by (rewrite length_app; simpl; lia). simpl. by rewrite <- app_assoc.
Qed.

(** Only the last [offset] bytes of the history matter. *)
Lemma lz_copy_suffix pre hist offset n :
  (0 < offset <= length hist)%nat -> lz_copy (pre ++ hist) offset n = lz_copy hist offset n.
Proof.
  revert hist. induction n as [|n IH]; intros hist H; [done|]. cbn [lz_copy].
  rewrite lookup_app_r by (rewrite length_app; lia).
  replace (length (pre ++ hist) - offset - length pre)%nat with (length hist - offset)%nat
    by (rewrite length_app; lia).
  destruct (hist !! _) as [x|]; [|done]. rewrite <- app_assoc, IH; [done|rewrite length_app; simpl; lia].
Qed.

(** A copy no longer than the distance is a plain copy. *)
Lemma lz_copy_short hist offset n :
  (0 < offset <= length hist)%nat -> (n <= offset)%nat ->
  lz_copy hist offset n = take n (drop (length hist - offset) hist).
Proof.
  revert hist. induction n as [|n IH]; intros hist H Hn; [done|]. cbn [lz_copy].
  destruct (lookup_lt_is_Some_2 hist (length hist - offset)) as [x Hx]; [lia|]. rewrite Hx.
  rewrite (drop_S hist x) by done. cbn [take]. f_equal.
  rewrite IH by (try rewrite length_app; simpl; lia).
  replace (length (hist ++ [x]) - offset)%nat with (S (length hist - offset)) by (rewrite length_app; simpl; lia).
  rewrite drop_app_le by lia. rewrite take_app_le; [done|rewrite length_drop; lia].
Qed.

(** A longer copy repeats the last [offset] bytes. *)
Lemma lz_copy_cycle hist offset n :
  (0 < offset <= length hist)%nat ->
  let src := drop (length hist - offset) hist in
  lz_copy hist offset (offset + n) = src ++ lz_copy hist offset n.
Proof.
  intros H src. assert (Hs : length src = offset) by (unfold src; rewrite length_drop; lia).
  rewrite lz_copy_app, lz_copy_short by lia. fold src. rewrite take_ge by lia. f_equal.
  rewrite lz_copy_suffix by lia. rewrite <- (take_drop (length hist - offset) hist) at 1. fold src.
  by rewrite lz_copy_suffix by lia.
Qed.

(** The loops write the copy in chunks of [dst_length]: a round writes what is
    left or a full turn. *)
Section chunks.
Variables (hist : list Z) (offset : nat).
Hypothesis Hoff : (0 < offset <= length hist)%nat.
Let src := drop (length hist - offset) hist.

Lemma chunk_step (left : nat) :
  let w := Nat.min left offset in
  take w src ++ lz_copy hist offset (left - w) = lz_copy hist offset left.
Proof.
  intros w. assert (Hs : length src = offset) by (unfold src; rewrite length_drop; lia).
  destruct (Nat.le_gt_cases left offset).
  - replace w with left by lia. rewrite Nat.sub_diag. cbn. rewrite app_nil_r.
    by rewrite lz_copy_short by lia.
  - replace w with offset by lia. rewrite take_ge by lia.
    replace left with (offset + (left - offset))%nat at 2 by lia. by rewrite lz_copy_cycle.
Qed.

Lemma copy_flat_spec buf pos n fuel written output :
  0 <= pos -> pos + Z.min (Z.of_nat offset) n <= llen buf ->
  (forall w, (w <= Nat.min offset (Z.to_nat n))%nat -> take w (drop (Z.to_nat pos) buf) = take w src) ->
  0 <= written <= n -> (Z.to_nat (n - written) <= fuel)%nat ->
  copy_flat fuel buf pos (Z.min (Z.of_nat offset) n) n written output =
  Ok (output ++ lz_copy hist offset (Z.to_nat (n - written))).
Proof.
  intros Hpos Hfit Hsrc. revert written output. induction fuel as [|fuel IH]; intros written output Hw Hf;
    cbn [copy_flat]; (destruct (Z.ltb_spec written n) as [Hlt|Hge];
      [|replace (Z.to_nat (n - written)) with 0%nat by lia; by rewrite app_nil_r]); [lia|].
  rewrite slice_ok by lia. unfold mbind, outcome_bind. cbn [or_panic].
  rewrite IH by lia. rewrite <- app_assoc, Hsrc by lia. do 2 f_equal.
  rewrite <- (chunk_step (Z.to_nat (n - written))).
  replace (Z.to_nat (pos + Z.min (n - written) (Z.min (Z.of_nat offset) n) - pos))
    with (Nat.min (Z.to_nat (n - written)) offset) by lia. do 2 f_equal. lia.
Qed.

Lemma copy_wrapped_spec front back n fuel written output :
  (forall w, (w <= Nat.min offset (Z.to_nat n))%nat -> take w (front ++ back) = take w src) ->
  Z.min (Z.of_nat offset) n <= llen front + llen back ->
  0 <= written <= n -> (Z.to_nat (n - written) <= fuel)%nat ->
  copy_wrapped fuel front back (Z.min (Z.of_nat offset) n) n written output =
  Ok (output ++ lz_copy hist offset (Z.to_nat (n - written))).
Proof.
  intros Hsrc Hfit. revert written output. induction fuel as [|fuel IH]; intros written output Hw Hf;
    cbn [copy_wrapped]; (destruct (Z.ltb_spec written n) as [Hlt|Hge];
      [|replace (Z.to_nat (n - written)) with 0%nat by lia; by rewrite app_nil_r]); [lia|].
  pose proof (llen_nonneg front). pose proof (llen_nonneg back).
  set (w := Z.min (n - written) (Z.min (Z.of_nat offset) n)).
  assert (0 < w) by lia. rewrite (slice_ok 0 (Z.min (llen front) w)) by lia.
  rewrite (slice_ok 0 (w - Z.min (llen front) w)) by lia. unfold mbind, outcome_bind. cbn [or_panic].
  rewrite IH by lia. rewrite !drop_0, <- !app_assoc. do 2 f_equal.
  rewrite <- (chunk_step (Z.to_nat (n - written))).
  replace (Nat.min (Z.to_nat (n - written)) offset) with (Z.to_nat w) by lia.
  rewrite <- Hsrc, take_app, <- app_assoc by lia. f_equal; [|f_equal; [|f_equal; lia]].
  - unfold llen. destruct (Z.min_spec (Z.of_nat (length front)) w) as [[? ->]|[? ->]].
    + by rewrite !take_ge by lia.
    + f_equal. lia.
  - f_equal. unfold llen. lia.
Qed.

End chunks.

Lemma read_with_offset_spec b offset n output :
  ring_wf b -> 0 < offset <= llen (buffer b) -> 0 <= n ->
  read_with_offset b offset n output =
  Ok (output ++ lz_copy (contents b) (Z.to_nat offset) (Z.to_nat n)).
Proof.
  intros Hb Ho Hn. unfold read_with_offset. rewrite (proj2 (Z.ltb_ge _ _)) by lia.
  unfold rem. rewrite (proj2 (Z.eqb_neq _ _)) by lia. unfold mbind, outcome_bind.
  destruct b as [buf p]. unfold ring_wf in Hb. cbn [buffer position] in *.
  set (N := llen buf) in *. set (pos := (N + p - offset) mod N).
  assert (Hlen : length (contents (mk buf p)) = length buf) by apply length_contents.
  assert (Hsrc : drop (length buf - Z.to_nat offset) (contents (mk buf p)) =
    (if offset <=? p then take (Z.to_nat offset) (drop (Z.to_nat pos) buf)
     else drop (Z.to_nat pos) buf ++ take (Z.to_nat p) buf) /\
    pos = (if offset <=? p then p - offset else N + p - offset)).
  { assert (Hpos : pos = (if offset <=? p then p - offset else N + p - offset)).
    { unfold pos. destruct (Z.leb_spec offset p).
      - replace (N + p - offset) with (p - offset + 1 * N) by lia. rewrite Z.mod_add by lia. apply Z.mod_small. lia.
      - apply Z.mod_small. lia. }
    split; [|done]. unfold contents. cbn [buffer position]. rewrite Hpos. clear Hpos. clearbody pos.
    destruct (Z.leb_spec offset p).
    - rewrite drop_app_ge by (rewrite length_drop; unfold N, llen in *; lia). rewrite length_drop.
      rewrite take_drop_commute.
      replace (Z.to_nat (p - offset) + Z.to_nat offset)%nat with (Z.to_nat p) by lia. f_equal. unfold N, llen in *. lia.
    - rewrite drop_app_le by (rewrite length_drop; unfold N, llen in *; lia). rewrite drop_drop. do 2 f_equal.
      unfold N, llen in *. lia. }
  destruct Hsrc as [Hsrc Hpos]. clearbody pos. cbv zeta.
  replace (Z.min offset n) with (Z.min (Z.of_nat (Z.to_nat offset)) n) by lia.
  destruct (Z.leb_spec (pos + Z.min (Z.of_nat (Z.to_nat offset)) n) N) as [Hl|Hl].
  - rewrite (copy_flat_spec (contents (mk buf p))); rewrite ?Hlen; [by rewrite Z.sub_0_r|unfold N, llen in *; lia| |done| |lia|lia].
    + destruct (Z.leb_spec offset p); lia.
    + intros w Hw. rewrite Hsrc. destruct (Z.leb_spec offset p) as [?|?].
      * rewrite take_take. f_equal. lia.
      * rewrite take_app_le; [done|]. rewrite length_drop. unfold N, llen in *. lia.
  - destruct (Z.leb_spec offset p) as [?|?]; [lia|].
    rewrite slice_ok by lia. cbn [or_panic]. rewrite take_ge by (rewrite length_drop; unfold N, llen in *; lia).
    assert (Hf : llen (drop (Z.to_nat pos) buf) = offset - p) by (unfold N, llen in *; rewrite length_drop; lia).
    rewrite Hf. rewrite slice_ok by lia. cbn [or_panic]. rewrite drop_0.
    rewrite (copy_wrapped_spec (contents (mk buf p))); rewrite ?Hlen; [by rewrite Z.sub_0_r|unfold N, llen in *; lia| | |lia|lia].
    + intros w Hw. rewrite Hsrc, !take_app, !take_take. f_equal. f_equal. unfold llen in Hf. lia.
    + rewrite Hf. unfold llen. rewrite length_take. unfold N, llen in *. lia.
Qed.

Lemma new_spec size :
  0 < size -> ring_wf (new size) /\ llen (buffer (new size)) = size /\
  contents (new size) = replicate (Z.to_nat size) 0.
Proof.
  intros H. assert (Hl : llen (buffer (new size)) = size) by (unfold new, llen; cbn [buffer]; rewrite length_replicate; lia).
  split_and!; [unfold ring_wf; cbn [new position]; lia..|done|].
  unfold contents, new. cbn [buffer position]. change (Z.to_nat 0) with 0%nat. by rewrite drop_0, take_0, app_nil_r.
Qed.

(** [write_all] for each of [writes]. *)
Fixpoint write_each (b : t) (writes : list (list Z)) : outcome IoError t :=
  match writes with
  | [] => Ok b
  | w :: writes' => b' ← write_all b w; write_each b' writes'
  end.

Lemma write_each_spec b writes :
  ring_wf b -> exists b', write_each b writes = Ok b' /\ ring_wf b' /\
    length (buffer b') = length (buffer b) /\ contents b' = slide (contents b) (concat writes).
Proof.
  revert b. induction writes as [|w writes IH]; intros b Hb; [exists b; cbn [write_each concat]; by rewrite slide_nil|].
  destruct (write_all_spec b w Hb) as (b1 & Hw & Hb1 & Hl1 & Hc1).
  destruct (IH b1 Hb1) as (b2 & H2 & Hb2 & Hl2 & Hc2). exists b2. cbn [write_each concat].
  rewrite Hw. unfold mbind, outcome_bind. split_and!; [done|done|lia|by rewrite Hc2, Hc1, slide_app].
Qed.

(** The ring buffer is an LZ77 window.  After any sequence of writes of
    any lengths into a ring of [size] bytes, reading [n] bytes at a distance
    gives what copying one byte at a time from the last [size] bytes written
    would give, also when the copy overlaps itself or the ring's end; no write
    or read fails or panics and the copy loops end. *)
Theorem ring_is_lz77_window size writes :
  0 < size -> exists b, write_each (new size) writes = Ok b /\
    forall offset n out, 0 < offset <= size -> 0 <= n ->
      read_with_offset b offset n out =
      Ok (out ++ lz_copy (slide (replicate (Z.to_nat size) 0) (concat writes)) (Z.to_nat offset) (Z.to_nat n)).
Proof.
  intros Hs. destruct (new_spec size Hs) as (Hw & Hl & Hc).
  destruct (write_each_spec (new size) writes Hw) as (b & Hb & Hbw & Hbl & Hbc).
  exists b. split; [done|]. intros offset n out Ho Hn. rewrite <- Hc, <- Hbc.
  apply read_with_offset_spec; [done| |done]. unfold llen in *. lia.
Qed.

Lemma ring_is_lz77_window_witness :
  exists b, write_each (new 4) [[1; 2]; [3; 4; 5]; [6]] = Ok b /\
    read_with_offset b 2 5 [9] = Ok [9; 5; 6; 5; 6; 5].
Proof.
  destruct (ring_is_lz77_window 4 [[1; 2]; [3; 4; 5]; [6]] ltac:(lia)) as (b & Hb & Hr).
  exists b. split; [exact Hb|]. rewrite Hr by lia. reflexivity.
Defined.

End Ring.
