(* ===== verification/Zgfx.v ===== *)
(** The ZGFX (RDP 8.0) decompressor:
    src/crates/ironrdp-graphics/src/zgfx/mod.rs with the bit reader of
    utils.rs and the segment parser of control_messages.rs.

    Lengths and positions are [Z]; the lengths of buffers that exist in memory
    are far below 2^64, so their sums are written with [+].  [usize] has 64
    bits, so that a [u32] always converts. *)

From S2P Require Import Prelude Codec Mutation Flags Crates History.

(** ** Limits *)

Definition HISTORY_SIZE : Z := 2500000.
Definition MAX_DECOMPRESSED_PER_SEGMENT : Z := 64 * 1024 * 1024.
Definition MAX_DECOMPRESSED_TOTAL : Z := 256 * 1024 * 1024.
Definition USIZE_BITS : Z := 64.

Inductive ZgfxError :=
| IOError (e : IoError)
| InvalidCompressionType
| InvalidSegmentedDescriptor
| InvalidDecompressedSize (decompressed_size uncompressed_size : Z)
| TokenBitsNotFound
| InvalidIntegralConversion (what : string)
| InvalidTrailingBitCount (count : Z)
| SegmentSizeExceedsBuffer (size remaining : Z)
| IncompleteBitStream (needed remaining : Z)
| MatchDistanceOutOfRange (distance history_size : Z)
| LengthTokenSizeTooLarge (size : Z)
| SegmentDecompressedSizeExceedsLimit (decompressed limit : Z)
| MultipartTotalExceedsDeclared (written declared : Z)
| MultipartTotalExceedsBudget (written budget : Z).

(** ** Tokens *)

Inductive TokenType :=
| NullLiteral
| Literal (literal_value : Z)
| Match (distance_value_size distance_base : Z).

Record Token := mkToken { prefix : list bool; ty : TokenType }.

Definition bits (l : list Z) : list bool := (fun b => b =? 1) <$> l.

Definition TOKEN_TABLE : list Token := [
  mkToken (bits [0]) (NullLiteral);
  mkToken (bits [1; 1; 0; 0; 0]) (Literal 0x0);
  mkToken (bits [1; 1; 0; 0; 1]) (Literal 0x1);
  mkToken (bits [1; 1; 0; 1; 0; 0]) (Literal 0x2);
  mkToken (bits [1; 1; 0; 1; 0; 1]) (Literal 0x3);
  mkToken (bits [1; 1; 0; 1; 1; 0]) (Literal 0xff);
  mkToken (bits [1; 1; 0; 1; 1; 1; 0]) (Literal 0x4);
  mkToken (bits [1; 1; 0; 1; 1; 1; 1]) (Literal 0x5);
  mkToken (bits [1; 1; 1; 0; 0; 0; 0]) (Literal 0x6);
  mkToken (bits [1; 1; 1; 0; 0; 0; 1]) (Literal 0x7);
  mkToken (bits [1; 1; 1; 0; 0; 1; 0]) (Literal 0x8);
  mkToken (bits [1; 1; 1; 0; 0; 1; 1]) (Literal 0x9);
  mkToken (bits [1; 1; 1; 0; 1; 0; 0]) (Literal 0xa);
  mkToken (bits [1; 1; 1; 0; 1; 0; 1]) (Literal 0xb);
  mkToken (bits [1; 1; 1; 0; 1; 1; 0]) (Literal 0x3a);
  mkToken (bits [1; 1; 1; 0; 1; 1; 1]) (Literal 0x3b);
  mkToken (bits [1; 1; 1; 1; 0; 0; 0]) (Literal 0x3c);
  mkToken (bits [1; 1; 1; 1; 0; 0; 1]) (Literal 0x3d);
  mkToken (bits [1; 1; 1; 1; 0; 1; 0]) (Literal 0x3e);
  mkToken (bits [1; 1; 1; 1; 0; 1; 1]) (Literal 0x3f);
  mkToken (bits [1; 1; 1; 1; 1; 0; 0]) (Literal 0x40);
  mkToken (bits [1; 1; 1; 1; 1; 0; 1]) (Literal 0x80);
  mkToken (bits [1; 1; 1; 1; 1; 1; 0; 0]) (Literal 0xc);
  mkToken (bits [1; 1; 1; 1; 1; 1; 0; 1]) (Literal 0x38);
  mkToken (bits [1; 1; 1; 1; 1; 1; 1; 0]) (Literal 0x39);
  mkToken (bits [1; 1; 1; 1; 1; 1; 1; 1]) (Literal 0x66);
  mkToken (bits [1; 0; 0; 0; 1]) (Match 5 0);
  mkToken (bits [1; 0; 0; 1; 0]) (Match 7 32);
  mkToken (bits [1; 0; 0; 1; 1]) (Match 9 160);
  mkToken (bits [1; 0; 1; 0; 0]) (Match 10 672);
  mkToken (bits [1; 0; 1; 0; 1]) (Match 12 1696);
  mkToken (bits [1; 0; 1; 1; 0; 0]) (Match 14 5792);
  mkToken (bits [1; 0; 1; 1; 0; 1]) (Match 15 22176);
  mkToken (bits [1; 0; 1; 1; 1; 0; 0]) (Match 18 54944);
  mkToken (bits [1; 0; 1; 1; 1; 0; 1]) (Match 20 317088);
  mkToken (bits [1; 0; 1; 1; 1; 1; 0; 0]) (Match 20 1365664);
  mkToken (bits [1; 0; 1; 1; 1; 1; 0; 1]) (Match 21 2414240);
  mkToken (bits [1; 0; 1; 1; 1; 1; 1; 0; 0]) (Match 22 4511392);
  mkToken (bits [1; 0; 1; 1; 1; 1; 1; 0; 1]) (Match 23 8705696);
  mkToken (bits [1; 0; 1; 1; 1; 1; 1; 1; 0]) (Match 24 17094304)
].

(** ** Segments on the wire *)

Module CompressionFlags.
Definition COMPRESSED : Z := 0x2.
End CompressionFlags.

Record BulkEncodedData := mkBulk { compression_flags : Z; bulk_data : list Z }.

Inductive SegmentedDataPdu :=
| Single (segment : BulkEncodedData)
| Multipart (uncompressed_size : Z) (segments : list BulkEncodedData).

Inductive SegmentedDescriptor := DSingle | DMultipart.
(** the derived [FromPrimitive] *)
Definition SegmentedDescriptor_from_u8 (v : Z) : option SegmentedDescriptor :=
  if v =? 0xe0 then Some DSingle else if v =? 0xe1 then Some DMultipart else None.
Inductive CompressionType := Rdp8.
Definition CompressionType_from_u8 (v : Z) : option CompressionType :=
  if v =? 0x4 then Some Rdp8 else None.

(** [o.ok_or(e)?] in code without a state *)
Definition or_err {E A} (e : E) (o : option A) : outcome E A :=
  match o with Some a => Ok a | None => Err e end.

Section wire.
Context {BF : Bitflags} {BO : Byteorder} {GF : BitField}.

(** [buffer.read_u8()?] *)
Definition read_u8 (buffer : list Z) : outcome ZgfxError (Z * list Z) :=
  or_err (IOError UnexpectedEof) (bo_read_u8 buffer).
Definition read_u16 (buffer : list Z) : outcome ZgfxError (Z * list Z) :=
  or_err (IOError UnexpectedEof) (bo_read_u16_le buffer).
Definition read_u32 (buffer : list Z) : outcome ZgfxError (Z * list Z) :=
  or_err (IOError UnexpectedEof) (bo_read_u32_le buffer).

Definition BulkEncodedData_from_buffer (buffer : list Z) : outcome ZgfxError BulkEncodedData :=
  '(compression_type_and_flags, buffer) ← read_u8 buffer;
  _ ← or_err InvalidCompressionType (CompressionType_from_u8 (get_bits compression_type_and_flags 0 4));
  mret (mkBulk (get_bits compression_type_and_flags 4 8) buffer).

(** [buffer.split_at_checked(size)] *)
Definition split_at_checked (size : Z) (buffer : list Z) : option (list Z * list Z) :=
  if size <=? llen buffer then Some (take (Z.to_nat size) buffer, drop (Z.to_nat size) buffer) else None.

Fixpoint read_segments (count : nat) (buffer : list Z) : outcome ZgfxError (list BulkEncodedData) :=
  match count with
  | O => mret []
  | S count' =>
      '(size, buffer) ← read_u32 buffer;
      '(segment_data, new_buffer) ←
        or_err (SegmentSizeExceedsBuffer size (llen buffer)) (split_at_checked size buffer);
      segment ← BulkEncodedData_from_buffer segment_data;
      segments ← read_segments count' new_buffer;
      mret (segment :: segments)
  end.

Definition SegmentedDataPdu_from_buffer (buffer : list Z) : outcome ZgfxError SegmentedDataPdu :=
  '(d, buffer) ← read_u8 buffer;
  descriptor ← or_err InvalidSegmentedDescriptor (SegmentedDescriptor_from_u8 d);
  match descriptor with
  | DSingle => segment ← BulkEncodedData_from_buffer buffer; mret (Single segment)
  | DMultipart =>
      '(segment_count, buffer) ← read_u16 buffer;
      '(uncompressed_size, buffer) ← read_u32 buffer;
      segments ← read_segments (Z.to_nat segment_count) buffer;
      mret (Multipart uncompressed_size segments)
  end.

End wire.

(** ** The bit reader *)

Module Bits.
Section bits.
Context {BV : Bitvec}.

Record t := mk { bits_slice : BitSlice; remaining_bits_of_last_byte : Z }.

Definition new (s : BitSlice) : t := mk s 0.
(** The methods of [BitSlice] reached through [Deref]. *)
Definition len (b : t) : Z := llen (view (bits_slice b)).
Definition is_empty (b : t) : bool := len b =? 0.
(** [bits.get(..n).is_some_and(|s| s == p)] *)
Definition starts_with (b : t) (p : list bool) : bool :=
  match split_at (bits_slice b) (llen p) with
  | Some (s, _) => bool_decide (view s = p)
  | None => false
  end.

Definition split_to (b : t) (at_ : Z) : option (BitSlice * t) :=
  match split_at (bits_slice b) at_ with
  | Some (value, new_bits) => Some (value, mk new_bits ((remaining_bits_of_last_byte b + at_) mod 8))
  | None => None
  end.

End bits.
End Bits.

(** ** Decompression *)

(** The decompressor's history and the caller's output vector. *)
Record Sink := mkSink { history : FixedCircularBuffer.t; output : list Z }.

Section decompressor.
Context {BV : Bitvec} {BF : Bitflags} {BO : Byteorder} {GF : BitField}.

Record Decoding := mkDecoding { d_bits : Bits.t; d_sink : Sink }.
Abbreviation D := (Mut Decoding ZgfxError).

Definition set_bits (b : Bits.t) : D unit := update (fun d => mkDecoding b (d_sink d)).
Definition set_sink (s : Sink) : D unit := update (fun d => mkDecoding (d_bits d) s).

(** [bits.split_to(n)] *)
Definition split_to (n : Z) : D BitSlice :=
  d ← access id;
  '(s, b) ← expect (Bits.split_to (d_bits d) n);
  _ ← set_bits b; mret s.

(** [bits.try_split_to(n).ok_or(IncompleteBitStream { needed: n, remaining: bits.len() })?] *)
Definition try_split_to (n : Z) : D BitSlice :=
  d ← access id;
  if Bits.len (d_bits d) <? n then throw (IncompleteBitStream n (Bits.len (d_bits d)))
  else split_to n.

(** [self.history.write_all(written)?; output.extend_from_slice(bytes)] *)
Definition emit (written bytes : list Z) : D unit :=
  d ← access id;
  let s := d_sink d in
  h ← question IOError (FixedCircularBuffer.write_all (history s) written);
  set_sink (mkSink h (output s ++ bytes)).

Definition limit_error (max_remaining length : Z) : ZgfxError :=
  SegmentDecompressedSizeExceedsLimit
    (sat_add64 (sat_sub MAX_DECOMPRESSED_PER_SEGMENT max_remaining) length) MAX_DECOMPRESSED_PER_SEGMENT.

Definition read_unencoded_bytes (max_remaining : Z) : D Z :=
  s ← try_split_to 15;
  length ← expect (load_be USIZE_BITS s);
  if max_remaining <? length then throw (limit_error max_remaining length)
  else
    d ← access id;
    let r := Bits.remaining_bits_of_last_byte (d_bits d) in
    _ ← (if 0 <? r then _ ← try_split_to (8 - r); mret tt else mret tt);
    _ ← (if length * 8 <=? U64_MAX then mret tt
         else throw (InvalidIntegralConversion "unencoded byte-run bit count"));
    unencoded_bits ← try_split_to (length * 8);
    let unencoded_bytes := raw_bytes unencoded_bits in
    _ ← emit unencoded_bytes unencoded_bytes;
    mret (llen unencoded_bytes).

(** The match length that follows a match token. *)
Definition read_match_length : D Z :=
  d ← access id;
  let length_token_size := leading_ones (Bits.bits_slice (d_bits d)) in
  _ ← (if length_token_size + 1 <=? U64_MAX then mret tt else throw (LengthTokenSizeTooLarge length_token_size));
  _ ← try_split_to (length_token_size + 1);
  if length_token_size =? 0 then mret 3
  else
    let value_bits := length_token_size + 1 in
    if USIZE_BITS <=? value_bits then throw (LengthTokenSizeTooLarge length_token_size)
    else
      s ← try_split_to value_bits;
      value ← expect (load_be USIZE_BITS s);
      let base := Z.shiftl 1 value_bits in
      if base + value <=? U64_MAX then mret (base + value)
      else throw (LengthTokenSizeTooLarge length_token_size).

Definition read_encoded_bytes (distance max_remaining : Z) : D Z :=
  length ← read_match_length;
  if max_remaining <? length then throw (limit_error max_remaining length)
  else
    d ← access id;
    let s := d_sink d in
    let output_length := llen (output s) in
    out ← question IOError (FixedCircularBuffer.read_with_offset (history s) distance length (output s));
    _ ← set_sink (mkSink (history s) out);
    copied ← expect (slice output_length (llen out) out);
    h ← expect (match FixedCircularBuffer.write_all (history s) copied with Ok h => Some h | _ => None end);
    _ ← set_sink (mkSink h out);
    mret length.

Definition handle_match (distance_value_size distance_base max_remaining : Z) : D Z :=
  s ← try_split_to distance_value_size;
  distance_value ← expect (load_be 32 s);
  distance ← (if distance_base + distance_value <? 2 ^ 32 then mret (distance_base + distance_value)
              else throw (InvalidIntegralConversion "token's full distance"));
  if distance =? 0 then read_unencoded_bytes max_remaining
  else if HISTORY_SIZE <? distance then throw (MatchDistanceOutOfRange distance HISTORY_SIZE)
  else read_encoded_bytes distance max_remaining.

(** [TOKEN_TABLE.iter().find(..)] *)
Definition find_token (b : Bits.t) : option Token :=
  find (fun token => Bits.starts_with b (prefix token)) TOKEN_TABLE.

(** One token, and how many bytes it produced. *)
Definition decode_token (bytes_written : Z) : D Z :=
  d ← access id;
  token ← ok_or TokenBitsNotFound (find_token (d_bits d));
  _ ← split_to (llen (prefix token));
  match ty token with
  | NullLiteral =>
      s ← try_split_to 8;
      value ← expect (load_be 8 s);
      _ ← emit (bo_u8 value) [value];
      mret 1
  | Literal literal_value =>
      d ← access id;
      let s := d_sink d in
      h ← expect (match FixedCircularBuffer.write_all (history s) (bo_u8 literal_value) with
                  | Ok h => Some h | _ => None end);
      _ ← set_sink (mkSink h (output s ++ [literal_value]));
      mret 1
  | Match distance_value_size distance_base =>
      max_remaining ←
        (if bytes_written <=? MAX_DECOMPRESSED_PER_SEGMENT
         then mret (MAX_DECOMPRESSED_PER_SEGMENT - bytes_written)
         else throw (SegmentDecompressedSizeExceedsLimit bytes_written MAX_DECOMPRESSED_PER_SEGMENT));
      handle_match distance_value_size distance_base max_remaining
  end.

(** The loop over the tokens.  Every token takes at least one bit, so as many
    rounds as there are bits are enough. *)
Fixpoint decode_tokens (fuel : nat) (bytes_written : Z) : D Z :=
  d ← access id;
  if Bits.is_empty (d_bits d) then mret bytes_written
  else
    match fuel with
    | O => boom
    | S fuel' =>
        n ← decode_token bytes_written;
        let bytes_written := bytes_written + n in
        if MAX_DECOMPRESSED_PER_SEGMENT <? bytes_written
        then throw (SegmentDecompressedSizeExceedsLimit bytes_written MAX_DECOMPRESSED_PER_SEGMENT)
        else decode_tokens fuel' bytes_written
    end.

(** Runs [m] on the bits [b] of a segment. *)
Definition with_bits {A} (b : Bits.t) (m : D A) : Mut Sink ZgfxError A := fun s =>
  match m (mkDecoding b s) with
  | Some (r, d) => Some (r, d_sink d)
  | None => None
  end.

Definition decompress_segment (encoded_data : list Z) : Mut Sink ZgfxError Z :=
  match last encoded_data with
  | None => mret 0
  | Some last_byte =>
      let bs := from_slice encoded_data in
      let trailing_unused := Z.land last_byte 0x07 in
      let total := 8 * (llen encoded_data - 1) in
      bit_count ← (if (total <=? U64_MAX) && (trailing_unused <=? total) then mret (total - trailing_unused)
                   else throw (InvalidTrailingBitCount trailing_unused));
      '(bs, _) ← expect (split_at bs bit_count);
      with_bits (Bits.new bs) (decode_tokens (Z.to_nat bit_count) 0)
  end.

Definition handle_segment (segment : BulkEncodedData) : Mut Sink ZgfxError Z :=
  match bulk_data segment with
  | [] => mret 0
  | _ :: _ =>
      if contains (compression_flags segment) CompressionFlags.COMPRESSED
      then decompress_segment (bulk_data segment)
      else
        s ← access id;
        h ← question IOError (FixedCircularBuffer.write_all (history s) (bulk_data segment));
        _ ← update (fun _ => mkSink h (output s ++ bulk_data segment));
        mret (llen (bulk_data segment))
  end.

(** [for segment in segments] of a multipart message. *)
Fixpoint handle_segments (uncompressed_size bytes_written : Z) (segments : list BulkEncodedData) :
    Mut Sink ZgfxError Z :=
  match segments with
  | [] => mret bytes_written
  | segment :: segments' =>
      written ← handle_segment segment;
      let bytes_written := bytes_written + written in
      if uncompressed_size <? bytes_written
      then throw (MultipartTotalExceedsDeclared bytes_written uncompressed_size)
      else if MAX_DECOMPRESSED_TOTAL <? bytes_written
      then throw (MultipartTotalExceedsBudget bytes_written MAX_DECOMPRESSED_TOTAL)
      else handle_segments uncompressed_size bytes_written segments'
  end.

Definition decompress (input : list Z) : Mut Sink ZgfxError Z :=
  segmented_data ← question id (SegmentedDataPdu_from_buffer input);
  match segmented_data with
  | Single segment => handle_segment segment
  | Multipart uncompressed_size segments =>
      bytes_written ← handle_segments uncompressed_size 0 segments;
      if negb (bytes_written =? uncompressed_size)
      then throw (InvalidDecompressedSize bytes_written uncompressed_size)
      else mret bytes_written
  end.

End decompressor.

(** [Decompressor::new()] *)
Definition Decompressor_new : FixedCircularBuffer.t := FixedCircularBuffer.new HISTORY_SIZE.
