(* ===== verification/ZgfxTokens.v ===== *)
(** What the ZGFX token stream means, and that the decompressor implements it.

    A stream is a sequence of items: a literal byte, a copy of bytes of the
    history, an unencoded run.  [codes] says how an item may be written,
    [expand] what a sequence of items produces; [segment_decodes] shows that
    decompressing any stream written that way produces exactly that, and keeps
    the history in step. *)

From S2P Require Import Prelude Cursor Codec Mutation Flags Crates History Zgfx.

(** ** The meaning of a stream *)

Inductive item :=
| Lit (byte : Z)
| Copy (distance length : Z)
| Run (bytes : list Z).

Definition produce (hist : list Z) (it : item) : list Z :=
  match it with
  | Lit b => [b]
  | Copy distance length => lz_copy hist (Z.to_nat distance) (Z.to_nat length)
  | Run bytes => bytes
  end.

Fixpoint expand (hist : list Z) (items : list item) : list Z :=
  match items with
  | [] => []
  | it :: items' => let out := produce hist it in out ++ expand (slide hist out) items'
  end.

(** ** How a stream is written *)

(** The low [w] bits of [v], most significant first. *)
Definition value_bits (w v : Z) : list bool := Z.testbit v <$> reverse (seqZ 0 w).

(** Length 3 is a zero bit; [2^k + v] is [k - 1] ones, a zero and [k] bits of [v]. *)
Definition length_code (n : Z) : list bool :=
  if n =? 3 then [false]
  else let k := Z.log2 n in
       replicate (Z.to_nat (k - 1)) true ++ [false] ++ value_bits k (n - 2 ^ k).

(** [codes off it l]: [l], at bit offset [off], spells [it]. *)
Inductive codes (off : Z) : item -> list bool -> Prop :=
| code_null t b :
    t ∈ TOKEN_TABLE -> ty t = NullLiteral -> is_u8 b ->
    codes off (Lit b) (prefix t ++ value_bits 8 b)
| code_literal t b : t ∈ TOKEN_TABLE -> ty t = Literal b -> codes off (Lit b) (prefix t)
| code_copy t size base distance n :
    t ∈ TOKEN_TABLE -> ty t = Match size base -> base <= distance < base + 2 ^ size ->
    0 < distance <= HISTORY_SIZE -> 3 <= n ->
    codes off (Copy distance n) (prefix t ++ value_bits size (distance - base) ++ length_code n)
| code_run t size bytes pad :
    t ∈ TOKEN_TABLE -> ty t = Match size 0 -> llen bytes < 2 ^ 15 -> Forall is_u8 bytes ->
    let header := prefix t ++ value_bits size 0 ++ value_bits 15 (llen bytes) in
    llen pad = (- (off + llen header)) mod 8 ->
    codes off (Run bytes) (header ++ pad ++ (bytes ≫= byte_bits)).

Inductive stream (off : Z) : list item -> list bool -> Prop :=
| stream_nil : stream off [] []
| stream_cons it items l k :
    codes off it l -> stream (off + llen l) items k -> stream off (it :: items) (l ++ k).

(** ** Numbers as bits *)

Lemma llen_value_bits w v : 0 <= w -> llen (value_bits w v) = w.
Proof. intros. unfold value_bits, llen. rewrite length_fmap, length_reverse, length_seqZ. lia. Qed.

Lemma value_bits_S w v : 0 <= w -> value_bits (w + 1) v = Z.testbit v w :: value_bits w v.
Proof.
  intros Hw. unfold value_bits. rewrite seqZ_app by lia. rewrite reverse_app. cbn. done.
Qed.

Lemma bits_value_bits w v : 0 <= w -> 0 <= v < 2 ^ w -> bits_value (value_bits w v) = v.
Proof.
  intros Hw. revert w Hw v. apply (natlike_ind (fun w => forall v, 0 <= v < 2 ^ w -> bits_value (value_bits w v) = v)).
  { intros v Hv. change (2 ^ 0) with 1 in Hv. change (0 = v). lia. }
  intros w Hw IH v Hv. rewrite <- Z.add_1_r in *. rewrite value_bits_S by lia.
  assert (Hlow : value_bits w v = value_bits w (v mod 2 ^ w)).
  { unfold value_bits. apply list_fmap_ext. intros i x Hx.
    apply list_elem_of_lookup_2, elem_of_reverse, elem_of_seqZ in Hx.
    by rewrite Z.mod_pow2_bits_low by lia. }
  rewrite Hlow. change (?b :: ?l) with ([b] ++ l). rewrite bits_value_app, IH by (apply Z.mod_pos_bound; lia).
  rewrite llen_value_bits by lia. change (bits_value [?b]) with (2 * 0 + Z.b2z b).
  rewrite Z.testbit_spec' by lia. rewrite Z.pow_add_r in Hv by lia.
  rewrite (Z.mod_small (v / 2 ^ w)).
  - rewrite (Z.div_mod v (2 ^ w)) at 3 by lia. lia.
  - split; [apply Z.div_pos; lia|apply Z.div_lt_upper_bound; lia].
Qed.

Lemma byte_bits_eq b : byte_bits b = value_bits 8 b.
Proof. done. Qed.

(** ** Reading bits *)

Section decoder.
Context {BV : Bitvec} {BF : Bitflags} {BO : Byteorder} {GF : BitField}.

Abbreviation dview d := (view (Bits.bits_slice (d_bits d))).

(** The reader's count of bits used of the current byte is where its slice
    starts. *)
Definition reader_wf (b : Bits.t) : Prop :=
  0 <= Bits.remaining_bits_of_last_byte b < 8 /\
  (view (Bits.bits_slice b) <> [] -> head (Bits.bits_slice b) = Bits.remaining_bits_of_last_byte b).

(** What a successful split of [n] bits gives. *)
Record splits (b : Bits.t) (n : Z) (s : BitSlice) (b' : Bits.t) : Prop := {
  sp_view : view s = take (Z.to_nat n) (view (Bits.bits_slice b));
  sp_rest : view (Bits.bits_slice b') = drop (Z.to_nat n) (view (Bits.bits_slice b));
  sp_head : view s <> [] -> head s = Bits.remaining_bits_of_last_byte b;
  sp_rem : Bits.remaining_bits_of_last_byte b' = (Bits.remaining_bits_of_last_byte b + n) mod 8;
  sp_wf : reader_wf b';
}.

Lemma split_to_spec b n :
  reader_wf b -> 0 <= n <= Bits.len b ->
  exists s b', Bits.split_to b n = Some (s, b') /\ splits b n s b'.
Proof.
  intros [Hr Hh] Hn. unfold Bits.split_to, Bits.len in *.
  destruct (split_at_spec (Bits.bits_slice b) n) as [[_ ?]|(s & r & -> & _ & Hs & Hv & Hhs & Hhr)]; [lia|].
  assert (Hne : forall l : list bool, l <> [] -> forall k, l = take k (view (Bits.bits_slice b)) \/
    l = drop k (view (Bits.bits_slice b)) -> view (Bits.bits_slice b) <> []).
  { intros l Hl k [Hk|Hk] H0; rewrite H0 in Hk; [rewrite take_nil in Hk|rewrite drop_nil in Hk]; done. }
  eexists _, _. split; [reflexivity|]. split; cbn [Bits.bits_slice Bits.remaining_bits_of_last_byte]; [done|done| |done|].
  - intros H. rewrite Hhs by done. eauto.
  - split; cbn [Bits.bits_slice Bits.remaining_bits_of_last_byte]; [apply Z.mod_pos_bound; lia|].
    intros H. rewrite Hhr by done. by rewrite Hh by eauto.
Qed.

Lemma wpm_split_to n Q d :
  reader_wf (d_bits d) -> 0 <= n <= llen (dview d) ->
  (forall s b, splits (d_bits d) n s b -> Q (inr s) (mkDecoding b (d_sink d))) -> wpm (split_to n) Q d.
Proof.
  intros Hw Hn HQ. destruct (split_to_spec (d_bits d) n Hw Hn) as (s & b & Hs & Hsp).
  unfold split_to. apply wpm_access. cbn [id]. rewrite Hs. unfold wpm. cbn. by apply HQ.
Qed.

Lemma wpm_try_split_to n Q d :
  reader_wf (d_bits d) -> 0 <= n ->
  (llen (dview d) < n -> forall e, Q (inl e) d) ->
  (n <= llen (dview d) -> forall s b, splits (d_bits d) n s b -> Q (inr s) (mkDecoding b (d_sink d))) ->
  wpm (try_split_to n) Q d.
Proof.
  intros Hw Hn He HQ. unfold try_split_to. apply wpm_access. cbn [id]. unfold Bits.len.
  destruct (Z.ltb_spec (llen (dview d)) n) as [H|H]; [apply wpm_throw; auto|].
  apply wpm_split_to; auto.
Qed.

(** Reading what is known to be there. *)
Lemma wpm_split_known a rest n Q d :
  reader_wf (d_bits d) -> dview d = a ++ rest -> n = llen a ->
  (forall s b, view s = a -> view (Bits.bits_slice b) = rest -> reader_wf b ->
    Bits.remaining_bits_of_last_byte b = (Bits.remaining_bits_of_last_byte (d_bits d) + llen a) mod 8 ->
    (a <> [] -> head s = Bits.remaining_bits_of_last_byte (d_bits d)) ->
    Q (inr s) (mkDecoding b (d_sink d))) ->
  wpm (try_split_to n) Q d.
Proof.
  intros Hw Hd -> HQ. apply wpm_try_split_to; [done|apply llen_nonneg|rewrite Hd, llen_app; pose proof (llen_nonneg rest); lia|].
  intros _ s b [Hs Hr Hh Hm Hb]. rewrite Hd in Hs, Hr. unfold llen in Hs, Hr. rewrite Nat2Z.id in Hs, Hr.
  rewrite take_app_length in Hs. rewrite drop_app_length in Hr. apply HQ; auto. intros H. apply Hh. congruence.
Qed.

Lemma starts_with_spec b p : Bits.starts_with b p = true <-> p `prefix_of` view (Bits.bits_slice b).
Proof.
  unfold Bits.starts_with.
  destruct (split_at_spec (Bits.bits_slice b) (llen p)) as [[-> Hn]|(s & r & -> & Hn & Hs & _)].
  - split; [done|]. intros [k Hk]. destruct Hn. rewrite Hk, llen_app.
    pose proof (llen_nonneg p). pose proof (llen_nonneg k). lia.
  - rewrite bool_decide_eq_true, Hs. unfold llen. rewrite Nat2Z.id. split.
    + intros H. exists (drop (length p) (view (Bits.bits_slice b))). by rewrite <- H at 1; rewrite take_drop.
    + intros [k ->]. by rewrite take_app_length.
Qed.

End decoder.

(** ** The token table *)

#[export] Instance TokenType_eq_dec : EqDecision TokenType.
Proof. solve_decision. Defined.
#[export] Instance Token_eq_dec : EqDecision Token.
Proof. solve_decision. Defined.

(** No prefix is the beginning of another. *)
Lemma table_prefix_free t u :
  t ∈ TOKEN_TABLE -> u ∈ TOKEN_TABLE -> prefix t `prefix_of` prefix u -> t = u.
Proof.
  intros Ht Hu Hp.
  assert (H : forallb (fun t => forallb (fun u =>
    negb (bool_decide (prefix t `prefix_of` prefix u)) || bool_decide (t = u)) TOKEN_TABLE) TOKEN_TABLE = true)
    by reflexivity.
  rewrite forallb_forall in H. apply list_elem_of_In in Ht, Hu. specialize (H t Ht). cbn beta in H.
  rewrite forallb_forall in H. specialize (H u Hu). cbn beta in H.
  rewrite (bool_decide_eq_true_2 (_ `prefix_of` _)) in H by done. by apply bool_decide_eq_true in H.
Qed.

(** Every field of the table is small enough for the integers it is read into. *)
Lemma table_shape t : t ∈ TOKEN_TABLE ->
  1 <= llen (prefix t) <= 9 /\
  match ty t with
  | NullLiteral => True
  | Literal v => is_u8 v
  | Match size base => 5 <= size <= 24 /\ 0 <= base /\ base + 2 ^ size < 2 ^ 32
  end.
Proof.
  intros Ht. assert (H : forallb (fun t => (1 <=? llen (prefix t)) && (llen (prefix t) <=? 9) &&
    match ty t with
    | NullLiteral => true
    | Literal v => (0 <=? v) && (v <? 256)
    | Match size base => (5 <=? size) && (size <=? 24) && (0 <=? base) && (base + 2 ^ size <? 2 ^ 32)
    end) TOKEN_TABLE = true) by reflexivity.
  rewrite forallb_forall in H. apply list_elem_of_In in Ht. specialize (H t Ht). cbn beta in H.
  destruct (ty t); unfold is_u8; lia.
Qed.

Section find.
Context {BV : Bitvec}.

Lemma find_token_known b t rest :
  t ∈ TOKEN_TABLE -> view (Bits.bits_slice b) = prefix t ++ rest -> find_token b = Some t.
Proof.
  intros Ht Hv. unfold find_token.
  assert (Hs : Bits.starts_with b (prefix t) = true) by (apply starts_with_spec; rewrite Hv; by exists rest).
  destruct (find _ TOKEN_TABLE) as [u|] eqn:Hf.
  - apply find_some in Hf as [Hu Hp]. apply list_elem_of_In in Hu.
    apply starts_with_spec in Hp, Hs. f_equal.
    destruct (prefix_weak_total _ _ _ Hp Hs); [by apply table_prefix_free|symmetry; by apply table_prefix_free].
  - apply list_elem_of_In in Ht. apply (find_none _ _ Hf) in Ht. cbn in Ht. congruence.
Qed.

End find.

(** ** Decoding an item *)

Section items.
Context {BV : Bitvec} {BF : Bitflags} {BO : Byteorder} {GF : BitField}.

Abbreviation dview d := (view (Bits.bits_slice (d_bits d))).
Abbreviation drem d := (Bits.remaining_bits_of_last_byte (d_bits d)).

Definition sink_wf (s : Sink) : Prop :=
  Ring.ring_wf (history s) /\ llen (FixedCircularBuffer.buffer (history s)) = HISTORY_SIZE.

(** [s'] is [s] after it has been given [out]. *)
Definition fed (s : Sink) (out : list Z) (s' : Sink) : Prop :=
  output s' = output s ++ out /\
  Ring.contents (history s') = slide (Ring.contents (history s)) out /\ sink_wf s'.

Lemma fed_nil s : sink_wf s -> fed s [] s.
Proof. intros H. split_and!; [by rewrite app_nil_r|by rewrite Ring.slide_nil|done]. Qed.

Lemma fed_app s a s1 c s2 : fed s a s1 -> fed s1 c s2 -> fed s (a ++ c) s2.
Proof.
  intros (Ho & Hc & _) (Ho' & Hc' & Hw). split_and!; [|by rewrite Ring.slide_app, <- Hc|done].
  by rewrite Ho', Ho, app_assoc.
Qed.

(** The history takes whatever it is given. *)
Lemma write_all_fed s bytes :
  sink_wf s -> exists h, FixedCircularBuffer.write_all (history s) bytes = Ok h /\
    fed s bytes (mkSink h (output s ++ bytes)).
Proof.
  intros [Hr Hl]. destruct (Ring.write_all_spec (history s) bytes Hr) as (h & -> & Hr' & Hl' & Hc).
  exists h. split; [done|]. split_and!; [done|done|]. split; cbn [history]; [done|].
  unfold llen in *. lia.
Qed.

Lemma wpm_emit bytes Q d :
  sink_wf (d_sink d) ->
  (forall s, fed (d_sink d) bytes s -> Q (inr tt) (mkDecoding (d_bits d) s)) ->
  wpm (emit bytes bytes) Q d.
Proof.
  intros Hs HQ. destruct (write_all_fed _ bytes Hs) as (h & Hw & Hf).
  unfold emit. apply wpm_access. cbn [id]. apply wpm_bind. rewrite Hw. by apply HQ.
Qed.

Lemma wpm_load w s (Q : ZgfxError + Z -> Decoding -> Prop) d :
  1 <= llen (view s) <= w -> Q (inr (bits_value (view s))) d -> wpm (expect (load_be w s)) Q d.
Proof.
  intros H HQ. rewrite load_be_spec, !(proj2 (Z.leb_le _ _)) by lia. done.
Qed.

Lemma leading_ones_known s k rest :
  view s = replicate k true ++ false :: rest -> leading_ones s = Z.of_nat k.
Proof.
  intros Hv. destruct (leading_ones_spec s) as (k' & rest' & -> & Hv' & Hh). f_equal.
  rewrite Hv in Hv'. clear Hv. revert k' Hv'.
  induction k as [|k IH]; intros [|k'] H; cbn in H; [done|done|by subst rest'|].
  injection H as H. f_equal. by apply IH.
Qed.

Lemma length_code_split n :
  3 <= n -> exists k v, length_code n = replicate k true ++ false :: v /\
    (k = 0%nat /\ n = 3 /\ v = [] \/
     (0 < k)%nat /\ llen v = Z.of_nat k + 1 /\ Z.of_nat k + 1 = Z.log2 n /\
     n = 2 ^ (Z.of_nat k + 1) + bits_value v).
Proof.
  intros Hn. unfold length_code. destruct (Z.eqb_spec n 3) as [->|].
  { exists 0%nat, []. split; [done|]. by left. }
  assert (2 <= Z.log2 n) by (change 2 with (Z.log2 4); apply Z.log2_le_mono; lia).
  exists (Z.to_nat (Z.log2 n - 1)), (value_bits (Z.log2 n) (n - 2 ^ Z.log2 n)). split; [done|]. right.
  pose proof (Z.log2_spec n ltac:(lia)) as Hl. rewrite Z.pow_succ_r in Hl by lia.
  rewrite llen_value_bits by lia. split_and!; [lia|lia|lia|].
  replace (Z.of_nat (Z.to_nat (Z.log2 n - 1)) + 1) with (Z.log2 n) by lia.
  rewrite bits_value_bits; lia.
Qed.

(** The bits that are left and the state of the reader after [l]. *)
Definition consumed (d : Decoding) (l rest : list bool) (b : Bits.t) : Prop :=
  view (Bits.bits_slice b) = rest /\ reader_wf b /\
  Bits.remaining_bits_of_last_byte b = (drem d + llen l) mod 8.

Lemma consumed_app d d1 l k rest b :
  consumed d1 k rest b -> consumed d l (k ++ rest) (d_bits d1) -> consumed d (l ++ k) rest b.
Proof.
  intros (? & ? & Hb') (_ & _ & Hb). split_and!; [done|done|]. rewrite Hb', Hb, llen_app.
  rewrite Z.add_mod_idemp_l by lia. f_equal. lia.
Qed.

Lemma wpm_take a rest n Q d :
  reader_wf (d_bits d) -> dview d = a ++ rest -> n = llen a ->
  (forall s b, view s = a -> consumed d a rest b -> (a <> [] -> head s = drem d) ->
    Q (inr s) (mkDecoding b (d_sink d))) ->
  wpm (try_split_to n) Q d.
Proof.
  intros Hw Hd Hn HQ. eapply wpm_split_known; [done..|]. intros s b Hs Hr Hb Hm Hh.
  apply HQ; [done| |done]. by split_and!.
Qed.

Lemma wpm_take_exact a rest n Q d :
  reader_wf (d_bits d) -> dview d = a ++ rest -> n = llen a ->
  (forall s b, view s = a -> consumed d a rest b -> Q (inr s) (mkDecoding b (d_sink d))) ->
  wpm (split_to n) Q d.
Proof.
  intros Hw Hd -> HQ. apply wpm_split_to; [done|rewrite Hd, llen_app; pose proof (llen_nonneg a); pose proof (llen_nonneg rest); lia|].
  intros s b [Hs Hr Hh Hm Hb]. rewrite Hd in Hs, Hr. unfold llen in Hs, Hr. rewrite Nat2Z.id in Hs, Hr.
  rewrite take_app_length in Hs. rewrite drop_app_length in Hr. apply HQ; [done|]. by split_and!.
Qed.

Lemma wpm_match_length n rest Q d :
  3 <= n < 2 ^ 63 -> reader_wf (d_bits d) -> dview d = length_code n ++ rest ->
  (forall b, consumed d (length_code n) rest b -> Q (inr n) (mkDecoding b (d_sink d))) ->
  wpm read_match_length Q d.
Proof.
  intros Hn Hw Hd HQ. destruct (length_code_split n) as (k & v & Hc & Hk); [lia|].
  assert (Hlog : Z.log2 n < 63) by (apply Z.log2_lt_pow2; lia).
  unfold read_match_length. apply wpm_access. cbn [id].
  rewrite Hc, <- app_assoc in Hd. rewrite (leading_ones_known _ k (v ++ rest)) by done.
  assert (Hk63 : Z.of_nat k + 1 < 64) by (destruct Hk as [(-> & _)|(_ & _ & ? & _)]; lia).
  rewrite (proj2 (Z.leb_le (Z.of_nat k + 1) U64_MAX)) by (unfold U64_MAX; lia).
  apply wpm_bind, wpm_ret, wpm_bind.
  eapply (wpm_take (replicate k true ++ [false]) (v ++ rest));
    [done|by rewrite <- app_assoc|unfold llen; rewrite length_app, length_replicate; simpl; lia|].
  intros s b _ Hb _. destruct Hk as [(-> & -> & ->)|(Hk & Hv & Hl & Hn')].
  - apply wpm_ret, HQ. by rewrite Hc.
  - rewrite (proj2 (Z.eqb_neq _ _)) by lia. unfold USIZE_BITS. rewrite (proj2 (Z.leb_gt _ _)) by lia.
    apply wpm_bind. eapply (wpm_take v rest); [apply Hb|apply Hb|by rewrite Hv|].
    intros s' b' Hs' Hb' _. cbn [d_sink]. apply wpm_bind, wpm_load; [rewrite Hs'; lia|].
    rewrite Hs', Z.shiftl_1_l, <- Hn'. rewrite (proj2 (Z.leb_le _ _)) by (unfold U64_MAX; lia).
    apply wpm_ret, HQ. rewrite Hc. change (?l ++ false :: v) with (l ++ [false] ++ v). rewrite app_assoc.
    exact (consumed_app _ (mkDecoding b (d_sink d)) _ _ _ _ Hb' Hb).
Qed.

(** *** The three kinds of item *)

(** What decoding [it] from [l] leaves. *)
Definition decoded (d : Decoding) (l rest : list bool) (out : list Z) (r : ZgfxError + Z) (d' : Decoding) : Prop :=
  r = inr (llen out) /\ consumed d l rest (d_bits d') /\ fed (d_sink d) out (d_sink d').

Lemma decode_copy distance n max l0 rest d d0 :
  sink_wf (d_sink d) -> d_sink d = d_sink d0 -> 0 < distance <= HISTORY_SIZE -> 3 <= n <= max -> n < 2 ^ 63 ->
  consumed d0 l0 (length_code n ++ rest) (d_bits d) ->
  wpm (read_encoded_bytes distance max)
    (decoded d0 (l0 ++ length_code n) rest (lz_copy (Ring.contents (history (d_sink d))) (Z.to_nat distance) (Z.to_nat n))) d.
Proof.
  intros Hs Hd0 Hdist Hn Hn63 Hc. unfold read_encoded_bytes. apply wpm_bind.
  eapply (wpm_match_length n rest); [lia|apply Hc|apply Hc|]. intros b Hb.
  rewrite (proj2 (Z.ltb_ge _ _)) by lia. apply wpm_access. cbn [id d_sink].
  destruct Hs as [Hr Hl].
  rewrite (Ring.read_with_offset_spec _ _ _ _ Hr) by lia. apply wpm_bind, wpm_ret.
  set (out := lz_copy _ _ _). assert (Ho : llen out = n).
  { unfold llen, out. rewrite Ring.length_lz_copy; [lia|]. rewrite Ring.length_contents. unfold llen in Hl. lia. }
  apply wpm_update. apply wpm_bind.
  rewrite Ring.slice_ok by (rewrite ?llen_app; pose proof (llen_nonneg (output (d_sink d))); lia).
  apply wpm_ret.
  replace (drop (Z.to_nat (llen (output (d_sink d)))) (output (d_sink d) ++ out)) with out
    by (unfold llen; by rewrite Nat2Z.id, drop_app_length).
  rewrite take_ge by (unfold llen; rewrite length_app; lia).
  destruct (write_all_fed (d_sink d) out (conj Hr Hl)) as (h & -> & Hf). apply wpm_bind, wpm_ret, wpm_update, wpm_ret.
  split_and!; [by rewrite Ho| |by rewrite <- Hd0].
  cbn [d_bits]. exact (consumed_app _ _ _ _ _ _ Hb Hc).
Qed.

Lemma decode_run bytes pad max l0 l rest d d0 :
  sink_wf (d_sink d) -> d_sink d = d_sink d0 -> llen bytes < 2 ^ 15 -> llen bytes <= max -> Forall is_u8 bytes ->
  consumed d0 l0 (value_bits 15 (llen bytes) ++ pad ++ (bytes ≫= byte_bits) ++ rest) (d_bits d) ->
  llen pad = (- (drem d + 15)) mod 8 -> l = value_bits 15 (llen bytes) ++ pad ++ (bytes ≫= byte_bits) ->
  wpm (read_unencoded_bytes max) (decoded d0 (l0 ++ l) rest bytes) d.
Proof.
  intros Hs Hd0 Hb15 Hmax Hok Hc Hpad ->. pose proof (llen_nonneg bytes) as Hb0. unfold read_unencoded_bytes.
  apply wpm_bind. eapply (wpm_take (value_bits 15 (llen bytes))); [apply Hc|apply Hc|by rewrite llen_value_bits|].
  intros s b Hv Hb _. apply wpm_bind, wpm_load; [rewrite Hv, llen_value_bits by lia; unfold USIZE_BITS; lia|].
  rewrite Hv, bits_value_bits by lia. rewrite (proj2 (Z.ltb_ge _ _)) by lia. apply wpm_access. cbn [id d_bits].
  assert (Hrem : Bits.remaining_bits_of_last_byte b = (drem d + 15) mod 8).
  { destruct Hb as (_ & _ & ->). by rewrite llen_value_bits. }
  apply wpm_bind.
  assert (Hpadded : wpm (if 0 <? Bits.remaining_bits_of_last_byte b
      then _ ← try_split_to (8 - Bits.remaining_bits_of_last_byte b); mret tt else mret tt)
    (fun r d' => r = inr tt /\ d_sink d' = d_sink d /\ drem d' = 0 /\
       consumed (mkDecoding b (d_sink d)) pad ((bytes ≫= byte_bits) ++ rest) (d_bits d')) (mkDecoding b (d_sink d))).
  { destruct (Z.ltb_spec 0 (Bits.remaining_bits_of_last_byte b)) as [H|H].
    - apply wpm_bind. eapply (wpm_take pad); [apply Hb|apply Hb|zdm|]. intros s' b' _ Hb' _. apply wpm_ret.
      cbn [d_bits d_sink]. split_and!; [done|done| |exact Hb']. destruct Hb' as (_ & _ & ->). cbn [d_bits]. zdm.
    - assert (pad = []) as -> by (destruct pad; [done|rewrite llen_cons in Hpad; pose proof (llen_nonneg pad); zdm]).
      apply wpm_ret. destruct Hb as (Hv' & Hw' & ?). cbn [d_bits d_sink]. split_and!; [done|done|zdm|].
      unfold consumed. cbn [d_bits]. rewrite llen_nil. split_and!; [done|done|zdm]. }
  eapply wpm_mono; [exact Hpadded|]. intros r d' (-> & Hsink & H0 & Hc').
  rewrite (proj2 (Z.leb_le _ _)) by (unfold U64_MAX; lia). apply wpm_bind, wpm_ret, wpm_bind.
  assert (Hbl : length (bytes ≫= byte_bits) = (8 * length bytes)%nat) by apply length_byte_bits_bind.
  eapply (wpm_take (bytes ≫= byte_bits)); [apply Hc'|apply Hc'|unfold llen; lia|].
  intros s' b' Hv' Hb' Hh'. assert (Hraw : raw_bytes s' = bytes).
  { rewrite (raw_bytes_spec s' (length bytes)); [by rewrite Hv', pack_byte_bits| |by rewrite Hv'].
    rewrite Hv'. destruct (bytes ≫= byte_bits); [by left|]. right. by rewrite Hh'. }
  rewrite Hraw. apply wpm_bind, wpm_emit; [cbn [d_sink]; by rewrite Hsink|]. cbn [d_sink d_bits]. intros sk Hf.
  apply wpm_ret. split_and!; [done| |cbn [d_sink]; by rewrite <- Hd0, <- Hsink].
  cbn [d_bits]. rewrite !app_assoc. apply (consumed_app _ d' _ _ _ _ Hb').
  apply (consumed_app _ (mkDecoding b (d_sink d)) _ _ _ _ Hc'). exact (consumed_app _ _ _ _ _ _ Hb Hc).
Qed.

Lemma decode_item it l rest written d :
  codes (drem d) it l -> reader_wf (d_bits d) -> dview d = l ++ rest -> sink_wf (d_sink d) ->
  let out := produce (Ring.contents (history (d_sink d))) it in
  0 <= written -> written + llen out <= MAX_DECOMPRESSED_PER_SEGMENT ->
  wpm (decode_token written) (decoded d l rest out) d.
Proof.
  intros Hcodes Hw Hd Hs out Hw0 Hmax. unfold decode_token. apply wpm_access. cbn [id].
  unfold MAX_DECOMPRESSED_PER_SEGMENT in *.
  assert (Hstart : forall t tail, t ∈ TOKEN_TABLE -> l = prefix t ++ tail -> forall k : Token -> Mut Decoding ZgfxError Z,
    (forall b, consumed d (prefix t) (tail ++ rest) b ->
      wpm (k t) (decoded d l rest out) (mkDecoding b (d_sink d))) ->
    wpm (token ← ok_or TokenBitsNotFound (find_token (d_bits d)); _ ← split_to (llen (prefix token)); k token)
      (decoded d l rest out) d).
  { intros t tail Ht Hl k Hk. rewrite Hl, <- app_assoc in Hd. rewrite (find_token_known _ t (tail ++ rest)) by done.
    apply wpm_bind, wpm_ret, wpm_bind. eapply wpm_take_exact; [done..|]. intros s b _ Hb. by apply Hk. }
  destruct Hcodes as [t b Ht Hty Hb|t b Ht Hty|t size base dist n Ht Hty Hdist Hh Hn|t size bytes pad Ht Hty Hlen Hok header Hpad];
    destruct (table_shape t Ht) as [Hp Hshape]; rewrite Hty in Hshape; cbn [produce] in out.
  - eapply (Hstart t); [done..|]. intros b1 H1. rewrite Hty. apply wpm_bind.
    eapply (wpm_take (value_bits 8 b)); [apply H1|apply H1|by rewrite llen_value_bits|].
    intros s b2 Hv H2 _. cbn [d_sink]. apply wpm_bind, wpm_load; [rewrite Hv, llen_value_bits by lia; lia|].
    rewrite Hv, bits_value_bits by (unfold is_u8 in Hb; lia). rewrite bo_u8_spec. cbn [to_le_bytes].
    rewrite Z.mod_small by done. apply wpm_bind, wpm_emit; [done|]. intros s' Hf. apply wpm_ret.
    split_and!; [done| |done]. cbn [d_bits]. exact (consumed_app _ (mkDecoding b1 (d_sink d)) _ _ _ _ H2 H1).
  - eapply (Hstart t []); [done|by rewrite app_nil_r|]. intros b1 H1. rewrite Hty. apply wpm_access. cbn [id d_sink].
    rewrite bo_u8_spec. cbn [to_le_bytes]. rewrite Z.mod_small by done.
    destruct (write_all_fed _ [b] Hs) as (h & -> & Hf). apply wpm_bind, wpm_ret, wpm_update, wpm_ret.
    by split_and!.
  - eapply (Hstart t); [done..|]. intros b1 H1. rewrite Hty. rewrite (proj2 (Z.leb_le _ _)) by (pose proof (llen_nonneg out); lia).
    apply wpm_bind, wpm_ret. unfold handle_match. apply wpm_bind. rewrite <- app_assoc in H1.
    assert (Ho : llen out = n).
    { unfold llen, out. rewrite Ring.length_lz_copy; [lia|]. rewrite Ring.length_contents. destruct Hs as [_ Hl].
      unfold llen in Hl. lia. }
    eapply (wpm_take (value_bits size (dist - base))); [apply H1|apply H1|rewrite llen_value_bits; lia|].
    intros s b2 Hv H2 _. cbn [d_sink]. apply wpm_bind, wpm_load; [rewrite Hv, llen_value_bits by lia; lia|].
    rewrite Hv, bits_value_bits by lia. replace (base + (dist - base)) with dist by lia.
    rewrite (proj2 (Z.ltb_lt _ _)) by lia. apply wpm_bind, wpm_ret.
    rewrite (proj2 (Z.eqb_neq _ _)), (proj2 (Z.ltb_ge HISTORY_SIZE _)) by lia.
    rewrite app_assoc. apply decode_copy; [done|done|done|lia|lia|]. cbn [d_bits]. exact (consumed_app _ (mkDecoding b1 (d_sink d)) _ _ _ _ H2 H1).
  - eapply (Hstart t (value_bits size 0 ++ value_bits 15 (llen bytes) ++ pad ++ (bytes ≫= byte_bits)));
      [done|unfold header; by rewrite <- !app_assoc|].
    intros b1 H1. rewrite Hty. rewrite (proj2 (Z.leb_le _ _)) by (pose proof (llen_nonneg out); lia).
    apply wpm_bind, wpm_ret. unfold handle_match. apply wpm_bind. rewrite <- !app_assoc in H1.
    eapply (wpm_take (value_bits size 0)); [apply H1|apply H1|rewrite llen_value_bits; lia|].
    intros s b2 Hv H2 _. cbn [d_sink]. apply wpm_bind, wpm_load; [rewrite Hv, llen_value_bits by lia; lia|].
    rewrite Hv, bits_value_bits by lia. cbn [Z.add Z.ltb Z.eqb]. apply wpm_bind, wpm_ret.
    unfold header. rewrite <- !app_assoc, app_assoc.
    eapply decode_run; [done|done|done|lia|done| | |done].
    + cbn [d_bits]. exact (consumed_app _ (mkDecoding b1 (d_sink d)) _ _ _ _ H2 H1).
    + cbn [d_bits]. rewrite Hpad. destruct H2 as (_ & _ & ->), H1 as (_ & _ & H1). cbn [d_bits]. rewrite H1.
      unfold header. rewrite !llen_app, (llen_value_bits 15) by lia. zdm.
Qed.

(** *** A whole stream *)

Lemma codes_nonempty off it l : codes off it l -> 0 < llen l.
Proof.
  assert (H : forall t k, t ∈ TOKEN_TABLE -> 0 < llen (prefix t ++ k)).
  { intros t k Ht. destruct (table_shape t Ht) as [Hp _]. rewrite llen_app. pose proof (llen_nonneg k). lia. }
  intros [t b Ht|t b Ht|t size base dist n Ht|t size bytes pad Ht Hty Hl Hok header Hpad]; [by apply H| |by apply H|].
  - rewrite <- (app_nil_r (prefix t)). by apply H.
  - unfold header. rewrite <- app_assoc. by apply H.
Qed.

(** Only the place in the byte matters. *)
Lemma codes_mod off off' it l : off mod 8 = off' mod 8 -> codes off it l -> codes off' it l.
Proof.
  intros Ho [t b Ht|t b Ht|t size base dist n Ht|t size bytes pad Ht Hty Hl Hok header Hpad];
    [by apply code_null|by apply code_literal|by eapply code_copy|].
  eapply code_run; [done..|]. fold header. rewrite Hpad. zdm.
Qed.

Lemma decode_stream items l off fuel written d :
  stream off items l -> drem d = off mod 8 -> reader_wf (d_bits d) -> dview d = l -> sink_wf (d_sink d) ->
  (length l <= fuel)%nat ->
  let out := expand (Ring.contents (history (d_sink d))) items in
  0 <= written -> written + llen out <= MAX_DECOMPRESSED_PER_SEGMENT ->
  wpm (decode_tokens fuel written) (fun r d' => r = inr (written + llen out) /\ fed (d_sink d) out (d_sink d')) d.
Proof.
  intros Hst. revert fuel written d. induction Hst as [off|off it items l k Hc Hst IH];
    intros fuel written d Hrem Hw Hd Hs Hf out Hw0 Hmax.
  - assert (He : Bits.is_empty (d_bits d) = true) by (unfold Bits.is_empty, Bits.len; by rewrite Hd).
    destruct fuel; cbn [decode_tokens]; apply wpm_access; cbn [id]; rewrite He;
      (apply wpm_ret; unfold out; cbn [expand]; rewrite llen_nil, Z.add_0_r; split; [done|by apply fed_nil]).
  - pose proof (codes_nonempty _ _ _ Hc) as Hl. rewrite length_app in Hf.
    destruct fuel as [|fuel]; [unfold llen in Hl; lia|]. cbn [decode_tokens]. apply wpm_access. cbn [id].
    assert (He : Bits.is_empty (d_bits d) = false).
    { unfold Bits.is_empty, Bits.len. rewrite Hd, llen_app. apply Z.eqb_neq. pose proof (llen_nonneg k). lia. }
    rewrite He. cbn [expand] in out. set (o := produce _ it) in out.
    assert (Ho : llen out = llen o + llen (expand (slide (Ring.contents (history (d_sink d))) o) items))
      by (unfold out; apply llen_app).
    pose proof (llen_nonneg o). pose proof (llen_nonneg (expand (slide (Ring.contents (history (d_sink d))) o) items)).
    apply wpm_bind. eapply wpm_mono; [apply (decode_item it l k written)|].
    + apply (codes_mod off); [|done]. rewrite Hrem. zdm.
    + done.
    + done.
    + done.
    + done.
    + fold o. lia.
    + fold o. intros r d' (-> & (Hv & Hw' & Hr') & Hfed). rewrite (proj2 (Z.ltb_ge _ _)) by lia.
      pose proof Hfed as (_ & Hcont & Hs').
      eapply wpm_mono; [apply (IH fuel (written + llen o) d')|].
      * rewrite Hr', Hrem. zdm.
      * done.
      * done.
      * done.
      * unfold llen in Hl. lia.
      * lia.
      * rewrite Hcont. lia.
      * rewrite Hcont. intros r d'' (-> & Hfed'). split; [f_equal; lia|]. unfold out. by eapply fed_app.
Qed.

(** ** Segments *)

(** The bytes [body] hold the stream [l] and end in [trailing] unused bits. *)
Definition holds_stream (l : list bool) (trailing : Z) (body : list Z) : Prop :=
  exists pad, body ≫= byte_bits = l ++ pad /\ llen pad = trailing.

Lemma segment_decodes_stream items l body last_byte s :
  stream 0 items l -> Forall is_u8 body -> is_u8 last_byte -> holds_stream l (Z.land last_byte 7) body ->
  8 * llen body <= U64_MAX -> sink_wf s ->
  let out := expand (Ring.contents (history s)) items in
  llen out <= MAX_DECOMPRESSED_PER_SEGMENT ->
  exists s', decompress_segment (body ++ [last_byte]) s = Some (inr (llen out), s') /\ fed s out s'.
Proof.
  intros Hst Hb Hl (pad & Hbits & Hpad) Hlen Hs out Hmax.
  cut (wpm (decompress_segment (body ++ [last_byte])) (fun r s' => r = inr (llen out) /\ fed s out s') s).
  { intros H. apply wpm_run in H as (r & s' & ? & -> & ?). by exists s'. }
  unfold decompress_segment. rewrite last_snoc.
  set (enc := body ++ [last_byte]).
  assert (Hall : Forall is_u8 enc) by (apply Forall_app; split; [done|by constructor]).
  assert (Henc : llen enc - 1 = llen body) by (unfold enc; rewrite llen_app; change (llen [last_byte]) with 1; lia).
  rewrite Henc.
  assert (Htot : 8 * llen body = llen l + llen pad).
  { rewrite <- llen_app, <- Hbits. unfold llen. rewrite length_byte_bits_bind. lia. }
  rewrite Hpad in Htot. pose proof (llen_nonneg l). pose proof (land_le_r last_byte 7 ltac:(lia)).
  change 0x07 with 7. rewrite !(proj2 (Z.leb_le _ _)) by lia. apply wpm_bind, wpm_ret, wpm_bind.
  replace (8 * llen body - Z.land last_byte 7) with (llen l) by lia.
  destruct (split_at_spec (from_slice enc) (llen l)) as [[_ Hn]|(a & b & -> & _ & Ha & _ & Hh & _)].
  { destruct Hn. rewrite view_from_slice by done. unfold llen at 3. rewrite length_byte_bits_bind.
    unfold enc. rewrite length_app. unfold llen in *. simpl length. lia. }
  apply wpm_ret. rewrite view_from_slice in Ha by done. unfold enc in Ha. rewrite bind_app, Hbits, <- app_assoc in Ha.
  unfold llen in Ha. rewrite Nat2Z.id, take_app_length in Ha.
  unfold wpm, with_bits. pose proof (decode_stream items l 0 (Z.to_nat (llen l)) 0 (mkDecoding (Bits.new a) s)) as Hd.
  assert (Hrun : wpm (decode_tokens (Z.to_nat (llen l)) 0)
    (fun r d' => r = inr (0 + llen out) /\ fed s out (d_sink d')) (mkDecoding (Bits.new a) s)).
  { apply Hd; [done|done| |done|done|unfold llen; lia|lia|done].
    split; cbn; [lia|]. intros Hne. rewrite Hh by done. apply head_from_slice. }
  unfold wpm in Hrun. destruct (decode_tokens _ _ _) as [[r d']|]; [|done]. exact Hrun.
Qed.

(** The decompressor implements the token language.  A segment that holds
    any stream of well-formed tokens - literals, copies at any distance up to
    the history size with any length of at least 3, unencoded runs - followed
    by the count of unused bits decompresses to exactly the bytes the stream
    stands for, if they fit the per-segment limit; and the history becomes the
    last bytes of the old history and this output. *)
Theorem segment_decodes items l body last_byte s :
  stream 0 items l -> Forall is_u8 body -> is_u8 last_byte -> holds_stream l (Z.land last_byte 7) body ->
  8 * llen body <= U64_MAX -> sink_wf s ->
  let out := expand (Ring.contents (history s)) items in
  llen out <= MAX_DECOMPRESSED_PER_SEGMENT ->
  exists s', decompress_segment (body ++ [last_byte]) s = Some (inr (llen out), s') /\
    output s' = output s ++ out /\
    Ring.contents (history s') = slide (Ring.contents (history s)) out.
Proof.
  intros Hst Hb Hl Hh Hlen Hs out Hmax.
  destruct (segment_decodes_stream items l body last_byte s) as (s' & Hd & Ho & Hc & _); [done..|]. eauto.
Qed.

Lemma sink_wf_new out : sink_wf (mkSink Decompressor_new out).
Proof.
  destruct (Ring.new_spec HISTORY_SIZE) as (Hw & Hl & _); [unfold HISTORY_SIZE; lia|].
  split; cbn [history]; [exact Hw|exact Hl].
Qed.

Lemma contents_new : Ring.contents Decompressor_new = replicate (Z.to_nat HISTORY_SIZE) 0.
Proof. destruct (Ring.new_spec HISTORY_SIZE) as (_ & _ & H); [unfold HISTORY_SIZE; lia|]. exact H. Qed.

End items.

(** An unencoded run of two bytes: token 10001, distance 0, length 2, and
    seven bits of padding. *)
Lemma segment_decodes_witness :
  exists s', @decompress_segment list_bitvec le_byteorder [136; 0; 1; 0; 7; 8; 0] (mkSink Decompressor_new [1]) =
      Some (inr 2, s') /\ output s' = [1; 7; 8] /\
    Ring.contents (history s') = slide (Ring.contents Decompressor_new) [7; 8].
Proof.
  apply (@segment_decodes list_bitvec le_byteorder [Run [7; 8]]
    (bits [1; 0; 0; 0; 1] ++ value_bits 5 0 ++ value_bits 15 2 ++ replicate 7 false ++ ([7; 8] ≫= byte_bits))
    [136; 0; 1; 0; 7; 8] 0 (mkSink Decompressor_new [1])).
  - rewrite <- (app_nil_r (_ ++ _)). apply stream_cons; [|apply stream_nil].
    apply (code_run 0 (mkToken (bits [1; 0; 0; 0; 1]) (Match 5 0)) 5 [7; 8] (replicate 7 false));
      [|done|done|by repeat (apply Forall_cons; split; [done|])|reflexivity].
    apply list_elem_of_lookup. by exists 26%nat.
  - by repeat (apply Forall_cons; split; [done|]).
  - done.
  - exists []. split; reflexivity.
  - done.
  - apply sink_wf_new.
  - done.
Defined.
