(* ===== verification/ZgfxSafety.v ===== *)
(** The ZGFX decompressor on arbitrary input: it never panics and its loops
    end, what it hands out is bounded by its limits, and its history stays in
    step with its output on every path, errors included. *)

From S2P Require Import Prelude Cursor Codec Mutation Flags Crates History Zgfx ZgfxTokens.

Section safety.
Context {BV : Bitvec} {BF : Bitflags} {BO : Byteorder} {GF : BitField}.

Abbreviation dview d := (view (Bits.bits_slice (d_bits d))).
Abbreviation SEG := MAX_DECOMPRESSED_PER_SEGMENT.

(** [d'] comes from [d] by reading bits and producing [out]. *)
Record steps (d : Decoding) (out : list Z) (d' : Decoding) : Prop := {
  st_fed : fed (d_sink d) out (d_sink d');
  st_reader : reader_wf (d_bits d');
  st_bits : llen (dview d') <= llen (dview d);
}.

Definition decoding_wf (d : Decoding) : Prop := reader_wf (d_bits d) /\ sink_wf (d_sink d).

Lemma steps_refl d : decoding_wf d -> steps d [] d.
Proof. intros [Hr Hs]. split; [by apply fed_nil|done|lia]. Qed.

Lemma steps_trans d a d1 c d2 : steps d a d1 -> steps d1 c d2 -> steps d (a ++ c) d2.
Proof. intros [] []. split; [by eapply fed_app|done|lia]. Qed.

Lemma steps_wf d out d' : steps d out d' -> decoding_wf d'.
Proof. intros [(_ & _ & ?) ? _]. by split. Qed.

Lemma steps_read d n s b : decoding_wf d -> splits (d_bits d) n s b -> steps d [] (mkDecoding b (d_sink d)).
Proof.
  intros [Hr Hs] H. split; cbn [d_bits d_sink]; [by apply fed_nil|by apply H|].
  rewrite (sp_rest _ _ _ _ H). unfold llen. rewrite length_drop. lia.
Qed.

Lemma splits_len b n s b' : 0 <= n <= Bits.len b -> splits b n s b' -> llen (view s) = n.
Proof. intros Hn H. rewrite (sp_view _ _ _ _ H). unfold Bits.len, llen in *. rewrite length_take. lia. Qed.

(** Reading bits: an error leaves everything as it was. *)
Lemma wpm_read n (Q : ZgfxError + BitSlice -> Decoding -> Prop) d :
  decoding_wf d -> 0 <= n -> (forall e, Q (inl e) d) ->
  (forall s b, splits (d_bits d) n s b -> llen (view s) = n ->
    steps d [] (mkDecoding b (d_sink d)) -> Q (inr s) (mkDecoding b (d_sink d))) ->
  wpm (try_split_to n) Q d.
Proof.
  intros Hd Hn He HQ. apply wpm_try_split_to; [apply Hd|done|auto|]. intros Hl s b Hs.
  apply HQ; [done|by eapply splits_len|by eapply steps_read].
Qed.

Lemma wpm_value w n (Q : ZgfxError + Z -> Decoding -> Prop) d :
  decoding_wf d -> 1 <= n <= w -> (forall e, Q (inl e) d) ->
  (forall v s b, splits (d_bits d) n s b -> steps d [] (mkDecoding b (d_sink d)) -> 0 <= v < 2 ^ n ->
    Q (inr v) (mkDecoding b (d_sink d))) ->
  wpm (s ← try_split_to n; expect (load_be w s)) Q d.
Proof.
  intros Hd Hn He HQ. apply wpm_bind, wpm_read; [done|lia|done|]. intros s b Hs Hl Hst.
  apply wpm_load; [lia|]. eapply HQ; [done|done|]. rewrite <- Hl. apply bits_value_range.
Qed.

(** What every routine promises: at most [bound] bytes, counted. *)
Definition yields (d : Decoding) (bound : Z) (r : ZgfxError + Z) (d' : Decoding) : Prop :=
  exists out, steps d out d' /\ llen out <= bound /\ forall n, r = inr n -> n = llen out.

Lemma yields_error d bound e d' : 0 <= bound -> steps d [] d' -> yields d bound (inl e) d'.
Proof. intros. exists []. by rewrite llen_nil. Qed.

Lemma yields_after d d1 bound r d' : steps d [] d1 -> yields d1 bound r d' -> yields d bound r d'.
Proof. intros H (out & ? & ?). exists out. split; [by apply (steps_trans _ [] _ out _ H)|done]. Qed.

Lemma wpm_bind_assoc {A B C} (m : Mut Decoding ZgfxError A) (f : A -> Mut Decoding ZgfxError B)
    (g : B -> Mut Decoding ZgfxError C) Q d :
  wpm ((m ≫= f) ≫= g) Q d -> wpm (m ≫= fun a => f a ≫= g) Q d.
Proof. unfold wpm, mbind, Mut_bind. by destruct (m d) as [[[]]|]. Qed.

Lemma match_length_safe d :
  decoding_wf d ->
  wpm read_match_length (fun r d' => steps d [] d' /\ forall n, r = inr n -> 3 <= n) d.
Proof.
  intros Hd. unfold read_match_length. apply wpm_access. cbn [id].
  destruct (leading_ones_spec (Bits.bits_slice (d_bits d))) as (k & rest & -> & _ & _).
  apply wpm_bind. destruct (Z.of_nat k + 1 <=? U64_MAX); [|apply wpm_throw; split; [by apply steps_refl|done]].
  apply wpm_ret, wpm_bind, wpm_read; [done|lia|split; [by apply steps_refl|done]|].
  intros s b Hs _ Hst. destruct (Z.eqb_spec (Z.of_nat k) 0) as [|Hk].
  { apply wpm_ret. split; [done|]. intros n [= <-]. lia. }
  unfold USIZE_BITS. destruct (Z.leb_spec 64 (Z.of_nat k + 1)); [apply wpm_throw; by split|].
  apply wpm_bind_assoc, wpm_bind, wpm_value; [by eapply steps_wf|lia|by split|].
  intros v s' b' _ Hst' Hv. assert (Hall : steps d [] (mkDecoding b' (d_sink d))).
  { exact (steps_trans _ [] _ [] _ Hst Hst'). }
  cbn [d_sink]. rewrite Z.shiftl_1_l. destruct (_ <=? U64_MAX); [|by apply wpm_throw].
  apply wpm_ret. split; [done|]. intros n [= <-].
  assert (2 ^ 2 <= 2 ^ (Z.of_nat k + 1)) by (apply Z.pow_le_mono_r; lia). lia.
Qed.

Lemma encoded_safe distance max d :
  decoding_wf d -> 0 < distance <= HISTORY_SIZE -> 0 <= max ->
  wpm (read_encoded_bytes distance max) (yields d max) d.
Proof.
  intros Hd Hdist Hmax. unfold read_encoded_bytes. apply wpm_bind.
  eapply wpm_mono; [by apply match_length_safe|]. intros [e|n] d' [Hst Hn]; [by apply yields_error|].
  specialize (Hn n eq_refl).
  destruct (Z.ltb_spec max n); [apply wpm_throw; by apply yields_error|]. apply wpm_access. cbn [id].
  destruct (steps_wf _ _ _ Hst) as [Hr [Hring Hl]].
  rewrite (Ring.read_with_offset_spec _ _ _ _ Hring) by lia. apply wpm_bind, wpm_ret, wpm_update, wpm_bind.
  set (out := lz_copy _ _ _). assert (Ho : llen out = n).
  { unfold llen, out. rewrite Ring.length_lz_copy; [lia|]. rewrite Ring.length_contents. unfold llen in Hl. lia. }
  rewrite Ring.slice_ok by (rewrite ?llen_app; pose proof (llen_nonneg (output (d_sink d'))); lia).
  apply wpm_ret.
  replace (drop (Z.to_nat (llen (output (d_sink d')))) (output (d_sink d') ++ out)) with out
    by (unfold llen; by rewrite Nat2Z.id, drop_app_length).
  rewrite take_ge by (unfold llen; rewrite length_app; lia).
  destruct (write_all_fed (d_sink d') out (conj Hring Hl)) as (h & -> & Hf).
  apply wpm_bind, wpm_ret, wpm_update, wpm_ret. exists out. split_and!; [|lia|intros m [= <-]; done].
  apply (steps_trans _ [] _ out _ Hst). by split.
Qed.

(** The pad in front of an unencoded run. *)
Lemma pad_safe d :
  decoding_wf d ->
  wpm (if 0 <? Bits.remaining_bits_of_last_byte (d_bits d)
       then _ ← try_split_to (8 - Bits.remaining_bits_of_last_byte (d_bits d)); mret tt else mret tt)
    (fun r d' => steps d [] d' /\ (r = inr tt -> Bits.remaining_bits_of_last_byte (d_bits d') = 0)) d.
Proof.
  intros Hd. destruct Hd as [Hr Hs] eqn:Heq. destruct Hr as [Hrange Hh] eqn:Heq2.
  destruct (Z.ltb_spec 0 (Bits.remaining_bits_of_last_byte (d_bits d))).
  - apply wpm_bind, wpm_read; [done|lia|split; [by apply steps_refl|done]|]. intros s b Hsp _ Hst.
    apply wpm_ret. split; [done|]. intros _. cbn [d_bits]. rewrite (sp_rem _ _ _ _ Hsp). zdm.
  - apply wpm_ret. split; [by apply steps_refl|]. lia.
Qed.

Lemma unencoded_safe max d :
  decoding_wf d -> 0 <= max -> wpm (read_unencoded_bytes max) (yields d max) d.
Proof.
  intros Hd Hmax. unfold read_unencoded_bytes.
  apply wpm_bind_assoc, wpm_bind, wpm_value; [done|unfold USIZE_BITS; lia|intros e; apply yields_error; [done|by apply steps_refl]|].
  intros v s b _ Hst Hv. destruct (Z.ltb_spec max v); [apply wpm_throw; by apply yields_error|].
  apply wpm_access. cbn [id]. apply wpm_bind.
  eapply wpm_mono; [apply pad_safe; by eapply steps_wf|]. intros [e|[]] d1 [Hst1 Hrem].
  { apply yields_error; [done|]. exact (steps_trans _ [] _ [] _ Hst Hst1). }
  specialize (Hrem eq_refl). assert (H1 : steps d [] d1) by exact (steps_trans _ [] _ [] _ Hst Hst1).
  apply wpm_bind. destruct (v * 8 <=? U64_MAX); [|apply wpm_throw; by apply yields_error].
  apply wpm_ret, wpm_bind, wpm_read; [by eapply steps_wf|lia|intros; by apply yields_error|].
  intros s2 b2 Hsp Hl Hst2.
  assert (Hraw : llen (raw_bytes s2) = v).
  { rewrite (raw_bytes_spec s2 (Z.to_nat v)); [unfold llen; rewrite length_pack_bits; lia| |unfold llen in Hl; lia].
    destruct (view s2) eqn:Hv2; [by left|right]. rewrite (sp_head _ _ _ _ Hsp), Hrem; [done|by rewrite Hv2]. }
  pose proof (steps_wf _ _ _ Hst2) as [Hr2 Hs2]. cbn [d_bits d_sink] in Hr2, Hs2.
  apply wpm_bind, wpm_emit; [done|]. cbn [d_bits d_sink]. intros sk Hf. apply wpm_ret.
  exists (raw_bytes s2). split_and!; [|lia|intros n [= <-]; done].
  apply (steps_trans _ [] _ _ _ H1). apply (steps_trans _ [] _ _ _ Hst2). by split.
Qed.

Lemma match_safe size base max d :
  decoding_wf d -> 1 <= size <= 32 -> 0 <= base -> 0 <= max ->
  wpm (handle_match size base max) (yields d max) d.
Proof.
  intros Hd Hsize Hbase Hmax. unfold handle_match.
  apply wpm_bind_assoc, wpm_bind, wpm_value; [done|lia|intros e; apply yields_error; [done|by apply steps_refl]|].
  intros v s b _ Hst Hv. apply wpm_bind. destruct (_ <? 2 ^ 32); [|apply wpm_throw; by apply yields_error].
  apply wpm_ret. destruct (Z.eqb_spec (base + v) 0); [|destruct (Z.ltb_spec HISTORY_SIZE (base + v))].
  - eapply wpm_mono; [apply unencoded_safe; [by eapply steps_wf|done]|]. intros r d' Hy. by eapply yields_after.
  - apply wpm_throw. by apply yields_error.
  - eapply wpm_mono; [apply encoded_safe; [by eapply steps_wf|lia|done]|]. intros r d' Hy. by eapply yields_after.
Qed.

Lemma literal_fed value d :
  decoding_wf d -> is_u8 value ->
  exists h, FixedCircularBuffer.write_all (history (d_sink d)) (bo_u8 value) = Ok h /\
    steps d [value] (mkDecoding (d_bits d) (mkSink h (output (d_sink d) ++ [value]))).
Proof.
  intros [Hr Hs] Hv. rewrite bo_u8_spec. cbn [to_le_bytes]. rewrite Z.mod_small by done.
  destruct (write_all_fed _ [value] Hs) as (h & Hw & Hf). exists h. split; [done|]. split; [done|done|cbn; lia].
Qed.

Lemma token_safe written d :
  decoding_wf d -> 0 <= written <= SEG ->
  wpm (decode_token written) (fun r d' => yields d (Z.max 1 (SEG - written)) r d' /\
    forall n, r = inr n -> llen (dview d') < llen (dview d)) d.
Proof.
  intros Hd Hw. unfold decode_token. apply wpm_access. cbn [id]. apply wpm_bind, wpm_ok_or.
  2:{ intros _. split; [|done]. apply yields_error; [lia|by apply steps_refl]. }
  intros t Hf. unfold find_token in Hf. apply find_some in Hf as [Ht Hp]. apply list_elem_of_In in Ht.
  apply starts_with_spec in Hp as [rest Hp]. destruct (table_shape t Ht) as [Hlen Hshape]. apply wpm_bind.
  pose proof (llen_nonneg rest).
  apply wpm_split_to; [apply Hd|rewrite Hp, llen_app; lia|]. intros s b Hsp.
  set (d1 := mkDecoding b (d_sink d)). assert (Hst : steps d [] d1) by by eapply steps_read.
  assert (Hlt : llen (dview d1) < llen (dview d)).
  { cbn [d1 d_bits]. rewrite (sp_rest _ _ _ _ Hsp). unfold llen in *. rewrite length_drop, Hp, length_app. lia. }
  pose proof (steps_wf _ _ _ Hst) as Hd1.
  assert (Hfin : forall bound r d', bound <= Z.max 1 (SEG - written) -> yields d1 bound r d' ->
    yields d (Z.max 1 (SEG - written)) r d' /\ forall n, r = inr n -> llen (dview d') < llen (dview d)).
  { intros bound r d' Hb (out & Ho & Hl & Hn). split.
    - exists out. split_and!; [by apply (steps_trans _ [] _ _ _ Hst)|lia|done].
    - intros n _. pose proof (st_bits _ _ _ Ho). lia. }
  destruct (ty t) as [|v|size base].
  - apply wpm_bind_assoc, wpm_bind, wpm_value; [done|lia|intros e; apply (Hfin 0); [lia|]; apply yields_error; [lia|by apply steps_refl]|].
    intros v s' b' _ Hst' Hv. pose proof (steps_wf _ _ _ Hst') as [? ?].
    rewrite bo_u8_spec. cbn [to_le_bytes]. rewrite Z.mod_small by lia.
    apply wpm_bind, wpm_emit; [done|]. intros sk Hf. apply wpm_ret. apply (Hfin 1); [lia|]. exists [v].
    split_and!; [|done|by intros n [= <-]]. apply (steps_trans _ [] _ _ _ Hst'). by split.
  - apply wpm_access. cbn [id]. destruct (literal_fed v d1 Hd1 Hshape) as (h & -> & Hst2).
    apply wpm_bind, wpm_ret, wpm_update, wpm_ret. apply (Hfin 1); [lia|]. exists [v].
    split_and!; [done|done|by intros n [= <-]].
  - rewrite (proj2 (Z.leb_le _ _)) by lia. apply wpm_bind, wpm_ret.
    eapply wpm_mono; [apply match_safe; [done|lia..]|]. intros r d' Hy. by apply (Hfin (SEG - written)); [lia|].
Qed.

Lemma tokens_safe fuel written d :
  decoding_wf d -> 0 <= written <= SEG -> (length (dview d) <= fuel)%nat ->
  wpm (decode_tokens fuel written) (fun r d' => exists out, steps d out d' /\ written + llen out <= SEG + 1 /\
    forall n, r = inr n -> n = written + llen out /\ n <= SEG) d.
Proof.
  revert written d. induction fuel as [|fuel IH]; intros written d Hd Hw Hf; cbn [decode_tokens];
    apply wpm_access; cbn [id]; unfold Bits.is_empty, Bits.len;
    (destruct (Z.eqb_spec (llen (dview d)) 0) as [H0|H0];
     [apply wpm_ret; exists []; rewrite llen_nil; split_and!; [by apply steps_refl|lia|intros n [= <-]; lia]|]).
  { unfold llen in H0. lia. }
  apply wpm_bind. eapply wpm_mono; [by apply token_safe|].
  intros [e|n] d1 [(out & Hst & Hl & Hn) Hlt]; [exists out; split_and!; [done|lia|done]|].
  specialize (Hn n eq_refl) as ->. specialize (Hlt _ eq_refl). pose proof (llen_nonneg out).
  destruct (Z.ltb_spec SEG (written + llen out)).
  { apply wpm_throw. exists out. split_and!; [done|lia|done]. }
  eapply wpm_mono; [apply IH; [by eapply steps_wf|lia|unfold llen in Hlt; lia]|].
  intros r d' (out' & Hst' & Hl' & Hn'). exists (out ++ out'). rewrite llen_app.
  split_and!; [by eapply steps_trans|lia|]. intros n Hr. specialize (Hn' n Hr). lia.
Qed.

(** ** Messages *)

(** A routine on the sink that produces at most [bound] bytes, and counts
    them when it succeeds. *)
Definition produces (bound : Z) (s : Sink) (r : ZgfxError + Z) (s' : Sink) : Prop :=
  exists out, fed s out s' /\ llen out <= bound /\ forall n, r = inr n -> n = llen out.

Lemma segment_safe data s :
  sink_wf s -> Forall is_u8 data ->
  wpm (decompress_segment data) (produces (SEG + 1) s) s.
Proof.
  intros Hs Hb. unfold decompress_segment. destruct (last data) as [last_byte|] eqn:Hlast.
  2:{ apply wpm_ret. exists []. split_and!; [by apply fed_nil|done|by intros n [= <-]]. }
  apply last_Some in Hlast as [body ->]. set (total := 8 * (llen (body ++ [last_byte]) - 1)).
  apply wpm_bind. destruct (_ && _) eqn:Hg.
  2:{ apply wpm_throw. exists []. split_and!; [by apply fed_nil|done|done]. }
  apply andb_prop in Hg as [_ Hg%Z.leb_le]. apply wpm_ret, wpm_bind.
  pose proof (land_le_r last_byte 7 ltac:(lia)). change 0x07 with 7 in *.
  destruct (split_at_spec (from_slice (body ++ [last_byte])) (total - Z.land last_byte 7))
    as [[_ Hn]|(a & b & -> & Hn & Ha & _ & Hh & _)]; [destruct Hn|];
    rewrite view_from_slice in * by done;
    assert (Htot : llen ((body ++ [last_byte]) ≫= byte_bits) = total + 8)
      by (unfold total, llen; rewrite length_byte_bits_bind; lia); [lia|].
  apply wpm_ret. unfold wpm, with_bits.
  assert (Hd : decoding_wf (mkDecoding (Bits.new a) s)).
  { split; [|done]. split; cbn; [lia|]. intros Hne. rewrite Hh by done. apply head_from_slice. }
  assert (Hrun := tokens_safe (Z.to_nat (total - Z.land last_byte 7)) 0 _ Hd ltac:(unfold SEG; lia)
    ltac:(cbn; rewrite Ha, length_take; lia)).
  unfold wpm in Hrun. destruct (decode_tokens _ _ _) as [[r d']|]; [|done].
  destruct Hrun as (out & [Hf _ _] & Hl & Hr). exists out. split_and!; [done|lia|]. intros n Hrn.
  specialize (Hr n Hrn). lia.
Qed.

Lemma handle_segment_safe segment s :
  sink_wf s -> Forall is_u8 (bulk_data segment) ->
  wpm (handle_segment segment) (produces (Z.max (SEG + 1) (llen (bulk_data segment))) s) s.
Proof.
  intros Hs Hb. unfold handle_segment. set (data := bulk_data segment) in *.
  destruct data as [|x data'] eqn:Hd.
  { apply wpm_ret. exists []. split_and!; [by apply fed_nil|rewrite llen_nil; unfold SEG; lia|by intros n [= <-]]. }
  rewrite <- Hd in *. destruct (contains _ _).
  - eapply wpm_mono; [by apply segment_safe|]. intros r s' (out & ? & ? & ?). exists out. split_and!; [done|lia|done].
  - apply wpm_access. cbn [id]. destruct (write_all_fed s data Hs) as (h & -> & Hf).
    apply wpm_bind, wpm_ret, wpm_update, wpm_ret. exists data. split_and!; [done|lia|by intros n [= <-]].
Qed.

Lemma handle_segments_safe size written segments limit s :
  sink_wf s -> Forall (fun g => Forall is_u8 (bulk_data g) /\ llen (bulk_data g) <= limit) segments ->
  0 <= written <= MAX_DECOMPRESSED_TOTAL ->
  wpm (handle_segments size written segments) (fun r s' => exists out, fed s out s' /\
    written + llen out <= MAX_DECOMPRESSED_TOTAL + Z.max (SEG + 1) limit /\
    forall n, r = inr n -> n = written + llen out /\ n <= MAX_DECOMPRESSED_TOTAL) s.
Proof.
  intros Hs Hseg. revert written s Hs. induction Hseg as [|g segments [Hb Hlim] _ IH]; intros written s Hs Hw;
    cbn [handle_segments].
  { apply wpm_ret. exists []. rewrite llen_nil. split_and!; [by apply fed_nil|unfold SEG; lia|intros n [= <-]; lia]. }
  apply wpm_bind. eapply wpm_mono; [by apply handle_segment_safe|].
  intros [e|n] s1 (out & Hf & Hl & Hn); [exists out; split_and!; [done|lia|done]|].
  specialize (Hn n eq_refl) as ->. pose proof (llen_nonneg out).
  destruct (_ <? _); [apply wpm_throw; exists out; split_and!; [done|lia|done]|].
  destruct (Z.ltb_spec MAX_DECOMPRESSED_TOTAL (written + llen out));
    [apply wpm_throw; exists out; split_and!; [done|lia|done]|].
  eapply wpm_mono; [apply IH; [apply Hf|lia]|]. intros r s' (out' & Hf' & Hl' & Hn').
  exists (out ++ out'). rewrite llen_app. split_and!; [by eapply fed_app|lia|]. intros n Hr. specialize (Hn' n Hr). lia.
Qed.

(** *** The segment parser *)

Definition segment_ok (limit : Z) (g : BulkEncodedData) : Prop :=
  Forall is_u8 (bulk_data g) /\ llen (bulk_data g) <= limit.

Lemma read_bytes_ok k bs : Forall is_u8 bs -> Forall is_u8 (drop k bs) /\ llen (drop k bs) <= llen bs.
Proof. intros H. split; [by apply Forall_drop|]. unfold llen. rewrite length_drop. lia. Qed.

Lemma bulk_safe limit bs :
  Forall is_u8 bs -> llen bs <= limit ->
  match BulkEncodedData_from_buffer bs with Ok g => segment_ok limit g | Err _ => True | Panic => False end.
Proof.
  intros Hb Hl. unfold BulkEncodedData_from_buffer, read_u8. rewrite bo_read_u8_spec.
  destruct (1 <=? llen bs); [|done]. unfold mbind, outcome_bind. cbn [or_err].
  destruct (CompressionType_from_u8 _); [|done]. cbn [or_err mret outcome_ret].
  destruct (read_bytes_ok 1 bs Hb). split; cbn; [done|lia].
Qed.

Lemma segments_parse_safe limit count bs :
  Forall is_u8 bs -> llen bs <= limit ->
  match read_segments count bs with Ok gs => Forall (segment_ok limit) gs | Err _ => True | Panic => False end.
Proof.
  revert bs. induction count as [|count IH]; intros bs Hb Hl; cbn [read_segments]; [by constructor|].
  unfold read_u32. rewrite bo_read_u32_le_spec. destruct (4 <=? llen bs); [|done].
  unfold mbind, outcome_bind. cbn [or_err]. destruct (read_bytes_ok 4 bs Hb) as [Hb4 Hl4].
  unfold split_at_checked. destruct (_ <=? llen (drop 4 bs)); [|done]. cbn [or_err].
  set (k := Z.to_nat _). pose proof (bulk_safe limit (take k (drop 4 bs))) as Hg.
  destruct (BulkEncodedData_from_buffer _) as [g| |];
    [|done|apply Hg; [by apply Forall_take|unfold llen in *; rewrite length_take; lia]].
  destruct (read_bytes_ok k (drop 4 bs) Hb4). pose proof (IH (drop k (drop 4 bs))) as Hr.
  destruct (read_segments count _) as [gs| |]; [|done|apply Hr; [done|lia]].
  cbn. constructor; [apply Hg; [by apply Forall_take|unfold llen in *; rewrite length_take; lia]|apply Hr; [done|lia]].
Qed.

Lemma parse_safe bs :
  Forall is_u8 bs ->
  match SegmentedDataPdu_from_buffer bs with
  | Ok (Single g) => segment_ok (llen bs) g
  | Ok (Multipart _ gs) => Forall (segment_ok (llen bs)) gs
  | Err _ => True
  | Panic => False
  end.
Proof.
  intros Hb. unfold SegmentedDataPdu_from_buffer, read_u8, read_u16, read_u32.
  rewrite bo_read_u8_spec. destruct (1 <=? llen bs); [|done]. unfold mbind, outcome_bind. cbn [or_err].
  destruct (read_bytes_ok 1 bs Hb) as [Hb1 Hl1].
  destruct (SegmentedDescriptor_from_u8 _) as [[]|]; cbn [or_err]; [| |done].
  - pose proof (bulk_safe (llen bs) (drop 1 bs) Hb1 Hl1). by destruct (BulkEncodedData_from_buffer _).
  - rewrite bo_read_u16_le_spec. destruct (2 <=? _); [|done]. cbn [or_err].
    destruct (read_bytes_ok 2 _ Hb1) as [Hb2 Hl2]. rewrite bo_read_u32_le_spec.
    destruct (4 <=? _); [|done]. cbn [or_err]. destruct (read_bytes_ok 4 _ Hb2) as [Hb4 Hl4].
    pose proof (segments_parse_safe (llen bs) (Z.to_nat (from_le_bytes (take 2 (drop 1 bs)))) _ Hb4 ltac:(lia)) as H.
    by destruct (read_segments _ _).
Qed.

Lemma decompress_safe input s :
  sink_wf s -> Forall is_u8 input ->
  wpm (decompress input)
    (produces (MAX_DECOMPRESSED_TOTAL + Z.max (SEG + 1) (llen input)) s) s.
Proof.
  intros Hs Hb. unfold decompress. pose proof (parse_safe input Hb) as Hp. pose proof (llen_nonneg input).
  apply wpm_bind. destruct (SegmentedDataPdu_from_buffer input) as [[g|size gs]|e|]; [..|done]; cbn [question].
  - destruct Hp as [Hg Hl]. apply wpm_ret. eapply wpm_mono; [by apply handle_segment_safe|].
    intros r s' (out & ? & ? & ?). exists out. split_and!; [done|unfold MAX_DECOMPRESSED_TOTAL; lia|done].
  - apply wpm_ret, wpm_bind. eapply wpm_mono; [apply (handle_segments_safe size 0 gs (llen input)); [done|done|unfold MAX_DECOMPRESSED_TOTAL; lia]|].
    intros [e|n] s' (out & Hf & Hl & Hn); [exists out; split_and!; [done|lia|done]|].
    destruct (Hn n eq_refl) as [-> _]. destruct (negb _); [apply wpm_throw|apply wpm_ret]; exists out;
      (split_and!; [done|lia|]); [done|intros m [= <-]; lia].
  - apply wpm_throw. exists []. rewrite llen_nil. split_and!; [by apply fed_nil|unfold MAX_DECOMPRESSED_TOTAL, SEG; lia|done].
Qed.

(** ** Any number of messages *)

(** [decompress] on one input after the other, into one output vector,
    whatever each returns. *)
Fixpoint decompress_each (inputs : list (list Z)) (s : Sink) : option Sink :=
  match inputs with
  | [] => Some s
  | input :: inputs' =>
      match decompress input s with
      | Some (_, s') => decompress_each inputs' s'
      | None => None
      end
  end.

(** What a message of [input] may add to the output. *)
Definition growth (input : list Z) : Z :=
  MAX_DECOMPRESSED_TOTAL + Z.max (SEG + 1) (llen input).

Lemma decompress_each_safe inputs s :
  sink_wf s -> Forall (Forall is_u8) inputs ->
  exists s' out, decompress_each inputs s = Some s' /\ fed s out s' /\
    llen out <= foldr Z.add 0 (growth <$> inputs).
Proof.
  intros Hs Hall. revert s Hs. induction Hall as [|input inputs Hb _ IH]; intros s Hs.
  { exists s, []. rewrite llen_nil. split_and!; [done|by apply fed_nil|done]. }
  destruct (wpm_run _ _ _ (decompress_safe input s Hs Hb)) as (r & s1 & Hd & out1 & Hf1 & Hl1 & _).
  destruct (IH s1) as (s2 & out2 & H2 & Hf2 & Hl2); [apply Hf1|]. exists s2, (out1 ++ out2).
  cbn [decompress_each fmap list_fmap foldr]. rewrite Hd, llen_app. unfold growth at 1.
  split_and!; [done|by eapply fed_app|lia].
Qed.

(** C22: the decompressor survives any input.  Whatever sequence of messages a
    peer sends, malformed ones included, a fresh decompressor never panics and
    its loops end; each message adds at most the multipart limit and one more
    segment to the output, a segment being at most one byte over its own limit
    or the length of the message; and after every message, failed ones
    included, the history is exactly the last 2,500,000 bytes of the output. *)
Theorem decompress_never_panics inputs :
  Forall (Forall is_u8) inputs ->
  exists s, decompress_each inputs (mkSink Decompressor_new []) = Some s /\
    llen (output s) <= foldr Z.add 0 (growth <$> inputs) /\
    Ring.contents (history s) = slide (replicate (Z.to_nat HISTORY_SIZE) 0) (output s).
Proof.
  intros Hall.
  destruct (decompress_each_safe inputs _ (sink_wf_new []) Hall) as (s & out & Hd & (Ho & Hc & _) & Hl).
  exists s. cbn [output history app] in Ho, Hc. rewrite Ho, Hc. split_and!; [exact Hd|done|].
  rewrite contents_new. reflexivity.
Qed.

End safety.

(** A bare compressed segment, a message whose copy reaches before the start,
    and a multipart message that is cut short. *)
Definition hostile_inputs : list (list Z) := [[0xE0; 0x24; 0]; [0xE0; 0x24; 0x88; 0xFF; 0xFF; 0xFF; 0]; [0xE1; 5; 0; 9]].

Lemma decompress_never_panics_witness :
  exists s, @decompress_each list_bitvec bits_flags le_byteorder shift_bit_field hostile_inputs
      (mkSink Decompressor_new []) = Some s /\
    llen (output s) <= foldr Z.add 0 (growth <$> hostile_inputs) /\
    Ring.contents (history s) = slide (replicate (Z.to_nat HISTORY_SIZE) 0) (output s).
Proof.
  apply (@decompress_never_panics list_bitvec bits_flags le_byteorder shift_bit_field hostile_inputs).
  repeat (apply Forall_cons; split; [by repeat (apply Forall_cons; split; [done|])|]). apply Forall_nil_2.
Defined.
