(* ===== verification/ZgfxEncode.v ===== *)
(** The ZGFX compressor: src/crates/ironrdp-graphics/src/zgfx/compressor.rs,
    the segment writer of wrapper.rs and the entry point of api.rs.

    The hash table is a finite map: the code never depends on the order in
    which a [HashMap] is walked. *)

From S2P Require Import Prelude Codec Mutation Flags Crates History Zgfx.

Definition MIN_MATCH_LENGTH : Z := 3.
Definition MAX_MATCH_LENGTH : Z := 65535.
Definition MAX_MATCH_DISTANCE : Z := 2097152.
Definition MAX_CANDIDATES : Z := 16.
Definition MAX_POSITIONS_PER_PREFIX : Z := 32.
Definition MAX_HASH_TABLE_ENTRIES : Z := 50000.
Definition COMPACT_TARGET_ENTRIES : Z := MAX_HASH_TABLE_ENTRIES / 2.

(** ** The bit writer *)

Module BitWriter.

Record t := mk { bytes : list Z; current_byte : Z; bits_in_current : Z }.

Definition new : t := mk [] 0 0.

Definition write_bit (w : t) (bit : bool) : t :=
  let current := if bit then Z.lor (current_byte w) (Z.shiftl 1 (7 - bits_in_current w)) else current_byte w in
  let n := bits_in_current w + 1 in
  if n =? 8 then mk (bytes w ++ [current]) 0 0 else mk (bytes w) current n.

(** [for i in (0..num_bits).rev()] *)
Definition write_bits (w : t) (value num_bits : Z) : t :=
  foldl (fun w i => write_bit w (Z.land (Z.shiftr value i) 1 =? 1)) w (reverse (seqZ 0 num_bits)).

Definition write_bits_from_slice (w : t) (bits : list bool) : t := foldl write_bit w bits.

Definition finish (w : t) : list Z :=
  let unused_bits := if bits_in_current w =? 0 then 0 else 8 - bits_in_current w in
  (if 0 <? bits_in_current w then bytes w ++ [current_byte w] else bytes w) ++ [unused_bits mod 256].

End BitWriter.

(** ** The compressor *)

(** A three byte prefix, [[u8; 3]]. *)
Definition prefix3 : Type := Z * Z * Z.
Abbreviation table := (gmap prefix3 (list Z)).

Record Compressor := mkCompressor { c_history : list Z; match_table : table }.

Definition Compressor_new : Compressor := mkCompressor [] ∅.

Record match_t := mkMatch { m_distance : Z; m_length : Z }.
Record MatchToken := mkMatchToken { mt_prefix : list bool; mt_size : Z; mt_base : Z }.

Abbreviation Comp := (Mut Compressor ZgfxError).

(** [l[i]]; [None] is the panic of an index out of range *)
Definition index (l : list Z) (i : Z) : option Z := if 0 <=? i then l !! Z.to_nat i else None.

(** [[l[i], l[i + 1], l[i + 2]]] *)
Definition prefix_at (l : list Z) (i : Z) : option prefix3 :=
  a ← index l i; b ← index l (i + 1); c ← index l (i + 2); Some (a, b, c).

(** *** The hash table *)

(** [positions.retain_mut(..)] with the positions moved down *)
Definition evict (overflow : Z) (positions : list Z) : list Z :=
  (fun pos => pos - overflow) <$> filter (fun pos => overflow <= pos) positions.

(** [match_table.retain(|_, positions| !positions.is_empty())] *)
Definition retain_nonempty (m : table) : table := filter (fun kv => kv.2 <> []) m.

Definition shift_positions (overflow : Z) (m : table) : table := retain_nonempty (evict overflow <$> m).

(** [entry(prefix).or_default()] then a push that evicts the oldest *)
Definition push_position (pos : Z) (entry : list Z) : list Z :=
  if llen entry <? MAX_POSITIONS_PER_PREFIX then entry ++ [pos] else tail entry ++ [pos].

Definition index_position (prefix : prefix3) (pos : Z) (m : table) : table :=
  <[prefix := push_position pos (default [] (m !! prefix))]> m.

(** The same unless [pos] is already the last position. *)
Definition index_boundary (prefix : prefix3) (pos : Z) (m : table) : table :=
  let entry := default [] (m !! prefix) in
  <[prefix :=
      if bool_decide (last entry = Some pos) then entry
      else (if MAX_POSITIONS_PER_PREFIX <=? llen entry then tail entry else entry) ++ [pos]]> m.

(** [positions[keep_from..].to_vec()] *)
Definition halve (positions : list Z) : list Z :=
  if MAX_POSITIONS_PER_PREFIX / 2 <? llen positions
  then drop (Z.to_nat (llen positions - MAX_POSITIONS_PER_PREFIX / 2)) positions else positions.

(** [*newest.select_nth_unstable(i).1]: the element that sorting puts at [i];
    [None] is the panic of an index out of range. *)
Definition select_nth (l : list Z) (i : Z) : option Z := index (merge_sort Z.le l) i.

Definition compact_hash_table (m : table) : option table :=
  let m := retain_nonempty (halve <$> m) in
  if Z.of_nat (size m) <=? COMPACT_TARGET_ENTRIES then Some m
  else
    let newest := (fun kv => default 0 (last kv.2)) <$> map_to_list m in
    cutoff ← select_nth newest (llen newest - COMPACT_TARGET_ENTRIES);
    Some (filter (fun kv => match last kv.2 with Some pos => cutoff <=? pos | None => false end = true) m).

(** *** The sliding window *)

Definition with_table (f : table -> table) : Comp unit :=
  update (fun c => mkCompressor (c_history c) (f (match_table c))).

(** [if self.history.len() + bytes.len() > HISTORY_SIZE { .. }];
    [drain(..overflow)] panics past the end. *)
Definition make_room (bytes : list Z) : Comp unit :=
  c ← access id;
  if HISTORY_SIZE <? llen (c_history c) + llen bytes then
    let overflow := llen (c_history c) + llen bytes - HISTORY_SIZE in
    if llen (c_history c) <? overflow then boom
    else update (fun c => mkCompressor (drop (Z.to_nat overflow) (c_history c))
                            (shift_positions overflow (match_table c)))
  else mret tt.

(** One round of [for i in (0..n).step_by(step_size)] *)
Definition index_one (base_pos i : Z) : Comp unit :=
  c ← access id;
  let pos := base_pos + i in
  prefix ← expect (prefix_at (c_history c) pos);
  with_table (index_position prefix pos).

(** [(0..n).step_by(k)] *)
Definition step_by (n k : Z) : list Z := (fun j => j * k) <$> seqZ 0 ((n + k - 1) / k).

Definition compact_if_full : Comp unit :=
  c ← access id;
  if MAX_HASH_TABLE_ENTRIES <? Z.of_nat (size (match_table c)) then
    m ← expect (compact_hash_table (match_table c));
    with_table (fun _ => m)
  else mret tt.

(** One round of [for offset in [2, 1]] *)
Definition index_across (base_pos nbytes offset : Z) : Comp unit :=
  c ← access id;
  if (offset <=? base_pos) && (2 <? nbytes + offset) then
    let pos := base_pos - offset in
    if pos + MIN_MATCH_LENGTH <=? llen (c_history c) then
      prefix ← expect (prefix_at (c_history c) pos);
      with_table (index_boundary prefix pos)
    else mret tt
  else mret tt.

Definition add_to_history (bytes : list Z) : Comp unit :=
  _ ← make_room bytes;
  c ← access id;
  let base_pos := llen (c_history c) in
  _ ← update (fun c => mkCompressor (c_history c ++ bytes) (match_table c));
  let step_size := if 256 <? llen bytes then 4 else 1 in
  _ ← each (index_one base_pos) (step_by (sat_sub (llen bytes) (MIN_MATCH_LENGTH - 1)) step_size);
  _ ← compact_if_full;
  each (index_across base_pos (llen bytes)) [2; 1].

(** *** Matches *)

(** [while match_len < max_match_len && .. { match_len += 1 }]; every round
    grows [match_len], so [max_match_len] rounds are enough. *)
Fixpoint extend_match (fuel : nat) (hist input : list Z) (hist_pos pos max_match_len match_len : Z) : option Z :=
  if (match_len <? max_match_len) && (hist_pos + match_len <? llen hist) then
    a ← index hist (hist_pos + match_len);
    b ← index input (pos + match_len);
    if a =? b then
      match fuel with
      | O => None
      | S fuel' => extend_match fuel' hist input hist_pos pos max_match_len (match_len + 1)
      end
    else Some match_len
  else Some match_len.

Fixpoint search (hist input : list Z) (pos max_match_len search_limit : Z) (candidates : list Z)
    (best_match : option match_t) : option (option match_t) :=
  match candidates with
  | [] => Some best_match
  | hist_pos :: candidates' =>
      let distance := llen hist ⊖ hist_pos in
      if search_limit <? distance then search hist input pos max_match_len search_limit candidates' best_match
      else
        match_len ← extend_match (Z.to_nat max_match_len) hist input hist_pos pos max_match_len MIN_MATCH_LENGTH;
        let best_match :=
          match best_match with
          | Some b => if m_length b <? match_len then Some (mkMatch distance match_len) else best_match
          | None => Some (mkMatch distance match_len)
          end in
        if 32 <=? match_len then Some best_match
        else search hist input pos max_match_len search_limit candidates' best_match
  end.

Definition find_best_match (c : Compressor) (input : list Z) (pos : Z) : option (option match_t) :=
  let remaining := llen input ⊖ pos in
  if (remaining <? MIN_MATCH_LENGTH) || (llen (c_history c) =? 0) then Some None
  else
    prefix ← prefix_at input pos;
    match match_table c !! prefix with
    | None => Some None
    | Some candidates =>
        search (c_history c) input pos (Z.min remaining MAX_MATCH_LENGTH)
          (Z.min (llen (c_history c)) MAX_MATCH_DISTANCE)
          (take (Z.to_nat MAX_CANDIDATES) (reverse candidates)) None
    end.

(** *** Encoding *)

Fixpoint match_token_loop (distance : Z) (tokens : list Token) : option MatchToken :=
  match tokens with
  | [] => None
  | token :: tokens' =>
      match ty token with
      | Match distance_value_size distance_base =>
          if distance <=? distance_base + Z.shiftl 1 distance_value_size - 1
          then Some (mkMatchToken (prefix token) distance_value_size distance_base)
          else match_token_loop distance tokens'
      | _ => match_token_loop distance tokens'
      end
  end.

(** [None] is the [unreachable!] *)
Definition find_match_token (distance : Z) : option MatchToken :=
  match match_token_loop distance (drop 26 TOKEN_TABLE) with
  | Some t => Some t
  | None =>
      match TOKEN_TABLE !! 39%nat with
      | Some token =>
          match ty token with
          | Match distance_value_size distance_base =>
              Some (mkMatchToken (prefix token) distance_value_size distance_base)
          | _ => None
          end
      | None => None
      end
  end.

(** [for (i, token) in TOKEN_TABLE.iter().enumerate().take(26).skip(1)] *)
Fixpoint literal_loop (byte : Z) (i : nat) (tokens : list Token) : option nat :=
  match tokens with
  | [] => None
  | token :: tokens' =>
      match ty token with
      | Literal literal_value => if literal_value =? byte then Some i else literal_loop byte (S i) tokens'
      | _ => literal_loop byte (S i) tokens'
      end
  end.
Definition find_literal_token (byte : Z) : option nat := literal_loop byte 1 (drop 1 (take 26 TOKEN_TABLE)).

Definition encode_literal (w : BitWriter.t) (byte : Z) : option BitWriter.t :=
  match find_literal_token byte with
  | Some token_idx =>
      token ← TOKEN_TABLE !! token_idx;
      Some (BitWriter.write_bits_from_slice w (prefix token))
  | None => Some (BitWriter.write_bits (BitWriter.write_bit w false) byte 8)
  end.

(** [x as u32] *)
Definition as_u32 (x : Z) : Z := x mod 4294967296.

(** [length.ilog2()] panics at zero. *)
Definition encode_match_length (w : BitWriter.t) (length : Z) : option BitWriter.t :=
  if length =? 3 then Some (BitWriter.write_bit w false)
  else if length <=? 0 then None
  else
    let length_token_size := Z.log2 length ⊖ 1 in
    let base := Z.shiftl 1 (length_token_size + 1) in
    let value := length ⊖ base in
    let w := Nat.iter (Z.to_nat length_token_size) (fun w => BitWriter.write_bit w true) w in
    let w := BitWriter.write_bit w false in
    Some (BitWriter.write_bits w (as_u32 value) (length_token_size + 1)).

Definition encode_match (w : BitWriter.t) (distance length : Z) : option BitWriter.t :=
  match_token ← find_match_token distance;
  let w := BitWriter.write_bits_from_slice w (mt_prefix match_token) in
  let distance_value := distance ⊖ mt_base match_token in
  let w := BitWriter.write_bits w (as_u32 distance_value) (mt_size match_token) in
  encode_match_length w length.

(** [while pos < input.len()]; every round moves [pos] forward, so
    [input.len()] rounds are enough. *)
Fixpoint compress_loop (fuel : nat) (input : list Z) (pos : Z) (w : BitWriter.t) : Comp BitWriter.t :=
  if pos <? llen input then
    match fuel with
    | O => boom
    | S fuel' =>
        c ← access id;
        best_match ← expect (find_best_match c input pos);
        let literal :=
          byte ← expect (index input pos);
          w ← expect (encode_literal w byte);
          _ ← add_to_history [byte];
          compress_loop fuel' input (pos + 1) w in
        match best_match with
        | Some m =>
            if MIN_MATCH_LENGTH <=? m_length m then
              w ← expect (encode_match w (m_distance m) (m_length m));
              bytes ← expect (slice pos (pos + m_length m) input);
              _ ← add_to_history bytes;
              compress_loop fuel' input (pos + m_length m) w
            else literal
        | None => literal
        end
    end
  else mret w.

Definition compress (input : list Z) : Comp (list Z) :=
  w ← compress_loop (length input) input 0 BitWriter.new;
  mret (BitWriter.finish w).

(** ** Segments *)

Definition ZGFX_SEGMENTED_SINGLE : Z := 0xE0.
Definition ZGFX_SEGMENTED_MULTIPART : Z := 0xE1.
Definition ZGFX_PACKET_COMPR_TYPE_RDP8 : Z := 0x04.
Definition ZGFX_PACKET_COMPRESSED : Z := 0x02.
Definition ZGFX_SEGMENTED_MAXSIZE : Z := 65535.

Definition segment_flags (compressed : bool) : Z :=
  if compressed then Z.lor ZGFX_PACKET_COMPR_TYPE_RDP8 (Z.shiftl ZGFX_PACKET_COMPRESSED 4)
  else ZGFX_PACKET_COMPR_TYPE_RDP8.

Definition wrap_single_segment (data : list Z) (compressed : bool) : list Z :=
  [ZGFX_SEGMENTED_SINGLE; segment_flags compressed] ++ data.

Section wrap.
Context {BO : Byteorder}.

(** [u16::try_from(n).expect(..)] and the like *)
Definition try_u16 (n : Z) : option Z := if n <? 65536 then Some n else None.
Definition try_u32 (n : Z) : option Z := if n <? 4294967296 then Some n else None.

Fixpoint write_segments (compressed : bool) (segments : list (list Z)) : option (list Z) :=
  match segments with
  | [] => Some []
  | segment :: segments' =>
      size ← try_u32 (llen segment + 1);
      rest ← write_segments compressed segments';
      Some (bo_u32_le size ++ [segment_flags compressed] ++ segment ++ rest)
  end.

Definition wrap_multipart_segments (data : list Z) (compressed : bool) : option (list Z) :=
  let segment_count := div_ceil (llen data) ZGFX_SEGMENTED_MAXSIZE in
  count ← try_u16 segment_count;
  total ← try_u32 (llen data);
  body ← write_segments compressed (chunks (Z.to_nat ZGFX_SEGMENTED_MAXSIZE) data);
  Some ([ZGFX_SEGMENTED_MULTIPART] ++ bo_u16_le count ++ bo_u32_le total ++ body).

Definition wrap_uncompressed (data : list Z) : option (list Z) :=
  if llen data <=? ZGFX_SEGMENTED_MAXSIZE then Some (wrap_single_segment data false)
  else wrap_multipart_segments data false.

Definition wrap_compressed (compressed_data : list Z) : option (list Z) :=
  if llen compressed_data <=? ZGFX_SEGMENTED_MAXSIZE then Some (wrap_single_segment compressed_data true)
  else None.

Inductive CompressionMode := Never | Auto | Always.

Definition compress_and_wrap_egfx (data : list Z) (mode : CompressionMode) : Comp (list Z) :=
  match mode with
  | Never => expect (wrap_uncompressed data)
  | Auto =>
      compressed ← compress data;
      if llen compressed <=? ZGFX_SEGMENTED_MAXSIZE then
        wrapped_compressed ← expect (wrap_compressed compressed);
        wrapped_uncompressed ← expect (wrap_uncompressed data);
        if llen wrapped_compressed <? llen wrapped_uncompressed
        then mret wrapped_compressed else mret wrapped_uncompressed
      else expect (wrap_uncompressed data)
  | Always =>
      compressed ← compress data;
      if llen compressed <=? ZGFX_SEGMENTED_MAXSIZE then expect (wrap_compressed compressed)
      else expect (wrap_uncompressed data)
  end.

End wrap.
