(* ===== verification/ZgfxCompress.v ===== *)
(** The ZGFX compressor writes a token stream that means its input.

    The bit writer is shown to write exactly the bits it is given, the hash
    table to hold only positions where its prefix occurs, and so every match to
    be a true one; [compress_writes] puts this together. *)

From S2P Require Import Prelude Codec Mutation Flags Crates History Zgfx ZgfxTokens ZgfxEncode.

(** ** The bit writer *)

Module Writer.
Import BitWriter.

Definition written (w : t) : list bool :=
  (bytes w ≫= byte_bits) ++ take (Z.to_nat (bits_in_current w)) (byte_bits (current_byte w)).

Record writer_wf (w : t) : Prop := {
  w_bytes : Forall is_u8 (bytes w);
  w_current : is_u8 (current_byte w);
  w_count : 0 <= bits_in_current w < 8;
  w_rest : drop (Z.to_nat (bits_in_current w)) (byte_bits (current_byte w)) =
    replicate (8 - Z.to_nat (bits_in_current w)) false;
}.

(** Setting the next bit of a byte whose remaining bits are clear, checked
    for every byte and place. *)
Lemma set_bit c n (b : bool) :
  is_u8 c -> 0 <= n < 8 -> drop (Z.to_nat n) (byte_bits c) = replicate (8 - Z.to_nat n) false ->
  let c' := if b then Z.lor c (Z.shiftl 1 (7 - n)) else c in
  is_u8 c' /\ take (Z.to_nat (n + 1)) (byte_bits c') = take (Z.to_nat n) (byte_bits c) ++ [b] /\
  drop (Z.to_nat (n + 1)) (byte_bits c') = replicate (8 - Z.to_nat (n + 1)) false.
Proof.
  intros Hc Hn Hd.
  assert (H : forallb (fun c => forallb (fun n => forallb (fun b : bool =>
    negb (bool_decide (drop (Z.to_nat n) (byte_bits c) = replicate (8 - Z.to_nat n) false)) ||
    let c' := if b then Z.lor c (Z.shiftl 1 (7 - n)) else c in
    (0 <=? c') && (c' <? 256) &&
    bool_decide (take (Z.to_nat (n + 1)) (byte_bits c') = take (Z.to_nat n) (byte_bits c) ++ [b]) &&
    bool_decide (drop (Z.to_nat (n + 1)) (byte_bits c') = replicate (8 - Z.to_nat (n + 1)) false))
    [true; false]) (seqZ 0 8)) (seqZ 0 256) = true) by reflexivity.
  pose proof (forall_range _ 256 H c Hc) as H1. cbn beta in H1.
  pose proof (forall_range _ 8 H1 n Hn) as H2. cbn beta in H2.
  rewrite forallb_forall in H2. specialize (H2 b ltac:(destruct b; cbn; auto)). cbn beta zeta in H2 |- *.
  rewrite (bool_decide_eq_true_2 (drop (Z.to_nat n) (byte_bits c) = _)) in H2 by done. cbn [negb orb] in H2.
  apply andb_prop in H2 as [H2 H3%bool_decide_eq_true]. apply andb_prop in H2 as [H2 H4%bool_decide_eq_true].
  split; [unfold is_u8; lia|done].
Qed.

Lemma writer_new_wf : writer_wf new.
Proof. split; [done|done|cbn; lia|done]. Qed.

Lemma write_bit_spec w b :
  writer_wf w -> writer_wf (write_bit w b) /\ written (write_bit w b) = written w ++ [b].
Proof.
  intros [Hb Hc Hn Hr]. destruct (set_bit _ _ b Hc Hn Hr) as (Hc' & Ht & Hd).
  unfold write_bit, written. set (c' := if b then _ else _) in *.
  destruct (Z.eqb_spec (bits_in_current w + 1) 8) as [H8|H8]; cbn [bytes current_byte bits_in_current].
  - split; [split; cbn [bytes current_byte bits_in_current]; [apply Forall_app; split; [done|by constructor]|done|lia|done]|].
    rewrite bind_app. cbn [mbind list_bind]. rewrite !app_nil_r, <- app_assoc, <- Ht, H8.
    by rewrite take_ge.
  - split; [split; cbn [bytes current_byte bits_in_current]; [done|done|lia|done]|]. by rewrite Ht, app_assoc.
Qed.

Lemma write_list_spec w l :
  writer_wf w -> writer_wf (write_bits_from_slice w l) /\ written (write_bits_from_slice w l) = written w ++ l.
Proof.
  unfold write_bits_from_slice. revert w. induction l as [|b l IH]; intros w Hw; [by rewrite app_nil_r|].
  cbn [foldl]. destruct (write_bit_spec w b Hw) as [Hw' Hb]. destruct (IH _ Hw') as [? Hl].
  split; [done|]. by rewrite Hl, Hb, <- app_assoc.
Qed.

Lemma write_bits_eq w v n : write_bits w v n = write_bits_from_slice w (value_bits n v).
Proof.
  unfold write_bits, write_bits_from_slice, value_bits. rewrite foldl_fmap.
  assert (Hb : forall i, i ∈ reverse (seqZ 0 n) -> 0 <= i) by (intros i Hi; apply elem_of_reverse, elem_of_seqZ in Hi; lia).
  revert w Hb. induction (reverse (seqZ 0 n)) as [|i l IH]; intros w Hb; [done|]. cbn [foldl].
  rewrite IH by (intros; apply Hb; by right). do 2 f_equal.
  assert (Hi : 0 <= i) by (apply Hb; by left).
  rewrite (land_low _ 1), Z.testbit_odd by lia. change (2 ^ 1) with 2.
  rewrite (Zmod_odd (Z.shiftr v i)). by destruct (Z.odd _).
Qed.

Lemma write_bits_spec w v n :
  writer_wf w -> writer_wf (write_bits w v n) /\ written (write_bits w v n) = written w ++ value_bits n v.
Proof. rewrite write_bits_eq. apply write_list_spec. Qed.

Lemma write_ones_spec w k :
  writer_wf w -> let w' := Nat.iter k (fun w => write_bit w true) w in
  writer_wf w' /\ written w' = written w ++ replicate k true.
Proof.
  intros Hw. induction k as [|k [IHw IH]]; [cbn; by rewrite app_nil_r|].
  change (Nat.iter (S k) ?f w) with (f (Nat.iter k f w)). cbv beta zeta.
  destruct (write_bit_spec _ true IHw) as [? H]. split; [done|]. rewrite H, IH.
  rewrite <- app_assoc. change [true] with (replicate 1 true). by rewrite <- replicate_add, Nat.add_1_r.
Qed.

(** The bytes of a finished writer hold what was written. *)
Lemma finish_spec w :
  writer_wf w -> exists body u, finish w = body ++ [u] /\ Forall is_u8 body /\ is_u8 u /\
    holds_stream (written w) (Z.land u 7) body.
Proof.
  intros [Hb Hc Hn Hr]. unfold finish, written. destruct w as [bs c n]. cbn [bytes current_byte bits_in_current] in *.
  destruct (Z.eqb_spec n 0) as [->|Hn0].
  - exists bs, 0. split_and!; [done|done|done|]. exists []. cbn. by rewrite !app_nil_r.
  - rewrite (proj2 (Z.ltb_lt 0 n)) by lia. exists (bs ++ [c]), (8 - n).
    rewrite (Z.mod_small (8 - n)) by lia.
    split_and!; [done|apply Forall_app; split; [done|by constructor]|unfold is_u8; lia|].
    exists (drop (Z.to_nat n) (byte_bits c)). split.
    + rewrite bind_app. cbn [mbind list_bind]. by rewrite app_nil_r, <- app_assoc, take_drop.
    + unfold llen. rewrite length_drop, length_byte_bits. rewrite land_u3, Z.mod_small by lia. lia.
Qed.

End Writer.

(** ** Tokens *)

(** The match tokens cover the distances from 0 without a gap. *)
Fixpoint token_chain (lo : Z) (tokens : list Token) : option Z :=
  match tokens with
  | [] => Some lo
  | t :: tokens' =>
      match ty t with
      | Match size base => if base =? lo then token_chain (lo + 2 ^ size) tokens' else None
      | _ => None
      end
  end.

Lemma token_chain_find lo hi tokens distance :
  token_chain lo tokens = Some hi -> Forall (fun t => match ty t with Match size _ => 0 <= size | _ => True end) tokens ->
  lo <= distance < hi ->
  exists t size base, match_token_loop distance tokens = Some (mkMatchToken (prefix t) size base) /\
    t ∈ tokens /\ ty t = Match size base /\ base <= distance < base + 2 ^ size.
Proof.
  intros Hc Hs. revert lo Hc. induction Hs as [|t tokens Ht _ IH]; intros lo Hc Hd; cbn in Hc; [simplify_eq; lia|].
  cbn [match_token_loop]. destruct (ty t) as [| |size base] eqn:Hty; [done..|].
  destruct (Z.eqb_spec base lo) as [->|]; [|done].
  rewrite Z.shiftl_1_l. destruct (Z.leb_spec distance (lo + 2 ^ size - 1)).
  - exists t, size, lo. split_and!; [done|by left|done|lia|lia].
  - destruct (IH _ Hc) as (u & sz & b & ? & ? & ?); [lia|]. exists u, sz, b. split_and!; [done|by right|by apply H2..].
Qed.

Lemma find_match_token_spec distance :
  0 <= distance <= MAX_MATCH_DISTANCE ->
  exists t size base, find_match_token distance = Some (mkMatchToken (prefix t) size base) /\
    t ∈ TOKEN_TABLE /\ ty t = Match size base /\ base <= distance < base + 2 ^ size.
Proof.
  intros Hd. unfold find_match_token, MAX_MATCH_DISTANCE in *.
  destruct (token_chain_find 0 33871520 (drop 26 TOKEN_TABLE) distance) as (t & size & base & -> & Ht & Hty);
    [reflexivity|repeat constructor; done|lia|].
  exists t, size, base. split_and!; [done| |by apply Hty..].
  rewrite <- (take_drop 26 TOKEN_TABLE). by apply elem_of_app; right.
Qed.

Lemma literal_loop_spec byte i tokens j :
  literal_loop byte i tokens = Some j ->
  exists k t, j = (i + k)%nat /\ tokens !! k = Some t /\ ty t = Literal byte.
Proof.
  revert i. induction tokens as [|t tokens IH]; intros i H; cbn in H; [done|].
  assert (Hrec : literal_loop byte (S i) tokens = Some j ->
    exists k u, j = (i + k)%nat /\ (t :: tokens) !! k = Some u /\ ty u = Literal byte).
  { intros Hr. destruct (IH _ Hr) as (k & u & -> & Hk & Hu). exists (S k), u. split_and!; [lia|done|done]. }
  destruct (ty t) as [|v|] eqn:Hty; [by apply Hrec| |by apply Hrec].
  destruct (Z.eqb_spec v byte) as [->|]; [|by apply Hrec]. simplify_eq.
  exists 0%nat, t. split_and!; [lia|done|done].
Qed.

Lemma find_literal_token_spec byte j :
  find_literal_token byte = Some j -> exists t, TOKEN_TABLE !! j = Some t /\ ty t = Literal byte.
Proof.
  unfold find_literal_token. generalize TOKEN_TABLE. intros tokens Hf.
  apply literal_loop_spec in Hf as (k & t & -> & Hk & Hty). rewrite lookup_drop in Hk.
  apply lookup_take_Some in Hk as [Hk _]. eauto.
Qed.

Lemma null_token : exists t, t ∈ TOKEN_TABLE /\ ty t = NullLiteral /\ prefix t = [false].
Proof. exists (mkToken (bits [0]) NullLiteral). split; [by left|done]. Qed.

Lemma encode_literal_spec w b :
  Writer.writer_wf w -> is_u8 b ->
  exists w' l, encode_literal w b = Some w' /\ Writer.writer_wf w' /\
    Writer.written w' = Writer.written w ++ l /\ forall off, codes off (Lit b) l.
Proof.
  intros Hw Hb. unfold encode_literal. destruct (find_literal_token b) as [j|] eqn:Hf.
  - destruct (find_literal_token_spec _ _ Hf) as (t & Hk & Hty). rewrite Hk. cbn [mbind option_bind].
    destruct (Writer.write_list_spec w (prefix t) Hw) as [? ?]. exists (BitWriter.write_bits_from_slice w (prefix t)), (prefix t).
    split_and!; [reflexivity|assumption|assumption|].
    intros off. apply code_literal; [exact (list_elem_of_lookup_2 _ _ _ Hk)|exact Hty].
  - destruct (Writer.write_bit_spec w false Hw) as [Hw1 H1].
    destruct (Writer.write_bits_spec _ b 8 Hw1) as [Hw2 H2]. destruct null_token as (t & Ht & Hty & Hp).
    exists (BitWriter.write_bits (BitWriter.write_bit w false) b 8), (prefix t ++ value_bits 8 b).
    split_and!; [reflexivity|assumption|rewrite Hp, H2, H1, <- app_assoc; reflexivity|].
    intros off. apply code_null; assumption.
Qed.

Lemma encode_match_length_spec w n :
  Writer.writer_wf w -> 3 <= n < 2 ^ 32 ->
  exists w', encode_match_length w n = Some w' /\ Writer.writer_wf w' /\
    Writer.written w' = Writer.written w ++ length_code n.
Proof.
  intros Hw Hn. unfold encode_match_length, length_code. destruct (Z.eqb_spec n 3) as [->|Hn3].
  { destruct (Writer.write_bit_spec w false Hw). eauto. }
  rewrite (proj2 (Z.leb_gt n 0)) by lia.
  assert (Hk : 2 <= Z.log2 n) by (change 2 with (Z.log2 4); apply Z.log2_le_mono; lia).
  assert (Hk' : Z.log2 n < 32) by (apply Z.log2_lt_pow2; lia).
  pose proof (Z.log2_spec n ltac:(lia)) as Hl. rewrite Z.pow_succ_r in Hl by lia.
  rewrite (wsub64_small (Z.log2 n) 1) by width. rewrite Z.sub_add, Z.shiftl_1_l.
  rewrite wsub64_small by width. unfold as_u32. rewrite Z.mod_small by lia.
  destruct (Writer.write_ones_spec w (Z.to_nat (Z.log2 n - 1)) Hw) as [Hw1 H1].
  destruct (Writer.write_bit_spec _ false Hw1) as [Hw2 H2].
  destruct (Writer.write_bits_spec _ (n - 2 ^ Z.log2 n) (Z.log2 n) Hw2) as [Hw3 H3].
  eexists. split_and!; [done|done|]. by rewrite H3, H2, H1, <- !app_assoc.
Qed.

Lemma encode_match_spec w distance n :
  Writer.writer_wf w -> 0 < distance <= MAX_MATCH_DISTANCE -> 3 <= n < 2 ^ 32 ->
  exists w' l, encode_match w distance n = Some w' /\ Writer.writer_wf w' /\
    Writer.written w' = Writer.written w ++ l /\ forall off, codes off (Copy distance n) l.
Proof.
  intros Hw Hd Hn. unfold encode_match.
  destruct (find_match_token_spec distance) as (t & size & base & -> & Ht & Hty & Hb); [lia|].
  cbn [mbind option_bind mt_prefix mt_size mt_base].
  destruct (table_shape t Ht) as [_ Hs]. rewrite Hty in Hs. unfold MAX_MATCH_DISTANCE in Hd.
  rewrite wsub64_small by width. unfold as_u32. rewrite Z.mod_small by lia.
  destruct (Writer.write_list_spec w (prefix t) Hw) as [Hw1 H1].
  destruct (Writer.write_bits_spec _ (distance - base) size Hw1) as [Hw2 H2].
  destruct (encode_match_length_spec _ n Hw2 Hn) as (w3 & -> & Hw3 & H3).
  eexists _, (prefix t ++ value_bits size (distance - base) ++ length_code n).
  split_and!; [done|done|by rewrite H3, H2, H1, <- !app_assoc|].
  intros off. apply code_copy; [done|done|lia|unfold HISTORY_SIZE; lia|lia].
Qed.

(** ** The hash table *)

(** The table holds only positions where its prefix occurs in the history,
    and no list is empty or too long. *)
Definition table_sound (h : list Z) (m : table) : Prop :=
  forall p ps, m !! p = Some ps ->
    Forall (fun pos => prefix_at h pos = Some p) ps /\ ps <> [] /\ llen ps <= MAX_POSITIONS_PER_PREFIX.

Record comp_inv (c : Compressor) : Prop := {
  ci_history : llen (c_history c) <= HISTORY_SIZE;
  ci_table : table_sound (c_history c) (match_table c);
  ci_size : Z.of_nat (size (match_table c)) <= MAX_HASH_TABLE_ENTRIES + 2;
}.

Lemma index_Some l i x : index l i = Some x -> 0 <= i < llen l /\ l !! Z.to_nat i = Some x.
Proof.
  unfold index. destruct (Z.leb_spec 0 i); [|done]. intros H1. pose proof (lookup_lt_Some _ _ _ H1).
  unfold llen. split; [lia|done].
Qed.

Lemma index_ok l i : 0 <= i < llen l -> exists x, index l i = Some x /\ l !! Z.to_nat i = Some x.
Proof.
  intros H. unfold index. rewrite (proj2 (Z.leb_le _ _)) by lia.
  destruct (lookup_lt_is_Some_2 l (Z.to_nat i)) as [x Hx]; [unfold llen in H; lia|]. eauto.
Qed.

Lemma prefix_at_Some l i p :
  prefix_at l i = Some p -> 0 <= i /\ i + 3 <= llen l /\
    take 3 (drop (Z.to_nat i) l) = [p.1.1; p.1.2; p.2].
Proof.
  unfold prefix_at. intros H.
  destruct (index l i) as [a|] eqn:Ha; [|done]. destruct (index l (i + 1)) as [b|] eqn:Hb; [|done].
  destruct (index l (i + 2)) as [c|] eqn:Hc; [|done]. cbn in H. injection H as <-. cbn.
  apply index_Some in Ha as [? Ha], Hb as [? Hb], Hc as [? Hc]. split_and!; [lia|lia|].
  rewrite (drop_S _ a), (drop_S _ b (S _)), (drop_S _ c (S (S _))); [done|..].
  - rewrite <- Hc. f_equal. lia.
  - rewrite <- Hb. f_equal. lia.
  - done.
Qed.

Lemma prefix_at_ok l i : 0 <= i -> i + 3 <= llen l -> exists p, prefix_at l i = Some p.
Proof.
  intros Hi Hl. unfold prefix_at.
  destruct (index_ok l i ltac:(lia)) as (a & -> & _), (index_ok l (i + 1) ltac:(lia)) as (b & -> & _),
    (index_ok l (i + 2) ltac:(lia)) as (c & -> & _). cbn. eauto.
Qed.

Lemma index_app l k i x : index l i = Some x -> index (l ++ k) i = Some x.
Proof.
  intros H. pose proof (index_Some _ _ _ H) as [? Hx]. unfold index. rewrite (proj2 (Z.leb_le _ _)) by lia.
  by apply lookup_app_l_Some.
Qed.

Lemma prefix_at_app l k i p : prefix_at l i = Some p -> prefix_at (l ++ k) i = Some p.
Proof.
  unfold prefix_at. intros H. destruct (index l i) eqn:Ha; [|done].
  destruct (index l (i + 1)) eqn:Hb; [|done]. destruct (index l (i + 2)) eqn:Hc; [|done].
  by rewrite (index_app _ _ _ _ Ha), (index_app _ _ _ _ Hb), (index_app _ _ _ _ Hc).
Qed.

Lemma index_drop l n i : 0 <= n <= i -> index (drop (Z.to_nat n) l) (i - n) = index l i.
Proof.
  intros H. unfold index. rewrite !(proj2 (Z.leb_le _ _)) by lia. rewrite lookup_drop. f_equal. lia.
Qed.

Lemma prefix_at_drop l n i : 0 <= n <= i -> prefix_at (drop (Z.to_nat n) l) (i - n) = prefix_at l i.
Proof.
  intros H. unfold prefix_at. replace (i - n + 1) with (i + 1 - n) by lia.
  replace (i - n + 2) with (i + 2 - n) by lia. by rewrite !index_drop by lia.
Qed.

(** *** Keeping the table sound *)

Definition positions_ok (h : list Z) (p : prefix3) (ps : list Z) : Prop :=
  Forall (fun pos => prefix_at h pos = Some p) ps /\ ps <> [] /\ llen ps <= MAX_POSITIONS_PER_PREFIX.

Lemma sound_insert h m p ps : table_sound h m -> positions_ok h p ps -> table_sound h (<[p := ps]> m).
Proof.
  intros Hm Hp q qs Hq. destruct (decide (p = q)) as [->|Hne].
  - rewrite lookup_insert_eq in Hq. by simplify_eq.
  - rewrite lookup_insert_ne in Hq by done. by apply Hm.
Qed.

Lemma size_insert_le (m : table) p ps : (size (<[p := ps]> m) <= size m + 1)%nat.
Proof. rewrite map_size_insert. destruct (m !! p); cbn; lia. Qed.

(** The entry of a prefix, whether it is there or not. *)
Lemma sound_entry h m p :
  table_sound h m -> let e := default [] (m !! p) in
  Forall (fun pos => prefix_at h pos = Some p) e /\ llen e <= MAX_POSITIONS_PER_PREFIX.
Proof.
  intros Hm. destruct (m !! p) as [ps|] eqn:Hp; cbn; [|by split].
  by destruct (Hm p ps Hp) as (? & _ & ?).
Qed.

Lemma llen_tail {A} (l : list A) : l <> [] -> llen (tail l) = llen l - 1.
Proof. destruct l; [done|]. intros _. rewrite llen_cons. cbn. lia. Qed.

Lemma snoc_ok h p e pos :
  Forall (fun pos => prefix_at h pos = Some p) e -> llen e < MAX_POSITIONS_PER_PREFIX ->
  prefix_at h pos = Some p -> positions_ok h p (e ++ [pos]).
Proof.
  intros He Hl Hp. split_and!; [apply Forall_app; split; [done|by constructor]|by destruct e|].
  rewrite llen_app. change (llen [pos]) with 1. lia.
Qed.

Lemma index_position_sound h m p pos :
  table_sound h m -> prefix_at h pos = Some p -> table_sound h (index_position p pos m).
Proof.
  intros Hm Hp. apply sound_insert; [done|]. destruct (sound_entry h m p Hm) as [He Hl].
  unfold push_position. destruct (Z.ltb_spec (llen (default [] (m !! p))) MAX_POSITIONS_PER_PREFIX).
  - by apply snoc_ok.
  - apply snoc_ok; [by apply Forall_tail| |done]. rewrite llen_tail; [lia|]. intros H0. rewrite H0 in H.
    unfold MAX_POSITIONS_PER_PREFIX in H. rewrite llen_nil in H. lia.
Qed.

Lemma index_boundary_sound h m p pos :
  table_sound h m -> prefix_at h pos = Some p -> table_sound h (index_boundary p pos m).
Proof.
  intros Hm Hp. apply sound_insert; [done|]. destruct (sound_entry h m p Hm) as [He Hl].
  set (e := default [] (m !! p)) in *. case_bool_decide as Hlast.
  - split_and!; [done| |done]. by intros H0; rewrite H0 in Hlast.
  - destruct (Z.leb_spec MAX_POSITIONS_PER_PREFIX (llen e)); apply snoc_ok; [by apply Forall_tail| |done|done|lia|done].
    rewrite llen_tail; [lia|]. intros H0. rewrite H0 in H.
    unfold MAX_POSITIONS_PER_PREFIX in H. rewrite llen_nil in H. lia.
Qed.

(** Thinning out the lists and dropping the empty ones. *)
Lemma thin_sound (h h' : list Z) (m : table) (f : list Z -> list Z) :
  table_sound h m ->
  (forall p ps, m !! p = Some ps -> Forall (fun pos => prefix_at h pos = Some p) ps ->
    Forall (fun pos => prefix_at h' pos = Some p) (f ps) /\ llen (f ps) <= llen ps) ->
  table_sound h' (retain_nonempty (f <$> m)).
Proof.
  intros Hm Hf p ps' H. unfold retain_nonempty in H. apply map_lookup_filter_Some in H as [H Hne].
  rewrite lookup_fmap in H. destruct (m !! p) as [ps|] eqn:Hp; [|done]. cbn in H. injection H as <-.
  destruct (Hm p ps Hp) as (Hall & _ & Hl). destruct (Hf p ps Hp Hall) as [? ?]. split_and!; [done|done|lia].
Qed.

Lemma retain_size (m : table) : (size (retain_nonempty m) <= size m)%nat.
Proof. apply map_subseteq_size, map_filter_subseteq. Qed.

Lemma shift_sound h m overflow :
  table_sound h m -> 0 <= overflow ->
  table_sound (drop (Z.to_nat overflow) h) (shift_positions overflow m).
Proof.
  intros Hm Ho. apply (thin_sound h); [done|]. intros p ps _ Hall. unfold evict. split.
  - apply Forall_fmap. apply Forall_forall. intros pos [Hge Hin]%list_elem_of_filter. cbn.
    rewrite prefix_at_drop by lia. rewrite Forall_forall in Hall. by apply Hall.
  - unfold llen. rewrite length_fmap. pose proof (length_filter (fun pos => overflow <= pos) ps). lia.
Qed.

Lemma append_sound h m bytes : table_sound h m -> table_sound (h ++ bytes) m.
Proof.
  intros Hm p ps Hp. destruct (Hm p ps Hp) as (Hall & ? & ?). split_and!; [|done|done].
  eapply Forall_impl; [exact Hall|]. intros pos. apply prefix_at_app.
Qed.

Lemma halve_sound h m : table_sound h m -> table_sound h (retain_nonempty (halve <$> m)).
Proof.
  intros Hm. apply (thin_sound h); [done|]. intros p ps _ Hall. unfold halve. destruct (_ <? _); [|done].
  split; [by apply Forall_drop|]. unfold llen. rewrite length_drop. lia.
Qed.

(** *** Compaction *)

Lemma count_from_nth (l : list Z) i c :
  StronglySorted Z.le l -> NoDup l -> l !! i = Some c ->
  length (filter (fun x => c <= x) l) = (length l - i)%nat.
Proof.
  intros Hs. revert i. induction Hs as [|x l Hs IH Hall]; intros i Hnd Hi; [done|].
  apply NoDup_cons in Hnd as [Hx Hnd]. rewrite Forall_forall in Hall. destruct i as [|i]; cbn in Hi.
  - injection Hi as ->. rewrite filter_all; [cbn; lia|]. apply Forall_forall. intros y [->|Hy]%elem_of_cons; [lia|auto].
  - assert (Hc : c ∈ l) by by eapply list_elem_of_lookup_2. assert (x <> c) by congruence.
    pose proof (Hall _ Hc). rewrite filter_cons_False by lia. rewrite (IH i) by done. cbn. lia.
Qed.

Lemma count_fmap {A} (P : A -> Prop) (Q : Z -> Prop) `{!forall x, Decision (P x)} `{!forall x, Decision (Q x)}
    (f : A -> Z) l :
  (forall x, x ∈ l -> P x <-> Q (f x)) -> length (filter P l) = length (filter Q (f <$> l)).
Proof.
  induction l as [|x l IH]; intros HPQ; [done|]. cbn [fmap list_fmap].
  specialize (IH (fun y Hy => HPQ y (list_elem_of_further _ _ _ Hy))).
  specialize (HPQ x (list_elem_of_here _ _)). rewrite !filter_cons.
  destruct (decide (P x)), (decide (Q (f x))); cbn; [lia|tauto|tauto|lia].
Qed.

Lemma size_filter (P : prefix3 * list Z -> Prop) `{!forall x, Decision (P x)} (m : table) :
  size (filter P m) = length (filter P (map_to_list m)).
Proof.
  rewrite <- length_map_to_list, map_filter_alt, map_to_list_to_map; [done|].
  eapply sublist_NoDup; [apply (NoDup_fst_map_to_list m)|]. apply fmap_sublist, sublist_filter.
Qed.

(** Every position belongs to one prefix, so the newest positions differ. *)
Lemma newest_distinct h m :
  table_sound h m -> NoDup ((fun kv => default 0 (last kv.2)) <$> map_to_list m).
Proof.
  intros Hm. apply NoDup_fmap_2_strong; [|apply NoDup_map_to_list].
  intros [p ps] [q qs] Hp%elem_of_map_to_list Hq%elem_of_map_to_list Heq. cbn in Heq.
  destruct (Hm _ _ Hp) as (Hps & Hne & _), (Hm _ _ Hq) as (Hqs & Hneq & _).
  apply last_is_Some in Hne as [x Hx], Hneq as [y Hy]. rewrite Hx, Hy in Heq. cbn in Heq. subst y.
  rewrite Forall_forall in Hps, Hqs.
  assert (Some p = Some q) as [= ->].
  { rewrite <- (Hps x), <- (Hqs x); [done|..]; [apply last_Some in Hy as [? ->]|apply last_Some in Hx as [? ->]];
      apply elem_of_app; right; by left. }
  by rewrite Hp in Hq; simplify_eq.
Qed.

Lemma halve_size h m : table_sound h m -> size (retain_nonempty (halve <$> m)) = size m.
Proof.
  intros Hm. unfold retain_nonempty. rewrite size_filter, filter_all.
  - by rewrite length_map_to_list, map_size_fmap.
  - apply Forall_forall. intros [p ps] Hp%elem_of_map_to_list. cbn. rewrite lookup_fmap in Hp.
    destruct (m !! p) as [qs|] eqn:Hq; [|done]. cbn in Hp. injection Hp as <-. destruct (Hm _ _ Hq) as (_ & Hne & _).
    unfold halve. destruct (Z.ltb_spec (MAX_POSITIONS_PER_PREFIX / 2) (llen qs)) as [Hl|]; [|done].
    intros H0. apply (f_equal length) in H0. rewrite length_drop in H0. cbn in H0.
    change (MAX_POSITIONS_PER_PREFIX / 2) with 16 in *. unfold llen in *. lia.
Qed.

Lemma compact_spec h m :
  table_sound h m -> exists m', compact_hash_table m = Some m' /\ table_sound h m' /\
    Z.of_nat (size m') = Z.min (Z.of_nat (size m)) COMPACT_TARGET_ENTRIES.
Proof.
  intros Hm. unfold compact_hash_table. pose proof (halve_sound h m Hm) as Hs.
  rewrite <- (halve_size h m Hm). set (m1 := retain_nonempty _) in *.
  destruct (Z.leb_spec (Z.of_nat (size m1)) COMPACT_TARGET_ENTRIES) as [Hle|Hgt].
  { exists m1. split_and!; [done|done|lia]. }
  set (newest := _ <$> map_to_list m1). pose proof (newest_distinct h m1 Hs) as Hnd. fold newest in Hnd.
  assert (Hlen : llen newest = Z.of_nat (size m1)).
  { unfold llen, newest. by rewrite length_fmap, length_map_to_list. }
  assert (Hperm : merge_sort Z.le newest ≡ₚ newest) by apply merge_sort_Permutation.
  assert (Hsl : length (merge_sort Z.le newest) = size m1) by (rewrite Hperm; unfold llen in Hlen; lia).
  unfold select_nth. destruct (index_ok (merge_sort Z.le newest) (llen newest - COMPACT_TARGET_ENTRIES)) as (c & -> & Hc).
  { unfold llen at 3. rewrite Hsl. change COMPACT_TARGET_ENTRIES with 25000 in *. lia. }
  cbn [mbind option_bind]. eexists. split; [reflexivity|]. split.
  - intros p ps H. apply map_lookup_filter_Some in H as [H _]. by apply Hs.
  - rewrite size_filter. rewrite (count_fmap _ (fun x => c <= x) (fun kv => default 0 (last kv.2))).
    + fold newest. rewrite <- Hperm. rewrite (count_from_nth _ _ c ltac:(apply StronglySorted_merge_sort; apply _) ltac:(by rewrite Hperm) Hc).
      rewrite Hsl. change COMPACT_TARGET_ENTRIES with 25000 in *. lia.
    + intros [p ps] Hp%elem_of_map_to_list. cbn. destruct (Hs _ _ Hp) as (_ & Hne & _).
      apply last_is_Some in Hne as [x Hx]. rewrite Hx. cbn. lia.
Qed.

(** ** The sliding window *)

Lemma wpm_each {A} (f : A -> Comp unit) (I : Compressor -> Prop) xs c :
  I c -> (forall x c, x ∈ xs -> I c -> wpm (f x) (fun r c' => r = inr tt /\ I c') c) ->
  wpm (each f xs) (fun r c' => r = inr tt /\ I c') c.
Proof.
  revert c. induction xs as [|x xs IH]; intros c Hc Hf; [by split|]. cbn [each].
  apply wpm_bind. eapply wpm_mono; [apply Hf; [by left|done]|]. intros r c' [-> Hc'].
  apply IH; [done|]. intros y d Hy. apply Hf. by right.
Qed.

Lemma step_by_range n k i : 0 < k -> i ∈ step_by n k -> 0 <= i < n.
Proof.
  intros Hk. unfold step_by. intros (j & -> & Hj%elem_of_seqZ)%list_elem_of_fmap.
  assert ((n + k - 1) / k * k <= n + k - 1) by (rewrite Z.mul_comm; apply Z.mul_div_le; lia). nia.
Qed.

(** History [h], a sound table. *)
Definition indexed (h : list Z) (c : Compressor) : Prop :=
  c_history c = h /\ table_sound h (match_table c).

Lemma make_room_spec bytes c :
  comp_inv c -> llen bytes <= HISTORY_SIZE ->
  let overflow := Z.max 0 (llen (c_history c) + llen bytes - HISTORY_SIZE) in
  wpm (make_room bytes) (fun r c' => r = inr tt /\ indexed (drop (Z.to_nat overflow) (c_history c)) c') c.
Proof.
  intros [Hh Ht _] Hb overflow. unfold make_room. apply wpm_access. cbn [id].
  destruct (Z.ltb_spec HISTORY_SIZE (llen (c_history c) + llen bytes)).
  - rewrite (proj2 (Z.ltb_ge _ _)) by lia. replace (llen (c_history c) + llen bytes - HISTORY_SIZE) with overflow by lia.
    split; [done|]. split; cbn; [done|]. apply shift_sound; [done|lia].
  - apply wpm_ret. split; [done|]. replace overflow with 0 by lia. rewrite drop_0. by split.
Qed.

Lemma add_to_history_spec bytes c :
  comp_inv c -> llen bytes <= HISTORY_SIZE ->
  let overflow := Z.max 0 (llen (c_history c) + llen bytes - HISTORY_SIZE) in
  wpm (add_to_history bytes) (fun r c' => r = inr tt /\ comp_inv c' /\
    c_history c' = drop (Z.to_nat overflow) (c_history c) ++ bytes) c.
Proof.
  intros Hc Hb overflow. unfold add_to_history. apply wpm_bind.
  eapply wpm_mono; [by apply make_room_spec|]. fold overflow. set (h0 := drop _ (c_history c)).
  assert (Hh0 : llen h0 + llen bytes <= HISTORY_SIZE).
  { unfold h0. pose proof (ci_history _ Hc). unfold llen in *. rewrite length_drop. lia. }
  intros r c1 [-> [H1 Ht1]]. apply wpm_access. cbn [id]. rewrite H1. apply wpm_update.
  set (h := h0 ++ bytes). pose proof (llen_nonneg h0). pose proof (llen_nonneg bytes).
  assert (Hh : llen h = llen h0 + llen bytes) by apply llen_app.
  apply wpm_bind. eapply wpm_mono; [apply (wpm_each _ (indexed h))|].
  - split; cbn; [by rewrite H1|by apply append_sound].
  - intros i d Hi%step_by_range [Hd Htd]; [|destruct (256 <? llen bytes); lia].
    unfold sat_sub, MIN_MATCH_LENGTH in Hi. unfold index_one. apply wpm_access. cbn [id]. rewrite Hd.
    destruct (prefix_at_ok h (llen h0 + i)) as [p Hp]; [lia|lia|]. rewrite Hp. apply wpm_bind, wpm_ret.
    split; [done|]. split; cbn; [done|]. by apply index_position_sound.
  - intros r c2 [-> [H2 Ht2]]. apply wpm_bind.
    assert (Hfull : wpm compact_if_full (fun r d => r = inr tt /\ indexed h d /\
      Z.of_nat (size (match_table d)) <= MAX_HASH_TABLE_ENTRIES) c2).
    { unfold compact_if_full. apply wpm_access. cbn [id].
      destruct (Z.ltb_spec MAX_HASH_TABLE_ENTRIES (Z.of_nat (size (match_table c2)))); [|by apply wpm_ret].
      destruct (compact_spec h _ Ht2) as (m & -> & Hm & Hsz). apply wpm_bind, wpm_ret. split_and!; [done|by split|].
      cbn. change COMPACT_TARGET_ENTRIES with 25000 in Hsz. unfold MAX_HASH_TABLE_ENTRIES in *. lia. }
    eapply wpm_mono; [exact Hfull|]. intros r c3 (-> & [H3 Ht3] & Hs3).
    assert (Hacross : forall offset d, 0 <= offset -> indexed h d ->
      wpm (index_across (llen h0) (llen bytes) offset) (fun r d' => r = inr tt /\ indexed h d' /\
        (size (match_table d') <= size (match_table d) + 1)%nat) d).
    { intros offset d Ho [Hd Htd]. unfold index_across. apply wpm_access. cbn [id]. rewrite Hd.
      destruct ((offset <=? llen h0) && _) eqn:Hg; [|apply wpm_ret; split_and!; [done|by split|lia]].
      apply andb_prop in Hg as [Hg%Z.leb_le _]. unfold MIN_MATCH_LENGTH.
      destruct (Z.leb_spec (llen h0 - offset + 3) (llen h)); [|apply wpm_ret; split_and!; [done|by split|lia]].
      destruct (prefix_at_ok h (llen h0 - offset)) as [p Hp]; [lia|lia|]. rewrite Hp. apply wpm_bind, wpm_ret.
      split_and!; [done|split; cbn; [done|by apply index_boundary_sound]|apply size_insert_le]. }
    cbn [each]. apply wpm_bind. eapply wpm_mono; [apply Hacross; [lia|by split]|]. intros r c4 (-> & H4 & Hs4).
    apply wpm_bind. eapply wpm_mono; [apply Hacross; [lia|done]|]. intros r c5 (-> & [H5 Ht5] & Hs5).
    apply wpm_ret. split_and!; [done|split; rewrite ?H5; [lia|done|lia]|done].
Qed.

(** The decompressor's history [hist] ends with the compressor's. *)
Definition in_step (hist : list Z) (c : Compressor) : Prop :=
  llen hist = HISTORY_SIZE /\ exists pre, hist = pre ++ c_history c.

Lemma in_step_slide hist c c' bytes :
  in_step hist c -> llen (c_history c) <= HISTORY_SIZE -> llen bytes <= HISTORY_SIZE ->
  c_history c' = drop (Z.to_nat (Z.max 0 (llen (c_history c) + llen bytes - HISTORY_SIZE))) (c_history c) ++ bytes ->
  in_step (slide hist bytes) c'.
Proof.
  intros [Hl [pre Hp]] Hh Hb Hc'. split; [unfold llen; rewrite Ring.length_slide; exact Hl|].
  rewrite Hc'. subst hist. unfold slide. rewrite llen_app in Hl. exists (drop (length bytes) pre).
  rewrite <- app_assoc, drop_app. f_equal. rewrite drop_app_le by (unfold llen in *; lia).
  f_equal. f_equal. unfold llen in *. lia.
Qed.

(** ** Matches *)

Definition same_bytes (h input : list Z) (hp pos n : Z) : Prop :=
  take (Z.to_nat n) (drop (Z.to_nat hp) h) = take (Z.to_nat n) (drop (Z.to_nat pos) input).

Lemma same_bytes_snoc h input hp pos n x :
  0 <= hp -> 0 <= pos -> 0 <= n -> same_bytes h input hp pos n ->
  index h (hp + n) = Some x -> index input (pos + n) = Some x -> same_bytes h input hp pos (n + 1).
Proof.
  intros ? ? ? Hs [_ Hh]%index_Some [_ Hi]%index_Some. unfold same_bytes in *.
  rewrite Z2Nat.inj_add in Hh, Hi by lia. rewrite Z2Nat.inj_add by lia. change (Z.to_nat 1) with 1%nat.
  rewrite Nat.add_1_r, (take_S_r _ _ x), (take_S_r _ _ x) by (rewrite lookup_drop; done). by rewrite Hs.
Qed.

Lemma extend_match_spec fuel h input hp pos max n :
  0 <= hp -> 0 <= pos -> 0 <= n <= max -> hp + n <= llen h -> pos + max <= llen input ->
  (Z.to_nat (max - n) <= fuel)%nat -> same_bytes h input hp pos n ->
  exists n', extend_match fuel h input hp pos max n = Some n' /\ n <= n' <= max /\ hp + n' <= llen h /\
    same_bytes h input hp pos n'.
Proof.
  revert n. induction fuel as [|fuel IH]; intros n Hhp Hpos Hn Hh Hi Hf Hs; cbn [extend_match];
    destruct (Z.ltb_spec n max), (Z.ltb_spec (hp + n) (llen h)); cbn [andb];
    try (exists n; split_and!; [done|lia|lia|lia|done]); [lia|].
  destruct (index_ok h (hp + n) ltac:(lia)) as (a & Ha & _), (index_ok input (pos + n) ltac:(lia)) as (b & Hb & _).
  rewrite Ha, Hb. cbn [mbind option_bind]. destruct (Z.eqb_spec a b) as [->|].
  - destruct (IH (n + 1)) as (n' & -> & ? & ? & ?); [lia..| |exists n'; split_and!; [done|lia|lia|lia|done]].
    apply (same_bytes_snoc _ _ _ _ _ b); [lia|lia|lia|done|done|done].
  - exists n. split_and!; [done|lia|lia|lia|done].
Qed.

Record good_match (h input : list Z) (pos : Z) (m : match_t) : Prop := {
  gm_length : 3 <= m_length m <= MAX_MATCH_LENGTH;
  gm_input : pos + m_length m <= llen input;
  gm_distance : m_length m <= m_distance m <= MAX_MATCH_DISTANCE;
  gm_history : m_distance m <= llen h;
  gm_same : same_bytes h input (llen h - m_distance m) pos (m_length m);
}.

Lemma search_spec h input pos max cands best p :
  is_u64 (llen h) -> 0 <= pos -> 3 <= max <= MAX_MATCH_LENGTH -> pos + max <= llen input ->
  prefix_at input pos = Some p -> Forall (fun hp => prefix_at h hp = Some p) cands ->
  (forall m, best = Some m -> good_match h input pos m) ->
  exists r, search h input pos max (Z.min (llen h) MAX_MATCH_DISTANCE) cands best = Some r /\
    forall m, r = Some m -> good_match h input pos m.
Proof.
  intros Hu Hpos Hmax Hi Hp Hc. revert best. induction Hc as [|hp cands Hhp _ IH]; intros best Hbest; cbn [search]; [eauto|].
  apply prefix_at_Some in Hhp as (Hhp0 & Hhp3 & Heq). pose proof (prefix_at_Some _ _ _ Hp) as (_ & _ & Heq').
  rewrite wsub64_small by width.
  destruct (Z.ltb_spec (Z.min (llen h) MAX_MATCH_DISTANCE) (llen h - hp)); [by apply IH|].
  unfold MIN_MATCH_LENGTH.
  destruct (extend_match_spec (Z.to_nat max) h input hp pos max 3) as (n & -> & Hn & Hnh & Hsame);
    [lia..|unfold same_bytes; change (Z.to_nat 3) with 3%nat; congruence|].
  cbn [mbind option_bind].
  assert (Hnew : good_match h input pos (mkMatch (llen h - hp) n)).
  { split; cbn [m_length m_distance]; [lia|lia|lia|lia|]. by replace (llen h - (llen h - hp)) with hp by lia. }
  set (best' := match best with Some b => _ | None => _ end).
  assert (Hb' : forall m, best' = Some m -> good_match h input pos m).
  { unfold best'. destruct best as [b|]; [destruct (_ <? _)|]; intros m [= <-]; [done|by apply Hbest|done]. }
  destruct (32 <=? n); [eauto|]. by apply IH.
Qed.

Lemma find_best_match_spec c input pos :
  comp_inv c -> is_u64 (llen input) -> 0 <= pos < llen input ->
  exists r, find_best_match c input pos = Some r /\
    forall m, r = Some m -> good_match (c_history c) input pos m.
Proof.
  intros [Hh Ht _] Hu Hpos. unfold find_best_match, MIN_MATCH_LENGTH. rewrite wsub64_small by width.
  destruct (_ || _) eqn:Hg; [by exists None|].
  apply orb_false_elim in Hg as [Hg%Z.ltb_ge _].
  destruct (prefix_at_ok input pos) as [p Hp]; [lia|lia|]. rewrite Hp. cbn [mbind option_bind].
  destruct (match_table c !! p) as [ps|] eqn:Hl; [|by exists None].
  destruct (Ht _ _ Hl) as (Hall & _ & _). unfold MAX_MATCH_LENGTH.
  apply (search_spec _ _ _ _ _ None p);
    [unfold HISTORY_SIZE in Hh; pose proof (llen_nonneg (c_history c)); width|lia|unfold MAX_MATCH_LENGTH; lia|lia|done| |done].
  by apply Forall_take, Forall_reverse.
Qed.

(** A match found in the compressor's history is a copy from the
    decompressor's. *)
Lemma good_match_copy hist c input pos m :
  in_step hist c -> good_match (c_history c) input pos m ->
  produce hist (Copy (m_distance m) (m_length m)) = take (Z.to_nat (m_length m)) (drop (Z.to_nat pos) input).
Proof.
  intros [Hl [pre ->]] [H1 H2 H3 H4 H5]. cbn [produce]. rewrite Ring.lz_copy_suffix by (unfold llen in H4; lia).
  rewrite Ring.lz_copy_short by (unfold llen in H4; lia). unfold same_bytes in H5. rewrite <- H5. do 2 f_equal.
  unfold llen in *. lia.
Qed.

(** ** Compression *)

(** The loop writes a stream whose meaning is the rest of the input, and keeps
    the histories in step. *)
Lemma compress_loop_spec input fuel pos w c hist :
  Forall is_u8 input -> is_u64 (llen input) -> 0 <= pos <= llen input -> (Z.to_nat (llen input - pos) <= fuel)%nat ->
  Writer.writer_wf w -> comp_inv c -> in_step hist c ->
  let rest := drop (Z.to_nat pos) input in
  wpm (compress_loop fuel input pos w) (fun r c' => exists w' items l, r = inr w' /\ Writer.writer_wf w' /\
    Writer.written w' = Writer.written w ++ l /\ (forall off, stream off items l) /\ expand hist items = rest /\
    comp_inv c' /\ in_step (slide hist rest) c') c.
Proof.
  intros Hok Hu. revert pos w c hist. induction fuel as [|fuel IH]; intros pos w c hist Hpos Hf Hw Hc Hstep rest;
    cbn [compress_loop]; destruct (Z.ltb_spec pos (llen input)) as [Hlt|Hge]; [lia| | |].
  1,3: assert (rest = []) as -> by (unfold rest; apply drop_ge; unfold llen in *; lia); apply wpm_ret;
    exists w, [], []; rewrite app_nil_r, Ring.slide_nil; split_and!; try done; intros; constructor.
  apply wpm_access. cbn [id]. destruct (find_best_match_spec c input pos Hc Hu ltac:(lia)) as (best & -> & Hbest).
  apply wpm_bind, wpm_ret.
  (* what both branches share: one item for the next [n] bytes *)
  assert (Hnext : forall n w1 l1 it, 0 < n -> pos + n <= llen input -> llen (take (Z.to_nat n) rest) <= HISTORY_SIZE ->
    Writer.writer_wf w1 -> Writer.written w1 = Writer.written w ++ l1 -> (forall off, codes off it l1) ->
    produce hist it = take (Z.to_nat n) rest ->
    wpm (_ ← add_to_history (take (Z.to_nat n) rest); compress_loop fuel input (pos + n) w1)
      (fun r c' => exists w' items l, r = inr w' /\ Writer.writer_wf w' /\
        Writer.written w' = Writer.written w ++ l /\ (forall off, stream off items l) /\ expand hist items = rest /\
        comp_inv c' /\ in_step (slide hist rest) c') c).
  { intros n w1 l1 it Hn Hin Hsz Hw1 Hl1 Hcodes Hprod. apply wpm_bind.
    eapply wpm_mono; [by apply add_to_history_spec|]. intros r c1 (-> & Hc1 & Hh1).
    assert (Hsplit : rest = take (Z.to_nat n) rest ++ drop (Z.to_nat (pos + n)) input).
    { unfold rest. rewrite Z2Nat.inj_add, <- drop_drop by lia. by rewrite take_drop. }
    eapply wpm_mono; [apply (IH (pos + n) w1 c1 (slide hist (take (Z.to_nat n) rest)))|].
    - lia.
    - lia.
    - done.
    - done.
    - eapply in_step_slide; [done|apply Hc|done|done].
    - cbv zeta. intros r c' (w' & items & l & -> & Hw' & Hl & Hst & Hexp & Hc' & Hstep').
      exists w', (it :: items), (l1 ++ l). split_and!; [done|done|by rewrite Hl, Hl1, app_assoc| | |done|].
      + intros off. by constructor.
      + cbn [expand]. by rewrite Hprod, Hexp, <- Hsplit.
      + rewrite Hsplit, Ring.slide_app. done. }
  assert (Hlit : wpm (byte ← expect (index input pos); w ← expect (encode_literal w byte);
      _ ← add_to_history [byte]; compress_loop fuel input (pos + 1) w)
    (fun r c' => exists w' items l, r = inr w' /\ Writer.writer_wf w' /\
        Writer.written w' = Writer.written w ++ l /\ (forall off, stream off items l) /\ expand hist items = rest /\
        comp_inv c' /\ in_step (slide hist rest) c') c).
  { destruct (index_ok input pos ltac:(lia)) as (b & -> & Hb). apply wpm_bind, wpm_ret.
    assert (Hb8 : is_u8 b) by (rewrite Forall_forall in Hok; apply Hok; by eapply list_elem_of_lookup_2).
    destruct (encode_literal_spec w b Hw Hb8) as (w1 & l1 & -> & Hw1 & Hl1 & Hcodes). apply wpm_bind, wpm_ret.
    assert (Ht : take (Z.to_nat 1) rest = [b]) by (unfold rest; by rewrite (drop_S _ b)).
    rewrite <- Ht. apply (Hnext 1 w1 l1 (Lit b)); [lia|lia|by rewrite Ht|done..]. }
  destruct best as [m|]; [|exact Hlit]. specialize (Hbest m eq_refl).
  unfold MIN_MATCH_LENGTH. rewrite (proj2 (Z.leb_le _ _)) by apply Hbest.
  pose proof Hbest as [H1 H2 H3 H4 H5]. unfold MAX_MATCH_LENGTH in H1.
  destruct (encode_match_spec w (m_distance m) (m_length m)) as (w1 & l1 & -> & Hw1 & Hl1 & Hcodes); [done|lia|lia|].
  apply wpm_bind, wpm_ret, wpm_bind. rewrite Ring.slice_ok by lia. apply wpm_ret.
  replace (Z.to_nat (pos + m_length m - pos)) with (Z.to_nat (m_length m)) by lia.
  apply (Hnext (m_length m) w1 l1 (Copy (m_distance m) (m_length m))); [lia|lia| |done|done|done|by eapply good_match_copy].
  unfold llen, HISTORY_SIZE. rewrite length_take. lia.
Qed.

Lemma compress_spec input c hist :
  Forall is_u8 input -> is_u64 (llen input) -> comp_inv c -> in_step hist c ->
  wpm (compress input) (fun r c' => exists body u items l, r = inr (body ++ [u]) /\ Forall is_u8 body /\ is_u8 u /\
    holds_stream l (Z.land u 7) body /\ stream 0 items l /\ expand hist items = input /\
    comp_inv c' /\ in_step (slide hist input) c') c.
Proof.
  intros Hok Hu Hc Hstep. unfold compress. apply wpm_bind.
  eapply wpm_mono; [apply (compress_loop_spec input (length input) 0 BitWriter.new c hist);
    [done|done|pose proof (llen_nonneg input); lia|unfold llen; lia|apply Writer.writer_new_wf|done|done]|].
  cbv zeta. change (drop (Z.to_nat 0) input) with input.
  intros r c' (w & items & l & -> & Hw & Hl & Hst & He & Hc' & Hs'). apply wpm_ret.
  destruct (Writer.finish_spec w Hw) as (body & u & Hfin & Hb & Hu8 & Hh). rewrite Hl in Hh.
  exists body, u, items, l. split_and!; [by rewrite Hfin|done|done|done|done|done|done|done].
Qed.

(** ** Any number of messages *)

Fixpoint compress_each (inputs : list (list Z)) : Comp unit :=
  match inputs with
  | [] => mret tt
  | input :: inputs' => _ ← compress input; compress_each inputs'
  end.

Lemma compress_each_spec inputs c hist :
  Forall (fun input => Forall is_u8 input /\ is_u64 (llen input)) inputs -> comp_inv c -> in_step hist c ->
  wpm (compress_each inputs) (fun r c' => r = inr tt /\ comp_inv c' /\ in_step (slide hist (concat inputs)) c') c.
Proof.
  intros Hall. revert c hist. induction Hall as [|input inputs [Hb Hu] _ IH]; intros c hist Hc Hs; cbn [compress_each concat].
  { apply wpm_ret. by rewrite Ring.slide_nil. }
  apply wpm_bind. eapply wpm_mono; [by apply compress_spec|].
  intros r c1 (body & u & items & l & -> & _ & _ & _ & _ & _ & Hc1 & Hs1). rewrite Ring.slide_app. by apply IH.
Qed.

Lemma comp_inv_new : comp_inv Compressor_new.
Proof. split; cbn; [done|intros p ps H; by rewrite lookup_empty in H|done]. Qed.

Lemma in_step_new : in_step (replicate (Z.to_nat HISTORY_SIZE) 0) Compressor_new.
Proof.
  split; [unfold llen; rewrite length_replicate; apply Z2Nat.id; done|].
  exists (replicate (Z.to_nat HISTORY_SIZE) 0). cbn [Compressor_new c_history]. by rewrite app_nil_r.
Qed.

(** Compressing never fails and its memory is bounded.  Over any sequence
    of inputs a fresh compressor returns normally from each call; its history
    never exceeds 2,500,000 bytes; its hash table has at most two entries more
    than the compaction threshold, each a list of one to 32 positions at which
    the three bytes of its key occur in the history; and compacting it keeps
    the low watermark's number of prefixes exactly, or all of them when they
    are fewer. *)
Theorem compressor_memory_bounded inputs :
  Forall (fun input => Forall is_u8 input /\ is_u64 (llen input)) inputs ->
  exists c, compress_each inputs Compressor_new = Some (inr tt, c) /\
    llen (c_history c) <= HISTORY_SIZE /\
    Z.of_nat (size (match_table c)) <= MAX_HASH_TABLE_ENTRIES + 2 /\
    (forall p ps, match_table c !! p = Some ps ->
      1 <= llen ps <= MAX_POSITIONS_PER_PREFIX /\ forall pos, pos ∈ ps -> prefix_at (c_history c) pos = Some p) /\
    exists m, compact_hash_table (match_table c) = Some m /\
      Z.of_nat (size m) = Z.min (Z.of_nat (size (match_table c))) COMPACT_TARGET_ENTRIES.
Proof.
  intros Hall. pose proof (compress_each_spec inputs _ _ Hall comp_inv_new in_step_new) as H.
  apply wpm_run in H as (r & c & Hr & -> & [Hh Ht Hs] & _). exists c. split_and!; [done|done|done| |].
  - intros p ps Hp. destruct (Ht p ps Hp) as (Hf & Hne & Hl). split; [|by apply Forall_forall].
    destruct ps; [done|]. rewrite llen_cons in *. pose proof (llen_nonneg ps). lia.
  - destruct (compact_spec _ _ Ht) as (m & ? & _ & ?). eauto.
Qed.

Lemma compressor_memory_bounded_witness :
  exists c, compress_each [[1; 2; 3; 4; 1; 2; 3; 9]; [4; 1; 2; 3]] Compressor_new = Some (inr tt, c) /\
    llen (c_history c) <= HISTORY_SIZE.
Proof.
  destruct (compressor_memory_bounded [[1; 2; 3; 4; 1; 2; 3; 9]; [4; 1; 2; 3]]) as (c & Hc & Hh & _).
  - repeat (apply Forall_cons; split; [split; [by repeat (apply Forall_cons; split; [done|])|done]|]). apply Forall_nil_2.
  - exists c. split; [exact Hc|exact Hh].
Defined.
