(* ===== verification/ZgfxRoundtrip.v ===== *)
(** ZGFX end to end: what the server compresses and wraps is what the client
    decompresses, message after message, over one pair of histories. *)

From S2P Require Import Prelude Cursor Codec Mutation Flags Crates History Zgfx ZgfxTokens ZgfxSafety.
From S2P Require Import ZgfxEncode ZgfxCompress.

#[export] Instance CompressionMode_eq_dec : EqDecision CompressionMode.
Proof. solve_decision. Defined.

Section roundtrip.
Context {BV : Bitvec} {BF : Bitflags} {BO : Byteorder} {GF : BitField}.

(** ** Reading segments back *)

Lemma read_u8_cons x rest : is_u8 x -> read_u8 (x :: rest) = Ok (x, rest).
Proof.
  intros Hx. unfold read_u8. rewrite bo_read_u8_spec, llen_cons.
  rewrite (proj2 (Z.leb_le _ _)) by (pose proof (llen_nonneg rest); lia). cbn [or_err take drop].
  rewrite take_0, drop_0. cbn [from_le_bytes]. by rewrite Z.mul_0_r, Z.add_0_r.
Qed.

Lemma read_u16_le x rest : is_u16 x -> read_u16 (bo_u16_le x ++ rest) = Ok (x, rest).
Proof.
  intros Hx. unfold read_u16. rewrite bo_read_u16_le_spec, bo_u16_le_spec, llen_app.
  assert (Hl : length (to_le_bytes 2 x) = 2%nat) by apply length_to_le_bytes.
  rewrite (proj2 (Z.leb_le _ _)) by (pose proof (llen_nonneg rest); unfold llen at 1; lia).
  rewrite take_app_length', drop_app_length' by done. cbn [or_err].
  rewrite from_to_le_bytes, Z.mod_small by (change (256 ^ Z.of_nat 2) with 65536; width). done.
Qed.

Lemma read_u32_le x rest : is_u32 x -> read_u32 (bo_u32_le x ++ rest) = Ok (x, rest).
Proof.
  intros Hx. unfold read_u32. rewrite bo_read_u32_le_spec, bo_u32_le_spec, llen_app.
  assert (Hl : length (to_le_bytes 4 x) = 4%nat) by apply length_to_le_bytes.
  rewrite (proj2 (Z.leb_le _ _)) by (pose proof (llen_nonneg rest); unfold llen at 1; lia).
  rewrite take_app_length', drop_app_length' by done. cbn [or_err].
  rewrite from_to_le_bytes, Z.mod_small by (change (256 ^ Z.of_nat 4) with 4294967296; width). done.
Qed.

(** The flags of a wrapped segment. *)
Definition wrapped_flags (compressed : bool) : Z := if compressed then 2 else 0.

Lemma bulk_wrapped data compressed :
  BulkEncodedData_from_buffer (segment_flags compressed :: data) = Ok (mkBulk (wrapped_flags compressed) data).
Proof.
  unfold BulkEncodedData_from_buffer. rewrite read_u8_cons by (destruct compressed; split; done).
  unfold mbind, outcome_bind. rewrite !get_bits_spec by lia. by destruct compressed.
Qed.

Lemma parse_single data compressed :
  SegmentedDataPdu_from_buffer (wrap_single_segment data compressed) =
  Ok (Single (mkBulk (wrapped_flags compressed) data)).
Proof.
  unfold SegmentedDataPdu_from_buffer, wrap_single_segment. cbn [app].
  rewrite read_u8_cons by done. unfold mbind, outcome_bind. cbn [or_err SegmentedDescriptor_from_u8].
  change (SegmentedDescriptor_from_u8 ZGFX_SEGMENTED_SINGLE) with (Some DSingle). cbn [or_err].
  by rewrite bulk_wrapped.
Qed.

Lemma parse_multipart count total body segments :
  is_u16 count -> is_u32 total -> read_segments (Z.to_nat count) body = Ok segments ->
  SegmentedDataPdu_from_buffer ([ZGFX_SEGMENTED_MULTIPART] ++ bo_u16_le count ++ bo_u32_le total ++ body) =
  Ok (Multipart total segments).
Proof.
  intros Hc Ht Hr. unfold SegmentedDataPdu_from_buffer. cbn [app]. rewrite read_u8_cons by done.
  unfold mbind, outcome_bind. change (SegmentedDescriptor_from_u8 ZGFX_SEGMENTED_MULTIPART) with (Some DMultipart).
  cbn [or_err]. rewrite read_u16_le by done. rewrite read_u32_le by done. by rewrite Hr.
Qed.

Lemma segments_wrapped segments compressed :
  Forall (fun g => llen g < 65536) segments ->
  exists body, write_segments compressed segments = Some body /\
    forall rest, read_segments (length segments) (body ++ rest) =
      Ok (mkBulk (wrapped_flags compressed) <$> segments).
Proof.
  induction 1 as [|g segments Hg _ (body & Hw & Hr)]; [by exists []|]. cbn [write_segments length].
  pose proof (llen_nonneg g). unfold try_u32. rewrite (proj2 (Z.ltb_lt _ _)) by lia. cbn [mbind option_bind].
  rewrite Hw. cbn [mbind option_bind]. eexists. split; [reflexivity|]. intros rest. rewrite <- !app_assoc.
  cbn [read_segments]. rewrite read_u32_le by width. unfold mbind, outcome_bind.
  unfold split_at_checked. cbn [app].
  replace (llen g + 1) with (llen (segment_flags compressed :: g)) by (rewrite llen_cons; lia).
  change (segment_flags compressed :: g ++ body ++ rest) with ((segment_flags compressed :: g) ++ body ++ rest).
  rewrite llen_app. rewrite (proj2 (Z.leb_le _ _)) by (pose proof (llen_nonneg (body ++ rest)); lia).
  unfold llen. rewrite Nat2Z.id, take_app_length, drop_app_length. cbn [or_err].
  rewrite bulk_wrapped, Hr. done.
Qed.

(** ** Handling them *)

Lemma handle_raw data s :
  sink_wf s -> exists s', handle_segment (mkBulk (wrapped_flags false) data) s = Some (inr (llen data), s') /\
    fed s data s'.
Proof.
  intros Hs. unfold handle_segment. cbn [bulk_data compression_flags]. destruct data as [|x data].
  { exists s. split; [done|by apply fed_nil]. }
  rewrite contains_bits. change (Z.land (wrapped_flags false) CompressionFlags.COMPRESSED =? CompressionFlags.COMPRESSED) with false.
  destruct (write_all_fed s (x :: data) Hs) as (h & Hw & Hf).
  eexists. split; [|exact Hf]. unfold mbind, Mut_bind, access, question. cbn [id]. by rewrite Hw.
Qed.

Lemma handle_raw_segments segments s size written :
  sink_wf s -> 0 <= written -> written + llen (concat segments) <= size -> size <= MAX_DECOMPRESSED_TOTAL ->
  exists s', handle_segments size written (mkBulk (wrapped_flags false) <$> segments) s =
    Some (inr (written + llen (concat segments)), s') /\ fed s (concat segments) s'.
Proof.
  revert s written. induction segments as [|g segments IH]; intros s written Hs Hw0 Hle Hmax.
  { exists s. cbn. split; [by rewrite llen_nil, Z.add_0_r|by apply fed_nil]. }
  cbn [fmap list_fmap handle_segments concat] in *. rewrite llen_app in *.
  destruct (handle_raw g s Hs) as (s1 & H1 & Hf1). rewrite (mut_bind_ok _ _ _ _ _ H1).
  pose proof (llen_nonneg g). pose proof (llen_nonneg (concat segments)).
  rewrite !(proj2 (Z.ltb_ge _ _)) by lia.
  destruct (IH s1 (written + llen g)) as (s2 & -> & Hf2); [apply Hf1|lia|lia|done|].
  exists s2. split; [do 2 f_equal; f_equal; lia|by eapply fed_app].
Qed.

(** Uncompressed data, in one segment or in many. *)
Lemma uncompressed_arrives data s :
  sink_wf s -> llen data <= MAX_DECOMPRESSED_TOTAL ->
  exists wire s', wrap_uncompressed data = Some wire /\ decompress wire s = Some (inr (llen data), s') /\ fed s data s'.
Proof.
  intros Hs Hlen. unfold wrap_uncompressed, ZGFX_SEGMENTED_MAXSIZE. pose proof (llen_nonneg data).
  unfold MAX_DECOMPRESSED_TOTAL in Hlen. destruct (Z.leb_spec (llen data) 65535) as [Hl|Hl].
  - destruct (handle_raw data s Hs) as (s' & Hh & Hf). exists (wrap_single_segment data false), s'.
    split_and!; [done| |done]. unfold decompress. rewrite parse_single. exact Hh.
  - unfold wrap_multipart_segments, ZGFX_SEGMENTED_MAXSIZE. set (segments := chunks (Z.to_nat 65535) data).
    assert (Hcount : llen segments = div_ceil (llen data) 65535) by (by apply length_chunks).
    destruct (chunks_loop_spec (length data) (Z.to_nat 65535) data) as (Hcat & Hall & _); [lia|lia|].
    fold (chunks (Z.to_nat 65535) data) in Hcat, Hall. fold segments in Hcat, Hall.
    assert (Hn : 0 <= llen segments < 65536) by (rewrite Hcount; unfold div_ceil; zdm).
    unfold try_u16, try_u32. rewrite <- Hcount, !(proj2 (Z.ltb_lt _ _)) by lia. cbn [mbind option_bind].
    destruct (segments_wrapped segments false) as (body & -> & Hread).
    { eapply Forall_impl; [exact Hall|]. intros g [_ Hg]. unfold llen. lia. }
    cbn [mbind option_bind].
    destruct (handle_raw_segments segments s (llen data) 0) as (s' & Hh & Hf); [done|lia|by rewrite Hcat|done|].
    rewrite Hcat in Hh, Hf. eexists _, s'. split_and!; [reflexivity| |done].
    unfold decompress. rewrite (parse_multipart _ _ _ (mkBulk (wrapped_flags false) <$> segments)); [|width|width|].
    + cbn [question]. unfold mbind at 1, Mut_bind at 1, mret at 1, Mut_ret at 1.
      rewrite (mut_bind_ok _ _ _ _ _ Hh). by rewrite Z.eqb_refl.
    + rewrite <- (app_nil_r body). unfold llen. by rewrite Nat2Z.id, Hread.
Qed.

(** Compressed data in its segment. *)
Lemma compressed_arrives body u items l s :
  Forall is_u8 body -> is_u8 u -> holds_stream l (Z.land u 7) body -> stream 0 items l -> sink_wf s ->
  llen (body ++ [u]) <= ZGFX_SEGMENTED_MAXSIZE ->
  let out := expand (Ring.contents (history s)) items in
  llen out <= MAX_DECOMPRESSED_PER_SEGMENT ->
  exists wire s', wrap_compressed (body ++ [u]) = Some wire /\ decompress wire s = Some (inr (llen out), s') /\
    fed s out s'.
Proof.
  intros Hb Hu Hh Hst Hs Hl out Hmax. unfold wrap_compressed. rewrite (proj2 (Z.leb_le _ _)) by lia.
  destruct (segment_decodes_stream items l body u s) as (s' & Hd & Hf); try done.
  { rewrite llen_app in Hl. unfold ZGFX_SEGMENTED_MAXSIZE, U64_MAX in *. change (llen [u]) with 1 in Hl. lia. }
  exists (wrap_single_segment (body ++ [u]) true), s'. split_and!; [done| |done].
  unfold decompress. rewrite parse_single. cbn [question]. unfold mbind, Mut_bind, mret, Mut_ret.
  unfold handle_segment. cbn [bulk_data compression_flags].
  destruct (body ++ [u]) eqn:He; [by destruct body|]. rewrite <- He in *. rewrite contains_bits.
  change (Z.land (wrapped_flags true) CompressionFlags.COMPRESSED =? CompressionFlags.COMPRESSED) with true.
  exact Hd.
Qed.

(** ** One message *)

(** What a message does to both ends. *)
Definition delivered (data wire : list Z) (s : Sink) : Prop :=
  exists s', decompress wire s = Some (inr (llen data), s') /\ fed s data s'.

Lemma message_arrives data mode c s :
  Forall is_u8 data -> llen data <= MAX_DECOMPRESSED_PER_SEGMENT ->
  sink_wf s -> comp_inv c -> in_step (Ring.contents (history s)) c -> mode <> Never ->
  wpm (compress_and_wrap_egfx data mode) (fun r c' => exists wire, r = inr wire /\ delivered data wire s /\
    comp_inv c' /\ in_step (slide (Ring.contents (history s)) data) c') c.
Proof.
  intros Hok Hlen Hs Hc Hstep Hmode. unfold MAX_DECOMPRESSED_PER_SEGMENT in Hlen. pose proof (llen_nonneg data).
  destruct (uncompressed_arrives data s Hs) as (raw & s1 & Hraw & Hraw' & Hraw''); [unfold MAX_DECOMPRESSED_TOTAL; lia|].
  assert (Hrawd : delivered data raw s) by by exists s1.
  assert (Hcomp : wpm (compress data) (fun r c' => exists compressed, r = inr compressed /\
    (llen compressed <= ZGFX_SEGMENTED_MAXSIZE -> exists wire, wrap_compressed compressed = Some wire /\ delivered data wire s) /\
    comp_inv c' /\ in_step (slide (Ring.contents (history s)) data) c') c).
  { eapply wpm_mono; [apply compress_spec; [done|width|done|done]|].
    intros r c' (body & u & items & l & -> & Hb & Hu & Hh & Hst & He & Hc' & Hs').
    exists (body ++ [u]). split_and!; [done| |done|done]. intros Hsz.
    destruct (compressed_arrives body u items l s) as (wire & s' & Hw & Hd & Hf); try done.
    { rewrite He. unfold MAX_DECOMPRESSED_PER_SEGMENT. lia. }
    rewrite He in Hd, Hf. exists wire. split; [done|]. by exists s'. }
  destruct mode; [done|..]; cbn [compress_and_wrap_egfx]; apply wpm_bind; (eapply wpm_mono; [exact Hcomp|]);
    intros r c' (compressed & -> & Hfit & Hc' & Hs'); destruct (Z.leb_spec (llen compressed) ZGFX_SEGMENTED_MAXSIZE) as [Hl|Hl];
    rewrite ?Hraw; try (apply wpm_ret; by exists raw); destruct (Hfit Hl) as (wire & -> & Hd).
  - apply wpm_bind, wpm_ret, wpm_bind, wpm_ret. destruct (_ <? _); apply wpm_ret; [by exists wire|by exists raw].
  - apply wpm_ret. by exists wire.
Qed.

(** ** A session *)

(** The messages one after the other through the same compressor and
    decompressor; [None] if an end panics or fails. *)
Fixpoint transmit (messages : list (list Z * CompressionMode)) (c : Compressor) (h : FixedCircularBuffer.t) :
    option (list (list Z)) :=
  match messages with
  | [] => Some []
  | (data, mode) :: messages' =>
      match compress_and_wrap_egfx data mode c with
      | Some (inr wire, c') =>
          match decompress wire (mkSink h []) with
          | Some (inr n, s) =>
              if n =? llen (output s) then outputs ← transmit messages' c' (history s); Some (output s :: outputs)
              else None
          | _ => None
          end
      | _ => None
      end
  end.

(** Once a message is sent without telling the compressor, the rest are too. *)
Fixpoint never_stays (messages : list (list Z * CompressionMode)) : Prop :=
  match messages with
  | [] => True
  | (_, Never) :: messages' => Forall (fun m => m.2 = Never) messages'
  | _ :: messages' => never_stays messages'
  end.

Lemma delivered_step data wire h messages c :
  delivered data wire (mkSink h []) -> exists h',
    Ring.contents h' = slide (Ring.contents h) data /\ sink_wf (mkSink h' []) /\
    match decompress wire (mkSink h []) with
    | Some (inr n, s) =>
        if n =? llen (output s) then outputs ← transmit messages c (history s); Some (output s :: outputs) else None
    | _ => None
    end = (outputs ← transmit messages c h'; Some (data :: outputs)).
Proof.
  intros (s' & -> & Ho & Hc & Hw). cbn [output history] in Ho, Hc. exists (history s').
  split_and!; [done|destruct Hw; by split|]. rewrite Ho. cbn [app]. by rewrite Z.eqb_refl.
Qed.

Lemma transmit_raw messages c h :
  Forall (fun m => Forall is_u8 m.1 /\ llen m.1 <= MAX_DECOMPRESSED_PER_SEGMENT) messages ->
  Forall (fun m => m.2 = Never) messages -> sink_wf (mkSink h []) ->
  transmit messages c h = Some (fst <$> messages).
Proof.
  intros Hok. revert h. induction Hok as [|[data mode] messages [Hb Hl] _ IH]; intros h Hn Hs; [done|].
  apply Forall_cons in Hn as [Hmode Hn]. cbn in Hmode, Hb, Hl. subst mode. cbn [transmit compress_and_wrap_egfx].
  destruct (uncompressed_arrives data (mkSink h []) Hs) as (wire & s' & -> & Hd);
    [unfold MAX_DECOMPRESSED_PER_SEGMENT, MAX_DECOMPRESSED_TOTAL in *; lia|].
  cbn [expect mret Mut_ret]. unfold mret, Mut_ret.
  destruct (delivered_step data wire h messages c) as (h' & _ & Hw & ->); [by exists s'|].
  by rewrite IH.
Qed.

Lemma transmit_all messages c h :
  Forall (fun m => Forall is_u8 m.1 /\ llen m.1 <= MAX_DECOMPRESSED_PER_SEGMENT) messages ->
  never_stays messages -> sink_wf (mkSink h []) -> comp_inv c -> in_step (Ring.contents h) c ->
  transmit messages c h = Some (fst <$> messages).
Proof.
  intros Hok. revert c h. induction Hok as [|[data mode] messages [Hb Hl] Hok IH]; intros c h Hn Hs Hc Hstep; [done|].
  cbn in Hb, Hl. destruct (decide (mode = Never)) as [->|Hmode].
  { apply transmit_raw; [constructor; done|by constructor|done]. }
  pose proof (message_arrives data mode c (mkSink h []) Hb Hl Hs Hc Hstep Hmode) as Hm.
  apply wpm_run in Hm as (r & c' & Hrun & wire & -> & Hd & Hc' & Hs'). cbn [transmit]. rewrite Hrun.
  destruct (delivered_step data wire h messages c' Hd) as (h' & Hcont & Hw & ->).
  rewrite IH; [done| |done|done|by rewrite Hcont]. by destruct mode.
Qed.

(** C5: ZGFX is lossless over a whole session.  Any sequence of messages of up
    to 64 MiB each, sent in the modes [Auto] and [Always] in any mixture -
    and, once sent in mode [Never], in that mode to the end - is compressed,
    wrapped into one or more segments and decompressed to exactly the same
    messages by a fresh pair, each with its length as the reported count; no
    end panics or fails, whichever messages fall back to uncompressed
    segments, as the window slides and the hash table is compacted. *)
Theorem zgfx_roundtrip messages :
  Forall (fun m => Forall is_u8 m.1 /\ llen m.1 <= MAX_DECOMPRESSED_PER_SEGMENT) messages ->
  never_stays messages ->
  transmit messages Compressor_new Decompressor_new = Some (fst <$> messages).
Proof.
  intros Hok Hn. apply transmit_all; [done|done|apply sink_wf_new|apply comp_inv_new|].
  rewrite contents_new. apply in_step_new.
Qed.

End roundtrip.

Definition sample_messages : list (list Z * CompressionMode) :=
  [([65; 65; 65; 65; 65; 65; 66; 66; 66; 66], Always); ([65; 65; 65; 66; 66; 66; 66; 255], Auto); ([], Always); ([1], Never)].

Lemma zgfx_roundtrip_witness :
  @transmit list_bitvec bits_flags le_byteorder shift_bit_field sample_messages Compressor_new Decompressor_new =
  Some (fst <$> sample_messages).
Proof.
  apply (@zgfx_roundtrip list_bitvec bits_flags le_byteorder shift_bit_field sample_messages).
  - repeat (apply Forall_cons; split; [split; [by repeat (apply Forall_cons; split; [done|])|done]|]). apply Forall_nil_2.
  - apply Forall_nil_2.
Defined.
