(* ===== verification/TunnelWire.v ===== *)
(** The PDUs of the multitransport tunnel
    (src/crates/ironrdp-rdpemt/src/pdu/): the common header with its
    sub-headers, the create request and response, and data. *)

From S2P Require Import Prelude Cursor Codec.

(** ** Sub-headers *)

Inductive SubHeaderType := AutoDetectRequest | AutoDetectResponse | UnknownSubHeader (value : Z).

Definition SubHeaderType_from_u8 (value : Z) : SubHeaderType :=
  if value =? 0x00 then AutoDetectRequest
  else if value =? 0x01 then AutoDetectResponse else UnknownSubHeader value.
Definition SubHeaderType_to_u8 (t : SubHeaderType) : Z :=
  match t with AutoDetectRequest => 0x00 | AutoDetectResponse => 0x01 | UnknownSubHeader value => value end.

Record TunnelSubHeader := mkSubHeader { sub_header_type : SubHeaderType; sub_data : list Z }.

Definition SUB_MIN_WIRE_SIZE : Z := 2.
Definition wire_size (s : TunnelSubHeader) : Z := SUB_MIN_WIRE_SIZE + llen (sub_data s).

Definition TunnelSubHeader_encode (s : TunnelSubHeader) : Encoder unit :=
  let total := wire_size s in
  _ ← WriteCursor.ensure_size total;
  if 255 <? total then fail (EInvalidField "SubHeaderLength" "sub-header exceeds 255 bytes" None)
  else
    _ ← WriteCursor.write_u8 total;
    _ ← WriteCursor.write_u8 (SubHeaderType_to_u8 (sub_header_type s));
    WriteCursor.write_slice (sub_data s).

Definition TunnelSubHeader_decode : Decoder TunnelSubHeader :=
  _ ← ReadCursor.ensure_size SUB_MIN_WIRE_SIZE;
  sub_header_length ← ReadCursor.read_u8;
  if sub_header_length <? 2
  then fail_at (DInvalidField "SubHeaderLength" "sub-header length must be at least 2")
  else
    t ← ReadCursor.read_u8;
    let data_len := sub_header_length - SUB_MIN_WIRE_SIZE in
    _ ← ReadCursor.ensure_size data_len;
    data ← ReadCursor.read_slice (Z.to_nat data_len);
    mret (mkSubHeader (SubHeaderType_from_u8 t) data).

#[export] Instance TunnelSubHeader_Encode : Encode TunnelSubHeader :=
  { encode_into := TunnelSubHeader_encode; size := wire_size }.
#[export] Instance TunnelSubHeader_Decode : Decode TunnelSubHeader :=
  { decode_from := TunnelSubHeader_decode }.

(** ** The header *)

Inductive TunnelAction := ActCreateRequest | ActCreateResponse | ActData.

Definition TunnelAction_from_u8 (value : Z) : option TunnelAction :=
  if value =? 0x0 then Some ActCreateRequest
  else if value =? 0x1 then Some ActCreateResponse
  else if value =? 0x2 then Some ActData else None.
Definition TunnelAction_to_u8 (a : TunnelAction) : Z :=
  match a with ActCreateRequest => 0x0 | ActCreateResponse => 0x1 | ActData => 0x2 end.

#[export] Instance TunnelAction_eq_dec : EqDecision TunnelAction.
Proof. solve_decision. Defined.

Record TunnelHeader := mkTunnelHeader {
  action : TunnelAction;
  payload_length : Z;
  header_length : Z;
  sub_headers : list TunnelSubHeader;
}.

Definition HEADER_MIN_SIZE : Z := 4.

(** [sub_headers.iter().map(TunnelSubHeader::size).sum()] *)
Definition subs_size (subs : list TunnelSubHeader) : Z := foldr Z.add 0 (wire_size <$> subs).

Definition TunnelHeader_size (h : TunnelHeader) : Z := HEADER_MIN_SIZE + subs_size (sub_headers h).

Definition derived_header_length (h : TunnelHeader) : outcome EncodeErrorKind Z :=
  let total := HEADER_MIN_SIZE + subs_size (sub_headers h) in
  if total <=? 255 then Ok total
  else Err (EInvalidField "HeaderLength" "sub-headers exceed one byte of length" None).

Definition TunnelHeader_encode (h : TunnelHeader) : Encoder unit :=
  _ ← WriteCursor.ensure_size (TunnelHeader_size h);
  header_length ← lift (derived_header_length h);
  _ ← WriteCursor.write_u8 (TunnelAction_to_u8 (action h));
  _ ← WriteCursor.write_u16 (payload_length h);
  _ ← WriteCursor.write_u8 header_length;
  iter_m encode_into (sub_headers h).

(** [while !sub_cursor.is_empty()]: every sub-header takes at least two bytes,
    so as many rounds as bytes are enough. *)
Fixpoint decode_sub_headers (fuel : nat) : Decoder (list TunnelSubHeader) :=
  at_end ← (gets ReadCursor.is_empty : Decoder bool);
  if (at_end : bool) then mret []
  else
    match fuel with
    | O => crash
    | S fuel' =>
        sub ← decode_from;
        subs ← decode_sub_headers fuel';
        mret (sub :: subs)
    end.

Definition TunnelHeader_decode : Decoder TunnelHeader :=
  _ ← ReadCursor.ensure_size HEADER_MIN_SIZE;
  byte0 ← ReadCursor.read_u8;
  let action_raw := Z.land byte0 0x0F in
  let flags := Z.shiftr byte0 4 in
  if negb (flags =? 0) then fail_at (DInvalidField "Flags" "flags must be zero")
  else
    match TunnelAction_from_u8 action_raw with
    | None => fail_at (DUnexpectedMessageType action_raw)
    | Some action =>
        payload_length ← ReadCursor.read_u16;
        header_length ← ReadCursor.read_u8;
        if header_length <? 4 then fail_at (DInvalidField "HeaderLength" "header length must be at least 4")
        else
          let sub_header_bytes := header_length - HEADER_MIN_SIZE in
          sub_headers ←
            (if 0 <? sub_header_bytes then
               _ ← ReadCursor.ensure_size sub_header_bytes;
               sub_data ← ReadCursor.read_slice (Z.to_nat sub_header_bytes);
               lift ('(subs, _) ← decode_sub_headers (length sub_data) (ReadCursor.new sub_data); mret subs)
             else mret []);
          mret (mkTunnelHeader action payload_length header_length sub_headers)
    end.

(** ** Create request *)

Definition SECURITY_COOKIE_LEN : nat := 16.
Definition REQUEST_PAYLOAD_SIZE : Z := 24.

Record TunnelCreateRequest := mkCreateRequest { request_id : Z; security_cookie : list Z }.

Definition TunnelCreateRequest_size : Z := HEADER_MIN_SIZE + REQUEST_PAYLOAD_SIZE.

Definition TunnelCreateRequest_encode (r : TunnelCreateRequest) : Encoder unit :=
  _ ← WriteCursor.ensure_size TunnelCreateRequest_size;
  _ ← TunnelHeader_encode (mkTunnelHeader ActCreateRequest REQUEST_PAYLOAD_SIZE 4 []);
  _ ← WriteCursor.write_u32 (request_id r);
  _ ← WriteCursor.write_u32 0;
  WriteCursor.write_slice (security_cookie r).

(** The checks a fixed-size PDU makes of its header. *)
Definition check_fixed (a : TunnelAction) (size : Z) (msg_header msg_payload : string) (h : TunnelHeader) :
    Decoder unit :=
  if negb (bool_decide (action h = a)) then fail_at (DUnexpectedMessageType (TunnelAction_to_u8 (action h)))
  else if negb (header_length h =? 4) then fail_at (DInvalidField "HeaderLength" msg_header)
  else if negb (payload_length h =? size) then fail_at (DInvalidField "PayloadLength" msg_payload)
  else mret tt.

Definition TunnelCreateRequest_decode : Decoder TunnelCreateRequest :=
  header ← TunnelHeader_decode;
  _ ← check_fixed ActCreateRequest REQUEST_PAYLOAD_SIZE "must be 4 for CreateRequest" "must be 24 for CreateRequest" header;
  _ ← ReadCursor.ensure_size REQUEST_PAYLOAD_SIZE;
  request_id ← ReadCursor.read_u32;
  _ ← ReadCursor.read_u32;
  security_cookie ← ReadCursor.read_array SECURITY_COOKIE_LEN;
  mret (mkCreateRequest request_id security_cookie).

#[export] Instance TunnelCreateRequest_Encode : Encode TunnelCreateRequest :=
  { encode_into := TunnelCreateRequest_encode; size := fun _ => TunnelCreateRequest_size }.
#[export] Instance TunnelCreateRequest_Decode : Decode TunnelCreateRequest :=
  { decode_from := TunnelCreateRequest_decode }.

(** ** Create response *)

Definition RESPONSE_PAYLOAD_SIZE : Z := 4.
Definition S_OK : Z := 0x00000000.
Definition SEVERITY_BIT : Z := 0x80000000.

Record TunnelCreateResponse := mkCreateResponse { hr_response : Z }.

Definition is_success (r : TunnelCreateResponse) : bool := Z.land (hr_response r) SEVERITY_BIT =? 0.

Definition TunnelCreateResponse_size : Z := HEADER_MIN_SIZE + RESPONSE_PAYLOAD_SIZE.

Definition TunnelCreateResponse_encode (r : TunnelCreateResponse) : Encoder unit :=
  _ ← WriteCursor.ensure_size TunnelCreateResponse_size;
  _ ← TunnelHeader_encode (mkTunnelHeader ActCreateResponse RESPONSE_PAYLOAD_SIZE 4 []);
  WriteCursor.write_u32 (hr_response r).

Definition TunnelCreateResponse_decode : Decoder TunnelCreateResponse :=
  header ← TunnelHeader_decode;
  _ ← check_fixed ActCreateResponse RESPONSE_PAYLOAD_SIZE "must be 4 for CreateResponse" "must be 4 for CreateResponse" header;
  _ ← ReadCursor.ensure_size RESPONSE_PAYLOAD_SIZE;
  hr_response ← ReadCursor.read_u32;
  mret (mkCreateResponse hr_response).

#[export] Instance TunnelCreateResponse_Encode : Encode TunnelCreateResponse :=
  { encode_into := TunnelCreateResponse_encode; size := fun _ => TunnelCreateResponse_size }.
#[export] Instance TunnelCreateResponse_Decode : Decode TunnelCreateResponse :=
  { decode_from := TunnelCreateResponse_decode }.

(** ** Data *)

Record TunnelData := mkTunnelData { td_sub_headers : list TunnelSubHeader; higher_layer_data : list Z }.

Definition header_length_untruncated (d : TunnelData) : Z := HEADER_MIN_SIZE + subs_size (td_sub_headers d).
Definition TunnelData_header_length (d : TunnelData) : option Z :=
  if header_length_untruncated d <=? 255 then Some (header_length_untruncated d) else None.

Definition TunnelData_size (d : TunnelData) : Z := header_length_untruncated d + llen (higher_layer_data d).

Definition TunnelData_encode (d : TunnelData) : Encoder unit :=
  _ ← WriteCursor.ensure_size (TunnelData_size d);
  match TunnelData_header_length d with
  | None => fail (EInvalidField "HeaderLength" "sub-headers exceed one byte of length" None)
  | Some header_length =>
      if 65535 <? llen (higher_layer_data d)
      then fail (EInvalidField "PayloadLength" "payload exceeds 65535 bytes" None)
      else
        _ ← TunnelHeader_encode (mkTunnelHeader ActData (llen (higher_layer_data d)) header_length (td_sub_headers d));
        WriteCursor.write_slice (higher_layer_data d)
  end.

Definition TunnelData_decode : Decoder TunnelData :=
  header ← TunnelHeader_decode;
  if negb (bool_decide (action header = ActData))
  then fail_at (DUnexpectedMessageType (TunnelAction_to_u8 (action header)))
  else
    _ ← ReadCursor.ensure_size (payload_length header);
    data ← ReadCursor.read_slice (Z.to_nat (payload_length header));
    mret (mkTunnelData (sub_headers header) data).

#[export] Instance TunnelData_Encode : Encode TunnelData :=
  { encode_into := TunnelData_encode; size := TunnelData_size }.
#[export] Instance TunnelData_Decode : Decode TunnelData := { decode_from := TunnelData_decode }.

(** ** Any PDU *)

Inductive TunnelPdu :=
| PduCreateRequest (r : TunnelCreateRequest)
| PduCreateResponse (r : TunnelCreateResponse)
| PduData (d : TunnelData).

(** [src.remaining()[0]] *)
Definition peek_first : Decoder Z := fun c =>
  match ReadCursor.remaining c with b :: _ => Ok (b, c) | [] => Panic end.

Definition TunnelPdu_decode : Decoder TunnelPdu :=
  _ ← ReadCursor.ensure_size 1;
  byte0 ← peek_first;
  let action_raw := Z.land byte0 0x0F in
  match TunnelAction_from_u8 action_raw with
  | None => fail_at (DUnexpectedMessageType action_raw)
  | Some ActCreateRequest => r ← decode_from; mret (PduCreateRequest r)
  | Some ActCreateResponse => r ← decode_from; mret (PduCreateResponse r)
  | Some ActData => d ← decode_from; mret (PduData d)
  end.

#[export] Instance TunnelPdu_Decode : Decode TunnelPdu := { decode_from := TunnelPdu_decode }.

(** ** What the decoders and encoders promise *)

Definition SubHeaderType_wf (t : SubHeaderType) : Prop :=
  match t with UnknownSubHeader v => is_u8 v /\ v <> 0 /\ v <> 1 | _ => True end.
Definition TunnelSubHeader_wf (s : TunnelSubHeader) : Prop :=
  SubHeaderType_wf (sub_header_type s) /\ bytes_ok (sub_data s) /\ wire_size s <= 255.
Definition TunnelSubHeader_wire (s : TunnelSubHeader) : list Z :=
  [wire_size s; SubHeaderType_to_u8 (sub_header_type s)] ++ sub_data s.

Lemma SubHeaderType_from_to t : SubHeaderType_wf t -> SubHeaderType_from_u8 (SubHeaderType_to_u8 t) = t.
Proof.
  destruct t as [| |v]; [done..|]. intros (_ & ? & ?). unfold SubHeaderType_from_u8. cbn.
  by rewrite !(proj2 (Z.eqb_neq _ _)).
Qed.

Lemma SubHeaderType_to_u8_range t : SubHeaderType_wf t -> is_u8 (SubHeaderType_to_u8 t).
Proof. destruct t; [done..|]. by intros (? & _). Qed.

Lemma SubHeaderType_from_u8_wf v : is_u8 v -> SubHeaderType_wf (SubHeaderType_from_u8 v).
Proof. intros Hv. unfold SubHeaderType_from_u8. by zcase. Qed.

Lemma llen_sub_wire s : llen (TunnelSubHeader_wire s) = wire_size s.
Proof. unfold TunnelSubHeader_wire, wire_size, SUB_MIN_WIRE_SIZE. cbn [app]. rewrite !llen_cons. lia. Qed.

Lemma TunnelSubHeader_decodes s :
  TunnelSubHeader_wf s -> decodes TunnelSubHeader_decode (TunnelSubHeader_wire s) s.
Proof.
  intros (Ht & Hb & Hl). pose proof (llen_nonneg (sub_data s)) as H0.
  assert (Hw : 2 <= wire_size s) by (unfold wire_size, SUB_MIN_WIRE_SIZE; lia).
  apply decodes_ensure; [rewrite llen_sub_wire; unfold SUB_MIN_WIRE_SIZE; lia|].
  unfold TunnelSubHeader_wire. change ([?a; ?b] ++ ?l) with ([a] ++ [b] ++ l).
  eapply decodes_bind; [apply decodes_u8; width|]. rewrite (proj2 (Z.ltb_ge _ _)) by lia.
  eapply decodes_bind; [by apply decodes_u8, SubHeaderType_to_u8_range|].
  replace (wire_size s - SUB_MIN_WIRE_SIZE) with (llen (sub_data s)) by (unfold wire_size; lia).
  apply decodes_ensure; [lia|]. unfold llen. rewrite Nat2Z.id.
  eapply decodes_last; [apply decodes_read_slice|]. rewrite SubHeaderType_from_to by done. destruct s. apply decodes_ret.
Qed.

Lemma TunnelSubHeader_safe : safe 0 TunnelSubHeader_decode 0 TunnelSubHeader_wf.
Proof.
  eapply safe_bind; [apply (safe_ensure 0)|]. intros _ _. unfold SUB_MIN_WIRE_SIZE. cbn [Z.max].
  eapply safe_bind; [apply (safe_u8 1); lia|]. intros n Hn. destruct (Z.ltb_spec n 2); [apply safe_fail_at|].
  eapply safe_bind; [apply (safe_u8 0); lia|]. intros t Ht. cbv zeta.
  eapply safe_bind; [apply (safe_ensure 0 (n - 2))|]. intros _ _.
  eapply safe_bind; [eapply safe_weaken; [apply (safe_read_slice 0 (Z.to_nat (n - 2))); lia|lia|done|done]|].
  intros bs [Hl Hb]. apply safe_ret. split_and!; [by apply SubHeaderType_from_u8_wf|done|].
  unfold wire_size, SUB_MIN_WIRE_SIZE, llen. cbn. width.
Qed.

(** How far a sub-header moves the cursor. *)
Lemma TunnelSubHeader_progress c :
  rc_wf c ->
  match TunnelSubHeader_decode c with
  | Ok (s, c') => rc_wf c' /\ TunnelSubHeader_wf s /\ ReadCursor.len c' = ReadCursor.len c - wire_size s
  | Err _ => True
  | Panic => False
  end.
Proof.
  intros Hc. pose proof (TunnelSubHeader_safe c Hc) as Hsafe.
  assert (H0 : 0 <= ReadCursor.len c) by (destruct Hc; unfold ReadCursor.len, llen; lia).
  specialize (Hsafe H0). destruct (TunnelSubHeader_decode c) as [[s c']| |] eqn:Hd; [|done..].
  destruct Hsafe as (Hc' & _ & Hw & Hi & Hp). split_and!; [done|done|].
  unfold TunnelSubHeader_decode in Hd.
  apply bind_ok_inv in Hd as ([] & c1 & H1 & Hd). apply ensure_size_len in H1 as ->.
  apply bind_ok_inv in Hd as (n & c2 & H2%len_read_u8 & Hd).
  destruct (n <? 2) eqn:Hn; [done|]. apply Z.ltb_ge in Hn.
  apply bind_ok_inv in Hd as (t & c3 & H3%len_read_u8 & Hd). cbv zeta in Hd.
  apply bind_ok_inv in Hd as ([] & c4 & H4 & Hd). apply ensure_size_len in H4 as ->.
  apply bind_ok_inv in Hd as (bs & c5 & [H5 Hl]%len_read_slice & Hd).
  injection Hd as <- <-. unfold wire_size, SUB_MIN_WIRE_SIZE in *. cbn [sub_data]. lia.
Qed.

#[export] Program Instance TunnelSubHeader_Codec : Codec TunnelSubHeader :=
  { wf := TunnelSubHeader_wf; wire := TunnelSubHeader_wire; decode_safe := TunnelSubHeader_safe }.
Next Obligation.
  intros s (Ht & Hb & Hl). unfold encode_into, TunnelSubHeader_Encode, TunnelSubHeader_encode. cbv zeta.
  apply encodes_ensure; [rewrite llen_sub_wire; lia|]. rewrite (proj2 (Z.ltb_ge _ _)) by lia.
  unfold TunnelSubHeader_wire. change ([?a; ?b] ++ ?l) with ([a] ++ [b] ++ l).
  pose proof (llen_nonneg (sub_data s)).
  apply encodes_bind; [apply encodes_u8; unfold wire_size, SUB_MIN_WIRE_SIZE in *; width|].
  apply encodes_bind; [by apply encodes_u8, SubHeaderType_to_u8_range|apply encodes_write_slice].
Qed.
Next Obligation. intros s _. symmetry. apply llen_sub_wire. Qed.
Next Obligation. intros s Hs. by apply decodes_to_end, TunnelSubHeader_decodes. Qed.
#[export] Instance TunnelSubHeader_Framed : Framed TunnelSubHeader := { framed := TunnelSubHeader_decodes }.

(** *** The header *)

Definition subs_wire (subs : list TunnelSubHeader) : list Z := subs ≫= TunnelSubHeader_wire.

Lemma llen_subs_wire subs : llen (subs_wire subs) = subs_size subs.
Proof.
  induction subs as [|s subs IH]; [done|]. unfold subs_wire in *. rewrite bind_cons, llen_app, IH, llen_sub_wire. done.
Qed.

Lemma subs_size_nonneg subs : 0 <= subs_size subs.
Proof. rewrite <- llen_subs_wire. apply llen_nonneg. Qed.

Definition TunnelHeader_wf (h : TunnelHeader) : Prop :=
  is_u16 (payload_length h) /\ Forall TunnelSubHeader_wf (sub_headers h) /\
  header_length h = HEADER_MIN_SIZE + subs_size (sub_headers h) /\ header_length h <= 255.
Definition TunnelHeader_wire (h : TunnelHeader) : list Z :=
  [TunnelAction_to_u8 (action h)] ++ to_le_bytes 2 (payload_length h) ++ [header_length h] ++ subs_wire (sub_headers h).

Lemma llen_header_wire h : llen (TunnelHeader_wire h) = HEADER_MIN_SIZE + subs_size (sub_headers h).
Proof.
  unfold TunnelHeader_wire. rewrite !llen_app, llen_subs_wire. unfold llen. rewrite length_to_le_bytes. simpl. unfold HEADER_MIN_SIZE. lia.
Qed.

Lemma action_to_u8_range a : is_u8 (TunnelAction_to_u8 a).
Proof. by destruct a. Qed.

Lemma TunnelHeader_encodes h : TunnelHeader_wf h -> encodes (TunnelHeader_encode h) (TunnelHeader_wire h).
Proof.
  intros (Hp & Hs & Hl & H255). unfold TunnelHeader_encode.
  apply encodes_ensure; [by rewrite llen_header_wire|]. unfold derived_header_length. rewrite <- Hl.
  rewrite (proj2 (Z.leb_le _ _)) by lia. pose proof (subs_size_nonneg (sub_headers h)).
  apply (encodes_value _ (header_length h)); [done|].
  apply encodes_bind; [apply encodes_u8, action_to_u8_range|].
  apply encodes_bind; [apply encodes_u16|].
  apply encodes_bind; [apply encodes_u8; unfold HEADER_MIN_SIZE in Hl; width|].
  apply encodes_iter. eapply Forall_impl; [exact Hs|]. intros s Hw. exact (wire_encodes s Hw).
Qed.

Lemma decode_subs_wire subs fuel pre :
  Forall TunnelSubHeader_wf subs -> (length (subs_wire subs) <= fuel)%nat ->
  decode_sub_headers fuel (ReadCursor.mk (pre ++ subs_wire subs) (length pre)) =
  Ok (subs, ReadCursor.mk (pre ++ subs_wire subs) (length (pre ++ subs_wire subs))).
Proof.
  intros Hs. revert fuel pre. induction Hs as [|s subs Hw _ IH]; intros fuel pre Hf.
  - change (subs_wire []) with (@nil Z). rewrite app_nil_r.
    assert (He : ReadCursor.is_empty (ReadCursor.mk pre (length pre)) = true)
      by (apply Z.eqb_eq; unfold ReadCursor.len, llen; cbn [ReadCursor.inner ReadCursor.pos]; lia).
    destruct fuel; cbn [decode_sub_headers]; unfold mbind, M_bind, gets; by rewrite He.
  - change (subs_wire (s :: subs)) with (TunnelSubHeader_wire s ++ subs_wire subs) in *.
    pose proof (llen_sub_wire s) as Hl. pose proof (llen_nonneg (sub_data s)).
    unfold wire_size, SUB_MIN_WIRE_SIZE in Hl. rewrite length_app in Hf.
    destruct fuel as [|fuel]; [unfold llen in Hl; lia|]. cbn [decode_sub_headers].
    unfold mbind at 1, M_bind at 1, gets. unfold ReadCursor.is_empty at 1, ReadCursor.len. cbn [ReadCursor.inner ReadCursor.pos].
    rewrite !llen_app. rewrite (proj2 (Z.eqb_neq _ _)) by (pose proof (llen_nonneg (subs_wire subs)); unfold llen in *; lia).
    unfold mbind at 1, M_bind at 1. unfold decode_from, TunnelSubHeader_Decode.
    rewrite (TunnelSubHeader_decodes s Hw pre (subs_wire subs)).
    specialize (IH fuel (pre ++ TunnelSubHeader_wire s)). rewrite <- !app_assoc, !length_app in IH.
    unfold mbind at 1, M_bind at 1. rewrite IH by (unfold llen in *; lia). rewrite !length_app. reflexivity.
Qed.

Lemma TunnelHeader_decodes h : TunnelHeader_wf h -> decodes TunnelHeader_decode (TunnelHeader_wire h) h.
Proof.
  intros (Hp & Hs & Hl & H255). pose proof (subs_size_nonneg (sub_headers h)).
  apply decodes_ensure; [rewrite llen_header_wire; lia|]. unfold TunnelHeader_wire.
  eapply decodes_bind; [apply decodes_u8, action_to_u8_range|]. cbv zeta.
  assert (Ha : Z.shiftr (TunnelAction_to_u8 (action h)) 4 = 0 /\
    TunnelAction_from_u8 (Z.land (TunnelAction_to_u8 (action h)) 15) = Some (action h)) by by destruct (action h).
  destruct Ha as [-> ->]. cbn [Z.eqb negb].
  eapply decodes_bind; [by apply decodes_u16|].
  unfold HEADER_MIN_SIZE in *.
  eapply decodes_bind; [apply decodes_u8; width|]. rewrite (proj2 (Z.ltb_ge _ _)) by lia.
  apply (decodes_last _ _ _ (sub_headers h)); [|destruct h; apply decodes_ret].
  replace (header_length h - 4) with (llen (subs_wire (sub_headers h))) by (rewrite llen_subs_wire; lia).
  destruct (Z.ltb_spec 0 (llen (subs_wire (sub_headers h)))) as [H1|H1].
  - apply decodes_ensure; [lia|]. unfold llen. rewrite Nat2Z.id.
    eapply decodes_last; [apply decodes_read_slice|]. apply decodes_lift. unfold ReadCursor.new.
    pose proof (decode_subs_wire (sub_headers h) (length (subs_wire (sub_headers h))) [] Hs ltac:(lia)) as Hd.
    cbn [app length] in Hd. rewrite Hd. done.
  - destruct (sub_headers h) as [|s subs] eqn:Hsub; [apply decodes_ret|].
    rewrite llen_subs_wire in H1. unfold subs_size in H1. cbn in H1. fold (subs_size subs) in H1.
    pose proof (subs_size_nonneg subs). pose proof (llen_nonneg (sub_data s)).
    unfold wire_size, SUB_MIN_WIRE_SIZE in H1. unfold subs_size in *. lia.
Qed.

(** Decoding sub-headers from any bytes: no panic, and what comes out is no
    longer than what went in. *)
Lemma decode_subs_safe fuel c :
  rc_wf c -> (Z.to_nat (ReadCursor.len c) <= fuel)%nat ->
  match decode_sub_headers fuel c with
  | Ok (subs, _) => Forall TunnelSubHeader_wf subs /\ subs_size subs = ReadCursor.len c
  | Err _ => True
  | Panic => False
  end.
Proof.
  revert c. induction fuel as [|fuel IH]; intros c Hc Hf; cbn [decode_sub_headers]; unfold mbind, M_bind, gets;
    (destruct (ReadCursor.is_empty c) eqn:He; [apply Z.eqb_eq in He; rewrite He; cbn; by split|apply Z.eqb_neq in He]).
  { destruct Hc. unfold ReadCursor.len, llen in *. lia. }
  pose proof (TunnelSubHeader_progress c Hc) as Hs.
  unfold decode_from, TunnelSubHeader_Decode. destruct (TunnelSubHeader_decode c) as [[s c1]| |]; [|done..].
  destruct Hs as (Hc1 & Hw & Hl). pose proof (llen_nonneg (sub_data s)).
  unfold wire_size, SUB_MIN_WIRE_SIZE in Hl. specialize (IH c1 Hc1 ltac:(lia)).
  destruct (decode_sub_headers fuel c1) as [[subs c2]| |]; [|done..]. destruct IH as [Hws Hsz].
  split; [by constructor|]. unfold subs_size in *. cbn. unfold wire_size, SUB_MIN_WIRE_SIZE in *. lia.
Qed.

Lemma TunnelHeader_safe : safe 0 TunnelHeader_decode 0 TunnelHeader_wf.
Proof.
  eapply safe_bind; [apply (safe_ensure 0)|]. intros _ _. unfold HEADER_MIN_SIZE. cbn [Z.max].
  eapply safe_bind; [apply (safe_u8 3); lia|]. intros b Hb. cbv zeta.
  destruct (negb _); [apply safe_fail_at|]. destruct (TunnelAction_from_u8 _) as [a|]; [|apply safe_fail_at].
  eapply safe_bind; [apply (safe_u16 1); lia|]. intros p Hp.
  eapply safe_bind; [apply (safe_u8 0); lia|]. intros n Hn.
  destruct (Z.ltb_spec n 4); [apply safe_fail_at|]. unfold HEADER_MIN_SIZE.
  eapply (safe_bind 0 0 0 _ _ (fun subs => Forall TunnelSubHeader_wf subs /\ subs_size subs = n - 4)).
  - destruct (Z.ltb_spec 0 (n - 4)).
    + eapply safe_bind; [apply (safe_ensure 0 (n - 4))|]. intros _ _.
      eapply safe_bind; [eapply safe_weaken; [apply (safe_read_slice 0 (Z.to_nat (n - 4))); lia|lia|done|done]|].
      intros bs [Hl Hb']. pose proof (decode_subs_safe (length bs) (ReadCursor.new bs)) as Hd.
      assert (Hlen : ReadCursor.len (ReadCursor.new bs) = n - 4) by (unfold ReadCursor.len, llen; cbn; lia).
      eapply (safe_weaken 0 _ 0); [apply safe_lift|lia|lia|].
      * intros Hpan. destruct (decode_sub_headers _ _) as [[subs c]| |]; [done|done|].
        apply Hd; [split; cbn; [lia|done]|unfold ReadCursor.len, llen; cbn; lia].
      * intros subs Hok. destruct (decode_sub_headers _ _) as [[subs' c]| |]; [|done..]. cbn in Hok. injection Hok as <-.
        rewrite <- Hlen. apply Hd; [split; cbn; [lia|done]|unfold ReadCursor.len, llen; cbn; lia].
    + apply safe_ret. split; [constructor|]. unfold subs_size. cbn. lia.
  - intros subs [Hs Hsz]. apply safe_ret.
    unfold TunnelHeader_wf, HEADER_MIN_SIZE. cbn [payload_length sub_headers header_length].
    split; [done|]. split; [done|]. width.
Qed.

(** *** The PDUs *)

Definition fixed_header (a : TunnelAction) (size : Z) : TunnelHeader := mkTunnelHeader a size 4 [].

Lemma fixed_header_wf a size : is_u16 size -> TunnelHeader_wf (fixed_header a size).
Proof. intros H. repeat split; cbn; [apply H|apply H|constructor|done]. Qed.

Lemma check_fixed_ok a size m1 m2 : check_fixed a size m1 m2 (fixed_header a size) = mret tt.
Proof. unfold check_fixed. cbn. by rewrite bool_decide_eq_true_2, Z.eqb_refl. Qed.

Lemma safe_check_fixed n a size m1 m2 h : safe n (check_fixed a size m1 m2 h) n (fun _ => True).
Proof.
  unfold check_fixed. destruct (negb _); [apply safe_fail_at|]. destruct (negb _); [apply safe_fail_at|].
  destruct (negb _); [apply safe_fail_at|by apply safe_ret].
Qed.

Definition CreateRequest_wf (r : TunnelCreateRequest) : Prop :=
  is_u32 (request_id r) /\ length (security_cookie r) = SECURITY_COOKIE_LEN /\ bytes_ok (security_cookie r).
Definition CreateRequest_wire (r : TunnelCreateRequest) : list Z :=
  TunnelHeader_wire (fixed_header ActCreateRequest REQUEST_PAYLOAD_SIZE) ++
  to_le_bytes 4 (request_id r) ++ to_le_bytes 4 0 ++ security_cookie r.

Lemma llen_request_wire r : CreateRequest_wf r -> llen (CreateRequest_wire r) = TunnelCreateRequest_size.
Proof.
  intros (_ & Hl & _). unfold CreateRequest_wire. rewrite !llen_app, llen_header_wire. unfold llen.
  rewrite !length_to_le_bytes, Hl. done.
Qed.

Lemma CreateRequest_decodes r :
  CreateRequest_wf r -> decodes TunnelCreateRequest_decode (CreateRequest_wire r) r.
Proof.
  intros Hw. pose proof Hw as (Hid & Hl & Hb). unfold CreateRequest_wire.
  eapply decodes_bind; [by apply TunnelHeader_decodes, fixed_header_wf|].
  eapply decodes_bind_nil; [rewrite check_fixed_ok; apply decodes_ret|].
  apply decodes_ensure; [unfold llen; rewrite !length_app, !length_to_le_bytes, Hl; done|].
  eapply decodes_bind; [by apply decodes_u32|]. eapply decodes_bind; [by apply decodes_u32|].
  eapply decodes_last; [by apply decodes_read_array|]. destruct r. apply decodes_ret.
Qed.

#[export] Program Instance CreateRequest_Codec : Codec TunnelCreateRequest :=
  { wf := CreateRequest_wf; wire := CreateRequest_wire }.
Next Obligation.
  intros r Hw. pose proof Hw as (Hid & Hl & Hb). unfold encode_into, TunnelCreateRequest_Encode, TunnelCreateRequest_encode.
  apply encodes_ensure; [by rewrite llen_request_wire|].
  apply encodes_bind; [by apply TunnelHeader_encodes, fixed_header_wf|].
  apply encodes_bind; [apply encodes_u32|]. apply encodes_bind; [apply encodes_u32|apply encodes_write_slice].
Qed.
Next Obligation. intros r Hw. symmetry. by apply llen_request_wire. Qed.
Next Obligation. intros r Hw. by apply decodes_to_end, CreateRequest_decodes. Qed.
Next Obligation.
  eapply safe_bind; [apply TunnelHeader_safe|]. intros h _.
  eapply safe_bind; [apply safe_check_fixed|]. intros _ _.
  eapply safe_bind; [apply (safe_ensure 0)|]. intros _ _. unfold REQUEST_PAYLOAD_SIZE. cbn [Z.max].
  eapply safe_bind; [apply (safe_u32 20); lia|]. intros id Hid.
  eapply safe_bind; [apply (safe_u32 16); lia|]. intros _ _.
  eapply safe_bind; [apply (safe_read_slice 0 SECURITY_COOKIE_LEN); lia|].
  intros bs [Hl Hb]. by apply safe_ret.
Qed.
#[export] Instance CreateRequest_Framed : Framed TunnelCreateRequest := { framed := CreateRequest_decodes }.

Definition CreateResponse_wire (r : TunnelCreateResponse) : list Z :=
  TunnelHeader_wire (fixed_header ActCreateResponse RESPONSE_PAYLOAD_SIZE) ++ to_le_bytes 4 (hr_response r).

Lemma CreateResponse_decodes r :
  is_u32 (hr_response r) -> decodes TunnelCreateResponse_decode (CreateResponse_wire r) r.
Proof.
  intros Hw. unfold CreateResponse_wire.
  eapply decodes_bind; [by apply TunnelHeader_decodes, fixed_header_wf|].
  eapply decodes_bind_nil; [rewrite check_fixed_ok; apply decodes_ret|].
  apply decodes_ensure; [done|]. eapply decodes_last; [by apply decodes_u32|]. destruct r. apply decodes_ret.
Qed.

#[export] Program Instance CreateResponse_Codec : Codec TunnelCreateResponse :=
  { wf r := is_u32 (hr_response r); wire := CreateResponse_wire }.
Next Obligation.
  intros r Hw. unfold encode_into, TunnelCreateResponse_Encode, TunnelCreateResponse_encode.
  apply encodes_ensure; [done|].
  apply encodes_bind; [by apply TunnelHeader_encodes, fixed_header_wf|apply encodes_u32].
Qed.
Next Obligation. done. Qed.
Next Obligation. intros r Hw. by apply decodes_to_end, CreateResponse_decodes. Qed.
Next Obligation.
  eapply safe_bind; [apply TunnelHeader_safe|]. intros h _.
  eapply safe_bind; [apply safe_check_fixed|]. intros _ _.
  eapply safe_bind; [apply (safe_ensure 0)|]. intros _ _. unfold RESPONSE_PAYLOAD_SIZE. cbn [Z.max].
  eapply safe_bind; [apply (safe_u32 0); lia|]. intros hr Hr. by apply safe_ret.
Qed.
#[export] Instance CreateResponse_Framed : Framed TunnelCreateResponse := { framed := CreateResponse_decodes }.

Definition TunnelData_wf (d : TunnelData) : Prop :=
  Forall TunnelSubHeader_wf (td_sub_headers d) /\ header_length_untruncated d <= 255 /\
  bytes_ok (higher_layer_data d) /\ llen (higher_layer_data d) <= 65535.
Definition data_header (d : TunnelData) : TunnelHeader :=
  mkTunnelHeader ActData (llen (higher_layer_data d)) (header_length_untruncated d) (td_sub_headers d).
Definition TunnelData_wire (d : TunnelData) : list Z := TunnelHeader_wire (data_header d) ++ higher_layer_data d.

Lemma data_header_wf d : TunnelData_wf d -> TunnelHeader_wf (data_header d).
Proof.
  intros (Hs & Hh & _ & Hl). pose proof (llen_nonneg (higher_layer_data d)).
  split; [cbn [data_header payload_length]; width|]. by split_and!.
Qed.

Lemma llen_data_wire d : llen (TunnelData_wire d) = TunnelData_size d.
Proof. unfold TunnelData_wire. by rewrite llen_app, llen_header_wire. Qed.

Lemma TunnelData_decodes d : TunnelData_wf d -> decodes TunnelData_decode (TunnelData_wire d) d.
Proof.
  intros Hw. unfold TunnelData_wire. eapply decodes_bind; [by apply TunnelHeader_decodes, data_header_wf|].
  cbn [data_header action payload_length sub_headers]. rewrite bool_decide_eq_true_2 by done. cbn [negb].
  apply decodes_ensure; [done|]. unfold llen. rewrite Nat2Z.id.
  eapply decodes_last; [apply decodes_read_slice|]. destruct d. apply decodes_ret.
Qed.

#[export] Program Instance TunnelData_Codec : Codec TunnelData := { wf := TunnelData_wf; wire := TunnelData_wire }.
Next Obligation.
  intros d Hw. pose proof Hw as (Hs & Hh & Hb & Hl).
  unfold encode_into, TunnelData_Encode, TunnelData_encode.
  apply encodes_ensure; [by rewrite llen_data_wire|]. unfold TunnelData_header_length.
  rewrite (proj2 (Z.leb_le _ _)), (proj2 (Z.ltb_ge _ _)) by lia.
  apply encodes_bind; [by apply (TunnelHeader_encodes (data_header d)), data_header_wf|apply encodes_write_slice].
Qed.
Next Obligation. intros d Hw. symmetry. apply llen_data_wire. Qed.
Next Obligation. intros d Hw. by apply decodes_to_end, TunnelData_decodes. Qed.
Next Obligation.
  eapply safe_bind; [apply TunnelHeader_safe|]. intros h (Hp & Hs & Hl & H255).
  destruct (negb _); [apply safe_fail_at|].
  eapply safe_bind; [apply (safe_ensure 0)|]. intros _ _.
  eapply safe_bind; [eapply safe_weaken; [apply (safe_read_slice 0 (Z.to_nat (payload_length h))); lia|width|done|done]|].
  intros bs [Hlen Hb]. apply safe_ret. split; [done|].
  unfold header_length_untruncated. cbn [td_sub_headers higher_layer_data]. split; [lia|]. split; [done|].
  unfold llen. rewrite Hlen. width.
Qed.
#[export] Instance TunnelData_Framed : Framed TunnelData := { framed := TunnelData_decodes }.

(** *** Any PDU *)

Definition TunnelPdu_wf (p : TunnelPdu) : Prop :=
  match p with PduCreateRequest r => wf r | PduCreateResponse r => wf r | PduData d => wf d end.
Definition TunnelPdu_wire (p : TunnelPdu) : list Z :=
  match p with PduCreateRequest r => wire r | PduCreateResponse r => wire r | PduData d => wire d end.

Lemma decodes_peek b bs {A} (k : Z -> Decoder A) a :
  decodes (k b) (b :: bs) a -> decodes (peek_first ≫= k) (b :: bs) a.
Proof.
  intros Hk pre post. unfold mbind, M_bind, peek_first, ReadCursor.remaining. cbn [ReadCursor.inner ReadCursor.pos].
  rewrite Nat.min_l by (rewrite !length_app; lia). rewrite drop_app_length. cbn [app]. apply Hk.
Qed.

Lemma TunnelPdu_decodes p : TunnelPdu_wf p -> decodes TunnelPdu_decode (TunnelPdu_wire p) p.
Proof.
  intros Hw. assert (Hh : exists a rest, TunnelPdu_wire p = TunnelAction_to_u8 a :: rest /\
    match p with PduCreateRequest _ => a = ActCreateRequest | PduCreateResponse _ => a = ActCreateResponse
    | PduData _ => a = ActData end).
  { destruct p; eexists _, _; (split; [reflexivity|done]). }
  destruct Hh as (a & rest & Hr & Ha). unfold TunnelPdu_decode.
  apply decodes_ensure; [rewrite Hr, llen_cons; pose proof (llen_nonneg rest); lia|].
  assert (Hact : TunnelAction_from_u8 (Z.land (TunnelAction_to_u8 a) 15) = Some a) by by destruct a.
  rewrite Hr. apply decodes_peek. cbv zeta. rewrite Hact, <- Hr.
  destruct p as [r|r|d]; subst a; (eapply decodes_last; [by apply framed|apply decodes_ret]).
Qed.

Lemma TunnelPdu_safe : safe 0 TunnelPdu_decode 0 TunnelPdu_wf.
Proof.
  eapply safe_bind; [apply (safe_ensure 0 1)|]. intros _ _. cbn [Z.max].
  apply (safe_bind 1 0 0 _ _ (fun _ => True)).
  - intros c Hc Hl. unfold peek_first, ReadCursor.remaining. destruct Hc as [Hp Hb].
    unfold ReadCursor.len, llen in Hl. rewrite Nat.min_l by done.
    destruct (drop _ _) as [|b l] eqn:Hd.
    + apply (f_equal length) in Hd. rewrite length_drop in Hd. cbn in Hd. lia.
    + split_and!; [done..|unfold ReadCursor.len, llen; lia|done|done|lia].
  - intros b _. cbv zeta. destruct (TunnelAction_from_u8 _) as [[]|]; [..|apply safe_fail_at];
      (eapply safe_bind; [apply decode_safe|intros x Hx; by apply safe_ret]).
Qed.
