(* ===== verification/Tunnel.v ===== *)
(** The multitransport tunnel (src/crates/ironrdp-rdpemt/src/tunnel.rs): the
    state machine that binds a UDP connection to its main session and then
    carries data, on the plaintext side of TLS.

    After the model: two tunnels joined by a reliable, ordered stream in each
    direction, and one server tunnel facing arbitrary bytes. *)

From S2P Require Import Prelude Cursor Codec Mutation TunnelWire.

(** [subtle::ConstantTimeEq::ct_eq] on slices; it compares them. *)
Class ConstantTimeEq := {
  ct_eq : list Z -> list Z -> bool;
  ct_eq_spec a b : length a = length b -> ct_eq a b = bool_decide (a = b);
}.
Definition plain_eq : ConstantTimeEq := {|
  ct_eq a b := bool_decide (a = b);
  ct_eq_spec a b _ := eq_refl;
|}.

Inductive Side := Client | Server.

Inductive TunnelEvent :=
| EvEstablished
| EvData (sub_headers : list TunnelSubHeader) (data : list Z)
| EvFailed (hr_response : Z).

Record TunnelConfig := mkTunnelConfig { cfg_request_id : Z; cfg_security_cookie : list Z }.

Inductive TunnelState := Created | AwaitingResponse | Established | Failed.
#[export] Instance TunnelState_eq_dec : EqDecision TunnelState.
Proof. solve_decision. Defined.

Record RdpemtTunnel := mkTunnel {
  side : Side;
  state : TunnelState;
  config : TunnelConfig;
  outgoing : list (list Z);
  events : list TunnelEvent;
}.

(** [RdpemtError]: the kind, and for a state error its context. *)
Inductive RdpemtError :=
| TDecode (e : DecodeErrorKind)
| TEncode (e : EncodeErrorKind)
| TInvalidState (context : string).

Abbreviation Tun := (Mut RdpemtTunnel RdpemtError).

Definition set_state (s : TunnelState) : Tun unit :=
  update (fun t => mkTunnel (side t) s (config t) (outgoing t) (events t)).
Definition push_pdu (bytes : list Z) : Tun unit :=
  update (fun t => mkTunnel (side t) (state t) (config t) (outgoing t ++ [bytes]) (events t)).
Definition push_event (e : TunnelEvent) : Tun unit :=
  update (fun t => mkTunnel (side t) (state t) (config t) (outgoing t) (events t ++ [e])).

(** [ironrdp_core::encode_vec(&pdu).expect(..)] *)
Definition encode_expect {A} `{Encode A} (pdu : A) : Tun (list Z) :=
  expect (match encode_vec pdu with Ok bytes => Some bytes | _ => None end).

Definition enqueue_create_request : Tun unit :=
  t ← access id;
  encoded ← encode_expect (mkCreateRequest (cfg_request_id (config t)) (cfg_security_cookie (config t)));
  _ ← push_pdu encoded;
  set_state AwaitingResponse.

Definition enqueue_create_response (hr_response : Z) : Tun unit :=
  encoded ← encode_expect (mkCreateResponse hr_response);
  push_pdu encoded.

(** The constructors; [None] is a failed [expect]. *)
Definition client (config : TunnelConfig) : option RdpemtTunnel :=
  match enqueue_create_request (mkTunnel Client Created config [] []) with
  | Some (inr _, t) => Some t
  | _ => None
  end.
Definition server (config : TunnelConfig) : RdpemtTunnel := mkTunnel Server Created config [] [].

Definition E_ACCESSDENIED : Z := 0x80070005.

Section tunnel.
Context {CT : ConstantTimeEq}.

Definition handle_pdu (data : list Z) : Tun unit :=
  pdu ← question TDecode (decode TunnelPdu data);
  t ← access id;
  match state t, side t, pdu with
  | AwaitingResponse, Client, PduCreateResponse resp =>
      if is_success resp then
        _ ← set_state Established;
        push_event EvEstablished
      else
        _ ← set_state Failed;
        push_event (EvFailed (hr_response resp))
  | Created, Server, PduCreateRequest req =>
      let cookie_matches := ct_eq (security_cookie req) (cfg_security_cookie (config t)) in
      if (request_id req =? cfg_request_id (config t)) && cookie_matches then
        _ ← set_state Established;
        _ ← enqueue_create_response S_OK;
        push_event EvEstablished
      else
        _ ← set_state Failed;
        let hr := E_ACCESSDENIED in
        _ ← enqueue_create_response hr;
        push_event (EvFailed hr)
  | Established, _, PduData data_pdu =>
      push_event (EvData (td_sub_headers data_pdu) (higher_layer_data data_pdu))
  | _, _, _ => throw (TInvalidState "handle tunnel PDU")
  end.

Definition poll_pdu : Tun (option (list Z)) :=
  t ← access id;
  match outgoing t with
  | [] => mret None
  | bytes :: rest =>
      _ ← update (fun t => mkTunnel (side t) (state t) (config t) rest (events t));
      mret (Some bytes)
  end.

Definition poll_event : Tun (option TunnelEvent) :=
  t ← access id;
  match events t with
  | [] => mret None
  | e :: rest =>
      _ ← update (fun t => mkTunnel (side t) (state t) (config t) (outgoing t) rest);
      mret (Some e)
  end.

Definition send_data_with_sub_headers (subs : list TunnelSubHeader) (data : list Z) : Tun unit :=
  t ← access id;
  if negb (bool_decide (state t = Established)) then throw (TInvalidState "send tunnel data")
  else
    let pdu := mkTunnelData subs data in
    encoded ← question TEncode (encode_vec pdu);
    push_pdu encoded.
Definition send_data (data : list Z) : Tun unit := send_data_with_sub_headers [] data.

Definition is_established (t : RdpemtTunnel) : bool := bool_decide (state t = Established).
Definition is_failed (t : RdpemtTunnel) : bool := bool_decide (state t = Failed).

(** ** What each step does *)

Definition config_wf (c : TunnelConfig) : Prop :=
  is_u32 (cfg_request_id c) /\ length (cfg_security_cookie c) = SECURITY_COOKIE_LEN /\ bytes_ok (cfg_security_cookie c).

Definition request_of (c : TunnelConfig) : TunnelCreateRequest :=
  mkCreateRequest (cfg_request_id c) (cfg_security_cookie c).
Definition response_wire (hr : Z) : list Z := CreateResponse_wire (mkCreateResponse hr).

Lemma encode_response hr (k : list Z -> Tun unit) t :
  is_u32 hr -> (encode_expect (mkCreateResponse hr) ≫= k) t = k (response_wire hr) t.
Proof. intros H. unfold encode_expect. rewrite (encode_vec_wire (C := CreateResponse_Codec)) by done. done. Qed.

Lemma client_start c :
  config_wf c -> client c = Some (mkTunnel Client AwaitingResponse c [CreateRequest_wire (request_of c)] []).
Proof.
  intros Hc. unfold client, enqueue_create_request, encode_expect.
  assert (He : encode_vec (request_of c) = Ok (CreateRequest_wire (request_of c)))
    by (apply (encode_vec_wire (C := CreateRequest_Codec)); exact Hc).
  unfold request_of in He. unfold access, mbind, Mut_bind. cbn [id config]. rewrite He. done.
Qed.

Lemma subs_fit subs :
  Forall (fun s => SubHeaderType_wf (sub_header_type s) /\ bytes_ok (sub_data s)) subs ->
  HEADER_MIN_SIZE + subs_size subs <= 255 -> Forall TunnelSubHeader_wf subs.
Proof.
  unfold HEADER_MIN_SIZE. induction 1 as [|s subs [Ht Hd] _ IH]; intros Hh; [constructor|].
  change (subs_size (s :: subs)) with (wire_size s + subs_size subs) in Hh.
  pose proof (subs_size_nonneg subs). pose proof (llen_nonneg (sub_data s)).
  constructor; [split_and!; [done|done|lia]|]. apply IH. unfold wire_size, SUB_MIN_WIRE_SIZE in Hh. lia.
Qed.

(** What an application may hand over: bytes, and sub-header types in their
    canonical form. *)
Definition sendable (d : TunnelData) : Prop :=
  Forall (fun s => SubHeaderType_wf (sub_header_type s) /\ bytes_ok (sub_data s)) (td_sub_headers d) /\
  bytes_ok (higher_layer_data d).

(** Data either encodes as its wire form or is refused, and only for its size. *)
Lemma encode_data d :
  sendable d ->
  TunnelData_wf d /\ encode_vec d = Ok (TunnelData_wire d) \/ ~ TunnelData_wf d /\ exists e, encode_vec d = Err e.
Proof.
  intros [Hs Hb].
  assert (Hrefused : (header_length_untruncated d <= 255 -> 65535 < llen (higher_layer_data d)) ->
    exists e, encode_vec d = Err e).
  { intros Hbig. unfold encode_vec, encode, encode_into, size, TunnelData_Encode, TunnelData_encode, WriteCursor.ensure_size.
    assert (0 <= TunnelData_size d) by (rewrite <- llen_data_wire; apply llen_nonneg).
    unfold mbind, M_bind, outcome_bind, WriteCursor.len, WriteCursor.new, llen. cbn [WriteCursor.inner WriteCursor.pos].
    rewrite length_replicate, (proj2 (Z.leb_le _ _)) by lia. unfold TunnelData_header_length.
    destruct (Z.leb_spec (header_length_untruncated d) 255) as [Hh|Hh]; [|by eexists].
    fold (llen (higher_layer_data d)). rewrite (proj2 (Z.ltb_lt _ _)) by auto. by eexists. }
  destruct (decide (header_length_untruncated d <= 255)) as [Hh|Hh];
    [destruct (decide (llen (higher_layer_data d) <= 65535)) as [Hl|Hl]|].
  - left. assert (Hw : TunnelData_wf d) by (split_and!; [by apply subs_fit|done..]).
    split; [done|]. by apply (encode_vec_wire (C := TunnelData_Codec)).
  - right. split; [by intros (_ & _ & _ & ?)|]. apply Hrefused. lia.
  - right. split; [by intros (_ & ? & _)|]. apply Hrefused. lia.
Qed.

Lemma decode_pdu p : TunnelPdu_wf p -> decode TunnelPdu (TunnelPdu_wire p) = Ok p.
Proof.
  intros Hw. unfold decode, ReadCursor.new. pose proof (TunnelPdu_decodes p Hw [] []) as Hd.
  rewrite app_nil_r in Hd. cbn [app length] in Hd. unfold decode_from, TunnelPdu_Decode. by rewrite Hd.
Qed.

Lemma decode_pdu_safe bytes :
  bytes_ok bytes -> match decode TunnelPdu bytes with Ok p => TunnelPdu_wf p | Err _ => True | Panic => False end.
Proof.
  intros Hb. unfold decode, ReadCursor.new, decode_from, TunnelPdu_Decode.
  pose proof (TunnelPdu_safe (ReadCursor.mk bytes 0)) as Hs.
  assert (Hw : rc_wf (ReadCursor.mk bytes 0)) by (split; cbn; [lia|done]).
  assert (Hl : 0 <= ReadCursor.len (ReadCursor.mk bytes 0)) by (unfold ReadCursor.len, llen; cbn; lia).
  specialize (Hs Hw Hl). destruct (TunnelPdu_decode _) as [[p c]| |]; [by destruct Hs as (_ & _ & ? & _)|done|done].
Qed.

(** [handle_pdu] on a decoded PDU, with the encodings worked out. *)
Definition accept (t : RdpemtTunnel) (pdu : TunnelPdu) : (RdpemtError + unit) * RdpemtTunnel :=
  let become s out ev := (inr tt, mkTunnel (side t) s (config t) (outgoing t ++ out) (events t ++ [ev])) in
  match state t, side t, pdu with
  | AwaitingResponse, Client, PduCreateResponse resp =>
      if is_success resp then become Established [] EvEstablished
      else become Failed [] (EvFailed (hr_response resp))
  | Created, Server, PduCreateRequest req =>
      if (request_id req =? cfg_request_id (config t)) && ct_eq (security_cookie req) (cfg_security_cookie (config t))
      then become Established [response_wire S_OK] EvEstablished
      else become Failed [response_wire E_ACCESSDENIED] (EvFailed E_ACCESSDENIED)
  | Established, _, PduData d => become Established [] (EvData (td_sub_headers d) (higher_layer_data d))
  | _, _, _ => (inl (TInvalidState "handle tunnel PDU"), t)
  end.

Lemma handle_pdu_eq bytes t :
  handle_pdu bytes t =
  match decode TunnelPdu bytes with Ok p => Some (accept t p) | Err e => Some (inl (TDecode e), t) | Panic => None end.
Proof.
  unfold handle_pdu. destruct (decode TunnelPdu bytes) as [p|e|]; [|done..].
  cbn [question]. unfold mbind at 1, Mut_bind at 1, mret at 1, Mut_ret at 1.
  unfold mbind at 1, Mut_bind at 1, access. cbn [id]. unfold accept.
  destruct t as [[] [] cfg out ev]; cbn [state side config]; destruct p as [req|resp|d]; try done; cbv zeta.
  - destruct (is_success resp); cbn; by rewrite app_nil_r.
  - cbn. by rewrite app_nil_r.
  - destruct (_ && _); unfold mbind at 1, Mut_bind at 1, set_state, update; unfold mbind at 1, Mut_bind at 1;
      unfold enqueue_create_response; rewrite encode_response by done; done.
  - cbn. by rewrite app_nil_r.
Qed.

Lemma send_eq d t :
  sendable d ->
  (state t = Established /\ TunnelData_wf d /\
    send_data_with_sub_headers (td_sub_headers d) (higher_layer_data d) t =
    Some (inr tt, mkTunnel (side t) (state t) (config t) (outgoing t ++ [TunnelData_wire d]) (events t))) \/
  (~ (state t = Established /\ TunnelData_wf d) /\
   exists e, send_data_with_sub_headers (td_sub_headers d) (higher_layer_data d) t = Some (inl e, t)).
Proof.
  intros Hd. unfold send_data_with_sub_headers, access, mbind, Mut_bind. cbn [id].
  destruct (decide (state t = Established)) as [He|He].
  - rewrite bool_decide_eq_true_2 by done. cbn [negb]. destruct d as [subs data]. cbn [td_sub_headers higher_layer_data].
    destruct (encode_data _ Hd) as [[Hw ->]|[Hw [e ->]]]; [by left|]. right. split; [by intros [_ ?]|]. by exists (TEncode e).
  - right. rewrite bool_decide_eq_false_2 by done. split; [by intros [? _]|]. by eexists.
Qed.

(** ** Two ends

    The client's PDUs reach the server in order and without loss, and the
    other way round, as TLS over the transport provides. *)

Record link := mkLink {
  l_client : RdpemtTunnel;
  l_server : RdpemtTunnel;
  (** what each end was allowed to send *)
  l_up : list TunnelData;
  l_down : list TunnelData;
  (** events each application has taken *)
  l_client_log : list TunnelEvent;
  l_server_log : list TunnelEvent;
}.

Inductive act := ClientSends (d : TunnelData) | ServerSends (d : TunnelData)
| ClientDelivers | ServerDelivers | ClientReads | ServerReads.

(** Moves the next PDU of [a] to [b]; [None] if there is a panic or [b]
    refuses it. *)
Definition deliver (a b : RdpemtTunnel) : option (RdpemtTunnel * RdpemtTunnel) :=
  match poll_pdu a with
  | Some (inr (Some bytes), a') =>
      match handle_pdu bytes b with
      | Some (inr _, b') => Some (a', b')
      | _ => None
      end
  | Some (inr None, a') => Some (a', b)
  | _ => None
  end.

(** An application sends [d]; what was accepted so far is [sent]. *)
Definition try_send (d : TunnelData) (t : RdpemtTunnel) (sent : list TunnelData) :
    option (RdpemtTunnel * list TunnelData) :=
  match send_data_with_sub_headers (td_sub_headers d) (higher_layer_data d) t with
  | Some (inr _, t') => Some (t', sent ++ [d])
  | Some (inl _, t') => Some (t', sent)
  | None => None
  end.

Definition take_event (t : RdpemtTunnel) (log : list TunnelEvent) : option (RdpemtTunnel * list TunnelEvent) :=
  match poll_event t with
  | Some (inr (Some e), t') => Some (t', log ++ [e])
  | Some (inr None, t') => Some (t', log)
  | _ => None
  end.

Definition link_step (w : link) (a : act) : option link :=
  let '(mkLink c s up down cl sl) := w in
  match a with
  | ClientSends d => '(c', up') ← try_send d c up; Some (mkLink c' s up' down cl sl)
  | ServerSends d => '(s', down') ← try_send d s down; Some (mkLink c s' up down' cl sl)
  | ClientDelivers => '(c', s') ← deliver c s; Some (mkLink c' s' up down cl sl)
  | ServerDelivers => '(s', c') ← deliver s c; Some (mkLink c' s' up down cl sl)
  | ClientReads => '(c', cl') ← take_event c cl; Some (mkLink c' s up down cl' sl)
  | ServerReads => '(s', sl') ← take_event s sl; Some (mkLink c s' up down cl sl')
  end.

Fixpoint link_run (w : link) (acts : list act) : option link :=
  match acts with
  | [] => Some w
  | a :: acts' => w' ← link_step w a; link_run w' acts'
  end.

(** A client and a server with their configurations. *)
Definition link_start (c s : TunnelConfig) : option link :=
  t ← client c; Some (mkLink t (server s) [] [] [] []).

Definition act_ok (a : act) : Prop :=
  match a with ClientSends d => sendable d | ServerSends d => sendable d | _ => True end.

#[export] Instance TunnelConfig_eq_dec : EqDecision TunnelConfig.
Proof. solve_decision. Defined.

Definition event_of (d : TunnelData) : TunnelEvent := EvData (td_sub_headers d) (higher_layer_data d).
Definition refused : TunnelEvent := EvFailed E_ACCESSDENIED.

(** Where the two ends and the streams between them can be. *)
Inductive link_inv (c s : TunnelConfig) : link -> Prop :=
| inv_asking :
    link_inv c s (mkLink (mkTunnel Client AwaitingResponse c [CreateRequest_wire (request_of c)] []) (server s) [] [] [] [])
| inv_answered down sl se :
    c = s -> Forall TunnelData_wf down -> sl ++ se = [EvEstablished] ->
    link_inv c s (mkLink (mkTunnel Client AwaitingResponse c [] [])
      (mkTunnel Server Established s (response_wire S_OK :: (TunnelData_wire <$> down)) se) [] down [] sl)
| inv_open up up' down down' cl ce sl se :
    c = s -> Forall TunnelData_wf up' -> Forall TunnelData_wf down' ->
    cl ++ ce = EvEstablished :: (event_of <$> down) -> sl ++ se = EvEstablished :: (event_of <$> up) ->
    link_inv c s (mkLink (mkTunnel Client Established c (TunnelData_wire <$> up') ce)
      (mkTunnel Server Established s (TunnelData_wire <$> down') se) (up ++ up') (down ++ down') cl sl)
| inv_denied sl se :
    c <> s -> sl ++ se = [refused] ->
    link_inv c s (mkLink (mkTunnel Client AwaitingResponse c [] [])
      (mkTunnel Server Failed s [response_wire E_ACCESSDENIED] se) [] [] [] sl)
| inv_closed cl ce sl se :
    c <> s -> cl ++ ce = [refused] -> sl ++ se = [refused] ->
    link_inv c s (mkLink (mkTunnel Client Failed c [] ce) (mkTunnel Server Failed s [] se) [] [] cl sl).

Lemma config_matches c s :
  config_wf c -> config_wf s ->
  (request_id (request_of c) =? cfg_request_id s) && ct_eq (security_cookie (request_of c)) (cfg_security_cookie s) =
  bool_decide (c = s).
Proof.
  intros (_ & Hc & _) (_ & Hs & _). cbn [request_of request_id security_cookie]. rewrite ct_eq_spec by congruence.
  destruct c as [i k], s as [j l]. cbn in *. destruct (Z.eqb_spec i j) as [->|Hn]; cbn [andb].
  - apply bool_decide_ext. split; [by intros ->|by intros [= ->]].
  - symmetry. apply bool_decide_eq_false_2. by intros [= ->].
Qed.

(** Reading an event leaves the whole history of events as it is. *)
Lemma take_event_spec sd st cfg out ev log :
  exists log' ev', take_event (mkTunnel sd st cfg out ev) log = Some (mkTunnel sd st cfg out ev', log') /\
    log' ++ ev' = log ++ ev.
Proof.
  destruct ev as [|e ev]; [by exists log, []|]. exists (log ++ [e]), ev. split; [done|]. by rewrite <- app_assoc.
Qed.

(** Sending either queues the data or changes nothing. *)
Lemma try_send_spec d sd st cfg out ev sent :
  sendable d ->
  (st = Established /\ TunnelData_wf d /\
    try_send d (mkTunnel sd st cfg out ev) sent =
    Some (mkTunnel sd st cfg (out ++ [TunnelData_wire d]) ev, sent ++ [d])) \/
  (try_send d (mkTunnel sd st cfg out ev) sent = Some (mkTunnel sd st cfg out ev, sent)).
Proof.
  intros Hd. unfold try_send.
  destruct (send_eq d (mkTunnel sd st cfg out ev) Hd) as [(He & Hw & ->)|[_ [e ->]]]; [left|right]; done.
Qed.

Lemma deliver_nothing a b : outgoing a = [] -> deliver a b = Some (a, b).
Proof. destruct a. cbn. by intros ->. Qed.

Lemma deliver_pdu p sd st cfg rest ev b b' :
  TunnelPdu_wf p -> accept b p = (inr tt, b') ->
  deliver (mkTunnel sd st cfg (TunnelPdu_wire p :: rest) ev) b = Some (mkTunnel sd st cfg rest ev, b').
Proof.
  intros Hw Ha. unfold deliver, poll_pdu, access, update, mbind, Mut_bind. cbn.
  rewrite handle_pdu_eq, decode_pdu by done. by rewrite Ha.
Qed.

(** Case analysis on a send and on the reading of an event. *)
Ltac case_send d Ha :=
  match goal with
  | |- context [try_send d (mkTunnel ?sd ?st ?cfg ?out ?ev) ?sent] =>
      let Hst := fresh "Hst" in let Hw := fresh "Hw" in let E := fresh "E" in
      destruct (try_send_spec d sd st cfg out ev sent Ha) as [(Hst & Hw & E)|E]; [try discriminate Hst|]; rewrite E; clear E
  end.
Ltac case_event :=
  match goal with
  | |- context [take_event (mkTunnel ?sd ?st ?cfg ?out ?ev) ?log] =>
      let E := fresh "E" in let log' := fresh "log'" in let ev' := fresh "ev'" in
      destruct (take_event_spec sd st cfg out ev log) as (log' & ev' & E & Hl); rewrite E; clear E
  end.

(** One lemma per kind of step. *)
Section steps.
Variables (c s : TunnelConfig).
Hypotheses (Hc : config_wf c) (Hs : config_wf s).

Lemma client_sends_inv w d :
  link_inv c s w -> sendable d -> exists w', link_step w (ClientSends d) = Some w' /\ link_inv c s w'.
Proof.
  intros Hinv Ha.
  destruct Hinv as [|down sl se He Hd Hev|up up' down down' cl ce sl se He Hu Hd Hce Hse|sl se Hn Hev|cl ce sl se Hn Hce Hse];
    unfold server; cbn [link_step]; case_send d Ha; cbn [mbind option_bind];
    (eexists; split; [reflexivity|]); try by econstructor.
  rewrite <- app_assoc, <- fmap_snoc. constructor; try done. apply Forall_app. split; [done|by constructor].
Qed.

Lemma server_sends_inv w d :
  link_inv c s w -> sendable d -> exists w', link_step w (ServerSends d) = Some w' /\ link_inv c s w'.
Proof.
  intros Hinv Ha.
  destruct Hinv as [|down sl se He Hd Hev|up up' down down' cl ce sl se He Hu Hd Hce Hse|sl se Hn Hev|cl ce sl se Hn Hce Hse];
    unfold server; cbn [link_step]; case_send d Ha; cbn [mbind option_bind];
    (eexists; split; [reflexivity|]); try by econstructor.
  - cbn [app]. rewrite <- fmap_snoc. constructor; try done. apply Forall_app. split; [done|by constructor].
  - rewrite <- app_assoc, <- fmap_snoc. constructor; try done. apply Forall_app. split; [done|by constructor].
Qed.

Lemma client_delivers_inv w :
  link_inv c s w -> exists w', link_step w ClientDelivers = Some w' /\ link_inv c s w'.
Proof.
  intros Hinv.
  destruct Hinv as [|down sl se He Hd Hev|up up' down down' cl ce sl se He Hu Hd Hce Hse|sl se Hn Hev|cl ce sl se Hn Hce Hse];
    cbn [link_step]; [|rewrite deliver_nothing by done; eexists; split; [reflexivity|by econstructor]| |
      rewrite deliver_nothing by done; eexists; split; [reflexivity|by econstructor]..].
  - destruct (accept (server s) (PduCreateRequest (request_of c))) as [r t'] eqn:Hacc.
    pose proof Hacc as Hacc'. unfold accept in Hacc'. cbn [server state side config outgoing events app] in Hacc'.
    rewrite config_matches in Hacc' by done.
    assert (r = inr tt) as -> by (destruct (bool_decide (c = s)); by simplify_eq).
    change (CreateRequest_wire (request_of c)) with (TunnelPdu_wire (PduCreateRequest (request_of c))).
    erewrite deliver_pdu; [|exact Hc|exact Hacc]. cbn [mbind option_bind]. eexists. split; [reflexivity|].
    case_bool_decide; simplify_eq.
    + by apply (inv_answered _ _ []).
    + by apply inv_denied.
  - destruct up' as [|d up'].
    { rewrite deliver_nothing by done. eexists. split; [reflexivity|]. by apply inv_open. }
    apply Forall_cons in Hu as [Hw Hu]. cbn [fmap list_fmap].
    change (TunnelData_wire d) with (TunnelPdu_wire (PduData d)).
    erewrite deliver_pdu; [|exact Hw|reflexivity]. cbn [mbind option_bind]. eexists. split; [reflexivity|].
    cbn [side config outgoing events]. rewrite app_nil_r, (cons_middle d up), (app_assoc up).
    constructor; [done..|]. by rewrite fmap_app, app_comm_cons, app_assoc, Hse.
Qed.

Lemma server_delivers_inv w :
  link_inv c s w -> exists w', link_step w ServerDelivers = Some w' /\ link_inv c s w'.
Proof.
  intros Hinv.
  destruct Hinv as [|down sl se He Hd Hev|up up' down down' cl ce sl se He Hu Hd Hce Hse|sl se Hn Hev|cl ce sl se Hn Hce Hse];
    cbn [link_step].
  - rewrite deliver_nothing by done. eexists. split; [reflexivity|constructor].
  - change (response_wire S_OK) with (TunnelPdu_wire (PduCreateResponse (mkCreateResponse S_OK))).
    erewrite deliver_pdu; [|done|reflexivity]. cbn [mbind option_bind]. eexists. split; [reflexivity|].
    cbn [side config outgoing events app]. by apply (inv_open _ _ [] [] [] down []).
  - destruct down' as [|d down'].
    { rewrite deliver_nothing by done. eexists. split; [reflexivity|]. by apply inv_open. }
    apply Forall_cons in Hd as [Hw Hd]. cbn [fmap list_fmap].
    change (TunnelData_wire d) with (TunnelPdu_wire (PduData d)).
    erewrite deliver_pdu; [|exact Hw|reflexivity]. cbn [mbind option_bind]. eexists. split; [reflexivity|].
    cbn [side config outgoing events]. rewrite app_nil_r, (cons_middle d down), (app_assoc down).
    constructor; [done..| |done]. by rewrite fmap_app, app_comm_cons, app_assoc, Hce.
  - change (response_wire E_ACCESSDENIED) with (TunnelPdu_wire (PduCreateResponse (mkCreateResponse E_ACCESSDENIED))).
    erewrite deliver_pdu; [|done|reflexivity]. cbn [mbind option_bind]. eexists. split; [reflexivity|].
    cbn [side config outgoing events app]. by apply inv_closed.
  - rewrite deliver_nothing by done. eexists. split; [reflexivity|by apply inv_closed].
Qed.

Lemma reads_inv w a :
  link_inv c s w -> a = ClientReads \/ a = ServerReads -> exists w', link_step w a = Some w' /\ link_inv c s w'.
Proof.
  intros Hinv [-> | ->];
  destruct Hinv as [|down sl se He Hd Hev|up up' down down' cl ce sl se He Hu Hd Hce Hse|sl se Hn Hev|cl ce sl se Hn Hce Hse];
    unfold server; cbn [link_step]; case_event; cbn [mbind option_bind];
    (eexists; split; [reflexivity|]);
    try (apply app_eq_nil in Hl as [-> ->]); try (by econstructor); constructor; try done; by rewrite Hl.
Qed.

Lemma link_inv_step w a :
  link_inv c s w -> act_ok a -> exists w', link_step w a = Some w' /\ link_inv c s w'.
Proof.
  intros Hinv Ha. destruct a; [by apply client_sends_inv|by apply server_sends_inv|by apply client_delivers_inv|
    by apply server_delivers_inv|apply reads_inv; auto..].
Qed.

Lemma link_inv_run acts :
  Forall act_ok acts -> exists w0 w, link_start c s = Some w0 /\ link_run w0 acts = Some w /\ link_inv c s w.
Proof.
  intros Hacts. unfold link_start. rewrite client_start by done. cbn [mbind option_bind]. eexists.
  cut (forall w0, link_inv c s w0 -> exists w, link_run w0 acts = Some w /\ link_inv c s w).
  { intros H. destruct (H _ (inv_asking c s)) as (w & ? & ?). eauto. }
  induction Hacts as [|a acts Ha _ IH]; intros w0 Hw; [by exists w0|].
  destruct (link_inv_step w0 a Hw Ha) as (w1 & H1 & Hw1). cbn [link_run]. rewrite H1. by apply IH.
Qed.

End steps.

(** The data among the events of an end. *)
Definition data_event (e : TunnelEvent) : option TunnelData :=
  match e with EvData subs data => Some (mkTunnelData subs data) | _ => None end.
Definition received (t : RdpemtTunnel) (log : list TunnelEvent) : list TunnelData := omap data_event (log ++ events t).

Lemma received_events e ds : data_event e = None -> omap data_event (e :: (event_of <$> ds)) = ds.
Proof.
  intros He. cbn. rewrite He. induction ds as [|[subs data] ds IH]; [done|]. cbn. by f_equal.
Qed.

(** C28: a tunnel carries the data of both ends whole and in order.  For a client
    and a server with the same request id and cookie, and every schedule of
    sends of any size, deliveries and event reads: no end panics and no PDU is
    refused; what each application has received is always a beginning of what
    the other end was allowed to send, sub-headers included, and all of it once
    nothing is queued; and when nothing is queued both ends are established. *)
Theorem tunnel_delivers c acts :
  config_wf c -> Forall act_ok acts ->
  exists w0 w, link_start c c = Some w0 /\ link_run w0 acts = Some w /\
    (exists more, l_up w = received (l_server w) (l_server_log w) ++ more /\
       (outgoing (l_client w) = [] -> more = [])) /\
    (exists more, l_down w = received (l_client w) (l_client_log w) ++ more /\
       (outgoing (l_server w) = [] -> more = [])) /\
    (outgoing (l_client w) = [] -> outgoing (l_server w) = [] ->
       is_established (l_client w) = true /\ is_established (l_server w) = true).
Proof.
  intros Hc Hacts. destruct (link_inv_run c c Hc Hc acts Hacts) as (w0 & w & H0 & Hr & Hinv).
  exists w0, w. split; [done|]. split; [done|]. unfold received.
  destruct Hinv as [|down sl se _ _ Hev|up up' down down' cl ce sl se _ _ _ Hce Hse| |]; [..|done|done];
    cbn [l_up l_down l_client l_server l_client_log l_server_log events outgoing].
  - split_and!; [by exists []|by exists []|done].
  - rewrite Hev. split_and!; [by exists []|by exists down|done].
  - rewrite Hce, Hse, !received_events by done.
    split_and!; [exists up'|exists down'|done]; (split; [done|]); by intros ?%fmap_nil_inv.
Qed.

(** A client with the wrong request id or cookie gets nothing.  Whatever the
    schedule, neither end becomes established, no data is accepted for sending
    or received at either end, and once nothing is queued both ends have
    failed with E_ACCESSDENIED. *)
Theorem tunnel_mismatch_fails c s acts :
  config_wf c -> config_wf s -> c <> s -> Forall act_ok acts ->
  exists w0 w, link_start c s = Some w0 /\ link_run w0 acts = Some w /\
    is_established (l_client w) = false /\ is_established (l_server w) = false /\
    l_up w = [] /\ l_down w = [] /\ received (l_client w) (l_client_log w) = [] /\
    received (l_server w) (l_server_log w) = [] /\
    (outgoing (l_client w) = [] -> outgoing (l_server w) = [] ->
       l_client_log w ++ events (l_client w) = [EvFailed E_ACCESSDENIED] /\
       l_server_log w ++ events (l_server w) = [EvFailed E_ACCESSDENIED]).
Proof.
  intros Hc Hs Hne Hacts. destruct (link_inv_run c s Hc Hs acts Hacts) as (w0 & w & H0 & Hr & Hinv).
  exists w0, w. split; [done|]. split; [done|]. unfold received.
  destruct Hinv as [| | |sl se _ Hev|cl ce sl se _ Hce Hse]; [|done|done|..];
    cbn [l_up l_down l_client l_server l_client_log l_server_log events outgoing];
    rewrite ?Hev, ?Hce, ?Hse; by split_and!.
Qed.

(** ** A server facing anything *)

Inductive call := HandlePdu (bytes : list Z) | PollPdu | PollEvent | SendData (d : TunnelData).

Definition tunnel_call_ok (k : call) : Prop :=
  match k with HandlePdu bytes => bytes_ok bytes | SendData d => sendable d | _ => True end.

(** One call; [log] is every PDU handed out so far. *)
Definition perform (k : call) (t : RdpemtTunnel) (log : list (list Z)) : option (RdpemtTunnel * list (list Z)) :=
  match k with
  | HandlePdu bytes => '(_, t') ← handle_pdu bytes t; Some (t', log)
  | PollPdu =>
      match poll_pdu t with
      | Some (inr (Some bytes), t') => Some (t', log ++ [bytes])
      | Some (_, t') => Some (t', log)
      | None => None
      end
  | PollEvent => '(_, t') ← poll_event t; Some (t', log)
  | SendData d => '(_, t') ← send_data_with_sub_headers (td_sub_headers d) (higher_layer_data d) t; Some (t', log)
  end.

Fixpoint perform_all (ks : list call) (t : RdpemtTunnel) (log : list (list Z)) : option (RdpemtTunnel * list (list Z)) :=
  match ks with
  | [] => Some (t, log)
  | k :: ks' => '(t', log') ← perform k t log; perform_all ks' t' log'
  end.

(** The bytes of the request that [cfg] expects were among the calls. *)
Definition presented (cfg : TunnelConfig) (ks : list call) : Prop :=
  exists bytes, HandlePdu bytes ∈ ks /\ decode TunnelPdu bytes = Ok (PduCreateRequest (request_of cfg)).

(** What a server has sent in each of its states. *)
Definition server_sent (st : TunnelState) (sent : list (list Z)) : Prop :=
  match st with
  | Created => sent = []
  | AwaitingResponse => False
  | Established => exists ds, sent = response_wire S_OK :: (TunnelData_wire <$> ds) /\ Forall TunnelData_wf ds
  | Failed => sent = [response_wire E_ACCESSDENIED]
  end.

Lemma perform_server cfg k t log ks :
  config_wf cfg -> tunnel_call_ok k -> side t = Server -> config t = cfg ->
  server_sent (state t) (log ++ outgoing t) -> (state t = Established -> presented cfg ks) ->
  exists t' log', perform k t log = Some (t', log') /\ side t' = Server /\ config t' = cfg /\
    server_sent (state t') (log' ++ outgoing t') /\ (state t' = Established -> presented cfg (ks ++ [k])).
Proof.
  intros Hcfg Hk Hside Hconf Hsent Hpres.
  assert (Hmore : presented cfg ks -> presented cfg (ks ++ [k])).
  { intros (bytes & Hin & ?). exists bytes. split; [|done]. apply elem_of_app. by left. }
  destruct k as [bytes| | |d]; cbn [perform].
  - rewrite handle_pdu_eq. pose proof (decode_pdu_safe bytes Hk) as Hp.
    destruct (decode TunnelPdu bytes) as [p|e|] eqn:Hdec; [|by exists t, log; split_and!; auto|done].
    destruct t as [sd st c out ev]. cbn in Hside, Hconf. subst sd c. cbn [mbind option_bind].
    unfold accept. cbn [state side config outgoing events] in *.
    destruct st, p as [req|resp|d]; try (eexists _, log; split_and!; [reflexivity|done|done|done|auto]);
      try (eexists _, log; cbn; rewrite app_nil_r; split_and!; [reflexivity|done|done|done|auto]).
    destruct ((request_id req =? cfg_request_id cfg) && ct_eq (security_cookie req) (cfg_security_cookie cfg)) eqn:Hm;
      eexists _, log; cbn; (split_and!; [reflexivity|done|done| |]).
    + exists []. cbn in Hsent. apply app_eq_nil in Hsent as [-> ->]. done.
    + intros _. exists bytes. split; [apply elem_of_app; right; by left|].
      apply andb_prop in Hm as [Hid%Z.eqb_eq Hck]. destruct Hp as (_ & Hl & _).
      rewrite ct_eq_spec in Hck by (destruct Hcfg as (_ & -> & _); done). apply bool_decide_eq_true in Hck.
      rewrite Hdec. unfold request_of. rewrite <- Hid, <- Hck. by destruct req.
    + cbn in Hsent. apply app_eq_nil in Hsent as [-> ->]. done.
    + done.
  - destruct t as [sd st c [|b out] ev]; cbn in *; (eexists _, _; split_and!; [reflexivity|done|done| |auto]); [done|].
    by rewrite <- app_assoc.
  - destruct t as [sd st c out [|e ev]]; cbn in *; (eexists _, _; split_and!; [reflexivity|done|done|done|auto]).
  - destruct (send_eq d t Hk) as [(He & Hw & ->)|[_ [e ->]]]; cbn [mbind option_bind];
      (eexists _, log; split_and!; [reflexivity|done|done| |auto]); cbn [outgoing state].
    + rewrite He in *. destruct Hsent as (ds & Hds & Hall). exists (ds ++ [d]).
      rewrite app_assoc, Hds, fmap_app. split; [done|]. apply Forall_app. split; [done|by constructor].
    + done.
Qed.

(** C34: a server tunnel admits only its own client.  Whatever bytes arrive and
    however the calls are ordered, the server never panics; it is established
    only if one of the PDUs it was given is the create request with exactly its
    request id and cookie; and what it has sent is nothing before that, the
    success response followed by data after it, and a single E_ACCESSDENIED
    response if it failed: data never goes out before the response. *)
Theorem server_admits_only_its_client cfg ks :
  config_wf cfg -> Forall tunnel_call_ok ks ->
  exists t sent, perform_all ks (server cfg) [] = Some (t, sent) /\
    (is_established t = true -> presented cfg ks) /\ server_sent (state t) (sent ++ outgoing t).
Proof.
  intros Hcfg Hks.
  cut (forall done_ t log, side t = Server -> config t = cfg -> server_sent (state t) (log ++ outgoing t) ->
    (state t = Established -> presented cfg done_) ->
    exists t' sent, perform_all ks t log = Some (t', sent) /\
      (state t' = Established -> presented cfg (done_ ++ ks)) /\ server_sent (state t') (sent ++ outgoing t')).
  { intros H. destruct (H [] (server cfg) []) as (t & sent & ? & Hp & ?); [done..|].
    exists t, sent. split; [done|]. split; [|done]. unfold is_established. intros ?%bool_decide_eq_true. auto. }
  induction Hks as [|k ks Hk _ IH]; intros done_ t log Hside Hconf Hsent Hpres.
  { exists t, log. rewrite app_nil_r. auto. }
  destruct (perform_server cfg k t log done_ Hcfg Hk Hside Hconf Hsent Hpres) as (t1 & log1 & H1 & Hs1 & Hc1 & Hsent1 & Hp1).
  destruct (IH _ t1 log1 Hs1 Hc1 Hsent1 Hp1) as (t' & sent & Hrun & Hp & Hsent').
  exists t', sent. cbn [perform_all]. rewrite H1. cbn [mbind option_bind].
  rewrite <- app_assoc in Hp. done.
Qed.

End tunnel.

(** ** Sample runs *)

Definition sample_config (id : Z) : TunnelConfig := mkTunnelConfig id (replicate 16 7).
Definition sample_data : TunnelData :=
  mkTunnelData [mkSubHeader AutoDetectRequest [1; 2; 3]] [72; 101; 108; 108; 111].
Definition sample_schedule : list act :=
  [ClientSends sample_data; ClientDelivers; ServerSends sample_data; ServerDelivers; ClientReads;
   ClientSends sample_data; ClientDelivers; ServerDelivers; ServerReads; ClientReads].

Lemma sample_config_wf id : is_u32 id -> config_wf (sample_config id).
Proof. intros H. split_and!; [done|done|]. by repeat (apply Forall_cons; split; [done|]). Qed.
Lemma sample_data_sendable : sendable sample_data.
Proof. split; [apply Forall_cons; split; [split; [done|]|done]|]; by repeat (apply Forall_cons; split; [done|]). Qed.
Lemma sample_schedule_ok : Forall act_ok sample_schedule.
Proof. repeat (apply Forall_cons; split; [first [exact I|exact sample_data_sendable]|]). done. Qed.

Lemma tunnel_delivers_witness :
  exists w, link_start (sample_config 9) (sample_config 9) ≫= (fun w0 => @link_run plain_eq w0 sample_schedule) = Some w /\
    l_up w = [sample_data] /\ l_down w = [sample_data] /\
    received (l_server w) (l_server_log w) = l_up w /\ received (l_client w) (l_client_log w) = l_down w.
Proof.
  destruct (@tunnel_delivers plain_eq (sample_config 9) sample_schedule) as (w0 & w & H0 & Hr & (m1 & Hu & H1) & (m2 & Hd & H2) & _);
    [by apply sample_config_wf|exact sample_schedule_ok|].
  vm_compute in H0. injection H0 as <-. exists w. vm_compute in Hr. injection Hr as <-.
  rewrite (H1 eq_refl), app_nil_r in Hu. rewrite (H2 eq_refl), app_nil_r in Hd.
  split_and!; [reflexivity|reflexivity|reflexivity|by symmetry..].
Defined.

Lemma tunnel_mismatch_fails_witness :
  exists w, link_start (sample_config 8) (sample_config 9) ≫= (fun w0 => @link_run plain_eq w0 sample_schedule) = Some w /\
    l_up w = [] /\ l_down w = [] /\ is_failed (l_client w) = true.
Proof.
  destruct (@tunnel_mismatch_fails plain_eq (sample_config 8) (sample_config 9) sample_schedule)
    as (w0 & w & H0 & Hr & _ & _ & Hu & Hd & _);
    [by apply sample_config_wf|by apply sample_config_wf|done|exact sample_schedule_ok|].
  vm_compute in H0. injection H0 as <-. exists w. vm_compute in Hr. injection Hr as <-.
  split_and!; [reflexivity|exact Hu|exact Hd|reflexivity].
Defined.

Definition sample_calls : list call :=
  [SendData sample_data; HandlePdu [1; 2; 3]; HandlePdu (CreateRequest_wire (request_of (sample_config 9)));
   PollPdu; SendData sample_data; PollEvent].

Lemma sample_calls_ok : Forall tunnel_call_ok sample_calls.
Proof.
  repeat (apply Forall_cons; split; [first [exact I|exact sample_data_sendable|
    cbn [tunnel_call_ok]; vm_compute CreateRequest_wire; by repeat (apply Forall_cons; split; [done|])]|]). done.
Qed.

Lemma server_admits_only_its_client_witness :
  exists t sent, @perform_all plain_eq sample_calls (server (sample_config 9)) [] = Some (t, sent) /\
    presented (sample_config 9) sample_calls.
Proof.
  destruct (@server_admits_only_its_client plain_eq (sample_config 9) sample_calls) as (t & sent & Hr & Hp & _);
    [by apply sample_config_wf|exact sample_calls_ok|].
  exists t, sent. split; [exact Hr|]. vm_compute in Hr. injection Hr as <- <-. by apply Hp.
Defined.
