(* ===== verification/PduText.v ===== *)
(** Strings on the wire (src/crates/ironrdp-pdu/src/utils.rs).

    A Rust [String] is the list of its characters, Unicode scalar values.
    UTF-8 and UTF-16, which the source gets from the standard library, are
    written out; the round trips at the end hold for both. *)

From S2P Require Import Prelude Cursor Codec.

(** ** The standard library's encodings *)

Definition is_scalar (c : Z) : bool := ((0 <=? c) && (c <? 0xD800)) || ((0xE000 <=? c) && (c <? 0x110000)).

Definition utf8_char (c : Z) : list Z :=
  if c <? 0x80 then [c]
  else if c <? 0x800 then [0xC0 + c / 64; 0x80 + c mod 64]
  else if c <? 0x10000 then [0xE0 + c / 4096; 0x80 + (c / 64) mod 64; 0x80 + c mod 64]
  else [0xF0 + c / 262144; 0x80 + (c / 4096) mod 64; 0x80 + (c / 64) mod 64; 0x80 + c mod 64].

(** [value.as_bytes()] *)
Definition as_bytes (s : list Z) : list Z := s ≫= utf8_char.

(** A continuation byte and the six bits in it. *)
Definition continues (b : Z) : bool := (0x80 <=? b) && (b <? 0xC0).

(** [String::from_utf8(bytes)] *)
Fixpoint from_utf8 (bs : list Z) : option (list Z) :=
  match bs with
  | [] => Some []
  | b0 :: r0 =>
      if b0 <? 0x80 then cons b0 <$> from_utf8 r0
      else if (0xC0 <=? b0) && (b0 <? 0xE0) then
        match r0 with
        | b1 :: r1 =>
            let c := (b0 - 0xC0) * 64 + (b1 - 0x80) in
            if continues b1 && (0x80 <=? c) then cons c <$> from_utf8 r1 else None
        | _ => None
        end
      else if (0xE0 <=? b0) && (b0 <? 0xF0) then
        match r0 with
        | b1 :: b2 :: r2 =>
            let c := (b0 - 0xE0) * 4096 + (b1 - 0x80) * 64 + (b2 - 0x80) in
            if continues b1 && continues b2 && (0x800 <=? c) && is_scalar c then cons c <$> from_utf8 r2 else None
        | _ => None
        end
      else if (0xF0 <=? b0) && (b0 <? 0xF8) then
        match r0 with
        | b1 :: b2 :: b3 :: r3 =>
            let c := (b0 - 0xF0) * 262144 + (b1 - 0x80) * 4096 + (b2 - 0x80) * 64 + (b3 - 0x80) in
            if continues b1 && continues b2 && continues b3 && (0x10000 <=? c) && is_scalar c
            then cons c <$> from_utf8 r3 else None
        | _ => None
        end
      else None
  end.

Definition utf16_char (c : Z) : list Z :=
  if c <? 0x10000 then [c] else [0xD800 + (c - 0x10000) / 1024; 0xDC00 + (c - 0x10000) mod 1024].

(** [value.encode_utf16()] *)
Definition encode_utf16 (s : list Z) : list Z := s ≫= utf16_char.

(** [String::from_utf16(units)] *)
Fixpoint from_utf16 (units : list Z) : option (list Z) :=
  match units with
  | [] => Some []
  | u0 :: r0 =>
      if (u0 <? 0xD800) || (0xE000 <=? u0) then cons u0 <$> from_utf16 r0
      else
        match r0 with
        | u1 :: r1 =>
            if (u0 <? 0xDC00) && (0xDC00 <=? u1) && (u1 <? 0xE000)
            then cons (0x10000 + (u0 - 0xD800) * 1024 + (u1 - 0xDC00)) <$> from_utf16 r1 else None
        | [] => None
        end
  end.

(** [s.trim_end_matches('\0')] *)
Fixpoint trim_end (s : list Z) : list Z :=
  match s with
  | [] => []
  | c :: s' => match trim_end s' with [] => if c =? 0 then [] else [c] | r => c :: r end
  end.

(** [iter().position(p)] *)
Fixpoint position_of {A} (p : A -> bool) (l : list A) : option nat :=
  match l with
  | [] => None
  | x :: l' => if p x then Some O else S <$> position_of p l'
  end.

(** [bytes.chunks_exact(2)], each pair as the code unit it holds. *)
Fixpoint units_of (bs : list Z) : list Z :=
  match bs with
  | b0 :: b1 :: r => from_le_bytes [b0; b1] :: units_of r
  | _ => []
  end.

(** ** utils.rs *)

Inductive CharacterSet := Ansi | Unicode.

Definition to_utf16_bytes (value : list Z) : list Z := encode_utf16 value ≫= to_le_bytes 2.

Definition encoded_str_len (value : list Z) (character_set : CharacterSet) (with_null_terminator : bool) : Z :=
  match character_set with
  | Ansi => llen (as_bytes value) + (if with_null_terminator then 1 else 0)
  | Unicode => llen (encode_utf16 value) * 2 + (if with_null_terminator then 2 else 0)
  end.

Definition encode_string (value : list Z) (character_set : CharacterSet) (write_null_terminator : bool) : Encoder Z :=
  let buffer :=
    match character_set with
    | Unicode => to_utf16_bytes value ++ (if write_null_terminator then [0; 0] else [])
    | Ansi => as_bytes value ++ (if write_null_terminator then [0] else [])
    end in
  let len := llen buffer in
  _ ← WriteCursor.ensure_size len;
  _ ← WriteCursor.write_slice buffer;
  mret len.

Definition write_string_to_cursor (value : list Z) (character_set : CharacterSet) (write_null_terminator : bool) :
    Encoder unit :=
  _ ← encode_string value character_set write_null_terminator;
  mret tt.

(** How many bytes the string takes. *)
Definition string_size (character_set : CharacterSet) (read_null_terminator : bool) (c : ReadCursor.t) : Z :=
  match character_set with
  | Unicode =>
      (if read_null_terminator then
         match position_of (fun u => u =? 0) (units_of (ReadCursor.remaining c)) with
         | Some i => Z.of_nat i + 1
         | None => ReadCursor.len c / 2
         end
       else ReadCursor.len c / 2) * 2
  | Ansi =>
      if read_null_terminator then
        match position_of (fun b => b =? 0) (ReadCursor.remaining c) with
        | Some i => Z.of_nat i + 1
        | None => ReadCursor.len c
        end
      else ReadCursor.len c
  end.

Definition read_string_from_cursor (character_set : CharacterSet) (read_null_terminator : bool) : Decoder (list Z) :=
  size ← gets (string_size character_set read_null_terminator);
  if size =? 0 then mret []
  else
    _ ← ReadCursor.ensure_size size;
    slice ← ReadCursor.read_slice (Z.to_nat size);
    result ←
      match character_set with
      | Unicode =>
          match from_utf16 (units_of slice) with
          | Some s => mret s
          | None => fail_at (DInvalidField "buffer" "Failed to decode UTF16 string")
          end
      | Ansi =>
          match from_utf8 slice with
          | Some s => mret s
          | None => fail_at (DInvalidField "buffer" "Failed to decode UTF8 string")
          end
      end;
    mret (trim_end result).

(** [strict_sum(&[..])]: it panics if the sum does not fit a [usize], which
    the lengths of buffers that exist cannot reach. *)
Definition strict_sum (values : list Z) : Z := foldr Z.add 0 values.
(** [checked_sum(&[..])?] on the sizes of integer fields. *)
Definition checked_sum (values : list Z) : outcome DecodeErrorKind Z :=
  if strict_sum values <=? U64_MAX then Ok (strict_sum values) else Err (DOther "overflow detected during addition").

(** ** The encodings are inverse to each other *)

Lemma is_scalar_spec c : is_scalar c = true <-> 0 <= c < 0xD800 \/ 0xE000 <= c < 0x110000.
Proof. unfold is_scalar. lia. Qed.

(** [from_utf8] on a nonempty list, unfolded once. *)
Lemma from_utf8_cons b0 r0 :
  from_utf8 (b0 :: r0) =
      if b0 <? 0x80 then cons b0 <$> from_utf8 r0
      else if (0xC0 <=? b0) && (b0 <? 0xE0) then
        match r0 with
        | b1 :: r1 =>
            let c := (b0 - 0xC0) * 64 + (b1 - 0x80) in
            if continues b1 && (0x80 <=? c) then cons c <$> from_utf8 r1 else None
        | _ => None
        end
      else if (0xE0 <=? b0) && (b0 <? 0xF0) then
        match r0 with
        | b1 :: b2 :: r2 =>
            let c := (b0 - 0xE0) * 4096 + (b1 - 0x80) * 64 + (b2 - 0x80) in
            if continues b1 && continues b2 && (0x800 <=? c) && is_scalar c then cons c <$> from_utf8 r2 else None
        | _ => None
        end
      else if (0xF0 <=? b0) && (b0 <? 0xF8) then
        match r0 with
        | b1 :: b2 :: b3 :: r3 =>
            let c := (b0 - 0xF0) * 262144 + (b1 - 0x80) * 4096 + (b2 - 0x80) * 64 + (b3 - 0x80) in
            if continues b1 && continues b2 && continues b3 && (0x10000 <=? c) && is_scalar c
            then cons c <$> from_utf8 r3 else None
        | _ => None
        end
      else None.
Proof. reflexivity. Qed.

Lemma utf8_next c r : is_scalar c = true -> from_utf8 (utf8_char c ++ r) = cons c <$> from_utf8 r.
Proof.
  rewrite is_scalar_spec. intros Hc. unfold utf8_char.
  destruct (Z.ltb_spec c 0x80) as [H1|H1]; [cbn [app]; by rewrite from_utf8_cons, (proj2 (Z.ltb_lt _ _))|].
  destruct (Z.ltb_spec c 0x800) as [H2|H2]; [|destruct (Z.ltb_spec c 0x10000) as [H3|H3]]; cbn [app]; rewrite from_utf8_cons; cbv beta iota zeta.
  - set (b0 := 0xC0 + c / 64). set (b1 := 0x80 + c mod 64).
    assert (0xC2 <= b0 < 0xE0) by (subst b0; zdm). assert (0x80 <= b1 < 0xC0) by (subst b1; zdm).
    replace ((b0 - 0xC0) * 64 + (b1 - 0x80)) with c by (subst b0 b1; zdm). unfold continues.
    rewrite (proj2 (Z.ltb_ge b0 _)), (proj2 (Z.leb_le _ b0)), (proj2 (Z.ltb_lt b0 _)),
      (proj2 (Z.leb_le _ b1)), (proj2 (Z.ltb_lt b1 _)), (proj2 (Z.leb_le _ c)) by lia. done.
  - set (b0 := 0xE0 + c / 4096). set (b1 := 0x80 + (c / 64) mod 64). set (b2 := 0x80 + c mod 64).
    assert (0xE0 <= b0 < 0xF0) by (subst b0; zdm). assert (0x80 <= b1 < 0xC0) by (subst b1; zdm).
    assert (0x80 <= b2 < 0xC0) by (subst b2; zdm).
    replace ((b0 - 0xE0) * 4096 + (b1 - 0x80) * 64 + (b2 - 0x80)) with c by (subst b0 b1 b2; zdm).
    rewrite (proj2 (is_scalar_spec c) Hc). unfold continues.
    rewrite (proj2 (Z.ltb_ge b0 0x80)), (proj2 (Z.leb_le 0xC0 b0)), (proj2 (Z.ltb_ge b0 0xE0)), (proj2 (Z.leb_le 0xE0 b0)),
      (proj2 (Z.ltb_lt b0 0xF0)), (proj2 (Z.leb_le _ b1)), (proj2 (Z.ltb_lt b1 _)), (proj2 (Z.leb_le _ b2)),
      (proj2 (Z.ltb_lt b2 _)), (proj2 (Z.leb_le _ c)) by lia. done.
  - set (b0 := 0xF0 + c / 262144). set (b1 := 0x80 + (c / 4096) mod 64). set (b2 := 0x80 + (c / 64) mod 64).
    set (b3 := 0x80 + c mod 64).
    assert (0xF0 <= b0 < 0xF8) by (subst b0; zdm). assert (0x80 <= b1 < 0xC0) by (subst b1; zdm).
    assert (0x80 <= b2 < 0xC0) by (subst b2; zdm). assert (0x80 <= b3 < 0xC0) by (subst b3; zdm).
    replace ((b0 - 0xF0) * 262144 + (b1 - 0x80) * 4096 + (b2 - 0x80) * 64 + (b3 - 0x80)) with c by (subst b0 b1 b2 b3; zdm).
    rewrite (proj2 (is_scalar_spec c) Hc). unfold continues.
    rewrite (proj2 (Z.ltb_ge b0 0x80)), (proj2 (Z.leb_le 0xC0 b0)), (proj2 (Z.ltb_ge b0 0xE0)), (proj2 (Z.leb_le 0xE0 b0)),
      (proj2 (Z.ltb_ge b0 0xF0)), (proj2 (Z.leb_le 0xF0 b0)),
      (proj2 (Z.ltb_lt b0 0xF8)), (proj2 (Z.leb_le _ b1)), (proj2 (Z.ltb_lt b1 _)), (proj2 (Z.leb_le _ b2)),
      (proj2 (Z.ltb_lt b2 _)), (proj2 (Z.leb_le _ b3)), (proj2 (Z.ltb_lt b3 _)), (proj2 (Z.leb_le _ c)) by lia. done.
Qed.

Abbreviation scalars := (Forall (fun c => is_scalar c = true)).

Lemma from_utf8_as_bytes s : scalars s -> from_utf8 (as_bytes s) = Some s.
Proof.
  induction 1 as [|c s Hc _ IH]; [done|]. unfold as_bytes in *. rewrite bind_cons, utf8_next by done. by rewrite IH.
Qed.

(** One character read back from the front. *)
Lemma utf8_front bs s :
  bytes_ok bs -> from_utf8 bs = Some s -> bs <> [] ->
  exists c s' r, s = c :: s' /\ is_scalar c = true /\ bs = utf8_char c ++ r /\ from_utf8 r = Some s'.
Proof.
  intros Hb Hs Hne. destruct bs as [|b0 r0]; [done|]. apply Forall_cons in Hb as [Hb0 Hb]. cbn [from_utf8] in Hs.
  destruct (Z.ltb_spec b0 0x80) as [H1|H1].
  { apply fmap_Some in Hs as (s' & Hs' & ->). exists b0, s', r0. split_and!; [done|apply is_scalar_spec; width| |done].
    unfold utf8_char. by rewrite (proj2 (Z.ltb_lt _ _)). }
  destruct ((0xC0 <=? b0) && (b0 <? 0xE0)) eqn:H2; [|destruct ((0xE0 <=? b0) && (b0 <? 0xF0)) eqn:H3;
    [|destruct ((0xF0 <=? b0) && (b0 <? 0xF8)) eqn:H4; [|done]]]; cbv zeta in Hs.
  - destruct r0 as [|b1 r1]; [done|]. apply Forall_cons in Hb as [Hb1 Hb].
    destruct (_ && _) eqn:Hc in Hs; [|done]. unfold continues in Hc.
    apply fmap_Some in Hs as (s' & Hs' & ->). eexists _, s', r1. split; [reflexivity|].
    split; [apply is_scalar_spec; lia|]. split; [|done]. unfold utf8_char.
    rewrite (proj2 (Z.ltb_ge _ 0x80)), (proj2 (Z.ltb_lt _ 0x800)) by lia. cbn [app]. f_equal; [zdm|f_equal; zdm].
  - destruct r0 as [|b1 [|b2 r2]]; [done..|]. apply Forall_cons in Hb as [Hb1 [Hb2 Hb]%Forall_cons].
    destruct (_ && is_scalar _) eqn:Hc in Hs; [|done]. apply andb_prop in Hc as [Hc Hsc]. unfold continues in Hc.
    apply fmap_Some in Hs as (s' & Hs' & ->). eexists _, s', r2. split; [reflexivity|].
    split; [exact Hsc|]. split; [|done]. unfold utf8_char.
    rewrite (proj2 (Z.ltb_ge _ 0x80)), (proj2 (Z.ltb_ge _ 0x800)), (proj2 (Z.ltb_lt _ 0x10000)) by lia.
    cbn [app]. f_equal; [zdm|f_equal; [zdm|f_equal; zdm]].
  - destruct r0 as [|b1 [|b2 [|b3 r3]]]; [done..|]. apply Forall_cons in Hb as [Hb1 [Hb2 [Hb3 Hb]%Forall_cons]%Forall_cons].
    destruct (_ && is_scalar _) eqn:Hc in Hs; [|done]. apply andb_prop in Hc as [Hc Hsc]. unfold continues in Hc.
    apply fmap_Some in Hs as (s' & Hs' & ->). eexists _, s', r3. split; [reflexivity|].
    split; [exact Hsc|]. split; [|done]. unfold utf8_char.
    rewrite (proj2 (Z.ltb_ge _ 0x80)), (proj2 (Z.ltb_ge _ 0x800)), (proj2 (Z.ltb_ge _ 0x10000)) by lia.
    cbn [app]. f_equal; [zdm|f_equal; [zdm|f_equal; [zdm|f_equal; zdm]]].
Qed.

Lemma from_utf8_sound bs s : bytes_ok bs -> from_utf8 bs = Some s -> scalars s /\ as_bytes s = bs.
Proof.
  revert bs. induction s as [|c s IH]; intros bs Hb Hs.
  - destruct (decide (bs = [])) as [->|Hne]; [done|].
    destruct (utf8_front bs [] Hb Hs Hne) as (? & ? & ? & ? & _). done.
  - assert (bs <> []) as Hne by (by intros ->).
    destruct (utf8_front bs _ Hb Hs Hne) as (c' & s' & r & [= -> ->] & Hc & -> & Hr).
    apply Forall_app in Hb as [_ Hb]. destruct (IH r Hb Hr) as [Hss <-].
    split; [by constructor|]. unfold as_bytes. by rewrite bind_cons.
Qed.

Lemma utf8_char_bytes c : is_scalar c = true -> bytes_ok (utf8_char c).
Proof.
  rewrite is_scalar_spec. intros Hc. unfold utf8_char.
  repeat case_match; repeat (apply Forall_cons; split); try apply Forall_nil_2; unfold is_u8; zdm.
Qed.

Lemma as_bytes_ok s : scalars s -> bytes_ok (as_bytes s).
Proof.
  induction 1 as [|c s Hc _ IH]; [constructor|]. unfold as_bytes. rewrite bind_cons.
  apply Forall_app. split; [by apply utf8_char_bytes|done].
Qed.

Lemma from_utf16_encode s : scalars s -> from_utf16 (encode_utf16 s) = Some s.
Proof.
  induction 1 as [|c s Hc _ IH]; [done|]. apply is_scalar_spec in Hc. unfold encode_utf16 in *. rewrite bind_cons.
  unfold utf16_char at 1. destruct (Z.ltb_spec c 0x10000) as [H1|H1]; cbn [app from_utf16].
  - replace ((c <? 0xD800) || (0xE000 <=? c)) with true by lia. by rewrite IH.
  - set (u0 := 0xD800 + (c - 0x10000) / 1024). set (u1 := 0xDC00 + (c - 0x10000) mod 1024).
    assert (0xD800 <= u0 < 0xDC00) by (subst u0; zdm). assert (0xDC00 <= u1 < 0xE000) by (subst u1; zdm).
    replace ((u0 <? 0xD800) || (0xE000 <=? u0)) with false by lia.
    replace ((u0 <? 0xDC00) && (0xDC00 <=? u1) && (u1 <? 0xE000)) with true by lia.
    rewrite IH. cbn. do 2 f_equal. subst u0 u1. zdm.
Qed.

Abbreviation units_ok := (Forall is_u16).

Lemma from_utf16_sound us s : units_ok us -> from_utf16 us = Some s -> scalars s /\ encode_utf16 s = us.
Proof.
  revert us. induction s as [|c s IH]; intros us Hu Hs.
  { destruct us as [|u0 r0]; [done|]. cbn [from_utf16] in Hs. repeat case_match; try done; by apply fmap_Some in Hs as (? & _ & ?). }
  destruct us as [|u0 r0]; [done|]. apply Forall_cons in Hu as [Hu0 Hu]. cbn [from_utf16] in Hs.
  unfold encode_utf16 in *. rewrite bind_cons. unfold utf16_char at 1.
  destruct ((u0 <? 0xD800) || (0xE000 <=? u0)) eqn:H0.
  - apply fmap_Some in Hs as (s' & Hs' & [= -> ->]). destruct (IH r0 Hu Hs') as [Hss ->].
    split; [constructor; [apply is_scalar_spec; width|done]|]. rewrite (proj2 (Z.ltb_lt _ _)) by width. done.
  - destruct r0 as [|u1 r1]; [done|]. apply Forall_cons in Hu as [Hu1 Hu].
    destruct (_ && _) eqn:H1 in Hs; [|done]. apply fmap_Some in Hs as (s' & Hs' & [= -> ->]).
    destruct (IH r1 Hu Hs') as [Hss ->]. split; [constructor; [apply is_scalar_spec; width|done]|].
    rewrite (proj2 (Z.ltb_ge _ _)) by lia. cbn [app]. f_equal; [zdm|f_equal; zdm].
Qed.

Lemma utf16_char_units c : is_scalar c = true -> units_ok (utf16_char c).
Proof.
  rewrite is_scalar_spec. intros Hc. unfold utf16_char.
  case_match; repeat (apply Forall_cons; split); try apply Forall_nil_2; unfold is_u16; zdm.
Qed.

Lemma encode_utf16_units s : scalars s -> units_ok (encode_utf16 s).
Proof.
  induction 1 as [|c s Hc _ IH]; [constructor|]. unfold encode_utf16. rewrite bind_cons.
  apply Forall_app. split; [by apply utf16_char_units|done].
Qed.

(** ** Code units as bytes *)

Lemma units_of_bytes us rest :
  units_ok us -> units_of ((us ≫= to_le_bytes 2) ++ rest) = us ++ units_of rest.
Proof.
  induction 1 as [|u us Hu _ IH]; [done|]. rewrite bind_cons, <- app_assoc.
  pose proof (from_to_le_bytes 2 u) as Hf. cbn [to_le_bytes app units_of] in *. rewrite Hf, IH.
  cbn [app]. by rewrite Z.mod_small.
Qed.

(** Two bytes at a time. *)
Lemma pairs_ind (P : list Z -> Prop) :
  P [] -> (forall b, P [b]) -> (forall b0 b1 l, P l -> P (b0 :: b1 :: l)) -> forall l, P l.
Proof.
  intros H0 H1 H2 l. cut (P l /\ forall b, P (b :: l)); [by intros [? _]|].
  induction l as [|b l [IH1 IH2]]; [auto|]. split; [done|]. intros b'. by apply H2.
Qed.

Lemma units_of_ok bs : bytes_ok bs -> units_ok (units_of bs).
Proof.
  induction bs as [|b|b0 b1 bs IH] using pairs_ind; intros Hb; [constructor..|].
  apply Forall_cons in Hb as [Hb0 [Hb1 Hb]%Forall_cons]. cbn [units_of]. constructor; [|by apply IH].
  cbn [from_le_bytes]. width.
Qed.

Lemma length_units_of bs : length (units_of bs) = (length bs / 2)%nat.
Proof.
  induction bs as [|b|b0 b1 bs IH] using pairs_ind; [done..|]. cbn [units_of length]. rewrite IH.
  replace (S (S (length bs))) with (length bs + 1 * 2)%nat by lia. rewrite Nat.div_add by done. lia.
Qed.

Lemma units_of_take bs n : units_of (take (2 * n) bs) = take n (units_of bs).
Proof.
  revert n. induction bs as [|b|b0 b1 bs IH] using pairs_ind; intros n; [rewrite take_nil; cbn [units_of]; by rewrite take_nil| |].
  - cbn [units_of]. rewrite take_nil. destruct n as [|n]; [done|]. by rewrite firstn_all2 by (cbn; lia).
  - destruct n as [|n]; [done|]. replace (2 * S n)%nat with (S (S (2 * n))) by lia. cbn [take units_of]. by rewrite IH.
Qed.

(** ** Strings on the wire *)

(** The code units of a string: bytes of UTF-8 or 16-bit units of UTF-16. *)
Definition code_char (cs : CharacterSet) (c : Z) : list Z :=
  match cs with Ansi => utf8_char c | Unicode => utf16_char c end.
Definition code (cs : CharacterSet) (s : list Z) : list Z := s ≫= code_char cs.

Lemma code_as cs s : code cs s = match cs with Ansi => as_bytes s | Unicode => encode_utf16 s end.
Proof. by destruct cs. Qed.

Lemma code_app cs s1 s2 : code cs (s1 ++ s2) = code cs s1 ++ code cs s2.
Proof. apply bind_app. Qed.

Lemma code_char_nonzero cs c : is_scalar c = true -> c <> 0 -> 0 ∉ code_char cs c.
Proof.
  rewrite is_scalar_spec. intros Hc Hz. unfold code_char, utf8_char, utf16_char.
  destruct cs; repeat case_match; rewrite ?not_elem_of_cons; split_and?; try apply not_elem_of_nil; zdm.
Qed.

Lemma code_char_zero cs : code_char cs 0 = [0].
Proof. by destruct cs. Qed.

Lemma code_char_nonempty cs c : code_char cs c <> [].
Proof. unfold code_char, utf8_char, utf16_char. destruct cs; repeat case_match; done. Qed.

Lemma code_zero cs s : scalars s -> 0 ∈ code cs s <-> 0 ∈ s.
Proof.
  induction 1 as [|c s Hc _ IH]; [by rewrite !elem_of_nil|]. unfold code in *.
  rewrite bind_cons, elem_of_app, elem_of_cons, IH. destruct (decide (c = 0)) as [->|Hz].
  - rewrite code_char_zero, list_elem_of_singleton. tauto.
  - split; [intros [?|?]|intros [?|?]]; auto; [by destruct (code_char_nonzero cs c Hc Hz)|by subst c].
Qed.

Lemma trim_end_clean s : 0 ∉ s -> trim_end s = s.
Proof.
  induction s as [|c s IH]; [done|]. rewrite not_elem_of_cons. intros [Hc Hs]. cbn [trim_end]. rewrite (IH Hs).
  destruct s; [|done]. by rewrite (proj2 (Z.eqb_neq _ _)) by congruence.
Qed.

Lemma trim_end_nul s : trim_end (s ++ [0]) = trim_end s.
Proof. induction s as [|c s IH]; [done|]. cbn [app trim_end]. by rewrite IH. Qed.

Lemma position_of_app {A} (p : A -> bool) l x r :
  Forall (fun y => p y = false) l -> p x = true -> position_of p (l ++ x :: r) = Some (length l).
Proof.
  intros Hl Hx. induction Hl as [|y l Hy _ IH]; cbn [app position_of]; [by rewrite Hx|]. by rewrite Hy, IH.
Qed.

Lemma position_of_Some {A} (p : A -> bool) l i :
  position_of p l = Some i ->
  exists x, l !! i = Some x /\ p x = true /\ Forall (fun y => p y = false) (take i l) /\ (i < length l)%nat.
Proof.
  revert i. induction l as [|x l IH]; intros i; cbn [position_of]; [done|]. destruct (p x) eqn:Hx.
  - intros [= <-]. exists x. split_and!; [done|done|constructor|cbn; lia].
  - intros (j & Hj & ->)%fmap_Some. destruct (IH j Hj) as (y & Hy & Hp & Hf & Hl).
    exists y. split_and!; [done|done|by constructor|cbn; lia].
Qed.

Lemma position_of_None {A} (p : A -> bool) l : position_of p l = None -> Forall (fun y => p y = false) l.
Proof.
  induction l as [|x l IH]; [constructor|]. cbn [position_of]. destruct (p x) eqn:Hx; [done|].
  intros H. constructor; [done|]. apply IH. by destruct (position_of p l).
Qed.

Lemma no_zero l : Forall (fun y => (y =? 0) = false) l <-> 0 ∉ l.
Proof.
  rewrite Forall_forall. split; [intros H Hin; by specialize (H 0 Hin)|].
  intros H y Hy. apply Z.eqb_neq. by intros ->.
Qed.

(** The bytes of a string with its terminator. *)
Definition string_wire (cs : CharacterSet) (s : list Z) : list Z :=
  match cs with Ansi => as_bytes s ++ [0] | Unicode => to_utf16_bytes s ++ [0; 0] end.
Definition string_ok (s : list Z) : Prop := scalars s /\ 0 ∉ s.

Lemma length_bind_le2 us : length (us ≫= to_le_bytes 2) = (2 * length us)%nat.
Proof. induction us as [|u us IH]; [done|]. rewrite bind_cons, length_app, length_to_le_bytes, IH. cbn [length]. lia. Qed.

Lemma llen_string_wire cs s : llen (string_wire cs s) = encoded_str_len s cs true.
Proof.
  destruct cs; cbn [string_wire encoded_str_len]; rewrite llen_app; [done|].
  unfold to_utf16_bytes, llen. rewrite length_bind_le2. cbn. lia.
Qed.

Lemma string_wire_size cs s pre post :
  string_ok s ->
  string_size cs true (ReadCursor.mk (pre ++ string_wire cs s ++ post) (length pre)) = llen (string_wire cs s).
Proof.
  intros [Hs Hz]. unfold string_size, ReadCursor.remaining. cbn [ReadCursor.inner ReadCursor.pos].
  rewrite Nat.min_l, drop_app_length by (rewrite length_app; lia).
  assert (Hn : Forall (fun y => (y =? 0) = false) (code cs s)) by (apply no_zero; by rewrite code_zero).
  rewrite code_as in Hn. rewrite llen_string_wire. destruct cs; cbn [string_wire encoded_str_len].
  - rewrite <- app_assoc. cbn [app]. by rewrite position_of_app.
  - rewrite <- app_assoc. unfold to_utf16_bytes. rewrite units_of_bytes by by apply encode_utf16_units.
    change (units_of ([0; 0] ++ post)) with (0 :: units_of post). rewrite position_of_app by done. unfold llen. lia.
Qed.

Lemma decodes_string cs s :
  string_ok s -> decodes (read_string_from_cursor cs true) (string_wire cs s) s.
Proof.
  intros Hok pre post. unfold read_string_from_cursor. unfold mbind at 1, M_bind at 1, gets at 1.
  rewrite string_wire_size by done. pose proof (llen_string_wire cs s) as Hl.
  assert (Hp : 0 < llen (string_wire cs s)) by (rewrite Hl; destruct cs; cbn; unfold llen; lia).
  rewrite (proj2 (Z.eqb_neq _ _)) by lia. destruct Hok as [Hs Hz].
  assert (Hd : decodes (_ ← ReadCursor.ensure_size (llen (string_wire cs s));
      slice ← ReadCursor.read_slice (Z.to_nat (llen (string_wire cs s)));
      result ← match cs with
      | Unicode => match from_utf16 (units_of slice) with Some s => mret s
          | None => fail_at (DInvalidField "buffer" "Failed to decode UTF16 string") end
      | Ansi => match from_utf8 slice with Some s => mret s
          | None => fail_at (DInvalidField "buffer" "Failed to decode UTF8 string") end
      end; mret (trim_end result)) (string_wire cs s) s); [|exact (Hd pre post)].
  apply decodes_ensure; [done|]. unfold llen. rewrite Nat2Z.id.
  eapply decodes_last; [apply decodes_read_slice|].
  assert (Hsz : scalars (s ++ [0])) by (apply Forall_app; split; [done|by constructor]).
  eapply (decodes_bind_nil _ _ _ (s ++ [0])); [|rewrite trim_end_nul, trim_end_clean by done; apply decodes_ret].
  destruct cs; cbn [string_wire].
  - rewrite (eq_sym (code_app Ansi s [0]) : as_bytes s ++ [0] = as_bytes (s ++ [0])).
    rewrite (from_utf8_as_bytes _ Hsz). apply decodes_ret.
  - unfold to_utf16_bytes. rewrite units_of_bytes by by apply encode_utf16_units.
    rewrite (eq_sym (code_app Unicode s [0]) : encode_utf16 s ++ units_of [0; 0] = encode_utf16 (s ++ [0])).
    rewrite (from_utf16_encode _ Hsz). apply decodes_ret.
Qed.

Lemma encodes_string cs s : encodes (write_string_to_cursor s cs true) (string_wire cs s).
Proof.
  assert (H : encodes (_ ← WriteCursor.ensure_size (llen (string_wire cs s)); _ ← WriteCursor.write_slice (string_wire cs s);
    mret tt) (string_wire cs s)).
  { apply encodes_ensure; [done|]. apply encodes_last; [apply encodes_write_slice|apply encodes_ret]. }
  intros pre hole post Hl. rewrite <- (H pre hole post Hl). unfold write_string_to_cursor, encode_string.
  destruct cs; cbn [string_wire]; unfold mbind, M_bind;
    (destruct (WriteCursor.ensure_size _ _) as [[[] c]| |]; [|done..]);
    (destruct (WriteCursor.write_slice _ c) as [[[] c']| |]; done).
Qed.

(** What is read back is a string without a terminator in it. *)
Lemma trimmed_ok cs us tail s :
  scalars s -> code cs s = us ++ tail -> 0 ∉ us -> (length tail <= 1)%nat -> string_ok (trim_end s).
Proof.
  intros Hs Hc Hz Ht. destruct (decide (s = [])) as [->|Hne]; [split; [constructor|by apply not_elem_of_nil]|].
  destruct (exists_last Hne) as (s' & c & ->). apply Forall_app in Hs as [Hs Hcc].
  assert (Hz' : 0 ∉ s').
  { intros Hin%(code_zero cs s' Hs). apply Hz. rewrite code_app in Hc.
    assert (Hlast : code cs [c] <> [])
      by (unfold code; cbn [mbind list_bind]; rewrite app_nil_r; apply code_char_nonempty).
    apply app_eq_inv in Hc as [(k & Hk & ->)|(k & -> & _)]; [|apply elem_of_app; by left].
    rewrite length_app in Ht. destruct k; [by rewrite <- (app_nil_r us), <- Hk|].
    destruct (code cs [c]); [done|]. cbn in Ht. lia. }
  destruct (decide (c = 0)) as [->|Hc0]; [rewrite trim_end_nul, trim_end_clean by done; by split|].
  assert (Hz0 : 0 ∉ s' ++ [c]) by (rewrite elem_of_app, list_elem_of_singleton; intros [?|?]; [done|congruence]).
  rewrite trim_end_clean by done. split; [by apply Forall_app|done].
Qed.

(** The code units [string_size] selects: everything up to the terminator. *)
Lemma string_size_spec cs c :
  rc_wf c ->
  let size := string_size cs true c in
  let slice := take (Z.to_nat size) (ReadCursor.remaining c) in
  0 <= size <= ReadCursor.len c /\
  exists us tail, (match cs with Ansi => slice | Unicode => units_of slice end) = us ++ tail /\
    (0 ∉ us) /\ (length tail <= 1)%nat /\
    (cs = Unicode -> size = 2 * llen (units_of slice)).
Proof.
  intros [Hp Hb]. cbv zeta. unfold string_size.
  assert (Hlen : ReadCursor.len c = llen (ReadCursor.remaining c)).
  { unfold ReadCursor.len, ReadCursor.remaining, llen. rewrite Nat.min_l, length_drop by lia. lia. }
  rewrite Hlen. set (rem := ReadCursor.remaining c). destruct cs.
  - destruct (position_of _ rem) as [i|] eqn:Hpos.
    + apply position_of_Some in Hpos as (x & Hx & _ & Hz%no_zero & Hl). unfold llen. split; [lia|].
      exists (take i rem), [x]. rewrite Z2Nat.inj_add, Nat2Z.id, Nat.add_1_r, (take_S_r _ _ x) by (done || lia).
      split_and!; [done|done|cbn; lia|done].
    + apply position_of_None, no_zero in Hpos. unfold llen. split; [lia|]. rewrite Nat2Z.id, firstn_all.
      exists rem, []. rewrite app_nil_r. split_and!; [done|done|cbn; lia|done].
  - pose proof (length_units_of rem) as Hul.
    destruct (position_of _ (units_of rem)) as [i|] eqn:Hpos.
    + apply position_of_Some in Hpos as (x & Hx & _ & Hz%no_zero & Hl).
      pose proof (Nat.Div0.div_mod (length rem) 2). unfold llen. split; [lia|].
      replace (Z.to_nat ((Z.of_nat i + 1) * 2)) with (2 * S i)%nat by lia. rewrite units_of_take.
      exists (take i (units_of rem)), [x]. rewrite (take_S_r _ _ x) by done.
      split_and!; [done|done|cbn; lia|]. intros _. rewrite length_app, length_take. cbn. lia.
    + apply position_of_None, no_zero in Hpos. unfold llen in *. split; [zdm|].
      replace (Z.to_nat (Z.of_nat (length rem) / 2 * 2)) with (2 * (length rem / 2))%nat
        by (rewrite <- (Nat2Z.id (2 * (length rem / 2))); f_equal; rewrite Nat2Z.inj_mul, Nat2Z.inj_div; lia).
      rewrite units_of_take, <- Hul, firstn_all. exists (units_of rem), []. rewrite app_nil_r.
      split_and!; [done|done|cbn; lia|]. intros _. rewrite Hul, Nat2Z.inj_div. lia.
Qed.

Lemma safe_string cs : safe 0 (read_string_from_cursor cs true) 0 string_ok.
Proof.
  intros c Hc _. unfold read_string_from_cursor. unfold mbind at 1, M_bind at 1, gets at 1.
  destruct (string_size_spec cs c Hc) as ([H0 Hle] & us & tail & Hsl & Hz & Ht & Hu).
  set (size := string_size cs true c) in *.
  destruct (Z.eqb_spec size 0) as [He|He].
  { cbn. split; [done|]. split; [lia|]. split; [split; [constructor|by apply not_elem_of_nil]|]. by split. }
  unfold mbind at 1, M_bind at 1, ReadCursor.ensure_size. rewrite (proj2 (Z.leb_le _ _)) by lia.
  unfold mbind at 1, M_bind at 1.
  pose proof (safe_read_slice (E := DecodeErrorKind) 0 (Z.to_nat size) ltac:(lia) c Hc ltac:(lia)) as Hr.
  destruct (ReadCursor.read_slice (Z.to_nat size) c) as [[bs c']| |] eqn:Hrd; [|done..].
  destruct Hr as (Hc' & Hl' & [Hbl Hbs] & Hi & Hp).
  assert (Hbs' : bs = take (Z.to_nat size) (ReadCursor.remaining c)).
  { unfold ReadCursor.read_slice, ReadCursor.peek_slice, ReadCursor.advance, mbind, M_bind in Hrd.
    destruct (_ <=? _)%nat in Hrd; [|done]. cbn in Hrd. injection Hrd as <- _. unfold ReadCursor.remaining.
    destruct Hc. by rewrite Nat.min_l by lia. }
  rewrite <- Hbs' in Hsl, Hu.
  assert (Hdone : forall s, scalars s -> code cs s = us ++ tail -> string_ok (trim_end s)) by (intros; by eapply trimmed_ok).
  unfold mbind, M_bind. destruct cs.
  - destruct (from_utf8 bs) as [s|] eqn:Hs; [|done]. cbn. apply from_utf8_sound in Hs as [Hss Hcode]; [|done].
    split_and!; [done|done|apply Hdone; [done|by rewrite code_as, Hcode]|done|done].
  - destruct (from_utf16 (units_of bs)) as [s|] eqn:Hs; [|done]. cbn.
    apply from_utf16_sound in Hs as [Hss Hcode]; [|by apply units_of_ok].
    split_and!; [done|done|apply Hdone; [done|by rewrite code_as, Hcode]|done|done].
Qed.
