(* ===== verification/DvcWire.v ===== *)
(** The PDUs of the dynamic virtual channel protocol
    (src/crates/ironrdp-dvc/src/pdu.rs, MS-RDPEDYC 2.2). *)

From S2P Require Import Prelude Cursor Codec PduText.

(** ** The header *)

Inductive Cmd :=
| CmdCreate | CmdDataFirst | CmdData | CmdClose | CmdCapability
| CmdDataFirstCompressed | CmdDataCompressed | CmdSoftSyncRequest | CmdSoftSyncResponse.
#[export] Instance Cmd_eq_dec : EqDecision Cmd.
Proof. solve_decision. Defined.

Definition Cmd_as_u8 (c : Cmd) : Z :=
  match c with
  | CmdCreate => 0x01 | CmdDataFirst => 0x02 | CmdData => 0x03 | CmdClose => 0x04 | CmdCapability => 0x05
  | CmdDataFirstCompressed => 0x06 | CmdDataCompressed => 0x07
  | CmdSoftSyncRequest => 0x08 | CmdSoftSyncResponse => 0x09
  end.

Definition Cmd_try_from (byte : Z) : outcome DecodeErrorKind Cmd :=
  if byte =? 0x01 then Ok CmdCreate
  else if byte =? 0x02 then Ok CmdDataFirst
  else if byte =? 0x03 then Ok CmdData
  else if byte =? 0x04 then Ok CmdClose
  else if byte =? 0x05 then Ok CmdCapability
  else if byte =? 0x06 then Ok CmdDataFirstCompressed
  else if byte =? 0x07 then Ok CmdDataCompressed
  else if byte =? 0x08 then Ok CmdSoftSyncRequest
  else if byte =? 0x09 then Ok CmdSoftSyncResponse
  else Err (DInvalidField "Cmd" "invalid cmd" None).

(** [format!("{cmd:?}")] *)
Definition Cmd_debug (c : Cmd) : string :=
  match c with
  | CmdCreate => "Create" | CmdDataFirst => "DataFirst" | CmdData => "Data" | CmdClose => "Close"
  | CmdCapability => "Capability" | CmdDataFirstCompressed => "DataFirstCompressed"
  | CmdDataCompressed => "DataCompressed" | CmdSoftSyncRequest => "SoftSyncRequest"
  | CmdSoftSyncResponse => "SoftSyncResponse"
  end.

(** [FieldType(u8)]: how wide an integer field is. *)
Module FieldType.

Definition U8 : Z := 0x00.
Definition U16 : Z := 0x01.
Definition U32 : Z := 0x02.

Definition size_of_val (f : Z) : Z := if f =? U8 then 1 else if f =? U16 then 2 else if f =? U32 then 4 else 0.

Definition for_val (value : Z) : Z := if value <? 256 then U8 else if value <? 65536 then U16 else U32.

Definition encode_val (f value : Z) : Encoder unit :=
  _ ← WriteCursor.ensure_size (size_of_val f);
  if f =? U8 then
    if value <? 256 then WriteCursor.write_u8 value
    else encode_fail_at (EInvalidField "FieldType::encode" "too many elements")
  else if f =? U16 then
    if value <? 65536 then WriteCursor.write_u16 value
    else encode_fail_at (EInvalidField "FieldType::encode" "too many elements")
  else if f =? U32 then WriteCursor.write_u32 value
  else encode_fail_at (EInvalidField "FieldType" "invalid field type").

Definition decode_val (f : Z) : Decoder Z :=
  _ ← ReadCursor.ensure_size (size_of_val f);
  if f =? U8 then ReadCursor.read_u8
  else if f =? U16 then ReadCursor.read_u16
  else if f =? U32 then ReadCursor.read_u32
  else fail_at (DInvalidField "FieldType" "invalid field type").

End FieldType.

Record Header := mkHeader { cb_id : Z; sp : Z; cmd : Cmd }.

Definition HEADER_FIXED_PART_SIZE : Z := 1.
Definition Header_size : Z := HEADER_FIXED_PART_SIZE.

Definition Header_new (cb_id_val sp_val : Z) (c : Cmd) : Header :=
  mkHeader (FieldType.for_val cb_id_val) (FieldType.for_val sp_val) c.

Definition Header_encode (h : Header) : Encoder unit :=
  _ ← WriteCursor.ensure_size HEADER_FIXED_PART_SIZE;
  WriteCursor.write_u8
    (Z.lor (Z.lor (Z.shiftl (Cmd_as_u8 (cmd h)) 4) (Z.land (Z.shiftl (sp h) 2) 255)) (cb_id h)).

Definition Header_decode : Decoder Header :=
  _ ← ReadCursor.ensure_size Header_size;
  byte ← ReadCursor.read_u8;
  c ← lift (Cmd_try_from (Z.shiftr byte 4));
  let sp := Z.land (Z.shiftr byte 2) 3 in
  let cb_id := Z.land byte 3 in
  mret (mkHeader cb_id sp c).

(** ** Data *)

Record DataFirstPdu := mkDataFirst { df_header : Header; df_channel_id : Z; df_length : Z; df_data : list Z }.

Definition DataFirstPdu_new (channel_id total_length : Z) (data : list Z) : DataFirstPdu :=
  mkDataFirst (Header_new channel_id total_length CmdDataFirst) channel_id total_length data.

Definition DataFirstPdu_size (p : DataFirstPdu) : Z :=
  strict_sum [Header_size; FieldType.size_of_val (cb_id (df_header p));
    FieldType.size_of_val (sp (df_header p)); llen (df_data p)].

Definition DataFirstPdu_decode (header : Header) : Decoder DataFirstPdu :=
  fixed_part_size ← lift (checked_sum [FieldType.size_of_val (cb_id header); FieldType.size_of_val (sp header)]);
  _ ← ReadCursor.ensure_size fixed_part_size;
  channel_id ← FieldType.decode_val (cb_id header);
  length ← FieldType.decode_val (sp header);
  data ← ReadCursor.read_remaining;
  mret (mkDataFirst header channel_id length data).

Definition DataFirstPdu_encode (p : DataFirstPdu) : Encoder unit :=
  _ ← WriteCursor.ensure_size (DataFirstPdu_size p);
  _ ← Header_encode (df_header p);
  _ ← FieldType.encode_val (cb_id (df_header p)) (df_channel_id p);
  _ ← FieldType.encode_val (sp (df_header p)) (df_length p);
  WriteCursor.write_slice (df_data p).

Record DataPdu := mkData { d_header : Header; d_channel_id : Z; d_data : list Z }.

Definition DataPdu_new (channel_id : Z) (data : list Z) : DataPdu :=
  mkData (Header_new channel_id 0 CmdData) channel_id data.

Definition DataPdu_size (p : DataPdu) : Z :=
  strict_sum [Header_size; FieldType.size_of_val (cb_id (d_header p)); llen (d_data p)].

Definition DataPdu_decode (header : Header) : Decoder DataPdu :=
  _ ← ReadCursor.ensure_size (FieldType.size_of_val (cb_id header));
  channel_id ← FieldType.decode_val (cb_id header);
  data ← ReadCursor.read_remaining;
  mret (mkData header channel_id data).

Definition DataPdu_encode (p : DataPdu) : Encoder unit :=
  _ ← WriteCursor.ensure_size (DataPdu_size p);
  _ ← Header_encode (d_header p);
  _ ← FieldType.encode_val (cb_id (d_header p)) (d_channel_id p);
  WriteCursor.write_slice (d_data p).

(** [DrdynvcDataPdu] *)
Inductive DrdynvcDataPdu := DataFirst (p : DataFirstPdu) | Data (p : DataPdu).

Definition MAX_DATA_SIZE : Z := 1590.

Definition data_pdu_channel_id (p : DrdynvcDataPdu) : Z :=
  match p with DataFirst p => df_channel_id p | Data p => d_channel_id p end.

#[export] Instance DrdynvcDataPdu_Encode : Encode DrdynvcDataPdu := {
  encode_into p := match p with DataFirst p => DataFirstPdu_encode p | Data p => DataPdu_encode p end;
  size p := match p with DataFirst p => DataFirstPdu_size p | Data p => DataPdu_size p end;
}.

(** ** Creation and closing *)

Module CreationStatus.
Definition OK : Z := 0x00000000.
Definition NOT_FOUND : Z := 0xC0000225.
Definition NO_LISTENER : Z := 0xC0000001.
Definition size : Z := 4.
Definition encode (s : Z) : Encoder unit := _ ← WriteCursor.ensure_size size; WriteCursor.write_u32 s.
End CreationStatus.

Record CreateResponsePdu := mkCreateResponsePdu { cr_header : Header; cr_channel_id : Z; creation_status : Z }.

Definition CreateResponsePdu_new (channel_id status : Z) : CreateResponsePdu :=
  mkCreateResponsePdu (Header_new channel_id 0 CmdCreate) channel_id status.

Definition CreateResponsePdu_headerless_size (h : Header) : Z :=
  strict_sum [FieldType.size_of_val (cb_id h); CreationStatus.size].
Definition CreateResponsePdu_size (p : CreateResponsePdu) : Z :=
  strict_sum [Header_size; CreateResponsePdu_headerless_size (cr_header p)].

Definition CreateResponsePdu_decode (header : Header) : Decoder CreateResponsePdu :=
  _ ← ReadCursor.ensure_size (CreateResponsePdu_headerless_size header);
  channel_id ← FieldType.decode_val (cb_id header);
  status ← ReadCursor.read_u32;
  mret (mkCreateResponsePdu header channel_id status).

Definition CreateResponsePdu_encode (p : CreateResponsePdu) : Encoder unit :=
  _ ← WriteCursor.ensure_size (CreateResponsePdu_size p);
  _ ← Header_encode (cr_header p);
  _ ← FieldType.encode_val (cb_id (cr_header p)) (cr_channel_id p);
  CreationStatus.encode (creation_status p).

Record ClosePdu := mkClose { cl_header : Header; cl_channel_id : Z }.

Definition ClosePdu_new (channel_id : Z) : ClosePdu := mkClose (Header_new channel_id 0 CmdClose) channel_id.

Definition ClosePdu_headerless_size (h : Header) : Z := FieldType.size_of_val (cb_id h).
Definition ClosePdu_size (p : ClosePdu) : Z := strict_sum [Header_size; ClosePdu_headerless_size (cl_header p)].

Definition ClosePdu_decode (header : Header) : Decoder ClosePdu :=
  _ ← ReadCursor.ensure_size (ClosePdu_headerless_size header);
  channel_id ← FieldType.decode_val (cb_id header);
  mret (mkClose header channel_id).

Definition ClosePdu_encode (p : ClosePdu) : Encoder unit :=
  _ ← WriteCursor.ensure_size (ClosePdu_size p);
  _ ← Header_encode (cl_header p);
  FieldType.encode_val (cb_id (cl_header p)) (cl_channel_id p).

Record CreateRequestPdu := mkCreateRequestPdu { cq_header : Header; cq_channel_id : Z; channel_name : list Z }.

Definition CreateRequestPdu_new (channel_id : Z) (name : list Z) : CreateRequestPdu :=
  mkCreateRequestPdu (Header_new channel_id 0 CmdCreate) channel_id name.

Definition CreateRequestPdu_headerless_fixed_part_size (h : Header) : Z := FieldType.size_of_val (cb_id h).
Definition CreateRequestPdu_size (p : CreateRequestPdu) : Z :=
  strict_sum [Header_size; CreateRequestPdu_headerless_fixed_part_size (cq_header p);
    encoded_str_len (channel_name p) Ansi true].

Definition CreateRequestPdu_decode (header : Header) : Decoder CreateRequestPdu :=
  _ ← ReadCursor.ensure_size (CreateRequestPdu_headerless_fixed_part_size header);
  channel_id ← FieldType.decode_val (cb_id header);
  name ← read_string_from_cursor Ansi true;
  mret (mkCreateRequestPdu header channel_id name).

Definition CreateRequestPdu_encode (p : CreateRequestPdu) : Encoder unit :=
  _ ← WriteCursor.ensure_size (CreateRequestPdu_size p);
  _ ← Header_encode (cq_header p);
  _ ← FieldType.encode_val (cb_id (cq_header p)) (cq_channel_id p);
  write_string_to_cursor (channel_name p) Ansi true.

(** ** Capabilities *)

Inductive CapsVersion := CapsV1 | CapsV2 | CapsV3.
#[export] Instance CapsVersion_eq_dec : EqDecision CapsVersion.
Proof. solve_decision. Defined.

Definition CapsVersion_to_u16 (v : CapsVersion) : Z :=
  match v with CapsV1 => 0x0001 | CapsV2 => 0x0002 | CapsV3 => 0x0003 end.
Definition CapsVersion_try_from (value : Z) : outcome DecodeErrorKind CapsVersion :=
  if value =? 0x0001 then Ok CapsV1
  else if value =? 0x0002 then Ok CapsV2
  else if value =? 0x0003 then Ok CapsV3
  else Err (DInvalidField "CapsVersion" "invalid version" None).

Definition CAPS_VERSION_SIZE : Z := 2.
Definition CapsVersion_encode (v : CapsVersion) : Encoder unit :=
  _ ← WriteCursor.ensure_size CAPS_VERSION_SIZE; WriteCursor.write_u16 (CapsVersion_to_u16 v).

Record CapabilitiesResponsePdu := mkCapsResponse { cp_header : Header; cp_version : CapsVersion }.

Definition CapabilitiesResponsePdu_new (v : CapsVersion) : CapabilitiesResponsePdu :=
  mkCapsResponse (Header_new 0 0 CmdCapability) v.

Definition CAPS_RSP_HEADERLESS_SIZE : Z := 1 + CAPS_VERSION_SIZE.
Definition CapabilitiesResponsePdu_size : Z := HEADER_FIXED_PART_SIZE + CAPS_RSP_HEADERLESS_SIZE.

Definition CapabilitiesResponsePdu_decode (header : Header) : Decoder CapabilitiesResponsePdu :=
  _ ← ReadCursor.ensure_size CAPS_RSP_HEADERLESS_SIZE;
  _ ← ReadCursor.read_u8;
  v ← ReadCursor.read_u16;
  version ← lift (CapsVersion_try_from v);
  mret (mkCapsResponse header version).

Definition CapabilitiesResponsePdu_encode (p : CapabilitiesResponsePdu) : Encoder unit :=
  _ ← WriteCursor.ensure_size CapabilitiesResponsePdu_size;
  _ ← Header_encode (cp_header p);
  _ ← WriteCursor.write_u8 0x00;
  CapsVersion_encode (cp_version p).

Inductive CapabilitiesRequestPdu :=
| CapsRequestV1 (h : Header)
| CapsRequestV2 (h : Header) (charges : list Z)
| CapsRequestV3 (h : Header) (charges : list Z).

Definition PRIORITY_CHARGE_COUNT : nat := 4.
Definition PRIORITY_CHARGES_SIZE : Z := 8.
Definition CAPS_REQ_HEADERLESS_SIZE : Z := 3.

Definition CapabilitiesRequestPdu_new (v : CapsVersion) (charges : option (list Z)) : CapabilitiesRequestPdu :=
  let header := Header_new 0 0 CmdCapability in
  let charges := default (replicate PRIORITY_CHARGE_COUNT 0) charges in
  match v with
  | CapsV1 => CapsRequestV1 header
  | CapsV2 => CapsRequestV2 header charges
  | CapsV3 => CapsRequestV3 header charges
  end.

Definition CapabilitiesRequestPdu_size (p : CapabilitiesRequestPdu) : Z :=
  let fixed := HEADER_FIXED_PART_SIZE + CAPS_REQ_HEADERLESS_SIZE in
  match p with CapsRequestV1 _ => fixed | _ => fixed + PRIORITY_CHARGES_SIZE end.

Definition CapabilitiesRequestPdu_decode (header : Header) : Decoder CapabilitiesRequestPdu :=
  _ ← ReadCursor.ensure_size CAPS_REQ_HEADERLESS_SIZE;
  _ ← ReadCursor.read_u8;
  v ← ReadCursor.read_u16;
  version ← lift (CapsVersion_try_from v);
  match version with
  | CapsV1 => mret (CapsRequestV1 header)
  | _ =>
      _ ← ReadCursor.ensure_size PRIORITY_CHARGES_SIZE;
      charges ← repeat_m PRIORITY_CHARGE_COUNT ReadCursor.read_u16;
      mret (match version with CapsV3 => CapsRequestV3 header charges | _ => CapsRequestV2 header charges end)
  end.

Definition CapabilitiesRequestPdu_encode (p : CapabilitiesRequestPdu) : Encoder unit :=
  _ ← WriteCursor.ensure_size (CapabilitiesRequestPdu_size p);
  _ ← Header_encode (match p with CapsRequestV1 h | CapsRequestV2 h _ | CapsRequestV3 h _ => h end);
  _ ← WriteCursor.write_u8 0x00;
  _ ← WriteCursor.write_u16
        (CapsVersion_to_u16 (match p with CapsRequestV1 _ => CapsV1 | CapsRequestV2 _ _ => CapsV2 | CapsRequestV3 _ _ => CapsV3 end));
  match p with
  | CapsRequestV1 _ => mret tt
  | CapsRequestV2 _ charges | CapsRequestV3 _ charges => iter_m WriteCursor.write_u16 charges
  end.

(** ** Soft-Sync *)

(** A [SoftSyncTunnelType] is its [u32]. *)
Definition RELIABLE_UDP : Z := 0x00000001.
Definition LOSSY_UDP : Z := 0x00000003.

Record SoftSyncChannelList := mkChannelList { tunnel_type : Z; channel_ids : list Z }.

Definition CHANNEL_LIST_FIXED_PART_SIZE : Z := 6.
Definition SoftSyncChannelList_size (l : SoftSyncChannelList) : Z :=
  CHANNEL_LIST_FIXED_PART_SIZE + llen (channel_ids l) * 4.

Definition SoftSyncChannelList_encode (l : SoftSyncChannelList) : Encoder unit :=
  _ ← WriteCursor.write_u32 (tunnel_type l);
  n ← lift (cast_length "NumberOfDVCs" 65535 (llen (channel_ids l)));
  _ ← WriteCursor.write_u16 n;
  iter_m WriteCursor.write_u32 (channel_ids l).

Definition SoftSyncChannelList_decode : Decoder SoftSyncChannelList :=
  _ ← ReadCursor.ensure_size CHANNEL_LIST_FIXED_PART_SIZE;
  tunnel_type ← ReadCursor.read_u32;
  number_of_dvcs ← ReadCursor.read_u16;
  _ ← ReadCursor.ensure_size (number_of_dvcs * 4);
  channel_ids ← repeat_m (Z.to_nat number_of_dvcs) ReadCursor.read_u32;
  mret (mkChannelList tunnel_type channel_ids).

(** Adds every element to the set; [None] at one that is there already. *)
Fixpoint insert_all (xs : list Z) (s : gset Z) : option (gset Z) :=
  match xs with
  | [] => Some s
  | x :: xs' => if bool_decide (x ∈ s) then None else insert_all xs' ({[x]} ∪ s)
  end.

(** The checks on one channel list, with the tunnel types and channel IDs seen
    so far; [inl] names the field that repeats. *)
Definition note_list (l : SoftSyncChannelList) (types ids : gset Z) : string * string + gset Z * gset Z :=
  if bool_decide (tunnel_type l ∈ types) then inl ("TunnelType", "appears in more than one channel list")
  else
    match insert_all (channel_ids l) ids with
    | None => inl ("ListOfDVCIds", "channel ID appears in more than one channel list")
    | Some ids' => inr ({[tunnel_type l]} ∪ types, ids')
    end.

Record SoftSyncRequestPdu := mkSoftSyncRequest { channel_lists : list SoftSyncChannelList }.

Definition TCP_FLUSHED : Z := 0x0001.
Definition CHANNEL_LIST_PRESENT : Z := 0x0002.
Definition SOFT_SYNC_LENGTH_FIXED_PART_SIZE : Z := 8.
Definition SOFT_SYNC_REQUEST_FIXED_PART_SIZE : Z := HEADER_FIXED_PART_SIZE + 1 + SOFT_SYNC_LENGTH_FIXED_PART_SIZE.

Definition SoftSyncRequestPdu_flags (p : SoftSyncRequestPdu) : Z :=
  Z.lor TCP_FLUSHED (match channel_lists p with [] => 0 | _ => CHANNEL_LIST_PRESENT end).

Fixpoint validate_lists (lists : list SoftSyncChannelList) (types ids : gset Z) : outcome EncodeErrorKind unit :=
  match lists with
  | [] => Ok tt
  | l :: lists' =>
      _ ← cast_length "NumberOfDVCs" 65535 (llen (channel_ids l));
      match note_list l types ids with
      | inl (field, reason) => Err (EInvalidField field reason None)
      | inr (types', ids') => validate_lists lists' types' ids'
      end
  end.

Definition SoftSyncRequestPdu_validate (p : SoftSyncRequestPdu) : outcome EncodeErrorKind unit :=
  _ ← cast_length "NumberOfTunnels" 65535 (llen (channel_lists p));
  validate_lists (channel_lists p) ∅ ∅.

Definition SoftSyncRequestPdu_length (p : SoftSyncRequestPdu) : Z :=
  SOFT_SYNC_LENGTH_FIXED_PART_SIZE + foldr Z.add 0 (SoftSyncChannelList_size <$> channel_lists p).
Definition SoftSyncRequestPdu_size (p : SoftSyncRequestPdu) : Z :=
  HEADER_FIXED_PART_SIZE + 1 + SoftSyncRequestPdu_length p.

Fixpoint decode_channel_lists (n : nat) (types ids : gset Z) : Decoder (list SoftSyncChannelList) :=
  match n with
  | O => mret []
  | S n' =>
      l ← SoftSyncChannelList_decode;
      match note_list l types ids with
      | inl (field, reason) => fail (DInvalidField field reason None)
      | inr (types', ids') =>
          lists ← decode_channel_lists n' types' ids';
          mret (l :: lists)
      end
  end.

Definition SoftSyncRequestPdu_decode (header : Header) : Decoder SoftSyncRequestPdu :=
  if negb (cb_id header =? FieldType.U8) || negb (sp header =? FieldType.U8)
  then fail (DInvalidField "Header" "cbId and Sp must be zero" None)
  else
    _ ← ReadCursor.ensure_size (SOFT_SYNC_REQUEST_FIXED_PART_SIZE - HEADER_FIXED_PART_SIZE);
    headerless_size ← gets ReadCursor.len;
    pad ← ReadCursor.read_u8;
    if negb (pad =? 0) then fail (DInvalidField "Pad" "must be zero" None)
    else
      length ← ReadCursor.read_u32;
      if negb (length =? headerless_size - 1)
      then fail (DInvalidField "Length" "does not match the bytes following the pad field" None)
      else
        flags ← ReadCursor.read_u16;
        if Z.land flags TCP_FLUSHED =? 0
        then fail (DInvalidField "Flags" "SOFT_SYNC_TCP_FLUSHED must be set" None)
        else
          number_of_tunnels ← ReadCursor.read_u16;
          remaining ← gets ReadCursor.len;
          if remaining / CHANNEL_LIST_FIXED_PART_SIZE <? number_of_tunnels
          then fail (DInvalidField "NumberOfTunnels" "does not fit in the remaining bytes" None)
          else
            lists ← decode_channel_lists (Z.to_nat number_of_tunnels) ∅ ∅;
            at_end ← gets ReadCursor.is_empty;
            if negb at_end then fail (DInvalidField "Length" "contains trailing bytes" None)
            else mret (mkSoftSyncRequest lists).

Definition SoftSyncRequestPdu_encode (p : SoftSyncRequestPdu) : Encoder unit :=
  _ ← lift (SoftSyncRequestPdu_validate p);
  _ ← WriteCursor.ensure_size (SoftSyncRequestPdu_size p);
  _ ← Header_encode (Header_new 0 0 CmdSoftSyncRequest);
  _ ← WriteCursor.write_u8 0;
  length ← lift (cast_length "Length" 4294967295 (SoftSyncRequestPdu_length p));
  _ ← WriteCursor.write_u32 length;
  _ ← WriteCursor.write_u16 (SoftSyncRequestPdu_flags p);
  n ← lift (cast_length "NumberOfTunnels" 65535 (llen (channel_lists p)));
  _ ← WriteCursor.write_u16 n;
  iter_m SoftSyncChannelList_encode (channel_lists p).

Record SoftSyncResponsePdu := mkSoftSyncResponse { tunnels_to_switch : list Z }.

Definition SOFT_SYNC_RESPONSE_FIXED_PART_SIZE : Z := HEADER_FIXED_PART_SIZE + 1 + 4.
Definition SoftSyncResponsePdu_size (p : SoftSyncResponsePdu) : Z :=
  SOFT_SYNC_RESPONSE_FIXED_PART_SIZE + llen (tunnels_to_switch p) * 4.

Definition SoftSyncResponsePdu_validate (p : SoftSyncResponsePdu) : outcome EncodeErrorKind unit :=
  _ ← cast_length "NumberOfTunnels" 4294967295 (llen (tunnels_to_switch p));
  match insert_all (tunnels_to_switch p) ∅ with
  | None => Err (EInvalidField "TunnelsToSwitch" "contains a duplicate tunnel type" None)
  | Some _ => Ok tt
  end.

Fixpoint decode_tunnels (n : nat) (seen : gset Z) : Decoder (list Z) :=
  match n with
  | O => mret []
  | S n' =>
      tunnel ← ReadCursor.read_u32;
      if bool_decide (tunnel ∈ seen) then fail (DInvalidField "TunnelsToSwitch" "contains a duplicate tunnel type" None)
      else
        tunnels ← decode_tunnels n' ({[tunnel]} ∪ seen);
        mret (tunnel :: tunnels)
  end.

Definition SoftSyncResponsePdu_decode (header : Header) : Decoder SoftSyncResponsePdu :=
  if negb (cb_id header =? FieldType.U8) || negb (sp header =? FieldType.U8)
  then fail (DInvalidField "Header" "cbId and Sp must be zero" None)
  else
    _ ← ReadCursor.ensure_size (SOFT_SYNC_RESPONSE_FIXED_PART_SIZE - HEADER_FIXED_PART_SIZE);
    pad ← ReadCursor.read_u8;
    if negb (pad =? 0) then fail (DInvalidField "Pad" "must be zero" None)
    else
      number_of_tunnels ← ReadCursor.read_u32;
      remaining ← gets ReadCursor.len;
      if remaining / 4 <? number_of_tunnels
      then fail (DInvalidField "NumberOfTunnels" "does not fit in the remaining bytes" None)
      else
        tunnels ← decode_tunnels (Z.to_nat number_of_tunnels) ∅;
        at_end ← gets ReadCursor.is_empty;
        if negb at_end then fail (DInvalidField "NumberOfTunnels" "does not match the remaining bytes" None)
        else mret (mkSoftSyncResponse tunnels).

Definition SoftSyncResponsePdu_encode (p : SoftSyncResponsePdu) : Encoder unit :=
  _ ← lift (SoftSyncResponsePdu_validate p);
  _ ← WriteCursor.ensure_size (SoftSyncResponsePdu_size p);
  _ ← Header_encode (Header_new 0 0 CmdSoftSyncResponse);
  _ ← WriteCursor.write_u8 0;
  n ← lift (cast_length "NumberOfTunnels" 4294967295 (llen (tunnels_to_switch p)));
  _ ← WriteCursor.write_u32 n;
  iter_m WriteCursor.write_u32 (tunnels_to_switch p).

(** ** What each side sends *)

Inductive DrdynvcClientPdu :=
| ClientCapabilities (p : CapabilitiesResponsePdu)
| ClientCreate (p : CreateResponsePdu)
| ClientClose (p : ClosePdu)
| ClientData (p : DrdynvcDataPdu)
| ClientSoftSyncResponse (p : SoftSyncResponsePdu).

Definition DrdynvcClientPdu_decode : Decoder DrdynvcClientPdu :=
  header ← Header_decode;
  match cmd header with
  | CmdCreate => p ← CreateResponsePdu_decode header; mret (ClientCreate p)
  | CmdDataFirst => p ← DataFirstPdu_decode header; mret (ClientData (DataFirst p))
  | CmdData => p ← DataPdu_decode header; mret (ClientData (Data p))
  | CmdClose => p ← ClosePdu_decode header; mret (ClientClose p)
  | CmdCapability => p ← CapabilitiesResponsePdu_decode header; mret (ClientCapabilities p)
  | CmdSoftSyncResponse => p ← SoftSyncResponsePdu_decode header; mret (ClientSoftSyncResponse p)
  | c => fail_at (DUnsupportedValue "Cmd" (Cmd_debug c))
  end.

#[export] Instance DrdynvcClientPdu_Encode : Encode DrdynvcClientPdu := {
  encode_into p :=
    match p with
    | ClientCapabilities p => CapabilitiesResponsePdu_encode p
    | ClientCreate p => CreateResponsePdu_encode p
    | ClientData p => encode_into p
    | ClientClose p => ClosePdu_encode p
    | ClientSoftSyncResponse p => SoftSyncResponsePdu_encode p
    end;
  size p :=
    match p with
    | ClientCapabilities _ => CapabilitiesResponsePdu_size
    | ClientCreate p => CreateResponsePdu_size p
    | ClientData p => size p
    | ClientClose p => ClosePdu_size p
    | ClientSoftSyncResponse p => SoftSyncResponsePdu_size p
    end;
}.
#[export] Instance DrdynvcClientPdu_Decode : Decode DrdynvcClientPdu := { decode_from := DrdynvcClientPdu_decode }.

Inductive DrdynvcServerPdu :=
| ServerCapabilities (p : CapabilitiesRequestPdu)
| ServerCreate (p : CreateRequestPdu)
| ServerClose (p : ClosePdu)
| ServerData (p : DrdynvcDataPdu)
| ServerSoftSyncRequest (p : SoftSyncRequestPdu).

Definition DrdynvcServerPdu_decode : Decoder DrdynvcServerPdu :=
  header ← Header_decode;
  match cmd header with
  | CmdCreate => p ← CreateRequestPdu_decode header; mret (ServerCreate p)
  | CmdDataFirst => p ← DataFirstPdu_decode header; mret (ServerData (DataFirst p))
  | CmdData => p ← DataPdu_decode header; mret (ServerData (Data p))
  | CmdClose => p ← ClosePdu_decode header; mret (ServerClose p)
  | CmdCapability => p ← CapabilitiesRequestPdu_decode header; mret (ServerCapabilities p)
  | CmdSoftSyncRequest => p ← SoftSyncRequestPdu_decode header; mret (ServerSoftSyncRequest p)
  | c => fail_at (DUnsupportedValue "Cmd" (Cmd_debug c))
  end.

#[export] Instance DrdynvcServerPdu_Encode : Encode DrdynvcServerPdu := {
  encode_into p :=
    match p with
    | ServerData p => encode_into p
    | ServerCapabilities p => CapabilitiesRequestPdu_encode p
    | ServerCreate p => CreateRequestPdu_encode p
    | ServerClose p => ClosePdu_encode p
    | ServerSoftSyncRequest p => SoftSyncRequestPdu_encode p
    end;
  size p :=
    match p with
    | ServerData p => size p
    | ServerCapabilities p => CapabilitiesRequestPdu_size p
    | ServerCreate p => CreateRequestPdu_size p
    | ServerClose p => ClosePdu_size p
    | ServerSoftSyncRequest p => SoftSyncRequestPdu_size p
    end;
}.
#[export] Instance DrdynvcServerPdu_Decode : Decode DrdynvcServerPdu := { decode_from := DrdynvcServerPdu_decode }.
