(* ===== verification/DvcCodec.v ===== *)
(** What the dynamic channel PDUs promise: every well-formed PDU of either
    side is encoded in exactly its size and read back unchanged, and the
    decoders survive every input and produce only well-formed PDUs. *)

From S2P Require Import Prelude Cursor Codec PduText DvcWire.

(** ** Repeated fields of a fixed width *)

Lemma safe_repeat_width {A} (w n : Z) k (d : Decoder A) P :
  0 <= w -> 0 <= n -> (forall m, 0 <= m -> safe (m + w) d m P) ->
  safe (n + w * Z.of_nat k) (repeat_m k d) n (fun l => length l = k /\ Forall P l).
Proof.
  intros Hw Hn Hd. induction k as [|k IH]; cbn [repeat_m].
  { replace (n + w * Z.of_nat 0) with n by lia. apply safe_ret. done. }
  eapply safe_bind; [replace (n + w * Z.of_nat (S k)) with (n + w * Z.of_nat k + w) by lia; apply Hd; nia|].
  intros a Ha. eapply safe_bind; [exact IH|]. intros l [Hl Hf]. apply safe_ret. split; [cbn; lia|by constructor].
Qed.

Lemma len_read_u32 (c : ReadCursor.t) (a : Z) c' :
  (ReadCursor.read_u32 : Decoder Z) c = Ok (a, c') -> ReadCursor.len c' = ReadCursor.len c - 4.
Proof.
  intros (bs & c1 & [Hl _]%len_read_slice & H)%bind_ok_inv. injection H as _ <-. lia.
Qed.
Lemma len_read_u16 (c : ReadCursor.t) (a : Z) c' :
  (ReadCursor.read_u16 : Decoder Z) c = Ok (a, c') -> ReadCursor.len c' = ReadCursor.len c - 2.
Proof.
  intros (bs & c1 & [Hl _]%len_read_slice & H)%bind_ok_inv. injection H as _ <-. lia.
Qed.

Lemma len_repeat_u32 k c l c' :
  (repeat_m k ReadCursor.read_u32 : Decoder _) c = Ok (l, c') ->
  ReadCursor.len c' = ReadCursor.len c - 4 * Z.of_nat k.
Proof.
  revert c l c'. induction k as [|k IH]; intros c l c'; cbn [repeat_m]; [intros [= _ <-]; lia|].
  intros (a & c1 & H1%len_read_u32 & H)%bind_ok_inv. apply bind_ok_inv in H as (l' & c2 & H2%IH & H).
  injection H as _ <-. lia.
Qed.

(** ** Integer fields of a variable width *)

Definition field_ok (f v : Z) : Prop :=
  (f = FieldType.U8 /\ is_u8 v) \/ (f = FieldType.U16 /\ is_u16 v) \/ (f = FieldType.U32 /\ is_u32 v).
Definition field_wire (f v : Z) : list Z := to_le_bytes (Z.to_nat (FieldType.size_of_val f)) v.

Lemma llen_field_wire f v : llen (field_wire f v) = FieldType.size_of_val f.
Proof. unfold field_wire, llen. rewrite length_to_le_bytes. unfold FieldType.size_of_val. by repeat case_match. Qed.

Lemma size_of_val_nonneg f : 0 <= FieldType.size_of_val f.
Proof. rewrite <- (llen_field_wire f 0). apply llen_nonneg. Qed.

Lemma field_ok_u32 f v : field_ok f v -> is_u32 v.
Proof. intros [[_ ?]|[[_ ?]|[_ ?]]]; width. Qed.

Lemma for_val_ok v : is_u32 v -> field_ok (FieldType.for_val v) v.
Proof. intros Hv. unfold FieldType.for_val, field_ok. zcase; [left|right; left|right; right]; (split; [done|width]). Qed.

Lemma for_val_range v : 0 <= FieldType.for_val v < 4.
Proof. unfold FieldType.for_val. by zcase. Qed.

Lemma encodes_field f v : field_ok f v -> encodes (FieldType.encode_val f v) (field_wire f v).
Proof.
  intros [[-> Hv]|[[-> Hv]|[-> Hv]]]; unfold FieldType.encode_val;
    (apply encodes_ensure; [by rewrite llen_field_wire|]).
  - cbn [Z.eqb FieldType.U8]. rewrite (proj2 (Z.ltb_lt _ _)) by width. apply encodes_write_slice.
  - cbn [Z.eqb FieldType.U8 FieldType.U16]. rewrite (proj2 (Z.ltb_lt _ _)) by width. apply encodes_write_slice.
  - apply encodes_write_slice.
Qed.

Lemma decodes_field f v : field_ok f v -> decodes (FieldType.decode_val f) (field_wire f v) v.
Proof.
  intros [[-> Hv]|[[-> Hv]|[-> Hv]]]; unfold FieldType.decode_val;
    (apply decodes_ensure; [by rewrite llen_field_wire|]).
  - change (field_wire FieldType.U8 v) with [v mod 256]. rewrite Z.mod_small by done. by apply decodes_u8.
  - by apply decodes_u16.
  - by apply decodes_u32.
Qed.

Lemma safe_field n f : 0 <= n -> safe (n + FieldType.size_of_val f) (FieldType.decode_val f) n (field_ok f).
Proof.
  intros Hn. unfold FieldType.decode_val. eapply safe_bind; [apply safe_ensure|]. intros _ _.
  rewrite Z.max_l by lia. unfold FieldType.size_of_val.
  destruct (Z.eqb_spec f FieldType.U8) as [->|H0]; [|destruct (Z.eqb_spec f FieldType.U16) as [->|H1];
    [|destruct (Z.eqb_spec f FieldType.U32) as [->|H2]; [|apply safe_fail_at]]].
  - eapply safe_weaken; [by apply (safe_u8 n)|lia|lia|]. intros v Hv. by left.
  - eapply safe_weaken; [by apply (safe_u16 n)|lia|lia|]. intros v Hv. right; by left.
  - eapply safe_weaken; [by apply (safe_u32 n)|lia|lia|]. intros v Hv. by right; right.
Qed.

(** The length of a wire form and the size the source computes. *)
Ltac wire_length :=
  rewrite ?llen_app, ?llen_cons, ?llen_field_wire, ?llen_nil;
  unfold strict_sum, Header_size, HEADER_FIXED_PART_SIZE; cbn [foldr]; lia.

(** ** The header *)

Definition header_ok (c : Cmd) (h : Header) : Prop := cmd h = c /\ 0 <= cb_id h < 4 /\ 0 <= sp h < 4.
Definition header_byte (h : Header) : Z := Cmd_as_u8 (cmd h) * 16 + sp h * 4 + cb_id h.

Lemma four_cases x : 0 <= x < 4 -> x = 0 \/ x = 1 \/ x = 2 \/ x = 3.
Proof. lia. Qed.

(** Every header is one of finitely many. *)
Ltac each_header h :=
  let Hc := fresh in let H1 := fresh in let H2 := fresh in
  intros (Hc & H1 & H2); destruct h as [cb_id_ sp_ cmd_]; cbn [cb_id sp cmd] in *;
  apply four_cases in H1 as [->|[->|[->| ->]]]; apply four_cases in H2 as [->|[->|[->| ->]]]; destruct cmd_.

Lemma header_byte_range c h : header_ok c h -> is_u8 (header_byte h).
Proof. unfold header_byte. each_header h; done. Qed.

Lemma encodes_header c h : header_ok c h -> encodes (Header_encode h) [header_byte h].
Proof.
  intros Hh. unfold Header_encode. apply encodes_ensure; [done|].
  replace (Z.lor _ _) with (header_byte h) by (revert Hh; unfold header_byte; each_header h; done).
  by apply encodes_u8, (header_byte_range c).
Qed.

Lemma decodes_header c h : header_ok c h -> decodes Header_decode [header_byte h] h.
Proof.
  intros Hh. assert (Hb : Cmd_try_from (Z.shiftr (header_byte h) 4) = Ok (cmd h) /\
    mkHeader (Z.land (header_byte h) 3) (Z.land (Z.shiftr (header_byte h) 2) 3) (cmd h) = h)
    by (revert Hh; unfold header_byte; each_header h; done).
  destruct Hb as [Hcmd Hsame]. unfold Header_decode. apply decodes_ensure; [done|].
  eapply decodes_last; [by apply decodes_u8, (header_byte_range c)|].
  eapply decodes_bind_nil; [by apply decodes_lift|]. cbv zeta. rewrite Hsame. apply decodes_ret.
Qed.

Lemma Cmd_try_from_total b : no_panic (Cmd_try_from b).
Proof. unfold Cmd_try_from. by repeat case_match. Qed.

Lemma safe_header : safe 0 Header_decode 0 (fun h => header_ok (cmd h) h).
Proof.
  eapply safe_bind; [apply (safe_ensure 0)|]. intros _ _. cbn [Z.max Header_size HEADER_FIXED_PART_SIZE].
  eapply safe_bind; [apply (safe_u8 0); lia|]. intros b Hb.
  eapply safe_bind; [apply safe_lift, Cmd_try_from_total|]. intros c _. apply safe_ret. cbn.
  split; [done|]. split; cbn; change 3 with (Z.ones 2); rewrite Z.land_ones by lia; apply Z.mod_pos_bound; lia.
Qed.

Lemma header_new_ok c id v : header_ok c (Header_new id v c).
Proof. split; [done|]. split; apply for_val_range. Qed.

(** ** Data *)

Definition DataFirst_wf (p : DataFirstPdu) : Prop :=
  header_ok CmdDataFirst (df_header p) /\ field_ok (cb_id (df_header p)) (df_channel_id p) /\
  field_ok (sp (df_header p)) (df_length p) /\ bytes_ok (df_data p).
Definition DataFirst_wire (p : DataFirstPdu) : list Z :=
  [header_byte (df_header p)] ++ field_wire (cb_id (df_header p)) (df_channel_id p) ++
  field_wire (sp (df_header p)) (df_length p) ++ df_data p.

Definition Data_wf (p : DataPdu) : Prop :=
  header_ok CmdData (d_header p) /\ field_ok (cb_id (d_header p)) (d_channel_id p) /\ bytes_ok (d_data p).
Definition Data_wire (p : DataPdu) : list Z :=
  [header_byte (d_header p)] ++ field_wire (cb_id (d_header p)) (d_channel_id p) ++ d_data p.

Lemma llen_DataFirst_wire p : llen (DataFirst_wire p) = DataFirstPdu_size p.
Proof. unfold DataFirst_wire, DataFirstPdu_size, strict_sum. wire_length. Qed.

Lemma llen_Data_wire p : llen (Data_wire p) = DataPdu_size p.
Proof. unfold Data_wire, DataPdu_size, strict_sum. wire_length. Qed.

Lemma encodes_DataFirst p : DataFirst_wf p -> encodes (DataFirstPdu_encode p) (DataFirst_wire p).
Proof.
  intros (Hh & Hc & Hl & _). unfold DataFirstPdu_encode. apply encodes_ensure; [by rewrite llen_DataFirst_wire|].
  apply encodes_bind; [by eapply encodes_header|]. apply encodes_bind; [by apply encodes_field|].
  apply encodes_bind; [by apply encodes_field|apply encodes_write_slice].
Qed.

Lemma encodes_Data p : Data_wf p -> encodes (DataPdu_encode p) (Data_wire p).
Proof.
  intros (Hh & Hc & _). unfold DataPdu_encode. apply encodes_ensure; [by rewrite llen_Data_wire|].
  apply encodes_bind; [by eapply encodes_header|]. apply encodes_bind; [by apply encodes_field|apply encodes_write_slice].
Qed.

Lemma field_sizes_sum f g : checked_sum [FieldType.size_of_val f; FieldType.size_of_val g] =
  Ok (FieldType.size_of_val f + FieldType.size_of_val g).
Proof.
  unfold checked_sum, strict_sum. cbn [foldr]. rewrite Z.add_0_r, (proj2 (Z.leb_le _ _)); [done|].
  unfold FieldType.size_of_val, U64_MAX. by repeat case_match.
Qed.

Lemma decodes_DataFirst p :
  DataFirst_wf p ->
  decodes_end (DataFirstPdu_decode (df_header p))
    (field_wire (cb_id (df_header p)) (df_channel_id p) ++ field_wire (sp (df_header p)) (df_length p) ++ df_data p) p.
Proof.
  intros (_ & Hc & Hl & _). unfold DataFirstPdu_decode. rewrite field_sizes_sum.
  refine (decodes_bind_end (lift (Ok _)) _ [] _ _ _ (decodes_lift _ _ eq_refl) _).
  apply decodes_ensure_end; [rewrite !llen_app, !llen_field_wire; pose proof (llen_nonneg (df_data p)); lia|].
  eapply decodes_bind_end; [by apply decodes_field|]. eapply decodes_bind_end; [by apply decodes_field|].
  intros pre. unfold mbind, M_bind. rewrite decodes_read_remaining. by destruct p.
Qed.

Lemma decodes_Data p :
  Data_wf p ->
  decodes_end (DataPdu_decode (d_header p)) (field_wire (cb_id (d_header p)) (d_channel_id p) ++ d_data p) p.
Proof.
  intros (_ & Hc & _). unfold DataPdu_decode.
  apply decodes_ensure_end; [rewrite !llen_app, !llen_field_wire; pose proof (llen_nonneg (d_data p)); lia|].
  eapply decodes_bind_end; [by apply decodes_field|].
  intros pre. unfold mbind, M_bind. rewrite decodes_read_remaining. by destruct p.
Qed.

Lemma safe_DataFirst h : header_ok CmdDataFirst h -> safe 0 (DataFirstPdu_decode h) 0 DataFirst_wf.
Proof.
  intros Hh. unfold DataFirstPdu_decode. rewrite field_sizes_sum.
  eapply safe_bind; [by apply safe_lift|]. intros n [= <-].
  eapply safe_bind; [apply safe_ensure|]. intros _ _.
  pose proof (size_of_val_nonneg (cb_id h)). pose proof (size_of_val_nonneg (sp h)).
  eapply safe_bind; [eapply safe_weaken; [apply (safe_field (FieldType.size_of_val (sp h)) (cb_id h)); lia|lia|reflexivity|done]|].
  intros id Hid. eapply safe_bind; [eapply safe_weaken; [apply (safe_field 0 (sp h)); lia|lia|reflexivity|done]|].
  intros len Hlen. eapply safe_bind; [apply safe_remaining|]. intros bs Hbs. apply safe_ret. by split_and!.
Qed.

Lemma safe_Data h : header_ok CmdData h -> safe 0 (DataPdu_decode h) 0 Data_wf.
Proof.
  intros Hh. eapply safe_bind; [apply safe_ensure|]. intros _ _. pose proof (size_of_val_nonneg (cb_id h)).
  eapply safe_bind; [eapply safe_weaken; [apply (safe_field 0 (cb_id h)); lia|lia|reflexivity|done]|].
  intros id Hid. eapply safe_bind; [apply safe_remaining|]. intros bs Hbs. apply safe_ret. by split_and!.
Qed.

Definition DataPdu_wf (p : DrdynvcDataPdu) : Prop :=
  match p with DataFirst p => DataFirst_wf p | Data p => Data_wf p end.
Definition DataPdu_wire (p : DrdynvcDataPdu) : list Z :=
  match p with DataFirst p => DataFirst_wire p | Data p => Data_wire p end.

Lemma encodes_DataPdu (p : DrdynvcDataPdu) : DataPdu_wf p -> encodes (encode_into p) (DataPdu_wire p).
Proof. destruct p; [apply encodes_DataFirst|apply encodes_Data]. Qed.
Lemma size_DataPdu (p : DrdynvcDataPdu) : size p = llen (DataPdu_wire p).
Proof. destruct p; symmetry; [apply llen_DataFirst_wire|apply llen_Data_wire]. Qed.

(** ** Creation and closing *)

Definition CreateResponse_wf (p : CreateResponsePdu) : Prop :=
  header_ok CmdCreate (cr_header p) /\ field_ok (cb_id (cr_header p)) (cr_channel_id p) /\ is_u32 (creation_status p).
Definition CreateResponse_wire (p : CreateResponsePdu) : list Z :=
  [header_byte (cr_header p)] ++ field_wire (cb_id (cr_header p)) (cr_channel_id p) ++ to_le_bytes 4 (creation_status p).

Lemma llen_le4 x : llen (to_le_bytes 4 x) = 4.
Proof. unfold llen. by rewrite length_to_le_bytes. Qed.
Lemma llen_le2 x : llen (to_le_bytes 2 x) = 2.
Proof. unfold llen. by rewrite length_to_le_bytes. Qed.

Lemma llen_CreateResponse_wire p : llen (CreateResponse_wire p) = CreateResponsePdu_size p.
Proof.
  unfold CreateResponse_wire, CreateResponsePdu_size, CreateResponsePdu_headerless_size, CreationStatus.size.
  rewrite !llen_app, llen_le4. wire_length.
Qed.

Lemma encodes_CreateResponse p : CreateResponse_wf p -> encodes (CreateResponsePdu_encode p) (CreateResponse_wire p).
Proof.
  intros (Hh & Hc & Hs). unfold CreateResponsePdu_encode. apply encodes_ensure; [by rewrite llen_CreateResponse_wire|].
  apply encodes_bind; [by eapply encodes_header|]. apply encodes_bind; [by apply encodes_field|].
  apply encodes_ensure; [done|apply encodes_u32].
Qed.

Lemma decodes_CreateResponse p :
  CreateResponse_wf p ->
  decodes (CreateResponsePdu_decode (cr_header p))
    (field_wire (cb_id (cr_header p)) (cr_channel_id p) ++ to_le_bytes 4 (creation_status p)) p.
Proof.
  intros (_ & Hc & Hs). unfold CreateResponsePdu_decode, CreateResponsePdu_headerless_size, CreationStatus.size.
  apply decodes_ensure; [rewrite llen_app, llen_le4; wire_length|].
  eapply decodes_bind; [by apply decodes_field|]. eapply decodes_last; [by apply decodes_u32|].
  destruct p. apply decodes_ret.
Qed.

Lemma safe_CreateResponse h : header_ok CmdCreate h -> safe 0 (CreateResponsePdu_decode h) 0 CreateResponse_wf.
Proof.
  intros Hh. eapply safe_bind; [apply safe_ensure|]. intros _ _. unfold CreateResponsePdu_headerless_size, strict_sum, CreationStatus.size.
  cbn [foldr]. pose proof (size_of_val_nonneg (cb_id h)).
  eapply safe_bind; [eapply safe_weaken; [apply (safe_field 4 (cb_id h)); lia|lia|reflexivity|done]|].
  intros id Hid. eapply safe_bind; [apply (safe_u32 0); lia|]. intros st Hst. apply safe_ret. by split_and!.
Qed.

Definition Close_wf (p : ClosePdu) : Prop :=
  header_ok CmdClose (cl_header p) /\ field_ok (cb_id (cl_header p)) (cl_channel_id p).
Definition Close_wire (p : ClosePdu) : list Z :=
  [header_byte (cl_header p)] ++ field_wire (cb_id (cl_header p)) (cl_channel_id p).

Lemma llen_Close_wire p : llen (Close_wire p) = ClosePdu_size p.
Proof. unfold Close_wire, ClosePdu_size, ClosePdu_headerless_size. wire_length. Qed.

Lemma encodes_Close p : Close_wf p -> encodes (ClosePdu_encode p) (Close_wire p).
Proof.
  intros (Hh & Hc). unfold ClosePdu_encode. apply encodes_ensure; [by rewrite llen_Close_wire|].
  apply encodes_bind; [by eapply encodes_header|by apply encodes_field].
Qed.

Lemma decodes_Close p :
  Close_wf p -> decodes (ClosePdu_decode (cl_header p)) (field_wire (cb_id (cl_header p)) (cl_channel_id p)) p.
Proof.
  intros (_ & Hc). unfold ClosePdu_decode, ClosePdu_headerless_size. apply decodes_ensure; [by rewrite llen_field_wire|].
  eapply decodes_last; [by apply decodes_field|]. destruct p. apply decodes_ret.
Qed.

Lemma safe_Close h : header_ok CmdClose h -> safe 0 (ClosePdu_decode h) 0 Close_wf.
Proof.
  intros Hh. eapply safe_bind; [apply safe_ensure|]. intros _ _. unfold ClosePdu_headerless_size.
  pose proof (size_of_val_nonneg (cb_id h)).
  eapply safe_bind; [eapply safe_weaken; [apply (safe_field 0 (cb_id h)); lia|lia|reflexivity|done]|].
  intros id Hid. by apply safe_ret.
Qed.

Definition CreateRequest_wf (p : CreateRequestPdu) : Prop :=
  header_ok CmdCreate (cq_header p) /\ field_ok (cb_id (cq_header p)) (cq_channel_id p) /\ string_ok (channel_name p).
Definition CreateRequest_wire (p : CreateRequestPdu) : list Z :=
  [header_byte (cq_header p)] ++ field_wire (cb_id (cq_header p)) (cq_channel_id p) ++ string_wire Ansi (channel_name p).

Lemma llen_CreateRequest_wire p : llen (CreateRequest_wire p) = CreateRequestPdu_size p.
Proof.
  unfold CreateRequest_wire, CreateRequestPdu_size, CreateRequestPdu_headerless_fixed_part_size.
  rewrite !llen_app, llen_string_wire. wire_length.
Qed.

Lemma encodes_CreateRequest p : CreateRequest_wf p -> encodes (CreateRequestPdu_encode p) (CreateRequest_wire p).
Proof.
  intros (Hh & Hc & Hs). unfold CreateRequestPdu_encode. apply encodes_ensure; [by rewrite llen_CreateRequest_wire|].
  apply encodes_bind; [by eapply encodes_header|]. apply encodes_bind; [by apply encodes_field|apply encodes_string].
Qed.

Lemma decodes_CreateRequest p :
  CreateRequest_wf p ->
  decodes (CreateRequestPdu_decode (cq_header p))
    (field_wire (cb_id (cq_header p)) (cq_channel_id p) ++ string_wire Ansi (channel_name p)) p.
Proof.
  intros (_ & Hc & Hs). unfold CreateRequestPdu_decode, CreateRequestPdu_headerless_fixed_part_size.
  apply decodes_ensure; [rewrite llen_app, llen_field_wire; pose proof (llen_nonneg (string_wire Ansi (channel_name p))); lia|].
  eapply decodes_bind; [by apply decodes_field|]. eapply decodes_last; [by apply decodes_string|].
  destruct p. apply decodes_ret.
Qed.

Lemma safe_CreateRequest h : header_ok CmdCreate h -> safe 0 (CreateRequestPdu_decode h) 0 CreateRequest_wf.
Proof.
  intros Hh. eapply safe_bind; [apply safe_ensure|]. intros _ _. unfold CreateRequestPdu_headerless_fixed_part_size.
  pose proof (size_of_val_nonneg (cb_id h)).
  eapply safe_bind; [eapply safe_weaken; [apply (safe_field 0 (cb_id h)); lia|lia|reflexivity|done]|].
  intros id Hid. eapply safe_bind; [apply safe_string|]. intros name Hn. apply safe_ret. by split_and!.
Qed.

(** ** Capabilities *)

Definition CapsResponse_wf (p : CapabilitiesResponsePdu) : Prop := header_ok CmdCapability (cp_header p).
Definition CapsResponse_wire (p : CapabilitiesResponsePdu) : list Z :=
  [header_byte (cp_header p)] ++ [0] ++ to_le_bytes 2 (CapsVersion_to_u16 (cp_version p)).

Lemma CapsVersion_total v : no_panic (CapsVersion_try_from v).
Proof. unfold CapsVersion_try_from. by repeat case_match. Qed.

Lemma caps_version_from_to v : CapsVersion_try_from (CapsVersion_to_u16 v) = Ok v.
Proof. by destruct v. Qed.
Lemma caps_version_u16 v : is_u16 (CapsVersion_to_u16 v).
Proof. by destruct v. Qed.

Lemma encodes_CapsResponse p : CapsResponse_wf p -> encodes (CapabilitiesResponsePdu_encode p) (CapsResponse_wire p).
Proof.
  intros Hh. unfold CapabilitiesResponsePdu_encode. apply encodes_ensure; [done|].
  apply encodes_bind; [by eapply encodes_header|]. apply encodes_bind; [by apply encodes_u8|].
  apply encodes_ensure; [done|apply encodes_u16].
Qed.

Lemma decodes_CapsResponse p :
  decodes (CapabilitiesResponsePdu_decode (cp_header p)) ([0] ++ to_le_bytes 2 (CapsVersion_to_u16 (cp_version p))) p.
Proof.
  apply decodes_ensure; [done|]. eapply decodes_bind; [by apply decodes_u8|].
  eapply decodes_last; [apply decodes_u16, caps_version_u16|]. rewrite caps_version_from_to.
  eapply decodes_bind_nil; [by apply decodes_lift|]. destruct p. apply decodes_ret.
Qed.

Lemma safe_CapsResponse h : header_ok CmdCapability h -> safe 0 (CapabilitiesResponsePdu_decode h) 0 CapsResponse_wf.
Proof.
  intros Hh. eapply safe_bind; [apply (safe_ensure 0 3)|]. intros _ _. cbn [Z.max].
  eapply safe_bind; [apply (safe_u8 2); lia|]. intros _ _. eapply safe_bind; [apply (safe_u16 0); lia|]. intros v _.
  eapply safe_bind; [apply safe_lift, CapsVersion_total|]. intros w _. by apply safe_ret.
Qed.

Definition CapsRequest_wf (p : CapabilitiesRequestPdu) : Prop :=
  match p with
  | CapsRequestV1 h => header_ok CmdCapability h
  | CapsRequestV2 h cs | CapsRequestV3 h cs =>
      header_ok CmdCapability h /\ length cs = PRIORITY_CHARGE_COUNT /\ Forall is_u16 cs
  end.
Definition caps_header (p : CapabilitiesRequestPdu) : Header :=
  match p with CapsRequestV1 h | CapsRequestV2 h _ | CapsRequestV3 h _ => h end.
Definition caps_version (p : CapabilitiesRequestPdu) : CapsVersion :=
  match p with CapsRequestV1 _ => CapsV1 | CapsRequestV2 _ _ => CapsV2 | CapsRequestV3 _ _ => CapsV3 end.
Definition caps_charges (p : CapabilitiesRequestPdu) : list Z :=
  match p with CapsRequestV1 _ => [] | CapsRequestV2 _ cs | CapsRequestV3 _ cs => cs end.
Definition CapsRequest_tail (p : CapabilitiesRequestPdu) : list Z :=
  [0] ++ to_le_bytes 2 (CapsVersion_to_u16 (caps_version p)) ++ (caps_charges p ≫= to_le_bytes 2).
Definition CapsRequest_wire (p : CapabilitiesRequestPdu) : list Z := [header_byte (caps_header p)] ++ CapsRequest_tail p.

Lemma llen_charges cs : llen (cs ≫= to_le_bytes 2) = 2 * llen cs.
Proof. unfold llen. rewrite length_bind_le2. lia. Qed.

Lemma llen_CapsRequest_wire p : CapsRequest_wf p -> llen (CapsRequest_wire p) = CapabilitiesRequestPdu_size p.
Proof.
  intros Hp. unfold CapsRequest_wire, CapsRequest_tail. rewrite !llen_app, llen_charges, llen_le2.
  destruct p as [h|h cs|h cs]; [done|destruct Hp as (_ & Hl & _)..]; cbn [caps_charges]; unfold llen; by rewrite Hl.
Qed.

Lemma encodes_CapsRequest p : CapsRequest_wf p -> encodes (CapabilitiesRequestPdu_encode p) (CapsRequest_wire p).
Proof.
  intros Hp. unfold CapabilitiesRequestPdu_encode. apply encodes_ensure; [by rewrite llen_CapsRequest_wire|].
  apply encodes_bind; [by destruct p; eapply encodes_header; [exact Hp|apply Hp..]|].
  apply encodes_bind; [by apply encodes_u8|]. apply encodes_bind; [destruct p; apply encodes_u16|].
  destruct p; cbn [caps_charges]; [apply encodes_ret|..];
    (apply encodes_iter, Forall_forall; intros x _; apply encodes_u16).
Qed.

Lemma decodes_CapsRequest p :
  CapsRequest_wf p -> decodes (CapabilitiesRequestPdu_decode (caps_header p)) (CapsRequest_tail p) p.
Proof.
  intros Hp. unfold CapabilitiesRequestPdu_decode, CapsRequest_tail.
  apply decodes_ensure; [rewrite !llen_app, llen_charges, llen_le2; change (llen [0]) with 1; unfold CAPS_REQ_HEADERLESS_SIZE;
    pose proof (llen_nonneg (caps_charges p)); lia|].
  eapply decodes_bind; [by apply decodes_u8|]. eapply decodes_bind; [apply decodes_u16, caps_version_u16|].
  rewrite caps_version_from_to. eapply decodes_bind_nil; [by apply decodes_lift|].
  destruct p as [h|h cs|h cs]; cbn [caps_version caps_charges caps_header]; [apply decodes_ret|destruct Hp as (_ & Hl & Hu)..];
    (apply decodes_ensure; [rewrite llen_charges; unfold llen; by rewrite Hl|]);
    rewrite <- Hl; (eapply decodes_last; [|apply decodes_ret]); apply decodes_repeat;
    (eapply Forall_impl; [exact Hu|]); intros x Hx; by apply decodes_u16.
Qed.

Lemma safe_CapsRequest h : header_ok CmdCapability h -> safe 0 (CapabilitiesRequestPdu_decode h) 0 CapsRequest_wf.
Proof.
  intros Hh. eapply safe_bind; [apply (safe_ensure 0 3)|]. intros _ _. cbn [Z.max].
  eapply safe_bind; [apply (safe_u8 2); lia|]. intros _ _. eapply safe_bind; [apply (safe_u16 0); lia|]. intros v _.
  eapply safe_bind; [apply safe_lift, CapsVersion_total|]. intros w _.
  destruct w; [by apply safe_ret|..]; (eapply safe_bind; [apply (safe_ensure 0 8)|]); intros _ _; cbn [Z.max];
    (eapply safe_bind; [apply (safe_repeat_width 2 0 PRIORITY_CHARGE_COUNT); [lia..|]; intros m Hm; by apply safe_u16|]);
    intros cs [Hl Hu]; apply safe_ret; by split_and!.
Qed.

(** ** Soft-Sync *)

Lemma insert_all_Some xs s s' :
  insert_all xs s = Some s' <-> NoDup xs /\ (forall x, x ∈ xs -> x ∉ s) /\ s' = list_to_set xs ∪ s.
Proof.
  revert s. induction xs as [|x xs IH]; intros s; cbn [insert_all].
  { split; [intros [= <-]; split_and!; [constructor|set_solver|set_solver]|].
    intros (_ & _ & ->). f_equal. set_solver. }
  case_bool_decide as Hx; [split; [done|]; intros (_ & H & _); by destruct (H x ltac:(left))|].
  rewrite IH, NoDup_cons. split.
  - intros (Hn & Hd & ->). split_and!; [set_solver|done|set_solver|set_solver].
  - intros ((Hx' & Hn) & Hd & ->). split_and!; [done|set_solver|set_solver].
Qed.

(** Lists that repeat no tunnel type and no channel ID, nor any seen before. *)
Definition fresh_lists (lists : list SoftSyncChannelList) (types ids : gset Z) : Prop :=
  NoDup (tunnel_type <$> lists) /\ (forall t, t ∈ tunnel_type <$> lists -> t ∉ types) /\
  NoDup (lists ≫= channel_ids) /\ (forall i, i ∈ lists ≫= channel_ids -> i ∉ ids).

Lemma fresh_cons l lists types ids :
  fresh_lists (l :: lists) types ids <->
  exists types' ids', note_list l types ids = inr (types', ids') /\ fresh_lists lists types' ids'.
Proof.
  unfold fresh_lists, note_list. rewrite fmap_cons, bind_cons, NoDup_cons, NoDup_app. split.
  - intros ([Ht Hts] & Htf & (Hn1 & Hdis & Hn2) & Hif).
    rewrite bool_decide_eq_false_2 by set_solver.
    rewrite (proj2 (insert_all_Some (channel_ids l) ids (list_to_set (channel_ids l) ∪ ids))) by set_solver.
    eexists _, _. split; [reflexivity|]. split_and!; set_solver.
  - intros (types' & ids' & Hnote & Hts & Htf & Hn2 & Hif). case_bool_decide as Ht; [done|].
    destruct (insert_all (channel_ids l) ids) as [s|] eqn:Hi; [|done]. injection Hnote as <- <-.
    apply insert_all_Some in Hi as (Hn1 & Hd & ->). split_and!; set_solver.
Qed.

Lemma fresh_nil types ids : fresh_lists [] types ids.
Proof. unfold fresh_lists. split_and!; cbn; try apply NoDup_nil_2; set_solver. Qed.

Definition ChannelList_wf (l : SoftSyncChannelList) : Prop :=
  is_u32 (tunnel_type l) /\ Forall is_u32 (channel_ids l) /\ llen (channel_ids l) <= 65535.
Definition ChannelList_wire (l : SoftSyncChannelList) : list Z :=
  to_le_bytes 4 (tunnel_type l) ++ to_le_bytes 2 (llen (channel_ids l)) ++ (channel_ids l ≫= to_le_bytes 4).

Lemma llen_u32s xs : llen (xs ≫= to_le_bytes 4) = llen xs * 4.
Proof. induction xs as [|x xs IH]; [done|]. rewrite bind_cons, llen_app, llen_le4, IH, llen_cons. lia. Qed.

Lemma llen_ChannelList_wire l : llen (ChannelList_wire l) = SoftSyncChannelList_size l.
Proof.
  unfold ChannelList_wire, SoftSyncChannelList_size, CHANNEL_LIST_FIXED_PART_SIZE.
  rewrite !llen_app, llen_le4, llen_le2, llen_u32s. lia.
Qed.

Lemma encodes_u32s xs : encodes (iter_m WriteCursor.write_u32 xs : Encoder unit) (xs ≫= to_le_bytes 4).
Proof. apply encodes_iter, Forall_forall. intros x _. apply encodes_u32. Qed.

Lemma decodes_u32s xs :
  Forall is_u32 xs -> decodes (repeat_m (length xs) ReadCursor.read_u32 : Decoder _) (xs ≫= to_le_bytes 4) xs.
Proof. intros H. apply decodes_repeat. eapply Forall_impl; [exact H|]. intros x Hx. by apply decodes_u32. Qed.

Lemma encodes_ChannelList l : ChannelList_wf l -> encodes (SoftSyncChannelList_encode l) (ChannelList_wire l).
Proof.
  intros (_ & _ & Hl). unfold SoftSyncChannelList_encode. apply encodes_bind; [apply encodes_u32|].
  eapply encodes_value; [unfold cast_length; by rewrite (proj2 (Z.leb_le _ _))|].
  apply encodes_bind; [apply encodes_u16|apply encodes_u32s].
Qed.

Lemma decodes_ChannelList l : ChannelList_wf l -> decodes SoftSyncChannelList_decode (ChannelList_wire l) l.
Proof.
  intros (Ht & Hi & Hl). pose proof (llen_nonneg (channel_ids l)) as H0. unfold SoftSyncChannelList_decode.
  apply decodes_ensure; [rewrite llen_ChannelList_wire; unfold SoftSyncChannelList_size; lia|].
  eapply decodes_bind; [by apply decodes_u32|]. eapply decodes_bind; [apply decodes_u16; width|].
  apply decodes_ensure; [by rewrite llen_u32s|]. unfold llen. rewrite Nat2Z.id.
  eapply decodes_last; [by apply decodes_u32s|]. destruct l. apply decodes_ret.
Qed.

Lemma safe_ChannelList : safe 0 SoftSyncChannelList_decode 0 ChannelList_wf.
Proof.
  eapply safe_bind; [apply (safe_ensure 0 6)|]. intros _ _. cbn [Z.max].
  eapply safe_bind; [apply (safe_u32 2); lia|]. intros t Ht. eapply safe_bind; [apply (safe_u16 0); lia|]. intros n Hn.
  eapply safe_bind; [apply safe_ensure|]. intros _ _.
  eapply safe_bind; [eapply safe_weaken; [apply (safe_repeat_width 4 0 (Z.to_nat n)); [lia..|]; intros m Hm; by apply safe_u32
    |lia|reflexivity|done]|].
  intros ids [Hl Hu]. apply safe_ret. split_and!; [done|done|]. unfold llen. cbn. rewrite Hl. width.
Qed.

Lemma len_ChannelList c l c' :
  SoftSyncChannelList_decode c = Ok (l, c') -> ReadCursor.len c' = ReadCursor.len c - SoftSyncChannelList_size l.
Proof.
  intros ([] & c1 & ->%ensure_size_len & H)%bind_ok_inv. apply bind_ok_inv in H as (t & c2 & H2%len_read_u32 & H).
  apply bind_ok_inv in H as (n & c3 & H3%len_read_u16 & H). apply bind_ok_inv in H as ([] & c4 & ->%ensure_size_len & H).
  apply bind_ok_inv in H as (ids & c5 & H5 & H). injection H as <- <-.
  pose proof (len_repeat_u32 _ _ _ _ H5) as H6. unfold SoftSyncChannelList_size, CHANNEL_LIST_FIXED_PART_SIZE. cbn [channel_ids].
  assert (Hl : length ids = Z.to_nat n).
  { clear -H5. revert c3 c5 ids H5. induction (Z.to_nat n) as [|k IH]; intros c3 c5 ids; cbn [repeat_m]; [by intros [= <- _]|].
    intros (a & c1 & _ & H)%bind_ok_inv. apply bind_ok_inv in H as (l' & c2 & H2%IH & H). injection H as <- _. cbn. lia. }
  unfold llen. lia.
Qed.

Definition lists_size (lists : list SoftSyncChannelList) : Z := foldr Z.add 0 (SoftSyncChannelList_size <$> lists).

Lemma llen_lists lists : llen (lists ≫= ChannelList_wire) = lists_size lists.
Proof.
  induction lists as [|l lists IH]; [done|]. rewrite bind_cons, llen_app, IH, llen_ChannelList_wire. done.
Qed.

Lemma lists_size_bound lists : 6 * llen lists <= lists_size lists.
Proof.
  induction lists as [|l lists IH]; [done|]. rewrite llen_cons. unfold lists_size in *. cbn [fmap list_fmap foldr].
  unfold SoftSyncChannelList_size at 1, CHANNEL_LIST_FIXED_PART_SIZE. pose proof (llen_nonneg (channel_ids l)). lia.
Qed.

Lemma decodes_lists lists types ids :
  Forall ChannelList_wf lists -> fresh_lists lists types ids ->
  decodes (decode_channel_lists (length lists) types ids) (lists ≫= ChannelList_wire) lists.
Proof.
  intros Hw. revert types ids. induction Hw as [|l lists Hl _ IH]; intros types ids Hf; [apply decodes_ret|].
  apply fresh_cons in Hf as (types' & ids' & Hn & Hf). rewrite bind_cons. cbn [length decode_channel_lists].
  eapply decodes_bind; [by apply decodes_ChannelList|]. rewrite Hn. eapply decodes_last; [by apply IH|apply decodes_ret].
Qed.

Lemma safe_lists n types ids :
  safe 0 (decode_channel_lists n types ids) 0
    (fun lists => length lists = n /\ Forall ChannelList_wf lists /\ fresh_lists lists types ids).
Proof.
  revert types ids. induction n as [|n IH]; intros types ids; cbn [decode_channel_lists].
  { apply safe_ret. split_and!; [done|constructor|apply fresh_nil]. }
  eapply safe_bind; [apply safe_ChannelList|]. intros l Hl.
  destruct (note_list l types ids) as [[f r]|[types' ids']] eqn:Hn; [apply safe_fail|].
  eapply safe_bind; [apply IH|]. intros lists (Hlen & Hw & Hf). apply safe_ret.
  split_and!; [cbn; lia|by constructor|]. apply fresh_cons. eauto.
Qed.

Lemma len_lists n types ids c lists c' :
  decode_channel_lists n types ids c = Ok (lists, c') -> ReadCursor.len c' = ReadCursor.len c - lists_size lists.
Proof.
  revert types ids c lists c'. induction n as [|n IH]; intros types ids c lists c'; cbn [decode_channel_lists].
  { intros [= <- <-]. cbn. lia. }
  intros (l & c1 & H1%len_ChannelList & H)%bind_ok_inv.
  destruct (note_list l types ids) as [[f r]|[types' ids']]; [done|].
  apply bind_ok_inv in H as (ls & c2 & H2%IH & H). injection H as <- <-. unfold lists_size in *. cbn [fmap list_fmap foldr]. lia.
Qed.

Definition SoftSyncRequest_wf (p : SoftSyncRequestPdu) : Prop :=
  llen (channel_lists p) <= 65535 /\ Forall ChannelList_wf (channel_lists p) /\
  fresh_lists (channel_lists p) ∅ ∅ /\ SoftSyncRequestPdu_length p <= 4294967295.
Definition soft_sync_header (c : Cmd) : Header := Header_new 0 0 c.
Definition SoftSyncRequest_tail (p : SoftSyncRequestPdu) : list Z :=
  [0] ++ to_le_bytes 4 (SoftSyncRequestPdu_length p) ++ to_le_bytes 2 (SoftSyncRequestPdu_flags p) ++
  to_le_bytes 2 (llen (channel_lists p)) ++ (channel_lists p ≫= ChannelList_wire).
Definition SoftSyncRequest_wire (p : SoftSyncRequestPdu) : list Z :=
  [header_byte (soft_sync_header CmdSoftSyncRequest)] ++ SoftSyncRequest_tail p.

Lemma llen_SoftSyncRequest_wire p : llen (SoftSyncRequest_wire p) = SoftSyncRequestPdu_size p.
Proof.
  unfold SoftSyncRequest_wire, SoftSyncRequest_tail. rewrite !llen_app, llen_lists, llen_le4, !llen_le2.
  unfold SoftSyncRequestPdu_size, SoftSyncRequestPdu_length, lists_size, SOFT_SYNC_LENGTH_FIXED_PART_SIZE.
  change (llen [_]) with 1. unfold HEADER_FIXED_PART_SIZE. lia.
Qed.

Lemma validate_lists_ok lists types ids :
  Forall ChannelList_wf lists -> fresh_lists lists types ids -> validate_lists lists types ids = Ok tt.
Proof.
  intros Hw. revert types ids. induction Hw as [|l lists (_ & _ & Hl) _ IH]; intros types ids Hf; [done|].
  apply fresh_cons in Hf as (types' & ids' & Hn & Hf). cbn [validate_lists]. unfold cast_length.
  rewrite (proj2 (Z.leb_le _ _)) by done. cbn [mbind outcome_bind]. rewrite Hn. by apply IH.
Qed.

Lemma encodes_SoftSyncRequest p :
  SoftSyncRequest_wf p -> encodes (SoftSyncRequestPdu_encode p) (SoftSyncRequest_wire p).
Proof.
  intros (Hn & Hw & Hf & Hl). unfold SoftSyncRequestPdu_encode.
  apply encodes_lift.
  { unfold SoftSyncRequestPdu_validate, cast_length. rewrite (proj2 (Z.leb_le _ _)) by done. by apply validate_lists_ok. }
  apply encodes_ensure; [by rewrite llen_SoftSyncRequest_wire|].
  apply encodes_bind; [eapply encodes_header, header_new_ok|]. apply encodes_bind; [by apply encodes_u8|].
  eapply encodes_value; [unfold cast_length; by rewrite (proj2 (Z.leb_le _ _))|].
  apply encodes_bind; [apply encodes_u32|]. apply encodes_bind; [apply encodes_u16|].
  eapply encodes_value; [unfold cast_length; by rewrite (proj2 (Z.leb_le _ _))|].
  apply encodes_bind; [apply encodes_u16|]. apply encodes_iter.
  eapply Forall_impl; [exact Hw|]. intros l. apply encodes_ChannelList.
Qed.

(** A decoder that looks at how much is left, at the end of the input. *)
Lemma decodes_end_gets {A B} (f : ReadCursor.t -> A) (k : A -> Decoder B) bs b v :
  (forall pre, f (ReadCursor.mk (pre ++ bs) (length pre)) = v) -> decodes_end (k v) bs b ->
  decodes_end (gets f ≫= k) bs b.
Proof. intros Hf Hk pre. unfold mbind, M_bind, gets. by rewrite Hf. Qed.

Lemma len_at pre bs : ReadCursor.len (ReadCursor.mk (pre ++ bs) (length pre)) = llen bs.
Proof. unfold ReadCursor.len. cbn. rewrite llen_app. unfold llen. lia. Qed.

Lemma flags_flushed p : is_u16 (SoftSyncRequestPdu_flags p) /\ Z.land (SoftSyncRequestPdu_flags p) TCP_FLUSHED = 1.
Proof. unfold SoftSyncRequestPdu_flags. by destruct (channel_lists p). Qed.

Lemma decodes_SoftSyncRequest p :
  SoftSyncRequest_wf p ->
  decodes_end (SoftSyncRequestPdu_decode (soft_sync_header CmdSoftSyncRequest)) (SoftSyncRequest_tail p) p.
Proof.
  intros (Hn & Hw & Hf & Hl). pose proof (llen_SoftSyncRequest_wire p) as Hsize.
  unfold SoftSyncRequest_wire in Hsize. rewrite llen_app in Hsize. change (llen [_]) with 1 in Hsize.
  unfold SoftSyncRequestPdu_size, HEADER_FIXED_PART_SIZE in Hsize.
  pose proof (lists_size_bound (channel_lists p)) as Hb. pose proof (llen_nonneg (channel_lists p)) as Hn0.
  assert (Hlen : SoftSyncRequestPdu_length p = 8 + lists_size (channel_lists p)) by done.
  unfold SoftSyncRequestPdu_decode. cbn [soft_sync_header Header_new cb_id sp].
  change (FieldType.for_val 0 =? FieldType.U8) with true. cbn [negb orb].
  apply decodes_ensure_end.
  { unfold SOFT_SYNC_REQUEST_FIXED_PART_SIZE, SOFT_SYNC_LENGTH_FIXED_PART_SIZE, HEADER_FIXED_PART_SIZE. lia. }
  eapply decodes_end_gets; [intros pre; apply len_at|]. unfold SoftSyncRequest_tail at 2.
  eapply decodes_bind_end; [by apply decodes_u8|]. cbn [Z.eqb negb].
  eapply decodes_bind_end; [apply decodes_u32; width|].
  rewrite (proj2 (Z.eqb_eq (SoftSyncRequestPdu_length p) _)) by lia. cbn [negb].
  destruct (flags_flushed p) as [Hfl Hfb].
  eapply decodes_bind_end; [by apply decodes_u16|]. rewrite Hfb. cbn [Z.eqb].
  eapply decodes_bind_end; [apply decodes_u16; width|].
  eapply decodes_end_gets; [intros pre; apply len_at|]. rewrite llen_lists.
  rewrite (proj2 (Z.ltb_ge _ _)) by (unfold CHANNEL_LIST_FIXED_PART_SIZE; apply Z.div_le_lower_bound; lia).
  unfold llen. rewrite Nat2Z.id, <- (app_nil_r (channel_lists p ≫= ChannelList_wire)).
  eapply decodes_bind_end; [by apply decodes_lists|].
  eapply decodes_end_gets; [intros pre; unfold ReadCursor.is_empty; rewrite len_at; reflexivity|].
  cbn. destruct p. apply decodes_to_end, decodes_ret.
Qed.

Lemma len_SoftSyncRequest h c p c' :
  SoftSyncRequestPdu_decode h c = Ok (p, c') -> rc_wf c -> SoftSyncRequestPdu_length p <= 4294967295.
Proof.
  intros H Hc. unfold SoftSyncRequestPdu_decode in H. destruct (_ || _) in H; [done|].
  apply bind_ok_inv in H as ([] & c1 & He & H). pose proof He as ->%ensure_size_len.
  apply bind_ok_inv in H as (hs & c2 & [= <- <-] & H).
  apply bind_ok_inv in H as (pad & c3 & H3 & H). pose proof H3 as L3%len_read_u8. destruct (negb _) in H; [done|].
  apply bind_ok_inv in H as (len & c4 & H4 & H). pose proof H4 as L4%len_read_u32.
  destruct (negb _) eqn:Hlen in H; [done|]. apply negb_false_iff, Z.eqb_eq in Hlen.
  apply bind_ok_inv in H as (fl & c5 & L5%len_read_u16 & H). destruct (Z.land _ _ =? 0) in H; [done|].
  apply bind_ok_inv in H as (n & c6 & L6%len_read_u16 & H). apply bind_ok_inv in H as (r & c7 & [= <- <-] & H).
  destruct (_ <? n) in H; [done|]. apply bind_ok_inv in H as (ls & c8 & L8%len_lists & H).
  apply bind_ok_inv in H as (b & c9 & [= <- <-] & H). destruct (negb _) eqn:Hend in H; [done|].
  apply negb_false_iff, Z.eqb_eq in Hend. injection H as <- _.
  assert (Hu : is_u32 len).
  { assert (H0 : 5 <= ReadCursor.len c).
    { unfold ReadCursor.ensure_size in He. destruct (Z.leb_spec (SOFT_SYNC_REQUEST_FIXED_PART_SIZE - HEADER_FIXED_PART_SIZE)
        (ReadCursor.len c)) as [Hle|]; [|done].
      unfold SOFT_SYNC_REQUEST_FIXED_PART_SIZE, SOFT_SYNC_LENGTH_FIXED_PART_SIZE, HEADER_FIXED_PART_SIZE in Hle. lia. }
    pose proof (safe_u8 (E := DecodeErrorKind) 4 ltac:(lia) c Hc ltac:(lia)) as S3. rewrite H3 in S3. destruct S3 as (Hc3 & _).
    pose proof (safe_u32 (E := DecodeErrorKind) 0 ltac:(lia) c3 Hc3 ltac:(lia)) as S4. rewrite H4 in S4. by destruct S4 as (_ & _ & ? & _). }
  unfold SoftSyncRequestPdu_length, SOFT_SYNC_LENGTH_FIXED_PART_SIZE. cbn [channel_lists].
  unfold lists_size in L8. width.
Qed.

Lemma safe_SoftSyncRequest h : safe 0 (SoftSyncRequestPdu_decode h) 0 SoftSyncRequest_wf.
Proof.
  assert (Hs : safe 0 (SoftSyncRequestPdu_decode h) 0 (fun p => llen (channel_lists p) <= 65535 /\
    Forall ChannelList_wf (channel_lists p) /\ fresh_lists (channel_lists p) ∅ ∅)).
  { unfold SoftSyncRequestPdu_decode. destruct (_ || _); [apply safe_fail|].
    eapply safe_bind; [apply (safe_ensure 0 9)|]. intros _ _. cbn [Z.max].
    apply (safe_bind 9 9 0 _ _ (fun _ => True)); [by intros c Hc Hl; cbn; split_and!|]. intros hs _.
    eapply safe_bind; [apply (safe_u8 8); lia|]. intros pad _. destruct (negb _); [apply safe_fail|].
    eapply safe_bind; [apply (safe_u32 4); lia|]. intros len _. destruct (negb _); [apply safe_fail|].
    eapply safe_bind; [apply (safe_u16 2); lia|]. intros fl _. destruct (_ =? 0); [apply safe_fail|].
    eapply safe_bind; [apply (safe_u16 0); lia|]. intros n Hn.
    apply (safe_bind 0 0 0 _ _ (fun _ => True)); [by intros c Hc Hl; cbn; split_and!|]. intros r _.
    destruct (_ <? n); [apply safe_fail|]. eapply safe_bind; [apply safe_lists|]. intros ls (Hl & Hw & Hf).
    apply (safe_bind 0 0 0 _ _ (fun _ => True)); [by intros c Hc Hl'; cbn; split_and!|]. intros e _.
    destruct (negb _); [apply safe_fail|]. apply safe_ret. split_and!; [unfold llen; cbn; rewrite Hl; width|done|done]. }
  intros c Hc H0. specialize (Hs c Hc H0). destruct (SoftSyncRequestPdu_decode h c) as [[p c']| |] eqn:Hd; [|done..].
  apply len_SoftSyncRequest in Hd; [|done]. destruct Hs as (? & ? & (? & ? & ?) & ? & ?). by split_and!.
Qed.

Definition SoftSyncResponse_wf (p : SoftSyncResponsePdu) : Prop :=
  NoDup (tunnels_to_switch p) /\ Forall is_u32 (tunnels_to_switch p) /\ llen (tunnels_to_switch p) <= 4294967295.
Definition SoftSyncResponse_tail (p : SoftSyncResponsePdu) : list Z :=
  [0] ++ to_le_bytes 4 (llen (tunnels_to_switch p)) ++ (tunnels_to_switch p ≫= to_le_bytes 4).
Definition SoftSyncResponse_wire (p : SoftSyncResponsePdu) : list Z :=
  [header_byte (soft_sync_header CmdSoftSyncResponse)] ++ SoftSyncResponse_tail p.

Lemma llen_SoftSyncResponse_wire p : llen (SoftSyncResponse_wire p) = SoftSyncResponsePdu_size p.
Proof.
  unfold SoftSyncResponse_wire, SoftSyncResponse_tail. rewrite !llen_app, llen_u32s, llen_le4.
  unfold SoftSyncResponsePdu_size, SOFT_SYNC_RESPONSE_FIXED_PART_SIZE, HEADER_FIXED_PART_SIZE. change (llen [_]) with 1. lia.
Qed.

Lemma encodes_SoftSyncResponse p :
  SoftSyncResponse_wf p -> encodes (SoftSyncResponsePdu_encode p) (SoftSyncResponse_wire p).
Proof.
  intros (Hn & Hu & Hl). unfold SoftSyncResponsePdu_encode. apply encodes_lift.
  { unfold SoftSyncResponsePdu_validate, cast_length. rewrite (proj2 (Z.leb_le _ _)) by done. cbn [mbind outcome_bind].
    rewrite (proj2 (insert_all_Some _ _ (list_to_set (tunnels_to_switch p) ∪ ∅))); [done|]. set_solver. }
  apply encodes_ensure; [by rewrite llen_SoftSyncResponse_wire|].
  apply encodes_bind; [eapply encodes_header, header_new_ok|]. apply encodes_bind; [by apply encodes_u8|].
  eapply encodes_value; [unfold cast_length; by rewrite (proj2 (Z.leb_le _ _))|].
  apply encodes_bind; [apply encodes_u32|apply encodes_u32s].
Qed.

Lemma decodes_tunnels ts seen :
  NoDup ts -> Forall is_u32 ts -> (forall t, t ∈ ts -> t ∉ seen) ->
  decodes (decode_tunnels (length ts) seen) (ts ≫= to_le_bytes 4) ts.
Proof.
  intros Hn Hu. revert seen. induction Hu as [|t ts Ht _ IH]; intros seen Hs; [apply decodes_ret|].
  apply NoDup_cons in Hn as [Hnt Hn]. rewrite bind_cons. cbn [length decode_tunnels].
  eapply decodes_bind; [by apply decodes_u32|]. rewrite bool_decide_eq_false_2 by (apply Hs; left).
  eapply decodes_last; [apply IH; [done|set_solver]|apply decodes_ret].
Qed.

Lemma safe_tunnels n seen m :
  0 <= m -> safe (m + 4 * Z.of_nat n) (decode_tunnels n seen) m
    (fun ts => length ts = n /\ NoDup ts /\ Forall is_u32 ts /\ forall t, t ∈ ts -> t ∉ seen).
Proof.
  intros Hm. revert seen. induction n as [|n IH]; intros seen; cbn [decode_tunnels].
  { replace (m + 4 * Z.of_nat 0) with m by lia. apply safe_ret. split_and!; [done|apply NoDup_nil_2|constructor|set_solver]. }
  eapply safe_bind; [replace (m + 4 * Z.of_nat (S n)) with (m + 4 * Z.of_nat n + 4) by lia; apply safe_u32; lia|].
  intros t Ht. case_bool_decide as Hs; [apply safe_fail|]. eapply safe_bind; [apply IH|].
  intros ts (Hl & Hn & Hu & Hd). apply safe_ret.
  split_and!; [cbn; lia|apply NoDup_cons; set_solver|by constructor|set_solver].
Qed.

Lemma decodes_SoftSyncResponse p :
  SoftSyncResponse_wf p ->
  decodes_end (SoftSyncResponsePdu_decode (soft_sync_header CmdSoftSyncResponse)) (SoftSyncResponse_tail p) p.
Proof.
  intros (Hn & Hu & Hl). pose proof (llen_nonneg (tunnels_to_switch p)) as Hn0.
  unfold SoftSyncResponsePdu_decode. cbn [soft_sync_header Header_new cb_id sp].
  change (FieldType.for_val 0 =? FieldType.U8) with true. cbn [negb orb].
  apply decodes_ensure_end.
  { unfold SoftSyncResponse_tail, SOFT_SYNC_RESPONSE_FIXED_PART_SIZE, HEADER_FIXED_PART_SIZE.
    rewrite !llen_app, llen_le4, llen_u32s. change (llen [0]) with 1. lia. }
  eapply decodes_bind_end; [by apply decodes_u8|]. cbn [Z.eqb negb].
  eapply decodes_bind_end; [apply decodes_u32; width|].
  eapply decodes_end_gets; [intros pre; apply len_at|]. rewrite llen_u32s, Z.div_mul, Z.ltb_irrefl by done.
  unfold llen. rewrite Nat2Z.id, <- (app_nil_r (tunnels_to_switch p ≫= to_le_bytes 4)).
  eapply decodes_bind_end; [apply decodes_tunnels; [done|done|set_solver]|].
  eapply decodes_end_gets; [intros pre; unfold ReadCursor.is_empty; rewrite len_at; reflexivity|].
  cbn. destruct p. apply decodes_to_end, decodes_ret.
Qed.

Lemma safe_SoftSyncResponse h : safe 0 (SoftSyncResponsePdu_decode h) 0 SoftSyncResponse_wf.
Proof.
  unfold SoftSyncResponsePdu_decode. destruct (_ || _); [apply safe_fail|].
  eapply safe_bind; [apply (safe_ensure 0 5)|]. intros _ _. cbn [Z.max].
  eapply safe_bind; [apply (safe_u8 4); lia|]. intros pad _. destruct (negb _); [apply safe_fail|].
  eapply safe_bind; [apply (safe_u32 0); lia|]. intros n Hn. intros c Hc H0.
  unfold mbind at 1, M_bind at 1, gets at 1. destruct (Z.ltb_spec (ReadCursor.len c / 4) n); [done|].
  assert (Hs : safe (4 * n) (tunnels ← decode_tunnels (Z.to_nat n) ∅; at_end ← gets ReadCursor.is_empty;
    if negb at_end then fail (DInvalidField "NumberOfTunnels" "does not match the remaining bytes" None)
    else mret (mkSoftSyncResponse tunnels)) 0 SoftSyncResponse_wf).
  { eapply safe_bind; [eapply safe_weaken; [apply (safe_tunnels (Z.to_nat n) ∅ 0); lia|width|reflexivity|done]|].
    intros ts (Hl & Hd & Hu & _). apply (safe_bind 0 0 0 _ _ (fun _ => True)); [by intros c' Hc' Hl'; cbn; split_and!|].
    intros e _. destruct (negb _); [apply safe_fail|]. apply safe_ret.
    split_and!; [done|done|unfold llen; cbn; rewrite Hl; width]. }
  apply (Hs c Hc). zdm.
Qed.

(** ** The PDUs of each side *)

Definition ClientPdu_wf (p : DrdynvcClientPdu) : Prop :=
  match p with
  | ClientCapabilities p => CapsResponse_wf p
  | ClientCreate p => CreateResponse_wf p
  | ClientClose p => Close_wf p
  | ClientData p => DataPdu_wf p
  | ClientSoftSyncResponse p => SoftSyncResponse_wf p
  end.
Definition ClientPdu_wire (p : DrdynvcClientPdu) : list Z :=
  match p with
  | ClientCapabilities p => CapsResponse_wire p
  | ClientCreate p => CreateResponse_wire p
  | ClientClose p => Close_wire p
  | ClientData p => DataPdu_wire p
  | ClientSoftSyncResponse p => SoftSyncResponse_wire p
  end.

Definition ServerPdu_wf (p : DrdynvcServerPdu) : Prop :=
  match p with
  | ServerCapabilities p => CapsRequest_wf p
  | ServerCreate p => CreateRequest_wf p
  | ServerClose p => Close_wf p
  | ServerData p => DataPdu_wf p
  | ServerSoftSyncRequest p => SoftSyncRequest_wf p
  end.
Definition ServerPdu_wire (p : DrdynvcServerPdu) : list Z :=
  match p with
  | ServerCapabilities p => CapsRequest_wire p
  | ServerCreate p => CreateRequest_wire p
  | ServerClose p => Close_wire p
  | ServerData p => DataPdu_wire p
  | ServerSoftSyncRequest p => SoftSyncRequest_wire p
  end.

Lemma decodes_end_map {A B} (d : Decoder A) (f : A -> B) bs a :
  decodes_end d bs a -> decodes_end (x ← d; mret (f x)) bs (f a).
Proof. intros H pre. unfold mbind, M_bind. by rewrite H. Qed.

Lemma safe_map {A B} (d : Decoder A) (f : A -> B) (P : A -> Prop) (Q : B -> Prop) :
  safe 0 d 0 P -> (forall a, P a -> Q (f a)) -> safe 0 (x ← d; mret (f x)) 0 Q.
Proof. intros Hd HPQ. eapply safe_bind; [exact Hd|]. intros a Ha. by apply safe_ret, HPQ. Qed.

(** The header is read, then the PDU its command names. *)
Lemma decodes_headed {A} c h (k : Header -> Decoder A) rest a :
  header_ok c h -> decodes_end (k h) rest a -> decodes_end (Header_decode ≫= k) ([header_byte h] ++ rest) a.
Proof. intros Hh Hk. eapply decodes_bind_end; [by eapply decodes_header|done]. Qed.

(** Reading a PDU whose header is [h] and whose command is [c]. *)
Ltac headed Hw c :=
  eapply (decodes_headed c); [apply Hw|]; cbv beta;
  match type of Hw with _ => rewrite (proj1 (proj1 Hw : header_ok c _)) end.

#[export] Program Instance ClientPdu_Codec : Codec DrdynvcClientPdu := { wf := ClientPdu_wf; wire := ClientPdu_wire }.
Next Obligation.
  intros [p|p|p|p|p]; [apply encodes_CapsResponse|apply encodes_CreateResponse|apply encodes_Close|apply encodes_DataPdu
    |apply encodes_SoftSyncResponse].
Qed.
Next Obligation.
  intros [p|p|p|p|p] _; cbn [size DrdynvcClientPdu_Encode ClientPdu_wire];
    [done|by rewrite llen_CreateResponse_wire|by rewrite llen_Close_wire|apply size_DataPdu|by rewrite llen_SoftSyncResponse_wire].
Qed.
Next Obligation.
  intros [p|p|p|[p|p]|p] Hw; cbn [decode_from DrdynvcClientPdu_Decode ClientPdu_wire DataPdu_wire]; unfold DrdynvcClientPdu_decode.
  - eapply (decodes_headed CmdCapability); [exact Hw|]. cbv beta. rewrite (proj1 Hw).
    apply decodes_end_map, decodes_to_end, decodes_CapsResponse.
  - headed Hw CmdCreate. by apply decodes_end_map, decodes_to_end, decodes_CreateResponse.
  - headed Hw CmdClose. by apply decodes_end_map, decodes_to_end, decodes_Close.
  - headed Hw CmdDataFirst. by apply (decodes_end_map _ (fun p => ClientData (DataFirst p))), decodes_DataFirst.
  - headed Hw CmdData. by apply (decodes_end_map _ (fun p => ClientData (Data p))), decodes_Data.
  - eapply (decodes_headed CmdSoftSyncResponse); [apply header_new_ok|]. cbv beta. by apply decodes_end_map, decodes_SoftSyncResponse.
Qed.
Next Obligation.
  eapply safe_bind; [apply safe_header|]. intros h Hh. cbv beta in *.
  destruct (cmd h) eqn:Hc; rewrite ?Hc in Hh; try apply safe_fail_at.
  - by eapply (safe_map _ ClientCreate); [by apply safe_CreateResponse|].
  - by eapply (safe_map _ (fun p => ClientData (DataFirst p))); [by apply safe_DataFirst|].
  - by eapply (safe_map _ (fun p => ClientData (Data p))); [by apply safe_Data|].
  - by eapply (safe_map _ ClientClose); [by apply safe_Close|].
  - by eapply (safe_map _ ClientCapabilities); [by apply safe_CapsResponse|].
  - by eapply (safe_map _ ClientSoftSyncResponse); [by apply safe_SoftSyncResponse|].
Qed.

#[export] Program Instance ServerPdu_Codec : Codec DrdynvcServerPdu := { wf := ServerPdu_wf; wire := ServerPdu_wire }.
Next Obligation.
  intros [p|p|p|p|p]; [apply encodes_CapsRequest|apply encodes_CreateRequest|apply encodes_Close|apply encodes_DataPdu
    |apply encodes_SoftSyncRequest].
Qed.
Next Obligation.
  intros [p|p|p|p|p] Hw; cbn [size DrdynvcServerPdu_Encode ServerPdu_wire];
    [by rewrite llen_CapsRequest_wire|by rewrite llen_CreateRequest_wire|by rewrite llen_Close_wire|apply size_DataPdu
    |by rewrite llen_SoftSyncRequest_wire].
Qed.
Next Obligation.
  intros [p|p|p|[p|p]|p] Hw; cbn [decode_from DrdynvcServerPdu_Decode ServerPdu_wire DataPdu_wire]; unfold DrdynvcServerPdu_decode.
  - assert (Hh : header_ok CmdCapability (caps_header p)) by (destruct p; [exact Hw|apply Hw..]).
    eapply (decodes_headed CmdCapability); [exact Hh|]. cbv beta. rewrite (proj1 Hh).
    by apply decodes_end_map, decodes_to_end, decodes_CapsRequest.
  - headed Hw CmdCreate. by apply decodes_end_map, decodes_to_end, decodes_CreateRequest.
  - headed Hw CmdClose. by apply decodes_end_map, decodes_to_end, decodes_Close.
  - headed Hw CmdDataFirst. by apply (decodes_end_map _ (fun p => ServerData (DataFirst p))), decodes_DataFirst.
  - headed Hw CmdData. by apply (decodes_end_map _ (fun p => ServerData (Data p))), decodes_Data.
  - eapply (decodes_headed CmdSoftSyncRequest); [apply header_new_ok|]. cbv beta. by apply decodes_end_map, decodes_SoftSyncRequest.
Qed.
Next Obligation.
  eapply safe_bind; [apply safe_header|]. intros h Hh. cbv beta in *.
  destruct (cmd h) eqn:Hc; rewrite ?Hc in Hh; try apply safe_fail_at.
  - by eapply (safe_map _ ServerCreate); [by apply safe_CreateRequest|].
  - by eapply (safe_map _ (fun p => ServerData (DataFirst p))); [by apply safe_DataFirst|].
  - by eapply (safe_map _ (fun p => ServerData (Data p))); [by apply safe_Data|].
  - by eapply (safe_map _ ServerClose); [by apply safe_Close|].
  - by eapply (safe_map _ ServerCapabilities); [by apply safe_CapsRequest|].
  - by eapply (safe_map _ ServerSoftSyncRequest); [by apply safe_SoftSyncRequest|].
Qed.

(** Every PDU of either side survives the wire.  A well-formed PDU - any
    width of the channel ID that holds it, any channel name without NUL, any
    Soft-Sync assignment without repetition - is encoded in exactly its size
    and decoded back unchanged. *)
Theorem dvc_pdu_roundtrip :
  (forall p : DrdynvcClientPdu, ClientPdu_wf p ->
    exists bytes, encode_vec p = Ok bytes /\ llen bytes = size p /\ decode DrdynvcClientPdu bytes = Ok p) /\
  (forall p : DrdynvcServerPdu, ServerPdu_wf p ->
    exists bytes, encode_vec p = Ok bytes /\ llen bytes = size p /\ decode DrdynvcServerPdu bytes = Ok p).
Proof. split; intros p Hp; by apply encode_decode. Qed.

(** No byte string makes a dynamic channel decoder panic, and whatever it
    accepts can be encoded again and read back as the same PDU. *)
Theorem dvc_decode_total bytes :
  bytes_ok bytes ->
  match decode DrdynvcClientPdu bytes with
  | Ok p => ClientPdu_wf p /\ exists out, encode_vec p = Ok out /\ decode DrdynvcClientPdu out = Ok p
  | Err _ => True
  | Panic => False
  end /\
  match decode DrdynvcServerPdu bytes with
  | Ok p => ServerPdu_wf p /\ exists out, encode_vec p = Ok out /\ decode DrdynvcServerPdu out = Ok p
  | Err _ => True
  | Panic => False
  end.
Proof.
  intros Hb. split.
  - pose proof (decode_no_panic (A := DrdynvcClientPdu) bytes Hb) as Hp.
    destruct (decode DrdynvcClientPdu bytes) as [p| |] eqn:Hd; [|done..]. split; [exact (decode_wf (C := ClientPdu_Codec) _ _ Hb Hd)|].
    destruct (decode_canonical bytes p Hb Hd) as (out & ? & _ & ?). eauto.
  - pose proof (decode_no_panic (A := DrdynvcServerPdu) bytes Hb) as Hp.
    destruct (decode DrdynvcServerPdu bytes) as [p| |] eqn:Hd; [|done..]. split; [exact (decode_wf (C := ServerPdu_Codec) _ _ Hb Hd)|].
    destruct (decode_canonical bytes p Hb Hd) as (out & ? & _ & ?). eauto.
Qed.

(** A Soft-Sync request for three channels on one tunnel. *)
Definition sample_soft_sync : DrdynvcServerPdu :=
  ServerSoftSyncRequest (mkSoftSyncRequest [mkChannelList RELIABLE_UDP [3; 7; 70000]]).

Lemma dvc_decode_total_witness :
  exists bytes, encode_vec sample_soft_sync = Ok bytes /\ exists p, decode DrdynvcServerPdu bytes = Ok p /\ ServerPdu_wf p.
Proof.
  eexists. split; [vm_compute; reflexivity|].
  assert (Hb : bytes_ok [128; 0; 26; 0; 0; 0; 3; 0; 1; 0; 1; 0; 0; 0; 3; 0; 3; 0; 0; 0; 7; 0; 0; 0; 112; 17; 1; 0])
    by (by repeat (apply Forall_cons; split; [done|])).
  destruct (dvc_decode_total _ Hb) as [_ H]. eexists. split; [vm_compute; reflexivity|]. exact (proj1 H).
Defined.

Lemma dvc_pdu_roundtrip_witness :
  exists bytes, encode_vec sample_soft_sync = Ok bytes /\ llen bytes = size sample_soft_sync /\
    decode DrdynvcServerPdu bytes = Ok sample_soft_sync.
Proof.
  apply (proj2 dvc_pdu_roundtrip sample_soft_sync). split_and!; [done|repeat constructor; vm_compute; done| |done].
  unfold fresh_lists. split_and!; [apply (bool_decide_unpack _); vm_compute; exact I|set_solver| |set_solver].
  apply (bool_decide_unpack _). vm_compute. exact I.
Defined.
