(* ===== verification/WriteBuf.v ===== *)
(** The growable output buffer of ironrdp-core
    (src/crates/ironrdp-core/src/write_buf.rs), [encode_buf] of encode.rs, and
    the type-erased PDUs ([Box<dyn SvcEncode>], [Box<dyn DvcEncode>]) the
    channel layers put on the wire.

    The capacity of the underlying [Vec] is not part of the model; a slice out
    of range is a panic. *)

From S2P Require Import Prelude Cursor Codec.

Module WriteBuf.

Record t := mk { inner : list Z; filled_count : nat }.

Definition new : t := mk [] 0.
Definition from_vec (buffer : list Z) : t := mk buffer 0.
Definition into_inner (b : t) : list Z := inner b.
Definition filled_len (b : t) : Z := Z.of_nat (filled_count b).

Section ops.
Context {E : Type}.

(** [&self.inner[..self.filled]] *)
Definition filled (b : t) : outcome E (list Z) :=
  if (filled_count b <=? length (inner b))%nat then Ok (take (filled_count b) (inner b)) else Panic.

(** [Vec::resize] with zeroes, when the buffer is too short *)
Definition initialize (additional : nat) (b : t) : t :=
  if (length (inner b) <? filled_count b + additional)%nat
  then mk (inner b ++ replicate (filled_count b + additional - length (inner b)) 0) (filled_count b)
  else b.

(** The slice and the buffer it borrows from. *)
Definition unfilled_to (n : nat) (b : t) : outcome E (list Z * t) :=
  let b' := initialize n b in
  if (filled_count b' + n <=? length (inner b'))%nat
  then Ok (take n (drop (filled_count b') (inner b')), b')
  else Panic.
(** What is left in the buffer once the borrowed slice holds [bs]. *)
Definition store (bs : list Z) (b : t) : t :=
  mk (take (filled_count b) (inner b) ++ bs ++ drop (filled_count b + length bs) (inner b)) (filled_count b).

Definition advance (len : nat) (b : t) : t := mk (inner b) (filled_count b + len).

Definition write_slice (slice : list Z) (b : t) : outcome E t :=
  let n := length slice in
  let b' := initialize n b in
  if (filled_count b' + n <=? length (inner b'))%nat
  then Ok (advance n (store slice b'))
  else Panic.
Definition write_array (array : list Z) (b : t) : outcome E t := write_slice array b.
Definition write_u8 (v : Z) : t -> outcome E t := write_array (to_le_bytes 1 v).
Definition write_u16 (v : Z) : t -> outcome E t := write_array (to_le_bytes 2 v).
Definition write_u16_be (v : Z) : t -> outcome E t := write_array (to_be_bytes 2 v).
Definition write_u32 (v : Z) : t -> outcome E t := write_array (to_le_bytes 4 v).
Definition write_u32_be (v : Z) : t -> outcome E t := write_array (to_be_bytes 4 v).
Definition write_u64 (v : Z) : t -> outcome E t := write_array (to_le_bytes 8 v).
Definition write_u64_be (v : Z) : t -> outcome E t := write_array (to_be_bytes 8 v).

Definition clear (b : t) : t := mk (inner b) 0.

(** [&self.filled()[start..end]] *)
Definition index (start stop : nat) (b : t) : outcome E (list Z) :=
  bs ← filled b;
  if (start <=? stop)%nat && (stop <=? length bs)%nat then Ok (take (stop - start) (drop start bs)) else Panic.

End ops.

(** The filled region lies inside the buffer, and holds [bs]. *)
Definition holds (bs : list Z) (b : t) : Prop :=
  filled_count b = length bs /\ exists rest, inner b = bs ++ rest.

Lemma holds_new : holds [] new.
Proof. split; [done|by exists []]. Qed.

Lemma holds_filled {E} bs b : holds bs b -> filled b = (Ok bs : outcome E _).
Proof.
  intros [Hn [rest Hr]]. unfold filled. rewrite Hn, Hr, length_app, take_app_length.
  by rewrite (proj2 (Nat.leb_le _ _)) by lia.
Qed.

Lemma holds_filled_len bs b : holds bs b -> filled_len b = llen bs.
Proof. intros [Hn _]. unfold filled_len, llen. by rewrite Hn. Qed.

Lemma initialize_spec n bs b :
  holds bs b -> exists gap rest, length gap = n /\ initialize n b = mk (bs ++ gap ++ rest) (length bs).
Proof.
  intros [Hn [rest Hr]]. unfold initialize. rewrite Hn, Hr, length_app.
  destruct (Nat.ltb_spec (length bs + length rest) (length bs + n)).
  - eexists (rest ++ replicate (length bs + n - (length bs + length rest)) 0), [].
    rewrite app_nil_r, length_app, length_replicate. split; [lia|]. by rewrite <- app_assoc.
  - exists (take n rest), (drop n rest). rewrite take_drop, length_take. split; [lia|].
    destruct b. cbn in *. by subst.
Qed.

Lemma store_spec bs cs gap rest n :
  length gap = n -> length cs = n ->
  holds (bs ++ cs) (advance n (store cs (mk (bs ++ gap ++ rest) (length bs)))).
Proof.
  intros Hg Hc. unfold store, advance, holds. cbn. rewrite length_app. split; [lia|].
  exists rest. rewrite take_app_length, <- drop_drop, drop_app_length.
  rewrite drop_app_length' by lia. by rewrite app_assoc.
Qed.

Lemma write_slice_spec {E} bs cs b :
  holds bs b -> exists b', write_slice cs b = (Ok b' : outcome E _) /\ holds (bs ++ cs) b'.
Proof.
  intros H. destruct (initialize_spec (length cs) bs b H) as (gap & rest & Hg & Hi).
  unfold write_slice. rewrite Hi. cbn. rewrite (proj2 (Nat.leb_le _ _)) by (rewrite !length_app; lia).
  eexists. split; [done|]. by apply store_spec.
Qed.

Lemma index_spec {E} start stop bs b :
  holds bs b -> (start <= stop <= length bs)%nat ->
  index start stop b = (Ok (take (stop - start) (drop start bs)) : outcome E _).
Proof.
  intros H Hr. unfold index. rewrite (holds_filled _ _ H). cbn.
  by rewrite !(proj2 (Nat.leb_le _ _)) by lia.
Qed.

End WriteBuf.

(** [let written = encode(pdu, buf.unfilled_to(pdu.size()))?; buf.advance(written)].
    What an encoder that fails leaves behind is in the unfilled part. *)
Definition encode_buf {A} `{Encode A} (pdu : A) (buf : WriteBuf.t) :
    outcome EncodeErrorKind (Z * WriteBuf.t) :=
  let pdu_size := size pdu in
  '(dst, buf') ← WriteBuf.unfilled_to (Z.to_nat pdu_size) buf;
  '(written, dst') ← encode pdu dst;
  mret (written, WriteBuf.advance (Z.to_nat written) (WriteBuf.store dst' buf')).

(** ** Type-erased PDUs *)

(** [Box<dyn SvcEncode>]: an encoder and the size it announces. *)
Record BoxedPdu := mkBoxed { boxed_encode : Encoder unit; boxed_size : Z }.
#[export] Instance BoxedPdu_Encode : Encode BoxedPdu :=
  {| encode_into := boxed_encode; size := boxed_size |}.

(** [Box::new(pdu)] *)
Definition boxed {A} `{Encode A} (pdu : A) : BoxedPdu := mkBoxed (encode_into pdu) (size pdu).

(** The PDU is written as exactly [bs], and says so in advance. *)
Definition writes {A} `{Encode A} (pdu : A) (bs : list Z) : Prop :=
  encodes (encode_into pdu) bs /\ size pdu = llen bs.

Lemma writes_wire {A} {E : Encode A} {D : Decode A} {C : Codec A} (a : A) :
  wf a -> writes a (wire a).
Proof. intros H. split; [by apply wire_encodes|by apply wire_size]. Qed.

Lemma writes_boxed {A} `{Encode A} (a : A) bs : writes a bs -> writes (boxed a) bs.
Proof. done. Qed.

Lemma encode_writes {A} `{Encode A} (pdu : A) bs dst :
  encodes (encode_into pdu) bs -> length dst = length bs -> encode pdu dst = Ok (llen bs, bs).
Proof.
  intros He Hl. unfold encode, WriteCursor.new. specialize (He [] dst [] Hl). cbn [app length] in He.
  rewrite !app_nil_r in He. rewrite He. done.
Qed.

Lemma encode_vec_writes {A} `{Encode A} (pdu : A) bs :
  writes pdu bs -> encode_vec pdu = Ok bs.
Proof.
  intros [He Hs]. unfold encode_vec. rewrite (encode_writes pdu bs); [done|done|].
  rewrite length_replicate, Hs. unfold llen. lia.
Qed.

Lemma encode_buf_writes {A} `{Encode A} (pdu : A) bs acc b :
  writes pdu bs -> WriteBuf.holds acc b ->
  exists b', encode_buf pdu b = Ok (llen bs, b') /\ WriteBuf.holds (acc ++ bs) b'.
Proof.
  intros [He Hs] Hb. unfold encode_buf, WriteBuf.unfilled_to. rewrite Hs.
  replace (Z.to_nat (llen bs)) with (length bs) by (unfold llen; lia).
  destruct (WriteBuf.initialize_spec (length bs) acc b Hb) as (gap & rest & Hg & ->).
  cbn [WriteBuf.filled_count WriteBuf.inner].
  rewrite (proj2 (Nat.leb_le _ _)) by (rewrite !length_app; lia).
  rewrite drop_app_length, take_app_length' by done. cbn.
  rewrite (encode_writes pdu bs) by done. cbn. unfold llen. rewrite Nat2Z.id.
  eexists. split; [done|]. by apply WriteBuf.store_spec.
Qed.
