(* ===== verification/Mcs.v ===== *)
(** The slow-path framing of the TCP connection: TPKT and X.224 headers
    (src/crates/ironrdp-pdu/src/tpkt.rs, tpdu.rs, x224.rs), the aligned PER
    primitives (per.rs) and the MCS domain PDUs (mcs.rs) that carry the static
    virtual channels. *)

From S2P Require Import Prelude Cursor Codec WriteBuf.

(** ** PER *)

Module Per.

Definition CHOICE_SIZE : Z := 1.
Definition ENUM_SIZE : Z := 1.
Definition U16_SIZE : Z := 2.

Inductive PerError :=
| NotEnoughBytes (available required : Z)
| InvalidLength (reason : string)
| Overflow
| Underflow
| UnexpectedEnumVariant
| OctetStringTooSmall
| OctetStringTooBig
| NumericStringTooSmall
| NumericStringTooBig.

(** An error comes with the position the cursor has when it is returned,
    which is what [per_field_err!] records. *)
Abbreviation PerRead := (M ReadCursor.t (PerError * Z)).
Abbreviation PerWrite := (M WriteCursor.t (PerError * Z)).

Definition read_fail {A} (e : PerError) : PerRead A := fun c => Err (e, Z.of_nat (ReadCursor.pos c)).
Definition write_fail {A} (e : PerError) : PerWrite A := fun c => Err (e, Z.of_nat (WriteCursor.pos c)).

Definition try_read_u8 : PerRead Z :=
  empty ← gets ReadCursor.is_empty;
  if (empty : bool) then len ← gets ReadCursor.len; read_fail (NotEnoughBytes len 1)
  else ReadCursor.read_u8.
Definition try_read_u16_be : PerRead Z :=
  len ← gets ReadCursor.len;
  if 2 <=? len then ReadCursor.read_u16_be else read_fail (NotEnoughBytes len 2).
Definition try_read_u32_be : PerRead Z :=
  len ← gets ReadCursor.len;
  if 4 <=? len then ReadCursor.read_u32_be else read_fail (NotEnoughBytes len 4).
Definition try_read_slice (n : Z) : PerRead (list Z) :=
  len ← gets ReadCursor.len;
  if n <=? len then ReadCursor.read_slice (Z.to_nat n) else read_fail (NotEnoughBytes len n).

Definition read_length : PerRead (Z * Z) :=
  a ← try_read_u8;
  if negb (Z.land a 0x80 =? 0) then
    b ← try_read_u8;
    let length := Z.shiftl (Z.land a 0xFF7F) 8 mod 65536 + b in
    mret (length, 2)
  else mret (a, 1).

Section writes.
Context {E : Type}.

(** Writes two bytes even for a length below 0x80. *)
Definition write_long_length (length : Z) : M WriteCursor.t E unit :=
  WriteCursor.write_u16_be (Z.lor length 0x8000).
Definition write_length (length : Z) : M WriteCursor.t E unit :=
  if 0x7f <? length then write_long_length length else WriteCursor.write_u8 length.

Definition write_u32 (value : Z) : M WriteCursor.t E unit :=
  if value <=? 0xff then _ ← write_length 1; WriteCursor.write_u8 value
  else if value <=? 0xffff then _ ← write_length 2; WriteCursor.write_u16_be value
  else _ ← write_length 4; WriteCursor.write_u32_be value.

Definition write_enum (enumerated : Z) : M WriteCursor.t E unit := WriteCursor.write_u8 enumerated.

End writes.

Definition sizeof_length (length : Z) : Z := if 0x7f <? length then 2 else 1.
Definition sizeof_u32 (value : Z) : Z :=
  if value <=? 0xff then 2 else if value <=? 0xffff then 3 else 5.

Definition read_u32 : PerRead Z :=
  '(length, _) ← read_length;
  if length =? 0 then mret 0
  else if length =? 1 then try_read_u8
  else if length =? 2 then try_read_u16_be
  else if length =? 4 then try_read_u32_be
  else read_fail (InvalidLength "U32 with length greater than 4 bytes").

Definition read_u16 (min : Z) : PerRead Z :=
  value ← try_read_u16_be;
  if min + value <=? 65535 then mret (min + value) else read_fail Overflow.
Definition write_u16 (value min : Z) : PerWrite unit :=
  if min <=? value then WriteCursor.write_u16_be (value - min) else write_fail Underflow.

Definition read_enum (count : Z) : PerRead Z :=
  enumerated ← try_read_u8;
  if count <=? enumerated then read_fail UnexpectedEnumVariant else mret enumerated.

End Per.

(** [per_field_err!(field, in: src)] *)
Definition per_decode_err (field : string) (e : Per.PerError * Z) : DecodeErrorKind :=
  DInvalidField field "PER" (Some e.2).
Definition per_encode_err (field : string) (e : Per.PerError * Z) : EncodeErrorKind :=
  EInvalidField field "PER" (Some e.2).

(** ** TPKT *)

Module TpktHeader.

Record t := mk { packet_length : Z }.

Definition VERSION : Z := 3.
Definition SIZE : Z := 4.

Definition read : Decoder t :=
  _ ← ReadCursor.ensure_size SIZE;
  version ← ReadCursor.read_u8;
  if negb (version =? VERSION) then fail_at (DUnsupportedVersion version)
  else
    _ ← ReadCursor.read_padding 1;
    packet_length ← ReadCursor.read_u16_be;
    if packet_length <? 7 then
      fail_at (DInvalidField "packetLength" "length is smaller than the minimum TPKT size")
    else mret (mk packet_length).

Definition write (h : t) : Encoder unit :=
  _ ← WriteCursor.ensure_size SIZE;
  _ ← WriteCursor.write_u8 VERSION;
  _ ← WriteCursor.write_padding 1;
  WriteCursor.write_u16_be (packet_length h).

End TpktHeader.

(** ** TPDU *)

Module TpduCode.

Definition CONNECTION_REQUEST : Z := 0xE0.
Definition CONNECTION_CONFIRM : Z := 0xD0.
Definition DISCONNECT_REQUEST : Z := 0x80.
Definition DATA : Z := 0xF0.
Definition ERROR : Z := 0x70.

Definition DATA_FIXED_PART_SIZE : Z := 3.
Definition NOT_DATA_FIXED_PART_SIZE : Z := 7.

Definition header_fixed_part_size (c : Z) : Z :=
  if c =? DATA then DATA_FIXED_PART_SIZE else NOT_DATA_FIXED_PART_SIZE.

Definition check_expected (c expected : Z) : outcome DecodeErrorKind unit :=
  if c =? expected then Ok tt else Err (DUnexpectedMessageType c None).

End TpduCode.

Module TpduHeader.

Record t := mk { li : Z; code : Z }.

Definition EOT_BYTE : Z := 0x80.

Definition read (tpkt : TpktHeader.t) : Decoder t :=
  _ ← ReadCursor.ensure_size TpduCode.DATA_FIXED_PART_SIZE;
  li_pos ← gets ReadCursor.pos;
  li ← ReadCursor.read_u8;
  code ← ReadCursor.read_u8;
  if TpktHeader.packet_length tpkt <? li + 1 + TpktHeader.SIZE then
    fail (DInvalidField "li" "tpdu length greater than tpkt length" (Some (Z.of_nat li_pos)))
  else if li =? 0xFF then
    fail (DInvalidField "li" "unsupported X.224 extension (suggested by LI field set to 255)"
      (Some (Z.of_nat li_pos)))
  else if code =? TpduCode.DATA then
    _ ← ReadCursor.read_padding 1;
    mret (mk li code)
  else
    _ ← ReadCursor.ensure_size 5;
    _ ← ReadCursor.read_padding 5;
    mret (mk li code).

Definition write (h : t) : Encoder unit :=
  _ ← WriteCursor.ensure_size TpduCode.DATA_FIXED_PART_SIZE;
  _ ← WriteCursor.write_u8 (li h);
  _ ← WriteCursor.write_u8 (code h);
  if code h =? TpduCode.DATA then WriteCursor.write_u8 EOT_BYTE
  else
    _ ← WriteCursor.ensure_size 5;
    _ ← WriteCursor.write_u16 0;
    _ ← WriteCursor.write_u16 0;
    WriteCursor.write_u8 0.

Definition fixed_part_size (h : t) : Z := TpduCode.header_fixed_part_size (code h).
Definition size (h : t) : Z := li h + 1.
(** A [usize] subtraction. *)
Definition variable_part_size (h : t) : Z := size h ⊖ fixed_part_size h.

End TpduHeader.

(** ** X.224 *)

Class X224Pdu (T : Type) := {
  TPDU_CODE : Z;
  x224_body_encode : T -> Encoder unit;
  x224_body_decode : TpktHeader.t -> TpduHeader.t -> Decoder T;
  tpdu_header_variable_part_size : T -> Z;
  tpdu_user_data_size : T -> Z;
}.

(** The wrapper type [X224<T>]. *)
Record X224 (T : Type) := mkX224 { x224 : T }.
Arguments mkX224 {T} x224.
Arguments x224 {T} _.

Definition X224_size {T} `{X224Pdu T} (p : X224 T) : Z :=
  TpktHeader.SIZE + TpduCode.header_fixed_part_size TPDU_CODE
  + tpdu_header_variable_part_size (x224 p) + tpdu_user_data_size (x224 p).

Definition X224_encode {T} `{X224Pdu T} (p : X224 T) : Encoder unit :=
  let packet_length := X224_size p in
  _ ← WriteCursor.ensure_size packet_length;
  packet_length ← cast_length_at "packet length" 65535 packet_length;
  _ ← TpktHeader.write (TpktHeader.mk packet_length);
  li ← cast_length_at "length indicator" 255
    (TpduCode.header_fixed_part_size TPDU_CODE + tpdu_header_variable_part_size (x224 p) - 1);
  _ ← TpduHeader.write (TpduHeader.mk li TPDU_CODE);
  x224_body_encode (x224 p).

Definition X224_decode {T} `{X224Pdu T} : Decoder (X224 T) :=
  tpkt ← TpktHeader.read;
  _ ← ReadCursor.ensure_size (sat_sub (TpktHeader.packet_length tpkt) TpktHeader.SIZE);
  tpdu ← TpduHeader.read tpkt;
  _ ← lift (TpduCode.check_expected (TpduHeader.code tpdu) TPDU_CODE);
  if TpduHeader.size tpdu <? TpduHeader.fixed_part_size tpdu then
    fail (DInvalidField "li" "fixed part bigger than total header size" None)
  else
    p ← x224_body_decode tpkt tpdu;
    mret (mkX224 p).

#[export] Instance X224_Encode {T} `{X224Pdu T} : Encode (X224 T) :=
  {| encode_into := X224_encode; size := X224_size |}.
#[export] Instance X224_Decode {T} `{X224Pdu T} : Decode (X224 T) := {| decode_from := X224_decode |}.

(** [usize] subtractions. *)
Definition user_data_size (tpkt : TpktHeader.t) (tpdu : TpduHeader.t) : Z :=
  TpktHeader.packet_length tpkt ⊖ TpktHeader.SIZE ⊖ TpduHeader.size tpdu.

Record X224Data := mkX224Data { x224_data : list Z }.

Definition X224Data_encode (p : X224Data) : Encoder unit :=
  _ ← WriteCursor.ensure_size (llen (x224_data p));
  WriteCursor.write_slice (x224_data p).
Definition X224Data_decode (tpkt : TpktHeader.t) (tpdu : TpduHeader.t) : Decoder X224Data :=
  let user_data_size := user_data_size tpkt tpdu in
  _ ← ReadCursor.ensure_size user_data_size;
  data ← ReadCursor.read_slice (Z.to_nat user_data_size);
  mret (mkX224Data data).
#[export] Instance X224Data_X224Pdu : X224Pdu X224Data := {|
  TPDU_CODE := TpduCode.DATA;
  x224_body_encode := X224Data_encode;
  x224_body_decode := X224Data_decode;
  tpdu_header_variable_part_size _ := 0;
  tpdu_user_data_size p := llen (x224_data p);
|}.

(** ** MCS *)

Class McsPdu (T : Type) := {
  mcs_body_encode : T -> Encoder unit;
  mcs_body_decode : Z -> Decoder T;
  mcs_size : T -> Z;
}.

Definition Mcs_x224_body_decode {T} `{McsPdu T} (tpkt : TpktHeader.t) (tpdu : TpduHeader.t) : Decoder T :=
  let tpdu_user_data_size := user_data_size tpkt tpdu in
  mcs_body_decode tpdu_user_data_size.

#[export] Instance Mcs_X224Pdu {T} `{McsPdu T} : X224Pdu T := {|
  TPDU_CODE := TpduCode.DATA;
  x224_body_encode := mcs_body_encode;
  x224_body_decode := Mcs_x224_body_decode;
  tpdu_header_variable_part_size _ := 0;
  tpdu_user_data_size := mcs_size;
|}.

Module DomainMcsPdu.

Inductive t :=
| ErectDomainRequest | DisconnectProviderUltimatum | AttachUserRequest | AttachUserConfirm
| ChannelJoinRequest | ChannelJoinConfirm | SendDataRequest | SendDataIndication.
#[export] Instance t_eq_dec : EqDecision t.
Proof. solve_decision. Defined.

Definition as_u8 (p : t) : Z :=
  match p with
  | ErectDomainRequest => 1 | DisconnectProviderUltimatum => 8
  | AttachUserRequest => 10 | AttachUserConfirm => 11
  | ChannelJoinRequest => 14 | ChannelJoinConfirm => 15
  | SendDataRequest => 25 | SendDataIndication => 26
  end.

Definition from_u8 (value : Z) : option t :=
  if value =? 1 then Some ErectDomainRequest
  else if value =? 8 then Some DisconnectProviderUltimatum
  else if value =? 10 then Some AttachUserRequest
  else if value =? 11 then Some AttachUserConfirm
  else if value =? 14 then Some ChannelJoinRequest
  else if value =? 15 then Some ChannelJoinConfirm
  else if value =? 25 then Some SendDataRequest
  else if value =? 26 then Some SendDataIndication
  else None.

Definition from_choice (choice : Z) : option t := from_u8 (Z.shiftr choice 2).
Definition to_choice (p : t) : Z := Z.shiftl (as_u8 p) 2 mod 256.

Definition check_expected (p expected : t) : outcome DecodeErrorKind unit :=
  if decide (p <> expected) then Err (DUnexpectedMessageType (as_u8 p) None) else Ok tt.

End DomainMcsPdu.

Definition RESULT_ENUM_LENGTH : Z := 16.
Definition BASE_CHANNEL_ID : Z := 1001.
Definition SEND_DATA_PDU_DATA_PRIORITY_AND_SEGMENTATION : Z := 0x70.

Definition not_enough (e : NotEnoughBytesError) : DecodeErrorKind := DOther "".

Definition choice_of (choice_pos : nat) (choice : Z) : Decoder DomainMcsPdu.t :=
  match DomainMcsPdu.from_choice choice with
  | Some p => mret p
  | None =>
      fail (DInvalidField "domain-mcspdu" "unexpected application tag for CHOICE"
        (Some (Z.of_nat choice_pos)))
  end.
Definition read_mcspdu_header : Decoder DomainMcsPdu.t :=
  choice_pos ← gets ReadCursor.pos;
  choice ← map_err_m not_enough ReadCursor.try_read_u8;
  choice_of choice_pos choice.
Definition peek_mcspdu_header : Decoder DomainMcsPdu.t :=
  choice_pos ← gets ReadCursor.pos;
  choice ← map_err_m not_enough ReadCursor.try_peek_u8;
  choice_of choice_pos choice.
Definition write_mcspdu_header (domain_mcspdu : DomainMcsPdu.t) (options : Z) : Encoder unit :=
  let choice := DomainMcsPdu.to_choice domain_mcspdu in
  WriteCursor.write_u8 (Z.lor choice options).

(** [read_mcspdu_header(src, name)?.check_expected(name, expected)?] *)
Definition expect_mcspdu (expected : DomainMcsPdu.t) : Decoder unit :=
  p ← read_mcspdu_header;
  lift (DomainMcsPdu.check_expected p expected).

(** *** ErectDomainPdu *)

Record ErectDomainPdu := mkErectDomain { sub_height : Z; sub_interval : Z }.
Definition ErectDomainPdu_encode (p : ErectDomainPdu) : Encoder unit :=
  _ ← write_mcspdu_header DomainMcsPdu.ErectDomainRequest 0;
  _ ← Per.write_u32 (sub_height p);
  Per.write_u32 (sub_interval p).
Definition ErectDomainPdu_decode (_ : Z) : Decoder ErectDomainPdu :=
  _ ← expect_mcspdu DomainMcsPdu.ErectDomainRequest;
  sub_height ← map_err_m (per_decode_err "subHeight") Per.read_u32;
  sub_interval ← map_err_m (per_decode_err "subInterval") Per.read_u32;
  mret (mkErectDomain sub_height sub_interval).
#[export] Instance ErectDomainPdu_Mcs : McsPdu ErectDomainPdu := {|
  mcs_body_encode := ErectDomainPdu_encode;
  mcs_body_decode := ErectDomainPdu_decode;
  mcs_size p := Per.CHOICE_SIZE + Per.sizeof_u32 (sub_height p) + Per.sizeof_u32 (sub_interval p);
|}.

(** *** AttachUserRequest *)

Inductive AttachUserRequest := mkAttachUserRequest.
Definition AttachUserRequest_encode (_ : AttachUserRequest) : Encoder unit :=
  write_mcspdu_header DomainMcsPdu.AttachUserRequest 0.
Definition AttachUserRequest_decode (_ : Z) : Decoder AttachUserRequest :=
  _ ← expect_mcspdu DomainMcsPdu.AttachUserRequest;
  mret mkAttachUserRequest.
#[export] Instance AttachUserRequest_Mcs : McsPdu AttachUserRequest := {|
  mcs_body_encode := AttachUserRequest_encode;
  mcs_body_decode := AttachUserRequest_decode;
  mcs_size _ := Per.CHOICE_SIZE;
|}.

(** *** AttachUserConfirm *)

Record AttachUserConfirm := mkAttachUserConfirm { auc_result : Z; auc_initiator_id : Z }.
Definition AttachUserConfirm_encode (p : AttachUserConfirm) : Encoder unit :=
  _ ← write_mcspdu_header DomainMcsPdu.AttachUserConfirm 2;
  _ ← Per.write_enum (auc_result p);
  map_err_m (per_encode_err "initiator") (Per.write_u16 (auc_initiator_id p) BASE_CHANNEL_ID).
Definition AttachUserConfirm_decode (_ : Z) : Decoder AttachUserConfirm :=
  _ ← expect_mcspdu DomainMcsPdu.AttachUserConfirm;
  result ← map_err_m (per_decode_err "result") (Per.read_enum RESULT_ENUM_LENGTH);
  user_id ← map_err_m (per_decode_err "userId") (Per.read_u16 BASE_CHANNEL_ID);
  mret (mkAttachUserConfirm result user_id).
#[export] Instance AttachUserConfirm_Mcs : McsPdu AttachUserConfirm := {|
  mcs_body_encode := AttachUserConfirm_encode;
  mcs_body_decode := AttachUserConfirm_decode;
  mcs_size _ := Per.CHOICE_SIZE + Per.ENUM_SIZE + Per.U16_SIZE;
|}.

(** *** ChannelJoinRequest *)

Record ChannelJoinRequest := mkChannelJoinRequest { cjr_initiator_id : Z; cjr_channel_id : Z }.
Definition ChannelJoinRequest_encode (p : ChannelJoinRequest) : Encoder unit :=
  _ ← write_mcspdu_header DomainMcsPdu.ChannelJoinRequest 0;
  _ ← map_err_m (per_encode_err "initiator") (Per.write_u16 (cjr_initiator_id p) BASE_CHANNEL_ID);
  map_err_m (per_encode_err "channelId") (Per.write_u16 (cjr_channel_id p) 0).
Definition ChannelJoinRequest_decode (_ : Z) : Decoder ChannelJoinRequest :=
  _ ← expect_mcspdu DomainMcsPdu.ChannelJoinRequest;
  initiator_id ← map_err_m (per_decode_err "initiator") (Per.read_u16 BASE_CHANNEL_ID);
  channel_id ← map_err_m (per_decode_err "channelID") (Per.read_u16 0);
  mret (mkChannelJoinRequest initiator_id channel_id).
#[export] Instance ChannelJoinRequest_Mcs : McsPdu ChannelJoinRequest := {|
  mcs_body_encode := ChannelJoinRequest_encode;
  mcs_body_decode := ChannelJoinRequest_decode;
  mcs_size _ := Per.CHOICE_SIZE + Per.U16_SIZE * 2;
|}.

(** *** ChannelJoinConfirm *)

Record ChannelJoinConfirm := mkChannelJoinConfirm {
  cjc_result : Z; cjc_initiator_id : Z; cjc_requested_channel_id : Z; cjc_channel_id : Z }.
Definition ChannelJoinConfirm_encode (p : ChannelJoinConfirm) : Encoder unit :=
  _ ← write_mcspdu_header DomainMcsPdu.ChannelJoinConfirm 2;
  _ ← Per.write_enum (cjc_result p);
  _ ← map_err_m (per_encode_err "initiator") (Per.write_u16 (cjc_initiator_id p) BASE_CHANNEL_ID);
  _ ← map_err_m (per_encode_err "requested") (Per.write_u16 (cjc_requested_channel_id p) 0);
  map_err_m (per_encode_err "channelId") (Per.write_u16 (cjc_channel_id p) 0).
Definition ChannelJoinConfirm_decode (_ : Z) : Decoder ChannelJoinConfirm :=
  _ ← expect_mcspdu DomainMcsPdu.ChannelJoinConfirm;
  result ← map_err_m (per_decode_err "result") (Per.read_enum RESULT_ENUM_LENGTH);
  initiator_id ← map_err_m (per_decode_err "initiator") (Per.read_u16 BASE_CHANNEL_ID);
  requested_channel_id ← map_err_m (per_decode_err "requested") (Per.read_u16 0);
  channel_id ← map_err_m (per_decode_err "channelId") (Per.read_u16 0);
  mret (mkChannelJoinConfirm result initiator_id requested_channel_id channel_id).
#[export] Instance ChannelJoinConfirm_Mcs : McsPdu ChannelJoinConfirm := {|
  mcs_body_encode := ChannelJoinConfirm_encode;
  mcs_body_decode := ChannelJoinConfirm_decode;
  mcs_size _ := Per.CHOICE_SIZE + Per.ENUM_SIZE + Per.U16_SIZE * 3;
|}.

(** *** SendDataRequest and SendDataIndication *)

Record SendDataRequest := mkSendDataRequest {
  sdr_initiator_id : Z; sdr_channel_id : Z; sdr_user_data : list Z }.
Definition SendDataRequest_encode (p : SendDataRequest) : Encoder unit :=
  _ ← write_mcspdu_header DomainMcsPdu.SendDataRequest 0;
  _ ← map_err_m (per_encode_err "initiator") (Per.write_u16 (sdr_initiator_id p) BASE_CHANNEL_ID);
  _ ← map_err_m (per_encode_err "channelID") (Per.write_u16 (sdr_channel_id p) 0);
  _ ← WriteCursor.write_u8 SEND_DATA_PDU_DATA_PRIORITY_AND_SEGMENTATION;
  length ← cast_length_at "user-data-length" 65535 (llen (sdr_user_data p));
  _ ← Per.write_length length;
  WriteCursor.write_slice (sdr_user_data p).
Definition SendDataRequest_decode (tpdu_user_data_size : Z) : Decoder SendDataRequest :=
  src_len_before ← gets ReadCursor.len;
  _ ← expect_mcspdu DomainMcsPdu.SendDataRequest;
  initiator_id ← map_err_m (per_decode_err "initiator") (Per.read_u16 BASE_CHANNEL_ID);
  channel_id ← map_err_m (per_decode_err "channelId") (Per.read_u16 0);
  _ ← ReadCursor.ensure_size 1;
  _ ← ReadCursor.read_padding 1;
  '(length, _) ← map_err_m (per_decode_err "userDataLength") Per.read_length;
  src_len_after ← gets ReadCursor.len;
  if sat_sub tpdu_user_data_size (src_len_before - src_len_after) <? length then
    fail (DInvalidField "userDataLength" "inconsistent with user data size advertised in TPDU" None)
  else
    _ ← ReadCursor.ensure_size length;
    user_data ← ReadCursor.read_slice (Z.to_nat length);
    mret (mkSendDataRequest initiator_id channel_id user_data).
#[export] Instance SendDataRequest_Mcs : McsPdu SendDataRequest := {|
  mcs_body_encode := SendDataRequest_encode;
  mcs_body_decode := SendDataRequest_decode;
  mcs_size p := Per.CHOICE_SIZE + Per.U16_SIZE * 2 + 1
    + Per.sizeof_length (llen (sdr_user_data p)) + llen (sdr_user_data p);
|}.

Record SendDataIndication := mkSendDataIndication {
  sdi_initiator_id : Z; sdi_channel_id : Z; sdi_user_data : list Z }.
Definition SendDataIndication_encode (p : SendDataIndication) : Encoder unit :=
  _ ← write_mcspdu_header DomainMcsPdu.SendDataIndication 0;
  _ ← map_err_m (per_encode_err "initiator") (Per.write_u16 (sdi_initiator_id p) BASE_CHANNEL_ID);
  _ ← map_err_m (per_encode_err "channelId") (Per.write_u16 (sdi_channel_id p) 0);
  _ ← WriteCursor.write_u8 SEND_DATA_PDU_DATA_PRIORITY_AND_SEGMENTATION;
  length ← cast_length_at "userDataLength" 65535 (llen (sdi_user_data p));
  _ ← Per.write_length length;
  WriteCursor.write_slice (sdi_user_data p).
Definition SendDataIndication_decode (tpdu_user_data_size : Z) : Decoder SendDataIndication :=
  src_len_before ← gets ReadCursor.len;
  _ ← expect_mcspdu DomainMcsPdu.SendDataIndication;
  initiator_id ← map_err_m (per_decode_err "initiator") (Per.read_u16 BASE_CHANNEL_ID);
  channel_id ← map_err_m (per_decode_err "channelId") (Per.read_u16 0);
  _ ← ReadCursor.ensure_size 1;
  _ ← ReadCursor.read_padding 1;
  '(length, _) ← map_err_m (per_decode_err "userDataLength") Per.read_length;
  src_len_after ← gets ReadCursor.len;
  if sat_sub tpdu_user_data_size (src_len_before - src_len_after) <? length then
    fail (DInvalidField "userDataLength" "inconsistent with user data size advertised in TPDU" None)
  else
    _ ← ReadCursor.ensure_size length;
    user_data ← ReadCursor.read_slice (Z.to_nat length);
    mret (mkSendDataIndication initiator_id channel_id user_data).
#[export] Instance SendDataIndication_Mcs : McsPdu SendDataIndication := {|
  mcs_body_encode := SendDataIndication_encode;
  mcs_body_decode := SendDataIndication_decode;
  mcs_size p := Per.CHOICE_SIZE + Per.U16_SIZE * 2 + 1
    + Per.sizeof_length (llen (sdi_user_data p)) + llen (sdi_user_data p);
|}.

(** *** DisconnectProviderUltimatum *)

Module DisconnectReason.

Inductive t := DomainDisconnected | ProviderInitiated | TokenPurged | UserRequested | ChannelPurged.

Definition as_u8 (r : t) : Z :=
  match r with
  | DomainDisconnected => 0 | ProviderInitiated => 1 | TokenPurged => 2
  | UserRequested => 3 | ChannelPurged => 4
  end.

Definition from_u8 (value : Z) : option t :=
  if value =? 0 then Some DomainDisconnected
  else if value =? 1 then Some ProviderInitiated
  else if value =? 2 then Some TokenPurged
  else if value =? 3 then Some UserRequested
  else if value =? 4 then Some ChannelPurged
  else None.

End DisconnectReason.

Record DisconnectProviderUltimatum := mkUltimatum { reason : DisconnectReason.t }.
Definition Ultimatum_encode (p : DisconnectProviderUltimatum) : Encoder unit :=
  let domain_mcspdu := DomainMcsPdu.as_u8 DomainMcsPdu.DisconnectProviderUltimatum in
  let reason := DisconnectReason.as_u8 (reason p) in
  let b1 := Z.lor (Z.shiftl domain_mcspdu 2 mod 256) (Z.land (Z.shiftr reason 1) 0x03) in
  let b2 := Z.shiftl reason 7 mod 256 in
  WriteCursor.write_array [b1; b2].
Definition Ultimatum_decode (_ : Z) : Decoder DisconnectProviderUltimatum :=
  _ ← ReadCursor.ensure_size 2;
  bs ← ReadCursor.read_array 2;
  match bs with
  | [b1; b2] =>
      let domain_mcspdu_choice := Z.shiftr b1 2 in
      let reason := Z.lor (Z.shiftl (Z.land b1 0x03) 1) (Z.shiftr b2 7) in
      match DomainMcsPdu.from_u8 domain_mcspdu_choice with
      | None => fail_at (DInvalidField "domain-mcspdu" "unexpected application tag for CHOICE")
      | Some p =>
          _ ← lift (DomainMcsPdu.check_expected p DomainMcsPdu.DisconnectProviderUltimatum);
          match DisconnectReason.from_u8 reason with
          | None => fail_at (DInvalidField "reason" "unknown variant")
          | Some r => mret (mkUltimatum r)
          end
      end
  | _ => crash
  end.
#[export] Instance Ultimatum_Mcs : McsPdu DisconnectProviderUltimatum := {|
  mcs_body_encode := Ultimatum_encode;
  mcs_body_decode := Ultimatum_decode;
  mcs_size _ := 2;
|}.

(** *** McsMessage *)

Inductive McsMessage :=
| MErectDomainRequest (p : ErectDomainPdu)
| MAttachUserRequest (p : AttachUserRequest)
| MAttachUserConfirm (p : AttachUserConfirm)
| MChannelJoinRequest (p : ChannelJoinRequest)
| MChannelJoinConfirm (p : ChannelJoinConfirm)
| MSendDataRequest (p : SendDataRequest)
| MSendDataIndication (p : SendDataIndication)
| MDisconnectProviderUltimatum (p : DisconnectProviderUltimatum).

Definition McsMessage_encode (m : McsMessage) : Encoder unit :=
  match m with
  | MErectDomainRequest p => mcs_body_encode p
  | MAttachUserRequest p => mcs_body_encode p
  | MAttachUserConfirm p => mcs_body_encode p
  | MChannelJoinRequest p => mcs_body_encode p
  | MChannelJoinConfirm p => mcs_body_encode p
  | MSendDataRequest p => mcs_body_encode p
  | MSendDataIndication p => mcs_body_encode p
  | MDisconnectProviderUltimatum p => mcs_body_encode p
  end.
Definition McsMessage_decode (n : Z) : Decoder McsMessage :=
  p ← peek_mcspdu_header;
  match p with
  | DomainMcsPdu.ErectDomainRequest => m ← mcs_body_decode n; mret (MErectDomainRequest m)
  | DomainMcsPdu.AttachUserRequest => m ← mcs_body_decode n; mret (MAttachUserRequest m)
  | DomainMcsPdu.AttachUserConfirm => m ← mcs_body_decode n; mret (MAttachUserConfirm m)
  | DomainMcsPdu.ChannelJoinRequest => m ← mcs_body_decode n; mret (MChannelJoinRequest m)
  | DomainMcsPdu.ChannelJoinConfirm => m ← mcs_body_decode n; mret (MChannelJoinConfirm m)
  | DomainMcsPdu.SendDataRequest => m ← mcs_body_decode n; mret (MSendDataRequest m)
  | DomainMcsPdu.SendDataIndication => m ← mcs_body_decode n; mret (MSendDataIndication m)
  | DomainMcsPdu.DisconnectProviderUltimatum => m ← mcs_body_decode n; mret (MDisconnectProviderUltimatum m)
  end.
Definition McsMessage_size (m : McsMessage) : Z :=
  match m with
  | MErectDomainRequest p => mcs_size p
  | MAttachUserRequest p => mcs_size p
  | MAttachUserConfirm p => mcs_size p
  | MChannelJoinRequest p => mcs_size p
  | MChannelJoinConfirm p => mcs_size p
  | MSendDataRequest p => mcs_size p
  | MSendDataIndication p => mcs_size p
  | MDisconnectProviderUltimatum p => mcs_size p
  end.
#[export] Instance McsMessage_Mcs : McsPdu McsMessage := {|
  mcs_body_encode := McsMessage_encode;
  mcs_body_decode := McsMessage_decode;
  mcs_size := McsMessage_size;
|}.

(** ** Entry points *)

Definition encode_send_data_request {T} `{Encode T} (initiator_id channel_id : Z) (user_msg : T)
    (buf : WriteBuf.t) : outcome EncodeErrorKind (Z * WriteBuf.t) :=
  user_data ← encode_vec user_msg;
  let pdu := mkSendDataRequest initiator_id channel_id user_data in
  encode_buf (mkX224 pdu) buf.

Record SendDataIndicationCtx := mkSendDataIndicationCtx {
  ctx_initiator_id : Z; ctx_channel_id : Z; ctx_user_data : list Z }.

Definition decode_send_data_indication (src : list Z) : outcome DecodeErrorKind SendDataIndicationCtx :=
  mcs_msg ← decode (X224 McsMessage) src;
  match x224 mcs_msg with
  | MSendDataIndication msg =>
      mret (mkSendDataIndicationCtx (sdi_initiator_id msg) (sdi_channel_id msg) (sdi_user_data msg))
  | MDisconnectProviderUltimatum _ => Err (DOther "received disconnect provider ultimatum")
  | _ => Err (DOther "unexpected MCS message")
  end.
