(* ===== verification/McsCodec.v ===== *)
(** What the MCS, X.224 and TPKT encoders write and the decoders read: every
    domain PDU whose fields fit reads back from exactly the bytes it was
    written as, whatever follows them, and no input makes the decoders
    panic. *)

From S2P Require Import Prelude Cursor Codec WriteBuf Mcs.

(** ** Errors mapped *)

Lemma decodes_map_err {E F A} (f : E -> F) (m : Reader E A) bs a :
  decodes m bs a -> decodes (map_err_m f m) bs a.
Proof. intros H pre post. unfold map_err_m. by rewrite H. Qed.

Lemma encodes_map_err {E F} (f : E -> F) (m : Writer E unit) bs :
  encodes m bs -> encodes (map_err_m f m) bs.
Proof. intros H pre hole post Hl. unfold map_err_m. by rewrite H. Qed.

Lemma safe_map_err {E F A} (f : E -> F) n (m : Reader E A) k P :
  safe n m k P -> safe n (map_err_m f m) k P.
Proof. intros H c Hc Hn. specialize (H c Hc Hn). unfold map_err_m. by destruct (m c) as [[]| |]. Qed.

Lemma encodes_cast_length field max n (k : Z -> Encoder unit) bs :
  n <= max -> encodes (k n) bs -> encodes (cast_length_at field max n ≫= k) bs.
Proof.
  intros Hn Hk. unfold cast_length_at. rewrite (proj2 (Z.leb_le _ _)) by done.
  intros pre hole post Hl. cbn. by apply Hk.
Qed.

(** Looking at the cursor. *)
Lemma decodes_gets {E A B} (f : ReadCursor.t -> B) (k : B -> Reader E A) bs a :
  (forall x, decodes (k x) bs a) -> decodes (gets f ≫= k) bs a.
Proof. intros H pre post. apply H. Qed.

Lemma safe_gets {E A B} n m (f : ReadCursor.t -> B) (k : B -> Reader E A) P :
  (forall x, safe n (k x) m P) -> safe n (gets f ≫= k) m P.
Proof. intros H c Hc Hn. by apply H. Qed.

(** A branch on how much input is left. *)
Lemma decodes_len_guard {E A} n (d : Reader E A) (k : Z -> Reader E A) bs a :
  n <= llen bs -> decodes d bs a ->
  decodes (len ← gets ReadCursor.len; if n <=? len then d else k len) bs a.
Proof.
  intros Hn Hd pre post. unfold gets, mbind, M_bind, ReadCursor.len. cbn. rewrite !llen_app.
  rewrite (proj2 (Z.leb_le _ _)); [apply Hd|]. pose proof (llen_nonneg post). unfold llen in *. lia.
Qed.

Lemma safe_len_guard {E A} n m (d : Reader E A) (k : Z -> Reader E A) P :
  safe n d m P -> (forall len, safe 0 (k len) m P) ->
  safe 0 (len ← gets ReadCursor.len; if n <=? len then d else k len) m P.
Proof.
  intros Hd Hk c Hc Hn. unfold gets, mbind, M_bind.
  destruct (Z.leb_spec n (ReadCursor.len c)); [by apply Hd|by apply Hk].
Qed.

(** ** PER *)

Section per.
Import Per.

Lemma safe_read_fail {A} n m e (P : A -> Prop) : safe n (read_fail e : PerRead A) m P.
Proof. done. Qed.

Lemma decodes_try_u8 x : is_u8 x -> decodes try_read_u8 [x] x.
Proof.
  intros Hx pre post. unfold try_read_u8, gets. unfold mbind at 1, M_bind at 1.
  unfold ReadCursor.is_empty, ReadCursor.len. cbn [ReadCursor.inner ReadCursor.pos]. rewrite !llen_app.
  rewrite (proj2 (Z.eqb_neq _ _)); [by apply decodes_u8|].
  pose proof (llen_nonneg post). rewrite llen_cons, llen_nil. unfold llen in *. lia.
Qed.

Lemma safe_try_u8 : safe 0 try_read_u8 0 is_u8.
Proof.
  intros c Hc Hn. unfold try_read_u8, gets. unfold mbind at 1, M_bind at 1. unfold ReadCursor.is_empty.
  destruct (Z.eqb_spec (ReadCursor.len c) 0); [done|]. apply (safe_u8 0); [lia|done|lia].
Qed.

Lemma decodes_try_u16_be x : is_u16 x -> decodes try_read_u16_be (to_be_bytes 2 x) x.
Proof. intros Hx. apply decodes_len_guard; [done|by apply decodes_u16_be]. Qed.

Lemma safe_try_u16_be : safe 0 try_read_u16_be 0 is_u16.
Proof. apply safe_len_guard; [apply (safe_u16_be 0); lia|done]. Qed.

Lemma decodes_try_u32_be x : is_u32 x -> decodes try_read_u32_be (to_be_bytes 4 x) x.
Proof. intros Hx. apply decodes_len_guard; [done|by apply decodes_u32_be]. Qed.

Lemma safe_try_u32_be : safe 0 try_read_u32_be 0 is_u32.
Proof. apply safe_len_guard; [apply (safe_u32_be 0); lia|done]. Qed.

(** The bytes of a length below 0x8000. *)
Definition length_wire (n : Z) : list Z :=
  if 0x7f <? n then to_be_bytes 2 (Z.lor n 0x8000) else [n].

Lemma llen_length_wire n : llen (length_wire n) = sizeof_length n.
Proof. unfold length_wire, sizeof_length. by destruct (0x7f <? n). Qed.

Lemma encodes_length {E} n : 0 <= n -> encodes (write_length n : Writer E unit) (length_wire n).
Proof.
  intros Hn. unfold write_length, write_long_length, length_wire. zcase.
  - apply encodes_u16_be.
  - apply encodes_u8. width.
Qed.

Lemma length_high_byte n :
  0 <= n < 0x8000 ->
  exists a b, to_be_bytes 2 (Z.lor n 0x8000) = [a; b] /\ is_u8 a /\ is_u8 b /\
    Z.land a 0x80 =? 0 = false /\ Z.shiftl (Z.land a 0xFF7F) 8 mod 65536 + b = n.
Proof.
  intros Hn. rewrite Z.lor_comm, (lor_high_low 0x8000 n 15) by (try done; lia).
  unfold to_be_bytes. cbn [to_le_bytes reverse rev_append].
  exists ((0x8000 + n) / 256 mod 256), ((0x8000 + n) mod 256).
  split; [done|]. rewrite Z.mod_small by zdm. set (a := (0x8000 + n) / 256).
  assert (Ha : 128 <= a < 256) by (unfold a; zdm).
  split; [width|]. split; [unfold is_u8; zdm|].
  assert (H := forall_range (fun x => negb (Z.land (128 + x) 0x80 =? 0) && (Z.land (128 + x) 0xFF7F =? x)) 128
    eq_refl (a - 128) ltac:(lia)).
  cbv beta in H. replace (128 + (a - 128)) with a in H by lia. apply andb_prop in H as [H1 H2%Z.eqb_eq].
  split; [by destruct (Z.land a 0x80 =? 0)|]. rewrite H2, Z.shiftl_mul_pow2 by lia. unfold a. zdm.
Qed.

Lemma decodes_length n : 0 <= n < 0x8000 -> decodes read_length (length_wire n) (n, sizeof_length n).
Proof.
  intros Hn. unfold read_length, length_wire, sizeof_length. destruct (Z.ltb_spec 0x7f n).
  - destruct (length_high_byte n ltac:(lia)) as (a & b & -> & Ha & Hb & Hl & Hv).
    eapply (decodes_bind _ _ [a] [b] a); [by apply decodes_try_u8|]. cbv beta. rewrite Hl. cbn [negb].
    eapply (decodes_last _ _ [b] b); [by apply decodes_try_u8|]. cbv beta zeta. rewrite Hv. apply decodes_ret.
  - eapply (decodes_last _ _ [n] n); [apply decodes_try_u8; width|]. cbv beta.
    assert (H1 := forall_range (fun x => Z.land x 0x80 =? 0) 128 eq_refl n ltac:(lia)). cbv beta in H1.
    rewrite H1. apply decodes_ret.
Qed.

Lemma safe_length : safe 0 read_length 0 (fun r => 0 <= r.1 < 0x8000).
Proof.
  unfold read_length. eapply safe_bind; [apply safe_try_u8|]. intros a Ha.
  destruct (Z.land a 0x80 =? 0) eqn:Hhi; cbn [negb].
  - apply safe_ret. cbn. apply Z.eqb_eq in Hhi.
    assert (H := forall_range (fun x => negb (Z.land x 0x80 =? 0) || (x <? 128)) 256 eq_refl a Ha).
    cbv beta in H. rewrite Hhi in H. cbn in H. apply Z.ltb_lt in H. width.
  - eapply safe_bind; [apply safe_try_u8|]. intros b Hb. apply safe_ret. cbn [fst].
    assert (H := forall_range (fun x => (0 <=? Z.land x 0xFF7F) && (Z.land x 0xFF7F <? 128)) 256 eq_refl a Ha).
    cbv beta in H. apply andb_prop in H as [H1%Z.leb_le H2%Z.ltb_lt]. rewrite Z.shiftl_mul_pow2 by lia. unfold is_u8 in Hb. zdm.
Qed.

Definition u32_wire (v : Z) : list Z :=
  if v <=? 0xff then [1; v] else if v <=? 0xffff then 2 :: to_be_bytes 2 v else 4 :: to_be_bytes 4 v.

Lemma llen_u32_wire v : llen (u32_wire v) = sizeof_u32 v.
Proof. unfold u32_wire, sizeof_u32. by destruct (v <=? 0xff), (v <=? 0xffff). Qed.

Lemma encodes_per_u32 {E} v : is_u32 v -> encodes (write_u32 v : Writer E unit) (u32_wire v).
Proof.
  intros Hv. unfold write_u32, u32_wire. zcase.
  - apply (encodes_bind _ _ [1] [v]); [by apply (encodes_length 1)|]. apply encodes_u8. width.
  - apply (encodes_bind _ _ [2]); [by apply (encodes_length 2)|apply encodes_u16_be].
  - apply (encodes_bind _ _ [4]); [by apply (encodes_length 4)|apply encodes_u32_be].
Qed.

Lemma decodes_per_u32 v : is_u32 v -> decodes read_u32 (u32_wire v) v.
Proof.
  intros Hv. unfold read_u32, u32_wire. zcase.
  - eapply (decodes_bind _ _ [1] [v]); [by apply (decodes_length 1)|]. apply decodes_try_u8. width.
  - eapply (decodes_bind _ _ [2]); [by apply (decodes_length 2)|]. apply decodes_try_u16_be. width.
  - eapply (decodes_bind _ _ [4]); [by apply (decodes_length 4)|]. by apply decodes_try_u32_be.
Qed.

Lemma safe_per_u32 : safe 0 read_u32 0 is_u32.
Proof.
  unfold read_u32. eapply safe_bind; [apply safe_length|]. intros [n k] _. cbv iota.
  repeat case_match; [by apply safe_ret| | |apply safe_try_u32_be|done].
  - eapply safe_weaken; [apply safe_try_u8|lia|lia|intros ?; width].
  - eapply safe_weaken; [apply safe_try_u16_be|lia|lia|intros ?; width].
Qed.

Lemma encodes_per_u16 v m : m <= v -> encodes (write_u16 v m) (to_be_bytes 2 (v - m)).
Proof. intros H. unfold write_u16. rewrite (proj2 (Z.leb_le _ _)) by done. apply encodes_u16_be. Qed.

Lemma decodes_per_u16 v m : 0 <= m <= v -> is_u16 v -> decodes (read_u16 m) (to_be_bytes 2 (v - m)) v.
Proof.
  intros Hm Hv. unfold read_u16. eapply decodes_last; [apply decodes_try_u16_be; width|]. cbv beta.
  replace (m + (v - m)) with v by lia. rewrite (proj2 (Z.leb_le _ _)) by width. apply decodes_ret.
Qed.

Lemma safe_per_u16 m : 0 <= m -> safe 0 (read_u16 m) 0 (fun v => m <= v <= 65535).
Proof.
  intros Hm. unfold read_u16. eapply safe_bind; [apply safe_try_u16_be|]. intros v Hv. cbv beta.
  destruct (Z.leb_spec (m + v) 65535); [apply safe_ret; width|done].
Qed.

Lemma decodes_enum x count : is_u8 x -> x < count -> decodes (read_enum count) [x] x.
Proof.
  intros Hx Hc. unfold read_enum. eapply (decodes_last _ _ [x]); [by apply decodes_try_u8|]. cbv beta.
  rewrite (proj2 (Z.leb_gt _ _)) by done. apply decodes_ret.
Qed.

Lemma safe_enum count : safe 0 (read_enum count) 0 (fun x => 0 <= x < count).
Proof.
  unfold read_enum. eapply safe_bind; [apply safe_try_u8|]. intros x Hx. cbv beta.
  destruct (Z.leb_spec count x); [done|]. apply safe_ret. width.
Qed.

End per.

(** ** X.224 data packets *)

(** What a user of X.224 data TPDUs promises to the framing. *)
Class X224Codec (T : Type) {X : X224Pdu T} := {
  x224_code : TPDU_CODE (T := T) = TpduCode.DATA;
  x224_wf : T -> Prop;
  x224_wire : T -> list Z;
  x224_variable (a : T) : tpdu_header_variable_part_size a = 0;
  x224_size (a : T) : x224_wf a -> tpdu_user_data_size a = llen (x224_wire a);
  x224_short (a : T) : x224_wf a -> llen (x224_wire a) <= 65528;
  x224_encodes (a : T) : x224_wf a -> encodes (x224_body_encode a) (x224_wire a);
  x224_decodes (a : T) tpkt tpdu :
    x224_wf a -> user_data_size tpkt tpdu = llen (x224_wire a) ->
    decodes (x224_body_decode tpkt tpdu) (x224_wire a) a;
  x224_safe tpkt tpdu :
    0 <= user_data_size tpkt tpdu <= 65528 -> safe 0 (x224_body_decode (T := T) tpkt tpdu) 0 x224_wf;
}.

Definition tpkt_wire (n : Z) : list Z := [3; 0] ++ to_be_bytes 2 n.

Lemma encodes_tpkt n : encodes (TpktHeader.write (TpktHeader.mk n)) (tpkt_wire n).
Proof.
  unfold TpktHeader.write. apply encodes_ensure; [done|].
  apply (encodes_bind _ _ [3]); [by apply encodes_u8|].
  apply (encodes_bind _ _ [0]); [apply (encodes_padding 1)|apply encodes_u16_be].
Qed.

Lemma decodes_tpkt n :
  7 <= n <= 65535 -> decodes TpktHeader.read (tpkt_wire n) (TpktHeader.mk n).
Proof.
  intros Hn. unfold TpktHeader.read. apply decodes_ensure; [done|].
  apply (decodes_bind _ _ [3] _ 3); [by apply decodes_u8|]. cbn [negb Z.eqb TpktHeader.VERSION Pos.eqb].
  apply (decodes_bind _ _ [0] _ tt); [apply (decodes_read_padding [0])|].
  eapply decodes_last; [apply decodes_u16_be; width|]. cbv beta.
  rewrite (proj2 (Z.ltb_ge _ _)) by lia. apply decodes_ret.
Qed.

Lemma safe_tpkt : safe 0 TpktHeader.read 0 (fun h => 7 <= TpktHeader.packet_length h <= 65535).
Proof.
  unfold TpktHeader.read. eapply safe_bind; [apply safe_ensure|]. intros _ _.
  change (Z.max 0 TpktHeader.SIZE) with (3 + 1).
  eapply safe_bind; [apply (safe_u8 3); lia|]. intros v _. destruct (negb _); [done|].
  change 3 with (2 + Z.of_nat 1). eapply safe_bind; [apply safe_padding; lia|]. intros _ _.
  eapply safe_bind; [apply (safe_u16_be 0); lia|]. intros n Hn. cbv beta.
  destruct (Z.ltb_spec n 7); [done|]. apply safe_ret. cbn. width.
Qed.

Lemma encodes_data_tpdu : encodes (TpduHeader.write (TpduHeader.mk 2 TpduCode.DATA)) [2; 0xF0; 0x80].
Proof.
  unfold TpduHeader.write. apply encodes_ensure; [done|]. cbn [TpduHeader.li TpduHeader.code].
  apply (encodes_bind _ _ [2]); [by apply encodes_u8|].
  apply (encodes_bind _ _ [0xF0]); [by apply encodes_u8|]. rewrite Z.eqb_refl. by apply encodes_u8.
Qed.

Lemma decodes_data_tpdu n :
  7 <= n ->
  decodes (TpduHeader.read (TpktHeader.mk n)) [2; 0xF0; 0x80] (TpduHeader.mk 2 TpduCode.DATA).
Proof.
  intros Hn. unfold TpduHeader.read. apply decodes_ensure; [done|]. apply decodes_gets.
  intros p. apply (decodes_bind _ _ [2] _ 2); [by apply decodes_u8|].
  apply (decodes_bind _ _ [0xF0] _ 0xF0); [by apply decodes_u8|]. cbn [TpktHeader.packet_length].
  unfold TpktHeader.SIZE. rewrite (proj2 (Z.ltb_ge _ _)) by lia.
  cbn [Z.eqb Pos.eqb TpduCode.DATA]. eapply decodes_last; [apply (decodes_read_padding [0x80])|]. apply decodes_ret.
Qed.

Lemma safe_tpdu tpkt :
  safe 0 (TpduHeader.read tpkt) 0 (fun h => 0 <= TpduHeader.li h /\
    TpduHeader.li h + 1 + TpktHeader.SIZE <= TpktHeader.packet_length tpkt).
Proof.
  unfold TpduHeader.read. eapply safe_bind; [apply safe_ensure|]. intros _ _.
  change (Z.max 0 TpduCode.DATA_FIXED_PART_SIZE) with (2 + 1).
  apply safe_gets.
  intros p. eapply safe_bind; [apply (safe_u8 2); lia|]. intros li Hli.
  eapply safe_bind; [apply (safe_u8 1); lia|]. intros code _. cbv beta.
  destruct (Z.ltb_spec (TpktHeader.packet_length tpkt) (li + 1 + TpktHeader.SIZE)); [done|].
  destruct (li =? 0xFF); [done|].
  assert (Hw : 0 <= TpduHeader.li (TpduHeader.mk li code) /\
    TpduHeader.li (TpduHeader.mk li code) + 1 + TpktHeader.SIZE <= TpktHeader.packet_length tpkt)
    by (cbn; width).
  destruct (code =? TpduCode.DATA).
  - change 1 with (0 + Z.of_nat 1). eapply safe_bind; [apply safe_padding; lia|]. intros _ _. by apply safe_ret.
  - eapply safe_bind; [apply safe_ensure|]. intros _ _. change (Z.max 1 5) with (0 + Z.of_nat 5).
    eapply safe_bind; [apply safe_padding; lia|]. intros _ _. by apply safe_ret.
Qed.

Lemma llen_frame n xs : llen (tpkt_wire n ++ [2; 0xF0; 0x80] ++ xs) = 7 + llen xs.
Proof. unfold tpkt_wire. rewrite !llen_app. unfold llen. cbn. lia. Qed.

Section x224.
Context {T : Type} {X : X224Pdu T} {C : X224Codec T}.

Definition X224_wire (p : X224 T) : list Z :=
  tpkt_wire (7 + llen (x224_wire (x224 p))) ++ [2; 0xF0; 0x80] ++ x224_wire (x224 p).

Lemma llen_X224_wire p : llen (X224_wire p) = 7 + llen (x224_wire (x224 p)).
Proof. apply llen_frame. Qed.

Lemma X224_size_wire p : x224_wf (x224 p) -> X224_size p = llen (X224_wire p).
Proof.
  intros H. unfold X224_size. rewrite llen_X224_wire, x224_code, x224_variable, x224_size by done.
  change (TpduCode.header_fixed_part_size TpduCode.DATA) with 3. unfold TpktHeader.SIZE. lia.
Qed.

Lemma X224_encodes p : x224_wf (x224 p) -> encodes (X224_encode p) (X224_wire p).
Proof.
  intros H. unfold X224_encode. pose proof (x224_short _ H). apply encodes_ensure; [rewrite X224_size_wire by done; lia|].
  rewrite X224_size_wire, llen_X224_wire by done. apply encodes_cast_length; [lia|].
  apply encodes_bind; [apply encodes_tpkt|]. rewrite x224_code, x224_variable.
  apply encodes_cast_length; [done|]. apply encodes_bind; [apply encodes_data_tpdu|]. by apply x224_encodes.
Qed.

Lemma X224_decodes p : x224_wf (x224 p) -> decodes X224_decode (X224_wire p) p.
Proof.
  intros H. unfold X224_decode. pose proof (x224_short _ H). pose proof (llen_nonneg (x224_wire (x224 p))).
  apply (decodes_bind _ _ (tpkt_wire (7 + llen (x224_wire (x224 p)))) _
    (TpktHeader.mk (7 + llen (x224_wire (x224 p))))); [apply decodes_tpkt; lia|].
  apply decodes_ensure. { rewrite llen_app. cbn. unfold sat_sub, TpktHeader.SIZE. unfold llen in *. cbn. lia. }
  eapply decodes_bind; [apply decodes_data_tpdu; lia|]. cbv beta. rewrite x224_code.
  eapply decodes_bind_nil; [by apply decodes_lift|]. cbn [TpduHeader.size TpduHeader.li].
  eapply decodes_last.
  - apply x224_decodes; [done|]. unfold user_data_size. cbn [TpktHeader.packet_length].
    unfold TpktHeader.SIZE, TpduHeader.size. cbn [TpduHeader.li].
    rewrite (wsub64_small _ 4) by width. rewrite wsub64_small by width. lia.
  - destruct p. apply decodes_ret.
Qed.

Lemma X224_safe : safe 0 (X224_decode (T := T)) 0 (fun p => x224_wf (x224 p)).
Proof.
  unfold X224_decode. eapply safe_bind; [apply safe_tpkt|]. intros tpkt Ht.
  eapply safe_bind; [apply safe_ensure|]. intros _ _.
  eapply safe_bind; [eapply safe_weaken; [apply (safe_tpdu tpkt)|lia|apply Z.le_refl|done]|].
  intros tpdu [Hl0 Hl]. rewrite x224_code.
  eapply safe_bind; [apply safe_lift; unfold TpduCode.check_expected; by destruct (_ =? _)|].
  intros u Hc. unfold TpduCode.check_expected in Hc. destruct (Z.eqb_spec (TpduHeader.code tpdu) TpduCode.DATA) as [Hd|]; [|done].
  unfold TpduHeader.fixed_part_size, TpduHeader.size. rewrite Hd. cbn [TpduCode.header_fixed_part_size].
  change (TpduCode.header_fixed_part_size TpduCode.DATA) with 3.
  destruct (Z.ltb_spec (TpduHeader.li tpdu + 1) 3); [done|].
  eapply safe_bind; [apply x224_safe|intros a Ha; by apply safe_ret].
  unfold user_data_size, TpduHeader.size, TpktHeader.SIZE in *.
  rewrite (wsub64_small _ 4) by width. rewrite wsub64_small by width. lia.
Qed.

#[export] Instance X224_Codec : Codec (X224 T) := {|
  wf p := x224_wf (x224 p);
  wire := X224_wire;
  wire_encodes := X224_encodes;
  wire_size := X224_size_wire;
  wire_decodes p H := decodes_to_end _ _ _ (X224_decodes p H);
  decode_safe := X224_safe;
|}.
#[export] Instance X224_Framed : Framed (X224 T).
Proof. split. apply X224_decodes. Qed.

End x224.

(** ** MCS messages *)

(** What a domain PDU promises: [n] is the size the TPDU announces. *)
Class McsCodec (T : Type) {M : McsPdu T} := {
  mcs_wf : T -> Prop;
  mcs_wire : T -> list Z;
  mcs_wire_size (a : T) : mcs_wf a -> mcs_size a = llen (mcs_wire a);
  mcs_short (a : T) : mcs_wf a -> llen (mcs_wire a) <= 65528;
  mcs_encodes (a : T) : mcs_wf a -> encodes (mcs_body_encode a) (mcs_wire a);
  mcs_decodes (a : T) : mcs_wf a -> decodes (mcs_body_decode (llen (mcs_wire a))) (mcs_wire a) a;
  mcs_safe n : safe 0 (mcs_body_decode (T := T) n) 0 mcs_wf;
}.

#[export] Instance Mcs_X224Codec {T} {M : McsPdu T} {C : McsCodec T} : X224Codec T.
Proof.
  refine (@Build_X224Codec T Mcs_X224Pdu eq_refl mcs_wf mcs_wire (fun _ => eq_refl)
    mcs_wire_size mcs_short mcs_encodes _ _).
  - intros a tpkt tpdu Ha Hn. cbn. unfold Mcs_x224_body_decode. rewrite Hn. by apply mcs_decodes.
  - intros tpkt tpdu _. apply mcs_safe.
Defined.

Definition choice_byte (p : DomainMcsPdu.t) (options : Z) : Z := Z.lor (DomainMcsPdu.to_choice p) options.

Lemma choice_byte_ok p o :
  0 <= o < 4 -> is_u8 (choice_byte p o) /\ DomainMcsPdu.from_choice (choice_byte p o) = Some p.
Proof.
  intros Ho. assert (o = 0 \/ o = 1 \/ o = 2 \/ o = 3) as [-> | [-> | [-> | ->]]] by lia; destruct p; by split.
Qed.

Lemma encodes_choice p o :
  0 <= o < 4 -> encodes (write_mcspdu_header p o) [choice_byte p o].
Proof. intros Ho. apply encodes_u8. by apply choice_byte_ok. Qed.

Lemma decodes_choice_of {A} p o n (k : DomainMcsPdu.t -> Decoder A) bs a :
  0 <= o < 4 -> decodes (k p) bs a -> decodes (choice_of n (choice_byte p o) ≫= k) bs a.
Proof.
  intros Ho Hk. unfold choice_of. rewrite (proj2 (choice_byte_ok p o Ho)). intros pre post. apply Hk.
Qed.

Lemma decodes_try_read_u8 x : is_u8 x -> decodes ReadCursor.try_read_u8 [x] x.
Proof.
  intros Hx pre post. unfold ReadCursor.try_read_u8, ReadCursor.ensure_enough_bytes, ReadCursor.len.
  unfold mbind, M_bind. cbn [ReadCursor.inner ReadCursor.pos]. rewrite !llen_app, llen_cons.
  rewrite (proj2 (Z.leb_le _ _)); [by apply decodes_u8|].
  pose proof (llen_nonneg post). unfold llen in *. cbn. lia.
Qed.

Lemma decodes_expect p o : 0 <= o < 4 -> decodes (expect_mcspdu p) [choice_byte p o] tt.
Proof.
  intros Ho. unfold expect_mcspdu. eapply decodes_last.
  - unfold read_mcspdu_header. apply decodes_gets. intros n.
    eapply decodes_last; [apply decodes_map_err, decodes_try_read_u8; by apply choice_byte_ok|].
    unfold choice_of. rewrite (proj2 (choice_byte_ok p o Ho)). apply decodes_ret.
  - apply decodes_lift. unfold DomainMcsPdu.check_expected. by rewrite decide_False by (by intros []).
Qed.

Lemma safe_try_read_u8 : safe 0 ReadCursor.try_read_u8 0 is_u8.
Proof.
  intros c Hc Hn. unfold ReadCursor.try_read_u8, ReadCursor.ensure_enough_bytes.
  unfold mbind, M_bind. destruct (Z.leb_spec (Z.of_nat 1) (ReadCursor.len c)); [|done].
  apply (safe_u8 0); [lia|done|lia].
Qed.

Lemma safe_choice_of n b : safe 0 (choice_of n b) 0 (fun _ => True).
Proof. unfold choice_of. case_match; [by apply safe_ret|done]. Qed.

Lemma safe_expect p : safe 0 (expect_mcspdu p) 0 (fun _ => True).
Proof.
  unfold expect_mcspdu, read_mcspdu_header. eapply safe_bind.
  - apply safe_gets. intros n. eapply safe_bind; [apply safe_map_err, safe_try_read_u8|].
    intros b _. apply safe_choice_of.
  - intros q _. eapply safe_weaken; [apply safe_lift|apply Z.le_refl|apply Z.le_refl|done].
    unfold DomainMcsPdu.check_expected. by case_match.
Qed.

(** User ids start at 1001 on the wire. *)
Definition is_user_id (x : Z) : Prop := BASE_CHANNEL_ID <= x <= 65535.
Definition user_id_wire (x : Z) : list Z := to_be_bytes 2 (x - BASE_CHANNEL_ID).
Definition channel_id_wire (x : Z) : list Z := to_be_bytes 2 (x - 0).

Lemma encodes_user_id f x :
  is_user_id x -> encodes (map_err_m f (Per.write_u16 x BASE_CHANNEL_ID) : Encoder unit) (user_id_wire x).
Proof. intros [H _]. by apply encodes_map_err, encodes_per_u16. Qed.
Lemma encodes_channel_id f x :
  is_u16 x -> encodes (map_err_m f (Per.write_u16 x 0) : Encoder unit) (channel_id_wire x).
Proof. intros H. apply encodes_map_err, encodes_per_u16. width. Qed.
Lemma decodes_user_id f x :
  is_user_id x -> decodes (map_err_m f (Per.read_u16 BASE_CHANNEL_ID) : Decoder Z) (user_id_wire x) x.
Proof.
  intros H. apply decodes_map_err, decodes_per_u16; unfold is_user_id, BASE_CHANNEL_ID in *; width.
Qed.
Lemma decodes_channel_id f x :
  is_u16 x -> decodes (map_err_m f (Per.read_u16 0) : Decoder Z) (channel_id_wire x) x.
Proof. intros H. apply decodes_map_err, decodes_per_u16; width. Qed.
Lemma safe_user_id f : safe 0 (map_err_m f (Per.read_u16 BASE_CHANNEL_ID) : Decoder Z) 0 is_user_id.
Proof. apply safe_map_err, safe_per_u16. done. Qed.
Lemma safe_channel_id f : safe 0 (map_err_m f (Per.read_u16 0) : Decoder Z) 0 is_u16.
Proof.
  apply safe_map_err. eapply safe_weaken; [by apply safe_per_u16|lia|lia|]. intros v Hv. width.
Qed.

#[export] Hint Resolve encodes_user_id encodes_channel_id decodes_user_id decodes_channel_id
  decodes_map_err encodes_map_err encodes_per_u32 decodes_per_u32 decodes_enum : codec.
#[export] Hint Resolve safe_expect safe_user_id safe_channel_id safe_map_err safe_enum safe_per_u32 : codec.

Lemma llen_be n x : llen (to_be_bytes n x) = Z.of_nat n.
Proof. unfold llen. by rewrite length_to_be_bytes. Qed.
#[export] Hint Rewrite llen_be llen_length_wire llen_u32_wire : rdp.

Ltac mcs_len :=
  unfold user_id_wire, channel_id_wire, Per.CHOICE_SIZE, Per.ENUM_SIZE, Per.U16_SIZE in *;
  autorewrite with rdp; try lia.

(** *** The PDUs of the connection sequence *)

Definition ErectDomain_wire (p : ErectDomainPdu) : list Z :=
  [choice_byte DomainMcsPdu.ErectDomainRequest 0] ++ u32_wire (sub_height p) ++ u32_wire (sub_interval p).

#[export] Instance ErectDomain_Codec : McsCodec ErectDomainPdu.
Proof.
  refine {| mcs_wf p := is_u32 (sub_height p) /\ is_u32 (sub_interval p); mcs_wire := ErectDomain_wire |};
    unfold ErectDomain_wire.
  - intros p _. cbn [mcs_size ErectDomainPdu_Mcs]. mcs_len.
  - intros p _. mcs_len. unfold Per.sizeof_u32. repeat case_match; lia.
  - intros p [H1 H2]. apply encodes_bind; [by apply encodes_choice|].
    apply encodes_bind; by apply encodes_per_u32.
  - intros p [H1 H2]. apply (decodes_bind _ _ [_] _ tt); [by apply decodes_expect|].
    eapply decodes_bind; [eauto with codec|]. eapply decodes_last; [eauto with codec|]. destruct p. apply decodes_ret.
  - intros n. eapply safe_bind; [apply safe_expect|]. intros _ _.
    eapply safe_bind; [apply safe_map_err, safe_per_u32|]. intros h Hh.
    eapply safe_bind; [apply safe_map_err, safe_per_u32|]. intros i Hi. by apply safe_ret.
Defined.

#[export] Instance AttachUserRequest_Codec : McsCodec AttachUserRequest.
Proof.
  refine {| mcs_wf _ := True; mcs_wire _ := [choice_byte DomainMcsPdu.AttachUserRequest 0] |}.
  - done.
  - intros _ _. cbn. done.
  - intros p _. by apply encodes_choice.
  - intros [] _. eapply decodes_last; [by apply decodes_expect|]. apply decodes_ret.
  - intros n. eapply safe_bind; [apply safe_expect|]. intros _ _. by apply safe_ret.
Defined.

Definition AttachUserConfirm_wire (p : AttachUserConfirm) : list Z :=
  [choice_byte DomainMcsPdu.AttachUserConfirm 2] ++ [auc_result p] ++ user_id_wire (auc_initiator_id p).

#[export] Instance AttachUserConfirm_Codec : McsCodec AttachUserConfirm.
Proof.
  refine {| mcs_wf p := 0 <= auc_result p < 16 /\ is_user_id (auc_initiator_id p);
    mcs_wire := AttachUserConfirm_wire |}; unfold AttachUserConfirm_wire.
  - intros p _. mcs_len. done.
  - intros p _. mcs_len.
  - intros p [H1 H2]. apply encodes_bind; [by apply encodes_choice|].
    apply encodes_bind; [apply encodes_u8; width|by apply encodes_user_id].
  - intros p [H1 H2]. apply (decodes_bind _ _ [_] _ tt); [by apply decodes_expect|].
    apply (decodes_bind _ _ [_] _ (auc_result p)); [apply decodes_map_err, decodes_enum; unfold RESULT_ENUM_LENGTH; width|].
    eapply decodes_last; [by apply decodes_user_id|]. destruct p. apply decodes_ret.
  - intros n. eapply safe_bind; [apply safe_expect|]. intros _ _.
    eapply safe_bind; [apply safe_map_err, safe_enum|]. intros r Hr.
    eapply safe_bind; [apply safe_user_id|]. intros i Hi. by apply safe_ret.
Defined.

Definition ChannelJoinRequest_wire (p : ChannelJoinRequest) : list Z :=
  [choice_byte DomainMcsPdu.ChannelJoinRequest 0] ++ user_id_wire (cjr_initiator_id p)
  ++ channel_id_wire (cjr_channel_id p).

#[export] Instance ChannelJoinRequest_Codec : McsCodec ChannelJoinRequest.
Proof.
  refine {| mcs_wf p := is_user_id (cjr_initiator_id p) /\ is_u16 (cjr_channel_id p);
    mcs_wire := ChannelJoinRequest_wire |}; unfold ChannelJoinRequest_wire.
  - intros p _. mcs_len. done.
  - intros p _. mcs_len.
  - intros p [H1 H2]. apply encodes_bind; [by apply encodes_choice|].
    apply encodes_bind; [by apply encodes_user_id|by apply encodes_channel_id].
  - intros p [H1 H2]. apply (decodes_bind _ _ [_] _ tt); [by apply decodes_expect|].
    eapply decodes_bind; [by apply decodes_user_id|].
    eapply decodes_last; [by apply decodes_channel_id|]. destruct p. apply decodes_ret.
  - intros n. eapply safe_bind; [apply safe_expect|]. intros _ _.
    eapply safe_bind; [apply safe_user_id|]. intros i Hi.
    eapply safe_bind; [apply safe_channel_id|]. intros c Hc. by apply safe_ret.
Defined.

Definition ChannelJoinConfirm_wire (p : ChannelJoinConfirm) : list Z :=
  [choice_byte DomainMcsPdu.ChannelJoinConfirm 2] ++ [cjc_result p] ++ user_id_wire (cjc_initiator_id p)
  ++ channel_id_wire (cjc_requested_channel_id p) ++ channel_id_wire (cjc_channel_id p).

#[export] Instance ChannelJoinConfirm_Codec : McsCodec ChannelJoinConfirm.
Proof.
  refine {| mcs_wf p := 0 <= cjc_result p < 16 /\ is_user_id (cjc_initiator_id p) /\
      is_u16 (cjc_requested_channel_id p) /\ is_u16 (cjc_channel_id p);
    mcs_wire := ChannelJoinConfirm_wire |}; unfold ChannelJoinConfirm_wire.
  - intros p _. mcs_len. done.
  - intros p _. mcs_len.
  - intros p (H1 & H2 & H3 & H4). apply encodes_bind; [by apply encodes_choice|].
    apply encodes_bind; [apply encodes_u8; width|].
    apply encodes_bind; [by apply encodes_user_id|].
    apply encodes_bind; by apply encodes_channel_id.
  - intros p (H1 & H2 & H3 & H4). apply (decodes_bind _ _ [_] _ tt); [by apply decodes_expect|].
    apply (decodes_bind _ _ [_] _ (cjc_result p)); [apply decodes_map_err, decodes_enum; unfold RESULT_ENUM_LENGTH; width|].
    eapply decodes_bind; [by apply decodes_user_id|]. eapply decodes_bind; [by apply decodes_channel_id|].
    eapply decodes_last; [by apply decodes_channel_id|]. destruct p. apply decodes_ret.
  - intros n. eapply safe_bind; [apply safe_expect|]. intros _ _.
    eapply safe_bind; [apply safe_map_err, safe_enum|]. intros r Hr.
    eapply safe_bind; [apply safe_user_id|]. intros i Hi.
    eapply safe_bind; [apply safe_channel_id|]. intros q Hq.
    eapply safe_bind; [apply safe_channel_id|]. intros c Hc. by apply safe_ret.
Defined.

#[export] Instance Ultimatum_Codec : McsCodec DisconnectProviderUltimatum.
Proof.
  refine {| mcs_wf _ := True;
    mcs_wire p := match reason p with
      | DisconnectReason.DomainDisconnected => [0x20; 0x00]
      | DisconnectReason.ProviderInitiated => [0x20; 0x80]
      | DisconnectReason.TokenPurged => [0x21; 0x00]
      | DisconnectReason.UserRequested => [0x21; 0x80]
      | DisconnectReason.ChannelPurged => [0x22; 0x00]
      end |}.
  - by intros [[]] _.
  - by intros [[]] _.
  - intros [[]] _; apply encodes_write_slice.
  - intros [[]] _; (apply decodes_ensure; [done|]; eapply decodes_last; [by apply decodes_read_array|]; apply decodes_ret).
  - intros n. cbn [mcs_body_decode Ultimatum_Mcs]. unfold Ultimatum_decode.
    eapply safe_bind; [apply safe_ensure|]. intros _ _. change (Z.max 0 2) with (0 + Z.of_nat 2).
    eapply safe_bind; [apply safe_read_slice; lia|]. intros bs [Hl _].
    destruct bs as [|b1 [|b2 []]]; [done..| |done]. cbv zeta.
    case_match; [|done]. eapply safe_bind; [apply safe_lift; unfold DomainMcsPdu.check_expected; by case_match|].
    intros _ _. case_match; [by apply safe_ret|done].
Defined.

(** *** Send Data

    Both PDUs are a header, whose length the decoder measures, and the user
    data. *)

Definition send_header (p : DomainMcsPdu.t) : Decoder (Z * Z * Z) :=
  _ ← expect_mcspdu p;
  initiator_id ← map_err_m (per_decode_err "initiator") (Per.read_u16 BASE_CHANNEL_ID);
  channel_id ← map_err_m (per_decode_err "channelId") (Per.read_u16 0);
  _ ← ReadCursor.ensure_size 1;
  _ ← ReadCursor.read_padding 1;
  '(length, _) ← map_err_m (per_decode_err "userDataLength") Per.read_length;
  mret (initiator_id, channel_id, length).

Definition send_body {T} (mk : Z -> Z -> list Z -> T) (n : Z) (h : Z * Z * Z) (read : Z) : Decoder T :=
  let '(initiator_id, channel_id, length) := h in
  if sat_sub n read <? length then
    fail (DInvalidField "userDataLength" "inconsistent with user data size advertised in TPDU" None)
  else
    _ ← ReadCursor.ensure_size length;
    user_data ← ReadCursor.read_slice (Z.to_nat length);
    mret (mk initiator_id channel_id user_data).

Definition send_decode {T} (p : DomainMcsPdu.t) (mk : Z -> Z -> list Z -> T) (n : Z) : Decoder T :=
  before ← gets ReadCursor.len;
  h ← send_header p;
  after ← gets ReadCursor.len;
  send_body mk n h (before - after).

Ltac send_split :=
  cbv [send_decode send_header send_body gets mbind M_bind mret M_ret];
  repeat match goal with
  | |- context [match ?x with _ => _ end] => destruct x as [[]| |] eqn:?; [|done..]
  | |- context [let '(_, _) := ?x in _] => destruct x
  end.

Lemma SendDataRequest_split n c :
  SendDataRequest_decode n c = send_decode DomainMcsPdu.SendDataRequest mkSendDataRequest n c.
Proof. unfold SendDataRequest_decode. send_split. done. Qed.

Lemma SendDataIndication_split n c :
  SendDataIndication_decode n c = send_decode DomainMcsPdu.SendDataIndication mkSendDataIndication n c.
Proof. unfold SendDataIndication_decode. send_split. done. Qed.

Definition send_header_wire (p : DomainMcsPdu.t) (i c : Z) (data : list Z) : list Z :=
  [choice_byte p 0] ++ user_id_wire i ++ channel_id_wire c
  ++ [SEND_DATA_PDU_DATA_PRIORITY_AND_SEGMENTATION] ++ length_wire (llen data).
Definition send_wire (p : DomainMcsPdu.t) (i c : Z) (data : list Z) : list Z := send_header_wire p i c data ++ data.
Definition send_wf (i c : Z) (data : list Z) : Prop :=
  is_user_id i /\ is_u16 c /\ bytes_ok data /\ llen data < 0x8000.

Lemma llen_send_header_wire p i c data :
  llen (send_header_wire p i c data) = 6 + Per.sizeof_length (llen data).
Proof. unfold send_header_wire. mcs_len. Qed.

Lemma decodes_send_header p i c data :
  send_wf i c data -> decodes (send_header p) (send_header_wire p i c data) (i, c, llen data).
Proof.
  intros (Hi & Hc & _ & Hl). unfold send_header, send_header_wire.
  apply (decodes_bind _ _ [_] _ tt); [by apply decodes_expect|].
  eapply decodes_bind; [by apply decodes_user_id|]. eapply decodes_bind; [by apply decodes_channel_id|].
  apply decodes_ensure; [rewrite llen_app; pose proof (llen_nonneg (length_wire (llen data))); unfold llen at 1; cbn; lia|].
  eapply decodes_bind; [apply (decodes_read_padding [_])|].
  eapply decodes_last; [apply decodes_map_err, decodes_length|apply decodes_ret].
  pose proof (llen_nonneg data). lia.
Qed.

Lemma decodes_send_gen {T} p (mk : Z -> Z -> list Z -> T) n hd i c data :
  decodes (send_header p) hd (i, c, llen data) -> llen hd + llen data <= n ->
  decodes (send_decode p mk n) (hd ++ data) (mk i c data).
Proof.
  intros Hh Hn pre post. rewrite <- app_assoc.
  unfold send_decode, gets. unfold mbind at 1, M_bind at 1. unfold mbind at 1, M_bind at 1.
  rewrite Hh. unfold mbind at 1, M_bind at 1.
  unfold ReadCursor.len. cbn [ReadCursor.inner ReadCursor.pos send_body].
  replace (sat_sub _ _ <? llen data) with false
    by (symmetry; apply Z.ltb_ge; unfold sat_sub; rewrite !llen_app; unfold llen in *; lia).
  pose proof (decodes_ensure (llen data) data (mk i c data)
    (fun _ => user_data ← ReadCursor.read_slice (Z.to_nat (llen data)); mret (mk i c user_data))) as Hd.
  rewrite app_assoc, <- length_app, Hd.
  - by rewrite !length_app, <- !app_assoc, Nat.add_assoc.
  - lia.
  - eapply decodes_last; [|apply decodes_ret]. unfold llen. rewrite Nat2Z.id. apply decodes_read_slice.
Qed.

Lemma decodes_send {T} p (mk : Z -> Z -> list Z -> T) i c data :
  send_wf i c data -> decodes (send_decode p mk (llen (send_wire p i c data))) (send_wire p i c data) (mk i c data).
Proof.
  intros Hw. apply decodes_send_gen; [by apply decodes_send_header|]. unfold send_wire. rewrite llen_app. lia.
Qed.

Lemma safe_send {T} p (mk : Z -> Z -> list Z -> T) n :
  safe 0 (send_decode p mk n) 0 (fun m => exists i c data, m = mk i c data /\ send_wf i c data).
Proof.
  unfold send_decode. apply safe_gets. intros before.
  assert (Hh : safe 0 (send_header p) 0 (fun '(i, c, l) => is_user_id i /\ is_u16 c /\ 0 <= l < 0x8000)).
  { unfold send_header. eapply safe_bind; [apply safe_expect|]. intros _ _.
    eapply safe_bind; [apply safe_user_id|]. intros i Hi. eapply safe_bind; [apply safe_channel_id|]. intros c Hc.
    eapply safe_bind; [apply safe_ensure|]. intros _ _. change (Z.max 0 1) with (0 + Z.of_nat 1).
    eapply safe_bind; [apply safe_padding; lia|]. intros _ _.
    eapply safe_bind; [apply safe_map_err, safe_length|]. intros [l k] Hl. by apply safe_ret. }
  eapply safe_bind; [exact Hh|]. intros [[i c] l] (Hi & Hc & Hl). apply safe_gets. intros after. cbn [send_body].
  case_match; [done|]. eapply safe_bind; [apply safe_ensure|]. intros _ _.
  replace (Z.max 0 l) with (0 + Z.of_nat (Z.to_nat l)) by lia.
  eapply safe_bind; [apply safe_read_slice; lia|]. intros data [Hlen Hb]. apply safe_ret.
  exists i, c, data. split; [done|]. split_and!; [done..|]. unfold llen. lia.
Qed.

Lemma encodes_send p field lfield i c data :
  send_wf i c data ->
  encodes (_ ← write_mcspdu_header p 0;
    _ ← map_err_m (per_encode_err "initiator") (Per.write_u16 i BASE_CHANNEL_ID);
    _ ← map_err_m (per_encode_err field) (Per.write_u16 c 0);
    _ ← WriteCursor.write_u8 SEND_DATA_PDU_DATA_PRIORITY_AND_SEGMENTATION;
    length ← cast_length_at lfield 65535 (llen data);
    _ ← Per.write_length length;
    WriteCursor.write_slice data) (send_wire p i c data).
Proof.
  intros (Hi & Hc & _ & Hl). unfold send_wire, send_header_wire. rewrite <- !app_assoc.
  apply encodes_bind; [by apply encodes_choice|]. apply encodes_bind; [by apply encodes_user_id|].
  apply encodes_bind; [by apply encodes_channel_id|]. apply encodes_bind; [by apply encodes_u8|].
  apply encodes_cast_length; [lia|]. apply encodes_bind; [apply encodes_length, llen_nonneg|apply encodes_write_slice].
Qed.

Lemma send_wire_short p i c data : llen data < 0x8000 -> llen (send_wire p i c data) <= 65528.
Proof.
  intros H. unfold send_wire. rewrite llen_app, llen_send_header_wire. unfold Per.sizeof_length. case_match; lia.
Qed.

#[export] Instance SendDataRequest_Codec : McsCodec SendDataRequest.
Proof.
  refine {| mcs_wf p := send_wf (sdr_initiator_id p) (sdr_channel_id p) (sdr_user_data p);
    mcs_wire p := send_wire DomainMcsPdu.SendDataRequest (sdr_initiator_id p) (sdr_channel_id p) (sdr_user_data p) |}.
  - intros p _. unfold send_wire. rewrite llen_app, llen_send_header_wire. cbn. unfold Per.CHOICE_SIZE, Per.U16_SIZE. lia.
  - intros p (_ & _ & _ & H). by apply send_wire_short.
  - intros p H. exact (encodes_send DomainMcsPdu.SendDataRequest "channelID" "user-data-length" _ _ _ H).
  - intros p H pre post. cbn [mcs_body_decode SendDataRequest_Mcs]. rewrite SendDataRequest_split.
    destruct p. by apply decodes_send.
  - intros n c Hc Hl. cbn [mcs_body_decode SendDataRequest_Mcs]. rewrite SendDataRequest_split.
    pose proof (safe_send DomainMcsPdu.SendDataRequest mkSendDataRequest n c Hc Hl) as H.
    destruct (send_decode _ _ n c) as [[m c']| |]; [|done..].
    destruct H as (? & ? & (i & ch & data & -> & Hw) & ? & ?). by split_and!.
Defined.

#[export] Instance SendDataIndication_Codec : McsCodec SendDataIndication.
Proof.
  refine {| mcs_wf p := send_wf (sdi_initiator_id p) (sdi_channel_id p) (sdi_user_data p);
    mcs_wire p := send_wire DomainMcsPdu.SendDataIndication (sdi_initiator_id p) (sdi_channel_id p) (sdi_user_data p) |}.
  - intros p _. unfold send_wire. rewrite llen_app, llen_send_header_wire. cbn. unfold Per.CHOICE_SIZE, Per.U16_SIZE. lia.
  - intros p (_ & _ & _ & H). by apply send_wire_short.
  - intros p H. exact (encodes_send DomainMcsPdu.SendDataIndication "channelId" "userDataLength" _ _ _ H).
  - intros p H pre post. cbn [mcs_body_decode SendDataIndication_Mcs]. rewrite SendDataIndication_split.
    destruct p. by apply decodes_send.
  - intros n c Hc Hl. cbn [mcs_body_decode SendDataIndication_Mcs]. rewrite SendDataIndication_split.
    pose proof (safe_send DomainMcsPdu.SendDataIndication mkSendDataIndication n c Hc Hl) as H.
    destruct (send_decode _ _ n c) as [[m c']| |]; [|done..].
    destruct H as (? & ? & (i & ch & data & -> & Hw) & ? & ?). by split_and!.
Defined.

(** *** McsMessage *)

Definition McsMessage_wf (m : McsMessage) : Prop :=
  match m with
  | MErectDomainRequest p => mcs_wf p
  | MAttachUserRequest p => mcs_wf p
  | MAttachUserConfirm p => mcs_wf p
  | MChannelJoinRequest p => mcs_wf p
  | MChannelJoinConfirm p => mcs_wf p
  | MSendDataRequest p => mcs_wf p
  | MSendDataIndication p => mcs_wf p
  | MDisconnectProviderUltimatum p => mcs_wf p
  end.

Definition McsMessage_wire (m : McsMessage) : list Z :=
  match m with
  | MErectDomainRequest p => mcs_wire p
  | MAttachUserRequest p => mcs_wire p
  | MAttachUserConfirm p => mcs_wire p
  | MChannelJoinRequest p => mcs_wire p
  | MChannelJoinConfirm p => mcs_wire p
  | MSendDataRequest p => mcs_wire p
  | MSendDataIndication p => mcs_wire p
  | MDisconnectProviderUltimatum p => mcs_wire p
  end.

Definition McsMessage_kind (m : McsMessage) : DomainMcsPdu.t :=
  match m with
  | MErectDomainRequest _ => DomainMcsPdu.ErectDomainRequest
  | MAttachUserRequest _ => DomainMcsPdu.AttachUserRequest
  | MAttachUserConfirm _ => DomainMcsPdu.AttachUserConfirm
  | MChannelJoinRequest _ => DomainMcsPdu.ChannelJoinRequest
  | MChannelJoinConfirm _ => DomainMcsPdu.ChannelJoinConfirm
  | MSendDataRequest _ => DomainMcsPdu.SendDataRequest
  | MSendDataIndication _ => DomainMcsPdu.SendDataIndication
  | MDisconnectProviderUltimatum _ => DomainMcsPdu.DisconnectProviderUltimatum
  end.

(** The first byte names the PDU. *)
Lemma McsMessage_first m :
  exists b rest, McsMessage_wire m = b :: rest /\ is_u8 b /\
    DomainMcsPdu.from_choice b = Some (McsMessage_kind m).
Proof.
  destruct m as [p|p|p|p|p|p|p|[[]]]; cbn; eexists _, _; (split; [reflexivity|]);
    first [by apply (choice_byte_ok _ 0)|by apply (choice_byte_ok _ 2)|by split].
Qed.

Lemma decodes_peek_mcs {A} b rest p (k : DomainMcsPdu.t -> Decoder A) a :
  is_u8 b -> DomainMcsPdu.from_choice b = Some p ->
  decodes (k p) (b :: rest) a -> decodes (peek_mcspdu_header ≫= k) (b :: rest) a.
Proof.
  intros Hb Hc Hk pre post.
  unfold peek_mcspdu_header, gets. unfold mbind, M_bind, map_err_m, ReadCursor.try_peek_u8, ReadCursor.ensure_enough_bytes,
    ReadCursor.peek_u8, ReadCursor.peek_slice, ReadCursor.len, mbind, M_bind.
  cbn [ReadCursor.inner ReadCursor.pos app].
  rewrite (proj2 (Z.leb_le _ _)) by (rewrite llen_app, llen_cons; pose proof (llen_nonneg (rest ++ post)); unfold llen in *; cbn; lia).
  cbn [ReadCursor.inner ReadCursor.pos].
  destruct (Nat.leb_spec (length pre + 1) (length (pre ++ b :: rest ++ post))) as [_|Hx];
    [|rewrite length_app in Hx; cbn in Hx; lia].
  rewrite drop_app_length. cbn -[choice_of]. rewrite Z.add_0_r. unfold choice_of. rewrite Hc. apply (Hk pre post).
Qed.

Lemma safe_peek : safe 0 peek_mcspdu_header 0 (fun _ => True).
Proof.
  unfold peek_mcspdu_header. apply safe_gets. intros n. intros c Hc Hl.
  unfold mbind, M_bind, map_err_m, ReadCursor.try_peek_u8, ReadCursor.ensure_enough_bytes, mbind, M_bind.
  destruct (Z.leb_spec (Z.of_nat 1) (ReadCursor.len c)) as [H1|]; [|done].
  unfold ReadCursor.peek_u8, ReadCursor.peek_slice, mbind, M_bind.
  rewrite (proj2 (Nat.leb_le _ _)) by (destruct Hc; unfold ReadCursor.len, llen in *; lia).
  apply safe_choice_of; [done|lia].
Qed.

#[export] Instance McsMessage_Codec : McsCodec McsMessage.
Proof.
  refine {| mcs_wf := McsMessage_wf; mcs_wire := McsMessage_wire |}.
  - intros [] H; exact (mcs_wire_size _ H).
  - intros [] H; exact (mcs_short _ H).
  - intros [] H; exact (mcs_encodes _ H).
  - intros m H. destruct (McsMessage_first m) as (b & rest & Hw & Hb & Hc). cbn [mcs_body_decode McsMessage_Mcs].
    rewrite Hw. apply (decodes_peek_mcs _ _ (McsMessage_kind m)); [done..|]. rewrite <- Hw.
    destruct m; (eapply decodes_last; [exact (mcs_decodes _ H)|apply decodes_ret]).
  - intros n. eapply safe_bind; [apply safe_peek|]. intros [] _;
      (eapply safe_bind; [apply mcs_safe|intros p Hp; by apply safe_ret]).
Defined.

(** ** Theorems *)

(** C36: every MCS domain PDU whose fields fit (user ids from 1001, results
    below 16, at most 32767 bytes of user data) is written as exactly the size
    it announces, and reads back as itself however many bytes of the next
    packet follow it in the buffer. *)
Theorem mcs_roundtrip (m : McsMessage) (rest : list Z) :
  McsMessage_wf m ->
  exists out, encode_vec (mkX224 m) = Ok out /\ llen out = X224_size (mkX224 m) /\
    decode (X224 McsMessage) (out ++ rest) = Ok (mkX224 m).
Proof.
  intros H. exists (wire (mkX224 m)). split; [by apply encode_vec_wire|].
  split; [symmetry; by apply X224_size_wire|by apply decode_wire_framed].
Qed.

Lemma mcs_roundtrip_witness :
  exists out, encode_vec (mkX224 (MSendDataIndication (mkSendDataIndication 1002 1004 [1; 2; 3]))) = Ok out /\
    llen out = X224_size (mkX224 (MSendDataIndication (mkSendDataIndication 1002 1004 [1; 2; 3]))) /\
    decode (X224 McsMessage) (out ++ [3; 0]) =
      Ok (mkX224 (MSendDataIndication (mkSendDataIndication 1002 1004 [1; 2; 3]))).
Proof.
  apply mcs_roundtrip. split; [by split|]. split; [cbn; width|]. split; [|done].
  cbn. repeat constructor; width.
Defined.

(** No packet makes the MCS decoder panic: it reports an error or returns
    a PDU that can be written again and reads back as the same PDU. *)
Theorem mcs_decode_total (bs : list Z) :
  bytes_ok bs ->
  (exists e, decode (X224 McsMessage) bs = Err e) \/
  (exists m out, decode (X224 McsMessage) bs = Ok m /\ encode_vec m = Ok out /\
    decode (X224 McsMessage) out = Ok m).
Proof.
  intros Hb. pose proof (decode_no_panic (A := X224 McsMessage) bs Hb) as Hp.
  destruct (decode (X224 McsMessage) bs) as [m|e|] eqn:Hd; [right|left; eauto|done].
  destruct (decode_canonical bs m Hb Hd) as (out & He & _ & Hr). by exists m, out.
Qed.

Lemma mcs_decode_total_witness :
  (exists e, decode (X224 McsMessage) [3; 0; 0; 8; 2; 0xF0; 0x80; 0x28] = Err e) \/
  (exists m out, decode (X224 McsMessage) [3; 0; 0; 8; 2; 0xF0; 0x80; 0x28] = Ok m /\ encode_vec m = Ok out /\
    decode (X224 McsMessage) out = Ok m).
Proof. apply mcs_decode_total. repeat constructor; width. Defined.

(** *** User data of 32 KiB and more *)

Lemma decodes_long_length k :
  0 <= k < 0x8000 -> decodes Per.read_length (to_be_bytes 2 (0x8000 + k)) (k, 2).
Proof.
  intros Hk. assert (H := lor_high_low 0x8000 k 15 ltac:(lia) eq_refl ltac:(lia)).
  rewrite Z.lor_comm in H. rewrite <- H.
  destruct (length_high_byte k Hk) as (a & b & -> & Ha & Hb & Hl & Hv).
  unfold Per.read_length. eapply (decodes_bind _ _ [a] [b] a); [by apply decodes_try_u8|]. cbv beta.
  rewrite Hl. cbn [negb]. eapply (decodes_last _ _ [b] b); [by apply decodes_try_u8|]. cbv beta zeta.
  rewrite Hv. apply decodes_ret.
Qed.

Lemma lor_bit15 n : 0x8000 <= n < 65536 -> Z.lor n 0x8000 = n.
Proof.
  intros Hn. replace n with (Z.lor 0x8000 (n - 0x8000)).
  - rewrite <- Z.lor_assoc, (Z.lor_comm _ 0x8000), Z.lor_assoc. by rewrite Z.lor_diag.
  - rewrite (lor_high_low 0x8000 (n - 0x8000) 15); [lia..|done|lia].
Qed.

Definition long_header_wire (i c : Z) (data : list Z) : list Z :=
  [choice_byte DomainMcsPdu.SendDataIndication 0] ++ user_id_wire i ++ channel_id_wire c
  ++ [SEND_DATA_PDU_DATA_PRIORITY_AND_SEGMENTATION] ++ to_be_bytes 2 (llen data).

Lemma llen_long_header_wire i c data : llen (long_header_wire i c data) = 8.
Proof. unfold long_header_wire. mcs_len. Qed.

Lemma encodes_long i c data :
  is_user_id i -> is_u16 c -> 0x8000 <= llen data < 65536 ->
  encodes (mcs_body_encode (mkSendDataIndication i c data)) (long_header_wire i c data ++ data).
Proof.
  intros Hi Hc Hl. unfold long_header_wire. rewrite <- !app_assoc.
  apply encodes_bind; [by apply encodes_choice|]. apply encodes_bind; [by apply encodes_user_id|].
  apply encodes_bind; [by apply encodes_channel_id|]. apply encodes_bind; [by apply encodes_u8|].
  apply encodes_cast_length; [cbn; lia|]. apply encodes_bind; [|apply encodes_write_slice].
  cbn [sdi_user_data]. unfold Per.write_length, Per.write_long_length.
  rewrite (proj2 (Z.ltb_lt _ _)), lor_bit15 by lia. apply encodes_u16_be.
Qed.

Lemma decodes_long_header i c data k :
  is_user_id i -> is_u16 c -> llen data = 0x8000 + k -> 0 <= k < 0x8000 ->
  decodes (send_header DomainMcsPdu.SendDataIndication) (long_header_wire i c data) (i, c, k).
Proof.
  intros Hi Hc Hl Hk. unfold send_header, long_header_wire.
  apply (decodes_bind _ _ [_] _ tt); [by apply decodes_expect|].
  eapply decodes_bind; [by apply decodes_user_id|]. eapply decodes_bind; [by apply decodes_channel_id|].
  apply decodes_ensure; [mcs_len|]. eapply decodes_bind; [apply (decodes_read_padding [_])|].
  eapply decodes_last; [apply decodes_map_err; rewrite Hl; by apply decodes_long_length|apply decodes_ret].
Qed.

(** The frame around a body that the decoder reads only a part of. *)
Lemma decode_X224_part {T} {X : X224Pdu T} {C : X224Codec T} body rest (a : T) :
  llen (body ++ rest) <= 65528 ->
  (forall tpkt tpdu, user_data_size tpkt tpdu = llen (body ++ rest) ->
    decodes (x224_body_decode tpkt tpdu) body a) ->
  decode (X224 T) (tpkt_wire (7 + llen (body ++ rest)) ++ [2; 0xF0; 0x80] ++ body ++ rest) = Ok (mkX224 a).
Proof.
  intros Hl Hb. unfold decode. cbn [decode_from X224_Decode]. unfold X224_decode, ReadCursor.new.
  set (n := llen (body ++ rest)) in *. assert (Hn : 0 <= n) by apply llen_nonneg.
  pose proof (decodes_tpkt (7 + n) ltac:(lia) [] ([2; 0xF0; 0x80] ++ body ++ rest)) as Ht. cbn [app length] in Ht.
  set (total := tpkt_wire (7 + n) ++ [2; 0xF0; 0x80] ++ body ++ rest) in *.
  cbn [app] in total. fold total in Ht. unfold mbind at 1 2, M_bind at 1. rewrite Ht.
  assert (Hlen : llen total = 7 + n) by apply llen_frame.
  unfold mbind at 1, M_bind at 1, ReadCursor.ensure_size, ReadCursor.len. cbn [ReadCursor.inner ReadCursor.pos TpktHeader.packet_length].
  rewrite (proj2 (Z.leb_le _ _)) by (rewrite Hlen; unfold sat_sub, TpktHeader.SIZE; cbn; lia).
  pose proof (decodes_data_tpdu (7 + n) ltac:(lia) (tpkt_wire (7 + n)) (body ++ rest)) as Hd.
  cbn [app] in Hd. fold total in Hd. change (length (tpkt_wire (7 + n))) with 4%nat in *. cbn [length Nat.add] in Hd |- *.
  unfold mbind at 1, M_bind at 1. rewrite Hd. rewrite x224_code. cbn [TpduHeader.code].
  unfold mbind at 1, M_bind at 1, lift. cbn -[total x224_body_decode user_data_size].
  pose proof (Hb (TpktHeader.mk (7 + n)) (TpduHeader.mk 2 TpduCode.DATA)) as Hbody.
  assert (Hu : user_data_size (TpktHeader.mk (7 + n)) (TpduHeader.mk 2 TpduCode.DATA) = n).
  { unfold user_data_size. cbn [TpktHeader.packet_length]. unfold TpktHeader.SIZE, TpduHeader.size. cbn [TpduHeader.li].
    rewrite (wsub64_small _ 4) by width. rewrite wsub64_small by width. lia. }
  specialize (Hbody Hu (tpkt_wire (7 + n) ++ [2; 0xF0; 0x80]) rest).
  rewrite <- app_assoc in Hbody. cbn [app] in Hbody. fold total in Hbody.
  change (length (tpkt_wire (7 + n) ++ [2; 0xF0; 0x80])) with 7%nat in Hbody.
  change (TpduHeader.size _ <? _) with false. cbv iota. unfold mbind at 1, M_bind at 1. by rewrite Hbody.
Qed.

(** The length field of a Send Data Indication has fifteen bits, but the
    encoder only checks that the length fits sixteen: 32 KiB or more of user
    data is written without an error, and the peer reads a PDU that is 32768
    bytes shorter. *)
Theorem mcs_send_data_truncates (i c : Z) (data : list Z) :
  is_user_id i -> is_u16 c -> 0x8000 <= llen data <= 65520 ->
  exists out, encode_vec (mkX224 (mkSendDataIndication i c data)) = Ok out /\
    decode_send_data_indication out =
      Ok (mkSendDataIndicationCtx i c (take (Z.to_nat (llen data - 0x8000)) data)).
Proof.
  intros Hi Hc Hl. set (k := llen data - 0x8000). set (part := take (Z.to_nat k) data).
  assert (Hpl : llen part = k) by (unfold part, llen in *; rewrite length_take; unfold k, llen in *; lia).
  set (body := long_header_wire i c data ++ part). set (rest := drop (Z.to_nat k) data).
  assert (Hbr : body ++ rest = long_header_wire i c data ++ data)
    by (unfold body, rest, part; rewrite <- app_assoc, take_drop; done).
  assert (Hn : llen (body ++ rest) = 8 + llen data) by (rewrite Hbr, llen_app, llen_long_header_wire; lia).
  exists (tpkt_wire (7 + llen (body ++ rest)) ++ [2; 0xF0; 0x80] ++ body ++ rest). split.
  - apply encode_vec_writes. unfold writes. cbn [encode_into size X224_Encode].
    assert (Hs : X224_size (mkX224 (mkSendDataIndication i c data)) = 15 + llen data).
    { unfold X224_size. cbn [x224 tpdu_header_variable_part_size tpdu_user_data_size Mcs_X224Pdu mcs_size
        SendDataIndication_Mcs sdi_user_data TPDU_CODE]. unfold Per.sizeof_length. rewrite (proj2 (Z.ltb_lt _ _)) by lia.
      unfold TpktHeader.SIZE, Per.CHOICE_SIZE, Per.U16_SIZE. change (TpduCode.header_fixed_part_size TpduCode.DATA) with 3. lia. }
    split; [|rewrite Hs, llen_frame, Hn; lia].
    unfold X224_encode. apply encodes_ensure; [rewrite Hs, llen_frame, Hn; lia|].
    apply encodes_cast_length; [lia|]. rewrite Hs, Hn. replace (7 + (8 + llen data)) with (15 + llen data) by lia.
    apply encodes_bind; [apply encodes_tpkt|]. apply encodes_cast_length; [done|].
    apply encodes_bind; [apply encodes_data_tpdu|]. rewrite Hbr. apply encodes_long; [done..|lia].
  - unfold decode_send_data_indication. rewrite (decode_X224_part body rest (MSendDataIndication (mkSendDataIndication i c part))); [done|lia|].
    intros tpkt tpdu Hu. cbn [x224_body_decode Mcs_X224Pdu]. unfold Mcs_x224_body_decode. rewrite Hu, Hn.
    cbn [mcs_body_decode McsMessage_Mcs]. unfold McsMessage_decode, body. unfold long_header_wire at 1. cbn [app].
    eapply decodes_peek_mcs; [by apply (choice_byte_ok DomainMcsPdu.SendDataIndication 0)..|]. cbv beta iota.
    eapply decodes_last; [|apply decodes_ret]. intros pre post. cbn [mcs_body_decode SendDataIndication_Mcs].
    rewrite SendDataIndication_split.
    refine (decodes_send_gen DomainMcsPdu.SendDataIndication mkSendDataIndication _ (long_header_wire i c data) i c part _ _ pre post).
    + rewrite Hpl. apply decodes_long_header; unfold k; [done|done|lia|lia].
    + rewrite llen_long_header_wire, Hpl. unfold k. lia.
Qed.

Lemma mcs_send_data_truncates_witness :
  exists out, encode_vec (mkX224 (mkSendDataIndication 1002 1004 (replicate 32770 7))) = Ok out /\
    decode_send_data_indication out = Ok (mkSendDataIndicationCtx 1002 1004
      (take (Z.to_nat (llen (replicate 32770 7) - 0x8000)) (replicate 32770 7))).
Proof.
  apply mcs_send_data_truncates; [by split|width|]. split; vm_compute; discriminate.
Defined.
