(* ===== verification/Svc.v ===== *)
(** Static virtual channels (src/crates/ironrdp-svc/src/lib.rs), with the
    Channel PDU Header of src/crates/ironrdp-pdu/src/rdp/vc/mod.rs and the
    error type of src/crates/ironrdp-pdu/src/lib.rs.

    The processors of the channels are a parameter: a type [P] of processor
    states with the operations of the [SvcProcessor] trait. *)

From S2P Require Import Prelude Cursor Codec Flags Mutation WriteBuf Mcs.

(** [PduError], with its source *)
Inductive PduError :=
| PduEncode (source : EncodeErrorKind)
| PduDecode (source : DecodeErrorKind)
| PduOther (description : string).

Definition MAX_STATIC_CHANNELS : Z := 31.
Definition CHANNEL_CHUNK_LENGTH : Z := 1600.
Definition MAX_CHANNEL_CHUNK_LENGTH : Z := 16256.

Module ChannelFlags.
Definition FIRST : Z := 0x00000001.
Definition LAST : Z := 0x00000002.
Definition SHOW_PROTOCOL : Z := 0x00000010.
Definition SUSPEND : Z := 0x00000020.
Definition RESUME : Z := 0x00000040.
Definition SHADOW_PERSISTENT : Z := 0x00000080.
Definition COMPRESSED : Z := 0x00200000.
Definition AT_FRONT : Z := 0x00400000.
Definition FLUSHED : Z := 0x00800000.
End ChannelFlags.

Module ChannelControlFlags.
Definition FLAG_FIRST : Z := 0x00000001.
Definition FLAG_LAST : Z := 0x00000002.
Definition FLAG_SHOW_PROTOCOL : Z := 0x00000010.
Definition FLAG_SUSPEND : Z := 0x00000020.
Definition FLAG_RESUME : Z := 0x00000040.
Definition FLAG_SHADOW_PERSISTENT : Z := 0x00000080.
Definition PACKET_COMPRESSED : Z := 0x00200000.
Definition PACKET_AT_FRONT : Z := 0x00400000.
Definition PACKET_FLUSHED : Z := 0x00800000.
Definition COMPRESSION_TYPE_MASK : Z := 0x000F0000.
End ChannelControlFlags.

(** ** The Channel PDU Header *)

(** The private header of the sender (ironrdp-svc): no size check of its own. *)
Record SvcChannelPduHeader := mkSvcHeader { svc_length : Z; svc_flags : Z }.
Definition SvcChannelPduHeader_encode (h : SvcChannelPduHeader) : Encoder unit :=
  _ ← WriteCursor.write_u32 (svc_length h);
  WriteCursor.write_u32 (svc_flags h).
#[export] Instance SvcChannelPduHeader_Encode : Encode SvcChannelPduHeader :=
  {| encode_into := SvcChannelPduHeader_encode; size _ := 8 |}.

(** The public header (ironrdp-pdu); [from_bits_retain] keeps every bit. *)
Record ChannelPduHeader := mkChannelPduHeader { length_field : Z; control_flags : Z }.
Definition ChannelPduHeader_encode (h : ChannelPduHeader) : Encoder unit :=
  _ ← WriteCursor.ensure_size 8;
  _ ← WriteCursor.write_u32 (length_field h);
  WriteCursor.write_u32 (control_flags h).
Definition ChannelPduHeader_decode : Decoder ChannelPduHeader :=
  _ ← ReadCursor.ensure_size 8;
  total_length ← ReadCursor.read_u32;
  flags ← ReadCursor.read_u32;
  mret (mkChannelPduHeader total_length flags).
#[export] Instance ChannelPduHeader_Encode : Encode ChannelPduHeader :=
  {| encode_into := ChannelPduHeader_encode; size _ := 8 |}.
#[export] Instance ChannelPduHeader_Decode : Decode ChannelPduHeader :=
  {| decode_from := ChannelPduHeader_decode |}.

(** ** Messages *)

Record SvcMessage := mkSvcMessage { msg_pdu : BoxedPdu; msg_flags : Z }.

(** [SvcMessage::from(pdu)] *)
Definition svc_message {A} `{Encode A} (pdu : A) : SvcMessage := mkSvcMessage (boxed pdu) 0.

Definition encode_unframed_pdu (m : SvcMessage) : outcome EncodeErrorKind (list Z) := encode_vec (msg_pdu m).

Inductive CompressionCondition := Never | WhenRdpDataIsCompressed | Always.

Definition COMPRESS_RDP : Z := 0x00800000.
Definition COMPRESS : Z := 0x00400000.

(** The default [SvcProcessor::channel_options] *)
Definition default_channel_options (c : CompressionCondition) : Z :=
  match c with Never => 0 | WhenRdpDataIsCompressed => COMPRESS_RDP | Always => COMPRESS end.

Class SvcProcessor (P : Type) := {
  channel_name : P -> list Z;
  compression_condition : P -> CompressionCondition;
  channel_options : P -> Z;
  svc_start : Mut P PduError (list SvcMessage);
  svc_process : list Z -> Mut P PduError (list SvcMessage);
}.

(** ** Chunks *)

(** [(CHANNEL_CHUNK_LENGTH..=MAX_CHANNEL_CHUNK_LENGTH).contains(&n)] *)
Definition chunk_length_ok (n : Z) : bool := (CHANNEL_CHUNK_LENGTH <=? n) && (n <=? MAX_CHANNEL_CHUNK_LENGTH).

Section flags.
Context {BF : Bitflags}.

Definition with_flags (flags : Z) (m : SvcMessage) : SvcMessage :=
  mkSvcMessage (msg_pdu m) (union (msg_flags m) flags).

(** [cast_int!(NAME, "length", total_len)?] *)
Definition cast_length_field (total_len : Z) : outcome EncodeErrorKind Z :=
  if total_len <=? 4294967295 then Ok total_len
  else Err (EInvalidField "length" "out of range integral type conversion" None).

(** The header of one chunk. *)
Definition chunk_header (flags total_len : Z) (is_chunked first last : bool) :
    outcome EncodeErrorKind SvcChannelPduHeader :=
  let f := 0 in
  let f := if first then union f ChannelFlags.FIRST else f in
  let f := if last then union f ChannelFlags.LAST else f in
  let f := if is_chunked then union f ChannelFlags.SHOW_PROTOCOL else f in
  let f := union f flags in
  length ← cast_length_field total_len;
  mret (mkSvcHeader length f).

(** The loop of [chunkify_one]; every round but the last moves the start
    forward, so one round more than there are bytes is enough
    ([chunkify_one_spec]). *)
Fixpoint chunk_loop (fuel : nat) (flags : Z) (encoded_pdu : WriteBuf.t) (total_len max_chunk_len : Z)
    (is_chunked : bool) (chunk_start_index chunk_end_index : Z) (chunks : list WriteBuf.t) :
    outcome EncodeErrorKind (list WriteBuf.t) :=
  match fuel with
  | O => Panic
  | S fuel' =>
      let chunk := WriteBuf.new in
      let first := chunk_start_index =? 0 in
      let last := chunk_end_index =? total_len in
      header ← chunk_header flags total_len is_chunked first last;
      '(_, chunk) ← encode_buf header chunk;
      piece ← WriteBuf.index (Z.to_nat chunk_start_index) (Z.to_nat chunk_end_index) encoded_pdu;
      chunk ← WriteBuf.write_slice piece chunk;
      let chunks := chunks ++ [chunk] in
      if last then Ok chunks
      else
        chunk_loop fuel' flags encoded_pdu total_len max_chunk_len is_chunked chunk_end_index
          (Z.min total_len (sat_add64 chunk_end_index max_chunk_len)) chunks
  end.

Definition chunkify_one (message : SvcMessage) (max_chunk_len : Z) : outcome EncodeErrorKind (list WriteBuf.t) :=
  '(_, encoded_pdu) ← encode_buf (msg_pdu message) WriteBuf.new;
  let total_len := WriteBuf.filled_len encoded_pdu in
  let is_chunked := max_chunk_len <? total_len in
  chunk_loop (S (Z.to_nat total_len)) (msg_flags message) encoded_pdu total_len max_chunk_len is_chunked
    0 (Z.min total_len max_chunk_len) [].

(** [for message in messages { results.extend(chunkify_one(message, max)?) }] *)
Fixpoint chunkify_all (messages : list SvcMessage) (max_chunk_len : Z) : outcome EncodeErrorKind (list WriteBuf.t) :=
  match messages with
  | [] => Ok []
  | m :: ms =>
      chunks ← chunkify_one m max_chunk_len;
      rest ← chunkify_all ms max_chunk_len;
      Ok (chunks ++ rest)
  end.

Definition chunkify (messages : list SvcMessage) (max_chunk_len : Z) : outcome EncodeErrorKind (list WriteBuf.t) :=
  if negb (chunk_length_ok max_chunk_len) then
    Err (EInvalidField "max_chunk_len" "static channel chunk length is outside the permitted range" None)
  else chunkify_all messages max_chunk_len.

(** *** Reassembly *)

Record ChunkProcessor := mkChunkProcessor { chunked_pdu : list Z; expected_length : option Z }.

Definition ChunkProcessor_new : ChunkProcessor := mkChunkProcessor [] None.

Definition clear_sequence : Mut ChunkProcessor DecodeErrorKind unit := update (fun _ => mkChunkProcessor [] None).

Definition dechunk_err (field reason : string) (cursor : ReadCursor.t) : DecodeErrorKind :=
  DInvalidField field reason (Some (Z.of_nat (ReadCursor.pos cursor))).

Definition dechunkify (payload : list Z) : Mut ChunkProcessor DecodeErrorKind (option (list Z)) :=
  '(header, cursor) ← question id (decode_from (A := ChannelPduHeader) (ReadCursor.new payload));
  let chunk := ReadCursor.remaining cursor in
  let declared := length_field header in
  let first := contains (control_flags header) ChannelControlFlags.FLAG_FIRST in
  let last := contains (control_flags header) ChannelControlFlags.FLAG_LAST in
  let compressed := contains (control_flags header) ChannelControlFlags.PACKET_COMPRESSED in
  current ← access expected_length;
  if negb first && negb last && negb (is_some current) then
    if negb compressed && negb (llen chunk =? declared) then
      throw (dechunk_err "length" "unfragmented channel data does not match its declared length" cursor)
    else mret (Some chunk)
  else
    _ ← (if first then
           if is_some current then
             _ ← clear_sequence;
             throw (dechunk_err "flags"
               "received an initial channel fragment before completing the previous sequence" cursor)
           else update (fun p => mkChunkProcessor (chunked_pdu p) (Some declared))
         else if decide (current <> Some declared) then
           _ ← clear_sequence;
           throw (dechunk_err "length" "received a channel fragment without a matching initial fragment" cursor)
         else mret tt);
    _ ← update (fun p => mkChunkProcessor (chunked_pdu p ++ chunk) (expected_length p));
    collected ← access chunked_pdu;
    if negb compressed && (declared <? llen collected) then
      _ ← clear_sequence;
      throw (dechunk_err "length" "channel fragment sequence exceeds its declared length" cursor)
    else if negb last then mret None
    else
      current ← access expected_length;
      match current with
      | None =>
          throw (dechunk_err "flags" "received a terminal channel fragment without an initial fragment" cursor)
      | Some sequence_length =>
          if negb compressed && negb (llen collected =? sequence_length) then
            _ ← clear_sequence;
            throw (dechunk_err "length" "terminal channel fragment does not match its declared length" cursor)
          else
            _ ← update (fun _ => mkChunkProcessor [] None);
            mret (Some collected)
      end.

(** ** A static virtual channel *)

Section channel.
Context {P : Type} {SP : SvcProcessor P}.

Record StaticVirtualChannel := mkSvc { channel_processor : P; chunk_processor : ChunkProcessor }.

Definition StaticVirtualChannel_new (p : P) : StaticVirtualChannel := mkSvc p ChunkProcessor_new.

(** A method of a field. *)
Definition on_processor {A} (m : Mut P PduError A) : Mut StaticVirtualChannel PduError A := fun c =>
  match m (channel_processor c) with
  | Some (r, p) => Some (r, mkSvc p (chunk_processor c))
  | None => None
  end.
Definition on_chunks {A} (m : Mut ChunkProcessor DecodeErrorKind A) : Mut StaticVirtualChannel PduError A := fun c =>
  match m (chunk_processor c) with
  | Some (inl e, k) => Some (inl (PduDecode e), mkSvc (channel_processor c) k)
  | Some (inr a, k) => Some (inr a, mkSvc (channel_processor c) k)
  | None => None
  end.

Definition StaticVirtualChannel_start : Mut StaticVirtualChannel PduError (list SvcMessage) := on_processor svc_start.

Definition StaticVirtualChannel_process (payload : list Z) :
    Mut StaticVirtualChannel PduError (list SvcMessage) :=
  r ← on_chunks (dechunkify payload);
  match r with
  | Some payload => on_processor (svc_process payload)
  | None => mret []
  end.

Definition make_channel_options (c : StaticVirtualChannel) : Z := channel_options (channel_processor c).

Record ChannelDef := mkChannelDef { def_name : list Z; def_options : Z }.
Definition make_channel_definition (c : StaticVirtualChannel) : ChannelDef :=
  mkChannelDef (channel_name (channel_processor c)) (make_channel_options c).

End channel.

(** ** Onto the wire *)

(** [for chunk in chunks { encode_buf(&X224(pdu(chunk.filled())), &mut out)? }] *)
Fixpoint encode_chunks {T} `{X224Pdu T} (pdu : list Z -> T) (chunks : list WriteBuf.t) (out : WriteBuf.t) :
    outcome EncodeErrorKind WriteBuf.t :=
  match chunks with
  | [] => Ok out
  | chunk :: chunks' =>
      user_data ← WriteBuf.filled chunk;
      '(_, out) ← encode_buf (mkX224 (pdu user_data)) out;
      encode_chunks pdu chunks' out
  end.

Definition encode_svc_messages (messages : list SvcMessage) (channel_id initiator_id : Z) (client : bool)
    (max_chunk_len : Z) : outcome EncodeErrorKind (list Z) :=
  let fully_encoded_responses := WriteBuf.new in
  chunks ← chunkify messages max_chunk_len;
  out ←
    (if client then encode_chunks (mkSendDataRequest initiator_id channel_id) chunks fully_encoded_responses
     else encode_chunks (mkSendDataIndication initiator_id channel_id) chunks fully_encoded_responses);
  mret (WriteBuf.into_inner out).

Definition client_encode_svc_messages (messages : list SvcMessage) (channel_id initiator_id : Z) :=
  encode_svc_messages messages channel_id initiator_id true CHANNEL_CHUNK_LENGTH.
Definition client_encode_svc_messages_with_max_chunk_len (messages : list SvcMessage)
    (channel_id initiator_id max_chunk_len : Z) :=
  encode_svc_messages messages channel_id initiator_id true max_chunk_len.
Definition server_encode_svc_messages (messages : list SvcMessage) (channel_id initiator_id : Z) :=
  encode_svc_messages messages channel_id initiator_id false CHANNEL_CHUNK_LENGTH.

End flags.
Arguments StaticVirtualChannel : clear implicits.
