(* ===== verification/SvcProps.v ===== *)
(** Static virtual channels: chunking and reassembly are inverse to each
    other, the reassembly survives every input, resynchronises after an error
    and does not outgrow the length a peer declared. *)

From S2P Require Import Prelude Cursor Codec Flags Mutation WriteBuf Mcs McsCodec Svc.

(** ** Bit sets *)

Lemma lor_range n a b : 0 <= n -> 0 <= a < 2 ^ n -> 0 <= b < 2 ^ n -> 0 <= Z.lor a b < 2 ^ n.
Proof.
  intros Hn Ha Hb. assert (Z.lor a b = Z.lor a b mod 2 ^ n) as ->; [|apply Z.mod_pos_bound; lia].
  rewrite <- land_low, Z.land_lor_distr_l, !land_low, !Z.mod_small by lia. done.
Qed.

Lemma land_sub x m k : Z.land x m = 0 -> Z.land m k = k -> Z.land x k = 0.
Proof. intros Hx Hk. by rewrite <- Hk, Z.land_assoc, Hx, Z.land_0_l. Qed.

(** ** The header *)

Definition header_wire (len flags : Z) : list Z := to_le_bytes 4 len ++ to_le_bytes 4 flags.

Lemma length_header_wire len flags : length (header_wire len flags) = 8%nat.
Proof. unfold header_wire. by rewrite length_app, !length_to_le_bytes. Qed.

Lemma writes_svc_header len flags : writes (mkSvcHeader len flags) (header_wire len flags).
Proof. split; [|done]. apply encodes_bind; apply encodes_u32. Qed.

Lemma decodes_channel_header len flags :
  is_u32 len -> is_u32 flags -> decodes ChannelPduHeader_decode (header_wire len flags) (mkChannelPduHeader len flags).
Proof.
  intros Hl Hf. unfold ChannelPduHeader_decode. apply decodes_ensure; [done|].
  eapply decodes_bind; [by apply decodes_u32|]. eapply decodes_last; [by apply decodes_u32|apply decodes_ret].
Qed.

Lemma header_cursor len flags piece :
  is_u32 len -> is_u32 flags ->
  exists c, decode_from (A := ChannelPduHeader) (ReadCursor.new (header_wire len flags ++ piece)) =
      Ok (mkChannelPduHeader len flags, c) /\ ReadCursor.remaining c = piece.
Proof.
  intros Hl Hf. pose proof (decodes_channel_header len flags Hl Hf [] piece) as H. eexists. split; [exact H|].
  unfold ReadCursor.remaining. cbn [ReadCursor.pos ReadCursor.inner length app Nat.add].
  rewrite length_app. rewrite Nat.min_l by lia. apply drop_app_length.
Qed.

Section flags.
Context {BF : Bitflags}.

(** ** Cutting a message into pieces *)

(** Flags a message may add to its chunks: not those that mark the first and
    the last one. *)
Definition extra_flags (f : Z) : Prop := is_u32 f /\ Z.land f 3 = 0.

Definition mark (first last chunked : bool) : Z :=
  (if first then 1 else 0) + (if last then 2 else 0) + (if chunked then 16 else 0).

Definition frame (total flags : Z) (chunked first last : bool) (piece : list Z) : list Z :=
  header_wire total (Z.lor (mark first last chunked) flags) ++ piece.

Fixpoint frames (total flags : Z) (chunked first : bool) (ps : list (list Z)) : list (list Z) :=
  match ps with
  | [] => []
  | [p] => [frame total flags chunked first true p]
  | p :: ps' => frame total flags chunked first false p :: frames total flags chunked false ps'
  end.

(** The pieces of a message: all full but the last, which an empty message
    has, too. *)
Fixpoint pieces (fuel max : nat) (data : list Z) : list (list Z) :=
  match fuel with
  | O => []
  | S fuel' =>
      if (length data <=? max)%nat then [data]
      else take max data :: pieces fuel' max (drop max data)
  end.

Lemma pieces_spec fuel max data :
  (0 < max)%nat -> (length data < fuel)%nat ->
  concat (pieces fuel max data) = data /\ pieces fuel max data <> [] /\
  Forall (fun p => (length p <= max)%nat) (pieces fuel max data).
Proof.
  intros Hm. revert data. induction fuel as [|fuel IH]; intros data Hf; [lia|]. cbn [pieces].
  destruct (Nat.leb_spec (length data) max).
  - split; [cbn; apply app_nil_r|]. split; [done|]. by repeat constructor.
  - destruct (IH (drop max data)) as (Hc & _ & Hl); [rewrite length_drop; lia|].
    split; [cbn; rewrite Hc; apply take_drop|]. split; [done|]. constructor; [rewrite length_take; lia|done].
Qed.

Lemma chunk_header_mark flags total chunked first last :
  0 <= total <= 4294967295 ->
  chunk_header flags total chunked first last = Ok (mkSvcHeader total (Z.lor (mark first last chunked) flags)).
Proof.
  intros Ht. unfold chunk_header, cast_length_field. rewrite !union_bits, (proj2 (Z.leb_le _ _)) by lia.
  by destruct first, last, chunked.
Qed.

(** One round of [chunkify_one]. *)
Lemma chunk_piece flags data buf total chunked first last start stop :
  WriteBuf.holds data buf -> 0 <= total <= 4294967295 -> (start <= stop <= length data)%nat ->
  exists h b b', chunk_header flags total chunked first last = Ok h /\
    encode_buf h WriteBuf.new = Ok (8, b) /\
    WriteBuf.index (E := EncodeErrorKind) start stop buf = Ok (take (stop - start) (drop start data)) /\
    WriteBuf.write_slice (E := EncodeErrorKind) (take (stop - start) (drop start data)) b = Ok b' /\
    WriteBuf.holds (frame total flags chunked first last (take (stop - start) (drop start data))) b'.
Proof.
  intros Hb Ht Hs. eexists. destruct (encode_buf_writes _ _ [] _
    (writes_svc_header total (Z.lor (mark first last chunked) flags)) WriteBuf.holds_new) as (b & Hb1 & Hb2).
  destruct (WriteBuf.write_slice_spec (E := EncodeErrorKind) _ (take (stop - start) (drop start data)) _ Hb2) as (b' & Hw & Hh).
  exists b, b'. split; [by apply chunk_header_mark|]. split; [exact Hb1|].
  split; [by apply WriteBuf.index_spec|]. by split.
Qed.

Lemma chunk_loop_spec fuel flags data buf max chunked start acc :
  WriteBuf.holds data buf -> llen data <= 4294967295 -> (0 < max)%nat -> Z.of_nat max <= MAX_CHANNEL_CHUNK_LENGTH ->
  (start <= length data)%nat -> (length data - start < fuel)%nat ->
  exists bufs,
    chunk_loop fuel flags buf (llen data) (Z.of_nat max) chunked (Z.of_nat start)
      (Z.min (llen data) (Z.of_nat start + Z.of_nat max)) acc = Ok (acc ++ bufs) /\
    Forall2 WriteBuf.holds
      (frames (llen data) flags chunked (start =? 0)%nat (pieces fuel max (drop start data))) bufs.
Proof.
  intros Hb Hl Hm Hmax. unfold MAX_CHANNEL_CHUNK_LENGTH in Hmax.
  revert start acc. induction fuel as [|fuel IH]; intros start acc Hs Hf; [lia|].
  set (stop := Nat.min (length data) (start + max)).
  assert (He : Z.min (llen data) (Z.of_nat start + Z.of_nat max) = Z.of_nat stop) by (unfold stop, llen; lia).
  rewrite He. cbn [chunk_loop pieces]. rewrite !Nat2Z.id, length_drop.
  assert (Hst : (start <= stop <= length data)%nat) by (unfold stop; lia).
  assert (Hfirst : (Z.of_nat start =? 0) = (start =? 0)%nat)
    by (destruct (Nat.eqb_spec start 0); [apply Z.eqb_eq|apply Z.eqb_neq]; lia).
  assert (Hlast : (Z.of_nat stop =? llen data) = (length data - start <=? max)%nat)
    by (unfold stop, llen; destruct (Nat.leb_spec (length data - start) max); [apply Z.eqb_eq|apply Z.eqb_neq]; lia).
  rewrite Hfirst, Hlast.
  destruct (chunk_piece flags data buf (llen data) chunked (start =? 0)%nat (length data - start <=? max)%nat start stop
    Hb ltac:(unfold llen in *; lia) Hst) as (h & b & b' & -> & H1 & H2 & H3 & H4).
  cbn -[chunk_loop encode_buf]. rewrite H1. cbn -[chunk_loop]. rewrite H2. cbn -[chunk_loop]. rewrite H3. cbn -[chunk_loop].
  destruct (Nat.leb_spec (length data - start) max) as [Hle|Hgt].
  - eexists. split; [done|]. constructor; [|constructor].
    replace (take (stop - start) (drop start data)) with (drop start data) in H4; [done|].
    symmetry. apply take_ge. rewrite length_drop. unfold stop. lia.
  - replace (Z.min (llen data) (sat_add64 (Z.of_nat stop) (Z.of_nat max)))
      with (Z.min (llen data) (Z.of_nat stop + Z.of_nat max)) by (unfold sat_add64, U64_MAX, stop, llen in *; lia).
    destruct (IH stop (acc ++ [b'])) as (bufs & -> & Hb2); [unfold stop; lia..|].
    exists (b' :: bufs). rewrite <- app_assoc. split; [done|].
    assert (Hd : drop max (drop start data) = drop stop data) by (rewrite drop_drop; f_equal; unfold stop; lia).
    rewrite Hd. assert (stop =? 0 = false)%nat as Hz by (apply Nat.eqb_neq; unfold stop; lia). rewrite Hz in Hb2.
    replace (take (stop - start) (drop start data)) with (take max (drop start data)) in H4
      by (f_equal; unfold stop; lia).
    destruct (pieces_spec fuel max (drop stop data) Hm ltac:(rewrite length_drop; unfold stop; lia)) as (_ & Hne & _).
    destruct (pieces fuel max (drop stop data)) as [|p ps]; [done|]. by constructor.
Qed.

Definition message_pieces (max : nat) (data : list Z) : list (list Z) := pieces (S (length data)) max data.
Definition message_frames (max : nat) (flags : Z) (data : list Z) : list (list Z) :=
  frames (llen data) flags (Z.of_nat max <? llen data) true (message_pieces max data).

Lemma chunkify_one_spec m max data :
  writes (msg_pdu m) data -> llen data <= 4294967295 -> (0 < max)%nat -> Z.of_nat max <= MAX_CHANNEL_CHUNK_LENGTH ->
  exists bufs, chunkify_one m (Z.of_nat max) = Ok bufs /\
    Forall2 WriteBuf.holds (message_frames max (msg_flags m) data) bufs.
Proof.
  intros Hw Hl Hm Hmax. destruct (encode_buf_writes _ _ [] _ Hw WriteBuf.holds_new) as (b & Hb & Hh).
  unfold chunkify_one. rewrite Hb. cbn -[chunk_loop]. rewrite (WriteBuf.holds_filled_len _ _ Hh). cbn [app] in *.
  replace (Z.to_nat (llen data)) with (length data) by (unfold llen; lia).
  destruct (chunk_loop_spec (S (length data)) (msg_flags m) data b max (Z.of_nat max <? llen data) 0 []
    Hh Hl Hm Hmax) as (bufs & Hc & Hf); [lia..|]. exists bufs. split; [exact Hc|exact Hf].
Qed.

(** ** Reassembly *)

(** The messages a receiver completes from a sequence of payloads. *)
Fixpoint receive (payloads : list (list Z)) : Mut ChunkProcessor DecodeErrorKind (list (list Z)) :=
  match payloads with
  | [] => mret []
  | p :: ps => r ← dechunkify p; rs ← receive ps; mret (option_list r ++ rs)
  end.

Lemma receive_app ps qs s s' s'' xs ys :
  receive ps s = Some (inr xs, s') -> receive qs s' = Some (inr ys, s'') ->
  receive (ps ++ qs) s = Some (inr (xs ++ ys), s'').
Proof.
  revert s xs. induction ps as [|p ps IH]; intros s xs Hp Hq; [by injection Hp as <- <-|].
  cbn [receive app] in *. unfold mbind, Mut_bind in *.
  destruct (dechunkify p s) as [[[|r] s1]|]; [done| |done].
  destruct (receive ps s1) as [[[|rs] s2]|] eqn:Hr; [done| |done]. injection Hp as <- <-.
  by rewrite (IH s1 rs), app_assoc.
Qed.

Lemma mark_flags f first last chunked :
  extra_flags f ->
  is_u32 (Z.lor (mark first last chunked) f) /\
  contains (Z.lor (mark first last chunked) f) ChannelControlFlags.FLAG_FIRST = first /\
  contains (Z.lor (mark first last chunked) f) ChannelControlFlags.FLAG_LAST = last.
Proof.
  intros [Hf H3]. split.
  { apply (lor_range 32); [lia| |exact Hf]. unfold mark. destruct first, last, chunked; lia. }
  rewrite !contains_bits, !Z.land_lor_distr_l.
  rewrite (land_sub f 3 ChannelControlFlags.FLAG_FIRST), (land_sub f 3 ChannelControlFlags.FLAG_LAST) by done.
  by destruct first, last, chunked.
Qed.

(** Runs the reassembly up to the next test. *)
Ltac dechunk_run :=
  cbv beta iota zeta delta [mbind Mut_bind question access mret Mut_ret throw update clear_sequence id
    control_flags length_field chunked_pdu expected_length is_some negb andb ChunkProcessor_new].

(** A chunk in the middle of a sequence is added to what was collected. *)
Lemma dechunk_middle total f chunked (first : bool) piece acc :
  extra_flags f -> is_u32 total -> llen acc + llen piece <= total ->
  (if first then acc = [] else True) ->
  dechunkify (frame total f chunked first false piece)
    (mkChunkProcessor acc (if first then None else Some total)) =
  Some (inr None, mkChunkProcessor (acc ++ piece) (Some total)).
Proof.
  intros Hf Ht Hl Hacc. destruct (mark_flags f first false chunked Hf) as (Hu & H1 & H2).
  destruct (header_cursor total _ piece Ht Hu) as (c & Hc & Hr). unfold dechunkify, frame. rewrite Hc.
  dechunk_run. rewrite H1, H2, Hr.
  destruct first; dechunk_run; [|rewrite decide_False by (by intros []); dechunk_run];
    (rewrite (proj2 (Z.ltb_ge _ _)) by (rewrite llen_app; lia)); by destruct (contains _ ChannelControlFlags.PACKET_COMPRESSED).
Qed.

(** The last chunk completes the message. *)
Lemma dechunk_last total f chunked (first : bool) piece acc :
  extra_flags f -> is_u32 total -> llen acc + llen piece = total ->
  dechunkify (frame total f chunked first true piece)
    (mkChunkProcessor acc (if first then None else Some total)) =
  Some (inr (Some (acc ++ piece)), ChunkProcessor_new).
Proof.
  intros Hf Ht Hl. destruct (mark_flags f first true chunked Hf) as (Hu & H1 & H2).
  destruct (header_cursor total _ piece Ht Hu) as (c & Hc & Hr). unfold dechunkify, frame. rewrite Hc.
  dechunk_run. rewrite H1, H2, Hr.
  destruct first; dechunk_run; [|rewrite decide_False by (by intros []); dechunk_run];
    (rewrite (proj2 (Z.ltb_ge _ _)) by (rewrite llen_app; lia));
    (destruct (contains _ ChannelControlFlags.PACKET_COMPRESSED); dechunk_run; [done|]);
    by rewrite (proj2 (Z.eqb_eq _ _)) by (rewrite llen_app; lia).
Qed.

Lemma receive_frames total f chunked (first : bool) ps acc :
  extra_flags f -> is_u32 total -> ps <> [] -> llen acc + llen (concat ps) = total ->
  (if first then acc = [] else True) ->
  receive (frames total f chunked first ps) (mkChunkProcessor acc (if first then None else Some total)) =
  Some (inr [acc ++ concat ps], ChunkProcessor_new).
Proof.
  intros Hf Ht. revert first acc. induction ps as [|p ps IH]; intros first acc Hne Hl Ha; [done|].
  destruct ps as [|q ps].
  - cbn [frames receive concat] in *. rewrite app_nil_r in *. unfold mbind, Mut_bind.
    by rewrite dechunk_last by (try done; destruct first; subst; done).
  - change (frames total f chunked first (p :: q :: ps)) with
      (frame total f chunked first false p :: frames total f chunked false (q :: ps)).
    cbn [receive]. unfold mbind at 1, Mut_bind at 1. cbn [concat] in Hl. rewrite llen_app in Hl.
    rewrite dechunk_middle; [|done|done|pose proof (llen_nonneg (q ++ concat ps)); cbn in Hl; lia|done].
    unfold mbind, Mut_bind. rewrite (IH false (acc ++ p)); [|done|rewrite llen_app; cbn [concat]; lia|done].
    cbn [concat]. by rewrite <- !app_assoc.
Qed.

Lemma frames_length total f chunked first ps max :
  Forall (fun p => (length p <= max)%nat) ps ->
  Forall (fun p => llen p <= 8 + Z.of_nat max) (frames total f chunked first ps).
Proof.
  intros H. revert first. induction H as [|p ps Hp Hps IH]; intros first; [constructor|].
  assert (Hfr : forall l, llen (frame total f chunked first l p) <= 8 + Z.of_nat max).
  { intros l. unfold frame. rewrite llen_app. unfold llen. rewrite length_header_wire. lia. }
  destruct ps; (constructor; [apply Hfr|]); [constructor|apply IH].
Qed.

(** What a message must satisfy to travel: its PDU writes [data]. *)
Definition carries (m : SvcMessage) (data : list Z) : Prop :=
  writes (msg_pdu m) data /\ llen data <= 4294967295 /\ extra_flags (msg_flags m).

Lemma message_received max flags data :
  (0 < max)%nat -> extra_flags flags -> llen data <= 4294967295 ->
  receive (message_frames max flags data) ChunkProcessor_new = Some (inr [data], ChunkProcessor_new) /\
  Forall (fun p => llen p <= 8 + Z.of_nat max) (message_frames max flags data).
Proof.
  intros Hm Hf Hl. destruct (pieces_spec (S (length data)) max data Hm ltac:(lia)) as (Hc & Hne & Hp).
  split; [|by apply frames_length].
  assert (Hu : is_u32 (llen data)) by (pose proof (llen_nonneg data); width).
  pose proof (receive_frames (llen data) flags (Z.of_nat max <? llen data) true
    (message_pieces max data) [] Hf Hu Hne) as H. unfold message_pieces in H. rewrite Hc in H. by apply H.
Qed.

Lemma chunkify_all_spec max ms datas :
  (0 < max)%nat -> Z.of_nat max <= MAX_CHANNEL_CHUNK_LENGTH -> Forall2 carries ms datas ->
  exists bufs payloads, chunkify_all ms (Z.of_nat max) = Ok bufs /\ Forall2 WriteBuf.holds payloads bufs /\
    Forall (fun p => llen p <= 8 + Z.of_nat max) payloads /\
    receive payloads ChunkProcessor_new = Some (inr datas, ChunkProcessor_new).
Proof.
  intros Hm Hmax. induction 1 as [|m data ms datas (Hw & Hl & Hf) _ IH].
  { exists [], []. split_and!; [done|constructor|constructor|done]. }
  destruct (chunkify_one_spec m max data Hw Hl Hm Hmax) as (b1 & H1 & Hh1).
  destruct (message_received max (msg_flags m) data Hm Hf Hl) as [Hr1 Hs1].
  destruct IH as (b2 & ps & H2 & Hh2 & Hs2 & Hr2).
  exists (b1 ++ b2), (message_frames max (msg_flags m) data ++ ps). cbn [chunkify_all]. rewrite H1, H2.
  split_and!; [done|by apply Forall2_app|by apply Forall_app|]. exact (receive_app _ _ _ _ _ [data] datas Hr1 Hr2).
Qed.

(** Whatever messages a channel sends (each below 4 GiB, with any extra
    header flags but FIRST and LAST) and whatever chunk length was negotiated,
    chunking succeeds, no chunk is longer than the negotiated length plus the
    eight bytes of its header, and the peer's reassembly returns exactly the
    messages, in order, and is left idle. *)
Theorem svc_chunk_roundtrip (max : Z) (ms : list SvcMessage) (datas : list (list Z)) :
  chunk_length_ok max = true -> Forall2 carries ms datas ->
  exists chunks payloads, chunkify ms max = Ok chunks /\
    Forall2 (fun p c => WriteBuf.filled (E := EncodeErrorKind) c = Ok p) payloads chunks /\
    Forall (fun p => llen p <= 8 + max) payloads /\
    receive payloads ChunkProcessor_new = Some (inr datas, ChunkProcessor_new).
Proof.
  intros Hok Hc. unfold chunkify. rewrite Hok. cbn [negb].
  apply andb_prop in Hok as [H1%Z.leb_le H2%Z.leb_le]. unfold CHANNEL_CHUNK_LENGTH in H1.
  destruct (chunkify_all_spec (Z.to_nat max) ms datas) as (bufs & ps & Ha & Hh & Hs & Hr); [lia|lia|done|].
  rewrite !Z2Nat.id in * by lia. exists bufs, ps. split_and!; [done| |done|done].
  eapply Forall2_impl; [exact Hh|]. intros p c Hpc. by apply WriteBuf.holds_filled.
Qed.

(** ** Arbitrary input *)

(** Nothing is collected while no sequence is open. *)
Definition idle_clean (s : ChunkProcessor) : Prop := expected_length s = None -> chunked_pdu s = [].

(** What is collected fits the declared length. *)
Definition bounded (s : ChunkProcessor) : Prop :=
  match expected_length s with
  | None => chunked_pdu s = []
  | Some n => llen (chunked_pdu s) <= n <= 4294967295
  end.

(** The flags field of a payload. *)
Definition payload_flags (payload : list Z) : Z := from_le_bytes (take 4 (drop 4 payload)).
Definition uncompressed (payload : list Z) : Prop :=
  Z.land (payload_flags payload) ChannelControlFlags.PACKET_COMPRESSED = 0.

Lemma header_total payload :
  bytes_ok payload -> 8 <= llen payload ->
  exists h c, decode_from (A := ChannelPduHeader) (ReadCursor.new payload) = Ok (h, c) /\
    is_u32 (length_field h) /\ control_flags h = payload_flags payload.
Proof.
  intros Hb Hl. set (a := take 4 payload). set (b := take 4 (drop 4 payload)).
  assert (Ha : length a = 4%nat) by (unfold a, llen in *; rewrite length_take; lia).
  assert (Hb4 : length b = 4%nat) by (unfold b, llen in *; rewrite length_take, length_drop; lia).
  assert (Hpa : bytes_ok a) by by apply Forall_take.
  assert (Hpb : bytes_ok b) by by apply Forall_take, Forall_drop.
  assert (Hr : forall l, length l = 4%nat -> bytes_ok l -> is_u32 (from_le_bytes l)).
  { intros l Hl4 Hbl. pose proof (from_le_bytes_range l Hbl) as H. unfold llen in H. rewrite Hl4 in H. exact H. }
  destruct (header_cursor (from_le_bytes a) (from_le_bytes b) (drop 8 payload) (Hr a Ha Hpa) (Hr b Hb4 Hpb)) as (c & Hc & _).
  replace (header_wire _ _ ++ drop 8 payload) with payload in Hc; [by eexists _, _; split; [exact Hc|]; split; [apply Hr|]|].
  assert (Hta : to_le_bytes 4 (from_le_bytes a) = a) by (rewrite <- Ha; by apply to_from_le_bytes).
  assert (Htb : to_le_bytes 4 (from_le_bytes b) = b) by (rewrite <- Hb4; by apply to_from_le_bytes).
  unfold header_wire. rewrite Hta, Htb, <- app_assoc. unfold a, b. replace (drop 8 payload) with (drop 4 (drop 4 payload)) by apply drop_drop.
  by rewrite !take_drop.
Qed.

Lemma header_short payload :
  llen payload < 8 -> exists e, decode_from (A := ChannelPduHeader) (ReadCursor.new payload) = Err e.
Proof.
  intros Hl. cbn [decode_from ChannelPduHeader_Decode]. unfold ChannelPduHeader_decode, mbind, M_bind, ReadCursor.ensure_size.
  unfold ReadCursor.len. cbn [ReadCursor.new ReadCursor.inner ReadCursor.pos].
  rewrite (proj2 (Z.leb_gt _ _)) by lia. by eexists.
Qed.

(** What one payload can do to the reassembly, whatever it holds. *)
Definition dechunk_effect (payload : list Z) (s : ChunkProcessor) (r : DecodeErrorKind + option (list Z))
    (s' : ChunkProcessor) : Prop :=
  match r with
  | inl _ => s' = if 8 <=? llen payload then ChunkProcessor_new else s
  | inr (Some _) => s' = ChunkProcessor_new
  | inr None => is_Some (expected_length s')
  end.

Lemma clean_none s : idle_clean s -> expected_length s = None -> s = ChunkProcessor_new.
Proof. intros Hc Hn. specialize (Hc Hn). destruct s. cbn in *. by subst. Qed.

Ltac settle Hun :=
  eexists _, _; split; [reflexivity|]; split; [first [reflexivity|by eexists]|]; split; [done|];
  let Hp := fresh in intros ? Hp; first [reflexivity|by specialize (Hun Hp)|cbn; width].

Lemma dechunk_total payload s :
  bytes_ok payload -> idle_clean s ->
  exists r s', dechunkify payload s = Some (r, s') /\ dechunk_effect payload s r s' /\ idle_clean s' /\
    (bounded s -> uncompressed payload -> bounded s').
Proof.
  intros Hb Hc. destruct (Z.leb_spec 8 (llen payload)) as [Hl|Hl].
  2:{ destruct (header_short payload Hl) as (e & He). unfold dechunkify. rewrite He. dechunk_run.
      eexists _, _. split; [done|]. cbn. rewrite (proj2 (Z.leb_gt _ _)) by done. by split_and!. }
  destruct (header_total payload Hb Hl) as ([len fl] & c & Hd & Hu & Hf). cbn [length_field control_flags] in *.
  unfold dechunkify. rewrite Hd. dechunk_run.
  set (first := contains _ ChannelControlFlags.FLAG_FIRST). set (last := contains _ ChannelControlFlags.FLAG_LAST).
  set (comp := contains _ ChannelControlFlags.PACKET_COMPRESSED).
  assert (Hun : uncompressed payload -> comp = false).
  { intros H. unfold comp. rewrite contains_bits, Hf. unfold uncompressed in H. by rewrite H. }
  unfold dechunk_effect. rewrite (proj2 (Z.leb_le _ _)) by done.
  unfold bounded, idle_clean in *. destruct s as [acc [n|]]; cbn [chunked_pdu expected_length] in *.
  - destruct first; [destruct last, comp; dechunk_run; settle Hun|].
    destruct (decide (Some n <> Some len)) as [|Heq%dec_stable]; [destruct last, comp; dechunk_run; settle Hun|].
    injection Heq as ->.
    destruct last, comp; dechunk_run; try settle Hun;
      destruct (Z.ltb_spec len (llen (acc ++ ReadCursor.remaining c))); dechunk_run; try settle Hun.
    destruct (llen _ =? len); dechunk_run; settle Hun.
  - rewrite (Hc eq_refl) in *. cbn [app].
    destruct first, last; dechunk_run;
      [..|destruct comp, (llen (ReadCursor.remaining c) =? len); dechunk_run; settle Hun].
    + destruct comp; dechunk_run; [settle Hun|].
      destruct (len <? _); dechunk_run; [settle Hun|]. destruct (_ =? len); dechunk_run; settle Hun.
    + destruct comp; dechunk_run; [settle Hun|].
      destruct (Z.ltb_spec len (llen ([] ++ ReadCursor.remaining c))); cbn [app] in *; dechunk_run; settle Hun.
    + rewrite decide_True by done. dechunk_run. settle Hun.
Qed.

(** The reassembly after a sequence of payloads, errors included. *)
Fixpoint absorb (payloads : list (list Z)) (s : ChunkProcessor) : option ChunkProcessor :=
  match payloads with
  | [] => Some s
  | p :: ps => match dechunkify p s with Some (_, s') => absorb ps s' | None => None end
  end.

Lemma absorb_total payloads s :
  Forall bytes_ok payloads -> idle_clean s ->
  exists s', absorb payloads s = Some s' /\ idle_clean s' /\
    (Forall uncompressed payloads -> bounded s -> bounded s').
Proof.
  intros H. revert s. induction H as [|p ps Hp Hps IH]; intros s Hc; [by exists s|].
  destruct (dechunk_total p s Hp Hc) as (r & s1 & Hd & _ & Hc1 & Hb1). cbn [absorb]. rewrite Hd.
  destruct (IH s1 Hc1) as (s2 & H2 & Hc2 & Hb2). exists s2. split_and!; [done..|].
  intros [Hu Hus]%Forall_cons Hb. auto.
Qed.

Lemma idle_new : idle_clean ChunkProcessor_new.
Proof. done. Qed.

(** C40: the reassembly of a channel never panics, whatever payloads arrive,
    and an error resynchronises it: after any number of arbitrary payloads, if
    one of at least eight bytes, a whole chunk header, is refused, the message
    sent next is received unharmed.  A shorter payload that is refused leaves the
    reassembly, and with it a message that has begun, as it was. *)
Theorem svc_resync (garbage : list (list Z)) (bad : list Z) :
  Forall bytes_ok garbage -> bytes_ok bad ->
  exists s r s', absorb garbage ChunkProcessor_new = Some s /\ dechunkify bad s = Some (r, s') /\
    (forall e, r = inl e -> llen bad < 8 -> s' = s) /\
    (forall e max m data, r = inl e -> 8 <= llen bad -> chunk_length_ok max = true -> carries m data ->
      exists chunks payloads, chunkify [m] max = Ok chunks /\
        Forall2 (fun p c => WriteBuf.filled (E := EncodeErrorKind) c = Ok p) payloads chunks /\
        receive payloads s' = Some (inr [data], ChunkProcessor_new)).
Proof.
  intros Hg Hb. destruct (absorb_total garbage _ Hg idle_new) as (s & Hs & Hc & _).
  destruct (dechunk_total bad s Hb Hc) as (r & s' & Hd & He & _). exists s, r, s'. split_and!; [done..| |].
  { intros e -> Hl. unfold dechunk_effect in He. by rewrite (proj2 (Z.leb_gt _ _)) in He. }
  intros e max m data -> Hl Hm Hcar. unfold dechunk_effect in He. rewrite (proj2 (Z.leb_le _ _)) in He by done. subst s'.
  unfold chunkify. rewrite Hm. apply andb_prop in Hm as [H1%Z.leb_le H2%Z.leb_le]. unfold CHANNEL_CHUNK_LENGTH in H1.
  destruct (chunkify_all_spec (Z.to_nat max) [m] [data]) as (bufs & ps & Ha & Hh & _ & Hr);
    [lia|lia|by constructor; [|constructor]|].
  rewrite Z2Nat.id in * by lia. exists bufs, ps. split_and!; [done| |done].
  eapply Forall2_impl; [exact Hh|]. intros p c Hpc. by apply WriteBuf.holds_filled.
Qed.

(** As long as no chunk claims to be compressed, what a channel collects
    never outgrows the length its peer declared, and nothing is held between
    messages. *)
Theorem svc_reassembly_bounded (payloads : list (list Z)) :
  Forall bytes_ok payloads -> Forall uncompressed payloads ->
  exists s, absorb payloads ChunkProcessor_new = Some s /\ bounded s.
Proof.
  intros Hb Hu. destruct (absorb_total payloads _ Hb idle_new) as (s & Hs & _ & Hbd). exists s.
  split; [done|]. by apply Hbd.
Qed.

End flags.

(** ** Witnesses *)

Definition demo_pdu : ChannelPduHeader := mkChannelPduHeader 7 0.

Lemma demo_carries : carries (svc_message demo_pdu) (header_wire 7 0).
Proof.
  split; [|split; [done|split; [cbn; width|done]]]. split; [|done].
  apply encodes_ensure; [done|]. apply encodes_bind; apply encodes_u32.
Qed.

Lemma svc_chunk_roundtrip_witness :
  exists chunks payloads, chunkify (BF := bits_flags) [svc_message demo_pdu] 1600 = Ok chunks /\
    Forall2 (fun p c => WriteBuf.filled (E := EncodeErrorKind) c = Ok p) payloads chunks /\
    Forall (fun p => llen p <= 8 + 1600) payloads /\
    receive (BF := bits_flags) payloads ChunkProcessor_new = Some (inr [header_wire 7 0], ChunkProcessor_new).
Proof. apply svc_chunk_roundtrip; [done|]. constructor; [apply demo_carries|constructor]. Defined.

Lemma svc_resync_witness :
  exists s r s', absorb (BF := bits_flags) [[1; 2]; header_wire 5 1] ChunkProcessor_new = Some s /\
    dechunkify (BF := bits_flags) (header_wire 6 2) s = Some (r, s') /\
    (forall e, r = inl e -> llen (header_wire 6 2) < 8 -> s' = s) /\
    (forall e max m data, r = inl e -> 8 <= llen (header_wire 6 2) -> chunk_length_ok max = true -> carries m data ->
      exists chunks payloads, chunkify (BF := bits_flags) [m] max = Ok chunks /\
        Forall2 (fun p c => WriteBuf.filled (E := EncodeErrorKind) c = Ok p) payloads chunks /\
        receive (BF := bits_flags) payloads s' = Some (inr [data], ChunkProcessor_new)).
Proof. apply svc_resync; repeat constructor; vm_compute; intuition discriminate. Defined.

Lemma svc_reassembly_bounded_witness :
  exists s, absorb (BF := bits_flags) [header_wire 5 1 ++ [1; 2; 3]] ChunkProcessor_new = Some s /\ bounded s.
Proof.
  apply svc_reassembly_bounded; [repeat constructor; vm_compute; intuition discriminate|by repeat constructor].
Defined.
