(* ===== verification/SvcSet.v ===== *)
(** The set of static virtual channels of a session
    (src/crates/ironrdp-svc/src/lib.rs, [StaticChannelSet]): three maps that
    must stay consistent with each other while channels come, go and get their
    ids.

    A [TypeId] is an opaque ordered value, here an integer.  The [BTreeMap]s
    are finite maps; their iteration order is written out where the code
    iterates. *)

From S2P Require Import Prelude Cursor Codec Flags Mutation WriteBuf Mcs Svc.

Inductive StaticChannelKey := Typed (type_id : Z) | Dynamic (n : Z).
#[export] Instance StaticChannelKey_eq_dec : EqDecision StaticChannelKey.
Proof. solve_decision. Defined.
#[export] Instance StaticChannelKey_countable : Countable StaticChannelKey.
Proof.
  refine (inj_countable' (fun k => match k with Typed t => inl t | Dynamic n => inr n end)
    (fun s => match s with inl t => Typed t | inr n => Dynamic n end) _).
  by intros [].
Defined.

(** The derived order. *)
Definition key_le (a b : StaticChannelKey) : Prop :=
  match a, b with
  | Typed x, Typed y => x <= y
  | Typed _, Dynamic _ => True
  | Dynamic _, Typed _ => False
  | Dynamic x, Dynamic y => x <= y
  end.
#[export] Instance key_le_dec a b : Decision (key_le a b).
Proof. destruct a, b; cbn; apply _. Defined.

Section set.
Context {P : Type} {SP : SvcProcessor P}.
Abbreviation Channel := (StaticVirtualChannel P).

Record StaticChannelSet := mkSet {
  channels : gmap StaticChannelKey Channel;
  to_channel_id : gmap StaticChannelKey Z;
  to_channel_key : gmap Z StaticChannelKey;
  next_dynamic_key : Z;
  maximum_chunk_size : Z;
}.

Definition set_new : StaticChannelSet := mkSet ∅ ∅ ∅ 0 CHANNEL_CHUNK_LENGTH.

Definition set_len (s : StaticChannelSet) : Z := Z.of_nat (base.size (channels s)).
Definition set_is_empty (s : StaticChannelSet) : bool := set_len s =? 0.

(** [insert::<T>(val)] for a type with id [type_id] *)
Definition set_insert (type_id : Z) (val : P) (s : StaticChannelSet) : option Channel * StaticChannelSet :=
  let key := Typed type_id in
  if negb (is_some (channels s !! key)) && (MAX_STATIC_CHANNELS <=? set_len s) then (None, s)
  else
    (channels s !! key,
     mkSet (<[key := StaticVirtualChannel_new val]> (channels s)) (to_channel_id s) (to_channel_key s)
       (next_dynamic_key s) (maximum_chunk_size s)).

Definition set_insert_dynamic (val : P) (s : StaticChannelSet) : option StaticChannelKey * StaticChannelSet :=
  if MAX_STATIC_CHANNELS <=? set_len s then (None, s)
  else if next_dynamic_key s + 1 <=? U64_MAX then
    let key := Dynamic (next_dynamic_key s) in
    (Some key,
     mkSet (<[key := StaticVirtualChannel_new val]> (channels s)) (to_channel_id s) (to_channel_key s)
       (next_dynamic_key s + 1) (maximum_chunk_size s))
  else (None, s).

Definition get_by_key (key : StaticChannelKey) (s : StaticChannelSet) : option Channel := channels s !! key.
Definition get_by_type_id (type_id : Z) (s : StaticChannelSet) : option Channel := channels s !! Typed type_id.

(** [*set.get_by_key_mut(key)? = c], what a caller of the [_mut] lookups does *)
Definition set_update (key : StaticChannelKey) (c : Channel) (s : StaticChannelSet) : StaticChannelSet :=
  match channels s !! key with
  | Some _ => mkSet (<[key := c]> (channels s)) (to_channel_id s) (to_channel_key s)
      (next_dynamic_key s) (maximum_chunk_size s)
  | None => s
  end.

Definition get_key_by_channel_id (channel_id : Z) (s : StaticChannelSet) : option StaticChannelKey :=
  to_channel_key s !! channel_id.
Definition get_by_channel_id (channel_id : Z) (s : StaticChannelSet) : option Channel :=
  key ← get_key_by_channel_id channel_id s; get_by_key key s.
Definition get_type_id_by_channel_id (channel_id : Z) (s : StaticChannelSet) : option Z :=
  key ← get_key_by_channel_id channel_id s;
  match key with Typed type_id => Some type_id | Dynamic _ => None end.
Definition get_channel_id_by_type_id (type_id : Z) (s : StaticChannelSet) : option Z :=
  to_channel_id s !! Typed type_id.

(** The pairs in key order. *)
Definition iter_by_key (s : StaticChannelSet) : list (StaticChannelKey * Channel) :=
  merge_sort (fun a b => key_le a.1 b.1) (map_to_list (channels s)).
Definition set_keys (s : StaticChannelSet) : list StaticChannelKey := (iter_by_key s).*1.
Definition iter_typed (s : StaticChannelSet) : list (Z * Channel) :=
  omap (fun kc => match kc.1 with Typed t => Some (t, kc.2) | Dynamic _ => None end) (iter_by_key s).

Definition named (name : list Z) (c : Channel) : bool := bool_decide (channel_name (channel_processor c) = name).
Definition get_by_channel_name (name : list Z) (s : StaticChannelSet) : option (Z * Channel) :=
  head (List.filter (fun tc => named name tc.2) (iter_typed s)).
Definition get_by_channel_name_key (name : list Z) (s : StaticChannelSet) : option (StaticChannelKey * Channel) :=
  head (List.filter (fun kc => named name kc.2) (iter_by_key s)).
Definition get_channel_id_by_channel_name (name : list Z) (s : StaticChannelSet) : option Z :=
  kc ← get_by_channel_name_key name s; to_channel_id s !! kc.1.

Definition remove_by_type_id (type_id : Z) (s : StaticChannelSet) : option Channel * StaticChannelSet :=
  let key := Typed type_id in
  (channels s !! key,
   mkSet (delete key (channels s)) (delete key (to_channel_id s))
     (match to_channel_id s !! key with
      | Some channel_id => delete channel_id (to_channel_key s)
      | None => to_channel_key s
      end)
     (next_dynamic_key s) (maximum_chunk_size s)).

Definition attach_channel_id_by_key (key : StaticChannelKey) (channel_id : Z) (s : StaticChannelSet) :
    option Z * StaticChannelSet :=
  if negb (is_some (channels s !! key)) then (None, s)
  else
    let previous_channel_id := to_channel_id s !! key in
    let ids := <[key := channel_id]> (to_channel_id s) in
    let keys :=
      match previous_channel_id with
      | Some previous => if negb (previous =? channel_id) then delete previous (to_channel_key s) else to_channel_key s
      | None => to_channel_key s
      end in
    let previous_key := keys !! channel_id in
    let keys := <[channel_id := key]> keys in
    let ids :=
      match previous_key with
      | Some previous => if decide (previous <> key) then delete previous ids else ids
      | None => ids
      end in
    (previous_channel_id, mkSet (channels s) ids keys (next_dynamic_key s) (maximum_chunk_size s)).
Definition attach_channel_id (type_id channel_id : Z) (s : StaticChannelSet) : option Z * StaticChannelSet :=
  attach_channel_id_by_key (Typed type_id) channel_id s.

Definition detach_channel_id (type_id : Z) (s : StaticChannelSet) : option Z * StaticChannelSet :=
  let key := Typed type_id in
  match to_channel_id s !! key with
  | Some channel_id =>
      (Some channel_id,
       mkSet (channels s) (delete key (to_channel_id s)) (delete channel_id (to_channel_key s))
         (next_dynamic_key s) (maximum_chunk_size s))
  | None => (None, s)
  end.

Definition set_maximum_chunk_size (n : Z) (s : StaticChannelSet) : bool * StaticChannelSet :=
  if negb (chunk_length_ok n) then (false, s)
  else (true, mkSet (channels s) (to_channel_id s) (to_channel_key s) (next_dynamic_key s) n).

Definition set_clear (s : StaticChannelSet) : StaticChannelSet :=
  mkSet ∅ ∅ ∅ (next_dynamic_key s) (maximum_chunk_size s).

(** ** The invariant *)

Record set_inv (s : StaticChannelSet) : Prop := {
  inv_inverse key id : to_channel_id s !! key = Some id <-> to_channel_key s !! id = Some key;
  inv_known key id : to_channel_id s !! key = Some id -> is_Some (channels s !! key);
  inv_limit : set_len s <= MAX_STATIC_CHANNELS;
  inv_fresh n : is_Some (channels s !! Dynamic n) -> 0 <= n < next_dynamic_key s;
  inv_next : 0 <= next_dynamic_key s <= U64_MAX;
  inv_chunk : chunk_length_ok (maximum_chunk_size s) = true;
}.

Lemma set_inv_new : set_inv set_new.
Proof.
  split; [done|done|done| |done|done]. intros n [c H]. done.
Qed.

Lemma len_insert k c (m : gmap StaticChannelKey Channel) :
  Z.of_nat (base.size (<[k := c]> m)) = Z.of_nat (base.size m) + (if is_some (m !! k) then 0 else 1).
Proof.
  destruct (m !! k) eqn:H; cbn; [rewrite map_size_insert_Some by eauto; lia|].
  rewrite map_size_insert_None by done. lia.
Qed.

Lemma insert_inv t p s : set_inv s -> set_inv (set_insert t p s).2.
Proof.
  intros [Hi Hk Hl Hf Hn Hc]. unfold set_insert. destruct (_ && _) eqn:Hg; [done|]. cbn.
  split; cbn; [done| | | |done|done].
  - intros key id H. destruct (decide (key = Typed t)) as [->|]; [by rewrite lookup_insert_eq|].
    rewrite lookup_insert_ne by done. eauto.
  - unfold set_len in *. cbn. rewrite len_insert. destruct (is_some (channels s !! Typed t)); cbn in *; [lia|].
    apply Z.leb_gt in Hg. lia.
  - intros n. rewrite lookup_insert_ne by done. apply Hf.
Qed.

Lemma insert_dynamic_inv p s : set_inv s -> set_inv (set_insert_dynamic p s).2.
Proof.
  intros [Hi Hk Hl Hf Hn Hc]. unfold set_insert_dynamic.
  destruct (Z.leb_spec MAX_STATIC_CHANNELS (set_len s)); [done|].
  destruct (Z.leb_spec (next_dynamic_key s + 1) U64_MAX); [|done]. split; cbn; [done| | | |lia|done].
  - intros key id Hid. destruct (decide (key = Dynamic (next_dynamic_key s))) as [->|]; [by rewrite lookup_insert_eq|].
    rewrite lookup_insert_ne by done. eauto.
  - unfold set_len in *. cbn. rewrite len_insert. destruct (is_some _); lia.
  - intros n. destruct (decide (n = next_dynamic_key s)) as [->|]; [lia|].
    rewrite lookup_insert_ne by congruence. intros [? ?]%Hf. lia.
Qed.

Lemma update_inv k c s : set_inv s -> set_inv (set_update k c s).
Proof.
  intros [Hi Hk Hl Hf Hn Hc]. unfold set_update. destruct (channels s !! k) eqn:Hck; [|done].
  split; cbn; [done| | | |done|done].
  - intros key id H. destruct (decide (key = k)) as [->|]; [by rewrite lookup_insert_eq|].
    rewrite lookup_insert_ne by done. eauto.
  - unfold set_len in *. cbn. rewrite len_insert, Hck. cbn. lia.
  - intros n. destruct (decide (k = Dynamic n)) as [->|]; [rewrite lookup_insert_eq; intros _; apply Hf; eauto|].
    rewrite lookup_insert_ne by done. apply Hf.
Qed.

(** Dropping a pair from both directions keeps them inverse. *)
Lemma inverse_delete (ids : gmap StaticChannelKey Z) (keys : gmap Z StaticChannelKey) k i :
  (forall key id, ids !! key = Some id <-> keys !! id = Some key) -> ids !! k = Some i ->
  forall key id, delete k ids !! key = Some id <-> delete i keys !! id = Some key.
Proof.
  intros H Hk key id. rewrite !lookup_delete_Some. pose proof (H key id). pose proof (H k i).
  split; intros [Hne Hx]; split; [|tauto| |tauto].
  - intros <-. assert (keys !! i = Some key) by (by apply H). assert (keys !! i = Some k) by (by apply H). congruence.
  - intros <-. assert (ids !! k = Some id) by (by apply H). congruence.
Qed.

Lemma set_remove_inv t s : set_inv s -> set_inv (remove_by_type_id t s).2.
Proof.
  intros [Hi Hk Hl Hf Hn Hc]. unfold remove_by_type_id. cbn. split; cbn; [| | | |done|done].
  - destruct (to_channel_id s !! Typed t) as [i|] eqn:Ht; [by apply inverse_delete|].
    intros key id. rewrite delete_id by done. apply Hi.
  - intros key id [Hne H]%lookup_delete_Some. rewrite lookup_delete_ne by done. eauto.
  - unfold set_len in *. cbn. rewrite map_size_delete. destruct (channels s !! Typed t); cbn; lia.
  - intros n. rewrite lookup_delete_ne by done. apply Hf.
Qed.

Lemma detach_inv t s : set_inv s -> set_inv (detach_channel_id t s).2.
Proof.
  intros [Hi Hk Hl Hf Hn Hc]. unfold detach_channel_id.
  destruct (to_channel_id s !! Typed t) as [i|] eqn:Ht; [|done]. split; cbn; [|  |done|done|done|done].
  - by apply inverse_delete.
  - intros key id [_ H]%lookup_delete_Some. eauto.
Qed.

(** What [attach_channel_id_by_key] does to the two maps: every other pair
    that mentions the key or the id goes. *)
Lemma attach_spec k i s :
  set_inv s -> is_Some (channels s !! k) ->
  let s' := (attach_channel_id_by_key k i s).2 in
  (forall key id, to_channel_id s' !! key = Some id <->
    (key = k /\ id = i) \/ (key <> k /\ id <> i /\ to_channel_id s !! key = Some id)) /\
  (forall key id, to_channel_key s' !! id = Some key <->
    (key = k /\ id = i) \/ (key <> k /\ id <> i /\ to_channel_key s !! id = Some key)).
Proof.
  intros [Hi Hk Hl Hf Hn Hc] [c Hck]. unfold attach_channel_id_by_key. rewrite Hck. cbn [is_some negb snd to_channel_id to_channel_key].
  set (keys := match to_channel_id s !! k with Some previous => _ | None => _ end).
  assert (Hkeys : forall id, keys !! id = if decide (to_channel_id s !! k = Some id /\ id <> i) then None else to_channel_key s !! id).
  { intros id. unfold keys. destruct (to_channel_id s !! k) as [p|] eqn:Hp.
    - destruct (Z.eqb_spec p i) as [->|Hne]; cbn [negb].
      + rewrite decide_False; [done|]. intros [[= ->] ?]. done.
      + destruct (decide (p = id)) as [->|]; [by rewrite lookup_delete_eq, decide_True|].
        rewrite lookup_delete_ne, decide_False by (done || intros [[= ?] _]; done). done.
    - rewrite decide_False; [done|]. by intros []. }
  assert (Hik : forall key, to_channel_key s !! i = Some key -> to_channel_id s !! key = Some i) by (intros; by apply Hi).
  assert (Hki : keys !! i = to_channel_key s !! i) by (rewrite Hkeys, decide_False; [done|]; by intros []).
  rewrite Hki. split; intros key id.
  - destruct (to_channel_key s !! i) as [pk|] eqn:Hpk.
    + destruct (decide (pk <> k)) as [Hne|Heq%dec_stable]; [|subst pk].
      { rewrite lookup_delete_Some, lookup_insert_Some. specialize (Hik pk eq_refl).
        split; [intros [H1 [[<- <-]|[H2 H3]]]; [by left|right]|intros [[-> ->]|(H1 & H2 & H3)]; [by split; [|left]|]].
        { split_and!; [done| |done]. intros ->. apply Hi in H3. congruence. }
        { split; [|by right]. intros <-. congruence. } }
      { rewrite lookup_insert_Some. specialize (Hik k eq_refl).
        split; [intros [[<- <-]|[H2 H3]]; [by left|right]|intros [[-> ->]|(H1 & H2 & H3)]; [by left|by right]].
        split_and!; [done| |done]. intros ->. apply Hi in H3. congruence. }
    + rewrite lookup_insert_Some. split; [intros [[<- <-]|[H2 H3]]; [by left|right]|intros [[-> ->]|(H1 & H2 & H3)]; [by left|by right]].
      split_and!; [done| |done]. intros ->. apply Hi in H3. congruence.
  - rewrite lookup_insert_Some, Hkeys. split.
    + intros [[<- <-]|[H1 H2]]; [by left|right]. case_decide as Hd; [done|].
      split_and!; [|done|done]. intros ->. apply Hd. split; [by apply Hi|done].
    + intros [[-> ->]|(H1 & H2 & H3)]; [by left|right]. split; [done|]. rewrite decide_False; [done|].
      intros [H4 _]. apply Hi in H4. congruence.
Qed.

Lemma attach_inv k i s : set_inv s -> set_inv (attach_channel_id_by_key k i s).2.
Proof.
  intros Hs. destruct (channels s !! k) as [c|] eqn:Hck.
  2:{ unfold attach_channel_id_by_key. by rewrite Hck. }
  destruct (attach_spec k i s Hs ltac:(eauto)) as [H1 H2]. destruct Hs as [Hi Hk Hl Hf Hn Hc].
  assert (Hsame : channels (attach_channel_id_by_key k i s).2 = channels s /\
    next_dynamic_key (attach_channel_id_by_key k i s).2 = next_dynamic_key s /\
    maximum_chunk_size (attach_channel_id_by_key k i s).2 = maximum_chunk_size s)
    by (unfold attach_channel_id_by_key; by rewrite Hck).
  destruct Hsame as (Hch & Hnd & Hmc). split; unfold set_len; rewrite ?Hch, ?Hnd, ?Hmc; [| |done|done|done|done].
  - intros key id. rewrite H1, H2, Hi. done.
  - intros key id [[-> ->]|(_ & _ & H)]%H1; eauto.
Qed.

Lemma chunk_size_inv n s : set_inv s -> set_inv (set_maximum_chunk_size n s).2.
Proof.
  intros Hs. unfold set_maximum_chunk_size. destruct (chunk_length_ok n) eqn:Hn; [|done].
  by destruct Hs.
Qed.

Lemma clear_inv s : set_inv s -> set_inv (set_clear s).
Proof. intros [Hi Hk Hl Hf Hn Hc]. split; cbn; try done. intros n [? ?]. done. Qed.

(** ** Reachable sets *)

Inductive set_step : StaticChannelSet -> StaticChannelSet -> Prop :=
| StepInsert t p s : set_step s (set_insert t p s).2
| StepInsertDynamic p s : set_step s (set_insert_dynamic p s).2
| StepUpdate k c s : set_step s (set_update k c s)
| StepRemove t s : set_step s (remove_by_type_id t s).2
| StepAttach k i s : set_step s (attach_channel_id_by_key k i s).2
| StepDetach t s : set_step s (detach_channel_id t s).2
| StepChunkSize n s : set_step s (set_maximum_chunk_size n s).2
| StepClear s : set_step s (set_clear s).

Inductive set_reachable : StaticChannelSet -> Prop :=
| ReachNew : set_reachable set_new
| ReachStep s s' : set_reachable s -> set_step s s' -> set_reachable s'.

Lemma step_inv s s' : set_inv s -> set_step s s' -> set_inv s'.
Proof.
  intros Hs Hst. destruct Hst; [by apply insert_inv|by apply insert_dynamic_inv|by apply update_inv|by apply set_remove_inv|
    by apply attach_inv|by apply detach_inv|by apply chunk_size_inv|by apply clear_inv].
Qed.

Lemma set_reachable_inv s : set_reachable s -> set_inv s.
Proof. induction 1; [apply set_inv_new|by eapply step_inv]. Qed.

Lemma steps_next s s' : rtc set_step s s' -> next_dynamic_key s <= next_dynamic_key s'.
Proof.
  induction 1 as [|s s1 s2 Hst _ IH]; [done|]. etrans; [|exact IH]. destruct Hst; cbn; try done.
  - unfold set_insert. by destruct (_ && _).
  - unfold set_insert_dynamic. destruct (_ <=? _); [done|]. destruct (_ <=? _); cbn; lia.
  - unfold set_update. by destruct (channels s !! k).
  - unfold attach_channel_id_by_key. by destruct (negb _).
  - unfold detach_channel_id. by destruct (to_channel_id s !! _).
  - unfold set_maximum_chunk_size. by destruct (negb _).
Qed.

(** Whatever is inserted, removed, attached, detached or cleared, the id
    of a channel and the channel of an id stay inverse to each other, ids only
    belong to registered channels, there are never more than 31 channels, a
    runtime-defined channel never gets a key that was handed out before, and
    the chunk length stays in the permitted range. *)
Theorem channel_set_invariant (s : StaticChannelSet) :
  set_reachable s ->
  set_inv s /\
  (forall p k s', set_insert_dynamic p s = (Some k, s') -> channels s !! k = None /\
    get_by_key k s' = Some (StaticVirtualChannel_new p) /\
    forall q k2 s2 s'', rtc set_step s' s2 -> set_insert_dynamic q s2 = (Some k2, s'') -> k2 <> k).
Proof.
  intros Hr. pose proof (set_reachable_inv s Hr) as Hs. split; [done|]. intros p k s'.
  unfold set_insert_dynamic at 1. destruct (MAX_STATIC_CHANNELS <=? set_len s); [done|].
  destruct (Z.leb_spec (next_dynamic_key s + 1) U64_MAX); [|done]. intros [= <- <-]. split_and!.
  - destruct (channels s !! _) eqn:Hc; [|done]. destruct (inv_fresh s Hs (next_dynamic_key s)); [eauto|lia].
  - unfold get_by_key. cbn. by rewrite lookup_insert_eq.
  - intros q k2 s2 s'' Hst. unfold set_insert_dynamic. destruct (_ <=? _); [done|]. destruct (_ <=? _); [|done].
    intros [= <- _] [= Heq]. apply steps_next in Hst. cbn in Hst. lia.
Qed.

(** Attaching an id routes that id to the channel, takes it away from the
    channel that had it and drops the channel's former id; all other ids keep
    their channels. *)
Theorem attach_routes (s : StaticChannelSet) (k : StaticChannelKey) (c : Channel) (id : Z) :
  set_reachable s -> channels s !! k = Some c ->
  let s' := (attach_channel_id_by_key k id s).2 in
  get_by_channel_id id s' = Some c /\
  forall other, other <> id ->
    (to_channel_id s !! k = Some other -> get_by_channel_id other s' = None) /\
    (to_channel_id s !! k <> Some other -> get_by_channel_id other s' = get_by_channel_id other s).
Proof.
  intros Hr Hc s'. pose proof (set_reachable_inv s Hr) as Hs.
  destruct (attach_spec k id s Hs ltac:(eauto)) as [_ H2]. fold s' in H2.
  assert (Hch : channels s' = channels s) by (unfold s', attach_channel_id_by_key; by rewrite Hc).
  unfold get_by_channel_id, get_key_by_channel_id, get_by_key. rewrite Hch. split.
  - rewrite (proj2 (H2 k id)) by (by left). cbn. done.
  - intros other Hne. split; intros Hd.
    + destruct (to_channel_key s' !! other) as [key|] eqn:Hk; [|done].
      apply H2 in Hk as [[_ ?]|(Hk & _ & Hx)]; [done|]. apply (inv_inverse s Hs) in Hd. congruence.
    + destruct (to_channel_key s !! other) as [key|] eqn:Hk.
      * rewrite (proj2 (H2 key other)); [done|]. right. split_and!; [|done|done].
        intros ->. apply Hd. by apply (inv_inverse s Hs).
      * destruct (to_channel_key s' !! other) as [key|] eqn:Hk'; [|done].
        apply H2 in Hk' as [[_ ?]|(_ & _ & Hx)]; congruence.
Qed.

End set.
Arguments StaticChannelSet : clear implicits.

Definition demo_set : StaticChannelSet unit := (set_insert 7 tt set_new).2.

Lemma demo_reachable : set_reachable demo_set.
Proof. eapply ReachStep; [apply ReachNew|apply StepInsert]. Qed.

Lemma channel_set_invariant_witness :
  set_inv demo_set /\
  (forall p k s', set_insert_dynamic p demo_set = (Some k, s') -> channels demo_set !! k = None /\
    get_by_key k s' = Some (StaticVirtualChannel_new p) /\
    forall q k2 s2 s'', rtc set_step s' s2 -> set_insert_dynamic q s2 = (Some k2, s'') -> k2 <> k).
Proof. apply channel_set_invariant, demo_reachable. Defined.

Lemma attach_routes_witness :
  let s' := (attach_channel_id_by_key (Typed 7) 1004 demo_set).2 in
  get_by_channel_id 1004 s' = Some (StaticVirtualChannel_new tt) /\
  forall other, other <> 1004 ->
    (to_channel_id demo_set !! Typed 7 = Some other -> get_by_channel_id other s' = None) /\
    (to_channel_id demo_set !! Typed 7 <> Some other -> get_by_channel_id other s' = get_by_channel_id other demo_set).
Proof. apply attach_routes; [apply demo_reachable|reflexivity]. Defined.
