(* ===== verification/Framed.v ===== *)
(** Cutting the byte stream of the TCP connection into PDUs: [find_size] and
    the PDU hints of src/crates/ironrdp-pdu/src/lib.rs and the framed reader of
    src/crates/ironrdp-async/src/framed.rs.

    The socket is the list of the pieces it still delivers, each with the time
    it arrives, and then the end of the stream.  A future that is dropped
    between two reads leaves the state as it is at that point; a socket error
    is not modelled. *)

From S2P Require Import Prelude Cursor Codec Mutation WriteBuf Mcs McsCodec.

(** ** Finding the size of a PDU *)

Module Action.
Inductive t := FastPath | X224.
#[export] Instance t_eq_dec : EqDecision t.
Proof. solve_decision. Defined.
Definition from_fp_output_header (fp_output_header : Z) : Z + t :=
  let bits := Z.land fp_output_header 3 in
  if bits =? 0x00 then inr FastPath else if bits =? 0x03 then inr X224 else inl bits.
Definition as_u8 (a : t) : Z := match a with FastPath => 0x00 | X224 => 0x03 end.
End Action.
Export (hints) Action.

Record PduInfo := mkPduInfo { action : Action.t; info_length : Z }.

Definition find_size (bytes : list Z) : outcome DecodeErrorKind (option PduInfo) :=
  match bytes with
  | [] => Ok None
  | fp_output_header :: rest =>
      match Action.from_fp_output_header fp_output_header with
      | inl unknown_action => Err (DUnexpectedMessageType unknown_action (Some 0))
      | inr Action.X224 =>
          if llen bytes <? TpktHeader.SIZE then Ok None
          else
            '(tpkt, _) ← TpktHeader.read (ReadCursor.new bytes);
            Ok (Some (mkPduInfo Action.X224 (TpktHeader.packet_length tpkt)))
      | inr Action.FastPath =>
          match rest with
          | [] => Ok None
          | a :: rest' =>
              let finish fast_path_length header_length :=
                if fast_path_length <? header_length then
                  Err (DInvalidField "fastPathLength" "length is smaller than the Fast-Path header" (Some 1))
                else Ok (Some (mkPduInfo Action.FastPath fast_path_length)) in
              if negb (Z.land a 0x80 =? 0) then
                match rest' with
                | [] => Ok None
                | b :: _ => finish (Z.shiftl (Z.land a 0xFF7F) 8 mod 65536 + b) 3
                end
              else finish a 2
          end
      end
  end.

(** [&dyn PduHint] *)
Definition PduHint : Type := list Z -> outcome DecodeErrorKind (option (bool * Z)).

Definition RdpHint (bytes : list Z) : outcome DecodeErrorKind (option (bool * Z)) :=
  opt ← find_size bytes;
  Ok (option_map (fun info => (true, info_length info)) opt).
Definition X224Hint (bytes : list Z) : outcome DecodeErrorKind (option (bool * Z)) :=
  opt ← find_size bytes;
  Ok (option_map (fun info => (bool_decide (action info = Action.X224), info_length info)) opt).
Definition FastPathHint (bytes : list Z) : outcome DecodeErrorKind (option (bool * Z)) :=
  opt ← find_size bytes;
  Ok (option_map (fun info => (bool_decide (action info = Action.FastPath), info_length info)) opt).

(** ** The framed reader *)

Inductive IoError :=
| UnexpectedEof
| InvalidData (reason : string)
| IoOther (source : DecodeErrorKind).

Record Framed := mkFramed {
  pieces_left : list (Z * list Z);
  closed_at : Z;
  buf : list Z;
  last_read_at : option Z;
}.

(** [stream.read(&mut buf)]: the next piece, or 0 at the end of the stream *)
Definition framed_read : Mut Framed IoError Z := fun f =>
  match pieces_left f with
  | (at_, bytes) :: rest => Some (inr (llen bytes), mkFramed rest (closed_at f) (buf f ++ bytes) (Some at_))
  | [] => Some (inr 0, mkFramed [] (closed_at f) (buf f) (Some (closed_at f)))
  end.

(** [if len == 0 { return Err(UnexpectedEof) }] *)
Definition read_more : Mut Framed IoError unit :=
  len ← framed_read;
  if len =? 0 then throw UnexpectedEof else mret tt.

(** Every round of the loops takes a piece from the socket or bytes from the
    buffer; [loop_fuel] rounds are enough ([read_by_hint_total]). *)
Definition loop_fuel (f : Framed) : nat :=
  S (length (pieces_left f) + length (buf f) + length (concat (pieces_left f).*2)).

(** [self.buf.split_to(length)], with [self.buf.len() >= length] *)
Definition split_to (n : Z) : Mut Framed IoError (list Z) := fun f =>
  Some (inr (take (Z.to_nat n) (buf f)),
        mkFramed (pieces_left f) (closed_at f) (drop (Z.to_nat n) (buf f)) (last_read_at f)).

Fixpoint read_exact_loop (fuel : nat) (n : Z) : Mut Framed IoError (list Z) :=
  match fuel with
  | O => boom
  | S fuel' =>
      have ← access (fun f => llen (buf f));
      if n <=? have then split_to n
      else _ ← read_more; read_exact_loop fuel' n
  end.
Definition read_exact (n : Z) : Mut Framed IoError (list Z) := fun f => read_exact_loop (loop_fuel f) n f.

Fixpoint read_pdu_loop (fuel : nat) : Mut Framed IoError (Action.t * list Z) :=
  match fuel with
  | O => boom
  | S fuel' =>
      peek ← access buf;
      match find_size peek with
      | Ok (Some pdu_info) => frame ← read_exact (info_length pdu_info); mret (action pdu_info, frame)
      | Ok None => _ ← read_more; read_pdu_loop fuel'
      | Err e => throw (IoOther e)
      | Panic => boom
      end
  end.
Definition read_pdu : Mut Framed IoError (Action.t * list Z) := fun f => read_pdu_loop (loop_fuel f) f.

Fixpoint read_by_hint_loop (fuel : nat) (hint : PduHint) : Mut Framed IoError (list Z) :=
  match fuel with
  | O => boom
  | S fuel' =>
      peek ← access buf;
      match hint peek with
      | Err e => throw (IoOther e)
      | Panic => boom
      | Ok (Some (matched, length)) =>
          if (length =? 0) && negb matched then
            throw (InvalidData "PduHint reported a zero-length unmatched PDU; cannot make progress")
          else
            bytes ← read_exact length;
            if (matched : bool) then mret bytes else read_by_hint_loop fuel' hint
      | Ok None => _ ← read_more; read_by_hint_loop fuel' hint
      end
  end.
Definition read_by_hint (hint : PduHint) : Mut Framed IoError (list Z) := fun f =>
  read_by_hint_loop (loop_fuel f) hint f.

(** ** Bytes are neither lost nor reordered *)

(** What is buffered and what is still to come. *)
Definition pending (f : Framed) : list Z := buf f ++ concat (pieces_left f).*2.

Definition measure (f : Framed) : nat := length (pieces_left f) + length (pending f).

Lemma loop_fuel_measure f : loop_fuel f = S (measure f).
Proof. unfold loop_fuel, measure, pending. rewrite length_app. lia. Qed.

(** The socket delivers at least a byte with every piece. *)
Definition steady (f : Framed) : Prop := Forall (fun p => p.2 <> []) (pieces_left f).

(** A read moves a piece into the buffer, or finds the end of the stream. *)
Lemma read_more_spec f :
  wpm read_more (fun r f' =>
    pending f' = pending f /\
    match r with
    | inl e => e = UnexpectedEof /\ (steady f -> pieces_left f = [])
    | inr _ => (measure f' < measure f)%nat /\ (steady f -> steady f')
    end) f.
Proof.
  unfold wpm, read_more, framed_read, steady, mbind, Mut_bind. destruct f as [[|[p bs] ps] c b l]; cbn; [by split_and!|].
  destruct (Z.eqb_spec (llen bs) 0) as [He|He]; cbn; unfold pending, measure; cbn; rewrite <- app_assoc; (split; [done|]).
  - split; [done|]. intros [H _]%Forall_cons. by destruct bs.
  - unfold pending. cbn. rewrite !length_app. split; [lia|]. by intros [_ H]%Forall_cons.
Qed.

Definition exact_post (n : Z) (f : Framed) (r : IoError + list Z) (f' : Framed) : Prop :=
  match r with
  | inl e => e = UnexpectedEof /\ pending f' = pending f /\ (steady f -> llen (pending f) < n)
  | inr bs => llen bs = n /\ pending f = bs ++ pending f' /\ (measure f' + length bs <= measure f)%nat /\
      (steady f -> steady f')
  end.

Lemma read_exact_loop_spec fuel n f :
  0 <= n -> (measure f < fuel)%nat -> wpm (read_exact_loop fuel n) (exact_post n f) f.
Proof.
  intros Hn. revert f. induction fuel as [|fuel IH]; intros f Hf; [lia|]. cbn [read_exact_loop].
  apply wpm_access. destruct (Z.leb_spec n (llen (buf f))) as [Hle|Hgt].
  - unfold wpm, split_to, exact_post, pending, measure, pending, llen in *. cbn. rewrite app_assoc, take_drop.
    split; [rewrite length_take; lia|]. split; [done|]. rewrite !length_app, length_take, length_drop. by split; [lia|].
  - apply wpm_bind. eapply wpm_mono; [apply read_more_spec|]. intros [e|u] f' [Hp H].
    + destruct H as [He Hst]. split; [done|]. split; [done|]. intros Hs. unfold pending. rewrite (Hst Hs). cbn. by rewrite app_nil_r.
    + destruct H as [Hm Hst]. eapply wpm_mono; [apply IH; lia|]. intros [e|bs] f''; unfold exact_post; rewrite Hp.
      * intros (? & ? & ?). auto.
      * intros (? & ? & ? & ?). split_and!; [done|done|lia|auto].
Qed.

Lemma read_exact_spec n f : 0 <= n -> wpm (read_exact n) (exact_post n f) f.
Proof.
  intros Hn. unfold wpm, read_exact. apply read_exact_loop_spec; [done|]. rewrite loop_fuel_measure. lia.
Qed.

(** ** What a hint makes of a stream *)

(** The hint answers so on some part of the stream that has arrived. *)
Definition says (h : PduHint) (stream : list Z) (answer : outcome DecodeErrorKind (option (bool * Z))) : Prop :=
  exists seen, seen `prefix_of` stream /\ h seen = answer.

(** From one point of the stream to another over PDUs the hint does not match,
    each of the size the hint says. *)
Inductive skips (h : PduHint) : list Z -> list Z -> Prop :=
| skips_none stream : skips h stream stream
| skips_pdu other rest stream :
    other <> [] -> says h (other ++ rest) (Ok (Some (false, llen other))) -> skips h rest stream -> skips h (other ++ rest) stream.

(** The first PDU of the stream the hint matches, and what comes after it. *)
Definition first_match (h : PduHint) (stream frame rest : list Z) : Prop :=
  skips h stream (frame ++ rest) /\ says h (frame ++ rest) (Ok (Some (true, llen frame))).

(** What waiting for a PDU comes to. *)
Definition hint_post (h : PduHint) (f : Framed) (r : IoError + list Z) (f' : Framed) : Prop :=
  match r with
  | inr frame => first_match h (pending f) frame (pending f')
  | inl e =>
      skips h (pending f) (pending f') /\
      match e with
      | IoOther source => says h (pending f') (Err source)
      | InvalidData _ => says h (pending f') (Ok (Some (false, 0)))
      | UnexpectedEof => steady f ->
          h (pending f') = Ok None \/ exists m n, says h (pending f') (Ok (Some (m, n))) /\ llen (pending f') < n
      end
  end.

(** A hint that does not panic on bytes and reports sizes. *)
Definition hint_ok (h : PduHint) : Prop :=
  forall bs, bytes_ok bs -> h bs <> Panic /\ forall m n, h bs = Ok (Some (m, n)) -> 0 <= n.

Lemma says_seen h f answer : h (buf f) = answer -> says h (pending f) answer.
Proof. intros H. exists (buf f). split; [by apply prefix_app_r|done]. Qed.

(** Starting later, after a PDU that was passed over. *)
Lemma hint_post_skip h f f1 other r f' :
  pending f = other ++ pending f1 -> other <> [] -> says h (pending f) (Ok (Some (false, llen other))) ->
  (steady f -> steady f1) -> hint_post h f1 r f' -> hint_post h f r f'.
Proof.
  intros Hp Ho Hs Hst. assert (Hk : forall stream, skips h (pending f1) stream -> skips h (pending f) stream).
  { intros stream. rewrite Hp in *. by apply skips_pdu. }
  unfold hint_post, first_match. destruct r as [[]|frame]; intros [H1 H2]; split; auto.
Qed.

(** Starting earlier, before a piece arrived. *)
Lemma hint_post_read h f f1 r f' :
  pending f1 = pending f -> (steady f -> steady f1) -> hint_post h f1 r f' -> hint_post h f r f'.
Proof.
  intros Hp Hst. unfold hint_post. rewrite Hp. destruct r as [[]|frame]; [|done..]. intros [H1 H2]. split; auto.
Qed.

(** A PDU of the size the hint says, or too little of it. *)
Lemma read_said h f m n :
  h (buf f) = Ok (Some (m, n)) -> 0 <= n ->
  wpm (read_exact n) (fun r f' =>
    match r with
    | inl e => hint_post h f (inl e) f'
    | inr bs => llen bs = n /\ says h (pending f) (Ok (Some (m, llen bs))) /\ pending f = bs ++ pending f' /\
        (measure f' + length bs <= measure f)%nat /\ (steady f -> steady f')
    end) f.
Proof.
  intros He Hn. apply says_seen in He. eapply wpm_mono; [by apply read_exact_spec|]. intros [e|bs] f'; unfold exact_post.
  - intros (-> & Hp & Hl). split; [rewrite Hp; constructor|]. intros Hs. right. rewrite Hp. eauto.
  - intros (<- & Hrest). done.
Qed.

Lemma read_by_hint_loop_spec fuel h f :
  hint_ok h -> (measure f < fuel)%nat -> bytes_ok (pending f) ->
  wpm (read_by_hint_loop fuel h) (fun r f' => hint_post h f r f' /\
    match r with inr frame => (measure f' + length frame <= measure f)%nat | inl _ => True end) f.
Proof.
  intros Hh. revert f. induction fuel as [|fuel IH]; intros f Hf Hb; [lia|]. cbn [read_by_hint_loop].
  apply wpm_access. destruct (Hh (buf f)) as [Hp Hs]; [by apply Forall_app in Hb as [? _]|].
  destruct (h (buf f)) as [[[m n]|]|e|] eqn:He; [..|done].
  - destruct ((n =? 0) && negb m) eqn:Hz.
    { apply wpm_throw. apply andb_true_iff in Hz as [->%Z.eqb_eq Hm]. destruct m; [done|].
      split; [|done]. split; [constructor|by apply says_seen]. }
    apply wpm_bind. eapply wpm_mono; [apply (read_said h f m n He (Hs m n eq_refl))|]. intros [e|bs] f'; [done|]. intros (Hl & Hsay & Hpd & Hm & Hst).
    destruct m.
    + apply wpm_ret. split; [|done]. split; rewrite <- Hpd; [constructor|done].
    + assert (bs <> []) by (intros ->; subst n; done). assert (0 < length bs)%nat by (destruct bs; [done|cbn; lia]).
      eapply wpm_mono; [apply IH; [lia|by rewrite Hpd in Hb; apply Forall_app in Hb as [_ ?]]|].
      intros r f'' [Hpost Hms]. split; [by eapply hint_post_skip|]. destruct r; [done|lia].
  - apply wpm_bind. eapply wpm_mono; [apply read_more_spec|]. intros [e|u] f' [Hpd Hm].
    + destruct Hm as [-> Hst]. split; [|done]. split; [rewrite Hpd; constructor|]. intros Hs'. left.
      rewrite Hpd. unfold pending. rewrite (Hst Hs'). cbn. by rewrite app_nil_r.
    + destruct Hm as [Hm Hst]. eapply wpm_mono; [apply IH; [lia|by rewrite Hpd]|]. intros r f'' [Hpost Hms].
      split; [by eapply hint_post_read|]. destruct r; [done|lia].
  - apply wpm_throw. split; [|done]. split; [constructor|by apply says_seen].
Qed.

Lemma read_by_hint_spec h f :
  hint_ok h -> bytes_ok (pending f) ->
  wpm (read_by_hint h) (fun r f' => hint_post h f r f' /\
    match r with inr frame => (measure f' + length frame <= measure f)%nat | inl _ => True end) f.
Proof. intros Hh Hb. unfold wpm, read_by_hint. apply read_by_hint_loop_spec; [done| |done]. rewrite loop_fuel_measure. lia. Qed.

(** C37: waiting for a PDU ends, with what the hint says of the stream: whatever
    bytes the socket delivers, in whatever pieces, and whatever sizes a hint
    that does not panic reports, [read_by_hint] returns after finitely many
    reads.  A frame it returns is the first PDU the hint matches, exactly as
    long as the hint says, after PDUs the hint does not match, each exactly as
    long as the hint says; everything after the frame is left.  An error leaves
    everything from the PDU on at which it arose: it is the hint's own error, or
    an unmatched PDU of no bytes, or, if the socket delivers something with
    every piece, the stream ended before the PDU did. *)
Theorem read_by_hint_total (h : PduHint) (f : Framed) :
  hint_ok h -> bytes_ok (pending f) ->
  exists r f', read_by_hint h f = Some (r, f') /\
    match r with
    | inr frame => skips h (pending f) (frame ++ pending f') /\ says h (frame ++ pending f') (Ok (Some (true, llen frame)))
    | inl e =>
        skips h (pending f) (pending f') /\
        match e with
        | IoOther source => says h (pending f') (Err source)
        | InvalidData _ => says h (pending f') (Ok (Some (false, 0)))
        | UnexpectedEof => steady f ->
            h (pending f') = Ok None \/ exists m n, says h (pending f') (Ok (Some (m, n))) /\ llen (pending f') < n
        end
    end.
Proof.
  intros Hh Hb. destruct (wpm_run _ _ _ (read_by_hint_spec h f Hh Hb)) as (r & f' & Hrun & Hpost & _). by exists r, f'.
Qed.

(** ** [find_size] *)

(** The size of a packet is known as soon as its TPKT header is there. *)
Lemma find_size_tpkt n b tail xs :
  7 <= n <= 65535 -> b ++ tail = tpkt_wire n ++ xs ->
  find_size b = if llen b <? 4 then Ok None else Ok (Some (mkPduInfo Action.X224 n)).
Proof.
  intros Hn Heq. destruct (Z.ltb_spec (llen b) 4) as [Hl|Hl].
  - destruct b as [|x b]; [done|]. injection Heq as -> _. cbn [find_size].
    change (Action.from_fp_output_header 3) with (inr Action.X224 : Z + Action.t). cbv iota.
    rewrite (proj2 (Z.ltb_lt _ _)) by done. done.
  - assert (exists b', b = tpkt_wire n ++ b') as [b' ->].
    { exists (drop 4 b). assert (take 4 (b ++ tail) = take 4 (tpkt_wire n ++ xs)) as H by by f_equal.
      rewrite take_app_le in H by (unfold llen in Hl; lia). change (take 4 (tpkt_wire n ++ xs)) with (tpkt_wire n) in H.
      rewrite <- H. by rewrite take_drop. }
    pose proof (decodes_tpkt n Hn [] b') as Hd. cbn [app length] in Hd.
    change (find_size (tpkt_wire n ++ b')) with (if llen (tpkt_wire n ++ b') <? TpktHeader.SIZE then Ok None else
      '(tpkt, _) ← TpktHeader.read (ReadCursor.new (tpkt_wire n ++ b'));
      Ok (Some (mkPduInfo Action.X224 (TpktHeader.packet_length tpkt)))).
    rewrite (proj2 (Z.ltb_ge _ _)) by done. unfold ReadCursor.new. by rewrite Hd.
Qed.

(** A packet of the stream: its TPKT header announces its length. *)
Definition packet (bs : list Z) : Prop := exists xs, bs = tpkt_wire (llen bs) ++ xs /\ 7 <= llen bs <= 65535.

Lemma read_pdu_loop_spec fuel f p rest :
  (measure f < fuel)%nat -> steady f -> packet p -> pending f = p ++ rest ->
  wpm (read_pdu_loop fuel) (fun r f' => r = inr (Action.X224, p) /\ pending f' = rest /\ steady f') f.
Proof.
  intros Hf Hs (xs & Hp & Hl). revert f Hf Hs. induction fuel as [|fuel IH]; intros f Hf Hs Hpd; [lia|].
  cbn [read_pdu_loop]. apply wpm_access.
  rewrite (find_size_tpkt (llen p) (buf f) (concat (pieces_left f).*2) (xs ++ rest) Hl)
    by (change (buf f ++ _) with (pending f); rewrite Hpd, app_assoc; by rewrite <- Hp).
  destruct (Z.ltb_spec (llen (buf f)) 4) as [H4|H4].
  - apply wpm_bind. eapply wpm_mono; [apply read_more_spec|]. intros [e|u] f' [Hpd' H].
    + destruct H as [_ H]. exfalso. unfold pending in Hpd. rewrite (H Hs) in Hpd. cbn in Hpd. rewrite app_nil_r in Hpd.
      assert (Hx : llen (buf f) = llen (p ++ rest)) by by rewrite Hpd. rewrite llen_app in Hx.
      pose proof (llen_nonneg rest). lia.
    + destruct H as [Hm Hst]. apply IH; [lia|auto|congruence].
  - apply wpm_bind. eapply wpm_mono; [apply read_exact_spec; cbn; lia|]. cbn [info_length action].
    intros [e|bs] f'; unfold exact_post.
    + intros (_ & _ & H). specialize (H Hs). rewrite Hpd, llen_app in H. pose proof (llen_nonneg rest). lia.
    + intros (Hlen & Hpend & _ & Hst). apply wpm_ret. rewrite Hpd in Hpend.
      apply app_inj_1 in Hpend as [-> ->]; [by split_and!; [|done|apply Hst]|unfold llen in Hlen; lia].
Qed.

(** [n] PDUs, one after the other. *)
Fixpoint read_pdus (n : nat) : Mut Framed IoError (list (Action.t * list Z)) :=
  match n with
  | O => mret []
  | S n' => x ← read_pdu; xs ← read_pdus n'; mret (x :: xs)
  end.

Lemma read_pdus_spec ps f :
  steady f -> Forall packet ps -> pending f = concat ps ->
  wpm (read_pdus (length ps)) (fun r f' =>
    r = inr (map (fun p => (Action.X224, p)) ps) /\ pending f' = [] /\ steady f') f.
Proof.
  intros Hs Hp. revert f Hs. induction Hp as [|p ps Hp _ IH]; intros f Hs Hpd; [by apply wpm_ret|].
  cbn [length read_pdus]. apply wpm_bind. eapply wpm_mono.
  { unfold wpm, read_pdu. apply (read_pdu_loop_spec _ f p (concat ps)); [rewrite loop_fuel_measure; lia|done..]. }
  intros r f' (-> & Hpd' & Hs'). apply wpm_bind. eapply wpm_mono; [by apply IH|].
  intros r2 f2 (-> & ? & ?). by apply wpm_ret.
Qed.


Lemma find_size_ok bs : bytes_ok bs ->
  find_size bs <> Panic /\ forall i, find_size bs = Ok (Some i) -> 2 <= info_length i <= 65535.
Proof.
  intros Hb. destruct bs as [|h rest]; [done|]. cbn [find_size].
  destruct (Action.from_fp_output_header h) as [|[]]; [done|..].
  - destruct rest as [|a rest]; [done|]. inversion Hb as [|? ? _ Hb']; subst. inversion Hb' as [|? ? Ha Hb'']; subst.
    assert (H7 := forall_range (fun x => (0 <=? Z.land x 0xFF7F) && (Z.land x 0xFF7F <? 128)) 256 eq_refl a Ha).
    cbv beta in H7. apply andb_prop in H7 as [H7%Z.leb_le H8%Z.ltb_lt].
    assert (Hfin : forall l n, 0 <= l <= 65535 -> 2 <= n -> let r := (if l <? n then
        Err (DInvalidField "fastPathLength" "length is smaller than the Fast-Path header" (Some 1))
      else Ok (Some (mkPduInfo Action.FastPath l))) in
      r <> Panic /\ forall i, r = Ok (Some i) -> 2 <= info_length i <= 65535).
    { intros l n Hl Hn. cbv zeta. destruct (Z.ltb_spec l n); [done|]. split; [done|]. intros i [= <-]. cbn. lia. }
    destruct (negb _); [|apply Hfin; width].
    destruct rest as [|b rest]; [done|]. inversion Hb''; subst. apply Hfin; [|lia].
    rewrite Z.shiftl_mul_pow2 by lia. unfold is_u8 in *. zdm.
  - destruct (_ <? _); [done|]. pose proof (safe_tpkt (ReadCursor.new (h :: rest))) as Hs.
    destruct (TpktHeader.read _) as [[t c]| |]; cbn.
    + split; [done|]. intros i [= <-]. cbn. destruct Hs as (_ & _ & ? & _); [split; cbn; [lia|done]|unfold ReadCursor.len, llen; cbn; lia|lia].
    + done.
    + exfalso. apply Hs; [split; cbn; [lia|done]|unfold ReadCursor.len, llen; cbn; lia].
Qed.

(** A Fast-Path PDU of two bytes is passed over, and the packet after it
    returned; its last byte and what follows arrive later. *)
Lemma read_by_hint_total_witness :
  let f := mkFramed [(5, [0; 2; 3; 0; 0]); (6, [7; 2; 0xF0]); (7, [0x80; 9])] 8 [] None in
  read_by_hint X224Hint f = Some (inr [3; 0; 0; 7; 2; 0xF0; 0x80], mkFramed [] 8 [9] (Some 7)) /\
  skips X224Hint (pending f) ([3; 0; 0; 7; 2; 0xF0; 0x80] ++ [9]) /\
  says X224Hint ([3; 0; 0; 7; 2; 0xF0; 0x80] ++ [9]) (Ok (Some (true, 7))).
Proof.
  intros f. destruct (read_by_hint_total X224Hint f) as (r & f' & Hrun & H).
  - intros bs Hbs. unfold X224Hint. destruct (find_size_ok bs Hbs) as [Hp Hl]. destruct (find_size bs) as [[i|]|e|]; [|done..].
    split; [done|]. intros m n [= _ <-]. specialize (Hl i eq_refl). lia.
  - unfold f, pending. cbn. repeat (apply Forall_cons; split); [done..|constructor].
  - assert (Hr : read_by_hint X224Hint f = Some (inr [3; 0; 0; 7; 2; 0xF0; 0x80], mkFramed [] 8 [9] (Some 7))) by (vm_compute; reflexivity).
    rewrite Hr in Hrun. injection Hrun as <- <-. split; [exact Hr|exact H].
Defined.
