(* ===== verification/Nego.v ===== *)
(** The connection initiation: the X.224 Connection Request and Confirm with
    the RDP negotiation data in their variable part
    (src/crates/ironrdp-pdu/src/nego.rs).

    A bit set is its [bits()]; every bit of a request or response is kept
    ([from_bits_retain]).  A [String] is the list of its characters. *)

From S2P Require Import Prelude Cursor Codec Flags WriteBuf Mcs McsCodec PduText.

Definition MAX_ROUTING_TOKEN_LENGTH : Z := 238.

Module SecurityProtocol.
Definition SSL : Z := 0x00000001.
Definition HYBRID : Z := 0x00000002.
Definition RDSTLS : Z := 0x00000004.
Definition HYBRID_EX : Z := 0x00000008.
Definition RDSAAD : Z := 0x00000010.
Definition is_empty (p : Z) : bool := p =? 0.
Definition is_standard_rdp_security (p : Z) : bool := is_empty p.
End SecurityProtocol.

Module RequestFlags.
Definition RESTRICTED_ADMIN_MODE_REQUIRED : Z := 0x01.
Definition REDIRECTED_AUTHENTICATION_MODE_REQUIRED : Z := 0x02.
Definition CORRELATION_INFO_PRESENT : Z := 0x08.
End RequestFlags.

Module ResponseFlags.
Definition EXTENDED_CLIENT_DATA_SUPPORTED : Z := 0x01.
Definition DYNVC_GFX_PROTOCOL_SUPPORTED : Z := 0x02.
Definition RDP_NEG_RSP_RESERVED : Z := 0x04.
Definition RESTRICTED_ADMIN_MODE_SUPPORTED : Z := 0x08.
Definition REDIRECTED_AUTHENTICATION_MODE_SUPPORTED : Z := 0x10.
End ResponseFlags.

(** [FailureCode(u32)] *)
Module FailureCode.
Definition SSL_REQUIRED_BY_SERVER : Z := 1.
Definition SSL_NOT_ALLOWED_BY_SERVER : Z := 2.
Definition SSL_CERT_NOT_ON_SERVER : Z := 3.
Definition INCONSISTENT_FLAGS : Z := 4.
Definition HYBRID_REQUIRED_BY_SERVER : Z := 5.
Definition SSL_WITH_USER_AUTH_REQUIRED_BY_SERVER : Z := 6.
End FailureCode.

Module NegoMsgType.
Definition REQUEST : Z := 0x01.
Definition RESPONSE : Z := 0x02.
Definition FAILURE : Z := 0x03.
End NegoMsgType.

(** ** Cookies and routing tokens *)

(** A string literal of the source, as its bytes (ASCII). *)
Definition ascii_bytes (s : string) : list Z := (fun a => Z.of_N (Ascii.N_of_ascii a)) <$> String.list_ascii_of_string s.

(** [b"\r\n"], which [0x0A0D] is in little-endian order *)
Definition CRLF : list Z := [13; 10].

(** [while src.peek_u16() != 0x0A0D { src.advance(1); ensure_size!(in: src, size: 2); }]:
    every round moves the cursor, so as many rounds as there are bytes are
    enough ([scan_crlf_safe]). *)
Fixpoint scan_crlf (fuel : nat) : Decoder unit :=
  w ← ReadCursor.peek_u16;
  if w =? 0x0A0D then mret tt
  else
    match fuel with
    | O => crash
    | S fuel' => _ ← ReadCursor.advance 1; _ ← ReadCursor.ensure_size 2; scan_crlf fuel'
    end.

Definition read_nego_data (prefix : list Z) : Decoder (option (list Z)) :=
  len ← gets ReadCursor.len;
  if len <? llen prefix + 2 then mret None
  else
    head ← ReadCursor.peek_slice (length prefix);
    if bool_decide (head <> prefix) then mret None
    else
      _ ← ReadCursor.advance (length prefix);
      identifier_start ← gets ReadCursor.pos;
      fuel ← gets (fun c => Z.to_nat (ReadCursor.len c));
      _ ← scan_crlf fuel;
      identifier_end ← gets ReadCursor.pos;
      _ ← ReadCursor.advance 2;
      inner ← gets ReadCursor.inner;
      match from_utf8 (take (identifier_end - identifier_start) (drop identifier_start inner)) with
      | Some data => mret (Some data)
      | None => fail (DInvalidField "identifier" "not valid UTF-8" (Some (Z.of_nat identifier_start)))
      end.

Definition write_nego_data (prefix value : list Z) : Encoder unit :=
  _ ← WriteCursor.ensure_size (llen prefix + llen (as_bytes value) + 2);
  _ ← WriteCursor.write_slice prefix;
  _ ← WriteCursor.write_slice (as_bytes value);
  WriteCursor.write_u16 0x0A0D.

Definition COOKIE_PREFIX : list Z := ascii_bytes "Cookie: mstshash=".
Definition ROUTING_TOKEN_PREFIX : list Z := ascii_bytes "Cookie: msts=".

Inductive NegoRequestData :=
| RoutingToken (value : list Z)
| Cookie (value : list Z).
#[export] Instance NegoRequestData_eq_dec : EqDecision NegoRequestData.
Proof. solve_decision. Defined.

Definition Cookie_read : Decoder (option (list Z)) := read_nego_data COOKIE_PREFIX.
Definition Cookie_write (value : list Z) : Encoder unit := write_nego_data COOKIE_PREFIX value.
Definition Cookie_size (value : list Z) : Z := llen COOKIE_PREFIX + llen (as_bytes value) + 2.
Definition RoutingToken_read : Decoder (option (list Z)) := read_nego_data ROUTING_TOKEN_PREFIX.
Definition RoutingToken_write (value : list Z) : Encoder unit := write_nego_data ROUTING_TOKEN_PREFIX value.
Definition RoutingToken_size (value : list Z) : Z := llen ROUTING_TOKEN_PREFIX + llen (as_bytes value) + 2.

Definition NegoRequestData_read : Decoder (option NegoRequestData) :=
  token ← RoutingToken_read;
  match token with
  | Some token => mret (Some (RoutingToken token))
  | None => cookie ← Cookie_read; mret (option_map Cookie cookie)
  end.
Definition NegoRequestData_write (d : NegoRequestData) : Encoder unit :=
  match d with
  | RoutingToken token => RoutingToken_write token
  | Cookie cookie => Cookie_write cookie
  end.
Definition NegoRequestData_size (d : NegoRequestData) : Z :=
  match d with
  | RoutingToken token => RoutingToken_size token
  | Cookie cookie => Cookie_size cookie
  end.

(** [slice.windows(2).position(|bytes| bytes == b"\r\n")] *)
Fixpoint find_crlf (bs : list Z) : option nat :=
  match bs with
  | b0 :: ((b1 :: _) as rest) => if (b0 =? 13) && (b1 =? 10) then Some O else S <$> find_crlf rest
  | _ => None
  end.

Definition printable (b : Z) : bool := (0x20 <=? b) && (b <=? 0x7E).

Record OpaqueRoutingToken := mkOpaqueRoutingToken { opaque_token : list Z }.

(** [src.inner()[start..]] panics when the cursor is past the end. *)
Definition OpaqueRoutingToken_read : Decoder (option OpaqueRoutingToken) :=
  start ← gets ReadCursor.pos;
  inner ← gets ReadCursor.inner;
  if (length inner <? start)%nat then crash
  else
    match find_crlf (drop start inner) with
    | None => mret None
    | Some length =>
        let bytes := take length (drop start inner) in
        if bool_decide (bytes = []) || negb (forallb printable bytes) then mret None
        else
          match from_utf8 bytes with
          | None => fail (DInvalidField "value" "not valid UTF-8" None)
          | Some value =>
              _ ← ReadCursor.advance (length + 2);
              mret (Some (mkOpaqueRoutingToken value))
          end
    end.

Definition OpaqueRoutingToken_write (t : OpaqueRoutingToken) : Encoder unit :=
  let bytes := as_bytes (opaque_token t) in
  if bool_decide (bytes = []) || (MAX_ROUTING_TOKEN_LENGTH <? llen bytes) || negb (forallb printable bytes) then
    fail (EInvalidField "value" "must contain 1 to 238 printable ASCII bytes" None)
  else write_nego_data [] (opaque_token t).
Definition OpaqueRoutingToken_size (t : OpaqueRoutingToken) : Z := llen (as_bytes (opaque_token t)) + 2.

(** ** Correlation information *)

(** [\[u8; 16\]] *)
Record CorrelationInfo := mkCorrelationInfo { correlation_id : list Z }.
#[export] Instance CorrelationInfo_eq_dec : EqDecision CorrelationInfo.
Proof. solve_decision. Defined.

Definition CORRELATION_TYPE : Z := 0x06.
Definition CORRELATION_FLAGS : Z := 0.
Definition CORRELATION_SIZE : Z := 36.
Definition RESERVED_SIZE : nat := 16.

Definition CorrelationInfo_write (i : CorrelationInfo) : Encoder unit :=
  _ ← WriteCursor.ensure_size CORRELATION_SIZE;
  _ ← WriteCursor.write_u8 CORRELATION_TYPE;
  _ ← WriteCursor.write_u8 CORRELATION_FLAGS;
  _ ← WriteCursor.write_u16 CORRELATION_SIZE;
  _ ← WriteCursor.write_slice (correlation_id i);
  WriteCursor.write_slice (replicate RESERVED_SIZE 0).

Definition CorrelationInfo_read : Decoder CorrelationInfo :=
  _ ← ReadCursor.ensure_size CORRELATION_SIZE;
  message_type ← ReadCursor.read_u8;
  flags ← ReadCursor.read_u8;
  length ← ReadCursor.read_u16;
  if negb (message_type =? CORRELATION_TYPE) || negb (flags =? CORRELATION_FLAGS)
     || negb (length =? CORRELATION_SIZE) then
    fail_at (DInvalidField "header" "contains invalid type, flags, or length")
  else
    correlation_id ← ReadCursor.read_slice 16;
    reserved ← ReadCursor.read_slice RESERVED_SIZE;
    if existsb (fun byte => negb (byte =? 0)) reserved then
      fail_at (DInvalidField "reserved" "must be zero")
    else mret (mkCorrelationInfo correlation_id).

(** ** The Connection Request *)

Record ConnectionRequest := mkConnectionRequest {
  nego_data : option NegoRequestData;
  cr_flags : Z;
  cr_protocol : Z;
  correlation_info : option CorrelationInfo;
}.
#[export] Instance ConnectionRequest_eq_dec : EqDecision ConnectionRequest.
Proof. solve_decision. Defined.

Record ConnectionRequestWithOpaqueRoutingToken := mkOpaqueRequest {
  request : ConnectionRequest;
  routing_token : OpaqueRoutingToken;
}.

Inductive ConnectionConfirm :=
| Response (flags protocol : Z)
| Failure (code : Z)
| NoNegotiation.
#[export] Instance ConnectionConfirm_eq_dec : EqDecision ConnectionConfirm.
Proof. solve_decision. Defined.

Definition RDP_NEG_REQ_SIZE : Z := 8.
Definition RDP_NEG_RSP : Z := 8.
Definition RDP_NEG_FAILURE : Z := 8.

Section requests.
Context {BF : Bitflags}.

Definition encode_after_nego_data (r : ConnectionRequest) : Encoder unit :=
  _ ← WriteCursor.write_u8 NegoMsgType.REQUEST;
  let flags := set_flag (cr_flags r) RequestFlags.CORRELATION_INFO_PRESENT (is_some (correlation_info r)) in
  _ ← WriteCursor.write_u8 flags;
  _ ← WriteCursor.write_u16 RDP_NEG_REQ_SIZE;
  _ ← WriteCursor.write_u32 (cr_protocol r);
  opt_m CorrelationInfo_write (correlation_info r).

Definition decode_after_nego_data (variable_part_rest_size : Z) (nego_data : option NegoRequestData) :
    Decoder ConnectionRequest :=
  if (0 <? variable_part_rest_size) && (variable_part_rest_size <? RDP_NEG_REQ_SIZE) then
    fail (DInvalidField "TPDU header variable part" "has a truncated negotiation request" None)
  else if RDP_NEG_REQ_SIZE <=? variable_part_rest_size then
    msg_type ← ReadCursor.read_u8;
    if negb (msg_type =? NegoMsgType.REQUEST) then fail_at (DUnexpectedMessageType msg_type)
    else
      flags ← ReadCursor.read_u8;
      length ← ReadCursor.read_u16;
      if negb (length =? RDP_NEG_REQ_SIZE) then fail_at (DInvalidField "length" "must be eight bytes")
      else
        protocol ← ReadCursor.read_u32;
        correlation_info ←
          (if contains flags RequestFlags.CORRELATION_INFO_PRESENT then
             if negb (variable_part_rest_size =? RDP_NEG_REQ_SIZE + CORRELATION_SIZE) then
               fail (DInvalidField "TPDU header variable part" "has invalid correlation information length" None)
             else i ← CorrelationInfo_read; mret (Some i)
           else
             if negb (variable_part_rest_size =? RDP_NEG_REQ_SIZE) then
               fail (DInvalidField "TPDU header variable part" "has unexpected trailing data" None)
             else mret None);
        mret (mkConnectionRequest nego_data flags protocol correlation_info)
  else mret (mkConnectionRequest nego_data 0 0 None).

Definition negotiation_data_size (r : ConnectionRequest) : Z :=
  RDP_NEG_REQ_SIZE + (if is_some (correlation_info r) then CORRELATION_SIZE else 0).

Definition ConnectionRequest_body_encode (r : ConnectionRequest) : Encoder unit :=
  _ ← opt_m NegoRequestData_write (nego_data r);
  encode_after_nego_data r.

Definition ConnectionRequest_body_decode (_ : TpktHeader.t) (tpdu : TpduHeader.t) : Decoder ConnectionRequest :=
  let variable_part_size := TpduHeader.variable_part_size tpdu in
  _ ← ReadCursor.ensure_size variable_part_size;
  nego_data ← NegoRequestData_read;
  let size := from_option NegoRequestData_size 0 nego_data in
  if variable_part_size <? size then
    fail (DInvalidField "TPDU header variable part" "advertised size too small" None)
  else decode_after_nego_data (variable_part_size - size) nego_data.

#[export] Instance ConnectionRequest_X224Pdu : X224Pdu ConnectionRequest := {|
  TPDU_CODE := TpduCode.CONNECTION_REQUEST;
  x224_body_encode := ConnectionRequest_body_encode;
  x224_body_decode := ConnectionRequest_body_decode;
  tpdu_header_variable_part_size r :=
    from_option NegoRequestData_size 0 (nego_data r) + negotiation_data_size r;
  tpdu_user_data_size _ := 0;
|}.

Definition OpaqueRequest_body_encode (r : ConnectionRequestWithOpaqueRoutingToken) : Encoder unit :=
  _ ← OpaqueRoutingToken_write (routing_token r);
  encode_after_nego_data (request r).

Definition OpaqueRequest_body_decode (_ : TpktHeader.t) (tpdu : TpduHeader.t) :
    Decoder ConnectionRequestWithOpaqueRoutingToken :=
  let variable_part_size := TpduHeader.variable_part_size tpdu in
  _ ← ReadCursor.ensure_size variable_part_size;
  token ← OpaqueRoutingToken_read;
  match token with
  | None => fail_at (DInvalidField "routingToken" "missing opaque routing token")
  | Some routing_token =>
      if variable_part_size <? OpaqueRoutingToken_size routing_token then
        fail_at (DInvalidField "TPDU header variable part" "advertised size too small")
      else
        request ← decode_after_nego_data (variable_part_size - OpaqueRoutingToken_size routing_token) None;
        mret (mkOpaqueRequest request routing_token)
  end.

#[export] Instance OpaqueRequest_X224Pdu : X224Pdu ConnectionRequestWithOpaqueRoutingToken := {|
  TPDU_CODE := TpduCode.CONNECTION_REQUEST;
  x224_body_encode := OpaqueRequest_body_encode;
  x224_body_decode := OpaqueRequest_body_decode;
  tpdu_header_variable_part_size r :=
    OpaqueRoutingToken_size (routing_token r) + negotiation_data_size (request r);
  tpdu_user_data_size _ := 0;
|}.

End requests.

(** ** The Connection Confirm *)

Definition ConnectionConfirm_body_encode (c : ConnectionConfirm) : Encoder unit :=
  match c with
  | Response flags protocol =>
      _ ← WriteCursor.write_u8 NegoMsgType.RESPONSE;
      _ ← WriteCursor.write_u8 flags;
      _ ← WriteCursor.write_u16 RDP_NEG_RSP;
      WriteCursor.write_u32 protocol
  | Failure code =>
      _ ← WriteCursor.write_u8 NegoMsgType.FAILURE;
      _ ← WriteCursor.write_u8 0;
      _ ← WriteCursor.write_u16 RDP_NEG_RSP;
      WriteCursor.write_u32 code
  | NoNegotiation => mret tt
  end.

Definition ConnectionConfirm_body_decode (_ : TpktHeader.t) (tpdu : TpduHeader.t) : Decoder ConnectionConfirm :=
  let variable_part_size := TpduHeader.variable_part_size tpdu in
  _ ← ReadCursor.ensure_size variable_part_size;
  if 0 <? variable_part_size then
    _ ← ReadCursor.ensure_size 8;
    msg_type ← ReadCursor.read_u8;
    if msg_type =? NegoMsgType.RESPONSE then
      flags ← ReadCursor.read_u8;
      _ ← ReadCursor.read_u16;
      protocol ← ReadCursor.read_u32;
      mret (Response flags protocol)
    else if msg_type =? NegoMsgType.FAILURE then
      _ ← ReadCursor.read_u8;
      _ ← ReadCursor.read_u16;
      code ← ReadCursor.read_u32;
      mret (Failure code)
    else fail_at (DUnexpectedMessageType msg_type)
  else mret (Response 0 0).

Definition ConnectionConfirm_variable_part_size (c : ConnectionConfirm) : Z :=
  match c with
  | Response _ _ => RDP_NEG_RSP
  | Failure _ => RDP_NEG_FAILURE
  | NoNegotiation => 0
  end.

#[export] Instance ConnectionConfirm_X224Pdu : X224Pdu ConnectionConfirm := {|
  TPDU_CODE := TpduCode.CONNECTION_CONFIRM;
  x224_body_encode := ConnectionConfirm_body_encode;
  x224_body_decode := ConnectionConfirm_body_decode;
  tpdu_header_variable_part_size := ConnectionConfirm_variable_part_size;
  tpdu_user_data_size _ := 0;
|}.
