(* ===== verification/NegoCodec.v ===== *)
(** What the negotiation encoders write and the decoders read: a request or a
    confirm whose fields fit reads back from exactly the bytes it was written
    as, and no input makes the decoders panic. *)

From S2P Require Import Prelude Cursor Codec Flags WriteBuf Mcs McsCodec PduText Nego.

(** ** X.224 packets whose payload is the variable part of the header *)

Class X224Variable (T : Type) {X : X224Pdu T} := {
  xv_code : TPDU_CODE (T := T) <> TpduCode.DATA /\ is_u8 (TPDU_CODE (T := T));
  xv_wf : T -> Prop;
  xv_wire : T -> list Z;
  xv_decoded : T -> Prop;
  xv_user (a : T) : tpdu_user_data_size a = 0;
  xv_size (a : T) : xv_wf a -> tpdu_header_variable_part_size a = llen (xv_wire a);
  xv_short (a : T) : xv_wf a -> llen (xv_wire a) <= 248;
  xv_encodes (a : T) : xv_wf a -> encodes (x224_body_encode a) (xv_wire a);
  xv_decodes (a : T) tpkt tpdu :
    xv_wf a -> TpduHeader.variable_part_size tpdu = llen (xv_wire a) ->
    decodes (x224_body_decode tpkt tpdu) (xv_wire a) a;
  xv_safe tpkt tpdu :
    0 <= TpduHeader.variable_part_size tpdu <= 248 ->
    safe 0 (x224_body_decode (T := T) tpkt tpdu) 0 xv_decoded;
}.

Definition tpdu_wire (li code : Z) : list Z := [li; code; 0; 0; 0; 0; 0].

Lemma encodes_tpdu li code :
  is_u8 li -> is_u8 code -> code <> TpduCode.DATA ->
  encodes (TpduHeader.write (TpduHeader.mk li code)) (tpdu_wire li code).
Proof.
  intros Hl Hc Hd. unfold TpduHeader.write, tpdu_wire. apply encodes_ensure; [done|].
  cbn [TpduHeader.li TpduHeader.code].
  apply (encodes_bind _ _ [li]); [by apply encodes_u8|].
  apply (encodes_bind _ _ [code]); [by apply encodes_u8|]. rewrite (proj2 (Z.eqb_neq _ _)) by done.
  apply encodes_ensure; [done|].
  apply (encodes_bind _ _ [0; 0]); [apply (encodes_u16 0)|].
  apply (encodes_bind _ _ [0; 0]); [apply (encodes_u16 0)|]. by apply encodes_u8.
Qed.

Lemma decodes_tpdu n li code :
  0 <= li < 255 -> li + 5 <= n -> is_u8 code -> code <> TpduCode.DATA ->
  decodes (TpduHeader.read (TpktHeader.mk n)) (tpdu_wire li code) (TpduHeader.mk li code).
Proof.
  intros Hl Hn Hc Hd. unfold TpduHeader.read, tpdu_wire. apply decodes_ensure; [done|]. apply decodes_gets.
  intros p. apply (decodes_bind _ _ [li] _ li); [apply decodes_u8; width|].
  apply (decodes_bind _ _ [code] _ code); [by apply decodes_u8|]. cbn [TpktHeader.packet_length].
  unfold TpktHeader.SIZE. rewrite (proj2 (Z.ltb_ge _ _)), (proj2 (Z.eqb_neq li _)), (proj2 (Z.eqb_neq code _)) by lia.
  apply decodes_ensure; [done|]. eapply decodes_last; [apply (decodes_read_padding [0; 0; 0; 0; 0])|]. apply decodes_ret.
Qed.

(** A header that is read back has fewer than 255 bytes after its length. *)
Lemma safe_tpdu_short tpkt :
  safe 0 (TpduHeader.read tpkt) 0 (fun h => 0 <= TpduHeader.li h < 255).
Proof.
  unfold TpduHeader.read. eapply safe_bind; [apply safe_ensure|]. intros _ _.
  change (Z.max 0 TpduCode.DATA_FIXED_PART_SIZE) with (2 + 1). apply safe_gets.
  intros p. eapply safe_bind; [apply (safe_u8 2); lia|]. intros li Hli.
  eapply safe_bind; [apply (safe_u8 1); lia|]. intros code _. cbv beta.
  destruct (TpktHeader.packet_length tpkt <? _); [done|]. destruct (Z.eqb_spec li 0xFF); [done|].
  assert (Hw : 0 <= TpduHeader.li (TpduHeader.mk li code) < 255) by (cbn; width).
  destruct (code =? TpduCode.DATA).
  - change 1 with (0 + Z.of_nat 1). eapply safe_bind; [apply safe_padding; lia|]. intros _ _. by apply safe_ret.
  - eapply safe_bind; [apply safe_ensure|]. intros _ _. change (Z.max 1 5) with (0 + Z.of_nat 5).
    eapply safe_bind; [apply safe_padding; lia|]. intros _ _. by apply safe_ret.
Qed.

Section x224_variable.
Context {T : Type} {X : X224Pdu T} {C : X224Variable T}.

Definition X224V_wire (p : X224 T) : list Z :=
  tpkt_wire (11 + llen (xv_wire (x224 p))) ++ tpdu_wire (6 + llen (xv_wire (x224 p))) (TPDU_CODE (T := T))
  ++ xv_wire (x224 p).

Lemma llen_X224V_wire p : llen (X224V_wire p) = 11 + llen (xv_wire (x224 p)).
Proof. unfold X224V_wire, tpkt_wire, tpdu_wire. rewrite !llen_app. unfold llen. cbn. lia. Qed.

Lemma variable_header_size : TpduCode.header_fixed_part_size (TPDU_CODE (T := T)) = 7.
Proof. unfold TpduCode.header_fixed_part_size. by rewrite (proj2 (Z.eqb_neq _ _)) by apply xv_code. Qed.

Lemma X224V_size p : xv_wf (x224 p) -> X224_size p = llen (X224V_wire p).
Proof.
  intros H. unfold X224_size. rewrite llen_X224V_wire, xv_user, xv_size, variable_header_size by done.
  unfold TpktHeader.SIZE. lia.
Qed.

Lemma X224V_encodes p : xv_wf (x224 p) -> encodes (X224_encode p) (X224V_wire p).
Proof.
  intros H. unfold X224_encode. pose proof (xv_short _ H). pose proof (llen_nonneg (xv_wire (x224 p))).
  rewrite X224V_size by done. apply encodes_ensure; [lia|].
  rewrite llen_X224V_wire. apply encodes_cast_length; [lia|].
  apply encodes_bind; [apply encodes_tpkt|]. rewrite variable_header_size, xv_size by done.
  apply encodes_cast_length; [lia|]. replace (7 + llen (xv_wire (x224 p)) - 1) with (6 + llen (xv_wire (x224 p))) by lia.
  apply encodes_bind; [apply encodes_tpdu; [width|apply xv_code..]|]. by apply xv_encodes.
Qed.

Lemma X224V_decodes p : xv_wf (x224 p) -> decodes X224_decode (X224V_wire p) p.
Proof.
  intros H. unfold X224_decode. pose proof (xv_short _ H) as Hs. pose proof (llen_nonneg (xv_wire (x224 p))) as H0.
  eapply decodes_bind; [apply decodes_tpkt; lia|].
  apply decodes_ensure.
  { unfold tpdu_wire. rewrite llen_app. cbn [TpktHeader.packet_length]. unfold sat_sub, TpktHeader.SIZE. cbn. unfold llen in *. cbn. lia. }
  eapply decodes_bind; [apply decodes_tpdu; [lia|lia|apply xv_code..]|]. cbv beta. cbn [TpduHeader.code].
  eapply decodes_bind_nil; [apply decodes_lift; unfold TpduCode.check_expected; by rewrite Z.eqb_refl|].
  unfold TpduHeader.fixed_part_size, TpduHeader.size. cbn [TpduHeader.code TpduHeader.li]. rewrite variable_header_size.
  rewrite (proj2 (Z.ltb_ge _ _)) by lia. eapply (decodes_last _ _ _ (x224 p)); [|destruct p; apply decodes_ret].
  apply xv_decodes; [done|]. unfold TpduHeader.variable_part_size, TpduHeader.fixed_part_size, TpduHeader.size.
  cbn [TpduHeader.code TpduHeader.li]. rewrite variable_header_size, wsub64_small by width. lia.
Qed.

Lemma X224V_safe : safe 0 (X224_decode (T := T)) 0 (fun p => xv_decoded (x224 p)).
Proof.
  unfold X224_decode. eapply safe_bind; [apply safe_tpkt|]. intros tpkt Ht.
  eapply safe_bind; [apply safe_ensure|]. intros _ _.
  eapply safe_bind; [eapply safe_weaken; [apply (safe_tpdu_short tpkt)|lia|apply Z.le_refl|done]|].
  intros tpdu Hl. cbv beta in Hl. eapply safe_bind; [apply safe_lift; unfold TpduCode.check_expected; by destruct (_ =? _)|].
  intros u Hc. unfold TpduCode.check_expected in Hc.
  destruct (Z.eqb_spec (TpduHeader.code tpdu) (TPDU_CODE (T := T))) as [Hd|]; [|done].
  assert (Hf : TpduHeader.fixed_part_size tpdu = 7)
    by (unfold TpduHeader.fixed_part_size; rewrite Hd; apply variable_header_size).
  rewrite Hf. unfold TpduHeader.size. destruct (Z.ltb_spec (TpduHeader.li tpdu + 1) 7); [done|].
  eapply safe_bind; [apply xv_safe|intros a Ha; by apply safe_ret].
  unfold TpduHeader.variable_part_size, TpduHeader.size. rewrite Hf, wsub64_small by width. lia.
Qed.

Lemma X224V_writes p : xv_wf (x224 p) -> writes p (X224V_wire p).
Proof. intros H. split; [by apply X224V_encodes|by apply X224V_size]. Qed.

Lemma X224V_decode p rest : xv_wf (x224 p) -> decode (X224 T) (X224V_wire p ++ rest) = Ok p.
Proof.
  intros H. unfold decode, ReadCursor.new. pose proof (X224V_decodes p H [] rest) as Hd.
  cbn [length app] in Hd. unfold decode_from, X224_Decode. by rewrite Hd.
Qed.

Lemma X224V_no_panic bs : bytes_ok bs -> decode (X224 T) bs <> Panic.
Proof.
  intros Hb. pose proof (X224V_safe (ReadCursor.mk bs 0)) as Hs. unfold decode, ReadCursor.new, decode_from, X224_Decode.
  destruct (X224_decode _) as [[a c]| |]; [done..|]. intros _. apply Hs; [split; cbn; [lia|done]|].
  unfold ReadCursor.len, llen. cbn. lia.
Qed.

Lemma X224V_decoded bs p : bytes_ok bs -> decode (X224 T) bs = Ok p -> xv_decoded (x224 p).
Proof.
  intros Hb. pose proof (X224V_safe (ReadCursor.mk bs 0)) as Hs. unfold decode, ReadCursor.new, decode_from, X224_Decode.
  destruct (X224_decode _) as [[a c]| |]; [|done..]. intros [= <-]. apply Hs; [split; cbn; [lia|done]|].
  unfold ReadCursor.len, llen. cbn. lia.
Qed.

End x224_variable.

(** ** Looking for the end of a cookie *)

Lemma crlf_window b0 b1 : is_u8 b0 -> is_u8 b1 -> (from_le_bytes [b0; b1] =? 0x0A0D) = (b0 =? 13) && (b1 =? 10).
Proof. intros H0 H1. cbn [from_le_bytes]. destruct (Z.eqb_spec b0 13), (Z.eqb_spec b1 10); cbn [andb]; width. Qed.

Lemma peek_window {E} pre b0 b1 r :
  ReadCursor.peek_u16 (E := E) (ReadCursor.mk (pre ++ b0 :: b1 :: r) (length pre)) =
  Ok (from_le_bytes [b0; b1], ReadCursor.mk (pre ++ b0 :: b1 :: r) (length pre)).
Proof.
  unfold ReadCursor.peek_u16, ReadCursor.peek_slice, mbind, M_bind. cbn [ReadCursor.inner ReadCursor.pos].
  rewrite (proj2 (Nat.leb_le _ _)) by (rewrite length_app; cbn; lia). by rewrite drop_app_length.
Qed.

Lemma find_crlf_cons b0 b1 r :
  find_crlf (b0 :: b1 :: r) = if (b0 =? 13) && (b1 =? 10) then Some O else S <$> find_crlf (b1 :: r).
Proof. done. Qed.

Lemma find_crlf_tail b0 r : find_crlf (b0 :: r) = None -> find_crlf r = None.
Proof.
  destruct r as [|b1 r]; [done|]. rewrite find_crlf_cons. destruct (_ && _); [done|].
  by destruct (find_crlf (b1 :: r)).
Qed.

(** The first line end of text without one is the one that is appended. *)
Lemma find_crlf_app bs rest : find_crlf bs = None -> find_crlf (bs ++ CRLF ++ rest) = Some (length bs).
Proof.
  induction bs as [|b0 bs IH]; [done|]. intros H. specialize (IH (find_crlf_tail _ _ H)).
  destruct bs as [|b1 bs].
  - unfold CRLF. cbn [app length]. rewrite find_crlf_cons. by rewrite andb_false_r.
  - cbn [app length] in *. rewrite find_crlf_cons in *. destruct (_ && _); [done|]. by rewrite IH.
Qed.

(** One round of the loop. *)
Lemma scan_crlf_next fuel pre b0 b1 r :
  is_u8 b0 -> is_u8 b1 ->
  scan_crlf fuel (ReadCursor.mk (pre ++ b0 :: b1 :: r) (length pre)) =
  if (b0 =? 13) && (b1 =? 10) then Ok (tt, ReadCursor.mk (pre ++ b0 :: b1 :: r) (length pre))
  else
    match fuel with
    | O => Panic
    | S fuel' => (_ ← ReadCursor.ensure_size 2; scan_crlf fuel') (ReadCursor.mk ((pre ++ [b0]) ++ b1 :: r) (length (pre ++ [b0])))
    end.
Proof.
  intros H0 H1. destruct fuel as [|fuel]; cbn [scan_crlf]; unfold mbind at 1, M_bind at 1;
    rewrite peek_window, crlf_window by done; destruct (_ && _); try done.
  unfold ReadCursor.advance. unfold mbind at 1, M_bind at 1. cbn [ReadCursor.inner ReadCursor.pos].
  by rewrite <- app_assoc, length_app.
Qed.

Lemma scan_crlf_value fuel pre bs post :
  bytes_ok bs -> find_crlf bs = None -> (length bs <= fuel)%nat ->
  scan_crlf fuel (ReadCursor.mk (pre ++ bs ++ CRLF ++ post) (length pre)) =
  Ok (tt, ReadCursor.mk (pre ++ bs ++ CRLF ++ post) (length pre + length bs)).
Proof.
  revert fuel pre. induction bs as [|b0 bs IH]; intros fuel pre Hb Hn Hf.
  { cbn [app CRLF length]. rewrite scan_crlf_next by done. cbn. by rewrite Nat.add_0_r. }
  apply Forall_cons in Hb as [H0 Hb]. destruct fuel as [|fuel]; [cbn in Hf; lia|]. cbn [length] in Hf.
  assert (exists b1 r, bs ++ CRLF ++ post = b1 :: r /\ is_u8 b1 /\ r <> [] /\ (b0 =? 13) && (b1 =? 10) = false)
    as (b1 & r & Hr & H1 & Hr0 & Hw).
  { destruct bs as [|b1 bs].
    - exists 13, (10 :: post). split_and!; [done..|by rewrite andb_false_r].
    - exists b1, (bs ++ CRLF ++ post). split_and!; [done|by apply Forall_cons in Hb as [? _]|by destruct bs|].
      rewrite find_crlf_cons in Hn. by destruct (_ && _). }
  cbn [app]. rewrite Hr, scan_crlf_next, Hw by done. unfold mbind, M_bind, ReadCursor.ensure_size, ReadCursor.len.
  cbn [ReadCursor.inner ReadCursor.pos]. rewrite (proj2 (Z.leb_le _ _)).
  - rewrite <- Hr, IH; [|done|by eapply find_crlf_tail|lia]. rewrite <- app_assoc, length_app. cbn [app length].
    do 3 f_equal. lia.
  - destruct r as [|b2 r]; [done|]. rewrite !llen_app, !llen_cons. unfold llen. rewrite length_app. cbn. lia.
Qed.

(** On any input the loop stops, before the end. *)
Lemma scan_crlf_safe fuel c :
  rc_wf c -> 2 <= ReadCursor.len c <= Z.of_nat fuel ->
  match scan_crlf fuel c with
  | Ok (_, c') => exists n, c' = ReadCursor.mk (ReadCursor.inner c) (ReadCursor.pos c + n) /\
      (ReadCursor.pos c + n + 2 <= length (ReadCursor.inner c))%nat /\
      find_crlf (take n (drop (ReadCursor.pos c) (ReadCursor.inner c))) = None
  | Err _ => True
  | Panic => False
  end.
Proof.
  destruct c as [inner pos]. revert pos. induction fuel as [|fuel IH]; intros pos Hc Hl; [lia|].
  destruct Hc as [Hp Hb]. cbn [ReadCursor.inner ReadCursor.pos] in *. unfold ReadCursor.len, llen in Hl. cbn in Hl.
  rewrite <- (take_drop pos inner). set (pre := take pos inner) in *.
  assert (Hpre : pos = length pre) by (unfold pre; rewrite length_take; lia).
  assert (Hbd : bytes_ok (drop pos inner)) by by apply Forall_drop.
  assert (Hlen : length (drop pos inner) = (length inner - pos)%nat) by apply length_drop.
  destruct (drop pos inner) as [|b0 [|b1 r]] eqn:Hd; [cbn in Hlen; lia..|].
  apply Forall_cons in Hbd as [H0 [H1 Hr]%Forall_cons].
  rewrite Hpre, scan_crlf_next by done. destruct (_ && _) eqn:Hw.
  { exists 0%nat. rewrite Nat.add_0_r. split_and!; [done|rewrite length_app; cbn; lia|done]. }
  unfold mbind, M_bind, ReadCursor.ensure_size. destruct (Z.leb_spec 2 (ReadCursor.len
    (ReadCursor.mk ((pre ++ [b0]) ++ b1 :: r) (length (pre ++ [b0]))))) as [Hle|]; [|done].
  assert (Hi : (pre ++ [b0]) ++ b1 :: r = inner).
  { rewrite <- app_assoc. cbn. rewrite <- Hd. unfold pre. apply take_drop. }
  assert (Hpos : length (pre ++ [b0]) = S pos) by (rewrite length_app; cbn; lia).
  rewrite Hi, Hpos in *. unfold ReadCursor.len, llen in *. cbn [ReadCursor.inner ReadCursor.pos] in *.
  specialize (IH (S pos) ltac:(split; cbn; [lia|done]) ltac:(lia)).
  destruct (scan_crlf fuel _) as [[u c']| |]; [|done..]. destruct IH as (n & -> & Hn & Hf).
  assert (Hin : pre ++ b0 :: b1 :: r = inner) by (rewrite <- Hi, <- app_assoc; done).
  exists (S n). rewrite Hin, <- Hpre. split_and!; [f_equal; lia|lia|].
  rewrite Hd. cbn [take].
  assert (Htl : drop (S pos) inner = b1 :: r) by (rewrite <- Nat.add_1_r, <- drop_drop, Hd; done).
  rewrite Htl in Hf. destruct n as [|n]; [done|]. cbn [take] in *. rewrite find_crlf_cons, Hw, Hf. done.
Qed.

(** ** Cookies and routing tokens *)

(** A value that fits between the prefix and the line end. *)
Definition nego_value_wf (v : list Z) : Prop := scalars v /\ find_crlf (as_bytes v) = None.

Definition nego_value_wire (prefix v : list Z) : list Z := prefix ++ as_bytes v ++ CRLF.

Lemma decodes_nego_value prefix v :
  nego_value_wf v -> decodes (read_nego_data prefix) (nego_value_wire prefix v) (Some v).
Proof.
  intros [Hs Hn] pre post. unfold nego_value_wire.
  replace (pre ++ (prefix ++ as_bytes v ++ CRLF) ++ post) with (pre ++ prefix ++ as_bytes v ++ CRLF ++ post)
    by by rewrite <- !app_assoc.
  unfold read_nego_data, gets, mbind, M_bind, ReadCursor.len. cbn [ReadCursor.inner ReadCursor.pos].
  pose proof (llen_nonneg post). pose proof (llen_nonneg (as_bytes v)).
  rewrite (proj2 (Z.ltb_ge _ _)) by (rewrite !llen_app; unfold llen in *; cbn; lia).
  unfold ReadCursor.peek_slice. cbn [ReadCursor.inner ReadCursor.pos].
  rewrite (proj2 (Nat.leb_le _ _)) by (rewrite !length_app; lia). rewrite drop_app_length, take_app_length.
  rewrite bool_decide_eq_false_2 by (intros []; done). unfold ReadCursor.advance. cbn [ReadCursor.inner ReadCursor.pos].
  rewrite (app_assoc pre prefix). rewrite <- (length_app pre prefix).
  rewrite scan_crlf_value; [|by apply as_bytes_ok|done|unfold llen; rewrite !length_app; lia].
  cbn [ReadCursor.inner ReadCursor.pos].
  rewrite drop_app_length, Nat.add_comm, Nat.add_sub, take_app_length, from_utf8_as_bytes by done.
  unfold mret, M_ret. rewrite <- app_assoc. do 3 f_equal. rewrite !length_app. cbn [length CRLF]. lia.
Qed.

(** Input that differs from the prefix is left alone. *)
Lemma nego_value_absent p x y q r pre :
  x <> y ->
  read_nego_data (p ++ x :: q) (ReadCursor.mk (pre ++ p ++ y :: r) (length pre)) =
  Ok (None, ReadCursor.mk (pre ++ p ++ y :: r) (length pre)).
Proof.
  intros Hxy. unfold read_nego_data, gets, mbind, M_bind. destruct (_ <? _) eqn:Hl; [done|]. apply Z.ltb_ge in Hl.
  unfold ReadCursor.len, ReadCursor.peek_slice in *. cbn [ReadCursor.inner ReadCursor.pos] in *.
  rewrite !llen_app, !llen_cons in Hl. unfold llen in Hl.
  rewrite (proj2 (Nat.leb_le _ _)) by (rewrite !length_app; cbn; lia). rewrite drop_app_length.
  rewrite bool_decide_eq_true_2; [done|]. intros He. apply (f_equal (.!! length p)) in He.
  rewrite lookup_take_lt in He by (rewrite length_app; cbn; lia).
  rewrite !list_lookup_middle in He by done. by injection He.
Qed.

(** What a read of [o] leaves: everything after the [n] bytes it took. *)
Definition took {A} (n : option A -> Z) (P : A -> Prop) (c : ReadCursor.t)
    (r : outcome DecodeErrorKind (option A * ReadCursor.t)) : Prop :=
  match r with
  | Ok (o, c') =>
      rc_wf c' /\ ReadCursor.len c' = ReadCursor.len c - n o /\ (forall v, o = Some v -> P v) /\
      ReadCursor.inner c' = ReadCursor.inner c /\ (ReadCursor.pos c <= ReadCursor.pos c')%nat
  | Err _ => True
  | Panic => False
  end.

Definition nego_value_size (prefix : list Z) (o : option (list Z)) : Z :=
  from_option (fun v => llen prefix + llen (as_bytes v) + 2) 0 o.

Lemma took_nothing {A} n (P : A -> Prop) c : rc_wf c -> n None = 0 -> took n P c (Ok (None, c)).
Proof. intros Hc Hn. unfold took. rewrite Hn. by split_and!; [|lia|..]. Qed.

Lemma nego_value_took prefix c :
  rc_wf c -> took (nego_value_size prefix) nego_value_wf c (read_nego_data prefix c).
Proof.
  intros Hc. pose proof Hc as [Hp Hb]. unfold read_nego_data, gets, mbind, M_bind.
  destruct (Z.ltb_spec (ReadCursor.len c) (llen prefix + 2)) as [|Hl]; [by apply took_nothing|].
  unfold ReadCursor.peek_slice, ReadCursor.len, llen in Hl |- *.
  rewrite (proj2 (Nat.leb_le _ _)) by lia. case_bool_decide; [by apply took_nothing|].
  unfold ReadCursor.advance. cbn [ReadCursor.inner ReadCursor.pos].
  set (c1 := ReadCursor.mk (ReadCursor.inner c) (ReadCursor.pos c + length prefix)).
  pose proof (scan_crlf_safe (Z.to_nat (Z.of_nat (length (ReadCursor.inner c1)) - Z.of_nat (ReadCursor.pos c1))) c1) as Hsc.
  specialize (Hsc ltac:(split; cbn; [lia|done])). unfold ReadCursor.len, llen in Hsc.
  specialize (Hsc ltac:(unfold c1; cbn; lia)).
  destruct (scan_crlf _ c1) as [[u c2]| |]; [|done..]. destruct Hsc as (n & -> & Hle & Hf).
  cbn [ReadCursor.inner ReadCursor.pos c1] in *.
  replace (ReadCursor.pos c + length prefix + n - (ReadCursor.pos c + length prefix))%nat with n by lia.
  set (bs := take n (drop (ReadCursor.pos c + length prefix) (ReadCursor.inner c))) in *.
  assert (Hbs : bytes_ok bs) by by apply Forall_take, Forall_drop.
  assert (Hlb : length bs = n) by (unfold bs; rewrite length_take, length_drop; lia).
  destruct (from_utf8 bs) as [v|] eqn:Hu; [|done]. destruct (from_utf8_sound bs v Hbs Hu) as [Hv Hv'].
  unfold mret, M_ret, took, rc_wf, nego_value_size, ReadCursor.len, llen. cbn [ReadCursor.inner ReadCursor.pos from_option].
  rewrite Hv'. split_and!; [lia|done|lia| |done|lia]. intros ? [= <-]. split; [done|by rewrite Hv'].
Qed.

Lemma encodes_nego_value prefix v : encodes (write_nego_data prefix v) (nego_value_wire prefix v).
Proof.
  unfold write_nego_data, nego_value_wire. apply encodes_ensure; [rewrite !llen_app; unfold llen; cbn; lia|].
  apply encodes_bind; [apply encodes_write_slice|]. apply encodes_bind; [apply encodes_write_slice|].
  apply (encodes_u16 0x0A0D).
Qed.

Definition nego_wf (d : NegoRequestData) : Prop :=
  match d with RoutingToken v | Cookie v => nego_value_wf v end.
Definition nego_wire (d : NegoRequestData) : list Z :=
  match d with
  | RoutingToken v => nego_value_wire ROUTING_TOKEN_PREFIX v
  | Cookie v => nego_value_wire COOKIE_PREFIX v
  end.

Lemma llen_nego_wire d : llen (nego_wire d) = NegoRequestData_size d.
Proof.
  destruct d; cbn [nego_wire NegoRequestData_size]; unfold nego_value_wire, RoutingToken_size, Cookie_size;
    rewrite !llen_app; unfold llen; cbn [length CRLF]; lia.
Qed.

Lemma encodes_nego d : encodes (NegoRequestData_write d) (nego_wire d).
Proof. destruct d; apply encodes_nego_value. Qed.

Lemma decodes_nego d : nego_wf d -> decodes NegoRequestData_read (nego_wire d) (Some d).
Proof.
  destruct d as [v|v]; intros Hw pre post; unfold NegoRequestData_read, mbind, M_bind.
  - pose proof (decodes_nego_value ROUTING_TOKEN_PREFIX v Hw pre post) as Hd. unfold RoutingToken_read.
    cbn [nego_wire]. by rewrite Hd.
  - pose proof (decodes_nego_value COOKIE_PREFIX v Hw pre post) as Hd. cbn [nego_wire].
    assert (Ha : RoutingToken_read (ReadCursor.mk (pre ++ nego_value_wire COOKIE_PREFIX v ++ post) (length pre)) =
      Ok (None, ReadCursor.mk (pre ++ nego_value_wire COOKIE_PREFIX v ++ post) (length pre))).
    { exact (nego_value_absent (ascii_bytes "Cookie: msts") 61 104 [] _ pre ltac:(done)). }
    rewrite Ha. unfold Cookie_read. rewrite Hd. done.
Qed.

(** A negotiation request is neither. *)
Lemma nego_absent r pre :
  NegoRequestData_read (ReadCursor.mk (pre ++ 1 :: r) (length pre)) = Ok (None, ReadCursor.mk (pre ++ 1 :: r) (length pre)).
Proof.
  unfold NegoRequestData_read, mbind, M_bind, RoutingToken_read, Cookie_read.
  pose proof (nego_value_absent [] 67 1 (tail ROUTING_TOKEN_PREFIX) r pre ltac:(done)) as H1.
  pose proof (nego_value_absent [] 67 1 (tail COOKIE_PREFIX) r pre ltac:(done)) as H2.
  cbn [app] in H1, H2. change (67 :: tail ROUTING_TOKEN_PREFIX) with ROUTING_TOKEN_PREFIX in H1.
  change (67 :: tail COOKIE_PREFIX) with COOKIE_PREFIX in H2. by rewrite H1, H2.
Qed.

Lemma nego_took c :
  rc_wf c -> took (from_option NegoRequestData_size 0) nego_wf c (NegoRequestData_read c).
Proof.
  intros Hc. unfold NegoRequestData_read, mbind, M_bind, RoutingToken_read, Cookie_read.
  pose proof (nego_value_took ROUTING_TOKEN_PREFIX c Hc) as H1.
  destruct (read_nego_data ROUTING_TOKEN_PREFIX c) as [[[v|] c1]| |]; [|clear Hc|done..].
  { destruct H1 as (? & ? & Hv & ? & ?). split_and!; [done..| |done|done]. intros d [= <-]. by apply Hv. }
  destruct H1 as (Hc & Hl & _ & Hi & Hp). pose proof (nego_value_took COOKIE_PREFIX c1 Hc) as H2.
  destruct (read_nego_data COOKIE_PREFIX c1) as [[[v|] c2]| |]; [..|done|done];
    destruct H2 as (? & Hl2 & Hv & ? & ?); unfold nego_value_size in *; cbn [from_option] in *;
    (split_and!; [done|cbn [option_map from_option NegoRequestData_size]; unfold Cookie_size; lia| |congruence|lia]).
  - intros d [= <-]. by apply Hv.
  - done.
Qed.

(** ** Correlation information *)

Definition correlation_wf (i : CorrelationInfo) : Prop := length (correlation_id i) = 16%nat /\ bytes_ok (correlation_id i).
Definition correlation_wire (i : CorrelationInfo) : list Z :=
  [6] ++ [0] ++ to_le_bytes 2 36 ++ correlation_id i ++ replicate 16 0.

Lemma llen_correlation_wire i : correlation_wf i -> llen (correlation_wire i) = 36.
Proof.
  intros [Hl _]. unfold correlation_wire, llen. rewrite !length_app, length_to_le_bytes, length_replicate, Hl. done.
Qed.

Lemma encodes_correlation i : correlation_wf i -> encodes (CorrelationInfo_write i) (correlation_wire i).
Proof.
  intros Hi. unfold CorrelationInfo_write. apply encodes_ensure; [by rewrite llen_correlation_wire|].
  unfold correlation_wire. apply encodes_bind; [by apply encodes_u8|]. apply encodes_bind; [by apply encodes_u8|].
  apply encodes_bind; [apply encodes_u16|]. apply encodes_bind; apply encodes_write_slice.
Qed.

Lemma decodes_correlation i : correlation_wf i -> decodes CorrelationInfo_read (correlation_wire i) i.
Proof.
  intros Hi. unfold CorrelationInfo_read. apply decodes_ensure; [by rewrite llen_correlation_wire|].
  unfold correlation_wire. eapply decodes_bind; [by apply decodes_u8|]. eapply decodes_bind; [by apply decodes_u8|].
  eapply decodes_bind; [by apply decodes_u16|]. cbn [negb orb Z.eqb Pos.eqb CORRELATION_TYPE CORRELATION_FLAGS CORRELATION_SIZE].
  destruct Hi as [Hl _]. eapply decodes_bind; [by apply (decodes_read_array 16)|].
  eapply decodes_last; [apply (decodes_read_slice (replicate 16 0))|]. destruct i. apply decodes_ret.
Qed.

Lemma safe_correlation : safe 0 CorrelationInfo_read 0 correlation_wf.
Proof.
  unfold CorrelationInfo_read. eapply safe_bind; [apply safe_ensure|]. intros _ _.
  change (Z.max 0 CORRELATION_SIZE) with (0 + Z.of_nat 16 + Z.of_nat 16 + 2 + 1 + 1).
  eapply safe_bind; [apply safe_u8; lia|]. intros t _. eapply safe_bind; [apply safe_u8; lia|]. intros f _.
  eapply safe_bind; [apply safe_u16; lia|]. intros l _. cbv beta. destruct (_ || _); [done|].
  eapply safe_bind; [apply safe_read_slice; lia|]. intros id [Hl Hb].
  eapply safe_bind; [apply safe_read_slice; lia|]. intros res _. cbv beta. destruct (existsb _ res); [done|].
  by apply safe_ret.
Qed.

(** ** The Connection Request *)

Section requests.
Context {BF : Bitflags}.

(** The fields fit, and the flag that announces the correlation information
    agrees with it. *)
Definition negotiation_wf (r : ConnectionRequest) : Prop :=
  is_u8 (cr_flags r) /\ is_u32 (cr_protocol r) /\
  contains (cr_flags r) RequestFlags.CORRELATION_INFO_PRESENT = is_some (correlation_info r) /\
  (forall i, correlation_info r = Some i -> correlation_wf i).

Definition negotiation_wire (r : ConnectionRequest) : list Z :=
  [1] ++ [cr_flags r] ++ to_le_bytes 2 8 ++ to_le_bytes 4 (cr_protocol r)
  ++ from_option correlation_wire [] (correlation_info r).

Lemma llen_negotiation_wire r : negotiation_wf r -> llen (negotiation_wire r) = negotiation_data_size r.
Proof.
  intros (_ & _ & _ & Hi). unfold negotiation_wire, negotiation_data_size. rewrite !llen_app, !llen_cons, !llen_nil.
  unfold llen at 1 2. rewrite !length_to_le_bytes. destruct (correlation_info r) as [i|]; cbn [from_option is_some].
  - rewrite llen_correlation_wire by by apply Hi. done.
  - done.
Qed.

(** The encoder sets the flag to what it already is. *)
Lemma set_flag_same r :
  negotiation_wf r ->
  set_flag (cr_flags r) RequestFlags.CORRELATION_INFO_PRESENT (is_some (correlation_info r)) = cr_flags r.
Proof.
  intros (Hf & _ & Hc & _). rewrite <- Hc. unfold set_flag. rewrite contains_bits, union_bits, difference_bits.
  apply Z.eqb_eq, (forall_range (fun x => (if Z.land x 8 =? 8 then Z.lor x 8 else Z.ldiff x 8) =? x) 256 eq_refl), Hf.
Qed.

Lemma encodes_negotiation r : negotiation_wf r -> encodes (encode_after_nego_data r) (negotiation_wire r).
Proof.
  intros H. unfold encode_after_nego_data, negotiation_wire. rewrite set_flag_same by done.
  destruct H as (Hf & Hp & _ & Hi). apply encodes_bind; [by apply encodes_u8|]. cbv zeta.
  apply encodes_bind; [by apply encodes_u8|]. apply encodes_bind; [apply encodes_u16|].
  apply encodes_bind; [apply encodes_u32|]. apply encodes_opt. intros i Hs. by apply encodes_correlation, Hi.
Qed.

Lemma decodes_negotiation r :
  negotiation_wf r ->
  decodes (decode_after_nego_data (llen (negotiation_wire r)) (nego_data r)) (negotiation_wire r) r.
Proof.
  intros H. rewrite (llen_negotiation_wire _ H). unfold decode_after_nego_data, negotiation_data_size, RDP_NEG_REQ_SIZE, CORRELATION_SIZE.
  destruct H as (Hf & Hp & Hc & Hi). unfold negotiation_wire. destruct r as [nd fl pr [i|]]; cbn [is_some] in *.
  - cbn [Z.ltb Z.leb Z.compare Z.add Pos.add Pos.compare Pos.compare_cont andb negb].
    eapply decodes_bind; [by apply decodes_u8|]. cbn [negb Z.eqb Pos.eqb NegoMsgType.REQUEST].
    eapply decodes_bind; [by apply decodes_u8|]. eapply decodes_bind; [by apply decodes_u16|]. cbn [negb Z.eqb Pos.eqb].
    eapply decodes_bind; [by apply decodes_u32|]. cbn [cr_flags] in *. rewrite Hc. cbn [negb Z.eqb Pos.eqb].
    eapply decodes_last; [|apply decodes_ret]. cbn [from_option correlation_info].
    eapply decodes_last; [apply decodes_correlation, Hi; done|]. apply decodes_ret.
  - cbn [Z.ltb Z.leb Z.compare Z.add Pos.add Pos.compare Pos.compare_cont andb negb].
    eapply decodes_bind; [by apply decodes_u8|]. cbn [negb Z.eqb Pos.eqb NegoMsgType.REQUEST].
    eapply decodes_bind; [by apply decodes_u8|]. eapply decodes_bind; [by apply decodes_u16|]. cbn [negb Z.eqb Pos.eqb].
    eapply decodes_bind; [by apply decodes_u32|]. cbn [cr_flags] in *. rewrite Hc. cbn [negb Z.eqb Pos.eqb].
    eapply decodes_last; [apply decodes_ret|apply decodes_ret].
Qed.

Lemma safe_negotiation n nd :
  0 <= n -> safe n (decode_after_nego_data n nd) 0 (fun r => nego_data r = nd /\ negotiation_wf r).
Proof.
  intros Hn. unfold decode_after_nego_data. destruct (_ && _); [done|].
  destruct (Z.leb_spec RDP_NEG_REQ_SIZE n) as [H8|].
  2:{ eapply safe_weaken; [apply (safe_ret n)|lia|lia|intros a Ha; exact Ha].
      split; [done|]. split_and!; [done..| |done]. cbn. by rewrite contains_bits. }
  unfold RDP_NEG_REQ_SIZE in H8. replace n with (n - 8 + 4 + 2 + 1 + 1) at 1 by lia.
  eapply safe_bind; [apply safe_u8; lia|]. intros t _. cbv beta. destruct (negb _); [done|].
  eapply safe_bind; [apply safe_u8; lia|]. intros f Hf. eapply safe_bind; [apply safe_u16; lia|]. intros l _. cbv beta.
  destruct (negb _); [done|]. eapply safe_bind; [apply safe_u32; lia|]. intros p Hp. cbv beta.
  destruct (contains f RequestFlags.CORRELATION_INFO_PRESENT) eqn:Hc.
  - eapply (safe_bind _ 0 _ _ _ (fun o => exists i, o = Some i /\ correlation_wf i)).
    + destruct (negb _); [done|]. eapply safe_bind; [eapply safe_weaken; [apply safe_correlation|lia|apply Z.le_refl|done]|].
      intros i Hi. apply safe_ret. eauto.
    + intros o (i & -> & Hi). apply safe_ret. split; [done|]. split_and!; [done..|]. by intros ? [= <-].
  - eapply (safe_bind _ 0 _ _ _ (fun o => o = None)).
    + destruct (negb _); [done|]. eapply safe_weaken; [apply (safe_ret (n - 8) None (fun o => o = None) eq_refl)|lia|lia|done].
    + intros o ->. apply safe_ret. split; [done|]. by split_and!.
Qed.

(** *** With a cookie or a routing token, or without *)

Definition request_wire (r : ConnectionRequest) : list Z :=
  from_option nego_wire [] (nego_data r) ++ negotiation_wire r.
Definition request_wf (r : ConnectionRequest) : Prop :=
  (forall d, nego_data r = Some d -> nego_wf d) /\ negotiation_wf r /\ llen (request_wire r) <= 248.
(** What a decoded request satisfies: it need not fit again, since a request
    without negotiation data is read as one with empty data. *)
Definition request_decoded (r : ConnectionRequest) : Prop :=
  (forall d, nego_data r = Some d -> nego_wf d) /\ negotiation_wf r.

Lemma decodes_request r tpkt tpdu :
  request_wf r -> TpduHeader.variable_part_size tpdu = llen (request_wire r) ->
  decodes (ConnectionRequest_body_decode tpkt tpdu) (request_wire r) r.
Proof.
  intros (Hd & Hw & Hs) Hv. unfold ConnectionRequest_body_decode. rewrite Hv. cbv zeta.
  apply decodes_ensure; [lia|]. pose proof (llen_nonneg (negotiation_wire r)). unfold request_wire in *.
  destruct (nego_data r) as [d|] eqn:He; cbn [from_option] in *.
  - eapply decodes_bind; [by apply decodes_nego, Hd|]. cbv beta. cbn [from_option].
    rewrite llen_app, llen_nego_wire. rewrite (proj2 (Z.ltb_ge _ _)) by lia.
    replace (NegoRequestData_size d + llen (negotiation_wire r) - NegoRequestData_size d)
      with (llen (negotiation_wire r)) by lia. rewrite <- He. by apply decodes_negotiation.
  - intros pre post. pose proof (decodes_negotiation r Hw pre post) as Hdn. unfold mbind, M_bind.
    unfold negotiation_wire in *. cbn [app] in *. rewrite nego_absent. cbv beta. cbn [from_option].
    rewrite (proj2 (Z.ltb_ge _ _)) by (pose proof (llen_nonneg (negotiation_wire r)); unfold negotiation_wire in *; cbn [app] in *; lia).
    rewrite Z.sub_0_r, <- He. apply Hdn.
Qed.

Lemma safe_request tpkt tpdu : 0 <= TpduHeader.variable_part_size tpdu ->
  safe 0 (ConnectionRequest_body_decode tpkt tpdu) 0 request_decoded.
Proof.
  intros Hv c Hc Hn. unfold ConnectionRequest_body_decode, mbind at 1, M_bind at 1, ReadCursor.ensure_size.
  destruct (Z.leb_spec (TpduHeader.variable_part_size tpdu) (ReadCursor.len c)) as [Hl|]; [|done].
  unfold mbind, M_bind. pose proof (nego_took c Hc) as Ht. destruct (NegoRequestData_read c) as [[o c1]| |]; [|done..].
  destruct Ht as (Hc1 & Hl1 & Ho & Hi1 & Hp1). destruct (Z.ltb_spec (TpduHeader.variable_part_size tpdu) (from_option NegoRequestData_size 0 o)); [done|].
  pose proof (safe_negotiation (TpduHeader.variable_part_size tpdu - from_option NegoRequestData_size 0 o) o ltac:(lia) c1 Hc1 ltac:(lia)) as Hs.
  destruct (decode_after_nego_data _ o c1) as [[r c2]| |]; [|done..]. destruct Hs as (? & ? & [Hr ?] & ? & ?).
  split; [done|]. split; [done|]. split; [split; [by rewrite Hr|done]|]. split; [congruence|lia].
Qed.

#[export] Instance ConnectionRequest_Variable : X224Variable ConnectionRequest.
Proof.
  refine (@Build_X224Variable ConnectionRequest _ (conj _ _) request_wf request_wire request_decoded
    (fun _ => eq_refl) _ _ _ decodes_request _); [done|done|..].
  - intros r (_ & Hw & _). cbn. unfold request_wire. rewrite llen_app, llen_negotiation_wire by done.
    f_equal. destruct (nego_data r); [symmetry; apply llen_nego_wire|done].
  - by intros r (_ & _ & Hs).
  - intros r (Hd & Hw & _). apply encodes_bind; [|by apply encodes_negotiation].
    apply encodes_opt. intros d _. apply encodes_nego.
  - intros tpkt tpdu Hv. apply safe_request. lia.
Defined.

End requests.

(** *** With an opaque routing token *)

Lemma find_crlf_bound bs n : find_crlf bs = Some n -> (n + 2 <= length bs)%nat.
Proof.
  revert n. induction bs as [|b0 bs IH]; [done|]. intros n. destruct bs as [|b1 bs]; [done|].
  rewrite find_crlf_cons. destruct (_ && _); [intros [= <-]; cbn; lia|].
  intros (m & Hm & ->)%fmap_Some. specialize (IH m Hm). cbn in *. lia.
Qed.

Lemma printable_no_crlf bs : forallb printable bs = true -> find_crlf bs = None.
Proof.
  induction bs as [|b0 bs IH]; [done|]. cbn [forallb]. intros [H0 Hb]%andb_prop. specialize (IH Hb).
  destruct bs as [|b1 bs]; [done|]. rewrite find_crlf_cons. unfold printable in H0.
  destruct (Z.eqb_spec b0 13) as [->|]; [done|]. cbn [andb]. by rewrite IH.
Qed.

Definition opaque_wf (t : OpaqueRoutingToken) : Prop :=
  scalars (opaque_token t) /\ as_bytes (opaque_token t) <> [] /\
  llen (as_bytes (opaque_token t)) <= MAX_ROUTING_TOKEN_LENGTH /\
  forallb printable (as_bytes (opaque_token t)) = true.
Definition opaque_wire (t : OpaqueRoutingToken) : list Z := as_bytes (opaque_token t) ++ CRLF.

Lemma llen_opaque_wire t : llen (opaque_wire t) = OpaqueRoutingToken_size t.
Proof. unfold opaque_wire. by rewrite llen_app. Qed.

Lemma encodes_opaque t : opaque_wf t -> encodes (OpaqueRoutingToken_write t) (opaque_wire t).
Proof.
  intros (_ & Hne & Hl & Hp). unfold OpaqueRoutingToken_write. rewrite bool_decide_eq_false_2 by done.
  rewrite (proj2 (Z.ltb_ge _ _)), Hp by done. apply (encodes_nego_value [] (opaque_token t)).
Qed.

Lemma decodes_opaque t : opaque_wf t -> decodes OpaqueRoutingToken_read (opaque_wire t) (Some t).
Proof.
  intros (Hs & Hne & Hl & Hp) pre post. unfold opaque_wire, OpaqueRoutingToken_read, gets, mbind, M_bind.
  cbn [ReadCursor.inner ReadCursor.pos]. rewrite (proj2 (Nat.ltb_ge _ _)) by (rewrite !length_app; lia).
  rewrite drop_app_length, <- app_assoc, find_crlf_app by by apply printable_no_crlf.
  rewrite take_app_length, bool_decide_eq_false_2, Hp by done. cbn [orb negb]. rewrite from_utf8_as_bytes by done.
  destruct t as [t]. cbn [opaque_token]. unfold mret, M_ret, ReadCursor.advance. cbn [ReadCursor.inner ReadCursor.pos].
  rewrite length_app. done.
Qed.

Definition opaque_decoded (t : OpaqueRoutingToken) : Prop :=
  scalars (opaque_token t) /\ as_bytes (opaque_token t) <> [] /\ forallb printable (as_bytes (opaque_token t)) = true.

Lemma opaque_took c : rc_wf c -> took (from_option OpaqueRoutingToken_size 0) opaque_decoded c (OpaqueRoutingToken_read c).
Proof.
  intros Hc. pose proof Hc as [Hp Hb]. unfold OpaqueRoutingToken_read, gets, mbind, M_bind.
  rewrite (proj2 (Nat.ltb_ge _ _)) by done.
  destruct (find_crlf (drop (ReadCursor.pos c) (ReadCursor.inner c))) as [n|] eqn:Hf; [|by apply took_nothing].
  apply find_crlf_bound in Hf. rewrite length_drop in Hf.
  set (bs := take n (drop (ReadCursor.pos c) (ReadCursor.inner c))).
  assert (Hbs : bytes_ok bs) by by apply Forall_take, Forall_drop.
  assert (Hlb : length bs = n) by (unfold bs; rewrite length_take, length_drop; lia).
  case_bool_decide as Hne; [by apply took_nothing|]. destruct (forallb printable bs) eqn:Hpr; [|by apply took_nothing].
  cbn [orb negb]. destruct (from_utf8 bs) as [v|] eqn:Hu; [|done]. destruct (from_utf8_sound bs v Hbs Hu) as [Hv Hv'].
  unfold ReadCursor.advance, mret, M_ret, took, rc_wf, OpaqueRoutingToken_size, ReadCursor.len, llen.
  cbn [ReadCursor.inner ReadCursor.pos from_option opaque_token]. rewrite Hv'. split_and!; [lia|done|lia| |done|lia].
  intros ? [= <-]. unfold opaque_decoded. cbn [opaque_token]. by rewrite Hv'.
Qed.

Section opaque.
Context {BF : Bitflags}.

Definition opaque_request_wire (r : ConnectionRequestWithOpaqueRoutingToken) : list Z :=
  opaque_wire (routing_token r) ++ negotiation_wire (request r).
Definition opaque_request_wf (r : ConnectionRequestWithOpaqueRoutingToken) : Prop :=
  opaque_wf (routing_token r) /\ nego_data (request r) = None /\ negotiation_wf (request r) /\
  llen (opaque_request_wire r) <= 248.
Definition opaque_request_decoded (r : ConnectionRequestWithOpaqueRoutingToken) : Prop :=
  opaque_decoded (routing_token r) /\ nego_data (request r) = None /\ negotiation_wf (request r).

Lemma decodes_opaque_request r tpkt tpdu :
  opaque_request_wf r -> TpduHeader.variable_part_size tpdu = llen (opaque_request_wire r) ->
  decodes (OpaqueRequest_body_decode tpkt tpdu) (opaque_request_wire r) r.
Proof.
  intros (Ht & Hn & Hw & Hs) Hv. unfold OpaqueRequest_body_decode. rewrite Hv. cbv zeta.
  apply decodes_ensure; [lia|]. unfold opaque_request_wire in *. pose proof (llen_nonneg (negotiation_wire (request r))).
  eapply decodes_bind; [by apply decodes_opaque|]. cbv beta. rewrite llen_app, llen_opaque_wire.
  rewrite (proj2 (Z.ltb_ge _ _)) by lia. rewrite <- Hn.
  replace (OpaqueRoutingToken_size (routing_token r) + llen (negotiation_wire (request r)) - OpaqueRoutingToken_size (routing_token r))
    with (llen (negotiation_wire (request r))) by lia.
  eapply decodes_last; [by apply decodes_negotiation|]. destruct r. apply decodes_ret.
Qed.

Lemma safe_opaque_request tpkt tpdu : 0 <= TpduHeader.variable_part_size tpdu ->
  safe 0 (OpaqueRequest_body_decode tpkt tpdu) 0 opaque_request_decoded.
Proof.
  intros Hv c Hc Hn. unfold OpaqueRequest_body_decode, mbind at 1, M_bind at 1, ReadCursor.ensure_size.
  destruct (Z.leb_spec (TpduHeader.variable_part_size tpdu) (ReadCursor.len c)) as [Hl|]; [|done].
  unfold mbind, M_bind. pose proof (opaque_took c Hc) as Ht. destruct (OpaqueRoutingToken_read c) as [[[t|] c1]| |]; [|done..].
  destruct Ht as (Hc1 & Hl1 & Ho & Hi1 & Hp1). cbn [from_option] in Hl1.
  destruct (Z.ltb_spec (TpduHeader.variable_part_size tpdu) (OpaqueRoutingToken_size t)); [done|].
  pose proof (safe_negotiation (TpduHeader.variable_part_size tpdu - OpaqueRoutingToken_size t) None ltac:(lia) c1 Hc1 ltac:(lia)) as Hs.
  destruct (decode_after_nego_data _ None c1) as [[r c2]| |]; [|done..]. destruct Hs as (? & ? & [Hr ?] & ? & ?).
  unfold mret, M_ret. split; [done|]. split; [done|]. split; [split; [by apply Ho|done]|]. split; [congruence|lia].
Qed.

#[export] Instance OpaqueRequest_Variable : X224Variable ConnectionRequestWithOpaqueRoutingToken.
Proof.
  refine (@Build_X224Variable ConnectionRequestWithOpaqueRoutingToken _ (conj _ _) opaque_request_wf
    opaque_request_wire opaque_request_decoded (fun _ => eq_refl) _ _ _ decodes_opaque_request _); [done|done|..].
  - intros r (_ & _ & Hw & _). cbn. unfold opaque_request_wire.
    by rewrite llen_app, llen_negotiation_wire, llen_opaque_wire.
  - by intros r (_ & _ & _ & Hs).
  - intros r (Ht & _ & Hw & _). apply encodes_bind; [by apply encodes_opaque|by apply encodes_negotiation].
  - intros tpkt tpdu Hv. apply safe_opaque_request. lia.
Defined.

End opaque.

(** ** The Connection Confirm *)

(** [NoNegotiation] is not among them: it is read as an empty response
    ([no_negotiation_reads_as_response]). *)
Definition confirm_wf (c : ConnectionConfirm) : Prop :=
  match c with
  | Response flags protocol => is_u8 flags /\ is_u32 protocol
  | Failure code => is_u32 code
  | NoNegotiation => False
  end.
Definition confirm_wire (c : ConnectionConfirm) : list Z :=
  match c with
  | Response flags protocol => [2] ++ [flags] ++ to_le_bytes 2 8 ++ to_le_bytes 4 protocol
  | Failure code => [3] ++ [0] ++ to_le_bytes 2 8 ++ to_le_bytes 4 code
  | NoNegotiation => []
  end.

Lemma encodes_confirm c : confirm_wf c \/ c = NoNegotiation -> encodes (ConnectionConfirm_body_encode c) (confirm_wire c).
Proof.
  destruct c as [flags protocol|code|]; intros [H|H]; try done; cbn [ConnectionConfirm_body_encode confirm_wire].
  - destruct H. do 2 (apply encodes_bind; [by apply encodes_u8|]). apply encodes_bind; [apply encodes_u16|apply encodes_u32].
  - do 2 (apply encodes_bind; [by apply encodes_u8|]). apply encodes_bind; [apply encodes_u16|apply encodes_u32].
  - apply encodes_ret.
Qed.

Lemma decodes_confirm c tpkt tpdu :
  confirm_wf c -> TpduHeader.variable_part_size tpdu = llen (confirm_wire c) ->
  decodes (ConnectionConfirm_body_decode tpkt tpdu) (confirm_wire c) c.
Proof.
  intros H Hv. unfold ConnectionConfirm_body_decode. rewrite Hv. cbv zeta. apply decodes_ensure; [lia|].
  destruct c as [flags protocol|code|]; cbn [confirm_wire] in *; [..|done].
  - destruct H as [Hf Hp]. apply decodes_ensure; [done|].
    eapply decodes_bind; [by apply decodes_u8|]. cbn [Z.eqb Pos.eqb NegoMsgType.RESPONSE].
    eapply decodes_bind; [by apply decodes_u8|]. eapply decodes_bind; [by apply decodes_u16|].
    eapply decodes_last; [by apply decodes_u32|apply decodes_ret].
  - apply decodes_ensure; [done|].
    eapply decodes_bind; [by apply decodes_u8|]. cbn [Z.eqb Pos.eqb NegoMsgType.RESPONSE NegoMsgType.FAILURE].
    eapply decodes_bind; [by apply decodes_u8|]. eapply decodes_bind; [by apply decodes_u16|].
    eapply decodes_last; [by apply decodes_u32|apply decodes_ret].
Qed.

Lemma safe_confirm tpkt tpdu : safe 0 (ConnectionConfirm_body_decode tpkt tpdu) 0 confirm_wf.
Proof.
  unfold ConnectionConfirm_body_decode. eapply safe_bind; [apply safe_ensure|]. intros _ _.
  destruct (0 <? _).
  2:{ eapply safe_weaken; [apply (safe_ret 0 (Response 0 0) confirm_wf); by split|lia|lia|done]. }
  eapply safe_bind; [eapply safe_weaken; [apply (safe_ensure 0 8)|lia|apply Z.le_refl|done]|]. intros _ _.
  change (Z.max 0 8) with (0 + 4 + 2 + 1 + 1). eapply safe_bind; [apply safe_u8; lia|]. intros t _. cbv beta.
  destruct (t =? NegoMsgType.RESPONSE); [|destruct (t =? NegoMsgType.FAILURE); [|done]];
    (eapply safe_bind; [apply safe_u8; lia|]; intros f Hf; eapply safe_bind; [apply safe_u16; lia|]; intros _ _;
     eapply safe_bind; [apply safe_u32; lia|]; intros p Hp; by apply safe_ret).
Qed.

#[export] Instance ConnectionConfirm_Variable : X224Variable ConnectionConfirm.
Proof.
  refine (@Build_X224Variable ConnectionConfirm _ (conj _ _) confirm_wf confirm_wire confirm_wf
    (fun _ => eq_refl) _ _ _ decodes_confirm _); [done|done|..].
  - by intros [].
  - by intros [].
  - intros c H. apply encodes_confirm. by left.
  - intros tpkt tpdu _. apply safe_confirm.
Defined.

(** ** Properties *)

Section theorems.
Context {BF : Bitflags}.

(** A negotiation message whose fields fit is read back from the bytes it
    is written as, whatever follows it on the stream: a connection request with
    or without a cookie or routing token and correlation information, one with
    an opaque routing token, and a connection confirm. *)
Theorem nego_roundtrip (r : ConnectionRequest) (o : ConnectionRequestWithOpaqueRoutingToken) (c : ConnectionConfirm)
    (rest : list Z) :
  request_wf r -> opaque_request_wf o -> confirm_wf c ->
  (exists out, encode_vec (mkX224 r) = Ok out /\ llen out = size (mkX224 r) /\
    decode (X224 ConnectionRequest) (out ++ rest) = Ok (mkX224 r)) /\
  (exists out, encode_vec (mkX224 o) = Ok out /\ llen out = size (mkX224 o) /\
    decode (X224 ConnectionRequestWithOpaqueRoutingToken) (out ++ rest) = Ok (mkX224 o)) /\
  (exists out, encode_vec (mkX224 c) = Ok out /\ llen out = size (mkX224 c) /\
    decode (X224 ConnectionConfirm) (out ++ rest) = Ok (mkX224 c)).
Proof.
  intros Hr Ho Hc.
  split; [|split]; (eexists; split; [apply encode_vec_writes, X224V_writes; done|]; split;
    [symmetry; by apply (X224V_writes (mkX224 _))|by apply X224V_decode]).
Qed.

(** No input makes the negotiation decoders panic: the search for the end
    of a cookie, the sizes the length indicator announces and the slices taken
    from them stay inside the packet.  What is accepted as a request says
    correctly whether it carries correlation information, and its cookie is
    text without a line end. *)
Theorem nego_decode_total (bs : list Z) :
  bytes_ok bs ->
  decode (X224 ConnectionRequest) bs <> Panic /\
  decode (X224 ConnectionRequestWithOpaqueRoutingToken) bs <> Panic /\
  decode (X224 ConnectionConfirm) bs <> Panic /\
  (forall r, decode (X224 ConnectionRequest) bs = Ok (mkX224 r) -> request_decoded r).
Proof.
  intros Hb. split_and!; [by apply X224V_no_panic..|]. intros r Hr. exact (X224V_decoded bs (mkX224 r) Hb Hr).
Qed.

End theorems.

(** A request with a cookie and correlation information. *)
Definition demo_request : ConnectionRequest :=
  mkConnectionRequest (Some (Cookie (ascii_bytes "eltons"))) 0x08 0x03 (Some (mkCorrelationInfo (replicate 16 7))).
Definition demo_opaque : ConnectionRequestWithOpaqueRoutingToken :=
  mkOpaqueRequest (mkConnectionRequest None 0 0x03 None) (mkOpaqueRoutingToken (ascii_bytes "tsv://farm")).

Lemma demo_request_wf : request_wf (BF := bits_flags) demo_request.
Proof.
  split; [intros d [= <-]; split; [by repeat (apply Forall_cons; split)|done]|]. split; [|by vm_compute].
  split_and!; [done..|]. intros i [= <-]. split; [done|]. by repeat (apply Forall_cons; split).
Qed.

Lemma demo_opaque_wf : opaque_request_wf (BF := bits_flags) demo_opaque.
Proof.
  split; [split_and!; [by repeat (apply Forall_cons; split)|done..]|]. split; [done|]. split; [|by vm_compute].
  by split_and!.
Qed.

Lemma nego_roundtrip_witness :
  exists out, encode_vec (mkX224 (Failure FailureCode.HYBRID_REQUIRED_BY_SERVER)) = Ok out /\
    decode (X224 ConnectionConfirm) (out ++ [7]) = Ok (mkX224 (Failure FailureCode.HYBRID_REQUIRED_BY_SERVER)).
Proof.
  destruct (nego_roundtrip (BF := bits_flags) demo_request demo_opaque (Failure FailureCode.HYBRID_REQUIRED_BY_SERVER) [7]
    demo_request_wf demo_opaque_wf ltac:(by split)) as (_ & _ & out & He & _ & Hd). eauto.
Defined.

Lemma nego_decode_total_witness : decode (X224 ConnectionConfirm) [3; 0; 0; 12; 7; 0xD0; 0; 0; 0; 0; 0; 2] <> Panic.
Proof. apply (nego_decode_total (BF := bits_flags)). by repeat (apply Forall_cons; split). Defined.

(** A confirm without negotiation data reads as a response with none set. *)
Lemma no_negotiation_reads_as_response :
  exists out, encode_vec (mkX224 NoNegotiation) = Ok out /\ llen out = 11 /\
    decode (X224 ConnectionConfirm) out = Ok (mkX224 (Response 0 0)).
Proof. eexists. split_and!; [vm_compute; reflexivity|reflexivity|reflexivity]. Qed.
