(* ===== verification/Sequence.v ===== *)
(** The sans-I/O sequences of the connection phase and the code that drives
    them: [Written], the errors and the [Sequence] trait of
    src/crates/ironrdp-connector/src/lib.rs, [single_sequence_step] of
    src/crates/ironrdp-async/src/framed.rs, and
    [encode_send_data_indication] of src/crates/ironrdp-acceptor/src/util.rs.

    A socket that fails to write is not modelled; what the driver wrote so far
    is [d_sent]. *)

From S2P Require Import Prelude Cursor Codec Mutation WriteBuf Mcs McsCodec Framed.

(** [ConnectorError], with its context *)
Inductive ConnectorError :=
| CEncode (source : EncodeErrorKind)
| CDecode (source : DecodeErrorKind)
| CReason (context : string)
| CGeneral (context : string)
| CCustom (context : string) (source : IoError)
(** an error of another crate *)
| CSource (context : string).

Inductive Written := Nothing | Size (n : Z).
#[export] Instance Written_eq_dec : EqDecision Written.
Proof. solve_decision. Defined.

Definition Written_from_size (value : Z) : outcome ConnectorError Written :=
  if value =? 0 then Err (CGeneral "invalid written length (can't be zero)") else Ok (Size value).

(** Code with [&mut self] and [&mut WriteBuf]. *)
Abbreviation StepM A := (Mut (A * WriteBuf.t) ConnectorError).

Section steps.
Context {A : Type}.

(** [encode_buf(&pdu, output).map_err(ConnectorError::encode)?]: what an
    encoder that fails leaves behind is in the unfilled part. *)
Definition emit {P} `{Encode P} (pdu : P) : StepM A Z := fun '(s, b) =>
  match encode_buf pdu b with
  | Ok (n, b') => Some (inr n, (s, b'))
  | Err e => Some (inl (CEncode e), (s, b))
  | Panic => None
  end.

(** [util::encode_send_data_indication] *)
Definition encode_send_data_indication {P} `{Encode P} (initiator_id channel_id : Z) (user_msg : P) : StepM A Z :=
  user_data ← question CEncode (encode_vec user_msg);
  emit (mkX224 (mkSendDataIndication initiator_id channel_id user_data)).

(** [(Written::from_size(written)?, ..)] *)
Definition written_size (n : Z) : StepM A Written := question id (Written_from_size n).

Definition get_self : StepM A A := access fst.
Definition set_self (s : A) : StepM A unit := update (fun '(_, b) => (s, b)).
Definition modify_self (f : A -> A) : StepM A unit := update (fun '(s, b) => (f s, b)).

(** [decode::<T>(input).map_err(ConnectorError::decode)?] *)
Definition decode_input (T : Type) `{Decode T} (input : list Z) : StepM A T := question CDecode (decode T input).

(** A step of a sequence that the state [s] holds in a local variable. *)
Definition sub_step {B R} (m : StepM B R) (b : B) : StepM A (R * B) := fun '(s, buf) =>
  match m (b, buf) with
  | Some (inr r, (b', buf')) => Some (inr (r, b'), (s, buf'))
  | Some (inl e, (_, buf')) => Some (inl e, (s, buf'))
  | None => None
  end.

End steps.

Class Sequence (A : Type) := {
  next_pdu_hint : A -> option PduHint;
  step : list Z -> option Z -> StepM A Written;
}.
Definition step_no_input {A} `{Sequence A} : StepM A Written := step [] None.

(** ** The driver *)

Record Driver (A : Type) := mkDriver {
  d_framed : Framed;
  d_sequence : A;
  d_buf : WriteBuf.t;
  d_sent : list Z;
}.
Arguments mkDriver {A} _ _ _ _.
Arguments d_framed {A} _.
Arguments d_sequence {A} _.
Arguments d_buf {A} _.
Arguments d_sent {A} _.

Section driver.
Context {A : Type} {S : Sequence A}.

Definition on_framed {R} (context : string) (m : Mut Framed IoError R) : Mut (Driver A) ConnectorError R := fun d =>
  match m (d_framed d) with
  | Some (inr r, f) => Some (inr r, mkDriver f (d_sequence d) (d_buf d) (d_sent d))
  | Some (inl e, f) => Some (inl (CCustom context e), mkDriver f (d_sequence d) (d_buf d) (d_sent d))
  | None => None
  end.

Definition on_sequence {R} (m : StepM A R) : Mut (Driver A) ConnectorError R := fun d =>
  match m (d_sequence d, d_buf d) with
  | Some (r, (s, b)) => Some (r, mkDriver (d_framed d) s b (d_sent d))
  | None => None
  end.

Definition clear_buf : Mut (Driver A) ConnectorError unit :=
  update (fun d => mkDriver (d_framed d) (d_sequence d) (WriteBuf.clear (d_buf d)) (d_sent d)).

Definition single_sequence_step_read : Mut (Driver A) ConnectorError Written :=
  _ ← clear_buf;
  hint ← access (fun d => next_pdu_hint (d_sequence d));
  match hint with
  | Some next_pdu_hint =>
      pdu ← on_framed "read frame by hint" (read_by_hint next_pdu_hint);
      received_at ← access (fun d => last_read_at (d_framed d));
      on_sequence (step pdu received_at)
  | None => on_sequence step_no_input
  end.

Definition single_sequence_step_write (written : Written) : Mut (Driver A) ConnectorError unit :=
  match written with
  | Size _ => fun d =>
      match WriteBuf.filled (E := Empty_set) (d_buf d) with
      | Ok response => Some (inr tt, mkDriver (d_framed d) (d_sequence d) (d_buf d) (d_sent d ++ response))
      | _ => None
      end
  | Nothing => mret tt
  end.

Definition single_sequence_step : Mut (Driver A) ConnectorError unit :=
  _ ← clear_buf;
  written ← single_sequence_step_read;
  single_sequence_step_write written.

End driver.

(** ** What a step writes *)

Section emit.
Context {A : Type}.

Lemma wpm_emit_pdu {P} {En : Encode P} (pdu : P) bs acc (s : A) b (Q : ConnectorError + Z -> A * WriteBuf.t -> Prop) :
  writes pdu bs -> WriteBuf.holds acc b ->
  (forall b', WriteBuf.holds (acc ++ bs) b' -> Q (inr (llen bs)) (s, b')) ->
  wpm (emit pdu) Q (s, b).
Proof.
  intros Hw Hb HQ. unfold wpm, emit. destruct (encode_buf_writes pdu bs acc b Hw Hb) as (b' & -> & Hb'). auto.
Qed.

(** The bytes of a Send Data Indication. *)
Definition indication_wire (i c : Z) (data : list Z) : list Z := wire (mkX224 (mkSendDataIndication i c data)).

Lemma wpm_send_indication {P} {En : Encode P} (pdu : P) i c data acc (s : A) b (Q : ConnectorError + Z -> A * WriteBuf.t -> Prop) :
  writes pdu data -> send_wf i c data -> WriteBuf.holds acc b ->
  (forall b', WriteBuf.holds (acc ++ indication_wire i c data) b' -> Q (inr (llen (indication_wire i c data))) (s, b')) ->
  wpm (encode_send_data_indication i c pdu) Q (s, b).
Proof.
  intros Hw Hs Hb HQ. unfold encode_send_data_indication. apply wpm_bind.
  eapply wpm_question; [by apply encode_vec_writes|]. eapply wpm_emit_pdu; [by apply writes_wire|done|done].
Qed.

Lemma wpm_written_size n (Q : ConnectorError + Written -> A * WriteBuf.t -> Prop) s :
  n <> 0 -> Q (inr (Size n)) s -> wpm (written_size n) Q s.
Proof. intros Hn HQ. unfold wpm, written_size, Written_from_size. by rewrite (proj2 (Z.eqb_neq _ _)). Qed.

Lemma wpm_sub {B R} (m : StepM B R) (b : B) (s : A) buf (Q : ConnectorError + R * B -> A * WriteBuf.t -> Prop) :
  wpm m (fun r sb => match r with inr x => Q (inr (x, sb.1)) (s, sb.2) | inl e => Q (inl e) (s, sb.2) end) (b, buf) ->
  wpm (sub_step m b) Q (s, buf).
Proof. unfold wpm, sub_step. by destruct (m (b, buf)) as [[[e|x] [b' buf']]|]. Qed.

End emit.

(** A sequence that stops with an error has what it wrote in that step thrown
    away: the driver returns before it writes. *)
Lemma step_error_sends_nothing {A} `{Sequence A} (d d' : Driver A) e :
  single_sequence_step d = Some (inl e, d') -> d_sent d' = d_sent d.
Proof.
  unfold single_sequence_step, single_sequence_step_read, clear_buf, update, access, mbind, Mut_bind.
  intros Hs. destruct (next_pdu_hint _) as [h|]; unfold on_framed, on_sequence in Hs;
    cbn [d_framed d_sequence d_buf d_sent] in Hs.
  - destruct (read_by_hint h (d_framed d)) as [[[e'|pdu] f]|]; [by simplify_eq| |done].
    cbn [d_framed d_sequence d_buf d_sent] in Hs. destruct (step pdu _ _) as [[[e'|w] [s b]]|]; [by simplify_eq| |done].
    destruct w; unfold single_sequence_step_write in Hs; [done|]. cbn in Hs. by destruct (WriteBuf.filled b).
  - destruct (step_no_input _) as [[[e'|w] [s b]]|]; [by simplify_eq| |done].
    destruct w; unfold single_sequence_step_write in Hs; [done|]. cbn in Hs. by destruct (WriteBuf.filled b).
Qed.

(** ** Runs of a sequence *)

(** The calls of [step] a driver makes when the peer sends [inputs] and then
    nothing more: a step without input where the sequence does not wait for
    one, until [done] or until it waits for input that does not come.  The
    result is the input left over. *)
Section run.
Context {A : Type} {S : Sequence A} (done : A -> bool).

Fixpoint run_sequence (fuel : nat) (inputs : list (list Z)) : StepM A (list (list Z)) :=
  match fuel with
  | O => boom
  | Datatypes.S fuel' =>
      s ← get_self;
      if done s then mret inputs
      else
        match next_pdu_hint s, inputs with
        | None, _ => _ ← step_no_input; run_sequence fuel' inputs
        | Some _, input :: inputs' => _ ← step input None; run_sequence fuel' inputs'
        | Some _, [] => mret []
        end
  end.

(** What a step that ends well says about its output. *)
Definition wrote (out : list Z) : Written := if bool_decide (out = []) then Nothing else Size (llen out).

(** The output buffer holds [acc] and then what the step wrote. *)
Definition step_post (ok failed : A -> Prop) (acc : list Z) (r : ConnectorError + Written) (sb : A * WriteBuf.t) : Prop :=
  exists out, WriteBuf.holds (acc ++ out) sb.2 /\
    match r with
    | inr w => w = wrote out /\ ok sb.1
    | inl _ => failed sb.1
    end.

End run.

Lemma wrote_size out : out <> [] -> wrote out = Size (llen out).
Proof. intros H. unfold wrote. by rewrite bool_decide_eq_false_2. Qed.

Lemma llen_pos {A} (l : list A) : l <> [] -> llen l <> 0.
Proof. destruct l; [done|]. intros _. rewrite llen_cons. pose proof (llen_nonneg l). lia. Qed.

Section posts.
Context {A : Type} (ok failed : A -> Prop).

Lemma post_nothing acc (s : A) b : WriteBuf.holds acc b -> ok s -> step_post ok failed acc (inr Nothing) (s, b).
Proof. intros Hb Hs. exists []. rewrite app_nil_r. done. Qed.

Lemma post_error acc e (s : A) b : WriteBuf.holds acc b -> failed s -> step_post ok failed acc (inl e) (s, b).
Proof. intros Hb Hs. exists []. by rewrite app_nil_r. Qed.

Lemma post_wrote acc out (s : A) b :
  WriteBuf.holds (acc ++ out) b -> out <> [] -> ok s -> step_post ok failed acc (inr (Size (llen out))) (s, b).
Proof. intros Hb Hne Hs. exists out. rewrite wrote_size by done. done. Qed.

(** [decode(input)?] that must not panic *)
Lemma wpm_decode_input {T} {D : Decode T} {B} input (k : T -> StepM A B) Q s :
  decode T input <> Panic ->
  (forall e, decode T input = Err e -> Q (inl (CDecode e)) s) ->
  (forall a, decode T input = Ok a -> wpm (k a) Q s) ->
  wpm (decode_input T input ≫= k) Q s.
Proof.
  intros Hp He Hk. unfold decode_input. apply wpm_bind. unfold wpm at 1, question.
  destruct (decode T input) as [a|e|]; [by apply Hk|by apply He|done].
Qed.

End posts.
