(* ===== verification/ChannelConnection.v ===== *)
(** The MCS channel connection of the server
    (src/crates/ironrdp-acceptor/src/channel_connection.rs): the client erects
    the domain, attaches its user and joins the channels it was given.

    A [HashSet<u16>] is a finite set. *)

From S2P Require Import Prelude Cursor Codec Flags Mutation WriteBuf Mcs McsCodec Framed Sequence.

Module ChannelConnectionState.
Inductive t :=
| Consumed
| WaitErectDomainRequest
| WaitAttachUserRequest
| SendAttachUserConfirm
| WaitChannelJoinRequest (remaining joined : gset Z)
| SendChannelJoinConfirm (remaining : gset Z) (channel_id : Z) (joined : gset Z)
| AllJoined.
Definition is_terminal (s : t) : bool := match s with AllJoined => true | _ => false end.
End ChannelConnectionState.

Record ChannelConnectionSequence := mkChannelConnection {
  cc_state : ChannelConnectionState.t;
  cc_user_channel_id : Z;
  cc_channel_ids : option (gset Z);
}.

Definition RT_NO_SUCH_CHANNEL : Z := 3.

Definition cc_is_done (s : ChannelConnectionSequence) : bool := ChannelConnectionState.is_terminal (cc_state s).

Definition cc_set_state (st : ChannelConnectionState.t) (s : ChannelConnectionSequence) : ChannelConnectionSequence :=
  mkChannelConnection st (cc_user_channel_id s) (cc_channel_ids s).

Section join.
Import ChannelConnectionState.

(** [ChannelConnectionSequence::new] *)
Definition cc_new (user_channel_id io_channel_id : Z) (other_channels : list Z) : ChannelConnectionSequence :=
  mkChannelConnection WaitErectDomainRequest user_channel_id
    (Some (list_to_set ([user_channel_id; io_channel_id] ++ other_channels))).
Definition cc_skip_channel_join (user_channel_id : Z) : ChannelConnectionSequence :=
  mkChannelConnection WaitErectDomainRequest user_channel_id None.

Definition cc_next_pdu_hint (s : ChannelConnectionSequence) : option PduHint :=
  match cc_state s with
  | Consumed => None
  | WaitErectDomainRequest => Some X224Hint
  | WaitAttachUserRequest => Some X224Hint
  | SendAttachUserConfirm => None
  | WaitChannelJoinRequest _ _ => Some X224Hint
  | SendChannelJoinConfirm _ _ _ => None
  | AllJoined => None
  end.

Abbreviation CC := (StepM ChannelConnectionSequence).

(** [self.state = next_state; Ok(written)] *)
Definition cc_next (next_state : ChannelConnectionState.t) (written : Written) : CC Written :=
  _ ← modify_self (cc_set_state next_state); mret written.

(** [match core::mem::take(&mut self.state) { .. }] *)
Definition cc_step (input : list Z) (received_at : option Z) : CC Written :=
  self ← get_self;
  _ ← modify_self (cc_set_state Consumed);
  match cc_state self with
  | WaitErectDomainRequest =>
      _ ← decode_input (X224 ErectDomainPdu) input;
      cc_next WaitAttachUserRequest Nothing
  | WaitAttachUserRequest =>
      _ ← decode_input (X224 AttachUserRequest) input;
      cc_next SendAttachUserConfirm Nothing
  | SendAttachUserConfirm =>
      let attach_user_confirm := mkAttachUserConfirm 0 (cc_user_channel_id self) in
      written ← emit (mkX224 attach_user_confirm);
      _ ← modify_self (fun s => mkChannelConnection (cc_state s) (cc_user_channel_id s) None);
      let next_state :=
        match cc_channel_ids self with
        | Some channel_ids => WaitChannelJoinRequest channel_ids ∅
        | None => AllJoined
        end in
      written ← written_size written;
      cc_next next_state written
  | WaitChannelJoinRequest remaining joined =>
      channel_request ← decode_input (X224 ChannelJoinRequest) input;
      let channel_id := cjr_channel_id (x224 channel_request) in
      if bool_decide (channel_id ∈ joined) then
        cc_next (WaitChannelJoinRequest remaining joined) Nothing
      else
        let is_expected := bool_decide (channel_id ∈ remaining) in
        let remaining := remaining ∖ {[channel_id]} in
        if negb is_expected then
          let reject := mkChannelJoinConfirm RT_NO_SUCH_CHANNEL (cc_user_channel_id self) channel_id channel_id in
          written ← emit (mkX224 reject);
          _ ← modify_self (cc_set_state (WaitChannelJoinRequest remaining joined));
          written_size written
        else cc_next (SendChannelJoinConfirm remaining channel_id joined) Nothing
  | SendChannelJoinConfirm remaining channel_id joined =>
      let channel_confirm := mkChannelJoinConfirm 0 (cc_user_channel_id self) channel_id channel_id in
      written ← emit (mkX224 channel_confirm);
      let joined := {[channel_id]} ∪ joined in
      let next_state :=
        if bool_decide (remaining = ∅) then AllJoined else WaitChannelJoinRequest remaining joined in
      written ← written_size written;
      cc_next next_state written
  | Consumed | AllJoined => boom
  end.

#[export] Instance ChannelConnection_Sequence : Sequence ChannelConnectionSequence :=
  {| next_pdu_hint := cc_next_pdu_hint; step := cc_step |}.

(** Looks at the state of a known sequence. *)
Ltac cc_simp :=
  cbn [fst snd next_pdu_hint step ChannelConnection_Sequence cc_next_pdu_hint cc_state cc_user_channel_id
    cc_channel_ids cc_is_done ChannelConnectionState.is_terminal cc_set_state x224 negb].

(** ** The invariant *)

(** The channels left and the channels joined make up the channels the client
    was given. *)
Definition cc_ok (s : ChannelConnectionSequence) : Prop :=
  is_user_id (cc_user_channel_id s) /\
  match cc_state s with
  | WaitErectDomainRequest | WaitAttachUserRequest | SendAttachUserConfirm =>
      forall ids, cc_channel_ids s = Some ids -> ids <> ∅
  | WaitChannelJoinRequest remaining joined => remaining <> ∅ /\ remaining ## joined
  | SendChannelJoinConfirm remaining channel_id joined =>
      is_u16 channel_id /\ remaining ## joined /\ channel_id ∉ remaining /\ channel_id ∉ joined
  | AllJoined => True
  | Consumed => False
  end.

Definition cc_failed (s : ChannelConnectionSequence) : Prop := cc_state s = Consumed.

(** A step that has something to do on a well-formed state, whatever the
    client sent. *)
Lemma cc_step_spec input at_ acc s b :
  cc_ok s -> cc_is_done s = false -> bytes_ok input -> WriteBuf.holds acc b ->
  wpm (cc_step input at_) (step_post cc_ok cc_failed acc) (s, b).
Proof.
  intros [Hu Hs] Hd Hi Hb. unfold cc_step. apply wpm_access. apply wpm_update. cbn [fst].
  destruct s as [st user ids]. unfold cc_is_done in Hd. cbn [cc_state cc_user_channel_id cc_channel_ids] in *.
  destruct st as [| | | |remaining joined|remaining channel_id joined|]; [done|..|done].
  - apply wpm_decode_input; [by apply decode_no_panic|by intros; apply post_error|].
    intros a _. by apply post_nothing.
  - apply wpm_decode_input; [by apply decode_no_panic|by intros; apply post_error|].
    intros a _. by apply post_nothing.
  - apply wpm_bind. eapply wpm_emit_pdu; [apply writes_wire; split; [done|done]|done|]. intros b' Hb'.
    apply wpm_update. apply wpm_bind, wpm_written_size; [done|]. apply post_wrote; [done..|]. split; [done|].
    cbn. destruct ids as [ids|]; cbn; [|done]. split; [by apply Hs|apply disjoint_empty_r].
  - apply wpm_decode_input; [by apply decode_no_panic|by intros; apply post_error|].
    intros [req] Hreq. apply decode_wf in Hreq; [|done]. destruct Hreq as [_ Hid]. cbn [x224] in *.
    destruct Hs as [Hne Hdis].
    case_bool_decide as Hj; [by apply post_nothing|]. case_bool_decide as Hr; cbn [negb].
    + apply post_nothing; [done|]. split; [done|]. cbn. split_and!; [done|set_solver..].
    + apply wpm_bind. eapply wpm_emit_pdu; [apply writes_wire; by split_and!|done|]. intros b' Hb'.
      apply wpm_update. apply wpm_written_size; [done|]. apply post_wrote; [done..|]. split; [done|]. cbn. set_solver.
  - destruct Hs as (Hid & Hdis & Hr & Hj).
    apply wpm_bind. eapply wpm_emit_pdu; [apply writes_wire; by split_and!|done|]. intros b' Hb'.
    apply wpm_bind, wpm_written_size; [done|]. apply post_wrote; [done..|]. split; [done|]. cbn.
    case_bool_decide; [done|]. cbn. set_solver.
Qed.

(** ** What the client is answered *)

(** The specification: a request for one of the channels [C] is confirmed the
    first time and ignored afterwards, and any other request is refused, until
    every channel of [C] has been asked for. *)
Definition join_answer (user : Z) (C earlier : gset Z) (id : Z) : list ChannelJoinConfirm :=
  if bool_decide (id ∈ C) then
    if bool_decide (id ∈ earlier) then [] else [mkChannelJoinConfirm 0 user id id]
  else [mkChannelJoinConfirm RT_NO_SUCH_CHANNEL user id id].
Fixpoint join_answers (user : Z) (C earlier : gset Z) (ids : list Z) : list ChannelJoinConfirm :=
  match ids with
  | [] => []
  | id :: ids' =>
      join_answer user C earlier id ++
      (if bool_decide (C ⊆ {[id]} ∪ earlier) then [] else join_answers user C ({[id]} ∪ earlier) ids')
  end.

(** The channels that are confirmed as joined. *)
Definition confirmed (answers : list ChannelJoinConfirm) : list Z :=
  omap (fun c => if cjc_result c =? 0 then Some (cjc_channel_id c) else None) answers.

Lemma confirmed_answer user C earlier id :
  confirmed (join_answer user C earlier id) = if bool_decide (id ∈ C ∖ earlier) then [id] else [].
Proof.
  unfold join_answer. destruct (decide (id ∈ C)); [destruct (decide (id ∈ earlier))|].
  - rewrite !bool_decide_eq_true_2, bool_decide_eq_false_2 by set_solver. done.
  - rewrite bool_decide_eq_true_2, bool_decide_eq_false_2, bool_decide_eq_true_2 by set_solver. done.
  - rewrite !bool_decide_eq_false_2 by set_solver. done.
Qed.

Lemma set_grow (C I e : gset Z) id :
  list_to_set (if bool_decide (id ∈ C ∖ e) then [id] else []) ∪ (C ∩ I) ∖ ({[id]} ∪ e) = (C ∩ ({[id]} ∪ I)) ∖ e.
Proof.
  apply set_eq. intros x. case_bool_decide; cbn [list_to_set]; destruct (decide (x = id)) as [->|]; set_solver.
Qed.

(** Every channel asked for is confirmed, and none is confirmed twice. *)
Lemma join_answers_once user C earlier ids :
  NoDup (confirmed (join_answers user C earlier ids)) /\
  list_to_set (confirmed (join_answers user C earlier ids)) = (C ∩ list_to_set ids) ∖ earlier.
Proof.
  revert earlier. induction ids as [|id ids IH]; intros earlier; cbn [join_answers].
  { split; [constructor|set_solver]. }
  unfold confirmed. rewrite omap_app. fold (confirmed (join_answer user C earlier id)). rewrite confirmed_answer.
  destruct (decide (C ⊆ {[id]} ∪ earlier)) as [Hall|Hall].
  - rewrite (bool_decide_eq_true_2 (C ⊆ _)) by done. change (omap _ []) with (@nil Z). rewrite app_nil_r. case_bool_decide; split; [apply NoDup_singleton|set_solver|constructor|set_solver].
  - rewrite (bool_decide_eq_false_2 (C ⊆ _)) by done. destruct (IH ({[id]} ∪ earlier)) as [Hnd Hset]. unfold confirmed in Hnd, Hset.
    assert (Hni : id ∉ omap (fun c => if cjc_result c =? 0 then Some (cjc_channel_id c) else None)
      (join_answers user C ({[id]} ∪ earlier) ids)).
    { intros Hi. rewrite <- (elem_of_list_to_set (C := gset Z)), Hset in Hi. set_solver. }
    rewrite list_to_set_app_L, Hset. cbn [list_to_set]. clear Hset.
    split; [|apply set_grow]. case_bool_decide; [by apply NoDup_cons|done].
Qed.

Definition confirm_wire (c : ChannelJoinConfirm) : list Z := wire (mkX224 c).
Definition join_pdu (r : ChannelJoinRequest) : list Z := wire (mkX224 r).
Definition join_request_wf (r : ChannelJoinRequest) : Prop := is_user_id (cjr_initiator_id r) /\ is_u16 (cjr_channel_id r).

(** Where the sequence stands once the requests [asked] have been answered. *)
Definition join_state (C asked : gset Z) : t :=
  if bool_decide (C ⊆ asked) then AllJoined else WaitChannelJoinRequest (C ∖ asked) (C ∩ asked).

Lemma join_state_done C asked : C ⊆ asked -> join_state C asked = AllJoined.
Proof. intros H. unfold join_state. by rewrite bool_decide_eq_true_2. Qed.
Lemma join_state_waits C asked : ~ C ⊆ asked -> join_state C asked = WaitChannelJoinRequest (C ∖ asked) (C ∩ asked).
Proof. intros H. unfold join_state. by rewrite bool_decide_eq_false_2. Qed.

Definition join_run_post (acc : list Z) (user : Z) (C earlier : gset Z) (ids : list Z)
    (r : ConnectorError + list (list Z)) (sb : ChannelConnectionSequence * WriteBuf.t) : Prop :=
  is_Some (match r with inr l => Some l | inl _ => None end) /\
  WriteBuf.holds (acc ++ (join_answers user C earlier ids ≫= confirm_wire)) sb.2 /\
  cc_state sb.1 = join_state C (list_to_set ids ∪ earlier).

Lemma decode_join r : join_request_wf r -> decode (X224 ChannelJoinRequest) (join_pdu r) = Ok (mkX224 r).
Proof. intros H. exact (decode_wire (mkX224 r) H). Qed.

Section run.
Context (user : Z) (C : gset Z) (Hu : is_user_id user).

(** A first request for a channel of [C]: two steps. *)
Lemma join_expected fuel earlier r rest acc b ids Q :
  join_request_wf r -> cjr_channel_id r ∈ C -> cjr_channel_id r ∉ earlier -> WriteBuf.holds acc b ->
  (forall b', WriteBuf.holds (acc ++ confirm_wire (mkChannelJoinConfirm 0 user (cjr_channel_id r) (cjr_channel_id r))) b' ->
    wpm (run_sequence cc_is_done fuel rest) Q
      (mkChannelConnection (join_state C ({[cjr_channel_id r]} ∪ earlier)) user ids, b')) ->
  wpm (run_sequence cc_is_done (S (S fuel)) (join_pdu r :: rest)) Q
    (mkChannelConnection (WaitChannelJoinRequest (C ∖ earlier) (C ∩ earlier)) user ids, b).
Proof.
  intros Hr HC He Hb HQ. cbn [run_sequence]. apply wpm_access. cc_simp. apply wpm_bind. unfold cc_step at 1.
  apply wpm_access, wpm_update. cbn [fst cc_state]. unfold decode_input. rewrite decode_join by done.
  apply wpm_bind. apply wpm_ret. cbn [x224]. rewrite bool_decide_eq_false_2 by set_solver.
  rewrite bool_decide_eq_true_2 by set_solver. cbn [negb]. apply wpm_update, wpm_ret. apply wpm_access. cc_simp.
  apply wpm_bind. unfold step_no_input. cbn [step ChannelConnection_Sequence]. unfold cc_step at 1.
  apply wpm_access, wpm_update. cbn [fst cc_state]. apply wpm_bind.
  eapply wpm_emit_pdu; [apply writes_wire; destruct Hr; by split_and!|done|]. intros b' Hb'.
  apply wpm_bind, wpm_written_size; [done|]. apply wpm_update, wpm_ret. cbn.
  specialize (HQ b' Hb'). unfold join_state in HQ.
  replace (C ∖ earlier ∖ {[cjr_channel_id r]}) with (C ∖ ({[cjr_channel_id r]} ∪ earlier)) by set_solver.
  replace ({[cjr_channel_id r]} ∪ C ∩ earlier) with (C ∩ ({[cjr_channel_id r]} ∪ earlier)) by set_solver.
  replace (bool_decide (C ∖ ({[cjr_channel_id r]} ∪ earlier) = ∅)) with (bool_decide (C ⊆ {[cjr_channel_id r]} ∪ earlier)).
  { by case_bool_decide. }
  apply bool_decide_ext. split; [apply subseteq_empty_difference_L|apply empty_difference_subseteq_L].
Qed.

(** A repeated request, and one for a channel that does not exist: one step. *)
Lemma join_other fuel earlier r rest acc b ids Q :
  join_request_wf r -> ~ C ⊆ earlier -> (cjr_channel_id r ∈ C -> cjr_channel_id r ∈ earlier) -> WriteBuf.holds acc b ->
  (forall b', WriteBuf.holds (acc ++ (join_answer user C earlier (cjr_channel_id r) ≫= confirm_wire)) b' ->
    wpm (run_sequence cc_is_done fuel rest) Q
      (mkChannelConnection (join_state C ({[cjr_channel_id r]} ∪ earlier)) user ids, b')) ->
  wpm (run_sequence cc_is_done (S fuel) (join_pdu r :: rest)) Q
    (mkChannelConnection (WaitChannelJoinRequest (C ∖ earlier) (C ∩ earlier)) user ids, b).
Proof.
  intros Hr Hn HC Hb HQ. cbn [run_sequence]. apply wpm_access. cc_simp. apply wpm_bind. unfold cc_step at 1.
  apply wpm_access, wpm_update. cbn [fst cc_state]. unfold decode_input. rewrite decode_join by done.
  apply wpm_bind. apply wpm_ret. cbn [x224].
  assert (Hst : join_state C ({[cjr_channel_id r]} ∪ earlier) = WaitChannelJoinRequest (C ∖ earlier) (C ∩ earlier)).
  { unfold join_state. rewrite bool_decide_eq_false_2 by set_solver. f_equal; set_solver. }
  rewrite Hst in HQ. unfold join_answer in HQ. destruct (decide (cjr_channel_id r ∈ C)) as [Hin|Hin].
  - specialize (HC Hin). rewrite !bool_decide_eq_true_2 in HQ by done. rewrite bool_decide_eq_true_2 by set_solver.
    apply wpm_update, wpm_ret. apply HQ. by rewrite app_nil_r.
  - rewrite bool_decide_eq_false_2 in HQ by done. rewrite !bool_decide_eq_false_2 by set_solver. cbn [negb].
    apply wpm_bind. eapply wpm_emit_pdu; [apply writes_wire; destruct Hr; by split_and!|done|]. intros b' Hb'.
    apply wpm_update, wpm_written_size; [done|].
    replace (C ∖ earlier ∖ {[cjr_channel_id r]}) with (C ∖ earlier) by set_solver. apply HQ. rewrite bind_singleton. exact Hb'.
Qed.

Lemma join_run reqs earlier fuel acc b ids :
  Forall join_request_wf reqs -> ~ C ⊆ earlier -> WriteBuf.holds acc b -> (2 * length reqs < fuel)%nat ->
  wpm (run_sequence cc_is_done fuel (join_pdu <$> reqs)) (join_run_post acc user C earlier (cjr_channel_id <$> reqs))
    (mkChannelConnection (WaitChannelJoinRequest (C ∖ earlier) (C ∩ earlier)) user ids, b).
Proof.
  revert earlier fuel acc b. induction reqs as [|r reqs IH]; intros earlier fuel acc b Hw Hn Hb Hf; cbn [length] in Hf.
  { destruct fuel; [lia|]. cbn. apply wpm_access. cbn. apply wpm_ret. split; [done|]. cbn. rewrite app_nil_r.
    split; [done|]. unfold join_state. rewrite bool_decide_eq_false_2 by set_solver. f_equal; set_solver. }
  apply Forall_cons in Hw as [Hr Hw]. rewrite !fmap_cons. unfold join_run_post.
  (* After the request the sequence is done, or the induction goes on. *)
  assert (Hgo : forall f b', (2 * length reqs < f)%nat ->
    WriteBuf.holds (acc ++ (join_answer user C earlier (cjr_channel_id r) ≫= confirm_wire)) b' ->
    wpm (run_sequence cc_is_done f (join_pdu <$> reqs))
      (join_run_post acc user C earlier (cjr_channel_id r :: (cjr_channel_id <$> reqs)))
      (mkChannelConnection (join_state C ({[cjr_channel_id r]} ∪ earlier)) user ids, b')).
  { intros f b' Hf' Hb'. unfold join_run_post. cbn [join_answers].
    destruct (decide (C ⊆ {[cjr_channel_id r]} ∪ earlier)) as [Hall|Hall].
    - rewrite (join_state_done C ({[cjr_channel_id r]} ∪ earlier)) by done. destruct f; [lia|]. cbn [run_sequence]. apply wpm_access. cc_simp. apply wpm_ret.
      rewrite (bool_decide_eq_true_2 (C ⊆ _)), app_nil_r by done. split; [done|]. split; [done|]. cbn [fst cc_state].
      rewrite join_state_done by set_solver. done.
    - rewrite (join_state_waits C ({[cjr_channel_id r]} ∪ earlier)) by done. eapply wpm_mono; [apply IH; [done|done|exact Hb'|done]|].
      intros r' [s' b''] (H1 & H2 & H3). rewrite (bool_decide_eq_false_2 (C ⊆ _)) by done. split; [done|].
      rewrite bind_app, app_assoc. split; [done|]. rewrite H3. cbn [list_to_set]. f_equal. set_solver. }
  destruct (decide (cjr_channel_id r ∈ C /\ cjr_channel_id r ∉ earlier)) as [[HC He]|Ho].
  - destruct fuel as [|[|fuel]]; [lia..|]. eapply join_expected; [done..|]. intros b' Hb'. apply Hgo; [lia|].
    unfold join_answer. rewrite bool_decide_eq_true_2, bool_decide_eq_false_2 by done. rewrite bind_singleton. exact Hb'.
  - destruct fuel as [|fuel]; [lia|]. eapply join_other; [done|done|set_solver|done|]. intros b' Hb'. apply Hgo; [lia|done].
Qed.

End run.

(** C14: the server's side of the channel connection does what MS-RDPBCGR
    3.3.5.3 asks of it, for every client that speaks MCS: after the domain and
    the user it confirms each channel it announced exactly once and in the
    order asked for, ignores a request for a channel that is already joined,
    refuses one for a channel it never announced, goes on to the next phase as
    soon as the last announced channel is joined, and otherwise keeps waiting
    for exactly the channels still missing. *)
Theorem channel_join_refines (user io : Z) (others : list Z) (e : ErectDomainPdu) (reqs : list ChannelJoinRequest) :
  is_user_id user -> is_u32 (sub_height e) -> is_u32 (sub_interval e) -> Forall join_request_wf reqs ->
  let C := list_to_set ([user; io] ++ others) in
  let inputs := wire (mkX224 e) :: wire (mkX224 mkAttachUserRequest) :: (join_pdu <$> reqs) in
  exists left s b,
    run_sequence cc_is_done (2 * length inputs) inputs (cc_new user io others, WriteBuf.new) = Some (inr left, (s, b)) /\
    WriteBuf.filled (E := Empty_set) b =
      Ok (wire (mkX224 (mkAttachUserConfirm 0 user)) ++
          (join_answers user C ∅ (cjr_channel_id <$> reqs) ≫= confirm_wire)) /\
    NoDup (confirmed (join_answers user C ∅ (cjr_channel_id <$> reqs))) /\
    list_to_set (confirmed (join_answers user C ∅ (cjr_channel_id <$> reqs))) =@{gset Z}
      C ∩ list_to_set (cjr_channel_id <$> reqs) /\
    cc_state s = join_state C (list_to_set (cjr_channel_id <$> reqs)).
Proof.
  intros Hu H1 H2 Hw C inputs.
  assert (Hrun : wpm (run_sequence cc_is_done (2 * length inputs) inputs)
    (join_run_post (wire (mkX224 (mkAttachUserConfirm 0 user))) user C ∅ (cjr_channel_id <$> reqs))
    (cc_new user io others, WriteBuf.new)).
  { unfold inputs. cbn [length]. rewrite length_fmap. assert (exists m, 2 * S (S (length reqs)) = S (S (S m)) /\ 2 * length reqs < m)%nat as (m & -> & Hm)
      by (exists (S (2 * length reqs)); lia).
    cbn [run_sequence]. apply wpm_access. cc_simp. apply wpm_bind. unfold cc_step at 1. apply wpm_access, wpm_update. cbn [fst cc_state cc_new].
    unfold decode_input at 1. rewrite (decode_wire (mkX224 e)) by done. apply wpm_bind, wpm_ret. apply wpm_update, wpm_ret.
    apply wpm_access. cc_simp. apply wpm_bind. unfold cc_step at 1. apply wpm_access, wpm_update. cc_simp.
    unfold decode_input at 1. rewrite (decode_wire (mkX224 mkAttachUserRequest)) by done. apply wpm_bind, wpm_ret. apply wpm_update, wpm_ret.
    apply wpm_access. cc_simp. apply wpm_bind. unfold step_no_input. cbn [step ChannelConnection_Sequence]. unfold cc_step at 1.
    apply wpm_access, wpm_update. cc_simp. apply wpm_bind.
    eapply wpm_emit_pdu; [apply writes_wire; by split|apply WriteBuf.holds_new|]. intros b' Hb'. cbn [app] in Hb'.
    apply wpm_update, wpm_bind, wpm_written_size; [done|]. apply wpm_update, wpm_ret.
    unfold cc_new, cc_set_state in *. cc_simp. cbn [cc_user_channel_id] in Hb'.
    replace (WaitChannelJoinRequest _ _) with (WaitChannelJoinRequest (C ∖ ∅) (C ∩ ∅)) by (f_equal; unfold C; set_solver).
    apply join_run; [done|done|unfold C; set_solver|done|lia]. }
  apply wpm_run in Hrun as ([err|left] & [s b] & Hr & [Hx ?] & Hb & Hst); [done|].
  exists left, s, b. split; [done|]. split; [by apply WriteBuf.holds_filled|].
  destruct (join_answers_once user C ∅ (cjr_channel_id <$> reqs)) as [Hnd Hset].
  split; [done|]. split; [rewrite Hset; set_solver|]. cbn in Hst. rewrite Hst. f_equal. set_solver.
Qed.

(** A client that asks for an unknown channel, repeats itself and asks for the
    channels out of order. *)
Lemma channel_join_refines_witness :
  exists left s b,
    run_sequence cc_is_done 14
      (wire (mkX224 (mkErectDomain 0 0)) :: wire (mkX224 mkAttachUserRequest) ::
        (join_pdu <$> (mkChannelJoinRequest 1007 <$> [1003; 2000; 1003; 1004; 1002])))
      (cc_new 1002 1003 [1004], WriteBuf.new) = Some (inr left, (s, b)) /\
    cc_state s = AllJoined.
Proof.
  destruct (channel_join_refines 1002 1003 [1004] (mkErectDomain 0 0) (mkChannelJoinRequest 1007 <$> [1003; 2000; 1003; 1004; 1002]))
    as (left & s & b & Hr & _ & _ & _ & Hs); [done..| |].
  - by repeat (apply Forall_cons; split).
  - exists left, s, b. split; [exact Hr|]. rewrite Hs. apply join_state_done. compute_done.
Defined.

End join.
