(* ===== verification/AutoDetect.v ===== *)
(** Network auto-detection messages on the MCS message channel
    (src/crates/ironrdp-pdu/src/rdp/autodetect.rs) and the Basic Security
    Header in front of them (src/crates/ironrdp-pdu/src/rdp/headers.rs). *)

From S2P Require Import Prelude Cursor Codec Flags WriteBuf Mcs McsCodec.

(** ** The Basic Security Header *)

Module BasicSecurityHeaderFlags.
Definition EXCHANGE_PKT : Z := 0x0001.
Definition TRANSPORT_REQ : Z := 0x0002.
Definition TRANSPORT_RSP : Z := 0x0004.
Definition ENCRYPT : Z := 0x0008.
Definition RESET_SEQNO : Z := 0x0010.
Definition IGNORE_SEQNO : Z := 0x0020.
Definition INFO_PKT : Z := 0x0040.
Definition LICENSE_PKT : Z := 0x0080.
Definition LICENSE_ENCRYPT_CS : Z := 0x0100.
Definition LICENSE_ENCRYPT_SC : Z := 0x0200.
Definition REDIRECTION_PKT : Z := 0x0400.
Definition SECURE_CHECKSUM : Z := 0x0800.
Definition AUTODETECT_REQ : Z := 0x1000.
Definition AUTODETECT_RSP : Z := 0x2000.
Definition HEARTBEAT : Z := 0x4000.
Definition FLAGSHI_VALID : Z := 0x8000.
(** Every bit of the field is a known one. *)
Definition all : Z := 0xFFFF.
End BasicSecurityHeaderFlags.

Definition BASIC_SECURITY_HEADER_SIZE : Z := 4.

Record BasicSecurityHeader := mkSecurityHeader { security_flags : Z }.
#[export] Instance BasicSecurityHeader_eq_dec : EqDecision BasicSecurityHeader.
Proof. solve_decision. Defined.

Definition BasicSecurityHeader_encode (h : BasicSecurityHeader) : Encoder unit :=
  _ ← WriteCursor.ensure_size BASIC_SECURITY_HEADER_SIZE;
  _ ← WriteCursor.write_u16 (security_flags h);
  WriteCursor.write_u16 0.
#[export] Instance BasicSecurityHeader_Encode : Encode BasicSecurityHeader :=
  {| encode_into := BasicSecurityHeader_encode; size _ := BASIC_SECURITY_HEADER_SIZE |}.

Definition BasicSecurityHeader_decode `{Bitflags} : Decoder BasicSecurityHeader :=
  _ ← ReadCursor.ensure_size BASIC_SECURITY_HEADER_SIZE;
  flags ← ReadCursor.read_u16;
  _ ← ReadCursor.read_u16;
  mret (mkSecurityHeader (from_bits_truncate BasicSecurityHeaderFlags.all flags)).

(** ** Requests of the server *)

Definition TYPE_ID_AUTODETECT_REQUEST : Z := 0x00.
Definition TYPE_ID_AUTODETECT_RESPONSE : Z := 0x01.
Definition HEADER_MIN_SIZE : Z := 6.

Definition RTT_REQUEST_CONNECT_TIME : Z := 0x1001.
Definition RTT_REQUEST_CONTINUOUS : Z := 0x0001.
Definition BW_START_CONNECT_TIME : Z := 0x1014.
Definition BW_START_RELIABLE_UDP : Z := 0x0014.
Definition BW_START_LOSSY_UDP : Z := 0x0114.
Definition BW_PAYLOAD : Z := 0x0002.
Definition BW_STOP_CONNECT_TIME : Z := 0x002B.
Definition BW_STOP_RELIABLE_UDP : Z := 0x0429.
Definition BW_STOP_LOSSY_UDP : Z := 0x0629.
Definition NETCHAR_RESULT_RTT : Z := 0x0840.
Definition NETCHAR_RESULT_BW_RTT : Z := 0x0880.
Definition NETCHAR_RESULT_ALL : Z := 0x08C0.
Definition RTT_RESPONSE : Z := 0x0000.
Definition BW_RESULTS_CONNECT_TIME : Z := 0x0003.
Definition BW_RESULTS_CONTINUOUS : Z := 0x000B.
Definition NETCHAR_SYNC : Z := 0x0018.

Definition netchar_fields (request_type : Z) : bool * bool :=
  if request_type =? NETCHAR_RESULT_RTT then (true, false)
  else if request_type =? NETCHAR_RESULT_BW_RTT then (false, true)
  else if request_type =? NETCHAR_RESULT_ALL then (true, true)
  else (false, false).

Inductive AutoDetectRequest :=
| RttRequest (sequence_number request_type : Z)
| BandwidthMeasureStart (sequence_number request_type : Z)
| BandwidthMeasurePayload (sequence_number : Z) (payload : list Z)
| BandwidthMeasureStop (sequence_number request_type : Z) (payload : option (list Z))
| NetworkCharacteristicsResult (sequence_number request_type : Z) (base_rtt_ms bandwidth_kbps : option Z)
    (average_rtt_ms : Z).
#[export] Instance AutoDetectRequest_eq_dec : EqDecision AutoDetectRequest.
Proof. solve_decision. Defined.

Definition rtt_connect_time (sequence_number : Z) : AutoDetectRequest :=
  RttRequest sequence_number RTT_REQUEST_CONNECT_TIME.
Definition rtt_continuous (sequence_number : Z) : AutoDetectRequest :=
  RttRequest sequence_number RTT_REQUEST_CONTINUOUS.
Definition bw_start_connect_time (sequence_number : Z) : AutoDetectRequest :=
  BandwidthMeasureStart sequence_number BW_START_CONNECT_TIME.
Definition bw_start_continuous (sequence_number : Z) : AutoDetectRequest :=
  BandwidthMeasureStart sequence_number BW_START_RELIABLE_UDP.
Definition bw_payload (sequence_number : Z) (payload : list Z) : AutoDetectRequest :=
  BandwidthMeasurePayload sequence_number payload.
Definition bw_stop_connect_time (sequence_number : Z) (payload : list Z) : AutoDetectRequest :=
  BandwidthMeasureStop sequence_number BW_STOP_CONNECT_TIME (Some payload).
Definition bw_stop_continuous (sequence_number : Z) : AutoDetectRequest :=
  BandwidthMeasureStop sequence_number BW_STOP_RELIABLE_UDP None.
Definition netchar_result (sequence_number base_rtt_ms bandwidth_kbps average_rtt_ms : Z) : AutoDetectRequest :=
  NetworkCharacteristicsResult sequence_number NETCHAR_RESULT_ALL (Some base_rtt_ms) (Some bandwidth_kbps) average_rtt_ms.

Definition request_sequence_number (r : AutoDetectRequest) : Z :=
  match r with
  | RttRequest n _ | BandwidthMeasureStart n _ | BandwidthMeasurePayload n _ | BandwidthMeasureStop n _ _
  | NetworkCharacteristicsResult n _ _ _ _ => n
  end.

(** [payload.as_deref().unwrap_or(&[])] *)
Definition payload_bytes (payload : option (list Z)) : list Z := default [] payload.

Definition AutoDetectRequest_size (r : AutoDetectRequest) : Z :=
  match r with
  | RttRequest _ _ | BandwidthMeasureStart _ _ => HEADER_MIN_SIZE
  | BandwidthMeasurePayload _ payload => HEADER_MIN_SIZE + 2 + llen payload
  | BandwidthMeasureStop _ request_type payload =>
      if request_type =? BW_STOP_CONNECT_TIME then HEADER_MIN_SIZE + 2 + llen (payload_bytes payload)
      else HEADER_MIN_SIZE
  | NetworkCharacteristicsResult _ request_type _ _ _ =>
      let '(want_base_rtt, want_bandwidth) := netchar_fields request_type in
      HEADER_MIN_SIZE + (if (want_base_rtt : bool) then 4 else 0) + (if (want_bandwidth : bool) then 4 else 0) + 4
  end.

Definition write_header (header_length type_id sequence_number message_type : Z) : Encoder unit :=
  _ ← WriteCursor.write_u8 header_length;
  _ ← WriteCursor.write_u8 type_id;
  _ ← WriteCursor.write_u16 sequence_number;
  WriteCursor.write_u16 message_type.

(** [u16::try_from(n).unwrap_or(u16::MAX)] *)
Definition clamp_u16 (n : Z) : Z := if n <=? 65535 then n else 65535.

(** [dst.write_u32(o.ok_or_else(..)?)] if [wanted] *)
Definition write_wanted (wanted : bool) (field reason : string) (o : option Z) : Encoder unit :=
  if wanted then
    match o with
    | Some v => WriteCursor.write_u32 v
    | None => encode_fail_at (EInvalidField field reason)
    end
  else mret tt.

Definition AutoDetectRequest_encode (r : AutoDetectRequest) : Encoder unit :=
  _ ← WriteCursor.ensure_size (AutoDetectRequest_size r);
  match r with
  | RttRequest sequence_number request_type | BandwidthMeasureStart sequence_number request_type =>
      write_header 0x06 TYPE_ID_AUTODETECT_REQUEST sequence_number request_type
  | BandwidthMeasurePayload sequence_number payload =>
      _ ← write_header 0x08 TYPE_ID_AUTODETECT_REQUEST sequence_number BW_PAYLOAD;
      _ ← WriteCursor.write_u16 (clamp_u16 (llen payload));
      WriteCursor.write_slice payload
  | BandwidthMeasureStop sequence_number request_type payload =>
      if request_type =? BW_STOP_CONNECT_TIME then
        let data := payload_bytes payload in
        if bool_decide (data = []) then
          encode_fail_at (EInvalidField "payload" "connect-time Bandwidth Measure Stop requires a non-empty payload")
        else
          _ ← write_header 0x08 TYPE_ID_AUTODETECT_REQUEST sequence_number request_type;
          _ ← WriteCursor.write_u16 (clamp_u16 (llen data));
          WriteCursor.write_slice data
      else write_header 0x06 TYPE_ID_AUTODETECT_REQUEST sequence_number request_type
  | NetworkCharacteristicsResult sequence_number request_type base_rtt_ms bandwidth_kbps average_rtt_ms =>
      let header_len := if request_type =? NETCHAR_RESULT_ALL then 0x12 else 0x0E in
      _ ← write_header header_len TYPE_ID_AUTODETECT_REQUEST sequence_number request_type;
      let '(want_base_rtt, want_bandwidth) := netchar_fields request_type in
      _ ← write_wanted want_base_rtt "baseRTT" "requestType requires a baseRTT value" base_rtt_ms;
      _ ← write_wanted want_bandwidth "bandwidth" "requestType requires a bandwidth value" bandwidth_kbps;
      WriteCursor.write_u32 average_rtt_ms
  end.
#[export] Instance AutoDetectRequest_Encode : Encode AutoDetectRequest :=
  {| encode_into := AutoDetectRequest_encode; size := AutoDetectRequest_size |}.

(** [payloadLength] and that many bytes *)
Definition read_payload : Decoder (list Z) :=
  _ ← ReadCursor.ensure_size 2;
  payload_length ← ReadCursor.read_u16;
  _ ← ReadCursor.ensure_size payload_length;
  ReadCursor.read_slice (Z.to_nat payload_length).

Definition AutoDetectRequest_decode : Decoder AutoDetectRequest :=
  _ ← ReadCursor.ensure_size HEADER_MIN_SIZE;
  _ ← ReadCursor.read_u8;
  header_type_id ← ReadCursor.read_u8;
  if negb (header_type_id =? TYPE_ID_AUTODETECT_REQUEST) then
    fail_at (DInvalidField "headerTypeId" "expected TYPE_ID_AUTODETECT_REQUEST (0x00)")
  else
    sequence_number ← ReadCursor.read_u16;
    request_type ← ReadCursor.read_u16;
    if (request_type =? RTT_REQUEST_CONNECT_TIME) || (request_type =? RTT_REQUEST_CONTINUOUS) then
      mret (RttRequest sequence_number request_type)
    else if (request_type =? BW_START_CONNECT_TIME) || (request_type =? BW_START_RELIABLE_UDP)
         || (request_type =? BW_START_LOSSY_UDP) then
      mret (BandwidthMeasureStart sequence_number request_type)
    else if request_type =? BW_PAYLOAD then
      payload ← read_payload;
      mret (BandwidthMeasurePayload sequence_number payload)
    else if request_type =? BW_STOP_CONNECT_TIME then
      payload ← read_payload;
      mret (BandwidthMeasureStop sequence_number request_type (Some payload))
    else if (request_type =? BW_STOP_RELIABLE_UDP) || (request_type =? BW_STOP_LOSSY_UDP) then
      mret (BandwidthMeasureStop sequence_number request_type None)
    else if request_type =? NETCHAR_RESULT_RTT then
      _ ← ReadCursor.ensure_size 8;
      base_rtt_ms ← ReadCursor.read_u32;
      average_rtt_ms ← ReadCursor.read_u32;
      mret (NetworkCharacteristicsResult sequence_number request_type (Some base_rtt_ms) None average_rtt_ms)
    else if request_type =? NETCHAR_RESULT_BW_RTT then
      _ ← ReadCursor.ensure_size 8;
      bandwidth_kbps ← ReadCursor.read_u32;
      average_rtt_ms ← ReadCursor.read_u32;
      mret (NetworkCharacteristicsResult sequence_number request_type None (Some bandwidth_kbps) average_rtt_ms)
    else if request_type =? NETCHAR_RESULT_ALL then
      _ ← ReadCursor.ensure_size 12;
      base_rtt_ms ← ReadCursor.read_u32;
      bandwidth_kbps ← ReadCursor.read_u32;
      average_rtt_ms ← ReadCursor.read_u32;
      mret (NetworkCharacteristicsResult sequence_number request_type (Some base_rtt_ms) (Some bandwidth_kbps) average_rtt_ms)
    else fail_at (DInvalidField "requestType" "unknown autodetect request type").
#[export] Instance AutoDetectRequest_Decode : Decode AutoDetectRequest := {| decode_from := AutoDetectRequest_decode |}.

(** ** Responses of the client *)

Inductive AutoDetectResponse :=
| RttResponse (sequence_number : Z)
| BandwidthMeasureResults (sequence_number response_type time_delta_ms byte_count : Z)
| NetworkCharacteristicsSync (sequence_number bandwidth_kbps rtt_ms : Z).
#[export] Instance AutoDetectResponse_eq_dec : EqDecision AutoDetectResponse.
Proof. solve_decision. Defined.

Definition response_sequence_number (r : AutoDetectResponse) : Z :=
  match r with
  | RttResponse n | BandwidthMeasureResults n _ _ _ | NetworkCharacteristicsSync n _ _ => n
  end.

(** [kbps as u32] keeps the low 32 bits. *)
Definition computed_bandwidth_kbps (r : AutoDetectResponse) : option Z :=
  match r with
  | BandwidthMeasureResults _ _ time_delta_ms byte_count =>
      if time_delta_ms =? 0 then None
      else Some ((byte_count * 8 / time_delta_ms) mod 4294967296)
  | _ => None
  end.

Definition AutoDetectResponse_size (r : AutoDetectResponse) : Z :=
  match r with
  | RttResponse _ => HEADER_MIN_SIZE
  | BandwidthMeasureResults _ _ _ _ | NetworkCharacteristicsSync _ _ _ => HEADER_MIN_SIZE + 4 + 4
  end.

Definition AutoDetectResponse_encode (r : AutoDetectResponse) : Encoder unit :=
  _ ← WriteCursor.ensure_size (AutoDetectResponse_size r);
  match r with
  | RttResponse sequence_number => write_header 0x06 TYPE_ID_AUTODETECT_RESPONSE sequence_number RTT_RESPONSE
  | BandwidthMeasureResults sequence_number response_type time_delta_ms byte_count =>
      _ ← write_header 0x0E TYPE_ID_AUTODETECT_RESPONSE sequence_number response_type;
      _ ← WriteCursor.write_u32 time_delta_ms;
      WriteCursor.write_u32 byte_count
  | NetworkCharacteristicsSync sequence_number bandwidth_kbps rtt_ms =>
      _ ← write_header 0x0E TYPE_ID_AUTODETECT_RESPONSE sequence_number NETCHAR_SYNC;
      _ ← WriteCursor.write_u32 bandwidth_kbps;
      WriteCursor.write_u32 rtt_ms
  end.
#[export] Instance AutoDetectResponse_Encode : Encode AutoDetectResponse :=
  {| encode_into := AutoDetectResponse_encode; size := AutoDetectResponse_size |}.

Definition AutoDetectResponse_decode : Decoder AutoDetectResponse :=
  _ ← ReadCursor.ensure_size HEADER_MIN_SIZE;
  _ ← ReadCursor.read_u8;
  header_type_id ← ReadCursor.read_u8;
  if negb (header_type_id =? TYPE_ID_AUTODETECT_RESPONSE) then
    fail_at (DInvalidField "headerTypeId" "expected TYPE_ID_AUTODETECT_RESPONSE (0x01)")
  else
    sequence_number ← ReadCursor.read_u16;
    response_type ← ReadCursor.read_u16;
    if response_type =? RTT_RESPONSE then mret (RttResponse sequence_number)
    else if (response_type =? BW_RESULTS_CONNECT_TIME) || (response_type =? BW_RESULTS_CONTINUOUS) then
      _ ← ReadCursor.ensure_size 8;
      time_delta_ms ← ReadCursor.read_u32;
      byte_count ← ReadCursor.read_u32;
      mret (BandwidthMeasureResults sequence_number response_type time_delta_ms byte_count)
    else if response_type =? NETCHAR_SYNC then
      _ ← ReadCursor.ensure_size 8;
      bandwidth_kbps ← ReadCursor.read_u32;
      rtt_ms ← ReadCursor.read_u32;
      mret (NetworkCharacteristicsSync sequence_number bandwidth_kbps rtt_ms)
    else fail_at (DInvalidField "responseType" "unknown autodetect response type").
#[export] Instance AutoDetectResponse_Decode : Decode AutoDetectResponse := {| decode_from := AutoDetectResponse_decode |}.

(** ** With the security header *)

Record AutoDetectReqPdu := mkReqPdu { req_security_header : BasicSecurityHeader; req_request : AutoDetectRequest }.
Record AutoDetectRspPdu := mkRspPdu { rsp_security_header : BasicSecurityHeader; rsp_response : AutoDetectResponse }.
Definition AutoDetectReqPdu_new (request : AutoDetectRequest) : AutoDetectReqPdu :=
  mkReqPdu (mkSecurityHeader BasicSecurityHeaderFlags.AUTODETECT_REQ) request.
Definition AutoDetectRspPdu_new (response : AutoDetectResponse) : AutoDetectRspPdu :=
  mkRspPdu (mkSecurityHeader BasicSecurityHeaderFlags.AUTODETECT_RSP) response.

Definition AutoDetectReqPdu_encode (p : AutoDetectReqPdu) : Encoder unit :=
  _ ← WriteCursor.ensure_size (BASIC_SECURITY_HEADER_SIZE + AutoDetectRequest_size (req_request p));
  _ ← BasicSecurityHeader_encode (req_security_header p);
  AutoDetectRequest_encode (req_request p).
#[export] Instance AutoDetectReqPdu_Encode : Encode AutoDetectReqPdu :=
  {| encode_into := AutoDetectReqPdu_encode;
     size p := BASIC_SECURITY_HEADER_SIZE + AutoDetectRequest_size (req_request p) |}.
Definition AutoDetectRspPdu_encode (p : AutoDetectRspPdu) : Encoder unit :=
  _ ← WriteCursor.ensure_size (BASIC_SECURITY_HEADER_SIZE + AutoDetectResponse_size (rsp_response p));
  _ ← BasicSecurityHeader_encode (rsp_security_header p);
  AutoDetectResponse_encode (rsp_response p).
#[export] Instance AutoDetectRspPdu_Encode : Encode AutoDetectRspPdu :=
  {| encode_into := AutoDetectRspPdu_encode;
     size p := BASIC_SECURITY_HEADER_SIZE + AutoDetectResponse_size (rsp_response p) |}.

Section decode.
Context {BF : Bitflags}.

Definition AutoDetectReqPdu_decode : Decoder AutoDetectReqPdu :=
  security_header ← BasicSecurityHeader_decode;
  if negb (contains (security_flags security_header) BasicSecurityHeaderFlags.AUTODETECT_REQ) then
    fail_at (DInvalidField "securityHeader" "expected SEC_AUTODETECT_REQ flag")
  else
    request ← AutoDetectRequest_decode;
    mret (mkReqPdu security_header request).
#[export] Instance AutoDetectReqPdu_Decode : Decode AutoDetectReqPdu := {| decode_from := AutoDetectReqPdu_decode |}.
Definition AutoDetectRspPdu_decode : Decoder AutoDetectRspPdu :=
  security_header ← BasicSecurityHeader_decode;
  if negb (contains (security_flags security_header) BasicSecurityHeaderFlags.AUTODETECT_RSP) then
    fail_at (DInvalidField "securityHeader" "expected SEC_AUTODETECT_RSP flag")
  else
    response ← AutoDetectResponse_decode;
    mret (mkRspPdu security_header response).
#[export] Instance AutoDetectRspPdu_Decode : Decode AutoDetectRspPdu := {| decode_from := AutoDetectRspPdu_decode |}.

End decode.

(** ** On the wire *)

Definition ad_header_wire (header_length type_id sequence_number message_type : Z) : list Z :=
  [header_length] ++ [type_id] ++ to_le_bytes 2 sequence_number ++ to_le_bytes 2 message_type.

Lemma encodes_ad_header h t n m : is_u8 h -> is_u8 t -> encodes (write_header h t n m) (ad_header_wire h t n m).
Proof.
  intros. unfold write_header, ad_header_wire. do 2 (apply encodes_bind; [by apply encodes_u8|]).
  apply encodes_bind; apply encodes_u16.
Qed.

Lemma llen_ad_header_wire h t n m : llen (ad_header_wire h t n m) = 6.
Proof. unfold ad_header_wire, llen. rewrite !length_app, !length_to_le_bytes. done. Qed.

Lemma llen_le n x : llen (to_le_bytes n x) = Z.of_nat n.
Proof. unfold llen. by rewrite length_to_le_bytes. Qed.

Definition ad_request_wire (r : AutoDetectRequest) : list Z :=
  match r with
  | RttRequest n t | BandwidthMeasureStart n t => ad_header_wire 0x06 0 n t
  | BandwidthMeasurePayload n payload => ad_header_wire 0x08 0 n BW_PAYLOAD ++ to_le_bytes 2 (llen payload) ++ payload
  | BandwidthMeasureStop n t payload =>
      if t =? BW_STOP_CONNECT_TIME
      then ad_header_wire 0x08 0 n t ++ to_le_bytes 2 (llen (payload_bytes payload)) ++ payload_bytes payload
      else ad_header_wire 0x06 0 n t
  | NetworkCharacteristicsResult n t base bandwidth average =>
      ad_header_wire (if t =? NETCHAR_RESULT_ALL then 0x12 else 0x0E) 0 n t
      ++ from_option (to_le_bytes 4) [] base ++ from_option (to_le_bytes 4) [] bandwidth ++ to_le_bytes 4 average
  end.

(** The optional fields of a result are those its type announces. *)
Definition netchar_ok (t : Z) (base bandwidth : option Z) : Prop :=
  (t = NETCHAR_RESULT_RTT /\ is_some base = true /\ bandwidth = None) \/
  (t = NETCHAR_RESULT_BW_RTT /\ base = None /\ is_some bandwidth = true) \/
  (t = NETCHAR_RESULT_ALL /\ is_some base = true /\ is_some bandwidth = true).

(** What the decoder can produce; [strict] is what the encoder accepts. *)
Definition ad_request_wf (strict : bool) (r : AutoDetectRequest) : Prop :=
  is_u16 (request_sequence_number r) /\
  match r with
  | RttRequest _ t => t = RTT_REQUEST_CONNECT_TIME \/ t = RTT_REQUEST_CONTINUOUS
  | BandwidthMeasureStart _ t =>
      t = BW_START_CONNECT_TIME \/ t = BW_START_RELIABLE_UDP \/ t = BW_START_LOSSY_UDP
  | BandwidthMeasurePayload _ payload => llen payload <= 65535 /\ bytes_ok payload
  | BandwidthMeasureStop _ t payload =>
      (t = BW_STOP_CONNECT_TIME /\ exists data, payload = Some data /\ llen data <= 65535 /\ bytes_ok data /\
        (strict = true -> data <> [])) \/
      ((t = BW_STOP_RELIABLE_UDP \/ t = BW_STOP_LOSSY_UDP) /\ payload = None)
  | NetworkCharacteristicsResult _ t base bandwidth average =>
      netchar_ok t base bandwidth /\ is_u32 average /\
      (forall v, base = Some v -> is_u32 v) /\ (forall v, bandwidth = Some v -> is_u32 v)
  end.

Lemma clamp_small n : n <= 65535 -> clamp_u16 n = n.
Proof. intros H. unfold clamp_u16. by rewrite (proj2 (Z.leb_le _ _)). Qed.

Lemma ad_request_size_wire r : ad_request_wf true r -> AutoDetectRequest_size r = llen (ad_request_wire r).
Proof.
  intros [_ H]. destruct r as [n t|n t|n payload|n t payload|n t base bw avg]; cbn [AutoDetectRequest_size ad_request_wire];
    rewrite ?llen_app, ?llen_ad_header_wire, ?llen_le; [done|done|unfold HEADER_MIN_SIZE; lia|..].
  - destruct (t =? BW_STOP_CONNECT_TIME); [|by rewrite llen_ad_header_wire].
    rewrite !llen_app, llen_ad_header_wire, llen_le. unfold HEADER_MIN_SIZE. lia.
  - destruct H as [[(-> & Hb & ->)|[(-> & -> & Hb)|(-> & Hb & Hw)]] _].
    + destruct base; [|done]. cbn [from_option]. by rewrite llen_le.
    + destruct bw; [|done]. cbn [from_option]. by rewrite llen_le.
    + destruct base; [|done]. destruct bw; [|done]. cbn [from_option]. by rewrite !llen_le.
Qed.

Lemma encodes_ad_request r : ad_request_wf true r -> encodes (AutoDetectRequest_encode r) (ad_request_wire r).
Proof.
  intros Hr. unfold AutoDetectRequest_encode. apply encodes_ensure; [rewrite ad_request_size_wire by done; lia|].
  destruct Hr as [Hn H]. destruct r as [n t|n t|n payload|n t payload|n t base bw avg]; cbn [ad_request_wire].
  - by apply encodes_ad_header.
  - by apply encodes_ad_header.
  - destruct H as [Hl _]. rewrite clamp_small by done. apply encodes_bind; [by apply encodes_ad_header|].
    apply encodes_bind; [apply encodes_u16|apply encodes_write_slice].
  - destruct H as [(-> & data & -> & Hl & _ & Hne)|[Ht ->]].
    + rewrite Z.eqb_refl. cbn [payload_bytes default]. rewrite bool_decide_eq_false_2 by by apply Hne.
      rewrite clamp_small by done. apply encodes_bind; [by apply encodes_ad_header|].
      apply encodes_bind; [apply encodes_u16|apply encodes_write_slice].
    + rewrite (proj2 (Z.eqb_neq t _)) by (unfold BW_STOP_CONNECT_TIME, BW_STOP_RELIABLE_UDP, BW_STOP_LOSSY_UDP in *; lia).
      by apply encodes_ad_header.
  - destruct H as [H _]. apply encodes_bind; [apply encodes_ad_header; [by destruct (_ =? _)|done]|].
    destruct H as [(-> & Hb & ->)|[(-> & -> & Hb)|(-> & Hb & Hw)]].
    + destruct base; [|done]. cbn [write_wanted netchar_fields Z.eqb Pos.eqb from_option NETCHAR_RESULT_RTT NETCHAR_RESULT_BW_RTT NETCHAR_RESULT_ALL].
      apply encodes_bind; [apply encodes_u32|]. apply (encodes_bind _ _ []); [apply encodes_ret|apply encodes_u32].
    + destruct bw; [|done]. cbn [write_wanted netchar_fields Z.eqb Pos.eqb from_option NETCHAR_RESULT_RTT NETCHAR_RESULT_BW_RTT NETCHAR_RESULT_ALL].
      apply (encodes_bind _ _ []); [apply encodes_ret|]. apply encodes_bind; apply encodes_u32.
    + destruct base; [|done]. destruct bw; [|done].
      cbn [write_wanted netchar_fields Z.eqb Pos.eqb from_option NETCHAR_RESULT_RTT NETCHAR_RESULT_BW_RTT NETCHAR_RESULT_ALL].
      do 2 (apply encodes_bind; [apply encodes_u32|]). apply encodes_u32.
Qed.

Lemma decodes_payload data :
  llen data <= 65535 -> decodes read_payload (to_le_bytes 2 (llen data) ++ data) data.
Proof.
  intros Hl. pose proof (llen_nonneg data). unfold read_payload.
  apply decodes_ensure; [rewrite llen_app, llen_le; lia|]. eapply decodes_bind; [apply decodes_u16; width|].
  apply decodes_ensure; [lia|]. unfold llen. rewrite Nat2Z.id. apply decodes_read_slice.
Qed.

Lemma safe_payload : safe 0 read_payload 0 (fun data => llen data <= 65535 /\ bytes_ok data).
Proof.
  unfold read_payload. eapply safe_bind; [apply safe_ensure|]. intros _ _. change (Z.max 0 2) with (0 + 2).
  eapply safe_bind; [apply safe_u16; lia|]. intros n Hn. eapply safe_bind; [apply safe_ensure|]. intros _ _.
  eapply safe_weaken; [apply (safe_read_slice 0 (Z.to_nat n)); lia|width|lia|]. intros bs [Hl Hb]. split; [unfold llen; width|done].
Qed.

Ltac known_types := unfold RTT_REQUEST_CONNECT_TIME, RTT_REQUEST_CONTINUOUS, BW_START_CONNECT_TIME, BW_START_RELIABLE_UDP,
  BW_START_LOSSY_UDP, BW_PAYLOAD, BW_STOP_CONNECT_TIME, BW_STOP_RELIABLE_UDP, BW_STOP_LOSSY_UDP, NETCHAR_RESULT_RTT,
  NETCHAR_RESULT_BW_RTT, NETCHAR_RESULT_ALL, RTT_RESPONSE, BW_RESULTS_CONNECT_TIME, BW_RESULTS_CONTINUOUS, NETCHAR_SYNC in *.

(** Reading the common header leaves the choice of the message. *)
Lemma decodes_request_header h n t rest (k : Z -> Z -> Decoder AutoDetectRequest) r :
  is_u8 h -> is_u16 n -> is_u16 t -> decodes (k n t) rest r ->
  decodes (_ ← ReadCursor.ensure_size HEADER_MIN_SIZE;
    _ ← ReadCursor.read_u8; header_type_id ← ReadCursor.read_u8;
    if negb (header_type_id =? TYPE_ID_AUTODETECT_REQUEST)
    then fail_at (DInvalidField "headerTypeId" "expected TYPE_ID_AUTODETECT_REQUEST (0x00)")
    else sequence_number ← ReadCursor.read_u16; request_type ← ReadCursor.read_u16; k sequence_number request_type)
    (ad_header_wire h 0 n t ++ rest) r.
Proof.
  intros Hh Hn Ht Hk. apply decodes_ensure; [rewrite llen_app, llen_ad_header_wire; unfold HEADER_MIN_SIZE; pose proof (llen_nonneg rest); lia|].
  unfold ad_header_wire. rewrite <- !app_assoc. eapply decodes_bind; [by apply decodes_u8|].
  eapply decodes_bind; [by apply decodes_u8|]. cbn [negb Z.eqb TYPE_ID_AUTODETECT_REQUEST].
  eapply decodes_bind; [by apply decodes_u16|]. eapply decodes_bind; [by apply decodes_u16|]. done.
Qed.

Lemma decodes_ad_request r : ad_request_wf true r -> decodes AutoDetectRequest_decode (ad_request_wire r) r.
Proof.
  intros [Hn H]. unfold AutoDetectRequest_decode.
  destruct r as [n t|n t|n payload|n t payload|n t base bw avg]; cbn [ad_request_wire request_sequence_number] in *.
  - rewrite <- (app_nil_r (ad_header_wire _ _ _ _)). apply decodes_request_header; [done|done|known_types; width|].
    destruct H as [-> | ->]; apply decodes_ret.
  - rewrite <- (app_nil_r (ad_header_wire _ _ _ _)). apply decodes_request_header; [done|done|known_types; width|].
    destruct H as [-> | [-> | ->]]; apply decodes_ret.
  - destruct H as [Hl _]. apply decodes_request_header; [done|done|done|]. cbn [Z.eqb Pos.eqb orb]. known_types. cbn [Z.eqb Pos.eqb orb].
    eapply decodes_last; [by apply decodes_payload|apply decodes_ret].
  - destruct H as [(-> & data & -> & Hl & _ & Hne)|[Ht ->]].
    + rewrite Z.eqb_refl. cbn [payload_bytes default]. apply decodes_request_header; [done|done|done|].
      known_types. cbn [Z.eqb Pos.eqb orb]. eapply decodes_last; [by apply decodes_payload|apply decodes_ret].
    + rewrite (proj2 (Z.eqb_neq t _)) by (known_types; lia). rewrite <- (app_nil_r (ad_header_wire _ _ _ _)).
      apply decodes_request_header; [done|done|known_types; width|]. destruct Ht as [-> | ->]; apply decodes_ret.
  - destruct H as (H & Ha & Hb & Hw). apply decodes_request_header; [by destruct (_ =? _)|done| |].
    { destruct H as [[-> _]|[[-> _]|[-> _]]]; done. }
    destruct H as [(-> & Hb' & ->)|[(-> & -> & Hb')|(-> & Hb' & Hw')]].
    + destruct base as [v|]; [|done]. known_types. cbn [Z.eqb Pos.eqb orb from_option app].
      apply decodes_ensure; [rewrite llen_app, !llen_le; done|]. eapply decodes_bind; [apply decodes_u32; by apply Hb|].
      eapply decodes_last; [by apply decodes_u32|apply decodes_ret].
    + destruct bw as [v|]; [|done]. known_types. cbn [Z.eqb Pos.eqb orb from_option app].
      apply decodes_ensure; [rewrite llen_app, !llen_le; done|]. eapply decodes_bind; [apply decodes_u32; by apply Hw|].
      eapply decodes_last; [by apply decodes_u32|apply decodes_ret].
    + destruct base as [v|]; [|done]. destruct bw as [w|]; [|done]. known_types. cbn [Z.eqb Pos.eqb orb from_option app].
      apply decodes_ensure; [rewrite !llen_app, !llen_le; done|]. eapply decodes_bind; [apply decodes_u32; by apply Hb|].
      eapply decodes_bind; [apply decodes_u32; by apply Hw|].
      eapply decodes_last; [by apply decodes_u32|apply decodes_ret].
Qed.

Lemma safe_ad_request : safe 0 AutoDetectRequest_decode 0 (ad_request_wf false).
Proof.
  unfold AutoDetectRequest_decode. eapply safe_bind; [apply safe_ensure|]. intros _ _.
  change (Z.max 0 HEADER_MIN_SIZE) with (0 + 2 + 2 + 1 + 1).
  eapply safe_bind; [apply safe_u8; lia|]. intros _ _. eapply safe_bind; [apply safe_u8; lia|]. intros tid _. cbv beta.
  destruct (negb _); [done|]. eapply safe_bind; [apply safe_u16; lia|]. intros n Hn.
  eapply safe_bind; [apply safe_u16; lia|]. intros t Ht. cbv beta.
  destruct ((t =? RTT_REQUEST_CONNECT_TIME) || _) eqn:H1; [apply safe_ret; split; [done|lia]|].
  destruct ((t =? BW_START_CONNECT_TIME) || _ || _) eqn:H2; [apply safe_ret; split; [done|lia]|].
  destruct (t =? BW_PAYLOAD); [eapply safe_bind; [apply safe_payload|intros d Hd; by apply safe_ret]|].
  destruct (Z.eqb_spec t BW_STOP_CONNECT_TIME).
  { eapply safe_bind; [apply safe_payload|]. intros d [Hd Hb]. apply safe_ret. split; [done|]. left. split; [done|].
    exists d. by split_and!. }
  destruct ((t =? BW_STOP_RELIABLE_UDP) || _) eqn:H3; [apply safe_ret; split; [done|right; split; [lia|done]]|].
  destruct (Z.eqb_spec t NETCHAR_RESULT_RTT); [|destruct (Z.eqb_spec t NETCHAR_RESULT_BW_RTT);
    [|destruct (Z.eqb_spec t NETCHAR_RESULT_ALL); [|done]]]; (eapply safe_bind; [apply safe_ensure|]; intros _ _).
  - change (Z.max 0 8) with (0 + 4 + 4). eapply safe_bind; [apply safe_u32; lia|]. intros v Hv.
    eapply safe_bind; [apply safe_u32; lia|]. intros a Ha. apply safe_ret. split; [done|]. split_and!; [by left|done|by intros ? [= <-]|done].
  - change (Z.max 0 8) with (0 + 4 + 4). eapply safe_bind; [apply safe_u32; lia|]. intros v Hv.
    eapply safe_bind; [apply safe_u32; lia|]. intros a Ha. apply safe_ret. split; [done|].
    split_and!; [by right; left|done|done|by intros ? [= <-]].
  - change (Z.max 0 12) with (0 + 4 + 4 + 4). eapply safe_bind; [apply safe_u32; lia|]. intros v Hv.
    eapply safe_bind; [apply safe_u32; lia|]. intros w Hw. eapply safe_bind; [apply safe_u32; lia|]. intros a Ha.
    apply safe_ret. split; [done|]. split_and!; [by right; right|done|by intros ? [= <-]..].
Qed.

(** ** Responses *)

Definition ad_response_wire (r : AutoDetectResponse) : list Z :=
  match r with
  | RttResponse n => ad_header_wire 0x06 1 n RTT_RESPONSE
  | BandwidthMeasureResults n t delta count => ad_header_wire 0x0E 1 n t ++ to_le_bytes 4 delta ++ to_le_bytes 4 count
  | NetworkCharacteristicsSync n bandwidth rtt =>
      ad_header_wire 0x0E 1 n NETCHAR_SYNC ++ to_le_bytes 4 bandwidth ++ to_le_bytes 4 rtt
  end.
Definition ad_response_wf (r : AutoDetectResponse) : Prop :=
  is_u16 (response_sequence_number r) /\
  match r with
  | RttResponse _ => True
  | BandwidthMeasureResults _ t delta count =>
      (t = BW_RESULTS_CONNECT_TIME \/ t = BW_RESULTS_CONTINUOUS) /\ is_u32 delta /\ is_u32 count
  | NetworkCharacteristicsSync _ bandwidth rtt => is_u32 bandwidth /\ is_u32 rtt
  end.

Lemma llen_ad_response_wire r : llen (ad_response_wire r) = AutoDetectResponse_size r.
Proof. destruct r; cbn [ad_response_wire AutoDetectResponse_size]; rewrite ?llen_app, ?llen_ad_header_wire, ?llen_le; done. Qed.

Lemma encodes_ad_response r : encodes (AutoDetectResponse_encode r) (ad_response_wire r).
Proof.
  unfold AutoDetectResponse_encode. apply encodes_ensure; [rewrite llen_ad_response_wire; lia|].
  destruct r; cbn [ad_response_wire]; [by apply encodes_ad_header|..];
    (apply encodes_bind; [by apply encodes_ad_header|]; apply encodes_bind; apply encodes_u32).
Qed.

Lemma decodes_ad_response r : ad_response_wf r -> decodes AutoDetectResponse_decode (ad_response_wire r) r.
Proof.
  intros [Hn H]. unfold AutoDetectResponse_decode.
  apply decodes_ensure; [rewrite llen_ad_response_wire; by destruct r|].
  destruct r as [n|n t delta count|n bw rtt]; cbn [ad_response_wire response_sequence_number] in *; unfold ad_header_wire;
    rewrite <- ?app_assoc; (eapply decodes_bind; [by apply decodes_u8|]); (eapply decodes_bind; [by apply decodes_u8|]);
    cbn [negb Z.eqb Pos.eqb TYPE_ID_AUTODETECT_RESPONSE]; (eapply decodes_bind; [by apply decodes_u16|]).
  - eapply decodes_last; [by apply decodes_u16|]. apply decodes_ret.
  - destruct H as (Ht & Hd & Hc). eapply decodes_bind; [apply decodes_u16; known_types; width|].
    destruct Ht as [-> | ->]; known_types; cbn [Z.eqb Pos.eqb orb]; (apply decodes_ensure; [by rewrite llen_app, !llen_le|]);
      (eapply decodes_bind; [by apply decodes_u32|]); (eapply decodes_last; [by apply decodes_u32|]); apply decodes_ret.
  - destruct H as [Hb Hr]. eapply decodes_bind; [by apply decodes_u16|]. known_types. cbn [Z.eqb Pos.eqb orb].
    apply decodes_ensure; [by rewrite llen_app, !llen_le|]. eapply decodes_bind; [by apply decodes_u32|].
    eapply decodes_last; [by apply decodes_u32|]. apply decodes_ret.
Qed.

Lemma safe_ad_response : safe 0 AutoDetectResponse_decode 0 ad_response_wf.
Proof.
  unfold AutoDetectResponse_decode. eapply safe_bind; [apply safe_ensure|]. intros _ _.
  change (Z.max 0 HEADER_MIN_SIZE) with (0 + 2 + 2 + 1 + 1).
  eapply safe_bind; [apply safe_u8; lia|]. intros _ _. eapply safe_bind; [apply safe_u8; lia|]. intros tid _. cbv beta.
  destruct (negb _); [done|]. eapply safe_bind; [apply safe_u16; lia|]. intros n Hn.
  eapply safe_bind; [apply safe_u16; lia|]. intros t Ht. cbv beta.
  destruct (t =? RTT_RESPONSE); [by apply safe_ret|].
  destruct ((t =? BW_RESULTS_CONNECT_TIME) || _) eqn:H1; [|destruct (t =? NETCHAR_SYNC); [|done]];
    (eapply safe_bind; [apply safe_ensure|]; intros _ _; change (Z.max 0 8) with (0 + 4 + 4);
     eapply safe_bind; [apply safe_u32; lia|]; intros v Hv; eapply safe_bind; [apply safe_u32; lia|]; intros w Hw; apply safe_ret).
  - split; [done|]. split_and!; [lia|done..].
  - by split_and!.
Qed.

(** ** With the security header *)

Definition security_wire (flags : Z) : list Z := to_le_bytes 2 flags ++ to_le_bytes 2 0.

Lemma encodes_security h : encodes (BasicSecurityHeader_encode h) (security_wire (security_flags h)).
Proof.
  unfold BasicSecurityHeader_encode, security_wire. apply encodes_ensure; [by rewrite llen_app, !llen_le|].
  apply encodes_bind; apply encodes_u16.
Qed.

Section framing.
Context {BF : Bitflags}.

Lemma truncate_all x : is_u16 x -> from_bits_truncate BasicSecurityHeaderFlags.all x = x.
Proof.
  intros H. rewrite from_bits_truncate_bits. unfold BasicSecurityHeaderFlags.all. rewrite land_u16.
  apply Z.mod_small. width.
Qed.

Lemma decodes_security flags : is_u16 flags -> decodes BasicSecurityHeader_decode (security_wire flags) (mkSecurityHeader flags).
Proof.
  intros H. unfold BasicSecurityHeader_decode, security_wire. apply decodes_ensure; [by rewrite llen_app, !llen_le|].
  eapply decodes_bind; [by apply decodes_u16|]. eapply decodes_last; [by apply decodes_u16|]. rewrite truncate_all by done.
  apply decodes_ret.
Qed.

Lemma safe_security : safe 0 BasicSecurityHeader_decode 0 (fun h => is_u16 (security_flags h)).
Proof.
  unfold BasicSecurityHeader_decode. eapply safe_bind; [apply safe_ensure|]. intros _ _.
  change (Z.max 0 BASIC_SECURITY_HEADER_SIZE) with (0 + 2 + 2). eapply safe_bind; [apply safe_u16; lia|]. intros f Hf.
  eapply safe_bind; [apply safe_u16; lia|]. intros _ _. apply safe_ret. cbn. by rewrite truncate_all.
Qed.

Definition req_pdu_wf (p : AutoDetectReqPdu) : Prop :=
  is_u16 (security_flags (req_security_header p)) /\
  contains (security_flags (req_security_header p)) BasicSecurityHeaderFlags.AUTODETECT_REQ = true /\
  ad_request_wf true (req_request p).
Definition req_pdu_wire (p : AutoDetectReqPdu) : list Z :=
  security_wire (security_flags (req_security_header p)) ++ ad_request_wire (req_request p).

Lemma req_pdu_writes p : ad_request_wf true (req_request p) -> writes p (req_pdu_wire p).
Proof.
  intros Hr. unfold req_pdu_wire. split.
  - cbn [encode_into AutoDetectReqPdu_Encode]. unfold AutoDetectReqPdu_encode. rewrite ad_request_size_wire by done.
    apply encodes_ensure; [rewrite llen_app; unfold security_wire; rewrite llen_app, !llen_le; done|].
    apply encodes_bind; [apply encodes_security|by apply encodes_ad_request].
  - cbn [size AutoDetectReqPdu_Encode]. rewrite llen_app, ad_request_size_wire by done. unfold security_wire.
    rewrite llen_app, !llen_le. done.
Qed.

Lemma decodes_req_pdu p : req_pdu_wf p -> decodes AutoDetectReqPdu_decode (req_pdu_wire p) p.
Proof.
  intros (Hf & Hc & Hr). unfold AutoDetectReqPdu_decode, req_pdu_wire. eapply decodes_bind; [by apply decodes_security|].
  cbn [security_flags]. rewrite Hc. cbn [negb]. eapply decodes_last; [by apply decodes_ad_request|].
  destruct p as [[] ]. apply decodes_ret.
Qed.

Lemma safe_req_pdu : safe 0 AutoDetectReqPdu_decode 0 (fun p => ad_request_wf false (req_request p)).
Proof.
  unfold AutoDetectReqPdu_decode. eapply safe_bind; [apply safe_security|]. intros h _. destruct (negb _); [done|].
  eapply safe_bind; [apply safe_ad_request|]. intros r Hr. by apply safe_ret.
Qed.

#[export] Instance AutoDetectRspPdu_Codec : Codec AutoDetectRspPdu.
Proof.
  refine {| wf p := is_u16 (security_flags (rsp_security_header p)) /\
      contains (security_flags (rsp_security_header p)) BasicSecurityHeaderFlags.AUTODETECT_RSP = true /\
      ad_response_wf (rsp_response p);
    wire p := security_wire (security_flags (rsp_security_header p)) ++ ad_response_wire (rsp_response p) |}.
  - intros p _. cbn [encode_into AutoDetectRspPdu_Encode]. unfold AutoDetectRspPdu_encode.
    apply encodes_ensure; [rewrite llen_app, llen_ad_response_wire; unfold security_wire; rewrite llen_app, !llen_le; done|].
    apply encodes_bind; [apply encodes_security|apply encodes_ad_response].
  - intros p _. cbn [size AutoDetectRspPdu_Encode]. rewrite llen_app, llen_ad_response_wire. unfold security_wire.
    rewrite llen_app, !llen_le. done.
  - intros p (Hf & Hc & Hr). apply decodes_to_end. cbn [decode_from AutoDetectRspPdu_Decode]. unfold AutoDetectRspPdu_decode.
    eapply decodes_bind; [by apply decodes_security|]. cbn [security_flags]. rewrite Hc. cbn [negb].
    eapply decodes_last; [by apply decodes_ad_response|]. destruct p as [[] ]. apply decodes_ret.
  - cbn [decode_from AutoDetectRspPdu_Decode]. unfold AutoDetectRspPdu_decode.
    eapply safe_bind; [apply safe_security|]. intros h Hh. destruct (contains _ _) eqn:Hc; [|done]. cbn [negb].
    eapply safe_bind; [apply safe_ad_response|]. intros r Hr. by apply safe_ret.
Defined.

(** An auto-detection message is read back from the bytes it is written as:
    every request the encoder accepts, and every response. *)
Lemma autodetect_roundtrip (q : AutoDetectReqPdu) (p : AutoDetectRspPdu) rest :
  req_pdu_wf q -> wf p ->
  (exists out, encode_vec q = Ok out /\ decode AutoDetectReqPdu (out ++ rest) = Ok q) /\
  (exists out, encode_vec p = Ok out /\ decode AutoDetectRspPdu out = Ok p).
Proof.
  intros Hq Hp. split.
  - exists (req_pdu_wire q). split; [apply encode_vec_writes, req_pdu_writes, Hq|].
    unfold decode, ReadCursor.new. pose proof (decodes_req_pdu q Hq [] rest) as Hd. cbn [length app] in Hd.
    cbn [decode_from AutoDetectReqPdu_Decode]. by rewrite Hd.
  - exists (wire p). split; [by apply encode_vec_wire|by apply decode_wire].
Qed.

Lemma autodetect_decode_total bs : bytes_ok bs -> decode AutoDetectReqPdu bs <> Panic /\ decode AutoDetectRspPdu bs <> Panic.
Proof.
  intros Hb. split; [|by apply decode_no_panic]. pose proof (safe_req_pdu (ReadCursor.mk bs 0)) as Hs.
  unfold decode, ReadCursor.new. cbn [decode_from AutoDetectReqPdu_Decode].
  destruct (AutoDetectReqPdu_decode _) as [[a c]| |]; [done..|]. intros _. apply Hs; [split; cbn; [lia|done]|].
  unfold ReadCursor.len, llen. cbn. lia.
Qed.

End framing.

(** A bandwidth above 4 Tbit/s wraps: a client that reports 512 MiB in a
    millisecond is taken to have no bandwidth at all. *)
Lemma reported_bandwidth_wraps :
  computed_bandwidth_kbps (BandwidthMeasureResults 0 BW_RESULTS_CONNECT_TIME 1 (2 ^ 29)) = Some 0.
Proof. reflexivity. Qed.
