(* ===== verification/ConnectTime.v ===== *)
(** The server's side of the Optional Connect-Time Auto-Detection phase
    (src/crates/ironrdp-acceptor/src/autodetect.rs): the server measures the
    round-trip time and the bandwidth on the message channel and tells the
    client what it found.

    A [MonotonicInstant] is its number of milliseconds. *)

From S2P Require Import Prelude Timing Cursor Codec Flags Mutation WriteBuf Mcs McsCodec Framed Sequence AutoDetect.

Open Scope Z_scope.

Definition SERVER_CHANNEL_ID : Z := 0x03ea.

Definition RTT_SEQUENCE : Z := 0.
Definition BANDWIDTH_START_SEQUENCE : Z := 1.
Definition PAYLOAD_COUNT : Z := 5.
Definition PAYLOAD_LEN : Z := 15000.
(** The same as a length of a list. *)
Definition payload_len : nat := Z.to_nat PAYLOAD_LEN.
#[global] Opaque payload_len.
Lemma of_payload_len : Z.of_nat payload_len = PAYLOAD_LEN.
Proof. with_strategy transparent [payload_len] unfold payload_len. by rewrite Z2Nat.id. Qed.
Definition RESULT_SEQUENCE : Z := BANDWIDTH_START_SEQUENCE + PAYLOAD_COUNT + 2.

Record NetworkCharacteristics := mkNetwork { rtt_ms : option Z; bandwidth_kbps : option Z }.

Module DetectStep.
Inductive t := SendRttRequest | WaitRttResponse | SendBandwidthMeasure | WaitBandwidthResults | SendResult | Done.
#[global] Instance t_eq_dec : EqDecision t.
Proof. solve_decision. Defined.
End DetectStep.

Record ConnectTimeAutoDetection := mkDetection {
  ct_step_ : DetectStep.t;
  ct_message_channel_id : Z;
  ct_rtt_sent_at : option Z;
  ct_found : NetworkCharacteristics;
}.

Definition ct_set_step (st : DetectStep.t) (d : ConnectTimeAutoDetection) : ConnectTimeAutoDetection :=
  mkDetection st (ct_message_channel_id d) (ct_rtt_sent_at d) (ct_found d).
Definition ct_set_found (n : NetworkCharacteristics) (d : ConnectTimeAutoDetection) : ConnectTimeAutoDetection :=
  mkDetection (ct_step_ d) (ct_message_channel_id d) (ct_rtt_sent_at d) n.

Definition ct_new (message_channel_id : Z) (started_at : option Z) : ConnectTimeAutoDetection :=
  mkDetection DetectStep.SendRttRequest message_channel_id started_at (mkNetwork None None).
Definition ct_waits_for_input (d : ConnectTimeAutoDetection) : bool :=
  match ct_step_ d with DetectStep.WaitRttResponse | DetectStep.WaitBandwidthResults => true | _ => false end.
Definition ct_is_done (d : ConnectTimeAutoDetection) : bool := bool_decide (ct_step_ d = DetectStep.Done).

(** ** The payload bytes *)

Module Payload.
Definition new : Z := 0x9E3779B9.

(** One turn of the generator, on 32 bits. *)
Definition turn (x : Z) : Z :=
  let x := Z.lxor x (Z.shiftl x 13 mod 4294967296) in
  let x := Z.lxor x (Z.shiftr x 17) in
  Z.lxor x (Z.shiftl x 5 mod 4294967296).

(** [while chunk.len() < PAYLOAD_LEN { .. }] *)
Fixpoint fill (fuel : nat) (chunk : list Z) (x : Z) : option (list Z * Z) :=
  if llen chunk <? PAYLOAD_LEN then
    match fuel with
    | O => None
    | S fuel' => let x := turn x in fill fuel' (chunk ++ to_le_bytes 4 x) x
    end
  else Some (chunk, x).
(** [chunk.truncate(PAYLOAD_LEN)] *)
Definition next_chunk (x : Z) : option (list Z * Z) :=
  (fun '(chunk, x') => (take payload_len chunk, x')) <$> fill payload_len [] x.

(** The loop ends, with a chunk of exactly the length announced. *)
Lemma fill_spec fuel chunk x :
  bytes_ok chunk -> PAYLOAD_LEN <= llen chunk + Z.of_nat fuel ->
  exists out x', fill fuel chunk x = Some (out, x') /\ PAYLOAD_LEN <= llen out /\ bytes_ok out.
Proof.
  revert chunk x. induction fuel as [|fuel IH]; intros chunk x Hb Hl; cbn [fill]; destruct (Z.ltb_spec (llen chunk) PAYLOAD_LEN).
  - lia.
  - by eexists _, _.
  - apply IH; [apply Forall_app; split; [done|apply to_le_bytes_ok]|]. rewrite llen_app, llen_le. lia.
  - by eexists _, _.
Qed.

Lemma next_chunk_spec x : exists out x', next_chunk x = Some (out, x') /\ llen out = PAYLOAD_LEN /\ bytes_ok out.
Proof.
  unfold next_chunk. destruct (fill_spec payload_len [] x) as (out & x' & -> & Hl & Hb); [done| |].
  { rewrite of_payload_len. unfold llen. cbn [length]. lia. }
  eexists _, _. split; [done|]. split; [|by apply Forall_take].
  pose proof of_payload_len. unfold llen in *. rewrite length_take, Nat.min_l by lia. done.
Qed.
#[global] Opaque next_chunk.
End Payload.

(** The bytes of a message field by field. *)
Ltac bytes :=
  repeat match goal with
  | |- Forall _ (_ ++ _) => apply Forall_app; split
  | |- Forall _ (to_le_bytes _ _) => apply to_le_bytes_ok
  | |- Forall _ (ad_header_wire _ _ _ _) => unfold ad_header_wire
  | |- Forall _ [] => constructor
  | |- Forall _ (_ :: _) => apply Forall_cons; split
  end; try done.

(** ** A step *)

Section steps.
Context {BF : Bitflags}.
Import DetectStep.

(** [self.send(request, output)?] *)
Definition ct_send {A} (d : ConnectTimeAutoDetection) (request : AutoDetectRequest) : StepM A Z :=
  encode_send_data_indication SERVER_CHANNEL_ID (ct_message_channel_id d) (AutoDetectReqPdu_new request).

(** [self.response(input)]; the decoders do not panic. *)
Definition ct_response (message_channel_id : Z) (input : list Z) : option AutoDetectResponse :=
  match decode (X224 SendDataRequest) input with
  | Ok request =>
      if negb (sdr_channel_id (x224 request) =? message_channel_id) then None
      else
        match decode AutoDetectRspPdu (sdr_user_data (x224 request)) with
        | Ok pdu => Some (rsp_response pdu)
        | _ => None
        end
  | _ => None
  end.

Definition ct_synced (bandwidth_kbps rtt_ms : Z) (d : ConnectTimeAutoDetection) : ConnectTimeAutoDetection :=
  ct_set_step Done (ct_set_found (mkNetwork (Some rtt_ms) (Some bandwidth_kbps)) d).

(** [u32::try_from(n).unwrap_or(u32::MAX)] *)
Definition clamp_u32 (n : Z) : Z := if n <=? 4294967295 then n else 4294967295.

Definition timed_rtt (rtt_sent_at received_at : option Z) : option Z :=
  match rtt_sent_at, received_at with
  | Some sent, Some received => Some (clamp_u32 (Duration.as_millis (Instant.duration_since received sent)))
  | _, _ => None
  end.
Definition measured_bandwidth (response : AutoDetectResponse) (time_delta_ms byte_count : Z) : option Z :=
  match computed_bandwidth_kbps response with
  | Some kbps => Some kbps
  | None => if time_delta_ms =? 0 then Some (clamp_u32 (byte_count * 8)) else None
  end.

(** [for sequence_number in 1..=PAYLOAD_COUNT { .. }] *)
Fixpoint ct_send_payloads {A} (d : ConnectTimeAutoDetection) (numbers : list Z) (payload written : Z) : StepM A (Z * Z) :=
  match numbers with
  | [] => mret (payload, written)
  | sequence_number :: numbers' =>
      '(chunk, payload) ← expect (Payload.next_chunk payload);
      n ← ct_send d (bw_payload (BANDWIDTH_START_SEQUENCE + sequence_number) chunk);
      ct_send_payloads d numbers' payload (written + n)
  end.

Definition network_result (found : NetworkCharacteristics) : option AutoDetectRequest :=
  match rtt_ms found, bandwidth_kbps found with
  | Some rtt, Some bandwidth => Some (netchar_result RESULT_SEQUENCE rtt bandwidth rtt)
  | Some rtt, None => Some (NetworkCharacteristicsResult RESULT_SEQUENCE NETCHAR_RESULT_RTT (Some rtt) None rtt)
  | None, _ => None
  end.

Definition ct_step (input : list Z) (received_at : option Z) : StepM ConnectTimeAutoDetection Written :=
  self ← get_self;
  match ct_step_ self with
  | SendRttRequest =>
      written ← ct_send self (rtt_connect_time RTT_SEQUENCE);
      _ ← modify_self (ct_set_step WaitRttResponse);
      written_size written
  | WaitRttResponse =>
      match ct_response (ct_message_channel_id self) input with
      | Some (RttResponse sequence_number) =>
          if sequence_number =? RTT_SEQUENCE then
            let found := mkNetwork (timed_rtt (ct_rtt_sent_at self) received_at) (bandwidth_kbps (ct_found self)) in
            _ ← modify_self (fun d => ct_set_step SendBandwidthMeasure (ct_set_found found d));
            mret Nothing
          else mret Nothing
      | Some (NetworkCharacteristicsSync _ bandwidth_kbps rtt_ms) =>
          _ ← modify_self (ct_synced bandwidth_kbps rtt_ms);
          mret Nothing
      | _ => mret Nothing
      end
  | SendBandwidthMeasure =>
      written ← ct_send self (bw_start_connect_time BANDWIDTH_START_SEQUENCE);
      '(payload, written) ← ct_send_payloads self (seqZ 1 PAYLOAD_COUNT) Payload.new written;
      '(chunk, payload) ← expect (Payload.next_chunk payload);
      n ← ct_send self (bw_stop_connect_time (BANDWIDTH_START_SEQUENCE + PAYLOAD_COUNT + 1) chunk);
      _ ← modify_self (ct_set_step WaitBandwidthResults);
      written_size (written + n)
  | WaitBandwidthResults =>
      match ct_response (ct_message_channel_id self) input with
      | Some (BandwidthMeasureResults _ response_type time_delta_ms byte_count as response) =>
          if response_type =? BW_RESULTS_CONNECT_TIME then
            let found := mkNetwork (rtt_ms (ct_found self)) (measured_bandwidth response time_delta_ms byte_count) in
            _ ← modify_self (fun d => ct_set_step SendResult (ct_set_found found d));
            mret Nothing
          else mret Nothing
      | Some (NetworkCharacteristicsSync _ bandwidth_kbps rtt_ms) =>
          _ ← modify_self (ct_synced bandwidth_kbps rtt_ms);
          mret Nothing
      | _ => mret Nothing
      end
  | SendResult =>
      _ ← modify_self (ct_set_step Done);
      match network_result (ct_found self) with
      | Some result => written ← ct_send self result; written_size written
      | None => mret Nothing
      end
  | Done => mret Nothing
  end.

(** The steps of the phase when the client sends [inputs], each with the time
    it arrived, and then nothing more. *)
Fixpoint ct_run (fuel : nat) (inputs : list (list Z * option Z)) : StepM ConnectTimeAutoDetection unit :=
  match fuel with
  | O => boom
  | S fuel' =>
      self ← get_self;
      if ct_is_done self then mret tt
      else if ct_waits_for_input self then
        match inputs with
        | [] => mret tt
        | (input, received_at) :: inputs' => _ ← ct_step input received_at; ct_run fuel' inputs'
        end
      else _ ← ct_step [] None; ct_run fuel' inputs
  end.


(** ** What the client gets and what the server learns *)

(** The bandwidth measurement: a start, the payloads and a stop. *)
Definition measurement (chunks : list (list Z)) (stop : list Z) : list AutoDetectRequest :=
  bw_start_connect_time 1 :: zip_with bw_payload (seqZ 2 PAYLOAD_COUNT) chunks ++ [bw_stop_connect_time 7 stop].

(** The specification, on what the client's messages say and when each
    arrived: the requests sent, what was found, and whether the phase is over.
    What is not an answer to the measurement under way is passed over, and a
    Network Characteristics Sync ends the phase with the client's values. *)
Fixpoint bandwidth_phase (rtt : option Z) (rs : list (option AutoDetectResponse * option Z)) :
    list AutoDetectRequest * NetworkCharacteristics * bool :=
  match rs with
  | [] => ([], mkNetwork rtt None, false)
  | (Some (BandwidthMeasureResults _ t delta count as r), _) :: rs' =>
      if t =? BW_RESULTS_CONNECT_TIME then
        let found := mkNetwork rtt (measured_bandwidth r delta count) in (option_list (network_result found), found, true)
      else bandwidth_phase rtt rs'
  | (Some (NetworkCharacteristicsSync _ bandwidth rtt'), _) :: _ => ([], mkNetwork (Some rtt') (Some bandwidth), true)
  | _ :: rs' => bandwidth_phase rtt rs'
  end.
Fixpoint rtt_phase (measure : list AutoDetectRequest) (sent_at : option Z) (rs : list (option AutoDetectResponse * option Z)) :
    list AutoDetectRequest * NetworkCharacteristics * bool :=
  match rs with
  | [] => ([], mkNetwork None None, false)
  | (Some (RttResponse n), received_at) :: rs' =>
      if n =? RTT_SEQUENCE then
        let '(sent, found, over) := bandwidth_phase (timed_rtt sent_at received_at) rs' in (measure ++ sent, found, over)
      else rtt_phase measure sent_at rs'
  | (Some (NetworkCharacteristicsSync _ bandwidth rtt), _) :: _ => ([], mkNetwork (Some rtt) (Some bandwidth), true)
  | _ :: rs' => rtt_phase measure sent_at rs'
  end.

Definition ct_wire (channel : Z) (requests : list AutoDetectRequest) : list Z :=
  requests ≫= fun r => indication_wire SERVER_CHANNEL_ID channel (req_pdu_wire (AutoDetectReqPdu_new r)).

Lemma ct_wire_app channel xs ys : ct_wire channel (xs ++ ys) = ct_wire channel xs ++ ct_wire channel ys.
Proof. apply bind_app. Qed.

(** What can be sent: a well-formed request that fits a Send Data Indication. *)
Definition sendable (r : AutoDetectRequest) : Prop :=
  ad_request_wf true r /\ bytes_ok (ad_request_wire r) /\ llen (ad_request_wire r) <= 0x7000.

Lemma ad_header_ok h t n m : is_u8 h -> is_u8 t -> bytes_ok (ad_header_wire h t n m).
Proof. intros ??. unfold ad_header_wire. bytes. Qed.

Lemma sendable_data r : is_user_id SERVER_CHANNEL_ID -> forall c, is_u16 c -> sendable r ->
  send_wf SERVER_CHANNEL_ID c (req_pdu_wire (AutoDetectReqPdu_new r)).
Proof.
  intros Hs c Hc (_ & Hb & Hl). split; [done|]. split; [done|]. unfold req_pdu_wire, security_wire. split.
  - bytes.
  - rewrite !llen_app, !llen_le. cbn [req_request AutoDetectReqPdu_new]. lia.
Qed.

Lemma wpm_ct_send {A} d r acc (s : A) b (Q : ConnectorError + Z -> A * WriteBuf.t -> Prop) :
  is_u16 (ct_message_channel_id d) -> sendable r -> WriteBuf.holds acc b ->
  (forall b', WriteBuf.holds (acc ++ ct_wire (ct_message_channel_id d) [r]) b' ->
    Q (inr (llen (ct_wire (ct_message_channel_id d) [r]))) (s, b')) ->
  wpm (ct_send d r) Q (s, b).
Proof.
  intros Hc Hr Hb HQ. unfold ct_wire in HQ. rewrite bind_singleton in HQ. unfold ct_send.
  eapply wpm_send_indication; [apply req_pdu_writes, Hr|apply sendable_data; done|done|done].
Qed.

Lemma ct_wire_nonzero channel r : llen (ct_wire channel [r]) <> 0.
Proof.
  unfold ct_wire. rewrite bind_singleton. unfold indication_wire. cbn [wire X224_Codec].
  rewrite llen_X224_wire. pose proof (llen_nonneg (x224_wire (x224 (mkX224 (mkSendDataIndication SERVER_CHANNEL_ID channel (req_pdu_wire (AutoDetectReqPdu_new r))))))). lia.
Qed.

Lemma sendable_rtt : sendable (rtt_connect_time RTT_SEQUENCE).
Proof. split; [split; [done|by left]|]. split; [by apply ad_header_ok|]. done. Qed.
Lemma sendable_start : sendable (bw_start_connect_time BANDWIDTH_START_SEQUENCE).
Proof. split; [split; [done|by left]|]. split; [by apply ad_header_ok|]. done. Qed.
Lemma sendable_payload n chunk : is_u16 n -> llen chunk = PAYLOAD_LEN -> bytes_ok chunk -> sendable (bw_payload n chunk).
Proof.
  intros Hn Hl Hb. split; [split; [done|split; [rewrite Hl; done|done]]|]. cbn [ad_request_wire bw_payload]. split.
  - bytes.
  - rewrite !llen_app, llen_ad_header_wire, llen_le, Hl. done.
Qed.
Lemma sendable_stop n chunk : is_u16 n -> llen chunk = PAYLOAD_LEN -> bytes_ok chunk -> sendable (bw_stop_connect_time n chunk).
Proof.
  intros Hn Hl Hb. split; [split; [done|]|].
  - left. split; [done|]. exists chunk. split_and!; [done|rewrite Hl; done|done|]. intros _ ->. done.
  - cbn [ad_request_wire bw_stop_connect_time payload_bytes default]. rewrite Z.eqb_refl. split.
    + bytes.
    + rewrite !llen_app, llen_ad_header_wire, llen_le. unfold payload_bytes. cbn [default from_option id]. rewrite Hl. done.
Qed.

Lemma clamp_u32_ok n : 0 <= n -> is_u32 (clamp_u32 n).
Proof. intros H. unfold clamp_u32. destruct (Z.leb_spec n 4294967295); width. Qed.

Definition found_ok (n : NetworkCharacteristics) : Prop :=
  (forall v, rtt_ms n = Some v -> is_u32 v) /\ (forall v, bandwidth_kbps n = Some v -> is_u32 v).

Lemma sendable_result found r : found_ok found -> network_result found = Some r -> sendable r.
Proof.
  intros [Hr Hb] H. unfold network_result in H. destruct found as [[rtt|] [bw|]]; cbn in *; simplify_eq.
  - split; [split; [done|]|].
    + split; [by right; right|]. split; [by apply Hr|]. split; intros ? [= <-]; auto.
    + cbn [ad_request_wire netchar_result from_option]. split; [bytes|].
      rewrite !llen_app, llen_ad_header_wire, !llen_le. done.
  - split; [split; [done|]|].
    + split; [by left|]. split; [by apply Hr|]. split; intros ? [= <-]; auto.
    + cbn [ad_request_wire from_option]. split; [bytes|].
      rewrite !llen_app, llen_ad_header_wire, !llen_le. done.
Qed.

Lemma timed_rtt_ok sent received v : timed_rtt sent received = Some v -> is_u32 v.
Proof.
  unfold timed_rtt. destruct sent as [x|], received as [y|]; intros [= <-]. apply clamp_u32_ok.
  unfold Duration.as_millis, Instant.duration_since, Duration.from_millis, sat_sub. apply Z.div_pos; lia.
Qed.

Lemma ct_response_wf channel input r : bytes_ok input -> ct_response channel input = Some r -> ad_response_wf r.
Proof.
  intros Hb. unfold ct_response. destruct (decode (X224 SendDataRequest) input) as [q| |] eqn:Hq; [|done..].
  apply decode_wf in Hq as (_ & _ & Hd & _); [|done]. destruct (negb _); [done|].
  destruct (decode AutoDetectRspPdu _) as [p| |] eqn:Hp; [|done..]. intros [= <-].
  apply decode_wf in Hp; [|done]. apply Hp.
Qed.

Lemma measured_bandwidth_ok n t delta count v :
  is_u32 count -> measured_bandwidth (BandwidthMeasureResults n t delta count) delta count = Some v -> is_u32 v.
Proof.
  intros Hc. unfold measured_bandwidth, computed_bandwidth_kbps. destruct (delta =? 0).
  - intros [= <-]. apply clamp_u32_ok. width.
  - intros [= <-]. unfold is_u32. apply Z.mod_pos_bound. lia.
Qed.

(** Bits per millisecond, a transfer below one counted as one. *)
Lemma measured_bandwidth_exact n t delta count :
  is_u32 delta -> is_u32 count -> count * 8 / Z.max 1 delta < 4294967296 ->
  measured_bandwidth (BandwidthMeasureResults n t delta count) delta count = Some (count * 8 / Z.max 1 delta).
Proof.
  intros Hd Hc Hs. unfold measured_bandwidth, computed_bandwidth_kbps. destruct (Z.eqb_spec delta 0) as [->|].
  - change (Z.max 1 0) with 1 in *. rewrite Z.div_1_r in *. unfold clamp_u32. by rewrite (proj2 (Z.leb_le _ _)) by lia.
  - rewrite Z.max_r in * by width. f_equal. apply Z.mod_small. split; [|done]. apply Z.div_pos; width.
Qed.

(** The chunks the generator gives one after the other. *)
Inductive generates : Z -> list (list Z) -> Z -> Prop :=
| generates_nil x : generates x [] x
| generates_cons x c x' cs x'' :
    Payload.next_chunk x = Some (c, x') -> llen c = PAYLOAD_LEN -> bytes_ok c -> generates x' cs x'' ->
    generates x (c :: cs) x''.

Lemma generates_some n x : exists cs x', length cs = n /\ generates x cs x'.
Proof.
  revert x. induction n as [|n IH]; intros x; [exists [], x; split; [done|constructor]|].
  destruct (Payload.next_chunk_spec x) as (c & x' & Hc & Hl & Hb). destruct (IH x') as (cs & x'' & Hn & Hg).
  exists (c :: cs), x''. split; [cbn; by rewrite Hn|]. by econstructor.
Qed.

Section run.
Context (channel : Z) (Hch : is_u16 channel).

Lemma wpm_send_payloads {A} d numbers cs x x' written acc (s : A) b Q :
  ct_message_channel_id d = channel -> generates x cs x' -> length numbers = length cs ->
  Forall (fun n => 0 <= n < 60000) numbers -> WriteBuf.holds acc b ->
  (forall b' out, out = ct_wire channel (zip_with (fun n => bw_payload (1 + n)) numbers cs) ->
    WriteBuf.holds (acc ++ out) b' -> Q (inr (x', written + llen out)) (s, b')) ->
  wpm (ct_send_payloads d numbers x written) Q (s, b).
Proof.
  intros Hd. revert numbers x written acc b. induction cs as [|c cs IH]; intros [|n numbers] x written acc b Hg Hn Hr Hb HQ;
    [|discriminate Hn|discriminate Hn|]; inversion Hg; subst; cbn [ct_send_payloads].
  - apply wpm_ret. specialize (HQ b [] eq_refl). rewrite Z.add_0_r, app_nil_r in HQ. by apply HQ.
  - apply Forall_cons in Hr as [Hn0 Hr]. apply wpm_bind. eapply wpm_expect; [done|]. cbn [fst snd]. apply wpm_bind.
    apply (wpm_ct_send d _ acc); [done|apply sendable_payload; [unfold BANDWIDTH_START_SEQUENCE; width|done|done]|done|].
    intros b' Hb'. eapply IH; [done|by injection Hn|done|exact Hb'|]. intros b'' out -> Hb''.
    rewrite <- app_assoc, <- ct_wire_app in Hb''. cbn [app] in Hb''. rewrite <- Z.add_assoc, <- llen_app, <- ct_wire_app.
    apply HQ; done.
Qed.

Lemma zip_seq {A B} (f : Z -> A -> B) (cs : list A) k m :
  zip_with (fun n => f (1 + n)) (seqZ k m) cs = zip_with f (seqZ (k + 1) m) cs.
Proof.
  replace (seqZ (k + 1) m) with (Z.add 1 <$> seqZ k m); [by rewrite zip_with_fmap_l|].
  rewrite fmap_add_seqZ. f_equal. lia.
Qed.

(** The step that measures the bandwidth. *)
Lemma ct_measures chunks stop x x' input at_ sent found acc b Q :
  generates Payload.new chunks x -> length chunks = 5%nat -> generates x [stop] x' -> WriteBuf.holds acc b ->
  (forall b', WriteBuf.holds (acc ++ ct_wire channel (measurement chunks stop)) b' ->
    Q (inr (Size (llen (ct_wire channel (measurement chunks stop))))) (mkDetection WaitBandwidthResults channel sent found, b')) ->
  wpm (ct_step input at_) Q (mkDetection SendBandwidthMeasure channel sent found, b).
Proof.
  intros Hg Hn Hs Hb HQ. unfold ct_step. apply wpm_access. cbn [fst ct_step_]. apply wpm_bind.
  apply (wpm_ct_send _ _ acc); [done|apply sendable_start|done|]. intros b1 Hb1. cbn [ct_message_channel_id] in *.
  apply wpm_bind. eapply (wpm_send_payloads _ _ chunks); [done|done|by rewrite Hn| |exact Hb1|].
  { repeat (apply Forall_cons; split; [lia|]). constructor. }
  intros b2 out Ho Hb2. cbn [fst snd]. inversion Hs as [|? ? ? ? ? Hc Hl Hok Hrest]; subst. apply wpm_bind. eapply wpm_expect; [done|].
  cbv beta iota. apply wpm_bind. eapply wpm_ct_send.
  { exact Hch. }
  { apply sendable_stop; [unfold BANDWIDTH_START_SEQUENCE, PAYLOAD_COUNT; width|exact Hl|exact Hok]. }
  { exact Hb2. }
 
  intros b3 Hb3. cbn [ct_message_channel_id] in *. rewrite (zip_seq bw_payload chunks 1 PAYLOAD_COUNT) in *.
  rewrite <- !app_assoc, <- !ct_wire_app in Hb3. specialize (HQ b3 Hb3). apply wpm_update.
  apply wpm_written_size.
  - pose proof (ct_wire_nonzero channel (bw_start_connect_time BANDWIDTH_START_SEQUENCE)) as Hnz.
    pose proof (llen_nonneg (ct_wire channel [bw_start_connect_time BANDWIDTH_START_SEQUENCE])).
    pose proof (llen_nonneg (ct_wire channel (zip_with bw_payload (seqZ (1 + 1) PAYLOAD_COUNT) chunks))).
    pose proof (llen_nonneg (ct_wire channel [bw_stop_connect_time (BANDWIDTH_START_SEQUENCE + PAYLOAD_COUNT + 1) stop])). lia.
  - rewrite <- !Z.add_assoc, <- !llen_app, <- !ct_wire_app. exact HQ.
Qed.

(** What a run that starts with [acc] in the buffer ends with. *)
Definition detected (acc : list Z) (spec : list AutoDetectRequest * NetworkCharacteristics * bool)
    (r : ConnectorError + unit) (sb : ConnectTimeAutoDetection * WriteBuf.t) : Prop :=
  let '(sent, found, over) := spec in
  r = inr tt /\ WriteBuf.holds (acc ++ ct_wire channel sent) sb.2 /\ ct_found sb.1 = found /\ ct_is_done sb.1 = over.

Definition read_responses (inputs : list (list Z * option Z)) : list (option AutoDetectResponse * option Z) :=
  prod_map (ct_response channel) id <$> inputs.

Lemma detected_nothing acc d b :
  WriteBuf.holds acc b -> detected acc ([], ct_found d, ct_is_done d) (inr tt) (d, b).
Proof. intros Hb. unfold detected. cbn [ct_wire mbind list_bind]. by rewrite app_nil_r. Qed.

Lemma detected_done acc sent found b fuel inputs :
  WriteBuf.holds acc b ->
  wpm (ct_run (S fuel) inputs) (detected acc ([], found, true)) (mkDetection Done channel sent found, b).
Proof. intros Hb. cbn [ct_run]. apply wpm_access, wpm_ret. by apply detected_nothing. Qed.

(** The last step sends what was found, if it can. *)
Lemma ct_results sent found fuel inputs acc b :
  found_ok found -> WriteBuf.holds acc b ->
  wpm (ct_run (S (S fuel)) inputs) (detected acc (option_list (network_result found), found, true))
    (mkDetection SendResult channel sent found, b).
Proof.
  intros Hf Hb. change (wpm (_ ← ct_step [] None; ct_run (S fuel) inputs)
    (detected acc (option_list (network_result found), found, true)) (mkDetection SendResult channel sent found, b)).
  apply wpm_bind. unfold ct_step. apply wpm_access. cbn [fst ct_step_]. apply wpm_update. cbn [ct_found].
  destruct (network_result found) as [r|] eqn:Hr.
  - apply wpm_bind. eapply wpm_ct_send; [done|by eapply sendable_result|done|]. intros b' Hb'.
    apply wpm_written_size; [apply ct_wire_nonzero|]. cbn [ct_run]. apply wpm_access, wpm_ret. by split_and!.
  - apply wpm_ret, detected_done, Hb.
Qed.

(** Waiting for the Bandwidth Measure Results. *)
Lemma bandwidth_run rtt sent inputs fuel acc b :
  (forall v, rtt = Some v -> is_u32 v) -> Forall (fun i => bytes_ok i.1) inputs -> WriteBuf.holds acc b ->
  (length inputs + 2 < fuel)%nat ->
  wpm (ct_run fuel inputs) (detected acc (bandwidth_phase rtt (read_responses inputs)))
    (mkDetection WaitBandwidthResults channel sent (mkNetwork rtt None), b).
Proof.
  intros Hrtt Hi Hb. revert fuel. induction Hi as [|[input at_] inputs Hin Hi IH]; intros fuel Hf; cbn [length] in Hf;
    (destruct fuel as [|fuel]; [lia|]); cbn [ct_run]; apply wpm_access; cbn [fst ct_is_done ct_waits_for_input ct_step_].
  { by apply wpm_ret, detected_nothing. }
  apply wpm_bind. unfold ct_step. apply wpm_access. cbn [fst ct_step_ ct_message_channel_id].
  change (read_responses ((input, at_) :: inputs)) with ((ct_response channel input, at_) :: read_responses inputs).
  destruct (ct_response channel input) as [[n|n t delta count|n bw rtt']|] eqn:Hr; cbn [bandwidth_phase];
    [by apply IH; lia| | |by apply IH; lia].
  - destruct (t =? BW_RESULTS_CONNECT_TIME); [|by apply IH; lia]. apply wpm_update, wpm_ret.
    destruct fuel as [|[|fuel]]; [lia..|]. apply ct_results; [|done]. split; [done|]. cbn [bandwidth_kbps rtt_ms].
    intros v. apply measured_bandwidth_ok. apply ct_response_wf in Hr; [|done]. apply Hr.
  - apply wpm_update, wpm_ret. destruct fuel as [|fuel]; [lia|]. by apply detected_done.
Qed.

(** Waiting for the RTT Measure Response. *)
Lemma rtt_run chunks stop x x' sent inputs fuel acc b :
  generates Payload.new chunks x -> length chunks = 5%nat -> generates x [stop] x' ->
  Forall (fun i => bytes_ok i.1) inputs -> WriteBuf.holds acc b -> (length inputs + 3 < fuel)%nat ->
  wpm (ct_run fuel inputs) (detected acc (rtt_phase (measurement chunks stop) sent (read_responses inputs)))
    (mkDetection WaitRttResponse channel sent (mkNetwork None None), b).
Proof.
  intros Hg Hn Hs Hi Hb. revert fuel. induction Hi as [|[input at_] inputs Hin Hi IH]; intros fuel Hf; cbn [length] in Hf;
    (destruct fuel as [|fuel]; [lia|]); cbn [ct_run]; apply wpm_access; cbn [fst ct_is_done ct_waits_for_input ct_step_].
  { by apply wpm_ret, detected_nothing. }
  apply wpm_bind. unfold ct_step at 1. apply wpm_access. cbn [fst ct_step_ ct_message_channel_id].
  change (read_responses ((input, at_) :: inputs)) with ((ct_response channel input, at_) :: read_responses inputs).
  destruct (ct_response channel input) as [[n|n t delta count|n bw rtt']|]; cbn [rtt_phase];
    [|by apply IH; lia| |by apply IH; lia].
  - destruct (n =? RTT_SEQUENCE); [|by apply IH; lia]. apply wpm_update, wpm_ret.
    destruct fuel as [|fuel]; [lia|]. cbn [ct_run]. apply wpm_access. cbn [fst ct_is_done ct_waits_for_input ct_step_ ct_set_step ct_set_found].
    apply wpm_bind. eapply ct_measures; [done..|]. intros b' Hb'. cbn [ct_message_channel_id ct_rtt_sent_at ct_found bandwidth_kbps].
    eapply wpm_mono; [apply bandwidth_run; [intros v; apply timed_rtt_ok|done|exact Hb'|lia]|].
    intros r sb. unfold detected. destruct (bandwidth_phase _ _) as [[out found] over]. by rewrite ct_wire_app, app_assoc.
  - apply wpm_update, wpm_ret. destruct fuel as [|fuel]; [lia|]. by apply detected_done.
Qed.

End run.

(** C16: connect-time auto-detection does what MS-RDPBCGR 1.3.9 and 3.3.5.14
    describe, whatever bytes the client sends: the RTT request goes out; once
    the matching response arrives, one bandwidth measurement (a start, five
    payloads and a stop of the announced length); once its results arrive, one
    Network Characteristics Result that says what was found - nothing else,
    all on the message channel.  A Network Characteristics Sync ends the phase
    at once with the client's own values, messages that answer nothing are
    passed over, and the phase neither fails nor panics. *)
Theorem detection_refines :
  exists chunks stop, length chunks = 5%nat /\ Forall (fun c => llen c = PAYLOAD_LEN) (stop :: chunks) /\
  forall (channel : Z) (started_at : option Z) (inputs : list (list Z * option Z)),
    is_u16 channel -> Forall (fun i => bytes_ok i.1) inputs ->
    let '(sent, found, over) := rtt_phase (measurement chunks stop) started_at (read_responses channel inputs) in
    exists d b,
      ct_run (length inputs + 5) inputs (ct_new channel started_at, WriteBuf.new) = Some (inr tt, (d, b)) /\
      WriteBuf.filled (E := Empty_set) b = Ok (ct_wire channel (rtt_connect_time RTT_SEQUENCE :: sent)) /\
      ct_found d = found /\ ct_is_done d = over.
Proof.
  destruct (generates_some 5 Payload.new) as (chunks & x & Hn & Hg). destruct (generates_some 1 x) as ([|stop [|]] & x' & Hn' & Hs); [done| |done].
  exists chunks, stop. split; [done|]. split.
  { assert (Hl : forall x cs x', generates x cs x' -> Forall (fun c => llen c = PAYLOAD_LEN) cs) by (induction 1; by constructor).
    apply Forall_cons. split; [|by eapply Hl]. by apply Hl, Forall_cons in Hs as [? _]. }
  intros channel started_at inputs Hc Hi.
  assert (Hrun : wpm (ct_run (length inputs + 5) inputs)
    (detected channel (ct_wire channel [rtt_connect_time RTT_SEQUENCE]) (rtt_phase (measurement chunks stop) started_at (read_responses channel inputs)))
    (ct_new channel started_at, WriteBuf.new)).
  { replace (length inputs + 5)%nat with (S (length inputs + 4)) by lia. cbn [ct_run]. apply wpm_access.
    cbn [fst ct_is_done ct_waits_for_input ct_step_ ct_new]. apply wpm_bind. unfold ct_step at 1. apply wpm_access.
    cbn [fst ct_step_]. apply wpm_bind. eapply wpm_ct_send; [done|apply sendable_rtt|apply WriteBuf.holds_new|]. intros b' Hb'.
    apply wpm_update, wpm_written_size; [apply ct_wire_nonzero|]. eapply rtt_run; [done..|lia]. }
  unfold detected in Hrun. destruct (rtt_phase _ _ _) as [[sent found] over].
  apply wpm_run in Hrun as (r & [d b] & Hr & -> & Hb & Hf & Ho). exists d, b. split; [done|].
  split; [|done]. rewrite <- ct_wire_app in Hb. by apply WriteBuf.holds_filled.
Qed.


End steps.

(** A client that answers the RTT request after 20 ms, sends something else
    and then the results. *)
Definition demo_answer (r : AutoDetectResponse) : list Z :=
  wire (mkX224 (mkSendDataRequest 1007 1008 (security_wire BasicSecurityHeaderFlags.AUTODETECT_RSP ++ ad_response_wire r))).
Definition demo_answers : list (list Z * option Z) :=
  [(demo_answer (RttResponse 0), Some 1020); ([1; 2; 3], Some 1030);
   (demo_answer (BandwidthMeasureResults 7 BW_RESULTS_CONNECT_TIME 10 90000), Some 1040)].

Lemma detection_refines_witness :
  exists chunks stop d b,
    ct_run (BF := bits_flags) 8 demo_answers (ct_new 1008 (Some 1000), WriteBuf.new) = Some (inr tt, (d, b)) /\
    WriteBuf.filled (E := Empty_set) b =
      Ok (ct_wire 1008 (rtt_connect_time 0 :: measurement chunks stop ++ [netchar_result 8 20 72000 20])) /\
    ct_found d = mkNetwork (Some 20) (Some 72000) /\ ct_is_done d = true.
Proof.
  destruct (detection_refines (BF := bits_flags)) as (chunks & stop & _ & _ & H). exists chunks, stop.
  specialize (H 1008 (Some 1000) demo_answers ltac:(done) ltac:(repeat (apply Forall_cons; split; [by repeat (apply Forall_cons; split)|]); constructor)).
  replace (read_responses 1008 demo_answers) with
    [(Some (RttResponse 0), Some 1020); (None, Some 1030);
     (Some (BandwidthMeasureResults 7 BW_RESULTS_CONNECT_TIME 10 90000), Some 1040)] in H by (vm_compute; reflexivity).
  exact H.
Defined.
