(* ===== verification/ShareData.v ===== *)
(** Share Control and Share Data PDUs: src/crates/ironrdp-pdu/src/rdp/headers.rs,
    with the bodies of finalization_messages.rs, server_error_info.rs,
    suppress_output.rs, refresh_rectangle.rs, the monitor of
    gcc/monitor_data.rs, the rectangle of geometry.rs and the frame
    acknowledgement of codecs/rfx/mod.rs.

    The bodies with codecs of their own - capability sets, input events and
    session information - are the interface [ShareBodies].  Values of a bit
    set are their bits. *)

From S2P Require Import Prelude Cursor Codec Flags WriteBuf Mcs McsCodec AutoDetect.

(** ** Enumerations *)

(** What [#[derive(FromPrimitive)]] makes of an enumeration: the variant with
    that discriminant. *)
Definition from_discriminant {T} (discriminant : T -> Z) (variants : list T) (n : Z) : option T :=
  List.find (fun v => discriminant v =? n) variants.

Module ShareControlPduType.
Inductive t := DemandActivePdu | ConfirmActivePdu | DeactivateAllPdu | DataPdu | ServerRedirect.
Definition as_u16 (x : t) : Z :=
  match x with
  | DemandActivePdu => 0x1 | ConfirmActivePdu => 0x3 | DeactivateAllPdu => 0x6 | DataPdu => 0x7 | ServerRedirect => 0xa
  end.
Definition variants : list t := [DemandActivePdu; ConfirmActivePdu; DeactivateAllPdu; DataPdu; ServerRedirect].
Definition from_u16 : Z -> option t := from_discriminant as_u16 variants.
End ShareControlPduType.

Module ShareDataPduType.
Inductive t :=
| Update | Control | Pointer | Input | Synchronize | RefreshRectangle | PlaySound | SuppressOutput | ShutdownRequest
| ShutdownDenied | SaveSessionInfo | FontList | FontMap | SetKeyboardIndicators | BitmapCachePersistentList
| BitmapCacheErrorPdu | SetKeyboardImeStatus | OffscreenCacheErrorPdu | SetErrorInfoPdu | DrawNineGridErrorPdu
| DrawGdiPusErrorPdu | ArcStatusPdu | StatusInfoPdu | MonitorLayoutPdu | FrameAcknowledgePdu.
Definition as_u8 (x : t) : Z :=
  match x with
  | Update => 0x02 | Control => 0x14 | Pointer => 0x1b | Input => 0x1c | Synchronize => 0x1f | RefreshRectangle => 0x21
  | PlaySound => 0x22 | SuppressOutput => 0x23 | ShutdownRequest => 0x24 | ShutdownDenied => 0x25
  | SaveSessionInfo => 0x26 | FontList => 0x27 | FontMap => 0x28 | SetKeyboardIndicators => 0x29
  | BitmapCachePersistentList => 0x2b | BitmapCacheErrorPdu => 0x2c | SetKeyboardImeStatus => 0x2d
  | OffscreenCacheErrorPdu => 0x2e | SetErrorInfoPdu => 0x2f | DrawNineGridErrorPdu => 0x30 | DrawGdiPusErrorPdu => 0x31
  | ArcStatusPdu => 0x32 | StatusInfoPdu => 0x36 | MonitorLayoutPdu => 0x37 | FrameAcknowledgePdu => 0x38
  end.
Definition variants : list t :=
  [Update; Control; Pointer; Input; Synchronize; RefreshRectangle; PlaySound; SuppressOutput; ShutdownRequest;
   ShutdownDenied; SaveSessionInfo; FontList; FontMap; SetKeyboardIndicators; BitmapCachePersistentList;
   BitmapCacheErrorPdu; SetKeyboardImeStatus; OffscreenCacheErrorPdu; SetErrorInfoPdu; DrawNineGridErrorPdu;
   DrawGdiPusErrorPdu; ArcStatusPdu; StatusInfoPdu; MonitorLayoutPdu; FrameAcknowledgePdu].
Definition from_u8 : Z -> option t := from_discriminant as_u8 variants.
End ShareDataPduType.

Module StreamPriority.
Inductive t := Undefined | Low | Medium | High.
Definition as_u8 (x : t) : Z := match x with Undefined => 0 | Low => 1 | Medium => 2 | High => 4 end.
Definition variants : list t := [Undefined; Low; Medium; High].
Definition from_u8 : Z -> option t := from_discriminant as_u8 variants.
End StreamPriority.

Module CompressionType.
Inductive t := K8 | K64 | Rdp6 | Rdp61.
Definition as_u8 (x : t) : Z := match x with K8 => 0 | K64 => 1 | Rdp6 => 2 | Rdp61 => 3 end.
Definition variants : list t := [K8; K64; Rdp6; Rdp61].
Definition from_u8 : Z -> option t := from_discriminant as_u8 variants.
End CompressionType.

Module ControlAction.
Inductive t := RequestControl | GrantedControl | Detach | Cooperate.
#[global] Instance t_eq_dec : EqDecision t.
Proof. solve_decision. Defined.
Definition as_u16 (x : t) : Z := match x with RequestControl => 1 | GrantedControl => 2 | Detach => 3 | Cooperate => 4 end.
Definition variants : list t := [RequestControl; GrantedControl; Detach; Cooperate].
Definition from_u16 : Z -> option t := from_discriminant as_u16 variants.
End ControlAction.

Module AllowDisplayUpdatesType.
Inductive t := SuppressDisplayUpdates | AllowDisplayUpdates.
Definition from_u8 (value : Z) : option t :=
  if value =? 0 then Some SuppressDisplayUpdates else if value =? 1 then Some AllowDisplayUpdates else None.
Definition as_u8 (x : t) : Z := match x with SuppressDisplayUpdates => 0 | AllowDisplayUpdates => 1 end.
End AllowDisplayUpdatesType.

(** The discriminants of the four enumerations of error codes. *)
Module ErrorCodes.
Definition ProtocolIndependentCode : list Z :=
  [0x0; 0x1; 0x2; 0x3; 0x4; 0x5; 0x6; 0x7; 0x9; 0xA; 0xB; 0xC; 0xF; 0x10; 0x11; 0x12; 0x17; 0x18].
Definition ProtocolIndependentLicensingCode : list Z := seqZ 0x100 11.
Definition ProtocolIndependentConnectionBrokerCode : list Z :=
  [0x400; 0x402; 0x404; 0x405; 0x406; 0x407; 0x408; 0x409; 0x410; 0x411; 0x412].
Definition RdpSpecificCode : list Z :=
  seqZ 0x10C9 3 ++ seqZ 0x10CD 9 ++ seqZ 0x10DA 10 ++ [0x10E5] ++ seqZ 0x10E7 4 ++ [0x10EC; 0x10ED; 0x10EF; 0x10F0]
  ++ seqZ 0x10F3 6 ++ seqZ 0x1111 22 ++ seqZ 0x1129 14 ++ seqZ 0x1191 5.
Definition ServerDeniedConnection : Z := 0x7.
End ErrorCodes.

(** A value of one of the four enumerations is its discriminant. *)
Inductive ErrorInfo :=
| ProtocolIndependentCode (c : Z)
| ProtocolIndependentLicensingCode (c : Z)
| ProtocolIndependentConnectionBrokerCode (c : Z)
| RdpSpecificCode (c : Z).
Definition ErrorInfo_as_u32 (e : ErrorInfo) : Z :=
  match e with
  | ProtocolIndependentCode c | ProtocolIndependentLicensingCode c | ProtocolIndependentConnectionBrokerCode c
  | RdpSpecificCode c => c
  end.
Definition ErrorInfo_from_u32 (n : Z) : option ErrorInfo :=
  if bool_decide (n ∈ ErrorCodes.ProtocolIndependentCode) then Some (ProtocolIndependentCode n)
  else if bool_decide (n ∈ ErrorCodes.ProtocolIndependentLicensingCode) then Some (ProtocolIndependentLicensingCode n)
  else if bool_decide (n ∈ ErrorCodes.ProtocolIndependentConnectionBrokerCode)
  then Some (ProtocolIndependentConnectionBrokerCode n)
  else if bool_decide (n ∈ ErrorCodes.RdpSpecificCode) then Some (RdpSpecificCode n)
  else None.

(** ** Bodies *)

(** [value.ok_or_else(|| invalid_field_err!(..))?] *)
Definition field_or {A} (field reason : string) (o : option A) : Decoder A :=
  match o with Some a => mret a | None => fail_at (DInvalidField field reason) end.

Definition SYNCHRONIZE_PDU_SIZE : Z := 4.
Definition CONTROL_PDU_SIZE : Z := 8.
Definition FONT_PDU_SIZE : Z := 8.
Definition SYNCHRONIZE_MESSAGE_TYPE : Z := 1.
Definition MAX_MONITOR_COUNT : Z := 64.

Record SynchronizePdu := mkSynchronize { target_user_id : Z }.
#[export] Instance SynchronizePdu_Encode : Encode SynchronizePdu := {|
  encode_into p :=
    _ ← WriteCursor.ensure_size SYNCHRONIZE_PDU_SIZE;
    _ ← WriteCursor.write_u16 SYNCHRONIZE_MESSAGE_TYPE;
    WriteCursor.write_u16 (target_user_id p);
  size _ := SYNCHRONIZE_PDU_SIZE |}.
#[export] Instance SynchronizePdu_Decode : Decode SynchronizePdu := {|
  decode_from :=
    _ ← ReadCursor.ensure_size SYNCHRONIZE_PDU_SIZE;
    message_type ← ReadCursor.read_u16;
    if negb (message_type =? SYNCHRONIZE_MESSAGE_TYPE) then fail_at (DInvalidField "messageType" "invalid message type")
    else target_user_id ← ReadCursor.read_u16; mret (mkSynchronize target_user_id) |}.

Record ControlPdu := mkControl { action : ControlAction.t; grant_id : Z; control_id : Z }.
#[export] Instance ControlPdu_Encode : Encode ControlPdu := {|
  encode_into p :=
    _ ← WriteCursor.ensure_size CONTROL_PDU_SIZE;
    _ ← WriteCursor.write_u16 (ControlAction.as_u16 (action p));
    _ ← WriteCursor.write_u16 (grant_id p);
    WriteCursor.write_u32 (control_id p);
  size _ := CONTROL_PDU_SIZE |}.
#[export] Instance ControlPdu_Decode : Decode ControlPdu := {|
  decode_from :=
    _ ← ReadCursor.ensure_size CONTROL_PDU_SIZE;
    a ← ReadCursor.read_u16;
    action ← field_or "action" "invalid control action" (ControlAction.from_u16 a);
    grant_id ← ReadCursor.read_u16;
    control_id ← ReadCursor.read_u32;
    mret (mkControl action grant_id control_id) |}.

Module SequenceFlags.
Definition FIRST : Z := 1.
Definition LAST : Z := 2.
Definition all : Z := 3.
End SequenceFlags.

(** [Flags::from_bits(bits)]: the known bits, if there are no others. *)
Definition from_bits `{Bitflags} (all bits : Z) : option Z :=
  if from_bits_truncate all bits =? bits then Some bits else None.

Record FontPdu := mkFont { font_number : Z; font_total_number : Z; font_flags : Z; font_entry_size : Z }.
Definition FontPdu_default `{Bitflags} : FontPdu := mkFont 0 0 (union SequenceFlags.FIRST SequenceFlags.LAST) 4.
#[export] Instance FontPdu_Encode : Encode FontPdu := {|
  encode_into p :=
    _ ← WriteCursor.ensure_size FONT_PDU_SIZE;
    _ ← WriteCursor.write_u16 (font_number p);
    _ ← WriteCursor.write_u16 (font_total_number p);
    _ ← WriteCursor.write_u16 (font_flags p);
    WriteCursor.write_u16 (font_entry_size p);
  size _ := FONT_PDU_SIZE |}.
#[export] Instance FontPdu_Decode `{Bitflags} : Decode FontPdu := {|
  decode_from :=
    _ ← ReadCursor.ensure_size FONT_PDU_SIZE;
    number ← ReadCursor.read_u16;
    total_number ← ReadCursor.read_u16;
    f ← ReadCursor.read_u16;
    flags ← field_or "flags" "invalid sequence flags" (from_bits SequenceFlags.all f);
    entry_size ← ReadCursor.read_u16;
    mret (mkFont number total_number flags entry_size) |}.

Definition MONITOR_SIZE : Z := 20.
Record Monitor := mkMonitor {
  monitor_left : Z; monitor_top : Z; monitor_right : Z; monitor_bottom : Z; monitor_flags : Z }.
#[export] Instance Monitor_Encode : Encode Monitor := {|
  encode_into m :=
    _ ← WriteCursor.ensure_size MONITOR_SIZE;
    _ ← WriteCursor.write_i32 (monitor_left m);
    _ ← WriteCursor.write_i32 (monitor_top m);
    _ ← WriteCursor.write_i32 (monitor_right m);
    _ ← WriteCursor.write_i32 (monitor_bottom m);
    WriteCursor.write_u32 (monitor_flags m);
  size _ := MONITOR_SIZE |}.
#[export] Instance Monitor_Decode : Decode Monitor := {|
  decode_from :=
    _ ← ReadCursor.ensure_size MONITOR_SIZE;
    left ← ReadCursor.read_i32;
    top ← ReadCursor.read_i32;
    right ← ReadCursor.read_i32;
    bottom ← ReadCursor.read_i32;
    flags ← ReadCursor.read_u32;
    mret (mkMonitor left top right bottom flags) |}.

Record MonitorLayoutPdu := mkMonitorLayout { monitors : list Monitor }.
#[export] Instance MonitorLayoutPdu_Encode : Encode MonitorLayoutPdu := {|
  encode_into p :=
    _ ← WriteCursor.ensure_size 4;
    n ← cast_length_at "nMonitors" 4294967295 (llen (monitors p));
    _ ← WriteCursor.write_u32 n;
    iter_m encode_into (monitors p);
  size p := 4 + llen (monitors p) * MONITOR_SIZE |}.
#[export] Instance MonitorLayoutPdu_Decode : Decode MonitorLayoutPdu := {|
  decode_from :=
    _ ← ReadCursor.ensure_size 4;
    monitor_count ← ReadCursor.read_u32;
    if MAX_MONITOR_COUNT <? monitor_count then fail_at (DInvalidField "nMonitors" "invalid monitor count")
    else monitors ← repeat_m (Z.to_nat monitor_count) decode_from; mret (mkMonitorLayout monitors) |}.

Record FrameAcknowledgePdu := mkFrameAcknowledge { frame_id : Z }.
#[export] Instance FrameAcknowledgePdu_Encode : Encode FrameAcknowledgePdu := {|
  encode_into p := _ ← WriteCursor.ensure_size 4; WriteCursor.write_u32 (frame_id p);
  size _ := 4 |}.
#[export] Instance FrameAcknowledgePdu_Decode : Decode FrameAcknowledgePdu := {|
  decode_from := _ ← ReadCursor.ensure_size 4; frame_id ← ReadCursor.read_u32; mret (mkFrameAcknowledge frame_id) |}.

Record ServerSetErrorInfoPdu := mkSetErrorInfo { error_info : ErrorInfo }.
#[export] Instance ServerSetErrorInfoPdu_Encode : Encode ServerSetErrorInfoPdu := {|
  encode_into p := _ ← WriteCursor.ensure_size 4; WriteCursor.write_u32 (ErrorInfo_as_u32 (error_info p));
  size _ := 4 |}.
#[export] Instance ServerSetErrorInfoPdu_Decode : Decode ServerSetErrorInfoPdu := {|
  decode_from :=
    _ ← ReadCursor.ensure_size 4;
    n ← ReadCursor.read_u32;
    error_info ← field_or "errorInfo" "unexpected info code" (ErrorInfo_from_u32 n);
    mret (mkSetErrorInfo error_info) |}.

Record InclusiveRectangle := mkInclusive { rect_left : Z; rect_top : Z; rect_right : Z; rect_bottom : Z }.
#[export] Instance InclusiveRectangle_Encode : Encode InclusiveRectangle := {|
  encode_into r :=
    _ ← WriteCursor.ensure_size 8;
    _ ← WriteCursor.write_u16 (rect_left r);
    _ ← WriteCursor.write_u16 (rect_top r);
    _ ← WriteCursor.write_u16 (rect_right r);
    WriteCursor.write_u16 (rect_bottom r);
  size _ := 8 |}.
#[export] Instance InclusiveRectangle_Decode : Decode InclusiveRectangle := {|
  decode_from :=
    _ ← ReadCursor.ensure_size 8;
    left ← ReadCursor.read_u16;
    top ← ReadCursor.read_u16;
    right ← ReadCursor.read_u16;
    bottom ← ReadCursor.read_u16;
    mret (mkInclusive left top right bottom) |}.

Record SuppressOutputPdu := mkSuppressOutput { desktop_rect : option InclusiveRectangle }.
#[export] Instance SuppressOutputPdu_Encode : Encode SuppressOutputPdu := {|
  encode_into p :=
    _ ← WriteCursor.ensure_size (4 + opt_size (desktop_rect p));
    let allow_display_updates :=
      if desktop_rect p then AllowDisplayUpdatesType.AllowDisplayUpdates
      else AllowDisplayUpdatesType.SuppressDisplayUpdates in
    _ ← WriteCursor.write_u8 (AllowDisplayUpdatesType.as_u8 allow_display_updates);
    _ ← WriteCursor.write_padding 3;
    match desktop_rect p with Some rect => encode_into rect | None => mret tt end;
  size p := 4 + opt_size (desktop_rect p) |}.
#[export] Instance SuppressOutputPdu_Decode : Decode SuppressOutputPdu := {|
  decode_from :=
    _ ← ReadCursor.ensure_size 4;
    v ← ReadCursor.read_u8;
    allow_display_updates ← field_or "allowDisplayUpdates" "invalid display update type" (AllowDisplayUpdatesType.from_u8 v);
    _ ← ReadCursor.read_padding 3;
    match allow_display_updates with
    | AllowDisplayUpdatesType.AllowDisplayUpdates => rect ← decode_from; mret (mkSuppressOutput (Some rect))
    | AllowDisplayUpdatesType.SuppressDisplayUpdates => mret (mkSuppressOutput None)
    end |}.

Record RefreshRectanglePdu := mkRefreshRectangle { areas_to_refresh : list InclusiveRectangle }.
Definition RefreshRectanglePdu_size (p : RefreshRectanglePdu) : Z := 4 + 8 * llen (areas_to_refresh p).
#[export] Instance RefreshRectanglePdu_Encode : Encode RefreshRectanglePdu := {|
  encode_into p :=
    _ ← WriteCursor.ensure_size (RefreshRectanglePdu_size p);
    n_areas ← cast_length_at "nAreas" 255 (llen (areas_to_refresh p));
    _ ← WriteCursor.write_u8 n_areas;
    _ ← WriteCursor.write_padding 3;
    iter_m encode_into (areas_to_refresh p);
  size := RefreshRectanglePdu_size |}.
#[export] Instance RefreshRectanglePdu_Decode : Decode RefreshRectanglePdu := {|
  decode_from :=
    _ ← ReadCursor.ensure_size 4;
    number_of_areas ← ReadCursor.read_u8;
    _ ← ReadCursor.read_padding 3;
    areas ← repeat_m (Z.to_nat number_of_areas) decode_from;
    mret (mkRefreshRectangle areas) |}.

Inductive ServerDeactivateAll := mkDeactivateAll.
#[export] Instance ServerDeactivateAll_Encode : Encode ServerDeactivateAll := {|
  encode_into _ := _ ← WriteCursor.ensure_size 3; _ ← WriteCursor.write_u16 1; WriteCursor.write_u8 0;
  size _ := 3 |}.
#[export] Instance ServerDeactivateAll_Decode : Decode ServerDeactivateAll := {|
  decode_from :=
    n ← gets ReadCursor.len;
    if 3 <=? n then
      length_source_descriptor ← ReadCursor.read_u16;
      _ ← ReadCursor.ensure_size length_source_descriptor;
      _ ← ReadCursor.read_slice (Z.to_nat length_source_descriptor);
      mret mkDeactivateAll
    else mret mkDeactivateAll |}.

(** ** The interface to the other bodies *)

(** What the layers below promise of a PDU type: with enough room the encoder
    writes bytes that depend on the PDU alone, exactly as many as [size] says,
    or reports an error; and the decoder does not panic. *)
Class PduBody (T : Type) {E : Encode T} {D : Decode T} := {
  body_encodes (p : T) :
    (exists bs, writes p bs /\ bytes_ok bs) \/
    (0 <= size p /\ forall c, size p <= WriteCursor.len c -> exists e, encode_into p c = Err e);
  body_safe : safe 0 (decode_from (A := T)) 0 (fun _ => True);
}.

Class ShareBodies := {
  (** The capability sets other than Bitmap. *)
  OtherCapabilitySet : Type;
  SaveSessionInfoPdu : Type;
  InputEventPdu : Type;
}.

Record Bitmap := mkBitmap {
  pref_bits_per_pix : Z; bitmap_desktop_width : Z; bitmap_desktop_height : Z; desktop_resize_flag : bool;
  bitmap_drawing_flags : Z }.
Inductive CapabilitySet `{ShareBodies} := CapBitmap (b : Bitmap) | CapOther (o : OtherCapabilitySet).

Record DemandActive `{ShareBodies} := mkDemandActive { source_descriptor : string; capability_sets : list CapabilitySet }.
Record ServerDemandActive `{ShareBodies} := mkServerDemandActive { sda_pdu : DemandActive }.
Record ClientConfirmActive `{ShareBodies} := mkClientConfirmActive { cca_originator_id : Z; cca_pdu : DemandActive }.
Arguments mkDemandActive {_} _ _.
Arguments mkServerDemandActive {_} _.
Arguments mkClientConfirmActive {_} _ _.

Class ShareCodecs `{ShareBodies} := {
  ServerDemandActive_Encode :: Encode ServerDemandActive;
  ServerDemandActive_Decode :: Decode ServerDemandActive;
  ClientConfirmActive_Encode :: Encode ClientConfirmActive;
  ClientConfirmActive_Decode :: Decode ClientConfirmActive;
  SaveSessionInfoPdu_Encode :: Encode SaveSessionInfoPdu;
  SaveSessionInfoPdu_Decode :: Decode SaveSessionInfoPdu;
  InputEventPdu_Encode :: Encode InputEventPdu;
  InputEventPdu_Decode :: Decode InputEventPdu;
}.

Section share.
Context {BF : Bitflags} {SB : ShareBodies} {SC : ShareCodecs}.

(** ** Share Data *)

Inductive ShareDataPdu :=
| Synchronize (pdu : SynchronizePdu)
| Control (pdu : ControlPdu)
| FontList (pdu : FontPdu)
| FontMap (pdu : FontPdu)
| MonitorLayout (pdu : MonitorLayoutPdu)
| SaveSessionInfo (pdu : SaveSessionInfoPdu)
| FrameAcknowledge (pdu : FrameAcknowledgePdu)
| ServerSetErrorInfo (pdu : ServerSetErrorInfoPdu)
| Input (pdu : InputEventPdu)
| ShutdownRequest
| ShutdownDenied
| SuppressOutput (pdu : SuppressOutputPdu)
| RefreshRectangle (pdu : RefreshRectanglePdu)
| Update (buffer : list Z)
| Pointer (buffer : list Z)
| PlaySound (buffer : list Z)
| SetKeyboardIndicators (buffer : list Z)
| BitmapCachePersistentList (buffer : list Z)
| BitmapCacheErrorPdu (buffer : list Z)
| SetKeyboardImeStatus (buffer : list Z)
| OffscreenCacheErrorPdu (buffer : list Z)
| DrawNineGridErrorPdu (buffer : list Z)
| DrawGdiPusErrorPdu (buffer : list Z)
| ArcStatusPdu (buffer : list Z)
| StatusInfoPdu (buffer : list Z)
| Compressed (pdu_type : ShareDataPduType.t) (data : list Z).

Definition share_header_type (p : ShareDataPdu) : ShareDataPduType.t :=
  match p with
  | Synchronize _ => ShareDataPduType.Synchronize
  | Control _ => ShareDataPduType.Control
  | FontList _ => ShareDataPduType.FontList
  | FontMap _ => ShareDataPduType.FontMap
  | MonitorLayout _ => ShareDataPduType.MonitorLayoutPdu
  | SaveSessionInfo _ => ShareDataPduType.SaveSessionInfo
  | FrameAcknowledge _ => ShareDataPduType.FrameAcknowledgePdu
  | ServerSetErrorInfo _ => ShareDataPduType.SetErrorInfoPdu
  | Input _ => ShareDataPduType.Input
  | ShutdownRequest => ShareDataPduType.ShutdownRequest
  | ShutdownDenied => ShareDataPduType.ShutdownDenied
  | SuppressOutput _ => ShareDataPduType.SuppressOutput
  | RefreshRectangle _ => ShareDataPduType.RefreshRectangle
  | Update _ => ShareDataPduType.Update
  | Pointer _ => ShareDataPduType.Pointer
  | PlaySound _ => ShareDataPduType.PlaySound
  | SetKeyboardIndicators _ => ShareDataPduType.SetKeyboardIndicators
  | BitmapCachePersistentList _ => ShareDataPduType.BitmapCachePersistentList
  | BitmapCacheErrorPdu _ => ShareDataPduType.BitmapCacheErrorPdu
  | SetKeyboardImeStatus _ => ShareDataPduType.SetKeyboardImeStatus
  | OffscreenCacheErrorPdu _ => ShareDataPduType.OffscreenCacheErrorPdu
  | DrawNineGridErrorPdu _ => ShareDataPduType.DrawNineGridErrorPdu
  | DrawGdiPusErrorPdu _ => ShareDataPduType.DrawGdiPusErrorPdu
  | ArcStatusPdu _ => ShareDataPduType.ArcStatusPdu
  | StatusInfoPdu _ => ShareDataPduType.StatusInfoPdu
  | Compressed pdu_type _ => pdu_type
  end.

(** [src.remaining().to_vec()], which does not advance *)
Definition remaining_of (f : list Z -> ShareDataPdu) : Decoder ShareDataPdu :=
  data ← gets ReadCursor.remaining; mret (f data).
Definition body_of {T} `{Decode T} (f : T -> ShareDataPdu) : Decoder ShareDataPdu := pdu ← decode_from; mret (f pdu).

Definition ShareDataPdu_from_type (share_type : ShareDataPduType.t) : Decoder ShareDataPdu :=
  match share_type with
  | ShareDataPduType.Synchronize => body_of Synchronize
  | ShareDataPduType.Control => body_of Control
  | ShareDataPduType.FontList => body_of FontList
  | ShareDataPduType.FontMap =>
      empty ← gets ReadCursor.is_empty;
      if (empty : bool) then mret (FontMap FontPdu_default) else body_of FontMap
  | ShareDataPduType.MonitorLayoutPdu => body_of MonitorLayout
  | ShareDataPduType.SaveSessionInfo => body_of SaveSessionInfo
  | ShareDataPduType.FrameAcknowledgePdu => body_of FrameAcknowledge
  | ShareDataPduType.SetErrorInfoPdu => body_of ServerSetErrorInfo
  | ShareDataPduType.Input => body_of Input
  | ShareDataPduType.ShutdownRequest => mret ShutdownRequest
  | ShareDataPduType.ShutdownDenied => mret ShutdownDenied
  | ShareDataPduType.SuppressOutput => body_of SuppressOutput
  | ShareDataPduType.RefreshRectangle => body_of RefreshRectangle
  | ShareDataPduType.Update => remaining_of Update
  | ShareDataPduType.Pointer => remaining_of Pointer
  | ShareDataPduType.PlaySound => remaining_of PlaySound
  | ShareDataPduType.SetKeyboardIndicators => remaining_of SetKeyboardIndicators
  | ShareDataPduType.BitmapCachePersistentList => remaining_of BitmapCachePersistentList
  | ShareDataPduType.BitmapCacheErrorPdu => remaining_of BitmapCacheErrorPdu
  | ShareDataPduType.SetKeyboardImeStatus => remaining_of SetKeyboardImeStatus
  | ShareDataPduType.OffscreenCacheErrorPdu => remaining_of OffscreenCacheErrorPdu
  | ShareDataPduType.DrawNineGridErrorPdu => remaining_of DrawNineGridErrorPdu
  | ShareDataPduType.DrawGdiPusErrorPdu => remaining_of DrawGdiPusErrorPdu
  | ShareDataPduType.ArcStatusPdu => remaining_of ArcStatusPdu
  | ShareDataPduType.StatusInfoPdu => remaining_of StatusInfoPdu
  end.

Definition ShareDataPdu_encode (p : ShareDataPdu) : Encoder unit :=
  match p with
  | Synchronize pdu => encode_into pdu
  | Control pdu => encode_into pdu
  | FontList pdu | FontMap pdu => encode_into pdu
  | MonitorLayout pdu => encode_into pdu
  | SaveSessionInfo pdu => encode_into pdu
  | FrameAcknowledge pdu => encode_into pdu
  | ServerSetErrorInfo pdu => encode_into pdu
  | Input pdu => encode_into pdu
  | ShutdownRequest | ShutdownDenied => mret tt
  | SuppressOutput pdu => encode_into pdu
  | RefreshRectangle pdu => encode_into pdu
  | Update buffer | Pointer buffer => _ ← WriteCursor.ensure_size (llen buffer); WriteCursor.write_slice buffer
  | Compressed _ _ => fail (EOther "Encoding compressed Share Data PDU is not implemented")
  | _ => fail (EOther "Encoding not implemented")
  end.

Definition ShareDataPdu_size (p : ShareDataPdu) : Z :=
  match p with
  | Synchronize pdu => size pdu
  | Control pdu => size pdu
  | FontList pdu | FontMap pdu => size pdu
  | MonitorLayout pdu => size pdu
  | SaveSessionInfo pdu => size pdu
  | FrameAcknowledge pdu => size pdu
  | ServerSetErrorInfo pdu => size pdu
  | Input pdu => size pdu
  | ShutdownRequest | ShutdownDenied => 0
  | SuppressOutput pdu => size pdu
  | RefreshRectangle pdu => size pdu
  | Update buffer | Pointer buffer | PlaySound buffer | SetKeyboardIndicators buffer | BitmapCachePersistentList buffer
  | BitmapCacheErrorPdu buffer | SetKeyboardImeStatus buffer | OffscreenCacheErrorPdu buffer
  | DrawNineGridErrorPdu buffer | DrawGdiPusErrorPdu buffer | ArcStatusPdu buffer | StatusInfoPdu buffer
  | Compressed _ buffer => llen buffer
  end.

Definition SHARE_DATA_HEADER_COMPRESSION_MASK : Z := 0xF.
Definition SHARE_DATA_FIXED_PART_SIZE : Z := 8.

Record ShareDataHeader := mkShareData {
  share_data_pdu : ShareDataPdu;
  stream_priority : StreamPriority.t;
  compression_flags : Z;
  compression_type : CompressionType.t;
}.

Definition ShareDataHeader_size (h : ShareDataHeader) : Z :=
  SHARE_DATA_FIXED_PART_SIZE + ShareDataPdu_size (share_data_pdu h).
Definition ShareDataHeader_encode (h : ShareDataHeader) : Encoder unit :=
  _ ← WriteCursor.ensure_size (ShareDataHeader_size h);
  if compression_flags h =? 0 then
    let compression_flags_with_type := Z.lor (compression_flags h) (CompressionType.as_u8 (compression_type h)) in
    _ ← WriteCursor.write_padding 1;
    _ ← WriteCursor.write_u8 (StreamPriority.as_u8 (stream_priority h));
    n ← cast_length_at "uncompressedLength" 65535 (ShareDataPdu_size (share_data_pdu h));
    _ ← WriteCursor.write_u16 n;
    _ ← WriteCursor.write_u8 (ShareDataPduType.as_u8 (share_header_type (share_data_pdu h)));
    _ ← WriteCursor.write_u8 compression_flags_with_type;
    _ ← WriteCursor.write_u16 0;
    ShareDataPdu_encode (share_data_pdu h)
  else fail (EOther "Compression is not implemented").

Definition ShareDataHeader_decode : Decoder ShareDataHeader :=
  _ ← ReadCursor.ensure_size SHARE_DATA_FIXED_PART_SIZE;
  _ ← ReadCursor.read_padding 1;
  s ← ReadCursor.read_u8;
  stream_priority ← field_or "streamPriority" "Invalid stream priority" (StreamPriority.from_u8 s);
  _ ← ReadCursor.read_u16;
  t ← ReadCursor.read_u8;
  pdu_type ← field_or "pduType" "Invalid pdu type" (ShareDataPduType.from_u8 t);
  compression_flags_with_type ← ReadCursor.read_u8;
  let compression_flags := Z.ldiff compression_flags_with_type SHARE_DATA_HEADER_COMPRESSION_MASK in
  compression_type ← field_or "compressionType" "Invalid compression type"
    (CompressionType.from_u8 (Z.land compression_flags_with_type SHARE_DATA_HEADER_COMPRESSION_MASK));
  _ ← ReadCursor.read_u16;
  share_data_pdu ←
    (if compression_flags =? 0 then ShareDataPdu_from_type pdu_type
     else data ← ReadCursor.read_remaining; mret (Compressed pdu_type data));
  mret (mkShareData share_data_pdu stream_priority compression_flags compression_type).

(** ** Share Control *)

Inductive ShareControlPdu :=
| PduDemandActive (pdu : ServerDemandActive)
| PduConfirmActive (pdu : ClientConfirmActive)
| PduData (pdu : ShareDataHeader)
| PduDeactivateAll (pdu : ServerDeactivateAll).

Definition ShareControlPdu_type (p : ShareControlPdu) : ShareControlPduType.t :=
  match p with
  | PduDemandActive _ => ShareControlPduType.DemandActivePdu
  | PduConfirmActive _ => ShareControlPduType.ConfirmActivePdu
  | PduData _ => ShareControlPduType.DataPdu
  | PduDeactivateAll _ => ShareControlPduType.DeactivateAllPdu
  end.
Definition ShareControlPdu_from_type (share_type : ShareControlPduType.t) : Decoder ShareControlPdu :=
  match share_type with
  | ShareControlPduType.DemandActivePdu => pdu ← decode_from; mret (PduDemandActive pdu)
  | ShareControlPduType.ConfirmActivePdu => pdu ← decode_from; mret (PduConfirmActive pdu)
  | ShareControlPduType.DataPdu => pdu ← ShareDataHeader_decode; mret (PduData pdu)
  | ShareControlPduType.DeactivateAllPdu => pdu ← decode_from; mret (PduDeactivateAll pdu)
  | ShareControlPduType.ServerRedirect => fail_at (DInvalidField "share_type" "unexpected share control PDU type")
  end.
Definition ShareControlPdu_encode (p : ShareControlPdu) : Encoder unit :=
  match p with
  | PduDemandActive pdu => encode_into pdu
  | PduConfirmActive pdu => encode_into pdu
  | PduData pdu => ShareDataHeader_encode pdu
  | PduDeactivateAll pdu => encode_into pdu
  end.
Definition ShareControlPdu_size (p : ShareControlPdu) : Z :=
  match p with
  | PduDemandActive pdu => size pdu
  | PduConfirmActive pdu => size pdu
  | PduData pdu => ShareDataHeader_size pdu
  | PduDeactivateAll pdu => size pdu
  end.

Definition SHARE_CONTROL_HEADER_MASK : Z := 0xF.
Definition SHARE_CONTROL_HEADER_SIZE : Z := 10.
Definition SHARE_CONTROL_HEADER_WIRE_SIZE : Z := 6.
Definition PROTOCOL_VERSION : Z := 0x10.

Record ShareControlHeader := mkShareControl { share_control_pdu : ShareControlPdu; pdu_source : Z; share_id : Z }.

Definition ShareControlHeader_size (h : ShareControlHeader) : Z :=
  SHARE_CONTROL_HEADER_SIZE + ShareControlPdu_size (share_control_pdu h).
Definition ShareControlHeader_encode (h : ShareControlHeader) : Encoder unit :=
  _ ← WriteCursor.ensure_size (ShareControlHeader_size h);
  let pdu_type_with_version :=
    Z.lor PROTOCOL_VERSION (ShareControlPduType.as_u16 (ShareControlPdu_type (share_control_pdu h))) in
  n ← cast_length_at "len" 65535 (ShareControlPdu_size (share_control_pdu h) + SHARE_CONTROL_HEADER_SIZE);
  _ ← WriteCursor.write_u16 n;
  _ ← WriteCursor.write_u16 pdu_type_with_version;
  _ ← WriteCursor.write_u16 (pdu_source h);
  _ ← WriteCursor.write_u32 (share_id h);
  ShareControlPdu_encode (share_control_pdu h).
#[export] Instance ShareControlHeader_Encode : Encode ShareControlHeader :=
  {| encode_into := ShareControlHeader_encode; size := ShareControlHeader_size |}.

Definition is_empty_output (p : ShareControlPdu) : bool :=
  match p with
  | PduData h => match share_data_pdu h with Update [] | Pointer [] => true | _ => false end
  | _ => false
  end.
Definition is_font_map (p : ShareControlPdu) : bool :=
  match p with
  | PduData h => match share_data_pdu h with FontMap _ => true | _ => false end
  | _ => false
  end.

(** The checks of a Data PDU against the declared length. *)
Definition check_total_length (total_length : Z) (header : ShareControlHeader) : Decoder unit :=
  let header_length := ShareControlHeader_size header in
  let is_zero_length_empty_output_pdu := (total_length =? 0) && is_empty_output (share_control_pdu header) in
  let is_header_length_font_map :=
    (total_length =? SHARE_CONTROL_HEADER_SIZE + SHARE_DATA_FIXED_PART_SIZE) && is_font_map (share_control_pdu header) in
  if header_length <? total_length then
    let padding := total_length - header_length in
    _ ← ReadCursor.ensure_size padding;
    ReadCursor.read_padding (Z.to_nat padding)
  else if (total_length <? header_length) && negb is_header_length_font_map && negb is_zero_length_empty_output_pdu then
    fail (DNotEnoughBytes total_length header_length None)
  else mret tt.

Definition ShareControlHeader_decode : Decoder ShareControlHeader :=
  _ ← ReadCursor.ensure_size SHARE_CONTROL_HEADER_WIRE_SIZE;
  total_length ← ReadCursor.read_u16;
  pdu_type_with_version ← ReadCursor.read_u16;
  pdu_source ← ReadCursor.read_u16;
  n ← gets ReadCursor.len;
  share_id ← (if 4 <=? n then ReadCursor.read_u32 else mret 0);
  pdu_type ← field_or "pdu_type" "invalid pdu type"
    (ShareControlPduType.from_u16 (Z.land pdu_type_with_version SHARE_CONTROL_HEADER_MASK));
  let pdu_version := Z.ldiff pdu_type_with_version SHARE_CONTROL_HEADER_MASK in
  if negb (pdu_version =? PROTOCOL_VERSION) then fail_at (DInvalidField "pdu_version" "invalid PDU version")
  else
    share_pdu ← ShareControlPdu_from_type pdu_type;
    let header := mkShareControl share_pdu pdu_source share_id in
    match pdu_type with
    | ShareControlPduType.DataPdu => _ ← check_total_length total_length header; mret header
    | _ => mret header
    end.
#[export] Instance ShareControlHeader_Decode : Decode ShareControlHeader := {| decode_from := ShareControlHeader_decode |}.

(** [util::wrap_share_data] of the acceptor *)
Definition wrap_share_data (pdu : ShareDataPdu) (pdu_source : Z) : ShareControlHeader :=
  mkShareControl (PduData (mkShareData pdu StreamPriority.Undefined 0 CompressionType.K8)) pdu_source 0.

End share.
