(* ===== verification/ShareCodec.v ===== *)
(** Share Control and Share Data PDUs round-trip, and no byte string makes
    their decoders panic. *)

From S2P Require Import Prelude Cursor Codec Flags WriteBuf Mcs McsCodec AutoDetect ShareData.

(** ** Reads with room counted down *)

Section at_.
Context {E : Type} (n : Z).
Lemma safe_u8_at : 1 <= n -> safe n (ReadCursor.read_u8 (E := E)) (n - 1) is_u8.
Proof. intros H. replace n with (n - 1 + 1) at 1 by lia. apply safe_u8. lia. Qed.
Lemma safe_u16_at : 2 <= n -> safe n (ReadCursor.read_u16 (E := E)) (n - 2) is_u16.
Proof. intros H. replace n with (n - 2 + 2) at 1 by lia. apply safe_u16. lia. Qed.
Lemma safe_u32_at : 4 <= n -> safe n (ReadCursor.read_u32 (E := E)) (n - 4) is_u32.
Proof. intros H. replace n with (n - 4 + 4) at 1 by lia. apply safe_u32. lia. Qed.
Lemma safe_pad_at k : Z.of_nat k <= n -> safe n (ReadCursor.read_padding (E := E) k) (n - Z.of_nat k) (fun _ => True).
Proof. intros H. replace n with (n - Z.of_nat k + Z.of_nat k) at 1 by lia. apply safe_padding. lia. Qed.

Definition is_i32 (x : Z) : Prop := -2147483648 <= x < 2147483648.

Lemma to_signed_32 x : is_u32 x -> is_i32 (to_signed 32 x).
Proof. intros H. unfold is_i32, to_signed. destruct (Z.ltb_spec x (2 ^ (32 - 1))); width. Qed.

Lemma safe_i32_at : 4 <= n -> safe n (ReadCursor.read_i32 (E := E)) (n - 4) is_i32.
Proof.
  intros H. replace n with (n - 4 + Z.of_nat 4) at 1 by lia.
  apply (safe_int (n - 4) 4 (fun bs => to_signed 32 (from_le_bytes bs))); [lia|done|].
  intros bs Hl Hb. apply to_signed_32. apply from_le_bytes_range in Hb. unfold llen in Hb. by rewrite Hl in Hb.
Qed.

Lemma decodes_i32 x : is_i32 x -> decodes (ReadCursor.read_i32 (E := E)) (to_le_bytes 4 x) x.
Proof.
  intros Hx. eapply decodes_last; [apply decodes_read_array, length_to_le_bytes|].
  rewrite from_to_le_bytes. change (256 ^ Z.of_nat 4) with 4294967296. unfold is_i32 in Hx.
  replace (to_signed 32 (x mod 4294967296)) with x; [apply decodes_ret|]. unfold to_signed.
  change (2 ^ (32 - 1)) with 2147483648. change (2 ^ 32) with 4294967296. destruct (Z_lt_le_dec x 0).
  - rewrite <- (Z.mod_add x 1), Z.mod_small by lia. destruct (Z.ltb_spec (x + 1 * 4294967296) 2147483648); lia.
  - rewrite Z.mod_small by lia. destruct (Z.ltb_spec x 2147483648); lia.
Qed.

Lemma safe_done {A} (a : A) (P : A -> Prop) : 0 <= n -> P a -> safe n (mret a : Reader E A) 0 P.
Proof. intros Hn HP. eapply safe_weaken; [by apply safe_ret|done|done|done]. Qed.

Lemma safe_more {A} m (d : Reader E A) P : m <= n -> safe m d 0 P -> safe n d 0 P.
Proof. intros Hm Hd. by eapply safe_weaken. Qed.

End at_.

Lemma safe_decode {T} {D : Decode T} Q bs :
  safe 0 (decode_from (A := T)) 0 Q -> bytes_ok bs ->
  decode T bs <> Panic /\ forall a, decode T bs = Ok a -> Q a.
Proof.
  intros Hs Hb. specialize (Hs (ReadCursor.mk bs 0)). unfold decode, ReadCursor.new.
  destruct (decode_from _) as [[a c]| |]; (split; [try done|intros a' Ha; try done]).
  - injection Ha as <-. apply Hs; [split; cbn; [lia|done]|]. unfold ReadCursor.len, llen. cbn. lia.
  - intros _. apply Hs; [split; cbn; [lia|done]|]. unfold ReadCursor.len, llen. cbn. lia.
Qed.

Lemma encodes_i32 {E} x : encodes (WriteCursor.write_i32 (E := E) x) (to_le_bytes 4 x).
Proof. apply encodes_write_slice. Qed.

Lemma safe_field_or {A} n field reason (o : option A) (P : A -> Prop) :
  (forall a, o = Some a -> P a) -> safe n (field_or field reason o) n P.
Proof. intros H. destruct o; cbn; [by apply safe_ret, H|apply safe_fail_at]. Qed.
Lemma decodes_field_or {A} field reason (o : option A) a :
  o = Some a -> decodes (field_or field reason o) [] a.
Proof. intros ->. apply decodes_ret. Qed.

(** Steps through the reads of fixed-size fields. *)
Ltac sread :=
  eapply safe_bind; [first
    [ apply safe_ensure | apply safe_u8_at; lia | apply safe_u16_at; lia | apply safe_u32_at; lia | apply safe_i32_at; lia
    | apply safe_pad_at; lia ]|intros ? ?; cbv beta].
Ltac dread :=
  eapply decodes_bind; [first
    [ by apply decodes_u8 | by apply decodes_u16 | by apply decodes_u32 | by apply decodes_i32 ]|].
Ltac fixed_size := rewrite ?llen_app, ?llen_le; done.

(** The length of a list written out. *)
Ltac lens := rewrite ?llen_app, ?llen_le, ?llen_cons; change (@llen Z []) with 0; lia.

(** ** Bodies *)

(** A body that marks its own end. *)
Class FramedCodec (A : Type) {E : Encode A} {D : Decode A} := {
  fc_wf : A -> Prop;
  fc_wire : A -> list Z;
  fc_writes a : fc_wf a -> writes a (fc_wire a);
  fc_bytes a : fc_wf a -> bytes_ok (fc_wire a);
  fc_decodes a : fc_wf a -> decodes decode_from (fc_wire a) a;
  fc_safe : safe 0 decode_from 0 fc_wf;
}.

#[export] Instance Synchronize_Framed : FramedCodec SynchronizePdu.
Proof.
  refine {| fc_wf p := is_u16 (target_user_id p); fc_wire p := to_le_bytes 2 SYNCHRONIZE_MESSAGE_TYPE ++ to_le_bytes 2 (target_user_id p) |}.
  - intros p _. split; [|fixed_size]. apply encodes_ensure; [fixed_size|]. apply encodes_bind; apply encodes_u16.
  - intros p _. apply Forall_app; split; apply to_le_bytes_ok.
  - intros [u] H. apply decodes_ensure; [fixed_size|]. dread. cbn [negb Z.eqb Pos.eqb SYNCHRONIZE_MESSAGE_TYPE].
    eapply decodes_last; [by apply decodes_u16|apply decodes_ret].
  - unfold decode_from, SynchronizePdu_Decode. sread. unfold SYNCHRONIZE_PDU_SIZE. sread. destruct (negb _); [apply safe_fail_at|].
    sread. by apply safe_done.
Defined.

#[export] Instance Control_Framed : FramedCodec ControlPdu.
Proof.
  refine {| fc_wf p := is_u16 (grant_id p) /\ is_u32 (control_id p);
    fc_wire p := to_le_bytes 2 (ControlAction.as_u16 (action p)) ++ to_le_bytes 2 (grant_id p) ++ to_le_bytes 4 (control_id p) |}.
  - intros p _. split; [|fixed_size]. apply encodes_ensure; [fixed_size|]. apply encodes_bind; [apply encodes_u16|].
    apply encodes_bind; [apply encodes_u16|apply encodes_u32].
  - intros p _. repeat (apply Forall_app; split); apply to_le_bytes_ok.
  - intros [a g c] [Hg Hc]. cbn [action grant_id control_id] in *. apply decodes_ensure; [fixed_size|].
    eapply decodes_bind; [apply decodes_u16; by destruct a|]. eapply decodes_bind_nil; [apply decodes_field_or; by destruct a|].
    dread. eapply decodes_last; [by apply decodes_u32|apply decodes_ret].
  - unfold decode_from, ControlPdu_Decode. sread. unfold CONTROL_PDU_SIZE. sread.
    eapply safe_bind; [apply (safe_field_or _ _ _ _ (fun _ => True)); done|]. intros a' _. sread. sread. by apply safe_done.
Defined.

Section font.
Context {BF : Bitflags}.

Lemma from_bits_some all x y : from_bits all x = Some y -> y = x /\ Z.land x all = x.
Proof. unfold from_bits. rewrite from_bits_truncate_bits. destruct (Z.eqb_spec (Z.land x all) x); by intros [= <-]. Qed.
Lemma from_bits_ok all x : Z.land x all = x -> from_bits all x = Some x.
Proof. intros H. unfold from_bits. by rewrite from_bits_truncate_bits, H, Z.eqb_refl. Qed.

#[export] Instance Font_Framed : FramedCodec FontPdu.
Proof.
  refine {| fc_wf p := is_u16 (font_number p) /\ is_u16 (font_total_number p) /\
      (is_u16 (font_flags p) /\ Z.land (font_flags p) SequenceFlags.all = font_flags p) /\ is_u16 (font_entry_size p);
    fc_wire p := to_le_bytes 2 (font_number p) ++ to_le_bytes 2 (font_total_number p) ++ to_le_bytes 2 (font_flags p)
      ++ to_le_bytes 2 (font_entry_size p) |}.
  - intros p _. split; [|fixed_size]. apply encodes_ensure; [fixed_size|]. repeat (apply encodes_bind; [apply encodes_u16|]). apply encodes_u16.
  - intros p _. repeat (apply Forall_app; split); apply to_le_bytes_ok.
  - intros [a b f e] (Ha & Hb & [Hf Hf'] & He). cbn [font_number font_total_number font_flags font_entry_size] in *.
    apply decodes_ensure; [fixed_size|]. dread. dread. dread. eapply decodes_bind_nil; [by apply decodes_field_or, from_bits_ok|].
    eapply decodes_last; [by apply decodes_u16|apply decodes_ret].
  - unfold decode_from, FontPdu_Decode. sread. unfold FONT_PDU_SIZE. do 3 sread.
    eapply safe_bind; [apply (safe_field_or _ _ _ _ (fun f => is_u16 f /\ Z.land f SequenceFlags.all = f))|].
    { intros f Hf. by apply from_bits_some in Hf as [-> ?]. }
    intros f Hf. sread. apply safe_done; [lia|]. cbn in *. tauto.
Defined.

Lemma FontPdu_default_wf : fc_wf FontPdu_default.
Proof. unfold FontPdu_default. cbn. rewrite union_bits. done. Qed.
End font.

#[export] Instance Monitor_Framed : FramedCodec Monitor.
Proof.
  refine {| fc_wf m := is_i32 (monitor_left m) /\ is_i32 (monitor_top m) /\ is_i32 (monitor_right m) /\
      is_i32 (monitor_bottom m) /\ is_u32 (monitor_flags m);
    fc_wire m := to_le_bytes 4 (monitor_left m) ++ to_le_bytes 4 (monitor_top m) ++ to_le_bytes 4 (monitor_right m)
      ++ to_le_bytes 4 (monitor_bottom m) ++ to_le_bytes 4 (monitor_flags m) |}.
  - intros m _. split; [|fixed_size]. apply encodes_ensure; [fixed_size|]. repeat (apply encodes_bind; [apply encodes_i32|]). apply encodes_u32.
  - intros m _. repeat (apply Forall_app; split); apply to_le_bytes_ok.
  - intros [l t r b f] (? & ? & ? & ? & ?). apply decodes_ensure; [fixed_size|]. do 4 dread.
    eapply decodes_last; [by apply decodes_u32|apply decodes_ret].
  - unfold decode_from, Monitor_Decode. sread. unfold MONITOR_SIZE. do 5 sread. apply safe_done; [lia|]. cbn in *. tauto.
Defined.

#[export] Instance Frame_Framed : FramedCodec FrameAcknowledgePdu.
Proof.
  refine {| fc_wf p := is_u32 (frame_id p); fc_wire p := to_le_bytes 4 (frame_id p) |}.
  - intros p _. split; [|fixed_size]. apply encodes_ensure; [fixed_size|]. apply encodes_u32.
  - intros p _. apply to_le_bytes_ok.
  - intros [f] H. apply decodes_ensure; [fixed_size|]. eapply decodes_last; [by apply decodes_u32|apply decodes_ret].
  - unfold decode_from, FrameAcknowledgePdu_Decode. do 2 sread. by apply safe_done.
Defined.

(** The codes of an error are those of its enumeration. *)
Lemma ErrorInfo_small n e : ErrorInfo_from_u32 n = Some e -> ErrorInfo_as_u32 e = n.
Proof. unfold ErrorInfo_from_u32. by repeat (case_bool_decide; [by intros [= <-]|]). Qed.

#[export] Instance ErrorInfo_Framed : FramedCodec ServerSetErrorInfoPdu.
Proof.
  refine {| fc_wf p := is_u32 (ErrorInfo_as_u32 (error_info p)) /\ ErrorInfo_from_u32 (ErrorInfo_as_u32 (error_info p)) = Some (error_info p);
    fc_wire p := to_le_bytes 4 (ErrorInfo_as_u32 (error_info p)) |}.
  - intros p _. split; [|fixed_size]. apply encodes_ensure; [fixed_size|]. apply encodes_u32.
  - intros p _. apply to_le_bytes_ok.
  - intros [e] [Hu He]. cbn [error_info] in *. apply decodes_ensure; [fixed_size|]. eapply decodes_last; [by apply decodes_u32|].
    eapply decodes_bind_nil; [by apply decodes_field_or|apply decodes_ret].
  - unfold decode_from, ServerSetErrorInfoPdu_Decode. do 2 sread. rename a0 into n.
    eapply safe_bind; [apply (safe_field_or _ _ _ _ (fun e => ErrorInfo_from_u32 n = Some e)); done|].
    intros e He. apply safe_done; [lia|]. cbn. by rewrite (ErrorInfo_small _ _ He).
Defined.

#[export] Instance Rectangle_Framed : FramedCodec InclusiveRectangle.
Proof.
  refine {| fc_wf r := is_u16 (rect_left r) /\ is_u16 (rect_top r) /\ is_u16 (rect_right r) /\ is_u16 (rect_bottom r);
    fc_wire r := to_le_bytes 2 (rect_left r) ++ to_le_bytes 2 (rect_top r) ++ to_le_bytes 2 (rect_right r) ++ to_le_bytes 2 (rect_bottom r) |}.
  - intros p _. split; [|fixed_size]. apply encodes_ensure; [fixed_size|]. repeat (apply encodes_bind; [apply encodes_u16|]). apply encodes_u16.
  - intros p _. repeat (apply Forall_app; split); apply to_le_bytes_ok.
  - intros [l t r b] (? & ? & ? & ?). apply decodes_ensure; [fixed_size|]. do 3 dread.
    eapply decodes_last; [by apply decodes_u16|apply decodes_ret].
  - unfold decode_from, InclusiveRectangle_Decode. do 5 sread. apply safe_done; [lia|]. cbn in *. tauto.
Defined.

Section lists.
Context {A : Type} {E : Encode A} {D : Decode A} {F : FramedCodec A} (n : Z) (Hn : forall a : A, size a = n).

Definition list_wire (xs : list A) : list Z := xs ≫= fc_wire.

Lemma llen_list_wire xs : Forall fc_wf xs -> llen (list_wire xs) = llen xs * n.
Proof.
  induction 1 as [|x xs Hx _ IH]; [done|]. unfold list_wire in *. rewrite bind_cons, llen_app, llen_cons, IH.
  destruct (fc_writes x Hx) as [_ Hs]. rewrite <- Hs, Hn. lia.
Qed.
Lemma list_wire_ok xs : Forall fc_wf xs -> bytes_ok (list_wire xs).
Proof. induction 1; [constructor|]. apply Forall_app. split; [by apply fc_bytes|done]. Qed.
Lemma encodes_list xs : Forall fc_wf xs -> encodes (iter_m encode_into xs) (list_wire xs).
Proof. intros H. apply encodes_iter. eapply Forall_impl; [exact H|]. intros x Hx. by apply fc_writes. Qed.
Lemma decodes_list k xs : Forall fc_wf xs -> k = length xs -> decodes (repeat_m k decode_from) (list_wire xs) xs.
Proof. intros H ->. apply decodes_repeat. eapply Forall_impl; [exact H|]. intros x Hx. by apply fc_decodes. Qed.
Lemma safe_list k : safe 0 (repeat_m k (decode_from (A := A))) 0 (fun l => length l = k /\ Forall fc_wf l).
Proof.
  induction k as [|k IH]; cbn [repeat_m]; [apply safe_ret; by split|].
  eapply safe_bind; [apply fc_safe|]. intros a Ha. eapply safe_bind; [exact IH|]. intros l [Hl Hw]. apply safe_ret.
  split; [cbn; by rewrite Hl|by constructor].
Qed.
End lists.

#[export] Instance MonitorLayout_Framed : FramedCodec MonitorLayoutPdu.
Proof.
  refine {| fc_wf p := llen (monitors p) <= MAX_MONITOR_COUNT /\ Forall fc_wf (monitors p);
    fc_wire p := to_le_bytes 4 (llen (monitors p)) ++ list_wire (monitors p) |}.
  - intros p [Hl Hw]. unfold MAX_MONITOR_COUNT in Hl. split.
    + apply encodes_ensure; [rewrite llen_app, llen_le; pose proof (llen_nonneg (list_wire (monitors p))); lia|].
      apply encodes_cast_length; [lia|]. apply encodes_bind; [apply encodes_u32|by apply encodes_list].
    + rewrite llen_app, llen_le, (llen_list_wire MONITOR_SIZE) by done. done.
  - intros p [_ Hw]. apply Forall_app. split; [apply to_le_bytes_ok|by apply list_wire_ok].
  - intros [ms] [Hl Hw]. cbn [monitors] in *. apply decodes_ensure; [rewrite llen_app, llen_le; pose proof (llen_nonneg (list_wire ms)); lia|].
    pose proof (llen_nonneg ms). unfold MAX_MONITOR_COUNT in *.
    eapply decodes_bind; [apply decodes_u32; width|]. rewrite (proj2 (Z.ltb_ge _ _)) by done.
    eapply decodes_last; [apply decodes_list; [done|unfold llen; lia]|apply decodes_ret].
  - unfold decode_from, MonitorLayoutPdu_Decode. do 2 sread. destruct (Z.ltb_spec MAX_MONITOR_COUNT a0); [apply safe_fail_at|].
    apply (safe_more _ 0); [lia|]. eapply safe_bind; [apply safe_list|]. intros l [Hl Hw]. apply safe_ret. cbn. split; [|done]. unfold llen. width.
Defined.

#[export] Instance SuppressOutput_Framed : FramedCodec SuppressOutputPdu.
Proof.
  refine {| fc_wf p := match desktop_rect p with Some r => fc_wf r | None => True end;
    fc_wire p := [if desktop_rect p then 1 else 0] ++ [0; 0; 0] ++ from_option fc_wire [] (desktop_rect p) |}.
  - intros [[r|]] Hw; cbn [desktop_rect from_option] in *.
    + destruct (fc_writes r Hw) as [He Hs]. split; [|cbn [size SuppressOutputPdu_Encode desktop_rect opt_size from_option]; rewrite Hs, !llen_app; done].
      apply encodes_ensure; [cbn [desktop_rect opt_size from_option]; rewrite Hs, !llen_app; done|]. apply encodes_bind; [by apply encodes_u8|].
      apply encodes_bind; [apply (encodes_padding 3)|done].
    + split; [|done]. apply encodes_ensure; [done|]. apply encodes_bind; [by apply encodes_u8|].
      apply encodes_bind; [apply (encodes_padding 3)|apply encodes_ret].
  - intros [[r|]] Hw; cbn [desktop_rect from_option] in *; (apply Forall_cons; split; [done|]); (apply Forall_app; split; [by repeat (apply Forall_cons; split)|]).
    + by apply fc_bytes.
    + done.
  - intros [[r|]] Hw; cbn [desktop_rect from_option] in *.
    + apply decodes_ensure; [pose proof (llen_nonneg (fc_wire r)); lens|]. eapply decodes_bind; [by apply decodes_u8|].
      eapply decodes_bind_nil; [by apply decodes_field_or|]. eapply decodes_bind; [apply (decodes_read_padding [0; 0; 0])|].
      eapply decodes_last; [by apply fc_decodes|apply decodes_ret].
    + apply decodes_ensure; [done|]. eapply decodes_bind; [by apply decodes_u8|].
      eapply decodes_bind_nil; [by apply decodes_field_or|]. eapply decodes_last; [apply (decodes_read_padding [0; 0; 0])|apply decodes_ret].
  - unfold decode_from, SuppressOutputPdu_Decode. do 2 sread.
    eapply safe_bind; [by apply (safe_field_or _ _ _ _ (fun _ => True))|]. intros u _. sread. destruct u; [by apply safe_done|].
    apply (safe_more _ 0); [lia|]. eapply safe_bind; [apply fc_safe|]. intros r Hr. by apply safe_ret.
Defined.

#[export] Instance RefreshRectangle_Framed : FramedCodec RefreshRectanglePdu.
Proof.
  refine {| fc_wf p := llen (areas_to_refresh p) <= 255 /\ Forall fc_wf (areas_to_refresh p);
    fc_wire p := [llen (areas_to_refresh p)] ++ [0; 0; 0] ++ list_wire (areas_to_refresh p) |}.
  - intros [rs] [Hl Hw]. cbn [areas_to_refresh] in *. pose proof (llen_nonneg rs).
    assert (Hs : RefreshRectanglePdu_size (mkRefreshRectangle rs) = llen ([llen rs] ++ [0; 0; 0] ++ list_wire rs)).
    { unfold RefreshRectanglePdu_size. cbn [areas_to_refresh]. rewrite !llen_app, (llen_list_wire 8) by done. lens. }
    split; [|exact Hs]. apply encodes_ensure; [lia|]. apply encodes_cast_length; [done|].
    apply encodes_bind; [apply encodes_u8; width|]. apply encodes_bind; [apply (encodes_padding 3)|by apply encodes_list].
  - intros [rs] [Hl Hw]. cbn [areas_to_refresh] in *. pose proof (llen_nonneg rs). apply Forall_cons. split; [width|].
    apply Forall_app; split; [by repeat (apply Forall_cons; split)|by apply list_wire_ok].
  - intros [rs] [Hl Hw]. cbn [areas_to_refresh] in *. pose proof (llen_nonneg rs).
    apply decodes_ensure; [pose proof (llen_nonneg (list_wire rs)); lens|].
    eapply decodes_bind; [apply decodes_u8; width|]. eapply decodes_bind; [apply (decodes_read_padding [0; 0; 0])|].
    eapply decodes_last; [apply decodes_list; [done|unfold llen; lia]|apply decodes_ret].
  - unfold decode_from, RefreshRectanglePdu_Decode. do 3 sread. apply (safe_more _ 0); [lia|].
    eapply safe_bind; [apply safe_list|]. intros l [Hl Hw]. apply safe_ret. cbn. split; [|done]. unfold llen. width.
Defined.

#[export] Instance DeactivateAll_Framed : FramedCodec ServerDeactivateAll.
Proof.
  refine {| fc_wf _ := True; fc_wire _ := to_le_bytes 2 1 ++ [0] |}.
  - intros p _. split; [|done]. apply encodes_ensure; [done|]. apply encodes_bind; [apply encodes_u16|by apply encodes_u8].
  - intros p _. by repeat (apply Forall_cons; split).
  - intros [] _. apply (decodes_len_guard 3 _ (fun _ => mret mkDeactivateAll)); [done|]. dread.
    apply decodes_ensure; [done|]. eapply decodes_last; [apply (decodes_read_slice [0])|apply decodes_ret].
  - apply (safe_len_guard 3 0 _ (fun _ => mret mkDeactivateAll)); [|intros; by apply safe_ret]. sread. sread.
    apply (safe_more _ (0 + Z.of_nat (Z.to_nat a))); [width|].
    eapply safe_bind; [apply safe_read_slice; lia|]. intros l _. by apply safe_ret.
Defined.

Lemma safe_len_value {E A B} n (d1 d2 : Reader E A) (k : A -> Reader E B) P Q :
  safe n d1 0 P -> safe 0 d2 0 P -> (forall a, P a -> safe 0 (k a) 0 Q) ->
  safe 0 (len ← gets ReadCursor.len; x ← (if n <=? len then d1 else d2); k x) 0 Q.
Proof.
  intros H1 H2 Hk c Hc Hl.
  pose proof (safe_bind n 0 0 d1 k P Q H1 Hk) as Hb1. pose proof (safe_bind 0 0 0 d2 k P Q H2 Hk) as Hb2.
  unfold gets. unfold mbind at 1, M_bind at 1. destruct (Z.leb_spec n (ReadCursor.len c)); [by apply Hb1|by apply Hb2].
Qed.

(** ** What is read when nothing follows

    A body that takes the rest of the input does not advance over it. *)
Definition reads_end {A} (d : Decoder A) (bs : list Z) (a : A) : Prop :=
  forall pre, exists k, (k <= length bs)%nat /\
    d (ReadCursor.mk (pre ++ bs) (length pre)) = Ok (a, ReadCursor.mk (pre ++ bs) (length pre + k)).

Lemma reads_decodes {A} (d : Decoder A) bs a : decodes d bs a -> reads_end d bs a.
Proof. intros H pre. exists (length bs). split; [done|]. by apply decodes_to_end. Qed.

Lemma reads_bind {A B} (d : Decoder A) (k : A -> Decoder B) bs cs a b :
  decodes d bs a -> reads_end (k a) cs b -> reads_end (d ≫= k) (bs ++ cs) b.
Proof.
  intros Hd Hk pre. destruct (Hk (pre ++ bs)) as (n & Hn & Hr). exists (length bs + n)%nat. rewrite length_app. split; [lia|].
  unfold mbind, M_bind. rewrite Hd. rewrite <- app_assoc, length_app in Hr. rewrite Hr. by rewrite Nat.add_assoc.
Qed.
Lemma reads_bind_nil {A B} (d : Decoder A) (k : A -> Decoder B) cs a b :
  decodes d [] a -> reads_end (k a) cs b -> reads_end (d ≫= k) cs b.
Proof. intros. by apply (reads_bind d k [] cs a b). Qed.

Lemma reads_map {A B} (d : Decoder A) (f : A -> B) bs a :
  reads_end d bs a -> reads_end (x ← d; mret (f x)) bs (f a).
Proof. intros H pre. destruct (H pre) as (k & Hk & Hr). exists k. split; [done|]. unfold mbind, M_bind. by rewrite Hr. Qed.

(** The same, with a check in between that reads nothing. *)
Lemma reads_check {A B} (d : Decoder A) (g : A -> Decoder unit) (f : A -> B) bs a :
  reads_end d bs a -> (forall c, g a c = Ok (tt, c)) -> reads_end (x ← d; _ ← g x; mret (f x)) bs (f a).
Proof.
  intros H Hg pre. destruct (H pre) as (k & Hk & Hr). exists k. split; [done|]. unfold mbind, M_bind. by rewrite Hr, Hg.
Qed.

Lemma reads_ensure {A} n bs a (k : unit -> Decoder A) :
  n <= llen bs -> reads_end (k tt) bs a -> reads_end (ReadCursor.ensure_size n ≫= k) bs a.
Proof.
  intros Hn Hk pre. unfold mbind, M_bind, ReadCursor.ensure_size, ReadCursor.len. cbn. rewrite !llen_app.
  replace (n <=? _) with true by (symmetry; apply Z.leb_le; unfold llen in *; lia). apply Hk.
Qed.

Lemma reads_gets {A B} (f : ReadCursor.t -> B) (k : B -> Decoder A) bs a x :
  (forall pre, f (ReadCursor.mk (pre ++ bs) (length pre)) = x) -> reads_end (k x) bs a -> reads_end (gets f ≫= k) bs a.
Proof. intros Hf Hk pre. unfold mbind, M_bind, gets. rewrite Hf. apply Hk. Qed.

Lemma remaining_pre pre bs : ReadCursor.remaining (ReadCursor.mk (pre ++ bs) (length pre)) = bs.
Proof. unfold ReadCursor.remaining. cbn. rewrite length_app, Nat.min_l by lia. apply drop_app_length. Qed.
Lemma len_pre pre bs : ReadCursor.len (ReadCursor.mk (pre ++ bs) (length pre)) = llen bs.
Proof. unfold ReadCursor.len. cbn. rewrite llen_app. unfold llen. lia. Qed.

(** ** Share Data *)

(** What the interface's bodies promise. *)
Class ShareLaws `{ShareCodecs} := {
  demand_body :: PduBody ServerDemandActive;
  confirm_body :: PduBody ClientConfirmActive;
  session_body :: PduBody SaveSessionInfoPdu;
  input_body :: PduBody InputEventPdu;
}.

Section share.
Context {BF : Bitflags} {SB : ShareBodies} {SC : ShareCodecs} {SL : ShareLaws}.

Definition data_wf (p : ShareDataPdu) : Prop :=
  match p with
  | Synchronize b => fc_wf b
  | Control b => fc_wf b
  | FontList b | FontMap b => fc_wf b
  | MonitorLayout b => fc_wf b
  | FrameAcknowledge b => fc_wf b
  | ServerSetErrorInfo b => fc_wf b
  | ShutdownRequest | ShutdownDenied => True
  | SuppressOutput b => fc_wf b
  | RefreshRectangle b => fc_wf b
  | Update buffer | Pointer buffer => bytes_ok buffer
  | _ => False
  end.
Definition data_wire (p : ShareDataPdu) : list Z :=
  match p with
  | Synchronize b => fc_wire b
  | Control b => fc_wire b
  | FontList b | FontMap b => fc_wire b
  | MonitorLayout b => fc_wire b
  | FrameAcknowledge b => fc_wire b
  | ServerSetErrorInfo b => fc_wire b
  | SuppressOutput b => fc_wire b
  | RefreshRectangle b => fc_wire b
  | Update buffer | Pointer buffer => buffer
  | _ => []
  end.

Lemma data_encodes p : data_wf p -> encodes (ShareDataPdu_encode p) (data_wire p) /\ ShareDataPdu_size p = llen (data_wire p).
Proof.
  intros H. destruct p; try done; cbn [ShareDataPdu_encode ShareDataPdu_size data_wire];
    try (by apply fc_writes); try (split; [|done]); try apply encodes_ret;
    (apply encodes_ensure; [done|apply encodes_write_slice]).
Qed.

Lemma data_bytes p : data_wf p -> bytes_ok (data_wire p).
Proof. intros H. destruct p; try done; by apply fc_bytes. Qed.

Lemma reads_body {T} {E : Encode T} {D : Decode T} {F : FramedCodec T} (f : T -> ShareDataPdu) (b : T) :
  fc_wf b -> reads_end (body_of f) (fc_wire b) (f b).
Proof. intros H. by apply reads_map, reads_decodes, fc_decodes. Qed.

Lemma reads_rest f (bs : list Z) : reads_end (remaining_of f) bs (f bs).
Proof.
  apply (reads_gets _ _ _ _ bs); [intros pre; apply remaining_pre|]. intros pre. exists 0%nat. split; [lia|]. by rewrite Nat.add_0_r.
Qed.

Lemma data_reads p : data_wf p -> reads_end (ShareDataPdu_from_type (share_header_type p)) (data_wire p) p.
Proof.
  intros H. destruct p; try done; cbn [share_header_type ShareDataPdu_from_type data_wire];
    try (by apply reads_body); try apply reads_rest; try (apply reads_decodes, decodes_ret).
  apply (reads_gets _ _ _ _ false); [|by apply reads_body]. intros pre. unfold ReadCursor.is_empty. rewrite len_pre.
  destruct (fc_writes pdu H) as [_ Hs]. by rewrite <- Hs.
Qed.

Lemma body_not_panic {T} {E : Encode T} {D : Decode T} {F : FramedCodec T} (f : T -> ShareDataPdu) :
  safe 0 (body_of f) 0 (fun _ => True).
Proof. eapply safe_bind; [apply fc_safe|]. intros a _. by apply safe_ret. Qed.
Lemma other_not_panic {T} {E : Encode T} {D : Decode T} {F : PduBody T} (f : T -> ShareDataPdu) :
  safe 0 (body_of f) 0 (fun _ => True).
Proof. eapply safe_bind; [apply body_safe|]. intros a _. by apply safe_ret. Qed.
Lemma rest_not_panic f : safe 0 (remaining_of f) 0 (fun _ => True).
Proof. apply safe_gets. intros x. by apply safe_ret. Qed.

Lemma data_safe t : safe 0 (ShareDataPdu_from_type t) 0 (fun _ => True).
Proof.
  destruct t; cbn [ShareDataPdu_from_type]; try apply body_not_panic; try apply other_not_panic; try apply rest_not_panic;
    try (by apply safe_ret).
  apply safe_gets. intros []; [by apply safe_ret|apply body_not_panic].
Qed.

Definition header_wf (h : ShareDataHeader) : Prop := compression_flags h = 0 /\ data_wf (share_data_pdu h).
Definition share_data_wire (h : ShareDataHeader) : list Z :=
  [0] ++ [StreamPriority.as_u8 (stream_priority h)] ++ to_le_bytes 2 (llen (data_wire (share_data_pdu h)))
  ++ [ShareDataPduType.as_u8 (share_header_type (share_data_pdu h))] ++ [CompressionType.as_u8 (compression_type h)]
  ++ to_le_bytes 2 0 ++ data_wire (share_data_pdu h).

Lemma llen_share_data_wire h : llen (share_data_wire h) = 8 + llen (data_wire (share_data_pdu h)).
Proof. unfold share_data_wire. lens. Qed.

Lemma share_data_size h : header_wf h -> ShareDataHeader_size h = llen (share_data_wire h).
Proof.
  intros [_ H]. unfold ShareDataHeader_size. rewrite llen_share_data_wire. by destruct (data_encodes _ H) as [_ ->].
Qed.

Lemma share_type_u8 t : is_u8 (ShareDataPduType.as_u8 t).
Proof. by destruct t. Qed.

Lemma share_data_encodes h :
  header_wf h -> llen (data_wire (share_data_pdu h)) <= 65535 -> encodes (ShareDataHeader_encode h) (share_data_wire h).
Proof.
  intros H Hl. pose proof (share_data_size h H) as Hs. destruct H as [Hc Hd]. destruct (data_encodes _ Hd) as [He Hz].
  unfold ShareDataHeader_encode. apply encodes_ensure; [lia|]. rewrite Hc. cbn [Z.eqb]. rewrite Z.lor_0_l. unfold share_data_wire.
  apply encodes_bind; [apply (encodes_padding 1)|]. apply encodes_bind; [apply encodes_u8; by destruct (stream_priority h)|].
  rewrite Hz. apply encodes_cast_length; [done|]. apply encodes_bind; [apply encodes_u16|].
  apply encodes_bind; [apply encodes_u8, share_type_u8|].
  apply encodes_bind; [apply encodes_u8; by destruct (compression_type h)|]. apply encodes_bind; [apply encodes_u16|done].
Qed.

Lemma share_data_reads h :
  header_wf h -> llen (data_wire (share_data_pdu h)) <= 65535 -> reads_end ShareDataHeader_decode (share_data_wire h) h.
Proof.
  intros [Hc Hd] Hl. unfold ShareDataHeader_decode. apply reads_ensure.
  { rewrite llen_share_data_wire. unfold SHARE_DATA_FIXED_PART_SIZE. pose proof (llen_nonneg (data_wire (share_data_pdu h))). lia. }
  unfold share_data_wire. eapply reads_bind; [apply (decodes_read_padding [0])|].
  eapply reads_bind; [apply decodes_u8; by destruct (stream_priority h)|].
  eapply (reads_bind_nil _ _ _ (stream_priority h)); [apply decodes_field_or; by destruct (stream_priority h)|].
  eapply reads_bind; [apply decodes_u16; pose proof (llen_nonneg (data_wire (share_data_pdu h))); width|].
  eapply reads_bind; [apply decodes_u8, share_type_u8|].
  eapply (reads_bind_nil _ _ _ (share_header_type (share_data_pdu h))); [apply decodes_field_or; by destruct (share_header_type _)|].
  eapply reads_bind; [apply decodes_u8; by destruct (compression_type h)|].
  eapply (reads_bind_nil _ _ _ (compression_type h)); [apply decodes_field_or; by destruct (compression_type h)|].
  eapply reads_bind; [by apply decodes_u16|].
  replace (Z.ldiff (CompressionType.as_u8 (compression_type h)) SHARE_DATA_HEADER_COMPRESSION_MASK) with 0 by (by destruct (compression_type h)).
  cbn [Z.eqb].
  pose proof (reads_map _ (fun p => mkShareData p (stream_priority h) 0 (compression_type h)) _ _ (data_reads _ Hd)) as Hr.
  destruct h; cbn in *; subst; exact Hr.
Qed.

Lemma share_data_safe : safe 0 ShareDataHeader_decode 0 (fun _ => True).
Proof.
  unfold ShareDataHeader_decode. sread. unfold SHARE_DATA_FIXED_PART_SIZE. sread. sread.
  eapply safe_bind; [by apply (safe_field_or _ _ _ _ (fun _ => True))|]. intros s _. sread. sread.
  eapply safe_bind; [by apply (safe_field_or _ _ _ _ (fun _ => True))|]. intros t _. sread.
  eapply safe_bind; [by apply (safe_field_or _ _ _ _ (fun _ => True))|]. intros c _. sread. apply (safe_more _ 0); [lia|].
  eapply (safe_bind _ 0 _ _ _ (fun _ => True)); [|intros p _; by apply safe_ret].
  destruct (_ =? 0); [apply data_safe|]. eapply safe_bind; [apply safe_remaining|]. intros d _. by apply safe_ret.
Qed.

(** ** Share Control *)

Definition control_wf (h : ShareControlHeader) : Prop :=
  is_u16 (pdu_source h) /\ is_u32 (share_id h) /\
  match share_control_pdu h with
  | PduData d => header_wf d /\ llen (data_wire (share_data_pdu d)) <= 65535 - 18
  | PduDeactivateAll _ => True
  | PduDemandActive _ | PduConfirmActive _ => False
  end.
Definition control_body_wire (p : ShareControlPdu) : list Z :=
  match p with PduData d => share_data_wire d | PduDeactivateAll d => fc_wire d | _ => [] end.
(** The header in front of a body of type [t]. *)
Definition control_wire (t source id : Z) (body : list Z) : list Z :=
  to_le_bytes 2 (llen body + 10) ++ to_le_bytes 2 (Z.lor PROTOCOL_VERSION t) ++ to_le_bytes 2 source ++ to_le_bytes 4 id ++ body.

Lemma llen_control_wire t source id body : llen (control_wire t source id body) = 10 + llen body.
Proof. unfold control_wire. lens. Qed.

(** Any body that is written as [bs]. *)
Lemma control_writes h bs :
  encodes (ShareControlPdu_encode (share_control_pdu h)) bs -> ShareControlPdu_size (share_control_pdu h) = llen bs ->
  llen bs + 10 <= 65535 ->
  writes h (control_wire (ShareControlPduType.as_u16 (ShareControlPdu_type (share_control_pdu h))) (pdu_source h) (share_id h) bs).
Proof.
  intros He Hs Hl. assert (Hz : size h = 10 + llen bs) by (cbn; unfold ShareControlHeader_size; by rewrite Hs).
  split; [|by rewrite llen_control_wire]. cbn [encode_into ShareControlHeader_Encode]. unfold ShareControlHeader_encode.
  apply encodes_ensure; [rewrite llen_control_wire; unfold size in Hz; cbn in Hz; lia|].
  apply encodes_cast_length; [rewrite Hs; done|]. unfold control_wire. rewrite Hs.
  apply encodes_bind; [apply encodes_u16|]. apply encodes_bind; [apply encodes_u16|]. apply encodes_bind; [apply encodes_u16|].
  apply encodes_bind; [apply encodes_u32|done].
Qed.

Lemma data_control_writes pdu source :
  data_wf pdu -> llen (data_wire pdu) <= 65535 - 18 ->
  writes (wrap_share_data pdu source)
    (control_wire 7 source 0 (share_data_wire (mkShareData pdu StreamPriority.Undefined 0 CompressionType.K8))).
Proof.
  intros Hw Hl. apply (control_writes (wrap_share_data pdu source)).
  - apply share_data_encodes; [by split|cbn; lia].
  - by apply share_data_size.
  - rewrite llen_share_data_wire. cbn [share_data_pdu]. lia.
Qed.

Lemma control_body h : control_wf h ->
  encodes (ShareControlPdu_encode (share_control_pdu h)) (control_body_wire (share_control_pdu h)) /\
  ShareControlPdu_size (share_control_pdu h) = llen (control_body_wire (share_control_pdu h)) /\
  llen (control_body_wire (share_control_pdu h)) + 10 <= 65535.
Proof.
  intros (_ & _ & H). destruct (share_control_pdu h) as [| |d|d]; [done|done| |]; cbn [ShareControlPdu_encode ShareControlPdu_size control_body_wire].
  - destruct H as [Hw Hl]. split; [apply share_data_encodes; [done|lia]|]. split; [by apply share_data_size|].
    rewrite llen_share_data_wire. lia.
  - destruct (fc_writes (A := ServerDeactivateAll) d) as [He Hs]; [done|]. by rewrite Hs.
Qed.

Lemma control_reads h body :
  is_u16 (pdu_source h) -> is_u32 (share_id h) -> llen body + 10 <= 65535 ->
  ShareControlHeader_size h = llen body + 10 ->
  reads_end (ShareControlPdu_from_type (ShareControlPdu_type (share_control_pdu h))) body (share_control_pdu h) ->
  reads_end ShareControlHeader_decode
    (control_wire (ShareControlPduType.as_u16 (ShareControlPdu_type (share_control_pdu h))) (pdu_source h) (share_id h) body) h.
Proof.
  intros Hp Hi Hl Hs Hr. unfold ShareControlHeader_decode. pose proof (llen_nonneg body).
  apply reads_ensure; [rewrite llen_control_wire; unfold SHARE_CONTROL_HEADER_WIRE_SIZE; lia|]. unfold control_wire.
  eapply reads_bind; [apply decodes_u16; width|].
  eapply reads_bind; [apply decodes_u16; by destruct (share_control_pdu h)|]. eapply reads_bind; [by apply decodes_u16|].
  apply (reads_gets _ _ _ _ (4 + llen body)); [intros pre; rewrite len_pre; lens|]. rewrite (proj2 (Z.leb_le 4 _)) by lia.
  eapply reads_bind; [by apply decodes_u32|].
  eapply (reads_bind_nil _ _ _ (ShareControlPdu_type (share_control_pdu h))); [apply decodes_field_or; by destruct (share_control_pdu h)|].
  replace (Z.ldiff _ SHARE_CONTROL_HEADER_MASK =? PROTOCOL_VERSION) with true by (by destruct (share_control_pdu h)). cbn [negb].
  assert (Hc : forall c, check_total_length (llen body + 10) h c = Ok (tt, c)).
  { intros c. unfold check_total_length. rewrite Hs, Z.ltb_irrefl. done. }
  pose proof (reads_map _ (fun p => mkShareControl p (pdu_source h) (share_id h)) _ _ Hr) as H1.
  pose proof (reads_check _ (fun p => check_total_length (llen body + 10) (mkShareControl p (pdu_source h) (share_id h)))
    (fun p => mkShareControl p (pdu_source h) (share_id h)) _ _ Hr) as H2.
  destruct h as [[d|d|d|d] src id]; cbn [share_control_pdu pdu_source share_id ShareControlPdu_type] in *; [exact H1|exact H1|by apply H2|exact H1].
Qed.

Lemma control_safe : safe 0 ShareControlHeader_decode 0 (fun _ => True).
Proof.
  unfold ShareControlHeader_decode. sread. unfold SHARE_CONTROL_HEADER_WIRE_SIZE. do 3 sread. apply (safe_more _ 0); [lia|].
  assert (Hrest : forall id, safe 0 (pdu_type ← field_or "pdu_type" "invalid pdu type"
      (ShareControlPduType.from_u16 (Z.land a1 SHARE_CONTROL_HEADER_MASK));
    if negb (Z.ldiff a1 SHARE_CONTROL_HEADER_MASK =? PROTOCOL_VERSION) then fail_at (DInvalidField "pdu_version" "invalid PDU version")
    else
      share_pdu ← ShareControlPdu_from_type pdu_type;
      match pdu_type with
      | ShareControlPduType.DataPdu =>
          _ ← check_total_length a0 (mkShareControl share_pdu a2 id); mret (mkShareControl share_pdu a2 id)
      | _ => mret (mkShareControl share_pdu a2 id)
      end) 0 (fun _ => True)).
  { intros id. eapply safe_bind; [by apply (safe_field_or _ _ _ _ (fun _ => True))|]. intros t _.
    destruct (negb _); [apply safe_fail_at|]. eapply (safe_bind _ 0 _ _ _ (fun _ => True)).
    - destruct t; cbn [ShareControlPdu_from_type]; try apply safe_fail_at;
        (eapply safe_bind; [first [apply body_safe | apply share_data_safe | apply fc_safe]|]; intros ? _; by apply safe_ret).
    - intros p _. destruct t; try (by apply safe_ret). unfold check_total_length.
      eapply (safe_bind _ 0 _ _ _ (fun _ => True)); [|intros ? _; by apply safe_ret].
      destruct (Z.ltb_spec (ShareControlHeader_size (mkShareControl p a2 id)) a0).
      + eapply safe_bind; [apply safe_ensure|]. intros ? _. eapply safe_weaken; [apply (safe_pad_at (a0 - ShareControlHeader_size (mkShareControl p a2 id)))| | |done]; lia.
      + destruct (_ && _); [apply safe_fail|by apply safe_ret]. }
  eapply (safe_len_value 4 _ _ _ (fun _ => True)); [eapply safe_weaken; [by apply safe_u32_at| | |]; done|by apply safe_ret|].
  intros id _. apply Hrest.
Qed.

Lemma share_decode_safe bs : bytes_ok bs -> decode ShareControlHeader bs <> Panic.
Proof.
  intros Hb. unfold decode, ReadCursor.new. pose proof (control_safe (ReadCursor.mk bs 0)) as Hs.
  cbn [decode_from ShareControlHeader_Decode]. destruct (ShareControlHeader_decode _) as [[a c]| |]; [done..|]. intros _.
  apply Hs; [split; cbn; [lia|done]|]. unfold ReadCursor.len, llen. cbn. lia.
Qed.

Lemma reads_decode h bs : reads_end ShareControlHeader_decode bs h -> decode ShareControlHeader bs = Ok h.
Proof.
  intros H. destruct (H []) as (k & _ & Hr). cbn [app length] in Hr. unfold decode, ReadCursor.new.
  cbn [decode_from ShareControlHeader_Decode]. by rewrite Hr.
Qed.

Lemma data_control_decodes pdu source :
  is_u16 source -> data_wf pdu -> llen (data_wire pdu) <= 65535 - 18 ->
  decode ShareControlHeader
    (control_wire 7 source 0 (share_data_wire (mkShareData pdu StreamPriority.Undefined 0 CompressionType.K8))) =
    Ok (wrap_share_data pdu source).
Proof.
  intros Hp Hw Hl. apply reads_decode. apply (control_reads (wrap_share_data pdu source)); [done|done| | |].
  - rewrite llen_share_data_wire. cbn [share_data_pdu]. lia.
  - unfold ShareControlHeader_size. cbn [share_control_pdu wrap_share_data ShareControlPdu_size].
    rewrite share_data_size by by split. unfold SHARE_CONTROL_HEADER_SIZE. lia.
  - cbn [ShareControlPdu_type share_control_pdu wrap_share_data ShareControlPdu_from_type].
    apply (reads_map _ PduData). apply share_data_reads; [by split|cbn; lia].
Qed.

(** C32: a Share Control PDU is read back from the bytes it is written as, for
    every body this library knows the format of: the four messages of the
    finalization, error information, monitor layouts, frame acknowledgements,
    suppressed output, refresh requests, updates, shutdown and deactivation. *)
Theorem share_roundtrip (h : ShareControlHeader) :
  control_wf h -> exists out, encode_vec h = Ok out /\ llen out = size h /\ decode ShareControlHeader out = Ok h.
Proof.
  intros H. destruct (control_body h H) as (He & Hs & Hl). destruct H as (Hp & Hi & Hw). eexists.
  pose proof (control_writes h _ He Hs Hl) as Hc. split; [by apply encode_vec_writes|]. split; [symmetry; apply Hc|].
  apply reads_decode, control_reads; [done..| |].
  - unfold ShareControlHeader_size. rewrite Hs. unfold SHARE_CONTROL_HEADER_SIZE. lia.
  - destruct (share_control_pdu h) as [| |d|[]]; [done|done| |]; cbn [ShareControlPdu_type ShareControlPdu_from_type control_body_wire].
    + apply (reads_map _ PduData), share_data_reads; [apply Hw|lia].
    + apply (reads_map _ PduDeactivateAll). by apply reads_decodes, (fc_decodes (A := ServerDeactivateAll)).
Qed.

End share.

(** ** An instance of the interface

    Capability sets that are Bitmap sets, sent as their sizes. *)
Module DemoBodies.

Definition bodies : ShareBodies := {|
  OtherCapabilitySet := unit;
  SaveSessionInfoPdu := unit;
  InputEventPdu := unit;
|}.
Existing Instance bodies.

Definition set_size (s : CapabilitySet) : Z * Z :=
  match s with CapBitmap b => (bitmap_desktop_width b, bitmap_desktop_height b) | CapOther _ => (0, 0) end.
Definition set_encode (s : CapabilitySet) : Encoder unit :=
  _ ← WriteCursor.write_u16 (set_size s).1; WriteCursor.write_u16 (set_size s).2.
Definition set_decode : Decoder CapabilitySet :=
  _ ← ReadCursor.ensure_size 4; w ← ReadCursor.read_u16; h ← ReadCursor.read_u16; mret (CapBitmap (mkBitmap 0 w h false 0)).

Definition demand_encode (p : DemandActive) : Encoder unit :=
  _ ← WriteCursor.ensure_size (2 + 4 * llen (capability_sets p));
  _ ← WriteCursor.write_u16 (llen (capability_sets p));
  iter_m set_encode (capability_sets p).
Definition demand_decode : Decoder DemandActive :=
  _ ← ReadCursor.ensure_size 2;
  n ← ReadCursor.read_u16;
  sets ← repeat_m (Z.to_nat n) set_decode;
  mret (mkDemandActive EmptyString sets).

Definition unit_encode : Encode unit := {| encode_into _ := mret tt; size _ := 0 |}.
Definition unit_decode : Decode unit := {| decode_from := mret tt |}.

Definition codecs : ShareCodecs := {|
  ServerDemandActive_Encode := {| encode_into p := demand_encode (sda_pdu p); size p := 2 + 4 * llen (capability_sets (sda_pdu p)) |};
  ServerDemandActive_Decode := {| decode_from := pdu ← demand_decode; mret (mkServerDemandActive pdu) |};
  ClientConfirmActive_Encode := {| encode_into p := demand_encode (cca_pdu p); size p := 2 + 4 * llen (capability_sets (cca_pdu p)) |};
  ClientConfirmActive_Decode := {| decode_from := pdu ← demand_decode; mret (mkClientConfirmActive 0 pdu) |};
  SaveSessionInfoPdu_Encode := unit_encode;
  SaveSessionInfoPdu_Decode := unit_decode;
  InputEventPdu_Encode := unit_encode;
  InputEventPdu_Decode := unit_decode;
|}.
Existing Instance codecs.

Definition set_wire (s : CapabilitySet) : list Z := to_le_bytes 2 (set_size s).1 ++ to_le_bytes 2 (set_size s).2.
Definition demand_wire (p : DemandActive) : list Z :=
  to_le_bytes 2 (llen (capability_sets p)) ++ (capability_sets p ≫= set_wire).

Lemma llen_sets (ss : list CapabilitySet) : llen (ss ≫= set_wire) = 4 * llen ss.
Proof.
  induction ss as [|s ss IH]; [done|]. rewrite bind_cons, llen_app, llen_cons, IH.
  replace (llen (set_wire s)) with 4 by (unfold set_wire; by rewrite llen_app, !llen_le). lia.
Qed.

Lemma demand_encodes p : encodes (demand_encode p) (demand_wire p) /\ 2 + 4 * llen (capability_sets p) = llen (demand_wire p).
Proof.
  assert (Hl : 2 + 4 * llen (capability_sets p) = llen (demand_wire p)) by (unfold demand_wire; rewrite llen_app, llen_le, (llen_sets (capability_sets p)); done).
  split; [|done]. apply encodes_ensure; [lia|]. apply encodes_bind; [apply encodes_u16|]. apply encodes_iter, Forall_true.
  intros s. apply encodes_bind; apply encodes_u16.
Qed.
Lemma demand_wire_ok p : bytes_ok (demand_wire p).
Proof.
  apply Forall_app. split; [apply to_le_bytes_ok|]. induction (capability_sets p) as [|s ss IH]; [constructor|].
  rewrite bind_cons. repeat (apply Forall_app; split); [apply to_le_bytes_ok..|done].
Qed.
Lemma demand_safe : safe 0 demand_decode 0 (fun _ => True).
Proof.
  unfold demand_decode. sread. sread. apply (safe_more _ 0); [lia|]. eapply (safe_bind _ 0 _ _ _ (fun _ => True)); [|intros l _; by apply safe_ret].
  induction (Z.to_nat a0) as [|k IH]; cbn [repeat_m]; [by apply safe_ret|].
  eapply (safe_bind _ 0 _ _ _ (fun _ => True)); [unfold set_decode; do 3 sread; by apply safe_done|].
  intros s _. eapply safe_bind; [exact IH|]. intros l _. by apply safe_ret.
Qed.

Lemma laws : ShareLaws.
Proof.
  constructor; constructor.
  - intros p. left. exists (demand_wire (sda_pdu p)). split; [apply demand_encodes|apply demand_wire_ok].
  - eapply safe_bind; [apply demand_safe|]. intros p _. by apply safe_ret.
  - intros p. left. exists (demand_wire (cca_pdu p)). split; [apply demand_encodes|apply demand_wire_ok].
  - eapply safe_bind; [apply demand_safe|]. intros p _. by apply safe_ret.
  - intros p. left. exists []. split; [split; [apply encodes_ret|done]|constructor].
  - by apply safe_ret.
  - intros p. left. exists []. split; [split; [apply encodes_ret|done]|constructor].
  - by apply safe_ret.
Qed.

End DemoBodies.

Lemma share_roundtrip_witness :
  let H := DemoBodies.bodies in let C := DemoBodies.codecs in let B := bits_flags in
  exists out, encode_vec (wrap_share_data (ServerSetErrorInfo (mkSetErrorInfo (ProtocolIndependentCode 7))) 0) = Ok out /\
    llen out = 22 /\
    decode ShareControlHeader out = Ok (wrap_share_data (ServerSetErrorInfo (mkSetErrorInfo (ProtocolIndependentCode 7))) 0).
Proof.
  intros H C B. exact (share_roundtrip (wrap_share_data (ServerSetErrorInfo (mkSetErrorInfo (ProtocolIndependentCode 7))) 0)
    ltac:(split; [done|]; split; [done|]; by split)).
Defined.
