(* ===== verification/Finalization.v ===== *)
(** The Connection Finalization of the server
    (src/crates/ironrdp-acceptor/src/finalization.rs): the client synchronizes,
    asks for control and lists its fonts; the server answers.  What else the
    client sends meanwhile is kept for the session. *)

From S2P Require Import Prelude Timing Cursor Codec Flags Mutation WriteBuf Mcs McsCodec Framed Sequence AutoDetect ConnectTime ShareData ShareCodec.

Open Scope Z_scope.

Module FinalizationState.
Inductive t :=
| Consumed
| WaitSynchronize | WaitControlCooperate | WaitRequestControl | WaitFontList
| SendSynchronizeConfirm | SendControlCooperateConfirm | SendGrantedControlConfirm | SendFontMap
| Finished.
Definition is_terminal (s : t) : bool := match s with Finished => true | _ => false end.
End FinalizationState.

Record FinalizationSequence := mkFinalization {
  fin_state : FinalizationState.t;
  fin_user_channel_id : Z;
  fin_io_channel_id : Z;
  fin_message_channel_id : option Z;
  fin_input_events : list (list Z);
  fin_message_channel_pdus : list (list Z);
}.

Definition fin_new (user_channel_id io_channel_id : Z) (message_channel_id : option Z) : FinalizationSequence :=
  mkFinalization FinalizationState.WaitSynchronize user_channel_id io_channel_id message_channel_id [] [].
Definition fin_into_received (s : FinalizationSequence) : list (list Z) * list (list Z) :=
  (fin_input_events s, fin_message_channel_pdus s).
Definition fin_is_done (s : FinalizationSequence) : bool := FinalizationState.is_terminal (fin_state s).
Definition fin_set_state (st : FinalizationState.t) (s : FinalizationSequence) : FinalizationSequence :=
  mkFinalization st (fin_user_channel_id s) (fin_io_channel_id s) (fin_message_channel_id s) (fin_input_events s)
    (fin_message_channel_pdus s).

Section finalization.
Context {BF : Bitflags} {SB : ShareBodies} {SC : ShareCodecs}.
Import FinalizationState.

Inductive Received :=
| RMessageChannel (user_data : list Z)
| RShareControl (pdu : ShareControlHeader)
| ROther.

(** The decoders do not panic. *)
Definition receive (input : list Z) (message_channel_id : option Z) : Received :=
  match decode (X224 SendDataRequest) input with
  | Ok request =>
      if bool_decide (Some (sdr_channel_id (x224 request)) = message_channel_id)
      then RMessageChannel (sdr_user_data (x224 request))
      else
        match decode ShareControlHeader (sdr_user_data (x224 request)) with
        | Ok pdu => RShareControl pdu
        | _ => ROther
        end
  | _ => ROther
  end.

Definition share_data (pdu : ShareControlHeader) : option ShareDataPdu :=
  match share_control_pdu pdu with PduData data => Some (share_data_pdu data) | _ => None end.
Definition is_control (pdu : ShareControlHeader) (a : ControlAction.t) : bool :=
  match share_data pdu with Some (Control control) => bool_decide (action control = a) | _ => false end.
Definition is_synchronize (pdu : ShareControlHeader) : bool :=
  match share_data pdu with Some (Synchronize _) => true | _ => false end.
Definition is_font_list (pdu : ShareControlHeader) : bool :=
  match share_data pdu with Some (FontList _) => true | _ => false end.

Definition create_synchronize_confirm : ShareDataPdu := Synchronize (mkSynchronize 0).
Definition create_cooperate_confirm : ShareDataPdu := Control (mkControl ControlAction.Cooperate 0 0).
Definition create_control_confirm (user_id : Z) : ShareDataPdu :=
  Control (mkControl ControlAction.GrantedControl user_id SERVER_CHANNEL_ID).
Definition create_font_map : ShareDataPdu := FontMap FontPdu_default.

(** Every field of the set aside PDU goes where it belongs; [waiting] stays. *)
Definition set_aside (received : Received) (input : list Z) (waiting : FinalizationState.t) : StepM FinalizationSequence FinalizationState.t :=
  match received with
  | RMessageChannel user_data =>
      _ ← modify_self (fun s => mkFinalization (fin_state s) (fin_user_channel_id s) (fin_io_channel_id s)
            (fin_message_channel_id s) (fin_input_events s) (fin_message_channel_pdus s ++ [user_data]));
      mret waiting
  | RShareControl _ | ROther =>
      _ ← modify_self (fun s => mkFinalization (fin_state s) (fin_user_channel_id s) (fin_io_channel_id s)
            (fin_message_channel_id s) (fin_input_events s ++ [input]) (fin_message_channel_pdus s));
      mret waiting
  end.

(** A wait takes the PDU it waits for and sets aside any other. *)
Definition wait_for (expected : ShareControlHeader -> bool) (input : list Z) (message_channel_id : option Z)
    (waiting next : FinalizationState.t) : StepM FinalizationSequence FinalizationState.t :=
  match receive input message_channel_id with
  | RShareControl pdu => if expected pdu then mret next else set_aside (RShareControl pdu) input waiting
  | other => set_aside other input waiting
  end.

Definition send_share (pdu : ShareDataPdu) (io_channel_id : Z) : StepM FinalizationSequence Written :=
  let share_data := wrap_share_data pdu io_channel_id in
  written ← encode_send_data_indication SERVER_CHANNEL_ID io_channel_id share_data;
  written_size written.

Definition fin_next_pdu_hint (s : FinalizationSequence) : option PduHint :=
  match fin_state s with
  | Consumed => None
  | WaitSynchronize | WaitControlCooperate | WaitRequestControl | WaitFontList => Some RdpHint
  | SendSynchronizeConfirm | SendControlCooperateConfirm | SendGrantedControlConfirm | SendFontMap => None
  | Finished => None
  end.

Definition fin_step (input : list Z) (received_at : option Z) : StepM FinalizationSequence Written :=
  self ← get_self;
  _ ← modify_self (fin_set_state Consumed);
  let message_channel_id := fin_message_channel_id self in
  let wait expected waiting next :=
    st ← wait_for expected input message_channel_id waiting next;
    mret (Nothing, st) in
  let send pdu next := written ← send_share pdu (fin_io_channel_id self); mret (written, next) in
  '(written, next_state) ←
    match fin_state self with
    | WaitSynchronize => wait is_synchronize WaitSynchronize WaitControlCooperate
    | WaitControlCooperate =>
        wait (fun pdu => is_control pdu ControlAction.Cooperate) WaitControlCooperate WaitRequestControl
    | WaitRequestControl =>
        wait (fun pdu => is_control pdu ControlAction.RequestControl) WaitRequestControl WaitFontList
    | WaitFontList => wait is_font_list WaitFontList SendSynchronizeConfirm
    | SendSynchronizeConfirm => send create_synchronize_confirm SendControlCooperateConfirm
    | SendControlCooperateConfirm => send create_cooperate_confirm SendGrantedControlConfirm
    | SendGrantedControlConfirm => send (create_control_confirm (fin_user_channel_id self)) SendFontMap
    | SendFontMap => send create_font_map Finished
    | Consumed | Finished => boom
    end;
  _ ← modify_self (fin_set_state next_state);
  mret written.

#[export] Instance Finalization_Sequence : Sequence FinalizationSequence :=
  {| next_pdu_hint := fin_next_pdu_hint; step := fin_step |}.

(** ** The invariant *)

Definition fin_ok (s : FinalizationSequence) : Prop :=
  is_u16 (fin_user_channel_id s) /\ is_u16 (fin_io_channel_id s) /\ fin_state s <> Consumed.
Definition fin_failed (s : FinalizationSequence) : Prop := fin_state s = Consumed.

(** The bytes of an answer. *)
Definition share_indication (io : Z) (pdu : ShareDataPdu) : list Z :=
  indication_wire SERVER_CHANNEL_ID io
    (control_wire 7 io 0 (share_data_wire (mkShareData pdu StreamPriority.Undefined 0 CompressionType.K8))).

Lemma control_wire_ok t source id body : bytes_ok body -> bytes_ok (control_wire t source id body).
Proof. intros H. unfold control_wire. bytes. Qed.
Lemma share_data_wire_ok h : data_wf (share_data_pdu h) -> bytes_ok (share_data_wire h).
Proof.
  intros H. unfold share_data_wire. bytes; [by destruct (stream_priority h)|apply share_type_u8|by destruct (compression_type h)|].
  by apply data_bytes.
Qed.

Lemma wpm_send_share pdu io acc s b (Q : ConnectorError + Written -> FinalizationSequence * WriteBuf.t -> Prop) :
  is_u16 io -> data_wf pdu -> llen (data_wire pdu) <= 100 -> WriteBuf.holds acc b ->
  (forall b', WriteBuf.holds (acc ++ share_indication io pdu) b' -> Q (inr (Size (llen (share_indication io pdu)))) (s, b')) ->
  wpm (send_share pdu io) Q (s, b).
Proof.
  intros Hio Hw Hl Hb HQ. unfold send_share. apply wpm_bind.
  eapply wpm_send_indication; [apply data_control_writes; [done|lia]| |done|].
  { split; [done|]. split; [done|]. split; [by apply control_wire_ok, share_data_wire_ok|].
    rewrite llen_control_wire, llen_share_data_wire. cbn [share_data_pdu]. lia. }
  intros b' Hb'. apply wpm_written_size; [|by apply HQ]. unfold indication_wire. cbn [wire X224_Codec]. rewrite llen_X224_wire.
  match goal with |- _ + ?x <> 0 => assert (0 <= x) by apply llen_nonneg; lia end.
Qed.

(** The four answers, in order. *)
Definition confirms (user : Z) : list ShareDataPdu :=
  [create_synchronize_confirm; create_cooperate_confirm; create_control_confirm user; create_font_map].
Lemma confirms_ok user pdu : is_u16 user -> pdu ∈ confirms user -> data_wf pdu /\ llen (data_wire pdu) <= 100.
Proof.
  intros Hu H. repeat (apply elem_of_cons in H as [->|H]); [done|done|done| |by apply elem_of_nil in H].
  split; [apply FontPdu_default_wf|]. done.
Qed.

(** A wait: the PDU waited for, or one that is kept. *)
Definition kept (r : Received) (input : list Z) (s : FinalizationSequence) : FinalizationSequence :=
  match r with
  | RMessageChannel user_data =>
      mkFinalization (fin_state s) (fin_user_channel_id s) (fin_io_channel_id s) (fin_message_channel_id s)
        (fin_input_events s) (fin_message_channel_pdus s ++ [user_data])
  | RShareControl _ | ROther =>
      mkFinalization (fin_state s) (fin_user_channel_id s) (fin_io_channel_id s) (fin_message_channel_id s)
        (fin_input_events s ++ [input]) (fin_message_channel_pdus s)
  end.
Definition taken (expected : ShareControlHeader -> bool) (r : Received) : bool :=
  match r with RShareControl pdu => expected pdu | _ => false end.

Lemma wait_for_spec expected input m waiting next s b :
  wait_for expected input m waiting next (s, b) =
    if taken expected (receive input m) then Some (inr next, (s, b))
    else Some (inr waiting, (kept (receive input m) input s, b)).
Proof. unfold wait_for. destruct (receive input m) as [d|pdu|]; cbn; [done| |done]. by destruct (expected pdu). Qed.

(** What the state waits for, and what comes next. *)
Definition waits (st : FinalizationState.t) : option ((ShareControlHeader -> bool) * FinalizationState.t) :=
  match st with
  | WaitSynchronize => Some (is_synchronize, WaitControlCooperate)
  | WaitControlCooperate => Some ((fun pdu => is_control pdu ControlAction.Cooperate), WaitRequestControl)
  | WaitRequestControl => Some ((fun pdu => is_control pdu ControlAction.RequestControl), WaitFontList)
  | WaitFontList => Some (is_font_list, SendSynchronizeConfirm)
  | _ => None
  end.
(** What the state sends, and what comes next. *)
Definition sends (user : Z) (st : FinalizationState.t) : option (ShareDataPdu * FinalizationState.t) :=
  match st with
  | SendSynchronizeConfirm => Some (create_synchronize_confirm, SendControlCooperateConfirm)
  | SendControlCooperateConfirm => Some (create_cooperate_confirm, SendGrantedControlConfirm)
  | SendGrantedControlConfirm => Some (create_control_confirm user, SendFontMap)
  | SendFontMap => Some (create_font_map, Finished)
  | _ => None
  end.

Lemma fin_step_waits expected next input at_ s b :
  waits (fin_state s) = Some (expected, next) ->
  fin_step input at_ (s, b) =
    Some (inr Nothing,
      (if taken expected (receive input (fin_message_channel_id s)) then fin_set_state next s
       else kept (receive input (fin_message_channel_id s)) input s, b)).
Proof.
  intros H. destruct s as [st user io m ev msgs]. cbn [fin_state fin_message_channel_id] in *.
  destruct st; cbn in H; simplify_eq; unfold fin_step, get_self, modify_self, access, update, mbind, Mut_bind;
    cbn [fst fin_state fin_message_channel_id]; rewrite wait_for_spec; (destruct (taken _ _); [done|]); by destruct (receive input m).
Qed.

Lemma fin_step_sends pdu next input at_ acc s b :
  is_u16 (fin_user_channel_id s) -> is_u16 (fin_io_channel_id s) ->
  sends (fin_user_channel_id s) (fin_state s) = Some (pdu, next) -> WriteBuf.holds acc b ->
  wpm (fin_step input at_) (fun r sb =>
    r = inr (Size (llen (share_indication (fin_io_channel_id s) pdu))) /\ sb.1 = fin_set_state next s /\
    WriteBuf.holds (acc ++ share_indication (fin_io_channel_id s) pdu) sb.2) (s, b).
Proof.
  intros Hu Hio H Hb. unfold fin_step. apply wpm_access, wpm_update. cbn [fst]. destruct s as [st user io m ev msgs].
  cbn [fin_state fin_user_channel_id fin_io_channel_id] in *.
  assert (Hc : pdu ∈ confirms user) by (destruct st; cbn in H; simplify_eq; unfold confirms; set_solver).
  destruct (confirms_ok user pdu Hu Hc) as [Hw Hl].
  destruct st; cbn in H; simplify_eq; apply wpm_bind, wpm_bind; (eapply wpm_send_share; [done..|]); intros b' Hb';
    apply wpm_ret, wpm_update, wpm_ret; by split_and!.
Qed.

Lemma fin_cases user st : st <> Consumed -> st <> Finished -> is_Some (waits st) \/ is_Some (sends user st).
Proof. destruct st; cbn; eauto; done. Qed.

Lemma share_indication_nonempty io pdu : share_indication io pdu <> [].
Proof. unfold share_indication, indication_wire. cbn [wire X224_Codec]. unfold X224_wire, tpkt_wire. done. Qed.

(** Every step does something and keeps the sequence well formed, whatever the
    client sent. *)
Lemma fin_step_spec input at_ acc s b :
  fin_ok s -> fin_is_done s = false -> WriteBuf.holds acc b ->
  wpm (fin_step input at_) (step_post fin_ok fin_failed acc) (s, b).
Proof.
  intros (Hu & Hio & Hst) Hd Hb. destruct (fin_cases (fin_user_channel_id s) (fin_state s)) as [[[e next] Hw]|[[pdu next] Hs]].
  - done.
  - intros Hf. unfold fin_is_done in Hd. by rewrite Hf in Hd.
  - unfold wpm. erewrite fin_step_waits by done. apply post_nothing; [done|].
    destruct (taken _ _); [|by destruct (receive _ _)]. split_and!; [done..|]. by destruct (fin_state s); cbn in Hw; simplify_eq.
  - eapply wpm_mono; [by eapply fin_step_sends|]. intros r [s' b'] (-> & Hs' & Hb'). cbn [fst snd] in *. subst s'. apply post_wrote; [done|apply share_indication_nonempty|].
    split_and!; [done..|]. by destruct (fin_state s); cbn in Hs; simplify_eq.
Qed.

(** ** What the client's PDUs become *)

(** The specification: the client's PDUs in order.  Each is the next one of
    the four the finalization waits for, or on the message channel, or input. *)
Definition awaited : list (ShareControlHeader -> bool) :=
  [is_synchronize; (fun pdu => is_control pdu ControlAction.Cooperate);
   (fun pdu => is_control pdu ControlAction.RequestControl); is_font_list].
Fixpoint sort_inputs (m : option Z) (expected : list (ShareControlHeader -> bool)) (inputs : list (list Z)) :
    list (ShareControlHeader -> bool) * list (list Z) * list (list Z) * list (list Z) :=
  match expected, inputs with
  | [], _ => ([], [], [], inputs)
  | _, [] => (expected, [], [], [])
  | e :: expected', input :: inputs' =>
      let r := receive input m in
      if taken e r then sort_inputs m expected' inputs'
      else
        let '(missing, events, pdus, rest) := sort_inputs m expected inputs' in
        match r with
        | RMessageChannel user_data => (missing, events, user_data :: pdus, rest)
        | _ => (missing, input :: events, pdus, rest)
        end
  end.

(** The state that waits for the PDUs [expected]. *)
Definition waiting_for (n : nat) : FinalizationState.t :=
  match n with
  | 4%nat => WaitSynchronize | 3%nat => WaitControlCooperate | 2%nat => WaitRequestControl | 1%nat => WaitFontList
  | _ => SendSynchronizeConfirm
  end.

Section run.
Context (user io : Z) (m : option Z) (Hu : is_u16 user) (Hio : is_u16 io).

Definition finalized (acc : list Z) (ev msgs : list (list Z)) (n : nat) (inputs : list (list Z))
    (r : ConnectorError + list (list Z)) (sb : FinalizationSequence * WriteBuf.t) : Prop :=
  let '(missing, events, pdus, rest) := sort_inputs m (drop (4 - n) awaited) inputs in
  fin_into_received sb.1 = (ev ++ events, msgs ++ pdus) /\ r = inr rest /\
  match missing with
  | [] => fin_is_done sb.1 = true /\ WriteBuf.holds (acc ++ (confirms user ≫= share_indication io)) sb.2
  | _ => fin_is_done sb.1 = false /\ WriteBuf.holds acc sb.2
  end.

(** The four answers. *)
Lemma confirms_run fuel inputs acc ev msgs b :
  WriteBuf.holds acc b -> (4 < fuel)%nat ->
  wpm (run_sequence fin_is_done fuel inputs) (fun r sb =>
    fin_into_received sb.1 = (ev, msgs) /\ r = inr inputs /\ fin_is_done sb.1 = true /\
    WriteBuf.holds (acc ++ (confirms user ≫= share_indication io)) sb.2)
    (mkFinalization SendSynchronizeConfirm user io m ev msgs, b).
Proof.
  intros Hb Hf. do 5 (destruct fuel as [|fuel]; [lia|]).
  assert (Hstep : forall fuel' st pdu next acc b Q, sends user st = Some (pdu, next) -> WriteBuf.holds acc b ->
    (forall b', WriteBuf.holds (acc ++ share_indication io pdu) b' ->
      wpm (run_sequence fin_is_done fuel' inputs) Q (mkFinalization next user io m ev msgs, b')) ->
    wpm (run_sequence fin_is_done (S fuel') inputs) Q (mkFinalization st user io m ev msgs, b)).
  { intros fuel' st pdu next acc' b' Q Hs Hb' HQ. cbn [run_sequence]. apply wpm_access. cbn [fst].
    replace (fin_is_done _) with false by (destruct st; cbn in Hs; simplify_eq; done).
    replace (next_pdu_hint _) with (@None PduHint) by (destruct st; cbn in Hs; simplify_eq; done).
    apply wpm_bind. eapply wpm_mono; [by eapply (fin_step_sends pdu next [] None acc' (mkFinalization st user io m ev msgs) b')|].
    intros r [s' b''] (-> & Hs' & Hb''). cbn [fst snd] in *. subst s'. by apply HQ. }
  eapply Hstep; [done|done|]. intros b1 Hb1. eapply Hstep; [done|done|]. intros b2 Hb2. eapply Hstep; [done|done|]. intros b3 Hb3.
  eapply Hstep; [done|done|]. intros b4 Hb4. cbn [run_sequence]. apply wpm_access, wpm_ret. split; [done|]. split; [done|].
  split; [done|]. cbn [snd]. by rewrite <- !app_assoc in Hb4.
Qed.

Lemma wait_run n inputs ev msgs fuel acc b :
  (n <= 4)%nat -> (length inputs + 5 < fuel)%nat -> WriteBuf.holds acc b ->
  wpm (run_sequence fin_is_done fuel inputs) (finalized acc ev msgs n inputs)
    (mkFinalization (waiting_for n) user io m ev msgs, b).
Proof.
  intros Hn Hf Hb. revert n ev msgs fuel Hn Hf. induction inputs as [|input inputs IH]; intros n ev msgs fuel Hn Hf; cbn [length] in Hf.
  - destruct n as [|n].
    { eapply wpm_mono; [apply confirms_run; [exact Hb|lia]|]. intros r sb (H1 & -> & H3 & H4). cbn. by rewrite !app_nil_r. }
    destruct fuel; [lia|]. cbn [run_sequence]. apply wpm_access. cbn [fst].
    do 4 (destruct n as [|n]; [cbn; by rewrite !app_nil_r|]). lia.
  - destruct n as [|n].
    { eapply wpm_mono; [apply confirms_run; [exact Hb|lia]|]. intros r sb (H1 & -> & H3 & H4). cbn. by rewrite !app_nil_r. }
    destruct fuel as [|fuel]; [lia|]. cbn [run_sequence]. apply wpm_access. cbn [fst].
    assert (exists e, waits (waiting_for (S n)) = Some (e, waiting_for n) /\ drop (4 - S n) awaited = e :: drop (4 - n) awaited) as (e & Hw & Hd).
    { do 4 (destruct n as [|n]; [by eexists|]). lia. }
    replace (fin_is_done _) with false by (do 4 (destruct n as [|n]; [done|]); lia).
    replace (next_pdu_hint _) with (Some RdpHint) by (do 4 (destruct n as [|n]; [done|]); lia).
    apply wpm_bind. unfold wpm at 1. cbn [step Finalization_Sequence]. rewrite (fin_step_waits e (waiting_for n)) by done.
    cbn [fin_message_channel_id]. unfold finalized. rewrite Hd. cbn [sort_inputs].
    destruct (taken e (receive input m)) eqn:Ht.
    + apply (IH n); lia.
    + destruct (receive input m) as [d|pdu|]; cbn [kept fin_state fin_user_channel_id fin_io_channel_id fin_message_channel_id fin_input_events fin_message_channel_pdus];
        (eapply wpm_mono; [apply (IH (S n)); lia|]); intros r sb; unfold finalized; rewrite Hd;
        destruct (sort_inputs m _ inputs) as [[[missing events] pdus] rest]; by rewrite <- ?app_assoc.
Qed.

End run.

(** C15: the Connection Finalization does what MS-RDPBCGR 1.3.1.1 describes,
    whatever bytes the client sends: it takes the Synchronize, the Control
    (Cooperate), the Control (Request Control) and the Font List in this order
    and then answers with Synchronize, Control (Cooperate), Control (Granted
    Control) and Font Map, once each and in this order; until the last of the
    four has come it says nothing.  Every other PDU is kept for the session,
    in the order it came: user data of the message channel apart from input,
    nothing lost and nothing twice. *)
Theorem finalization_refines (user io : Z) (m : option Z) (inputs : list (list Z)) :
  is_u16 user -> is_u16 io ->
  let '(missing, events, pdus, rest) := sort_inputs m awaited inputs in
  exists s b,
    run_sequence fin_is_done (length inputs + 6) inputs (fin_new user io m, WriteBuf.new) = Some (inr rest, (s, b)) /\
    fin_into_received s = (events, pdus) /\
    (fin_is_done s = true <-> missing = []) /\
    WriteBuf.filled (E := Empty_set) b =
      Ok (match missing with [] => confirms user ≫= share_indication io | _ => [] end).
Proof.
  intros Hu Hio. pose proof (wait_run user io m Hu Hio 4 inputs [] [] (length inputs + 6) [] WriteBuf.new
    ltac:(lia) ltac:(lia) WriteBuf.holds_new) as H.
  unfold finalized in H. change (drop (4 - 4) awaited) with awaited in H.
  destruct (sort_inputs m awaited inputs) as [[[missing events] pdus] rest].
  apply wpm_run in H as (r & [s b] & Hr & H1 & -> & H3). exists s, b. split; [done|]. split; [done|].
  destruct missing; destruct H3 as [H3 H4]; (split; [|by apply WriteBuf.holds_filled]).
  - cbn [fst] in H3. by rewrite H3.
  - cbn [fst] in H3. by rewrite H3.
Qed.

End finalization.

(** A client that sends input and something on the message channel before its
    Font List. *)
Section demo.
Local Existing Instance bits_flags.
Local Existing Instance DemoBodies.bodies.
Local Existing Instance DemoBodies.codecs.

Definition demo_pdu (channel : Z) (data : list Z) : list Z := wire (mkX224 (mkSendDataRequest 1007 channel data)).
Definition demo_share (pdu : ShareDataPdu) : list Z :=
  demo_pdu 1003 (control_wire 7 1007 0 (share_data_wire (mkShareData pdu StreamPriority.Undefined 0 CompressionType.K8))).
Definition demo_finalization : list (list Z) :=
  [demo_share (Synchronize (mkSynchronize 1002)); demo_pdu 1008 [1; 2]; demo_share (Control (mkControl ControlAction.Cooperate 0 0));
   [0x44; 4; 0; 0]; demo_share (Control (mkControl ControlAction.RequestControl 0 0)); demo_share (FontList FontPdu_default)].

Lemma finalization_refines_witness :
  exists s b,
    run_sequence fin_is_done 12 demo_finalization (fin_new 1002 1003 (Some 1008), WriteBuf.new) = Some (inr [], (s, b)) /\
    fin_into_received s = ([[0x44; 4; 0; 0]], [[1; 2]]) /\
    (fin_is_done s = true <-> @nil (ShareControlHeader -> bool) = []) /\
    WriteBuf.filled (E := Empty_set) b = Ok (confirms 1002 ≫= share_indication 1003).
Proof.
  pose proof (finalization_refines 1002 1003 (Some 1008) demo_finalization ltac:(done) ltac:(done)) as H.
  replace (sort_inputs (Some 1008) awaited demo_finalization) with
    (@nil (ShareControlHeader -> bool), [[0x44; 4; 0; 0]], [[1; 2]], @nil (list Z)) in H by (vm_compute; reflexivity).
  exact H.
Defined.
End demo.
