(* ===== verification/MessageChannel.v ===== *)
(** The other PDUs of the MCS message channel: the Initiate Multitransport
    Request and Response (src/crates/ironrdp-pdu/src/rdp/multitransport.rs) and
    the Heartbeat (src/crates/ironrdp-pdu/src/rdp/heartbeat.rs).  Together with
    the auto-detection messages they share one channel without a type field:
    the flags of the security header tell them apart. *)

From S2P Require Import Prelude Cursor Codec Flags WriteBuf Mcs McsCodec AutoDetect ConnectTime ShareData ShareCodec.

Open Scope Z_scope.

Definition SECURITY_COOKIE_LEN : Z := 16.

Module RequestedProtocol.
Inductive t := UdpFecR | UdpFecL.
Definition from_u16 (val : Z) : option t := if val =? 1 then Some UdpFecR else if val =? 2 then Some UdpFecL else None.
Definition as_u16 (x : t) : Z := match x with UdpFecR => 1 | UdpFecL => 2 end.
End RequestedProtocol.

Record MultitransportRequestPdu := mkMultitransportRequest {
  mt_security_header : BasicSecurityHeader;
  mt_request_id : Z;
  mt_requested_protocol : RequestedProtocol.t;
  mt_security_cookie : list Z;
}.
Record MultitransportResponsePdu := mkMultitransportResponse {
  mr_security_header : BasicSecurityHeader;
  mr_request_id : Z;
  mr_hr_response : Z;
}.
Record HeartbeatPdu := mkHeartbeat {
  hb_security_header : BasicSecurityHeader;
  hb_period : Z;
  hb_count1 : Z;
  hb_count2 : Z;
}.

Definition S_OK : Z := 0.
Definition E_ABORT : Z := 0x80004004.
Definition mt_success (request_id : Z) : MultitransportResponsePdu :=
  mkMultitransportResponse (mkSecurityHeader BasicSecurityHeaderFlags.TRANSPORT_RSP) request_id S_OK.
Definition mt_abort (request_id : Z) : MultitransportResponsePdu :=
  mkMultitransportResponse (mkSecurityHeader BasicSecurityHeaderFlags.TRANSPORT_RSP) request_id E_ABORT.
Definition mt_is_success (p : MultitransportResponsePdu) : bool := mr_hr_response p =? S_OK.

Definition REQUEST_PDU_SIZE : Z := BASIC_SECURITY_HEADER_SIZE + 4 + 2 + 2 + SECURITY_COOKIE_LEN.
Definition RESPONSE_PDU_SIZE : Z := BASIC_SECURITY_HEADER_SIZE + 4 + 4.
Definition HEARTBEAT_PDU_SIZE : Z := BASIC_SECURITY_HEADER_SIZE + 4.

#[export] Instance MultitransportRequestPdu_Encode : Encode MultitransportRequestPdu := {|
  encode_into p :=
    _ ← WriteCursor.ensure_size REQUEST_PDU_SIZE;
    _ ← encode_into (mt_security_header p);
    _ ← WriteCursor.write_u32 (mt_request_id p);
    _ ← WriteCursor.write_u16 (RequestedProtocol.as_u16 (mt_requested_protocol p));
    _ ← WriteCursor.write_padding 2;
    WriteCursor.write_slice (mt_security_cookie p);
  size _ := REQUEST_PDU_SIZE |}.
#[export] Instance MultitransportResponsePdu_Encode : Encode MultitransportResponsePdu := {|
  encode_into p :=
    _ ← WriteCursor.ensure_size RESPONSE_PDU_SIZE;
    _ ← encode_into (mr_security_header p);
    _ ← WriteCursor.write_u32 (mr_request_id p);
    WriteCursor.write_u32 (mr_hr_response p);
  size _ := RESPONSE_PDU_SIZE |}.
#[export] Instance HeartbeatPdu_Encode : Encode HeartbeatPdu := {|
  encode_into p :=
    _ ← WriteCursor.ensure_size HEARTBEAT_PDU_SIZE;
    _ ← encode_into (hb_security_header p);
    _ ← WriteCursor.write_u8 0;
    _ ← WriteCursor.write_u8 (hb_period p);
    _ ← WriteCursor.write_u8 (hb_count1 p);
    WriteCursor.write_u8 (hb_count2 p);
  size _ := HEARTBEAT_PDU_SIZE |}.

Section pdus.
Context {BF : Bitflags}.

(** The flags without those a receiver must ignore are exactly [expected]. *)
Definition read_security (expected : Z) (reason : string) : Decoder BasicSecurityHeader :=
  security_header ← BasicSecurityHeader_decode;
  let flags := difference (security_flags security_header)
    (union BasicSecurityHeaderFlags.RESET_SEQNO BasicSecurityHeaderFlags.IGNORE_SEQNO) in
  if negb (flags =? expected) then fail_at (DInvalidField "securityHeader" reason) else mret security_header.

#[export] Instance MultitransportRequestPdu_Decode : Decode MultitransportRequestPdu := {|
  decode_from :=
    _ ← ReadCursor.ensure_size REQUEST_PDU_SIZE;
    security_header ← read_security BasicSecurityHeaderFlags.TRANSPORT_REQ
      "expected securityHeader flags to contain SEC_TRANSPORT_REQ and no other PDU-type flag";
    request_id ← ReadCursor.read_u32;
    protocol_raw ← ReadCursor.read_u16;
    requested_protocol ← field_or "requestedProtocol" "unknown protocol value" (RequestedProtocol.from_u16 protocol_raw);
    _ ← ReadCursor.read_padding 2;
    security_cookie ← ReadCursor.read_array (Z.to_nat SECURITY_COOKIE_LEN);
    mret (mkMultitransportRequest security_header request_id requested_protocol security_cookie) |}.
#[export] Instance MultitransportResponsePdu_Decode : Decode MultitransportResponsePdu := {|
  decode_from :=
    _ ← ReadCursor.ensure_size RESPONSE_PDU_SIZE;
    security_header ← read_security BasicSecurityHeaderFlags.TRANSPORT_RSP
      "expected securityHeader flags to contain SEC_TRANSPORT_RSP and no other PDU-type flag";
    request_id ← ReadCursor.read_u32;
    hr_response ← ReadCursor.read_u32;
    mret (mkMultitransportResponse security_header request_id hr_response) |}.
#[export] Instance HeartbeatPdu_Decode : Decode HeartbeatPdu := {|
  decode_from :=
    _ ← ReadCursor.ensure_size HEARTBEAT_PDU_SIZE;
    security_header ← read_security BasicSecurityHeaderFlags.HEARTBEAT
      "expected securityHeader flags to contain SEC_HEARTBEAT and no other PDU-type flag";
    _ ← ReadCursor.read_u8;
    period ← ReadCursor.read_u8;
    count1 ← ReadCursor.read_u8;
    count2 ← ReadCursor.read_u8;
    mret (mkHeartbeat security_header period count1 count2) |}.

(** ** The security header *)

(** The flags are those of [expected], with the ignored ones in any state. *)
Definition kind_flags (expected flags : Z) : Prop :=
  is_u16 flags /\ Z.ldiff flags (Z.lor BasicSecurityHeaderFlags.RESET_SEQNO BasicSecurityHeaderFlags.IGNORE_SEQNO) = expected.

Lemma decodes_read_security expected reason flags :
  kind_flags expected flags ->
  decodes (read_security expected reason) (security_wire flags) (mkSecurityHeader flags).
Proof.
  intros [Hu Hf]. unfold read_security. eapply decodes_last; [by apply decodes_security|]. cbn [security_flags].
  rewrite difference_bits, union_bits, Hf, Z.eqb_refl. apply decodes_ret.
Qed.

Lemma safe_security_at n : 4 <= n -> safe n BasicSecurityHeader_decode (n - 4) (fun h => is_u16 (security_flags h)).
Proof.
  intros Hn. unfold BasicSecurityHeader_decode. eapply safe_bind; [apply safe_ensure|]. intros _ _.
  replace (Z.max n BASIC_SECURITY_HEADER_SIZE) with n by (unfold BASIC_SECURITY_HEADER_SIZE; lia). do 2 sread.
  replace (n - 2 - 2) with (n - 4) by lia. apply safe_ret. cbn. by rewrite truncate_all.
Qed.

Lemma safe_read_security n expected reason :
  4 <= n -> safe n (read_security expected reason) (n - 4) (fun h => kind_flags expected (security_flags h)).
Proof.
  intros Hn. unfold read_security. eapply safe_bind; [by apply safe_security_at|]. intros h Hh. cbv beta.
  rewrite difference_bits, union_bits. destruct (Z.eqb_spec (Z.ldiff (security_flags h) (Z.lor BasicSecurityHeaderFlags.RESET_SEQNO BasicSecurityHeaderFlags.IGNORE_SEQNO)) expected);
    cbn [negb]; [|apply safe_fail_at]. by apply safe_ret.
Qed.

Lemma encodes_security_into h : encodes (encode_into h) (security_wire (security_flags h)).
Proof. apply encodes_security. Qed.

Lemma llen_security f : llen (security_wire f) = 4.
Proof. unfold security_wire. by rewrite llen_app, !llen_le. Qed.

Ltac sec_len := rewrite ?llen_app, ?llen_security, ?llen_le; done.

#[export] Instance MultitransportRequest_Framed : FramedCodec MultitransportRequestPdu.
Proof.
  refine {| fc_wf p := kind_flags BasicSecurityHeaderFlags.TRANSPORT_REQ (security_flags (mt_security_header p)) /\
      is_u32 (mt_request_id p) /\ length (mt_security_cookie p) = 16%nat /\ bytes_ok (mt_security_cookie p);
    fc_wire p := security_wire (security_flags (mt_security_header p)) ++ to_le_bytes 4 (mt_request_id p)
      ++ to_le_bytes 2 (RequestedProtocol.as_u16 (mt_requested_protocol p)) ++ [0; 0] ++ mt_security_cookie p |}.
  - intros p (_ & _ & Hl & _). assert (Hs : llen (mt_security_cookie p) = 16) by (unfold llen; by rewrite Hl).
    split; [|rewrite !llen_app, llen_security, !llen_le, Hs; done].
    apply encodes_ensure; [rewrite !llen_app, llen_security, !llen_le, Hs; done|]. apply encodes_bind; [apply encodes_security_into|].
    apply encodes_bind; [apply encodes_u32|]. apply encodes_bind; [apply encodes_u16|]. apply encodes_bind; [apply (encodes_padding 2)|apply encodes_write_slice].
  - intros p (_ & _ & _ & Hb). unfold security_wire. bytes.
  - intros [[f] i pr ck] (Hf & Hi & Hl & Hb). cbn [mt_security_header security_flags mt_request_id mt_requested_protocol mt_security_cookie] in *.
    apply decodes_ensure; [rewrite !llen_app, llen_security, !llen_le; unfold llen; rewrite Hl; done|].
    eapply decodes_bind; [by apply decodes_read_security|]. dread.
    eapply decodes_bind; [apply decodes_u16; by destruct pr|]. eapply (decodes_bind_nil _ _ _ pr); [apply decodes_field_or; by destruct pr|].
    eapply decodes_bind; [apply (decodes_read_padding [0; 0])|]. eapply decodes_last; [by apply decodes_read_array|apply decodes_ret].
  - unfold decode_from, MultitransportRequestPdu_Decode. sread. unfold REQUEST_PDU_SIZE, BASIC_SECURITY_HEADER_SIZE, SECURITY_COOKIE_LEN.
    eapply safe_bind; [apply safe_read_security; lia|]. intros h Hh. do 2 sread.
    eapply safe_bind; [by apply (safe_field_or _ _ _ _ (fun _ => True))|]. intros pr _. sread.
    replace (Z.max 0 _ - 4 - 4 - 2 - Z.of_nat 2) with (0 + Z.of_nat 16) by lia.
    eapply safe_bind; [by apply safe_read_slice|]. intros ck [Hl Hb]. apply safe_ret. by split_and!.
Defined.

#[export] Instance MultitransportResponse_Framed : FramedCodec MultitransportResponsePdu.
Proof.
  refine {| fc_wf p := kind_flags BasicSecurityHeaderFlags.TRANSPORT_RSP (security_flags (mr_security_header p)) /\
      is_u32 (mr_request_id p) /\ is_u32 (mr_hr_response p);
    fc_wire p := security_wire (security_flags (mr_security_header p)) ++ to_le_bytes 4 (mr_request_id p)
      ++ to_le_bytes 4 (mr_hr_response p) |}.
  - intros p _. split; [|sec_len]. apply encodes_ensure; [sec_len|]. apply encodes_bind; [apply encodes_security_into|].
    apply encodes_bind; apply encodes_u32.
  - intros p _. unfold security_wire. bytes.
  - intros [[f] i r] (Hf & Hi & Hr). cbn [mr_security_header security_flags mr_request_id mr_hr_response] in *.
    apply decodes_ensure; [sec_len|]. eapply decodes_bind; [by apply decodes_read_security|]. dread.
    eapply decodes_last; [by apply decodes_u32|apply decodes_ret].
  - unfold decode_from, MultitransportResponsePdu_Decode. sread. unfold RESPONSE_PDU_SIZE, BASIC_SECURITY_HEADER_SIZE.
    eapply safe_bind; [apply safe_read_security; lia|]. intros h Hh. do 2 sread. apply safe_done; [lia|]. by split_and!.
Defined.

#[export] Instance Heartbeat_Framed : FramedCodec HeartbeatPdu.
Proof.
  refine {| fc_wf p := kind_flags BasicSecurityHeaderFlags.HEARTBEAT (security_flags (hb_security_header p)) /\
      is_u8 (hb_period p) /\ is_u8 (hb_count1 p) /\ is_u8 (hb_count2 p);
    fc_wire p := security_wire (security_flags (hb_security_header p)) ++ [0] ++ [hb_period p] ++ [hb_count1 p] ++ [hb_count2 p] |}.
  - intros p (_ & H1 & H2 & H3). split; [|sec_len]. apply encodes_ensure; [sec_len|]. apply encodes_bind; [apply encodes_security_into|].
    apply encodes_bind; [by apply encodes_u8|]. apply encodes_bind; [by apply encodes_u8|]. apply encodes_bind; [by apply encodes_u8|by apply encodes_u8].
  - intros p (_ & H1 & H2 & H3). unfold security_wire. bytes.
  - intros [[f] p1 p2 p3] (Hf & H1 & H2 & H3). cbn [hb_security_header security_flags hb_period hb_count1 hb_count2] in *.
    apply decodes_ensure; [sec_len|]. eapply decodes_bind; [by apply decodes_read_security|]. do 3 dread.
    eapply decodes_last; [by apply decodes_u8|apply decodes_ret].
  - unfold decode_from, HeartbeatPdu_Decode. sread. unfold HEARTBEAT_PDU_SIZE, BASIC_SECURITY_HEADER_SIZE.
    eapply safe_bind; [apply safe_read_security; lia|]. intros h Hh. do 4 sread. apply safe_done; [lia|]. by split_and!.
Defined.

(** ** One kind per message *)

Inductive MessageKind := KRequest | KResponse | KHeartbeat | KAutoDetectReq | KAutoDetectRsp.
#[export] Instance MessageKind_eq_dec : EqDecision MessageKind.
Proof. solve_decision. Defined.
Inductive MessagePdu :=
| MRequest (p : MultitransportRequestPdu) | MResponse (p : MultitransportResponsePdu) | MHeartbeat (p : HeartbeatPdu)
| MAutoDetectReq (p : AutoDetectReqPdu) | MAutoDetectRsp (p : AutoDetectRspPdu).
Definition message_kind (m : MessagePdu) : MessageKind :=
  match m with
  | MRequest _ => KRequest | MResponse _ => KResponse | MHeartbeat _ => KHeartbeat
  | MAutoDetectReq _ => KAutoDetectReq | MAutoDetectRsp _ => KAutoDetectRsp
  end.
Definition message_decode_as (k : MessageKind) (bs : list Z) : outcome DecodeErrorKind MessagePdu :=
  match k with
  | KRequest => p ← decode MultitransportRequestPdu bs; mret (MRequest p)
  | KResponse => p ← decode MultitransportResponsePdu bs; mret (MResponse p)
  | KHeartbeat => p ← decode HeartbeatPdu bs; mret (MHeartbeat p)
  | KAutoDetectReq => p ← decode AutoDetectReqPdu bs; mret (MAutoDetectReq p)
  | KAutoDetectRsp => p ← decode AutoDetectRspPdu bs; mret (MAutoDetectRsp p)
  end.
Definition message_encode (m : MessagePdu) : outcome EncodeErrorKind (list Z) :=
  match m with
  | MRequest p => encode_vec p | MResponse p => encode_vec p | MHeartbeat p => encode_vec p
  | MAutoDetectReq p => encode_vec p | MAutoDetectRsp p => encode_vec p
  end.
Definition message_wf (m : MessagePdu) : Prop :=
  match m with
  | MRequest p => fc_wf p | MResponse p => fc_wf p | MHeartbeat p => fc_wf p
  | MAutoDetectReq p => req_pdu_wf p | MAutoDetectRsp p => wf p
  end.

(** What the first bytes of a message say of its kind: the flags of the
    security header, and for the auto-detection messages the type of theirs. *)
Definition header_flags (bs : list Z) : Z := Z.land (from_le_bytes (take 2 bs)) BasicSecurityHeaderFlags.all.
Definition header_type (bs : list Z) : Z := from_le_bytes (take 1 (drop 5 bs)).
Definition header_says (k : MessageKind) (bs : list Z) : Prop :=
  let plain := Z.ldiff (header_flags bs) (Z.lor BasicSecurityHeaderFlags.RESET_SEQNO BasicSecurityHeaderFlags.IGNORE_SEQNO) in
  match k with
  | KRequest => plain = BasicSecurityHeaderFlags.TRANSPORT_REQ
  | KResponse => plain = BasicSecurityHeaderFlags.TRANSPORT_RSP
  | KHeartbeat => plain = BasicSecurityHeaderFlags.HEARTBEAT
  | KAutoDetectReq => Z.testbit (header_flags bs) 12 = true /\ header_type bs = TYPE_ID_AUTODETECT_REQUEST
  | KAutoDetectRsp => Z.testbit (header_flags bs) 13 = true /\ header_type bs = TYPE_ID_AUTODETECT_RESPONSE
  end.

Lemma header_says_one bs k k' : header_says k bs -> header_says k' bs -> k = k'.
Proof.
  assert (Hp : forall x n b, Z.ldiff x 0x30 = b -> n = 12 \/ n = 13 -> Z.testbit x n = Z.testbit b n).
  { intros x n b <- [-> | ->]; rewrite Z.ldiff_spec; cbn; by rewrite andb_true_r. }
  unfold header_says. cbv zeta. change (Z.lor _ _) with 0x30.
  destruct k, k'; intros H1 H2; try reflexivity; try (exfalso; rewrite H1 in H2; vm_compute in H2; discriminate H2);
    repeat match goal with H : _ /\ _ |- _ => destruct H as [? ?] end;
    try (unfold TYPE_ID_AUTODETECT_REQUEST, TYPE_ID_AUTODETECT_RESPONSE in *; congruence).
  all: match goal with H : Z.ldiff _ _ = ?b, T : Z.testbit _ ?n = true |- _ =>
         rewrite (Hp _ n b H) in T by auto; vm_compute in T; discriminate T end.
Qed.

Lemma read_slice_taken {E} n bs p s c :
  ReadCursor.read_slice (E := E) n (ReadCursor.mk bs p) = Ok (s, c) -> s = take n (drop p bs) /\ c = ReadCursor.mk bs (p + n).
Proof.
  unfold ReadCursor.read_slice, ReadCursor.peek_slice, ReadCursor.advance, mbind, M_bind. cbn [ReadCursor.pos ReadCursor.inner].
  destruct (Nat.leb_spec (p + n) (length bs)); [|done]. cbn. by intros [= <- <-].
Qed.

Lemma read_int_taken {E} n (conv : list Z -> Z) bs p v c :
  (x ← ReadCursor.read_slice (E := E) n; mret (conv x)) (ReadCursor.mk bs p) = Ok (v, c) ->
  v = conv (take n (drop p bs)) /\ c = ReadCursor.mk bs (p + n).
Proof. intros (x & c1 & Hx & Hr)%bind_ok_inv. apply read_slice_taken in Hx as [-> ->]. by injection Hr as <- <-. Qed.

Lemma security_taken bs h c :
  BasicSecurityHeader_decode (ReadCursor.mk bs 0) = Ok (h, c) -> security_flags h = header_flags bs /\ c = ReadCursor.mk bs 4.
Proof.
  unfold BasicSecurityHeader_decode. intros (u & c1 & Hu & Hr)%bind_ok_inv. apply ensure_size_len in Hu as ->.
  apply bind_ok_inv in Hr as (f & c2 & Hf & Hr). apply (read_int_taken 2 from_le_bytes) in Hf as [-> ->].
  apply bind_ok_inv in Hr as (w & c3 & Hw & Hr). apply (read_int_taken 2 from_le_bytes) in Hw as [-> ->].
  injection Hr as <- <-. cbn [security_flags]. by rewrite from_bits_truncate_bits.
Qed.

Lemma read_security_taken expected reason bs h c :
  read_security expected reason (ReadCursor.mk bs 0) = Ok (h, c) ->
  Z.ldiff (header_flags bs) (Z.lor BasicSecurityHeaderFlags.RESET_SEQNO BasicSecurityHeaderFlags.IGNORE_SEQNO) = expected.
Proof.
  unfold read_security. intros (h1 & c1 & Hh & Hr)%bind_ok_inv. apply security_taken in Hh as [<- ->]. cbv beta zeta in Hr.
  rewrite difference_bits, union_bits in Hr. destruct (Z.eqb_spec (Z.ldiff (security_flags h1)
    (Z.lor BasicSecurityHeaderFlags.RESET_SEQNO BasicSecurityHeaderFlags.IGNORE_SEQNO)) expected); done.
Qed.

(** The prefix the two auto-detection decoders share. *)
Lemma type_id_taken {A} (expected : Z) kind (k : Decoder A) bs a c :
  (_ ← ReadCursor.ensure_size HEADER_MIN_SIZE; _ ← ReadCursor.read_u8; t ← ReadCursor.read_u8;
   if negb (t =? expected) then fail_at kind else k) (ReadCursor.mk bs 4) = Ok (a, c) -> header_type bs = expected.
Proof.
  intros (u & c1 & Hu & Hr)%bind_ok_inv. apply ensure_size_len in Hu as ->.
  apply bind_ok_inv in Hr as (f & c2 & Hf & Hr). apply (read_int_taken 1 from_le_bytes) in Hf as [-> ->].
  apply bind_ok_inv in Hr as (w & c3 & Hw & Hr). apply (read_int_taken 1 from_le_bytes) in Hw as [-> ->]. cbv beta in Hr.
  unfold header_type. change (4 + 1)%nat with 5%nat in *. destruct (Z.eqb_spec (from_le_bytes (take 1 (drop 5 bs))) expected); done.
Qed.

Lemma contains_bit x n : 0 <= n -> contains x (2 ^ n) = true -> Z.testbit x n = true.
Proof.
  intros Hn. rewrite contains_bits. intros Heq%Z.eqb_eq. apply (f_equal (fun y => Z.testbit y n)) in Heq.
  rewrite Z.land_spec, Z.pow2_bits_true in Heq by done. by rewrite andb_true_r in Heq.
Qed.

Lemma decode_ok_inv {A} `{Decode A} bs a :
  decode A bs = Ok a -> exists c, decode_from (ReadCursor.mk bs 0) = Ok (a, c).
Proof.
  unfold decode, ReadCursor.new. destruct (decode_from _) as [[x c]| |]; [|done..]. intros [= ->]. by exists c.
Qed.

Lemma message_decoded k bs m : message_decode_as k bs = Ok m -> header_says k bs.
Proof.
  destruct k; cbn [message_decode_as]; (destruct (decode _ bs) as [p| |] eqn:Hd; [|done..]); intros _;
    apply decode_ok_inv in Hd as [c Hd]; cbn [decode_from MultitransportRequestPdu_Decode MultitransportResponsePdu_Decode
      HeartbeatPdu_Decode AutoDetectReqPdu_Decode AutoDetectRspPdu_Decode] in Hd.
  1-3: apply bind_ok_inv in Hd as (u & c1 & Hu & Hr); apply ensure_size_len in Hu as ->;
    apply bind_ok_inv in Hr as (h & c2 & Hh & _); by eapply read_security_taken.
  all: unfold AutoDetectReqPdu_decode, AutoDetectRspPdu_decode in Hd; apply bind_ok_inv in Hd as (h & c1 & Hh & Hr);
    apply security_taken in Hh as [Hf ->]; cbv beta in Hr; rewrite Hf in Hr;
    match type of Hr with context [contains ?x ?y] => destruct (contains x y) eqn:Hc; [|done] end; cbn [negb] in Hr;
    apply bind_ok_inv in Hr as (r & c2 & Hr & _); split; [apply contains_bit; [lia|exact Hc]|by eapply type_id_taken in Hr].
Qed.

Lemma message_written m : message_wf m -> exists out, message_encode m = Ok out /\ message_decode_as (message_kind m) out = Ok m.
Proof.
  assert (Hfc : forall A (HE : Encode A) (HD : Decode A) (HF : FramedCodec A) (p : A), fc_wf p ->
    exists out, encode_vec p = Ok out /\ decode A out = Ok p).
  { intros A HE HD HF p Hp. exists (fc_wire p). split; [by apply encode_vec_writes, fc_writes|].
    pose proof (fc_decodes p Hp [] []) as Hd. rewrite app_nil_r in Hd. unfold decode, ReadCursor.new. cbn [length app] in Hd. by rewrite Hd. }
  destruct m as [p|p|p|p|p]; intros Hp; cbn [message_wf message_encode message_kind message_decode_as] in *.
  1-3: apply Hfc in Hp as (out & He & Hd); exists out; by rewrite Hd.
  - exists (req_pdu_wire p). split; [apply encode_vec_writes, req_pdu_writes, Hp|].
    unfold decode, ReadCursor.new. pose proof (decodes_req_pdu p Hp [] []) as Hd. rewrite app_nil_r in Hd. cbn [length app] in Hd.
    cbn [decode_from AutoDetectReqPdu_Decode]. by rewrite Hd.
  - exists (wire p). by rewrite encode_vec_wire, decode_wire.
Qed.

(** C19: the PDUs of the message channel carry no type field of their own, and
    still no bytes can be taken for two kinds: what decodes as one of the
    Multitransport Request, Multitransport Response, Heartbeat and the two
    auto-detection messages decodes as no other of them, and what is written as
    one kind is read back as that PDU and refused as every other. *)
Theorem message_kinds_unambiguous :
  (forall bs k k' m m', message_decode_as k bs = Ok m -> message_decode_as k' bs = Ok m' -> k = k' /\ m = m') /\
  (forall m, message_wf m -> exists out, message_encode m = Ok out /\
     forall k m', message_decode_as k out = Ok m' <-> k = message_kind m /\ m' = m).
Proof.
  assert (Hu : forall bs k k' m m', message_decode_as k bs = Ok m -> message_decode_as k' bs = Ok m' -> k = k' /\ m = m').
  { intros bs k k' m m' H H'. assert (k = k') as <- by (eapply header_says_one; by eapply message_decoded).
    rewrite H in H'. by injection H' as <-. }
  split; [exact Hu|]. intros m Hm. destruct (message_written m Hm) as (out & He & Hd). exists out. split; [done|].
  intros k m'. split; [|by intros [-> ->]]. intros H. destruct (Hu _ _ _ _ _ H Hd) as [-> ->]. done.
Qed.

End pdus.

(** A refused tunnel, with the sequence number flags a client may leave set. *)
Lemma message_kinds_unambiguous_witness :
  let B := bits_flags in
  let m := MResponse (mkMultitransportResponse (mkSecurityHeader 0x34) 7 E_ABORT) in
  exists out, message_encode m = Ok out /\
    forall k m', message_decode_as k out = Ok m' <-> k = KResponse /\ m' = m.
Proof. intros B m. apply (message_kinds_unambiguous (BF := bits_flags)). by split_and!. Defined.
