(* ===== verification/Acceptor.v ===== *)
(** The server's connection sequence
    (src/crates/ironrdp-acceptor/src/connection.rs): the [Acceptor], its states
    and its step, from the X.224 negotiation to the finalized connection.

    What the Connect Initial, the Connect Response, the Client Info and the
    licensing message look like on the wire is an interface ([SettingsCodecs]):
    the acceptor only uses their fields.  A [String] is its bytes, a channel
    name its eight bytes; an [io::Result] of the resolver is an option. *)

From S2P Require Import Prelude Timing Cursor Codec Flags Mutation WriteBuf Mcs McsCodec Svc SvcSet Framed Nego NegoCodec Sequence ChannelConnection AutoDetect ConnectTime ShareData ShareCodec Finalization MessageChannel.

Open Scope Z_scope.

Definition IO_CHANNEL_ID : Z := 1003.
Definition USER_CHANNEL_ID : Z := 1002.
Definition MIN_DESKTOP_DIM : Z := 200.
Definition MAX_DESKTOP_DIM : Z := 8192.

Module ClientEarlyCapabilityFlags.
Definition SUPPORT_ERR_INFO_PDU : Z := 0x0001.
Definition SUPPORT_MONITOR_LAYOUT_PDU : Z := 0x0040.
Definition SUPPORT_NET_CHAR_AUTODETECT : Z := 0x0080.
Definition SUPPORT_SKIP_CHANNELJOIN : Z := 0x0800.
End ClientEarlyCapabilityFlags.
Module ServerEarlyCapabilityFlags.
Definition SKIP_CHANNELJOIN_SUPPORTED : Z := 0x0008.
End ServerEarlyCapabilityFlags.
Module MultiTransportFlags.
Definition TRANSPORT_TYPE_UDP_FECR : Z := 0x01.
Definition SOFT_SYNC_TCP_TO_UDP : Z := 0x200.
End MultiTransportFlags.
Definition RdpVersion_V10_7 : Z := 0x0008000C.
Definition MonitorFlags_PRIMARY : Z := 1.

Record DesktopSize := mkDesktopSize { width : Z; height : Z }.
#[export] Instance DesktopSize_eq_dec : EqDecision DesktopSize.
Proof. solve_decision. Defined.

Record Credentials := mkCredentials { username : list Z; password : list Z; domain : option (list Z) }.
#[export] Instance Credentials_eq_dec : EqDecision Credentials.
Proof. solve_decision. Defined.

Record ClientAutoReconnect := mkAutoReconnect { logon_id : Z; security_verifier : list Z }.
Record ChannelDef := mkChannelDef { cd_name : list Z; cd_options : Z }.
Record ClientClusterData := mkClusterData { cluster_flags : Z; redirection_version : Z; redirected_session_id : Z }.

(** The offer of a sideband transport *)
Record MultitransportRequest := mkOffer { mtr_request_id : Z; mtr_security_cookie : list Z }.

(** ** MCS domain parameters *)

Record DomainParameters := mkDomainParameters {
  max_channel_ids : Z; max_user_ids : Z; max_token_ids : Z; num_priorities : Z;
  min_throughput : Z; max_height : Z; max_mcs_pdu_size : Z; protocol_version : Z;
}.
Definition DomainParameters_target : DomainParameters := mkDomainParameters 34 2 0 1 0 1 65535 2.

Definition merged_pdu_size (target minimum maximum : DomainParameters) : option Z :=
  if 124 <=? max_mcs_pdu_size target then
    if max_mcs_pdu_size target <=? 65528 then Some (max_mcs_pdu_size target)
    else if (124 <=? max_mcs_pdu_size minimum) && (max_mcs_pdu_size minimum <=? 65528) then Some 65528
    else None
  else if 124 <=? max_mcs_pdu_size maximum then Some (max_mcs_pdu_size maximum)
  else None.

(** [DomainParameters::merge] *)
Definition merge (target minimum maximum : DomainParameters) : option DomainParameters :=
  channel_ids ← (if 4 <=? max_channel_ids target then Some (max_channel_ids target)
    else if 4 <=? max_channel_ids maximum then Some 4 else None);
  user_ids ← (if 3 <=? max_user_ids target then Some (max_user_ids target)
    else if 3 <=? max_user_ids maximum then Some 3 else None);
  if 1 <? num_priorities minimum then None
  else if negb (max_height target =? 1) && (1 <? max_height minimum) then None
  else
    pdu_size ← merged_pdu_size target minimum maximum;
    if negb ((protocol_version target =? 2) || ((protocol_version minimum <=? 2) && (2 <=? protocol_version maximum)))
    then None
    else Some (mkDomainParameters channel_ids user_ids (max_token_ids target) 1 (min_throughput target) 1 pdu_size 2).

(** ** Settings *)

(** What the acceptor reads of the client's GCC blocks *)
Record ClientGccBlocks := mkClientBlocks {
  core_early_capability_flags : option Z;
  core_keyboard_layout : Z;
  core_keyboard_type : Z;
  core_ime_file_name : list Z;
  core_desktop_width : Z;
  core_desktop_height : Z;
  cluster : option ClientClusterData;
  multi_transport_flags : option Z;
  wants_message_channel : bool;
  network_channels : option (list ChannelDef);
}.
Record ConnectInitial := mkConnectInitial {
  ci_gcc_blocks : ClientGccBlocks;
  target_parameters : DomainParameters;
  min_parameters : DomainParameters;
  max_parameters : DomainParameters;
}.
Record ServerSecurityData := mkSecurityData {
  encryption_method : Z; encryption_level : Z; server_random : option (list Z); server_cert : list Z }.
Definition no_security : ServerSecurityData := mkSecurityData 0 0 None [].
Record ServerGccBlocks := mkServerBlocks {
  sb_version : Z;
  sb_client_requested_protocols : option Z;
  sb_early_capability_flags : option Z;
  sb_security : ServerSecurityData;
  sb_channel_ids : list Z;
  sb_io_channel : Z;
  sb_message_channel : option Z;
  sb_multi_transport : option Z;
}.
Record ConferenceCreateResponse := mkConferenceResponse { conf_user_id : Z; conf_gcc_blocks : ServerGccBlocks }.
Record ConnectResponse := mkConnectResponse {
  conference_create_response : ConferenceCreateResponse;
  called_connect_id : Z;
  domain_parameters : DomainParameters;
}.
(** What the acceptor reads of the Client Info PDU *)
Record ClientInfoPdu := mkClientInfo { info_credentials : Credentials; info_auto_reconnect : option ClientAutoReconnect }.

Class SettingsCodecs := {
  ConnectInitial_Decode :: Decode ConnectInitial;
  ServerGccBlocks_size : ServerGccBlocks -> Z;
  CONFERENCE_RESPONSE_CONNECT_PDU_SIZE : Z;
  ConnectResponse_Encode :: Encode ConnectResponse;
  ClientInfoPdu_Decode :: Decode ClientInfoPdu;
  LicensePdu : Type;
  LicensePdu_Encode :: Encode LicensePdu;
  new_valid_client : outcome EncodeErrorKind LicensePdu;
}.

Definition ConferenceCreateResponse_new `{SettingsCodecs} (user_id : Z) (gcc_blocks : ServerGccBlocks) :
    outcome DecodeErrorKind ConferenceCreateResponse :=
  if ServerGccBlocks_size gcc_blocks <=? 65535 - CONFERENCE_RESPONSE_CONNECT_PDU_SIZE
  then Ok (mkConferenceResponse user_id gcc_blocks)
  else Err (DInvalidField "gcc_blocks" "gcc_blocks.size() + CONFERENCE_REQUEST_CONNECT_PDU_SIZE > u16::MAX" None).

(** [encode_x224_packet] of the connector crate *)
Definition encode_x224_packet {A P} `{Encode P} (x224_msg : P) : StepM A Z :=
  x224_msg_buf ← question CEncode (encode_vec x224_msg);
  emit (mkX224 (mkX224Data x224_msg_buf)).

Definition create_gcc_blocks `{Bitflags} (io_channel : Z) (channel_ids : list Z) (requested : Z) (skip_channel_join : bool)
    (message_channel_id : option Z) (multitransport_announce : bool) : ServerGccBlocks :=
  mkServerBlocks RdpVersion_V10_7 (Some requested)
    (if skip_channel_join then Some ServerEarlyCapabilityFlags.SKIP_CHANNELJOIN_SUPPORTED else None)
    no_security channel_ids io_channel message_channel_id
    (if multitransport_announce
     then Some (union MultiTransportFlags.TRANSPORT_TYPE_UDP_FECR MultiTransportFlags.SOFT_SYNC_TCP_TO_UDP)
     else None).

Definition in_desktop_range (d : Z) : bool := (MIN_DESKTOP_DIM <=? d) && (d <=? MAX_DESKTOP_DIM).
Definition validate_desktop_size (w h : Z) : option DesktopSize :=
  if in_desktop_range w && in_desktop_range h then Some (mkDesktopSize w h) else None.

(** [self.flags.contains(flag)] of an optional flags field *)
Definition flag_set `{Bitflags} (flag : Z) (flags : option Z) : bool :=
  match flags with Some f => contains f flag | None => false end.

(** ** The acceptor *)

Section acceptor.
Context {BF : Bitflags} {SB : ShareBodies} {SC : ShareCodecs} {ST : SettingsCodecs} {P : Type} {SP : SvcProcessor P}.

(** Writes the size into every Bitmap capability set. *)
Definition set_bitmap_desktop_size (sz : DesktopSize) (capabilities : list CapabilitySet) : list CapabilitySet :=
  (fun cap =>
    match cap with
    | CapBitmap b =>
        CapBitmap (mkBitmap (pref_bits_per_pix b) (width sz) (height sz) (desktop_resize_flag b) (bitmap_drawing_flags b))
    | CapOther o => CapOther o
    end) <$> capabilities.

Abbreviation JoinedChannels := (list (Z * ChannelDef)).

Inductive AcceptorState :=
| AsConsumed
| AsInitiationWaitRequest
| AsInitiationSendConfirm (requested_protocol : Z) (nego_present : bool)
| AsSecurityUpgrade (requested_protocol protocol : Z)
| AsCredssp (requested_protocol protocol : Z)
| AsBasicSettingsWaitInitial (requested_protocol protocol : Z)
| AsBasicSettingsSendResponse (requested_protocol protocol : Z) (early_capability : option Z)
    (channels : list (Z * option ChannelDef))
| AsChannelConnection (protocol : Z) (early_capability : option Z) (channels : JoinedChannels)
    (connection : ChannelConnectionSequence)
| AsRdpSecurityCommencement (protocol : Z) (early_capability : option Z) (channels : JoinedChannels)
| AsSecureSettingsExchange (protocol : Z) (early_capability : option Z) (channels : JoinedChannels)
| AsConnectTimeAutoDetection (early_capability : option Z) (channels : JoinedChannels) (detection : ConnectTimeAutoDetection)
| AsLicensingExchange (early_capability : option Z) (channels : JoinedChannels)
| AsMultitransportBootstrapping (early_capability : option Z) (channels : JoinedChannels)
| AsCapabilitiesSendServer (early_capability : option Z) (channels : JoinedChannels)
| AsMonitorLayoutSend (channels : JoinedChannels)
| AsCapabilitiesWaitConfirm (channels : JoinedChannels)
| AsConnectionFinalization (finalization : FinalizationSequence) (channels : JoinedChannels)
    (client_capabilities : list CapabilitySet)
| AsAccepted (channels : JoinedChannels) (client_capabilities : list CapabilitySet) (input_events : list (list Z)).

(** What the embedder configures *)
Record AcceptorConfig := mkAcceptorConfig {
  security : Z;
  graphics_pipeline_announce : bool;
  io_channel_id : Z;
  user_channel_id : Z;
  creds : option Credentials;
  reactivation : bool;
  honor_client_desktop_size : option DesktopSize;
  multitransport_announce : bool;
  multitransport_request : option MultitransportRequest;
  connect_time_autodetect : bool;
  (** the secret of an account, for CredSSP *)
  credential_resolver : option (list Z -> option Credentials);
}.
(** What the client's settings and the configuration come to *)
Record AcceptorSettings := mkAcceptorSettings {
  message_channel_id : option Z;
  desktop_size : DesktopSize;
  keyboard_layout : Z;
  keyboard_type : Z;
  ime_file_name : list Z;
  client_cluster : option ClientClusterData;
  multitransport_flags : Z;
  early_capability_flags : Z;
  server_capabilities : list CapabilitySet;
  static_channels : StaticChannelSet P;
  merged_domain_parameters : DomainParameters;
}.
(** What the client sent and was sent since *)
Record AcceptorReceived := mkAcceptorReceived {
  received_credentials : option Credentials;
  received_auto_reconnect : option ClientAutoReconnect;
  multitransport_request_sent : option Z;
  message_channel_pdus : list (list Z);
  network_characteristics : option NetworkCharacteristics;
}.
Record Acceptor := mkAcceptor {
  a_state : AcceptorState;
  a_config : AcceptorConfig;
  a_settings : AcceptorSettings;
  a_received : AcceptorReceived;
  saved_for_reactivation : AcceptorState;
}.

Definition a_set_state (st : AcceptorState) (a : Acceptor) : Acceptor :=
  mkAcceptor st (a_config a) (a_settings a) (a_received a) (saved_for_reactivation a).
Definition a_set_settings (s : AcceptorSettings) (a : Acceptor) : Acceptor :=
  mkAcceptor (a_state a) (a_config a) s (a_received a) (saved_for_reactivation a).
Definition a_set_received (f : AcceptorReceived -> AcceptorReceived) (a : Acceptor) : Acceptor :=
  mkAcceptor (a_state a) (a_config a) (a_settings a) (f (a_received a)) (saved_for_reactivation a).
Definition a_set_saved (st : AcceptorState) (a : Acceptor) : Acceptor :=
  mkAcceptor (a_state a) (a_config a) (a_settings a) (a_received a) st.

Definition nothing_received : AcceptorReceived := mkAcceptorReceived None None None [] None.

(** [Acceptor::new_with_resolver] *)
Definition Acceptor_new (sec : Z) (desktop : DesktopSize) (capabilities : list CapabilitySet) (expected : option Credentials)
    (resolver : option (list Z -> option Credentials)) : Acceptor :=
  mkAcceptor AsInitiationWaitRequest
    (mkAcceptorConfig sec false IO_CHANNEL_ID USER_CHANNEL_ID expected false None false None false resolver)
    (mkAcceptorSettings None desktop 0 0 [] None 0 0 capabilities set_new DomainParameters_target)
    nothing_received AsConsumed.

(** The setters of the embedder *)
Definition a_set_config (f : AcceptorConfig -> AcceptorConfig) (a : Acceptor) : Acceptor :=
  mkAcceptor (a_state a) (f (a_config a)) (a_settings a) (a_received a) (saved_for_reactivation a).
Definition set_graphics_pipeline_announce (announce : bool) : Acceptor -> Acceptor := a_set_config (fun c =>
  mkAcceptorConfig (security c) announce (io_channel_id c) (user_channel_id c) (creds c) (reactivation c)
    (honor_client_desktop_size c) (multitransport_announce c) (multitransport_request c) (connect_time_autodetect c) (credential_resolver c)).
Definition set_honor_client_desktop_size (max : option DesktopSize) : Acceptor -> Acceptor := a_set_config (fun c =>
  mkAcceptorConfig (security c) (graphics_pipeline_announce c) (io_channel_id c) (user_channel_id c) (creds c) (reactivation c)
    max (multitransport_announce c) (multitransport_request c) (connect_time_autodetect c) (credential_resolver c)).
Definition set_multitransport_announce (announce : bool) : Acceptor -> Acceptor := a_set_config (fun c =>
  mkAcceptorConfig (security c) (graphics_pipeline_announce c) (io_channel_id c) (user_channel_id c) (creds c) (reactivation c)
    (honor_client_desktop_size c) announce (multitransport_request c) (connect_time_autodetect c) (credential_resolver c)).
Definition set_multitransport_request (request : option MultitransportRequest) : Acceptor -> Acceptor := a_set_config (fun c =>
  mkAcceptorConfig (security c) (graphics_pipeline_announce c) (io_channel_id c) (user_channel_id c) (creds c) (reactivation c)
    (honor_client_desktop_size c) (multitransport_announce c) request (connect_time_autodetect c) (credential_resolver c)).
Definition set_connect_time_autodetect (enabled : bool) : Acceptor -> Acceptor := a_set_config (fun c =>
  mkAcceptorConfig (security c) (graphics_pipeline_announce c) (io_channel_id c) (user_channel_id c) (creds c) (reactivation c)
    (honor_client_desktop_size c) (multitransport_announce c) (multitransport_request c) enabled (credential_resolver c)).

Definition set_static_channels (s : StaticChannelSet P) (st : AcceptorSettings) : AcceptorSettings :=
  mkAcceptorSettings (message_channel_id st) (desktop_size st) (keyboard_layout st) (keyboard_type st) (ime_file_name st)
    (client_cluster st) (multitransport_flags st) (early_capability_flags st) (server_capabilities st) s
    (merged_domain_parameters st).

(** [attach_static_channel::<T>(channel)] for a type with id [type_id] *)
Definition attach_static_channel (type_id : Z) (channel : P) (a : Acceptor) : Acceptor :=
  let set := static_channels (a_settings a) in
  if negb (is_some (get_by_type_id type_id set)) && (MAX_STATIC_CHANNELS <=? set_len set) then a
  else
    match get_by_channel_name_key (channel_name channel) set with
    | Some (existing_key, _) =>
        if decide (existing_key <> Typed type_id) then a
        else a_set_settings (set_static_channels (set_insert type_id channel set).2 (a_settings a)) a
    | None => a_set_settings (set_static_channels (set_insert type_id channel set).2 (a_settings a)) a
    end.
Definition attach_dynamic_static_channel (channel : P) (a : Acceptor) : bool * Acceptor :=
  let set := static_channels (a_settings a) in
  if (MAX_STATIC_CHANNELS <=? set_len set) || is_some (get_by_channel_name_key (channel_name channel) set) then (false, a)
  else
    let '(key, set') := set_insert_dynamic channel set in
    (is_some key, a_set_settings (set_static_channels set' (a_settings a)) a).

(** The request to send in the Optional Multitransport Bootstrapping phase,
    with the message channel it goes on *)
Definition multitransport_bootstrap (a : Acceptor) : option (MultitransportRequest * Z) :=
  request ← multitransport_request (a_config a);
  channel ← message_channel_id (a_settings a);
  let wanted := union MultiTransportFlags.TRANSPORT_TYPE_UDP_FECR MultiTransportFlags.SOFT_SYNC_TCP_TO_UDP in
  if negb (contains (multitransport_flags (a_settings a)) wanted) then None else Some (request, channel).

Definition reached_security_upgrade (a : Acceptor) : option Z :=
  match a_state a with AsSecurityUpgrade _ _ => Some (security (a_config a)) | _ => None end.
Definition should_perform_credssp (a : Acceptor) : bool :=
  match a_state a with AsCredssp _ _ => true | _ => false end.

Definition a_is_terminal (a : Acceptor) : bool := match a_state a with AsAccepted _ _ _ => true | _ => false end.

Definition a_next_pdu_hint (a : Acceptor) : option PduHint :=
  match a_state a with
  | AsInitiationWaitRequest => Some X224Hint
  | AsBasicSettingsWaitInitial _ _ => Some X224Hint
  | AsChannelConnection _ _ _ connection => cc_next_pdu_hint connection
  | AsSecureSettingsExchange _ _ _ => Some X224Hint
  | AsConnectTimeAutoDetection _ _ detection => if ct_waits_for_input detection then Some X224Hint else None
  | AsCapabilitiesWaitConfirm _ => Some X224Hint
  | AsConnectionFinalization finalization _ _ => fin_next_pdu_hint finalization
  | AsConsumed | AsInitiationSendConfirm _ _ | AsSecurityUpgrade _ _ | AsCredssp _ _ | AsBasicSettingsSendResponse _ _ _ _
  | AsRdpSecurityCommencement _ _ _ | AsLicensingExchange _ _ | AsMultitransportBootstrapping _ _
  | AsCapabilitiesSendServer _ _ | AsMonitorLayoutSend _ | AsAccepted _ _ _ => None
  end.

(** ** The step, state by state *)

Abbreviation AC := (StepM Acceptor).

Definition initiation_wait_request (input : list Z) : AC (Written * AcceptorState) :=
  p ← decode_input (X224 ConnectionRequest) input;
  let connection_request := x224 p in
  mret (Nothing, AsInitiationSendConfirm (cr_protocol connection_request) (is_some (nego_data connection_request))).

(** The protocol both sides speak, the strongest first *)
Definition select_protocol (security_ requested_protocol : Z) : option Z :=
  let protocols := intersection requested_protocol security_ in
  if intersects protocols SecurityProtocol.HYBRID_EX then Some SecurityProtocol.HYBRID_EX
  else if intersects protocols SecurityProtocol.HYBRID then Some SecurityProtocol.HYBRID
  else if intersects protocols SecurityProtocol.SSL then Some SecurityProtocol.SSL
  else if SecurityProtocol.is_empty security_ then Some 0
  else None.

Definition failure_code (security_ : Z) : Z :=
  if intersects security_ SecurityProtocol.SSL then FailureCode.SSL_REQUIRED_BY_SERVER
  else if intersects security_ (union SecurityProtocol.HYBRID SecurityProtocol.HYBRID_EX)
  then FailureCode.HYBRID_REQUIRED_BY_SERVER
  else FailureCode.SSL_REQUIRED_BY_SERVER.

Definition response_flags (announce : bool) : Z :=
  set_flag ResponseFlags.EXTENDED_CLIENT_DATA_SUPPORTED ResponseFlags.DYNVC_GFX_PROTOCOL_SUPPORTED announce.

Definition initiation_send_confirm (cfg : AcceptorConfig) (requested_protocol : Z) (nego_present : bool) :
    AC (Written * AcceptorState) :=
  match select_protocol (security cfg) requested_protocol with
  | None =>
      let confirm := if negb nego_present then NoNegotiation else Failure (failure_code (security cfg)) in
      _ ← emit (mkX224 confirm);
      throw (CReason "security protocol mismatch")
  | Some protocol =>
      let connection_confirm := Response (response_flags (graphics_pipeline_announce cfg)) protocol in
      written ← emit (mkX224 connection_confirm);
      written ← written_size written;
      mret (written, AsSecurityUpgrade requested_protocol protocol)
  end.

Definition is_hybrid (protocol : Z) : bool :=
  intersects protocol (union SecurityProtocol.HYBRID SecurityProtocol.HYBRID_EX).

(** The size both the client and the operator agree to, if it is legal *)
Definition honored_size (max : DesktopSize) (blocks : ClientGccBlocks) : option DesktopSize :=
  let clamped_width := Z.min (core_desktop_width blocks) (width max) in
  let clamped_height := Z.min (core_desktop_height blocks) (height max) in
  validate_desktop_size clamped_width clamped_height.
Definition adopt_desktop_size (max : option DesktopSize) (blocks : ClientGccBlocks) (size_ : DesktopSize)
    (capabilities : list CapabilitySet) : DesktopSize * list CapabilitySet :=
  match max with
  | Some max =>
      match honored_size max blocks with
      | Some client_size =>
          if decide (client_size = size_) then (size_, capabilities)
          else (client_size, set_bitmap_desktop_size client_size capabilities)
      | None => (size_, capabilities)
      end
  | None => (size_, capabilities)
  end.

(** [u16::try_from(i).expect("always in the range") + self.io_channel_id + 1]:
    the sum wraps. *)
Definition allotted_id (io : Z) (i : nat) : option Z :=
  if Z.of_nat i <=? 65535 then Some ((Z.of_nat i + io + 1) mod 65536) else None.

(** [joined.into_iter().enumerate().map(..)] from the [i]-th on *)
Fixpoint allot_ids (io : Z) (i : nat) (joined : list (option (StaticChannelKey * ChannelDef))) (set : StaticChannelSet P) :
    option (list (Z * option ChannelDef) * StaticChannelSet P) :=
  match joined with
  | [] => Some ([], set)
  | channel :: joined' =>
      channel_id ← allotted_id io i;
      let '(entry, set) :=
        match channel with
        | Some (key, c) => ((channel_id, Some c), (attach_channel_id_by_key key channel_id set).2)
        | None => ((channel_id, None), set)
        end in
      '(entries, set) ← allot_ids io (S i) joined' set;
      Some (entry :: entries, set)
  end.

Definition find_joined (set : StaticChannelSet P) (network : option (list ChannelDef)) :
    list (option (StaticChannelKey * ChannelDef)) :=
  match network with
  | Some defs => (fun c => (fun kc => (kc.1, c)) <$> get_by_channel_name_key (cd_name c) set) <$> defs
  | None => []
  end.

Definition basic_settings_wait_initial (cfg : AcceptorConfig) (st : AcceptorSettings) (input : list Z)
    (requested_protocol protocol : Z) : AC (Written * AcceptorState) :=
  x224_payload ← decode_input (X224 X224Data) input;
  settings_initial ← decode_input ConnectInitial (x224_data (x224 x224_payload));
  merged ← ok_or (CReason "BasicSettings")
    (merge (target_parameters settings_initial) (min_parameters settings_initial) (max_parameters settings_initial));
  let gcc_blocks := ci_gcc_blocks settings_initial in
  let early_capability := core_early_capability_flags gcc_blocks in
  let '(size_, capabilities) :=
    adopt_desktop_size (honor_client_desktop_size cfg) gcc_blocks (desktop_size st) (server_capabilities st) in
  '(channels, set) ← expect (allot_ids (io_channel_id cfg) 0 (find_joined (static_channels st) (network_channels gcc_blocks)) (static_channels st));
  message_channel ←
    (if wants_message_channel gcc_blocks then
       channel_id ← expect (allotted_id (io_channel_id cfg) (length channels)); mret (Some channel_id)
     else mret (message_channel_id st));
  _ ← modify_self (a_set_settings (mkAcceptorSettings message_channel size_ (core_keyboard_layout gcc_blocks)
        (core_keyboard_type gcc_blocks) (core_ime_file_name gcc_blocks) (cluster gcc_blocks)
        (default 0 (multi_transport_flags gcc_blocks)) (default 0 early_capability) capabilities set merged));
  mret (Nothing, AsBasicSettingsSendResponse requested_protocol protocol early_capability channels).

Definition basic_settings_send_response (cfg : AcceptorConfig) (st : AcceptorSettings) (requested_protocol protocol : Z)
    (early_capability : option Z) (channels : list (Z * option ChannelDef)) : AC (Written * AcceptorState) :=
  let channel_ids := channels.*1 in
  let skip_channel_join := flag_set ClientEarlyCapabilityFlags.SUPPORT_SKIP_CHANNELJOIN early_capability in
  let server_blocks := create_gcc_blocks (io_channel_id cfg) channel_ids requested_protocol skip_channel_join
    (message_channel_id st) (multitransport_announce cfg) in
  response ← question CDecode (ConferenceCreateResponse_new (user_channel_id cfg) server_blocks);
  let settings_response := mkConnectResponse response 1 (merged_domain_parameters st) in
  written ← encode_x224_packet settings_response;
  let kept := omap (fun ic => (fun c => (ic.1, c)) <$> ic.2) channels in
  written ← written_size written;
  let connection :=
    if skip_channel_join then cc_skip_channel_join (user_channel_id cfg)
    else cc_new (user_channel_id cfg) (io_channel_id cfg) (channel_ids ++ option_list (message_channel_id st)) in
  mret (written, AsChannelConnection protocol early_capability kept connection).

Definition channel_connection (input : list Z) (received_at : option Z) (protocol : Z) (early_capability : option Z)
    (channels : JoinedChannels) (connection : ChannelConnectionSequence) : AC (Written * AcceptorState) :=
  '(written, connection) ← sub_step (cc_step input received_at) connection;
  mret (written,
    if cc_is_done connection then AsRdpSecurityCommencement protocol early_capability channels
    else AsChannelConnection protocol early_capability channels connection).

(** The Set Error Info PDU of a refused logon, for a client that takes one *)
Definition deny_logon (cfg : AcceptorConfig) (st : AcceptorSettings) : AC unit :=
  if contains (early_capability_flags st) ClientEarlyCapabilityFlags.SUPPORT_ERR_INFO_PDU then
    let info := ServerSetErrorInfo (mkSetErrorInfo (ProtocolIndependentCode ErrorCodes.ServerDeniedConnection)) in
    let share_data := wrap_share_data info 0 in
    _ ← encode_send_data_indication SERVER_CHANNEL_ID (io_channel_id cfg) share_data;
    mret tt
  else mret tt.

Definition set_auto_reconnect (r : option ClientAutoReconnect) (x : AcceptorReceived) : AcceptorReceived :=
  mkAcceptorReceived (received_credentials x) r (multitransport_request_sent x) (message_channel_pdus x) (network_characteristics x).
Definition set_credentials (c : option Credentials) (x : AcceptorReceived) : AcceptorReceived :=
  mkAcceptorReceived c (received_auto_reconnect x) (multitransport_request_sent x) (message_channel_pdus x) (network_characteristics x).
Definition set_request_sent (id : option Z) (x : AcceptorReceived) : AcceptorReceived :=
  mkAcceptorReceived (received_credentials x) (received_auto_reconnect x) id (message_channel_pdus x) (network_characteristics x).
Definition add_message_pdus (pdus : list (list Z)) (x : AcceptorReceived) : AcceptorReceived :=
  mkAcceptorReceived (received_credentials x) (received_auto_reconnect x) (multitransport_request_sent x)
    (message_channel_pdus x ++ pdus) (network_characteristics x).
Definition set_network (n : option NetworkCharacteristics) (x : AcceptorReceived) : AcceptorReceived :=
  mkAcceptorReceived (received_credentials x) (received_auto_reconnect x) (multitransport_request_sent x) (message_channel_pdus x) n.

(** Without CredSSP the Client Info carries the logon. *)
Definition check_credentials (cfg : AcceptorConfig) (st : AcceptorSettings) (protocol : Z) (credentials : Credentials) : AC unit :=
  if negb (is_hybrid protocol) then
    _ ←
      match creds cfg with
      | Some expected =>
          if decide (expected = credentials) then mret tt
          else _ ← deny_logon cfg st; throw (CGeneral "invalid credentials")
      | None => mret tt
      end;
    modify_self (a_set_received (set_credentials (Some credentials)))
  else mret tt.

Definition secure_settings_exchange (cfg : AcceptorConfig) (st : AcceptorSettings) (input : list Z) (received_at : option Z)
    (protocol : Z) (early_capability : option Z) (channels : JoinedChannels) : AC (Written * AcceptorState) :=
  data ← decode_input (X224 SendDataRequest) input;
  client_info ← decode_input ClientInfoPdu (sdr_user_data (x224 data));
  _ ← modify_self (a_set_received (set_auto_reconnect (info_auto_reconnect client_info)));
  _ ← check_credentials cfg st protocol (info_credentials client_info);
  let autodetect := connect_time_autodetect cfg
    && contains (early_capability_flags st) ClientEarlyCapabilityFlags.SUPPORT_NET_CHAR_AUTODETECT in
  mret (Nothing,
    match message_channel_id st with
    | Some channel =>
        if autodetect then AsConnectTimeAutoDetection early_capability channels (ct_new channel received_at)
        else AsLicensingExchange early_capability channels
    | None => AsLicensingExchange early_capability channels
    end).

Definition connect_time_auto_detection (input : list Z) (received_at : option Z) (early_capability : option Z)
    (channels : JoinedChannels) (detection : ConnectTimeAutoDetection) : AC (Written * AcceptorState) :=
  '(written, detection) ← sub_step (ct_step input received_at) detection;
  if ct_is_done detection then
    _ ← modify_self (a_set_received (set_network (Some (ct_found detection))));
    mret (written, AsLicensingExchange early_capability channels)
  else mret (written, AsConnectTimeAutoDetection early_capability channels detection).

Definition licensing_exchange (cfg : AcceptorConfig) (early_capability : option Z) (channels : JoinedChannels) :
    AC (Written * AcceptorState) :=
  license ← question CEncode new_valid_client;
  written ← encode_send_data_indication SERVER_CHANNEL_ID (io_channel_id cfg) license;
  _ ← modify_self (a_set_saved (AsCapabilitiesSendServer early_capability channels));
  self ← get_self;
  let next_state :=
    if is_some (multitransport_bootstrap self) then AsMultitransportBootstrapping early_capability channels
    else AsCapabilitiesSendServer early_capability channels in
  written ← written_size written;
  mret (written, next_state).

Definition multitransport_pdu (request : MultitransportRequest) : MultitransportRequestPdu :=
  mkMultitransportRequest (mkSecurityHeader BasicSecurityHeaderFlags.TRANSPORT_REQ) (mtr_request_id request)
    RequestedProtocol.UdpFecR (mtr_security_cookie request).
Definition multitransport_bootstrapping (early_capability : option Z) (channels : JoinedChannels) : AC (Written * AcceptorState) :=
  self ← get_self;
  '(request, channel) ← ok_or (CGeneral "no multitransport request to send") (multitransport_bootstrap self);
  written ← encode_send_data_indication SERVER_CHANNEL_ID channel (multitransport_pdu request);
  _ ← modify_self (a_set_received (set_request_sent (Some (mtr_request_id request))));
  written ← written_size written;
  mret (written, AsCapabilitiesSendServer early_capability channels).

Definition demand_active (cfg : AcceptorConfig) (capabilities : list CapabilitySet) : ShareControlHeader :=
  mkShareControl (PduDemandActive (mkServerDemandActive (mkDemandActive EmptyString capabilities))) (io_channel_id cfg) 0.
Definition capabilities_send_server (cfg : AcceptorConfig) (st : AcceptorSettings) (early_capability : option Z)
    (channels : JoinedChannels) : AC (Written * AcceptorState) :=
  written ← encode_send_data_indication SERVER_CHANNEL_ID (io_channel_id cfg) (demand_active cfg (server_capabilities st));
  let next_state :=
    if flag_set ClientEarlyCapabilityFlags.SUPPORT_MONITOR_LAYOUT_PDU early_capability then AsMonitorLayoutSend channels
    else AsCapabilitiesWaitConfirm channels in
  written ← written_size written;
  mret (written, next_state).

Definition monitor_layout (sz : DesktopSize) : ShareDataPdu :=
  MonitorLayout (mkMonitorLayout [mkMonitor 0 0 (width sz - 1) (height sz - 1) MonitorFlags_PRIMARY]).
Definition monitor_layout_send (cfg : AcceptorConfig) (st : AcceptorSettings) (channels : JoinedChannels) :
    AC (Written * AcceptorState) :=
  let share_data := wrap_share_data (monitor_layout (desktop_size st)) (io_channel_id cfg) in
  written ← encode_send_data_indication SERVER_CHANNEL_ID (io_channel_id cfg) share_data;
  written ← written_size written;
  mret (written, AsCapabilitiesWaitConfirm channels).

(** An error of the client's PDU: dropped in a reactivation *)
Definition unexpected_pdu (cfg : AcceptorConfig) (waiting : AcceptorState) (e : DecodeErrorKind) : AC (Written * AcceptorState) :=
  if reactivation cfg then mret (Nothing, waiting) else throw (CDecode e).

Definition capabilities_wait_confirm (cfg : AcceptorConfig) (st : AcceptorSettings) (input : list Z) (channels : JoinedChannels) :
    AC (Written * AcceptorState) :=
  let prev_state := AsCapabilitiesWaitConfirm channels in
  match decode (X224 McsMessage) input with
  | Panic => boom
  | Err e => unexpected_pdu cfg prev_state e
  | Ok message =>
      match x224 message with
      | MSendDataRequest data =>
          if bool_decide (Some (sdr_channel_id data) = message_channel_id st) then
            _ ← modify_self (a_set_received (add_message_pdus [sdr_user_data data]));
            mret (Nothing, prev_state)
          else
            match decode ShareControlHeader (sdr_user_data data) with
            | Panic => boom
            | Err e => unexpected_pdu cfg prev_state e
            | Ok capabilities_confirm =>
                match share_control_pdu capabilities_confirm with
                | PduConfirmActive confirm =>
                    mret (Nothing,
                      AsConnectionFinalization (fin_new (user_channel_id cfg) (io_channel_id cfg) (message_channel_id st))
                        channels (capability_sets (cca_pdu confirm)))
                | _ => throw (CGeneral "expected client confirm active")
                end
            end
      | MDisconnectProviderUltimatum _ => throw (CReason "received disconnect ultimatum")
      | _ => mret (Nothing, prev_state)
      end
  end.

Definition connection_finalization (input : list Z) (received_at : option Z) (finalization : FinalizationSequence)
    (channels : JoinedChannels) (client_capabilities : list CapabilitySet) : AC (Written * AcceptorState) :=
  '(written, finalization) ← sub_step (fin_step input received_at) finalization;
  if fin_is_done finalization then
    let '(input_events, pdus) := fin_into_received finalization in
    _ ← modify_self (a_set_received (add_message_pdus pdus));
    mret (written, AsAccepted channels client_capabilities input_events)
  else mret (written, AsConnectionFinalization finalization channels client_capabilities).

(** [Acceptor::step]: the state is taken, and put back only by an arm that
    ends well. *)
Definition a_step (input : list Z) (received_at : option Z) : AC Written :=
  self ← get_self;
  _ ← modify_self (a_set_state AsConsumed);
  let cfg := a_config self in
  let st := a_settings self in
  '(written, next_state) ←
    match a_state self with
    | AsInitiationWaitRequest => initiation_wait_request input
    | AsInitiationSendConfirm requested nego_present => initiation_send_confirm cfg requested nego_present
    | AsSecurityUpgrade requested protocol =>
        mret (Nothing, if is_hybrid protocol then AsCredssp requested protocol else AsBasicSettingsWaitInitial requested protocol)
    | AsCredssp requested protocol => mret (Nothing, AsBasicSettingsWaitInitial requested protocol)
    | AsBasicSettingsWaitInitial requested protocol => basic_settings_wait_initial cfg st input requested protocol
    | AsBasicSettingsSendResponse requested protocol early channels =>
        basic_settings_send_response cfg st requested protocol early channels
    | AsChannelConnection protocol early channels connection =>
        channel_connection input received_at protocol early channels connection
    | AsRdpSecurityCommencement protocol early channels => mret (Nothing, AsSecureSettingsExchange protocol early channels)
    | AsSecureSettingsExchange protocol early channels =>
        secure_settings_exchange cfg st input received_at protocol early channels
    | AsConnectTimeAutoDetection early channels detection =>
        connect_time_auto_detection input received_at early channels detection
    | AsLicensingExchange early channels => licensing_exchange cfg early channels
    | AsMultitransportBootstrapping early channels => multitransport_bootstrapping early channels
    | AsCapabilitiesSendServer early channels => capabilities_send_server cfg st early channels
    | AsMonitorLayoutSend channels => monitor_layout_send cfg st channels
    | AsCapabilitiesWaitConfirm channels => capabilities_wait_confirm cfg st input channels
    | AsConnectionFinalization finalization channels capabilities =>
        connection_finalization input received_at finalization channels capabilities
    | AsConsumed | AsAccepted _ _ _ => boom
    end;
  _ ← modify_self (a_set_state next_state);
  mret written.

Definition Acceptor_Sequence : Sequence Acceptor := {| next_pdu_hint := a_next_pdu_hint; step := a_step |}.

(** ** What the embedder calls *)

(** [self.step(&[], None, &mut WriteBuf::new()).expect(..)] *)
Definition forced_step (a : Acceptor) : option (Written * Acceptor) :=
  match a_step [] None (a, WriteBuf.new) with
  | Some (inr w, (a', _)) => Some (w, a')
  | _ => None
  end.
(** Panics in any state but [AsSecurityUpgrade]. *)
Definition mark_security_upgrade_as_done (a : Acceptor) : option Acceptor :=
  if is_some (reached_security_upgrade a) then '(_, a') ← forced_step a; Some a' else None.
(** Panics in any state but [AsCredssp]. *)
Definition mark_credssp_as_done (a : Acceptor) : option Acceptor :=
  if should_perform_credssp a then
    '(res, a') ← forced_step a;
    if decide (res = Nothing) then Some a' else None
  else None.

Record AcceptorResult := mkAcceptorResult {
  res_static_channels : StaticChannelSet P;
  res_capabilities : list CapabilitySet;
  res_input_events : list (list Z);
  res_user_channel_id : Z;
  res_io_channel_id : Z;
  res_message_channel_id : option Z;
  res_desktop_size : DesktopSize;
  res_keyboard_layout : Z;
  res_keyboard_type : Z;
  res_ime_file_name : list Z;
  res_client_cluster : option ClientClusterData;
  res_multitransport_flags : Z;
  res_client_early_capability_flags : Z;
  res_reactivation : bool;
  res_credentials : option Credentials;
  res_auto_reconnect : option ClientAutoReconnect;
  res_multitransport_request_id : option Z;
  res_message_channel_pdus : list (list Z);
  res_network_characteristics : option NetworkCharacteristics;
}.

Definition get_result (a : Acceptor) : option AcceptorResult * Acceptor :=
  match a_state a with
  | AsAccepted channels client_capabilities input_events =>
      let cfg := a_config a in let st := a_settings a in let r := a_received a in
      (Some (mkAcceptorResult (static_channels st) client_capabilities input_events (user_channel_id cfg) (io_channel_id cfg)
         (message_channel_id st) (desktop_size st) (keyboard_layout st) (keyboard_type st) (ime_file_name st)
         (client_cluster st) (multitransport_flags st) (early_capability_flags st) (reactivation cfg)
         (received_credentials r) (received_auto_reconnect r) (multitransport_request_sent r) (message_channel_pdus r)
         (network_characteristics r)),
       mkAcceptor AsConsumed cfg (set_static_channels set_new st)
         (mkAcceptorReceived None None (multitransport_request_sent r) [] None) (saved_for_reactivation a))
  | _ => (None, a)
  end.

Definition reactivation_config (c : AcceptorConfig) : AcceptorConfig :=
  mkAcceptorConfig (security c) (graphics_pipeline_announce c) (io_channel_id c) (user_channel_id c) (creds c) true
    (honor_client_desktop_size c) (multitransport_announce c) None false (credential_resolver c).
Definition new_deactivation_reactivation (consumed : Acceptor) (channels_ : StaticChannelSet P) (size_ : DesktopSize) :
    outcome ConnectorError Acceptor :=
  match saved_for_reactivation consumed with
  | AsCapabilitiesSendServer early_capability channels =>
      let st := a_settings consumed in
      let r := a_received consumed in
      let state := AsCapabilitiesSendServer early_capability channels in
      Ok (mkAcceptor state (reactivation_config (a_config consumed))
        (mkAcceptorSettings (message_channel_id st) size_ (keyboard_layout st) (keyboard_type st) (ime_file_name st)
          (client_cluster st) (multitransport_flags st) (early_capability_flags st)
          (set_bitmap_desktop_size size_ (server_capabilities st)) channels_ DomainParameters_target)
        (mkAcceptorReceived (received_credentials r) (received_auto_reconnect r) None [] None) state)
  | _ => Err (CGeneral "invalid acceptor state")
  end.

End acceptor.
#[export] Existing Instance Acceptor_Sequence.
