(* ===== verification/AcceptorSteps.v ===== *)
(** What each state of the acceptor does with any input: every arm of the step
    returns, writes whole PDUs and leaves a state the next step can work on, or
    stops with an error.  The interface of the settings messages comes with the
    laws the acceptor relies on. *)

From S2P Require Import Prelude Timing Cursor Codec Flags Mutation WriteBuf Mcs McsCodec Svc SvcSet Framed Nego NegoCodec Sequence ChannelConnection AutoDetect ConnectTime ShareData ShareCodec Finalization MessageChannel Acceptor.

Open Scope Z_scope.

(** ** PDUs the acceptor writes itself *)

#[export] Instance X224Data_Codec : X224Codec X224Data.
Proof.
  refine (@Build_X224Codec X224Data _ eq_refl (fun p => bytes_ok (x224_data p) /\ llen (x224_data p) <= 65528) x224_data
    (fun _ => eq_refl) (fun _ _ => eq_refl) _ _ _ _).
  - by intros p [_ H].
  - intros p _. apply encodes_ensure; [done|]. apply encodes_write_slice.
  - intros [d] tpkt tpdu [Hb _] Hs. cbn [x224_body_decode X224Data_X224Pdu x224_data] in *. unfold X224Data_decode. rewrite Hs.
    apply decodes_ensure; [done|]. replace (Z.to_nat (llen d)) with (length d) by (unfold llen; lia).
    eapply decodes_last; [apply decodes_read_slice|apply decodes_ret].
  - intros tpkt tpdu Hs. cbn [x224_body_decode X224Data_X224Pdu]. unfold X224Data_decode.
    eapply safe_bind; [apply safe_ensure|]. intros _ _.
    replace (Z.max 0 (user_data_size tpkt tpdu)) with (0 + Z.of_nat (Z.to_nat (user_data_size tpkt tpdu))) by lia.
    eapply safe_bind; [by apply safe_read_slice|]. intros bs [Hl Hb]. apply safe_ret. cbn. split; [done|]. unfold llen. lia.
Defined.

(** A confirm without negotiation data is only its header. *)
Lemma confirm_writes c : confirm_wf c \/ c = NoNegotiation -> writes (mkX224 c) (X224V_wire (mkX224 c)).
Proof.
  intros [Hc| ->]; [by apply X224V_writes|]. split; [|done]. cbn [encode_into X224_Encode]. unfold X224_encode.
  apply encodes_ensure; [done|]. apply encodes_cast_length; [done|].
  apply encodes_bind; [apply encodes_tpkt|]. apply encodes_cast_length; [done|].
  apply (encodes_bind _ _ _ []); [by apply encodes_tpdu|]. apply encodes_ret.
Qed.

(** An encoder that fails with [n] bytes left. *)
Definition errs {E} (e : Writer E unit) (n : Z) : Prop :=
  forall pre hole, llen hole = n -> exists er, e (WriteCursor.mk (pre ++ hole) (length pre)) = Err er.

Lemma errs_bind {E} (e : Writer E unit) (k : unit -> Writer E unit) bs n :
  0 <= n -> encodes e bs -> errs (k tt) n -> errs (e ≫= k) (llen bs + n).
Proof.
  intros Hn He Hk pre hole Hl. unfold mbind, M_bind. rewrite <- (take_drop (length bs) hole).
  assert (Ht : length (take (length bs) hole) = length bs) by (rewrite length_take; unfold llen in *; lia).
  rewrite (He pre _ _ Ht). rewrite app_assoc, <- length_app. apply Hk.
  unfold llen in *. rewrite length_drop. lia.
Qed.

Lemma errs_next {E} (e : Writer E unit) (k : unit -> Writer E unit) bs n m :
  encodes e bs -> m = n - llen bs -> 0 <= m -> errs (k tt) m -> errs (e ≫= k) n.
Proof. intros He -> Hm Hk. replace n with (llen bs + (n - llen bs)) by lia. by apply errs_bind. Qed.

Lemma errs_ensure n m (k : unit -> Encoder unit) : n <= m -> errs (k tt) m -> errs (WriteCursor.ensure_size n ≫= k) m.
Proof.
  intros Hn Hk pre hole Hl. unfold mbind, M_bind, WriteCursor.ensure_size, WriteCursor.len. cbn [WriteCursor.inner WriteCursor.pos].
  rewrite (proj2 (Z.leb_le _ _)); [by apply Hk|]. rewrite llen_app. unfold llen in *. lia.
Qed.

Lemma errs_cast name limit n m (k : Z -> Encoder unit) :
  0 <= n <= limit -> errs (k n) m -> errs (cast_length_at name limit n ≫= k) m.
Proof.
  intros Hn Hk pre hole Hl. unfold mbind, M_bind, cast_length_at. rewrite (proj2 (Z.leb_le _ _)) by lia. by apply Hk.
Qed.

Lemma encode_vec_errs {A} `{Encode A} (a : A) : 0 <= size a -> errs (encode_into a) (size a) -> exists e, encode_vec a = Err e.
Proof.
  intros Hs He. unfold encode_vec, encode, WriteCursor.new. destruct (He [] (replicate (Z.to_nat (size a)) 0)) as [er Her].
  { unfold llen. rewrite length_replicate. lia. }
  cbn [app length] in Her. rewrite Her. by exists er.
Qed.

(** ** The interface's laws *)

Definition params_ok (d : DomainParameters) : Prop :=
  Forall is_u32 [max_channel_ids d; max_user_ids d; max_token_ids d; num_priorities d; min_throughput d; max_height d;
    max_mcs_pdu_size d; protocol_version d].

(** What the decoder of the Connect Initial lets through: no more than 31
    channels, every field in its width. *)
Definition initial_ok (ci : ConnectInitial) : Prop :=
  (forall defs, network_channels (ci_gcc_blocks ci) = Some defs -> (length defs <= 31)%nat) /\
  is_u16 (core_desktop_width (ci_gcc_blocks ci)) /\ is_u16 (core_desktop_height (ci_gcc_blocks ci)) /\
  params_ok (target_parameters ci) /\ params_ok (max_parameters ci).

Definition blocks_ok (b : ServerGccBlocks) : Prop :=
  sb_security b = no_security /\ (length (sb_channel_ids b) <= 31)%nat /\ Forall is_u16 (sb_channel_ids b) /\
  is_u16 (sb_io_channel b) /\ (forall m, sb_message_channel b = Some m -> is_u16 m).

Class SettingsLaws `{SettingsCodecs} := {
  initial_safe : safe 0 (decode_from (A := ConnectInitial)) 0 initial_ok;
  info_safe : safe 0 (decode_from (A := ClientInfoPdu)) 0 (fun _ => True);
  blocks_small b : blocks_ok b -> ServerGccBlocks_size b <= 65535 - CONFERENCE_RESPONSE_CONNECT_PDU_SIZE;
  response_writes r :
    is_user_id (conf_user_id (conference_create_response r)) -> blocks_ok (conf_gcc_blocks (conference_create_response r)) ->
    params_ok (domain_parameters r) -> exists bs, writes r bs /\ bytes_ok bs /\ llen bs <= 0x7000;
  license_writes : exists l bs, new_valid_client = Ok l /\ writes l bs /\ bytes_ok bs /\ llen bs <= 0x7000;
}.

(** ** The domain parameters *)

Lemma merge_ok t m x d : params_ok t -> params_ok x -> merge t m x = Some d -> params_ok d.
Proof.
  unfold params_ok. rewrite !Forall_cons, !Forall_nil. intros (T1 & T2 & T3 & T4 & T5 & T6 & T7 & T8 & _) (X1 & X2 & X3 & X4 & X5 & X6 & X7 & X8 & _) H.
  unfold merge, merged_pdu_size in H. repeat (case_match; try done); cbn in H; simplify_eq; cbn; split_and!; try done; width.
Qed.

(** What is agreed is what a server may answer with: the limits it needs, in
    the ranges of the specification's pseudocode. *)
Lemma merge_within t m x d :
  merge t m x = Some d -> 4 <= max_channel_ids d /\ 3 <= max_user_ids d /\ 124 <= max_mcs_pdu_size d /\
    num_priorities d = 1 /\ max_height d = 1 /\ protocol_version d = 2.
Proof.
  unfold merge, merged_pdu_size. intros H. repeat (case_match; try done); cbn in H; simplify_eq; cbn; lia.
Qed.

(** ** The connect-time detection *)

(** What is known of the words of the client that a connection acts on: the
    protocols it may have asked for and the credentials it may have sent.  The
    arms are proved for any such knowledge that covers their inputs. *)
Class ClientWords := { asked : Z -> Prop; told : Credentials -> Prop }.

Section arms.
Context {BF : Bitflags} {SB : ShareBodies} {SC : ShareCodecs} {SL : ShareLaws} {ST : SettingsCodecs} {STL : SettingsLaws}
  {P : Type} {SP : SvcProcessor P}.

Definition ct_ok (d : ConnectTimeAutoDetection) : Prop := is_u16 (ct_message_channel_id d) /\ found_ok (ct_found d).

Lemma ct_wire_nonempty channel r : ct_wire channel [r] <> [].
Proof. intros H. apply (ct_wire_nonzero channel r). by rewrite H. Qed.

Lemma ct_step_spec input at_ acc d b :
  ct_ok d -> bytes_ok input -> WriteBuf.holds acc b ->
  wpm (ct_step input at_) (step_post ct_ok (fun _ => False) acc) (d, b).
Proof.
  intros [Hc Hf] Hi Hb. unfold ct_step. apply wpm_access. cbn [fst]. destruct d as [st channel sent found].
  cbn [ct_step_ ct_message_channel_id ct_rtt_sent_at ct_found] in *. destruct st.
  - apply wpm_bind. eapply wpm_ct_send; [done|apply sendable_rtt|done|]. intros b' Hb'. apply wpm_update.
    apply wpm_written_size; [apply ct_wire_nonzero|]. apply post_wrote; [done|apply ct_wire_nonempty|by split].
  - destruct (ct_response channel input) as [r|] eqn:Hr; [|apply wpm_ret, post_nothing; [done|by split]].
    apply ct_response_wf in Hr; [|done]. destruct r as [n|n t delta count|n bw rtt]; try (apply wpm_ret, post_nothing; [done|by split]).
    + destruct (n =? RTT_SEQUENCE); [|apply wpm_ret, post_nothing; [done|by split]]. apply wpm_update, wpm_ret, post_nothing; [done|].
      split; [done|]. split; cbn; [intros v; apply timed_rtt_ok|apply Hf].
    + apply wpm_update, wpm_ret, post_nothing; [done|]. split; [done|]. destruct Hr as (_ & H1 & H2).
      split; intros ? [= <-]; done.
  - destruct (generates_some 5 Payload.new) as (chunks & x & Hn & Hg). destruct (generates_some 1 x) as (cs & x' & Hn1 & Hg1).
    destruct cs as [|stop [|]]; try done. eapply (ct_measures channel Hc chunks stop x x' input at_); [done..|]. intros b' Hb'.
    apply post_wrote; [done| |by split]. unfold measurement.
    match goal with |- ct_wire _ (?r :: ?l) <> [] => change (r :: l) with ([r] ++ l) end.
    rewrite ct_wire_app. intros [H _]%app_eq_nil. by eapply ct_wire_nonempty.
  - destruct (ct_response channel input) as [r|] eqn:Hr; [|apply wpm_ret, post_nothing; [done|by split]].
    apply ct_response_wf in Hr; [|done]. destruct r as [n|n t delta count|n bw rtt]; try (apply wpm_ret, post_nothing; [done|by split]).
    + destruct (t =? BW_RESULTS_CONNECT_TIME); [|apply wpm_ret, post_nothing; [done|by split]]. apply wpm_update, wpm_ret, post_nothing; [done|].
      split; [done|]. split; cbn; [apply Hf|]. intros v. apply measured_bandwidth_ok. apply Hr.
    + apply wpm_update, wpm_ret, post_nothing; [done|]. split; [done|]. destruct Hr as (_ & H1 & H2).
      split; intros ? [= <-]; done.
  - apply wpm_update. destruct (network_result found) as [r|] eqn:Hr; [|apply wpm_ret, post_nothing; [done|by split]].
    apply wpm_bind. eapply wpm_ct_send; [done|by eapply sendable_result|done|]. intros b' Hb'.
    apply wpm_written_size; [apply ct_wire_nonzero|]. apply post_wrote; [done|apply ct_wire_nonempty|by split].
  - apply wpm_ret, post_nothing; [done|by split].
Qed.

(** ** The invariant *)

Definition demand (capabilities : list CapabilitySet) : ServerDemandActive :=
  mkServerDemandActive (mkDemandActive EmptyString capabilities).

Lemma set_bitmap_twice s s' (caps : list CapabilitySet) :
  set_bitmap_desktop_size s (set_bitmap_desktop_size s' caps) = set_bitmap_desktop_size s caps.
Proof.
  unfold set_bitmap_desktop_size. rewrite <- list_fmap_compose. apply list_fmap_ext. by intros i [].
Qed.

(** The capability sets fit a Demand Active, at any desktop size. *)
Definition caps_ok (caps : list CapabilitySet) : Prop :=
  size (demand caps) <= 0x7000 /\ forall s, size (demand (set_bitmap_desktop_size s caps)) <= 0x7000.
Lemma caps_ok_resized s caps : caps_ok caps -> caps_ok (set_bitmap_desktop_size s caps).
Proof. intros [_ H]. split; [done|]. intros s'. by rewrite set_bitmap_twice. Qed.

Definition config_ok (c : AcceptorConfig) : Prop :=
  io_channel_id c = IO_CHANNEL_ID /\ user_channel_id c = USER_CHANNEL_ID /\
  forall r, multitransport_request c = Some r ->
    is_u32 (mtr_request_id r) /\ length (mtr_security_cookie r) = 16%nat /\ bytes_ok (mtr_security_cookie r).
Definition size_ok (s : DesktopSize) : Prop := is_u16 (width s) /\ is_u16 (height s).
Definition settings_ok (st : AcceptorSettings (P := P)) : Prop :=
  (forall m, message_channel_id st = Some m -> is_u16 m) /\ size_ok (desktop_size st) /\ caps_ok (server_capabilities st) /\
  params_ok (merged_domain_parameters st) /\ set_inv (static_channels st).
Definition state_ok (st : AcceptorState) : Prop :=
  match st with
  | AsConsumed => False
  | AsBasicSettingsSendResponse _ _ _ channels => (length channels <= 31)%nat /\ Forall is_u16 channels.*1
  | AsChannelConnection _ _ _ connection => cc_ok connection /\ cc_is_done connection = false
  | AsConnectTimeAutoDetection _ _ detection => ct_ok detection /\ ct_is_done detection = false
  | AsConnectionFinalization finalization _ _ => fin_ok finalization /\ fin_is_done finalization = false
  | _ => True
  end.
Definition acceptor_ok (a : Acceptor (P := P)) : Prop :=
  config_ok (a_config a) /\ settings_ok (a_settings a) /\ state_ok (a_state a).

(** The phases in order *)
Definition rank (st : AcceptorState) : nat :=
  match st with
  | AsConsumed => 0 | AsInitiationWaitRequest => 1 | AsInitiationSendConfirm _ _ => 2 | AsSecurityUpgrade _ _ => 3
  | AsCredssp _ _ => 4 | AsBasicSettingsWaitInitial _ _ => 5 | AsBasicSettingsSendResponse _ _ _ _ => 6
  | AsChannelConnection _ _ _ _ => 7 | AsRdpSecurityCommencement _ _ _ => 8 | AsSecureSettingsExchange _ _ _ => 9
  | AsConnectTimeAutoDetection _ _ _ => 10 | AsLicensingExchange _ _ => 11 | AsMultitransportBootstrapping _ _ => 12
  | AsCapabilitiesSendServer _ _ => 13 | AsMonitorLayoutSend _ => 14 | AsCapabilitiesWaitConfirm _ => 15
  | AsConnectionFinalization _ _ _ => 16 | AsAccepted _ _ _ => 17
  end.

(** ** Who gets in *)

Context {CW : ClientWords}.

Definition negotiated (sec p : Z) : Prop := exists requested, asked requested /\ select_protocol sec requested = Some p.

(** The client proved who it is by CredSSP ([credssp]) where the protocol has
    it, and otherwise sent credentials, the expected ones if there are any. *)
Definition authenticated (cfg : AcceptorConfig) (got : option Credentials) (credssp : bool) : Prop :=
  exists p, negotiated (security cfg) p /\
    if is_hybrid p then credssp = true /\ got = None
    else exists c, got = Some c /\ told c /\ forall expected, creds cfg = Some expected -> expected = c.

Definition auth_inv (cfg : AcceptorConfig) (got : option Credentials) (credssp : bool) (st : AcceptorState) : Prop :=
  match st with
  | AsConsumed | AsInitiationWaitRequest => got = None
  | AsInitiationSendConfirm requested _ => got = None /\ asked requested
  | AsSecurityUpgrade _ p | AsCredssp _ p => got = None /\ negotiated (security cfg) p
  | AsBasicSettingsWaitInitial _ p | AsBasicSettingsSendResponse _ p _ _ =>
      got = None /\ negotiated (security cfg) p /\ (is_hybrid p = true -> credssp = true)
  | AsChannelConnection p _ _ _ | AsRdpSecurityCommencement p _ _ | AsSecureSettingsExchange p _ _ =>
      got = None /\ negotiated (security cfg) p /\ (is_hybrid p = true -> credssp = true)
  | _ => authenticated cfg got credssp
  end.

(** The request of a tunnel went to a client that can take one. *)
Definition tunnel_inv (a : Acceptor (P := P)) : Prop :=
  match multitransport_request_sent (a_received a) with
  | Some id => exists r channel, multitransport_bootstrap a = Some (r, channel) /\ mtr_request_id r = id
  | None => True
  end /\ ((rank (a_state a) <= 12)%nat -> multitransport_request_sent (a_received a) = None).

(** The desktop is the server's, or the client's within the operator's bound,
    and the capability sets say the same. *)
Definition desktop_inv (a0 a : Acceptor (P := P)) : Prop :=
  let st0 := a_settings a0 in let st := a_settings a in
  (desktop_size st = desktop_size st0 /\ server_capabilities st = server_capabilities st0) \/
  exists max, honor_client_desktop_size (a_config a0) = Some max /\
    MIN_DESKTOP_DIM <= width (desktop_size st) <= Z.min MAX_DESKTOP_DIM (width max) /\
    MIN_DESKTOP_DIM <= height (desktop_size st) <= Z.min MAX_DESKTOP_DIM (height max) /\
    server_capabilities st = set_bitmap_desktop_size (desktop_size st) (server_capabilities st0).

(** What holds of an acceptor on its way from [a0], after a CredSSP exchange or
    not. *)
Definition served (a0 : Acceptor (P := P)) (credssp : bool) (a : Acceptor (P := P)) : Prop :=
  a_config a = a_config a0 /\ desktop_inv a0 a /\ tunnel_inv a /\
  auth_inv (a_config a) (received_credentials (a_received a)) credssp (a_state a).

(** What a step does to an acceptor [a]. *)
Definition next_ok (a a' : Acceptor (P := P)) : Prop :=
  acceptor_ok a' /\ (rank (a_state a) <= rank (a_state a'))%nat /\
  forall a0 credssp, served a0 credssp a -> served a0 (credssp || should_perform_credssp a) a'.

(** What the input of a step makes the client say. *)
Definition request_asked (input : list Z) : Prop :=
  forall p, decode (X224 ConnectionRequest) input = Ok p -> asked (cr_protocol (x224 p)).
Definition logon_told (input : list Z) : Prop :=
  forall p info, decode (X224 SendDataRequest) input = Ok p -> decode ClientInfoPdu (sdr_user_data (x224 p)) = Ok info ->
    told (info_credentials info).
Definition heard (st : AcceptorState) (input : list Z) : Prop :=
  match st with
  | AsInitiationWaitRequest => request_asked input
  | AsSecureSettingsExchange _ _ _ => logon_told input
  | _ => True
  end.

Definition arm_post (a : Acceptor (P := P)) (acc : list Z) (r : ConnectorError + Written * AcceptorState)
    (sb : Acceptor (P := P) * WriteBuf.t) : Prop :=
  exists out, WriteBuf.holds (acc ++ out) sb.2 /\
    match r with
    | inr (w, next) => w = wrote out /\ next_ok a (a_set_state next sb.1)
    | inl _ => a_state sb.1 = AsConsumed
    end.

(** ** Arms *)

Abbreviation taken a := (a_set_state AsConsumed a).

(** An arm that changes nothing but the state. *)
Lemma next_state (a : Acceptor (P := P)) next :
  acceptor_ok a -> state_ok next -> (rank (a_state a) <= rank next)%nat ->
  (forall credssp, auth_inv (a_config a) (received_credentials (a_received a)) credssp (a_state a) ->
    auth_inv (a_config a) (received_credentials (a_received a)) (credssp || should_perform_credssp a) next) ->
  next_ok a (a_set_state next (taken a)).
Proof.
  intros (Hc & Hs & _) Hn Hr Ha. split; [by split_and!|]. split; [done|]. intros a0 g (H1 & H2 & [H3 H4] & H5).
  split; [done|]. split; [done|]. split; [|by apply Ha]. split; [done|]. cbn. intros H. apply H4. lia.
Qed.

Lemma arm_nothing a acc next s b :
  WriteBuf.holds acc b -> next_ok a (a_set_state next s) -> arm_post a acc (inr (Nothing, next)) (s, b).
Proof. intros Hb Hn. exists []. rewrite app_nil_r. done. Qed.
Lemma arm_error a acc e s b : WriteBuf.holds acc b -> a_state s = AsConsumed -> arm_post a acc (inl e) (s, b).
Proof. intros Hb Hs. exists []. by rewrite app_nil_r. Qed.

(** [written ← written_size written; mret (written, next)] after a PDU *)
Lemma arm_wrote a acc out next s b :
  WriteBuf.holds (acc ++ out) b -> out <> [] -> next_ok a (a_set_state next s) ->
  wpm (written ← written_size (llen out); mret (written, next)) (arm_post a acc) (s, b).
Proof.
  intros Hb Ho Hn. apply wpm_bind, wpm_written_size; [by apply llen_pos|]. apply wpm_ret. exists out. rewrite wrote_size by done. done.
Qed.

(** A decoder in front of an arm. *)
Lemma arm_decode {T} {D : Decode T} (Q : T -> Prop) a acc input (k : T -> StepM (Acceptor (P := P)) (Written * AcceptorState)) s b :
  (decode T input <> Panic /\ forall x, decode T input = Ok x -> Q x) -> WriteBuf.holds acc b -> a_state s = AsConsumed ->
  (forall x, Q x -> wpm (k x) (arm_post a acc) (s, b)) ->
  wpm (decode_input T input ≫= k) (arm_post a acc) (s, b).
Proof.
  intros [Hp HQ] Hb Hs Hk. apply wpm_decode_input; [done| |auto]. intros e _. by apply arm_error.
Qed.

Lemma X224V_wire_nonempty {T} {X : X224Pdu T} {C : X224Variable T} (p : X224 T) : X224V_wire p <> [].
Proof. intros H. apply (f_equal llen) in H. rewrite llen_X224V_wire in H. pose proof (llen_nonneg (xv_wire (x224 p))). unfold llen in H at 2. cbn in H. lia. Qed.

Lemma indication_nonempty i c data : indication_wire i c data <> [].
Proof. unfold indication_wire. cbn [wire X224_Codec]. unfold X224_wire, tpkt_wire. done. Qed.

Lemma initiation_wait_arm a acc b input :
  acceptor_ok a -> a_state a = AsInitiationWaitRequest -> bytes_ok input -> WriteBuf.holds acc b -> request_asked input ->
  wpm (initiation_wait_request input) (arm_post a acc) (taken a, b).
Proof.
  intros Hok Hst Hi Hb Hasked. unfold initiation_wait_request.
  eapply (arm_decode (fun p => asked (cr_protocol (x224 p)))); [split; [by apply X224V_no_panic|exact Hasked]|done|done|].
  intros p Hp. apply wpm_ret, arm_nothing; [done|]. apply next_state; [done..|rewrite Hst; cbn; lia|].
  intros g H. rewrite Hst in H. split; [exact H|exact Hp].
Qed.

Lemma selected_u32 sec requested p : select_protocol sec requested = Some p -> is_u32 p.
Proof. unfold select_protocol. repeat case_match; intros [= <-]; done. Qed.

Lemma initiation_confirm_arm a acc b requested nego :
  acceptor_ok a -> a_state a = AsInitiationSendConfirm requested nego -> WriteBuf.holds acc b ->
  wpm (initiation_send_confirm (a_config a) requested nego) (arm_post a acc) (taken a, b).
Proof.
  intros Hok Hst Hb. unfold initiation_send_confirm. destruct (select_protocol _ _) as [p|] eqn:Hp.
  - apply wpm_bind. eapply wpm_emit_pdu; [apply confirm_writes; left; split|done|].
    + unfold response_flags, set_flag. rewrite union_bits, difference_bits. by destruct (graphics_pipeline_announce _).
    + by eapply selected_u32.
    + intros b' Hb'. apply arm_wrote; [done|apply X224V_wire_nonempty|].
      apply next_state; [done..|rewrite Hst; cbn; lia|]. rewrite Hst. cbn. intros g [-> Hask]. split; [done|]. by exists requested.
  - apply wpm_bind. eapply wpm_emit_pdu; [apply confirm_writes|done|].
    + destruct nego; cbn [negb]; [left|by right]. unfold failure_code. by repeat case_match.
    + intros b' Hb'. apply wpm_throw. by eexists.
Qed.

Lemma allotted_small i : (i <= 31)%nat -> allotted_id IO_CHANNEL_ID i = Some (1004 + Z.of_nat i).
Proof.
  intros Hi. unfold allotted_id, IO_CHANNEL_ID. rewrite (proj2 (Z.leb_le _ _)) by lia. f_equal. rewrite Z.mod_small by lia. lia.
Qed.

(** The channels get the ids after the I/O channel, in order, the ones the
    server does not know too. *)
Lemma allot_ids_spec i joined (set : StaticChannelSet P) :
  (i + length joined <= 31)%nat -> set_inv set ->
  exists entries set', allot_ids IO_CHANNEL_ID i joined set = Some (entries, set') /\
    entries.*1 = seqZ (1004 + Z.of_nat i) (Z.of_nat (length joined)) /\ set_inv set'.
Proof.
  revert i set. induction joined as [|ch joined IH]; intros i set Hi Hs; cbn [length allot_ids] in *.
  { by eexists _, _. }
  rewrite allotted_small by lia. cbn [mbind option_bind].
  assert (Hs' : set_inv (attach_channel_id_by_key match ch with Some (k, _) => k | None => Typed 0 end (1004 + Z.of_nat i) set).2)
    by by apply attach_inv.
  rewrite seqZ_cons by lia.
  replace (Z.succ (1004 + Z.of_nat i)) with (1004 + Z.of_nat (S i)) by lia.
  replace (Z.pred (Z.of_nat (S (length joined)))) with (Z.of_nat (length joined)) by lia.
  destruct ch as [[k c]|].
  - destruct (IH (S i) _ ltac:(lia) Hs') as (entries & set' & -> & He & Hi'). eexists _, _. split; [done|]. cbn. by rewrite He.
  - destruct (IH (S i) _ ltac:(lia) Hs) as (entries & set' & -> & He & Hi'). eexists _, _. split; [done|]. cbn. by rewrite He.
Qed.

Lemma honored_spec max blocks s :
  honored_size max blocks = Some s ->
  MIN_DESKTOP_DIM <= width s <= Z.min MAX_DESKTOP_DIM (width max) /\
  MIN_DESKTOP_DIM <= height s <= Z.min MAX_DESKTOP_DIM (height max).
Proof.
  unfold honored_size, validate_desktop_size, in_desktop_range. intros H.
  match type of H with (if ?c then _ else _) = _ => destruct c eqn:Hc; [|done] end. injection H as <-. cbn [width height].
  rewrite !andb_true_iff, !Z.leb_le in Hc. lia.
Qed.

Lemma adopt_ok max blocks s caps : size_ok s -> caps_ok caps ->
  size_ok (adopt_desktop_size max blocks s caps).1 /\ caps_ok (adopt_desktop_size max blocks s caps).2.
Proof.
  intros Hs Hc. unfold adopt_desktop_size. destruct max as [max|]; [|done]. destruct (honored_size max blocks) as [c|] eqn:Hh; [|done].
  destruct (decide (c = s)); [done|]. split; [|by apply caps_ok_resized]. apply honored_spec in Hh as [H1 H2].
  unfold MIN_DESKTOP_DIM, MAX_DESKTOP_DIM in *. split; cbn [fst]; width.
Qed.

(** The client's wish changes the desktop and the capability sets together. *)
Lemma adopt_desktop (a0 a a' : Acceptor (P := P)) blocks :
  a_config a = a_config a0 -> desktop_inv a0 a ->
  (desktop_size (a_settings a'), server_capabilities (a_settings a')) =
    adopt_desktop_size (honor_client_desktop_size (a_config a)) blocks (desktop_size (a_settings a)) (server_capabilities (a_settings a)) ->
  desktop_inv a0 a'.
Proof.
  intros Hcfg Hd. unfold adopt_desktop_size. rewrite Hcfg. unfold desktop_inv in *.
  destruct (honor_client_desktop_size (a_config a0)) as [max|]; [|by intros [= -> ->]].
  destruct (honored_size max blocks) as [c|] eqn:Hh; [|by intros [= -> ->]].
  destruct (decide (c = _)); [by intros [= -> ->]|]. intros [= -> ->]. apply honored_spec in Hh as [H1 H2]. right. exists max.
  split_and!; [done|lia..|]. destruct Hd as [[_ ->]|(max' & _ & _ & _ & ->)]; [done|]. by rewrite set_bitmap_twice.
Qed.

Lemma find_joined_length (set : StaticChannelSet P) network :
  length (find_joined set network) = match network with Some defs => length defs | None => 0%nat end.
Proof. destruct network; [apply length_fmap|done]. Qed.

Lemma seqZ_u16 n : (n <= 31)%nat -> Forall is_u16 (seqZ 1004 (Z.of_nat n)).
Proof. intros Hn. apply Forall_forall. intros x Hx%elem_of_seqZ. width. Qed.

Lemma basic_initial_arm a acc b input requested p :
  acceptor_ok a -> a_state a = AsBasicSettingsWaitInitial requested p -> bytes_ok input -> WriteBuf.holds acc b ->
  wpm (basic_settings_wait_initial (a_config a) (a_settings a) input requested p) (arm_post a acc) (taken a, b).
Proof.
  intros Hok Hst Hi Hb. unfold basic_settings_wait_initial. destruct Hok as ((Hio & Hu & Hmt) & (Hm & Hsz & Hcaps & Hpar & Hset) & _).
  eapply (arm_decode wf); [split; [by apply decode_no_panic|intros x; by apply decode_wf]|done|done|]. intros x [Hx _].
  eapply (arm_decode initial_ok); [apply safe_decode; [apply initial_safe|done]|done|done|]. intros ci (Hn & Hw & Hh & Ht & Hmax).
  apply wpm_bind, wpm_ok_or; [|intros _; by apply arm_error]. intros merged Hmerge. apply merge_ok in Hmerge; [|done..].
  destruct (adopt_desktop_size _ _ _ _) as [sz caps] eqn:Had.
  destruct (adopt_ok (honor_client_desktop_size (a_config a)) (ci_gcc_blocks ci) _ _ Hsz Hcaps) as [Hsz' Hcaps']. rewrite Had in Hsz', Hcaps'.
  assert (Hlen : (0 + length (find_joined (static_channels (a_settings a)) (network_channels (ci_gcc_blocks ci))) <= 31)%nat).
  { rewrite find_joined_length. destruct (network_channels (ci_gcc_blocks ci)); [by apply Hn|lia]. }
  rewrite Hio. destruct (allot_ids_spec 0 _ _ Hlen Hset) as (entries & set & Hall & He & Hset'). rewrite Hall.
  apply wpm_bind. eapply wpm_expect; [done|].
  assert (Hle : (length entries <= 31)%nat) by (apply (f_equal length) in He; rewrite length_fmap, length_seqZ in He; lia).
  assert (Hids : Forall is_u16 entries.*1) by (rewrite He; apply seqZ_u16; lia).
  cbv beta iota zeta. rewrite (allotted_small (length entries)) by done. apply wpm_bind.
  assert (Hgo : forall m, (forall c, m = Some c -> is_u16 c) ->
    wpm (_ ← modify_self (a_set_settings (mkAcceptorSettings m sz (core_keyboard_layout (ci_gcc_blocks ci))
          (core_keyboard_type (ci_gcc_blocks ci)) (core_ime_file_name (ci_gcc_blocks ci)) (cluster (ci_gcc_blocks ci))
          (default 0 (multi_transport_flags (ci_gcc_blocks ci))) (default 0 (core_early_capability_flags (ci_gcc_blocks ci))) caps set merged));
        mret (Nothing, AsBasicSettingsSendResponse requested p (core_early_capability_flags (ci_gcc_blocks ci)) entries))
      (arm_post a acc) (taken a, b)).
  { intros m Hm'. apply wpm_update, wpm_ret, arm_nothing; [done|]. split; [by split_and!|]. split; [rewrite Hst; cbn; lia|].
    intros a0 g (H1 & H2 & H3 & H4). rewrite Hst in H4. split; [done|]. split; [by eapply (adopt_desktop a0 a)|].
    destruct H3 as [_ H3]. rewrite Hst in H3. specialize (H3 ltac:(cbn; lia)). split; [split; cbn; by rewrite H3|].
    destruct H4 as (? & ? & H4). cbn. split_and!; [done..|]. intros Hy%H4. by rewrite Hy. }
  destruct (wants_message_channel _); [|apply wpm_ret, Hgo, Hm].
  apply wpm_bind. eapply wpm_expect; [done|]. apply wpm_ret, Hgo. intros c [= <-]. width.
Qed.

Lemma user_channel_ok : is_user_id USER_CHANNEL_ID.
Proof. done. Qed.

Lemma x224_data_nonempty bs : X224_wire (mkX224 (mkX224Data bs)) <> [].
Proof. unfold X224_wire, tpkt_wire. done. Qed.

Lemma basic_response_arm a acc b requested p early channels :
  acceptor_ok a -> a_state a = AsBasicSettingsSendResponse requested p early channels -> WriteBuf.holds acc b ->
  wpm (basic_settings_send_response (a_config a) (a_settings a) requested p early channels) (arm_post a acc) (taken a, b).
Proof.
  intros Hok Hst Hb. unfold basic_settings_send_response. pose proof Hok as ((Hio & Hu & _) & (Hm & _ & _ & Hpar & _) & Hs).
  rewrite Hst in Hs. destruct Hs as [Hlen Hids]. rewrite Hio, Hu.
  set (skip := flag_set _ _). set (blocks := create_gcc_blocks _ _ _ _ _ _).
  assert (Hblocks : blocks_ok blocks) by (split_and!; [done|unfold blocks; cbn; by rewrite length_fmap|done|done|done]).
  unfold ConferenceCreateResponse_new. rewrite (proj2 (Z.leb_le _ _)) by by apply blocks_small.
  apply wpm_bind. eapply wpm_question; [done|].
  destruct (response_writes (mkConnectResponse (mkConferenceResponse USER_CHANNEL_ID blocks) 1 (merged_domain_parameters (a_settings a)))
    user_channel_ok Hblocks Hpar) as (bs & Hw & Hbs & Hl).
  unfold encode_x224_packet. apply wpm_bind, wpm_bind. eapply wpm_question; [by apply encode_vec_writes|].
  eapply wpm_emit_pdu; [apply (writes_wire (mkX224 (mkX224Data bs))); split; [done|cbn; lia]|done|].
  intros b' Hb'. apply arm_wrote; [done|apply x224_data_nonempty|]. apply next_state; [done| |rewrite Hst; cbn; lia|].
  - split; [|by destruct skip]. split; [by destruct skip|]. destruct skip; intros ids Hids'; cbn in Hids'; simplify_eq. set_solver.
  - rewrite Hst. cbn. intros g (Hn & Hsel & Hg). split; [done|]. split; [done|]. intros Hy%Hg. by rewrite Hy.
Qed.

Lemma channel_connection_arm a acc b input at_ p early channels connection :
  acceptor_ok a -> a_state a = AsChannelConnection p early channels connection -> bytes_ok input -> WriteBuf.holds acc b ->
  wpm (channel_connection input at_ p early channels connection) (arm_post a acc) (taken a, b).
Proof.
  intros Hok Hst Hi Hb. unfold channel_connection. pose proof Hok as (_ & _ & Hs). rewrite Hst in Hs. destruct Hs as [Hcc Hd].
  apply wpm_bind, wpm_sub. eapply wpm_mono; [by apply (cc_step_spec input at_ acc connection b)|].
  intros [e|w] [c b'] (out & Hb' & H); cbn [fst snd] in *; [by exists out|]. destruct H as [-> Hc]. apply wpm_ret. exists out.
  split; [done|]. split; [done|]. destruct (cc_is_done c) eqn:Hdone.
  all: apply next_state; [done..|rewrite Hst; cbn; lia|]; rewrite Hst; cbn; intros g (? & ? & Hg); split_and!; [done..|]; intros Hy%Hg; by rewrite Hy.
Qed.

Lemma send_small {A} {Pd} {En : Encode Pd} (pdu : Pd) c bs acc (s : A) b (Q : ConnectorError + Z -> A * WriteBuf.t -> Prop) :
  writes pdu bs -> bytes_ok bs -> llen bs <= 0x7fff -> is_u16 c -> WriteBuf.holds acc b ->
  (forall b', WriteBuf.holds (acc ++ indication_wire SERVER_CHANNEL_ID c bs) b' ->
    Q (inr (llen (indication_wire SERVER_CHANNEL_ID c bs))) (s, b')) ->
  wpm (encode_send_data_indication SERVER_CHANNEL_ID c pdu) Q (s, b).
Proof. intros Hw Hbs Hl Hc Hb HQ. eapply wpm_send_indication; [done| |done|done]. split_and!; [done..|lia]. Qed.

(** A Share Data PDU on the I/O channel *)
Lemma send_data_pdu {A} pdu source acc (s : A) b (Q : ConnectorError + Z -> A * WriteBuf.t -> Prop) :
  data_wf pdu -> llen (data_wire pdu) <= 0x7000 -> WriteBuf.holds acc b ->
  (forall out b', out <> [] -> WriteBuf.holds (acc ++ out) b' -> Q (inr (llen out)) (s, b')) ->
  wpm (encode_send_data_indication SERVER_CHANNEL_ID IO_CHANNEL_ID (wrap_share_data pdu source)) Q (s, b).
Proof.
  intros Hw Hl Hb HQ. eapply send_small; [apply data_control_writes; [done|lia]| | |done|done|].
  - by apply control_wire_ok, share_data_wire_ok.
  - rewrite llen_control_wire, llen_share_data_wire. cbn [share_data_pdu]. lia.
  - intros b' Hb'. apply HQ; [apply indication_nonempty|done].
Qed.

Lemma denied_ok : let pdu := ServerSetErrorInfo (mkSetErrorInfo (ProtocolIndependentCode ErrorCodes.ServerDeniedConnection)) in
  data_wf pdu /\ llen (data_wire pdu) <= 0x7000.
Proof. split; [done|]. cbn [data_wire fc_wire ErrorInfo_Framed]. rewrite llen_le. done. Qed.

Lemma secure_settings_arm a acc b input at_ p early channels :
  acceptor_ok a -> a_state a = AsSecureSettingsExchange p early channels -> bytes_ok input -> WriteBuf.holds acc b -> logon_told input ->
  wpm (secure_settings_exchange (a_config a) (a_settings a) input at_ p early channels) (arm_post a acc) (taken a, b).
Proof.
  intros Hok Hst Hi Hb Htold. unfold secure_settings_exchange. pose proof Hok as (Hcfg & Hset & _). pose proof Hcfg as (Hio & _).
  eapply (arm_decode (fun x => wf x /\ decode (X224 SendDataRequest) input = Ok x));
    [split; [by apply decode_no_panic|intros x Hx; split; [by eapply decode_wf|done]]|done|done|]. intros x [Hx Hdx].
  eapply (arm_decode (fun info => told (info_credentials info)));
    [split; [apply (safe_decode (fun _ => True)); [apply info_safe|apply Hx]|intros info Hinfo; exact (Htold x info Hdx Hinfo)]|done|done|]. intros info Hinfo.
  apply wpm_update. unfold check_credentials.
  set (a1 := a_set_received (set_auto_reconnect (info_auto_reconnect info)) (taken a)).
  (* what follows the check, from an acceptor that took the credentials or not *)
  assert (Hgo : forall got, (if is_hybrid p then got = received_credentials (a_received a)
      else exists c, got = Some c /\ told c /\ forall e, creds (a_config a) = Some e -> e = c) ->
    arm_post a acc (inr (Nothing, match message_channel_id (a_settings a) with
      | Some channel => if connect_time_autodetect (a_config a) && contains (early_capability_flags (a_settings a)) ClientEarlyCapabilityFlags.SUPPORT_NET_CHAR_AUTODETECT
          then AsConnectTimeAutoDetection early channels (ct_new channel at_) else AsLicensingExchange early channels
      | None => AsLicensingExchange early channels end)) (a_set_received (set_credentials got) a1, b)).
  { intros got Hgot. apply arm_nothing; [done|]. split.
    { split; [done|]. split; [done|]. destruct (message_channel_id _) as [m|] eqn:Hm; [|done]. destruct (_ && _); [|done].
      split; [|done]. split; [by apply Hset|done]. }
    split; [rewrite Hst; cbn; repeat case_match; cbn; lia|]. intros a0 g (H1 & H2 & H3 & H4). rewrite Hst in H4. destruct H4 as (Hn & Hneg & Hg).
    destruct H3 as [_ H3]. rewrite Hst in H3. specialize (H3 ltac:(cbn; lia)).
    split; [done|]. split; [done|]. split; [split; cbn; rewrite H3; done|].
    assert (Hau : authenticated (a_config a) got (g || should_perform_credssp a)).
    { exists p. split; [done|]. destruct (is_hybrid p); [|done]. rewrite Hg by done. by rewrite Hgot. }
    cbn. destruct (message_channel_id _); [destruct (_ && _)|]; exact Hau. }
  apply wpm_bind. destruct (is_hybrid p); cbn [negb].
  { apply wpm_ret. specialize (Hgo (received_credentials (a_received a)) eq_refl). by apply wpm_ret. }
  apply wpm_bind. destruct (creds (a_config a)) as [expected|] eqn:Hc; [destruct (decide (expected = info_credentials info)) as [->|]|].
  - refine (Hgo (Some (info_credentials info)) _). eexists. split; [done|]. split; [done|]. by intros e [= <-].
  - apply wpm_bind. unfold deny_logon. rewrite Hio.
    destruct (contains (early_capability_flags (a_settings a)) ClientEarlyCapabilityFlags.SUPPORT_ERR_INFO_PDU);
      [|exact (arm_error a acc (CGeneral "invalid credentials") a1 b Hb eq_refl)].
    apply wpm_bind. destruct denied_ok as [Hw Hl]. eapply send_data_pdu; [exact Hw|exact Hl|exact Hb|]. intros out b' _ Hb'.
    cbv beta. exists out. split; [exact Hb'|reflexivity].
  - refine (Hgo (Some (info_credentials info)) _). eexists. split; [done|]. by split.
Qed.

(** An arm that also changes what was received, and neither the credentials
    nor the request of a tunnel. *)
Lemma next_received (a : Acceptor (P := P)) next f :
  acceptor_ok a -> state_ok next -> (9 < rank (a_state a) <= rank next)%nat -> should_perform_credssp a = false ->
  (forall r, received_credentials (f r) = received_credentials r /\ multitransport_request_sent (f r) = multitransport_request_sent r) ->
  next_ok a (a_set_state next (a_set_received f (taken a))).
Proof.
  intros (Hc & Hs & _) Hn [Hr9 Hr] Hcs Hf. destruct (Hf (a_received a)) as [Hf1 Hf2].
  split; [by split_and!|]. split; [done|]. intros a0 g (H1 & H2 & [H3 H4] & H5). rewrite Hcs, orb_false_r.
  assert (Hau : authenticated (a_config a) (received_credentials (a_received a)) g) by (destruct (a_state a); cbn in *; try lia; exact H5).
  split; [done|]. split; [done|]. split.
  - split; cbn; rewrite Hf2; [exact H3|]. intros Hrk. apply H4. lia.
  - cbn. rewrite Hf1. destruct next; cbn in Hr; try lia; exact Hau.
Qed.

Lemma detection_arm a acc b input at_ early channels d :
  acceptor_ok a -> a_state a = AsConnectTimeAutoDetection early channels d -> bytes_ok input -> WriteBuf.holds acc b ->
  wpm (connect_time_auto_detection input at_ early channels d) (arm_post a acc) (taken a, b).
Proof.
  intros Hok Hst Hi Hb. unfold connect_time_auto_detection. pose proof Hok as (_ & _ & Hs). rewrite Hst in Hs. destruct Hs as [Hct Hd].
  apply wpm_bind, wpm_sub. eapply wpm_mono; [by apply (ct_step_spec input at_ acc d b)|].
  intros [e|w] [c b'] (out & Hb' & H); cbn [fst snd] in *; [done|]. destruct H as [-> Hc]. cbv beta iota.
  destruct (ct_is_done c) eqn:Hdone.
  - exists out. split; [exact Hb'|]. split; [done|].
    apply (next_received a (AsLicensingExchange early channels) (set_network (Some (ct_found c)))); [done..|rewrite Hst; cbn; lia| |done].
    unfold should_perform_credssp. by rewrite Hst.
  - exists out. split; [exact Hb'|]. split; [done|].
    apply next_state; [done..|rewrite Hst; cbn; lia|]. unfold should_perform_credssp. rewrite Hst. intros g. by rewrite orb_false_r.
Qed.

Lemma licensing_arm a acc b early channels :
  acceptor_ok a -> a_state a = AsLicensingExchange early channels -> WriteBuf.holds acc b ->
  wpm (licensing_exchange (a_config a) early channels) (arm_post a acc) (taken a, b).
Proof.
  intros Hok Hst Hb. unfold licensing_exchange. pose proof Hok as ((Hio & _) & _). destruct license_writes as (l & bs & Hl & Hw & Hbs & Hlen).
  apply wpm_bind. eapply wpm_question; [exact Hl|]. apply wpm_bind. rewrite Hio.
  eapply (send_small l); [exact Hw|exact Hbs|lia|done|exact Hb|]. intros b' Hb'. apply wpm_update, wpm_access.
  apply arm_wrote; [exact Hb'|apply indication_nonempty|]. set (next := if is_some _ then _ else _).
  assert (Hnext : next = AsMultitransportBootstrapping early channels \/ next = AsCapabilitiesSendServer early channels)
    by (unfold next; destruct (is_some _); auto).
  destruct (next_state a next) as (H1 & H2 & H3); [done|by destruct Hnext as [-> | ->]|rewrite Hst; destruct Hnext as [-> | ->]; cbn; lia| |].
  { unfold should_perform_credssp. rewrite Hst. intros g. rewrite orb_false_r. by destruct Hnext as [-> | ->]. }
  split; [exact H1|]. split; [exact H2|]. intros a0 g Hsv. exact (H3 a0 g Hsv).
Qed.

Lemma bootstrap_taken (a a' : Acceptor (P := P)) :
  a_config a' = a_config a -> a_settings a' = a_settings a -> multitransport_bootstrap a' = multitransport_bootstrap a.
Proof. intros Hc Hs. unfold multitransport_bootstrap. by rewrite Hc, Hs. Qed.

Lemma bootstrap_parts (a : Acceptor (P := P)) r m :
  multitransport_bootstrap a = Some (r, m) -> multitransport_request (a_config a) = Some r /\ message_channel_id (a_settings a) = Some m /\
    contains (multitransport_flags (a_settings a)) (union MultiTransportFlags.TRANSPORT_TYPE_UDP_FECR MultiTransportFlags.SOFT_SYNC_TCP_TO_UDP) = true.
Proof.
  unfold multitransport_bootstrap. destruct (multitransport_request _); [|done]. destruct (message_channel_id _); [|done]. cbn.
  destruct (contains _ _); cbn; [|done]. by intros [= -> ->].
Qed.

Lemma multitransport_arm a acc b early channels :
  acceptor_ok a -> a_state a = AsMultitransportBootstrapping early channels -> WriteBuf.holds acc b ->
  wpm (multitransport_bootstrapping early channels) (arm_post a acc) (taken a, b).
Proof.
  intros Hok Hst Hb. unfold multitransport_bootstrapping. pose proof Hok as ((Hio & Hu & Hreq) & (Hm & Hset) & _). apply wpm_access. cbn [fst].
  rewrite (bootstrap_taken a) by done. destruct (multitransport_bootstrap a) as [[r m]|] eqn:Hbs;
    [|exact (arm_error a acc (CGeneral "no multitransport request to send") (taken a) b Hb eq_refl)].
  apply bootstrap_parts in Hbs as Hp. destruct Hp as (Hr & Hmc & _). destruct (Hreq r Hr) as (Hid & Hck & Hcb).
  assert (Hwf : fc_wf (multitransport_pdu r)) by (split; [by split|]; by split).
  apply wpm_bind, wpm_ret, wpm_bind.
  eapply (send_small (multitransport_pdu r)); [by apply fc_writes|by apply fc_bytes| |by apply Hm|exact Hb|].
  { cbn [fc_wire MultitransportRequest_Framed]. rewrite !llen_app, llen_security, !llen_le. unfold llen. cbn. rewrite Hck. lia. }
  intros b' Hb'. apply wpm_update. apply arm_wrote; [exact Hb'|apply indication_nonempty|]. split.
  { split; [done|]. split; [done|]. done. }
  split; [rewrite Hst; cbn; lia|]. intros a0 g (H1 & H2 & H3 & H4). rewrite Hst in H4. split; [done|]. split; [done|]. split.
  - split; [|cbn; lia]. cbn. exists r, m. split; [|done]. rewrite <- Hbs. by apply bootstrap_taken.
  - unfold should_perform_credssp. rewrite Hst, orb_false_r. exact H4.
Qed.

(** The Demand Active is written, or its encoder says why it cannot be. *)
Lemma demand_encodes_or_errs cfg caps :
  size (demand caps) <= 0x7000 ->
  (exists bs, writes (demand_active cfg caps) bs /\ bytes_ok bs /\ llen bs <= 0x7fff) \/
  exists e, encode_vec (demand_active cfg caps) = Err e.
Proof.
  intros Hs. destruct (body_encodes (demand caps)) as [(bs & [He Hz] & Hb)|[H0 He]].
  - left. exists (control_wire 1 (io_channel_id cfg) 0 bs). split; [apply (control_writes (demand_active cfg caps)); [exact He|exact Hz|lia]|].
    split; [by apply control_wire_ok|]. rewrite llen_control_wire. lia.
  - right. assert (Hsz : size (demand_active cfg caps) = 10 + size (demand caps)) by done.
    apply encode_vec_errs; [lia|]. rewrite Hsz. cbn [encode_into ShareControlHeader_Encode]. unfold ShareControlHeader_encode.
    apply errs_ensure; [unfold ShareControlHeader_size; cbn; unfold SHARE_CONTROL_HEADER_SIZE; apply Z.le_refl|].
    apply errs_cast; [cbn; unfold SHARE_CONTROL_HEADER_SIZE; fold (demand caps); lia|].
    do 3 (eapply errs_next; [apply encodes_u16|rewrite llen_le; reflexivity|lia|]).
    eapply errs_next; [apply encodes_u32|rewrite llen_le; reflexivity|lia|].
    intros pre hole Hl. apply He. unfold WriteCursor.len. cbn. rewrite llen_app. unfold llen in *. lia.
Qed.

Lemma no_credssp (a : Acceptor (P := P)) : rank (a_state a) <> 4%nat -> should_perform_credssp a = false.
Proof. unfold should_perform_credssp. destruct (a_state a); cbn; done. Qed.

(** From licensing on every state stands for an authenticated client. *)
Lemma next_late (a : Acceptor (P := P)) next :
  acceptor_ok a -> state_ok next -> (9 < rank (a_state a) <= rank next)%nat -> next_ok a (a_set_state next (taken a)).
Proof.
  intros Hok Hn [Hr9 Hr]. apply next_state; [done..|]. intros g Hau. rewrite no_credssp, orb_false_r by lia.
  assert (H : authenticated (a_config a) (received_credentials (a_received a)) g) by (destruct (a_state a); cbn in *; try lia; exact Hau).
  destruct next; cbn in Hr; try lia; exact H.
Qed.

Lemma capabilities_send_arm a acc b early channels :
  acceptor_ok a -> a_state a = AsCapabilitiesSendServer early channels -> WriteBuf.holds acc b ->
  wpm (capabilities_send_server (a_config a) (a_settings a) early channels) (arm_post a acc) (taken a, b).
Proof.
  intros Hok Hst Hb. unfold capabilities_send_server. pose proof Hok as ((Hio & _) & (_ & _ & [Hc _] & _) & _).
  set (next := if flag_set _ _ then _ else _).
  assert (Hnext : state_ok next /\ (9 < rank (a_state a) <= rank next)%nat) by (unfold next; rewrite Hst; destruct (flag_set _ _); cbn; lia).
  apply wpm_bind. destruct (demand_encodes_or_errs (a_config a) (server_capabilities (a_settings a)) Hc) as [(bs & Hw & Hbs & Hl)|[e He]].
  - rewrite Hio. eapply send_small; [exact Hw|exact Hbs|exact Hl|done|exact Hb|]. intros b' Hb'.
    apply arm_wrote; [exact Hb'|apply indication_nonempty|]. apply next_late; [done|apply Hnext..].
  - unfold encode_send_data_indication. apply wpm_bind. rewrite He. exact (arm_error a acc (CEncode e) (taken a) b Hb eq_refl).
Qed.

Lemma layout_ok s : size_ok s -> data_wf (monitor_layout s) /\ llen (data_wire (monitor_layout s)) <= 0x7000.
Proof.
  intros [Hw Hh]. split.
  - cbn [data_wf monitor_layout]. split; [done|]. apply Forall_cons. split; [|constructor]. cbn. unfold is_i32, MonitorFlags_PRIMARY.
    split_and!; width.
  - cbn [data_wire monitor_layout fc_wire MonitorLayout_Framed]. unfold list_wire. cbn [monitors mbind list_bind fc_wire Monitor_Framed].
    rewrite !llen_app, !llen_le. done.
Qed.

Lemma monitor_arm a acc b channels :
  acceptor_ok a -> a_state a = AsMonitorLayoutSend channels -> WriteBuf.holds acc b ->
  wpm (monitor_layout_send (a_config a) (a_settings a) channels) (arm_post a acc) (taken a, b).
Proof.
  intros Hok Hst Hb. unfold monitor_layout_send. pose proof Hok as ((Hio & _) & (_ & Hsz & _) & _). rewrite Hio.
  destruct (layout_ok _ Hsz) as [Hw Hl]. apply wpm_bind. eapply send_data_pdu; [exact Hw|exact Hl|exact Hb|].
  intros out b' Ho Hb'. apply arm_wrote; [exact Hb'|exact Ho|]. apply next_late; [done..|rewrite Hst; cbn; lia].
Qed.

Lemma capabilities_wait_arm a acc b input channels :
  acceptor_ok a -> a_state a = AsCapabilitiesWaitConfirm channels -> bytes_ok input -> WriteBuf.holds acc b ->
  wpm (capabilities_wait_confirm (a_config a) (a_settings a) input channels) (arm_post a acc) (taken a, b).
Proof.
  intros Hok Hst Hi Hb. unfold capabilities_wait_confirm. pose proof Hok as ((Hio & Hu & _) & _).
  assert (Hstay : arm_post a acc (inr (Nothing, AsCapabilitiesWaitConfirm channels)) (taken a, b))
    by (apply arm_nothing; [done|]; apply next_late; [done..|rewrite Hst; cbn; lia]).
  assert (Hpdu : forall e, wpm (unexpected_pdu (a_config a) (AsCapabilitiesWaitConfirm channels) e) (arm_post a acc) (taken a, b))
    by (intros e; unfold unexpected_pdu; destruct (reactivation _); [exact Hstay|exact (arm_error a acc (CDecode e) (taken a) b Hb eq_refl)]).
  destruct (decode (X224 McsMessage) input) as [m|e|] eqn:Hm; [|apply Hpdu|by apply decode_no_panic in Hm].
  apply decode_wf in Hm; [|done]. destruct (x224 m) as [| | | | |data| |u] eqn:Hx; try exact Hstay.
  2:{ exact (arm_error a acc (CReason "received disconnect ultimatum") (taken a) b Hb eq_refl). }
  case_bool_decide.
  - apply wpm_update, wpm_ret, arm_nothing; [done|].
    apply (next_received a (AsCapabilitiesWaitConfirm channels) (add_message_pdus [sdr_user_data data])); [done..|rewrite Hst; cbn; lia| |done].
    apply no_credssp. by rewrite Hst.
  - assert (Hd : bytes_ok (sdr_user_data data)) by (cbn in Hm; rewrite Hx in Hm; apply Hm).
    destruct (decode ShareControlHeader (sdr_user_data data)) as [c|e|] eqn:Hc; [|apply Hpdu|by apply share_decode_safe in Hc].
    destruct (share_control_pdu c) as [|confirm| |]; try exact (arm_error a acc (CGeneral "expected client confirm active") (taken a) b Hb eq_refl).
    apply wpm_ret, arm_nothing; [done|]. apply next_late; [done| |rewrite Hst; cbn; lia]. split; [|done]. rewrite Hu, Hio. done.
Qed.

Lemma finalization_arm a acc b input at_ f channels caps :
  acceptor_ok a -> a_state a = AsConnectionFinalization f channels caps -> WriteBuf.holds acc b ->
  wpm (connection_finalization input at_ f channels caps) (arm_post a acc) (taken a, b).
Proof.
  intros Hok Hst Hb. unfold connection_finalization. pose proof Hok as (_ & _ & Hs). rewrite Hst in Hs. destruct Hs as [Hf Hd].
  apply wpm_bind, wpm_sub. eapply wpm_mono; [by apply (fin_step_spec input at_ acc f b)|].
  intros [e|w] [f' b'] (out & Hb' & H); cbn [fst snd] in *; [by exists out|]. destruct H as [-> Hf']. cbv beta iota.
  destruct (fin_is_done f') eqn:Hdone; exists out; (split; [exact Hb'|]); (split; [done|]).
  - apply (next_received a _ (add_message_pdus (fin_message_channel_pdus f'))); [done..|rewrite Hst; cbn; lia| |done].
    apply no_credssp. by rewrite Hst.
  - apply next_late; [done..|rewrite Hst; cbn; lia].
Qed.

(** ** The step *)

Lemma a_step_spec input at_ acc (a : Acceptor (P := P)) b :
  acceptor_ok a -> a_is_terminal a = false -> bytes_ok input -> WriteBuf.holds acc b -> heard (a_state a) input ->
  wpm (a_step input at_) (step_post (next_ok a) (fun a' => a_state a' = AsConsumed) acc) (a, b).
Proof.
  intros Hok Ht Hi Hb Hheard. unfold a_step. apply wpm_access, wpm_update. cbn [fst]. apply wpm_bind.
  match goal with |- wpm ?m _ _ => assert (Harm : wpm m (arm_post a acc) (taken a, b)) end.
  2:{ eapply wpm_mono; [exact Harm|]. intros [e|[w next]] [a' b'] (out & Hb' & H); [by exists out|]. exists out. split; [done|]. exact H. }
  pose proof Hok as (_ & _ & Hs). unfold a_is_terminal in Ht. destruct (a_state a) eqn:Hst; [destruct Hs|..|discriminate Ht].
  - by apply initiation_wait_arm.
  - by apply initiation_confirm_arm.
  - apply wpm_ret, arm_nothing; [done|]. destruct (is_hybrid protocol) eqn:Hy; (apply next_state; [done..|rewrite Hst; cbn; lia|]);
      rewrite Hst; cbn; intros g [? ?]; split_and!; try done. by rewrite Hy.
  - apply wpm_ret, arm_nothing; [done|]. apply next_state; [done..|rewrite Hst; cbn; lia|].
    unfold should_perform_credssp. rewrite Hst. cbn. intros g [? ?]. split_and!; [done..|]. intros _. apply orb_true_r.
  - by apply basic_initial_arm.
  - by apply basic_response_arm.
  - by apply channel_connection_arm.
  - apply wpm_ret, arm_nothing; [done|]. apply next_state; [done..|rewrite Hst; cbn; lia|].
    unfold should_perform_credssp. rewrite Hst. cbn. intros g. by rewrite orb_false_r.
  - by apply secure_settings_arm.
  - by apply detection_arm.
  - by apply licensing_arm.
  - by apply multitransport_arm.
  - by apply capabilities_send_arm.
  - by apply monitor_arm.
  - by apply capabilities_wait_arm.
  - by apply finalization_arm.
Qed.

End arms.
