(* ===== verification/Accept.v ===== *)
(** From the socket to an accepted client: the drivers of the acceptor
    (src/crates/ironrdp-acceptor/src/lib.rs), its CredSSP exchange (credssp.rs)
    and the way the server puts them together ([PendingConnection] in
    src/crates/ironrdp-server/src/server.rs).

    The sspi crate and the TLS library are parameters: [Sspi] is the CredSSP
    server, and what a TLS accept comes to, the stream of the plain bytes or
    nothing, is an argument.  Deadlines and the sockets' errors are not
    modelled. *)

From S2P Require Import Prelude Timing Cursor Codec Flags Mutation WriteBuf Mcs McsCodec Svc SvcSet Framed Nego NegoCodec Sequence ChannelConnection AutoDetect ConnectTime ShareData ShareCodec Finalization MessageChannel Acceptor AcceptorSteps.

Open Scope Z_scope.

(** ** CredSSP *)

Inductive ServerResult (T : Type) :=
| ReplyNeeded (ts_request : T)
| Finished (account : list Z)
| ServerError (ts_request : option T).
Arguments ReplyNeeded {T} _.
Arguments Finished {T} _.
Arguments ServerError {T} _.

(** What the acceptor uses of the sspi crate; [process] stands for the
    generator run to its end with the network client. *)
Class Sspi := {
  CredSspServer : Type;
  TsRequest : Type;
  CredSspServer_new : list Z -> (list Z -> option (list Z)) -> option CredSspServer;
  TsRequest_read_length : list Z -> outcome DecodeErrorKind (option Z);
  TsRequest_from_buffer : list Z -> option TsRequest;
  TsRequest_encoded : TsRequest -> option (list Z);
  process : TsRequest -> CredSspServer -> ServerResult TsRequest * CredSspServer;
  EarlyUserAuthResult_bytes : bool -> list Z;
}.

Inductive CredsspState := CsOngoing | CsFinished | CsServerError.

Section credssp.
Context {SS : Sspi}.

Record CredsspSequence := mkCredssp { cs_server : CredSspServer; cs_state : CredsspState }.

Definition CredsspTsRequestHint : PduHint := fun bytes =>
  length ← TsRequest_read_length bytes; Ok (option_map (fun n => (true, n)) length).

(** The closure of [credssp_loop] that looks an account up *)
Definition account_password (cfg : AcceptorConfig) (account : list Z) : option (list Z) :=
  match credential_resolver cfg with
  | Some resolver => password <$> resolver account
  | None =>
      match creds cfg with
      | Some c => if decide (account = username c) then Some (password c) else None
      | None => None
      end
  end.

Definition cs_init (cfg : AcceptorConfig) (public_key : list Z) : option CredsspSequence :=
  (fun server => mkCredssp server CsOngoing) <$> CredSspServer_new public_key (account_password cfg).

(** [sequence.handle_process_result]: the reply and the next state *)
Definition handle_process_result (result : ServerResult TsRequest) : option TsRequest * CredsspState :=
  match result with
  | ReplyNeeded ts_request => (Some ts_request, CsOngoing)
  | Finished _ => (None, CsFinished)
  | ServerError ts_request => (ts_request, CsServerError)
  end.

(** [framed.write_all(bytes)] *)
Definition write_all {A} (bytes : list Z) : Mut (Driver A) ConnectorError unit :=
  update (fun d => mkDriver (d_framed d) (d_sequence d) (d_buf d) (d_sent d ++ bytes)).

Definition send_reply {A} (reply : option TsRequest) : Mut (Driver A) ConnectorError unit :=
  match reply with
  | Some ts_request =>
      bytes ← ok_or (CSource "TsRequest") (TsRequest_encoded ts_request);
      _ ← question id (Written_from_size (llen bytes));
      write_all bytes
  | None => mret tt
  end.

(** The loop of [credssp_loop]: every turn takes a message from the client. *)
Fixpoint credssp_turns {A} (fuel : nat) (sequence : CredsspSequence) : Mut (Driver A) ConnectorError unit :=
  match fuel with
  | O => boom
  | S fuel' =>
      match cs_state sequence with
      | CsFinished => mret tt
      | CsServerError => throw (CSource "Credssp server error")
      | CsOngoing =>
          pdu ← on_framed "read frame by hint" (read_by_hint CredsspTsRequestHint);
          ts_request ← ok_or (CSource "TsRequest") (TsRequest_from_buffer pdu);
          let '(result, server) := process ts_request (cs_server sequence) in
          _ ← clear_buf;
          let '(reply, next) := handle_process_result result in
          _ ← send_reply reply;
          credssp_turns fuel' (mkCredssp server next)
      end
  end.
(** Every turn but the last takes a byte at least. *)
Definition credssp_run {A} (sequence : CredsspSequence) : Mut (Driver A) ConnectorError unit := fun d =>
  credssp_turns (S (S (measure (d_framed d)))) sequence d.
Definition credssp_loop {A} (cfg : AcceptorConfig) (public_key : list Z) : Mut (Driver A) ConnectorError unit :=
  sequence ← ok_or (CSource "CredSSP") (cs_init cfg public_key);
  credssp_run sequence.

End credssp.

(** ** The drivers *)

(** The code goes on with the result of [m], be it an error. *)
Definition attempt {S E F A} (m : Mut S E A) : Mut S F (E + A) := fun s =>
  match m s with Some (r, s') => Some (inr r, s') | None => None end.

Inductive BeginResult := ShouldUpgrade | Continue.

Section drive.
Context {BF : Bitflags} {SB : ShareBodies} {SC : ShareCodecs} {ST : SettingsCodecs} {SS : Sspi} {P : Type} {SP : SvcProcessor P}.

Abbreviation Drive := (Mut (Driver (Acceptor (P := P))) ConnectorError).

(** Calls on the acceptor; [None] is a panic. *)
Definition on_acceptor (f : Acceptor (P := P) -> option (Acceptor (P := P))) : Drive unit := fun d =>
  match f (d_sequence d) with
  | Some a => Some (inr tt, mkDriver (d_framed d) a (d_buf d) (d_sent d))
  | None => None
  end.
Definition set_framed (f : Framed) : Drive unit :=
  update (fun d => mkDriver f (d_sequence d) (d_buf d) (d_sent d)).

(** Between two steps that read the acceptor takes fewer than sixteen others;
    [drive_fuel] turns are enough (lemma [work_fuel]). *)
Definition drive_fuel (d : Driver (Acceptor (P := P))) : nat := 16 * measure (d_framed d) + 16.

Fixpoint begin_loop (fuel : nat) : Drive BeginResult :=
  match fuel with
  | O => boom
  | S fuel' =>
      self ← access d_sequence;
      match reached_security_upgrade self with
      | Some sec => mret (if SecurityProtocol.is_empty sec then Continue else ShouldUpgrade)
      | None => _ ← single_sequence_step; begin_loop fuel'
      end
  end.
Definition accept_begin : Drive BeginResult := fun d => begin_loop (drive_fuel d) d.

Fixpoint finalize_loop (fuel : nat) : Drive (AcceptorResult (P := P)) :=
  match fuel with
  | O => boom
  | S fuel' =>
      self ← access d_sequence;
      match get_result self with
      | (Some result, a) => _ ← on_acceptor (fun _ => Some a); mret result
      | (None, a) => _ ← on_acceptor (fun _ => Some a); _ ← single_sequence_step; finalize_loop fuel'
      end
  end.
Definition accept_finalize : Drive (AcceptorResult (P := P)) := fun d => finalize_loop (drive_fuel d) d.

Definition credssp_protocol (a : Acceptor (P := P)) : option Z :=
  match a_state a with AsCredssp _ protocol => Some protocol | _ => None end.
Definition perform_credssp_step (public_key : list Z) : Drive unit :=
  self ← access d_sequence;
  protocol ← expect (credssp_protocol self);
  result ← attempt (credssp_loop (a_config self) public_key);
  _ ←
    (if intersects protocol SecurityProtocol.HYBRID_EX then
       write_all (EarlyUserAuthResult_bytes (match result with inr _ => true | inl _ => false end))
     else mret tt);
  match result with
  | inl e => throw e
  | inr _ => on_acceptor mark_credssp_as_done
  end.
Definition accept_credssp (public_key : list Z) : Drive unit :=
  self ← access d_sequence;
  if should_perform_credssp self then perform_credssp_step public_key else mret tt.

(** ** The server *)

(** The key of the certificate is what CredSSP binds to. *)
Inductive RdpServerSecurity := SecNone | SecTls | SecHybrid (public_key : list Z) | SecHybridOrTls (public_key : list Z).
Definition security_flag (s : RdpServerSecurity) : Z :=
  match s with
  | SecNone => 0
  | SecTls => SecurityProtocol.SSL
  | SecHybrid _ => union SecurityProtocol.HYBRID SecurityProtocol.HYBRID_EX
  | SecHybridOrTls _ => union (union SecurityProtocol.SSL SecurityProtocol.HYBRID) SecurityProtocol.HYBRID_EX
  end.

(** Who does the TLS handshake; [Managed] carries what the accept comes to. *)
Inductive TransportTls := Managed (accepted : option Framed) | AlreadyDone.

Definition PendingConnection_new (sec : RdpServerSecurity) (desktop : DesktopSize) (capabilities : list CapabilitySet)
    (expected : option Credentials) (honor : option DesktopSize) (resolver : option (list Z -> option Credentials))
    (multitransport : option MultitransportRequest) (graphics_pipeline autodetect : bool) : Acceptor (P := P) :=
  set_connect_time_autodetect autodetect
    (set_graphics_pipeline_announce graphics_pipeline
      (set_multitransport_request multitransport
        (set_multitransport_announce (is_some multitransport)
          (set_honor_client_desktop_size honor (Acceptor_new (security_flag sec) desktop capabilities expected resolver))))).

Definition public_key_of (sec : RdpServerSecurity) : option (list Z) :=
  match sec with SecHybrid key | SecHybridOrTls key => Some key | SecTls | SecNone => None end.
Definition complete_security_upgrade (sec : RdpServerSecurity) : Drive unit :=
  _ ← on_acceptor mark_security_upgrade_as_done;
  self ← access d_sequence;
  match public_key_of sec with
  | Some key => if should_perform_credssp self then accept_credssp key else mret tt
  | None => mret tt
  end.

(** [Framed::new(framed.into_inner_no_leftover())] *)
Definition fresh_framed (f : Framed) : Framed := mkFramed (pieces_left f) (closed_at f) [] None.

(** [Ok(None)], a failed TLS handshake, is [false]. *)
Definition negotiate_and_authenticate (sec : RdpServerSecurity) (tls : TransportTls) : Drive bool :=
  res ← accept_begin;
  match res with
  | ShouldUpgrade =>
      match tls with
      | Managed accepted =>
          match sec with
          | SecNone => boom
          | _ =>
              match accepted with
              | Some framed => _ ← set_framed framed; _ ← complete_security_upgrade sec; mret true
              | None => mret false
              end
          end
      | AlreadyDone =>
          framed ← access d_framed;
          _ ← set_framed (fresh_framed framed); _ ← complete_security_upgrade sec; mret true
      end
  | Continue => mret true
  end.

(** A connection until the session begins *)
Definition serve_connection (sec : RdpServerSecurity) (tls : TransportTls) : Drive (option (AcceptorResult (P := P))) :=
  negotiated ← negotiate_and_authenticate sec tls;
  if (negotiated : bool) then result ← accept_finalize; mret (Some result) else mret None.

End drive.
