(* ===== verification/AcceptProps.v ===== *)
(** Accepting a client: the drivers end, whatever the client and the sspi crate
    do, and a client that is accepted has proved who it is. *)

From S2P Require Import Prelude Timing Cursor Codec Flags Mutation WriteBuf Mcs McsCodec Svc SvcSet Framed Nego NegoCodec Sequence ChannelConnection AutoDetect ConnectTime ShareData ShareCodec Finalization MessageChannel Acceptor AcceptorSteps Accept.

Open Scope Z_scope.

(** ** What holds when a step ends well *)

Definition if_ok {A X} (m : StepM A X) (R : X -> A -> Prop) (s : A) : Prop :=
  forall b x s' b', m (s, b) = Some (inr x, (s', b')) -> R x s'.

Section if_ok.
Context {A X : Type}.
Implicit Types (R : X -> A -> Prop).

Lemma if_ok_bind {Y} (m : StepM A Y) (k : Y -> StepM A X) R s :
  if_ok m (fun y s' => if_ok (k y) R s') s -> if_ok (m ≫= k) R s.
Proof.
  intros H b x s' b' Hb. unfold mbind, Mut_bind in Hb. destruct (m (s, b)) as [[[e|y] [s1 b1]]|] eqn:Hm; [done| |done].
  by eapply H.
Qed.
Lemma if_ok_ret (x : X) R s : R x s -> if_ok (mret x) R s.
Proof. intros H b y s' b' Hb. by injection Hb as <- <- _. Qed.
Lemma if_ok_throw e R s : if_ok (throw e) R s.
Proof. by intros b x s' b' Hb. Qed.
Lemma if_ok_boom R s : if_ok boom R s.
Proof. by intros b x s' b' Hb. Qed.
Lemma if_ok_get (R : A -> A -> Prop) s : R s s -> if_ok get_self R s.
Proof. intros H b y s' b' Hb. by injection Hb as <- <- _. Qed.
Lemma if_ok_modify (R : unit -> A -> Prop) f s : R tt (f s) -> if_ok (modify_self f) R s.
Proof. intros H b y s' b' Hb. injection Hb as <- <- _. done. Qed.
Lemma if_ok_question {F} (f : F -> ConnectorError) (r : outcome F X) R s : (forall x, R x s) -> if_ok (question f r) R s.
Proof. intros H b y s' b' Hb. destruct r; [|done..]. injection Hb as <- <- _. done. Qed.
Lemma if_ok_ok_or e (o : option X) R s : (forall x, R x s) -> if_ok (ok_or e o) R s.
Proof. intros H b y s' b' Hb. destruct o; [|done]. injection Hb as <- <- _. done. Qed.
Lemma if_ok_expect (o : option X) R s : (forall x, R x s) -> if_ok (expect o) R s.
Proof. intros H b y s' b' Hb. destruct o; [|done]. injection Hb as <- <- _. done. Qed.
Lemma if_ok_emit {Pd} `{Encode Pd} (pdu : Pd) (R : Z -> A -> Prop) s : (forall n, R n s) -> if_ok (emit pdu) R s.
Proof.
  intros HR b n s' b' Hb. unfold emit in Hb. destruct (encode_buf pdu b) as [[k b1]| |]; [|done..]. by injection Hb as <- <- _.
Qed.
Lemma if_ok_sub {B Y} (m : StepM B Y) (c : B) (R : Y * B -> A -> Prop) s :
  if_ok m (fun y c' => R (y, c') s) c -> if_ok (sub_step m c) R s.
Proof.
  intros H b y s' b' Hb. unfold sub_step in Hb. destruct (m (c, b)) as [[[e|z] [c' b1]]|] eqn:Hm; [done| |done].
  injection Hb as <- <- _. by eapply H.
Qed.
End if_ok.

Lemma if_ok_send {A Pd} `{Encode Pd} i c (pdu : Pd) (R : Z -> A -> Prop) s : (forall n, R n s) -> if_ok (encode_send_data_indication i c pdu) R s.
Proof. intros HR. apply if_ok_bind, if_ok_question. intros d. by apply if_ok_emit. Qed.
Lemma if_ok_written {A} n (R : Written -> A -> Prop) s : (forall w, R w s) -> if_ok (written_size n) R s.
Proof. apply if_ok_question. Qed.

(** Runs through a step. *)
Ltac run_ok :=
  repeat (lazymatch goal with
  | |- if_ok (_ ≫= _) _ _ => apply if_ok_bind
  | |- if_ok (mret _) _ _ => apply if_ok_ret
  | |- if_ok (throw _) _ _ => apply if_ok_throw
  | |- if_ok boom _ _ => apply if_ok_boom
  | |- if_ok get_self _ _ => apply if_ok_get
  | |- if_ok (modify_self _) _ _ => apply if_ok_modify
  | |- if_ok (written_size _) _ _ => apply if_ok_written; intros ?
  | |- if_ok (encode_send_data_indication _ _ _) _ _ => apply if_ok_send; intros ?
  | |- if_ok (emit _) _ _ => apply if_ok_emit; intros ?
  | |- if_ok (question _ _) _ _ => apply if_ok_question; intros ?
  | |- if_ok (ok_or _ _) _ _ => apply if_ok_ok_or; intros ?
  | |- if_ok (expect _) _ _ => apply if_ok_expect; intros ?
  | |- if_ok (sub_step _ _) _ _ => apply if_ok_sub
  | |- if_ok (let '(_, _) := ?p in _) _ _ => destruct p
  end; cbv beta iota zeta).

(** ** Steps without input *)

Definition cc_steps_left (c : ChannelConnectionSequence) : nat :=
  match cc_state c with
  | ChannelConnectionState.SendAttachUserConfirm | ChannelConnectionState.SendChannelJoinConfirm _ _ _ => 2
  | _ => 0
  end.
Definition ct_steps_left (d : ConnectTimeAutoDetection) : nat :=
  match ct_step_ d with
  | DetectStep.SendRttRequest | DetectStep.SendBandwidthMeasure => 1
  | DetectStep.SendResult => 5
  | _ => 0
  end.
Definition fin_steps_left (f : FinalizationSequence) : nat :=
  match fin_state f with
  | FinalizationState.SendSynchronizeConfirm => 4 | FinalizationState.SendControlCooperateConfirm => 3
  | FinalizationState.SendGrantedControlConfirm => 2 | FinalizationState.SendFontMap => 1
  | _ => 0
  end.

Lemma cc_progress input at_ c :
  cc_next_pdu_hint c = None -> if_ok (cc_step input at_) (fun _ c' => cc_steps_left c = 2%nat /\ cc_steps_left c' = 0%nat) c.
Proof.
  intros Hh. unfold cc_step. run_ok. unfold cc_next_pdu_hint in Hh. unfold cc_steps_left at 1, cc_next.
  destruct (cc_state c) eqn:Hc; try discriminate Hh; run_ok; (split; [done|]).
  - by destruct (cc_channel_ids c).
  - by destruct (bool_decide _).
Qed.

Section progress.
Context {BF : Bitflags} {SB : ShareBodies} {SC : ShareCodecs} {ST : SettingsCodecs} {P : Type} {SP : SvcProcessor P}.

Lemma ct_payloads_ok {A} (d : ConnectTimeAutoDetection) numbers x n (R : Z * Z -> A -> Prop) s :
  (forall r, R r s) -> if_ok (ct_send_payloads d numbers x n) R s.
Proof.
  intros HR. revert x n. induction numbers as [|k numbers IH]; intros x n; cbn [ct_send_payloads]; run_ok; [done|].
  unfold ct_send. run_ok. apply IH.
Qed.

Lemma ct_progress input at_ d :
  ct_waits_for_input d = false -> ct_is_done d = false ->
  if_ok (ct_step input at_) (fun _ d' => (ct_steps_left d' < ct_steps_left d)%nat /\ (ct_is_done d' = true -> ct_steps_left d = 5%nat)) d.
Proof.
  intros Hw Hd. unfold ct_step. run_ok. unfold ct_waits_for_input, ct_is_done in *. unfold ct_steps_left at 2 3.
  destruct (ct_step_ d) eqn:Hs; try discriminate Hw; try discriminate Hd; unfold ct_send; run_ok.
  - cbn. by split; [lia|].
  - apply ct_payloads_ok. intros [p w]. run_ok. cbn. by split; [lia|].
  - destruct (network_result _); run_ok; cbn; by split; [lia|].
Qed.

Lemma fin_progress input at_ f :
  fin_next_pdu_hint f = None -> if_ok (fin_step input at_) (fun _ f' => (fin_steps_left f' < fin_steps_left f)%nat) f.
Proof.
  intros Hh. unfold fin_step. run_ok. unfold fin_next_pdu_hint in Hh. unfold fin_steps_left at 2.
  destruct (fin_state f) eqn:Hf; try discriminate Hh; unfold send_share; run_ok; cbn; lia.
Qed.

(** The steps until the acceptor reads again. *)
Definition steps_left (st : AcceptorState) : nat :=
  match st with
  | AsInitiationSendConfirm _ _ => 4 | AsSecurityUpgrade _ _ => 3 | AsCredssp _ _ => 2
  | AsBasicSettingsSendResponse _ _ _ _ => 1 | AsChannelConnection _ _ _ c => cc_steps_left c
  | AsRdpSecurityCommencement _ _ _ => 1 | AsConnectTimeAutoDetection _ _ d => ct_steps_left d
  | AsLicensingExchange _ _ => 4 | AsMultitransportBootstrapping _ _ => 3 | AsCapabilitiesSendServer _ _ => 2
  | AsMonitorLayoutSend _ => 1 | AsConnectionFinalization f _ _ => fin_steps_left f
  | _ => 0
  end.

Lemma steps_left_small st : (steps_left st <= 5)%nat.
Proof.
  destruct st; cbn; try lia; unfold cc_steps_left, ct_steps_left, fin_steps_left; repeat case_match; lia.
Qed.

Lemma a_progress input at_ (a : Acceptor (P := P)) :
  acceptor_ok a -> a_is_terminal a = false -> a_next_pdu_hint a = None ->
  if_ok (a_step input at_) (fun _ a' => (steps_left (a_state a') < steps_left (a_state a))%nat) a.
Proof.
  intros (_ & _ & Hok) Ht Hh. unfold a_step. run_ok. unfold a_is_terminal, a_next_pdu_hint in *.
  destruct (a_state a) eqn:Hst; try discriminate Hh; try discriminate Ht; try (destruct Hok; fail); run_ok.
  - unfold initiation_send_confirm. destruct (select_protocol _ _); run_ok. cbn. lia.
  - cbn. destruct (is_hybrid _); cbn; lia.
  - cbn. lia.
  - unfold basic_settings_send_response, encode_x224_packet. run_ok. cbn. destruct (flag_set _ _); cbn; lia.
  - unfold channel_connection. run_ok. intros b x c' b' Hc. apply (cc_progress input at_ connection Hh) in Hc as [H1 H2]. run_ok.
    cbn. destruct (cc_is_done c'); cbn; lia.
  - cbn. lia.
  - unfold connect_time_auto_detection. destruct (ct_waits_for_input detection) eqn:Hw; [done|]. run_ok. intros b x d' b' Hc.
    apply (ct_progress input at_ detection Hw) in Hc as [H1 H2]; [|apply Hok].
    destruct (ct_is_done d'); run_ok; cbn; [rewrite H2 by done; lia|lia].
  - unfold licensing_exchange. run_ok. cbn. destruct (is_some _); cbn; lia.
  - unfold multitransport_bootstrapping. run_ok. cbn. lia.
  - unfold capabilities_send_server. run_ok. cbn. destruct (flag_set _ _); cbn; lia.
  - unfold monitor_layout_send. run_ok. cbn. lia.
  - unfold connection_finalization. run_ok. intros b x f' b' Hc. apply (fin_progress input at_ finalization Hh) in Hc.
    destruct (fin_is_done f'); run_ok; cbn; lia.
Qed.

(** The negotiation ends at the upgrade, and an upgrade without CredSSP at the
    basic settings. *)
Definition phase_next (a a' : Acceptor (P := P)) : Prop :=
  ((rank (a_state a) <= 2)%nat -> (2 <= rank (a_state a') <= 3)%nat) /\
  (forall r p, a_state a = AsSecurityUpgrade r p ->
    a_state a' = if is_hybrid p then AsCredssp r p else AsBasicSettingsWaitInitial r p).
Lemma a_phase input at_ (a : Acceptor (P := P)) : if_ok (a_step input at_) (fun _ a' => phase_next a a') a.
Proof.
  destruct (decide (3 < rank (a_state a))%nat) as [Hr|Hr].
  { intros b x a' b' _. split; [lia|]. intros r p Hst. rewrite Hst in Hr. cbn in Hr. lia. }
  unfold a_step. run_ok. unfold phase_next. destruct (a_state a) eqn:Hst; cbn in Hr; try lia; run_ok.
  - unfold initiation_wait_request, decode_input. run_ok. cbn. by split; [lia|].
  - unfold initiation_send_confirm. destruct (select_protocol _ _); run_ok. cbn. by split; [lia|].
  - split; [cbn; lia|]. cbn. by intros ?? [= -> ->].
Qed.

End progress.

(** ** Reading *)

(** A hint that does not panic and reports frames with at least a byte. *)
Definition hint_sound (h : PduHint) : Prop :=
  forall bs, bytes_ok bs -> h bs <> Panic /\ forall m n, h bs = Ok (Some (m, n)) -> 0 < n.

Lemma find_size_hint {f : PduInfo -> bool} (h : PduHint) :
  (forall bs, h bs = (opt ← find_size bs; Ok (option_map (fun i => (f i, info_length i)) opt))) -> hint_sound h.
Proof.
  intros Hh bs Hb. rewrite Hh. destruct (find_size_ok bs Hb) as [Hp Hl]. destruct (find_size bs) as [[i|]|e|]; [| |done|done].
  - split; [done|]. cbn. intros m n [= _ <-]. specialize (Hl i eq_refl). lia.
  - by split.
Qed.
Lemma x224_hint_sound : hint_sound X224Hint.
Proof. by eapply find_size_hint. Qed.
Lemma rdp_hint_sound : hint_sound RdpHint.
Proof. eapply (find_size_hint (f := fun _ => true)). done. Qed.

Lemma skips_suffix h stream rest : skips h stream rest -> rest `suffix_of` stream.
Proof. induction 1 as [|other rest stream _ _ _ IH]; [done|]. by apply suffix_app_r. Qed.

(** A frame is part of the stream and takes something from it. *)
Lemma read_hint_spec h f :
  hint_sound h -> bytes_ok (pending f) ->
  wpm (read_by_hint h) (fun r f' =>
    match r with
    | inl _ => True
    | inr bs => first_match h (pending f) bs (pending f') /\ bytes_ok bs /\ bytes_ok (pending f') /\ (measure f' < measure f)%nat
    end) f.
Proof.
  intros Hh Hb. assert (Hok : hint_ok h).
  { intros bs Hbs. destruct (Hh bs Hbs) as [Hp Hn]. split; [done|]. intros m n Hmn. apply Hn in Hmn. lia. }
  eapply wpm_mono; [by apply read_by_hint_spec|]. intros [e|bs] f' [Hpost Hm]; [done|]. split; [done|].
  destruct Hpost as [Hskip (seen & [tail Hseen] & Hsay)]. apply skips_suffix in Hskip as [before Hpd].
  rewrite Hpd in Hb. apply Forall_app in Hb as [_ Hb]. pose proof Hb as [Hbs Hrest]%Forall_app. split; [done|]. split; [done|].
  assert (Hn : 0 < llen bs) by (rewrite Hseen in Hb; apply Forall_app in Hb as [Hs _]; apply (Hh seen Hs) in Hsay; exact Hsay).
  unfold llen in Hn. lia.
Qed.

Lemma wpm_on_framed {A R} ctx (m : Mut Framed IoError R) (Q : ConnectorError + R -> Driver A -> Prop) d :
  wpm m (fun r f => Q (match r with inr x => inr x | inl e => inl (CCustom ctx e) end) (mkDriver f (d_sequence d) (d_buf d) (d_sent d))) (d_framed d) ->
  wpm (on_framed ctx m) Q d.
Proof. unfold wpm, on_framed. by destruct (m (d_framed d)) as [[[e|x] f]|]. Qed.

(** ** The drivers *)

Section drive.
Context {BF : Bitflags} {SB : ShareBodies} {SC : ShareCodecs} {SL : ShareLaws} {ST : SettingsCodecs} {STL : SettingsLaws}
  {P : Type} {SP : SvcProcessor P} {CW : ClientWords}.
Abbreviation Drv := (Driver (Acceptor (P := P))).

Definition drive_ok (d : Drv) : Prop :=
  acceptor_ok (d_sequence d) /\ bytes_ok (pending (d_framed d)) /\ exists acc, WriteBuf.holds acc (d_buf d).

(** How much is left to do. *)
Definition work (d : Drv) : nat := 16 * measure (d_framed d) + steps_left (a_state (d_sequence d)).

Lemma work_fuel d : (work d < drive_fuel d)%nat.
Proof. unfold work, drive_fuel. pose proof (steps_left_small (a_state (d_sequence d))). lia. Qed.

Definition stepped (d : Drv) (r : ConnectorError + unit) (d' : Drv) : Prop :=
  match r with
  | inr _ => drive_ok d' /\ next_ok (d_sequence d) (d_sequence d') /\ (work d' < work d)%nat /\
      phase_next (d_sequence d) (d_sequence d') /\ pending (d_framed d') `suffix_of` pending (d_framed d)
  | inl _ => True
  end.

Lemma clear_holds acc b : WriteBuf.holds acc b -> WriteBuf.holds [] (WriteBuf.clear b).
Proof. intros _. split; [done|]. by eexists. Qed.

Lemma acceptor_hint (a : Acceptor (P := P)) h : a_next_pdu_hint a = Some h -> h = X224Hint \/ h = RdpHint.
Proof.
  unfold a_next_pdu_hint, cc_next_pdu_hint, fin_next_pdu_hint. repeat case_match; intros [= <-]; auto.
Qed.

(** The step of the acceptor, with its output sent. *)
Lemma step_write_spec (d d' : Drv) w acc :
  w = wrote acc -> WriteBuf.holds acc (d_buf d') -> drive_ok d' -> next_ok (d_sequence d) (d_sequence d') -> (work d' < work d)%nat ->
  phase_next (d_sequence d) (d_sequence d') -> pending (d_framed d') `suffix_of` pending (d_framed d) ->
  wpm (single_sequence_step_write w) (stepped d) d'.
Proof.
  intros -> Hb (Hok & Hp & Hacc) Hn Hw Hph Hsuf. unfold wrote. case_bool_decide; cbn [single_sequence_step_write]; [by split_and!|].
  unfold wpm. rewrite (WriteBuf.holds_filled acc) by done. split_and!; done.
Qed.

Lemma on_sequence_spec input at_ (d0 d : Drv) :
  drive_ok d -> WriteBuf.holds [] (d_buf d) -> bytes_ok input -> a_is_terminal (d_sequence d) = false -> d_sequence d = d_sequence d0 ->
  heard (a_state (d_sequence d)) input -> pending (d_framed d) `suffix_of` pending (d_framed d0) ->
  (measure (d_framed d) < measure (d_framed d0) \/ d_framed d = d_framed d0 /\ a_next_pdu_hint (d_sequence d) = None)%nat ->
  wpm (on_sequence (a_step input at_)) (fun r d' =>
    match r with inr w => wpm (single_sequence_step_write w) (stepped d0) d' | inl e => stepped d0 (inl e) d' end) d.
Proof.
  intros (Hok & Hp & _) Hb Hi Ht Hs Hh Hsuf Hm. unfold wpm at 1, on_sequence.
  pose proof (a_step_spec input at_ [] (d_sequence d) (d_buf d) Hok Ht Hi Hb Hh) as Hspec. unfold wpm in Hspec.
  destruct (a_step input at_ (d_sequence d, d_buf d)) as [[[e|w] [a' b']]|] eqn:Hst; [done| |done].
  destruct Hspec as (out & Hb' & -> & Hn). cbn [fst snd app] in *. apply (step_write_spec d0 _ _ out); [done|done| | | | |exact Hsuf].
  - split; [apply Hn|]. split; [done|by exists out].
  - by rewrite <- Hs.
  - unfold work. cbn [d_framed d_sequence]. rewrite <- Hs. destruct Hm as [Hm|[-> Hnone]].
    + pose proof (steps_left_small (a_state a')). lia.
    + pose proof (a_progress input at_ (d_sequence d) Hok Ht Hnone _ _ _ _ Hst) as Hpr. cbv beta in Hpr. lia.
  - cbn [d_sequence]. rewrite <- Hs. exact (a_phase input at_ (d_sequence d) _ _ _ _ Hst).
Qed.

(** The frame the acceptor waits for says what is known of the client. *)
Definition hears (d : Drv) : Prop :=
  forall h frame rest, a_next_pdu_hint (d_sequence d) = Some h -> first_match h (pending (d_framed d)) frame rest ->
    heard (a_state (d_sequence d)) frame.
Lemma nothing_heard (a : Acceptor (P := P)) input : a_next_pdu_hint a = None -> heard (a_state a) input.
Proof. unfold a_next_pdu_hint. by destruct (a_state a). Qed.

Lemma single_step_spec (d : Drv) :
  drive_ok d -> a_is_terminal (d_sequence d) = false -> hears d -> wpm single_sequence_step (stepped d) d.
Proof.
  intros (Hok & Hp & acc & Hb) Ht Hears. unfold single_sequence_step, single_sequence_step_read. apply wpm_update. apply wpm_bind, wpm_update, wpm_access.
  cbn [d_framed d_sequence d_buf d_sent]. pose proof (clear_holds _ _ (clear_holds _ _ Hb)) as Hb'.
  cbn [next_pdu_hint Acceptor_Sequence]. destruct (a_next_pdu_hint (d_sequence d)) as [h|] eqn:Hh.
  - apply wpm_bind, wpm_on_framed. eapply wpm_mono; [apply (read_hint_spec h); [|done]|].
    + destruct (acceptor_hint _ _ Hh) as [-> | ->]; [apply x224_hint_sound|apply rdp_hint_sound].
    + intros [e|bs] f; [done|]. intros (Hfm & Hbs & Hp' & Hm). apply wpm_access.
      apply on_sequence_spec; cbn; [|done|done|done|done|by eapply Hears| |by left]; [by split_and!; [..|eexists]|].
      destruct Hfm as [Hfm%skips_suffix _]. etrans; [|exact Hfm]. by apply suffix_app_r.
  - apply on_sequence_spec; cbn; [|done|constructor|done|done|by apply nothing_heard|done|by right]. by split_and!; [..|eexists].
Qed.

(** ** CredSSP *)

Context {SS : Sspi}.

(** The frames of the CredSSP messages have a length. *)
Class SspiLaws := ts_hint_sound : hint_sound CredsspTsRequestHint.
Context {SSL : SspiLaws}.

(** The CredSSP server takes the message at the head of the stream. *)
Definition takes_message (s : CredSspServer) (stream : list Z) (result : ServerResult TsRequest) (s' : CredSspServer) (rest : list Z) : Prop :=
  exists pdu t, stream = pdu ++ rest /\ says CredsspTsRequestHint stream (Ok (Some (true, llen pdu))) /\
    TsRequest_from_buffer pdu = Some t /\ process t s = (result, s').
(** The CredSSP servers an exchange over a stream goes through, each with what
    is left of the stream. *)
Inductive exchanging (cfg : AcceptorConfig) (key stream : list Z) : CredSspServer -> list Z -> Prop :=
| exchange_start s : CredSspServer_new key (account_password cfg) = Some s -> exchanging cfg key stream s stream
| exchange_turn s rest reply s' rest' :
    exchanging cfg key stream s rest -> takes_message s rest (ReplyNeeded reply) s' rest' -> exchanging cfg key stream s' rest'.
(** The server of the exchange said, at the last message, that the client proved
    its identity. *)
Definition credssp_proved (cfg : AcceptorConfig) (key stream : list Z) : Prop :=
  exists s rest account s' rest', exchanging cfg key stream s rest /\ takes_message s rest (Finished account) s' rest'.

Definition cs_inv (cfg : AcceptorConfig) (key stream : list Z) (sq : CredsspSequence) (rest : list Z) : Prop :=
  match cs_state sq with
  | CsOngoing => exchanging cfg key stream (cs_server sq) rest
  | CsFinished => credssp_proved cfg key stream
  | CsServerError => True
  end.

(** Every CredSSP message is one the hint matches. *)
Lemma credssp_head stream frame rest :
  first_match CredsspTsRequestHint stream frame rest ->
  stream = frame ++ rest /\ says CredsspTsRequestHint stream (Ok (Some (true, llen frame))).
Proof.
  intros [Hskip Hsay]. inversion Hskip as [|other rest' ? Ho (seen & _ & Hs) Hmore]; subst; [done|]. exfalso.
  unfold CredsspTsRequestHint in Hs. destruct (TsRequest_read_length seen) as [[n|]| |]; done.
Qed.

Lemma send_reply_spec reply (Q : ConnectorError + unit -> Drv -> Prop) d :
  (forall e, Q (inl e) d) -> (forall out, Q (inr tt) (mkDriver (d_framed d) (d_sequence d) (d_buf d) (d_sent d ++ out))) ->
  wpm (send_reply reply) Q d.
Proof.
  intros He Hok. destruct reply as [t|]; cbn [send_reply].
  - destruct (TsRequest_encoded t) as [bytes|]; [|exact (He _)]. unfold Written_from_size.
    apply wpm_bind, wpm_ret, wpm_bind. destruct (llen bytes =? 0); [exact (He _)|exact (Hok bytes)].
  - specialize (Hok []). rewrite app_nil_r in Hok. destruct d. exact Hok.
Qed.

Definition credssp_post (cfg : AcceptorConfig) (key stream : list Z) (d : Drv) (r : ConnectorError + unit) (d' : Drv) : Prop :=
  d_sequence d' = d_sequence d /\ (exists acc, WriteBuf.holds acc (d_buf d')) /\
  match r with
  | inr _ => bytes_ok (pending (d_framed d')) /\ credssp_proved cfg key stream /\ pending (d_framed d') `suffix_of` pending (d_framed d)
  | inl _ => True
  end.

Lemma credssp_turns_spec cfg key stream fuel sq d :
  (S (measure (d_framed d)) < fuel \/ cs_state sq <> CsOngoing /\ 0 < fuel)%nat -> cs_inv cfg key stream sq (pending (d_framed d)) -> bytes_ok (pending (d_framed d)) ->
  (exists acc, WriteBuf.holds acc (d_buf d)) -> wpm (credssp_turns fuel sq) (credssp_post cfg key stream d) d.
Proof.
  revert sq d. induction fuel as [|fuel IH]; intros sq d Hf Hi Hp Hb; [destruct Hf; lia|]. cbn [credssp_turns]. unfold cs_inv in Hi.
  destruct (cs_state sq) eqn:Hs; [|by apply wpm_ret|by apply wpm_throw].
  apply wpm_bind, wpm_on_framed. eapply wpm_mono; [by apply (read_hint_spec CredsspTsRequestHint)|].
  intros [e|pdu] f; [by intros _|]. intros ([Hhead Hsay]%credssp_head & Hbs & Hp' & Hm).
  destruct (TsRequest_from_buffer pdu) as [t|] eqn:Ht; [|by split_and!]. apply wpm_bind, wpm_ret.
  destruct (process t (cs_server sq)) as [res server] eqn:Hpr. apply wpm_update. cbn [d_framed d_sequence d_buf d_sent].
  assert (Hc : exists acc, WriteBuf.holds acc (WriteBuf.clear (d_buf d))) by (destruct Hb as [acc Hb]; exists []; by eapply clear_holds).
  destruct (handle_process_result res) as [reply next] eqn:Hr. apply wpm_bind. apply send_reply_spec; [intros e; by split_and!|].
  intros out. cbn [d_framed d_sequence d_buf d_sent].
  eapply wpm_mono; [apply IH|].
  - cbn. destruct Hf as [Hf|[? _]]; [|done]. left. lia.
  - unfold cs_inv. cbn [cs_state cs_server]. destruct res as [rq|account|rq]; cbn in Hr; injection Hr as <- <-; [|eexists _, _, _, _, _; split; [exact Hi|by exists pdu, t]|done].
    eapply exchange_turn; [exact Hi|by exists pdu, t].
  - done.
  - done.
  - intros r d' (H1 & H2 & H3). split_and!; [done..|]. destruct r; [done|]. destruct H3 as (H3 & H4 & H5). split_and!; [done..|].
    cbn in H5. rewrite Hhead. by apply suffix_app_r.
Qed.

Lemma credssp_loop_spec cfg key d :
  bytes_ok (pending (d_framed d)) -> (exists acc, WriteBuf.holds acc (d_buf d)) ->
  wpm (credssp_loop cfg key) (credssp_post cfg key (pending (d_framed d)) d) d.
Proof.
  intros Hp Hb. unfold credssp_loop, cs_init. destruct (CredSspServer_new key (account_password cfg)) as [s|] eqn:Hs; [|by split_and!].
  apply wpm_bind, wpm_ret. unfold wpm, credssp_run. apply credssp_turns_spec; [left; lia| |done|done]. by apply exchange_start.
Qed.

(** ** The connection *)

Section connection.
Context (a0 : Acceptor (P := P)).

(** The driver on its way from [a0]. *)
Definition going (g : bool) (d : Drv) : Prop := drive_ok d /\ served a0 g (d_sequence d).

Lemma going_next g d d' : going g d -> stepped d (inr tt) d' -> rank (a_state (d_sequence d)) <> 4%nat -> going g d'.
Proof.
  intros [_ Hs] (Hok & (_ & _ & Hn) & _) Hr. split; [done|]. apply Hn in Hs. by rewrite no_credssp, orb_false_r in Hs.
Qed.

Definition upgrade_reached (d : Drv) (res : BeginResult) : Prop :=
  (exists r p, a_state (d_sequence d) = AsSecurityUpgrade r p) /\
  res = if SecurityProtocol.is_empty (security (a_config a0)) then Continue else ShouldUpgrade.

Lemma not_terminal (a : Acceptor (P := P)) : (rank (a_state a) < 17)%nat -> a_is_terminal a = false.
Proof. unfold a_is_terminal. destruct (a_state a); cbn; [done..|lia]. Qed.

(** What the client says first on a stream, and anywhere on it. *)
Definition opening (stream : list Z) : Prop := forall frame rest, first_match X224Hint stream frame rest -> request_asked frame.
Definition telling (stream : list Z) : Prop := forall before frame rest, stream = before ++ frame ++ rest -> logon_told frame.
Lemma telling_suffix stream rest : rest `suffix_of` stream -> telling stream -> telling rest.
Proof. intros [k ->] Ht before frame rest' ->. eapply (Ht (k ++ before)). by rewrite <- app_assoc. Qed.

Lemma hears_early d : (rank (a_state (d_sequence d)) <= 3)%nat ->
  (a_state (d_sequence d) = AsInitiationWaitRequest -> opening (pending (d_framed d))) -> hears d.
Proof.
  intros Hr Ho h frame rest Hh Hfm. unfold heard. destruct (a_state (d_sequence d)) eqn:Hst; cbn in Hr; try done; try lia.
  unfold a_next_pdu_hint in Hh. rewrite Hst in Hh. injection Hh as <-. by eapply Ho.
Qed.
Lemma hears_late d : rank (a_state (d_sequence d)) <> 1%nat -> telling (pending (d_framed d)) -> hears d.
Proof.
  intros Hr Ht h frame rest Hh [Hfm%skips_suffix _]. unfold heard. destruct (a_state (d_sequence d)) eqn:Hst; cbn in Hr; try done.
  destruct Hfm as [before Hp]. by eapply Ht.
Qed.

Lemma begin_loop_spec fuel g d :
  (work d < fuel)%nat -> (rank (a_state (d_sequence d)) <= 3)%nat -> going g d ->
  (a_state (d_sequence d) = AsInitiationWaitRequest -> opening (pending (d_framed d))) ->
  wpm (begin_loop fuel) (fun r d' =>
    match r with
    | inr res => going g d' /\ upgrade_reached d' res /\ pending (d_framed d') `suffix_of` pending (d_framed d)
    | inl _ => True
    end) d.
Proof.
  revert d. induction fuel as [|fuel IH]; intros d Hf Hr Hg Ho; [lia|]. cbn [begin_loop]. apply wpm_access.
  destruct (decide (rank (a_state (d_sequence d)) = 3)%nat) as [H3|H3].
  - unfold reached_security_upgrade. destruct (a_state (d_sequence d)) eqn:Hst; cbn in H3; try lia. apply wpm_ret. split; [done|].
    split; [|done]. split; [rewrite Hst; by eexists _, _|]. destruct Hg as [_ [-> _]]. done.
  - replace (reached_security_upgrade (d_sequence d)) with (@None Z)
      by (unfold reached_security_upgrade; destruct (a_state (d_sequence d)); cbn in H3; done).
    apply wpm_bind. pose proof Hg as [Hok _].
    eapply wpm_mono; [apply single_step_spec; [done|apply not_terminal; lia|by apply hears_early]|].
    intros [e|[]] d'; [done|]. intros Hst. pose proof Hst as (_ & _ & Hw & (Hph & _) & Hsuf). specialize (Hph ltac:(lia)).
    eapply wpm_mono; [apply IH; [lia|lia|eapply going_next; [done|done|]; lia|intros Hs; rewrite Hs in Hph; cbn in Hph; lia]|].
    intros [e|res] d''; [done|]. intros (Hgo & Hreached & Hsuf2). split_and!; [done..|by etrans].
Qed.

(** The client goes on past the security upgrade. *)
Definition past_upgrade (d : Drv) : Prop :=
  (5 <= rank (a_state (d_sequence d)))%nat \/ exists r p, a_state (d_sequence d) = AsSecurityUpgrade r p /\ is_hybrid p = false.

Definition result_of (a : Acceptor (P := P)) (result : AcceptorResult (P := P)) : Prop :=
  (get_result a).1 = Some result.

Lemma finalize_loop_spec fuel g d :
  (work d < fuel)%nat -> past_upgrade d -> going g d -> telling (pending (d_framed d)) ->
  wpm (finalize_loop fuel) (fun r _ => match r with inr result => exists a, served a0 g a /\ result_of a result | inl _ => True end) d.
Proof.
  revert d. induction fuel as [|fuel IH]; intros d Hf Hp Hg Htell; [lia|]. cbn [finalize_loop]. apply wpm_access.
  destruct (a_is_terminal (d_sequence d)) eqn:Ht.
  - destruct (get_result (d_sequence d)) as [[result|] a] eqn:Hr.
    + unfold wpm, mbind, Mut_bind, on_acceptor. cbn. exists (d_sequence d). split; [apply Hg|]. unfold result_of. by rewrite Hr.
    + unfold a_is_terminal, get_result in *. by destruct (a_state (d_sequence d)).
  - replace (get_result (d_sequence d)) with (@None (AcceptorResult (P := P)), d_sequence d)
      by (unfold a_is_terminal, get_result in *; by destruct (a_state (d_sequence d))).
    apply wpm_bind. unfold wpm at 1, on_acceptor. replace (mkDriver _ _ _ _) with d by by destruct d.
    apply wpm_bind. eapply wpm_mono; [apply single_step_spec; [apply Hg|done|apply hears_late; [|done]]|].
    { destruct Hp as [Hp|(r & p & Hs & _)]; [lia|]. by rewrite Hs. }
    intros [e|[]] d'; [done|]. intros Hst. pose proof Hst as (_ & (_ & Hrank & _) & Hw & (_ & Hph) & Hsuf).
    apply IH; [lia| | |by eapply telling_suffix].
    + destruct Hp as [Hp|(r & p & Hs & Hy)]; [left; lia|]. left. apply Hph in Hs. rewrite Hy in Hs. rewrite Hs. cbn. lia.
    + eapply going_next; [done|done|]. destruct Hp as [Hp|(r & p & Hs & Hy)]; [lia|]. rewrite Hs. cbn. lia.
Qed.

(** *** The upgrade *)

Lemma mark_upgrade (a : Acceptor (P := P)) r p :
  a_state a = AsSecurityUpgrade r p ->
  mark_security_upgrade_as_done a =
    Some (a_set_state (if is_hybrid p then AsCredssp r p else AsBasicSettingsWaitInitial r p) (a_set_state AsConsumed a)).
Proof.
  intros Hst. unfold mark_security_upgrade_as_done, reached_security_upgrade, forced_step, a_step, get_self, access, modify_self, update, mbind, Mut_bind.
  rewrite Hst. cbn [is_some fst]. rewrite Hst. done.
Qed.
Lemma mark_credssp (a : Acceptor (P := P)) r p :
  a_state a = AsCredssp r p ->
  mark_credssp_as_done a = Some (a_set_state (AsBasicSettingsWaitInitial r p) (a_set_state AsConsumed a)).
Proof.
  intros Hst. unfold mark_credssp_as_done, should_perform_credssp, forced_step, a_step, get_self, access, modify_self, update, mbind, Mut_bind.
  rewrite Hst. cbn [fst]. rewrite Hst. done.
Qed.

(** Without a key there is no CredSSP to negotiate. *)
Lemma no_key_no_hybrid sec r p : public_key_of sec = None -> select_protocol (security_flag sec) r = Some p -> is_hybrid p = false.
Proof.
  intros Hk. unfold select_protocol. rewrite intersection_bits.
  assert (Hf : Z.land (Z.land r (security_flag sec)) SecurityProtocol.HYBRID = 0 /\
    Z.land (Z.land r (security_flag sec)) SecurityProtocol.HYBRID_EX = 0).
  { assert (Hz : Z.land (security_flag sec) SecurityProtocol.HYBRID = 0 /\ Z.land (security_flag sec) SecurityProtocol.HYBRID_EX = 0)
      by by destruct sec.
    rewrite <- !Z.land_assoc. destruct Hz as [-> ->]. by rewrite Z.land_0_r. }
  destruct Hf as [H1 H2]. rewrite !intersects_bits, H1, H2. cbn [negb Z.eqb].
  unfold is_hybrid. rewrite intersects_bits, union_bits. repeat case_match; intros [= <-]; done.
Qed.

Definition keyed (sec : RdpServerSecurity) (stream : list Z) (g : bool) : Prop :=
  g = true -> exists key, public_key_of sec = Some key /\ credssp_proved (a_config a0) key stream.

(** The upgrade is done, on the stream of the session. *)
Definition upgraded (sec : RdpServerSecurity) (stream : list Z) (r : ConnectorError + unit) (d : Drv) : Prop :=
  match r with
  | inr _ => exists g, going g d /\ past_upgrade d /\ keyed sec stream g /\ pending (d_framed d) `suffix_of` stream
  | inl _ => True
  end.

Lemma credssp_spec sec key r p d :
  going false d -> a_state (d_sequence d) = AsCredssp r p -> public_key_of sec = Some key ->
  wpm (accept_credssp key) (upgraded sec (pending (d_framed d))) d.
Proof.
  intros ((Hok & Hp & Hb) & Hs) Hst Hk. unfold accept_credssp, perform_credssp_step, should_perform_credssp, credssp_protocol.
  apply wpm_access. rewrite Hst. apply wpm_access. rewrite Hst. apply wpm_bind, wpm_ret, wpm_bind. unfold wpm at 1, attempt.
  pose proof (credssp_loop_spec (a_config (d_sequence d)) key d Hp Hb) as H. unfold wpm in H.
  destruct (credssp_loop (a_config (d_sequence d)) key d) as [[res d1]|]; [|done]. destruct H as (Hseq & Hb1 & Hres).
  assert (Hend : forall out, let d2 := mkDriver (d_framed d1) (d_sequence d1) (d_buf d1) (d_sent d1 ++ out) in
    wpm match res with inl e => throw e | inr _ => on_acceptor mark_credssp_as_done end (upgraded sec (pending (d_framed d))) d2).
  { intros out d2. destruct res as [e|[]]; [done|]. destruct Hres as (Hp1 & Hproved & Hsuf). unfold wpm, on_acceptor, d2. cbn [d_sequence d_framed d_buf d_sent].
    rewrite (mark_credssp _ r p) by by rewrite Hseq. rewrite Hseq.
    pose proof (next_state (d_sequence d) (AsBasicSettingsWaitInitial r p) Hok I ltac:(rewrite Hst; cbn; lia)) as (Hok' & _ & Hn).
    { unfold should_perform_credssp. rewrite Hst. cbn. intros g [? ?]. split_and!; [done..|]. intros _. apply orb_true_r. }
    exists true. split; [split; [by split_and!|]|].
    - apply Hn in Hs. unfold should_perform_credssp in Hs. rewrite Hst in Hs. exact Hs.
    - split; [left; cbn; lia|]. split; [|done]. intros _. exists key. split; [done|]. destruct Hs as [<- _]. exact Hproved. }
  apply wpm_bind. destruct (intersects p _); [exact (Hend _)|]. specialize (Hend []). rewrite app_nil_r in Hend.
  destruct d1. exact Hend.
Qed.

Lemma upgrade_spec sec r p d :
  going false d -> a_state (d_sequence d) = AsSecurityUpgrade r p -> security (a_config a0) = security_flag sec ->
  wpm (complete_security_upgrade sec) (upgraded sec (pending (d_framed d))) d.
Proof.
  intros ((Hok & Hp & Hb) & Hs) Hst Hsec. unfold complete_security_upgrade. apply wpm_bind. unfold wpm at 1, on_acceptor.
  rewrite (mark_upgrade _ r p) by done. apply wpm_access. cbn [d_sequence].
  set (next := if is_hybrid p then AsCredssp r p else AsBasicSettingsWaitInitial r p).
  set (d1 := mkDriver _ _ _ _).
  assert (Hg1 : going false d1 /\ (is_hybrid p = false -> upgraded sec (pending (d_framed d)) (inr tt) d1)).
  { pose proof (next_state (d_sequence d) next Hok) as (Hok' & _ & Hn).
    - by unfold next; destruct (is_hybrid p).
    - rewrite Hst. unfold next. destruct (is_hybrid p); cbn; lia.
    - unfold should_perform_credssp. rewrite Hst. intros g. rewrite orb_false_r. cbn. intros [? ?].
      unfold next. destruct (is_hybrid p) eqn:Hy; split_and!; try done. by rewrite Hy.
    - assert (Hg : going false d1).
      { split; [by split_and!|]. apply Hn in Hs. unfold should_perform_credssp in Hs. by rewrite Hst in Hs. }
      split; [exact Hg|]. intros Hy. exists false. split; [exact Hg|]. split; [|done]. left.
      unfold d1, next. rewrite Hy. cbn. lia. }
  destruct Hg1 as [Hg1 Hno]. destruct Hs as (Hcfg & _ & _ & Ha). rewrite Hst in Ha. destruct Ha as [_ (rq & _ & Hsel)]. rewrite Hcfg, Hsec in Hsel.
  unfold should_perform_credssp, next. cbn [a_state a_set_state]. destruct (public_key_of sec) as [key|] eqn:Hk.
  - destruct (is_hybrid p) eqn:Hy; [|apply wpm_ret; by apply Hno]. apply (credssp_spec sec key r p d1); [exact Hg1| |exact Hk].
    unfold d1, next. done.
  - apply wpm_ret, Hno. by eapply no_key_no_hybrid.
Qed.

(** *** A connection served *)

Definition tls_ok (tls : TransportTls) : Prop := forall f, tls = Managed (Some f) -> bytes_ok (pending f).
Definition start_ok : Prop :=
  acceptor_ok a0 /\ a_state a0 = AsInitiationWaitRequest /\ a_received a0 = nothing_received.

Lemma served_start : start_ok -> served a0 false a0.
Proof.
  intros (_ & Hst & Hr). split; [done|]. split; [by left|]. unfold tunnel_inv, auth_inv. rewrite Hst, Hr. done.
Qed.

Lemma fresh_pending f : bytes_ok (pending f) -> bytes_ok (pending (fresh_framed f)).
Proof. unfold pending. cbn. intros [_ H]%Forall_app. exact H. Qed.

Lemma empty_flag sec : SecurityProtocol.is_empty (security_flag sec) = true -> public_key_of sec = None.
Proof. destruct sec; cbn [security_flag public_key_of]; rewrite ?union_bits; done. Qed.

(** The stream of the session after the negotiation: what the TLS library makes
    of the bytes the server lets it accept, or what follows on the client's own
    stream. *)
Definition session_stream (sec : RdpServerSecurity) (tls : TransportTls) (f : Framed) (stream : list Z) : Prop :=
  match tls with
  | Managed (Some f') =>
      if SecurityProtocol.is_empty (security_flag sec) then stream `suffix_of` pending f else stream = pending f'
  | _ => stream `suffix_of` pending f
  end.

Definition served_by (sec : RdpServerSecurity) (tls : TransportTls) (f : Framed)
    (r : ConnectorError + option (AcceptorResult (P := P))) (d : Drv) : Prop :=
  match r with
  | inr (Some result) => exists g a stream, session_stream sec tls f stream /\ served a0 g a /\ result_of a result /\ keyed sec stream g
  | _ => True
  end.

Lemma finish_serve_spec sec tls f stream g d :
  going g d -> past_upgrade d -> keyed sec stream g -> session_stream sec tls f stream -> telling (pending (d_framed d)) ->
  wpm (result ← accept_finalize; mret (Some result)) (served_by sec tls f) d.
Proof.
  intros Hg Hp Hk Hstr Ht. apply wpm_bind. unfold wpm at 1, accept_finalize.
  pose proof (finalize_loop_spec (drive_fuel d) g d (work_fuel d) Hp Hg Ht) as H. unfold wpm in H.
  destruct (finalize_loop (drive_fuel d) d) as [[[e|result] d']|]; [done| |done]. destruct H as (a & Hs & Hr). by exists g, a, stream.
Qed.

Lemma serve_spec sec tls f out :
  start_ok -> security (a_config a0) = security_flag sec -> bytes_ok (pending f) -> tls_ok tls ->
  opening (pending f) -> (forall stream, session_stream sec tls f stream -> telling stream) ->
  wpm (serve_connection sec tls) (served_by sec tls f) (mkDriver f a0 WriteBuf.new out).
Proof.
  intros Hstart Hsec Hf Htls Hopen Htell. pose proof Hstart as (Hok & Hst & _). unfold serve_connection, negotiate_and_authenticate.
  set (d := mkDriver f a0 WriteBuf.new out).
  assert (Hg : going false d) by (split; [split; [done|]; split; [done|]; exists []; apply WriteBuf.holds_new|by apply served_start]).
  apply wpm_bind, wpm_bind. unfold wpm at 1, accept_begin.
  pose proof (begin_loop_spec (drive_fuel d) false d (work_fuel d)) as H. unfold wpm in H.
  specialize (H ltac:(cbn [d_sequence d]; rewrite Hst; cbn; lia) Hg (fun _ => Hopen)).
  destruct (begin_loop (drive_fuel d) d) as [[[e|res] d1]|]; [done| |done].
  destruct H as (Hg1 & ((r & p & Hup) & ->) & Hsuf). cbn [d_framed d] in Hsuf. rewrite Hsec.
  assert (Hfin : forall f', bytes_ok (pending f') -> session_stream sec tls f (pending f') ->
    wpm (_ ← set_framed f'; _ ← complete_security_upgrade sec; mret true) (fun r s' => match r with
      | inl e => served_by sec tls f (inl e) s'
      | inr ok => wpm (if (ok : bool) then result ← accept_finalize; mret (Some result) else mret None) (served_by sec tls f) s' end) d1).
  { intros f' Hf' Hstr. apply wpm_update, wpm_bind. eapply wpm_mono.
    - eapply upgrade_spec; [|exact Hup|exact Hsec]. destruct Hg1 as ((H1 & H2 & H3) & H4). by split.
    - intros [e|[]] d2; [done|]. intros (g & Hg2 & Hp2 & Hk2 & Hsuf2). cbn [d_framed] in *.
      apply wpm_ret. eapply finish_serve_spec; [done..|]. eapply telling_suffix; [exact Hsuf2|by apply Htell]. }
  destruct (SecurityProtocol.is_empty (security_flag sec)) eqn:Hempty.
  - assert (Hstr : session_stream sec tls f (pending (d_framed d1))) by (unfold session_stream; rewrite Hempty; by destruct tls as [[]|]).
    apply wpm_ret. apply empty_flag in Hempty as Hk. eapply (finish_serve_spec sec tls f _ false); [exact Hg1| |done|exact Hstr|by apply Htell].
    right. exists r, p. split; [done|]. destruct Hg1 as [_ (Hcfg & _ & _ & Ha)]. rewrite Hup in Ha. destruct Ha as [_ (rq & _ & Hsel)].
    rewrite Hcfg, Hsec in Hsel. by eapply no_key_no_hybrid.
  - destruct tls as [[f'|]|].
    + pose proof (Hfin f' (Htls f' eq_refl)) as H. unfold session_stream in H. rewrite Hempty in H. specialize (H eq_refl).
      destruct sec; [done|exact H..].
    + by destruct sec.
    + apply Hfin; [apply fresh_pending, Hg1|]. cbn [session_stream]. etrans; [|exact Hsuf]. unfold pending. by apply suffix_app_r.
Qed.

End connection.

End drive.
