(* ===== verification/Admission.v ===== *)
(** Who the server lets in: the properties of a whole connection, from the
    server's setup and the client's bytes to the result of the acceptor, and a
    connection run to its end. *)

From S2P Require Import Prelude Timing Cursor Codec Flags Mutation WriteBuf Mcs McsCodec Svc SvcSet Framed Nego NegoCodec Sequence ChannelConnection AutoDetect ConnectTime ShareData ShareCodec Finalization MessageChannel Acceptor AcceptorSteps Accept AcceptProps.

Open Scope Z_scope.

Section admission.
Context {BF : Bitflags} {SB : ShareBodies} {SC : ShareCodecs} {SL : ShareLaws} {ST : SettingsCodecs} {STL : SettingsLaws}
  {P : Type} {SP : SvcProcessor P} {SS : Sspi} {SSL : SspiLaws}.

(** What the server hands to [PendingConnection::new] and [attach_channels]. *)
Record ServerSetup := mkSetup {
  sv_security : RdpServerSecurity;
  sv_desktop : DesktopSize;
  sv_capabilities : list CapabilitySet;
  sv_creds : option Credentials;
  sv_honor : option DesktopSize;
  sv_resolver : option (list Z -> option Credentials);
  sv_multitransport : option MultitransportRequest;
  sv_graphics : bool;
  sv_autodetect : bool;
  sv_channels : list (Z * P);
}.
Definition pending_acceptor (s : ServerSetup) : Acceptor (P := P) :=
  foldr (fun tc a => attach_static_channel tc.1 tc.2 a)
    (PendingConnection_new (sv_security s) (sv_desktop s) (sv_capabilities s) (sv_creds s) (sv_honor s) (sv_resolver s)
      (sv_multitransport s) (sv_graphics s) (sv_autodetect s))
    (sv_channels s).

Definition setup_ok (s : ServerSetup) : Prop :=
  size_ok (sv_desktop s) /\ caps_ok (sv_capabilities s) /\
  forall r, sv_multitransport s = Some r ->
    is_u32 (mtr_request_id r) /\ length (mtr_security_cookie r) = 16%nat /\ bytes_ok (mtr_security_cookie r).

(** Attaching channels touches nothing else. *)
Lemma attach_keeps t (c : P) a :
  acceptor_ok a -> let a' := attach_static_channel t c a in
  acceptor_ok a' /\ a_state a' = a_state a /\ a_config a' = a_config a /\ a_received a' = a_received a /\
  desktop_size (a_settings a') = desktop_size (a_settings a).
Proof.
  intros Hok. unfold attach_static_channel.
  assert (Hset : forall s, set_inv s -> acceptor_ok (a_set_settings (set_static_channels s (a_settings a)) a)).
  { intros s Hs. destruct Hok as (H1 & (H2 & H3 & H4 & H5 & _) & H6). by split_and!. }
  assert (Hins : set_inv (set_insert t c (static_channels (a_settings a))).2) by (apply insert_inv; apply Hok).
  destruct (_ && _); [by split_and!|]. destruct (get_by_channel_name_key _ _) as [[k ch]|]; [destruct (decide _)|].
  all: split_and!; try done; by apply Hset.
Qed.

Lemma pending_ok s : setup_ok s ->
  start_ok (pending_acceptor s) /\ a_config (pending_acceptor s) = mkAcceptorConfig (security_flag (sv_security s)) (sv_graphics s)
    IO_CHANNEL_ID USER_CHANNEL_ID (sv_creds s) false (sv_honor s) (is_some (sv_multitransport s)) (sv_multitransport s) (sv_autodetect s)
    (sv_resolver s) /\ desktop_size (a_settings (pending_acceptor s)) = sv_desktop s.
Proof.
  intros (Hd & Hc & Hm). unfold pending_acceptor. induction (sv_channels s) as [|[t c] channels IH]; cbn [foldr fst snd].
  - split; [|done]. split; [|done]. split; [done|]. split; [|done]. split; [done|]. split; [done|]. split; [done|].
    split; [by repeat (apply Forall_cons; split)|apply set_inv_new].
  - destruct IH as ((Hok & Hst & Hr) & Hcfg & Hds). destruct (attach_keeps t c _ Hok) as (H1 & H2 & H3 & H4 & H5).
    split; [split_and!; [exact H1|by rewrite H2|by rewrite H4]|]. split; [by rewrite H3|by rewrite H5].
Qed.

(** The connection request a stream opens with, after PDUs of another kind. *)
Definition requests (stream : list Z) (request : ConnectionRequest) : Prop :=
  exists frame rest, first_match X224Hint stream frame rest /\ decode (X224 ConnectionRequest) frame = Ok (mkX224 request).
(** A logon on a stream: an MCS Send Data Request that carries a client info. *)
Definition logs_on (stream : list Z) (c : Credentials) : Prop :=
  exists before frame rest p info, stream = before ++ frame ++ rest /\ decode (X224 SendDataRequest) frame = Ok p /\
    decode ClientInfoPdu (sdr_user_data (x224 p)) = Ok info /\ info_credentials info = c.

(** What the client says in a connection. *)
Definition words (s : ServerSetup) (tls : TransportTls) (f : Framed) : ClientWords := {|
  asked protocol := exists request, requests (pending f) request /\ cr_protocol request = protocol;
  told c := exists stream, session_stream (sv_security s) tls f stream /\ logs_on stream c;
|}.

Lemma serve_total s tls f :
  setup_ok s -> bytes_ok (pending f) -> tls_ok tls ->
  exists r d, serve_connection (sv_security s) tls (mkDriver f (pending_acceptor s) WriteBuf.new []) = Some (r, d) /\
    served_by (CW := words s tls f) (pending_acceptor s) (sv_security s) tls f r d.
Proof.
  intros Hs Hf Ht. destruct (pending_ok s Hs) as (Hst & Hcfg & _). apply wpm_run. apply serve_spec; [done| |done|done|..].
  - by rewrite Hcfg.
  - intros frame rest Hfm [p] Hp. exists p. split; [by exists frame, rest|done].
  - intros stream Hstr before frame rest -> p info Hp Hi. eexists. split; [exact Hstr|]. by exists before, frame, rest, p, info.
Qed.

Lemma result_parts (a : Acceptor (P := P)) result :
  result_of a result ->
  (17 <= rank (a_state a))%nat /\ res_credentials result = received_credentials (a_received a) /\
  res_desktop_size result = desktop_size (a_settings a) /\ res_multitransport_request_id result = multitransport_request_sent (a_received a) /\
  res_message_channel_id result = message_channel_id (a_settings a) /\
  res_multitransport_flags result = multitransport_flags (a_settings a).
Proof. unfold result_of, get_result. destruct (a_state a); cbn; try done. by intros [= <-]. Qed.

(** C2: a client is accepted only after the security its own messages agreed on.
    Whatever bytes the client sends and however they are cut, whatever TLS and
    CredSSP come to, serving a connection returns.  When it returns a session,
    the stream opened with a connection request, and the security protocol is
    the one the server's setup selects for the protocols of that request.  If
    that protocol has CredSSP, a CredSSP server set up with the listener's key
    and the server's accounts took the messages at the head of the session's
    stream, one after the other, and said at the last one that the client
    proved its identity.  Otherwise the client sent a logon on the session's
    stream; the session is given its credentials, which are the ones the server
    expects if it expects any.  A server that expects none accepts any logon and
    leaves the check to the session. *)
Theorem accepted_is_authenticated (s : ServerSetup) (tls : TransportTls) (f : Framed) :
  setup_ok s -> bytes_ok (pending f) -> tls_ok tls ->
  exists r d, serve_connection (sv_security s) tls (mkDriver f (pending_acceptor s) WriteBuf.new []) = Some (r, d) /\
    forall result, r = inr (Some result) ->
    exists request p, requests (pending f) request /\
      select_protocol (security_flag (sv_security s)) (cr_protocol request) = Some p /\
      exists stream, session_stream (sv_security s) tls f stream /\
      if is_hybrid p then
        res_credentials result = None /\
        exists key, public_key_of (sv_security s) = Some key /\ credssp_proved (a_config (pending_acceptor s)) key stream
      else exists c, res_credentials result = Some c /\ logs_on stream c /\ forall expected, sv_creds s = Some expected -> expected = c.
Proof.
  intros Hs Hf Ht. destruct (serve_total s tls f Hs Hf Ht) as (r & d & Hrun & Hserved). exists r, d. split; [done|].
  intros result ->. destruct Hserved as (g & a & stream & Hstr & (Hcfg & _ & _ & Ha) & Hres & Hkey). apply result_parts in Hres as (Hrank & Hcr & _).
  destruct (pending_ok s Hs) as (_ & Hcfg0 & _).
  assert (Hau : authenticated (CW := words s tls f) (a_config a) (received_credentials (a_received a)) g)
    by (destruct (a_state a); cbn in Hrank; try lia; exact Ha).
  destruct Hau as (p & (requested & (request & Hreq & <-) & Hsel) & Hp). exists request, p. rewrite Hcr. rewrite Hcfg, Hcfg0 in Hsel.
  split; [exact Hreq|]. split; [exact Hsel|]. destruct (is_hybrid p).
  - destruct Hp as [Hg Hnone]. exists stream. split; [exact Hstr|]. split; [done|]. by apply Hkey.
  - destruct Hp as (c & Hc & (stream' & Hstr' & Hlog) & He). exists stream'. split; [exact Hstr'|]. exists c. split; [done|].
    rewrite Hcfg, Hcfg0 in He. split; [exact Hlog|exact He].
Qed.

(** C12: what an accepted client gets stays within what the server was set up
    with.  The desktop is the server's own, or, if the operator allows clients
    to ask, one within the operator's bound and the legal range.  A tunnel was
    requested only if the server was set up to offer it, and announced it, with
    the id of that offer, and only of a client that has a message channel and
    announced reliable UDP with Soft-Sync. *)
Theorem accepted_within_setup (s : ServerSetup) (tls : TransportTls) (f : Framed) :
  setup_ok s -> bytes_ok (pending f) -> tls_ok tls ->
  exists r d, serve_connection (sv_security s) tls (mkDriver f (pending_acceptor s) WriteBuf.new []) = Some (r, d) /\
    forall result, r = inr (Some result) ->
    (res_desktop_size result = sv_desktop s \/
     exists max, sv_honor s = Some max /\
       MIN_DESKTOP_DIM <= width (res_desktop_size result) <= Z.min MAX_DESKTOP_DIM (width max) /\
       MIN_DESKTOP_DIM <= height (res_desktop_size result) <= Z.min MAX_DESKTOP_DIM (height max)) /\
    forall id, res_multitransport_request_id result = Some id ->
      multitransport_announce (a_config (pending_acceptor s)) = true /\
      exists offer channel, sv_multitransport s = Some offer /\ mtr_request_id offer = id /\
        res_message_channel_id result = Some channel /\
        contains (res_multitransport_flags result)
          (union MultiTransportFlags.TRANSPORT_TYPE_UDP_FECR MultiTransportFlags.SOFT_SYNC_TCP_TO_UDP) = true.
Proof.
  intros Hs Hf Ht. destruct (serve_total s tls f Hs Hf Ht) as (r & d & Hrun & Hserved). exists r, d. split; [done|].
  intros result ->. destruct Hserved as (g & a & stream & _ & (Hcfg & Hd & [Htun _] & _) & Hres & _).
  apply result_parts in Hres as (_ & _ & Hsz & Hid & Hmc & Hfl). destruct (pending_ok s Hs) as (_ & Hcfg0 & Hds).
  rewrite Hsz, Hid, Hmc, Hfl. split.
  - destruct Hd as [[Hd _]|(max & Hh & H1 & H2 & _)]; [left; by rewrite Hd|]. right. exists max. rewrite Hcfg0 in Hh. done.
  - intros id Hsent. rewrite Hsent in Htun. destruct Htun as (offer & channel & Hb & Hi). apply bootstrap_parts in Hb as (Hr & Hc & Hk).
    rewrite Hcfg, Hcfg0 in Hr. cbn in Hr. rewrite Hcfg0. cbn [multitransport_announce]. rewrite Hr. split; [done|]. by exists offer, channel.
Qed.

(** Steps that end well, one after the other, each with an empty buffer. *)
Inductive stepped_to (a : Acceptor (P := P)) : list (list Z * option Z) -> Acceptor (P := P) -> Prop :=
| stepped_none : stepped_to a [] a
| stepped_more steps a1 input at_ w a2 b2 :
    stepped_to a steps a1 -> a_is_terminal a1 = false -> a_step input at_ (a1, WriteBuf.new) = Some (inr w, (a2, b2)) ->
    stepped_to a (steps ++ [(input, at_)]) a2.

Definition any_words : ClientWords := {| asked _ := True; told _ := True |}.
Lemma any_heard st input : heard (CW := any_words) st input.
Proof. by destruct st. Qed.

Lemma stepped_well_formed a steps a' :
  stepped_to a steps a' -> Forall (fun st => bytes_ok st.1) steps -> acceptor_ok a -> acceptor_ok a'.
Proof.
  intros Hto. induction Hto as [|steps a1 input at_ w a2 b2 Hto IH Ht Hrun]; [done|]. intros [Hsteps Hin]%Forall_app Ha.
  apply Forall_cons in Hin as [Hin _].
  pose proof (a_step_spec (CW := any_words) input at_ [] a1 WriteBuf.new (IH Hsteps Ha) Ht Hin WriteBuf.holds_new (any_heard _ _)) as H.
  apply wpm_run in H as (r & [a3 b3] & Hrun' & out & _ & Hr). rewrite Hrun in Hrun'. injection Hrun' as <- <- <-. by destruct Hr as (_ & Hn & _).
Qed.

(** C13: the acceptor is a well-formed state machine whatever the client sends.
    From a fresh acceptor of the server's setup, any sequence of well-typed
    steps (any bytes at any time) that ended well leaves it well formed: fixed
    channel ids, settings and sequences within their ranges, never the consumed
    state.  Every further step, on any bytes and with anything already in the
    output buffer, returns: it adds to the buffer what it says it wrote and the
    acceptor is well formed again, in the same phase or a later one; or it ends
    with an error, and then the acceptor is consumed. *)
Theorem acceptor_well_formed (s : ServerSetup) (steps : list (list Z * option Z)) (a : Acceptor (P := P)) (input : list Z)
    (at_ : option Z) (acc : list Z) (b : WriteBuf.t) :
  setup_ok s -> Forall (fun st => bytes_ok st.1) steps -> stepped_to (pending_acceptor s) steps a ->
  a_is_terminal a = false -> bytes_ok input -> WriteBuf.holds acc b ->
  acceptor_ok a /\
  exists r a' b' out, a_step input at_ (a, b) = Some (r, (a', b')) /\ WriteBuf.holds (acc ++ out) b' /\
    match r with
    | inr w => w = wrote out /\ acceptor_ok a' /\ (rank (a_state a) <= rank (a_state a'))%nat
    | inl _ => a_state a' = AsConsumed
    end.
Proof.
  intros Hs Hsteps Hto Hterm Hi Hb.
  assert (Hok : acceptor_ok a) by (eapply stepped_well_formed; [exact Hto|exact Hsteps|apply (pending_ok s Hs)]).
  split; [exact Hok|]. destruct (wpm_run _ _ _ (a_step_spec (CW := any_words) input at_ acc a b Hok Hterm Hi Hb (any_heard _ _))) as (r & [a' b'] & Hrun & out & Hb' & Hr).
  exists r, a', b', out. split; [exact Hrun|]. split; [exact Hb'|]. destruct r as [e|w]; [exact Hr|].
  destruct Hr as (Hw & Hn & Hrank & _). split; [exact Hw|]. split; [exact Hn|exact Hrank].
Qed.

(** The protocols the acceptor can negotiate, the strongest first *)
Definition preference : list Z := [SecurityProtocol.HYBRID_EX; SecurityProtocol.HYBRID; SecurityProtocol.SSL].

(** C17: the negotiation takes the strongest protocol both sides know: the first
    of HYBRID_EX, HYBRID and SSL that the client asks for and the server is set
    up with, no security at all only from a server without any, and nothing,
    which refuses the client, exactly when there is no common one. *)
Theorem negotiation_takes_strongest (sec requested : Z) :
  select_protocol sec requested =
    match List.filter (fun p => contains sec p && contains requested p) preference with
    | p :: _ => Some p
    | [] => if sec =? 0 then Some 0 else None
    end.
Proof.
  assert (Hbit : forall k, 0 <= k -> intersects (intersection requested sec) (2 ^ k) = contains sec (2 ^ k) && contains requested (2 ^ k)).
  { intros k Hk. rewrite intersects_bits, intersection_bits, !contains_bits.
    assert (Hl : forall x, Z.land x (2 ^ k) = if Z.testbit x k then 2 ^ k else 0).
    { intros x. apply Z.bits_inj'. intros n Hn. rewrite Z.land_spec, Z.pow2_bits_eqb by done. destruct (Z.eqb_spec k n) as [->|Hne].
      - rewrite andb_true_r. destruct (Z.testbit x n); [by rewrite Z.pow2_bits_true|by rewrite Z.bits_0].
      - rewrite andb_false_r. destruct (Z.testbit x k); [rewrite Z.pow2_bits_false by done; done|by rewrite Z.bits_0]. }
    rewrite !Hl, Z.land_spec. assert (2 ^ k <> 0) by (apply Z.pow_nonzero; lia).
    destruct (Z.testbit requested k), (Z.testbit sec k); cbn [andb]; rewrite ?Z.eqb_refl; try done;
      rewrite ?(proj2 (Z.eqb_neq _ _)) by lia; done. }
  unfold select_protocol, preference, SecurityProtocol.is_empty. cbn [List.filter].
  change SecurityProtocol.HYBRID_EX with (2 ^ 3). change SecurityProtocol.HYBRID with (2 ^ 1). change SecurityProtocol.SSL with (2 ^ 0).
  rewrite !Hbit by lia. by repeat destruct (contains sec _ && contains requested _).
Qed.

End admission.

(** ** A connection run to its end *)

(** The interfaces can be met: settings messages of a few bytes, and a CredSSP
    of one message that holds the account and its password. *)
Module DemoServer.
Existing Instance bits_flags.
Existing Instance DemoBodies.bodies.
Existing Instance DemoBodies.codecs.
Existing Instance DemoBodies.laws.

Definition domain_ : DomainParameters := mkDomainParameters 34 3 0 1 0 1 65528 2.
Definition settings : SettingsCodecs := {|
  ConnectInitial_Decode := {| decode_from :=
    _ ← ReadCursor.ensure_size 4; w ← ReadCursor.read_u16; h ← ReadCursor.read_u16;
    mret (mkConnectInitial (mkClientBlocks (Some 0x41) 0x409 4 [] w h None (Some 0x201) true None) domain_ domain_ domain_) |};
  ServerGccBlocks_size _ := 0;
  CONFERENCE_RESPONSE_CONNECT_PDU_SIZE := 13;
  ConnectResponse_Encode := {| encode_into _ := _ ← WriteCursor.ensure_size 2; WriteCursor.write_u16 7; size _ := 2 |};
  ClientInfoPdu_Decode := {| decode_from :=
    _ ← ReadCursor.ensure_size 2; u ← ReadCursor.read_u8; p ← ReadCursor.read_u8;
    mret (mkClientInfo (mkCredentials [u] [p] None) None) |};
  LicensePdu := unit;
  LicensePdu_Encode := {| encode_into _ := _ ← WriteCursor.ensure_size 2; WriteCursor.write_u16 9; size _ := 2 |};
  new_valid_client := Ok tt;
|}.
Existing Instance settings.

Lemma settings_laws : SettingsLaws.
Proof.
  assert (Hw : forall n, encodes (_ ← WriteCursor.ensure_size 2; WriteCursor.write_u16 n) (to_le_bytes 2 n))
    by (intros n; apply encodes_ensure; [by rewrite llen_le|apply encodes_u16]).
  constructor.
  - cbn. sread. change (Z.max 0 4) with (0 + 2 + 2). do 2 sread. apply safe_done; [lia|]. split; [done|]. split; [done|]. split; [done|].
    split; by repeat (apply Forall_cons; split).
  - cbn. sread. change (Z.max 0 2) with (0 + 1 + 1). do 2 sread. by apply safe_done.
  - intros b _. done.
  - intros r _ _ _. exists (to_le_bytes 2 7). split; [split; [apply Hw|done]|]. split; [apply to_le_bytes_ok|]. by rewrite llen_le.
  - exists tt, (to_le_bytes 2 9). split; [done|]. split; [split; [apply Hw|done]|]. split; [apply to_le_bytes_ok|]. by rewrite llen_le.
Qed.

(** A message is its length, the account and the password. *)
Definition sspi : Sspi := {|
  CredSspServer := list Z -> option (list Z);
  TsRequest := Z * Z;
  CredSspServer_new key accounts := Some accounts;
  TsRequest_read_length bs := match bs with [] => Ok None | n :: _ => if 0 <? n then Ok (Some n) else Err (DInvalidField "length" "zero" None) end;
  TsRequest_from_buffer bs := match bs with [_; account; secret] => Some (account, secret) | _ => None end;
  TsRequest_encoded t := Some [3; t.1; t.2];
  process t accounts := (if bool_decide (accounts [t.1] = Some [t.2]) then Finished [t.1] else ServerError None, accounts);
  EarlyUserAuthResult_bytes ok := if ok then [0; 0; 0; 0] else [5; 0; 0; 0];
|}.
Existing Instance sspi.
Lemma sspi_laws : SspiLaws.
Proof.
  intros bs _. unfold CredsspTsRequestHint. cbn. destruct bs as [|n bs]; [done|]. destruct (Z.ltb_spec 0 n); [|done].
  split; [done|]. by intros m k [= _ <-].
Qed.

#[global] Instance no_processor : SvcProcessor Empty_set.
Proof. constructor; intros; try (intros c); repeat match goal with c : Empty_set |- _ => destruct c end. Defined.

Definition encoded {A} `{Encode A} (a : A) : list Z := match encode_vec a with Ok bs => bs | _ => [] end.
Definition sent_on (channel : Z) (data : list Z) : list Z := encoded (mkX224 (mkSendDataRequest 1007 channel data)).
Definition request_for (protocol : Z) : list Z := encoded (mkX224 (mkConnectionRequest None 0 protocol None)).

(** What a client sends after the upgrade: a desktop of 1280 by 1024, the
    channels it joins, its logon, an answer to the offered tunnel, its
    capabilities and the finalization. *)
Definition client : list Z :=
  encoded (mkX224 (mkX224Data [0; 5; 0; 4])) ++ encoded (mkX224 (mkErectDomain 0 0)) ++ encoded (mkX224 mkAttachUserRequest)
  ++ ([1002; 1003; 1004] ≫= fun c => encoded (mkX224 (mkChannelJoinRequest 1007 c)))
  ++ sent_on 1003 [65; 66] ++ sent_on 1004 [4; 0; 0; 0]
  ++ sent_on 1003 (encoded (mkShareControl (PduConfirmActive (mkClientConfirmActive 0 (mkDemandActive EmptyString []))) 1002 0))
  ++ concat demo_finalization.
Definition stream (bs : list Z) : Framed := mkFramed [(1, bs)] 9 [] None.

Definition bitmap (w h : Z) : list CapabilitySet := [CapBitmap (mkBitmap 32 w h true 0)].
Definition tls_setup : ServerSetup (P := Empty_set) :=
  mkSetup SecTls (mkDesktopSize 800 600) (bitmap 800 600) (Some (mkCredentials [65] [66] None)) (Some (mkDesktopSize 1920 1000)) None
    (Some (mkOffer 5 (replicate 16 7))) true false [].
Definition nla_setup : ServerSetup (P := Empty_set) :=
  mkSetup (SecHybridOrTls [1; 2]) (mkDesktopSize 800 600) (bitmap 800 600) (Some (mkCredentials [65] [66] None)) None None None false false [].

Lemma setup_fits s : sv_capabilities s = bitmap 800 600 -> size_ok (sv_desktop s) -> 
  (sv_multitransport s = None \/ sv_multitransport s = Some (mkOffer 5 (replicate 16 7))) -> setup_ok (P := Empty_set) s.
Proof.
  intros Hc Hd Hm. split; [done|]. split; [by rewrite Hc|]. intros r Hr. destruct Hm as [Hm|Hm]; rewrite Hm in Hr; simplify_eq.
  split; [done|]. split; [done|]. by repeat (apply Forall_cons; split).
Qed.

Lemma nla_fits : setup_ok nla_setup.
Proof. apply setup_fits; [reflexivity|split; cbn [nla_setup sv_desktop width height]; width|left; reflexivity]. Qed.
Lemma tls_fits : setup_ok tls_setup.
Proof. apply setup_fits; [reflexivity|split; cbn [tls_setup sv_desktop width height]; width|right; reflexivity]. Qed.

Lemma bytes_checked bs : forallb (fun x => (0 <=? x) && (x <? 256)) bs = true -> bytes_ok bs.
Proof.
  induction bs as [|x bs IH]; [constructor|]. cbn. intros [H Hbs]%andb_true_iff. apply Forall_cons. split; [|by apply IH].
  apply andb_true_iff in H as [H1%Z.leb_le H2%Z.ltb_lt]. done.
Qed.

(** The acceptor after the client's first request. *)
Definition greeted : Acceptor (P := Empty_set) :=
  match a_step (request_for 3) (Some 1) (pending_acceptor tls_setup, WriteBuf.new) with
  | Some (inr _, (a, _)) => a
  | _ => pending_acceptor tls_setup
  end.

End DemoServer.

Section witnesses.
Import DemoServer.

(** A client that proved its account by CredSSP. *)
Lemma accepted_is_authenticated_witness :
  exists result d,
    serve_connection (sv_security nla_setup) (Managed (Some (stream ([3; 65; 66] ++ client))))
      (mkDriver (stream (request_for 11)) (pending_acceptor nla_setup) WriteBuf.new []) = Some (inr (Some result), d) /\
    res_credentials result = None /\ credssp_proved (a_config (pending_acceptor nla_setup)) [1; 2] ([3; 65; 66] ++ client).
Proof.
  destruct (accepted_is_authenticated (STL := settings_laws) (SSL := sspi_laws) nla_setup (Managed (Some (stream ([3; 65; 66] ++ client))))
    (stream (request_for 11)) nla_fits ltac:(apply bytes_checked; vm_compute; reflexivity)
    ltac:(intros f [= <-]; apply bytes_checked; vm_compute; reflexivity)) as (r & d & Hrun & H).
  assert (Hc : match serve_connection (sv_security nla_setup) (Managed (Some (stream ([3; 65; 66] ++ client))))
      (mkDriver (stream (request_for 11)) (pending_acceptor nla_setup) WriteBuf.new [])
    with Some (inr (Some result), _) => res_credentials result = None | _ => False end) by (vm_compute; reflexivity).
  rewrite Hrun in Hc. destruct r as [e|[result|]]; [destruct Hc| |destruct Hc].
  exists result, d. split; [exact Hrun|]. split; [exact Hc|].
  destruct (H result eq_refl) as (request & p & _ & _ & bytes & Hstr & Hp). destruct (is_hybrid p).
  - destruct Hp as (_ & key & Hk & Hproved). injection Hk as <-. cbn [session_stream sv_security nla_setup] in Hstr.
    change (bytes = pending (stream ([3; 65; 66] ++ client))) in Hstr. unfold pending, stream in Hstr. cbn [buf pieces_left fmap list_fmap concat snd] in Hstr.
    rewrite app_nil_r in Hstr. rewrite app_nil_l in Hstr. rewrite Hstr in Hproved. exact Hproved.
  - destruct Hp as (c & Hcr & _). rewrite Hc in Hcr. discriminate Hcr.
Defined.

(** A client over TLS that asked for a desktop higher than the operator's bound
    and was offered a tunnel. *)
Lemma accepted_within_setup_witness :
  exists result d,
    serve_connection (sv_security tls_setup) (Managed (Some (stream client)))
      (mkDriver (stream (request_for 3)) (pending_acceptor tls_setup) WriteBuf.new []) = Some (inr (Some result), d) /\
    res_desktop_size result = mkDesktopSize 1280 1000 /\ res_multitransport_request_id result = Some 5 /\
    multitransport_announce (a_config (pending_acceptor tls_setup)) = true.
Proof.
  destruct (accepted_within_setup (STL := settings_laws) (SSL := sspi_laws) tls_setup (Managed (Some (stream client)))
    (stream (request_for 3)) tls_fits ltac:(apply bytes_checked; vm_compute; reflexivity)
    ltac:(intros f [= <-]; apply bytes_checked; vm_compute; reflexivity)) as (r & d & Hrun & H).
  assert (Hc : match serve_connection (sv_security tls_setup) (Managed (Some (stream client)))
      (mkDriver (stream (request_for 3)) (pending_acceptor tls_setup) WriteBuf.new [])
    with Some (inr (Some result), _) => res_desktop_size result = mkDesktopSize 1280 1000 /\ res_multitransport_request_id result = Some 5
    | _ => False end) by (vm_compute; split; reflexivity).
  rewrite Hrun in Hc. destruct r as [e|[result|]]; [destruct Hc| |destruct Hc].
  destruct Hc as [Hs Hid]. exists result, d. split; [exact Hrun|]. split; [exact Hs|]. split; [exact Hid|].
  destruct (H result eq_refl) as [_ Ht]. destruct (Ht 5 Hid) as [Ha _]. exact Ha.
Defined.

(** The answer to the client's first request, before the upgrade. *)
Lemma acceptor_well_formed_witness :
  stepped_to (pending_acceptor tls_setup) [(request_for 3, Some 1)] greeted /\ acceptor_ok greeted /\
  exists w a' b', a_step [] None (greeted, WriteBuf.new) = Some (inr w, (a', b')) /\ acceptor_ok a' /\
    a_state a' = AsSecurityUpgrade 3 SecurityProtocol.SSL.
Proof.
  assert (Hto : stepped_to (pending_acceptor tls_setup) [(request_for 3, Some 1)] greeted).
  { destruct (a_step (request_for 3) (Some 1) (pending_acceptor tls_setup, WriteBuf.new)) as [[[e|w] [a b]]|] eqn:H;
      [vm_compute in H; discriminate H| |vm_compute in H; discriminate H].
    unfold greeted. rewrite H. eapply (stepped_more _ []); [constructor|reflexivity|exact H]. }
  split; [exact Hto|].
  destruct (acceptor_well_formed (STL := settings_laws) tls_setup [(request_for 3, Some 1)] greeted [] None [] WriteBuf.new tls_fits
    ltac:(apply Forall_cons; split; [apply bytes_checked; vm_compute; reflexivity|constructor]) Hto
    ltac:(vm_compute; reflexivity) ltac:(constructor) WriteBuf.holds_new) as (Hok & r & a' & b' & out & Hrun & _ & Hr).
  split; [exact Hok|].
  assert (Hc : match a_step [] None (greeted, WriteBuf.new) with
    | Some (inr _, (a'', _)) => a_state a'' = AsSecurityUpgrade 3 SecurityProtocol.SSL | _ => False end) by (vm_compute; reflexivity).
  rewrite Hrun in Hc. destruct r as [e|w]; [destruct Hc|]. destruct Hr as (_ & Hok' & _). exists w, a', b'. split; [exact Hrun|]. split; [exact Hok'|exact Hc].
Defined.

(** A client that sends neither a cookie nor a routing token is treated as one
    without a negotiation request, though it asks for a protocol: the refusal
    that says which one the server needs is not even prepared. *)
Lemma request_without_cookie_is_no_negotiation :
  exists a b, a_step (request_for SecurityProtocol.HYBRID) None (pending_acceptor tls_setup, WriteBuf.new) = Some (inr Nothing, (a, b)) /\
    a_state a = AsInitiationSendConfirm SecurityProtocol.HYBRID false.
Proof. eexists _, _. split; [vm_compute; reflexivity|reflexivity]. Qed.

(** The confirm that refuses a client is never sent: the step that writes it
    ends with an error. *)
Lemma refusal_not_sent :
  match serve_connection (sv_security tls_setup) (Managed None)
    (mkDriver (stream (request_for SecurityProtocol.HYBRID)) (pending_acceptor tls_setup) WriteBuf.new []) with
  | Some (inl (CReason _), d) => d_sent d = [] /\ exists out, WriteBuf.filled (E := Empty_set) (d_buf d) = Ok out /\ out <> []
  | _ => False
  end.
Proof. vm_compute. split; [reflexivity|]. eexists. split; [reflexivity|discriminate]. Qed.

(** After an error the acceptor is of no use: another step panics. *)
Lemma step_after_error_panics :
  match a_step [] None (pending_acceptor tls_setup, WriteBuf.new) with
  | Some (inl _, (a, b)) => a_step [] None (a, b) = None
  | _ => False
  end.
Proof. vm_compute. reflexivity. Qed.

End witnesses.
