(* ===== verification/Input.v ===== *)
(** Input of the user: the slow-path Input Event PDU and the fast-path input
    PDU (src/crates/ironrdp-pdu/src/input).  Flag sets keep unknown bits
    ([from_bits_retain]), so a set is its bits. *)

From S2P Require Import Prelude Cursor Codec Flags Crates Mcs ShareData.

Open Scope Z_scope.

Module PointerFlags.
Definition WHEEL_NEGATIVE : Z := 0x0100.
Definition VERTICAL_WHEEL : Z := 0x0200.
Definition HORIZONTAL_WHEEL : Z := 0x0400.
Definition MOVE : Z := 0x0800.
Definition LEFT_BUTTON : Z := 0x1000.
Definition RIGHT_BUTTON : Z := 0x2000.
Definition MIDDLE_BUTTON_OR_WHEEL : Z := 0x4000.
Definition DOWN : Z := 0x8000.
End PointerFlags.
Module PointerXFlags.
Definition DOWN : Z := 0x8000.
Definition BUTTON1 : Z := 0x0001.
Definition BUTTON2 : Z := 0x0002.
End PointerXFlags.
Module PointerRelFlags.
Definition MOVE : Z := 0x0800.
Definition DOWN : Z := 0x8000.
Definition BUTTON1 : Z := 0x1000.
Definition BUTTON2 : Z := 0x2000.
Definition BUTTON3 : Z := 0x4000.
Definition XBUTTON1 : Z := 0x0001.
Definition XBUTTON2 : Z := 0x0002.
End PointerRelFlags.
Module ScanCodeFlags.
Definition EXTENDED : Z := 0x0100.
Definition EXTENDED_1 : Z := 0x0200.
Definition DOWN : Z := 0x4000.
Definition RELEASE : Z := 0x8000.
End ScanCodeFlags.
Module UnicodeFlags.
Definition RELEASE : Z := 0x8000.
End UnicodeFlags.
(** [fast_path::KeyboardFlags] *)
Module KeyboardFlags.
Definition RELEASE : Z := 0x01.
Definition EXTENDED : Z := 0x02.
Definition EXTENDED1 : Z := 0x04.
End KeyboardFlags.
Module SynchronizeFlags.
Definition SCROLL_LOCK : Z := 0x01.
Definition NUM_LOCK : Z := 0x02.
Definition CAPS_LOCK : Z := 0x04.
Definition KANA_LOCK : Z := 0x08.
End SynchronizeFlags.

(** ** Mouse events *)

Record MousePdu := mkMouse {
  m_flags : Z;
  number_of_wheel_rotation_units : Z;
  m_x_position : Z;
  m_y_position : Z;
}.
Record MouseXPdu := mkMouseX { mx_flags : Z; mx_x_position : Z; mx_y_position : Z }.
Record MouseRelPdu := mkMouseRel { mr_flags : Z; mr_x_delta : Z; mr_y_delta : Z }.

Definition WHEEL_ROTATION_START : Z := -256.
Definition WHEEL_ROTATION_END : Z := 255.
Definition MOUSE_PDU_SIZE : Z := 6.

(** A debug build also asserts that the rotation fits nine bits. *)
Definition MousePdu_encode (p : MousePdu) : Encoder unit :=
  _ ← WriteCursor.ensure_size MOUSE_PDU_SIZE;
  let wheel_negative_bit := if number_of_wheel_rotation_units p <? 0 then PointerFlags.WHEEL_NEGATIVE else 0 in
  let wheel_rotations_bits := number_of_wheel_rotation_units p mod 256 in
  let flags := Z.lor (Z.lor (m_flags p) wheel_negative_bit) wheel_rotations_bits in
  _ ← WriteCursor.write_u16 flags;
  _ ← WriteCursor.write_u16 (m_x_position p);
  WriteCursor.write_u16 (m_y_position p).
#[export] Instance MousePdu_Encode : Encode MousePdu := {| encode_into := MousePdu_encode; size _ := MOUSE_PDU_SIZE |}.

Definition MousePdu_decode `{Bitflags} : Decoder MousePdu :=
  _ ← ReadCursor.ensure_size MOUSE_PDU_SIZE;
  flags_raw ← ReadCursor.read_u16;
  let wheel_rotations_bits := flags_raw mod 256 in
  let units :=
    if contains flags_raw PointerFlags.WHEEL_NEGATIVE then wheel_rotations_bits - 0x100 else wheel_rotations_bits in
  x ← ReadCursor.read_u16;
  y ← ReadCursor.read_u16;
  mret (mkMouse flags_raw units x y).
#[export] Instance MousePdu_Decode `{Bitflags} : Decode MousePdu := {| decode_from := MousePdu_decode |}.

#[export] Instance MouseXPdu_Encode : Encode MouseXPdu := {|
  encode_into p :=
    _ ← WriteCursor.ensure_size MOUSE_PDU_SIZE;
    _ ← WriteCursor.write_u16 (mx_flags p);
    _ ← WriteCursor.write_u16 (mx_x_position p);
    WriteCursor.write_u16 (mx_y_position p);
  size _ := MOUSE_PDU_SIZE |}.
#[export] Instance MouseXPdu_Decode : Decode MouseXPdu := {|
  decode_from :=
    _ ← ReadCursor.ensure_size MOUSE_PDU_SIZE;
    flags ← ReadCursor.read_u16;
    x ← ReadCursor.read_u16;
    y ← ReadCursor.read_u16;
    mret (mkMouseX flags x y) |}.

#[export] Instance MouseRelPdu_Encode : Encode MouseRelPdu := {|
  encode_into p :=
    _ ← WriteCursor.ensure_size MOUSE_PDU_SIZE;
    _ ← WriteCursor.write_u16 (mr_flags p);
    _ ← WriteCursor.write_i16 (mr_x_delta p);
    WriteCursor.write_i16 (mr_y_delta p);
  size _ := MOUSE_PDU_SIZE |}.
#[export] Instance MouseRelPdu_Decode : Decode MouseRelPdu := {|
  decode_from :=
    _ ← ReadCursor.ensure_size MOUSE_PDU_SIZE;
    flags ← ReadCursor.read_u16;
    x ← ReadCursor.read_i16;
    y ← ReadCursor.read_i16;
    mret (mkMouseRel flags x y) |}.

(** ** The slow path *)

Record ScanCodePdu := mkScanCode { sc_flags : Z; key_code : Z }.
Record UnicodePdu := mkUnicode { uc_flags : Z; unicode_code : Z }.
Record SyncPdu := mkSync { sync_flags : Z }.
Inductive UnusedPdu := mkUnused.

#[export] Instance ScanCodePdu_Encode : Encode ScanCodePdu := {|
  encode_into p :=
    _ ← WriteCursor.ensure_size 6;
    _ ← WriteCursor.write_u16 (sc_flags p);
    _ ← WriteCursor.write_u16 (key_code p);
    WriteCursor.write_padding 2;
  size _ := 6 |}.
#[export] Instance ScanCodePdu_Decode : Decode ScanCodePdu := {|
  decode_from :=
    _ ← ReadCursor.ensure_size 6;
    flags ← ReadCursor.read_u16;
    code ← ReadCursor.read_u16;
    _ ← ReadCursor.read_padding 2;
    mret (mkScanCode flags code) |}.
#[export] Instance UnicodePdu_Encode : Encode UnicodePdu := {|
  encode_into p :=
    _ ← WriteCursor.ensure_size 6;
    _ ← WriteCursor.write_u16 (uc_flags p);
    _ ← WriteCursor.write_u16 (unicode_code p);
    WriteCursor.write_padding 2;
  size _ := 6 |}.
#[export] Instance UnicodePdu_Decode : Decode UnicodePdu := {|
  decode_from :=
    _ ← ReadCursor.ensure_size 6;
    flags ← ReadCursor.read_u16;
    code ← ReadCursor.read_u16;
    _ ← ReadCursor.read_padding 2;
    mret (mkUnicode flags code) |}.
#[export] Instance SyncPdu_Encode : Encode SyncPdu := {|
  encode_into p := _ ← WriteCursor.ensure_size 6; _ ← WriteCursor.write_padding 2; WriteCursor.write_u32 (sync_flags p);
  size _ := 6 |}.
#[export] Instance SyncPdu_Decode : Decode SyncPdu := {|
  decode_from :=
    _ ← ReadCursor.ensure_size 6; _ ← ReadCursor.read_padding 2; flags ← ReadCursor.read_u32; mret (mkSync flags) |}.
#[export] Instance UnusedPdu_Encode : Encode UnusedPdu := {|
  encode_into _ := _ ← WriteCursor.ensure_size 6; WriteCursor.write_padding 6; size _ := 6 |}.
#[export] Instance UnusedPdu_Decode : Decode UnusedPdu := {|
  decode_from := _ ← ReadCursor.ensure_size 6; _ ← ReadCursor.read_padding 6; mret mkUnused |}.

Module InputEventType.
Inductive t := Sync | Unused | ScanCode | Unicode | Mouse | MouseX | MouseRel.
Definition as_u16 (x : t) : Z :=
  match x with
  | Sync => 0x0000 | Unused => 0x0002 | ScanCode => 0x0004 | Unicode => 0x0005
  | Mouse => 0x8001 | MouseX => 0x8002 | MouseRel => 0x8004
  end.
Definition variants : list t := [Sync; Unused; ScanCode; Unicode; Mouse; MouseX; MouseRel].
Definition from_u16 : Z -> option t := from_discriminant as_u16 variants.
End InputEventType.

Inductive InputEvent :=
| IeSync (p : SyncPdu) | IeUnused (p : UnusedPdu) | IeScanCode (p : ScanCodePdu) | IeUnicode (p : UnicodePdu)
| IeMouse (p : MousePdu) | IeMouseX (p : MouseXPdu) | IeMouseRel (p : MouseRelPdu).
Definition InputEvent_type (e : InputEvent) : InputEventType.t :=
  match e with
  | IeSync _ => InputEventType.Sync | IeUnused _ => InputEventType.Unused | IeScanCode _ => InputEventType.ScanCode
  | IeUnicode _ => InputEventType.Unicode | IeMouse _ => InputEventType.Mouse | IeMouseX _ => InputEventType.MouseX
  | IeMouseRel _ => InputEventType.MouseRel
  end.
Definition INPUT_EVENT_FIXED_PART_SIZE : Z := 6.
Definition InputEvent_size (e : InputEvent) : Z :=
  INPUT_EVENT_FIXED_PART_SIZE +
  match e with
  | IeSync p => size p | IeUnused p => size p | IeScanCode p => size p | IeUnicode p => size p
  | IeMouse p => size p | IeMouseX p => size p | IeMouseRel p => size p
  end.
#[export] Instance InputEvent_Encode : Encode InputEvent := {|
  encode_into e :=
    _ ← WriteCursor.ensure_size INPUT_EVENT_FIXED_PART_SIZE;
    _ ← WriteCursor.write_u32 0;
    _ ← WriteCursor.write_u16 (InputEventType.as_u16 (InputEvent_type e));
    match e with
    | IeSync p => encode_into p | IeUnused p => encode_into p | IeScanCode p => encode_into p | IeUnicode p => encode_into p
    | IeMouse p => encode_into p | IeMouseX p => encode_into p | IeMouseRel p => encode_into p
    end;
  size := InputEvent_size |}.

Record InputEventPdu := mkInputEvents { input_events : list InputEvent }.
Definition InputEventPdu_size (p : InputEventPdu) : Z := 4 + foldr (fun e n => size e + n) 0 (input_events p).
#[export] Instance InputEventPdu_Encode : Encode InputEventPdu := {|
  encode_into p :=
    _ ← WriteCursor.ensure_size (InputEventPdu_size p);
    n ← cast_length_at "input events count" 65535 (llen (input_events p));
    _ ← WriteCursor.write_u16 n;
    _ ← WriteCursor.write_padding 2;
    iter_m encode_into (input_events p);
  size := InputEventPdu_size |}.

Section decoders.
Context {BF : Bitflags}.

#[export] Instance InputEvent_Decode : Decode InputEvent := {|
  decode_from :=
    _ ← ReadCursor.ensure_size INPUT_EVENT_FIXED_PART_SIZE;
    _ ← ReadCursor.read_u32;
    n ← ReadCursor.read_u16;
    event_type ← field_or "eventType" "invalid input event type" (InputEventType.from_u16 n);
    match event_type with
    | InputEventType.Sync => p ← decode_from; mret (IeSync p)
    | InputEventType.Unused => p ← decode_from; mret (IeUnused p)
    | InputEventType.ScanCode => p ← decode_from; mret (IeScanCode p)
    | InputEventType.Unicode => p ← decode_from; mret (IeUnicode p)
    | InputEventType.Mouse => p ← decode_from; mret (IeMouse p)
    | InputEventType.MouseX => p ← decode_from; mret (IeMouseX p)
    | InputEventType.MouseRel => p ← decode_from; mret (IeMouseRel p)
    end |}.
#[export] Instance InputEventPdu_Decode : Decode InputEventPdu := {|
  decode_from :=
    _ ← ReadCursor.ensure_size 4;
    number_of_events ← ReadCursor.read_u16;
    _ ← ReadCursor.read_padding 2;
    events ← repeat_m (Z.to_nat number_of_events) decode_from;
    mret (mkInputEvents events) |}.

End decoders.

(** ** The fast path *)

Record FastPathInputHeader := mkFpHeader { fp_flags : Z; fp_data_length : Z; num_events : Z }.

Module FastpathInputEventType.
Inductive t := ScanCode | Mouse | MouseX | Sync | Unicode | MouseRel | QoeTimestamp.
Definition as_u8 (x : t) : Z :=
  match x with ScanCode => 0 | Mouse => 1 | MouseX => 2 | Sync => 3 | Unicode => 4 | MouseRel => 5 | QoeTimestamp => 6 end.
Definition variants : list t := [ScanCode; Mouse; MouseX; Sync; Unicode; MouseRel; QoeTimestamp].
Definition from_u8 : Z -> option t := from_discriminant as_u8 variants.
End FastpathInputEventType.

Inductive FastPathInputEvent :=
| KeyboardEvent (flags code : Z)
| UnicodeKeyboardEvent (flags code : Z)
| MouseEvent (p : MousePdu)
| MouseEventEx (p : MouseXPdu)
| MouseEventRel (p : MouseRelPdu)
| QoeEvent (stamp : Z)
| SyncEvent (flags : Z).

Definition FastPathInputEvent_size (e : FastPathInputEvent) : Z :=
  1 + match e with
      | KeyboardEvent _ _ => 1
      | UnicodeKeyboardEvent _ _ => 2
      | MouseEvent p => size p
      | MouseEventEx p => size p
      | MouseEventRel p => size p
      | QoeEvent _ => 4
      | SyncEvent _ => 0
      end.

(** Neither more nor fewer than the events the PDU can count *)
Record FastPathInput := mkFastPathInput { fp_events : list FastPathInputEvent }.
Definition MAX_EVENTS : Z := 255.
Definition FastPathInput_new (events : list FastPathInputEvent) : outcome DecodeErrorKind FastPathInput :=
  if (1 <=? llen events) && (llen events <=? MAX_EVENTS) then Ok (mkFastPathInput events)
  else Err (DInvalidField "nEvents" "invalid number of input events" None).
Definition FastPathInput_single (event : FastPathInputEvent) : FastPathInput := mkFastPathInput [event].

Definition FastPathInputHeader_size (h : FastPathInputHeader) : Z :=
  let num_events_length := if num_events h <? 16 then 0 else 1 in
  1 + Per.sizeof_length (fp_data_length h + num_events_length + 1) + num_events_length.

Definition header_of (events : list FastPathInputEvent) : FastPathInputHeader :=
  mkFpHeader 0 (foldr (fun e n => FastPathInputEvent_size e + n) 0 events) (llen events).
Definition FastPathInput_size (p : FastPathInput) : Z :=
  FastPathInputHeader_size (header_of (fp_events p)) + fp_data_length (header_of (fp_events p)).

Section fast_path.
Context {BF : Bitflags} {GF : BitField}.

Definition set_bits_m (v lo hi x : Z) : Encoder Z :=
  match set_bits v lo hi x with Some v' => mret v' | None => crash end.

Definition FastPathInputHeader_encode (h : FastPathInputHeader) : Encoder unit :=
  _ ← WriteCursor.ensure_size (FastPathInputHeader_size h);
  header ← set_bits_m 0 0 2 0;
  header ← (if num_events h <? 16 then set_bits_m header 2 7 (num_events h) else mret header);
  header ← set_bits_m header 6 8 (fp_flags h);
  _ ← WriteCursor.write_u8 header;
  len ← cast_length_at "len" 65535 (fp_data_length h + FastPathInputHeader_size h);
  _ ← Per.write_length len;
  if 15 <? num_events h then WriteCursor.write_u8 (num_events h) else mret tt.

(** The last subtraction wraps. *)
Definition FastPathInputHeader_decode : Decoder FastPathInputHeader :=
  _ ← ReadCursor.ensure_size 1;
  header ← ReadCursor.read_u8;
  let flags := get_bits header 6 8 in
  let num_events := get_bits header 2 6 in
  '(length, sizeof_length) ← map_err_m (fun _ => DOther "perLen") Per.read_length;
  if negb (flags =? 0) then fail_at (DInvalidField "flags" "encryption not supported")
  else
    '(num_events, num_events_length) ←
      (if num_events =? 0 then
         _ ← ReadCursor.ensure_size 1; n ← ReadCursor.read_u8; mret (n, 1)
       else mret (num_events, 0));
    let data_length := wsub64 (wsub64 (wsub64 length sizeof_length) 1) num_events_length in
    mret (mkFpHeader flags data_length num_events).

Definition FastPathInputEvent_encode (e : FastPathInputEvent) : Encoder unit :=
  _ ← WriteCursor.ensure_size (FastPathInputEvent_size e);
  let '(flags, code) :=
    match e with
    | KeyboardEvent flags _ => (flags, FastpathInputEventType.ScanCode)
    | UnicodeKeyboardEvent flags _ => (flags, FastpathInputEventType.Unicode)
    | MouseEvent _ => (0, FastpathInputEventType.Mouse)
    | MouseEventEx _ => (0, FastpathInputEventType.MouseX)
    | MouseEventRel _ => (0, FastpathInputEventType.MouseRel)
    | QoeEvent _ => (0, FastpathInputEventType.QoeTimestamp)
    | SyncEvent flags => (flags, FastpathInputEventType.Sync)
    end in
  header ← set_bits_m 0 0 5 flags;
  header ← set_bits_m header 5 8 (FastpathInputEventType.as_u8 code);
  _ ← WriteCursor.write_u8 header;
  match e with
  | KeyboardEvent _ code => WriteCursor.write_u8 code
  | UnicodeKeyboardEvent _ code => WriteCursor.write_u16 code
  | MouseEvent p => encode_into p
  | MouseEventEx p => encode_into p
  | QoeEvent stamp => WriteCursor.write_u32 stamp
  | _ => mret tt
  end.

Definition FastPathInputEvent_decode : Decoder FastPathInputEvent :=
  _ ← ReadCursor.ensure_size 1;
  header ← ReadCursor.read_u8;
  let flags := get_bits header 0 5 in
  code ← field_or "code" "input event code unsupported" (FastpathInputEventType.from_u8 (get_bits header 5 8));
  match code with
  | FastpathInputEventType.ScanCode =>
      _ ← ReadCursor.ensure_size 1; code ← ReadCursor.read_u8; mret (KeyboardEvent flags code)
  | FastpathInputEventType.Mouse => p ← decode_from; mret (MouseEvent p)
  | FastpathInputEventType.MouseX => p ← decode_from; mret (MouseEventEx p)
  | FastpathInputEventType.MouseRel => p ← decode_from; mret (MouseEventRel p)
  | FastpathInputEventType.Sync => mret (SyncEvent flags)
  | FastpathInputEventType.Unicode =>
      _ ← ReadCursor.ensure_size 2; code ← ReadCursor.read_u16; mret (UnicodeKeyboardEvent flags code)
  | FastpathInputEventType.QoeTimestamp =>
      _ ← ReadCursor.ensure_size 4; code ← ReadCursor.read_u32; mret (QoeEvent code)
  end.

(** [u8::try_from(self.0.len()).expect(..)]: a longer list panics. *)
#[export] Instance FastPathInput_Encode : Encode FastPathInput := {|
  encode_into p :=
    if MAX_EVENTS <? llen (fp_events p) then crash
    else
      _ ← WriteCursor.ensure_size (FastPathInput_size p);
      match fp_events p with
      | [] => fail (EOther "Empty fast-path input")
      | events =>
          _ ← FastPathInputHeader_encode (header_of events);
          iter_m FastPathInputEvent_encode events
      end;
  size := FastPathInput_size |}.
#[export] Instance FastPathInput_Decode : Decode FastPathInput := {|
  decode_from :=
    header ← FastPathInputHeader_decode;
    events ← repeat_m (Z.to_nat (num_events header)) FastPathInputEvent_decode;
    lift (FastPathInput_new events) |}.

End fast_path.
