(* ===== verification/InputCodec.v ===== *)
(** Input PDUs round-trip on both paths, and no byte string makes their
    decoders panic. *)

From S2P Require Import Prelude Cursor Codec Flags Crates WriteBuf Mcs McsCodec AutoDetect ShareData ShareCodec Framed Input.

Open Scope Z_scope.

(** ** Signed 16-bit fields *)

Definition is_i16 (x : Z) : Prop := -32768 <= x < 32768.

Lemma encodes_i16 {E} x : encodes (WriteCursor.write_i16 (E := E) x) (to_le_bytes 2 x).
Proof. apply encodes_write_slice. Qed.

Lemma decodes_i16 {E} x : is_i16 x -> decodes (ReadCursor.read_i16 (E := E)) (to_le_bytes 2 x) x.
Proof.
  intros Hx. eapply decodes_last; [apply decodes_read_array, length_to_le_bytes|].
  rewrite from_to_le_bytes. change (256 ^ Z.of_nat 2) with 65536. unfold is_i16 in Hx.
  replace (to_signed 16 (x mod 65536)) with x; [apply decodes_ret|]. unfold to_signed.
  change (2 ^ (16 - 1)) with 32768. change (2 ^ 16) with 65536. destruct (Z_lt_le_dec x 0).
  - rewrite <- (Z.mod_add x 1), Z.mod_small by lia. destruct (Z.ltb_spec (x + 1 * 65536) 32768); lia.
  - rewrite Z.mod_small by lia. destruct (Z.ltb_spec x 32768); lia.
Qed.

Lemma safe_i16_at {E} n : 2 <= n -> safe n (ReadCursor.read_i16 (E := E)) (n - 2) is_i16.
Proof.
  intros H. replace n with (n - 2 + Z.of_nat 2) at 1 by lia.
  apply (safe_int (n - 2) 2 (fun bs => to_signed 16 (from_le_bytes bs))); [lia|done|].
  intros bs Hl Hb. apply from_le_bytes_range in Hb. unfold llen in Hb. rewrite Hl in Hb. unfold is_i16, to_signed.
  change (256 ^ Z.of_nat 2) with 65536 in Hb. change (2 ^ (16 - 1)) with 32768. change (2 ^ 16) with 65536.
  destruct (Z.ltb_spec (from_le_bytes bs) 32768); lia.
Qed.

(** A set of one flag is contained if its bit is set. *)
Lemma contains_pow2 `{Bitflags} z n : 0 <= n -> contains z (2 ^ n) = Z.testbit z n.
Proof.
  intros Hn. rewrite contains_bits. destruct (Z.testbit z n) eqn:E.
  - apply Z.eqb_eq, Z.bits_inj'. intros m Hm. rewrite Z.land_spec, Z.pow2_bits_eqb by lia. destruct (Z.eqb_spec n m) as [<-|]; [by rewrite E|apply andb_false_r].
  - apply Z.eqb_neq. intros H1. assert (H2 := f_equal (fun w => Z.testbit w n) H1). cbv beta in H2.
    rewrite Z.land_spec, Z.pow2_bits_true, E in H2 by lia. done.
Qed.

(** A decoder followed by a constructor. *)
Lemma safe_fmap {E A B} n m (d : Reader E A) (f : A -> B) (P : A -> Prop) (Q : B -> Prop) :
  safe n d m P -> (forall a, P a -> Q (f a)) -> safe n (x ← d; mret (f x)) m Q.
Proof. intros Hd H. eapply safe_bind; [exact Hd|]. intros a Ha. by apply safe_ret, H. Qed.
Lemma decodes_map {E A B} (d : Reader E A) (f : A -> B) bs a : decodes d bs a -> decodes (x ← d; mret (f x)) bs (f a).
Proof. intros H. eapply decodes_last; [exact H|apply decodes_ret]. Qed.

(** ** Mouse events *)

Section mouse.
Context {BF : Bitflags}.

(** The wheel rotation that the low nine bits of the flags stand for. *)
Definition wheel_units (flags : Z) : Z := if Z.land flags 256 =? 256 then flags mod 256 - 256 else flags mod 256.

Lemma wheel_low flags : wheel_units flags = wheel_units (flags mod 512).
Proof.
  assert (H1 : (flags mod 512) mod 256 = flags mod 256) by zdm.
  assert (H2 : Z.land (flags mod 512) 256 = Z.land flags 256).
  { change 512 with (2 ^ 9). rewrite <- Z.land_ones by lia. by rewrite <- Z.land_assoc. }
  unfold wheel_units. by rewrite H1, H2.
Qed.

(** Nine bits and the rotations -256 to 255 correspond. *)
Lemma wheel_bits r : 0 <= r < 512 -> wheel_units r mod 512 = r /\ -256 <= wheel_units r <= 255.
Proof.
  intros Hr. assert (H := forall_range (fun x => (wheel_units x mod 512 =? x) && (-256 <=? wheel_units x) && (wheel_units x <=? 255)) 512
    ltac:(vm_compute; reflexivity) r Hr). cbv beta in H.
  apply andb_prop in H as [[H1%Z.eqb_eq H2%Z.leb_le]%andb_prop H3%Z.leb_le]. done.
Qed.

Lemma wheel_units_of u flags : -256 <= u <= 255 -> flags mod 512 = u mod 512 -> wheel_units flags = u.
Proof.
  intros Hu Hf. rewrite wheel_low, Hf. destruct (wheel_bits (u mod 512) ltac:(zdm)) as [H1 H2].
  revert H1 H2. generalize (wheel_units (u mod 512)). intros w H1 H2. zdm.
Qed.

(** What the encoder writes for a rotation: the same nine bits. *)
Lemma wheel_written u :
  -256 <= u <= 255 -> Z.lor (if u <? 0 then PointerFlags.WHEEL_NEGATIVE else 0) (u mod 256) = u mod 512.
Proof.
  intros Hu. assert (H := forall_range (fun x => Z.lor (if x - 256 <? 0 then 256 else 0) ((x - 256) mod 256) =? (x - 256) mod 512) 512
    ltac:(vm_compute; reflexivity) (u + 256) ltac:(lia)). cbv beta in H. apply Z.eqb_eq in H.
  by replace (u + 256 - 256) with u in H by lia.
Qed.

Definition mouse_wire (p : MousePdu) : list Z :=
  to_le_bytes 2 (Z.lor (m_flags p) (number_of_wheel_rotation_units p mod 512))
  ++ to_le_bytes 2 (m_x_position p) ++ to_le_bytes 2 (m_y_position p).

Lemma mouse_writes p : -256 <= number_of_wheel_rotation_units p <= 255 -> writes p (mouse_wire p).
Proof.
  intros Hu. split; [|unfold mouse_wire; fixed_size]. unfold encode_into, MousePdu_Encode, MousePdu_encode, mouse_wire.
  apply encodes_ensure; [fixed_size|]. cbv zeta. rewrite <- Z.lor_assoc, wheel_written by done.
  repeat (apply encodes_bind; [apply encodes_u16|]). apply encodes_u16.
Qed.

Lemma mouse_decodes_raw f x y :
  is_u16 f -> is_u16 x -> is_u16 y ->
  decodes MousePdu_decode (to_le_bytes 2 f ++ to_le_bytes 2 x ++ to_le_bytes 2 y) (mkMouse f (wheel_units f) x y).
Proof.
  intros Hf Hx Hy. unfold MousePdu_decode. apply decodes_ensure; [fixed_size|]. dread. dread.
  eapply decodes_last; [by apply decodes_u16|]. cbv zeta. rewrite contains_bits. apply decodes_ret.
Qed.

#[export] Instance Mouse_Framed : FramedCodec MousePdu.
Proof.
  refine {| fc_wf p := is_u16 (m_flags p) /\ m_flags p mod 512 = number_of_wheel_rotation_units p mod 512 /\
      -256 <= number_of_wheel_rotation_units p <= 255 /\ is_u16 (m_x_position p) /\ is_u16 (m_y_position p);
    fc_wire := mouse_wire |}.
  - intros p (_ & _ & Hu & _). by apply mouse_writes.
  - intros p _. repeat (apply Forall_app; split); apply to_le_bytes_ok.
  - intros [f u x y] (Hf & Hb & Hu & Hx & Hy). unfold mouse_wire. cbn [m_flags number_of_wheel_rotation_units m_x_position m_y_position] in *.
    replace (Z.lor f (u mod 512)) with f; [rewrite <- (wheel_units_of u f) by done; by apply mouse_decodes_raw|].
    rewrite <- Hb. change 512 with (2 ^ 9). rewrite <- Z.land_ones by lia. apply Z.bits_inj'. intros n _.
    rewrite Z.lor_spec, Z.land_spec. by destruct (Z.testbit f n), (Z.testbit (Z.ones 9) n).
  - unfold decode_from, MousePdu_Decode, MousePdu_decode. sread. unfold MOUSE_PDU_SIZE. do 3 sread. apply safe_done; [lia|]. cbn.
    rewrite contains_bits. change (if _ : bool then _ else _) with (wheel_units a0). rewrite wheel_low.
    destruct (wheel_bits (a0 mod 512) ltac:(zdm)) as [H3 H4]. split_and!; try done; lia.
Defined.

End mouse.

#[export] Instance MouseX_Framed : FramedCodec MouseXPdu.
Proof.
  refine {| fc_wf p := is_u16 (mx_flags p) /\ is_u16 (mx_x_position p) /\ is_u16 (mx_y_position p);
    fc_wire p := to_le_bytes 2 (mx_flags p) ++ to_le_bytes 2 (mx_x_position p) ++ to_le_bytes 2 (mx_y_position p) |}.
  - intros p _. split; [|fixed_size]. apply encodes_ensure; [fixed_size|]. repeat (apply encodes_bind; [apply encodes_u16|]). apply encodes_u16.
  - intros p _. repeat (apply Forall_app; split); apply to_le_bytes_ok.
  - intros [f x y] (? & ? & ?). apply decodes_ensure; [fixed_size|]. do 2 dread. apply decodes_map. by apply decodes_u16.
  - unfold decode_from, MouseXPdu_Decode. sread. unfold MOUSE_PDU_SIZE. do 3 sread. apply safe_done; [lia|]. cbn in *. tauto.
Defined.

#[export] Instance MouseRel_Framed : FramedCodec MouseRelPdu.
Proof.
  refine {| fc_wf p := is_u16 (mr_flags p) /\ is_i16 (mr_x_delta p) /\ is_i16 (mr_y_delta p);
    fc_wire p := to_le_bytes 2 (mr_flags p) ++ to_le_bytes 2 (mr_x_delta p) ++ to_le_bytes 2 (mr_y_delta p) |}.
  - intros p _. split; [|fixed_size]. apply encodes_ensure; [fixed_size|]. apply encodes_bind; [apply encodes_u16|].
    apply encodes_bind; apply encodes_i16.
  - intros p _. repeat (apply Forall_app; split); apply to_le_bytes_ok.
  - intros [f x y] (? & ? & ?). apply decodes_ensure; [fixed_size|]. dread. eapply decodes_bind; [by apply decodes_i16|].
    apply decodes_map. by apply decodes_i16.
  - unfold decode_from, MouseRelPdu_Decode. sread. unfold MOUSE_PDU_SIZE. sread.
    eapply safe_bind; [apply safe_i16_at; lia|]. intros x Hx. eapply safe_bind; [apply safe_i16_at; lia|]. intros y Hy.
    apply safe_done; [lia|]. cbn in *. tauto.
Defined.

(** ** The slow path *)

(** Flags and a code in six bytes. *)
#[export] Instance ScanCode_Framed : FramedCodec ScanCodePdu.
Proof.
  refine {| fc_wf p := is_u16 (sc_flags p) /\ is_u16 (key_code p);
    fc_wire p := to_le_bytes 2 (sc_flags p) ++ to_le_bytes 2 (key_code p) ++ [0; 0] |}.
  - intros p _. split; [|rewrite !llen_app, !llen_le; done]. apply encodes_ensure; [rewrite !llen_app, !llen_le; done|].
    do 2 (apply encodes_bind; [apply encodes_u16|]). apply (encodes_padding 2).
  - intros p _. do 2 (apply Forall_app; split; [apply to_le_bytes_ok|]). by repeat (apply Forall_cons; split).
  - intros [f c] [? ?]. apply decodes_ensure; [rewrite !llen_app, !llen_le; done|]. do 2 dread.
    eapply decodes_last; [apply (decodes_read_padding [0; 0])|apply decodes_ret].
  - unfold decode_from, ScanCodePdu_Decode. do 4 sread. apply safe_done; [lia|]. cbn in *. tauto.
Defined.
#[export] Instance Unicode_Framed : FramedCodec UnicodePdu.
Proof.
  refine {| fc_wf p := is_u16 (uc_flags p) /\ is_u16 (unicode_code p);
    fc_wire p := to_le_bytes 2 (uc_flags p) ++ to_le_bytes 2 (unicode_code p) ++ [0; 0] |}.
  - intros p _. split; [|rewrite !llen_app, !llen_le; done]. apply encodes_ensure; [rewrite !llen_app, !llen_le; done|].
    do 2 (apply encodes_bind; [apply encodes_u16|]). apply (encodes_padding 2).
  - intros p _. do 2 (apply Forall_app; split; [apply to_le_bytes_ok|]). by repeat (apply Forall_cons; split).
  - intros [f c] [? ?]. apply decodes_ensure; [rewrite !llen_app, !llen_le; done|]. do 2 dread.
    eapply decodes_last; [apply (decodes_read_padding [0; 0])|apply decodes_ret].
  - unfold decode_from, UnicodePdu_Decode. do 4 sread. apply safe_done; [lia|]. cbn in *. tauto.
Defined.
#[export] Instance Sync_Framed : FramedCodec SyncPdu.
Proof.
  refine {| fc_wf p := is_u32 (sync_flags p); fc_wire p := [0; 0] ++ to_le_bytes 4 (sync_flags p) |}.
  - intros p _. split; [|rewrite !llen_app, !llen_le; done]. apply encodes_ensure; [rewrite !llen_app, !llen_le; done|].
    apply encodes_bind; [apply (encodes_padding 2)|apply encodes_u32].
  - intros p _. apply Forall_app. split; [by repeat (apply Forall_cons; split)|apply to_le_bytes_ok].
  - intros [f] ?. apply decodes_ensure; [rewrite !llen_app, !llen_le; done|].
    eapply decodes_bind; [apply (decodes_read_padding [0; 0])|]. apply decodes_map. by apply decodes_u32.
  - unfold decode_from, SyncPdu_Decode. do 3 sread. by apply safe_done.
Defined.
#[export] Instance Unused_Framed : FramedCodec UnusedPdu.
Proof.
  refine {| fc_wf _ := True; fc_wire _ := [0; 0; 0; 0; 0; 0] |}.
  - intros p _. split; [|done]. apply encodes_ensure; [done|]. apply (encodes_padding 6).
  - intros p _. by repeat (apply Forall_cons; split).
  - intros [] _. apply decodes_ensure; [done|]. eapply decodes_last; [apply (decodes_read_padding [0; 0; 0; 0; 0; 0])|apply decodes_ret].
  - unfold decode_from, UnusedPdu_Decode. do 2 sread. by apply safe_done.
Defined.

Section slow_path.
Context {BF : Bitflags}.

Definition event_wf (e : InputEvent) : Prop :=
  match e with
  | IeSync p => fc_wf p | IeUnused p => fc_wf p | IeScanCode p => fc_wf p | IeUnicode p => fc_wf p
  | IeMouse p => fc_wf p | IeMouseX p => fc_wf p | IeMouseRel p => fc_wf p
  end.
Definition event_body (e : InputEvent) : list Z :=
  match e with
  | IeSync p => fc_wire p | IeUnused p => fc_wire p | IeScanCode p => fc_wire p | IeUnicode p => fc_wire p
  | IeMouse p => fc_wire p | IeMouseX p => fc_wire p | IeMouseRel p => fc_wire p
  end.

Lemma input_event_size (e : InputEvent) : size e = 12.
Proof. by destruct e. Qed.

Lemma event_type_from e : InputEventType.from_u16 (InputEventType.as_u16 (InputEvent_type e)) = Some (InputEvent_type e).
Proof. by destruct e. Qed.

#[export] Instance InputEvent_Framed : FramedCodec InputEvent.
Proof.
  refine {| fc_wf := event_wf;
    fc_wire e := to_le_bytes 4 0 ++ to_le_bytes 2 (InputEventType.as_u16 (InputEvent_type e)) ++ event_body e |}.
  - intros e Hw.
    assert (Hb : encodes (match e with
      | IeSync p => encode_into p | IeUnused p => encode_into p | IeScanCode p => encode_into p | IeUnicode p => encode_into p
      | IeMouse p => encode_into p | IeMouseX p => encode_into p | IeMouseRel p => encode_into p end) (event_body e) /\ llen (event_body e) = 6).
    { destruct e; cbn [event_wf event_body] in *; (destruct (fc_writes p Hw) as [He Hs]; split; [exact He|by rewrite <- Hs]). }
    destruct Hb as [Hb Hl]. split; [|rewrite input_event_size, !llen_app, !llen_le; lia].
    apply encodes_ensure; [rewrite !llen_app, !llen_le; unfold INPUT_EVENT_FIXED_PART_SIZE; lia|].
    apply encodes_bind; [apply encodes_u32|]. apply encodes_bind; [apply encodes_u16|exact Hb].
  - intros e Hw. do 2 (apply Forall_app; split; [apply to_le_bytes_ok|]). destruct e; cbn [event_wf event_body] in *; by apply fc_bytes.
  - intros e Hw. apply decodes_ensure; [rewrite !llen_app, !llen_le; pose proof (llen_nonneg (event_body e)); unfold INPUT_EVENT_FIXED_PART_SIZE; lia|].
    dread. eapply decodes_bind; [apply decodes_u16; by destruct e|]. eapply decodes_bind_nil; [apply decodes_field_or, event_type_from|].
    destruct e; cbn [event_wf event_body InputEvent_type] in *; apply decodes_map; by apply fc_decodes.
  - unfold decode_from, InputEvent_Decode. sread. unfold INPUT_EVENT_FIXED_PART_SIZE. do 2 sread.
    eapply safe_bind; [apply (safe_field_or _ _ _ _ (fun _ => True)); done|]. intros t _. apply (safe_more _ 0); [lia|].
    destruct t; (eapply safe_fmap; [apply fc_safe|done]).
Defined.

Lemma input_pdu_size es : InputEventPdu_size (mkInputEvents es) = 4 + llen es * 12.
Proof.
  unfold InputEventPdu_size. cbn [input_events]. f_equal. induction es as [|e es IH]; [done|]. cbn [foldr]. rewrite IH, input_event_size, llen_cons. lia.
Qed.

#[export] Instance InputEventPdu_Framed : FramedCodec InputEventPdu.
Proof.
  refine {| fc_wf p := llen (input_events p) <= 65535 /\ Forall fc_wf (input_events p);
    fc_wire p := to_le_bytes 2 (llen (input_events p)) ++ [0; 0] ++ list_wire (input_events p) |}.
  - intros [es] [Hl Hw]. cbn [input_events] in *. pose proof (llen_nonneg es).
    assert (Hs : InputEventPdu_size (mkInputEvents es) = llen (to_le_bytes 2 (llen es) ++ [0; 0] ++ list_wire es)).
    { rewrite input_pdu_size, !llen_app, llen_le, (llen_list_wire 12 input_event_size) by done. lens. }
    split; [|exact Hs]. apply encodes_ensure; [lia|]. apply encodes_cast_length; [done|].
    apply encodes_bind; [apply encodes_u16|]. apply encodes_bind; [apply (encodes_padding 2)|by apply encodes_list].
  - intros [es] [Hl Hw]. apply Forall_app; split; [apply to_le_bytes_ok|].
    apply Forall_app; split; [by repeat (apply Forall_cons; split)|by apply list_wire_ok].
  - intros [es] [Hl Hw]. cbn [input_events] in *. pose proof (llen_nonneg es).
    apply decodes_ensure; [pose proof (llen_nonneg (list_wire es)); lens|].
    eapply decodes_bind; [apply decodes_u16; width|]. eapply decodes_bind; [apply (decodes_read_padding [0; 0])|].
    eapply decodes_last; [apply decodes_list; [done|unfold llen; lia]|apply decodes_ret].
  - unfold decode_from, InputEventPdu_Decode. do 3 sread. apply (safe_more _ 0); [lia|].
    eapply safe_bind; [apply safe_list|]. intros l [Hl Hw]. apply safe_ret. cbn. split; [|done]. unfold llen. width.
Defined.

End slow_path.

(** ** The fast path *)

Lemma lor_below a b k : 0 <= k -> 0 <= a < 2 ^ k -> 0 <= b < 2 ^ k -> 0 <= Z.lor a b < 2 ^ k.
Proof.
  intros Hk Ha Hb. assert (Hn : 0 <= Z.lor a b) by (apply Z.lor_nonneg; lia). split; [done|].
  assert (H : Z.lor a b = Z.lor a b mod 2 ^ k).
  { rewrite <- Z.land_ones, Z.land_lor_distr_l, !Z.land_ones, !Z.mod_small by lia. done. }
  rewrite H. apply Z.mod_pos_bound. lia.
Qed.

Section fast.
Context {BF : Bitflags} {GF : BitField}.

Lemma encodes_set_bits v lo hi x (k : Z -> Encoder unit) bs :
  0 <= lo < hi -> 0 <= v < 2 ^ lo -> 0 <= x < 2 ^ (hi - lo) -> encodes (k (v + x * 2 ^ lo)) bs ->
  encodes (set_bits_m v lo hi x ≫= k) bs.
Proof. intros Hr Hv Hx Hk. unfold set_bits_m. rewrite set_bits_above by done. exact Hk. Qed.

(** The flags and the type of an event, in its first byte. *)
Definition event_flags (e : FastPathInputEvent) : Z :=
  match e with KeyboardEvent f _ | UnicodeKeyboardEvent f _ | SyncEvent f => f | _ => 0 end.
Definition event_code (e : FastPathInputEvent) : FastpathInputEventType.t :=
  match e with
  | KeyboardEvent _ _ => FastpathInputEventType.ScanCode
  | UnicodeKeyboardEvent _ _ => FastpathInputEventType.Unicode
  | MouseEvent _ => FastpathInputEventType.Mouse
  | MouseEventEx _ => FastpathInputEventType.MouseX
  | MouseEventRel _ => FastpathInputEventType.MouseRel
  | QoeEvent _ => FastpathInputEventType.QoeTimestamp
  | SyncEvent _ => FastpathInputEventType.Sync
  end.
Definition event_head (e : FastPathInputEvent) : Z := event_flags e + FastpathInputEventType.as_u8 (event_code e) * 2 ^ 5.
Definition fp_wire (e : FastPathInputEvent) : list Z :=
  event_head e ::
  match e with
  | KeyboardEvent _ c => [c]
  | UnicodeKeyboardEvent _ c => to_le_bytes 2 c
  | MouseEvent p => mouse_wire p
  | MouseEventEx p => fc_wire p
  | QoeEvent s => to_le_bytes 4 s
  | _ => []
  end.

(** An event that can be sent; a relative mouse event cannot. *)
Definition fp_sendable (e : FastPathInputEvent) : Prop :=
  match e with
  | KeyboardEvent f c => 0 <= f < 32 /\ is_u8 c
  | UnicodeKeyboardEvent f c => 0 <= f < 32 /\ is_u16 c
  | MouseEvent p => is_u16 (m_flags p) /\ -256 <= number_of_wheel_rotation_units p <= 255 /\
      is_u16 (m_x_position p) /\ is_u16 (m_y_position p)
  | MouseEventEx p => fc_wf p
  | MouseEventRel _ => False
  | QoeEvent s => is_u32 s
  | SyncEvent f => 0 <= f < 32
  end.
(** What can be received. *)
Definition fp_wf (e : FastPathInputEvent) : Prop :=
  match e with MouseEvent p => fc_wf p | MouseEventRel p => fc_wf p | _ => fp_sendable e end.

(** What is read: a mouse event with the rotation among its flags. *)
Definition canonical (p : MousePdu) : MousePdu :=
  let flags := Z.lor (m_flags p) (number_of_wheel_rotation_units p mod 512) in
  mkMouse flags (wheel_units flags) (m_x_position p) (m_y_position p).
Definition fp_received (e : FastPathInputEvent) : FastPathInputEvent :=
  match e with MouseEvent p => MouseEvent (canonical p) | _ => e end.

Lemma event_flags_small e : fp_sendable e -> 0 <= event_flags e < 32.
Proof. destruct e; cbn; tauto || lia. Qed.
Lemma event_code_small e : 0 <= FastpathInputEventType.as_u8 (event_code e) < 8.
Proof. destruct e; cbn; lia. Qed.

Lemma fp_size e : fp_sendable e -> FastPathInputEvent_size e = llen (fp_wire e).
Proof.
  intros Hs. unfold fp_wire. rewrite llen_cons. by destruct e.
Qed.

Lemma fp_encodes e : fp_sendable e -> encodes (FastPathInputEvent_encode e) (fp_wire e).
Proof.
  intros Hs. unfold FastPathInputEvent_encode. apply encodes_ensure; [rewrite (fp_size e Hs); lia|].
  pose proof (event_flags_small e Hs) as Hf. pose proof (event_code_small e) as Hc.
  replace (match e with KeyboardEvent f _ => _ | _ => _ end) with (event_flags e, event_code e) by (by destruct e). cbv zeta.
  apply encodes_set_bits; [lia|lia|lia|]. apply encodes_set_bits; [lia|lia|lia|].
  replace (0 + event_flags e * 2 ^ 0 + _ * 2 ^ 5) with (event_head e) by (unfold event_head; lia).
  apply (encodes_bind _ _ [event_head e]); [apply encodes_u8; unfold event_head; width|].
  destruct e; cbn [fp_sendable] in Hs.
  - apply encodes_u8. tauto.
  - apply encodes_u16.
  - apply mouse_writes. tauto.
  - by apply fc_writes.
  - apply encodes_ret.
  - apply encodes_u32.
  - apply encodes_ret.
Qed.

Lemma head_bits f c : 0 <= f < 32 -> 0 <= c < 8 -> get_bits (f + c * 2 ^ 5) 0 5 = f /\ get_bits (f + c * 2 ^ 5) 5 8 = c.
Proof.
  intros Hf Hc. rewrite !get_bits_spec, !Z.shiftr_div_pow2 by lia. change (2 ^ 0) with 1. change (2 ^ 5) with 32.
  change (2 ^ (5 - 0)) with 32. change (2 ^ (8 - 5)) with 8. split; zdm.
Qed.

Lemma code_from t : FastpathInputEventType.from_u8 (FastpathInputEventType.as_u8 t) = Some t.
Proof. by destruct t. Qed.

Lemma fp_decodes e : fp_sendable e -> decodes FastPathInputEvent_decode (fp_wire e) (fp_received e).
Proof.
  intros Hs. pose proof (event_flags_small e Hs) as Hf. pose proof (event_code_small e) as Hc.
  destruct (head_bits _ _ Hf Hc) as [H1 H2]. unfold FastPathInputEvent_decode, fp_wire.
  apply decodes_ensure; [rewrite llen_cons; match goal with |- _ <= 1 + llen ?l => pose proof (llen_nonneg l) end; lia|].
  eapply (decodes_bind _ _ [event_head e]); [apply decodes_u8; unfold event_head; width|]. cbv zeta. change (event_flags e + _) with (event_head e) in H1, H2.
  rewrite H1, H2.
  eapply decodes_bind_nil; [apply decodes_field_or, code_from|].
  destruct e; cbn [event_code event_flags fp_received fp_sendable] in *.
  - apply decodes_ensure; [done|]. apply decodes_map, decodes_u8. tauto.
  - apply decodes_ensure; [by rewrite llen_le|]. apply decodes_map, decodes_u16. tauto.
  - apply decodes_map. destruct Hs as (? & ? & ? & ?). apply mouse_decodes_raw; [|done..]. apply (lor_below _ _ 16); [lia|done|zdm].
  - apply decodes_map. by apply fc_decodes.
  - destruct Hs.
  - apply decodes_ensure; [by rewrite llen_le|]. apply decodes_map. by apply decodes_u32.
  - apply decodes_ret.
Qed.

Lemma fp_safe : safe 0 FastPathInputEvent_decode 0 fp_wf.
Proof.
  unfold FastPathInputEvent_decode. sread. sread. rename a0 into h.
  assert (Hf : 0 <= get_bits h 0 5 < 32) by (rewrite get_bits_spec by lia; apply Z.mod_pos_bound; lia).
  eapply safe_bind; [apply (safe_field_or _ _ _ _ (fun _ => True)); done|]. intros t _. apply (safe_more _ 0); [lia|].
  destruct t.
  - sread. sread. by apply safe_done.
  - eapply safe_fmap; [apply fc_safe|done].
  - eapply safe_fmap; [apply fc_safe|done].
  - by apply safe_ret.
  - sread. sread. by apply safe_done.
  - eapply safe_fmap; [apply fc_safe|done].
  - sread. sread. by apply safe_done.
Qed.

(** *** The header *)

Definition events_wire (es : list FastPathInputEvent) : list Z := es ≫= fp_wire.
Definition counted (es : list FastPathInputEvent) : Prop := 1 <= llen es <= MAX_EVENTS.
Definition count_length (n : Z) : Z := if n <? 16 then 0 else 1.
(** The length of the PDU takes as many bytes as the header left room for. *)
Definition length_fits (es : list FastPathInputEvent) : Prop :=
  fp_data_length (header_of es) + count_length (llen es) + 1 <> 127.
Definition fp_header_wire (es : list FastPathInputEvent) : list Z :=
  [(if llen es <? 16 then llen es else 0) * 4] ++ length_wire (FastPathInput_size (mkFastPathInput es))
  ++ (if 15 <? llen es then [llen es] else []).
Definition fp_pdu_wire (es : list FastPathInputEvent) : list Z := fp_header_wire es ++ events_wire es.

Lemma data_length es : Forall fp_sendable es ->
  fp_data_length (header_of es) = llen (events_wire es) /\ llen es <= fp_data_length (header_of es) <= 7 * llen es.
Proof.
  unfold header_of, events_wire. cbn [fp_data_length]. induction 1 as [|e es He _ [IH1 IH2]]; [done|].
  cbn [foldr]. rewrite bind_cons, llen_app, llen_cons, <- (fp_size e He), <- IH1. split; [done|].
  assert (1 <= FastPathInputEvent_size e <= 7) by (destruct e; cbv; split; discriminate). lia.
Qed.

Lemma input_size es : counted es -> Forall fp_sendable es -> length_fits es ->
  FastPathInput_size (mkFastPathInput es) = llen (fp_pdu_wire es) /\
  FastPathInputHeader_size (header_of es) = llen (fp_header_wire es) /\
  FastPathInput_size (mkFastPathInput es) < 0x8000 /\
  1 <= llen (fp_header_wire es).
Proof.
  intros Hc Hs Hf. destruct (data_length es Hs) as [Hd Hb]. unfold counted, MAX_EVENTS, length_fits, count_length in *.
  unfold fp_pdu_wire, fp_header_wire, FastPathInput_size, FastPathInputHeader_size. cbn [fp_events].
  change (num_events (header_of es)) with (llen es). rewrite !llen_app, <- Hd, llen_length_wire.
  unfold Per.sizeof_length. change (llen [_]) with 1.
  destruct (Z.ltb_spec (llen es) 16), (Z.ltb_spec 15 (llen es)); try lia; change (llen [_]) with 1; change (llen (@nil Z)) with 0;
    repeat (match goal with |- context [0x7f <? ?x] =>
      lazymatch x with context [0x7f <? _] => fail | _ => destruct (Z.ltb_spec 0x7f x) end end); lia.
Qed.

Lemma fp_header_encodes es : counted es -> Forall fp_sendable es -> length_fits es ->
  encodes (FastPathInputHeader_encode (header_of es)) (fp_header_wire es).
Proof.
  intros Hc Hs Hf. destruct (input_size es Hc Hs Hf) as (_ & Hh & Hsz & _). unfold counted, MAX_EVENTS in Hc.
  unfold FastPathInputHeader_encode. apply encodes_ensure; [lia|]. apply encodes_set_bits; [lia..|].
  change (num_events (header_of es)) with (llen es). change (fp_flags (header_of es)) with 0.
  change (fp_data_length (header_of es) + _) with (fp_data_length (header_of es) + FastPathInputHeader_size (header_of es)).
  rewrite (Z.add_comm (fp_data_length _)). change (FastPathInputHeader_size _ + _) with (FastPathInput_size (mkFastPathInput es)).
  pose proof (llen_nonneg (fp_pdu_wire es)) as Hn. destruct (input_size es Hc Hs Hf) as (Ht & _).
  unfold fp_header_wire. destruct (Z.ltb_spec (llen es) 16), (Z.ltb_spec 15 (llen es)); try lia; cbv zeta.
  - apply encodes_set_bits; [lia..|]. apply encodes_set_bits; [lia..|].
    apply (encodes_bind _ _ [llen es * 4]); [replace (llen es * 4) with (0 + 0 * 2 ^ 0 + llen es * 2 ^ 2 + 0 * 2 ^ 6) by lia; apply encodes_u8; width|].
    apply encodes_cast_length; [lia|]. apply encodes_bind; [apply encodes_length; lia|apply encodes_ret].
  - apply (encodes_set_bits 0 6 8 0); [lia..|].
    apply (encodes_bind _ _ [0 * 4]); [by apply encodes_u8|].
    apply encodes_cast_length; [lia|]. apply encodes_bind; [apply encodes_length; lia|]. apply encodes_u8. width.
Qed.


Lemma safe_each {E A} k (d : Reader E A) (P : A -> Prop) : safe 0 d 0 P -> safe 0 (repeat_m k d) 0 (Forall P).
Proof.
  intros Hd. induction k as [|k IH]; cbn [repeat_m]; [apply safe_ret; constructor|].
  eapply safe_bind; [exact Hd|]. intros a Ha. eapply safe_fmap; [exact IH|]. intros l Hl. by constructor.
Qed.
Lemma decodes_repeat_map {E A} (d : Reader E A) (f : A -> list Z) (g : A -> A) xs :
  Forall (fun x => decodes d (f x) (g x)) xs -> decodes (repeat_m (length xs) d) (xs ≫= f) (g <$> xs).
Proof.
  induction 1 as [|x xs Hx _ IH]; [apply decodes_ret|]. cbn [length repeat_m fmap list_fmap]. rewrite bind_cons.
  eapply decodes_bind; [exact Hx|]. eapply decodes_last; [exact IH|]. apply decodes_ret.
Qed.
Lemma header_count n : 0 <= n < 16 -> get_bits (n * 4) 6 8 = 0 /\ get_bits (n * 4) 2 6 = n.
Proof.
  intros Hn. rewrite !get_bits_spec, !Z.shiftr_div_pow2 by lia. change (2 ^ 6) with 64. change (2 ^ 2) with 4.
  change (2 ^ (8 - 6)) with 4. change (2 ^ (6 - 2)) with 16. split; zdm.
Qed.

Lemma fp_header_decodes es : counted es -> Forall fp_sendable es -> length_fits es ->
  decodes FastPathInputHeader_decode (fp_header_wire es) (header_of es).
Proof.
  intros Hc Hs Hf. destruct (input_size es Hc Hs Hf) as (Ht & Hh & Hsz & H1). destruct (data_length es Hs) as [_ Hb].
  unfold counted, MAX_EVENTS in Hc. unfold FastPathInputHeader_decode. apply decodes_ensure; [lia|].
  set (n := if llen es <? 16 then llen es else 0). assert (Hn : 0 <= n < 16) by (unfold n; destruct (Z.ltb_spec (llen es) 16); lia).
  unfold fp_header_wire in *. fold n in Hh, H1 |- *.
  eapply (decodes_bind _ _ [n * 4]); [apply decodes_u8; width|]. cbv zeta. destruct (header_count n Hn) as [-> ->].
  assert (Hpos : 0 <= FastPathInput_size (mkFastPathInput es)) by (rewrite Ht; apply llen_nonneg).
  eapply decodes_bind; [apply decodes_map_err, decodes_length; lia|]. cbn [negb Z.eqb].
  assert (Hwrap : forall l s k, k <= 1 -> 0 <= k -> 1 <= s <= 2 -> s + 1 + k <= l < 0x8000 ->
    wsub64 (wsub64 (wsub64 l s) 1) k = l - s - 1 - k).
  { intros l s k ????. rewrite (wsub64_small l s), (wsub64_small (l - s) 1), wsub64_small by width. done. }
  assert (Hsl : 1 <= Per.sizeof_length (FastPathInput_size (mkFastPathInput es)) <= 2)
    by (unfold Per.sizeof_length; destruct (0x7f <? _); lia).
  assert (Hd : FastPathInput_size (mkFastPathInput es) = FastPathInputHeader_size (header_of es) + fp_data_length (header_of es)) by done.
  rewrite !llen_app, llen_length_wire in Hh. change (llen [_]) with 1 in Hh.
  assert (Hhead : header_of es = mkFpHeader 0 (fp_data_length (header_of es)) (llen es)) by done.
  unfold n in *. clear n. destruct (Z.ltb_spec (llen es) 16), (Z.ltb_spec 15 (llen es)); try lia.
  - rewrite (proj2 (Z.eqb_neq _ _)) by lia. change (llen (@nil Z)) with 0 in Hh. eapply (decodes_bind_nil _ _ [] (llen es, 0)); [apply decodes_ret|].
    rewrite Hwrap by lia. rewrite Hhead. replace (_ - _ - 1 - 0) with (fp_data_length (header_of es)) by lia. apply decodes_ret.
  - change (llen [llen es]) with 1 in Hh. cbn [Z.eqb]. eapply (decodes_last _ _ [llen es] (llen es, 1)).
    { apply decodes_ensure; [done|]. eapply (decodes_last _ _ [llen es]); [apply decodes_u8; width|apply decodes_ret]. }
    rewrite Hwrap by lia. rewrite Hhead. replace (_ - _ - 1 - 1) with (fp_data_length (header_of es)) by lia. apply decodes_ret.
Qed.

Lemma fp_pdu_writes es : counted es -> Forall fp_sendable es -> length_fits es -> writes (mkFastPathInput es) (fp_pdu_wire es).
Proof.
  intros Hc Hs Hf. destruct (input_size es Hc Hs Hf) as (Ht & _). split; [|exact Ht].
  unfold encode_into, FastPathInput_Encode. cbn [fp_events]. unfold counted in Hc. rewrite (proj2 (Z.ltb_ge _ _)) by lia.
  apply encodes_ensure; [lia|]. destruct es as [|e es]; [change (llen []) with 0 in Hc; lia|].
  apply encodes_bind; [by apply fp_header_encodes|]. apply (encodes_iter _ fp_wire). eapply Forall_impl; [exact Hs|]. intros x Hx. by apply fp_encodes.
Qed.

Lemma fp_pdu_decodes es : counted es -> Forall fp_sendable es -> length_fits es ->
  decodes decode_from (fp_pdu_wire es) (mkFastPathInput (fp_received <$> es)).
Proof.
  intros Hc Hs Hf. unfold decode_from, FastPathInput_Decode, fp_pdu_wire. eapply decodes_bind; [by apply fp_header_decodes|].
  change (num_events (header_of es)) with (llen es). eapply decodes_last.
  - replace (Z.to_nat (llen es)) with (length es) by (unfold llen; lia).
    apply (decodes_repeat_map _ fp_wire fp_received). eapply Forall_impl; [exact Hs|]. intros x Hx. by apply fp_decodes.
  - apply decodes_lift. unfold FastPathInput_new. unfold counted in Hc. replace (llen (fp_received <$> es)) with (llen es) by (unfold llen; by rewrite length_fmap).
    by rewrite (proj2 (Z.leb_le _ _)), (proj2 (Z.leb_le _ _)) by lia.
Qed.

Lemma fp_header_safe : safe 0 FastPathInputHeader_decode 0 (fun h => 0 <= num_events h <= 255).
Proof.
  unfold FastPathInputHeader_decode. sread. sread. rename a0 into h. apply (safe_more _ 0); [lia|].
  assert (Hc : 0 <= get_bits h 2 6 < 16) by (rewrite get_bits_spec by lia; apply Z.mod_pos_bound; lia).
  eapply safe_bind; [apply safe_map_err, safe_length|]. intros [l sl] _. destruct (negb _); [apply safe_fail_at|].
  eapply (safe_bind _ 0 _ _ _ (fun r => 0 <= r.1 <= 255)).
  - destruct (Z.eqb_spec (get_bits h 2 6) 0); [|apply safe_ret; cbn; lia]. sread. sread. apply safe_done; [lia|]. cbn. width.
  - intros [n k] Hn. by apply safe_ret.
Qed.

Lemma fp_pdu_safe : safe 0 decode_from 0 (fun p => counted (fp_events p) /\ Forall fp_wf (fp_events p)).
Proof.
  unfold decode_from, FastPathInput_Decode. eapply safe_bind; [apply fp_header_safe|]. intros h Hh.
  eapply safe_bind; [apply (safe_each _ _ fp_wf), fp_safe|]. intros es Hes. unfold FastPathInput_new.
  destruct (Z.leb_spec 1 (llen es)), (Z.leb_spec (llen es) MAX_EVENTS); cbn [andb].
  all: by intros c Hc Hl.
Qed.

Lemma decode_decodes {T} {D : Decode T} bs rest (a : T) : decodes decode_from bs a -> decode T (bs ++ rest) = Ok a.
Proof. intros H. unfold decode, ReadCursor.new. specialize (H [] rest). cbn [app length] in H. by rewrite H. Qed.

(** A PDU that can be sent in front of anything, and its decoding. *)
Lemma sent_and_read {T} {E : Encode T} {D : Decode T} (a a' : T) bs rest :
  writes a bs -> decodes decode_from bs a' ->
  exists out, encode_vec a = Ok out /\ llen out = size a /\ decode T (out ++ rest) = Ok a'.
Proof.
  intros Hw Hd. exists bs. split; [by apply encode_vec_writes|]. split; [symmetry; apply Hw|by apply decode_decodes].
Qed.

(** *** Mouse events as they are sent *)

(** A mouse event whose flags leave the nine bits of the rotation clear, as a
    client builds it, or already say the rotation, as a decoder leaves it. *)
Definition mouse_ok (p : MousePdu) : Prop :=
  is_u16 (m_flags p) /\ -256 <= number_of_wheel_rotation_units p <= 255 /\ is_u16 (m_x_position p) /\ is_u16 (m_y_position p) /\
  (m_flags p mod 512 = 0 \/ m_flags p mod 512 = number_of_wheel_rotation_units p mod 512).
(** The same event with the rotation among its flags. *)
Definition with_rotation (p : MousePdu) : MousePdu :=
  mkMouse (Z.lor (m_flags p) (number_of_wheel_rotation_units p mod 512)) (number_of_wheel_rotation_units p)
    (m_x_position p) (m_y_position p).

Lemma lor_low f r : 0 <= r < 512 -> Z.lor f r mod 512 = Z.lor (f mod 512) r.
Proof.
  intros Hr. rewrite <- (Z.mod_small r 512) at 2 by done. change 512 with (2 ^ 9). rewrite <- !Z.land_ones by lia. apply Z.land_lor_distr_l.
Qed.

Lemma rotation_wf p : mouse_ok p -> fc_wf (with_rotation p).
Proof.
  intros (Hf & Hu & Hx & Hy & Hb). cbn. split; [apply (lor_below _ _ 16); [lia|done|zdm]|]. split; [|done].
  rewrite lor_low by zdm. destruct Hb as [-> | ->]; [apply Z.lor_0_l|apply Z.lor_diag].
Qed.
Lemma rotation_canonical p : mouse_ok p -> canonical p = with_rotation p.
Proof.
  intros Hp. pose proof (rotation_wf p Hp) as (_ & Hb & Hu & _). cbn in Hb, Hu. unfold canonical, with_rotation. cbv zeta.
  by rewrite (wheel_units_of (number_of_wheel_rotation_units p)).
Qed.
Lemma rotation_exact p : fc_wf p -> with_rotation p = p.
Proof.
  destruct p as [f u x y]. intros (_ & Hb & _). cbn [m_flags number_of_wheel_rotation_units] in Hb. unfold with_rotation. cbn. f_equal.
  rewrite <- Hb. change 512 with (2 ^ 9). rewrite <- Z.land_ones by lia. apply Z.bits_inj'. intros n _.
  rewrite Z.lor_spec, Z.land_spec. by destruct (Z.testbit f n), (Z.testbit (Z.ones 9) n).
Qed.
Lemma rotation_encode p : mouse_ok p -> encode_into p = encode_into (with_rotation p).
Proof.
  intros (_ & Hu & _). unfold encode_into, MousePdu_Encode, MousePdu_encode, with_rotation. cbv zeta.
  cbn [m_flags number_of_wheel_rotation_units m_x_position m_y_position].
  by rewrite <- !Z.lor_assoc, !wheel_written, Z.lor_diag by done.
Qed.

(** The slow path. *)
Definition slow_ok (e : InputEvent) : Prop := match e with IeMouse p => mouse_ok p | _ => fc_wf e end.
Definition slow_sent (e : InputEvent) : InputEvent := match e with IeMouse p => IeMouse (with_rotation p) | _ => e end.

Lemma slow_sent_wf e : slow_ok e -> fc_wf (slow_sent e).
Proof. destruct e; try done. apply rotation_wf. Qed.
Lemma slow_sent_encode e : slow_ok e -> encode_into e = encode_into (slow_sent e).
Proof.
  intros He. destruct e; try done. cbn [encode_into InputEvent_Encode slow_sent InputEvent_type]. cbv beta iota.
  by rewrite (rotation_encode p He).
Qed.
Lemma slow_pdu_sent es : Forall slow_ok es -> encode_vec (mkInputEvents es) = encode_vec (mkInputEvents (slow_sent <$> es)) /\
  size (mkInputEvents es) = size (mkInputEvents (slow_sent <$> es)).
Proof.
  intros He. assert (Hi : iter_m encode_into es = iter_m encode_into (slow_sent <$> es)).
  { induction He as [|e es He _ IH]; [done|]. cbn [fmap list_fmap iter_m]. by rewrite IH, (slow_sent_encode e He). }
  assert (Hl : llen (slow_sent <$> es) = llen es) by (unfold llen; by rewrite length_fmap).
  assert (Hs : size (mkInputEvents es) = size (mkInputEvents (slow_sent <$> es)))
    by (unfold size, InputEventPdu_Encode; by rewrite !input_pdu_size, Hl).
  split; [|done]. unfold encode_vec. rewrite <- Hs. cbv zeta. unfold encode, encode_into, InputEventPdu_Encode. cbn [input_events].
  rewrite Hl, <- Hi. unfold size, InputEventPdu_Encode in Hs. by rewrite Hs.
Qed.

(** The fast path. *)
Definition fast_ok (e : FastPathInputEvent) : Prop := match e with MouseEvent p => mouse_ok p | _ => fp_sendable e end.
Definition fast_sent (e : FastPathInputEvent) : FastPathInputEvent :=
  match e with MouseEvent p => MouseEvent (with_rotation p) | _ => e end.

Lemma fast_ok_sendable e : fast_ok e -> fp_sendable e.
Proof. destruct e; try done. intros (? & ? & ? & ? & _). done. Qed.
Lemma fast_received e : fast_ok e -> fp_received e = fast_sent e.
Proof. destruct e; try done. cbn. intros Hp. by rewrite rotation_canonical. Qed.

(** C31: input events reach the other side on both paths.  An Input Event PDU of
    up to 65535 events, and a fast-path input PDU of 1 to 255 events without
    relative mouse events whose length takes as many bytes as its header left
    room for, is encoded in exactly its size and decoded, whatever follows it,
    to the same events: an event that is no mouse event is unchanged, and a mouse
    event keeps its rotation, its position and its flags, to which the nine bits
    that say the rotation are added.  One whose flags already say its rotation,
    as a decoded one does, is unchanged too.  Mouse events are those whose flags
    leave those nine bits clear, as the client builds them, or say the rotation. *)
Theorem input_roundtrip (slow : InputEventPdu) (fast : FastPathInput) (rest : list Z) :
  llen (input_events slow) <= 65535 -> Forall slow_ok (input_events slow) ->
  counted (fp_events fast) -> Forall fast_ok (fp_events fast) -> length_fits (fp_events fast) ->
  (exists out, encode_vec slow = Ok out /\ llen out = size slow /\
    decode InputEventPdu (out ++ rest) = Ok (mkInputEvents (slow_sent <$> input_events slow))) /\
  (exists out, encode_vec fast = Ok out /\ llen out = size fast /\
    decode FastPathInput (out ++ rest) = Ok (mkFastPathInput (fast_sent <$> fp_events fast))) /\
  (forall p : MousePdu, fc_wf p -> with_rotation p = p).
Proof.
  intros Hl Hslow Hc He Hf. split_and!; [| |by apply rotation_exact].
  - destruct slow as [es]. cbn [input_events] in *. destruct (slow_pdu_sent es Hslow) as [-> ->].
    assert (Hw : fc_wf (mkInputEvents (slow_sent <$> es))).
    { split; cbn [input_events]; [unfold llen; by rewrite length_fmap|]. apply Forall_fmap. eapply Forall_impl; [exact Hslow|apply slow_sent_wf]. }
    eapply sent_and_read; [by apply fc_writes|by apply fc_decodes].
  - destruct fast as [es]. cbn [fp_events] in *.
    assert (Hs : Forall fp_sendable es) by (eapply Forall_impl; [exact He|apply fast_ok_sendable]).
    replace (fast_sent <$> es) with (fp_received <$> es); [eapply sent_and_read; [by apply fp_pdu_writes|by apply fp_pdu_decodes]|].
    apply list_fmap_ext. intros i e Hi. apply fast_received. by apply (Forall_lookup_1 _ _ _ _ He Hi).
Qed.

(** The length as the decoder reads it from any two bytes. *)
Lemma decodes_short a : is_u8 a -> Z.land a 0x80 =? 0 = true -> decodes Per.read_length [a] (a, 1).
Proof.
  intros Ha Hl. unfold Per.read_length. eapply (decodes_last _ _ [a] a); [by apply decodes_try_u8|]. cbv beta. rewrite Hl. apply decodes_ret.
Qed.
Lemma decodes_long a b : is_u8 a -> is_u8 b -> Z.land a 0x80 =? 0 = false ->
  decodes Per.read_length [a; b] (Z.shiftl (Z.land a 0xFF7F) 8 mod 65536 + b, 2).
Proof.
  intros Ha Hb Hl. unfold Per.read_length. eapply (decodes_bind _ _ [a] [b] a); [by apply decodes_try_u8|]. cbv beta. rewrite Hl. cbn [negb].
  eapply (decodes_last _ _ [b] b); [by apply decodes_try_u8|]. apply decodes_ret.
Qed.

(** The header read from a frame: what it says is what is left. *)
Lemma framed_header h lw l rest hd c :
  is_u8 h -> bytes_ok rest -> decodes Per.read_length lw (l, llen lw) -> 1 <= llen lw <= 2 ->
  l = 1 + llen lw + llen rest -> l < 0x10000 ->
  FastPathInputHeader_decode (ReadCursor.mk (h :: lw ++ rest) 0) = Ok (hd, c) -> fp_data_length hd = ReadCursor.len c.
Proof.
  intros Hh Hrest Hlw Hsz Hl Hb. unfold FastPathInputHeader_decode. intros Hrun.
  pose proof (decodes_u8 (E := DecodeErrorKind) h Hh [] (lw ++ rest)) as H1. cbn [app length Nat.add] in H1.
  pose proof (decodes_map_err (fun _ => DOther "perLen") _ _ _ Hlw [h] rest) as H2. cbn [app length Nat.add] in H2.
  assert (Hlen : forall n, ReadCursor.len (ReadCursor.mk (h :: lw ++ rest) n) = l - Z.of_nat n)
    by (intros n; unfold ReadCursor.len; cbn; rewrite llen_cons, llen_app; lia).
  pose proof (llen_nonneg rest). unfold mbind, M_bind, ReadCursor.ensure_size at 1 in Hrun. rewrite Hlen in Hrun.
  replace (1 <=? l - Z.of_nat 0) with true in Hrun by (symmetry; apply Z.leb_le; lia). rewrite H1, H2 in Hrun.
  destruct (negb _); [discriminate Hrun|]. destruct (get_bits h 2 6 =? 0).
  - unfold ReadCursor.ensure_size in Hrun. rewrite Hlen in Hrun. destruct (Z.leb_spec 1 (l - Z.of_nat (S (length lw)))) as [Hr|]; [|discriminate Hrun].
    destruct rest as [|x rest]; [change (llen (@nil Z)) with 0 in *; unfold llen in *; lia|]. apply Forall_cons in Hrest as [Hx _].
    pose proof (decodes_u8 (E := DecodeErrorKind) x Hx (h :: lw) rest) as H3. cbn [app length] in H3. rewrite H3 in Hrun.
    injection Hrun as <- <-. rewrite Hlen. cbn [fp_data_length]. rewrite llen_cons in *. pose proof (llen_nonneg rest).
    rewrite (wsub64_small l), (wsub64_small (l - _) 1), wsub64_small by width. unfold llen. lia.
  - injection Hrun as <- <-. rewrite Hlen. cbn [fp_data_length].
    rewrite (wsub64_small l), (wsub64_small (l - _) 1), wsub64_small by width. unfold llen. lia.
Qed.

(** No input makes the server panic, and what it takes for input is
    well formed: no byte string makes the decoders of the slow or the fast path
    panic, and a fast-path PDU that is accepted has 1 to 255 events, each with
    its fields in range.  The length in the header of a PDU that the framed
    reader cut from the stream agrees with what is left of it, so that the
    subtractions that compute it do not wrap. *)
Theorem input_decode_total (bs : list Z) :
  bytes_ok bs ->
  decode InputEventPdu bs <> Panic /\ decode FastPathInput bs <> Panic /\
  (forall p, decode InputEventPdu bs = Ok p -> fc_wf p) /\
  (forall p, decode FastPathInput bs = Ok p -> counted (fp_events p) /\ Forall fp_wf (fp_events p)) /\
  (forall h c, find_size bs = Ok (Some (mkPduInfo Action.FastPath (llen bs))) ->
     FastPathInputHeader_decode (ReadCursor.new bs) = Ok (h, c) -> fp_data_length h = ReadCursor.len c).
Proof.
  intros Hb. destruct (safe_decode _ bs (fc_safe (A := InputEventPdu)) Hb) as [H1 H2]. destruct (safe_decode _ bs fp_pdu_safe Hb) as [H3 H4].
  split_and!; [done..|]. intros hd c Hfind Hrun. destruct bs as [|h bs]; [discriminate Hfind|]. apply Forall_cons in Hb as [Hh Hb].
  cbn [find_size] in Hfind. destruct (Action.from_fp_output_header h) as [e|[]]; [discriminate Hfind| |].
  2:{ destruct (_ <? TpktHeader.SIZE); [discriminate Hfind|]. destruct (TpktHeader.read _) as [[t c']| |]; discriminate Hfind. }
  destruct bs as [|a bs]; [discriminate Hfind|]. apply Forall_cons in Hb as [Ha Hb]. rewrite !llen_cons in Hfind.
  destruct (Z.land a 0x80 =? 0) eqn:Hl; cbn [negb] in Hfind.
  - destruct (_ <? _); [discriminate Hfind|]. injection Hfind as Hfind.
    eapply (framed_header h [a] a bs); [done|done|by apply decodes_short|done|change (llen [a]) with 1; lia|width|exact Hrun].
  - destruct bs as [|b bs]; [discriminate Hfind|]. apply Forall_cons in Hb as [Hb' Hb]. rewrite llen_cons in Hfind.
    destruct (_ <? _); [discriminate Hfind|]. injection Hfind as Hfind.
    eapply (framed_header h [a; b]); [done|done|by apply decodes_long|done| | |exact Hrun]; cbn [length]; change (llen [a; b]) with 2; [lia|].
    assert (H := forall_range (fun x => (0 <=? Z.land x 0xFF7F) && (Z.land x 0xFF7F <? 128)) 256 eq_refl a Ha).
    cbv beta in H. apply andb_prop in H as [H5%Z.leb_le H6%Z.ltb_lt]. rewrite Z.shiftl_mul_pow2 by lia. unfold is_u8 in Hb'. zdm.
Qed.

End fast.

(** ** Input at work *)

#[local] Existing Instances bits_flags shift_bit_field.

Definition a_click : list InputEvent :=
  [IeMouse (mkMouse 0x9000 0 640 480); IeSync (mkSync 4); IeScanCode (mkScanCode 0x8100 0x1D); IeMouseRel (mkMouseRel 0x800 (-3) 7)].
(** A scroll by -120 units as the client builds it, and a press of Control_R *)
Definition a_scroll : list FastPathInputEvent :=
  [MouseEvent (mkMouse 0x200 (-120) 10 20); KeyboardEvent 2 0x1D; SyncEvent 1; QoeEvent 77].

Lemma input_roundtrip_witness :
  exists out, encode_vec (mkFastPathInput a_scroll) = Ok out /\ llen out = 17 /\
    decode FastPathInput (out ++ [1; 2; 3]) =
      Ok (mkFastPathInput [MouseEvent (mkMouse 0x388 (-120) 10 20); KeyboardEvent 2 0x1D; SyncEvent 1; QoeEvent 77]).
Proof.
  destruct (input_roundtrip (mkInputEvents a_click) (mkFastPathInput a_scroll) [1; 2; 3]) as (_ & H & _).
  - vm_compute. discriminate.
  - unfold a_click. repeat (apply Forall_cons; split); [cbn; by (split_and!; try (by left))..|constructor].
  - split; vm_compute; discriminate.
  - unfold a_scroll. repeat (apply Forall_cons; split); [cbn; by (split_and!; try (by left))..|constructor].
  - vm_compute. discriminate.
  - exact H.
Defined.

Lemma input_decode_total_witness :
  decode InputEventPdu [1; 0; 0; 0] <> Panic /\ decode FastPathInput [1; 0; 0; 0] <> Panic.
Proof.
  destruct (input_decode_total [1; 0; 0; 0]) as (H1 & H2 & _).
  - repeat constructor; vm_compute; try discriminate.
  - exact (conj H1 H2).
Defined.

(** A relative mouse event is counted as seven bytes and written as one: what
    is sent is refused on the other side. *)
Lemma relative_mouse_not_sent :
  let p := FastPathInput_single (MouseEventRel (mkMouseRel 0x800 5 (-7))) in
  size p = 9 /\ exists out, encode_vec p = Ok out /\ decode FastPathInput out <> Ok p.
Proof. cbv zeta. split; [reflexivity|]. eexists. split; [vm_compute; reflexivity|vm_compute; discriminate]. Qed.

(** Twenty events that take 125 bytes: the header leaves one byte for a length
    that is written in two, and the last event does not fit. *)
Lemma length_on_the_boundary :
  let es := replicate 17 (MouseEvent (mkMouse 0x800 0 1 1)) ++ replicate 3 (KeyboardEvent 0 0x1E) in
  llen es = 20 /\ match encode_vec (mkFastPathInput es) with Err _ => True | _ => False end.
Proof. cbv zeta. split; [reflexivity|]. vm_compute. done. Qed.
