(* ===== verification/InputFlow.v ===== *)
(** From the user's hands to the server's input handler: the client's database
    of what is held (ironrdp-input lib.rs), the frames its events are sent in
    (ironrdp-session active_stage.rs), and the server's dispatch to the handler
    (ironrdp-server handler.rs and server.rs).

    bitvec's bit arrays are a parameter class with their documented laws. *)

From stdpp Require Import base gmap list sorting.
From S2P Require Import Prelude Cursor Codec Flags Crates WriteBuf Mcs McsCodec PduText Framed Input InputCodec.

Open Scope Z_scope.

(** ** bitvec: arrays *)

Class BitArrays := {
  BitArray : Type;
  (** [a.get(i).as_deref().copied()] *)
  bit_get : BitArray -> Z -> option bool;
  (** [BitArray::ZERO] of [BitArr!(for n)] *)
  ZERO : Z -> BitArray;
  (** [a.replace(i, v)]: the old bit; [None] is the panic of an index out of range *)
  bit_replace : BitArray -> Z -> bool -> option (bool * BitArray);
  (** [a.iter_ones()] *)
  iter_ones : BitArray -> list Z;
  ZERO_bits n i : 0 <= i < n -> bit_get (ZERO n) i = Some false;
  ZERO_only n i : bit_get (ZERO n) i <> Some true;
  bit_replace_spec a i v old : bit_get a i = Some old ->
    exists a', bit_replace a i v = Some (old, a') /\ forall j, bit_get a' j = if j =? i then Some v else bit_get a j;
  bit_replace_none a i v : bit_get a i = None -> bit_replace a i v = None;
  iter_ones_spec a i : i ∈ iter_ones a <-> bit_get a i = Some true;
}.

(** The operations exist: a list of bits. *)
Definition lget (a : list bool) (i : Z) : option bool := if 0 <=? i then a !! Z.to_nat i else None.
Program Definition list_bits : BitArrays := {|
  BitArray := list bool;
  bit_get := lget;
  ZERO n := replicate (Z.to_nat n) false;
  bit_replace a i v := old ← lget a i; Some (old, <[Z.to_nat i := v]> a);
  iter_ones a := filter (fun i => lget a i = Some true) (seqZ 0 (llen a));
|}.
Next Obligation. intros n i H. unfold lget. zcase; [|lia]. apply lookup_replicate. split; [done|lia]. Qed.
Next Obligation. intros n i. unfold lget. zcase; [|done]. intros [? _]%lookup_replicate. done. Qed.
Next Obligation.
  intros a i v old. unfold lget. zcase; [|done]. intros Hi. rewrite Hi. eexists. split; [reflexivity|]. intros j.
  destruct (Z.eqb_spec j i) as [->|Hne].
  - zcase; [|lia]. apply list_lookup_insert_eq, lookup_lt_is_Some. by rewrite Hi.
  - zcase; [|done]. apply list_lookup_insert_ne. lia.
Qed.
Next Obligation. intros a i v. unfold lget. by intros ->. Qed.
Next Obligation.
  intros a i. rewrite list_elem_of_filter, elem_of_seqZ. split; [tauto|]. intros H. split; [done|]. revert H.
  unfold lget, llen. zcase; [|done]. intros Hl%lookup_lt_Some. lia.
Qed.

(** ** The server's input handler *)

Module Handler.
Inductive MouseButton := Left | Right | Middle | X1 | X2.
Inductive KeyboardEvent :=
| Pressed (code : Z) (extended : bool)
| Released (code : Z) (extended : bool)
| UnicodePressed (code : Z)
| UnicodeReleased (code : Z)
| Synchronize (flags : Z).
Inductive MouseEvent :=
| Move (x y : Z)
| Button (x y : Z) (button : MouseButton) (pressed : bool)
| ButtonRel (x y : Z) (button : MouseButton) (pressed : bool)
| VerticalScroll (value : Z)
| HorizontalScroll (value : Z)
| Scroll (x y : Z)
| RelMove (x y : Z).
#[export] Instance MouseButton_eq_dec : EqDecision MouseButton.
Proof. solve_decision. Defined.
#[export] Instance MouseButton_countable : Countable MouseButton.
Proof.
  refine (inj_countable' (fun b => match b with Left => 0 | Right => 1 | Middle => 2 | X1 => 3 | X2 => 4 end%nat)
    (fun n => match n with 0 => Left | 1 => Right | 2 => Middle | 3 => X1 | _ => X2 end%nat) _). by intros [].
Defined.
End Handler.
Export (hints) Handler.

(** The trait: what the embedder is told. *)
Class RdpServerInputHandler (H : Type) := {
  keyboard : Handler.KeyboardEvent -> H -> H;
  mouse : Handler.MouseEvent -> H -> H;
}.

(** ainput's mouse PDU *)
Module Ainput.
Record MousePdu := mkMouse { time : Z; flags : Z; x : Z; y : Z }.
Definition WHEEL : Z := 0x01.
Definition MOVE : Z := 0x04.
Definition DOWN : Z := 0x08.
Definition REL : Z := 0x10.
Definition BUTTON1 : Z := 0x1000.
Definition BUTTON2 : Z := 0x2000.
Definition BUTTON3 : Z := 0x4000.
End Ainput.

Section conversions.
Context {BF : Bitflags}.

(** [From<(u8, fast_path::KeyboardFlags)>] *)
Definition fast_key (key flags : Z) : Handler.KeyboardEvent :=
  let extended := contains flags KeyboardFlags.EXTENDED in
  if contains flags KeyboardFlags.RELEASE then Handler.Released key extended else Handler.Pressed key extended.
(** [From<(u16, fast_path::KeyboardFlags)>] *)
Definition fast_unicode (key flags : Z) : Handler.KeyboardEvent :=
  if contains flags KeyboardFlags.RELEASE then Handler.UnicodeReleased key else Handler.UnicodePressed key.
(** [From<(u16, scan_code::KeyboardFlags)>], which truncates the code *)
Definition slow_key (key flags : Z) : Handler.KeyboardEvent :=
  let extended := contains flags ScanCodeFlags.EXTENDED in
  if contains flags ScanCodeFlags.RELEASE then Handler.Released (key mod 256) extended else Handler.Pressed (key mod 256) extended.
(** [From<(u16, unicode::KeyboardFlags)>] *)
Definition slow_unicode (key flags : Z) : Handler.KeyboardEvent :=
  if contains flags UnicodeFlags.RELEASE then Handler.UnicodeReleased key else Handler.UnicodePressed key.
(** [From<SynchronizeFlags>] and [From<SyncToggleFlags>], which truncates *)
Definition fast_sync (value : Z) : Handler.KeyboardEvent := Handler.Synchronize value.
Definition slow_sync (value : Z) : Handler.KeyboardEvent := Handler.Synchronize (value mod 256).

Definition mouse_event (value : MousePdu) : Handler.MouseEvent :=
  let x := m_x_position value in
  let y := m_y_position value in
  let flags := m_flags value in
  let pressed := contains flags PointerFlags.DOWN in
  if contains flags PointerFlags.VERTICAL_WHEEL then Handler.VerticalScroll (number_of_wheel_rotation_units value)
  else if contains flags PointerFlags.HORIZONTAL_WHEEL then Handler.HorizontalScroll (number_of_wheel_rotation_units value)
  else if contains flags PointerFlags.LEFT_BUTTON then Handler.Button x y Handler.Left pressed
  else if contains flags PointerFlags.RIGHT_BUTTON then Handler.Button x y Handler.Right pressed
  else if contains flags PointerFlags.MIDDLE_BUTTON_OR_WHEEL then Handler.Button x y Handler.Middle pressed
  else Handler.Move x y.

Definition mouse_x_event (value : MouseXPdu) : Handler.MouseEvent :=
  let x := mx_x_position value in
  let y := mx_y_position value in
  let pressed := contains (mx_flags value) PointerXFlags.DOWN in
  if contains (mx_flags value) PointerXFlags.BUTTON1 then Handler.Button x y Handler.X1 pressed
  else if contains (mx_flags value) PointerXFlags.BUTTON2 then Handler.Button x y Handler.X2 pressed
  else Handler.Move x y.

Definition mouse_rel_event (value : MouseRelPdu) : Handler.MouseEvent :=
  let x := mr_x_delta value in
  let y := mr_y_delta value in
  let flags := mr_flags value in
  let pressed := contains flags PointerRelFlags.DOWN in
  if contains flags PointerRelFlags.BUTTON1 then Handler.ButtonRel x y Handler.Left pressed
  else if contains flags PointerRelFlags.BUTTON2 then Handler.ButtonRel x y Handler.Right pressed
  else if contains flags PointerRelFlags.BUTTON3 then Handler.ButtonRel x y Handler.Middle pressed
  else if contains flags PointerRelFlags.XBUTTON1 then Handler.ButtonRel x y Handler.X1 pressed
  else if contains flags PointerRelFlags.XBUTTON2 then Handler.ButtonRel x y Handler.X2 pressed
  else Handler.RelMove x y.

(** [From<ainput::MousePdu>] *)
Definition ainput_event (value : Ainput.MousePdu) : Handler.MouseEvent :=
  let u16_or_0 v := if (0 <=? v) && (v <? 65536) then v else 0 in
  let x := u16_or_0 (Ainput.x value) in
  let y := u16_or_0 (Ainput.y value) in
  let flags := Ainput.flags value in
  let pressed := contains flags Ainput.DOWN in
  if contains flags Ainput.BUTTON1 then Handler.Button x y Handler.Left pressed
  else if contains flags Ainput.BUTTON2 then Handler.Button x y Handler.Right pressed
  else if contains flags Ainput.BUTTON3 then Handler.Button x y Handler.Middle pressed
  else if contains flags Ainput.WHEEL then Handler.Scroll (Ainput.x value) (Ainput.y value)
  else if contains flags Ainput.REL then Handler.RelMove (Ainput.x value) (Ainput.y value)
  else if contains flags Ainput.MOVE then Handler.Move x y
  else Handler.Move 0 0.

Context {H : Type} {IH : RdpServerInputHandler H}.

Definition handle_fastpath_event (event : FastPathInputEvent) (handler : H) : H :=
  match event with
  | KeyboardEvent flags key => keyboard (fast_key key flags) handler
  | UnicodeKeyboardEvent flags key => keyboard (fast_unicode key flags) handler
  | SyncEvent flags => keyboard (fast_sync flags) handler
  | MouseEvent m => mouse (mouse_event m) handler
  | MouseEventEx m => mouse (mouse_x_event m) handler
  | MouseEventRel m => mouse (mouse_rel_event m) handler
  | QoeEvent _ => handler
  end.
Definition handle_fastpath (input : FastPathInput) (handler : H) : H :=
  foldl (fun h e => handle_fastpath_event e h) handler (fp_events input).

Definition handle_slowpath_event (event : InputEvent) (handler : H) : H :=
  match event with
  | IeScanCode k => keyboard (slow_key (key_code k) (sc_flags k)) handler
  | IeUnicode k => keyboard (slow_unicode (unicode_code k) (uc_flags k)) handler
  | IeSync s => keyboard (slow_sync (sync_flags s)) handler
  | IeMouse m => mouse (mouse_event m) handler
  | IeMouseX m => mouse (mouse_x_event m) handler
  | IeMouseRel m => mouse (mouse_rel_event m) handler
  | IeUnused _ => handler
  end.
Definition handle_input_event (input : InputEventPdu) (handler : H) : H :=
  foldl (fun h e => handle_slowpath_event e h) handler (input_events input).

(** The fast-path arm of [dispatch_pdu] *)
Definition dispatch_fastpath `{GF : BitField} (bytes : list Z) (handler : H) : outcome DecodeErrorKind H :=
  input ← decode FastPathInput bytes; Ok (handle_fastpath input handler).

End conversions.

(** ** The client's input database *)

Module Db.
Inductive MouseButton := Left | Middle | Right | X1 | X2.
Definition as_idx (b : MouseButton) : Z := match b with Left => 0 | Middle => 1 | Right => 2 | X1 => 3 | X2 => 4 end.
Definition from_idx (idx : Z) : option MouseButton :=
  match idx with
  | 0 => Some Left | 1 => Some Middle | 2 => Some Right | 3 => Some X1 | 4 => Some X2 | _ => None
  end.
Definition from_web_button (value : Z) : option MouseButton :=
  match value with
  | 0 => Some Left | 1 => Some Middle | 2 => Some Right | 3 => Some X1 | 4 => Some X2 | _ => None
  end.
Definition from_native_button (value : Z) : option MouseButton :=
  match value with
  | 1 => Some Left | 2 => Some Middle | 3 => Some Right | 8 => Some X1 | 9 => Some X2 | _ => None
  end.
End Db.

Record Scancode := mkScancode { code : Z; extended : bool }.
Definition Scancode_from_u8 (extended : bool) (code : Z) : Scancode := mkScancode code extended.
Definition Scancode_from_u16 (scancode : Z) : Scancode :=
  mkScancode (scancode mod 256) (Z.land scancode 0xE000 =? 0xE000).
Definition Scancode_as_idx (s : Scancode) : Z := if extended s then code s + 256 else code s.
Definition Scancode_as_u16 (s : Scancode) : Z := if extended s then Z.lor (code s) 0xE000 else code s.

Record MousePosition := mkPosition { pos_x : Z; pos_y : Z }.
#[export] Instance MousePosition_eq_dec : EqDecision MousePosition.
Proof. solve_decision. Defined.

Inductive Operation :=
| MouseButtonPressed (button : Db.MouseButton)
| MouseButtonReleased (button : Db.MouseButton)
| MouseMove (position : MousePosition)
| WheelRotations (is_vertical : bool) (rotation_units : Z)
| KeyPressed (scancode : Scancode)
| KeyReleased (scancode : Scancode)
| UnicodeKeyPressed (character : Z)
| UnicodeKeyReleased (character : Z).

Inductive MouseButtonFlags := ButtonFlags (flags : Z) | XFlags (flags : Z).
Definition MouseButtonFlags_from (b : Db.MouseButton) : MouseButtonFlags :=
  match b with
  | Db.Left => ButtonFlags PointerFlags.LEFT_BUTTON
  | Db.Middle => ButtonFlags PointerFlags.MIDDLE_BUTTON_OR_WHEEL
  | Db.Right => ButtonFlags PointerFlags.RIGHT_BUTTON
  | Db.X1 => XFlags PointerXFlags.BUTTON1
  | Db.X2 => XFlags PointerXFlags.BUTTON2
  end.

Section database.
Context {BF : Bitflags} {BA : BitArrays}.

Record Database := mkDatabase {
  unicode_keyboard_state : gset Z;
  db_keyboard : BitArray;
  mouse_buttons : BitArray;
  mouse_position : MousePosition;
}.
Definition Database_new : Database := mkDatabase ∅ (ZERO 512) (ZERO 5) (mkPosition 0 0).

Definition is_unicode_key_pressed (db : Database) (character : Z) : bool :=
  bool_decide (character ∈ unicode_keyboard_state db).
Definition is_key_pressed (db : Database) (s : Scancode) : bool :=
  default false (bit_get (db_keyboard db) (Scancode_as_idx s)).
Definition is_mouse_button_pressed (db : Database) (b : Db.MouseButton) : bool :=
  default false (bit_get (mouse_buttons db) (Db.as_idx b)).

Definition set_unicode (s : gset Z) (db : Database) : Database :=
  mkDatabase s (db_keyboard db) (mouse_buttons db) (mouse_position db).
Definition set_keyboard (a : BitArray) (db : Database) : Database :=
  mkDatabase (unicode_keyboard_state db) a (mouse_buttons db) (mouse_position db).
Definition set_buttons (a : BitArray) (db : Database) : Database :=
  mkDatabase (unicode_keyboard_state db) (db_keyboard db) a (mouse_position db).
Definition set_position (p : MousePosition) (db : Database) : Database :=
  mkDatabase (unicode_keyboard_state db) (db_keyboard db) (mouse_buttons db) p.

(** The event of a button going down or up at a position *)
Definition button_event (button : Db.MouseButton) (down : bool) (p : MousePosition) : FastPathInputEvent :=
  match MouseButtonFlags_from button with
  | ButtonFlags flags =>
      MouseEvent (mkMouse (if down then union PointerFlags.DOWN flags else flags) 0 (pos_x p) (pos_y p))
  | XFlags flags =>
      MouseEventEx (mkMouseX (if down then union PointerXFlags.DOWN flags else flags) (pos_x p) (pos_y p))
  end.
Definition unicode_events (flags character : Z) : list FastPathInputEvent :=
  (fun unit => UnicodeKeyboardEvent flags unit) <$> utf16_char character.
Definition clamp (v lo hi : Z) : Z := Z.max lo (Z.min v hi).

(** One turn of the loop of [apply]; [None] is a panic. *)
Definition apply_operation (operation : Operation) (db : Database) : option (list FastPathInputEvent * Database) :=
  match operation with
  | MouseButtonPressed button =>
      '(was_pressed, a) ← bit_replace (mouse_buttons db) (Db.as_idx button) true;
      Some (if was_pressed : bool then [] else [button_event button true (mouse_position db)], set_buttons a db)
  | MouseButtonReleased button =>
      '(was_pressed, a) ← bit_replace (mouse_buttons db) (Db.as_idx button) false;
      Some (if was_pressed : bool then [button_event button false (mouse_position db)] else [], set_buttons a db)
  | MouseMove position =>
      Some (if bool_decide (position = mouse_position db) then ([], db)
            else ([MouseEvent (mkMouse PointerFlags.MOVE 0 (pos_x position) (pos_y position))], set_position position db))
  | WheelRotations is_vertical rotation_units =>
      Some ([MouseEvent (mkMouse (if is_vertical then PointerFlags.VERTICAL_WHEEL else PointerFlags.HORIZONTAL_WHEEL)
               (clamp rotation_units WHEEL_ROTATION_START WHEEL_ROTATION_END)
               (pos_x (mouse_position db)) (pos_y (mouse_position db)))], db)
  | KeyPressed scancode =>
      '(was_pressed, a) ← bit_replace (db_keyboard db) (Scancode_as_idx scancode) true;
      let flags := if extended scancode then union 0 KeyboardFlags.EXTENDED else 0 in
      Some ((if was_pressed : bool then [KeyboardEvent (union flags KeyboardFlags.RELEASE) (code scancode)] else [])
            ++ [KeyboardEvent flags (code scancode)], set_keyboard a db)
  | KeyReleased scancode =>
      '(was_pressed, a) ← bit_replace (db_keyboard db) (Scancode_as_idx scancode) false;
      let flags := if extended scancode then union KeyboardFlags.RELEASE KeyboardFlags.EXTENDED else KeyboardFlags.RELEASE in
      Some (if was_pressed : bool then [KeyboardEvent flags (code scancode)] else [], set_keyboard a db)
  | UnicodeKeyPressed character =>
      let was_pressed := is_unicode_key_pressed db character in
      Some ((if was_pressed then unicode_events KeyboardFlags.RELEASE character else []) ++ unicode_events 0 character,
            set_unicode ({[character]} ∪ unicode_keyboard_state db) db)
  | UnicodeKeyReleased character =>
      let was_pressed := is_unicode_key_pressed db character in
      Some (if was_pressed then unicode_events KeyboardFlags.RELEASE character else [],
            set_unicode (unicode_keyboard_state db ∖ {[character]}) db)
  end.

Fixpoint apply (transaction : list Operation) (db : Database) : option (list FastPathInputEvent * Database) :=
  match transaction with
  | [] => Some ([], db)
  | operation :: rest =>
      '(events, db) ← apply_operation operation db;
      '(more, db) ← apply rest db;
      Some (events ++ more, db)
  end.

(** The release of the key at an index of the bit array *)
Definition key_release (idx : Z) : option FastPathInputEvent :=
  if 256 <=? idx then
    if idx - 256 <? 256 then Some (KeyboardEvent (union KeyboardFlags.RELEASE KeyboardFlags.EXTENDED) (idx - 256)) else None
  else if idx <? 256 then Some (KeyboardEvent KeyboardFlags.RELEASE idx) else None.

Definition release_all (db : Database) : option (list FastPathInputEvent * Database) :=
  buttons ← mapM (fun idx => b ← Db.from_idx idx; Some (button_event b false (mouse_position db))) (iter_ones (mouse_buttons db));
  keys ← mapM key_release (iter_ones (db_keyboard db));
  let characters := merge_sort Z.le (elements (unicode_keyboard_state db)) in
  Some (buttons ++ keys ++ (characters ≫= unicode_events KeyboardFlags.RELEASE),
        mkDatabase ∅ (ZERO 512) (ZERO 5) (mouse_position db)).

Definition synchronize_event (scroll_lock num_lock caps_lock kana_lock : bool) : FastPathInputEvent :=
  let flags := 0 in
  let flags := if scroll_lock then union flags SynchronizeFlags.SCROLL_LOCK else flags in
  let flags := if num_lock then union flags SynchronizeFlags.NUM_LOCK else flags in
  let flags := if caps_lock then union flags SynchronizeFlags.CAPS_LOCK else flags in
  let flags := if kana_lock then union flags SynchronizeFlags.KANA_LOCK else flags in
  SyncEvent flags.

(** ** Sending *)

(** The frames of [process_fastpath_input] *)
Fixpoint frames_of `{GF : BitField} (pieces : list (list FastPathInputEvent)) :
    outcome (DecodeErrorKind + EncodeErrorKind) (list (list Z)) :=
  match pieces with
  | [] => Ok []
  | event_chunk :: rest =>
      fastpath_input ← map_err inl (FastPathInput_new event_chunk);
      frame ← map_err inr (encode_vec fastpath_input);
      frames ← frames_of rest;
      Ok (frame :: frames)
  end.
Definition process_fastpath_input `{GF : BitField} (events : list FastPathInputEvent) :
    outcome (DecodeErrorKind + EncodeErrorKind) (list (list Z)) :=
  match events with [] => Ok [] | _ => frames_of (chunks (Z.to_nat MAX_EVENTS) events) end.

(** ** The two ends *)

(** What the user does: a transaction, or a release of everything. *)
Inductive Gesture := Transaction (ops : list Operation) | ReleaseAll.
Definition gesture (g : Gesture) (db : Database) : option (list FastPathInputEvent * Database) :=
  match g with Transaction ops => apply ops db | ReleaseAll => release_all db end.

(** The frames reach the server, which tells its handler. *)
Fixpoint serve `{GF : BitField} {H} {IH : RdpServerInputHandler H} (frames : list (list Z)) (handler : H) : outcome DecodeErrorKind H :=
  match frames with
  | [] => Ok handler
  | frame :: rest => handler ← dispatch_fastpath frame handler; serve rest handler
  end.

(** A session of gestures: the client's database and the server's handler at
    the end of it; [None] if anything on the way panics or fails. *)
Fixpoint input_session `{GF : BitField} {H} {IH : RdpServerInputHandler H} (gs : list Gesture) (db : Database) (handler : H) :
    option (Database * H) :=
  match gs with
  | [] => Some (db, handler)
  | g :: rest =>
      '(events, db) ← gesture g db;
      frames ← match process_fastpath_input events with Ok fs => Some fs | _ => None end;
      handler ← match serve frames handler with Ok h => Some h | _ => None end;
      input_session rest db handler
  end.

End database.
