(* ===== verification/InputProps.v ===== *)
(** The server's handler mirrors the client's database, whatever the user
    does and through the wire format of fast-path input. *)

From stdpp Require Import base gmap list sorting.
From S2P Require Import Prelude Cursor Codec Flags Crates WriteBuf Mcs McsCodec PduText Framed Input InputCodec InputFlow.

Open Scope Z_scope.

(** ** What a handler is told is held *)

Record Held := mkHeld {
  held_keys : gset (Z * bool);
  held_unicode : gset Z;
  held_buttons : gset Handler.MouseButton;
  held_at : MousePosition;
}.
Definition hold_nothing : Held := mkHeld ∅ ∅ ∅ (mkPosition 0 0).

Definition with_keys (f : gset (Z * bool) -> gset (Z * bool)) (h : Held) : Held :=
  mkHeld (f (held_keys h)) (held_unicode h) (held_buttons h) (held_at h).
Definition with_unicode (f : gset Z -> gset Z) (h : Held) : Held :=
  mkHeld (held_keys h) (f (held_unicode h)) (held_buttons h) (held_at h).
Definition with_buttons (f : gset Handler.MouseButton -> gset Handler.MouseButton) (h : Held) : Held :=
  mkHeld (held_keys h) (held_unicode h) (f (held_buttons h)) (held_at h).
Definition moved_to (p : MousePosition) (h : Held) : Held :=
  mkHeld (held_keys h) (held_unicode h) (held_buttons h) p.
Definition moved_by (x y : Z) (h : Held) : Held := moved_to (mkPosition (pos_x (held_at h) + x) (pos_y (held_at h) + y)) h.
Definition hold {A} `{Countable A} (a : A) (down : bool) (s : gset A) : gset A :=
  if down then {[a]} ∪ s else s ∖ {[a]}.

(** The bookkeeping handler: the specification every handler can be compared with. *)
#[export] Instance Held_handler : RdpServerInputHandler Held := {|
  keyboard e h :=
    match e with
    | Handler.Pressed c e => with_keys (hold (c, e) true) h
    | Handler.Released c e => with_keys (hold (c, e) false) h
    | Handler.UnicodePressed c => with_unicode (hold c true) h
    | Handler.UnicodeReleased c => with_unicode (hold c false) h
    | Handler.Synchronize _ => h
    end;
  mouse e h :=
    match e with
    | Handler.Move x y => moved_to (mkPosition x y) h
    | Handler.Button x y b down => with_buttons (hold b down) (moved_to (mkPosition x y) h)
    | Handler.ButtonRel x y b down => with_buttons (hold b down) (moved_by x y h)
    | Handler.RelMove x y => moved_by x y h
    | _ => h
    end;
|}.

(** The button the server knows a client's button as *)
Definition server_button (b : Db.MouseButton) : Handler.MouseButton :=
  match b with
  | Db.Left => Handler.Left | Db.Middle => Handler.Middle | Db.Right => Handler.Right | Db.X1 => Handler.X1 | Db.X2 => Handler.X2
  end.
#[export] Instance server_button_inj : Inj (=) (=) server_button.
Proof. by intros [] []. Qed.

Lemma mapM_total {A B} (f : A -> option B) (g : A -> B) l : Forall (fun x => f x = Some (g x)) l -> mapM f l = Some (g <$> l).
Proof. induction 1 as [|x l Hx _ IH]; [done|]. cbn. by rewrite Hx, IH. Qed.

Section mirror.
Context {BF : Bitflags} {GF : BitField} {BA : BitArrays}.

(** Characters of the basic plane, which are one code unit. *)
Definition bmp (c : Z) : Prop := is_scalar c = true /\ c < 65536.
Lemma bmp_unit c : bmp c -> utf16_char c = [c] /\ is_u16 c.
Proof.
  intros [Hs Hb]. unfold utf16_char. rewrite (proj2 (Z.ltb_lt c 0x10000)) by lia. split; [done|].
  apply is_scalar_spec in Hs. width.
Qed.

Record mirror (db : Database) (h : Held) : Prop := {
  mirror_keys c e : (c, e) ∈ held_keys h <-> is_u8 c /\ is_key_pressed db (mkScancode c e) = true;
  mirror_buttons b : server_button b ∈ held_buttons h <-> is_mouse_button_pressed db b = true;
  mirror_unicode : held_unicode h = unicode_keyboard_state db;
  mirror_at : held_at h = mouse_position db;
}.

(** Arrays of the right length, with no bit set past the last key or button. *)
Definition bits_wf (n : Z) (a : BitArray) : Prop :=
  (forall i, 0 <= i < n -> is_Some (bit_get a i)) /\ forall i, bit_get a i = Some true -> 0 <= i < n.
Record db_wf (db : Database) : Prop := {
  wf_keyboard : bits_wf 512 (db_keyboard db);
  wf_buttons : bits_wf 5 (mouse_buttons db);
  wf_unicode c : c ∈ unicode_keyboard_state db -> bmp c;
  wf_x : is_u16 (pos_x (mouse_position db));
  wf_y : is_u16 (pos_y (mouse_position db));
}.

Definition op_wf (op : Operation) : Prop :=
  match op with
  | MouseMove p => is_u16 (pos_x p) /\ is_u16 (pos_y p)
  | KeyPressed s | KeyReleased s => is_u8 (code s)
  | UnicodeKeyPressed c | UnicodeKeyReleased c => bmp c
  | _ => True
  end.
Definition gesture_wf (g : Gesture) : Prop := match g with Transaction ops => Forall op_wf ops | ReleaseAll => True end.

Lemma ZERO_wf n : bits_wf n (ZERO n).
Proof. split; [intros i Hi; rewrite ZERO_bits by done; eauto|]. intros i Hi. by apply ZERO_only in Hi. Qed.

Lemma replace_wf n a i v : bits_wf n a -> 0 <= i < n ->
  exists old a', bit_replace a i v = Some (old, a') /\ bit_get a i = Some old /\ bits_wf n a' /\
    forall j, bit_get a' j = if j =? i then Some v else bit_get a j.
Proof.
  intros [H1 H2] Hi. destruct (H1 i Hi) as [old Ho]. destruct (bit_replace_spec a i v old Ho) as (a' & Hr & Ha').
  exists old, a'. split_and!; [done..| |done]. split; intros j; rewrite Ha'; destruct (Z.eqb_spec j i) as [->|]; eauto.
Qed.

Lemma database_new_wf : db_wf Database_new.
Proof. split; [apply ZERO_wf|apply ZERO_wf|cbn; set_solver|by split..]. Qed.

Lemma zero_bit n i : default false (bit_get (ZERO n) i) = false.
Proof. destruct (bit_get (ZERO n) i) as [[]|] eqn:E; [by apply ZERO_only in E|done..]. Qed.

Lemma nothing_mirrors p : mirror (mkDatabase ∅ (ZERO 512) (ZERO 5) p) (mkHeld ∅ ∅ ∅ p).
Proof.
  split; cbn; [| |done|done].
  - intros c e. unfold is_key_pressed. cbn. rewrite zero_bit. set_solver.
  - intros b. unfold is_mouse_button_pressed. cbn. rewrite zero_bit. set_solver.
Qed.

(** ** One event at the handler *)

(** The flags of a key event: released, extended. *)
Definition key_flags (released extended : bool) : Z := (if released then 1 else 0) + (if extended then 2 else 0).

Lemma fast_key_flags c r e : fast_key c (key_flags r e) = if r then Handler.Released c e else Handler.Pressed c e.
Proof. unfold fast_key. rewrite !contains_bits. by destruct r, e. Qed.
Lemma fast_unicode_flags c r : fast_unicode c (key_flags r false) = if r then Handler.UnicodeReleased c else Handler.UnicodePressed c.
Proof. unfold fast_unicode. rewrite !contains_bits. by destruct r. Qed.

Lemma handle_key c r e h : handle_fastpath_event (fp_received (KeyboardEvent (key_flags r e) c)) h = with_keys (hold (c, e) (negb r)) h.
Proof. cbn. rewrite fast_key_flags. by destruct r. Qed.
Lemma handle_unicode c r h :
  handle_fastpath_event (fp_received (UnicodeKeyboardEvent (key_flags r false) c)) h = with_unicode (hold c (negb r)) h.
Proof. cbn. rewrite fast_unicode_flags. by destruct r. Qed.
Lemma handle_button b down p h :
  handle_fastpath_event (fp_received (button_event b down p)) h = with_buttons (hold (server_button b) down) (moved_to p h).
Proof.
  unfold button_event. destruct p as [x y], b, down; cbn; rewrite ?union_bits; unfold mouse_event, mouse_x_event; cbn; rewrite !contains_bits; done.
Qed.
Lemma handle_move p h :
  handle_fastpath_event (fp_received (MouseEvent (mkMouse PointerFlags.MOVE 0 (pos_x p) (pos_y p)))) h = moved_to p h.
Proof. destruct p as [x y]. cbn. unfold mouse_event. cbn. rewrite !contains_bits. done. Qed.

(** A turn of the wheel arrives as the same turn. *)
Lemma wheel_delivered (vertical : bool) u x y : -256 <= u <= 255 ->
  mouse_event (canonical (mkMouse (if vertical then PointerFlags.VERTICAL_WHEEL else PointerFlags.HORIZONTAL_WHEEL) u x y)) =
  if vertical then Handler.VerticalScroll u else Handler.HorizontalScroll u.
Proof.
  intros Hu. set (f := if vertical then _ else _).
  assert (Hf : 0 <= f /\ f mod 512 = 0 /\ Z.testbit f 9 = vertical /\ (vertical = false -> Z.testbit f 10 = true)) by (subst f; by destruct vertical).
  destruct Hf as (Hf0 & Hf1 & Hf2 & Hf3).
  assert (Hbit : forall n, 9 <= n -> Z.testbit (Z.lor f (u mod 512)) n = Z.testbit f n).
  { intros n Hn. rewrite Z.lor_spec. change 512 with (2 ^ 9). rewrite <- Z.land_ones, Z.land_spec, (Z.ones_spec_high 9) by lia.
    by rewrite andb_false_r, orb_false_r. }
  assert (Hone : forall n, 9 <= n -> contains (Z.lor f (u mod 512)) (2 ^ n) = Z.testbit f n) by (intros n Hn; rewrite contains_pow2 by lia; by apply Hbit).
  assert (Hu' : wheel_units (Z.lor f (u mod 512)) = u).
  { apply wheel_units_of; [done|]. change 512 with (2 ^ 9). rewrite <- !Z.land_ones by lia. apply Z.bits_inj'. intros n Hn.
    rewrite !Z.land_spec, Z.lor_spec, !Z.land_spec. assert (Hz : Z.land f (Z.ones 9) = 0) by (rewrite Z.land_ones by lia; exact Hf1).
    assert (Hz' := f_equal (fun w => Z.testbit w n) Hz). cbv beta in Hz'. rewrite Z.land_spec, Z.bits_0 in Hz'.
    destruct (Z.testbit f n), (Z.testbit (Z.ones 9) n), (Z.testbit u n); done. }
  unfold mouse_event, canonical. cbn [m_flags number_of_wheel_rotation_units]. rewrite Hu'.
  change PointerFlags.VERTICAL_WHEEL with (2 ^ 9). change PointerFlags.HORIZONTAL_WHEEL with (2 ^ 10).
  rewrite !Hone, Hf2 by lia. destruct vertical; [done|]. by rewrite Hf3.
Qed.

(** ** One operation *)

Lemma elem_of_hold {A} `{Countable A} (a b : A) v s : a ∈ hold b v s <-> if decide (a = b) then v = true else a ∈ s.
Proof. unfold hold. case_decide; destruct v; set_solver. Qed.

Lemma as_idx_range s : is_u8 (code s) -> 0 <= Scancode_as_idx s < 512.
Proof. intros Hs. unfold Scancode_as_idx. destruct (extended s); width. Qed.
Lemma as_idx_inj s s' : is_u8 (code s) -> is_u8 (code s') -> Scancode_as_idx s = Scancode_as_idx s' -> s = s'.
Proof. destruct s as [c []], s' as [c' []]; unfold Scancode_as_idx; cbn; intros ? ? ?; try (f_equal; lia); width. Qed.
Lemma button_idx_range b : 0 <= Db.as_idx b < 5.
Proof. by destruct b. Qed.
Lemma button_idx_inj b b' : Db.as_idx b = Db.as_idx b' -> b = b'.
Proof. by destruct b, b'. Qed.

(** The bit of a key and the key held change together. *)
Lemma mirror_key db h s v a' : is_u8 (code s) -> mirror db h ->
  (forall j, bit_get a' j = if j =? Scancode_as_idx s then Some v else bit_get (db_keyboard db) j) ->
  mirror (set_keyboard a' db) (with_keys (hold (code s, extended s) v) h).
Proof.
  intros Hs [Hk Hb Hu Hp] Ha. split; cbn; [|exact Hb|exact Hu|exact Hp]. intros c e. rewrite elem_of_hold. unfold is_key_pressed. cbn. rewrite Ha.
  case_decide as E.
  - injection E as -> ->. destruct s as [c e]. rewrite Z.eqb_refl. cbn in *. tauto.
  - rewrite Hk. unfold is_key_pressed. destruct (Z.eqb_spec (Scancode_as_idx (mkScancode c e)) (Scancode_as_idx s)) as [E'|]; [|done].
    split; intros [Hc _]; exfalso; apply as_idx_inj in E' as <-; done.
Qed.
Lemma mirror_button db h b v a' : mirror db h ->
  (forall j, bit_get a' j = if j =? Db.as_idx b then Some v else bit_get (mouse_buttons db) j) ->
  mirror (set_buttons a' db) (with_buttons (hold (server_button b) v) h).
Proof.
  intros [Hk Hb Hu Hp] Ha. split; cbn; [exact Hk| |exact Hu|exact Hp]. intros b'. rewrite elem_of_hold. unfold is_mouse_button_pressed. cbn. rewrite Ha.
  destruct (Z.eqb_spec (Db.as_idx b') (Db.as_idx b)) as [E|E].
  - apply button_idx_inj in E as ->. by rewrite decide_True.
  - rewrite decide_False; [by apply Hb|]. intros H%(inj server_button). by subst.
Qed.
(** A bit that does not change needs no event. *)
Lemma mirror_same_button db h b v a' : mirror db h -> is_mouse_button_pressed db b = v ->
  (forall j, bit_get a' j = if j =? Db.as_idx b then Some v else bit_get (mouse_buttons db) j) ->
  mirror (set_buttons a' db) h.
Proof.
  intros [Hk Hb Hu Hp] Hv Ha. split; cbn; [exact Hk| |exact Hu|exact Hp]. intros b'. rewrite Hb. unfold is_mouse_button_pressed in *. cbn. rewrite Ha.
  destruct (Z.eqb_spec (Db.as_idx b') (Db.as_idx b)) as [E|E]; [|done]. rewrite E, Hv. done.
Qed.
Lemma mirror_same_key db h s v a' : mirror db h -> is_key_pressed db s = v ->
  (forall j, bit_get a' j = if j =? Scancode_as_idx s then Some v else bit_get (db_keyboard db) j) ->
  mirror (set_keyboard a' db) h.
Proof.
  intros [Hk Hb Hu Hp] Hv Ha. split; cbn; [|exact Hb|exact Hu|exact Hp]. intros c e. rewrite Hk. unfold is_key_pressed in *. cbn. rewrite Ha.
  destruct (Z.eqb_spec (Scancode_as_idx (mkScancode c e)) (Scancode_as_idx s)) as [E|E]; [|done]. rewrite E, Hv. done.
Qed.

(** What the handler becomes once the events have gone over the wire. *)
Definition delivered {H} {IH : RdpServerInputHandler H} (es : list FastPathInputEvent) (h : H) : H :=
  foldl (fun h e => handle_fastpath_event (fp_received e) h) h es.
Lemma delivered_app {H} {IH : RdpServerInputHandler H} es es' (h : H) : delivered (es ++ es') h = delivered es' (delivered es h).
Proof. apply foldl_app. Qed.

(** The events of a step of the client, and that they tell the server of it. *)
Definition tells (step : Database -> option (list FastPathInputEvent * Database)) (db : Database) : Prop :=
  exists es db', step db = Some (es, db') /\ Forall fp_sendable es /\ db_wf db' /\
    forall h : Held, mirror db h -> mirror db' (delivered es h).

Lemma key_flags_small r e : 0 <= key_flags r e < 32.
Proof. by destruct r, e. Qed.
Lemma button_sendable b down p : is_u16 (pos_x p) -> is_u16 (pos_y p) -> fp_sendable (button_event b down p).
Proof. intros Hx Hy. unfold button_event. destruct b, down; cbn; rewrite ?union_bits; cbn; by split_and!. Qed.

Lemma tells_button b v db : db_wf db ->
  tells (apply_operation (if v : bool then MouseButtonPressed b else MouseButtonReleased b)) db.
Proof.
  intros [Hk Hb Hu Hx Hy]. destruct (replace_wf 5 (mouse_buttons db) (Db.as_idx b) v Hb (button_idx_range b)) as (old & a' & Hr & Ho & Hw & Ha).
  exists (if Bool.eqb old v then [] else [button_event b v (mouse_position db)]), (set_buttons a' db). split_and!.
  - destruct v; cbn; rewrite Hr; by destruct old.
  - destruct (Bool.eqb old v); repeat constructor. by apply button_sendable.
  - by split.
  - intros h Hm. destruct (Bool.eqb old v) eqn:E.
    + apply eqb_prop in E as ->. apply (mirror_same_button _ _ b v); [done| |done]. unfold is_mouse_button_pressed. by rewrite Ho.
    + cbn [delivered foldl]. rewrite handle_button. apply mirror_button; [|done]. destruct Hm as [H1 H2 H3 H4]. split; [exact H1|exact H2|exact H3|done].
Qed.

Lemma tells_pressed s db : is_u8 (code s) -> db_wf db -> tells (apply_operation (KeyPressed s)) db.
Proof.
  intros Hs [Hk Hb Hu Hx Hy]. destruct (replace_wf 512 (db_keyboard db) (Scancode_as_idx s) true Hk (as_idx_range s Hs)) as (old & a' & Hr & Ho & Hw & Ha).
  exists ((if old then [KeyboardEvent (key_flags true (extended s)) (code s)] else []) ++ [KeyboardEvent (key_flags false (extended s)) (code s)]),
    (set_keyboard a' db). split_and!.
  - cbn. rewrite Hr. destruct s as [c []], old; cbn; by rewrite ?union_bits.
  - apply Forall_app. split; [destruct old|]; repeat constructor; try apply Hs; apply key_flags_small.
  - by split.
  - intros h Hm. rewrite delivered_app. cbn [delivered foldl]. rewrite handle_key. cbn [negb].
    replace (with_keys _ _) with (with_keys (hold (code s, extended s) true) h); [by apply mirror_key|].
    destruct old; [|done]. cbn [delivered foldl]. rewrite handle_key. unfold with_keys. cbn. f_equal. unfold hold. cbn [negb].
    apply set_eq. intros k. destruct (decide (k = (code s, extended s))); set_solver.
Qed.

Lemma tells_released s db : is_u8 (code s) -> db_wf db -> tells (apply_operation (KeyReleased s)) db.
Proof.
  intros Hs [Hk Hb Hu Hx Hy]. destruct (replace_wf 512 (db_keyboard db) (Scancode_as_idx s) false Hk (as_idx_range s Hs)) as (old & a' & Hr & Ho & Hw & Ha).
  exists (if old then [KeyboardEvent (key_flags true (extended s)) (code s)] else []), (set_keyboard a' db). split_and!.
  - cbn. rewrite Hr. destruct s as [c []], old; cbn; by rewrite ?union_bits.
  - destruct old; repeat constructor; try apply Hs; apply key_flags_small.
  - by split.
  - intros h Hm. destruct old.
    + cbn [delivered foldl]. rewrite handle_key. by apply mirror_key.
    + apply (mirror_same_key _ _ s false); [done| |done]. unfold is_key_pressed. by rewrite Ho.
Qed.

Lemma tells_unicode c v db : bmp c -> db_wf db ->
  tells (apply_operation (if v : bool then UnicodeKeyPressed c else UnicodeKeyReleased c)) db.
Proof.
  intros Hc [Hk Hb Hu Hx Hy]. destruct (bmp_unit c Hc) as [H1 H2].
  set (ev r := UnicodeKeyboardEvent (key_flags r false) c).
  exists ((if is_unicode_key_pressed db c then [ev true] else []) ++ (if v then [ev false] else [])),
    (set_unicode (hold c v (unicode_keyboard_state db)) db). split_and!.
  - destruct v; cbn; unfold unicode_events; rewrite H1; [done|]. by rewrite app_nil_r.
  - assert (Hsend : forall r, fp_sendable (ev r)) by (intros r; split; [apply key_flags_small|done]).
    apply Forall_app. destruct (is_unicode_key_pressed db c), v; split; repeat (apply Forall_cons; split); done || apply Hsend.
  - split; cbn; try done. intros c'. rewrite elem_of_hold. case_decide as E; [by rewrite E|auto].
  - intros h [Hmk Hmb Hmu Hmp]. rewrite delivered_app. unfold is_unicode_key_pressed. case_bool_decide as Hin; destruct v; cbn [delivered foldl];
      rewrite ?(handle_unicode c true), ?(handle_unicode c false); split; try done; cbn; rewrite Hmu; try done; unfold hold; cbn; apply set_eq; intros c';
      destruct (decide (c' = c)); set_solver.
Qed.

Lemma tells_operation op db : op_wf op -> db_wf db -> tells (apply_operation op) db.
Proof.
  intros Ho Hw. destruct op as [b|b|p|vertical u|s|s|c|c]; cbn [op_wf] in Ho.
  - by apply (tells_button b true).
  - by apply (tells_button b false).
  - destruct Hw as [Hk Hb Hu Hx Hy]. unfold tells. cbn. case_bool_decide as E.
    + exists [], db. split_and!; [done|constructor|done|done].
    + exists [MouseEvent (mkMouse PointerFlags.MOVE 0 (pos_x p) (pos_y p))], (set_position p db).
      split_and!; [done|apply Forall_singleton; destruct Ho; by split_and!|destruct Ho; by split|]. intros h [Hmk Hmb Hmu Hmp].
      cbn [delivered foldl]. rewrite handle_move. by split.
  - eexists _, _. split; [reflexivity|]. destruct Hw as [Hk Hb Hu Hx Hy].
    assert (Hr : -256 <= clamp u WHEEL_ROTATION_START WHEEL_ROTATION_END <= 255) by (unfold clamp, WHEEL_ROTATION_START, WHEEL_ROTATION_END; lia).
    split_and!; [apply Forall_singleton; refine (conj _ (conj Hr (conj Hx Hy))); by destruct vertical|done|]. intros h Hm. cbn [delivered foldl].
    cbn [fp_received handle_fastpath_event]. rewrite wheel_delivered by done. by destruct vertical.
  - by apply tells_pressed.
  - by apply tells_released.
  - by apply (tells_unicode c true).
  - by apply (tells_unicode c false).
Qed.

Lemma tells_apply ops db : Forall op_wf ops -> db_wf db -> tells (apply ops) db.
Proof.
  intros Ho. revert db. induction Ho as [|op ops Hop _ IH]; intros db Hw; [by exists [], db|].
  destruct (tells_operation op db Hop Hw) as (es & db1 & H1 & H2 & H3 & H4). destruct (IH db1 H3) as (es' & db2 & H5 & H6 & H7 & H8).
  exists (es ++ es'), db2. split_and!; [cbn; rewrite H1; cbn; by rewrite H5|by apply Forall_app|done|].
  intros h Hm. rewrite delivered_app. by apply H8, H4.
Qed.

(** ** Releasing everything *)

Definition button_at (idx : Z) : Db.MouseButton := default Db.Left (Db.from_idx idx).
Lemma button_at_spec idx : 0 <= idx < 5 -> Db.from_idx idx = Some (button_at idx) /\ Db.as_idx (button_at idx) = idx.
Proof. intros H. assert (idx = 0 \/ idx = 1 \/ idx = 2 \/ idx = 3 \/ idx = 4) as [->|[->|[->|[->| ->]]]] by lia; done. Qed.
Definition key_at (idx : Z) : Scancode := mkScancode (idx mod 256) (256 <=? idx).
Lemma key_at_spec idx : 0 <= idx < 512 ->
  key_release idx = Some (KeyboardEvent (key_flags true (extended (key_at idx))) (code (key_at idx))) /\
  Scancode_as_idx (key_at idx) = idx /\ is_u8 (code (key_at idx)).
Proof.
  intros H. unfold key_release, key_at, Scancode_as_idx, is_u8. cbn [code extended].
  destruct (Z.leb_spec 256 idx).
  - replace (idx mod 256) with (idx - 256) by zdm. rewrite (proj2 (Z.ltb_lt _ _)), union_bits by lia. split_and!; [done|lia..].
  - rewrite Z.mod_small, (proj2 (Z.ltb_lt _ _)) by lia. split_and!; [done|lia..].
Qed.

Lemma delivered_buttons p idxs h : held_at h = p ->
  delivered ((fun i => button_event (button_at i) false p) <$> idxs) h =
  with_buttons (fun s => s ∖ list_to_set ((fun i => server_button (button_at i)) <$> idxs)) h.
Proof.
  revert h. induction idxs as [|i idxs IH]; intros h Hp.
  - destruct h. unfold with_buttons. cbn. by rewrite difference_empty_L.
  - rewrite fmap_cons. cbn [delivered foldl]. rewrite handle_button.
    change (foldl _ ?h' ?es) with (delivered es h'). rewrite IH by done. unfold with_buttons, moved_to. cbn. rewrite <- Hp. f_equal.
    unfold hold. rewrite difference_difference_l_L. done.
Qed.
Lemma delivered_keys idxs h :
  delivered ((fun i => KeyboardEvent (key_flags true (extended (key_at i))) (code (key_at i))) <$> idxs) h =
  with_keys (fun s => s ∖ list_to_set ((fun i => (code (key_at i), extended (key_at i))) <$> idxs)) h.
Proof.
  revert h. induction idxs as [|i idxs IH]; intros h.
  - destruct h. unfold with_keys. cbn. by rewrite difference_empty_L.
  - rewrite fmap_cons. cbn [delivered foldl]. rewrite handle_key.
    change (foldl _ ?h' ?es) with (delivered es h'). rewrite IH. unfold with_keys. cbn. f_equal.
    unfold hold. cbn [negb]. rewrite difference_difference_l_L. done.
Qed.
Lemma delivered_chars cs h : Forall bmp cs ->
  delivered (cs ≫= unicode_events KeyboardFlags.RELEASE) h = with_unicode (fun s => s ∖ list_to_set cs) h.
Proof.
  intros Hc. revert h. induction Hc as [|c cs Hc _ IH]; intros h.
  - destruct h. unfold with_unicode. cbn. by rewrite difference_empty_L.
  - rewrite bind_cons, delivered_app, IH. unfold unicode_events. rewrite (proj1 (bmp_unit c Hc)). cbn [fmap list_fmap delivered foldl].
    rewrite (handle_unicode c true). unfold with_unicode. cbn. f_equal. unfold hold. cbn [negb]. rewrite difference_difference_l_L. done.
Qed.

(** Every key, button and character held has its bit, so each is released. *)
Lemma nothing_left db h cs : mirror db h -> (forall c, c ∈ cs <-> c ∈ unicode_keyboard_state db) ->
  with_unicode (fun s => s ∖ list_to_set cs)
    (with_keys (fun s => s ∖ list_to_set ((fun i => (code (key_at i), extended (key_at i))) <$> iter_ones (db_keyboard db)))
      (with_buttons (fun s => s ∖ list_to_set ((fun i => server_button (button_at i)) <$> iter_ones (mouse_buttons db))) h)) =
  mkHeld ∅ ∅ ∅ (mouse_position db).
Proof.
  intros [Hmk Hmb Hmu Hmp] Hcs. unfold with_unicode, with_keys, with_buttons. cbn [held_keys held_unicode held_buttons held_at]. rewrite Hmp.
  f_equal; apply set_eq; intros x; rewrite elem_of_difference, elem_of_list_to_set; (split; [|set_solver]); intros [Hin Hn]; exfalso; apply Hn.
  - destruct x as [c e]. apply Hmk in Hin as [Hc Hp]. apply list_elem_of_fmap. exists (Scancode_as_idx (mkScancode c e)).
    destruct (key_at_spec (Scancode_as_idx (mkScancode c e)) (as_idx_range (mkScancode c e) Hc)) as (_ & H1 & H2).
    apply as_idx_inj in H1; [|done|done]. rewrite H1. split; [done|]. apply iter_ones_spec. unfold is_key_pressed in Hp.
    by destruct (bit_get _ _) as [[]|].
  - apply Hcs. by rewrite <- Hmu.
  - apply list_elem_of_fmap. assert (exists b, x = server_button b) as [b ->] by (destruct x; [by exists Db.Left|by exists Db.Right|by exists Db.Middle|by exists Db.X1|by exists Db.X2]).
    apply Hmb in Hin. exists (Db.as_idx b). destruct (button_at_spec (Db.as_idx b) (button_idx_range b)) as [_ H1].
    apply button_idx_inj in H1. rewrite H1. split; [done|]. apply iter_ones_spec. unfold is_mouse_button_pressed in Hin.
    by destruct (bit_get _ _) as [[]|].
Qed.

Lemma tells_release_all db : db_wf db -> tells release_all db.
Proof.
  intros [[Hk Hk'] [Hb Hb'] Hu Hx Hy].
  set (bs := iter_ones (mouse_buttons db)). set (ks := iter_ones (db_keyboard db)). set (cs := merge_sort Z.le (elements (unicode_keyboard_state db))).
  assert (Hbs : Forall (fun i => 0 <= i < 5) bs) by (apply Forall_forall; intros i Hi; by apply Hb', iter_ones_spec).
  assert (Hks : Forall (fun i => 0 <= i < 512) ks) by (apply Forall_forall; intros i Hi; by apply Hk', iter_ones_spec).
  assert (Hcs : forall c, c ∈ cs <-> c ∈ unicode_keyboard_state db).
  { intros c. unfold cs. rewrite (merge_sort_Permutation Z.le (elements _)). apply elem_of_elements. }
  assert (Hbmp : Forall bmp cs) by (apply Forall_forall; intros c Hc; by apply Hu, Hcs).
  exists (((fun i => button_event (button_at i) false (mouse_position db)) <$> bs) ++
      ((fun i => KeyboardEvent (key_flags true (extended (key_at i))) (code (key_at i))) <$> ks) ++ (cs ≫= unicode_events KeyboardFlags.RELEASE)),
    (mkDatabase ∅ (ZERO 512) (ZERO 5) (mouse_position db)). split_and!.
  - unfold release_all. rewrite (mapM_total _ (fun i => button_event (button_at i) false (mouse_position db)) bs).
    2:{ eapply Forall_impl; [exact Hbs|]. intros i Hi. cbv beta. by rewrite (proj1 (button_at_spec i Hi)). }
    cbn [mbind option_bind]. rewrite (mapM_total _ (fun i => KeyboardEvent (key_flags true (extended (key_at i))) (code (key_at i))) ks); [done|].
    eapply Forall_impl; [exact Hks|]. intros i Hi. apply (key_at_spec i Hi).
  - rewrite !Forall_app, !Forall_fmap. split_and!.
    + eapply Forall_impl; [exact Hbs|]. intros i _. by apply button_sendable.
    + eapply Forall_impl; [exact Hks|]. intros i Hi. split; [apply key_flags_small|apply (key_at_spec i Hi)].
    + apply Forall_forall. intros e (c & He & Hc)%list_elem_of_bind. rewrite Forall_forall in Hbmp. destruct (bmp_unit c (Hbmp c Hc)) as [H1 H2].
      unfold unicode_events in He. rewrite H1 in He. apply list_elem_of_singleton in He as ->. by split.
  - split; cbn; [apply ZERO_wf|apply ZERO_wf|set_solver|done|done].
  - intros h Hm. rewrite !delivered_app, delivered_buttons, delivered_keys, delivered_chars by first [done|apply Hm].
    pose proof (nothing_left db h cs Hm Hcs) as Hz. fold bs ks in Hz. rewrite Hz. apply nothing_mirrors.
Qed.

(** ** Over the wire *)

(** A batch whose PDUs can be encoded *)
Definition batch_fits (es : list FastPathInputEvent) : Prop := Forall length_fits (chunks (Z.to_nat MAX_EVENTS) es).
#[export] Instance length_fits_dec es : Decision (length_fits es).
Proof. unfold length_fits. apply _. Defined.
#[export] Instance batch_fits_dec es : Decision (batch_fits es).
Proof. unfold batch_fits. apply _. Defined.

Lemma pieces_served {H} {IH : RdpServerInputHandler H} pieces :
  Forall counted pieces -> Forall (Forall fp_sendable) pieces -> Forall length_fits pieces ->
  frames_of pieces = Ok (fp_pdu_wire <$> pieces) /\
  forall h : H, serve (fp_pdu_wire <$> pieces) h = Ok (delivered (concat pieces) h).
Proof.
  intros Hc Hs Hf. induction pieces as [|es pieces IHp]; [done|]. apply Forall_cons in Hc as [Hc Hc']. apply Forall_cons in Hs as [Hs Hs'].
  apply Forall_cons in Hf as [Hf Hf']. destruct (IHp Hc' Hs' Hf') as [IH1 IH2]. split.
  - cbn [frames_of]. unfold FastPathInput_new. destruct Hc as [H1 H2]. rewrite (proj2 (Z.leb_le _ _) H1), (proj2 (Z.leb_le _ _) H2).
    cbn [andb map_err mbind outcome_bind].
    rewrite (encode_vec_writes (mkFastPathInput es) (fp_pdu_wire es)) by (by apply fp_pdu_writes). cbn [map_err mbind outcome_bind]. by rewrite IH1.
  - intros h. cbn [fmap list_fmap serve concat]. unfold dispatch_fastpath.
    pose proof (decode_decodes (fp_pdu_wire es) [] _ (fp_pdu_decodes es Hc Hs Hf)) as Hd. rewrite app_nil_r in Hd. rewrite Hd. cbn.
    rewrite delivered_app, <- IH2. f_equal. unfold handle_fastpath, delivered. cbn [fp_events]. by rewrite foldl_fmap.
Qed.

Lemma batch_served {H} {IH : RdpServerInputHandler H} es : Forall fp_sendable es -> batch_fits es ->
  exists frames, process_fastpath_input es = Ok frames /\ forall h : H, serve frames h = Ok (delivered es h).
Proof.
  intros Hs Hf. destruct es as [|e es]; [by exists []|]. set (l := e :: es) in *.
  destruct (chunks_loop_spec (length l) (Z.to_nat MAX_EVENTS) l) as (H1 & H2 & _); [by vm_compute; lia|done|]. fold (chunks (Z.to_nat MAX_EVENTS) l) in H1, H2.
  assert (Hc : Forall counted (chunks (Z.to_nat MAX_EVENTS) l)).
  { eapply Forall_impl; [exact H2|]. intros d [Hd Hl]. unfold counted, llen. destruct d; [done|]. cbn [length] in *. lia. }
  assert (Hcs : Forall (Forall fp_sendable) (chunks (Z.to_nat MAX_EVENTS) l)) by (apply Forall_concat; by rewrite H1).
  destruct (pieces_served _ Hc Hcs Hf) as [Hp Hv]. eexists. split; [exact Hp|]. intros h. by rewrite Hv, H1.
Qed.

(** ** The session *)

(** What the client alone does: the batches it sends *)
Fixpoint client_run (gs : list Gesture) (db : Database) : option (list (list FastPathInputEvent) * Database) :=
  match gs with
  | [] => Some ([], db)
  | g :: rest => '(es, db) ← gesture g db; '(batches, db) ← client_run rest db; Some (es :: batches, db)
  end.

Lemma tells_gesture g db : gesture_wf g -> db_wf db -> tells (gesture g) db.
Proof. destruct g; intros Hg Hw; [by apply tells_apply|by apply tells_release_all]. Qed.

Lemma session_mirrors gs db : Forall gesture_wf gs -> db_wf db ->
  exists batches db', client_run gs db = Some (batches, db') /\
    (Forall batch_fits batches -> forall h, mirror db h -> exists h', input_session gs db h = Some (db', h') /\ mirror db' h').
Proof.
  intros Hg. revert db. induction Hg as [|g gs Hg _ IH]; intros db Hw; [exists [], db; split; [done|]; intros _ h Hm; by exists h|].
  destruct (tells_gesture g db Hg Hw) as (es & db1 & H1 & H2 & H3 & H4). destruct (IH db1 H3) as (bs & db2 & H5 & H6).
  exists (es :: bs), db2. cbn [client_run input_session]. rewrite H1. cbn [mbind option_bind]. rewrite H5. split; [done|].
  intros [Hf Hf']%Forall_cons h Hm. destruct (batch_served (H := Held) es H2 Hf) as (frames & H7 & H8). rewrite H7. cbn [mbind option_bind]. rewrite H8.
  cbn [mbind option_bind]. apply H6; [done|]. by apply H4.
Qed.

(** C18: the server's input handler mirrors the client's input database.  For
    any sequence of transactions and releases (scan codes of one byte,
    positions of 16 bits, characters of the basic plane), the client never
    panics; and if the PDUs of each batch have room for their length, every
    batch is cut into PDUs, encoded, decoded and dispatched without an error,
    and in the end the handler has been told of exactly the keys, buttons and
    characters the database says are pressed, and of its pointer position. *)
Theorem handler_mirrors_client (gs : list Gesture) :
  Forall gesture_wf gs ->
  exists batches db, client_run gs Database_new = Some (batches, db) /\
    (Forall batch_fits batches ->
     exists h, input_session gs Database_new hold_nothing = Some (db, h) /\ mirror db h).
Proof.
  intros Hg. destruct (session_mirrors gs Database_new Hg database_new_wf) as (bs & db & H1 & H2). exists bs, db. split; [done|].
  intros Hf. apply H2; [done|]. apply nothing_mirrors.
Qed.

End mirror.

(** ** A user at work *)

#[local] Existing Instances bits_flags shift_bit_field list_bits.

(** A click with Control_R held, a scroll beyond the wire's range, a character
    pressed twice; then everything is released. *)
Definition some_gestures : list Gesture :=
  [Transaction [MouseMove (mkPosition 640 480); KeyPressed (mkScancode 0x1D true); MouseButtonPressed Db.Left];
   Transaction [MouseButtonReleased Db.Left; WheelRotations true (-1000); UnicodeKeyPressed 0x17C; UnicodeKeyPressed 0x17C; MouseButtonPressed Db.X1];
   Transaction [KeyPressed (mkScancode 0x1E false); KeyPressed (mkScancode 0x1E false)]].

Lemma handler_mirrors_client_witness :
  exists db h, input_session some_gestures Database_new hold_nothing = Some (db, h) /\ mirror db h /\
    (0x1E, false) ∈ held_keys h /\ Handler.X1 ∈ held_buttons h.
Proof.
  destruct (handler_mirrors_client some_gestures) as (batches & db & Hr & Hm).
  - repeat (apply Forall_cons; split; [repeat (apply Forall_cons; split); try apply Forall_nil; vm_compute; try done; by repeat split|]). constructor.
  - vm_compute in Hr. injection Hr as <- <-.
    destruct Hm as (h & Hs & Hm); [apply (bool_decide_unpack _); vm_compute; exact I|]. eexists _, h. split; [exact Hs|]. split; [exact Hm|]. clear Hs. split.
    + apply (mirror_keys _ _ Hm). split; [split; discriminate || reflexivity|vm_compute; reflexivity].
    + apply (mirror_buttons _ _ Hm Db.X1). vm_compute. reflexivity.
Defined.

(** Two characters past the basic plane share a code unit: releasing one tells
    the server that the unit of the other is released too. *)
Lemma shared_surrogate_released :
  match input_session [Transaction [UnicodeKeyPressed 0x1F600; UnicodeKeyPressed 0x1F601; UnicodeKeyReleased 0x1F600]]
          Database_new hold_nothing with
  | Some (db, h) => is_unicode_key_pressed db 0x1F601 = true /\ 0xD83D ∉ held_unicode h /\ 0xDE01 ∈ held_unicode h
  | None => False
  end.
Proof. vm_compute. split_and!; [done|by intros ?|done]. Qed.
