(* ===== verification/SvcStream.v ===== *)
(** The static virtual channels end to end over TCP: what
    [server_encode_svc_messages] and [client_encode_svc_messages] write is cut
    into PDUs again by the framed reader of the peer, however the network
    splits the stream, and carries exactly the messages. *)

From S2P Require Import Prelude Cursor Codec Flags Mutation WriteBuf Mcs McsCodec Svc SvcProps Framed.

(** ** The output buffer has no slack *)

Lemma encode_buf_tight {A} `{Encode A} (pdu : A) bs acc :
  writes pdu bs ->
  encode_buf pdu (WriteBuf.mk acc (length acc)) =
    Ok (llen bs, WriteBuf.mk (acc ++ bs) (length (acc ++ bs))).
Proof.
  intros [He Hs]. unfold encode_buf, WriteBuf.unfilled_to, WriteBuf.initialize. rewrite Hs.
  replace (Z.to_nat (llen bs)) with (length bs) by (unfold llen; lia). cbn [WriteBuf.inner WriteBuf.filled_count].
  set (b := if (length acc <? length acc + length bs)%nat then _ else _).
  assert (Hb : exists hole, length hole = length bs /\ b = WriteBuf.mk (acc ++ hole) (length acc)).
  { unfold b. destruct (Nat.ltb_spec (length acc) (length acc + length bs)).
    - eexists. split; [|done]. rewrite length_replicate. lia.
    - exists []. rewrite app_nil_r. split; [cbn; lia|done]. }
  destruct Hb as (hole & Hh & ->). cbn [WriteBuf.inner WriteBuf.filled_count].
  rewrite (proj2 (Nat.leb_le _ _)) by (rewrite length_app; lia).
  rewrite drop_app_length, take_ge by lia. cbn [mbind outcome_bind].
  rewrite (encode_writes pdu bs) by done. cbn [mbind outcome_bind mret outcome_ret].
  unfold WriteBuf.store, WriteBuf.advance. cbn [WriteBuf.inner WriteBuf.filled_count].
  rewrite take_app_length, drop_ge, app_nil_r by (rewrite length_app; lia).
  unfold llen. by rewrite Nat2Z.id, length_app.
Qed.

(** ** Chunks on the wire *)

Section encode.
Context {T : Type} {M : McsPdu T} {C : McsCodec T}.

Lemma encode_chunks_spec (pdu : list Z -> T) payloads chunks acc :
  Forall2 WriteBuf.holds payloads chunks -> Forall (fun p => mcs_wf (pdu p)) payloads ->
  encode_chunks pdu chunks (WriteBuf.mk acc (length acc)) =
    let out := acc ++ concat (map (fun p => X224_wire (mkX224 (pdu p))) payloads) in
    Ok (WriteBuf.mk out (length out)).
Proof.
  intros H. revert acc. induction H as [|p c ps cs Hh _ IH]; intros acc Hw; cbn [encode_chunks map concat].
  { by rewrite app_nil_r. }
  apply Forall_cons in Hw as [Hw Hws]. rewrite (WriteBuf.holds_filled _ _ Hh). cbn [mbind outcome_bind].
  rewrite (encode_buf_tight (mkX224 (pdu p)) (X224_wire (mkX224 (pdu p))))
    by (split; [by apply X224_encodes|by apply X224_size_wire]).
  cbn [mbind outcome_bind]. rewrite IH by done. cbv zeta. by rewrite <- app_assoc.
Qed.

Lemma X224_packet (a : T) : mcs_wf a -> packet (X224_wire (mkX224 a)).
Proof.
  intros H. exists ([2; 0xF0; 0x80] ++ mcs_wire a). rewrite llen_X224_wire. cbn [x224].
  pose proof (mcs_short a H). pose proof (llen_nonneg (mcs_wire a)).
  split; [done|]. cbn [x224_wire Mcs_X224Codec]. lia.
Qed.

End encode.

(** ** Payload bytes *)

Section svc.
Context {BF : Bitflags}.

Lemma frames_bytes total f chunked first ps :
  Forall bytes_ok ps -> Forall bytes_ok (frames total f chunked first ps).
Proof.
  intros H. revert first. induction H as [|p ps Hp Hps IH]; intros first; [constructor|].
  assert (Hfr : forall l, bytes_ok (frame total f chunked first l p)).
  { intros l. unfold frame, header_wire. rewrite !Forall_app. split_and!; [apply to_le_bytes_ok..|done]. }
  destruct ps; (constructor; [apply Hfr|]); [constructor|apply IH].
Qed.

Lemma pieces_bytes fuel max data : bytes_ok data -> Forall bytes_ok (pieces fuel max data).
Proof.
  revert data. induction fuel as [|fuel IH]; intros data Hb; cbn [pieces]; [constructor|].
  destruct (_ <=? _)%nat; [by repeat constructor|]. constructor; [by apply Forall_take|]. by apply IH, Forall_drop.
Qed.

(** The payloads [chunkify] produces, for messages made of bytes. *)
Lemma chunkify_payloads max ms datas :
  (0 < max)%nat -> Z.of_nat max <= MAX_CHANNEL_CHUNK_LENGTH -> Forall2 carries ms datas -> Forall bytes_ok datas ->
  exists bufs payloads, chunkify_all ms (Z.of_nat max) = Ok bufs /\ Forall2 WriteBuf.holds payloads bufs /\
    Forall (fun p => bytes_ok p /\ llen p <= 8 + Z.of_nat max) payloads /\
    receive payloads ChunkProcessor_new = Some (inr datas, ChunkProcessor_new).
Proof.
  intros Hm Hmax. induction 1 as [|m data ms datas (Hw & Hl & Hf) _ IH]; intros Hb.
  { exists [], []. split_and!; [done|constructor|constructor|done]. }
  apply Forall_cons in Hb as [Hb Hbs].
  destruct (chunkify_one_spec m max data Hw Hl Hm Hmax) as (b1 & H1 & Hh1).
  destruct (message_received max (msg_flags m) data Hm Hf Hl) as [Hr1 Hs1].
  destruct (IH Hbs) as (b2 & ps & H2 & Hh2 & Hs2 & Hr2).
  exists (b1 ++ b2), (message_frames max (msg_flags m) data ++ ps). cbn [chunkify_all]. rewrite H1, H2.
  split_and!; [done|by apply Forall2_app| |exact (receive_app _ _ _ _ _ [data] datas Hr1 Hr2)].
  apply Forall_app. split; [|done]. apply Forall_and. split; [|done]. by apply frames_bytes, pieces_bytes.
Qed.

Definition indication_of (initiator_id channel_id : Z) (x : Action.t * list Z) (payload : list Z) : Prop :=
  x.1 = Action.X224 /\
  decode_send_data_indication x.2 = Ok (mkSendDataIndicationCtx initiator_id channel_id payload).

Lemma decode_indication i c p :
  send_wf i c p ->
  decode_send_data_indication (X224_wire (mkX224 (mkSendDataIndication i c p))) = Ok (mkSendDataIndicationCtx i c p).
Proof.
  intros Hw. unfold decode_send_data_indication.
  change (X224_wire (mkX224 (mkSendDataIndication i c p)))
    with (wire (mkX224 (MSendDataIndication (mkSendDataIndication i c p)))).
  by rewrite decode_wire.
Qed.

Lemma svc_stream_spec (ms : list SvcMessage) (datas : list (list Z)) (channel_id initiator_id : Z) :
  Forall2 carries ms datas -> Forall bytes_ok datas -> is_u16 channel_id -> is_user_id initiator_id ->
  exists out, server_encode_svc_messages ms channel_id initiator_id = Ok out /\
  forall cuts closed, concat cuts.*2 = out -> Forall (fun p => p.2 <> []) cuts ->
  exists n pdus payloads f',
    read_pdus n (mkFramed cuts closed [] None) = Some (inr pdus, f') /\ pending f' = [] /\
    Forall2 (indication_of initiator_id channel_id) pdus payloads /\
    receive payloads ChunkProcessor_new = Some (inr datas, ChunkProcessor_new).
Proof.
  intros Hc Hb Hch Hi. unfold server_encode_svc_messages, encode_svc_messages, chunkify.
  change (negb (chunk_length_ok CHANNEL_CHUNK_LENGTH)) with false. cbv iota.
  destruct (chunkify_payloads 1600 ms datas) as (bufs & ps & Ha & Hh & Hps & Hr); [lia|done..|].
  change (Z.of_nat 1600) with CHANNEL_CHUNK_LENGTH in *.
  assert (Hwf : Forall (fun p => mcs_wf (mkSendDataIndication initiator_id channel_id p)) ps).
  { eapply Forall_impl; [exact Hps|]. intros p [Hpb Hpl]. unfold CHANNEL_CHUNK_LENGTH in Hpl. split_and!; [done..|cbn; lia]. }
  rewrite Ha. cbn [mbind outcome_bind]. change WriteBuf.new with (WriteBuf.mk [] (length (@nil Z))).
  rewrite (encode_chunks_spec _ ps bufs [] Hh Hwf).
  set (wires := map (fun p => X224_wire (mkX224 (mkSendDataIndication initiator_id channel_id p))) ps).
  cbv zeta. cbn [mbind outcome_bind mret outcome_ret WriteBuf.into_inner WriteBuf.inner app].
  eexists. split; [done|]. intros cuts closed Hcut Hne.
  assert (Hpk : Forall packet wires).
  { unfold wires. rewrite Forall_map. eapply Forall_impl; [exact Hwf|]. intros p Hp. by apply X224_packet. }
  destruct (wpm_run _ _ _ (read_pdus_spec wires (mkFramed cuts closed [] None) Hne Hpk Hcut))
    as (r & f' & Hrun & -> & Hpd & _).
  exists (length wires), (map (fun p => (Action.X224, p)) wires), ps, f'. split_and!; [done|done| |done].
  unfold wires. rewrite map_map. clear -Hwf. induction Hwf as [|p ps Hp _ IH]; constructor; [|exact IH].
  split; [done|]. by apply decode_indication.
Qed.

(** C20: a server's channel messages reach the client: every list of messages
    (each below 4 GiB) is written, and however the network cuts the byte stream
    into pieces, the client's framed reader splits it into the same PDUs, each
    one decodes to a Send Data Indication of the channel, reassembling their
    payloads gives the messages in order, and nothing of the stream is left
    over. *)
Theorem svc_stream_delivery (ms : list SvcMessage) (datas : list (list Z)) (channel_id initiator_id : Z) :
  Forall2 carries ms datas -> Forall bytes_ok datas -> is_u16 channel_id -> is_user_id initiator_id ->
  exists out, server_encode_svc_messages ms channel_id initiator_id = Ok out /\
  forall cuts closed, concat cuts.*2 = out -> Forall (fun p => p.2 <> []) cuts ->
  exists n pdus payloads f',
    read_pdus n (mkFramed cuts closed [] None) = Some (inr pdus, f') /\ pending f' = [] /\
    Forall2 (indication_of initiator_id channel_id) pdus payloads /\
    receive payloads ChunkProcessor_new = Some (inr datas, ChunkProcessor_new).
Proof. apply svc_stream_spec. Qed.

End svc.

Lemma svc_stream_delivery_witness :
  exists out, server_encode_svc_messages (BF := bits_flags) [svc_message demo_pdu] 1004 1002 = Ok out /\
  forall cuts closed, concat cuts.*2 = out -> Forall (fun p => p.2 <> []) cuts ->
  exists n pdus payloads f',
    read_pdus n (mkFramed cuts closed [] None) = Some (inr pdus, f') /\ pending f' = [] /\
    Forall2 (indication_of 1002 1004) pdus payloads /\
    receive (BF := bits_flags) payloads ChunkProcessor_new = Some (inr [header_wire 7 0], ChunkProcessor_new).
Proof.
  apply svc_stream_delivery; [|repeat constructor; vm_compute; intuition discriminate|width|by split].
  constructor; [apply demo_carries|constructor].
Defined.
