(* ===== verification/Dvc.v ===== *)
(** Dynamic virtual channels: fragmentation and reassembly of messages
    (src/crates/ironrdp-dvc/src/lib.rs, complete_data.rs) and the server side
    of the DRDYNVC channel (server.rs).

    The processors of the channels are a parameter: a type [D] of processor
    states with the operations of the [DvcProcessor] trait.  A processor that
    is dropped is kept in a list, in the state [Drop] leaves it in, so that
    what it is told last can be observed. *)

From S2P Require Import Prelude Cursor Codec Flags Mutation WriteBuf Mcs Svc PduText DvcWire.

(** ** Messages *)

(** [DvcMessage] is a [Box<dyn DvcEncode>]. *)
Abbreviation DvcMessage := BoxedPdu.

Section encode.
Context {BF : Bitflags}.

(** The [while] loop over one message; every round sends at least a byte, so
    as many rounds as bytes are enough ([fragments_spec]). *)
Fixpoint fragment_loop (fuel : nat) (channel_id flags total_length : Z) (needs_splitting : bool) (msg : list Z)
    (off : Z) (res : list SvcMessage) : outcome EncodeErrorKind (list SvcMessage) :=
  if off <? total_length then
    match fuel with
    | O => Panic
    | S fuel' =>
        let first := off =? 0 in
        let remaining_length := total_length - off in
        let size := Z.min remaining_length MAX_DATA_SIZE in
        if U64_MAX <? off + size then Err (EOther "overflow occurred")
        else
          let stop := off + size in
          piece ← (if stop <=? llen msg then Ok (take (Z.to_nat size) (drop (Z.to_nat off) msg)) else Panic);
          pdu ← (if needs_splitting && first then
                   length ← cast_length "total_length" 4294967295 total_length;
                   Ok (DataFirst (DataFirstPdu_new channel_id length piece))
                 else Ok (Data (DataPdu_new channel_id piece)));
          let svc := with_flags flags (svc_message pdu) in
          fragment_loop fuel' channel_id flags total_length needs_splitting msg stop (res ++ [svc])
    end
  else Ok res.

Fixpoint encode_dvc_loop (channel_id : Z) (messages : list DvcMessage) (flags : Z) (res : list SvcMessage) :
    outcome EncodeErrorKind (list SvcMessage) :=
  match messages with
  | [] => Ok res
  | m :: messages' =>
      let total_length := size m in
      let needs_splitting := MAX_DATA_SIZE <=? total_length in
      msg ← encode_vec m;
      res ← fragment_loop (length msg) channel_id flags total_length needs_splitting msg 0 res;
      encode_dvc_loop channel_id messages' flags res
  end.

Definition encode_dvc_messages (channel_id : Z) (messages : list DvcMessage) (flags : Z) :
    outcome EncodeErrorKind (list SvcMessage) := encode_dvc_loop channel_id messages flags [].

End encode.

Record DvcMessageBatch := mkBatch { batch_channel_id : Z; batch_messages : list SvcMessage }.

Fixpoint check_batch (channel_id : Z) (messages : list SvcMessage) : outcome PduError unit :=
  match messages with
  | [] => Ok tt
  | message :: messages' =>
      encoded ← map_err PduEncode (encode_unframed_pdu message);
      pdu ← map_err PduDecode (decode DrdynvcClientPdu encoded);
      match pdu with
      | ClientData data =>
          if data_pdu_channel_id data =? channel_id then check_batch channel_id messages'
          else Err (PduOther "DVC message channel ID does not match its batch")
      | _ => Err (PduOther "DVC message batch contains a non-data PDU")
      end
  end.
Definition DvcMessageBatch_try_new (channel_id : Z) (messages : list SvcMessage) : outcome PduError DvcMessageBatch :=
  _ ← check_batch channel_id messages;
  mret (mkBatch channel_id messages).

(** ** Reassembly *)

Record CompleteData := mkCompleteData { total_size : Z; collected : list Z }.
Definition CompleteData_new : CompleteData := mkCompleteData 0 [].

Definition process_data_first_pdu (p : DataFirstPdu) : Mut CompleteData DecodeErrorKind (option (list Z)) :=
  let total_data_size := df_length p in
  s ← access id;
  _ ← (if negb (total_size s =? 0) || negb (llen (collected s) =? 0)
       then update (fun s => mkCompleteData (total_size s) [])
       else mret tt);
  if total_data_size =? llen (df_data p) then mret (Some (df_data p))
  else
    _ ← update (fun _ => mkCompleteData total_data_size (df_data p));
    mret None.

Definition process_data_pdu (p : DataPdu) : Mut CompleteData DecodeErrorKind (option (list Z)) :=
  s ← access id;
  if (total_size s =? 0) && (llen (collected s) =? 0) then mret (Some (d_data p))
  else
    let actual_data_length := llen (collected s) + llen (d_data p) in
    if U64_MAX <? actual_data_length then throw (DInvalidField "data" "overflow occurred" None)
    else if actual_data_length <? total_size s then
      _ ← update (fun s => mkCompleteData (total_size s) (collected s ++ d_data p));
      mret None
    else if actual_data_length =? total_size s then
      _ ← update (fun _ => mkCompleteData 0 []);
      mret (Some (collected s ++ d_data p))
    else
      _ ← update (fun _ => mkCompleteData 0 []);
      mret None.

Definition process_complete_data (pdu : DrdynvcDataPdu) : Mut CompleteData DecodeErrorKind (option (list Z)) :=
  match pdu with
  | DataFirst data_first => process_data_first_pdu data_first
  | Data data => process_data_pdu data
  end.

(** ** The server *)

Class DvcProcessor (D : Type) := {
  dvc_name : D -> list Z;
  dvc_type_id : D -> Z;
  dvc_start : Z -> Mut D PduError (list DvcMessage);
  dvc_process : Z -> list Z -> Mut D PduError (list DvcMessage);
  dvc_close : Z -> D -> D;
  close_requested : D -> bool;
}.

Inductive ChannelState := Pending | Creation | Opened | CreationFailed (status : Z).
#[export] Instance ChannelState_eq_dec : EqDecision ChannelState.
Proof. solve_decision. Defined.

Inductive SoftSyncState :=
| Idle
| Active (requested_tunnels : gset Z) (response_received : bool).

Definition MAX_EARLY_TUNNEL_FRAMES : Z := 1024.

(** The channel of a data PDU, from its first bytes. *)
Definition data_channel_id (unframed : list Z) : option Z :=
  match unframed with
  | [] => None
  | header :: id =>
      let c := Z.shiftr header 4 in
      if negb ((c =? 0x02) || (c =? 0x03) || (c =? 0x06) || (c =? 0x07)) then None
      else
        let w := Z.land header 3 in
        if w =? 0 then head id
        else if w =? 1 then if 2 <=? llen id then Some (from_le_bytes (take 2 id)) else None
        else if 4 <=? llen id then Some (from_le_bytes (take 4 id)) else None
  end.

Section server.
Context {BF : Bitflags} {D : Type} {DP : DvcProcessor D}.

Record DynamicChannel := mkChannel {
  state : ChannelState;
  processor : D;
  complete_data : CompleteData;
  chan_id : Z;
  close_when_created : bool;
}.

Definition DynamicChannel_new (p : D) (channel_id : Z) (st : ChannelState) : DynamicChannel :=
  mkChannel st p CompleteData_new channel_id false.

(** [Drop for DynamicChannel]: the processor as the drop leaves it *)
Definition drop_channel (c : DynamicChannel) : D :=
  if decide (state c = Opened) then dvc_close (chan_id c) (processor c) else processor c.

Record DrdynvcServer := mkServer {
  dynamic_channels : gmap Z DynamicChannel;
  next_channel_id : Z;
  type_id_to_channel_id : gmap Z Z;
  caps_received : bool;
  soft_sync_state : SoftSyncState;
  outgoing_tunnel_channels : gmap Z Z;
  incoming_tunnel_channels : gmap Z Z;
  early_tunnel_frames : list (list Z);
  dropped : list D;
}.

Definition set_channels f (s : DrdynvcServer) := mkServer (f (dynamic_channels s)) (next_channel_id s)
  (type_id_to_channel_id s) (caps_received s) (soft_sync_state s) (outgoing_tunnel_channels s)
  (incoming_tunnel_channels s) (early_tunnel_frames s) (dropped s).
Definition set_next n (s : DrdynvcServer) := mkServer (dynamic_channels s) n
  (type_id_to_channel_id s) (caps_received s) (soft_sync_state s) (outgoing_tunnel_channels s)
  (incoming_tunnel_channels s) (early_tunnel_frames s) (dropped s).
Definition set_types f (s : DrdynvcServer) := mkServer (dynamic_channels s) (next_channel_id s)
  (f (type_id_to_channel_id s)) (caps_received s) (soft_sync_state s) (outgoing_tunnel_channels s)
  (incoming_tunnel_channels s) (early_tunnel_frames s) (dropped s).
Definition set_caps b (s : DrdynvcServer) := mkServer (dynamic_channels s) (next_channel_id s)
  (type_id_to_channel_id s) b (soft_sync_state s) (outgoing_tunnel_channels s)
  (incoming_tunnel_channels s) (early_tunnel_frames s) (dropped s).
Definition set_soft_sync st (s : DrdynvcServer) := mkServer (dynamic_channels s) (next_channel_id s)
  (type_id_to_channel_id s) (caps_received s) st (outgoing_tunnel_channels s)
  (incoming_tunnel_channels s) (early_tunnel_frames s) (dropped s).
Definition set_outgoing f (s : DrdynvcServer) := mkServer (dynamic_channels s) (next_channel_id s)
  (type_id_to_channel_id s) (caps_received s) (soft_sync_state s) (f (outgoing_tunnel_channels s))
  (incoming_tunnel_channels s) (early_tunnel_frames s) (dropped s).
Definition set_incoming f (s : DrdynvcServer) := mkServer (dynamic_channels s) (next_channel_id s)
  (type_id_to_channel_id s) (caps_received s) (soft_sync_state s) (outgoing_tunnel_channels s)
  (f (incoming_tunnel_channels s)) (early_tunnel_frames s) (dropped s).
Definition set_early f (s : DrdynvcServer) := mkServer (dynamic_channels s) (next_channel_id s)
  (type_id_to_channel_id s) (caps_received s) (soft_sync_state s) (outgoing_tunnel_channels s)
  (incoming_tunnel_channels s) (f (early_tunnel_frames s)) (dropped s).
Definition set_dropped f (s : DrdynvcServer) := mkServer (dynamic_channels s) (next_channel_id s)
  (type_id_to_channel_id s) (caps_received s) (soft_sync_state s) (outgoing_tunnel_channels s)
  (incoming_tunnel_channels s) (early_tunnel_frames s) (f (dropped s)).

Abbreviation Serve := (Mut DrdynvcServer PduError).

Definition DrdynvcServer_new : DrdynvcServer := mkServer ∅ 0 ∅ false Idle ∅ ∅ [] [].

(** [self.dynamic_channels.insert(..)]: what was there is dropped *)
Definition insert_boxed_with_id (p : D) (st : ChannelState) (channel_id : Z) : Serve unit :=
  update (fun s =>
    set_channels <[channel_id := DynamicChannel_new p channel_id st]>
      (set_dropped (fun d => d ++ option_list (drop_channel <$> dynamic_channels s !! channel_id)) s)).

Definition reserve_channel : Serve Z :=
  channel_id ← access next_channel_id;
  _ ← expect (if channel_id + 1 <=? 4294967295 then Some tt else None);
  _ ← update (set_next (channel_id + 1));
  mret channel_id.

Definition get_channel_id_by_type (type_id : Z) (s : DrdynvcServer) : option Z := type_id_to_channel_id s !! type_id.

Definition is_channel_opened (channel_id : Z) (s : DrdynvcServer) : bool :=
  match dynamic_channels s !! channel_id with
  | Some c => bool_decide (state c = Opened)
  | None => false
  end.

(** The ids in ascending order, the order a [BTreeMap] is walked in. *)
Definition ids_in_order (s : DrdynvcServer) : list Z := merge_sort Z.le (map_to_list (dynamic_channels s)).*1.

Definition open_channel_ids (s : DrdynvcServer) : list Z :=
  List.filter (fun channel_id => is_channel_opened channel_id s) (ids_in_order s).

Definition creations_outstanding (s : DrdynvcServer) : bool :=
  existsb (fun channel_id =>
    match state <$> dynamic_channels s !! channel_id with Some (Pending | Creation) => true | _ => false end)
    (ids_in_order s).

Definition as_svc_msg_with_flag (pdu : DrdynvcServerPdu) : SvcMessage :=
  with_flags ChannelFlags.SHOW_PROTOCOL (svc_message pdu).
Definition close_pdu (channel_id : Z) : SvcMessage :=
  with_flags ChannelFlags.SHOW_PROTOCOL (svc_message (ServerClose (ClosePdu_new channel_id))).

Definition with_dynamic_channel (p : D) : Serve unit :=
  channel_id ← reserve_channel;
  _ ← insert_boxed_with_id p Pending channel_id;
  update (set_types <[dvc_type_id p := channel_id]>).

Definition create_channel_with_id (p : D) (channel_id : Z) : Serve (option SvcMessage) :=
  caps ← access caps_received;
  if negb caps then
    _ ← insert_boxed_with_id p Pending channel_id;
    mret None
  else
    let svc_msg := as_svc_msg_with_flag (ServerCreate (CreateRequestPdu_new channel_id (dvc_name p))) in
    _ ← insert_boxed_with_id p Creation channel_id;
    mret (Some svc_msg).

Definition create_channel (p : D) : Serve (option SvcMessage) :=
  channel_id ← reserve_channel;
  create_channel_with_id p channel_id.
Definition create_channel_boxed (p : D) : Serve (Z * option SvcMessage) :=
  channel_id ← reserve_channel;
  message ← create_channel_with_id p channel_id;
  mret (channel_id, message).
Definition create_channel_with (build : Z -> PduError + D) : Serve (option SvcMessage) :=
  channel_id ← reserve_channel;
  match build channel_id with
  | inl e => throw e
  | inr channel => create_channel_with_id channel channel_id
  end.

(** The channel that was removed is dropped by every caller. *)
Definition remove_by_channel_id (channel_id : Z) : Serve (option DynamicChannel) :=
  _ ← update (set_outgoing (delete channel_id));
  _ ← update (set_incoming (delete channel_id));
  s ← access id;
  match dynamic_channels s !! channel_id with
  | None => mret None
  | Some dvc =>
      let type_id := dvc_type_id (processor dvc) in
      _ ← update (set_channels (delete channel_id));
      _ ← (if decide (type_id_to_channel_id s !! type_id = Some channel_id)
           then update (set_types (delete type_id)) else mret tt);
      _ ← update (set_dropped (fun d => d ++ [drop_channel dvc]));
      mret (Some dvc)
  end.

Definition set_channel (channel_id : Z) (c : DynamicChannel) : Serve unit :=
  update (set_channels <[channel_id := c]>).

Definition close_channel (channel_id : Z) : Serve (option SvcMessage) :=
  s ← access id;
  match dynamic_channels s !! channel_id with
  | None => mret None
  | Some channel =>
      match state channel with
      | Creation =>
          _ ← set_channel channel_id
                (mkChannel (state channel) (processor channel) (complete_data channel) (chan_id channel) true);
          mret None
      | Pending | CreationFailed _ =>
          _ ← remove_by_channel_id channel_id;
          mret None
      | Opened =>
          removed ← remove_by_channel_id channel_id;
          match removed with
          | None => mret None
          | Some _ =>
              _ ← update (set_outgoing (delete channel_id));
              _ ← update (set_incoming (delete channel_id));
              mret (Some (close_pdu channel_id))
          end
      end
  end.

(** *** Soft-Sync *)

(** The channels to move: all open, none twice. *)
Fixpoint select_channels (s : DrdynvcServer) (ids : list Z) (selected : gmap Z Z) : PduError + gmap Z Z :=
  match ids with
  | [] => inr selected
  | id :: ids' =>
      if negb (is_channel_opened id s) then
        inl (PduOther "Soft-Sync requested for a dynamic channel that is not open")
      else if is_some (selected !! id) then
        inl (PduOther "soft-sync channel list contains a duplicate channel ID")
      else select_channels s ids' (<[id := RELIABLE_UDP]> selected)
  end.

Definition request_reliable_udp (ids : list Z) : Serve SvcMessage :=
  if llen ids =? 0 then throw (PduOther "soft-sync requires at least one dynamic channel")
  else
    s ← access id;
    match soft_sync_state s with
    | Active _ _ => throw (PduOther "soft-sync has already been requested")
    | Idle =>
        match select_channels s ids ∅ with
        | inl e => throw e
        | inr selected =>
            let request := mkSoftSyncRequest [mkChannelList RELIABLE_UDP ids] in
            let message := as_svc_msg_with_flag (ServerSoftSyncRequest request) in
            _ ← update (set_outgoing (fun _ => selected));
            _ ← update (set_soft_sync (Active {[RELIABLE_UDP]} false));
            mret message
        end
    end.

Definition tunnel_for_outgoing_channel (channel_id : Z) (s : DrdynvcServer) : option Z :=
  outgoing_tunnel_channels s !! channel_id.
Definition tunnels_channels (s : DrdynvcServer) : bool := bool_decide (outgoing_tunnel_channels s <> ∅).
Definition outgoing_tunnel (unframed : list Z) (s : DrdynvcServer) : option Z :=
  if bool_decide (outgoing_tunnel_channels s = ∅) then None
  else channel_id ← data_channel_id unframed; tunnel_for_outgoing_channel channel_id s.

Definition soft_sync_response_received (s : DrdynvcServer) : bool :=
  match soft_sync_state s with Active _ true => true | _ => false end.

(** *** Data *)

(** A method of a channel's processor or of its reassembly. *)
Definition with_processor {A} (channel_id : Z) (c : DynamicChannel) (m : Mut D PduError A) : Serve A := fun s =>
  match m (processor c) with
  | Some (r, p) =>
      Some (r, set_channels <[channel_id := mkChannel (state c) p (complete_data c) (chan_id c) (close_when_created c)]> s)
  | None => None
  end.
Definition with_complete_data {A} (channel_id : Z) (c : DynamicChannel) (m : Mut CompleteData DecodeErrorKind A) :
    Serve A := fun s =>
  match m (complete_data c) with
  | Some (r, k) =>
      Some (match r with inl e => inl (PduDecode e) | inr a => inr a end,
        set_channels <[channel_id := mkChannel (state c) (processor c) k (chan_id c) (close_when_created c)]> s)
  | None => None
  end.

Definition channel_by_id (channel_id : Z) : Serve DynamicChannel :=
  s ← access id;
  ok_or (PduDecode (DInvalidField "" "invalid channel id" None)) (dynamic_channels s !! channel_id).

(** [dvc_by_id_mut(id)] of an open channel, and what the embedder does to the
    processor through the reference; [false] when there is none. *)
Definition dvc_by_id_mut (channel_id : Z) (f : D -> D) : Serve bool :=
  s ← access id;
  match dynamic_channels s !! channel_id with
  | None => mret false
  | Some c =>
      if decide (state c <> Opened) then mret false
      else
        _ ← set_channel channel_id
              (mkChannel (state c) (f (processor c)) (complete_data c) (chan_id c) (close_when_created c));
        mret true
  end.

Definition process_data (data : DrdynvcDataPdu) : Serve (list SvcMessage) :=
  let channel_id := data_pdu_channel_id data in
  c ← channel_by_id channel_id;
  if decide (state c <> Opened) then throw (PduOther "invalid channel state")
  else
    complete ← with_complete_data channel_id c (process_complete_data data);
    match complete with
    | None => mret []
    | Some complete =>
        c ← channel_by_id channel_id;
        msg ← with_processor channel_id c (dvc_process channel_id complete);
        resp ← question PduEncode (encode_dvc_messages channel_id msg ChannelFlags.SHOW_PROTOCOL);
        c ← channel_by_id channel_id;
        if close_requested (processor c) then
          _ ← remove_by_channel_id channel_id;
          mret (resp ++ [close_pdu channel_id])
        else mret resp
    end.

Definition read_tunnel_frame (payload : list Z) : Serve (list SvcMessage) :=
  match decode DrdynvcClientPdu payload with
  | Panic => boom
  | Err _ => mret []
  | Ok (ClientData data) =>
      opened ← access (is_channel_opened (data_pdu_channel_id data));
      if negb opened then mret [] else process_data data
  | Ok (ClientClose close) =>
      _ ← remove_by_channel_id (cl_channel_id close);
      mret []
  | Ok _ => mret []
  end.

Definition process_tunnel (payload : list Z) : Serve (list SvcMessage) :=
  received ← access soft_sync_response_received;
  if negb received then
    waiting ← access early_tunnel_frames;
    if MAX_EARLY_TUNNEL_FRAMES <=? llen waiting then
      throw (PduOther "too much tunnel data before the Soft-Sync Response")
    else
      _ ← update (set_early (fun frames => frames ++ [payload]));
      mret []
  else read_tunnel_frame payload.

(** [for frame in frames { responses.extend(self.read_tunnel_frame(&frame)?) }] *)
Fixpoint read_tunnel_frames (frames : list (list Z)) : Serve (list SvcMessage) :=
  match frames with
  | [] => mret []
  | f :: frames' => r ← read_tunnel_frame f; rs ← read_tunnel_frames frames'; mret (r ++ rs)
  end.

Definition process_soft_sync_response (response : SoftSyncResponsePdu) : Serve (list SvcMessage) :=
  s ← access id;
  match soft_sync_state s with
  | Idle => mret []
  | Active requested true => mret []
  | Active requested false =>
      if forallb (fun t => bool_decide (t ∈ requested)) (tunnels_to_switch response) then
        _ ← update (set_incoming (fun _ =>
              filter (fun kt => kt.2 ∈ tunnels_to_switch response) (outgoing_tunnel_channels s)));
        _ ← update (set_soft_sync (Active requested true));
        _ ← update (set_early (fun _ => []));
        read_tunnel_frames (early_tunnel_frames s)
      else throw (PduOther "soft-sync response selected an unrequested tunnel")
  end.

(** *** The static channel *)

Definition DrdynvcServer_start : Serve (list SvcMessage) :=
  mret [as_svc_msg_with_flag (ServerCapabilities (CapabilitiesRequestPdu_new CapsV2 None))].

(** [for (id, c) in &mut self.dynamic_channels]: a Create Request for each
    channel that waits for the capability exchange *)
Fixpoint create_pending (ids : list Z) : Serve (list SvcMessage) :=
  match ids with
  | [] => mret []
  | channel_id :: ids' =>
      c ← channel_by_id channel_id;
      if decide (state c <> Pending) then create_pending ids'
      else
        let req := ServerCreate (CreateRequestPdu_new channel_id (dvc_name (processor c))) in
        _ ← set_channel channel_id
              (mkChannel Creation (processor c) (complete_data c) (chan_id c) (close_when_created c));
        rest ← create_pending ids';
        mret (as_svc_msg_with_flag req :: rest)
  end.

Definition process_create_response (create_resp : CreateResponsePdu) : Serve (list SvcMessage) :=
  let channel_id := cr_channel_id create_resp in
  c ← channel_by_id channel_id;
  if decide (state c <> Creation) then throw (PduOther "invalid channel state")
  else if negb (creation_status create_resp =? CreationStatus.OK) then
    _ ← set_channel channel_id
          (mkChannel (CreationFailed (creation_status create_resp)) (dvc_close channel_id (processor c))
             (complete_data c) (chan_id c) (close_when_created c));
    mret []
  else if close_when_created c then
    _ ← remove_by_channel_id channel_id;
    mret [close_pdu channel_id]
  else
    let c' := mkChannel Opened (processor c) (complete_data c) (chan_id c) (close_when_created c) in
    _ ← set_channel channel_id c';
    msg ← with_processor channel_id c' (dvc_start channel_id);
    question PduEncode (encode_dvc_messages channel_id msg ChannelFlags.SHOW_PROTOCOL).

Definition DrdynvcServer_process (payload : list Z) : Serve (list SvcMessage) :=
  pdu ← question PduDecode (decode DrdynvcClientPdu payload);
  match pdu with
  | ClientCapabilities _ =>
      _ ← update (set_caps true);
      s ← access id;
      create_pending (ids_in_order s)
  | ClientCreate create_resp => process_create_response create_resp
  | ClientClose close =>
      _ ← remove_by_channel_id (cl_channel_id close);
      mret []
  | ClientData data => process_data data
  | ClientSoftSyncResponse response => process_soft_sync_response response
  end.

End server.
Arguments DynamicChannel : clear implicits.
Arguments DrdynvcServer : clear implicits.
