(* ===== verification/DvcProps.v ===== *)
(** Messages over dynamic virtual channels: what [encode_dvc_messages] cuts
    into PDUs the peer's [CompleteData] puts together again, every PDU fits one
    chunk of the static channel that carries it, and the routing of
    [outgoing_tunnel] reads the channel back from the bytes. *)

From S2P Require Import Prelude Cursor Codec Flags Mutation WriteBuf Mcs Svc SvcProps PduText DvcWire DvcCodec Dvc.

(** ** The PDUs of a message *)

Definition data_pdu (channel_id : Z) (piece : list Z) : DrdynvcDataPdu := Data (DataPdu_new channel_id piece).

(** All pieces but the last are full; a message of [MAX_DATA_SIZE] bytes or
    more starts with a Data First PDU. *)
Definition pdus_of (channel_id total : Z) (first : bool) (ps : list (list Z)) : list DrdynvcDataPdu :=
  match ps with
  | [] => []
  | p :: ps' =>
      (if first && (MAX_DATA_SIZE <=? total) then DataFirst (DataFirstPdu_new channel_id total p)
       else data_pdu channel_id p) :: map (data_pdu channel_id) ps'
  end.
Definition message_pdus (channel_id : Z) (data : list Z) : list DrdynvcDataPdu :=
  pdus_of channel_id (llen data) true (chunks (Z.to_nat MAX_DATA_SIZE) data).

Section encode.
Context {BF : Bitflags}.

Definition as_message (flags : Z) (pdu : DrdynvcDataPdu) : SvcMessage := with_flags flags (svc_message pdu).

Lemma fragment_loop_spec fuel channel_id flags data off res :
  llen data <= 4294967295 -> (off <= length data)%nat -> (length data - off <= fuel)%nat ->
  fragment_loop fuel channel_id flags (llen data) (MAX_DATA_SIZE <=? llen data) data (Z.of_nat off) res =
  Ok (res ++ map (as_message flags) (pdus_of channel_id (llen data) (off =? 0)%nat
    (chunks_loop fuel (Z.to_nat MAX_DATA_SIZE) (drop off data)))).
Proof.
  intros Hl. revert off res. induction fuel as [|fuel IH]; intros off res Ho Hf.
  { cbn [fragment_loop]. rewrite (proj2 (Z.ltb_ge _ _)) by (unfold llen; lia).
    rewrite drop_ge by lia. cbn. by rewrite app_nil_r. }
  cbn [fragment_loop chunks_loop]. destruct (Z.ltb_spec (Z.of_nat off) (llen data)) as [Hlt|Hge].
  2:{ rewrite drop_ge by (unfold llen in Hge; lia). cbn. by rewrite app_nil_r. }
  assert (Hd : length (drop off data) = (length data - off)%nat) by apply length_drop.
  destruct (drop off data) as [|x rest] eqn:Hdrop; [unfold llen in *; cbn in Hd; lia|]. rewrite <- Hdrop in *. clear x rest Hdrop.
  set (size := Z.min (llen data - Z.of_nat off) MAX_DATA_SIZE).
  assert (Hsz : 0 < size <= llen data - Z.of_nat off /\ size <= 1590) by (unfold size, MAX_DATA_SIZE; lia).
  rewrite (proj2 (Z.ltb_ge _ _)) by (unfold U64_MAX; lia).
  rewrite (proj2 (Z.leb_le (Z.of_nat off + size) _)) by lia. cbn [mbind outcome_bind].
  rewrite !Nat2Z.id.
  assert (Hpiece : take (Z.to_nat size) (drop off data) = take (Z.to_nat MAX_DATA_SIZE) (drop off data)).
  { destruct (Z.le_gt_cases MAX_DATA_SIZE (llen data - Z.of_nat off)); [f_equal; unfold size; lia|].
    rewrite !take_ge by (rewrite Hd; unfold size, MAX_DATA_SIZE, llen in *; lia). done. }
  assert (Hfirst : (Z.of_nat off =? 0) = (off =? 0)%nat)
    by (destruct (Nat.eqb_spec off 0); [apply Z.eqb_eq|apply Z.eqb_neq]; lia).
  rewrite Hpiece, Hfirst.
  replace (Z.of_nat off + size) with (Z.of_nat (off + Z.to_nat size)) by lia.
  assert (Hrest : chunks_loop fuel (Z.to_nat MAX_DATA_SIZE) (drop (Z.to_nat MAX_DATA_SIZE) (drop off data)) =
    chunks_loop fuel (Z.to_nat MAX_DATA_SIZE) (drop (off + Z.to_nat size) data)).
  { rewrite drop_drop. destruct (Z.le_gt_cases MAX_DATA_SIZE (llen data - Z.of_nat off)).
    - do 2 f_equal. unfold size. lia.
    - rewrite !drop_ge by (unfold size, MAX_DATA_SIZE, llen in *; lia). done. }
  assert (Hnz : (off + Z.to_nat size =? 0)%nat = false) by (apply Nat.eqb_neq; lia).
  assert (Hpdu : (if (MAX_DATA_SIZE <=? llen data) && (off =? 0)%nat then
      length ← cast_length "total_length" 4294967295 (llen data);
      Ok (DataFirst (DataFirstPdu_new channel_id length (take (Z.to_nat MAX_DATA_SIZE) (drop off data))))
    else Ok (Data (DataPdu_new channel_id (take (Z.to_nat MAX_DATA_SIZE) (drop off data))))) =
    Ok (if (off =? 0)%nat && (MAX_DATA_SIZE <=? llen data)
      then DataFirst (DataFirstPdu_new channel_id (llen data) (take (Z.to_nat MAX_DATA_SIZE) (drop off data)))
      else data_pdu channel_id (take (Z.to_nat MAX_DATA_SIZE) (drop off data))) :> outcome EncodeErrorKind _).
  { rewrite andb_comm. unfold cast_length. rewrite (proj2 (Z.leb_le (llen data) 4294967295)) by done.
    by destruct ((off =? 0)%nat && _). }
  rewrite Hpdu. cbn [mbind outcome_bind]. rewrite IH by (clearbody size; unfold llen in *; lia). rewrite Hnz, <- Hrest.
  cbn [pdus_of map]. rewrite <- app_assoc. do 2 f_equal.
  destruct (chunks_loop fuel _ _); done.
Qed.

(** What a message must satisfy: it is written as [data]. *)
Definition dvc_carries (m : DvcMessage) (data : list Z) : Prop :=
  writes m data /\ llen data <= 4294967295 /\ bytes_ok data.

Lemma encode_dvc_spec channel_id flags ms datas res :
  Forall2 dvc_carries ms datas ->
  encode_dvc_loop channel_id ms flags res =
    Ok (res ++ map (as_message flags) (datas ≫= message_pdus channel_id)).
Proof.
  intros H. revert res. induction H as [|m data ms datas (Hw & Hl & _) _ IH]; intros res; cbn [encode_dvc_loop].
  { cbn. by rewrite app_nil_r. }
  rewrite (encode_vec_writes m data Hw). cbn [mbind outcome_bind]. rewrite (proj2 Hw).
  pose proof (fragment_loop_spec (length data) channel_id flags data 0 res Hl ltac:(lia) ltac:(lia)) as Hf.
  change (Z.of_nat 0) with 0 in Hf. rewrite Hf. cbn [mbind outcome_bind]. rewrite IH, bind_cons, map_app, <- app_assoc. done.
Qed.

End encode.

(** ** Every PDU is well formed and fits a chunk *)

Lemma for_val_size v : FieldType.size_of_val (FieldType.for_val v) <= 4.
Proof. unfold FieldType.for_val. by zcase. Qed.

Definition pdu_fits (channel_id : Z) (p : DrdynvcDataPdu) : Prop :=
  DataPdu_wf p /\ data_pdu_channel_id p = channel_id /\ llen (DataPdu_wire p) <= 1599.

Lemma data_pdu_fits channel_id piece :
  is_u32 channel_id -> bytes_ok piece -> (length piece <= Z.to_nat MAX_DATA_SIZE)%nat ->
  pdu_fits channel_id (data_pdu channel_id piece).
Proof.
  intros Hc Hb Hl. split_and!; [split_and!; [apply header_new_ok|by apply for_val_ok|done]|done|].
  cbn [DataPdu_wire data_pdu]. rewrite llen_Data_wire. unfold DataPdu_size, strict_sum. cbn [foldr d_header d_data DataPdu_new cb_id Header_new].
  pose proof (for_val_size channel_id). unfold Header_size, HEADER_FIXED_PART_SIZE, MAX_DATA_SIZE, llen in *. lia.
Qed.

Lemma data_first_fits channel_id total piece :
  is_u32 channel_id -> is_u32 total -> bytes_ok piece -> (length piece <= Z.to_nat MAX_DATA_SIZE)%nat ->
  pdu_fits channel_id (DataFirst (DataFirstPdu_new channel_id total piece)).
Proof.
  intros Hc Ht Hb Hl. split_and!; [split_and!; [apply header_new_ok|by apply for_val_ok|by apply for_val_ok|done]|done|].
  cbn [DataPdu_wire]. rewrite llen_DataFirst_wire. unfold DataFirstPdu_size, strict_sum.
  cbn [foldr df_header df_data DataFirstPdu_new cb_id sp Header_new].
  pose proof (for_val_size channel_id). pose proof (for_val_size total).
  unfold Header_size, HEADER_FIXED_PART_SIZE, MAX_DATA_SIZE, llen in *. lia.
Qed.

Lemma Forall_concat_parts (ps : list (list Z)) : bytes_ok (concat ps) -> Forall bytes_ok ps.
Proof.
  induction ps as [|p ps IH]; intros H; [constructor|]. cbn in H. apply Forall_app in H as [? ?]. constructor; auto.
Qed.

Lemma message_pdus_fit channel_id data :
  is_u32 channel_id -> llen data <= 4294967295 -> bytes_ok data -> Forall (pdu_fits channel_id) (message_pdus channel_id data).
Proof.
  intros Hc Hl Hb. unfold message_pdus, chunks.
  destruct (chunks_loop_spec (length data) (Z.to_nat MAX_DATA_SIZE) data) as (Hcat & Hps & _); [unfold MAX_DATA_SIZE; lia|lia|].
  assert (Hbs : Forall bytes_ok (chunks_loop (length data) (Z.to_nat MAX_DATA_SIZE) data))
    by (apply Forall_concat_parts; by rewrite Hcat).
  destruct (chunks_loop _ _ _) as [|p ps]; cbn [pdus_of]; [constructor|].
  apply Forall_cons in Hps as [[_ Hp] Hps]. apply Forall_cons in Hbs as [Hbp Hbs]. constructor.
  - cbn [andb]. destruct (_ <=? _); [|by apply data_pdu_fits]. apply data_first_fits; [done| |done|done].
    pose proof (llen_nonneg data). width.
  - clear Hp Hbp Hcat p. apply Forall_map. induction Hps as [|q qs [_ Hq] _ IH]; [constructor|].
    apply Forall_cons in Hbs as [? ?]. constructor; [by apply data_pdu_fits|auto].
Qed.

(** ** Reassembly *)

(** The messages a receiver completes from a sequence of PDUs. *)
Fixpoint reassemble (pdus : list DrdynvcDataPdu) : Mut CompleteData DecodeErrorKind (list (list Z)) :=
  match pdus with
  | [] => mret []
  | p :: ps => r ← process_complete_data p; rs ← reassemble ps; mret (option_list r ++ rs)
  end.

Lemma reassemble_app ps qs s s' s'' xs ys :
  reassemble ps s = Some (inr xs, s') -> reassemble qs s' = Some (inr ys, s'') ->
  reassemble (ps ++ qs) s = Some (inr (xs ++ ys), s'').
Proof.
  revert s xs. induction ps as [|p ps IH]; intros s xs Hp Hq; [by injection Hp as <- <-|].
  cbn [reassemble app] in *. unfold mbind, Mut_bind in *.
  destruct (process_complete_data p s) as [[[|r] s1]|]; [done| |done].
  destruct (reassemble ps s1) as [[[|rs] s2]|] eqn:Hr; [done| |done]. injection Hp as <- <-.
  by rewrite (IH s1 rs), app_assoc.
Qed.

Ltac data_run :=
  cbv beta iota zeta delta [mbind Mut_bind access mret Mut_ret throw update id total_size collected
    negb andb orb CompleteData_new].

(** The pieces after a Data First PDU. *)
Lemma reassemble_rest channel_id total acc ps :
  total <= 4294967295 -> ps <> [] -> Forall (fun p : list Z => p <> []) ps -> acc <> [] ->
  llen acc + llen (concat ps) = total ->
  reassemble (map (data_pdu channel_id) ps) (mkCompleteData total acc) = Some (inr [acc ++ concat ps], CompleteData_new).
Proof.
  intros Ht Hne Hps. revert acc. induction Hps as [|p ps Hp Hps IH]; intros acc Ha Hl; [done|].
  assert (Hpos : forall q : list Z, q <> [] -> 0 < llen q) by (intros [|] ?; [done|unfold llen; cbn; lia]).
  pose proof (Hpos p Hp). pose proof (Hpos acc Ha). cbn [concat] in *. rewrite llen_app in Hl.
  cbn [map reassemble]. change (process_complete_data (data_pdu channel_id p)) with (process_data_pdu (DataPdu_new channel_id p)).
  unfold process_data_pdu. data_run. cbn [d_data DataPdu_new].
  pose proof (llen_nonneg (concat ps)).
  rewrite (proj2 (Z.eqb_neq total 0)) by lia.
  rewrite (proj2 (Z.ltb_ge U64_MAX _)) by (unfold U64_MAX; lia).
  destruct ps as [|q ps].
  - change (llen (concat [])) with 0 in Hl. rewrite (proj2 (Z.ltb_ge _ total)) by lia. rewrite (proj2 (Z.eqb_eq _ total)) by lia.
    cbn. by rewrite app_nil_r.
  - assert (0 < llen (concat (q :: ps))).
    { apply Forall_cons in Hps as [Hq _]. cbn [concat]. rewrite llen_app. pose proof (Hpos q Hq).
      pose proof (llen_nonneg (concat ps)). lia. }
    rewrite (proj2 (Z.ltb_lt _ total)) by lia. data_run.
    rewrite (IH ltac:(done) (acc ++ p)); [by rewrite <- app_assoc|by destruct acc|rewrite llen_app; lia].
Qed.

(** A message of at least one byte is put together again; the PDUs of an
    empty one do not exist. *)
Lemma reassemble_message channel_id data :
  llen data <= 4294967295 ->
  reassemble (message_pdus channel_id data) CompleteData_new =
    Some (inr (if decide (data = []) then [] else [data]), CompleteData_new).
Proof.
  intros Hl. unfold message_pdus, chunks.
  destruct (chunks_loop_spec (length data) (Z.to_nat MAX_DATA_SIZE) data) as (Hcat & Hps & Hn); [unfold MAX_DATA_SIZE; lia|lia|].
  destruct (decide (data = [])) as [->|Hne]; [done|].
  set (ps := chunks_loop _ _ _) in *. destruct ps as [|p ps]; [cbn in Hcat; by subst|]. cbn [pdus_of andb].
  apply Forall_cons in Hps as [[Hpn Hpl] Hps].
  assert (Hps' : Forall (fun q : list Z => q <> []) ps) by (eapply Forall_impl; [exact Hps|]; by intros q []).
  assert (Hlen : llen data = llen p + llen (concat ps)) by (rewrite <- Hcat; cbn [concat]; by rewrite llen_app).
  destruct (Z.leb_spec MAX_DATA_SIZE (llen data)) as [Hbig|Hsmall].
  - cbn [reassemble]. unfold process_complete_data at 1, process_data_first_pdu. data_run. cbn [df_length df_data DataFirstPdu_new].
    change (0 =? 0) with true. change (llen (@nil Z) =? 0) with true. data_run.
    destruct ps as [|q ps].
    + cbn in Hcat. rewrite app_nil_r in Hcat. subst p. by rewrite Z.eqb_refl.
    + assert (0 < llen (concat (q :: ps))).
      { apply Forall_cons in Hps' as [Hq _]. destruct q; [done|]. unfold llen. cbn. lia. }
      rewrite (proj2 (Z.eqb_neq (llen data) (llen p))) by lia. data_run.
      rewrite (reassemble_rest channel_id (llen data) p (q :: ps)) by (done || lia). cbn [option_list app].
      by rewrite <- Hcat.
  - destruct ps as [|q ps].
    + cbn in Hcat. rewrite app_nil_r in Hcat. by subst p.
    + exfalso. cbn [length] in Hn. apply Forall_cons in Hps as [[? _] _]. unfold MAX_DATA_SIZE, llen in *.
      assert (Hfull : (Z.to_nat 1590 <= length data)%nat); [|lia].
      change (length (p :: q :: ps)) with (S (S (length ps))) in Hn. lia.
Qed.

Lemma reassemble_messages channel_id datas :
  Forall (fun d => llen d <= 4294967295) datas ->
  reassemble (datas ≫= message_pdus channel_id) CompleteData_new =
    Some (inr (filter (fun d => d <> []) datas), CompleteData_new).
Proof.
  induction 1 as [|data datas Hl _ IH]; [done|]. rewrite bind_cons.
  erewrite reassemble_app; [|by apply reassemble_message|exact IH]. rewrite filter_cons.
  destruct (decide (data = [])) as [->|Hne]; [by rewrite decide_False by auto|by rewrite decide_True by done].
Qed.

(** ** From messages to bytes and back *)

Lemma writes_data_pdu (p : DrdynvcDataPdu) : DataPdu_wf p -> writes p (DataPdu_wire p).
Proof. intros H. split; [by apply encodes_DataPdu|apply size_DataPdu]. Qed.

(** What travels in one message of the static channel, on either side. *)
Definition read_back (channel_id : Z) (bytes : list Z) (p : DrdynvcDataPdu) : Prop :=
  decode DrdynvcServerPdu bytes = Ok (ServerData p) /\ decode DrdynvcClientPdu bytes = Ok (ClientData p) /\
  data_pdu_channel_id p = channel_id.

Lemma read_back_wire channel_id p : pdu_fits channel_id p -> read_back channel_id (DataPdu_wire p) p.
Proof.
  intros (Hw & Hc & _). split_and!; [| |done].
  - exact (decode_wire (C := ServerPdu_Codec) (ServerData p) Hw).
  - exact (decode_wire (C := ClientPdu_Codec) (ClientData p) Hw).
Qed.

Lemma messages_fit channel_id datas :
  is_u32 channel_id -> Forall (fun d => llen d <= 4294967295 /\ bytes_ok d) datas ->
  Forall (pdu_fits channel_id) (datas ≫= message_pdus channel_id).
Proof.
  intros Hc. induction 1 as [|d datas [Hl Hb] _ IH]; [constructor|]. rewrite bind_cons.
  apply Forall_app. split; [by apply message_pdus_fit|done].
Qed.

Section theorems.
Context {BF : Bitflags}.

(** Every message becomes [carries] for the static channel. *)
Lemma as_message_carries flags channel_id p :
  extra_flags flags -> pdu_fits channel_id p -> carries (as_message flags p) (DataPdu_wire p).
Proof. intros Hf (Hw & _ & Hl). split_and!; [by apply writes_data_pdu|lia|]. cbn. by rewrite union_bits. Qed.

Lemma dvc_messages_spec (channel_id flags : Z) (ms : list DvcMessage) (datas : list (list Z)) :
  is_u32 channel_id -> Forall2 dvc_carries ms datas ->
  exists msgs payloads pdus, encode_dvc_messages channel_id ms flags = Ok msgs /\
    Forall2 (fun m p => encode_unframed_pdu m = Ok p) msgs payloads /\
    Forall (fun p => llen p < CHANNEL_CHUNK_LENGTH) payloads /\
    Forall2 (read_back channel_id) payloads pdus /\
    reassemble pdus CompleteData_new = Some (inr (filter (fun d => d <> []) datas), CompleteData_new).
Proof.
  intros Hc Hms. pose proof (encode_dvc_spec channel_id flags ms datas [] Hms) as He.
  assert (Hd : Forall (fun d => llen d <= 4294967295 /\ bytes_ok d) datas)
    by (eapply Forall2_Forall_r; [exact Hms|apply Forall_true; by intros m d (_ & ? & ?)]).
  pose proof (messages_fit channel_id datas Hc Hd) as Hfit. set (pdus := datas ≫= message_pdus channel_id) in *.
  exists (map (as_message flags) pdus), (map DataPdu_wire pdus), pdus. split_and!.
  - exact He.
  - apply Forall2_fmap, Forall_Forall2_diag. eapply Forall_impl; [exact Hfit|]. intros p (Hw & _).
    apply (encode_vec_writes (boxed p)), writes_boxed. by apply writes_data_pdu.
  - apply Forall_map. eapply Forall_impl; [exact Hfit|]. intros p (_ & _ & ?). unfold CHANNEL_CHUNK_LENGTH. lia.
  - apply Forall2_fmap_l, Forall_Forall2_diag. eapply Forall_impl; [exact Hfit|]. apply read_back_wire.
  - apply reassemble_messages. eapply Forall_impl; [exact Hd|]. by intros d [].
Qed.

(** What a dynamic channel sends is what its peer receives.  Any messages
    below 4 GiB are cut into PDUs that each fit one chunk of the static
    channel, name the channel, and are read back by either side; fed to the
    reassembly of an idle channel they return exactly the messages, in order,
    except that an empty message is not sent at all, and leave it idle. *)
Theorem dvc_message_roundtrip (channel_id flags : Z) (ms : list DvcMessage) (datas : list (list Z)) :
  is_u32 channel_id -> Forall2 dvc_carries ms datas ->
  exists msgs payloads pdus, encode_dvc_messages channel_id ms flags = Ok msgs /\
    Forall2 (fun m p => encode_unframed_pdu m = Ok p) msgs payloads /\
    Forall (fun p => llen p < CHANNEL_CHUNK_LENGTH) payloads /\
    Forall2 (read_back channel_id) payloads pdus /\
    reassemble pdus CompleteData_new = Some (inr (filter (fun d => d <> []) datas), CompleteData_new).
Proof. apply dvc_messages_spec. Qed.

(** An interrupted message also costs the message after next.  When a
    message is abandoned and the next one arrives complete in a Data First PDU,
    that one is delivered, but the size of the abandoned message is kept: the
    message that follows, although complete in one Data PDU and shorter than
    the abandoned one, is not delivered but taken for its continuation. *)
Theorem dvc_stale_total_size (channel_id total : Z) (part whole next : list Z) :
  llen part < total -> llen next < total <= 4294967295 ->
  reassemble [DataFirst (DataFirstPdu_new channel_id total part);
      DataFirst (DataFirstPdu_new channel_id (llen whole) whole); data_pdu channel_id next] CompleteData_new =
    Some (inr [whole], mkCompleteData total next) /\
  reassemble [DataFirst (DataFirstPdu_new channel_id (llen whole) whole); data_pdu channel_id next] CompleteData_new =
    Some (inr [whole; next], CompleteData_new).
Proof.
  intros Hp [Hn Ht]. pose proof (llen_nonneg part). pose proof (llen_nonneg next).
  split; cbn [reassemble]; unfold process_complete_data, data_pdu, process_data_first_pdu, process_data_pdu; data_run;
    cbn [df_length df_data d_data DataFirstPdu_new DataPdu_new]; change (0 =? 0) with true;
    change (llen (@nil Z) =? 0) with true; data_run.
  - rewrite (proj2 (Z.eqb_neq total (llen part))), (proj2 (Z.eqb_neq total 0)) by lia. data_run.
    rewrite Z.eqb_refl. change (llen (@nil Z)) with 0. data_run. rewrite (proj2 (Z.eqb_neq total 0)) by lia.
    rewrite Z.add_0_l, (proj2 (Z.ltb_ge U64_MAX _)) by (unfold U64_MAX; lia).
    by rewrite (proj2 (Z.ltb_lt (llen next) total)) by lia.
  - by rewrite Z.eqb_refl.
Qed.

(** ** Routing *)

Lemma header_byte_parts c h :
  header_ok c h -> Z.shiftr (header_byte h) 4 = Cmd_as_u8 c /\ Z.land (header_byte h) 3 = cb_id h.
Proof.
  intros (Hc & Hi & Hs). unfold header_byte. rewrite Hc. rewrite Z.shiftr_div_pow2 by lia.
  change 3 with (Z.ones 2). rewrite Z.land_ones by lia. change (2 ^ 4) with 16. change (2 ^ 2) with 4.
  split; [symmetry; apply (Z.div_unique _ _ _ (sp h * 4 + cb_id h)); lia|].
  symmetry; apply (Z.mod_unique _ _ (Cmd_as_u8 c * 4 + sp h)); lia.
Qed.

Lemma head_field f v tail w :
  field_ok f v -> w = f ->
  (if w =? 0 then head (field_wire f v ++ tail)
   else if w =? 1 then if 2 <=? llen (field_wire f v ++ tail) then Some (from_le_bytes (take 2 (field_wire f v ++ tail))) else None
   else if 4 <=? llen (field_wire f v ++ tail) then Some (from_le_bytes (take 4 (field_wire f v ++ tail))) else None) = Some v.
Proof.
  intros Hf ->. pose proof (llen_field_wire f v) as Hl. pose proof (llen_nonneg tail). rewrite llen_app, Hl.
  destruct Hf as [[-> Hv]|[[-> Hv]|[-> Hv]]].
  - change (field_wire FieldType.U8 v) with [v mod 256]. cbn [Z.eqb FieldType.U8 head app]. f_equal. by apply Z.mod_small.
  - cbn [Z.eqb Pos.eqb FieldType.U16]. rewrite (proj2 (Z.leb_le 2 _)) by (cbn; lia).
    rewrite take_app_length' by (unfold field_wire; by rewrite length_to_le_bytes). unfold field_wire. rewrite from_to_le_bytes. f_equal. by apply Z.mod_small.
  - cbn [Z.eqb Pos.eqb FieldType.U32]. rewrite (proj2 (Z.leb_le 4 _)) by (cbn; lia).
    rewrite take_app_length' by (unfold field_wire; by rewrite length_to_le_bytes). unfold field_wire. rewrite from_to_le_bytes. f_equal. by apply Z.mod_small.
Qed.

Lemma route_data c h f v tail :
  header_ok c h -> (c = CmdDataFirst \/ c = CmdData) -> field_ok f v -> cb_id h = f ->
  data_channel_id ([header_byte h] ++ field_wire f v ++ tail) = Some v.
Proof.
  intros Hh Hc Hf Hi. destruct (header_byte_parts c h Hh) as [Hs Hl]. cbn [app data_channel_id]. rewrite Hs, Hl.
  destruct Hc as [-> | ->]; cbn [Cmd_as_u8 Z.eqb orb negb Pos.eqb]; by apply head_field.
Qed.

Lemma route_none c h tail :
  header_ok c h -> c ∉ [CmdDataFirst; CmdData; CmdDataFirstCompressed; CmdDataCompressed] ->
  data_channel_id ([header_byte h] ++ tail) = None.
Proof.
  intros Hh Hc. destruct (header_byte_parts c h Hh) as [Hs _]. cbn [app data_channel_id]. rewrite Hs.
  destruct c; try done; exfalso; apply Hc; repeat constructor.
Qed.

Lemma data_channel_id_wire (p : DrdynvcServerPdu) :
  ServerPdu_wf p ->
  data_channel_id (ServerPdu_wire p) = match p with ServerData d => Some (data_pdu_channel_id d) | _ => None end.
Proof.
  destruct p as [p|p|p|[p|p]|p]; cbn [ServerPdu_wf ServerPdu_wire]; intros Hw.
  - destruct p; by eapply (route_none CmdCapability); [apply Hw|by set_solver].
  - by eapply (route_none CmdCreate); [apply Hw|by set_solver].
  - by eapply (route_none CmdClose); [apply Hw|by set_solver].
  - destruct Hw as (Hh & Hf & _). by eapply (route_data CmdDataFirst); [exact Hh|left|exact Hf|].
  - destruct Hw as (Hh & Hf & _). by eapply (route_data CmdData); [exact Hh|right|exact Hf|].
  - by eapply (route_none CmdSoftSyncRequest); [apply header_new_ok|by set_solver].
Qed.

(** Which way a message of the server leaves is decided right from its
    bytes.  However wide the channel ID was written, a data PDU goes to the
    tunnel its channel was moved to, or to TCP; every other PDU goes to TCP. *)
Theorem dvc_routing {D} (s : DrdynvcServer D) (p : DrdynvcServerPdu) (bytes : list Z) :
  ServerPdu_wf p -> encode_unframed_pdu (as_svc_msg_with_flag p) = Ok bytes ->
  outgoing_tunnel bytes s =
    match p with ServerData d => tunnel_for_outgoing_channel (data_pdu_channel_id d) s | _ => None end.
Proof.
  intros Hw He.
  assert (Hb : bytes = ServerPdu_wire p).
  { pose proof (encode_vec_writes (boxed p) _ (writes_boxed p _ (writes_wire (C := ServerPdu_Codec) p Hw))) as H.
    unfold encode_unframed_pdu in He. cbn in He, H. rewrite H in He. by injection He. }
  unfold outgoing_tunnel. rewrite Hb, data_channel_id_wire by done. case_bool_decide as Hempty.
  - destruct p; try done. unfold tunnel_for_outgoing_channel. by rewrite Hempty, lookup_empty.
  - by destruct p.
Qed.

End theorems.

(** ** Witnesses *)

(** A message that is written as the bytes it holds. *)
Definition raw_message (bs : list Z) : DvcMessage := mkBoxed (WriteCursor.write_slice bs) (llen bs).

Lemma raw_carries bs : llen bs <= 4294967295 -> bytes_ok bs -> dvc_carries (raw_message bs) bs.
Proof. intros Hl Hb. split_and!; [split; [apply encodes_write_slice|done]|done|done]. Qed.

Lemma dvc_message_roundtrip_witness :
  exists msgs payloads pdus,
    encode_dvc_messages (BF := bits_flags) 300 [raw_message (replicate 2000 7); raw_message []; raw_message [1; 2]] 16 = Ok msgs /\
    Forall2 (fun m p => encode_unframed_pdu m = Ok p) msgs payloads /\
    Forall (fun p => llen p < CHANNEL_CHUNK_LENGTH) payloads /\ Forall2 (read_back 300) payloads pdus /\
    reassemble pdus CompleteData_new = Some (inr [replicate 2000 7; [1; 2]], CompleteData_new).
Proof.
  apply (dvc_message_roundtrip 300 16 _ [replicate 2000 7; []; [1; 2]]); [done|].
  constructor; [by apply raw_carries; [|apply Forall_replicate]|].
  constructor; [by apply raw_carries; [|apply Forall_nil]|]. constructor; [|constructor].
  apply raw_carries; [done|]. by repeat (apply Forall_cons; split; [done|]).
Defined.

Lemma dvc_stale_total_size_witness :
  reassemble [DataFirst (DataFirstPdu_new 1 5 [1; 2]); DataFirst (DataFirstPdu_new 1 (llen [3]) [3]); data_pdu 1 [4]]
    CompleteData_new = Some (inr [[3]], mkCompleteData 5 [4]).
Proof. by apply (dvc_stale_total_size 1 5 [1; 2] [3] [4]). Defined.

Lemma dvc_routing_witness :
  outgoing_tunnel [50; 112; 17; 1; 0; 9]
    (set_outgoing (D := unit) (fun _ => {[70000 := RELIABLE_UDP]}) DrdynvcServer_new) = Some RELIABLE_UDP.
Proof.
  rewrite (dvc_routing (BF := bits_flags) _ (ServerData (data_pdu 70000 [9]))); [done| |done].
  split_and!; [apply header_new_ok|by apply for_val_ok|by repeat constructor].
Defined.
