(* ===== verification/DvcServer.v ===== *)
(** The server of the DRDYNVC channel as a state machine: what holds in every
    state its methods can reach, whatever the client sends and in whatever
    order the embedder calls, and how the processors of the channels are
    treated over their life. *)

From S2P Require Import Prelude Cursor Codec Flags Mutation WriteBuf Mcs Svc SvcProps PduText DvcWire DvcCodec Dvc DvcProps.

(** ** What is asked of processors *)

(** A processor that returns: it does not panic, what it sends can be encoded,
    and its type (the Rust type of the object) does not change. *)
Class QuietProcessor (D : Type) {DP : DvcProcessor D} := {
  quiet_start id d : exists r d', dvc_start id d = Some (r, d') /\ dvc_type_id d' = dvc_type_id d /\
    forall ms, r = inr ms -> exists datas, Forall2 dvc_carries ms datas;
  quiet_process id payload d : exists r d', dvc_process id payload d = Some (r, d') /\ dvc_type_id d' = dvc_type_id d /\
    forall ms, r = inr ms -> exists datas, Forall2 dvc_carries ms datas;
  quiet_close id d : dvc_type_id (dvc_close id d) = dvc_type_id d;
}.

(** What is to hold of a processor in each state of its channel, and of a
    processor that was dropped. *)
Class Lifecycle (D : Type) {DP : DvcProcessor D} := {
  fresh : D -> Prop;
  allowed : (D -> D) -> Prop;
  in_state : ChannelState -> Z -> D -> Prop;
  after_drop : D -> Prop;
  life_new id d : fresh d -> in_state Pending id d;
  life_request id d : in_state Pending id d -> in_state Creation id d;
  life_fail id d st : in_state Creation id d -> in_state (CreationFailed st) id (dvc_close id d);
  life_start id d r d' : in_state Creation id d -> dvc_start id d = Some (r, d') -> in_state Opened id d';
  life_process id d payload r d' :
    in_state Opened id d -> dvc_process id payload d = Some (r, d') -> in_state Opened id d';
  life_access id d f : allowed f -> in_state Opened id d -> in_state Opened id (f d);
  life_type d f : allowed f -> dvc_type_id (f d) = dvc_type_id d;
  life_drop id d st :
    in_state st id d -> after_drop (if decide (st = Opened) then dvc_close id d else d);
}.

Section server.
Context {BF : Bitflags} {D : Type} {DP : DvcProcessor D} {QP : QuietProcessor D} {LC : Lifecycle D}.

Abbreviation Server := (DrdynvcServer D).
Abbreviation Chan := (DynamicChannel D).
Abbreviation Serve := (Mut Server PduError).

Record server_inv (s : Server) : Prop := {
  sv_next : 0 <= next_channel_id s <= 4294967295;
  sv_ids id c : dynamic_channels s !! id = Some c -> 0 <= id < next_channel_id s /\ chan_id c = id;
  sv_caps id c : caps_received s = false -> dynamic_channels s !! id = Some c -> state c = Pending;
  sv_close id c : dynamic_channels s !! id = Some c -> state c = Opened -> close_when_created c = false;
  sv_life id c : dynamic_channels s !! id = Some c -> in_state (state c) id (processor c);
  sv_types t id : type_id_to_channel_id s !! t = Some id ->
    exists c, dynamic_channels s !! id = Some c /\ dvc_type_id (processor c) = t;
  sv_out id t : outgoing_tunnel_channels s !! id = Some t ->
    t = RELIABLE_UDP /\ exists c, dynamic_channels s !! id = Some c /\ state c = Opened;
  sv_in : incoming_tunnel_channels s ⊆ outgoing_tunnel_channels s;
  sv_sync : match soft_sync_state s with
    | Idle => outgoing_tunnel_channels s = ∅ /\ incoming_tunnel_channels s = ∅
    | Active tunnels false => tunnels = {[RELIABLE_UDP]} /\ incoming_tunnel_channels s = ∅
    | Active tunnels true => tunnels = {[RELIABLE_UDP]} /\ early_tunnel_frames s = []
    end;
  sv_early : llen (early_tunnel_frames s) <= MAX_EARLY_TUNNEL_FRAMES;
  sv_frames : Forall bytes_ok (early_tunnel_frames s);
  sv_dropped : Forall after_drop (dropped s);
}.

Abbreviation kept := (fun _ s' => server_inv s').

Lemma new_inv : server_inv DrdynvcServer_new.
Proof.
  split; cbn; try done; try (intros *; rewrite lookup_empty; done); try (intros *; intros ?; rewrite lookup_empty; done).
Qed.

(** *** Changing one channel *)

(** A channel that is open stays open, and only a known client makes a channel
    leave its first state. *)
Lemma put_inv s id (c c' : Chan) :
  server_inv s -> dynamic_channels s !! id = Some c ->
  chan_id c' = chan_id c -> dvc_type_id (processor c') = dvc_type_id (processor c) ->
  (caps_received s = false -> state c' = Pending) ->
  (state c = Opened -> state c' = Opened) ->
  (state c' = Opened -> close_when_created c' = false) ->
  in_state (state c') id (processor c') ->
  server_inv (set_channels <[id := c']> s).
Proof.
  intros Hs Hc Hid Ht Hcap Hop Hcl Hlife.
  split; cbn; try apply Hs.
  - intros i x. rewrite lookup_insert_Some. intros [[-> <-]|[_ Hx]]; [|by apply (sv_ids s Hs)].
    rewrite Hid. by apply (sv_ids s Hs).
  - intros i x Hcf. rewrite lookup_insert_Some. intros [[_ <-]|[_ Hx]]; [auto|by eapply (sv_caps s Hs)].
  - intros i x. rewrite lookup_insert_Some. intros [[_ <-]|[_ Hx]]; [auto|by eapply (sv_close s Hs)].
  - intros i x. rewrite lookup_insert_Some. intros [[-> <-]|[_ Hx]]; [done|by apply (sv_life s Hs)].
  - intros t i H. destruct (sv_types s Hs t i H) as (x & Hx & Hxt). destruct (decide (id = i)) as [->|Hne].
    + exists c'. rewrite lookup_insert_eq. split; [done|]. rewrite Ht. congruence.
    + exists x. by rewrite lookup_insert_ne.
  - intros i t H. destruct (sv_out s Hs i t H) as [-> (x & Hx & Hxo)]. split; [done|].
    destruct (decide (id = i)) as [->|Hne].
    + exists c'. rewrite lookup_insert_eq. split; [done|]. apply Hop. congruence.
    + exists x. by rewrite lookup_insert_ne.
Qed.

(** A new channel under the next ID. *)
Lemma channel_insert_inv s (p : D) st :
  server_inv s -> next_channel_id s + 1 <= 4294967295 -> fresh p ->
  (st = Pending \/ st = Creation /\ caps_received s = true) ->
  wpm (insert_boxed_with_id p st (next_channel_id s)) (fun r s' => server_inv s' /\ r = inr tt /\
      dynamic_channels s' = <[next_channel_id s := DynamicChannel_new p (next_channel_id s) st]> (dynamic_channels s) /\
      type_id_to_channel_id s' = type_id_to_channel_id s)
    (set_next (next_channel_id s + 1) s).
Proof.
  intros Hs Hn Hp Hst. cbn.
  assert (Hfree : dynamic_channels s !! next_channel_id s = None).
  { apply eq_None_not_Some. intros [c Hc]. apply (sv_ids s Hs) in Hc. lia. }
  split; [|done]. rewrite Hfree. cbn. split; cbn; try apply Hs.
  - pose proof (sv_next s Hs). lia.
  - intros i x. rewrite lookup_insert_Some. pose proof (sv_next s Hs).
    intros [[<- <-]|[_ Hx]]; [cbn; lia|]. apply (sv_ids s Hs) in Hx. lia.
  - intros i x Hcf. rewrite lookup_insert_Some. intros [[_ <-]|[_ Hx]]; [|by eapply (sv_caps s Hs)].
    destruct Hst as [->|[_ ?]]; [done|congruence].
  - intros i x. rewrite lookup_insert_Some. intros [[_ <-]|[_ Hx]]; [done|by eapply (sv_close s Hs)].
  - intros i x. rewrite lookup_insert_Some. intros [[<- <-]|[_ Hx]]; [|by apply (sv_life s Hs)].
    cbn. destruct Hst as [->|[-> _]]; [by apply life_new|by apply life_request, life_new].
  - intros t i H. destruct (sv_types s Hs t i H) as (x & Hx & Hxt). exists x.
    rewrite lookup_insert_ne by (intros <-; congruence). done.
  - intros i t H. destruct (sv_out s Hs i t H) as [-> (x & Hx & Hxo)]. split; [done|]. exists x.
    rewrite lookup_insert_ne by (intros <-; congruence). done.
  - rewrite app_nil_r. apply Hs.
Qed.

(** *** Removing a channel *)

(** The state without the tunnel assignments of a channel. *)
Lemma unroute_inv s id :
  server_inv s -> server_inv (set_incoming (delete id) (set_outgoing (delete id) s)).
Proof.
  intros Hs. split; cbn; try apply Hs.
  - intros i t. rewrite lookup_delete_Some. intros [_ H]. by apply (sv_out s Hs).
  - apply delete_mono, (sv_in s Hs).
  - pose proof (sv_sync s Hs) as H. destruct (soft_sync_state s) as [|ts []]; [|done|].
    + destruct H as [-> ->]. by rewrite !delete_empty.
    + destruct H as [-> ->]. by rewrite delete_empty.
Qed.

Lemma drop_inv s id (c : Chan) :
  server_inv s -> dynamic_channels s !! id = Some c -> outgoing_tunnel_channels s !! id = None ->
  type_id_to_channel_id s !! dvc_type_id (processor c) <> Some id ->
  server_inv (set_dropped (fun d => d ++ [drop_channel c]) (set_channels (delete id) s)).
Proof.
  intros Hs Hc Ho Ht. split; cbn; try apply Hs.
  - intros i x. rewrite lookup_delete_Some. intros [_ H]. by apply (sv_ids s Hs).
  - intros i x Hf. rewrite lookup_delete_Some. intros [_ H]. by eapply (sv_caps s Hs).
  - intros i x. rewrite lookup_delete_Some. intros [_ H]. by eapply (sv_close s Hs).
  - intros i x. rewrite lookup_delete_Some. intros [_ H]. by apply (sv_life s Hs).
  - intros t i H. destruct (sv_types s Hs t i H) as (x & Hx & Hxt). exists x. split; [|done].
    apply lookup_delete_Some. split; [|done]. intros <-. apply Ht. congruence.
  - intros i t H. destruct (sv_out s Hs i t H) as [-> (x & Hx & Hxo)]. split; [done|]. exists x. split; [|done].
    apply lookup_delete_Some. split; [|done]. congruence.
  - apply Forall_app. split; [apply Hs|]. constructor; [|constructor].
    unfold drop_channel. destruct (sv_ids s Hs id c Hc) as [_ Hi]. rewrite Hi. apply life_drop. by apply (sv_life s Hs).
Qed.

Lemma untype_inv s t : server_inv s -> server_inv (set_types (delete t) s).
Proof.
  intros Hs. split; cbn; try apply Hs. intros t' i. rewrite lookup_delete_Some. intros [_ H]. by apply (sv_types s Hs).
Qed.

Lemma remove_channel_inv s i :
  server_inv s ->
  wpm (remove_by_channel_id i) (fun r s' => server_inv s' /\ r = inr (dynamic_channels s !! i)) s.
Proof.
  intros Hs. unfold remove_by_channel_id. apply wpm_update, wpm_update, wpm_access. cbv beta.
  pose proof (unroute_inv s i Hs) as H1. set (s1 := set_incoming _ _) in *.
  change (dynamic_channels s) with (dynamic_channels s1).
  assert (Ho : outgoing_tunnel_channels s1 !! i = None) by apply lookup_delete_eq.
  change (id s1) with s1. clearbody s1.
  destruct (dynamic_channels s1 !! i) as [c|] eqn:Hc; [|by apply wpm_ret].
  apply wpm_update. destruct (decide _) as [Ht|Ht].
  - pose proof (untype_inv s1 (dvc_type_id (processor c)) H1) as H2.
    assert (Hn : type_id_to_channel_id (set_types (delete (dvc_type_id (processor c))) s1) !!
      dvc_type_id (processor c) <> Some i) by (cbn; by rewrite lookup_delete_eq).
    pose proof (drop_inv _ i c H2 Hc Ho Hn) as H3. done.
  - by pose proof (drop_inv s1 i c H1 Hc Ho Ht).
Qed.

(** *** Registering channels *)

Lemma reserve_inv {A} s (k : Z -> Serve A) Q :
  (next_channel_id s + 1 <= 4294967295 -> wpm (k (next_channel_id s)) Q (set_next (next_channel_id s + 1) s)) ->
  next_channel_id s < 4294967295 -> wpm (reserve_channel ≫= k) Q s.
Proof.
  intros H Hlt. apply wpm_bind. unfold reserve_channel. apply wpm_access.
  rewrite (proj2 (Z.leb_le (next_channel_id s + 1) _)) by lia. apply H. lia.
Qed.

Lemma create_with_id_inv s p :
  server_inv s -> next_channel_id s + 1 <= 4294967295 -> fresh p ->
  wpm (create_channel_with_id p (next_channel_id s)) kept (set_next (next_channel_id s + 1) s).
Proof.
  intros Hs Hn Hp. unfold create_channel_with_id. apply wpm_access. cbn [caps_received set_next].
  destruct (caps_received s) eqn:Hcap; cbn [negb]; apply wpm_bind;
    (eapply wpm_mono; [apply channel_insert_inv; [done..|tauto]|]); intros [e|[]] s' (Hs' & Hr & _); (done || by apply wpm_ret).
Qed.

Lemma with_dynamic_channel_inv s p :
  server_inv s -> next_channel_id s < 4294967295 -> fresh p -> wpm (with_dynamic_channel p) kept s.
Proof.
  intros Hs Hlt Hp. apply reserve_inv; [|done]. intros Hn. apply wpm_bind.
  eapply wpm_mono; [apply channel_insert_inv; [done..|by left]|]. intros [e|[]] s' (Hs' & Hr & Hch & Hty); [done|].
  cbn. split; cbn; try apply Hs'. intros t i. rewrite lookup_insert_Some. intros [[<- <-]|[_ H]].
  - rewrite Hch. eexists. rewrite lookup_insert_eq. done.
  - by apply (sv_types s' Hs').
Qed.

Lemma create_channel_inv s p :
  server_inv s -> next_channel_id s < 4294967295 -> fresh p -> wpm (create_channel p) kept s.
Proof. intros Hs Hlt Hp. apply reserve_inv; [|done]. intros Hn. by apply create_with_id_inv. Qed.

Lemma create_channel_boxed_inv s p :
  server_inv s -> next_channel_id s < 4294967295 -> fresh p -> wpm (create_channel_boxed p) kept s.
Proof.
  intros Hs Hlt Hp. apply reserve_inv; [|done]. intros Hn. apply wpm_bind.
  eapply wpm_mono; [by apply create_with_id_inv|]. intros [e|m] s' Hs'; [done|by apply wpm_ret].
Qed.

Lemma skip_id_inv s : server_inv s -> next_channel_id s + 1 <= 4294967295 -> server_inv (set_next (next_channel_id s + 1) s).
Proof.
  intros Hs Hn. split; cbn; try apply Hs; [pose proof (sv_next s Hs); lia|].
  intros i x Hx. apply (sv_ids s Hs) in Hx. lia.
Qed.

Lemma create_channel_with_inv s build :
  server_inv s -> next_channel_id s < 4294967295 -> (forall id p, build id = inr p -> fresh p) ->
  wpm (create_channel_with build) kept s.
Proof.
  intros Hs Hlt Hb. apply reserve_inv; [|done]. intros Hn.
  destruct (build (next_channel_id s)) as [e|p] eqn:Hbuild.
  - apply wpm_throw. by apply skip_id_inv.
  - apply create_with_id_inv; [done|done|by eapply Hb].
Qed.

(** *** Closing and accessing channels *)

Lemma close_channel_inv s i : server_inv s -> wpm (close_channel i) kept s.
Proof.
  intros Hs. unfold close_channel. apply wpm_access. change (id s) with s.
  destruct (dynamic_channels s !! i) as [c|] eqn:Hc; [|by apply wpm_ret].
  assert (Hrm : forall A (k : option Chan -> Serve A) Q, (forall s', server_inv s' -> wpm (k (Some c)) Q s') ->
    wpm (remove_by_channel_id i ≫= k) Q s).
  { intros A k Q Hk. apply wpm_bind. eapply wpm_mono; [by apply remove_channel_inv|]. intros r s' [Hs' ->].
    rewrite Hc. by apply Hk. }
  destruct (state c) eqn:Hst.
  - apply Hrm. intros s' Hs'. by apply wpm_ret.
  - apply wpm_update, wpm_ret. eapply (put_inv s i c); cbn; [done..| | |done|].
    + intros Hf. pose proof (sv_caps s Hs i c Hf Hc). congruence.
    + congruence.
    + rewrite <- Hst. by apply (sv_life s Hs).
  - apply Hrm. intros s' Hs'. apply wpm_update, wpm_update, wpm_ret. by apply unroute_inv.
  - apply Hrm. intros s' Hs'. by apply wpm_ret.
Qed.

Lemma dvc_by_id_mut_inv s i f : server_inv s -> allowed f -> wpm (dvc_by_id_mut i f) kept s.
Proof.
  intros Hs Hf. unfold dvc_by_id_mut. apply wpm_access. change (id s) with s.
  destruct (dynamic_channels s !! i) as [c|] eqn:Hc; [|by apply wpm_ret].
  destruct (decide _) as [|Hst]; [by apply wpm_ret|]. apply dec_stable in Hst. apply wpm_update, wpm_ret.
  eapply (put_inv s i c); cbn; [done..| | | | |].
  - by apply life_type.
  - intros Hcf. by apply (sv_caps s Hs i).
  - done.
  - intros _. by apply (sv_close s Hs i).
  - rewrite Hst. apply life_access; [done|]. rewrite <- Hst. by apply (sv_life s Hs).
Qed.

(** *** Soft-Sync *)

Lemma select_channels_spec (s : Server) ids (acc m : gmap Z Z) :
  select_channels s ids acc = inr m ->
  m = acc ∪ list_to_map ((., RELIABLE_UDP) <$> ids) /\ NoDup ids /\
  (forall i, i ∈ ids -> acc !! i = None /\ is_channel_opened i s = true).
Proof.
  revert acc. induction ids as [|i ids IH]; intros acc; cbn [select_channels].
  { intros [= <-]. cbn. rewrite (right_id_L ∅ (∪)). split_and!; [done|constructor|set_solver]. }
  destruct (is_channel_opened i s) eqn:Ho; cbn [negb]; [|done].
  destruct (acc !! i) eqn:Ha; cbn [is_some]; [done|]. intros H. apply IH in H as (-> & Hn & Hin).
  assert (Hi : i ∉ ids) by (intros Hx; destruct (Hin i Hx) as [Hx' _]; by rewrite lookup_insert_eq in Hx').
  split_and!.
  - cbn. by rewrite <- insert_union_l, <- insert_union_r by done.
  - by constructor.
  - intros j Hj. apply elem_of_cons in Hj as [->|Hj]; [done|]. destruct (Hin j Hj) as [Hx ?].
    rewrite lookup_insert_None in Hx. naive_solver.
Qed.

Lemma opened_channel (s : Server) i :
  is_channel_opened i s = true <-> exists c : Chan, dynamic_channels s !! i = Some c /\ state c = Opened.
Proof.
  unfold is_channel_opened. destruct (dynamic_channels s !! i) as [c|].
  - rewrite bool_decide_eq_true. naive_solver.
  - naive_solver.
Qed.

Lemma request_inv s ids : server_inv s -> wpm (request_reliable_udp ids) kept s.
Proof.
  intros Hs. unfold request_reliable_udp. destruct (_ =? 0); [by apply wpm_throw|].
  apply wpm_access. change (id s) with s. pose proof (sv_sync s Hs) as Hsync.
  destruct (soft_sync_state s) eqn:Hst; [|by apply wpm_throw].
  destruct (select_channels s ids ∅) as [e|m] eqn:Hsel; [by apply wpm_throw|].
  apply select_channels_spec in Hsel as (-> & Hn & Hin). apply wpm_update, wpm_update, wpm_ret.
  rewrite (left_id_L ∅ (∪)). destruct Hsync as [_ Hinc]. split; cbn; try apply Hs.
  - intros i t Hl. apply elem_of_list_to_map_2 in Hl. apply list_elem_of_fmap in Hl as (j & [= -> ->] & Hj).
    split; [done|]. apply opened_channel. by apply Hin.
  - rewrite Hinc. apply map_empty_subseteq.
  - done.
Qed.

(** *** Data *)

Lemma process_complete_total p k : exists r k', process_complete_data p k = Some (r, k').
Proof.
  assert (H : process_complete_data p k <> None).
  { destruct p as [p|p]; cbn [process_complete_data]; unfold process_data_first_pdu, process_data_pdu; data_run;
      repeat (case_match; data_run); congruence. }
  destruct (process_complete_data p k) as [[r k']|]; [eauto|done].
Qed.

(** A channel keeps its place while its reassembly or its processor changes. *)
Lemma channel_by_id_run s i (c : Chan) : dynamic_channels s !! i = Some c -> channel_by_id i s = Some (inr c, s).
Proof. intros Hc. unfold channel_by_id, mbind, Mut_bind, access, id. by rewrite Hc. Qed.

Lemma wpm_channel_by_id {A} s i (c : Chan) (k : Chan -> Serve A) Q :
  dynamic_channels s !! i = Some c -> wpm (k c) Q s -> wpm (channel_by_id i ≫= k) Q s.
Proof. intros Hc Hk. apply wpm_bind. unfold wpm at 1. by rewrite (channel_by_id_run s i c). Qed.

Lemma wpm_channel_by_id_none {A} s i (k : Chan -> Serve A) Q :
  dynamic_channels s !! i = None -> (forall e, Q (inl e) s) -> wpm (channel_by_id i ≫= k) Q s.
Proof.
  intros Hc HQ. apply wpm_bind. unfold channel_by_id. apply wpm_access. change (id s) with s. rewrite Hc. apply HQ.
Qed.

Lemma with_complete_inv {A} s i (c : Chan) p (k : option (list Z) -> Serve A) Q :
  server_inv s -> dynamic_channels s !! i = Some c ->
  (forall r k', let s' := set_channels <[i := mkChannel (state c) (processor c) k' (chan_id c) (close_when_created c)]> s in
    server_inv s' -> match r with inl e => Q (inl e) s' | inr a => wpm (k a) Q s' end) ->
  wpm (with_complete_data i c (process_complete_data p) ≫= k) Q s.
Proof.
  intros Hs Hc Hk. apply wpm_bind. unfold wpm at 1, with_complete_data.
  destruct (process_complete_total p (complete_data c)) as (r & k' & ->).
  assert (Hs' : server_inv (set_channels
    <[i := mkChannel (state c) (processor c) k' (chan_id c) (close_when_created c)]> s)).
  { eapply (put_inv s i c); cbn; [done..| | | |].
    - intros Hf. by eapply (sv_caps s Hs).
    - done.
    - by apply (sv_close s Hs i).
    - by apply (sv_life s Hs). }
  destruct r as [e|a]; [exact (Hk (inl (PduDecode e)) k' Hs')|exact (Hk (inr a) k' Hs')].
Qed.

(** Running a method of an open channel's processor. *)
Lemma with_processor_inv {A B} s i (c : Chan) (m : Mut D PduError A) (k : A -> Serve B) Q :
  server_inv s -> dynamic_channels s !! i = Some c -> state c = Opened ->
  (exists r d', m (processor c) = Some (r, d') /\ dvc_type_id d' = dvc_type_id (processor c) /\
    in_state Opened i d' /\
    let s' := set_channels <[i := mkChannel (state c) d' (complete_data c) (chan_id c) (close_when_created c)]> s in
    (server_inv s' -> match r with inl e => Q (inl e) s' | inr a => wpm (k a) Q s' end)) ->
  wpm (with_processor i c m ≫= k) Q s.
Proof.
  intros Hs Hc Ho (r & d' & Hm & Ht & Hl & Hk). apply wpm_bind. unfold wpm at 1, with_processor. rewrite Hm.
  assert (Hs' : server_inv (set_channels
    <[i := mkChannel (state c) d' (complete_data c) (chan_id c) (close_when_created c)]> s)).
  { eapply (put_inv s i c); cbn; [done..| | | |].
    - intros Hf. by eapply (sv_caps s Hs).
    - done.
    - by apply (sv_close s Hs i).
    - by rewrite Ho. }
  specialize (Hk Hs'). by destruct r.
Qed.

Lemma process_data_inv s p : server_inv s -> wpm (process_data p) kept s.
Proof.
  intros Hs. unfold process_data. set (i := data_pdu_channel_id p).
  destruct (dynamic_channels s !! i) as [c|] eqn:Hc; [|by apply wpm_channel_by_id_none].
  apply (wpm_channel_by_id s i c); [done|]. destruct (decide _) as [|Ho]; [by apply wpm_throw|]. apply dec_stable in Ho.
  eapply with_complete_inv; [done..|]. intros r k' s1 Hs1. destruct r as [e|[complete|]]; [done| |by apply wpm_ret].
  eapply wpm_channel_by_id; [apply lookup_insert_eq|].
  eapply with_processor_inv; [done|apply lookup_insert_eq|done|]. cbn [processor].
  destruct (quiet_process i complete (processor c)) as (r & d' & Hm & Ht & Hms). exists r, d'.
  split_and!; [done..| |].
  { eapply life_process; [|exact Hm]. rewrite <- Ho. by apply (sv_life s Hs). }
  intros Hs2. destruct r as [e|ms]; [done|]. destruct (Hms ms eq_refl) as [datas Hd].
  apply wpm_bind. eapply wpm_question; [by apply (encode_dvc_spec i _ ms datas [])|].
  eapply wpm_channel_by_id; [apply lookup_insert_eq|]. destruct (close_requested _); [|by apply wpm_ret].
  apply wpm_bind. eapply wpm_mono; [by apply remove_channel_inv|]. intros r s3 [Hs3 ->]. by apply wpm_ret.
Qed.

Lemma read_tunnel_frame_inv s payload : server_inv s -> bytes_ok payload -> wpm (read_tunnel_frame payload) kept s.
Proof.
  intros Hs Hb. unfold read_tunnel_frame. pose proof (decode_no_panic (A := DrdynvcClientPdu) payload Hb) as Hp.
  destruct (decode DrdynvcClientPdu payload) as [p|e|]; [|by apply wpm_ret|done].
  destruct p; try (by apply wpm_ret).
  - apply wpm_bind. eapply wpm_mono; [by apply remove_channel_inv|]. intros r s' [Hs' ->]. by apply wpm_ret.
  - apply wpm_access. destruct (is_channel_opened _ _); cbn [negb]; [by apply process_data_inv|by apply wpm_ret].
Qed.

Lemma read_tunnel_frames_inv s frames :
  server_inv s -> Forall bytes_ok frames -> wpm (read_tunnel_frames frames) kept s.
Proof.
  intros Hs Hb. revert s Hs. induction Hb as [|f frames Hf _ IH]; intros s Hs; cbn [read_tunnel_frames]; [by apply wpm_ret|].
  apply wpm_bind. eapply wpm_mono; [by apply read_tunnel_frame_inv|]. intros [e|r] s1 Hs1; [done|].
  apply wpm_bind. eapply wpm_mono; [by apply IH|]. intros [e|rs] s2 Hs2; [done|by apply wpm_ret].
Qed.

Lemma process_tunnel_inv s payload : server_inv s -> bytes_ok payload -> wpm (process_tunnel payload) kept s.
Proof.
  intros Hs Hb. unfold process_tunnel. apply wpm_access.
  destruct (soft_sync_response_received s) eqn:Hr; cbn [negb]; [by apply read_tunnel_frame_inv|].
  apply wpm_access. destruct (Z.leb_spec MAX_EARLY_TUNNEL_FRAMES (llen (early_tunnel_frames s))); [by apply wpm_throw|].
  apply wpm_update, wpm_ret. split; cbn; try apply Hs.
  - pose proof (sv_sync s Hs) as Hsync. unfold soft_sync_response_received in Hr.
    by destruct (soft_sync_state s) as [|ts []].
  - rewrite llen_app. change (llen [payload]) with 1. lia.
  - apply Forall_app. split; [apply Hs|by repeat constructor].
Qed.

Lemma soft_sync_response_inv s response : server_inv s -> wpm (process_soft_sync_response response) kept s.
Proof.
  intros Hs. unfold process_soft_sync_response. apply wpm_access. change (id s) with s.
  pose proof (sv_sync s Hs) as Hsync. destruct (soft_sync_state s) as [|ts [|]] eqn:Hst; [by apply wpm_ret..|].
  destruct (forallb _ _); [|by apply wpm_throw]. apply wpm_update, wpm_update, wpm_update.
  apply read_tunnel_frames_inv; [|apply Hs]. destruct Hsync as [-> Hin]. split; cbn; try apply Hs.
  - apply map_filter_subseteq.
  - done.
  - done.
  - constructor.
Qed.

(** *** The capability exchange *)

Definition requested (c : Chan) : Chan :=
  if decide (state c = Pending)
  then mkChannel Creation (processor c) (complete_data c) (chan_id c) (close_when_created c) else c.

Definition create_request (s : Server) (i : Z) : option SvcMessage :=
  c ← dynamic_channels s !! i;
  if decide (state c = Pending)
  then Some (as_svc_msg_with_flag (ServerCreate (CreateRequestPdu_new i (dvc_name (processor c))))) else None.

(** A Create Request for each of [ids] that waits, in this order. *)
Lemma create_pending_spec ids s :
  NoDup ids -> (forall i, i ∈ ids -> is_Some (dynamic_channels s !! i)) ->
  create_pending ids s =
    Some (inr (omap (create_request s) ids), set_channels (fun m => foldl (fun m i => alter requested i m) m ids) s).
Proof.
  intros Hn. revert s. induction Hn as [|i ids Hi Hn IH]; intros s Hin; [by destruct s|].
  destruct (Hin i ltac:(left)) as [c Hc].
  assert (Hsame : forall c', omap (create_request (set_channels <[i := c']> s)) ids = omap (create_request s) ids).
  { intros c'. apply list_omap_ext, Forall2_same_length_lookup_2; [done|]. intros k x y Hx Hy.
    assert (x = y) as -> by congruence. unfold create_request. cbn [dynamic_channels set_channels].
    rewrite lookup_insert_ne; [done|]. intros <-. apply Hi. by eapply list_elem_of_lookup_2. }
  cbn [create_pending foldl omap list_omap]. unfold create_request at 1. rewrite Hc. cbn [mbind option_bind].
  rewrite (mut_bind_ok _ _ s s c) by by apply channel_by_id_run.
  assert (Halter : alter requested i (dynamic_channels s) = <[i := requested c]> (dynamic_channels s))
    by (apply map_eq; intros j; destruct (decide (i = j)) as [<-|];
        [by rewrite lookup_alter_eq, lookup_insert_eq, Hc|by rewrite lookup_alter_ne, lookup_insert_ne]).
  unfold requested in Halter at 2. destruct (decide (state c = Pending)) as [Hp|Hp].
  - rewrite decide_False by tauto. unfold mbind at 1, Mut_bind at 1, set_channel, update.
    unfold mbind at 1, Mut_bind at 1. rewrite IH.
    + rewrite Hsame. cbn. do 2 f_equal. destruct s. unfold set_channels. cbn in *. by rewrite Halter.
    + intros j Hj. cbn. destruct (decide (i = j)) as [<-|]; [by rewrite lookup_insert_eq|].
      rewrite lookup_insert_ne by done. apply Hin. by right.
  - rewrite decide_True by done. rewrite IH by (intros j Hj; apply Hin; by right). do 2 f_equal.
    destruct s. unfold set_channels. cbn in *. rewrite Halter, insert_id by done. done.
Qed.

Lemma requested_idem c : requested (requested c) = requested c.
Proof. unfold requested. destruct (decide (state c = Pending)); [done|]. by rewrite decide_False. Qed.

Lemma lookup_foldl_alter ids (m : gmap Z Chan) j :
  foldl (fun m i => alter requested i m) m ids !! j = if decide (j ∈ ids) then requested <$> m !! j else m !! j.
Proof.
  revert m. induction ids as [|i ids IH]; intros m; cbn [foldl]; [by rewrite decide_False by set_solver|].
  rewrite IH. destruct (decide (i = j)) as [<-|Hne].
  - rewrite lookup_alter_eq, (decide_True (P := i ∈ i :: ids)) by left. case_decide; [|done].
    rewrite <- option_fmap_compose. destruct (m !! i); [|done]. cbn. by rewrite requested_idem.
  - rewrite lookup_alter_ne by done. destruct (decide (j ∈ ids)); [by rewrite decide_True by by right|].
    rewrite decide_False; [done|]. by rewrite elem_of_cons; intros [?|?].
Qed.

Lemma ids_in_order_spec (s : Server) :
  StronglySorted Z.le (ids_in_order s) /\ NoDup (ids_in_order s) /\
  forall i, i ∈ ids_in_order s <-> is_Some (dynamic_channels s !! i).
Proof.
  unfold ids_in_order. pose proof (merge_sort_Permutation Z.le (map_to_list (dynamic_channels s)).*1) as Hperm.
  split_and!.
  - apply StronglySorted_merge_sort; [apply _|]. intros x y. lia.
  - rewrite Hperm. apply NoDup_fst_map_to_list.
  - intros i. rewrite Hperm, list_elem_of_fmap. split.
    + intros ([j c] & -> & H). exists c. by apply elem_of_map_to_list.
    + intros [c Hc]. exists (i, c). split; [done|]. by apply elem_of_map_to_list.
Qed.

Lemma caps_spec s :
  create_pending (ids_in_order s) (set_caps true s) =
    Some (inr (omap (create_request s) (ids_in_order s)), set_channels (fmap requested) (set_caps true s)).
Proof.
  destruct (ids_in_order_spec s) as (_ & Hn & Hin). rewrite create_pending_spec; [|done|by intros i Hi; apply Hin].
  do 2 f_equal. unfold set_channels. f_equal. apply map_eq. intros j. cbn.
  rewrite lookup_foldl_alter, lookup_fmap. case_decide as Hj; [done|].
  destruct (dynamic_channels s !! j) eqn:Hl; [|done]. exfalso. apply Hj, Hin. eauto.
Qed.

Lemma requested_state c : state c <> Opened -> state (requested c) <> Opened.
Proof. unfold requested. by case_decide. Qed.

Lemma caps_inv s : server_inv s -> server_inv (set_channels (fmap requested) (set_caps true s)).
Proof.
  intros Hs.
  assert (Hback : forall i c, (requested <$> dynamic_channels s) !! i = Some c ->
    exists c0, dynamic_channels s !! i = Some c0 /\ c = requested c0).
  { intros i c. rewrite lookup_fmap_Some. intros (c0 & <- & ?). eauto. }
  split; cbn; try apply Hs; try done.
  - intros i c H. apply Hback in H as (c0 & H & ->). apply (sv_ids s Hs) in H. unfold requested. by case_decide.
  - intros i c H. apply Hback in H as (c0 & H & ->). unfold requested. case_decide; [done|]. by apply (sv_close s Hs i).
  - intros i c H. apply Hback in H as (c0 & H & ->). pose proof (sv_life s Hs i c0 H) as Hl. unfold requested.
    case_decide as Hp; [|done]. cbn. apply life_request. by rewrite <- Hp.
  - intros t i H. destruct (sv_types s Hs t i H) as (c & Hc & <-). exists (requested c). rewrite lookup_fmap, Hc.
    split; [done|]. unfold requested. by case_decide.
  - intros i t H. destruct (sv_out s Hs i t H) as [-> (c & Hc & Ho)]. split; [done|]. exists (requested c).
    rewrite lookup_fmap, Hc. split; [done|]. unfold requested. case_decide; [congruence|done].
Qed.

Lemma create_response_inv s p : server_inv s -> wpm (process_create_response p) kept s.
Proof.
  intros Hs. unfold process_create_response. set (i := cr_channel_id p).
  destruct (dynamic_channels s !! i) as [c|] eqn:Hc; [|by apply wpm_channel_by_id_none].
  apply (wpm_channel_by_id s i c); [done|]. destruct (decide _) as [|Hst]; [by apply wpm_throw|]. apply dec_stable in Hst.
  pose proof (sv_life s Hs i c Hc) as Hl. rewrite Hst in Hl.
  assert (Hcap : caps_received s = false -> False)
    by (intros Hf; pose proof (sv_caps s Hs i c Hf Hc); congruence).
  destruct (creation_status p =? CreationStatus.OK); cbn [negb].
  2:{ apply wpm_update, wpm_ret. eapply (put_inv s i c); cbn; [done..| | | | |].
      - apply quiet_close.
      - tauto.
      - congruence.
      - done.
      - by apply life_fail. }
  destruct (close_when_created c) eqn:Hcl.
  { apply wpm_bind. eapply wpm_mono; [by apply remove_channel_inv|]. intros r s' [Hs' ->]. by apply wpm_ret. }
  destruct (quiet_start i (processor c)) as (r & d' & Hm & Ht & Hms).
  assert (Hs' : server_inv (set_channels <[i := mkChannel Opened d' (complete_data c) (chan_id c) false]> s)).
  { eapply (put_inv s i c); cbn; [done..|tauto|done|done|]. by eapply life_start. }
  apply wpm_update, wpm_bind. unfold wpm at 1, with_processor. cbn [processor]. rewrite Hm. cbn [state complete_data chan_id close_when_created].
  assert (Heq : set_channels <[i := mkChannel Opened d' (complete_data c) (chan_id c) false]>
      (set_channels <[i := mkChannel Opened (processor c) (complete_data c) (chan_id c) false]> s) =
    set_channels <[i := mkChannel Opened d' (complete_data c) (chan_id c) false]> s).
  { unfold set_channels. cbn. by rewrite insert_insert_eq. }
  rewrite Heq. destruct r as [e|ms]; [done|]. destruct (Hms ms eq_refl) as [datas Hd].
  eapply wpm_question; [by apply (encode_dvc_spec i _ ms datas [])|done].
Qed.

Lemma process_inv s payload : server_inv s -> bytes_ok payload -> wpm (DrdynvcServer_process payload) kept s.
Proof.
  intros Hs Hb. unfold DrdynvcServer_process. pose proof (decode_no_panic (A := DrdynvcClientPdu) payload Hb) as Hp.
  destruct (decode DrdynvcClientPdu payload) as [p|e|]; [|done|done]. cbn [question]. apply wpm_bind, wpm_ret.
  destruct p as [p|p|p|p|p].
  - apply wpm_update, wpm_access. change (id (set_caps true s)) with (set_caps true s).
    change (ids_in_order (set_caps true s)) with (ids_in_order s). unfold wpm. rewrite caps_spec. by apply caps_inv.
  - by apply create_response_inv.
  - apply wpm_bind. eapply wpm_mono; [by apply remove_channel_inv|]. intros r s' [Hs' ->]. by apply wpm_ret.
  - by apply process_data_inv.
  - by apply soft_sync_response_inv.
Qed.

(** ** The state machine *)

(** The methods of the server, with what the embedder and the client may
    choose; every result counts, also an error. *)
Inductive server_step (s : Server) : Server -> Prop :=
| step_register p r s' : fresh p -> with_dynamic_channel p s = Some (r, s') -> server_step s s'
| step_create p r s' : fresh p -> create_channel p s = Some (r, s') -> server_step s s'
| step_create_boxed p r s' : fresh p -> create_channel_boxed p s = Some (r, s') -> server_step s s'
| step_create_with build r s' :
    (forall i p, build i = inr p -> fresh p) -> create_channel_with build s = Some (r, s') -> server_step s s'
| step_close i r s' : close_channel i s = Some (r, s') -> server_step s s'
| step_access i f r s' : allowed f -> dvc_by_id_mut i f s = Some (r, s') -> server_step s s'
| step_request ids r s' : request_reliable_udp ids s = Some (r, s') -> server_step s s'
| step_tunnel payload r s' : bytes_ok payload -> process_tunnel payload s = Some (r, s') -> server_step s s'
| step_process payload r s' : bytes_ok payload -> DrdynvcServer_process payload s = Some (r, s') -> server_step s s'.

Definition server_reachable (s : Server) : Prop := rtc server_step DrdynvcServer_new s.

(** A channel number is left, or the call panics as documented. *)
Lemma reserve_some {A} (k : Z -> Serve A) s x :
  server_inv s -> (reserve_channel ≫= k) s = Some x -> next_channel_id s < 4294967295.
Proof.
  intros Hs H. unfold reserve_channel, mbind, Mut_bind, access, expect in H.
  destruct (Z.leb_spec (next_channel_id s + 1) 4294967295); [lia|done].
Qed.

Lemma server_step_inv s s' : server_inv s -> server_step s s' -> server_inv s'.
Proof.
  intros Hs. destruct 1 as [p r s' Hf H|p r s' Hf H|p r s' Hf H|b r s' Hf H|i r s' H|i f r s' Hf H|ids r s' H|pl r s' Hb H|pl r s' Hb H].
  - eapply (wpm_inv _ kept); [|exact H]. apply with_dynamic_channel_inv; [done|by eapply reserve_some|done].
  - eapply (wpm_inv _ kept); [|exact H]. apply create_channel_inv; [done|by eapply reserve_some|done].
  - eapply (wpm_inv _ kept); [|exact H]. apply create_channel_boxed_inv; [done|by eapply reserve_some|done].
  - eapply (wpm_inv _ kept); [|exact H]. apply create_channel_with_inv; [done|by eapply reserve_some|done].
  - eapply (wpm_inv _ kept); [|exact H]. by apply close_channel_inv.
  - eapply (wpm_inv _ kept); [|exact H]. by apply dvc_by_id_mut_inv.
  - eapply (wpm_inv _ kept); [|exact H]. by apply request_inv.
  - eapply (wpm_inv _ kept); [|exact H]. by apply process_tunnel_inv.
  - eapply (wpm_inv _ kept); [|exact H]. by apply process_inv.
Qed.

Lemma server_reachable_inv s : server_reachable s -> server_inv s.
Proof.
  unfold server_reachable. pose proof new_inv as Hnew. revert Hnew.
  induction 2 as [x|x y z Hxy _ IH]; [done|]. apply IH. by eapply server_step_inv.
Qed.

End server.
