(* ===== verification/DvcServerProps.v ===== *)
(** What the server of the DRDYNVC channel guarantees: its invariant and that
    it never panics, the life of a channel's processor, when channels are
    created, that nothing depends on whether tunnel data overtakes the
    Soft-Sync Response, and that a client's messages reach the processor. *)

From S2P Require Import Prelude Cursor Codec Flags Mutation WriteBuf Mcs Svc SvcProps PduText DvcWire DvcCodec Dvc DvcProps DvcServer.

(** ** Any processors *)

Section server.
Context {BF : Bitflags} {D : Type} {DP : DvcProcessor D} {QP : QuietProcessor D} {LC : Lifecycle D}.

(** The call returns, with a result or an error. *)
Definition returns {A} (m : Mut (DrdynvcServer D) PduError A) (s : DrdynvcServer D) : Prop := m s <> None.

Lemma wpm_returns {A} (m : Mut (DrdynvcServer D) PduError A) Q s : wpm m Q s -> returns m s.
Proof. unfold wpm, returns. by destruct (m s). Qed.

(** C6: in every state the server can reach - whatever bytes the client sends on
    the DRDYNVC channel or a tunnel, and whatever the embedder registers,
    closes, accesses or moves - the invariant [server_inv] holds: every channel
    is filed under its own ID, which is below the next one to be given, before
    the capability exchange every channel waits, only open channels are
    assigned to a tunnel, the client's assignment is part of the server's,
    tunnel data waits only before the Soft-Sync Response and at most 1024 frames
    of it.  And no call on such a state panics, if the processors do not
    ([QuietProcessor]); adding a channel does not while the next ID is below
    2^32 - 1. *)
Theorem dvc_server_invariant (s : DrdynvcServer D) :
  server_reachable s ->
  server_inv s /\
  (forall payload, bytes_ok payload -> returns (DrdynvcServer_process payload) s /\ returns (process_tunnel payload) s) /\
  (forall i, returns (close_channel i) s) /\ (forall ids, returns (request_reliable_udp ids) s) /\
  (forall p, fresh p -> next_channel_id s < 4294967295 ->
    returns (create_channel p) s /\ returns (with_dynamic_channel p) s).
Proof.
  intros Hr. pose proof (server_reachable_inv s Hr) as Hs. split_and!; [done| | | |].
  - intros payload Hb. split; [by eapply wpm_returns, process_inv|by eapply wpm_returns, process_tunnel_inv].
  - intros i. by eapply wpm_returns, close_channel_inv.
  - intros ids. by eapply wpm_returns, request_inv.
  - intros p Hp Hn. split; [by eapply wpm_returns, create_channel_inv|by eapply wpm_returns, with_dynamic_channel_inv].
Qed.

(** ** Creating channels *)

Lemma create_waits s p :
  next_channel_id s < 4294967295 -> caps_received s = false ->
  exists s', create_channel p s = Some (inr None, s') /\
    dynamic_channels s' = <[next_channel_id s := DynamicChannel_new p (next_channel_id s) Pending]> (dynamic_channels s).
Proof.
  intros Hn Hc. unfold create_channel, reserve_channel, create_channel_with_id, insert_boxed_with_id, mbind, Mut_bind,
    access, update, expect. rewrite (proj2 (Z.leb_le _ _)) by lia. cbv beta iota delta [mret Mut_ret].
  cbn [caps_received set_next]. rewrite Hc. cbn [negb]. eexists. split; [done|]. done.
Qed.

(** A Create Request is sent for each channel once, and not before the
    client has answered the capabilities.  Until then registering a channel
    sends nothing and it waits; the answer returns the requests of exactly the
    waiting channels, in ascending order of their IDs - of all channels, when
    it is the first answer - and afterwards none of them waits. *)
Theorem dvc_caps_creates (s : DrdynvcServer D) (payload : list Z) (caps : CapabilitiesResponsePdu) :
  server_reachable s -> decode DrdynvcClientPdu payload = Ok (ClientCapabilities caps) ->
  (forall p, next_channel_id s < 4294967295 -> caps_received s = false ->
    exists s', create_channel p s = Some (inr None, s') /\
      dynamic_channels s' = <[next_channel_id s := DynamicChannel_new p (next_channel_id s) Pending]> (dynamic_channels s)) /\
  StronglySorted Z.le (ids_in_order s) /\ NoDup (ids_in_order s) /\
  (forall i, i ∈ ids_in_order s <-> is_Some (dynamic_channels s !! i)) /\
  exists s', DrdynvcServer_process payload s = Some (inr (omap (create_request s) (ids_in_order s)), s') /\
    caps_received s' = true /\ dynamic_channels s' = requested <$> dynamic_channels s /\
    (forall i c, dynamic_channels s' !! i = Some c -> state c <> Pending) /\
    (caps_received s = false -> length (omap (create_request s) (ids_in_order s)) = base.size (dynamic_channels s)).
Proof.
  intros Hr Hd. pose proof (server_reachable_inv s Hr) as Hs.
  destruct (ids_in_order_spec s) as (Hsort & Hnd & Hin). split; [intros p Hn Hc; by apply create_waits|]. split_and!; [done..|].
  exists (set_channels (fmap requested) (set_caps true s)). split_and!; [|done|done| |].
  - unfold DrdynvcServer_process. rewrite Hd. cbn [question]. unfold mbind, Mut_bind, mret, Mut_ret, update, access.
    change (id (set_caps true s)) with (set_caps true s). exact (caps_spec s).
  - intros i c. cbn. rewrite lookup_fmap_Some. intros (c0 & <- & _). unfold requested. by case_decide.
  - intros Hc.
    assert (Hall : Forall (fun i => is_Some (create_request s i)) (ids_in_order s)).
    { apply Forall_forall. intros i Hi. apply Hin in Hi as [c Hl]. unfold create_request. rewrite Hl. cbn.
      rewrite decide_True by (by eapply (sv_caps s Hs)). eauto. }
    assert (Hlen : length (omap (create_request s) (ids_in_order s)) = length (ids_in_order s)).
    { clear -Hall. induction Hall as [|i ids [m Hm] _ IH]; [done|]. cbn. rewrite Hm. cbn. by rewrite IH. }
    rewrite Hlen. unfold ids_in_order. rewrite merge_sort_Permutation, length_fmap. apply length_map_to_list.
Qed.

(** ** Tunnel data and the Soft-Sync Response *)

(** Code that leaves the progress of the Soft-Sync exchange alone. *)
Definition still {A} (m : Mut (DrdynvcServer D) PduError A) : Prop :=
  forall s r s', m s = Some (r, s') -> soft_sync_state s' = soft_sync_state s.

Lemma still_bind {A B} (m : Mut (DrdynvcServer D) PduError A) (k : A -> Mut (DrdynvcServer D) PduError B) :
  still m -> (forall a, still (k a)) -> still (m ≫= k).
Proof.
  intros Hm Hk s r s'. unfold mbind, Mut_bind. destruct (m s) as [[[e|a] s1]|] eqn:H; [| |done].
  - intros [= <- <-]. by eapply Hm.
  - intros H2. rewrite (Hk a s1 r s' H2). by eapply Hm.
Qed.
Lemma still_ret {A} (a : A) : still (mret a).
Proof. by intros s r s' [= <- <-]. Qed.
Lemma still_throw {A} e : still (throw e : Mut (DrdynvcServer D) PduError A).
Proof. by intros s r s' [= <- <-]. Qed.
Lemma still_boom {A} : still (boom : Mut (DrdynvcServer D) PduError A).
Proof. by intros s r s'. Qed.
Lemma still_access {A} (f : DrdynvcServer D -> A) : still (access f).
Proof. by intros s r s' [= <- <-]. Qed.
Lemma still_update f : (forall s, soft_sync_state (f s) = soft_sync_state s) -> still (update f).
Proof. intros Hf s r s' [= <- <-]. apply Hf. Qed.
Lemma still_question {F A} f (o : outcome F A) : still (question f o).
Proof. destruct o; [apply still_ret|apply still_throw|apply still_boom]. Qed.
Lemma still_ok_or {A} e (o : option A) : still (ok_or e o).
Proof. destruct o; [apply still_ret|apply still_throw]. Qed.
Lemma still_processor {A} i (c : DynamicChannel D) (m : Mut D PduError A) : still (with_processor i c m).
Proof. intros s r s'. unfold with_processor. destruct (m _) as [[x d]|]; [|done]. by intros [= <- <-]. Qed.
Lemma still_complete {A} i (c : DynamicChannel D) (m : Mut CompleteData DecodeErrorKind A) : still (with_complete_data i c m).
Proof. intros s r s'. unfold with_complete_data. destruct (m _) as [[x d]|]; [|done]. by intros [= <- <-]. Qed.

Create HintDb still.
Hint Resolve still_ret still_throw still_boom still_access still_question still_ok_or still_processor still_complete : still.

Ltac still_step :=
  first
  [ apply still_bind; [|intros ?]
  | apply still_update; done
  | solve [auto with still]
  | case_match ].

Lemma still_remove i : still (remove_by_channel_id (D := D) i).
Proof. unfold remove_by_channel_id. repeat still_step. Qed.
Lemma still_channel_by_id i : still (channel_by_id (D := D) i).
Proof. unfold channel_by_id. repeat still_step. Qed.
Hint Resolve still_remove still_channel_by_id : still.

Lemma still_process_data p : still (process_data p).
Proof. unfold process_data. repeat still_step. Qed.
Hint Resolve still_process_data : still.

Lemma still_read_tunnel_frame payload : still (read_tunnel_frame payload).
Proof. unfold read_tunnel_frame. repeat still_step. Qed.

Fixpoint process_tunnels (frames : list (list Z)) : Mut (DrdynvcServer D) PduError (list SvcMessage) :=
  match frames with
  | [] => mret []
  | f :: frames' => r ← process_tunnel f; rs ← process_tunnels frames'; mret (r ++ rs)
  end.

Lemma tunnels_wait frames s :
  soft_sync_response_received s = false ->
  llen (early_tunnel_frames s) + llen frames <= MAX_EARLY_TUNNEL_FRAMES ->
  process_tunnels frames s = Some (inr [], set_early (fun early => early ++ frames) s).
Proof.
  revert s. induction frames as [|f frames IH]; intros s Hr Hl; cbn [process_tunnels].
  { destruct s. unfold set_early. cbn. by rewrite app_nil_r. }
  rewrite llen_cons in Hl. pose proof (llen_nonneg frames).
  assert (Hf : process_tunnel f s = Some (inr [], set_early (fun early => early ++ [f]) s)).
  { unfold process_tunnel, mbind, Mut_bind, access. rewrite Hr. cbn [negb].
    by rewrite (proj2 (Z.leb_gt _ _)) by lia. }
  rewrite (mut_bind_ok _ _ s _ [] Hf).
  assert (Hrest : process_tunnels frames (set_early (fun early => early ++ [f]) s) =
    Some (inr [], set_early (fun early => early ++ f :: frames) s)).
  { rewrite IH; [|done|cbn [early_tunnel_frames set_early]; rewrite llen_app; change (llen [f]) with 1; lia].
    do 2 f_equal. unfold set_early. cbn. by rewrite <- app_assoc. }
  by rewrite (mut_bind_ok _ _ _ _ [] Hrest).
Qed.

Lemma tunnels_read frames s :
  soft_sync_response_received s = true -> process_tunnels frames s = read_tunnel_frames frames s.
Proof.
  revert s. induction frames as [|f frames IH]; intros s Hr; cbn [process_tunnels read_tunnel_frames]; [done|].
  assert (Hf : process_tunnel f s = read_tunnel_frame f s)
    by (unfold process_tunnel, mbind, Mut_bind, access; by rewrite Hr).
  unfold mbind, Mut_bind. rewrite Hf. destruct (read_tunnel_frame f s) as [[[e|r] s1]|] eqn:H; [done| |done].
  rewrite IH; [done|]. unfold soft_sync_response_received in *. by rewrite (still_read_tunnel_frame f s _ s1 H).
Qed.

(** C33: it makes no difference whether tunnel data overtakes the Soft-Sync
    Response.  As long as no more than 1024 frames do, handling the frames and
    then the response has the same result, the same replies and the same final
    state as handling the response first and then the frames - also when a
    processor fails or panics on one of them. *)
Theorem dvc_early_frames (s : DrdynvcServer D) (tunnels : gset Z) (response : SoftSyncResponsePdu) (frames : list (list Z)) :
  soft_sync_state s = Active tunnels false -> early_tunnel_frames s = [] ->
  llen frames <= MAX_EARLY_TUNNEL_FRAMES -> Forall (fun t => t ∈ tunnels) (tunnels_to_switch response) ->
  (rs ← process_tunnels frames; r ← process_soft_sync_response response; mret (rs ++ r)) s =
  (r ← process_soft_sync_response response; rs ← process_tunnels frames; mret (r ++ rs)) s.
Proof.
  intros Hst He Hl Ht.
  assert (Hall : forallb (fun t => bool_decide (t ∈ tunnels)) (tunnels_to_switch response) = true).
  { apply forallb_forall. intros t Hin. apply bool_decide_eq_true. rewrite Forall_forall in Ht. apply Ht.
    by apply list_elem_of_In. }
  set (s1 := set_early (fun _ => []) (set_soft_sync (Active tunnels true)
    (set_incoming (fun _ => filter (fun kt => kt.2 ∈ tunnels_to_switch response) (outgoing_tunnel_channels s)) s))).
  assert (Hresp : forall frames', process_soft_sync_response response (set_early (fun _ => frames') s) =
    read_tunnel_frames frames' s1).
  { intros frames'. unfold process_soft_sync_response. unfold mbind at 1, Mut_bind at 1, access. unfold id.
    cbn [soft_sync_state set_early]. rewrite Hst, Hall. done. }
  assert (Hs : s = set_early (fun _ => []) s) by (destruct s; cbn in *; by rewrite He).
  assert (Hwait : process_tunnels frames s = Some (inr [], set_early (fun _ => frames) s)).
  { rewrite tunnels_wait; [|by unfold soft_sync_response_received; rewrite Hst|by rewrite He].
    do 2 f_equal. unfold set_early. by rewrite He. }
  rewrite (mut_bind_ok _ _ _ _ [] Hwait).
  assert (Hfirst : process_soft_sync_response response s = Some (inr [], s1)) by (rewrite Hs; exact (Hresp [])).
  rewrite (mut_bind_ok _ _ _ _ [] Hfirst). unfold mbind, Mut_bind. rewrite Hresp, tunnels_read by done. done.
Qed.

End server.

(** ** The life of a processor *)

Inductive Event := Started (channel_id : Z) | Processed (channel_id : Z) (payload : list Z) | Closed (channel_id : Z).

Section life.
Context {P : Type} {PP : DvcProcessor P} {QP : QuietProcessor P}.

(** A processor together with the calls it has received. *)
Definition Logged : Type := P * list Event.

#[export] Instance Logged_Processor : DvcProcessor Logged := {
  dvc_name d := dvc_name d.1;
  dvc_type_id d := dvc_type_id d.1;
  dvc_start i d :=
    match dvc_start i d.1 with Some (r, p) => Some (r, (p, d.2 ++ [Started i])) | None => None end;
  dvc_process i payload d :=
    match dvc_process i payload d.1 with Some (r, p) => Some (r, (p, d.2 ++ [Processed i payload])) | None => None end;
  dvc_close i d := (dvc_close i d.1, d.2 ++ [Closed i]);
  close_requested d := close_requested d.1;
}.

#[export] Instance Logged_Quiet : QuietProcessor Logged.
Proof.
  split.
  - intros i [p l]. destruct (quiet_start i p) as (r & p' & Hm & Ht & Hms). exists r, (p', l ++ [Started i]). cbn. by rewrite Hm.
  - intros i payload [p l]. destruct (quiet_process i payload p) as (r & p' & Hm & Ht & Hms).
    exists r, (p', l ++ [Processed i payload]). cbn. by rewrite Hm.
  - intros i [p l]. apply (quiet_close i p).
Qed.

(** What a processor has been told, by the state of its channel. *)
Definition told (st : ChannelState) (i : Z) (log : list Event) : Prop :=
  match st with
  | Pending | Creation => log = []
  | Opened => exists payloads, log = Started i :: map (Processed i) payloads
  | CreationFailed _ => log = [Closed i]
  end.

(** A processor that is gone was never told anything, or that its channel was
    declined, or was started once, given data, and closed once. *)
Definition told_all (log : list Event) : Prop :=
  log = [] \/ (exists i, log = [Closed i]) \/
  exists i payloads, log = Started i :: map (Processed i) payloads ++ [Closed i].

#[export, program] Instance Logged_Lifecycle : Lifecycle Logged := {
  fresh d := d.2 = [];
  allowed f := forall d, (f d).2 = d.2 /\ dvc_type_id (f d) = dvc_type_id d;
  in_state st i d := told st i d.2;
  after_drop d := told_all d.2;
}.
Next Obligation. done. Qed.
Next Obligation. done. Qed.
Next Obligation. intros i d st H. cbn in *. by rewrite H. Qed.
Next Obligation.
  intros i [p l] r d' H. cbn in *. subst l. destruct (dvc_start i p) as [[r' p']|]; [|done]. intros [= _ <-]. by exists [].
Qed.
Next Obligation.
  intros i [p l] payload r d' [ps H]. cbn in *. subst l. destruct (dvc_process i payload p) as [[r' p']|]; [|done]. intros [= _ <-].
  exists (ps ++ [payload]). cbn. by rewrite map_app.
Qed.
Next Obligation.
  intros i d f Hf [ps H]. destruct (Hf d) as [E _]. exists ps. cbn in *. by rewrite E.
Qed.
Next Obligation. intros d f Hf. apply Hf. Qed.
Next Obligation.
  intros i d st H. unfold told_all. case_decide as Hst; [subst|].
  - destruct H as [ps H]. cbn. rewrite H. right; right. by exists i, ps.
  - destruct st; cbn in H; [by left|by left|done|right; left; eauto].
Qed.

Context {BF : Bitflags}.

(** C11: every processor is used as the trait promises.  In every reachable state
    a processor whose channel is not open yet has not been called, that of an
    open channel was started once and then only given data, that of a declined
    channel was only told it is closed; and every processor that was dropped
    had been told of the close exactly once if it had been started, and nothing
    after it. *)
Theorem dvc_lifecycle (s : DrdynvcServer Logged) :
  server_reachable s ->
  (forall i c, dynamic_channels s !! i = Some c -> told (state c) i (processor c).2) /\
  Forall (fun d => told_all d.2) (dropped s).
Proof.
  intros Hr. pose proof (server_reachable_inv s Hr) as Hs. split; [intros i c; apply (sv_life s Hs)|apply (sv_dropped s Hs)].
Qed.

(** ** Messages reach the processor *)

(** A processor that accepts data and keeps its channel open. *)
Class CalmProcessor : Prop :=
  calm i payload (p : P) : exists ms p', dvc_process i payload p = Some (inr ms, p') /\ close_requested p' = false.

Context {CP : CalmProcessor}.

Fixpoint process_all (payloads : list (list Z)) : Mut (DrdynvcServer Logged) PduError (list SvcMessage) :=
  match payloads with
  | [] => mret []
  | p :: payloads' => r ← DrdynvcServer_process p; rs ← process_all payloads'; mret (r ++ rs)
  end.

(** The state of an open channel: what was received, what was processed. *)
Definition open_with (i : Z) (log : list Event) (k : CompleteData) (s : DrdynvcServer Logged) : Prop :=
  exists c : DynamicChannel Logged, dynamic_channels s !! i = Some c /\ state c = Opened /\ complete_data c = k /\
    snd (processor c : Logged) = log.

Lemma process_one i log k s payload pdu r k' :
  open_with i log k s -> read_back i payload pdu -> process_complete_data pdu k = Some (inr r, k') ->
  exists out s', DrdynvcServer_process payload s = Some (inr out, s') /\
    open_with i (log ++ map (Processed i) (option_list r)) k' s'.
Proof.
  intros (c & Hc & Ho & Hk & Hlog) (_ & Hd & Hi) Hp. subst k.
  unfold DrdynvcServer_process. rewrite Hd. cbn [question]. unfold mbind at 1, Mut_bind at 1, mret at 1, Mut_ret at 1.
  unfold process_data. rewrite Hi. rewrite (mut_bind_ok _ _ s s c) by by apply channel_by_id_run.
  rewrite decide_False by tauto.
  set (c1 := mkChannel (state c) (processor c) k' (chan_id c) (close_when_created c)).
  rewrite (mut_bind_ok _ _ s (set_channels <[i := c1]> s) r) by (unfold with_complete_data; by rewrite Hp).
  destruct r as [data|]; cbn [option_list map].
  2:{ eexists _, _. split; [done|]. exists c1. rewrite app_nil_r. split_and!; [apply lookup_insert_eq|done..]. }
  rewrite (mut_bind_ok _ _ _ (set_channels <[i := c1]> s) c1) by (apply channel_by_id_run, lookup_insert_eq).
  destruct (processor c) as [p l] eqn:Hpl. destruct (calm i data p) as (ms & p' & Hm & Hcl).
  destruct (quiet_process i data p) as (r' & d' & Hm' & _ & Hms). rewrite Hm in Hm'. injection Hm' as <- <-.
  destruct (Hms ms eq_refl) as [datas Hdatas].
  set (c2 := mkChannel (state c) (p', l ++ [Processed i data]) k' (chan_id c) (close_when_created c)).
  set (s2 := set_channels <[i := c2]> (set_channels <[i := c1]> s)).
  rewrite (mut_bind_ok _ _ _ s2 ms) by (unfold with_processor, c1; cbn; by rewrite Hm).
  rewrite (mut_bind_ok _ _ _ s2 _) by (unfold encode_dvc_messages; rewrite (encode_dvc_spec i _ ms datas []) by done; done).
  rewrite (mut_bind_ok _ _ _ s2 c2) by (apply channel_by_id_run, lookup_insert_eq).
  cbn [close_requested Logged_Processor processor c2 fst]. rewrite Hcl. eexists _, s2. split; [done|]. exists c2.
  split_and!; [apply lookup_insert_eq|done|done|]. cbn in *. by subst l.
Qed.

Lemma process_all_spec i log k s payloads pdus outs k' :
  open_with i log k s -> Forall2 (read_back i) payloads pdus -> reassemble pdus k = Some (inr outs, k') ->
  exists out s', process_all payloads s = Some (inr out, s') /\ open_with i (log ++ map (Processed i) outs) k' s'.
Proof.
  intros Hopen H. revert log k s outs Hopen. induction H as [|payload pdu payloads pdus Hrb _ IH]; intros log k s outs Hopen Hr.
  { injection Hr as <- <-. eexists _, _. split; [done|]. by rewrite app_nil_r. }
  cbn [reassemble] in Hr. unfold mbind, Mut_bind in Hr.
  destruct (process_complete_data pdu k) as [[[e|r] k1]|] eqn:Hp; [done| |done].
  destruct (reassemble pdus k1) as [[[e|rs] k2]|] eqn:Hrs; [done| |done]. injection Hr as <- <-.
  destruct (process_one i log k s payload pdu r k1 Hopen Hrb Hp) as (o1 & s1 & H1 & Ho1).
  destruct (IH _ _ _ _ Ho1 Hrs) as (o2 & s2 & H2 & Ho2). exists (o1 ++ o2), s2. cbn [process_all].
  rewrite (mut_bind_ok _ _ _ _ _ H1), (mut_bind_ok _ _ _ _ _ H2). split; [done|].
  by rewrite map_app, app_assoc.
Qed.

(** What a client sends on an open channel is what the server's processor
    is given.  Any messages below 4 GiB, cut into PDUs by the client and
    handled one after the other by the server, are handed to the processor of
    the channel one by one, whole and in order (empty messages are not sent),
    and the channel is open and between messages afterwards. *)
Theorem dvc_server_delivers (s : DrdynvcServer Logged) (i flags : Z) (log : list Event) (ms : list DvcMessage) (datas : list (list Z)) :
  open_with i log CompleteData_new s -> is_u32 i -> Forall2 dvc_carries ms datas ->
  exists msgs payloads out s', encode_dvc_messages i ms flags = Ok msgs /\
    Forall2 (fun m p => encode_unframed_pdu m = Ok p) msgs payloads /\
    process_all payloads s = Some (inr out, s') /\
    open_with i (log ++ map (Processed i) (filter (fun d => d <> []) datas)) CompleteData_new s'.
Proof.
  intros Hopen Hi Hms. destruct (dvc_messages_spec i flags ms datas Hi Hms) as (msgs & payloads & pdus & He & Hu & _ & Hrb & Hr).
  destruct (process_all_spec i log _ s payloads pdus _ _ Hopen Hrb Hr) as (out & s' & Hp & Ho).
  by exists msgs, payloads, out, s'.
Qed.

End life.

(** ** Witnesses *)

#[local] Existing Instance bits_flags.

(** A processor that greets and then listens. *)
#[export] Instance listener : DvcProcessor unit := {
  dvc_name _ := [108; 105; 115; 116];
  dvc_type_id _ := 7;
  dvc_start _ d := Some (inr [raw_message [104; 105]], d);
  dvc_process _ _ d := Some (inr [], d);
  dvc_close _ d := d;
  close_requested _ := false;
}.

#[export] Instance listener_quiet : QuietProcessor unit.
Proof.
  split; intros.
  - eexists _, _. split_and!; [done|done|]. intros ms [= <-]. exists [[104; 105]]. constructor; [|constructor].
    apply raw_carries; [done|]. by repeat (apply Forall_cons; split; [done|]).
  - eexists _, _. split_and!; [done|done|]. intros ms [= <-]. by exists [].
  - done.
Qed.

#[export] Instance listener_calm : CalmProcessor (P := unit).
Proof. intros i payload p. by exists [], p. Qed.

Definition run {A} (m : Mut (DrdynvcServer (Logged (P := unit))) PduError A) (s : DrdynvcServer Logged) : DrdynvcServer Logged :=
  match m s with Some (_, s') => s' | None => s end.

Lemma run_some {A} (m : Mut (DrdynvcServer (Logged (P := unit))) PduError A) s : m s <> None -> exists r, m s = Some (r, run m s).
Proof. unfold run. destruct (m s) as [[r s']|]; [eauto|done]. Qed.

(** Two channels are registered; the client answers the capabilities, opens
    the first, and sends [5; 6] on it. *)
Definition demo_registered : DrdynvcServer (Logged (P := unit)) :=
  run (create_channel (tt, [])) (run (with_dynamic_channel (tt, [])) DrdynvcServer_new).
Definition demo_open : DrdynvcServer (Logged (P := unit)) :=
  run (DrdynvcServer_process [16; 0; 0; 0; 0; 0])
    (run (DrdynvcServer_process [80; 0; 2; 0]) demo_registered).
Definition demo_fed : DrdynvcServer (Logged (P := unit)) :=
  run (DrdynvcServer_process [48; 0; 5; 6]) demo_open.

Ltac concrete_bytes := by repeat (apply Forall_cons; split; [done|]).

Lemma registered_reachable : server_reachable demo_registered.
Proof.
  destruct (run_some (with_dynamic_channel (tt, [])) DrdynvcServer_new) as [r1 H1]; [by vm_compute|].
  destruct (run_some (create_channel (tt, [])) (run (with_dynamic_channel (tt, [])) DrdynvcServer_new)) as [r2 H2]; [by vm_compute|].
  eapply rtc_l; [by eapply step_register; [|exact H1]|]. apply rtc_once. by eapply step_create; [|exact H2].
Qed.

Lemma process_reachable payload s :
  server_reachable s -> bytes_ok payload -> DrdynvcServer_process payload s <> None ->
  server_reachable (run (DrdynvcServer_process payload) s).
Proof.
  intros Hr Hb Hn. destruct (run_some _ _ Hn) as [r H]. eapply rtc_r; [exact Hr|]. by eapply step_process.
Qed.

Lemma open_reachable : server_reachable demo_open.
Proof.
  apply process_reachable; [|concrete_bytes|by vm_compute].
  apply process_reachable; [apply registered_reachable|concrete_bytes|by vm_compute].
Qed.

Lemma fed_reachable : server_reachable demo_fed.
Proof. apply process_reachable; [apply open_reachable|concrete_bytes|by vm_compute]. Qed.

Lemma dvc_server_invariant_witness :
  server_inv demo_fed /\ returns (process_tunnel [48; 0; 1]) demo_fed.
Proof.
  destruct (dvc_server_invariant demo_fed fed_reachable) as (Hs & Hp & _). split; [exact Hs|].
  apply Hp. concrete_bytes.
Defined.

Lemma dvc_lifecycle_witness :
  exists c, dynamic_channels demo_fed !! 0 = Some c /\ told Opened 0 (processor c).2 /\
    (processor c).2 = [Started 0; Processed 0 [5; 6]].
Proof.
  eexists. split; [vm_compute; reflexivity|].
  split; [|reflexivity]. exact (proj1 (dvc_lifecycle demo_fed fed_reachable) 0 _ eq_refl).
Defined.

Lemma dvc_caps_creates_witness :
  exists s', DrdynvcServer_process [80; 0; 2; 0] demo_registered =
      Some (inr (omap (create_request demo_registered) [0; 1]), s') /\ caps_received s' = true.
Proof.
  destruct (dvc_caps_creates demo_registered [80; 0; 2; 0] (CapabilitiesResponsePdu_new CapsV2)
    registered_reachable ltac:(vm_compute; reflexivity)) as (_ & _ & _ & _ & s' & Hp & Hc & _).
  exists s'. split; [exact Hp|exact Hc].
Defined.

Definition demo_moved : DrdynvcServer (Logged (P := unit)) := run (request_reliable_udp [0]) demo_open.

Lemma dvc_early_frames_witness :
  (rs ← process_tunnels [[48; 0; 9]; [1]]; r ← process_soft_sync_response (mkSoftSyncResponse [RELIABLE_UDP]); mret (rs ++ r)) demo_moved =
  (r ← process_soft_sync_response (mkSoftSyncResponse [RELIABLE_UDP]); rs ← process_tunnels [[48; 0; 9]; [1]]; mret (r ++ rs)) demo_moved.
Proof.
  apply (dvc_early_frames demo_moved {[RELIABLE_UDP]}); [vm_compute; reflexivity|vm_compute; reflexivity|done|].
  apply Forall_cons. split; [by apply elem_of_singleton|constructor].
Defined.

Lemma dvc_server_delivers_witness :
  exists msgs payloads out s', encode_dvc_messages 0 [raw_message (replicate 2000 7); raw_message [1]] 0 = Ok msgs /\
    Forall2 (fun m p => encode_unframed_pdu m = Ok p) msgs payloads /\
    process_all payloads demo_open = Some (inr out, s') /\
    open_with 0 [Started 0; Processed 0 (replicate 2000 7); Processed 0 [1]] CompleteData_new s'.
Proof.
  apply (dvc_server_delivers demo_open 0 0 [Started 0] _ [replicate 2000 7; [1]]); [|done|].
  - eexists. split; [vm_compute; reflexivity|]. done.
  - constructor; [by apply raw_carries; [|apply Forall_replicate]|]. constructor; [|constructor].
    apply raw_carries; [done|concrete_bytes].
Defined.
