(* ===== verification/Pipeline.v ===== *)
(** The graphics channel end to end: what the server compresses, cuts into
    dynamic channel PDUs, chunks for the static channel and writes to the TCP
    stream is read, reassembled and decompressed by the client to the same
    messages, however the network cuts the stream.

    The ends are the sending half of drain_output
    (src/crates/ironrdp-egfx/src/server.rs) and the receiving halves of the
    modelled crates. *)

From S2P Require Import Prelude Cursor Codec Flags Mutation Crates History Zgfx ZgfxTokens ZgfxEncode ZgfxCompress ZgfxRoundtrip WriteBuf Mcs McsCodec Svc SvcProps Framed SvcStream PduText DvcWire DvcCodec Dvc DvcProps.

(** [ZgfxWrappedBytes]: a message that is written as the bytes it holds. *)
Definition ZgfxWrappedBytes (bytes : list Z) : DvcMessage := mkBoxed (WriteCursor.write_slice bytes) (llen bytes).

(** What the layers below ask of a wrapped message. *)
Definition wire_ok (wire : list Z) : Prop := wire <> [] /\ bytes_ok wire /\ llen wire <= 4294967295.

Lemma wrapped_carries wire : wire_ok wire -> dvc_carries (ZgfxWrappedBytes wire) wire.
Proof. intros (_ & Hb & Hl). split_and!; [split; [apply encodes_write_slice|done]|done|done]. Qed.

Section zgfx.
Context {BV : Bitvec} {BF : Bitflags} {BO : Byteorder} {FI : BitField}.

(** ** Compressing and decompressing apart *)

(** The server's half: the messages through one compressor, or as they are if
    it fails. *)
Fixpoint wrap_all (messages : list (list Z * CompressionMode)) (c : Compressor) : option (list (list Z)) :=
  match messages with
  | [] => Some []
  | (data, mode) :: messages' =>
      match compress_and_wrap_egfx data mode c with
      | Some (inr wire, c') => wires ← wrap_all messages' c'; Some (wire :: wires)
      | Some (inl _, c') => wire ← wrap_uncompressed data; wires ← wrap_all messages' c'; Some (wire :: wires)
      | None => None
      end
  end.

(** The client's half: the wires through one decompressor. *)
Fixpoint unwrap_all (wires : list (list Z)) (h : FixedCircularBuffer.t) : option (list (list Z)) :=
  match wires with
  | [] => Some []
  | wire :: wires' =>
      match decompress wire (mkSink h []) with
      | Some (inr n, s) =>
          if n =? llen (output s) then outputs ← unwrap_all wires' (history s); Some (output s :: outputs) else None
      | _ => None
      end
  end.

Lemma transmit_apart messages c h outs :
  transmit messages c h = Some outs -> exists wires, wrap_all messages c = Some wires /\ unwrap_all wires h = Some outs.
Proof.
  revert c h outs. induction messages as [|[data mode] messages IH]; intros c h outs; cbn [transmit wrap_all].
  { intros [= <-]. by exists []. }
  destruct (compress_and_wrap_egfx data mode c) as [[[e|wire] c']|]; [done| |done].
  destruct (decompress wire (mkSink h [])) as [[[e|n] s]|] eqn:Hd; [done| |done].
  destruct (n =? llen (output s)) eqn:Hn; [|done].
  destruct (transmit messages c' (history s)) as [outs'|] eqn:Ht; [|done]. intros [= <-].
  destruct (IH _ _ _ Ht) as (wires & Hw & Hu). exists (wire :: wires). rewrite Hw. split; [done|].
  cbn [unwrap_all]. by rewrite Hd, Hn, Hu.
Qed.

(** ** What is sent fits *)

Lemma flags_byte compressed : is_u8 (segment_flags compressed).
Proof. by destruct compressed. Qed.

Lemma single_ok data compressed : bytes_ok data -> llen data <= 4294967000 -> wire_ok (wrap_single_segment data compressed).
Proof.
  intros Hb Hl. unfold wrap_single_segment. split_and!; [done| |rewrite llen_app; change (llen [_; _]) with 2; lia].
  apply Forall_app. split; [|done]. apply Forall_cons. split; [done|]. apply Forall_cons. split; [apply flags_byte|constructor].
Qed.

Lemma segments_ok compressed segments body :
  Forall bytes_ok segments -> write_segments compressed segments = Some body ->
  bytes_ok body /\ llen body = 5 * llen segments + llen (concat segments).
Proof.
  intros H. revert body. induction H as [|g segments Hg _ IH]; intros body; cbn [write_segments].
  { intros [= <-]. split; [constructor|done]. }
  destruct (try_u32 _) as [n|]; [|done]. cbn [mbind option_bind].
  destruct (write_segments compressed segments) as [rest|]; [|done]. cbn [mbind option_bind]. intros [= <-].
  destruct (IH rest eq_refl) as [Hr Hl]. rewrite bo_u32_le_spec. split.
  - apply Forall_app. split; [apply to_le_bytes_ok|]. apply Forall_cons. split; [apply flags_byte|]. by apply Forall_app.
  - rewrite llen_app. cbn [app]. rewrite llen_cons, llen_app, Hl, llen_cons. cbn [concat]. rewrite llen_app.
    change (llen (to_le_bytes 4 n)) with 4. lia.
Qed.

Lemma uncompressed_ok data wire :
  bytes_ok data -> llen data <= MAX_DECOMPRESSED_PER_SEGMENT -> wrap_uncompressed data = Some wire -> wire_ok wire.
Proof.
  unfold MAX_DECOMPRESSED_PER_SEGMENT. intros Hb Hl. unfold wrap_uncompressed.
  destruct (_ <=? _); [intros [= <-]; apply single_ok; [done|lia]|].
  unfold wrap_multipart_segments. destruct (try_u16 _) as [count|]; [|done]. cbn [mbind option_bind].
  destruct (try_u32 _) as [total|]; [|done]. cbn [mbind option_bind].
  set (segments := chunks (Z.to_nat ZGFX_SEGMENTED_MAXSIZE) data).
  destruct (chunks_loop_spec (length data) (Z.to_nat ZGFX_SEGMENTED_MAXSIZE) data) as (Hcat & Hall & _);
    [unfold ZGFX_SEGMENTED_MAXSIZE; lia|lia|].
  fold (chunks (Z.to_nat ZGFX_SEGMENTED_MAXSIZE) data) in Hcat, Hall. fold segments in Hcat, Hall.
  assert (Hbs : Forall bytes_ok segments) by (apply Forall_concat_parts; by rewrite Hcat).
  assert (Hn : llen segments <= llen (concat segments)).
  { clear -Hall. induction Hall as [|g segments [Hg _] _ IH]; [done|]. cbn [concat]. rewrite llen_cons, llen_app.
    destruct g; [done|]. rewrite llen_cons. pose proof (llen_nonneg g). lia. }
  destruct (write_segments false segments) as [body|] eqn:Hw; [|done]. cbn [mbind option_bind]. intros [= <-].
  destruct (segments_ok _ _ _ Hbs Hw) as [Hbb Hlb]. rewrite Hcat in *. rewrite bo_u16_le_spec, bo_u32_le_spec. split_and!.
  - done.
  - apply Forall_cons. split; [done|]. apply Forall_app. split; [apply to_le_bytes_ok|].
    apply Forall_app. split; [apply to_le_bytes_ok|done].
  - cbn [app]. rewrite llen_cons, !llen_app, Hlb.
    change (llen (to_le_bytes 2 count)) with 2. change (llen (to_le_bytes 4 total)) with 4. lia.
Qed.

Lemma message_wire data mode c hist :
  bytes_ok data -> llen data <= MAX_DECOMPRESSED_PER_SEGMENT -> comp_inv c -> in_step hist c -> mode <> ZgfxEncode.Never ->
  wpm (compress_and_wrap_egfx data mode) (fun r c' => exists wire, r = inr wire /\ wire_ok wire /\
    comp_inv c' /\ in_step (slide hist data) c') c.
Proof.
  intros Hb Hl Hc Hstep Hmode. assert (Hu : is_u64 (llen data))
    by (pose proof (llen_nonneg data); unfold MAX_DECOMPRESSED_PER_SEGMENT in Hl; width).
  pose proof (compress_spec data c hist Hb Hu Hc Hstep) as Hcomp.
  assert (Hraw : exists raw, wrap_uncompressed data = Some raw).
  { destruct (uncompressed_arrives data (mkSink Decompressor_new [])) as (wire & _ & -> & _); [apply sink_wf_new| |eauto].
    unfold MAX_DECOMPRESSED_PER_SEGMENT, MAX_DECOMPRESSED_TOTAL in *. lia. }
  destruct Hraw as [raw Hraw]. pose proof (uncompressed_ok data raw Hb Hl Hraw) as Hrok.
  destruct mode; [done|..]; cbn [compress_and_wrap_egfx]; apply wpm_bind; (eapply wpm_mono; [exact Hcomp|]);
    intros r c' (body & u & items & l & -> & Hbb & Hbu & _ & _ & _ & Hc' & Hs');
    (assert (Hcb : bytes_ok (body ++ [u])) by (apply Forall_app; split; [done|by apply Forall_singleton]));
    unfold wrap_compressed; destruct (Z.leb_spec (llen (body ++ [u])) ZGFX_SEGMENTED_MAXSIZE) as [Hle|Hle];
    rewrite ?Hraw; try (apply wpm_ret; by eexists);
    (assert (Hcok : wire_ok (wrap_single_segment (body ++ [u]) true))
       by (apply single_ok; [done|unfold ZGFX_SEGMENTED_MAXSIZE in Hle; lia])).
  - apply wpm_bind, wpm_ret, wpm_bind, wpm_ret. destruct (_ <? _); apply wpm_ret; by eexists.
  - apply wpm_ret. by eexists.
Qed.

Abbreviation sendable := (Forall (fun m : list Z * CompressionMode => Forall is_u8 m.1 /\ llen m.1 <= MAX_DECOMPRESSED_PER_SEGMENT)).

Lemma wrap_raw_ok messages c wires :
  sendable messages -> Forall (fun m => m.2 = ZgfxEncode.Never) messages -> wrap_all messages c = Some wires -> Forall wire_ok wires.
Proof.
  intros H. revert c wires. induction H as [|[data mode] messages [Hb Hl] _ IH]; intros c wires Hn; cbn [wrap_all].
  { intros [= <-]. constructor. }
  apply Forall_cons in Hn as [Hm Hn]. cbn in Hm, Hb, Hl. subst mode. cbn [compress_and_wrap_egfx].
  destruct (wrap_uncompressed data) as [wire|] eqn:Hw; [|done]. unfold expect, mret, Mut_ret.
  destruct (wrap_all messages c) as [ws|] eqn:Hrest; [|done]. intros [= <-]. constructor; [by eapply uncompressed_ok|by eapply IH].
Qed.

Lemma wrap_all_ok messages c hist wires :
  sendable messages -> never_stays messages -> comp_inv c -> in_step hist c -> wrap_all messages c = Some wires ->
  Forall wire_ok wires.
Proof.
  intros H. revert c hist wires. induction H as [|[data mode] messages [Hb Hl] Hok IH]; intros c hist wires Hn Hc Hstep Hw.
  { injection Hw as <-. constructor. }
  cbn in Hb, Hl. destruct (decide (mode = ZgfxEncode.Never)) as [->|Hmode].
  { apply (wrap_raw_ok ((data, ZgfxEncode.Never) :: messages) c); [by constructor|by constructor|done]. }
  pose proof (message_wire data mode c hist Hb Hl Hc Hstep Hmode) as Hm.
  apply wpm_run in Hm as (r & c' & Hrun & wire & -> & Hwok & Hc' & Hs'). cbn [wrap_all] in Hw. rewrite Hrun in Hw.
  destruct (wrap_all messages c') as [ws|] eqn:Hrest; [|done]. injection Hw as <-.
  constructor; [done|]. eapply IH; [|exact Hc'|exact Hs'|exact Hrest]. by destruct mode.
Qed.

(** ** The layers below *)

Lemma pdu_wire_bytes channel_id p : pdu_fits channel_id p -> bytes_ok (DataPdu_wire p).
Proof.
  intros (Hw & _ & _). destruct p as [p|p]; cbn [DataPdu_wire].
  - destruct Hw as (Hh & _ & _ & Hd). apply Forall_cons. split; [by eapply header_byte_range|].
    apply Forall_app. split; [apply to_le_bytes_ok|]. apply Forall_app. split; [apply to_le_bytes_ok|done].
  - destruct Hw as (Hh & _ & Hd). apply Forall_cons. split; [by eapply header_byte_range|].
    apply Forall_app. split; [apply to_le_bytes_ok|done].
Qed.

(** C4: the graphics channel works end to end.  Whatever messages of up to 64
    MiB the server sends, in any mixture of the compressing modes and, from some
    point on, uncompressed ([never_stays]: the mode Never is not left again),
    they are compressed, cut into dynamic channel PDUs,
    chunked and written to the stream without an error; and however the network
    cuts the stream into pieces, the client reads the PDUs from it to the last
    byte, its static channel reassembles the messages of DRDYNVC, its dynamic
    channel the compressed messages, and its decompressor returns exactly what
    was sent, in order. *)
Theorem graphics_end_to_end messages dvc_id channel_id initiator_id :
  sendable messages -> never_stays messages -> is_u32 dvc_id -> is_u16 channel_id -> is_user_id initiator_id ->
  exists wires msgs out,
    wrap_all messages Compressor_new = Some wires /\
    encode_dvc_messages dvc_id (map ZgfxWrappedBytes wires) ChannelFlags.SHOW_PROTOCOL = Ok msgs /\
    server_encode_svc_messages msgs channel_id initiator_id = Ok out /\
  forall cuts closed, concat cuts.*2 = out -> Forall (fun p => p.2 <> []) cuts ->
  exists n pdus payloads datas dvc_pdus f',
    read_pdus n (mkFramed cuts closed [] None) = Some (inr pdus, f') /\ pending f' = [] /\
    Forall2 (indication_of initiator_id channel_id) pdus payloads /\
    receive payloads ChunkProcessor_new = Some (inr datas, ChunkProcessor_new) /\
    Forall2 (read_back dvc_id) datas dvc_pdus /\
    reassemble dvc_pdus CompleteData_new = Some (inr wires, CompleteData_new) /\
    unwrap_all wires Decompressor_new = Some (fst <$> messages).
Proof.
  intros Hok Hn Hid Hch Hin.
  assert (Ht : transmit messages Compressor_new Decompressor_new = Some (fst <$> messages)).
  { apply transmit_all; [done|done|apply sink_wf_new|apply comp_inv_new|]. rewrite contents_new. apply in_step_new. }
  apply transmit_apart in Ht as (wires & Hw & Hun).
  pose proof (wrap_all_ok messages _ _ wires Hok Hn comp_inv_new in_step_new Hw) as Hwok.
  assert (Hcar : Forall2 dvc_carries (map ZgfxWrappedBytes wires) wires).
  { clear -Hwok. induction Hwok as [|w ws Hw _ IH]; constructor; [by apply wrapped_carries|done]. }
  assert (Hfit : Forall (pdu_fits dvc_id) (wires ≫= message_pdus dvc_id)).
  { apply messages_fit; [done|]. eapply Forall_impl; [exact Hwok|]. by intros w (_ & ? & ?). }
  set (pdus := wires ≫= message_pdus dvc_id) in *.
  destruct (svc_stream_spec (map (as_message ChannelFlags.SHOW_PROTOCOL) pdus) (map DataPdu_wire pdus) channel_id initiator_id)
    as (out & Hout & Hread); [| |done|done|].
  { apply Forall2_fmap, Forall_Forall2_diag. eapply Forall_impl; [exact Hfit|]. intros p Hp.
    by eapply as_message_carries; [|exact Hp]. }
  { apply Forall_map. eapply Forall_impl; [exact Hfit|]. intros p. apply pdu_wire_bytes. }
  exists wires, (map (as_message ChannelFlags.SHOW_PROTOCOL) pdus), out. split_and!; [done| |done|].
  { exact (encode_dvc_spec dvc_id _ _ wires [] Hcar). }
  intros cuts closed Hcut Hne. destruct (Hread cuts closed Hcut Hne) as (n & ps & payloads & f' & Hr & Hp & Hi & Hrec).
  exists n, ps, payloads, (map DataPdu_wire pdus), pdus, f'. split_and!; try done.
  - apply Forall2_fmap_l, Forall_Forall2_diag. eapply Forall_impl; [exact Hfit|]. apply read_back_wire.
  - unfold pdus. rewrite reassemble_messages.
    + rewrite filter_all; [done|]. eapply Forall_impl; [exact Hwok|]. by intros w (? & _).
    + eapply Forall_impl; [exact Hwok|]. by intros w (_ & _ & ?).
Qed.

End zgfx.

Definition sample_session : list (list Z * CompressionMode) :=
  [([65; 65; 65; 65; 65; 65; 66; 66; 66; 66], ZgfxEncode.Always); ([65; 65; 65; 66; 66; 66; 66; 255], ZgfxEncode.Auto)].

Lemma graphics_end_to_end_witness :
  exists wires msgs out,
    @wrap_all le_byteorder sample_session Compressor_new = Some wires /\
    @encode_dvc_messages bits_flags 3 (map ZgfxWrappedBytes wires) ChannelFlags.SHOW_PROTOCOL = Ok msgs /\
    @server_encode_svc_messages bits_flags msgs 1004 1002 = Ok out /\
  forall cuts closed, concat cuts.*2 = out -> Forall (fun p => p.2 <> []) cuts ->
  exists n pdus payloads datas dvc_pdus f',
    read_pdus n (mkFramed cuts closed [] None) = Some (inr pdus, f') /\ pending f' = [] /\
    Forall2 (indication_of 1002 1004) pdus payloads /\
    @receive bits_flags payloads ChunkProcessor_new = Some (inr datas, ChunkProcessor_new) /\
    Forall2 (read_back 3) datas dvc_pdus /\
    reassemble dvc_pdus CompleteData_new = Some (inr wires, CompleteData_new) /\
    @unwrap_all list_bitvec bits_flags le_byteorder shift_bit_field wires Decompressor_new = Some (fst <$> sample_session).
Proof.
  apply (@graphics_end_to_end list_bitvec bits_flags le_byteorder shift_bit_field sample_session); [|exact I|done|width|by split].
  repeat (apply Forall_cons; split; [split; [by repeat (apply Forall_cons; split; [done|])|done]|]). apply Forall_nil_2.
Defined.
