(* ===== verification/Dispatch.v ===== *)
(** One UDP port for every connection (linrdp udp_dispatch.rs): the messages
    between the supervisor and its workers, the Connection Store that says
    which worker a client's datagrams belong to, and the dispatcher that reads
    the port and the workers' channels.

    What arrives on a socket is an argument: [recv] results in the order the
    calls return them; a datagram from the port comes with what the [send] to a
    worker's channel that it leads to returns, if it leads to one.  What is sent
    is a result.  The history of what arrived
    ([Event]) is what the routing guarantees speak about. *)

From stdpp Require Import base gmap list.
From S2P Require Import Prelude Cursor Codec Flags WireV1.

(** ** Addresses of the Rust standard library *)

Inductive IpAddr := V4 (octets : list Z) | V6 (octets : list Z).

Inductive SocketAddr :=
  | SocketAddrV4 (ip : list Z) (port : Z)
  | SocketAddrV6 (ip : list Z) (port flowinfo scope_id : Z).

#[export] Instance IpAddr_eq_dec : EqDecision IpAddr.
Proof. solve_decision. Defined.
#[export] Instance SocketAddr_eq_dec : EqDecision SocketAddr.
Proof. solve_decision. Defined.

#[export] Instance IpAddr_countable : Countable IpAddr.
Proof.
  refine (inj_countable'
    (fun a => match a with V4 o => inl o | V6 o => inr o end)
    (fun s => match s with inl o => V4 o | inr o => V6 o end) _).
  by intros [].
Defined.

#[export] Instance SocketAddr_countable : Countable SocketAddr.
Proof.
  refine (inj_countable'
    (fun a => match a with
              | SocketAddrV4 i p => inl (i, p)
              | SocketAddrV6 i p f s => inr (i, p, (f, s))
              end)
    (fun x => match x with
              | inl (i, p) => SocketAddrV4 i p
              | inr (i, p, (f, s)) => SocketAddrV6 i p f s
              end) _).
  by intros [].
Defined.

(** [SocketAddr::ip], [SocketAddr::port] and [SocketAddr::new], which knows
    neither the flow information nor the scope of an IPv6 address. *)
Definition addr_ip (a : SocketAddr) : IpAddr :=
  match a with SocketAddrV4 i _ => V4 i | SocketAddrV6 i _ _ _ => V6 i end.
Definition addr_port (a : SocketAddr) : Z :=
  match a with SocketAddrV4 _ p => p | SocketAddrV6 _ p _ _ => p end.
Definition SocketAddr_new (ip : IpAddr) (port : Z) : SocketAddr :=
  match ip with V4 i => SocketAddrV4 i port | V6 i => SocketAddrV6 i port 0 0 end.

(** [Ipv4Addr::to_ipv6_mapped] and [Ipv6Addr::to_ipv4_mapped]. *)
Definition MAPPED : list Z := replicate 10 0 ++ [0xff; 0xff].
Definition to_ipv6_mapped (ip : list Z) : list Z := MAPPED ++ ip.
Definition to_ipv4_mapped (ip : list Z) : option (list Z) :=
  if decide (take 12 ip = MAPPED) then Some (drop 12 ip) else None.

(** ** The messages on a worker's channel *)

Definition REGISTER : Z := 82.
Definition DATAGRAM : Z := 68.
Definition ADDR_LEN : nat := 1 + 16 + 2.

Definition encode_register (cookie_hash : list Z) : list Z := REGISTER :: cookie_hash.

Definition decode_register (message : list Z) : option (list Z) :=
  match message with
  | b :: hash => if b =? REGISTER then (if decide (length hash = 32%nat) then Some hash else None) else None
  | [] => None
  end.

Definition encode_datagram (peer : SocketAddr) (payload : list Z) : list Z :=
  [DATAGRAM] ++
  match addr_ip peer with
  | V4 ip => 4 :: to_ipv6_mapped ip
  | V6 ip => 6 :: ip
  end ++ to_be_bytes 2 (addr_port peer) ++ payload.

Definition decode_datagram (message : list Z) : option (SocketAddr * list Z) :=
  match message with
  | [] => None
  | b :: rest =>
      if negb (b =? DATAGRAM) then None
      else if decide (length rest < ADDR_LEN)%nat then None
      else
        let addr := take ADDR_LEN rest in
        let payload := drop ADDR_LEN rest in
        let v6 := take 16 (drop 1 addr) in
        ip ← (match head addr with
              | Some 4 => V4 <$> to_ipv4_mapped v6
              | Some 6 => Some (V6 v6)
              | _ => None
              end);
        let port := from_be_bytes (drop 17 addr) in
        Some (SocketAddr_new ip port, payload)
  end.

(** ** The Connection Store *)

Record Store := mkStore {
  requests : gmap (list Z) (Z * nat);
  clients : gmap (nat * SocketAddr) Z;
}.

Definition Store_default : Store := mkStore ∅ ∅.

Definition Store_register (pid : Z) (listener : nat) (cookie_hash : list Z) (s : Store) : Store :=
  mkStore (<[cookie_hash := (pid, listener)]> (requests s)) (clients s).

Definition Store_route (listener : nat) (peer : SocketAddr) (syn_cookie_hash : option (list Z)) (s : Store) :
    option Z * Store :=
  match clients s !! (listener, peer) with
  | Some pid => (Some pid, s)
  | None =>
      match syn_cookie_hash with
      | None => (None, s)
      | Some hash =>
          match requests s !! hash with
          | None => (None, s)
          | Some (pid, registered_on) =>
              if negb (registered_on =? listener)%nat then (None, s)
              else (Some pid, mkStore (delete hash (requests s)) (<[(listener, peer) := pid]> (clients s)))
          end
      end
  end.

Definition Store_remove (pid : Z) (s : Store) : Store :=
  mkStore (filter (fun x => x.2.1 <> pid) (requests s)) (filter (fun x => x.2 <> pid) (clients s)).

(** ** The dispatcher *)

(** A channel is the supervisor's end of a socket pair; sockets are told apart
    by a number. *)
Definition UnixDatagram := Z.

Record Dispatch := mkDispatch {
  store : Store;
  channels : gmap Z (UnixDatagram * nat);
}.

Definition Dispatch_default : Dispatch := mkDispatch Store_default ∅.

Definition add_worker (pid : Z) (listener : nat) (channel : UnixDatagram) (d : Dispatch) : Dispatch :=
  mkDispatch (store d) (<[pid := (channel, listener)]> (channels d)).

Definition remove_worker (pid : Z) (d : Dispatch) : Dispatch :=
  mkDispatch (Store_remove pid (store d)) (delete pid (channels d)).

(** What a receive call returns; a list of results that ends stands for a
    socket with nothing more to read. *)
Inductive Received (A : Type) := Got (a : A) | WouldBlock | Interrupted | Failed.
#[global] Arguments Got {A} a.
#[global] Arguments WouldBlock {A}.
#[global] Arguments Interrupted {A}.
#[global] Arguments Failed {A}.

Fixpoint read_channel_loop (pid : Z) (listener : nat) (recv : list (Received (list Z))) (s : Store) : Store :=
  match recv with
  | [] => s
  | Got message :: recv' =>
      let buf := take 64 message in
      read_channel_loop pid listener recv'
        (match decode_register buf with
         | Some hash => Store_register pid listener hash s
         | None => s
         end)
  | WouldBlock :: _ => s
  | Interrupted :: recv' => read_channel_loop pid listener recv' s
  | Failed :: _ => s
  end.

Definition read_channel (pid : Z) (recv : list (Received (list Z))) (d : Dispatch) : Dispatch :=
  match channels d !! pid with
  | None => d
  | Some (_, listener) => mkDispatch (read_channel_loop pid listener recv (store d)) (channels d)
  end.

Section dispatch.
Context {BF : Bitflags}.

(** ironrdp-rdpeudp-tokio's [syn_cookie_hash]. *)
Definition syn_cookie_hash (datagram : list Z) : option (list Z) :=
  match decode V1Datagram datagram with
  | Ok syn =>
      let flags := fh_flags (d_header syn) in
      if negb (contains flags V1Flags.SYN) || contains flags V1Flags.ACK then None
      else syn_data_ex ← d_syn_data_ex syn; cookie_hash syn_data_ex
  | _ => None
  end.

(** One datagram: the store names the worker, its channel gets the message,
    unless the worker cannot keep up ([took] is false): then it is lost. *)
Definition dispatch_datagram (listener : nat) (peer : SocketAddr) (datagram : list Z) (took : bool) (d : Dispatch) :
    list (UnixDatagram * list Z) * Dispatch :=
  let '(to, s) := Store_route listener peer (syn_cookie_hash datagram) (store d) in
  let d := mkDispatch s (channels d) in
  match to with
  | None => ([], d)
  | Some pid =>
      match channels d !! pid with
      | None => ([], d)
      | Some (channel, _) => (if took then [(channel, encode_datagram peer datagram)] else [], d)
      end
  end.

Fixpoint read_socket (listener : nat) (recv_from : list (Received (list Z * SocketAddr * bool))) (d : Dispatch) :
    list (UnixDatagram * list Z) * Dispatch :=
  match recv_from with
  | [] => ([], d)
  | Got (message, peer, took) :: recv_from' =>
      let datagram := take 9000 message in
      let '(sent, d) := dispatch_datagram listener peer datagram took d in
      let '(sent', d) := read_socket listener recv_from' d in
      (sent ++ sent', d)
  | WouldBlock :: _ => ([], d)
  | Interrupted :: recv_from' => read_socket listener recv_from' d
  | Failed :: recv_from' => read_socket listener recv_from' d
  end.

End dispatch.
