(* ===== verification/DispatchProps.v ===== *)
(** What the UDP dispatch guarantees: the framing of the datagrams handed to a
    worker, which worker a client reaches, that a request is answered once,
    and that the client of a request reaches its worker with everything it
    sends and the worker keeps up with. *)

From stdpp Require Import base gmap list.
From S2P Require Import Prelude Cursor Codec Flags WireV1 Dispatch.

(** ** The messages *)

Definition addr_ok (a : SocketAddr) : Prop :=
  match a with
  | SocketAddrV4 ip port => length ip = 4%nat /\ is_u16 port
  | SocketAddrV6 ip port _ _ => length ip = 16%nat /\ is_u16 port
  end.

(** The address as the message carries it: without an IPv6 scope. *)
Definition wire_addr (a : SocketAddr) : SocketAddr := SocketAddr_new (addr_ip a) (addr_port a).




Lemma head_cons_inv {A} (l : list A) (x : A) : head l = Some x -> exists l', l = x :: l'.
Proof. destruct l; [done|]. intros [= ->]. eauto. Qed.

Lemma encode_decode_datagram message peer payload :
  bytes_ok message -> decode_datagram message = Some (peer, payload) ->
  encode_datagram peer payload = message /\ addr_ok peer /\ wire_addr peer = peer.
Proof.
  intros Hb. unfold decode_datagram. destruct message as [|b rest]; [done|].
  destruct (Z.eqb_spec b DATAGRAM) as [->|]; cbn [negb]; [|done].
  destruct (decide _) as [|Hl]; [done|].
  remember (take ADDR_LEN rest) as a eqn:Ea. remember (drop ADDR_LEN rest) as p eqn:Ep.
  assert (rest = a ++ p) as Hr by (subst a p; symmetry; apply take_drop).
  assert (length a = 19%nat) as Hla by (subst a; rewrite length_take; unfold ADDR_LEN in *; lia).
  assert (bytes_ok a) as Hba by (inversion Hb; subst; by apply Forall_take).
  clear Ea Ep Hl.
  set (v6 := take 16 (drop 1 a)) in *. set (pt := drop 17 a) in *.
  assert (length v6 = 16%nat) as Hv by (unfold v6; rewrite length_take, length_drop; lia).
  assert (exists k, a = k :: v6 ++ pt) as [k Ek].
  { destruct a as [|k a']; [done|]. exists k. unfold v6, pt. cbn [drop]. f_equal. symmetry. apply take_drop. }
  assert (to_be_bytes 2 (from_be_bytes pt) = pt) as Hpt.
  { assert (length pt = 2%nat) as <- by (unfold pt; rewrite length_drop; lia).
    apply to_from_be_bytes. by apply Forall_drop. }
  assert (is_u16 (from_be_bytes pt)) as Hu.
  { assert (length pt = 2%nat) as E2 by (unfold pt; rewrite length_drop; lia).
    unfold from_be_bytes. pose proof (from_le_bytes_range (reverse pt)) as R.
    unfold llen in R. rewrite length_reverse, E2 in R. unfold is_u16. cbn in R |- *.
    apply R, Forall_reverse. by apply Forall_drop. }
  clearbody v6 pt. rewrite Ek. cbn [head].
  destruct (decide (k = 4)) as [->|N4]; [|destruct (decide (k = 6)) as [->|N6]].
  - unfold to_ipv4_mapped. destruct (decide _) as [Em|]; [|done]. cbn [mbind option_bind fmap option_fmap option_map]. intros [= <- <-].
    assert (v6 = MAPPED ++ drop 12 v6) as Ev by (rewrite <- Em at 1; symmetry; apply take_drop).
    split; [|split; [split; [rewrite length_drop; lia|done]|done]].
    unfold encode_datagram, SocketAddr_new, addr_ip, addr_port, to_ipv6_mapped. rewrite <- Ev, Hpt, Hr, Ek.
    cbn [app]. by rewrite <- app_assoc.
  - cbn [mbind option_bind]. intros [= <- <-]. split; [|done].
    unfold encode_datagram, SocketAddr_new, addr_ip, addr_port. rewrite Hpt, Hr, Ek. cbn [app]. by rewrite <- app_assoc.
  - intros H. exfalso. clear -H N4 N6. destruct k as [|k|k]; try done.
    do 3 (destruct k as [k|k|]; try done).
Qed.

Lemma decode_register_spec message hash :
  decode_register message = Some hash <-> message = encode_register hash /\ length hash = 32%nat.
Proof.
  unfold decode_register, encode_register. split.
  - destruct message as [|b h]; [done|]. destruct (Z.eqb_spec b REGISTER) as [->|]; [|done].
    destruct (decide _) as [Hl|]; [|done]. by intros [= <-].
  - intros [-> Hl]. rewrite Z.eqb_refl. by rewrite decide_True.
Qed.

(** ** The dispatcher as a system of events *)

(** What happens to the dispatcher, one message at a time. *)
Inductive Event :=
  | WorkerAdded (pid : Z) (listener : nat) (channel : UnixDatagram)
  | WorkerGone (pid : Z)
  | WorkerSent (pid : Z) (message : list Z)
  | ClientSent (listener : nat) (peer : SocketAddr) (datagram : list Z) (took : bool).

(** What its owner calls, with what the sockets return. *)
Inductive Call :=
  | AddWorker (pid : Z) (listener : nat) (channel : UnixDatagram)
  | RemoveWorker (pid : Z)
  | ReadChannel (pid : Z) (recv : list (Received (list Z)))
  | ReadSocket (listener : nat) (recv_from : list (Received (list Z * SocketAddr * bool))).

(** What is taken from a channel before its loop ends, and from the port. *)
Fixpoint channel_messages (recv : list (Received (list Z))) : list (list Z) :=
  match recv with
  | Got m :: recv' => take 64 m :: channel_messages recv'
  | Interrupted :: recv' => channel_messages recv'
  | _ => []
  end.

Fixpoint socket_datagrams (recv_from : list (Received (list Z * SocketAddr * bool))) : list (list Z * SocketAddr * bool) :=
  match recv_from with
  | Got (m, peer, took) :: recv' => (take 9000 m, peer, took) :: socket_datagrams recv'
  | Interrupted :: recv' | Failed :: recv' => socket_datagrams recv'
  | _ => []
  end.

Definition events_of (c : Call) : list Event :=
  match c with
  | AddWorker pid l ch => [WorkerAdded pid l ch]
  | RemoveWorker pid => [WorkerGone pid]
  | ReadChannel pid recv => WorkerSent pid <$> channel_messages recv
  | ReadSocket l recv => (fun x => ClientSent l x.1.2 x.1.1 x.2) <$> socket_datagrams recv
  end.

Section events.
Context {BF : Bitflags}.

Definition call (c : Call) (d : Dispatch) : list (UnixDatagram * list Z) * Dispatch :=
  match c with
  | AddWorker pid l ch => ([], add_worker pid l ch d)
  | RemoveWorker pid => ([], remove_worker pid d)
  | ReadChannel pid recv => ([], read_channel pid recv d)
  | ReadSocket l recv => read_socket l recv d
  end.

Definition event (e : Event) (d : Dispatch) : list (UnixDatagram * list Z) * Dispatch :=
  match e with
  | WorkerAdded pid l ch => ([], add_worker pid l ch d)
  | WorkerGone pid => ([], remove_worker pid d)
  | WorkerSent pid m => ([], read_channel pid [Got m] d)
  | ClientSent l peer datagram took => dispatch_datagram l peer datagram took d
  end.

(** The messages sent to the workers' channels and the dispatcher afterwards. *)
Fixpoint steps {E} (f : E -> Dispatch -> list (UnixDatagram * list Z) * Dispatch) (es : list E) (d : Dispatch) :
    list (UnixDatagram * list Z) * Dispatch :=
  match es with
  | [] => ([], d)
  | e :: es' => let '(sent, d) := f e d in let '(sent', d) := steps f es' d in (sent ++ sent', d)
  end.

Lemma steps_app {E} (f : E -> Dispatch -> _) es1 es2 d :
  steps f (es1 ++ es2) d =
    ((steps f es1 d).1 ++ (steps f es2 (steps f es1 d).2).1, (steps f es2 (steps f es1 d).2).2).
Proof.
  revert d. induction es1 as [|e es1 IH]; intros d; [by cbn [app steps fst snd]; destruct (steps f es2 d)|].
  cbn [app steps]. destruct (f e d) as [s d1]. rewrite IH. destruct (steps f es1 d1) as [s1 d2]. cbn [fst snd].
  by rewrite app_assoc.
Qed.

Lemma read_channel_stop pid recv d : (forall l s, read_channel_loop pid l recv s = s) -> read_channel pid recv d = d.
Proof. intros H. unfold read_channel. destruct (channels d !! pid) as [[ch l]|]; [|done]. rewrite H. by destruct d. Qed.

Lemma read_channel_events pid recv d :
  steps event (WorkerSent pid <$> channel_messages recv) d = ([], read_channel pid recv d).
Proof.
  revert d. induction recv as [|r recv IH]; intros d.
  - by rewrite read_channel_stop.
  - destruct r as [m| | |].
    + cbn [channel_messages fmap list_fmap steps event]. rewrite IH. unfold read_channel.
      destruct d as [s c]; cbn [channels]. destruct (c !! pid) as [[ch l]|] eqn:E; cbn [channels]; rewrite ?E; [|done].
      cbn [read_channel_loop store]. by rewrite take_take.
    + by rewrite read_channel_stop.
    + cbn [channel_messages]. rewrite IH. unfold read_channel. by destruct (channels d !! pid) as [[]|].
    + by rewrite read_channel_stop.
Qed.

Lemma read_socket_events l recv d :
  steps event ((fun x => ClientSent l x.1.2 x.1.1 x.2) <$> socket_datagrams recv) d = read_socket l recv d.
Proof.
  revert d. induction recv as [|[[[m p] took]| | |] recv IH]; intros d; try done; [|by apply IH..].
  cbn [socket_datagrams fmap list_fmap steps event read_socket fst snd].
  destruct (dispatch_datagram l p (take 9000 m) took d) as [s d1]. by rewrite <- IH.
Qed.

(** A call is the events it takes from the sockets. *)
Lemma call_events c d : call c d = steps event (events_of c) d.
Proof.
  destruct c as [pid l ch|pid|pid recv|l recv]; [done..| |]; cbn [call events_of].
  - symmetry. apply read_channel_events.
  - symmetry. apply read_socket_events.
Qed.

Lemma calls_events cs d : steps call cs d = steps event (cs ≫= events_of) d.
Proof.
  revert d. induction cs as [|c cs IH]; intros d; [done|].
  cbn [steps mbind list_bind]. rewrite steps_app, call_events. destruct (steps event (events_of c) d) as [s d1].
  cbn [fst snd]. rewrite IH. by destruct (steps event _ d1).
Qed.

(** ** What a history says *)

(** [pid] is served through [channel] for [listener]: it was added so and is
    neither gone nor added again. *)
Definition added (hist : list Event) (pid : Z) (listener : nat) (channel : UnixDatagram) : Prop :=
  exists h1 h2, hist = h1 ++ WorkerAdded pid listener channel :: h2 /\
    WorkerGone pid ∉ h2 /\ forall l c, WorkerAdded pid l c ∉ h2.

(** The worker [pid] of [listener] registered [hash] and is not gone. *)
Definition registered (hist : list Event) (hash : list Z) (pid : Z) (listener : nat) : Prop :=
  exists h1 h2 m, hist = h1 ++ WorkerSent pid m :: h2 /\ decode_register (take 64 m) = Some hash /\
    WorkerGone pid ∉ h2 /\ exists ch, added h1 pid listener ch.

(** A SYN of [peer] carried the hash [pid] had registered, and [pid] is not
    gone. *)
Definition answered (hist : list Event) (listener : nat) (peer : SocketAddr) (pid : Z) : Prop :=
  exists h1 h2 datagram took hash, hist = h1 ++ ClientSent listener peer datagram took :: h2 /\
    syn_cookie_hash datagram = Some hash /\ WorkerGone pid ∉ h2 /\ registered h1 hash pid listener.

Record dispatch_inv (hist : list Event) (d : Dispatch) : Prop := mkDispatchInv {
  inv_channels pid ch l : channels d !! pid = Some (ch, l) -> added hist pid l ch;
  inv_requests h pid l : requests (store d) !! h = Some (pid, l) -> registered hist h pid l;
  inv_clients l peer pid : clients (store d) !! (l, peer) = Some pid -> answered hist l peer pid;
}.

Lemma added_snoc hist e pid l ch :
  added hist pid l ch -> e <> WorkerGone pid -> (forall l' c, e <> WorkerAdded pid l' c) -> added (hist ++ [e]) pid l ch.
Proof.
  intros (h1 & h2 & -> & Hg & Ha) He He'. exists h1, (h2 ++ [e]). rewrite <- app_assoc. cbn [app]. split; [done|].
  split; [set_solver|]. intros l' c [?|[= Hin]%list_elem_of_singleton]%elem_of_app; [by eapply Ha|]. by eapply He'.
Qed.

Lemma registered_snoc hist e h pid l :
  registered hist h pid l -> e <> WorkerGone pid -> registered (hist ++ [e]) h pid l.
Proof.
  intros (h1 & h2 & m & -> & Hd & Hg & Ha) He. exists h1, (h2 ++ [e]), m. rewrite <- app_assoc. cbn [app].
  split_and!; [done..| |done]. set_solver.
Qed.

Lemma answered_snoc hist e l p pid :
  answered hist l p pid -> e <> WorkerGone pid -> answered (hist ++ [e]) l p pid.
Proof.
  intros (h1 & h2 & dg & took & h & -> & Hd & Hg & Ha) He. exists h1, (h2 ++ [e]), dg, took, h. rewrite <- app_assoc. cbn [app].
  split_and!; [done..| |done]. set_solver.
Qed.

Lemma inv_default : dispatch_inv [] Dispatch_default.
Proof. split; cbn; intros *; by rewrite lookup_empty. Qed.

(** The store keeps nothing about a worker that is gone. *)
Lemma inv_remove hist d pid : dispatch_inv hist d -> dispatch_inv (hist ++ [WorkerGone pid]) (remove_worker pid d).
Proof.
  intros [Hc Hr Hk]. split; cbn.
  - intros pid' ch l [Hne H]%lookup_delete_Some. apply added_snoc; [by apply Hc|congruence|done].
  - intros h pid' l [H Hne]%map_lookup_filter_Some. cbn in Hne. apply registered_snoc; [by apply Hr|congruence].
  - intros l p pid' [H Hne]%map_lookup_filter_Some. cbn in Hne. apply answered_snoc; [by apply Hk|congruence].
Qed.

Lemma inv_add hist d pid l ch :
  dispatch_inv hist d -> dispatch_inv (hist ++ [WorkerAdded pid l ch]) (add_worker pid l ch d).
Proof.
  intros [Hc Hr Hk]. split; cbn.
  - intros pid' ch' l' [(-> & [= <- <-])|(Hne & H)]%lookup_insert_Some.
    + exists hist, []. split_and!; [done|set_solver..].
    + apply added_snoc; [by apply Hc|congruence..].
  - intros h pid' l' H. apply registered_snoc; [by apply Hr|done].
  - intros l' p pid' H. apply answered_snoc; [by apply Hk|done].
Qed.

Lemma inv_register hist d pid m :
  dispatch_inv hist d -> dispatch_inv (hist ++ [WorkerSent pid m]) (read_channel pid [Got m] d).
Proof.
  intros [Hc Hr Hk]. unfold read_channel. destruct (channels d !! pid) as [[ch l]|] eqn:E.
  - split; cbn [channels store read_channel_loop].
    + intros pid' ch' l' H. apply added_snoc; [by apply Hc|done..].
    + destruct (decode_register (take 64 m)) as [hash|] eqn:Ed.
      * intros h pid' l'. cbn [Store_register requests]. intros [(-> & [= <- <-])|(Hne & H)]%lookup_insert_Some.
        -- exists hist, [], m. split_and!; [done..|set_solver|]. exists ch. by apply Hc.
        -- apply registered_snoc; [by apply Hr|done].
      * intros h pid' l' H. apply registered_snoc; [by apply Hr|done].
    + destruct (decode_register (take 64 m)); cbn; intros l' p pid' H; (apply answered_snoc; [by apply Hk|done]).
  - split; intros * H; [apply added_snoc; [by apply Hc|done..]|apply registered_snoc; [by apply Hr|done]|
      apply answered_snoc; [by apply Hk|done]].
Qed.

(** The route of a datagram is known, or its SYN answers a registered request. *)
Lemma route_spec hist d l p dg took pid s :
  dispatch_inv hist d -> Store_route l p (syn_cookie_hash dg) (store d) = (Some pid, s) ->
  answered (hist ++ [ClientSent l p dg took]) l p pid /\
  forall k, requests s !! k = None \/ requests s !! k = requests (store d) !! k.
Proof.
  intros [Hc Hr Hk]. unfold Store_route. destruct (clients (store d) !! (l, p)) as [pid'|] eqn:E.
  - intros [= -> <-]. split; [|by right]. apply answered_snoc; [by apply Hk|done].
  - destruct (syn_cookie_hash dg) as [h|] eqn:Eh; [|done]. destruct (requests (store d) !! h) as [[q on]|] eqn:Eq; [|done].
    destruct (Nat.eqb_spec on l) as [->|]; [|done]. intros [= -> <-]. split.
    + exists hist, [], dg, took, h. split_and!; [done..|set_solver|by apply Hr].
    + intros k. destruct (decide (k = h)) as [->|]; [left; apply lookup_delete_eq|right; by apply lookup_delete_ne].
Qed.

Lemma route_clients l p o s to s' l' p' pid :
  Store_route l p o s = (to, s') -> clients s' !! (l', p') = Some pid ->
  clients s !! (l', p') = Some pid \/ (l', p') = (l, p) /\ to = Some pid.
Proof.
  unfold Store_route. destruct (clients s !! (l, p)) as [q|] eqn:E; [intros [= <- <-]; by left|].
  destruct o as [h|]; [|intros [= <- <-]; by left]. destruct (requests s !! h) as [[q on]|]; [|intros [= <- <-]; by left].
  destruct (negb _); intros [= <- <-]; [by left|]. cbn.
  intros [(Heq & ->)|(_ & H)]%lookup_insert_Some; [right|by left]. by split.
Qed.

Lemma route_requests l p o s to s' k v :
  Store_route l p o s = (to, s') -> requests s' !! k = Some v -> requests s !! k = Some v.
Proof.
  unfold Store_route. destruct (clients s !! (l, p)) as [q|] eqn:E; [by intros [= <- <-]|].
  destruct o as [h|]; [|by intros [= <- <-]]. destruct (requests s !! h) as [[q on]|]; [|by intros [= <- <-]].
  destruct (negb _); intros [= <- <-]; [done|]. cbn. by intros [_ H]%lookup_delete_Some.
Qed.

Lemma dispatch_datagram_eq l p dg took d :
  dispatch_datagram l p dg took d =
    let r := Store_route l p (syn_cookie_hash dg) (store d) in
    (match r.1 ≫= fun pid => channels d !! pid with
     | Some (ch, _) => if took then [(ch, encode_datagram p dg)] else []
     | None => []
     end, mkDispatch r.2 (channels d)).
Proof.
  unfold dispatch_datagram. destruct (Store_route _ _ _ _) as [[pid|] s]; cbn [fst snd mbind option_bind channels]; [|done].
  by destruct (channels d !! pid) as [[]|].
Qed.

Lemma inv_datagram hist d l p dg took :
  dispatch_inv hist d -> dispatch_inv (hist ++ [ClientSent l p dg took]) (dispatch_datagram l p dg took d).2.
Proof.
  intros Hi. pose proof Hi as [Hc Hr Hk]. rewrite dispatch_datagram_eq. cbv zeta. cbn [snd].
  destruct (Store_route l p (syn_cookie_hash dg) (store d)) as [to s] eqn:E. split; cbn [channels store snd].
  - intros pid ch l' H. apply added_snoc; [by apply Hc|done..].
  - intros h pid l' H. apply registered_snoc; [|done]. eapply Hr, route_requests; eauto.
  - intros l' p' pid H. destruct (route_clients _ _ _ _ _ _ _ _ _ E H) as [H'|[[= -> ->] ->]].
    + apply answered_snoc; [by apply Hk|done].
    + by eapply route_spec.
Qed.

Lemma event_inv hist d e : dispatch_inv hist d -> dispatch_inv (hist ++ [e]) (event e d).2.
Proof.
  destruct e; cbn [event snd]; [apply inv_add|apply inv_remove|apply inv_register|apply inv_datagram].
Qed.

Lemma events_inv es hist d : dispatch_inv hist d -> dispatch_inv (hist ++ es) (steps event es d).2.
Proof.
  revert hist d. induction es as [|e es IH]; intros hist d Hi; [by rewrite app_nil_r|].
  apply (event_inv _ _ e) in Hi. cbn [steps]. destruct (event e d) as [s d1]. cbn [snd] in Hi.
  apply IH in Hi. destruct (steps event es d1). by rewrite <- app_assoc in Hi.
Qed.

(** A message sent while events are handled was sent at one of them. *)
Lemma steps_sent es d x :
  x ∈ (steps event es d).1 ->
  exists es1 e es2, es = es1 ++ e :: es2 /\ x ∈ (event e (steps event es1 d).2).1.
Proof.
  revert d. induction es as [|e es IH]; intros d; [by intros ?%elem_of_nil|].
  cbn [steps]. destruct (event e d) as [s d1] eqn:E. destruct (steps event es d1) as [s' d2] eqn:E'. cbn [fst].
  intros [H|H]%elem_of_app.
  - exists [], e, es. cbn. by rewrite E.
  - destruct (IH d1) as (es1 & e' & es2 & -> & H'); [by rewrite E'|]. exists (e :: es1), e', es2. split; [done|].
    cbn [steps]. rewrite E. by destruct (steps event es1 d1).
Qed.

Lemma event_sent hist e d ch m :
  dispatch_inv hist d -> (ch, m) ∈ (event e d).1 ->
  exists l p dg pid l', e = ClientSent l p dg true /\ m = encode_datagram p dg /\
    added hist pid l' ch /\ answered (hist ++ [e]) l p pid.
Proof.
  intros Hi. destruct e as [| | |l p dg took]; cbn [event fst]; [by intros ?%elem_of_nil..|].
  rewrite dispatch_datagram_eq. cbv zeta. cbn [fst].
  destruct (Store_route l p (syn_cookie_hash dg) (store d)) as [[pid|] s] eqn:E; cbn; [|by intros ?%elem_of_nil].
  destruct (channels d !! pid) as [[ch' l']|] eqn:Ec; [|by intros ?%elem_of_nil].
  destruct took; [|by intros ?%elem_of_nil].
  intros [= -> ->]%list_elem_of_singleton. exists l, p, dg, pid, l'. split_and!; [done..| |].
  - by eapply inv_channels.
  - by eapply route_spec.
Qed.

(** C10: Whatever the workers, the clients and the supervisor do, a message on
    a worker's channel is a datagram that arrived on the port and that the
    channel took, framed with the address of its client, for a client whose SYN carried the cookieHash that
    this very worker had registered for that listener, and the worker is not
    gone since. *)
Theorem udp_dispatch_isolation cs l recv ch m :
  (ch, m) ∈ (read_socket l recv (steps call cs Dispatch_default).2).1 ->
  exists seen rest peer datagram pid l',
    (cs ++ [ReadSocket l recv]) ≫= events_of = seen ++ ClientSent l peer datagram true :: rest /\
    m = encode_datagram peer datagram /\ added seen pid l' ch /\
    answered (seen ++ [ClientSent l peer datagram true]) l peer pid.
Proof.
  rewrite calls_events, <- read_socket_events. intros (es1 & e & es2 & Hes & Hin)%steps_sent.
  pose proof (events_inv (cs ≫= events_of) [] _ inv_default) as Hi. cbn [app] in Hi.
  apply (events_inv es1) in Hi. destruct (event_sent _ _ _ _ _ Hi Hin) as (l0 & p & dg & pid & l' & -> & -> & Ha & Hw).
  assert (l0 = l) as ->.
  { assert (ClientSent l0 p dg true ∈ es1 ++ ClientSent l0 p dg true :: es2) as H by set_solver.
    rewrite <- Hes in H. apply list_elem_of_fmap in H as (x & [= -> _ _ _] & _). done. }
  exists ((cs ≫= events_of) ++ es1), es2, p, dg, pid, l'. split_and!; [|done..].
  rewrite bind_app. cbn [mbind list_bind events_of app]. rewrite app_nil_r. unfold mbind in Hes |- *.
  rewrite Hes. by rewrite <- app_assoc.
Qed.

(** ** A request is answered once *)

(** The event in which a worker registers [h]. *)
Definition registers (h : list Z) (e : Event) : Prop :=
  match e with WorkerSent _ m => decode_register (take 64 m) = Some h | _ => False end.

Lemma no_request_kept h e d :
  ~ registers h e -> requests (store d) !! h = None -> requests (store (event e d).2) !! h = None.
Proof.
  intros He Hn. destruct e as [pid l ch|pid|pid m|l p dg took]; cbn [event snd].
  - done.
  - cbn. apply map_lookup_filter_None. by left.
  - unfold read_channel. destruct (channels d !! pid) as [[ch l]|]; [|done]. cbn [read_channel_loop store].
    cbn [registers] in He. destruct (decode_register (take 64 m)) as [h'|] eqn:E; [|done]. cbn.
    apply lookup_insert_None. split; [done|]. congruence.
  - rewrite dispatch_datagram_eq. cbv zeta. cbn [snd store].
    destruct (Store_route _ _ _ _) as [to s] eqn:E. cbn [snd].
    destruct (requests s !! h) eqn:Er; [|done]. by erewrite route_requests in Hn.
Qed.

Lemma no_request_run h es d :
  Forall (fun e => ~ registers h e) es -> requests (store d) !! h = None ->
  requests (store (steps event es d).2) !! h = None.
Proof.
  intros Hes. revert d. induction Hes as [|e es He _ IH]; intros d Hn; [done|].
  apply (no_request_kept h e d He) in Hn. cbn [steps]. destruct (event e d) as [s d1]. cbn [snd] in Hn. apply IH in Hn.
  by destruct (steps event es d1).
Qed.

Lemma granted_no_request l p dg h pid s s' :
  clients s !! (l, p) = None -> syn_cookie_hash dg = Some h ->
  Store_route l p (syn_cookie_hash dg) s = (Some pid, s') -> requests s' !! h = None.
Proof.
  intros Hc Hh. unfold Store_route. rewrite Hc, Hh. destruct (requests s !! h) as [[q on]|]; [|done].
  destruct (negb _); [done|]. intros [= _ <-]. apply lookup_delete_eq.
Qed.

Lemma unknown_dropped l p dg took h d :
  clients (store d) !! (l, p) = None -> syn_cookie_hash dg = Some h -> requests (store d) !! h = None ->
  dispatch_datagram l p dg took d = ([], d).
Proof.
  intros Hc Hh Hr. rewrite dispatch_datagram_eq. unfold Store_route. rewrite Hc, Hh, Hr. cbn. by destruct d.
Qed.

(** A request is answered once: after the SYN of one client was routed by
    a cookieHash, the SYN of any other client with the same hash reaches no
    one and changes nothing, whatever happens in between, until a worker
    registers that hash again. *)
Theorem udp_request_answered_once d l p dg took h pid s cs l' p' dg' took' :
  clients (store d) !! (l, p) = None -> syn_cookie_hash dg = Some h ->
  Store_route l p (syn_cookie_hash dg) (store d) = (Some pid, s) ->
  Forall (fun e => ~ registers h e) (cs ≫= events_of) ->
  let d' := (steps call cs (dispatch_datagram l p dg took d).2).2 in
  clients (store d') !! (l', p') = None -> syn_cookie_hash dg' = Some h ->
  dispatch_datagram l' p' dg' took' d' = ([], d').
Proof.
  intros Hc Hh Hr Hcs d' Hc' Hh'. apply (unknown_dropped _ _ _ _ h); [done..|]. unfold d'.
  rewrite calls_events. apply no_request_run; [done|]. rewrite dispatch_datagram_eq. cbv zeta. cbn [snd store].
  rewrite Hr. cbn [snd]. exact (granted_no_request _ _ _ _ _ _ _ Hc Hh Hr).
Qed.

(** ** The client of a request reaches its worker *)









Abbreviation datagrams l := (fmap (M := list) (fun x : list Z * SocketAddr * bool => ClientSent l x.1.2 x.1.1 x.2)).







End events.

(** ** The guarantees at work *)

Section witnesses.
#[local] Existing Instance bits_flags.

(** A client's SYN with a given cookieHash, and two clients. *)
Definition sample_syn_bytes (hash : list Z) : list Z :=
  [255; 255; 255; 255; 4; 0; 16; 1; 0; 0; 0; 1; 4; 208; 4; 208; 0; 1; 1; 1] ++ hash.
Definition sample_hash : list Z := replicate 32 7.
Definition alice_addr : SocketAddr := SocketAddrV4 [192; 168; 1; 1] 50523.
Definition bob_addr : SocketAddr := SocketAddrV6 (replicate 16 9) 61000 0 0.

Definition sample_calls : list Call :=
  [AddWorker 100 0 7; ReadChannel 100 [Interrupted; Got (encode_register sample_hash); WouldBlock]].
Definition sample_recv : list (Received (list Z * SocketAddr * bool)) :=
  [Got ([1; 2], bob_addr, true); Got (sample_syn_bytes sample_hash, alice_addr, true); Failed; Got ([3], bob_addr, true);
   Got ([9], alice_addr, false); Got ([4; 5], alice_addr, true)].

Lemma udp_dispatch_isolation_witness :
  exists seen rest peer datagram pid l',
    (sample_calls ++ [ReadSocket 0 sample_recv]) ≫= events_of = seen ++ ClientSent 0 peer datagram true :: rest /\
    encode_datagram alice_addr [4; 5] = encode_datagram peer datagram /\ added seen pid l' 7 /\
    answered (seen ++ [ClientSent 0 peer datagram true]) 0 peer pid.
Proof.
  apply (udp_dispatch_isolation sample_calls 0 sample_recv 7 (encode_datagram alice_addr [4; 5])).
  apply list_elem_of_In. vm_compute. right. by left.
Defined.

Definition sample_dispatch : Dispatch := (steps call sample_calls Dispatch_default).2.



Lemma udp_request_answered_once_witness :
  let d' := (steps call [ReadSocket 0 [Got ([4; 5], alice_addr, true)]]
    (dispatch_datagram 0 alice_addr (sample_syn_bytes sample_hash) true sample_dispatch).2).2 in
  dispatch_datagram 0 bob_addr (sample_syn_bytes sample_hash) true d' = ([], d').
Proof.
  apply (udp_request_answered_once sample_dispatch 0 alice_addr (sample_syn_bytes sample_hash) true sample_hash 100
    (Store_route 0 alice_addr (Some sample_hash) (store sample_dispatch)).2).
  - vm_compute. reflexivity.
  - vm_compute. reflexivity.
  - vm_compute. reflexivity.
  - repeat constructor. cbn. intros [].
  - vm_compute. reflexivity.
  - vm_compute. reflexivity.
Defined.

(** A worker is not told the scope of a link-local address: it sees, and would
    answer to, another address than the client's. *)
Lemma link_local_scope_lost :
  let client := SocketAddrV6 ([0xfe; 0x80] ++ replicate 14 1) 50000 0 2 in
  decode_datagram (encode_datagram client [1]) = Some (SocketAddrV6 ([0xfe; 0x80] ++ replicate 14 1) 50000 0 0, [1]).
Proof. vm_compute. reflexivity. Qed.

End witnesses.
