(* ===== verification/Supervisor.v ===== *)
(** The supervisor (linrdp supervisor.rs): the connection budget, the loop
    that accepts connections and forks workers, and the UDP dispatch it owns.

    The kernel's answers are arguments: what [accept], [waitpid], [fork],
    [poll] and the sockets return, in the order they are asked.  The forked
    child execs the worker and never returns to this loop, so [fork] is what
    the parent sees: a process id or -1. *)

From stdpp Require Import base gmap list strings.
From S2P Require Import Prelude Cursor Flags WireV1 Dispatch DispatchProps.

(** ** The connection budget *)

Record Limits := mkLimits { max_workers : Z; max_per_client : Z }.

Record Workers := mkWorkers {
  w_live : gmap Z IpAddr;
  w_limits : Limits;
  w_refused : Z;
  w_last_report : option Z;
}.

(** Ten seconds; times are nanoseconds of the monotonic clock. *)
Definition REPORT_EVERY : Z := 10 * 1000000000.

Definition Workers_new (limits : Limits) : Workers := mkWorkers ∅ limits 0 None.

(** [u32::try_from(n).unwrap_or(u32::MAX)]. *)
Definition u32_or_max (n : Z) : Z := if n <=? 0xffffffff then n else 0xffffffff.

(** What [waitpid] returns, call by call, ends with 0 or less. *)
Fixpoint reap (waitpid : list Z) (w : Workers) (d : Dispatch) : Workers * Dispatch :=
  match waitpid with
  | [] => (w, d)
  | dead :: waitpid' =>
      if dead <=? 0 then (w, d)
      else
        reap waitpid'
          (mkWorkers (delete dead (w_live w)) (w_limits w) (w_refused w) (w_last_report w))
          (remove_worker dead d)
  end.

(** The number of workers serving one address. *)
Definition serving (live : gmap Z IpAddr) (peer : IpAddr) : nat := base.size (filter (fun x => x.2 = peer) live).

Inductive Refusal := TooManyWorkers (total : Z) | TooManyFromPeer (peer : IpAddr) (from_peer : Z).

Definition admit_peer (peer : IpAddr) (w : Workers) : option Refusal :=
  let total := u32_or_max (Z.of_nat (base.size (w_live w))) in
  if max_workers (w_limits w) <=? total then Some (TooManyWorkers total)
  else
    let from_peer := u32_or_max (Z.of_nat (serving (w_live w) peer)) in
    if max_per_client (w_limits w) <=? from_peer then Some (TooManyFromPeer peer from_peer)
    else None.

Definition record_worker (pid : Z) (peer : IpAddr) (w : Workers) : Workers :=
  mkWorkers (<[pid := peer]> (w_live w)) (w_limits w) (w_refused w) (w_last_report w).

(** [duration_since] is zero when the clock seems to go back. *)
Definition note_refusal (now : Z) (w : Workers) : Workers :=
  let refused := wadd64 (w_refused w) 1 in
  match w_last_report w with
  | Some at_ => if Z.max 0 (now - at_) <? REPORT_EVERY
                then mkWorkers (w_live w) (w_limits w) refused (w_last_report w)
                else mkWorkers (w_live w) (w_limits w) 0 (Some now)
  | None => mkWorkers (w_live w) (w_limits w) 0 (Some now)
  end.

(** ** Accepting *)

Record Bound := mkBound { b_bind : string; b_udp : bool }.

(** One answer of [accept] with what the kernel answers while that connection
    is taken: the exited children, the clock, the new socket pair and the
    result of [fork]. *)
Inductive Accepted :=
  | Incoming (peer : SocketAddr) (waitpid : list Z) (now : Z) (socketpair : option UnixDatagram) (fork : Z)
  | AcceptWouldBlock
  | AcceptInterrupted
  | AcceptFailed.

Fixpoint accept_all (listener : nat) (bound : Bound) (accept : list Accepted) (w : Workers) (d : Dispatch) :
    Workers * Dispatch :=
  match accept with
  | [] => (w, d)
  | Incoming peer waitpid now socketpair fork :: accept' =>
      let '(w, d) := reap waitpid w d in
      match admit_peer (addr_ip peer) w with
      | Some _ => accept_all listener bound accept' (note_refusal now w) d
      | None =>
          let udp := if b_udp bound then socketpair else None in
          if fork =? -1 then accept_all listener bound accept' w d
          else
            let w := record_worker fork (addr_ip peer) w in
            let d := match udp with Some ours => add_worker fork listener ours d | None => d end in
            accept_all listener bound accept' w d
      end
  | AcceptWouldBlock :: _ => (w, d)
  | AcceptInterrupted :: accept' => accept_all listener bound accept' w d
  | AcceptFailed :: _ => (w, d)
  end.

(** ** The loop *)

Inductive Verdict := Ready | Idle | Dead.

Definition POLLIN : Z := 1.
Definition POLLERR : Z := 8.
Definition POLLHUP : Z := 16.
Definition POLLNVAL : Z := 32.

Definition verdict (revents : Z) : Verdict :=
  if negb (Z.land revents (Z.lor (Z.lor POLLNVAL POLLERR) POLLHUP) =? 0) then Dead
  else if negb (Z.land revents POLLIN =? 0) then Ready
  else Idle.

Record Supervisor := mkSupervisor {
  s_live : list Bound;
  s_workers : Workers;
  s_dispatch : Dispatch;
}.

(** What one turn of the loop learns from the kernel: the exited children,
    and either a failed [poll] or the events of each listener, what each UDP
    port ([None]: nothing to read) and each worker's channel deliver (in the
    order the hash map lists the channels), and what each listener accepts. *)
Inductive Polled :=
  | PollFailed
  | PollReady (revents : list Z)
      (ports : nat -> option (list (Received (list Z * SocketAddr * bool))))
      (readable : list (Z * list (Received (list Z))))
      (accepts : nat -> list Accepted).

Section supervisor.
Context {BF : Bitflags}.

(** The UDP ports, by the index of their listener. *)
Fixpoint read_ports (ports : nat -> option (list (Received (list Z * SocketAddr * bool)))) (live : list (nat * Bound))
    (d : Dispatch) : list (UnixDatagram * list Z) * Dispatch :=
  match live with
  | [] => ([], d)
  | (listener, bound) :: live' =>
      let '(sent, d) :=
        (if b_udp bound then
           match ports listener with
           | Some recv => read_socket listener recv d
           | None => ([], d)
           end
         else ([], d)) in
      let '(sent', d) := read_ports ports live' d in
      (sent ++ sent', d)
  end.

Definition read_channels (readable : list (Z * list (Received (list Z)))) (d : Dispatch) : Dispatch :=
  foldl (fun d x => read_channel x.1 x.2 d) d readable.

(** The listeners: the indices of the dead ones, in order. *)
Fixpoint serve_listeners (revents : list Z) (accepts : nat -> list Accepted) (live : list (nat * Bound))
    (w : Workers) (d : Dispatch) : list nat * (Workers * Dispatch) :=
  match live with
  | [] => ([], (w, d))
  | (index, bound) :: live' =>
      match verdict (default 0 (revents !! index)) with
      | Dead => let '(dead, r) := serve_listeners revents accepts live' w d in (index :: dead, r)
      | Ready =>
          let '(w, d) := accept_all index bound (accepts index) w d in
          serve_listeners revents accepts live' w d
      | Idle => serve_listeners revents accepts live' w d
      end
  end.

Definition turn (waitpid : list Z) (p : Polled) (s : Supervisor) :
    list (UnixDatagram * list Z) * option Supervisor :=
  let '(w, d) := reap waitpid (s_workers s) (s_dispatch s) in
  match p with
  | PollFailed => ([], Some (mkSupervisor (s_live s) w d))
  | PollReady revents ports readable accepts =>
      let listeners := imap (fun i b => (i, b)) (s_live s) in
      let '(sent, d) := read_ports ports listeners d in
      let d := read_channels readable d in
      let '(dead, (w, d)) := serve_listeners revents accepts listeners w d in
      let live := foldl (fun live index => delete index live) (s_live s) (reverse dead) in
      match live with
      | [] => (sent, None)
      | _ => (sent, Some (mkSupervisor live w d))
      end
  end.

(** [run] from the listeners that were bound; [None]: there is nothing left to
    accept on. *)
Definition start (live : list Bound) (limits : Limits) : option Supervisor :=
  match live with
  | [] => None
  | _ => Some (mkSupervisor live (Workers_new limits) Dispatch_default)
  end.

(** The supervisors reachable from a start. *)
Inductive runs (live : list Bound) (limits : Limits) : Supervisor -> Prop :=
  | runs_start s : start live limits = Some s -> runs live limits s
  | runs_turn waitpid p s sent s' :
      runs live limits s -> turn waitpid p s = (sent, Some s') -> runs live limits s'.

(** ** The budget *)

(** The budget holds, every channel belongs to a live worker, and the store
    speaks only of workers with a channel. *)
Record supervised (limits : Limits) (w : Workers) (d : Dispatch) : Prop := mkSupervised {
  sup_limits : w_limits w = limits;
  sup_total : Z.of_nat (base.size (w_live w)) <= max_workers limits;
  sup_peer ip : Z.of_nat (serving (w_live w) ip) <= max_per_client limits;
  sup_channels : dom (channels d) ⊆ dom (w_live w);
  sup_requests h pid l : requests (store d) !! h = Some (pid, l) -> pid ∈ dom (channels d);
  sup_clients k pid : clients (store d) !! k = Some pid -> pid ∈ dom (channels d);
}.

Definition limits_ok (limits : Limits) : Prop := is_u32 (max_workers limits) /\ is_u32 (max_per_client limits).

Lemma supervised_new limits : limits_ok limits -> supervised limits (Workers_new limits) Dispatch_default.
Proof.
  intros [[Hm _] [Hp _]]. split; cbn; [done|done|intros ip; unfold serving; by rewrite map_filter_empty|done|..];
    intros *; by rewrite lookup_empty.
Qed.

Lemma serving_delete live pid ip : (serving (delete pid live) ip <= serving live ip)%nat.
Proof. unfold serving. rewrite map_filter_delete. apply map_subseteq_size, delete_subseteq. Qed.

Lemma serving_insert live pid peer ip :
  (serving (<[pid := peer]> live) ip <= serving live ip + (if decide (ip = peer) then 1 else 0))%nat.
Proof.
  unfold serving. destruct (decide (ip = peer)) as [->|Hne].
  - rewrite map_filter_insert_True by done. rewrite map_size_insert. destruct (_ !! pid); cbn; lia.
  - rewrite map_filter_insert_False by (cbn; congruence). rewrite map_filter_delete.
    pose proof (map_subseteq_size (delete pid (filter (fun x => x.2 = ip) live)) (filter (fun x => x.2 = ip) live)
      (delete_subseteq _ _)). lia.
Qed.

Lemma supervised_remove limits w d pid :
  supervised limits w d ->
  supervised limits (mkWorkers (delete pid (w_live w)) (w_limits w) (w_refused w) (w_last_report w)) (remove_worker pid d).
Proof.
  intros [Hl Ht Hp Hc Hr Hk]. split; cbn.
  - done.
  - pose proof (map_subseteq_size _ _ (delete_subseteq (w_live w) pid)). lia.
  - intros ip. pose proof (serving_delete (w_live w) pid ip). specialize (Hp ip). lia.
  - rewrite !dom_delete_L. set_solver.
  - intros h q l [H Hne]%map_lookup_filter_Some. cbn in Hne. rewrite dom_delete_L. apply Hr in H. set_solver.
  - intros k q [H Hne]%map_lookup_filter_Some. cbn in Hne. rewrite dom_delete_L. apply Hk in H. set_solver.
Qed.

Lemma reap_supervised limits ws w d w' d' :
  supervised limits w d -> reap ws w d = (w', d') -> supervised limits w' d'.
Proof.
  revert w d. induction ws as [|p ws IH]; intros w d Hs; cbn [reap]; [by intros [= <- <-]|].
  destruct (p <=? 0); [by intros [= <- <-]|]. apply IH. by apply supervised_remove.
Qed.

Lemma refusal_supervised limits w d now : supervised limits w d -> supervised limits (note_refusal now w) d.
Proof.
  intros [Hl Ht Hp Hc Hr Hk]. unfold note_refusal.
  destruct (w_last_report w) as [at_|]; [destruct (_ <? _)|]; by split.
Qed.

Lemma u32_or_max_below n m : is_u32 m -> 0 <= n -> m <=? u32_or_max n = false -> n < m.
Proof. unfold u32_or_max, is_u32. destruct (Z.leb_spec n 0xffffffff); intros [? ?] ? ?%Z.leb_gt; lia. Qed.

(** An admitted connection leaves the budget respected. *)
Lemma record_supervised limits w d peer pid :
  limits_ok limits -> supervised limits w d -> admit_peer peer w = None -> supervised limits (record_worker pid peer w) d.
Proof.
  intros [Hm Hpc] [Hl Ht Hp Hc Hr Hk] Ha. unfold admit_peer in Ha. rewrite Hl in Ha.
  destruct (max_workers limits <=? _) eqn:E1; [done|]. destruct (max_per_client limits <=? _) eqn:E2; [done|].
  apply u32_or_max_below in E1; [|done|lia]. apply u32_or_max_below in E2; [|done|lia].
  split; cbn [record_worker w_live w_limits]; [done|..|done|done].
  - rewrite map_size_insert. destruct (w_live w !! pid); cbn; lia.
  - intros ip. pose proof (serving_insert (w_live w) pid peer ip) as H. specialize (Hp ip).
    destruct (decide (ip = peer)) as [->|]; lia.
  - rewrite dom_insert_L. set_solver.
Qed.

Lemma add_supervised limits w d pid l ch :
  supervised limits w d -> pid ∈ dom (w_live w) -> supervised limits w (add_worker pid l ch d).
Proof.
  intros [Hl Ht Hp Hc Hr Hk] Hin. split; cbn; [done..| | |].
  - rewrite dom_insert_L. set_solver.
  - intros h q l' H. apply Hr in H. rewrite dom_insert_L. set_solver.
  - intros k q H. apply Hk in H. rewrite dom_insert_L. set_solver.
Qed.

Lemma accept_all_supervised limits l b acs w d w' d' :
  limits_ok limits -> supervised limits w d -> accept_all l b acs w d = (w', d') -> supervised limits w' d'.
Proof.
  intros Hlim. revert w d. induction acs as [|[peer ws now socketpair fork| | |] acs IH]; intros w d Hs; cbn [accept_all];
    [by intros [= <- <-]| |by intros [= <- <-]|by apply IH|by intros [= <- <-]].
  destruct (reap ws w d) as [w1 d1] eqn:Er. apply (reap_supervised _ _ _ _ _ _ Hs) in Er.
  destruct (admit_peer (addr_ip peer) w1) eqn:Ea; [by apply IH, refusal_supervised|].
  destruct (fork =? -1); [by apply IH|]. apply IH.
  pose proof (record_supervised limits w1 d1 (addr_ip peer) fork Hlim Er Ea) as Hrec.
  destruct (if b_udp b then socketpair else None); [|done]. apply add_supervised; [done|].
  cbn. rewrite dom_insert_L. set_solver.
Qed.

(** Reading the port or a channel only names workers with a channel. *)
Lemma datagram_supervised limits w d l p dg took :
  supervised limits w d -> supervised limits w (dispatch_datagram l p dg took d).2.
Proof.
  intros [Hl Ht Hp Hc Hr Hk]. rewrite dispatch_datagram_eq. cbv zeta. cbn [snd].
  destruct (Store_route l p (syn_cookie_hash dg) (store d)) as [to s] eqn:E. cbn [snd].
  split; cbn [channels store]; [done..| |].
  - intros h pid l' H. eapply Hr, route_requests; eauto.
  - intros [l' p'] pid H. destruct (route_clients _ _ _ _ _ _ _ _ _ E H) as [H'|[[= -> ->] ->]]; [by eapply Hk|].
    unfold Store_route in E. destruct (clients (store d) !! (l, p)) as [q|] eqn:Ec; [by eapply Hk; simplify_eq|].
    destruct (syn_cookie_hash dg) as [h|]; [|done]. destruct (requests (store d) !! h) as [[q on]|] eqn:Eq; [|done].
    destruct (negb _); [done|]. simplify_eq. by eapply Hr.
Qed.

Lemma read_channel_supervised limits w d pid recv :
  supervised limits w d -> supervised limits w (read_channel pid recv d).
Proof.
  intros Hs. unfold read_channel. destruct (channels d !! pid) as [[ch l]|] eqn:E; [|done].
  destruct Hs as [Hl Ht Hp Hc Hr Hk].
  assert (forall s, (forall h q l', requests s !! h = Some (q, l') -> q ∈ dom (channels d)) ->
    clients (read_channel_loop pid l recv s) = clients s /\
    forall h q l', requests (read_channel_loop pid l recv s) !! h = Some (q, l') -> q ∈ dom (channels d)) as Hloop.
  { clear -E. induction recv as [|[m| | |] recv IH]; intros s Hs; cbn [read_channel_loop]; try done; [|by apply IH].
    destruct (decode_register (take 64 m)) as [h|]; [|by apply IH].
    destruct (IH (Store_register pid l h s)) as [Hc Hr]; [|by rewrite Hc].
    cbn. intros h' q l' [(_ & [= <- <-])|(_ & H)]%lookup_insert_Some; [by eapply elem_of_dom_2|by eapply Hs]. }
  destruct (Hloop (store d) Hr) as [Hcl Hrl]. split; cbn [channels store]; [done..|]. intros k q. rewrite Hcl. apply Hk.
Qed.

Lemma read_socket_supervised limits w d l recv :
  supervised limits w d -> supervised limits w (read_socket l recv d).2.
Proof.
  revert d. induction recv as [|[[[m p] took]| | |] recv IH]; intros d Hs; cbn [read_socket]; [done| |done|by apply IH..].
  apply (datagram_supervised _ _ _ l p (take 9000 m) took) in Hs. destruct (dispatch_datagram _ _ _ _ _) as [s d1].
  cbn [snd] in Hs. apply IH in Hs. by destruct (read_socket l recv d1).
Qed.

Lemma read_ports_supervised limits w ports live d :
  supervised limits w d -> supervised limits w (read_ports ports live d).2.
Proof.
  revert d. induction live as [|[l b] live IH]; intros d Hs; cbn [read_ports]; [done|].
  destruct (if b_udp b then _ else _) as [s d1] eqn:E.
  assert (supervised limits w d1) as H1.
  { destruct (b_udp b); [destruct (ports l) as [recv|]|]; simplify_eq; [|done..].
    pose proof (read_socket_supervised limits w d l recv Hs) as H. by rewrite E in H. }
  apply IH in H1. by destruct (read_ports ports live d1).
Qed.

Lemma read_channels_supervised limits w readable d :
  supervised limits w d -> supervised limits w (read_channels readable d).
Proof.
  unfold read_channels. revert d. induction readable as [|x readable IH]; intros d Hs; cbn [foldl]; [done|].
  by apply IH, read_channel_supervised.
Qed.

Lemma serve_listeners_supervised limits revents accepts live w d dead w' d' :
  limits_ok limits -> supervised limits w d ->
  serve_listeners revents accepts live w d = (dead, (w', d')) -> supervised limits w' d'.
Proof.
  intros Hlim. revert w d dead. induction live as [|[i b] live IH]; intros w d dead Hs; cbn [serve_listeners];
    [by intros [= _ <- <-]|].
  destruct (verdict _).
  - destruct (accept_all i b (accepts i) w d) as [w1 d1] eqn:E. apply IH. by eapply accept_all_supervised.
  - by apply IH.
  - destruct (serve_listeners revents accepts live w d) as [dead1 r] eqn:E. intros [= _ ->]. by eapply IH.
Qed.

Lemma turn_supervised limits ws p s sent s' :
  limits_ok limits -> supervised limits (s_workers s) (s_dispatch s) -> turn ws p s = (sent, Some s') ->
  supervised limits (s_workers s') (s_dispatch s').
Proof.
  intros Hlim Hs. unfold turn. destruct (reap ws _ _) as [w d] eqn:Er. apply (reap_supervised _ _ _ _ _ _ Hs) in Er.
  destruct p as [|revents ports readable accepts]; [by intros [= _ <-]|].
  apply (read_ports_supervised _ _ ports (imap (fun i b => (i, b)) (s_live s))) in Er.
  destruct (read_ports _ _ _) as [out d1]. cbn [snd] in Er.
  apply (read_channels_supervised _ _ readable) in Er.
  destruct (serve_listeners _ _ _ _ _) as [dead [w2 d2]] eqn:E.
  apply (serve_listeners_supervised limits) in E; [|done..].
  destruct (foldl _ _ _); [done|]. by intros [= _ <-].
Qed.

(** C25: However many connections arrive, on however many listeners, the
    supervisor never runs more workers than [limits.max_workers] in all nor
    more than [limits.max_per_client] for one address, and its UDP dispatch
    refers only to workers that are running. *)
Theorem supervisor_budget live limits s :
  limits_ok limits -> runs live limits s -> supervised limits (s_workers s) (s_dispatch s).
Proof.
  intros Hlim. induction 1 as [s Hs|ws p s sent s' _ IH Ht].
  - unfold start in Hs. destruct live; [done|]. simplify_eq. by apply supervised_new.
  - by eapply turn_supervised.
Qed.

End supervisor.

(** ** The supervisor at work *)

Section witnesses.
#[local] Existing Instance bits_flags.

Definition sample_limits : Limits := mkLimits 10 2.
Definition two_listeners : list Bound := [mkBound "0.0.0.0:3389" true; mkBound "0.0.0.0:3390" true].

(** Alice connects to the first listener and Bob to the second; their workers,
    100 and 200, register their requests; their clients' SYNs arrive. *)
Definition connects (i : nat) : list Accepted :=
  match i with
  | O => [Incoming alice_addr [] 0 (Some 7) 100]
  | _ => [Incoming bob_addr [] 0 (Some 8) 200]
  end.
Definition registers_both : list (Z * list (Received (list Z))) :=
  [(100, [Got (encode_register (replicate 32 7))]); (200, [Got (encode_register (replicate 32 8))])].
Definition syns (i : nat) : option (list (Received (list Z * SocketAddr * bool))) :=
  match i with
  | O => Some [Got (sample_syn_bytes (replicate 32 7), alice_addr, true)]
  | _ => Some [Got (sample_syn_bytes (replicate 32 8), bob_addr, true)]
  end.
Definition no_ports (i : nat) : option (list (Received (list Z * SocketAddr * bool))) := None.
Definition no_accepts (i : nat) : list Accepted := [].

Definition then_turn (p : Polled) (s : option Supervisor) : option Supervisor := s ≫= fun s => (turn [] p s).2.

Definition both_connected : option Supervisor :=
  then_turn (PollReady [0; 0] syns [] no_accepts)
    (then_turn (PollReady [0; 0] no_ports registers_both no_accepts)
      (then_turn (PollReady [1; 1] no_ports [] connects) (start two_listeners sample_limits))).

Lemma runs_then live limits p s s' :
  (forall s0, s = Some s0 -> runs live limits s0) -> then_turn p s = Some s' -> runs live limits s'.
Proof.
  intros Hs. destruct s as [s|]; [|done]. unfold then_turn. cbn. intros H.
  eapply (runs_turn _ _ [] p s (turn [] p s).1); [by apply Hs|]. rewrite <- H. apply surjective_pairing.
Qed.

Lemma both_connected_runs s : both_connected = Some s -> runs two_listeners sample_limits s.
Proof. do 3 (apply runs_then; intros ?). apply runs_start. Qed.

Lemma supervisor_budget_witness :
  match both_connected with
  | Some s => supervised sample_limits (s_workers s) (s_dispatch s) /\ base.size (w_live (s_workers s)) = 2%nat
  | None => False
  end.
Proof.
  destruct both_connected as [s|] eqn:E; [|by vm_compute in E]. split.
  - apply (supervisor_budget two_listeners); [done|]. by apply both_connected_runs.
  - vm_compute in E. by injection E as <-.
Defined.

(** What the second port hands to the workers, before and after the first
    listener is lost: the dispatch knows listeners by their position, and
    removing one moves those behind it. *)
Definition bobs_data : list (Received (list Z * SocketAddr * bool)) := [Got ([4; 5], bob_addr, true)].

Lemma listener_loss_cuts_tunnels :
  (both_connected ≫= fun s =>
     Some (turn [] (PollReady [0; 0] (fun i => match i with O => None | _ => Some bobs_data end) [] no_accepts) s).1) =
    Some [(8, encode_datagram bob_addr [4; 5])] /\
  (then_turn (PollReady [POLLERR; 0] no_ports [] no_accepts) both_connected ≫= fun s =>
     Some (map b_bind (s_live s), (turn [] (PollReady [0] (fun _ => Some bobs_data) [] no_accepts) s).1)) =
    Some (["0.0.0.0:3390"%string], []).
Proof. split; vm_compute; reflexivity. Qed.

End witnesses.
