(* ===== verification/HostText.v ===== *)
(** Text as linrdp's session code uses it: decimal numbers, lines, prefixes,
    white space and path joins of the Rust standard library, on strings as
    lists of Unicode scalar values. *)

From Stdlib Require Import Ascii.
From S2P Require Import Prelude Cursor Codec PduText.

Abbreviation text := (list Z).

(** A literal of the source. *)
Fixpoint lit (s : string) : text :=
  match s with
  | EmptyString => []
  | String c s' => Z.of_N (N_of_ascii c) :: lit s'
  end.

(** ** Numbers *)

(** The decimal digits of [n], most significant first ([format!("{n}")]).
    Twenty digits hold any machine integer. *)
Fixpoint decimal_digits (fuel : nat) (n : Z) : text :=
  match fuel with
  | O => []
  | S fuel' => (if n / 10 =? 0 then [] else decimal_digits fuel' (n / 10)) ++ [48 + n mod 10]
  end.
Definition decimal (n : Z) : text := decimal_digits 20 n.
#[global] Arguments decimal : simpl never.

Definition is_digit (c : Z) : bool := (48 <=? c) && (c <=? 57).

Definition digits_value (s : text) : Z := foldl (fun acc c => 10 * acc + (c - 48)) 0 s.

(** [s.parse::<u16>()]: an optional plus sign, then digits. *)
Definition parse_u16 (s : text) : option Z :=
  let digits := match s with 43 :: s' => s' | _ => s end in
  match digits with
  | [] => None
  | _ => if forallb is_digit digits && (digits_value digits <=? 0xffff) then Some (digits_value digits) else None
  end.

(** ** Lines *)

Definition LF : Z := 10.
Definition CR : Z := 13.

(** [str::split_inclusive('\n')]: each piece ends with its line feed, but for
    the last one when the text does not. *)
Fixpoint split_inclusive (s : text) : list text :=
  match s with
  | [] => []
  | c :: s' =>
      if c =? LF then [c] :: split_inclusive s'
      else match split_inclusive s' with
           | [] => [[c]]
           | l :: ls => (c :: l) :: ls
           end
  end.

(** [str::strip_suffix] of one character. *)
Definition strip_last (c : Z) (s : text) : option text :=
  match last s with
  | Some x => if x =? c then Some (removelast s) else None
  | None => None
  end.

(** [str::lines] *)
Definition chomp (line : text) : text :=
  match strip_last LF line with
  | None => line
  | Some line => default line (strip_last CR line)
  end.
Definition lines (s : text) : list text := chomp <$> split_inclusive s.

(** [str::strip_prefix] *)
Fixpoint strip_prefix (p s : text) : option text :=
  match p with
  | [] => Some s
  | c :: p' => match s with
               | x :: s' => if x =? c then strip_prefix p' s' else None
               | [] => None
               end
  end.

Definition starts_with (p s : text) : bool := match strip_prefix p s with Some _ => true | None => false end.

(** [Iterator::find_map] *)
Fixpoint find_map {A B} (f : A -> option B) (l : list A) : option B :=
  match l with
  | [] => None
  | x :: l' => match f x with Some b => Some b | None => find_map f l' end
  end.

(** [str::trim_start_matches(c)] and the first piece of [str::split(c)]. *)
Fixpoint trim_start_matches (c : Z) (s : text) : text :=
  match s with
  | x :: s' => if x =? c then trim_start_matches c s' else s
  | [] => []
  end.
Fixpoint split_first (c : Z) (s : text) : text :=
  match s with
  | x :: s' => if x =? c then [] else x :: split_first c s'
  | [] => []
  end.

(** [char::is_whitespace] (Unicode White_Space) and [str::trim]. *)
Definition is_whitespace (c : Z) : bool :=
  ((9 <=? c) && (c <=? 13)) || (c =? 32) || (c =? 0x85) || (c =? 0xA0) || (c =? 0x1680) ||
  ((0x2000 <=? c) && (c <=? 0x200A)) || (c =? 0x2028) || (c =? 0x2029) || (c =? 0x202F) || (c =? 0x205F) ||
  (c =? 0x3000).
Fixpoint trim_start (s : text) : text :=
  match s with
  | x :: s' => if is_whitespace x then trim_start s' else s
  | [] => []
  end.
Definition trim (s : text) : text := reverse (trim_start (reverse (trim_start s))).

(** [Path::join] with a relative path. *)
Definition path_join (base rest : text) : text :=
  match last base with
  | None => rest
  | Some c => if c =? 47 then base ++ rest else base ++ 47 :: rest
  end.

(** ** Numbers written are numbers read *)

Lemma digits_value_snoc s c : digits_value (s ++ [c]) = 10 * digits_value s + (c - 48).
Proof. unfold digits_value. by rewrite foldl_app. Qed.

Lemma decimal_digits_value fuel n : 0 <= n < 10 ^ Z.of_nat fuel -> digits_value (decimal_digits fuel n) = n.
Proof.
  revert n. induction fuel as [|fuel IH]; intros n Hn; [cbn in *; lia|].
  cbn [decimal_digits]. rewrite digits_value_snoc.
  rewrite Nat2Z.inj_succ, Z.pow_succ_r in Hn by lia.
  pose proof (Z.div_mod n 10 ltac:(lia)). destruct (Z.eqb_spec (n / 10) 0) as [E|E].
  - cbn. lia.
  - rewrite IH; [lia|]. split; [apply Z.div_pos; lia|]. apply Z.div_lt_upper_bound; lia.
Qed.

Lemma decimal_digits_digits fuel n : 0 <= n -> Forall (fun c => is_digit c = true) (decimal_digits fuel n).
Proof.
  revert n. induction fuel as [|fuel IH]; intros n Hn; cbn [decimal_digits]; [done|].
  apply Forall_app. split.
  - destruct (_ =? 0); [done|]. apply IH. by apply Z.div_pos.
  - constructor; [|done]. pose proof (Z.mod_pos_bound n 10 ltac:(lia)). unfold is_digit.
    destruct (Z.leb_spec 48 (48 + n mod 10)); [|lia]. destruct (Z.leb_spec (48 + n mod 10) 57); [done|lia].
Qed.

Lemma decimal_value n : 0 <= n < 2 ^ 64 -> digits_value (decimal n) = n.
Proof. intros H. apply decimal_digits_value. split; [lia|]. by etrans; [apply H|]. Qed.

Lemma decimal_inj n m : 0 <= n < 2 ^ 64 -> 0 <= m < 2 ^ 64 -> decimal n = decimal m -> n = m.
Proof. intros Hn Hm E. by rewrite <- (decimal_value n), <- (decimal_value m), E. Qed.

Lemma decimal_not_nil n : exists c s, 0 <= n -> decimal n = c :: s /\ is_digit c = true.
Proof.
  destruct (decimal n) as [|c s] eqn:E.
  - exfalso. unfold decimal in E. cbn [decimal_digits] in E. by apply app_eq_nil in E as [_ ?].
  - exists c, s. intros Hn. split; [done|]. pose proof (decimal_digits_digits 20 n Hn) as H. fold (decimal n) in H.
    rewrite E in H. by inversion H.
Qed.

Lemma parse_decimal n : is_u16 n -> parse_u16 (decimal n) = Some n.
Proof.
  intros [Hn Hn']. destruct (decimal_not_nil n) as (c & s & Hd). destruct (Hd Hn) as [E Hc]. unfold parse_u16.
  rewrite E. assert (c <> 43) as H43 by (intros ->; done).
  replace (match c :: s with 43 :: s' => s' | _ => c :: s end) with (c :: s).
  2:{ destruct c as [|c|c]; try done. do 6 (destruct c as [c|c|]; try done). }
  rewrite <- E. rewrite decimal_value by (cbn in *; lia).
  assert (forallb is_digit (decimal n) = true) as ->.
  { apply forallb_forall. pose proof (decimal_digits_digits 20 n Hn) as H. rewrite Forall_forall in H.
    intros x Hx. apply H. by apply list_elem_of_In. }
  destruct (Z.leb_spec n 0xffff); [done|]. cbn in *. lia.
Qed.

(** ** Lines written are lines read *)

(** A field a line can hold: no line feed, no carriage return at its end. *)
Definition line_ok (s : text) : Prop := LF ∉ s /\ last s <> Some CR.

Lemma split_inclusive_line s r : LF ∉ s -> split_inclusive (s ++ LF :: r) = (s ++ [LF]) :: split_inclusive r.
Proof.
  induction s as [|c s IH]; intros Hs; [done|]. apply not_elem_of_cons in Hs as [Hc Hs].
  cbn [app split_inclusive]. destruct (Z.eqb_spec c LF); [congruence|]. by rewrite IH.
Qed.

Lemma strip_last_snoc c s : strip_last c (s ++ [c]) = Some s.
Proof. unfold strip_last. by rewrite last_snoc, Z.eqb_refl, removelast_last. Qed.

Lemma strip_last_other c s : last s <> Some c -> strip_last c s = None.
Proof. unfold strip_last. destruct (last s) as [x|]; [|done]. intros H. destruct (Z.eqb_spec x c); [congruence|done]. Qed.

Lemma lines_line s r : line_ok s -> lines (s ++ LF :: r) = s :: lines r.
Proof.
  intros [Hs Hc]. unfold lines. rewrite split_inclusive_line by done. cbn [fmap list_fmap]. f_equal.
  unfold chomp. by rewrite strip_last_snoc, strip_last_other.
Qed.

Lemma lines_nil : lines [] = [].
Proof. done. Qed.

Lemma strip_prefix_app p s : strip_prefix p (p ++ s) = Some s.
Proof. induction p as [|c p IH]; [done|]. cbn [app strip_prefix]. by rewrite Z.eqb_refl. Qed.

Lemma strip_prefix_sound p s r : strip_prefix p s = Some r -> s = p ++ r.
Proof.
  revert s. induction p as [|c p IH]; intros s; cbn [strip_prefix]; [by intros [= ->]|].
  destruct s as [|x s]; [done|]. destruct (Z.eqb_spec x c) as [->|]; [|done]. intros H. cbn. by rewrite (IH _ H).
Qed.

Lemma line_ok_app p s : line_ok s -> LF ∉ p -> last p <> Some CR -> line_ok (p ++ s).
Proof.
  intros [Hs Hc] Hp Hq. split; [set_solver|]. destruct s as [|x s _] using rev_ind; [by rewrite app_nil_r|].
  rewrite app_assoc, last_snoc. by rewrite last_snoc in Hc.
Qed.

Lemma decimal_line_ok n : 0 <= n -> line_ok (decimal n).
Proof.
  intros Hn. pose proof (decimal_digits_digits 20 n Hn) as H. fold (decimal n) in H. split.
  - intros Hin. rewrite Forall_forall in H. by apply H in Hin.
  - intros Hl. apply last_Some_elem_of in Hl. rewrite Forall_forall in H. by apply H in Hl.
Qed.

Lemma decimal_scalars n : 0 <= n -> scalars (decimal n).
Proof.
  intros Hn. eapply Forall_impl; [apply (decimal_digits_digits 20 n Hn)|]. intros c. unfold is_digit, is_scalar.
  intros [H1 H2]%andb_prop. apply Z.leb_le in H1, H2.
  destruct (Z.leb_spec 0 c), (Z.ltb_spec c 0xD800); cbn; try done; lia.
Qed.

(** A display name [":n"] names the number [n]. *)
Lemma split_first_other c s : c ∉ s -> split_first c s = s.
Proof.
  induction s as [|x s IH]; intros Hs; [done|]. apply not_elem_of_cons in Hs as [Hx Hs]. cbn [split_first].
  destruct (Z.eqb_spec x c); [congruence|]. by rewrite IH.
Qed.

Lemma display_number n : is_u16 n -> parse_u16 (split_first 46 (trim_start_matches 58 (lit ":" ++ decimal n))) = Some n.
Proof.
  intros Hn. cbn [lit app]. change (Z.of_N (N_of_ascii ":")) with 58. cbn [trim_start_matches]. rewrite Z.eqb_refl.
  pose proof (decimal_digits_digits 20 n (proj1 Hn)) as Hd. fold (decimal n) in Hd. rewrite Forall_forall in Hd.
  destruct (decimal_not_nil n) as (c & s & Hc). destruct (Hc (proj1 Hn)) as [E Hcd].
  assert (trim_start_matches 58 (decimal n) = decimal n) as ->.
  { rewrite E. cbn [trim_start_matches]. by destruct (Z.eqb_spec c 58) as [->|]. }
  rewrite split_first_other; [by apply parse_decimal|]. intros Hin. by apply Hd in Hin.
Qed.
