(* ===== verification/Registry.v ===== *)
(** Which user owns which display (linrdp session/registry.rs): one file of
    [key=value] lines per display.

    The file system is a map from paths to bytes, with the paths it refuses to
    open for writing and the ones whose mode it refuses to change.  A write that
    fails after it opened the file, and leaves part of a record there, is not
    modelled. *)

From stdpp Require Import base gmap list.
From S2P Require Import Prelude Cursor Codec PduText HostText.

Record FileSystem := mkFileSystem {
  files : gmap text (list Z);
  refuse_write : gset text;
  refuse_chmod : gset text;
}.

Inductive FsError := WriteFailed (path : text) | ChmodFailed (path : text) | RemoveFailed (path : text).

Definition fs_write (path : text) (body : text) (fs : FileSystem) : option FileSystem :=
  if decide (path ∈ refuse_write fs) then None
  else Some (mkFileSystem (<[path := as_bytes body]> (files fs)) (refuse_write fs) (refuse_chmod fs)).

Definition fs_read_to_string (path : text) (fs : FileSystem) : option text := files fs !! path ≫= from_utf8.

Record SessionRecord := mkSessionRecord {
  r_user : text;
  r_display : Z;
  r_runtime_dir : text;
  r_xauthority : text;
  r_locked : bool;
  r_logind_id : option text;
  r_bus : option text;
  r_backend : text;
}.

(** [DesktopBackend::id] of the two cases a record without one can mean. *)
Definition GNOME_HEADLESS_ID : text := lit "gnome-headless".
Definition X11_ID : text := lit "x11".

Definition record_path (base : text) (display : Z) : text :=
  path_join base (lit "display-" ++ decimal display ++ lit ".session").

(** [format!("{b}")] *)
Definition bool_text (b : bool) : text := if b then lit "true" else lit "false".

Definition line (key value : text) : text := key ++ lit "=" ++ value ++ [LF].

Definition record_body (rec : SessionRecord) : text :=
  line (lit "user") (r_user rec) ++ line (lit "display") (decimal (r_display rec)) ++
  line (lit "runtime_dir") (r_runtime_dir rec) ++ line (lit "xauthority") (r_xauthority rec) ++
  line (lit "locked") (bool_text (r_locked rec)) ++
  match r_logind_id rec with Some id => line (lit "logind_id") id | None => [] end ++
  match r_bus rec with Some bus => line (lit "bus") bus | None => [] end ++
  line (lit "backend") (r_backend rec).

Definition write_record (base : text) (rec : SessionRecord) (fs : FileSystem) : (FsError + unit) * FileSystem :=
  let path := record_path base (r_display rec) in
  match fs_write path (record_body rec) fs with
  | None => (inl (WriteFailed path), fs)
  | Some fs => if decide (path ∈ refuse_chmod fs) then (inl (ChmodFailed path), fs) else (inr tt, fs)
  end.

Definition field (body key : text) : option text := find_map (strip_prefix (key ++ lit "=")) (lines body).

Definition non_empty (s : text) : bool := negb (bool_decide (s = [])).

Definition parse_record (body : text) : option SessionRecord :=
  let bus := bus ← field body (lit "bus"); if non_empty bus then Some bus else None in
  let backend :=
    default (match bus with Some _ => GNOME_HEADLESS_ID | None => X11_ID end)
      (b ← field body (lit "backend"); if non_empty b then Some b else None) in
  user ← field body (lit "user");
  display ← (d ← field body (lit "display"); parse_u16 d);
  runtime_dir ← field body (lit "runtime_dir");
  xauthority ← field body (lit "xauthority");
  let locked := match field body (lit "locked") with Some v => bool_decide (v = lit "true") | None => true end in
  let logind_id := id ← field body (lit "logind_id"); if non_empty id then Some id else None in
  Some (mkSessionRecord user display runtime_dir xauthority locked logind_id bus backend).

Definition read_record (base : text) (display : Z) (fs : FileSystem) : option SessionRecord :=
  body ← fs_read_to_string (record_path base display) fs; parse_record body.

Definition read_one := read_record.

Definition forget_record (base : text) (display : Z) (fs : FileSystem) : (FsError + unit) * FileSystem :=
  let path := record_path base display in
  match files fs !! path with
  | None => (inr tt, fs)
  | Some _ =>
      if decide (path ∈ refuse_write fs) then (inl (RemoveFailed path), fs)
      else (inr tt, mkFileSystem (delete path (files fs)) (refuse_write fs) (refuse_chmod fs))
  end.

Definition with_locked (locked : bool) (rec : SessionRecord) : SessionRecord :=
  mkSessionRecord (r_user rec) (r_display rec) (r_runtime_dir rec) (r_xauthority rec) locked
    (r_logind_id rec) (r_bus rec) (r_backend rec).

(** The body of the loop over the range. *)
Definition lock_one (base : text) (display : Z) (r : nat * FileSystem) : nat * FileSystem :=
  let '(locked, fs) := r in
  match read_record base display fs with
  | None => (locked, fs)
  | Some rec =>
      if r_locked rec then (locked, fs)
      else
        match write_record base (with_locked true rec) fs with
        | (inr _, fs) => (S locked, fs)
        | (inl _, fs) => (locked, fs)
        end
  end.

Definition lock_all (base : text) (range : list Z) (fs : FileSystem) : nat * FileSystem :=
  foldl (fun r display => lock_one base display r) (0%nat, fs) range.

(** [None]: no session recorded for the display. *)
Definition set_locked (base : text) (display : Z) (locked : bool) (fs : FileSystem) :
    option (FsError + unit) * FileSystem :=
  match read_record base display fs with
  | None => (None, fs)
  | Some rec => let '(r, fs) := write_record base (with_locked locked rec) fs in (Some r, fs)
  end.

Definition find (base : text) (user : text) (range : list Z) (fs : FileSystem) : option SessionRecord :=
  find_map (fun rec => if bool_decide (r_user rec = user) then Some rec else None)
    (omap (fun display => read_record base display fs) range).

(** ** Records written are records read *)

(** What a line can hold, in every field. *)
Definition field_ok (s : text) : Prop := line_ok s /\ scalars s.
Definition opt_field_ok (o : option text) : Prop := match o with Some s => field_ok s /\ s <> [] | None => True end.

Definition record_ok (rec : SessionRecord) : Prop :=
  field_ok (r_user rec) /\ is_u16 (r_display rec) /\ field_ok (r_runtime_dir rec) /\ field_ok (r_xauthority rec) /\
  opt_field_ok (r_logind_id rec) /\ opt_field_ok (r_bus rec) /\ field_ok (r_backend rec) /\ r_backend rec <> [].

Lemma line_scalars k v : scalars k -> scalars v -> scalars (line k v).
Proof. intros Hk Hv. unfold line. repeat (apply Forall_app; split); [done|by repeat constructor|done|by repeat constructor]. Qed.

Lemma record_body_scalars rec : record_ok rec -> scalars (record_body rec).
Proof.
  intros (Hu & Hd & Hr & Hx & Hi & Hb & Hk & _). unfold record_body.
  rewrite !Forall_app. split_and!; try (apply line_scalars; [by repeat constructor|]); try apply Hu; try apply Hr;
    try apply Hx; try apply Hk.
  - apply decimal_scalars, Hd.
  - destruct (r_locked rec); by repeat constructor.
  - destruct (r_logind_id rec) as [s|]; [|done]. apply line_scalars; [by repeat constructor|apply Hi].
  - destruct (r_bus rec) as [s|]; [|done]. apply line_scalars; [by repeat constructor|apply Hb].
Qed.

Lemma lines_key k v r : line_ok v -> LF ∉ k -> lines (line k v ++ r) = (k ++ lit "=" ++ v) :: lines r.
Proof.
  intros Hv Hk. unfold line. rewrite <- !app_assoc. rewrite (app_assoc k), (app_assoc (k ++ _)).
  cbn [app]. rewrite lines_line; [by rewrite <- app_assoc|].
  apply line_ok_app; [done| |].
  - intros [?|H%list_elem_of_singleton]%elem_of_app; [done|]. by vm_compute in H.
  - cbn [lit]. rewrite last_snoc. by vm_compute.
Qed.

(** The first line of the key, if the text opens with one of another key. *)
Lemma field_here k v r : line_ok v -> LF ∉ k -> field (line k v ++ r) k = Some v.
Proof. intros Hv Hk. unfold field. rewrite lines_key by done. cbn [find_map]. by rewrite app_assoc, strip_prefix_app. Qed.

Lemma field_skip k k' v r :
  line_ok v -> LF ∉ k -> (forall s, strip_prefix (k' ++ lit "=") (k ++ lit "=" ++ s) = None) ->
  field (line k v ++ r) k' = field r k'.
Proof. intros Hv Hk Hp. unfold field. rewrite lines_key by done. cbn [find_map]. by rewrite Hp. Qed.

Lemma key_no_lf s : forallb (fun c => negb (c =? LF)) s = true -> LF ∉ s.
Proof. intros H Hin. rewrite forallb_forall in H. apply list_elem_of_In, H in Hin. by vm_compute in Hin. Qed.

Lemma bool_text_ok b : line_ok (bool_text b).
Proof. split; [apply key_no_lf|]; by destruct b. Qed.

Ltac read_field :=
  repeat first
    [ rewrite field_here by (first [assumption | apply bool_text_ok | apply key_no_lf; reflexivity])
    | rewrite field_skip by (first [assumption | apply bool_text_ok | apply key_no_lf; reflexivity | intros; reflexivity]) ].

Lemma non_empty_true s : s <> [] -> non_empty s = true.
Proof. intros H. unfold non_empty. by rewrite bool_decide_false. Qed.

Lemma parse_record_body rec : record_ok rec -> parse_record (record_body rec) = Some rec.
Proof.
  intros ([Hu _] & Hd & [Hr _] & [Hx _] & Hi & Hb & [Hk _] & Hne). destruct rec as [u d rd xa lk id bus be].
  cbn [r_user r_display r_runtime_dir r_xauthority r_locked r_logind_id r_bus r_backend] in *.
  assert (line_ok (decimal d)) as Hdl by (apply decimal_line_ok, Hd).
  unfold parse_record, record_body.
  cbn [r_user r_display r_runtime_dir r_xauthority r_locked r_logind_id r_bus r_backend].
  assert (bool_decide (bool_text lk = lit "true") = lk) as Hlk by by destruct lk.
  rewrite <- (app_nil_r (line (lit "backend") be)).
  destruct id as [id|]; [destruct Hi as [[Hi _] Hin]|]; (destruct bus as [bus|]; [destruct Hb as [[Hb _] Hbn]|]);
    rewrite ?app_nil_l; read_field; cbn [mbind option_bind];
    rewrite ?parse_decimal, ?non_empty_true by done; cbn [mbind option_bind default from_option];
    rewrite ?parse_decimal, ?non_empty_true by done; cbn [mbind option_bind default from_option]; rewrite Hlk; reflexivity.
Qed.

(** ** The registry as a map from displays to records *)

Lemma path_join_inj base p q : path_join base p = path_join base q -> p = q.
Proof.
  unfold path_join. destruct (last base) as [c|]; [|done].
  destruct (c =? 47); intros H%app_inv_head; [done|]. by injection H.
Qed.

Lemma record_path_inj base d1 d2 : is_u16 d1 -> is_u16 d2 -> record_path base d1 = record_path base d2 -> d1 = d2.
Proof.
  intros H1 H2 H%path_join_inj%app_inv_head%app_inv_tail. apply decimal_inj; [width..|done].
Qed.

Lemma fs_write_Some path body fs fs' :
  fs_write path body fs = Some fs' ->
  files fs' = <[path := as_bytes body]> (files fs) /\ refuse_write fs' = refuse_write fs /\ path ∉ refuse_write fs.
Proof. unfold fs_write. destruct (decide _); [done|]. by intros [= <-]. Qed.

Lemma read_written base rec fs fs' :
  record_ok rec -> fs_write (record_path base (r_display rec)) (record_body rec) fs = Some fs' ->
  read_record base (r_display rec) fs' = Some rec.
Proof.
  intros Hok (Hf & _)%fs_write_Some. unfold read_record, fs_read_to_string. rewrite Hf, lookup_insert_eq. cbn [mbind option_bind].
  rewrite from_utf8_as_bytes by by apply record_body_scalars. cbn [mbind option_bind]. by apply parse_record_body.
Qed.

Lemma read_other base d rec fs fs' :
  is_u16 d -> is_u16 (r_display rec) -> d <> r_display rec ->
  fs_write (record_path base (r_display rec)) (record_body rec) fs = Some fs' ->
  read_record base d fs' = read_record base d fs.
Proof.
  intros Hd Hr Hne (Hf & _)%fs_write_Some. unfold read_record, fs_read_to_string. rewrite Hf, lookup_insert_ne; [done|].
  intros H. by apply record_path_inj in H.
Qed.

Definition writable (base : text) (display : Z) (fs : FileSystem) : Prop := record_path base display ∉ refuse_write fs.
#[export] Instance writable_dec base display fs : Decision (writable base display fs).
Proof. unfold writable. apply _. Defined.

(** What a write leaves readable, whether or not it reports an error. *)
Lemma write_record_reads base rec fs d :
  record_ok rec -> is_u16 d ->
  read_record base d (write_record base rec fs).2 =
    (if decide (d = r_display rec /\ writable base d fs) then Some rec else read_record base d fs) /\
  refuse_write (write_record base rec fs).2 = refuse_write fs.
Proof.
  intros Hok Hd. pose proof Hok as (_ & Hr & _). unfold write_record.
  destruct (fs_write _ _ fs) as [fs'|] eqn:E.
  - assert (refuse_write fs' = refuse_write fs /\ writable base (r_display rec) fs) as [Hf Hw]
      by (apply fs_write_Some in E as (_ & ? & ?); by split).
    assert ((if decide (record_path base (r_display rec) ∈ refuse_chmod fs')
             then (inl (ChmodFailed (record_path base (r_display rec))), fs') else (inr tt, fs')).2 = fs') as ->
      by by destruct (decide _).
    split; [|done]. destruct (decide (d = r_display rec /\ writable base d fs)) as [[-> _]|Hn].
    + by eapply read_written.
    + eapply read_other; [done..| |done]. intros ->. by apply Hn.
  - cbn [snd]. split; [|done]. rewrite decide_False; [done|]. intros [-> Hw]. unfold fs_write in E.
    by rewrite decide_False in E.
Qed.

(** The registry of a state directory: every record a display's file holds is
    one that can be written, and is that display's. *)
Definition registry_ok (base : text) (fs : FileSystem) : Prop :=
  forall d rec, is_u16 d -> read_record base d fs = Some rec -> record_ok rec /\ r_display rec = d.

Lemma write_record_ok base rec fs :
  record_ok rec -> registry_ok base fs -> registry_ok base (write_record base rec fs).2.
Proof.
  intros Hok Hfs d rec' Hd. destruct (write_record_reads base rec fs d Hok Hd) as [-> _].
  destruct (decide _) as [[-> _]|]; [by intros [= <-]|by apply Hfs].
Qed.

Lemma with_locked_ok b rec : record_ok rec -> record_ok (with_locked b rec).
Proof. done. Qed.

(** What locking one display leaves readable. *)
Definition locked_view (base : text) (fs : FileSystem) (in_range : bool) (d : Z) (o : option SessionRecord) :
    option SessionRecord :=
  if in_range && bool_decide (writable base d fs) then with_locked true <$> o else o.

Lemma with_locked_same rec : r_locked rec = true -> with_locked true rec = rec.
Proof. destruct rec; cbn. by intros ->. Qed.

Lemma lock_one_reads base display n fs d :
  registry_ok base fs -> is_u16 display -> is_u16 d ->
  let fs' := (lock_one base display (n, fs)).2 in
  read_record base d fs' = locked_view base fs (bool_decide (d = display)) d (read_record base d fs) /\
  refuse_write fs' = refuse_write fs /\ registry_ok base fs'.
Proof.
  intros Hfs Hdisp Hd. cbv zeta. unfold lock_one. destruct (read_record base display fs) as [rec|] eqn:E.
  - destruct (Hfs _ _ Hdisp E) as [Hok Heq]. destruct (r_locked rec) eqn:El.
    + cbn [snd]. split_and!; [|done..]. unfold locked_view.
      destruct (bool_decide_reflect (d = display)) as [->|]; [|done]. rewrite E. cbn.
      destruct (bool_decide _); [|done]. by rewrite with_locked_same.
    + pose proof (write_record_reads base (with_locked true rec) fs d (with_locked_ok _ _ Hok) Hd) as [Hr Hw].
      pose proof (write_record_ok base (with_locked true rec) fs (with_locked_ok _ _ Hok) Hfs) as Hk.
      assert ((match write_record base (with_locked true rec) fs with
               | (inr _, fs) => (S n, fs) | (inl _, fs) => (n, fs) end).2 = (write_record base (with_locked true rec) fs).2)
        as -> by by destruct (write_record _ _ _) as [[] ?].
      split_and!; [|done..]. rewrite Hr. unfold locked_view. cbn [r_display with_locked]. rewrite Heq.
      destruct (bool_decide_reflect (d = display)) as [->|Hne]; cbn [andb].
      * rewrite E. destruct (bool_decide_reflect (writable base display fs)) as [Hwr|Hwr].
        -- by rewrite decide_True.
        -- by rewrite decide_False by tauto.
      * by rewrite decide_False by tauto.
  - cbn [snd]. split_and!; [|done..]. unfold locked_view. destruct (bool_decide_reflect (d = display)) as [->|]; [|done].
    rewrite E. by destruct (_ && _).
Qed.

Lemma writable_same base d fs fs' : refuse_write fs' = refuse_write fs -> writable base d fs' <-> writable base d fs.
Proof. unfold writable. by intros ->. Qed.

Lemma locked_view_twice base fs fs' b1 b2 d o :
  refuse_write fs' = refuse_write fs ->
  locked_view base fs' b2 d (locked_view base fs b1 d o) = locked_view base fs (b1 || b2) d o.
Proof.
  intros H. unfold locked_view. rewrite (bool_decide_ext _ _ (writable_same base d fs fs' H)).
  destruct b1, b2, (bool_decide _); cbn; try done. by destruct o.
Qed.

Lemma lock_all_run base range n fs d :
  registry_ok base fs -> Forall is_u16 range -> is_u16 d ->
  let fs' := (foldl (fun r display => lock_one base display r) (n, fs) range).2 in
  read_record base d fs' = locked_view base fs (bool_decide (d ∈ range)) d (read_record base d fs) /\
  registry_ok base fs'.
Proof.
  intros Hfs Hr Hd. revert n fs Hfs. induction Hr as [|x range Hx _ IH]; intros n fs Hfs; cbv zeta; cbn [foldl].
  - split; [|done]. unfold locked_view. by rewrite bool_decide_false by apply not_elem_of_nil.
  - destruct (lock_one_reads base x n fs d Hfs Hx Hd) as (Hread & Hrw & Hok).
    destruct (lock_one base x (n, fs)) as [n1 fs1]. cbn [snd] in *.
    destruct (IH n1 fs1 Hok) as [Hread' Hok']. split; [|done].
    rewrite Hread', Hread, locked_view_twice by done. f_equal.
    destruct (bool_decide_reflect (d = x)), (bool_decide_reflect (d ∈ range)), (bool_decide_reflect (d ∈ x :: range));
      cbn; try done; set_solver.
Qed.

(** Locking everything at the start of the supervisor leaves no recorded
    desktop of the range unlocked: afterwards every record of the range whose
    file can be written reads as it did, but locked, and every other record
    reads as before. *)
Theorem lock_all_locks base range fs d :
  registry_ok base fs -> Forall is_u16 range -> is_u16 d ->
  read_record base d (lock_all base range fs).2 =
    if decide (d ∈ range /\ writable base d fs) then with_locked true <$> read_record base d fs
    else read_record base d fs.
Proof.
  intros Hfs Hr Hd. unfold lock_all. destruct (lock_all_run base range 0 fs d Hfs Hr Hd) as [-> _].
  unfold locked_view. destruct (bool_decide_reflect (d ∈ range)), (bool_decide_reflect (writable base d fs)); cbn;
    (rewrite decide_True by tauto) || (rewrite decide_False by tauto); done.
Qed.

(** ** Every operation keeps the registry *)

Inductive RegistryOp :=
  | WriteRecord (rec : SessionRecord)
  | ForgetRecord (display : Z)
  | LockAll (range : list Z)
  | SetLocked (display : Z) (locked : bool).

Definition registry_op (base : text) (op : RegistryOp) (fs : FileSystem) : FileSystem :=
  match op with
  | WriteRecord rec => (write_record base rec fs).2
  | ForgetRecord display => (forget_record base display fs).2
  | LockAll range => (lock_all base range fs).2
  | SetLocked display locked => (set_locked base display locked fs).2
  end.

Definition registry_op_ok (op : RegistryOp) : Prop :=
  match op with
  | WriteRecord rec => record_ok rec
  | ForgetRecord display | SetLocked display _ => is_u16 display
  | LockAll range => Forall is_u16 range
  end.

Lemma forget_reads base display fs d :
  is_u16 display -> is_u16 d ->
  read_record base d (forget_record base display fs).2 =
    if decide (d = display /\ writable base display fs) then None else read_record base d fs.
Proof.
  intros Hdisp Hd. unfold forget_record. destruct (files fs !! record_path base display) eqn:E.
  - destruct (decide (record_path base display ∈ refuse_write fs)) as [Hw|Hw]; cbn [snd].
    + rewrite decide_False; [done|]. by intros [_ []].
    + unfold read_record, fs_read_to_string. cbn [files]. destruct (decide (d = display)) as [->|Hne].
      * by rewrite lookup_delete_eq, decide_True.
      * rewrite decide_False by tauto. rewrite lookup_delete_ne; [done|]. intros H. by apply record_path_inj in H.
  - cbn [snd]. destruct (decide _) as [[-> _]|]; [|done]. unfold read_record, fs_read_to_string. by rewrite E.
Qed.

Lemma registry_op_keeps base op fs : registry_op_ok op -> registry_ok base fs -> registry_ok base (registry_op base op fs).
Proof.
  intros Hop Hfs. destruct op as [rec|display|range|display locked]; cbn in Hop |- *.
  - by apply write_record_ok.
  - intros d rec Hd. rewrite forget_reads by done. destruct (decide _); [done|by apply Hfs].
  - by apply (lock_all_run base range 0 fs 0).
  - unfold set_locked. destruct (read_record base display fs) as [rec|] eqn:E; [|done].
    pose proof (write_record_ok base (with_locked locked rec) fs) as H. destruct (write_record _ _ _) as [r fs'].
    apply H; [|done]. by apply with_locked_ok, (Hfs _ _ Hop E).
Qed.

Lemma registry_ops_keep base ops fs :
  Forall registry_op_ok ops -> registry_ok base fs -> registry_ok base (foldl (fun fs op => registry_op base op fs) fs ops).
Proof.
  intros Hops. revert fs. induction Hops as [|op ops Hop _ IH]; intros fs Hfs; cbn [foldl]; [done|].
  by apply IH, registry_op_keeps.
Qed.

Lemma registry_ok_empty base fs : (forall d, files fs !! record_path base d = None) -> registry_ok base fs.
Proof. intros H d rec _. unfold read_record, fs_read_to_string. by rewrite H. Qed.

(** C29: A record written is the record read: after any operations on a fresh
    state directory, writing a session's record makes [read_one] return it
    with every field, the records of the other displays read as before, and
    the file of every display holds a record of that display. *)
Theorem registry_roundtrip base ops fs0 rec d :
  (forall d, files fs0 !! record_path base d = None) -> Forall registry_op_ok ops -> record_ok rec -> is_u16 d ->
  let fs := foldl (fun fs op => registry_op base op fs) fs0 ops in
  writable base (r_display rec) fs ->
  let fs' := (write_record base rec fs).2 in
  read_one base (r_display rec) fs' = Some rec /\
  (d <> r_display rec -> read_one base d fs' = read_one base d fs) /\ registry_ok base fs'.
Proof.
  intros Hfs0 Hops Hok Hd fs Hw fs'. unfold read_one, fs'.
  assert (registry_ok base fs) as Hfs by by apply registry_ops_keep, registry_ok_empty.
  destruct (write_record_reads base rec fs (r_display rec) Hok) as [-> _]; [apply Hok|].
  destruct (write_record_reads base rec fs d Hok Hd) as [-> _]. rewrite decide_True by done. split_and!; [done| |].
  - intros Hne. by rewrite decide_False by tauto.
  - by apply write_record_ok.
Qed.

(** ** Finding a session *)

Lemma find_map_omap_first {A B} (f : A -> option B) (g : B -> bool) (l : list A) (b : B) :
  find_map (fun x => if g x then Some x else None) (omap f l) = Some b ->
  exists l1 a l2, l = l1 ++ a :: l2 /\ f a = Some b /\ g b = true /\
    Forall (fun a' => forall b', f a' = Some b' -> g b' = false) l1.
Proof.
  induction l as [|a l IH]; [done|]. cbn [omap list_omap]. destruct (f a) as [b0|] eqn:E.
  - cbn [find_map]. destruct (g b0) eqn:G.
    + intros [= <-]. by exists [], a, l.
    + intros (l1 & a1 & l2 & -> & Hf & Hg & Hl)%IH. exists (a :: l1), a1, l2. split_and!; [done..|].
      constructor; [|done]. intros b' Hb'. rewrite E in Hb'. by injection Hb' as <-.
  - intros (l1 & a1 & l2 & -> & Hf & Hg & Hl)%IH. exists (a :: l1), a1, l2. split_and!; [done..|].
    constructor; [|done]. intros b' Hb'. by rewrite E in Hb'.
Qed.

(** The session found is the user's own, of the first display of the range
    that has one. *)
Lemma find_first base user range fs rec :
  find base user range fs = Some rec ->
  exists l1 d l2, range = l1 ++ d :: l2 /\ read_record base d fs = Some rec /\ r_user rec = user /\
    Forall (fun d' => forall rec', read_record base d' fs = Some rec' -> r_user rec' <> user) l1.
Proof.
  unfold find. intros H.
  destruct (find_map_omap_first (fun d => read_record base d fs) (fun r => bool_decide (r_user r = user)) range rec H)
    as (l1 & a & l2 & -> & Hf & Hg & Hl).
  exists l1, a, l2. split_and!; [done..|by apply bool_decide_eq_true in Hg|].
  eapply Forall_impl; [done|]. intros d Hd rec' Hr. by apply Hd, bool_decide_eq_false in Hr.
Qed.

(** A record without a lock state reads as locked. *)
Lemma missing_lock_is_locked body rec :
  field body (lit "locked") = None -> parse_record body = Some rec -> r_locked rec = true.
Proof.
  intros Hf. unfold parse_record. rewrite Hf. destruct (field body (lit "user")); [|done]. cbn [mbind option_bind].
  destruct (field body (lit "display") ≫= _); [|done]. cbn [mbind option_bind].
  destruct (field body (lit "runtime_dir")); [|done]. destruct (field body (lit "xauthority")); [|done]. by intros [= <-].
Qed.

(** ** The registry at work *)

Definition sample_base : text := lit "/run/linrdp".
Definition alice_record : SessionRecord :=
  mkSessionRecord (lit "alice") 11 (lit "/run/user/1011") (lit "/run/user/1011/linrdp/Xauthority") false
    (Some (lit "c7")) None X11_ID.
Definition bob_record : SessionRecord :=
  mkSessionRecord (lit "bob") 12 (lit "/run/user/1012") (lit "") false None (Some (lit "/run/user/1012/bus")) GNOME_HEADLESS_ID.
Definition empty_fs : FileSystem := mkFileSystem ∅ ∅ ∅.

Lemma literal_ok s : forallb (fun c => negb (c =? LF) && negb (c =? CR) && is_scalar c) (lit s) = true -> field_ok (lit s).
Proof.
  intros H. rewrite forallb_forall in H. split; [split|].
  - intros Hin. apply list_elem_of_In, H in Hin. by vm_compute in Hin.
  - intros Hl. apply last_Some_elem_of, list_elem_of_In, H in Hl. by vm_compute in Hl.
  - apply Forall_forall. intros c Hc. apply list_elem_of_In, H in Hc. by apply andb_prop in Hc as [_ ?].
Qed.

Ltac record_fields :=
  repeat match goal with
  | |- field_ok _ => by apply literal_ok
  | |- opt_field_ok None => exact I
  | |- opt_field_ok _ => split
  | |- record_ok _ => unfold record_ok
  | |- _ /\ _ => split
  | |- _ => done
  end.

Lemma alice_record_ok : record_ok alice_record.
Proof. unfold record_ok. cbn [r_user r_display r_runtime_dir r_xauthority r_locked r_logind_id r_bus r_backend alice_record bob_record]. record_fields. Qed.

Lemma bob_record_ok : record_ok bob_record.
Proof. unfold record_ok. cbn [r_user r_display r_runtime_dir r_xauthority r_locked r_logind_id r_bus r_backend alice_record bob_record]. record_fields. Qed.

Definition two_records : FileSystem :=
  foldl (fun fs op => registry_op sample_base op fs) empty_fs [WriteRecord alice_record; WriteRecord bob_record].

Lemma two_records_ok : registry_ok sample_base two_records.
Proof.
  apply registry_ops_keep.
  - apply Forall_cons; split; [exact alice_record_ok|]. apply Forall_cons; split; [exact bob_record_ok|done].
  - apply registry_ok_empty. intros d. apply lookup_empty.
Qed.

Lemma lock_all_locks_witness :
  read_record sample_base 11 (lock_all sample_base [10; 11; 12; 13] two_records).2 =
    with_locked true <$> read_record sample_base 11 two_records /\
  read_record sample_base 11 two_records = Some alice_record.
Proof.
  split.
  - rewrite (lock_all_locks sample_base [10; 11; 12; 13] two_records 11).
    + rewrite decide_True; [reflexivity|]. split; [set_solver|]. unfold writable. set_solver.
    + apply two_records_ok.
    + repeat constructor; done.
    + done.
  - vm_compute. reflexivity.
Defined.

Lemma registry_roundtrip_witness :
  let fs := foldl (fun fs op => registry_op sample_base op fs) empty_fs [WriteRecord alice_record; LockAll [11]] in
  let fs' := (write_record sample_base bob_record fs).2 in
  read_one sample_base 12 fs' = Some bob_record /\
  (11 <> 12 -> read_one sample_base 11 fs' = read_one sample_base 11 fs) /\ registry_ok sample_base fs'.
Proof.
  apply (registry_roundtrip sample_base [WriteRecord alice_record; LockAll [11]] empty_fs bob_record 11).
  - intros d. apply lookup_empty.
  - apply Forall_cons; split; [exact alice_record_ok|]. apply Forall_cons; split; [by repeat constructor|done].
  - apply bob_record_ok.
  - done.
  - vm_compute. intros H. by inversion H.
Defined.
