(* ===== verification/DisplayAlloc.v ===== *)
(** Display numbers (linrdp session/display_alloc.rs): a number belongs to
    whoever holds the [flock] of its lock file.

    The kernel's side is modelled as far as the code relies on it: paths name
    inodes, descriptors name open file descriptions, an exclusive [flock]
    belongs to the open file description, a copy of a descriptor shares it,
    and closing the last copy releases the lock. *)

From stdpp Require Import base gmap list.
From S2P Require Import Prelude PduText HostText.

(** ** Files, descriptors and locks *)

Record Kernel := mkKernel {
  inodes : gmap text Z;          (* path -> inode *)
  fds : gmap Z Z;                (* descriptor -> open file description *)
  descriptions : gmap Z Z;       (* open file description -> inode *)
  locks : gmap Z Z;              (* inode -> the description holding its lock *)
  cloexec : gset Z;              (* descriptors closed by exec *)
  unopenable : gset text;        (* paths that cannot be opened *)
  owners : gmap text text;       (* the owner files *)
  next : Z;                      (* fresh inodes, descriptors, descriptions *)
}.

(** [OpenOptions]'s [open], creating the file or not.  Rust opens files
    close-on-exec. *)
Definition open_file (create : bool) (path : text) (k : Kernel) : option (Z * Kernel) :=
  if decide (path ∈ unopenable k) then None
  else
    let n := next k in
    '(i, paths) ←
      (match inodes k !! path with
       | Some i => Some (i, inodes k)
       | None => if create then Some (n, <[path := n]> (inodes k)) else None
       end);
    Some (n, mkKernel paths (<[n := n]> (fds k)) (<[n := i]> (descriptions k)) (locks k)
      ({[n]} ∪ cloexec k) (unopenable k) (owners k) (n + 1)).

(** [flock(fd, LOCK_EX | LOCK_NB) == 0] *)
Definition flock (fd : Z) (k : Kernel) : bool * Kernel :=
  match fds k !! fd with
  | None => (false, k)
  | Some o =>
      match descriptions k !! o with
      | None => (false, k)
      | Some i =>
          match locks k !! i with
          | Some o' => (bool_decide (o' = o), k)
          | None =>
              (true, mkKernel (inodes k) (fds k) (descriptions k) (<[i := o]> (locks k)) (cloexec k)
                (unopenable k) (owners k) (next k))
          end
      end
  end.

(** Closing a descriptor: the description and its lock go with the last copy. *)
Definition close (fd : Z) (k : Kernel) : Kernel :=
  match fds k !! fd with
  | None => k
  | Some o =>
      let rest := delete fd (fds k) in
      if decide (map_Forall (fun _ o' => o' <> o) rest) then
        mkKernel (inodes k) rest (delete o (descriptions k)) (filter (fun x => x.2 <> o) (locks k)) (cloexec k ∖ {[fd]})
          (unopenable k) (owners k) (next k)
      else
        mkKernel (inodes k) rest (descriptions k) (locks k) (cloexec k ∖ {[fd]}) (unopenable k) (owners k) (next k)
  end.

(** The inode a descriptor or a path names ([metadata]). *)
Definition fd_inode (fd : Z) (k : Kernel) : option Z := o ← fds k !! fd; descriptions k !! o.

(** [fcntl(fd, F_SETFD, FD_CLOEXEC)] *)
Definition set_cloexec (fd : Z) (k : Kernel) : Kernel :=
  mkKernel (inodes k) (fds k) (descriptions k) (locks k) ({[fd]} ∪ cloexec k) (unopenable k) (owners k) (next k).

(** The copy of a descriptor the keeper is started with: [dup2] onto its
    fixed number in the forked child, without close-on-exec. *)
Definition inherit (fd : Z) (k : Kernel) : option (Z * Kernel) :=
  o ← fds k !! fd;
  let n := next k in
  Some (n, mkKernel (inodes k) (<[n := o]> (fds k)) (descriptions k) (locks k) (cloexec k) (unopenable k) (owners k) (n + 1)).

(** ** Leases *)

Record DisplayLease := mkLease { number : Z; lease_base : text; lock_fd : Z }.

Inductive AllocError :=
  | OpenFailed (path : text)
  | NoFreeDisplay
  | NotADescriptor
  | StatFailed
  | NotThisLock
  | NotClaimed.

Definition lock_path (base : text) (n : Z) : text := path_join base (lit "display-" ++ decimal n ++ lit ".lock").
Definition owner_path (base : text) (n : Z) : text := path_join base (lit "display-" ++ decimal n ++ lit ".owner").

Definition display_name (l : DisplayLease) : text := lit ":" ++ decimal (number l).

(** [allocate_with]: the loop over the range. *)
Fixpoint allocate_with (base : text) (range : list Z) (served : Z -> bool) (k : Kernel) :
    (AllocError + DisplayLease) * Kernel :=
  match range with
  | [] => (inl NoFreeDisplay, k)
  | n :: range' =>
      let path := lock_path base n in
      match open_file true path k with
      | None => (inl (OpenFailed path), k)
      | Some (file, k) =>
          let '(locked, k) := flock file k in
          if locked then
            if served n then allocate_with base range' served (close file k)
            else (inr (mkLease n base file), k)
          else allocate_with base range' served (close file k)
      end
  end.

Definition lock_is_free (base : text) (n : Z) (k : Kernel) : bool * Kernel :=
  match open_file true (lock_path base n) k with
  | None => (false, k)
  | Some (file, k) => let '(locked, k) := flock file k in (locked, close file k)
  end.

(** The descriptor; the lease is forgotten, not dropped, so nothing is closed
    and no owner file is removed. *)
Definition into_handoff_fd (l : DisplayLease) (k : Kernel) : Z * Kernel := (lock_fd l, k).

(** Every early return drops [file], which closes the descriptor. *)
Definition adopt (base : text) (n : Z) (fd : Z) (k : Kernel) : (AllocError + DisplayLease) * Kernel :=
  if fd <? 0 then (inl NotADescriptor, k)
  else
    let path := lock_path base n in
    match inodes k !! path with
    | None => (inl StatFailed, close fd k)
    | Some expected =>
        match fd_inode fd k with
        | None => (inl StatFailed, close fd k)
        | Some got =>
            if negb (got =? expected) then (inl NotThisLock, close fd k)
            else
              match open_file false path k with
              | None => (inl (OpenFailed path), close fd k)
              | Some (probe, k) =>
                  let '(free, k) := flock probe k in
                  let k := close probe k in
                  if free then (inl NotClaimed, close fd k)
                  else (inr (mkLease n base fd), set_cloexec fd k)
              end
        end
    end.

(** What [fs::write] comes to: the whole content, or an error that left part of
    it ([None]: the file as it was). *)
Inductive WriteOutcome := WroteAll | WriteStopped (left_behind : option text).

(** [write] and [chmod] are what the two calls come to; [true] is [Ok]. *)
Definition record_owner (user : text) (write : WriteOutcome) (chmod : bool) (l : DisplayLease) (k : Kernel) : bool * Kernel :=
  let path := owner_path (lease_base l) (number l) in
  let content := match write with WroteAll => Some user | WriteStopped left_behind => left_behind end in
  let owners := match content with Some text => <[path := text]> (owners k) | None => owners k end in
  (match write with WroteAll => chmod | WriteStopped _ => false end,
   mkKernel (inodes k) (fds k) (descriptions k) (locks k) (cloexec k) (unopenable k) owners (next k)).

(** [Drop]: the owner file, then the descriptor. *)
Definition drop_lease (l : DisplayLease) (k : Kernel) : Kernel :=
  close (lock_fd l)
    (mkKernel (inodes k) (fds k) (descriptions k) (locks k) (cloexec k) (unopenable k)
      (delete (owner_path (lease_base l) (number l)) (owners k)) (next k)).

Definition owner_of (base : text) (n : Z) (k : Kernel) : option text :=
  buf ← owners k !! owner_path base n;
  let user := trim buf in
  match user with [] => None | _ => Some user end.

(** ** What the kernel keeps true *)

(** Numbers below [next] are in use, descriptors name descriptions and
    descriptions inodes, distinct paths name distinct inodes, and a lock is
    held by a description of its file. *)
Record kernel_ok (k : Kernel) : Prop := mkKernelOk {
  ok_fds fd o : fds k !! fd = Some o -> fd < next k /\ 0 <= fd /\ is_Some (descriptions k !! o);
  ok_descriptions o i : descriptions k !! o = Some i -> o < next k /\ i < next k /\ exists fd, fds k !! fd = Some o;
  ok_inodes p i : inodes k !! p = Some i -> i < next k;
  ok_inodes_inj p q i : inodes k !! p = Some i -> inodes k !! q = Some i -> p = q;
  ok_locks i o : locks k !! i = Some o -> descriptions k !! o = Some i;
  ok_next : 0 <= next k;
}.

(** The description of [fd] holds the lock of the file at [path]. *)
Definition holds (path : text) (fd : Z) (k : Kernel) : Prop :=
  exists i o, inodes k !! path = Some i /\ fds k !! fd = Some o /\ locks k !! i = Some o.

(** The file at [path] is locked by somebody. *)
Definition is_locked (path : text) (k : Kernel) : bool :=
  match inodes k !! path ≫= fun i => locks k !! i with Some _ => true | None => false end.

Lemma holds_is_locked p fd k : holds p fd k -> is_locked p k = true.
Proof. intros (i & o & Hi & Hf & Hl). unfold is_locked. rewrite Hi. cbn. by rewrite Hl. Qed.

Lemma holds_same p fd fd' k : holds p fd k -> holds p fd' k -> fds k !! fd = fds k !! fd'.
Proof. intros (i & o & Hi & Hf & Hl) (j & o' & Hj & Hf' & Hl'). congruence. Qed.

Lemma fresh_fd k fd o : kernel_ok k -> fds k !! fd = Some o -> fd <> next k /\ o <> next k.
Proof.
  intros Hk H. destruct (ok_fds _ Hk _ _ H) as (? & _ & [i Hi]). destruct (ok_descriptions _ Hk _ _ Hi) as (? & _). lia.
Qed.

Lemma fresh_description k o i : kernel_ok k -> descriptions k !! o = Some i -> o <> next k /\ i <> next k.
Proof. intros Hk H. destruct (ok_descriptions _ Hk _ _ H) as (? & ? & _). lia. Qed.

(** Opening finds the inode of the path or makes a new one. *)
Lemma open_inode c p k fd k' :
  kernel_ok k -> open_file c p k = Some (fd, k') ->
  fd = next k /\ exists i paths,
    k' = mkKernel paths (<[fd := fd]> (fds k)) (<[fd := i]> (descriptions k)) (locks k) ({[fd]} ∪ cloexec k)
      (unopenable k) (owners k) (fd + 1) /\
    paths !! p = Some i /\ i <= fd /\ (forall q j, inodes k !! q = Some j -> paths !! q = Some j) /\
    (forall q j, paths !! q = Some j -> inodes k !! q = Some j \/ (q = p /\ j = fd)).
Proof.
  intros Hk. unfold open_file. destruct (decide _); [done|]. destruct (inodes k !! p) as [i|] eqn:E; cbn.
  - intros [= <- <-]. split; [done|]. exists i, (inodes k). pose proof (ok_inodes _ Hk _ _ E).
    split_and!; [done..|lia|done|by left].
  - destruct c; [|done]. cbn. intros [= <- <-]. split; [done|]. exists (next k), (<[p := next k]> (inodes k)).
    split_and!; [done|apply lookup_insert_eq|lia| |].
    + intros q j Hq. rewrite lookup_insert_ne; [done|]. intros <-. congruence.
    + intros q j [(<- & <-)|(_ & Hq)]%lookup_insert_Some; [by right|by left].
Qed.

Lemma no_fd_next k fd : kernel_ok k -> fds k !! next k = None /\ fds k !! fd <> Some (next k).
Proof.
  intros Hk. split.
  - destruct (fds k !! next k) eqn:E; [|done]. by apply (fresh_fd _ _ _ Hk) in E as [? _].
  - intros E. by apply (fresh_fd _ _ _ Hk) in E as [_ ?].
Qed.

Lemma open_ok c p k fd k' :
  kernel_ok k -> open_file c p k = Some (fd, k') ->
  kernel_ok k' /\ (forall q fd', holds q fd' k -> holds q fd' k') /\ (forall q, is_locked q k' = is_locked q k) /\
  fds k !! fd = None /\
  exists i, inodes k' !! p = Some i /\ fds k' !! fd = Some fd /\ descriptions k' !! fd = Some i /\
    (forall fd', fds k' !! fd' = Some fd -> fd' = fd) /\ unopenable k' = unopenable k.
Proof.
  intros Hk Ho. destruct (open_inode _ _ _ _ _ Hk Ho) as (-> & i & m & -> & Hp & Hle & Hm & Hm').
  pose proof Hk as [Hf Hd Hi Hinj Hl Hn]. destruct (no_fd_next k 0 Hk) as [Hnf _].
  assert (forall o j, descriptions k !! o = Some j -> next k <> o) as Hfr.
  { intros o j E. apply (fresh_description _ _ _ Hk) in E. tauto || (destruct E; congruence). }
  split_and!; [split; cbn| | |done|].
  - intros fd o [(<- & <-)|(Hne & E)]%lookup_insert_Some; [split_and!; [lia..|rewrite lookup_insert_eq; eauto]|].
    destruct (Hf _ _ E) as (? & ? & [j Hj]). split_and!; [lia..|]. rewrite lookup_insert_ne by eauto. eauto.
  - intros o j [(<- & <-)|(Hne & E)]%lookup_insert_Some.
    + split_and!; [lia..|]. exists (next k). apply lookup_insert_eq.
    + destruct (Hd _ _ E) as (? & ? & fd & Hfd). split_and!; [lia..|]. exists fd. rewrite lookup_insert_ne by congruence. done.
  - intros q j [E|[-> ->]]%Hm'; [apply Hi in E|]; lia.
  - intros q r j [E|[-> ->]]%Hm' [E'|[-> E']]%Hm'; [by eapply Hinj| | |done]; subst.
    + apply Hi in E. lia.
    + apply Hi in E'. lia.
  - intros j o E. apply Hl in E. rewrite lookup_insert_ne by eauto. done.
  - lia.
  - intros q fd' (j & o & Hj & Hfo & Hlk). exists j, o. cbn. split_and!; [by apply Hm| |done].
    rewrite lookup_insert_ne by congruence. done.
  - intros q. unfold is_locked. cbn. destruct (inodes k !! q) as [j|] eqn:E; [by rewrite (Hm _ _ E)|].
    destruct (m !! q) as [j|] eqn:E'; [|done]. destruct (Hm' _ _ E') as [?|[-> ->]]; [congruence|]. cbn.
    destruct (locks k !! next k) as [o|] eqn:E2; [|done]. apply Hl, (fresh_description _ _ _ Hk) in E2. by destruct E2.
  - exists i. cbn. rewrite !lookup_insert_eq. split_and!; [done..| |done].
    intros fd' [(<- & _)|(_ & E)]%lookup_insert_Some; [done|]. by apply (no_fd_next k fd' Hk) in E.
Qed.

Definition with_locks (l : gmap Z Z) (k : Kernel) : Kernel :=
  mkKernel (inodes k) (fds k) (descriptions k) l (cloexec k) (unopenable k) (owners k) (next k).

(** Trying the lock of a file just opened: it is taken when it was free, and
    nothing changes when it was not. *)
Lemma flock_fresh p fd i k :
  kernel_ok k -> inodes k !! p = Some i -> fds k !! fd = Some fd -> descriptions k !! fd = Some i ->
  locks k !! i <> Some fd ->
  if is_locked p k then flock fd k = (false, k) else flock fd k = (true, with_locks (<[i := fd]> (locks k)) k).
Proof.
  intros Hk Hi Hf Hd Hn. unfold is_locked, flock. rewrite Hi, Hf, Hd. cbn. destruct (locks k !! i) as [o|]; [|done].
  rewrite bool_decide_false by congruence. done.
Qed.

Lemma lock_taken p fd i k :
  kernel_ok k -> inodes k !! p = Some i -> fds k !! fd = Some fd -> descriptions k !! fd = Some i ->
  locks k !! i = None ->
  let k' := with_locks (<[i := fd]> (locks k)) k in
  kernel_ok k' /\ holds p fd k' /\ (forall q fd', holds q fd' k -> holds q fd' k') /\
  (forall q, is_locked q k' = bool_decide (q = p) || is_locked q k).
Proof.
  intros Hk Hi Hf Hd Hn k'. pose proof Hk as [H1 H2 H3 H4 H5 H6]. split_and!.
  - split; cbn; [done..| |done]. intros j o [(<- & <-)|(_ & E)]%lookup_insert_Some; [done|by apply H5].
  - exists i, fd. cbn. by rewrite lookup_insert_eq.
  - intros q fd' (j & o & Hj & Ho & Hl). exists j, o. cbn. split_and!; [done..|]. rewrite lookup_insert_ne; congruence.
  - intros q. unfold is_locked. cbn. destruct (bool_decide_reflect (q = p)) as [->|Hne].
    + rewrite Hi. cbn. by rewrite lookup_insert_eq.
    + cbn. destruct (inodes k !! q) as [j|] eqn:E; [|done]. cbn. rewrite lookup_insert_ne; [done|]. intros ->. naive_solver.
Qed.

(** Closing a descriptor. *)
Lemma close_ok fd k : kernel_ok k -> kernel_ok (close fd k).
Proof.
  intros Hk. pose proof Hk as [H1 H2 H3 H4 H5 H6]. unfold close. destruct (fds k !! fd) as [o|] eqn:E; [|done].
  destruct (decide _) as [Hall|Hsome]; split; cbn; try done.
  - intros fd' o' [Hne Hf]%lookup_delete_Some. destruct (H1 _ _ Hf) as (? & ? & ?). split_and!; [done..|].
    rewrite lookup_delete_ne; [done|]. intros <-. eapply (Hall fd'); [|done]. by apply lookup_delete_Some.
  - intros o' i [Hne Hd]%lookup_delete_Some. destruct (H2 _ _ Hd) as (? & ? & fd' & Hf). split_and!; [done..|].
    exists fd'. rewrite lookup_delete_ne; [done|]. intros <-. congruence.
  - intros i o' [Hl Hne]%map_lookup_filter_Some. cbn in Hne. rewrite lookup_delete_ne by congruence. by apply H5.
  - intros fd' o' [Hne Hf]%lookup_delete_Some. by destruct (H1 _ _ Hf) as (? & ? & ?).
  - intros o' i Hd. destruct (H2 _ _ Hd) as (? & ? & fd' & Hf). split_and!; [done..|].
    destruct (decide (fd' = fd)) as [->|Hne]; [|exists fd'; by rewrite lookup_delete_ne].
    assert (o' = o) as -> by congruence. apply map_not_Forall in Hsome as (fd'' & o'' & Hf'' & Hn); [|apply _].
    exists fd''. rewrite Hf''. f_equal. by apply dec_stable in Hn.
Qed.

Lemma close_keeps q fd fd' k : fd' <> fd -> holds q fd' k -> holds q fd' (close fd k).
Proof.
  intros Hne (i & o & Hi & Hf & Hl). unfold close. destruct (fds k !! fd) as [o'|] eqn:E; [|by exists i, o].
  destruct (decide _) as [Hall|]; exists i, o; cbn; rewrite lookup_delete_ne by done; split_and!; try done.
  apply map_lookup_filter_Some. split; [done|]. cbn. apply (Hall fd'). by rewrite lookup_delete_ne.
Qed.

(** Closing the only descriptor of a description releases its lock and no
    other. *)
Lemma close_sole_locked fd o i k q :
  kernel_ok k -> fds k !! fd = Some o -> descriptions k !! o = Some i -> (forall fd', fds k !! fd' = Some o -> fd' = fd) ->
  is_locked q (close fd k) =
    is_locked q k && negb (bool_decide (inodes k !! q = Some i) && bool_decide (locks k !! i = Some o)).
Proof.
  intros Hk Hf Hd Hu. unfold close. rewrite Hf. rewrite decide_True.
  2:{ intros fd' o' [Hne E]%lookup_delete_Some ->. by apply Hu in E. }
  unfold is_locked. cbn. destruct (inodes k !! q) as [j|] eqn:Ej; [|done]. cbn.
  destruct (locks k !! j) as [o'|] eqn:El.
  - destruct (decide (o' = o)) as [->|Hne].
    + pose proof (ok_locks _ Hk _ _ El) as E. assert (j = i) as -> by congruence.
      rewrite !bool_decide_true by done. cbn. destruct (filter _ _ !! i) eqn:Ef; [|done].
      apply map_lookup_filter_Some in Ef as [? []]. cbn. congruence.
    + rewrite (proj2 (map_lookup_filter_Some _ _ _ _)) by done. cbn.
      destruct (bool_decide_reflect (Some j = Some i)) as [[= ->]|]; cbn; [|done]. rewrite bool_decide_false by congruence. done.
  - destruct (filter _ _ !! j) eqn:Ef; [|done]. apply map_lookup_filter_Some in Ef as [? _]. congruence.
Qed.

(** Opening a lock file and trying its lock, as the allocator and the probe do:
    it is free exactly when nobody holds it, closing the file again changes no
    lock, and keeping it holds the number. *)
Lemma try_lock base n k fd k1 :
  kernel_ok k -> open_file true (lock_path base n) k = Some (fd, k1) ->
  let free := negb (is_locked (lock_path base n) k) in
  exists k2, flock fd k1 = (free, k2) /\ fds k !! fd = None /\ unopenable k2 = unopenable k /\
    kernel_ok k2 /\ (forall q fd', holds q fd' k -> holds q fd' k2) /\
    (free = true -> holds (lock_path base n) fd k2) /\
    (forall q, is_locked q k2 = is_locked q k || (free && bool_decide (q = lock_path base n))) /\
    kernel_ok (close fd k2) /\ (forall q fd', holds q fd' k -> holds q fd' (close fd k2)) /\
    (forall q, is_locked q (close fd k2) = is_locked q k) /\ unopenable (close fd k2) = unopenable k.
Proof.
  intros Hk Ho. destruct (open_ok _ _ _ _ _ Hk Ho) as (Hk1 & Hh1 & Hl1 & Hnew & i & Hi & Hf & Hd & Hu & Hun).
  set (p := lock_path base n) in *.
  assert (forall j o, locks k1 !! j = Some o -> o <> fd) as Hnl.
  { intros j o E ->. assert (locks k1 = locks k) as Hlk by (destruct (open_inode _ _ _ _ _ Hk Ho) as (_ & ? & ? & -> & _); done).
    rewrite Hlk in E. apply (ok_locks _ Hk) in E. destruct (open_inode _ _ _ _ _ Hk Ho) as (-> & _).
    by apply (fresh_description _ _ _ Hk) in E as [? _]. }
  pose proof (flock_fresh p fd i k1 Hk1 Hi Hf Hd) as Hfl. rewrite Hl1 in Hfl.
  assert (forall k2, inodes k2 = inodes k1 -> unopenable (close fd k2) = unopenable k2) as Hcu.
  { intros k2 _. unfold close. destruct (fds k2 !! fd); [|done]. by destruct (decide _). }
  assert (forall k2, fds k2 = fds k1 -> forall q fd', holds q fd' k -> holds q fd' k2 -> holds q fd' (close fd k2)) as Hck.
  { intros k2 _ q fd' (? & ? & _ & E & _) H. apply close_keeps; [|done]. intros ->. congruence. }
  destruct (is_locked p k) eqn:El; cbv zeta; cbn [negb andb].
  - rewrite Hfl by (intros E; by apply Hnl in E). exists k1. split_and!; try done.
    + intros q. by rewrite Hl1, orb_false_r.
    + by apply close_ok.
    + intros q fd' H. by apply Hck, Hh1.
    + intros q. rewrite (close_sole_locked fd fd i) by done. rewrite Hl1.
      destruct (bool_decide_reflect (locks k1 !! i = Some fd)) as [E|]; [by apply Hnl in E|]. by rewrite andb_false_r, andb_true_r.
    + by rewrite Hcu.
  - assert (locks k1 !! i = None) as Hfree.
    { rewrite <- Hl1 in El. unfold is_locked in El. rewrite Hi in El. cbn in El. by destruct (locks k1 !! i). }
    rewrite Hfl by (intros E; by apply Hnl in E). set (k2 := with_locks _ _).
    destruct (lock_taken p fd i k1 Hk1 Hi Hf Hd Hfree) as (Hk2 & Hp2 & Hh2 & Hl2). fold k2 in Hk2, Hp2, Hh2, Hl2.
    exists k2. split_and!; try done.
    + intros q fd' H. by apply Hh2, Hh1.
    + intros q. rewrite Hl2, Hl1. apply orb_comm.
    + by apply close_ok.
    + intros q fd' H. apply Hck; [done..|]. by apply Hh2, Hh1.
    + intros q. rewrite (close_sole_locked fd fd i) by done. rewrite Hl2, Hl1. cbn [inodes locks k2 with_locks].
      rewrite lookup_insert_eq. rewrite (bool_decide_true (Some fd = Some fd)) by done. rewrite andb_true_r.
      destruct (bool_decide_reflect (q = p)) as [->|Hne]; cbn.
      * rewrite bool_decide_true by done. by rewrite El.
      * rewrite bool_decide_false; [by rewrite andb_true_r|]. intros E. apply Hne. by eapply ok_inodes_inj.
    + rewrite Hcu by done. done.
Qed.

(** ** The operations *)

(** A number nobody holds and nothing serves. *)
Definition free_number (base : text) (served : Z -> bool) (k : Kernel) (n : Z) : bool :=
  negb (is_locked (lock_path base n) k) && negb (served n).

Lemma lock_path_inj base n m : is_u16 n -> is_u16 m -> lock_path base n = lock_path base m -> n = m.
Proof.
  intros Hn Hm. unfold lock_path, path_join. destruct (last base) as [c|]; [destruct (c =? 47)|].
  - intros H%app_inv_head%app_inv_head%app_inv_tail. apply decimal_inj; [width..|done].
  - intros H%app_inv_head. apply (f_equal tail) in H. cbn [tail] in H. apply app_inv_head, app_inv_tail in H.
    apply decimal_inj; [width..|done].
  - intros H%app_inv_head%app_inv_tail. apply decimal_inj; [width..|done].
Qed.

(** The lowest free number of the range, held in the end; or none is free; or
    a lock file on the way could not be opened. *)
Definition alloc_result (base : text) (range : list Z) (served : Z -> bool) (k : Kernel)
    (r : AllocError + DisplayLease) (k' : Kernel) : Prop :=
  match r with
  | inr lease =>
      exists before after, range = before ++ number lease :: after /\ lease_base lease = base /\
        Forall (fun n => free_number base served k n = false) before /\ free_number base served k (number lease) = true /\
        holds (lock_path base (number lease)) (lock_fd lease) k'
  | inl (OpenFailed p) => exists n, n ∈ range /\ p = lock_path base n /\ p ∈ unopenable k
  | inl e => e = NoFreeDisplay /\ Forall (fun n => free_number base served k n = false) range
  end.

Lemma alloc_result_skip base n range served k k1 r k' :
  (forall q, is_locked q k1 = is_locked q k) -> unopenable k1 = unopenable k -> free_number base served k n = false ->
  alloc_result base range served k1 r k' -> alloc_result base (n :: range) served k r k'.
Proof.
  intros Hl Hu Hn.
  assert (forall l, Forall (fun n => free_number base served k1 n = false) l -> Forall (fun n => free_number base served k n = false) l)
    as Hf by (intros l Hl'; eapply Forall_impl; [exact Hl'|]; intros m; unfold free_number; by rewrite Hl).
  destruct r as [[p| | | | |]|lease]; cbn; [|by intros [? ?]; split; [|constructor; [|apply Hf]]..|].
  - rewrite Hu. intros (m & ? & ?). exists m. split; [set_solver|done].
  - intros (before & after & -> & Hb & Hfb & Hfl & Hh). exists (n :: before), after. split_and!; [done..| | |done].
    + constructor; [done|by apply Hf].
    + unfold free_number in *. by rewrite <- Hl.
Qed.

Lemma allocate_spec base range served k r k' :
  kernel_ok k -> allocate_with base range served k = (r, k') ->
  kernel_ok k' /\ (forall q fd, holds q fd k -> holds q fd k') /\ alloc_result base range served k r k'.
Proof.
  revert k. induction range as [|n range IH]; intros k Hk; cbn [allocate_with]; [by intros [= <- <-]|].
  destruct (open_file true (lock_path base n) k) as [[fd k1]|] eqn:Ho.
  2:{ intros [= <- <-]. split_and!; [done..|]. exists n. split_and!; [set_solver|done|].
      unfold open_file in Ho. destruct (decide _) as [|]; [done|]. by destruct (inodes k !! _). }
  destruct (try_lock base n k fd k1 Hk Ho) as (k2 & -> & Hnew & Hun2 & Hk2 & Hh2 & Hhold & Hl2 & Hkc & Hhc & Hlc & Hunc).
  assert (free_number base served k n = false -> allocate_with base range served (close fd k2) = (r, k') ->
    kernel_ok k' /\ (forall q fd, holds q fd k -> holds q fd k') /\ alloc_result base (n :: range) served k r k') as Hrest.
  { intros Hn E. destruct (IH _ Hkc E) as (Hk' & Hh' & Hr). split_and!; [done|by intros q fd' H; apply Hh', Hhc|].
    by eapply alloc_result_skip. }
  unfold free_number in Hrest. destruct (is_locked (lock_path base n) k) eqn:El; cbn [negb] in *; [by apply Hrest|].
  destruct (served n) eqn:Es; [by apply Hrest|]. intros [= <- <-]. split_and!; [done..|].
  exists [], range. cbn. split_and!; [done..| |by apply Hhold]. unfold free_number. by rewrite El, Es.
Qed.

(** The probe answers whether nobody holds the number, and changes no lock. *)
Lemma lock_is_free_spec base n k :
  kernel_ok k -> lock_path base n ∉ unopenable k ->
  let '(free, k') := lock_is_free base n k in
  free = negb (is_locked (lock_path base n) k) /\ kernel_ok k' /\ (forall q fd, holds q fd k -> holds q fd k') /\
  (forall q, is_locked q k' = is_locked q k).
Proof.
  intros Hk Hu. unfold lock_is_free. destruct (open_file true (lock_path base n) k) as [[fd k1]|] eqn:Ho.
  - by destruct (try_lock base n k fd k1 Hk Ho) as (k2 & -> & _ & _ & _ & _ & _ & _ & ? & ? & ? & _).
  - unfold open_file in Ho. rewrite decide_False in Ho by done. by destruct (inodes k !! _).
Qed.

Lemma inherit_spec fd k fd' k' :
  kernel_ok k -> inherit fd k = Some (fd', k') ->
  kernel_ok k' /\ (forall q f, holds q f k -> holds q f k') /\ (forall q, holds q fd k -> holds q fd' k') /\
  (forall q, is_locked q k' = is_locked q k).
Proof.
  intros Hk. pose proof Hk as [H1 H2 H3 H4 H5 H6]. unfold inherit. destruct (fds k !! fd) as [o|] eqn:E; [|done]. cbn.
  intros [= <- <-]. destruct (no_fd_next k 0 Hk) as [Hn _]. split_and!; [split; cbn| | |done].
  - intros f o' [(<- & <-)|(_ & Hf)]%lookup_insert_Some.
    + destruct (H1 _ _ E) as (? & ? & ?). split_and!; [lia..|done].
    + destruct (H1 _ _ Hf) as (? & ? & ?). split_and!; [lia..|done].
  - intros o' i Hd. destruct (H2 _ _ Hd) as (? & ? & f & Hf). split_and!; [lia..|]. exists f.
    rewrite lookup_insert_ne by congruence. done.
  - intros p i Hi. apply H3 in Hi. lia.
  - done.
  - done.
  - lia.
  - intros q f (i & o' & Hi & Hf & Hl). exists i, o'. cbn. rewrite lookup_insert_ne by congruence. done.
  - intros q (i & o' & Hi & Hf & Hl). exists i, o. cbn. rewrite lookup_insert_eq. split_and!; [done..|]. congruence.
Qed.

Lemma set_cloexec_ok fd k :
  kernel_ok k -> kernel_ok (set_cloexec fd k) /\ (forall q f, holds q f k -> holds q f (set_cloexec fd k)).
Proof. intros [H1 H2 H3 H4 H5 H6]. by split; [split|]. Qed.

(** Taking over a claim that was handed over: it is accepted, still held, and
    closed by the next exec. *)
Lemma adopt_claim base n fd k :
  kernel_ok k -> holds (lock_path base n) fd k -> lock_path base n ∉ unopenable k ->
  exists k', adopt base n fd k = (inr (mkLease n base fd), k') /\ kernel_ok k' /\
    (forall q f, holds q f k -> holds q f k') /\ fd ∈ cloexec k'.
Proof.
  intros Hk Hh Hu. pose proof Hh as (i & o & Hi & Hf & Hl). pose proof (ok_locks _ Hk _ _ Hl) as Hd.
  destruct (ok_fds _ Hk _ _ Hf) as (_ & Hpos & _). unfold adopt. destruct (Z.ltb_spec fd 0); [lia|].
  rewrite Hi. unfold fd_inode. rewrite Hf. cbn [mbind option_bind]. rewrite Hd, Z.eqb_refl. cbn [negb].
  assert (open_file false (lock_path base n) k = open_file true (lock_path base n) k) as ->
    by (unfold open_file; by rewrite Hi).
  destruct (open_file true (lock_path base n) k) as [[probe k1]|] eqn:Ho.
  2:{ unfold open_file in Ho. rewrite decide_False in Ho by done. by rewrite Hi in Ho. }
  destruct (try_lock base n k probe k1 Hk Ho) as (k2 & -> & _ & _ & _ & _ & _ & _ & Hkc & Hhc & _ & _).
  rewrite (holds_is_locked _ _ _ Hh). cbn [negb]. exists (set_cloexec fd (close probe k2)).
  destruct (set_cloexec_ok fd (close probe k2) Hkc) as [? Hh']. split_and!; [done..| |].
  - intros q f H'. by apply Hh', Hhc.
  - cbn. set_solver.
Qed.

Lemma adopt_unopenable base n fd k :
  kernel_ok k -> holds (lock_path base n) fd k -> lock_path base n ∈ unopenable k ->
  adopt base n fd k = (inl (OpenFailed (lock_path base n)), close fd k).
Proof.
  intros Hk Hh Hu. pose proof Hh as (i & o & Hi & Hf & Hl). pose proof (ok_locks _ Hk _ _ Hl) as Hd.
  destruct (ok_fds _ Hk _ _ Hf) as (_ & Hpos & _). unfold adopt. destruct (Z.ltb_spec fd 0); [lia|].
  rewrite Hi. unfold fd_inode. rewrite Hf. cbn [mbind option_bind]. rewrite Hd, Z.eqb_refl. cbn [negb].
  unfold open_file. by rewrite decide_True.
Qed.

(** ** Every process that allocates, hands over, adopts and drops *)

(** The kernel and the descriptors that stand for a claim: those of leases and
    those on their way to a keeper. *)
Record Displays := mkDisplays { kernel : Kernel; claims : list (Z * Z) }.

Definition without (fd : Z) (claims : list (Z * Z)) : list (Z * Z) := filter (fun c => c.2 <> fd) claims.

Inductive display_step (base : text) : Displays -> Displays -> Prop :=
  | step_allocate range served lease k k' cs :
      Forall is_u16 range -> allocate_with base range served k = (inr lease, k') ->
      display_step base (mkDisplays k cs) (mkDisplays k' ((number lease, lock_fd lease) :: cs))
  | step_no_display range served e k k' cs :
      allocate_with base range served k = (inl e, k') -> display_step base (mkDisplays k cs) (mkDisplays k' cs)
  | step_probe n free k k' cs :
      lock_path base n ∉ unopenable k -> lock_is_free base n k = (free, k') ->
      display_step base (mkDisplays k cs) (mkDisplays k' cs)
  | step_inherit n fd handed fd' k k1 k' cs :
      (n, fd) ∈ cs -> into_handoff_fd (mkLease n base fd) k = (handed, k1) -> inherit handed k1 = Some (fd', k') ->
      display_step base (mkDisplays k cs) (mkDisplays k' ((n, fd') :: cs))
  | step_adopt n fd lease k k' cs :
      (n, fd) ∈ cs -> adopt base n fd k = (inr lease, k') ->
      display_step base (mkDisplays k cs) (mkDisplays k' cs)
  | step_adopt_fails n fd e k k' cs :
      (n, fd) ∈ cs -> adopt base n fd k = (inl e, k') ->
      display_step base (mkDisplays k cs) (mkDisplays k' (without fd cs))
  | step_owner n fd user write chmod k cs :
      (n, fd) ∈ cs -> display_step base (mkDisplays k cs) (mkDisplays (record_owner user write chmod (mkLease n base fd) k).2 cs)
  | step_drop n fd k cs :
      (n, fd) ∈ cs -> display_step base (mkDisplays k cs) (mkDisplays (drop_lease (mkLease n base fd) k) (without fd cs)).

(** Nothing is open and no number is claimed at the start. *)
Definition fresh_displays (unopenable : gset text) : Displays := mkDisplays (mkKernel ∅ ∅ ∅ ∅ ∅ unopenable ∅ 0) [].

Inductive displays_reach (base : text) (unopenable : gset text) : Displays -> Prop :=
  | reach_fresh : displays_reach base unopenable (fresh_displays unopenable)
  | reach_step s s' : displays_reach base unopenable s -> display_step base s s' -> displays_reach base unopenable s'.

Definition claims_hold (base : text) (s : Displays) : Prop :=
  kernel_ok (kernel s) /\ Forall (fun c => is_u16 c.1 /\ holds (lock_path base c.1) c.2 (kernel s)) (claims s).

Lemma claims_mono base (cs : list (Z * Z)) k k' :
  (forall q fd, holds q fd k -> holds q fd k') ->
  Forall (fun c => is_u16 c.1 /\ holds (lock_path base c.1) c.2 k) cs ->
  Forall (fun c => is_u16 c.1 /\ holds (lock_path base c.1) c.2 k') cs.
Proof. intros H Hcs. eapply Forall_impl; [done|]. intros c [? ?]. split; [done|]. by apply H. Qed.

Lemma claims_without base fd (cs : list (Z * Z)) k :
  Forall (fun c => is_u16 c.1 /\ holds (lock_path base c.1) c.2 k) cs ->
  Forall (fun c => is_u16 c.1 /\ holds (lock_path base c.1) c.2 (close fd k)) (without fd cs).
Proof.
  intros Hcs. apply Forall_forall. intros c [Hne Hin]%list_elem_of_filter. rewrite Forall_forall in Hcs.
  destruct (Hcs _ Hin) as [? ?]. split; [done|]. by apply close_keeps.
Qed.

Lemma same_files k ow :
  kernel_ok k -> let k' := mkKernel (inodes k) (fds k) (descriptions k) (locks k) (cloexec k) (unopenable k) ow (next k) in
  kernel_ok k' /\ (forall q fd, holds q fd k -> holds q fd k').
Proof. intros [H1 H2 H3 H4 H5 H6]. by split; [split|]. Qed.

Lemma display_step_holds base s s' : display_step base s s' -> claims_hold base s -> claims_hold base s'.
Proof.
  intros Hs [Hk Hc]. destruct Hs as [range served lease k k' cs Hr E|range served e k k' cs E|n free k k' cs Hu E|
    n fd handed fd' k k1 k' cs Hin [= <- <-] E|n fd lease k k' cs Hin E|n fd e k k' cs Hin E|n fd user write chmod k cs Hin|n fd k cs Hin]; cbn [kernel claims] in *;
    unfold claims_hold; cbn [kernel claims].
  - destruct (allocate_spec _ _ _ _ _ _ Hk E) as (Hk' & Hh & before & after & Hrange & _ & _ & _ & Hhold). split; [done|].
    constructor; [|by eapply claims_mono]. cbn. split; [|done]. rewrite Hrange in Hr. apply Forall_app in Hr as [_ Hr].
    by apply Forall_cons in Hr as [? _].
  - destruct (allocate_spec _ _ _ _ _ _ Hk E) as (Hk' & Hh & _). split; [done|by eapply claims_mono].
  - pose proof (lock_is_free_spec base n k Hk Hu) as H. rewrite E in H. destruct H as (_ & ? & ? & _).
    split; [done|by eapply claims_mono].
  - destruct (inherit_spec _ _ _ _ Hk E) as (Hk' & Hh & Hnew & _). split; [done|]. constructor; [|by eapply claims_mono].
    rewrite Forall_forall in Hc. destruct (Hc _ Hin). cbn. split; [done|by apply Hnew].
  - pose proof Hc as Hc'. rewrite Forall_forall in Hc'. destruct (Hc' _ Hin) as [_ Hh]. cbn in Hh.
    destruct (decide (lock_path base n ∈ unopenable k)) as [Hu|Hu].
    + by rewrite (adopt_unopenable base n fd k Hk Hh Hu) in E.
    + destruct (adopt_claim base n fd k Hk Hh Hu) as (k'' & E' & ? & ? & _). rewrite E in E'. injection E' as -> ->.
      split; [done|by eapply claims_mono].
  - pose proof Hc as Hc'. rewrite Forall_forall in Hc'. destruct (Hc' _ Hin) as [_ Hh]. cbn in Hh.
    destruct (decide (lock_path base n ∈ unopenable k)) as [Hu|Hu].
    + rewrite (adopt_unopenable base n fd k Hk Hh Hu) in E. injection E as <- <-.
      split; [by apply close_ok|by apply claims_without].
    + destruct (adopt_claim base n fd k Hk Hh Hu) as (k'' & E' & _). by rewrite E in E'.
  - unfold record_owner. cbn [snd lease_base number]. set (owners' := match _ with Some _ => _ | None => _ end).
    destruct (same_files k owners' Hk) as [? ?]. split; [done|by eapply claims_mono].
  - destruct (same_files k (delete (owner_path base n) (owners k)) Hk) as [? ?]. unfold drop_lease. cbn [lease_base number lock_fd].
    split; [by apply close_ok|]. apply claims_without. by eapply claims_mono.
Qed.

Lemma displays_reach_holds base u s : displays_reach base u s -> claims_hold base s.
Proof.
  induction 1 as [|s s' _ IH Hs]; [|by eapply display_step_holds]. split; [|done].
  split; cbn; intros *; rewrite ?lookup_empty; done.
Qed.

(** C24: However the processes allocate, hand over, adopt, probe and drop
    display numbers, every claim holds the lock of its number for as long as
    its descriptor is open, two claims of one number are copies of the same
    one, and an allocation returns the lowest number of its range that nobody
    claims and nothing serves. *)
Theorem display_claims_exclusive base u s range served lease k' :
  displays_reach base u s -> Forall is_u16 range -> allocate_with base range served (kernel s) = (inr lease, k') ->
  (forall n fd, (n, fd) ∈ claims s -> holds (lock_path base n) fd (kernel s) /\ n <> number lease) /\
  (forall n fd fd', (n, fd) ∈ claims s -> (n, fd') ∈ claims s -> fds (kernel s) !! fd = fds (kernel s) !! fd') /\
  holds (lock_path base (number lease)) (lock_fd lease) k' /\ served (number lease) = false /\
  exists before after, range = before ++ number lease :: after /\
    Forall (fun n => is_locked (lock_path base n) (kernel s) || served n = true) before.
Proof.
  intros Hr Hrange E. destruct (displays_reach_holds _ _ _ Hr) as [Hk Hc]. rewrite Forall_forall in Hc.
  destruct (allocate_spec _ _ _ _ _ _ Hk E) as (_ & _ & before & after & Hrg & _ & Hb & Hn & Hh). unfold free_number in *.
  apply andb_prop in Hn as [Hnl Hns]. apply negb_true_iff in Hnl, Hns. split_and!.
  - intros n fd Hin. destruct (Hc _ Hin) as [Hu Hhold]. cbn in *. split; [done|]. intros ->.
    rewrite (holds_is_locked _ _ _ Hhold) in Hnl. done.
  - intros n fd fd' H1 H2. apply Hc in H1 as [_ H1], H2 as [_ H2]. by eapply holds_same.
  - done.
  - done.
  - exists before, after. split; [done|]. eapply Forall_impl; [exact Hb|]. intros m Hm. cbn beta in *.
    destruct (is_locked (lock_path base m) (kernel s)), (served m); done.
Qed.

(** ** The allocator at work *)

Definition display_base : text := lit "/run/linrdp".

(** Two logins of which the first is handed to its keeper. *)
Definition two_displays : option Displays :=
  match allocate_with display_base [10; 11; 12] (fun n => n =? 10) (kernel (fresh_displays ∅)) with
  | (inr l1, k1) =>
      let '(handed, k1) := into_handoff_fd l1 k1 in
      match inherit handed k1 with
      | Some (fd', k2) =>
          match adopt display_base (number l1) fd' k2 with
          | (inr _, k3) => Some (mkDisplays k3 [(number l1, fd'); (number l1, lock_fd l1)])
          | _ => None
          end
      | None => None
      end
  | _ => None
  end.

Lemma two_displays_reach s : two_displays = Some s -> displays_reach display_base ∅ s.
Proof.
  unfold two_displays. destruct (allocate_with _ _ _ _) as [[|l1] k1] eqn:E1; [done|]. cbn [into_handoff_fd].
  destruct (inherit _ _) as [[fd' k2]|] eqn:E2; [|done]. destruct (adopt _ _ _ _) as [[|l2] k3] eqn:E3; [done|].
  intros [= <-]. eapply reach_step; [eapply reach_step; [eapply reach_step; [apply reach_fresh|]|]|].
  - eapply step_allocate; [|done]. repeat constructor; done.
  - eapply (step_inherit _ (number l1) (lock_fd l1)); [constructor|done|done].
  - eapply (step_adopt _ (number l1) fd'); [constructor|done].
Qed.

Lemma display_claims_exclusive_witness :
  match two_displays with
  | Some s =>
      let r := allocate_with display_base [10; 11; 12] (fun n => n =? 10) (kernel s) in
      match r.1 with
      | inr lease => number lease = 12 /\ forall n fd, (n, fd) ∈ claims s -> n <> number lease
      | inl _ => False
      end
  | None => False
  end.
Proof.
  destruct two_displays as [s|] eqn:E; [|by vm_compute in E]. cbv zeta.
  destruct (allocate_with display_base [10; 11; 12] (fun n => n =? 10) (kernel s)) as [r k'] eqn:Ea. cbn [fst].
  pose proof E as Es. vm_compute in Es. injection Es as Es.
  pose proof Ea as Er. rewrite <- Es in Er. vm_compute in Er. injection Er as Er _. subst r. split; [done|].
  intros n fd Hin. eapply (display_claims_exclusive display_base ∅ s [10; 11; 12] (fun n => n =? 10) _ k').
  - by apply two_displays_reach.
  - repeat constructor; done.
  - exact Ea.
  - exact Hin.
Defined.

(** A descriptor of the right file is adopted as a claim while somebody else
    holds the lock: the probe cannot tell whose lock it met. *)
Lemma adopt_accepts_a_foreign_lock :
  match allocate_with display_base [11] (fun _ => false) (kernel (fresh_displays ∅)) with
  | (inr l, k) =>
      match open_file true (lock_path display_base 11) k with
      | Some (fd, k) =>
          fst (adopt display_base 11 fd k) = inr (mkLease 11 display_base fd) /\
          fds k !! fd <> fds k !! lock_fd l /\ locks k !! 0 = fds k !! lock_fd l
      | None => False
      end
  | _ => False
  end.
Proof. vm_compute. split_and!; [reflexivity|discriminate|reflexivity]. Qed.
