(* ===== verification/Gate.v ===== *)
(** The session gate (linrdp session/gate.rs): which display, sound server and
    account a worker process may touch.

    The process-wide statics are the fields of the state; the environment is
    part of it, because binding sets variables that other subsystems read.
    The home directory of an account comes from NSS: [home_of] is a parameter
    of the functions that ask for it. *)

From stdpp Require Import base gmap list.
From S2P Require Import Prelude PduText HostText.

Inductive Binding := Greeter | Session | Compositor.
#[export] Instance Binding_eq_dec : EqDecision Binding.
Proof. solve_decision. Defined.

Record AudioTarget := mkAudioTarget { server : text; cookie : text; audio_runtime_dir : text }.

Record Bound := mkBound {
  kind : Binding;
  user : option text;
  display : text;
  xauthority : text;
  client_size : Z * Z;
  audio : option AudioTarget;
  runtime_dir : text;
}.

Record ConsoleScreen := mkConsoleScreen { screen_display : text; screen_xauthority : option text }.

Record Gate := mkGate {
  armed : bool;
  bound : option Bound;
  generation : Z;
  console : option ConsoleScreen;
  console_user : option text;
  env : gmap text text;
}.

Inductive GateError :=
  | AlreadyBound (existing wanted : Bound)
  | ThroughCompositor
  | NoSessionBound
  | NoClipboardSession
  | NoX11Clipboard.

Definition DISPLAY : text := lit "DISPLAY".
Definition XAUTHORITY : text := lit "XAUTHORITY".
Definition XDG_RUNTIME_DIR : text := lit "XDG_RUNTIME_DIR".
Definition PULSE_COOKIE : text := lit "PULSE_COOKIE".

Definition display_number_of (name : text) : option Z :=
  rest ← strip_prefix (lit ":") name; parse_u16 (split_first 46 rest).

(** ** Sound *)

Definition AudioTarget_new (runtime_dir home : text) : AudioTarget :=
  mkAudioTarget (lit "unix:" ++ runtime_dir ++ lit "/pulse/native")
    (path_join (path_join (path_join home (lit ".config")) (lit "pulse")) (lit "cookie"))
    runtime_dir.

Definition audio_socket (a : AudioTarget) : text :=
  path_join (path_join (audio_runtime_dir a) (lit "pulse")) (lit "native").

Definition audio_is_root (a : AudioTarget) : bool := bool_decide (audio_runtime_dir a = lit "/run/user/0").

Definition audio_mic_fifo (a : AudioTarget) : text :=
  path_join (path_join (audio_runtime_dir a) (lit "linrdp")) (lit "mic.fifo").

(** ** Binding *)

Definition arm (g : Gate) : Gate := mkGate true (bound g) (generation g) (console g) (console_user g) (env g).
Definition is_armed (g : Gate) : bool := armed g.

Definition set_console (display : text) (xauthority : option text) (g : Gate) : Gate :=
  mkGate (armed g) (bound g) (generation g) (Some (mkConsoleScreen display xauthority)) (console_user g) (env g).

Definition set_console_user (user : text) (g : Gate) : Gate :=
  mkGate (armed g) (bound g) (generation g) (console g) (Some user) (env g).

Definition set_env (f : gmap text text -> gmap text text) (g : Gate) : Gate :=
  mkGate (armed g) (bound g) (generation g) (console g) (console_user g) (f (env g)).

(** The binding decision: the cell afterwards, or the refusal. *)
Definition bind_into (cell : option Bound) (wanted : Bound) : GateError + option Bound :=
  match cell with
  | None => inr (Some wanted)
  | Some existing =>
      if bool_decide (display existing = display wanted) && bool_decide (kind existing = kind wanted) then inr (Some wanted)
      else if bool_decide (kind existing = Greeter) && (bool_decide (kind wanted = Session) || bool_decide (kind wanted = Compositor))
      then inr (Some wanted)
      else inl (AlreadyBound existing wanted)
  end.

(** The end of both binders: the decision and the new generation. *)
Definition commit (wanted : Bound) (g : Gate) : option GateError * Gate :=
  match bind_into (bound g) wanted with
  | inl e => (Some e, g)
  | inr cell => (None, mkGate (armed g) cell (wadd64 (generation g) 1) (console g) (console_user g) (env g))
  end.

Definition set_pulse_cookie (a : option AudioTarget) (e : gmap text text) : gmap text text :=
  match a with Some audio => <[PULSE_COOKIE := cookie audio]> e | None => e end.

Definition bind_kind (k : Binding) (u : option text) (display : Z) (xauth rd : text) (size : Z * Z)
    (a : option AudioTarget) (g : Gate) : option GateError * Gate :=
  let wanted := mkBound k u (lit ":" ++ decimal display) xauth size a rd in
  let g := set_env (fun e =>
    set_pulse_cookie a (<[XDG_RUNTIME_DIR := rd]> (<[XAUTHORITY := xauth]> (<[DISPLAY := lit ":" ++ decimal display]> e)))) g in
  commit wanted g.

Section gate.
Context (home_of : text -> option text).

Definition audio_for (user rd : text) : option AudioTarget := AudioTarget_new rd <$> home_of user.

Definition bind (user : text) (display : Z) (xauth rd : text) (size : Z * Z) (g : Gate) : option GateError * Gate :=
  let audio := audio_for user rd in
  bind_kind Session (Some user) display xauth rd size audio g.

Definition bind_compositor (desktop user rd : text) (size : Z * Z) (g : Gate) : option GateError * Gate :=
  let audio := audio_for user rd in
  let wanted := mkBound Compositor (Some user) (desktop ++ lit ":" ++ user) [] size audio rd in
  let g := set_env (fun e => set_pulse_cookie audio (<[XDG_RUNTIME_DIR := rd]> (delete DISPLAY e))) g in
  commit wanted g.

Definition bind_greeter (display : Z) (xauth rd : text) (size : Z * Z) (g : Gate) : option GateError * Gate :=
  bind_kind Greeter None display xauth rd size None g.

(** ** What the worker asks *)

Definition session_user (g : Gate) : option text :=
  match bound g ≫= user with
  | Some u => Some u
  | None => console_user g
  end.

Definition display_name (g : Gate) : GateError + text :=
  if negb (is_armed g) then
    match console g with
    | Some c => inr (screen_display c)
    | None => inr (default (lit ":99") (env g !! DISPLAY))
    end
  else
    match bound g with
    | Some b => if bool_decide (kind b = Compositor) then inl ThroughCompositor else inr (display b)
    | None => inl NoSessionBound
    end.

Definition clipboard_target (g : Gate) : GateError + (text * text) :=
  if is_armed g then
    match bound g with
    | None => inl NoClipboardSession
    | Some b => if bool_decide (kind b = Compositor) then inl NoX11Clipboard else inr (display b, xauthority b)
    end
  else
    match console g with
    | Some c => inr (screen_display c, default [] (screen_xauthority c))
    | None =>
        match display_name g with
        | inl e => inl e
        | inr d => inr (d, default [] (env g !! XAUTHORITY))
        end
    end.

Definition bound_display_number (g : Gate) : option Z :=
  b ← bound g; parse_u16 (split_first 46 (trim_start_matches 58 (display b))).

Definition gate_xauthority (g : Gate) : option text := xauthority <$> bound g.

(** The part of [connect] before the X connection: the display, and the number
    and cookie file it authenticates with ([None]: as the environment says). *)
Definition connect_target (g : Gate) : GateError + (text * option (Z * text)) :=
  match display_name g with
  | inl e => inl e
  | inr name =>
      let explicit :=
        match bound_display_number g, gate_xauthority g with
        | Some n, Some path => Some (n, path)
        | _, _ =>
            screen ← console g; path ← screen_xauthority screen; n ← display_number_of name; Some (n, path)
        end in
      inr (name, explicit)
  end.

Definition paste_base (g : Gate) : option text :=
  b ← bound g;
  if negb (bool_decide (kind b = Compositor)) || negb (starts_with (lit "/run/host/") (runtime_dir b)) then None
  else
    user ← user b; home ← home_of user;
    Some (path_join (path_join home (lit ".cache")) (lit "linrdp")).

Definition gate_client_size (g : Gate) : option (Z * Z) := client_size <$> bound g.

Definition audio_target (g : Gate) : option AudioTarget :=
  if negb (is_armed g) then None else bound g ≫= audio.

Definition mic_fifo (g : Gate) : option text :=
  if negb (is_armed g) then
    dir ← env g !! XDG_RUNTIME_DIR; Some (path_join (path_join dir (lit "linrdp")) (lit "mic.fifo"))
  else audio_mic_fifo <$> audio_target g.

(** ** The gate as a system *)

Inductive GateCall :=
  | Arm
  | SetConsole (display : text) (xauthority : option text)
  | SetConsoleUser (user : text)
  | Bind (user : text) (display : Z) (xauth rd : text) (size : Z * Z)
  | BindCompositor (desktop user rd : text) (size : Z * Z)
  | BindGreeter (display : Z) (xauth rd : text) (size : Z * Z).

Definition gate_call (c : GateCall) (g : Gate) : option GateError * Gate :=
  match c with
  | Arm => (None, arm g)
  | SetConsole d x => (None, set_console d x g)
  | SetConsoleUser u => (None, set_console_user u g)
  | Bind u d x rd s => bind u d x rd s g
  | BindCompositor k u rd s => bind_compositor k u rd s g
  | BindGreeter d x rd s => bind_greeter d x rd s g
  end.

Definition gate_run (cs : list GateCall) (g : Gate) : Gate := foldl (fun g c => (gate_call c g).2) g cs.

(** What a call asks to be bound to. *)
Definition wants (c : GateCall) : option Bound :=
  match c with
  | Bind u d x rd s => Some (mkBound Session (Some u) (lit ":" ++ decimal d) x s (audio_for u rd) rd)
  | BindCompositor k u rd s => Some (mkBound Compositor (Some u) (k ++ lit ":" ++ u) [] s (audio_for u rd) rd)
  | BindGreeter d x rd s => Some (mkBound Greeter None (lit ":" ++ decimal d) x s None rd)
  | _ => None
  end.

(** A call binds what it wants, if the decision allows, and leaves the binding
    and the generation alone otherwise. *)
Lemma gate_call_spec c g :
  let g' := (gate_call c g).2 in
  (armed g = true -> armed g' = true) /\
  match wants c with
  | None => bound g' = bound g /\ generation g' = generation g
  | Some b =>
      match bind_into (bound g) b with
      | inr cell => cell = Some b /\ bound g' = Some b /\ generation g' = wadd64 (generation g) 1 /\ (gate_call c g).1 = None
      | inl e => bound g' = bound g /\ generation g' = generation g /\ (gate_call c g).1 = Some e
      end
  end.
Proof.
  assert (forall cell w r, bind_into cell w = inr r -> r = Some w) as Hw.
  { intros cell w r. unfold bind_into. destruct cell; [|by intros [= <-]].
    destruct (_ && _); [by intros [= <-]|]. destruct (_ && _); [by intros [= <-]|done]. }
  destruct c; cbn [gate_call wants]; cbv zeta; try done;
    unfold bind, bind_compositor, bind_greeter, bind_kind, commit; cbn [bound set_env];
    (destruct (bind_into _ _) as [e|cell] eqn:E; [done|]); pose proof (Hw _ _ _ E) as ->; done.
Qed.

(** The settled part of a binding: a desktop's kind and display. *)
Definition settled (b b' : Bound) : Prop := kind b' = kind b /\ display b' = display b.

Lemma bind_into_settled b w cell :
  kind b <> Greeter -> bind_into (Some b) w = inr cell -> cell = Some w /\ settled b w.
Proof.
  intros Hk. unfold bind_into.
  destruct (bool_decide_reflect (display b = display w)) as [Ed|], (bool_decide_reflect (kind b = kind w)) as [Ek|]; cbn [andb];
    try (rewrite (bool_decide_false (kind b = Greeter)) by done; cbn [andb]; done).
  intros [= <-]. done.
Qed.

Lemma gate_call_settled c g b :
  bound g = Some b -> kind b <> Greeter -> exists b', bound (gate_call c g).2 = Some b' /\ settled b b'.
Proof.
  intros Hb Hk. pose proof (gate_call_spec c g) as H. cbv zeta in H. destruct H as [_ H].
  destruct (wants c) as [w|]; [|destruct H as [-> _]; by exists b].
  rewrite Hb in H. destruct (bind_into (Some b) w) as [e|cell] eqn:E.
  - destruct H as (-> & _). by exists b.
  - destruct H as (_ & -> & _). apply bind_into_settled in E as [_ Hs]; [|done]. by exists w.
Qed.

Lemma gate_run_settled cs g b :
  bound g = Some b -> kind b <> Greeter -> armed g = true ->
  exists b', bound (gate_run cs g) = Some b' /\ settled b b' /\ armed (gate_run cs g) = true.
Proof.
  revert g b. induction cs as [|c cs IH]; intros g b Hb Hk Ha; [by exists b|].
  destruct (gate_call_settled c g b Hb Hk) as (b1 & Hb1 & [Hk1 Hd1]).
  destruct (IH _ b1 Hb1) as (b2 & Hb2 & [Hk2 Hd2] & Ha2); [congruence|by apply gate_call_spec|].
  exists b2. split_and!; [done|split; congruence|done].
Qed.

(** Once an armed worker serves someone's desktop, its display is settled
    for the rest of its life: whatever is called afterwards, [display_name]
    and the display of [clipboard_target] answer exactly as before. *)
Theorem gate_display_settled cs g b :
  armed g = true -> bound g = Some b -> kind b <> Greeter ->
  let g' := gate_run cs g in
  display_name g' = display_name g /\
  (fst <$> match clipboard_target g' with inr t => Some t | inl _ => None end) =
  (fst <$> match clipboard_target g with inr t => Some t | inl _ => None end).
Proof.
  intros Ha Hb Hk g'. destruct (gate_run_settled cs g b Hb Hk Ha) as (b' & Hb' & [Hk' Hd'] & Ha'). fold g' in Hb', Ha'.
  unfold display_name, clipboard_target, is_armed. rewrite Ha, Ha', Hb, Hb', Hk', Hd'. cbn [negb].
  by destruct (bool_decide (kind b = Compositor)).
Qed.

(** The binding of a run is what one of its calls wanted. *)
Lemma gate_run_bound cs g b :
  bound (gate_run cs g) = Some b -> bound g = Some b \/ exists c, c ∈ cs /\ wants c = Some b.
Proof.
  revert g. induction cs as [|c cs IH]; intros g; [by left|]. cbn [gate_run foldl]. fold (gate_run cs (gate_call c g).2).
  intros [H|(c' & Hin & Hw)]%IH; [|right; exists c'; split; [set_solver|done]].
  pose proof (gate_call_spec c g) as Hs. cbv zeta in Hs. destruct Hs as [_ Hs]. destruct (wants c) as [w|] eqn:Ew.
  - destruct (bind_into (bound g) w) as [e|cell].
    + destruct Hs as (Hs & _). left. congruence.
    + destruct Hs as (_ & Hs & _). right. exists c. split; [set_solver|]. congruence.
  - destruct Hs as (Hs & _). left. congruence.
Qed.

(** A worker as it starts: nothing bound, whatever the environment says. *)
Definition fresh_gate (e : gmap text text) : Gate := mkGate false None 0 None None e.

(** The account a binding names; the logon screen has none. *)
Definition names_user (cs : list GateCall) (u : text) : Prop :=
  (exists n x rd s, Bind u n x rd s ∈ cs) \/ (exists k rd s, BindCompositor k u rd s ∈ cs).

(** C7: An armed worker reaches only what it was bound to.  A display it is given
    is one that a binding call named for a session or for the logon screen, and
    the clipboard and the X connection get that display with the cookie of that
    same call: none of the three answers anything else, so an unbound worker and
    one served through its compositor get no display at all, and never the
    ambient or the console one.  A sound server, and a microphone, is the one of
    the session's own runtime directory and home, as a call that bound a session
    or a compositor named them, and there is no microphone without that sound
    server.  A paste directory is in the home of an account that a call bound
    through its compositor.  The account is one a binding call named; only a
    worker that serves no account, unbound or at the logon screen, answers the
    console user instead, if it was told of one. *)
Theorem gate_isolation cs e :
  let g := gate_run cs (fresh_gate e) in
  armed g = true ->
  (forall name, display_name g = inr name ->
   exists n xauth, name = lit ":" ++ decimal n /\ clipboard_target g = inr (name, xauth) /\
     (is_u16 n -> connect_target g = inr (name, Some (n, xauth))) /\
     ((exists u rd s, Bind u n xauth rd s ∈ cs /\ session_user g = Some u) \/ (exists rd s, BindGreeter n xauth rd s ∈ cs))) /\
  (forall name xauth, clipboard_target g = inr (name, xauth) -> display_name g = inr name) /\
  (forall name cookie, connect_target g = inr (name, cookie) -> display_name g = inr name) /\
  (forall a, audio_target g = Some a ->
   exists u rd home, session_user g = Some u /\ home_of u = Some home /\ a = AudioTarget_new rd home /\
     mic_fifo g = Some (path_join (path_join rd (lit "linrdp")) (lit "mic.fifo")) /\
     ((exists n x s, Bind u n x rd s ∈ cs) \/ (exists k s, BindCompositor k u rd s ∈ cs))) /\
  (forall fifo, mic_fifo g = Some fifo -> is_Some (audio_target g)) /\
  (forall dir, paste_base g = Some dir ->
   exists k u rd s home, BindCompositor k u rd s ∈ cs /\ session_user g = Some u /\ home_of u = Some home /\
     dir = path_join (path_join home (lit ".cache")) (lit "linrdp")) /\
  (forall u, session_user g = Some u ->
   names_user cs u \/
   console_user g = Some u /\ (bound g = None \/ exists n x rd s b, BindGreeter n x rd s ∈ cs /\ bound g = Some b /\ kind b = Greeter)).
Proof.
  intros g Ha. destruct (bound g) as [b|] eqn:Hb.
  2:{ unfold connect_target, display_name, clipboard_target, mic_fifo, audio_target, paste_base, session_user, is_armed. rewrite Ha, Hb. cbn.
      split_and!; try done. by right; auto. }
  destruct (gate_run_bound cs _ _ Hb) as [Hn|(c & Hin & Hw)]; [done|].
  unfold connect_target, display_name, clipboard_target, mic_fifo, audio_target, paste_base, session_user,
    bound_display_number, gate_xauthority, is_armed.
  rewrite Ha, Hb. cbn [negb mbind option_bind].
  destruct c as [| | |u n x rd s|k u rd s|n x rd s]; try done; cbn [wants] in Hw; apply (inj Some) in Hw; subst b;
    cbn [kind display xauthority user audio runtime_dir].
  - rewrite !bool_decide_false by done. cbn [negb orb]. split_and!; [|by intros ?? [= <- _]..| | |done|].
    + intros name H. apply (inj inr) in H. subst name. exists n, x. split_and!; [done..| |].
      * intros Hu. by rewrite display_number.
      * left. by exists u, rd, s.
    + intros a. unfold audio_for. destruct (home_of u) as [home|] eqn:Eh; [|done]. cbn. intros [= <-].
      exists u, rd, home. split_and!; [done..|]. left. eauto.
    + intros fifo. by destruct (audio_for u rd).
    + intros u' [= <-]. left. left. eauto 10.
  - rewrite bool_decide_true by done. cbn [negb orb]. split_and!; [done..| | | |].
    + intros a. unfold audio_for. destruct (home_of u) as [home|] eqn:Eh; [|done]. cbn. intros [= <-].
      exists u, rd, home. split_and!; [done..|]. right. eauto.
    + intros fifo. by destruct (audio_for u rd).
    + intros dir. destruct (negb _); [done|]. cbn. destruct (home_of u) as [home|] eqn:Eh; [|done]. intros [= <-]. exists k, u, rd, s, home. done.
    + intros u' [= <-]. left. right. eauto 10.
  - rewrite !bool_decide_false by done. cbn [negb orb]. split_and!; [|by intros ?? [= <- _]..|done|done|done|].
    + intros name H. apply (inj inr) in H. subst name. exists n, x. split_and!; [done..| |].
      * intros Hu. by rewrite display_number.
      * right. by exists rd, s.
    + intros u' Hu'. right. split; [exact Hu'|]. right. by eexists _, _, _, _, _.
Qed.

End gate.

(** ** The gate at work *)

Definition homes (u : text) : option text := Some (lit "/home/" ++ u).

(** A worker armed at the logon screen, then bound to alice's desktop. *)
Definition alice_calls : list GateCall :=
  [Arm; SetConsole (lit ":0") None; BindGreeter 90 (lit "/x90") (lit "/run/linrdp") (800, 600);
   Bind (lit "alice") 11 (lit "/x11") (lit "/run/user/1002") (1920, 1080)].
Definition alice_gate : Gate := gate_run homes alice_calls (fresh_gate {[DISPLAY := lit ":0"]}).

Lemma gate_display_settled_witness :
  display_name (gate_run homes [Bind (lit "bob") 12 (lit "/x12") (lit "/run/user/1003") (800, 600)] alice_gate) = inr (lit ":11") /\
  display_name alice_gate = inr (lit ":11").
Proof.
  split; [|vm_compute; reflexivity].
  rewrite (proj1 (gate_display_settled homes [Bind (lit "bob") 12 (lit "/x12") (lit "/run/user/1003") (800, 600)] alice_gate
    (mkBound Session (Some (lit "alice")) (lit ":11") (lit "/x11") (1920, 1080)
      (Some (AudioTarget_new (lit "/run/user/1002") (lit "/home/alice"))) (lit "/run/user/1002"))
    ltac:(vm_compute; reflexivity) ltac:(vm_compute; reflexivity) ltac:(discriminate))).
  vm_compute. reflexivity.
Defined.

Lemma gate_isolation_witness :
  exists n xauth, lit ":11" = lit ":" ++ decimal n /\ clipboard_target alice_gate = inr (lit ":11", xauth) /\
    (is_u16 n -> connect_target alice_gate = inr (lit ":11", Some (n, xauth))) /\
    ((exists u rd s, Bind u n xauth rd s ∈ alice_calls /\ session_user alice_gate = Some u) \/
     (exists rd s, BindGreeter n xauth rd s ∈ alice_calls)).
Proof.
  apply (gate_isolation homes alice_calls {[DISPLAY := lit ":0"]}); vm_compute; reflexivity.
Defined.

(** A refused binding has already changed the environment the later
    subsystems read: the gate still answers alice's display, [DISPLAY] names
    the one that was refused. *)
Lemma refused_bind_moves_environment :
  let r := gate_call homes (Bind (lit "bob") 12 (lit "/x12") (lit "/run/user/1003") (800, 600)) alice_gate in
  is_Some r.1 /\ display_name r.2 = inr (lit ":11") /\ env r.2 !! DISPLAY = Some (lit ":12") /\
  env r.2 !! PULSE_COOKIE = Some (lit "/home/bob/.config/pulse/cookie").
Proof. cbv zeta. split_and!; [by eexists; vm_compute|vm_compute; reflexivity..]. Qed.

(** Another account on the same display is not refused: the session is
    recognised by its display alone, and its account is replaced. *)
Lemma rebind_replaces_the_account :
  let r := gate_call homes (Bind (lit "bob") 11 (lit "/x11") (lit "/run/user/1003") (800, 600)) alice_gate in
  r.1 = None /\ session_user alice_gate = Some (lit "alice") /\ session_user r.2 = Some (lit "bob").
Proof. vm_compute. done. Qed.
