(* ===== verification/Sessions.v ===== *)
(** From a verified account to its desktop (linrdp session/mod.rs,
    session/router.rs, session/keeper_main.rs, session/backends): choosing the
    kind of desktop, finding the user's session or having a keeper start one,
    binding the worker to it and locking it when the client leaves.

    What the worker learns from outside is an argument: whether the account is
    still allowed in ([authorize]), whether an X server answers with a record's
    cookie ([live]) or at all ([served]), what a started keeper leaves in the
    state directory at each poll ([keeper]), and the accounts of the system.
    The lock that makes two logins of one account wait for each other is not
    part of the state: one login runs at a time. *)

From stdpp Require Import base gmap list.
From S2P Require Import Prelude Cursor Codec PduText HostText DisplayAlloc Gate Registry.

(** ** The kinds of desktop *)

Inductive BackendChoice := Auto | X11 | Gnome.
Inductive Serves := OwnSession | Console.
Inductive DesktopBackend := GnomeHeadless | X11Session | GnomeConsole.

#[export] Instance BackendChoice_eq_dec : EqDecision BackendChoice.
Proof. solve_decision. Defined.
#[export] Instance Serves_eq_dec : EqDecision Serves.
Proof. solve_decision. Defined.
#[export] Instance DesktopBackend_eq_dec : EqDecision DesktopBackend.
Proof. solve_decision. Defined.

Definition backend_id (c : DesktopBackend) : text :=
  match c with
  | GnomeHeadless => GNOME_HEADLESS_ID
  | X11Session => X11_ID
  | GnomeConsole => lit "gnome-console"
  end.
Definition serves (c : DesktopBackend) : Serves :=
  match c with GnomeConsole => Console | _ => OwnSession end.
Definition backend_choice (c : DesktopBackend) : option BackendChoice :=
  match c with GnomeHeadless => Some Gnome | X11Session => Some X11 | GnomeConsole => None end.

Definition choice_as_str (c : BackendChoice) : text :=
  match c with Auto => lit "auto" | X11 => lit "x11" | Gnome => lit "gnome" end.
Definition choice_parse (raw : text) : option BackendChoice :=
  find_map (fun c => if bool_decide (choice_as_str c = trim raw) then Some c else None) [Auto; X11; Gnome].

(** [REGISTRY], with and without the [wayland] feature. *)
Definition REGISTRY (wayland : bool) : list DesktopBackend :=
  if wayland then [GnomeHeadless; X11Session; GnomeConsole] else [X11Session].

Definition by_id (wayland : bool) (id : text) : option DesktopBackend :=
  find_map (fun c => if bool_decide (backend_id c = id) then Some c else None) (REGISTRY wayland).

(** Why there is no desktop: the reasons of the cases that were asked. *)
Inductive NoDesktop :=
  | NoConsole (reasons : list text)
  | NoOwnSession (reasons : list text)
  | NotBuilt (choice : BackendChoice)
  | ChoiceRefused (choice : BackendChoice) (reason : text).

(** The first case that can serve the login, or every reason. *)
Fixpoint first_serving {T} (cases : list DesktopBackend) (probe : DesktopBackend -> text + T) :
    list text + DesktopBackend * T :=
  match cases with
  | [] => inl []
  | case :: cases' =>
      match probe case with
      | inr found => inr (case, found)
      | inl reason =>
          match first_serving cases' probe with
          | inr r => inr r
          | inl reasons => inl (reason :: reasons)
          end
      end
  end.

Definition choose {T} (registry : list DesktopBackend) (choice : BackendChoice) (console_requested : bool)
    (probe : DesktopBackend -> text + T) : NoDesktop + DesktopBackend * T :=
  let serving s := filter (fun case => serves case = s) registry in
  if console_requested then
    match first_serving (serving Console) probe with
    | inr r => inr r
    | inl [] => inl (NoConsole [lit "this binary cannot serve the console"])
    | inl reasons => inl (NoConsole reasons)
    end
  else if bool_decide (choice = Auto) then
    match first_serving (serving OwnSession) probe with
    | inr r => inr r
    | inl [] => inl (NoOwnSession [lit "this binary serves no desktop of its own at all"])
    | inl reasons => inl (NoOwnSession reasons)
    end
  else
    match find_map (fun case => if bool_decide (backend_choice case = Some choice) then Some case else None) (serving OwnSession) with
    | None => inl (NotBuilt choice)
    | Some case =>
        match probe case with
        | inr found => inr (case, found)
        | inl reason => inl (ChoiceRefused choice reason)
        end
    end.

Lemma first_serving_spec {T} cases (probe : DesktopBackend -> text + T) case found :
  first_serving cases probe = inr (case, found) ->
  exists before after, cases = before ++ case :: after /\ probe case = inr found /\
    Forall (fun c => exists reason, probe c = inl reason) before.
Proof.
  induction cases as [|c cases IH]; [done|]. cbn. destruct (probe c) as [reason|f] eqn:E.
  - destruct (first_serving cases probe) as [rs|r]; [done|]. intros H.
    destruct (IH H) as (before & after & -> & Hp & Hb). exists (c :: before), after. split_and!; [done..|]. constructor; eauto.
  - intros [= <- <-]. by exists [], cases.
Qed.

(** The console is served only to a client that asks for it and only by
    the console case; an explicit [session.backend] is served by exactly that
    kind or refused; otherwise the first kind of the registry that can serve
    the login serves it. *)
Theorem choose_spec {T} registry choice console_requested (probe : DesktopBackend -> text + T) case found :
  choose registry choice console_requested probe = inr (case, found) ->
  case ∈ registry /\ probe case = inr found /\ serves case = (if console_requested then Console else OwnSession) /\
  (console_requested = false -> choice <> Auto -> backend_choice case = Some choice) /\
  (console_requested = false -> choice = Auto ->
   exists before after, filter (fun c => serves c = OwnSession) registry = before ++ case :: after /\
     Forall (fun c => exists reason, probe c = inl reason) before).
Proof.
  unfold choose. destruct console_requested.
  - destruct (first_serving _ probe) as [[|]|r] eqn:E; [done..|]. intros [= ->].
    destruct (first_serving_spec _ _ _ _ E) as (before & after & Hf & Hp & _).
    assert (case ∈ filter (fun c => serves c = Console) registry) as [Hs Hin]%list_elem_of_filter by (rewrite Hf; set_solver).
    done.
  - destruct (bool_decide_reflect (choice = Auto)) as [->|Hne].
    + destruct (first_serving _ probe) as [[|]|r] eqn:E; [done..|]. intros [= ->].
      destruct (first_serving_spec _ _ _ _ E) as (before & after & Hf & Hp & Hb).
      assert (case ∈ filter (fun c => serves c = OwnSession) registry) as [Hs Hin]%list_elem_of_filter by (rewrite Hf; set_solver).
      split_and!; [done..|]. eauto.
    + destruct (find_map _ _) as [c|] eqn:E; [|done]. destruct (probe c) as [|f] eqn:Ep; [done|]. intros [= <- <-].
      assert (exists l, c ∈ l /\ l = filter (fun case => serves case = OwnSession) registry /\ backend_choice c = Some choice)
        as (l & Hin & -> & Hc).
      { eexists. split_and!; [|done|].
        - clear -E. induction (filter _ registry) as [|x l IH]; [done|]. cbn in E.
          destruct (bool_decide _); [injection E as <-; constructor|]. constructor. by apply IH.
        - clear -E. induction (filter _ registry) as [|x l IH]; [done|]. cbn in E.
          destruct (bool_decide_reflect (backend_choice x = Some choice)); [by injection E as <-|by apply IH]. }
      apply list_elem_of_filter in Hin as [Hs Hin]. split_and!; [done..|]. by intros _ ?.
Qed.

(** ** The worker and its surroundings *)

Record BoundSession := mkBoundSession { bs_display : Z; bs_logind_id : option text }.

Record Worker := mkWorker {
  w_fs : FileSystem;
  w_kernel : Kernel;
  w_gate : Gate;
  w_bound : option BoundSession;
}.

Definition with_fs (fs : FileSystem) (w : Worker) : Worker := mkWorker fs (w_kernel w) (w_gate w) (w_bound w).
Definition with_kernel (k : Kernel) (w : Worker) : Worker := mkWorker (w_fs w) k (w_gate w) (w_bound w).
Definition with_gate (g : Gate) (w : Worker) : Worker := mkWorker (w_fs w) (w_kernel w) g (w_bound w).
Definition with_bound (b : BoundSession) (w : Worker) : Worker := mkWorker (w_fs w) (w_kernel w) (w_gate w) (Some b).

Inductive LoginError :=
  | NotAuthorized
  | NoIdentity
  | NoSuchAccount
  | NoAccountLock
  | NoDisplay (e : AllocError)
  | KeeperFailed
  | KeeperNotReady
  | BelongsTo (owner : text)
  | DidNotSurvive
  | OtherBackend (running : text)
  | GateRefused (e : GateError)
  | UnlockFailed
  | Unserved (e : NoDesktop).

Abbreviation Login_result A := ((LoginError + A) * Worker)%type.

Record Login := mkLogin {
  l_user : text;
  l_password : text;
  l_client_size : Z * Z;
  l_fixed_size : option (Z * Z);
  l_state_dir : text;
  l_range : list Z;
}.

(** What the worker finds around it. *)
Record Surroundings := mkSurroundings {
  authorize : text -> text -> bool;               (* authorize_for_desktop *)
  uid_of : text -> option Z;                      (* lookup_user *)
  account_lock : Z -> bool;                       (* AccountLock::acquire opens and locks the account's file *)
  home_of : text -> option text;
  live : SessionRecord -> bool;                   (* desktop_is_live *)
  served : Z -> bool;                             (* is_served *)
  keeper : text -> Z -> option (list FileSystem); (* a keeper started for an account on a display: what each
                                                     poll of the state directory sees; None: it does not start *)
}.

Section login.
Context (env : Surroundings).

Definition attach_existing (base user : text) (range : list Z) (w : Worker) : option SessionRecord :=
  find base user range (w_fs w).

Definition keeper_is_gone (base : text) (display : Z) (k : Kernel) : bool * Kernel := lock_is_free base display k.

(** [session::forget] removes a record as [registry::forget_record] does. *)
Definition forget (base : text) (display : Z) (fs : FileSystem) : (FsError + unit) * FileSystem :=
  let path := record_path base display in
  match files fs !! path with
  | None => (inr tt, fs)
  | Some _ =>
      if decide (path ∈ refuse_write fs) then (inl (RemoveFailed path), fs)
      else (inr tt, mkFileSystem (delete path (files fs)) (refuse_write fs) (refuse_chmod fs))
  end.

Definition attach_live_with (base user : text) (range : list Z) (live : SessionRecord -> bool) (w : Worker) :
    option SessionRecord * Worker :=
  match attach_existing base user range w with
  | None => (None, w)
  | Some rec =>
      if negb (live rec) then (None, with_fs (forget base (r_display rec) (w_fs w)).2 w)
      else (Some rec, with_kernel (keeper_is_gone base (r_display rec) (w_kernel w)).2 w)
  end.

Definition attach_live (base user : text) (range : list Z) (w : Worker) : option SessionRecord * Worker :=
  attach_live_with base user range (live env) w.

Definition resolve_display_with (base user : text) (range : list Z) (console : bool) (ambient : text)
    (live : SessionRecord -> bool) (w : Worker) : text * Worker :=
  if console then (ambient, w)
  else
    match attach_live_with base user range live w with
    | (Some rec, w) => (lit ":" ++ decimal (r_display rec), w)
    | (None, w) => ([], w)
    end.

(** One look at the state directory per poll, until the deadline. *)
Fixpoint wait_for_record (base : text) (display : Z) (user : text) (polls : list FileSystem) (w : Worker) :
    Login_result SessionRecord :=
  match polls with
  | [] => (inl KeeperNotReady, w)
  | fs :: polls' =>
      let w := with_fs fs w in
      match read_one base display fs with
      | Some rec => if bool_decide (r_user rec = user) then (inr rec, w) else (inl (BelongsTo (r_user rec)), w)
      | None => wait_for_record base display user polls' w
      end
  end.

(** The claim is inherited by the keeper before this process closes its own
    copy. *)
Definition create (base user : text) (range : list Z) (w : Worker) : Login_result SessionRecord :=
  match allocate_with base range (served env) (w_kernel w) with
  | (inl e, k) => (inl (NoDisplay e), with_kernel k w)
  | (inr lease, k) =>
      let display := number lease in
      let '(fd, k) := into_handoff_fd lease k in
      match keeper env user display with
      | None => (inl KeeperFailed, with_kernel (DisplayAlloc.close fd k) w)
      | Some polls =>
          let k := match inherit fd k with Some (_, k) => k | None => k end in
          let w := with_kernel (DisplayAlloc.close fd k) w in
          match wait_for_record base display user polls w with
          | (inl e, w) => (inl e, w)
          | (inr rec, w) => if live env rec then (inr rec, w) else (inl DidNotSurvive, w)
          end
      end
  end.

Definition attach_or_create (base user : text) (range : list Z) (backend : text) (w : Worker) :
    Login_result SessionRecord :=
  match uid_of env user with
  | None => (inl NoSuchAccount, w)
  | Some uid =>
      if account_lock env uid then
        match attach_live base user range w with
        | (Some existing, w) =>
            if bool_decide (r_backend existing = backend) then (inr existing, w)
            else (inl (OtherBackend (r_backend existing)), w)
        | (None, w) => create base user range w
        end
      else (inl NoAccountLock, w)
  end.

(** [session::lock] and [session::unlock]; the signal to logind changes
    nothing here. *)
Definition lock (base : text) (display : Z) (w : Worker) : bool * Worker :=
  let '(r, fs) := set_locked base display true (w_fs w) in
  (match r with Some (inr _) => true | _ => false end, with_fs fs w).
Definition unlock (base : text) (rec : SessionRecord) (w : Worker) : bool * Worker :=
  let '(r, fs) := set_locked base (r_display rec) false (w_fs w) in
  (match r with Some (inr _) => true | _ => false end, with_fs fs w).

(** [x11::bind]; the size the X server is started with is the keeper's. *)
Definition x11_bind (login : Login) (w : Worker) : Login_result unit :=
  match attach_or_create (l_state_dir login) (l_user login) (l_range login) X11_ID w with
  | (inl e, w) => (inl e, w)
  | (inr rec, w) =>
      if negb (bool_decide (r_user rec = l_user login)) then (inl (BelongsTo (r_user rec)), w)
      else
        match bind (home_of env) (r_user rec) (r_display rec) (r_xauthority rec) (r_runtime_dir rec)
          (l_client_size login) (w_gate w) with
        | (Some e, g) => (inl (GateRefused e), with_gate g w)
        | (None, g) =>
            let w := with_gate g w in
            let '(ok, w) := if r_locked rec then unlock (l_state_dir login) rec w else (true, w) in
            if ok then (inr tt, with_bound (mkBoundSession (r_display rec) (r_logind_id rec)) w)
            else (inl UnlockFailed, w)
        end
  end.

Definition Binder := Login -> Worker -> Login_result unit.

(** [bind_to_desktop]: the policy, the choice of the case, the case's binder. *)
Definition bind_to_desktop (wayland : bool) (choice : BackendChoice) (console_requested : bool)
    (probe : DesktopBackend -> text + Binder) (login : Login) (w : Worker) : Login_result unit :=
  if negb (authorize env (l_user login) (l_password login)) then (inl NotAuthorized, w)
  else
    match choose (REGISTRY wayland) choice console_requested probe with
    | inl e => (inl (Unserved e), w)
    | inr (_, bind) => bind login w
    end.

(** [PendingIdentity::take] and [bind_session]. *)
Definition bind_session (wayland : bool) (choice : BackendChoice) (console_requested : bool)
    (probe : DesktopBackend -> text + Binder) (pending : option (text * text)) (size : Z * Z)
    (fixed_size : option (Z * Z)) (base : text) (range : list Z) (w : Worker) : Login_result unit :=
  match pending with
  | None => (inl NoIdentity, w)
  | Some (user, password) =>
      bind_to_desktop wayland choice console_requested probe (mkLogin user password size fixed_size base range) w
  end.

(** [on_disconnected]: the session this worker bound is locked.  (A desktop
    served through its compositor also relocks itself there.) *)
Definition on_disconnected (base : text) (w : Worker) : Worker :=
  match w_bound w with
  | None => w
  | Some b => (lock base (bs_display b) w).2
  end.

(** ** A login reaches its own desktop *)

Lemma set_locked_reads base d b fs rec fs' :
  registry_ok base fs -> is_u16 d -> read_record base d fs = Some rec -> set_locked base d b fs = (Some (inr tt), fs') ->
  read_record base d fs' = Some (with_locked b rec) /\ registry_ok base fs'.
Proof.
  intros Hfs Hd Hr. unfold set_locked. rewrite Hr. destruct (Hfs _ _ Hd Hr) as [Hok Heq].
  destruct (write_record base (with_locked b rec) fs) as [r fs1] eqn:E. intros [= -> <-].
  pose proof (write_record_reads base (with_locked b rec) fs d (with_locked_ok _ _ Hok) Hd) as [Hread _].
  pose proof (write_record_ok base (with_locked b rec) fs (with_locked_ok _ _ Hok) Hfs) as Hok'.
  rewrite E in Hread, Hok'. cbn [snd] in *. split; [|done]. rewrite Hread, decide_True; [done|]. split; [done|].
  unfold write_record in E. destruct (fs_write _ _ fs) eqn:Ew; [|done]. apply fs_write_Some in Ew as (_ & _ & Hw).
  cbn [r_display with_locked] in Hw. by rewrite Heq in Hw.
Qed.

(** What a found or created session is: the user's own, alive, recorded. *)
Definition session_of (base user : text) (range : list Z) (rec : SessionRecord) (w w' : Worker) : Prop :=
  r_user rec = user /\ live env rec = true /\ r_display rec ∈ range /\
  read_record base (r_display rec) (w_fs w') = Some rec /\ registry_ok base (w_fs w') /\
  w_gate w' = w_gate w /\ w_bound w' = w_bound w.

(** The state directories a keeper of this login shows are well-formed. *)
Definition keeper_ok (base user : text) : Prop :=
  forall display polls, keeper env user display = Some polls -> Forall (registry_ok base) polls.

Lemma wait_for_record_spec base display user polls w r w' :
  Forall (registry_ok base) polls -> is_u16 display -> registry_ok base (w_fs w) ->
  wait_for_record base display user polls w = (r, w') ->
  registry_ok base (w_fs w') /\ w_gate w' = w_gate w /\ w_bound w' = w_bound w /\
  forall rec, r = inr rec -> r_user rec = user /\ r_display rec = display /\ read_record base display (w_fs w') = Some rec.
Proof.
  intros Hp Hd. revert w. induction Hp as [|fs polls Hfs _ IH]; intros w Hw; cbn [wait_for_record]; [by intros [= <- <-]|].
  unfold read_one. destruct (read_record base display fs) as [rec|] eqn:E; [|by apply (IH (with_fs fs w))].
  destruct (bool_decide_reflect (r_user rec = user)) as [Hu|]; intros [= <- <-]; [|done].
  split_and!; [done..|]. intros rec' [= <-]. destruct (Hfs _ _ Hd E) as [_ ?]. done.
Qed.

Lemma create_spec base user range w r w' :
  keeper_ok base user -> kernel_ok (w_kernel w) -> registry_ok base (w_fs w) -> Forall is_u16 range ->
  create base user range w = (r, w') ->
  w_gate w' = w_gate w /\ w_bound w' = w_bound w /\ forall rec, r = inr rec -> session_of base user range rec w w'.
Proof.
  intros Hkp Hk Hfs Hr. unfold create. destruct (allocate_with _ _ _ _) as [[e|lease] k] eqn:Ea; [by intros [= <- <-]|].
  destruct (allocate_spec _ _ _ _ _ _ Hk Ea) as (_ & _ & before & after & Hrg & _).
  assert (number lease ∈ range) as Hin by (rewrite Hrg; set_solver).
  assert (is_u16 (number lease)) as Hu by (rewrite Forall_forall in Hr; by apply Hr).
  cbn [into_handoff_fd]. destruct (keeper env user (number lease)) as [polls|] eqn:Ek; [|by intros [= <- <-]]. cbv zeta.
  destruct (wait_for_record _ _ _ _ _) as [r1 w1] eqn:Ew.
  apply wait_for_record_spec in Ew as (Hok & Hg & Hb & Hrec); [|by eapply Hkp|done..].
  destruct r1 as [e|rec]; [by intros [= <- <-]|]. destruct (live env rec) eqn:El; intros [= <- <-]; [|done].
  split_and!; [done..|]. intros rec' [= <-]. destruct (Hrec rec eq_refl) as (? & Hd & ?). unfold session_of. by rewrite Hd.
Qed.

Lemma attach_or_create_spec base user range backend w r w' :
  keeper_ok base user -> kernel_ok (w_kernel w) -> registry_ok base (w_fs w) -> Forall is_u16 range ->
  attach_or_create base user range backend w = (r, w') ->
  w_gate w' = w_gate w /\ w_bound w' = w_bound w /\ forall rec, r = inr rec -> session_of base user range rec w w'.
Proof.
  intros Hkp Hk Hfs Hr. unfold attach_or_create. destruct (uid_of env user) as [uid|]; [|by intros [= <- <-]].
  destruct (account_lock env uid); [|by intros [= <- <-]].
  unfold attach_live, attach_live_with, attach_existing. destruct (find base user range (w_fs w)) as [rec|] eqn:Ef.
  - destruct (find_first _ _ _ _ _ Ef) as (l1 & d & l2 & Hrg & Hread & Hu & _).
    assert (d ∈ range) as Hin by (rewrite Hrg; set_solver).
    assert (is_u16 d) as Hd by (rewrite Forall_forall in Hr; by apply Hr). destruct (Hfs _ _ Hd Hread) as [_ Hdisp].
    destruct (live env rec) eqn:El; cbn [negb].
    + destruct (bool_decide _); intros [= <- <-]; [|done]. split_and!; [done..|]. intros rec' [= <-].
      unfold session_of. by rewrite Hdisp.
    + assert (forall x, forget base x (w_fs w) = forget_record base x (w_fs w)) as Hff by done. rewrite Hff.
      set (w1 := with_fs _ w). assert (registry_ok base (w_fs w1)) as Hfs1.
      { unfold w1. cbn [w_fs with_fs]. rewrite Hdisp. by apply (registry_op_keeps base (ForgetRecord d)). }
      intros Hc. by destruct (create_spec base user range w1 r w' Hkp Hk Hfs1 Hr Hc) as (? & ? & ?).
  - by apply create_spec.
Qed.

Lemma x11_bind_spec login w w' :
  keeper_ok (l_state_dir login) (l_user login) -> kernel_ok (w_kernel w) -> registry_ok (l_state_dir login) (w_fs w) ->
  Forall is_u16 (l_range login) -> x11_bind login w = (inr tt, w') ->
  exists rec, r_user rec = l_user login /\ live env rec = true /\ r_display rec ∈ l_range login /\
    w_bound w' = Some (mkBoundSession (r_display rec) (r_logind_id rec)) /\
    registry_ok (l_state_dir login) (w_fs w') /\
    read_record (l_state_dir login) (r_display rec) (w_fs w') = Some (with_locked false rec) /\
    bind (home_of env) (l_user login) (r_display rec) (r_xauthority rec) (r_runtime_dir rec) (l_client_size login) (w_gate w) =
      (None, w_gate w').
Proof.
  intros Hkp Hk Hfs Hr. unfold x11_bind. destruct (attach_or_create _ _ _ _ _) as [r w1] eqn:Ea.
  destruct (attach_or_create_spec _ _ _ _ _ _ _ Hkp Hk Hfs Hr Ea) as (Hg & Hb & Hrec). destruct r as [e|rec]; [done|].
  destruct (Hrec rec eq_refl) as (Hu & Hl & Hin & Hread & Hfs1 & _). rewrite (bool_decide_true (r_user rec = _)) by done.
  cbn [negb]. rewrite Hg, Hu. destruct (bind _ _ _ _ _ _ _) as [[e|] g] eqn:Eg; [done|].
  assert (is_u16 (r_display rec)) as Hd by (rewrite Forall_forall in Hr; by apply Hr).
  destruct (r_locked rec) eqn:Elk.
  - unfold unlock. cbn [w_fs with_gate].
    destruct (set_locked _ _ _ _) as [[[|[]]|] fs] eqn:Es; [done| |done]. intros [= <-].
    destruct (set_locked_reads _ _ _ _ _ _ Hfs1 Hd Hread Es) as [Hread' Hfs']. exists rec. by split_and!.
  - intros [= <-]. exists rec. split_and!; try done. cbn [w_fs with_bound with_gate]. rewrite Hread. f_equal.
    destruct rec; cbn in *. by subst.
Qed.

Lemma bind_ok_bound h u d x rd s g g' :
  bind h u d x rd s g = (None, g') ->
  bound g' = Some (mkBound Session (Some u) (lit ":" ++ decimal d) x s (audio_for h u rd) rd) /\
  (armed g = true -> armed g' = true).
Proof.
  intros Hg. pose proof (gate_call_spec h (Bind u d x rd s) g) as Hs. cbv zeta in Hs. cbn [gate_call wants] in Hs.
  rewrite Hg in Hs. cbn [fst snd] in Hs. destruct Hs as [Ha Hs].
  destruct (bind_into _ _) as [e|cell]; [by destruct Hs as (_ & _ & ?)|]. by destruct Hs as (_ & Hs & _).
Qed.

(** C8: A login through the X session case ends at the account's own desktop
    or nowhere: when it succeeds the account was authorised, the session the
    worker is bound to is recorded for that very account and answers with its
    cookie, the gate names that session's display and account, the record is
    unlocked - and when the client leaves, the record reads locked again. *)
Theorem login_own_desktop wayland choice req (probe : DesktopBackend -> text + Binder) login w w' :
  choose (REGISTRY wayland) choice req probe = inr (X11Session, x11_bind) ->
  keeper_ok (l_state_dir login) (l_user login) -> kernel_ok (w_kernel w) -> registry_ok (l_state_dir login) (w_fs w) ->
  Forall is_u16 (l_range login) -> armed (w_gate w) = true ->
  bind_to_desktop wayland choice req probe login w = (inr tt, w') ->
  authorize env (l_user login) (l_password login) = true /\
  exists rec, r_user rec = l_user login /\ live env rec = true /\ r_display rec ∈ l_range login /\
    session_user (w_gate w') = Some (l_user login) /\
    Gate.display_name (w_gate w') = inr (lit ":" ++ decimal (r_display rec)) /\
    read_record (l_state_dir login) (r_display rec) (w_fs w') = Some (with_locked false rec) /\
    (writable (l_state_dir login) (r_display rec) (w_fs w') ->
     read_record (l_state_dir login) (r_display rec) (w_fs (on_disconnected (l_state_dir login) w')) = Some (with_locked true rec)).
Proof.
  intros Hch Hkp Hk Hfs Hr Harm. unfold bind_to_desktop. destruct (authorize _ _ _); cbn [negb]; [|done].
  rewrite Hch. intros Hb. split; [done|].
  destruct (x11_bind_spec _ _ _ Hkp Hk Hfs Hr Hb) as (rec & Hu & Hl & Hin & Hbs & Hfs' & Hread & Hg).
  assert (is_u16 (r_display rec)) as Hd by (rewrite Forall_forall in Hr; by apply Hr).
  exists rec. split_and!; [done..| | |done|].
  - apply bind_ok_bound in Hg as [Hg _]. unfold session_user. by rewrite Hg.
  - apply bind_ok_bound in Hg as [Hg Ha]. unfold Gate.display_name, is_armed. by rewrite (Ha Harm), Hg.
  - intros Hw. unfold on_disconnected, lock. rewrite Hbs. cbn [bs_display]. unfold set_locked. rewrite Hread.
    destruct (Hfs' _ _ Hd Hread) as [Hok _].
    destruct (write_record_reads (l_state_dir login) (with_locked true (with_locked false rec)) (w_fs w') (r_display rec)
      (with_locked_ok _ _ Hok) Hd) as [Hrr _].
    destruct (write_record _ _ _) as [r fs]. cbn [snd] in Hrr. cbn [w_fs with_fs snd].
    rewrite Hrr. by rewrite decide_True.
Qed.
End login.

(** ** Logins at work *)

Definition state_dir : text := lit "/run/linrdp".

(** The record a keeper publishes for an account on a display. *)
Definition published (u : text) (d : Z) : SessionRecord :=
  mkSessionRecord u d (lit "/run/user/1002") (lit "/run/user/1002/linrdp/Xauthority") false (Some (lit "c2")) None X11_ID.

Definition dir_with (rec : SessionRecord) : FileSystem := (write_record state_dir rec empty_fs).2.

(** A machine on which a keeper publishes alice's record at the second poll,
    and the first poll sees the directory as it was. *)
Definition machine (before : FileSystem) : Surroundings :=
  mkSurroundings (fun _ _ => true) (fun _ => Some 1002) (fun _ => true) (fun u => Some (lit "/home/" ++ u))
    (fun rec => bool_decide (r_user rec = lit "alice")) (fun _ => false)
    (fun u d => if bool_decide (u = lit "alice") && bool_decide (d = 11) then Some [before; dir_with (published u d)] else None).

Definition idle_worker (fs : FileSystem) : Worker :=
  mkWorker fs (kernel (fresh_displays ∅)) (arm (fresh_gate ∅)) None.

Definition alice_login : Login := mkLogin (lit "alice") (lit "secret") (1920, 1080) None state_dir [11; 12].

Definition x11_only (env : Surroundings) (c : DesktopBackend) : text + Binder :=
  match c with X11Session => inr (x11_bind env) | _ => inl (lit "not here") end.

Lemma published_ok : record_ok (published (lit "alice") 11).
Proof.
  unfold record_ok, published. cbn [r_user r_display r_runtime_dir r_xauthority r_locked r_logind_id r_bus r_backend].
  record_fields.
Qed.

Lemma empty_dir_ok : registry_ok state_dir empty_fs.
Proof. apply registry_ok_empty. intros d. apply lookup_empty. Qed.

Lemma machine_keeper_ok : keeper_ok (machine empty_fs) state_dir (lit "alice").
Proof.
  intros d polls. cbn [keeper machine]. destruct (bool_decide_reflect (d = 11)) as [->|]; [|by rewrite andb_false_r].
  rewrite bool_decide_true by done. cbn [andb]. intros H. apply (inj Some) in H. subst polls.
  constructor; [apply empty_dir_ok|]. constructor; [|done]. apply write_record_ok; [apply published_ok|apply empty_dir_ok].
Qed.

Definition alices_session : Login_result unit :=
  bind_to_desktop (machine empty_fs) true Auto false (x11_only (machine empty_fs)) alice_login (idle_worker empty_fs).

Lemma login_own_desktop_witness :
  let w' := alices_session.2 in
  alices_session.1 = inr tt /\ Gate.display_name (w_gate w') = inr (lit ":11") /\
  exists rec, r_user rec = lit "alice" /\
    (writable state_dir (r_display rec) (w_fs w') ->
     read_record state_dir (r_display rec) (w_fs (on_disconnected state_dir w')) = Some (with_locked true rec)).
Proof.
  cbv zeta. split; [vm_compute; reflexivity|]. split; [vm_compute; reflexivity|].
  assert (bind_to_desktop (machine empty_fs) true Auto false (x11_only (machine empty_fs)) alice_login (idle_worker empty_fs) =
    (inr tt, alices_session.2)) as Hrun.
  { rewrite (surjective_pairing (bind_to_desktop _ _ _ _ _ _ _)). apply (f_equal2 pair); [vm_compute; reflexivity|reflexivity]. }
  destruct (login_own_desktop (machine empty_fs) true Auto false (x11_only (machine empty_fs)) alice_login
    (idle_worker empty_fs) alices_session.2) as (_ & rec & Hu & _ & _ & _ & _ & _ & Hd).
  - reflexivity.
  - apply machine_keeper_ok.
  - apply (displays_reach_holds state_dir ∅ (fresh_displays ∅)). constructor.
  - apply empty_dir_ok.
  - repeat constructor; done.
  - reflexivity.
  - exact Hrun.
  - exists rec. split; [exact Hu|exact Hd].
Defined.

Lemma choose_spec_witness :
  serves X11Session = OwnSession /\
  exists before after, filter (fun c => serves c = OwnSession) (REGISTRY true) = before ++ X11Session :: after /\
    Forall (fun c => exists reason : text, x11_only (machine empty_fs) c = inl reason) before.
Proof.
  destruct (choose_spec (REGISTRY true) Auto false (x11_only (machine empty_fs)) X11Session (x11_bind (machine empty_fs)))
    as (_ & _ & Hs & _ & Ha); [reflexivity|]. split; [exact Hs|]. by apply Ha.
Defined.

(** A record left behind by a session that died with its keeper fails the next
    login that is given its number: the first poll reads the stale record
    before the new keeper has published its own. *)
Lemma stale_record_fails_the_login :
  let left_behind := dir_with (published (lit "bob") 11) in
  fst (bind_to_desktop (machine left_behind) false Auto false (x11_only (machine left_behind)) alice_login
    (idle_worker left_behind)) = inl (BelongsTo (lit "bob")).
Proof. vm_compute. reflexivity. Qed.
