(* ===== verification/X11Input.v ===== *)
(** Input on X11 desktops: linrdp's XTEST handler (linrdp input.rs), the
    selector that connects it to the desktop the gate names (main.rs,
    [AnyInput]), the gate's connect (session/gate.rs) and the cookie files it
    authenticates with (session/xauth.rs).

    X servers, their sockets and files and the clock are a parameter class:
    nothing is assumed of how they answer, only that a connection leads to the
    display it was opened for.  Every request is recorded with the connection it
    went out on. *)

From stdpp Require Import base gmap list.
From S2P Require Import Prelude Cursor Codec Flags PduText HostText Gate Input InputFlow.

Open Scope Z_scope.

(** ** Cookie files *)

Module Xauth.

Definition NAME : list Z := lit "MIT-MAGIC-COOKIE-1".

(** [u16::try_from(n).unwrap_or(0).to_be_bytes()] *)
Definition length_field (n : Z) : list Z := to_be_bytes 2 (if n <? 65536 then n else 0).

Definition xauthority_entry (display : Z) (cookie : list Z) : list Z :=
  let display_text := decimal display in
  to_be_bytes 2 0xFFFF ++ to_be_bytes 2 0 ++ length_field (llen display_text) ++ display_text ++
  length_field (llen NAME) ++ NAME ++ length_field (llen cookie) ++ cookie.

(** The closure [field]: a length and as many bytes, from where [at] stands *)
Definition field (rest : list Z) : option (list Z * list Z) :=
  match rest with
  | a :: b :: rest' =>
      let len := from_be_bytes [a; b] in
      if len <=? llen rest' then Some (take (Z.to_nat len) rest', drop (Z.to_nat len) rest') else None
  | _ => None
  end.

(** The loop of [cookie_for] on what is left of the file; each round reads at
    least ten bytes, so that as many rounds as bytes are enough. *)
Fixpoint cookie_loop (fuel : nat) (wanted : list Z) (rest : list Z) : option (list Z * list Z) :=
  match fuel with
  | O => None
  | S fuel' =>
      if llen rest <? 2 then None
      else
        match field (drop 2 rest) with
        | Some (_address, r1) =>
            match field r1 with
            | Some (number, r2) =>
                match field r2 with
                | Some (name, r3) =>
                    match field r3 with
                    | Some (data, r4) => if bool_decide (number = wanted) then Some (name, data) else cookie_loop fuel' wanted r4
                    | None => None
                    end
                | None => None
                end
            | None => None
            end
        | None => None
        end
  end.
Definition cookie_for (raw : list Z) (display : Z) : option (list Z * list Z) :=
  cookie_loop (length raw) (decimal display) raw.

Definition cookie_path (runtime_dir : text) (display : Z) : text :=
  path_join (path_join runtime_dir (lit "linrdp")) (lit "Xauthority-" ++ decimal display).

End Xauth.

(** ** X servers *)

Inductive Request :=
| Fake (ty detail root x y : Z)
| Remap (keycode keysym : Z).

Class X11 := {
  Conn : Type;
  Stream : Type;
  (** the X servers, the file system and the clock *)
  XWorld : Type;
  conn_display : Conn -> text;
  stream_display : Stream -> text;
  (** [Instant::now()] *)
  x_now : XWorld -> Z * XWorld;
  (** [RustConnection::connect(Some(name))]: the connection and its screen *)
  x_connect : text -> XWorld -> option (Conn * Z) * XWorld;
  (** [UnixStream::connect(path)] *)
  x_socket : text -> XWorld -> option Stream * XWorld;
  (** [fs::read(path)] *)
  x_read : text -> XWorld -> option (list Z);
  (** [RustConnection::connect_to_stream_with_auth_info(stream, screen, name, data)] *)
  x_setup : Stream -> Z -> list Z * list Z -> XWorld -> option Conn * XWorld;
  (** [conn.setup().roots.get(screen)?.root] *)
  x_root : Conn -> Z -> option Z;
  (** [conn.setup().min_keycode] and [max_keycode] *)
  x_keycodes : Conn -> Z * Z;
  (** [conn.xtest_fake_input(..)] and [conn.change_keyboard_mapping(..)]: whether they were sent *)
  x_request : Conn -> Request -> XWorld -> bool * XWorld;
  (** [conn.get_keyboard_mapping(min, count)?.reply()?]: keysyms per keycode and the keysyms *)
  x_mapping : Conn -> Z -> Z -> XWorld -> option (Z * list Z) * XWorld;
  x_sync : Conn -> XWorld -> XWorld;
  x_flush : Conn -> XWorld -> XWorld;
  x_connect_display name w c s w' : x_connect name w = (Some (c, s), w') -> conn_display c = name;
  x_socket_display n w s w' : x_socket (lit "/tmp/.X11-unix/X" ++ decimal n) w = (Some s, w') -> stream_display s = lit ":" ++ decimal n;
  x_setup_display s n a w c w' : x_setup s n a w = (Some c, w') -> conn_display c = stream_display s;
}.

(** [name.split('.').nth(1)] *)
Fixpoint after_dot (s : text) : option text :=
  match s with [] => None | c :: s' => if c =? 46 then Some (split_first 46 s') else after_dot s' end.
(** [s.parse::<usize>().ok()] *)
Definition parse_usize (s : text) : option Z :=
  let digits := match s with 43 :: s' => s' | _ => s end in
  match digits with
  | [] => None
  | _ => if forallb is_digit digits && (digits_value digits <=? U64_MAX) then Some (digits_value digits) else None
  end.

(** XTEST event types and the lock keys *)
Definition FAKE_KEY_PRESS : Z := 2.
Definition FAKE_KEY_RELEASE : Z := 3.
Definition FAKE_BUTTON_PRESS : Z := 4.
Definition FAKE_BUTTON_RELEASE : Z := 5.
Definition FAKE_MOTION : Z := 6.
Definition KEYCODE_CAPS_LOCK : Z := 66.
Definition KEYCODE_NUM_LOCK : Z := 77.
Definition KEYCODE_SCROLL_LOCK : Z := 78.

(** [u8::try_from(n).ok()] *)
Definition try_u8 (n : Z) : option Z := if n <? 256 then Some n else None.
Definition keycode_for (code : Z) (extended : bool) : option Z :=
  if negb extended then try_u8 (code + 8)
  else
    match code with
    | 0x1C => Some 104 | 0x1D => Some 105 | 0x35 => Some 106 | 0x37 => Some 107 | 0x38 => Some 108
    | 0x47 => Some 110 | 0x48 => Some 111 | 0x49 => Some 112 | 0x4B => Some 113 | 0x4D => Some 114
    | 0x4F => Some 115 | 0x50 => Some 116 | 0x51 => Some 117 | 0x52 => Some 118 | 0x53 => Some 119
    | 0x5B => Some 133 | 0x5C => Some 134 | 0x5D => Some 135
    | _ => try_u8 (code + 8 + 128)
    end.

Definition clamp_i16 (v : Z) : Z := Z.max (-32768) (Z.min v 32767).
Definition relative_motion (dx dy : Z) : Z * Z * Z := (1, clamp_i16 dx, clamp_i16 dy).

(** ** The handler *)

Section handler.
Context {X : X11} {BF : Bitflags}.

(** What happened on the X side, and what was sent there *)
Record Sent := mkSent { to : Conn; request : Request; accepted : bool }.
Record Machine := mkMachine { x_world : XWorld; sent : list Sent }.

Record X11InputHandler := mkX11 {
  conn : Conn;
  root : Z;
  unicode_keycode : option Z;
  locks : Z;
  pressed_keys : gset Z;
  last_reconnect_attempt : option Z;
}.

(** Methods on [&mut self] *)
Definition On (A : Type) : Type := X11InputHandler * Machine -> A * (X11InputHandler * Machine).
#[export] Instance On_ret : MRet On := fun A a s => (a, s).
#[export] Instance On_bind : MBind On := fun A B f m s => let '(a, s') := m s in f a s'.
Definition self {A} (f : X11InputHandler -> A) : On A := fun s => (f s.1, s).
Definition modify (f : X11InputHandler -> X11InputHandler) : On unit := fun s => (tt, (f s.1, s.2)).
Definition world {A} (f : XWorld -> A * XWorld) : On A :=
  fun s => let '(a, w) := f (x_world s.2) in (a, (s.1, mkMachine w (sent s.2))).

Definition set_keycode (k : option Z) (h : X11InputHandler) : X11InputHandler :=
  mkX11 (conn h) (root h) k (locks h) (pressed_keys h) (last_reconnect_attempt h).
Definition set_locks (l : Z) (h : X11InputHandler) : X11InputHandler :=
  mkX11 (conn h) (root h) (unicode_keycode h) l (pressed_keys h) (last_reconnect_attempt h).
Definition set_pressed (f : gset Z -> gset Z) (h : X11InputHandler) : X11InputHandler :=
  mkX11 (conn h) (root h) (unicode_keycode h) (locks h) (f (pressed_keys h)) (last_reconnect_attempt h).
Definition set_attempt (t : option Z) (h : X11InputHandler) : X11InputHandler :=
  mkX11 (conn h) (root h) (unicode_keycode h) (locks h) (pressed_keys h) t.
(** [self.root = ..; self.conn = ..; self.unicode_keycode = None] *)
Definition set_conn (c : Conn) (r : Z) (h : X11InputHandler) : X11InputHandler :=
  mkX11 c r None (locks h) (pressed_keys h) (last_reconnect_attempt h).

(** A request on the handler's connection *)
Definition send (r : Request) : On bool := fun '(h, m) =>
  let '(ok, w) := x_request (conn h) r (x_world m) in (ok, (h, mkMachine w (sent m ++ [mkSent (conn h) r ok]))).
Definition xtest_fake_input (ty detail x y : Z) : On bool := r ← self root; send (Fake ty detail r x y).

Definition release_all_keys : On unit :=
  _ ← xtest_fake_input FAKE_KEY_PRESS 0 0 0;
  _ ← xtest_fake_input FAKE_BUTTON_PRESS 0 0 0;
  modify (set_pressed (fun _ => ∅)).

(** The [u8] arithmetic wraps, as in a release build; a debug build would
    panic on a server with keycodes from 0 to 255. *)
Definition find_free_keycode : On (option Z) :=
  c ← self conn;
  let '(min, max) := x_keycodes c in
  let count := (max - min + 1) mod 256 in
  reply ← world (x_mapping c min count);
  mret (
    match reply with
    | None => None
    | Some (keysyms_per_keycode, keysyms) =>
        let per_keycode := Z.max keysyms_per_keycode 1 in
        find_map (fun '(i, chunk) => if forallb (fun sym => sym =? 0) chunk then Some ((min + Z.of_nat i mod 256) mod 256) else None)
          (imap pair (chunks (Z.to_nat per_keycode) keysyms))
    end).

Section with_gate.
Context (g : Gate).

Definition reconnect : On bool :=
  last ← self last_reconnect_attempt;
  early ← match last with
          | Some last => now ← world x_now; mret (Z.max 0 (now - last) <? 1000000000)
          | None => mret false
          end;
  if early : bool then mret false
  else
    now ← world x_now;
    _ ← modify (set_attempt (Some now));
    match display_name g with
    | inl _ => mret false
    | inr name =>
        r ← world (x_connect name);
        match r with
        | Some (c, screen_num) =>
            match x_root c screen_num with
            | None => mret false
            | Some r => _ ← modify (set_conn c r); _ ← release_all_keys; mret true
            end
        | None => mret false
        end
    end.

(** The body of the four [fake_*] methods: send, and after a failure once more
    if the connection could be re-established *)
Definition fake (ty detail x y : Z) : On unit :=
  ok ← xtest_fake_input ty detail x y;
  if ok : bool then mret tt
  else
    again ← reconnect;
    if again : bool then _ ← xtest_fake_input ty detail x y; mret tt else mret tt.

Definition fake_key (keycode : Z) (pressed : bool) : On unit := fake (if pressed then FAKE_KEY_PRESS else FAKE_KEY_RELEASE) keycode 0 0.
Definition fake_button (button : Z) (pressed : bool) : On unit :=
  fake (if pressed then FAKE_BUTTON_PRESS else FAKE_BUTTON_RELEASE) button 0 0.
Definition fake_relative_motion (dx dy : Z) : On unit :=
  let '(detail, mx, my) := relative_motion dx dy in fake FAKE_MOTION detail mx my.
(** [i16::try_from(x).unwrap_or(i16::MAX)] *)
Definition to_i16 (x : Z) : Z := if x <? 32768 then x else 32767.
Definition fake_motion (x y : Z) : On unit := fake FAKE_MOTION 0 (to_i16 x) (to_i16 y).

Definition send_unicode (code : Z) : On unit :=
  if negb (is_scalar code) then mret tt
  else
    let keysym := if (0x20 <=? code) && (code <=? 0x7e) then code else Z.lor 0x01000000 code in
    k ← self unicode_keycode;
    _ ← match k with
        | Some _ => mret tt
        | None => free ← find_free_keycode; modify (set_keycode free)
        end;
    k ← self unicode_keycode;
    match k with
    | None => mret tt
    | Some keycode =>
        ok ← send (Remap keycode keysym);
        if ok : bool then
          c ← self conn;
          _ ← world (fun w => (tt, x_sync c w));
          _ ← fake_key keycode true;
          fake_key keycode false
        else mret tt
    end.

(** One of the toggles of [synchronize]: desired and current state, the key, the flag *)
Definition toggle_lock '(desired, current, keycode, flag) : On unit :=
  if Bool.eqb desired current then mret tt
  else
    _ ← fake_key keycode true;
    _ ← fake_key keycode false;
    modify (fun h => set_locks (symmetric_difference (locks h) flag) h).
Definition synchronize (want : Z) : On unit :=
  _ ← release_all_keys;
  l ← self locks;
  let toggle flag keycode := (contains want flag, contains l flag, keycode, flag) in
  _ ← toggle_lock (toggle SynchronizeFlags.CAPS_LOCK KEYCODE_CAPS_LOCK);
  _ ← toggle_lock (toggle SynchronizeFlags.NUM_LOCK KEYCODE_NUM_LOCK);
  toggle_lock (toggle SynchronizeFlags.SCROLL_LOCK KEYCODE_SCROLL_LOCK).

Definition x_button (b : Handler.MouseButton) : Z :=
  match b with Handler.Left => 1 | Handler.Middle => 2 | Handler.Right => 3 | _ => 0 end.
Definition press_button (b : Handler.MouseButton) (pressed : bool) : On unit :=
  if x_button b =? 0 then mret tt else fake_button (x_button b) pressed.
(** [for _ in 0..steps] *)
Fixpoint clicks (steps : nat) (b : Z) : On unit :=
  match steps with
  | O => mret tt
  | S n => _ ← fake_button b true; _ ← fake_button b false; clicks n b
  end.
Definition steps_of (value : Z) : nat := Z.to_nat (Z.max (Z.abs value / 120) 1).

Definition x11_keyboard (event : Handler.KeyboardEvent) : On unit :=
  _ ← match event with
      | Handler.Pressed code extended =>
          match keycode_for code extended with
          | Some kc => _ ← modify (set_pressed (fun s => {[kc]} ∪ s)); fake_key kc true
          | None => mret tt
          end
      | Handler.Released code extended =>
          match keycode_for code extended with
          | Some kc => _ ← modify (set_pressed (fun s => s ∖ {[kc]})); fake_key kc false
          | None => mret tt
          end
      | Handler.UnicodePressed code => send_unicode code
      | Handler.UnicodeReleased _ => mret tt
      | Handler.Synchronize flags => synchronize flags
      end;
  c ← self conn;
  world (fun w => (tt, x_flush c w)).

Definition x11_mouse (event : Handler.MouseEvent) : On unit :=
  _ ← match event with
      | Handler.Move x y => fake_motion x y
      | Handler.Button x y button pressed => _ ← fake_motion x y; press_button button pressed
      | Handler.RelMove x y => fake_relative_motion x y
      | Handler.ButtonRel x y button pressed => _ ← fake_relative_motion x y; press_button button pressed
      | Handler.VerticalScroll value => clicks (steps_of value) (if 0 <=? value then 4 else 5)
      | Handler.HorizontalScroll value => clicks (steps_of value) (if 0 <=? value then 7 else 6)
      | Handler.Scroll _ _ => mret tt
      end;
  c ← self conn;
  world (fun w => (tt, x_flush c w)).

(** [gate::connect]: through the session's cookie, or as the environment says *)
Definition gate_connect (w : XWorld) : option (Conn * Z) * XWorld :=
  match connect_target g with
  | inl _ => (None, w)
  | inr (name, None) => x_connect name w
  | inr (name, Some (display, path)) =>
      let screen := default 0 (after_dot name ≫= parse_usize) in
      let '(s, w) := x_socket (lit "/tmp/.X11-unix/X" ++ decimal display) w in
      match s with
      | None => (None, w)
      | Some stream =>
          match x_read path w ≫= (fun raw => Xauth.cookie_for raw display) with
          | None => (None, w)
          | Some auth => let '(c, w) := x_setup stream screen auth w in ((fun c => (c, screen)) <$> c, w)
          end
      end
  end.

(** [X11InputHandler::connect] *)
Definition x11_connect (m : Machine) : option X11InputHandler * Machine :=
  let '(r, w) := gate_connect (x_world m) in
  let m := mkMachine w (sent m) in
  match r with
  | None => (None, m)
  | Some (c, screen_num) =>
      match x_root c screen_num with
      | None => (None, m)
      | Some r => let '(_, (h, m)) := release_all_keys (mkX11 c r None 0 ∅ None, m) in (Some h, m)
      end
  end.

(** ** The selector *)

Context {D : Type} {DH : RdpServerInputHandler D} (active : XWorld -> option D).

Record DeferredInputLog := mkInputLog { log_last : option Z; suppressed : Z }.
Definition log_new : DeferredInputLog := mkInputLog None 0.
Definition report (log : DeferredInputLog) (m : Machine) : DeferredInputLog * Machine :=
  let '(now, w) := x_now (x_world m) in
  let m := mkMachine w (sent m) in
  match log_last log with
  | Some at_ => if Z.max 0 (now - at_) <? 5000000000 then (mkInputLog (Some at_) (wadd64 (suppressed log) 1), m)
               else (mkInputLog (Some now) 0, m)
  | None => (mkInputLog (Some now) 0, m)
  end.

Inductive AnyInput :=
| AnyX11 (handler : X11InputHandler)
| DeferredX11 (slot : option X11InputHandler) (log : DeferredInputLog) (connected_at : Z)
| AnyWayland (handler : D)
| AnyCompositor (handler : D).

(** [x11] and a method called on the handler it returns *)
Definition on_x11 (f : On unit) (a : AnyInput) (m : Machine) : AnyInput * Machine :=
  match a with
  | AnyX11 h => let '(_, (h, m)) := f (h, m) in (AnyX11 h, m)
  | DeferredX11 slot log connected_at =>
      let now := generation g in
      let slot := if connected_at =? now then slot else None in
      match slot with
      | Some h => let '(_, (h, m)) := f (h, m) in (DeferredX11 (Some h) log now, m)
      | None =>
          let '(r, m) := x11_connect m in
          match r with
          | Some h => let '(_, (h, m)) := f (h, m) in (DeferredX11 (Some h) log now, m)
          | None => let '(log, m) := report log m in (DeferredX11 None log now, m)
          end
      end
  | _ => (a, m)
  end.
Definition follow_compositor (a : AnyInput) (m : Machine) : AnyInput :=
  match a with
  | DeferredX11 _ _ _ => match active (x_world m) with Some d => AnyCompositor d | None => a end
  | _ => a
  end.

Definition any_keyboard (event : Handler.KeyboardEvent) (a : AnyInput) (m : Machine) : AnyInput * Machine :=
  match follow_compositor a m with
  | AnyWayland d => (AnyWayland (keyboard event d), m)
  | AnyCompositor d => (AnyCompositor (keyboard event d), m)
  | a => on_x11 (x11_keyboard event) a m
  end.
Definition any_mouse (event : Handler.MouseEvent) (a : AnyInput) (m : Machine) : AnyInput * Machine :=
  match follow_compositor a m with
  | AnyWayland d => (AnyWayland (mouse event d), m)
  | AnyCompositor d => (AnyCompositor (mouse event d), m)
  | a => on_x11 (x11_mouse event) a m
  end.

End with_gate.

End handler.
