(* ===== verification/X11Props.v ===== *)
(** Input reaches the desktop the gate names and no other, with a bounded
    number of well-formed requests per event; lock keys follow the client; cookie
    files give each display its own secret. *)

From stdpp Require Import base gmap list.
From S2P Require Import Prelude Cursor Codec Flags PduText HostText Gate Input InputCodec InputFlow X11Input.

Open Scope Z_scope.

(** ** What a method of the handler sends *)

Section emits.
Context {X : X11} {BF : Bitflags} (g : Gate).

(** The connection leads where the gate points. *)
Definition aims (h : X11InputHandler) : Prop :=
  display_name g = inr (conn_display (conn h)) /\ forall k, unicode_keycode h = Some k -> is_u8 k.
Definition to_gate (s : Sent) : Prop := display_name g = inr (conn_display (to s)).
Definition request_wf (r : Request) : Prop :=
  match r with
  | Fake ty detail _ x y => FAKE_KEY_PRESS <= ty <= FAKE_MOTION /\ is_u8 detail /\ is_i16 x /\ is_i16 y
  | Remap keycode keysym => is_u8 keycode /\ is_u32 keysym
  end.
Definition sent_well (s : Sent) : Prop := to_gate s /\ request_wf (request s).

(** At most [n] requests, all well formed and on a connection to the gate's display. *)
Definition emits {A} (n : Z) (op : On A) (P : A -> Prop) : Prop := forall h m, aims h ->
  match op (h, m) with
  | (a, (h', m')) => aims h' /\ P a /\ exists new, sent m' = sent m ++ new /\ Forall sent_well new /\ llen new <= n
  end.

Lemma emits_ret {A} (a : A) (P : A -> Prop) : P a -> emits 0 (mret a) P.
Proof. intros HP h m Ha. split_and!; [done|done|]. exists []. by rewrite app_nil_r. Qed.
Lemma emits_bind {A B} n1 n2 (op : On A) (k : A -> On B) P Q :
  emits n1 op P -> (forall a, P a -> emits n2 (k a) Q) -> emits (n1 + n2) (op ≫= k) Q.
Proof.
  intros Hop Hk h m Ha. unfold mbind, On_bind. specialize (Hop h m Ha). destruct (op (h, m)) as [a [h1 m1]].
  destruct Hop as (Ha1 & HP & new1 & E1 & Hw1 & Hl1). specialize (Hk a HP h1 m1 Ha1). destruct (k a (h1, m1)) as [b [h2 m2]].
  destruct Hk as (Ha2 & HQ & new2 & E2 & Hw2 & Hl2). split_and!; [done|done|]. exists (new1 ++ new2).
  rewrite E2, E1, app_assoc, llen_app. split_and!; [done|by apply Forall_app|lia].
Qed.
Lemma emits_more {A} n n' (op : On A) (P P' : A -> Prop) : n <= n' -> emits n op P -> (forall a, P a -> P' a) -> emits n' op P'.
Proof.
  intros Hn H HP h m Ha. specialize (H h m Ha). destruct (op (h, m)) as [a [h' m']]. destruct H as (H1 & H2 & new & H3 & H4 & H5).
  split_and!; [done|by apply HP|]. exists new. split_and!; [done|done|lia].
Qed.
Lemma emits_none {A} n (a : A) : 0 <= n -> emits n (mret a) (fun _ => True).
Proof. intros Hn. by apply (emits_more 0 n _ (fun _ => True)); [|apply emits_ret|]. Qed.
(** A step that sends nothing in front of another *)
Lemma emits_after {A B} n (op : On A) (k : A -> On B) P Q : emits 0 op P -> (forall a, P a -> emits n (k a) Q) -> emits n (op ≫= k) Q.
Proof. intros H1 H2. by eapply (emits_bind 0 n). Qed.
Lemma emits_self {A B} n (f : X11InputHandler -> A) (k : A -> On B) Q :
  (forall h, aims h -> emits n (k (f h)) Q) -> emits n (self f ≫= k) Q.
Proof. intros H h m Ha. by apply (H h Ha h m Ha). Qed.
Lemma emits_modify f : (forall h, aims h -> aims (f h)) -> emits 0 (modify f) (fun _ => True).
Proof. intros Hf h m Ha. cbn. split_and!; [by apply Hf|done|]. exists []. by rewrite app_nil_r. Qed.
Lemma emits_world {A} (f : XWorld -> A * XWorld) (P : A -> Prop) : (forall w, P (f w).1) -> emits 0 (world f) P.
Proof.
  intros HP h m Ha. unfold world. cbn. specialize (HP (x_world m)). destruct (f (x_world m)) as [a w]. cbn. split_and!; [done|done|].
  exists []. by rewrite app_nil_r.
Qed.
Lemma emits_send r : request_wf r -> emits 1 (send r) (fun _ => True).
Proof.
  intros Hr h m Ha. unfold send. destruct (x_request _ _ _) as [ok w]. split_and!; [done|done|]. eexists. split; [reflexivity|].
  split; [|done]. apply Forall_singleton. split; [exact (proj1 Ha)|exact Hr].
Qed.

Lemma emits_fake_input ty detail x y : request_wf (Fake ty detail 0 x y) -> emits 1 (xtest_fake_input ty detail x y) (fun _ => True).
Proof. intros Hr. unfold xtest_fake_input. apply emits_self. intros h _. by apply emits_send. Qed.

Lemma emits_release_all : emits 2 release_all_keys (fun _ => True).
Proof.
  unfold release_all_keys. eapply (emits_bind 1 1); [by apply emits_fake_input|]. intros _ _.
  eapply (emits_bind 1 0); [by apply emits_fake_input|]. intros _ _. apply emits_modify. by intros h [H1 H2].
Qed.

Lemma emits_free : emits 0 find_free_keycode (fun k => forall k', k = Some k' -> is_u8 k').
Proof.
  unfold find_free_keycode. apply emits_self. intros h _. destruct (x_keycodes (conn h)) as [lo hi].
  eapply emits_after; [by apply (emits_world _ (fun _ => True))|]. intros reply _. apply emits_ret. intros k'. destruct reply as [[per syms]|]; [|done].
  induction (imap pair _) as [|[i chunk] l IH]; [done|]. cbn [find_map]. destruct (forallb _ chunk); [|exact IH]. intros [= <-]. unfold is_u8. zdm.
Qed.

Lemma emits_reconnect : emits 2 (reconnect g) (fun _ => True).
Proof.
  unfold reconnect. apply emits_self. intros h0 _. eapply emits_after.
  { destruct (last_reconnect_attempt h0); [|by apply (emits_ret false (fun _ => True))].
    eapply emits_after; [by apply (emits_world _ (fun _ => True))|]. intros now _. by apply emits_ret. }
  intros early _. destruct early; [by apply emits_none|].
  eapply emits_after; [by apply (emits_world _ (fun _ => True))|]. intros now _.
  eapply emits_after; [apply emits_modify; by intros h []|]. intros _ _.
  assert (Hno : emits 2 (mret false) (fun _ : bool => True)) by (by apply emits_none).
  destruct (display_name g) as [e|name] eqn:Hn; [exact Hno|].
  eapply emits_after; [apply (emits_world _ (fun r => forall c s, r = Some (c, s) -> conn_display c = name))|].
  { intros w c s E. destruct (x_connect name w) as [r w'] eqn:Ew. cbn in E. subst r. by eapply x_connect_display. }
  intros [[c s]|] Hc; [|exact Hno]. destruct (x_root c s) as [r|]; [|exact Hno].
  eapply emits_after; [apply emits_modify; intros h [H1 H2]; split; cbn; [by rewrite (Hc c s eq_refl), Hn|done]|]. intros _ _.
  eapply (emits_bind 2 0); [apply emits_release_all|]. intros _ _. by apply emits_ret.
Qed.

Lemma emits_fake ty detail x y : request_wf (Fake ty detail 0 x y) -> emits 4 (fake g ty detail x y) (fun _ => True).
Proof.
  intros Hr. unfold fake. eapply (emits_bind 1 3); [by apply emits_fake_input|]. intros ok _.
  destruct ok; [by apply emits_none|].
  eapply (emits_bind 2 1); [apply emits_reconnect|]. intros again _. destruct again; [|by apply emits_none].
  eapply (emits_bind 1 0); [by apply emits_fake_input|]. intros _ _. by apply emits_ret.
Qed.

(** ** What an event makes of it *)

Definition key_event_wf (e : Handler.KeyboardEvent) : Prop :=
  match e with
  | Handler.Pressed c _ | Handler.Released c _ => is_u8 c
  | Handler.UnicodePressed c | Handler.UnicodeReleased c => is_u16 c
  | Handler.Synchronize f => is_u8 f
  end.
(** Wheel turns of the range the wire has *)
Definition mouse_event_wf (e : Handler.MouseEvent) : Prop :=
  match e with
  | Handler.Move x y | Handler.Button x y _ _ => is_u16 x /\ is_u16 y
  | Handler.VerticalScroll v | Handler.HorizontalScroll v => WHEEL_ROTATION_START <= v <= WHEEL_ROTATION_END
  | _ => True
  end.

Lemma keycode_range c e k : is_u8 c -> keycode_for c e = Some k -> 8 <= k < 256.
Proof.
  intros Hc. assert (Hb : forall k, try_u8 (c + 8) = Some k -> 8 <= k < 256) by (intros k'; unfold try_u8; zcase; [intros [= <-]; width|done]).
  assert (Hx : forall k, try_u8 (c + 8 + 128) = Some k -> 8 <= k < 256) by (intros k'; unfold try_u8; zcase; [intros [= <-]; width|done]).
  unfold keycode_for. destruct e; cbn [negb]; [|apply Hb]. repeat case_match; first [apply Hx|intros [= <-]; lia].
Qed.

Lemma emits_key k pressed : is_u8 k -> emits 4 (fake_key g k pressed) (fun _ => True).
Proof. intros Hk. apply emits_fake. destruct pressed; by split_and!. Qed.
Lemma emits_button b pressed : 0 <= b < 8 -> emits 4 (fake_button g b pressed) (fun _ => True).
Proof. intros Hb. apply emits_fake. destruct pressed; split_and!; done || width. Qed.
Lemma emits_press b pressed : emits 4 (press_button g b pressed) (fun _ => True).
Proof.
  unfold press_button. destruct (x_button b =? 0); [by apply emits_none|].
  apply emits_button. destruct b; cbn; lia.
Qed.
Lemma emits_motion x y : is_u16 x -> is_u16 y -> emits 4 (fake_motion g x y) (fun _ => True).
Proof.
  intros Hx Hy. apply emits_fake. assert (H : forall v, is_u16 v -> is_i16 (to_i16 v)) by (intros v Hv; unfold to_i16, is_i16; zcase; width).
  split_and!; [done..|by apply H|by apply H].
Qed.
Lemma emits_relative dx dy : emits 4 (fake_relative_motion g dx dy) (fun _ => True).
Proof.
  apply emits_fake. assert (H : forall v, is_i16 (clamp_i16 v)) by (intros v; unfold clamp_i16, is_i16; lia). split_and!; [done..|apply H|apply H].
Qed.
Lemma emits_clicks n b : 0 <= b < 8 -> emits (8 * Z.of_nat n) (clicks g n b) (fun _ => True).
Proof.
  intros Hb. induction n as [|n IH]; [by apply emits_ret|]. replace (8 * Z.of_nat (S n)) with (4 + (4 + 8 * Z.of_nat n)) by lia. cbn [clicks].
  eapply emits_bind; [by apply emits_button|]. intros _ _. eapply emits_bind; [by apply emits_button|]. intros _ _. exact IH.
Qed.

Lemma emits_unicode c : is_u16 c -> emits 9 (send_unicode g c) (fun _ => True).
Proof.
  intros Hc. assert (Hno : emits 9 (mret tt) (fun _ : unit => True)) by (by apply emits_none).
  unfold send_unicode. destruct (is_scalar c); [|exact Hno]. cbn [negb]. set (keysym := if _ && _ then _ else _).
  assert (Hsym : is_u32 keysym).
  { subst keysym. destruct (_ && _); [width|]. assert (H := lor_below 0x01000000 c 32 ltac:(lia) ltac:(lia) ltac:(width)). exact H. }
  apply emits_self. intros h0 _. eapply emits_after.
  { destruct (unicode_keycode h0); [by apply (emits_ret tt (fun _ => True))|]. eapply emits_after; [apply emits_free|]. intros k Hk.
    apply emits_modify. intros h [H1 H2]. split; [exact H1|]. intros k' E. by apply Hk. }
  intros _ _. apply emits_self. intros h [_ H2]. destruct (unicode_keycode h) as [k|]; [|exact Hno]. specialize (H2 k eq_refl).
  eapply (emits_bind 1 8); [by apply emits_send|]. intros ok _. destruct ok; [|by apply emits_none].
  apply emits_self. intros h' _. eapply emits_after; [by apply (emits_world _ (fun _ => True))|]. intros _ _.
  eapply (emits_bind 4 4); [by apply emits_key|]. intros _ _. by apply emits_key.
Qed.

Lemma emits_toggle desired current k flag : is_u8 k -> emits 8 (toggle_lock g (desired, current, k, flag)) (fun _ => True).
Proof.
  intros Hk. unfold toggle_lock. destruct (Bool.eqb desired current); [by apply emits_none|].
  eapply (emits_bind 4 4); [by apply emits_key|]. intros _ _. eapply (emits_bind 4 0); [by apply emits_key|]. intros _ _.
  apply emits_modify. by intros h [].
Qed.
Lemma emits_synchronize want : emits 26 (synchronize g want) (fun _ => True).
Proof.
  unfold synchronize. eapply (emits_bind 2 24); [apply emits_release_all|]. intros _ _. apply emits_self. intros h _. cbv zeta.
  eapply (emits_bind 8 16); [by apply emits_toggle|]. intros _ _. eapply (emits_bind 8 8); [by apply emits_toggle|]. intros _ _. by apply emits_toggle.
Qed.

Lemma emits_flushed {A} n (op : On A) : emits n op (fun _ => True) ->
  emits n (_ ← op; c ← self conn; world (fun w => (tt, x_flush c w))) (fun _ => True).
Proof.
  intros H. rewrite <- (Z.add_0_r n). eapply emits_bind; [exact H|]. intros _ _. apply emits_self. intros h _. by apply emits_world.
Qed.

Lemma emits_keyboard e : key_event_wf e -> emits 26 (x11_keyboard g e) (fun _ => True).
Proof.
  intros He. unfold x11_keyboard. apply emits_flushed.
  assert (Hno : emits 26 (mret tt) (fun _ : unit => True)) by (by apply emits_none).
  assert (Hkey : forall c x f pressed, is_u8 c -> emits 26
    (match keycode_for c x with Some kc => _ ← modify (set_pressed (f kc)); fake_key g kc pressed | None => mret tt end) (fun _ => True)).
  { intros c x f pressed Hc. destruct (keycode_for c x) as [k|] eqn:E; [|exact Hno]. apply keycode_range in E; [|done].
    eapply emits_after; [apply emits_modify; by intros h []|]. intros _ _. eapply emits_more; [|apply emits_key; width|done]. lia. }
  destruct e as [c x|c x|c|c|f]; cbn [key_event_wf] in He.
  - by apply (Hkey c x (fun kc s => {[kc]} ∪ s)).
  - by apply (Hkey c x (fun kc s => s ∖ {[kc]})).
  - eapply emits_more; [|by apply emits_unicode|done]. lia.
  - exact Hno.
  - apply emits_synchronize.
Qed.

Lemma emits_mouse e : mouse_event_wf e -> emits 16 (x11_mouse g e) (fun _ => True).
Proof.
  intros He. unfold x11_mouse. apply emits_flushed.
  assert (Hscroll : forall v b, WHEEL_ROTATION_START <= v <= WHEEL_ROTATION_END -> 0 <= b < 8 -> emits 16 (clicks g (steps_of v) b) (fun _ => True)).
  { intros v b Hv Hb. eapply emits_more; [|by apply emits_clicks|done]. unfold steps_of, WHEEL_ROTATION_START, WHEEL_ROTATION_END in *.
    assert (Z.abs v / 120 <= 2) by zdm. lia. }
  destruct e as [x y|x y b p|x y b p|v|v|x y|x y]; cbn [mouse_event_wf] in He.
  - destruct He. eapply emits_more; [|by apply emits_motion|done]. lia.
  - destruct He. eapply (emits_more 8); [lia| |done]. eapply (emits_bind 4 4); [by apply emits_motion|]. intros _ _. apply emits_press.
  - eapply (emits_more 8); [lia| |done]. eapply (emits_bind 4 4); [by apply emits_relative|]. intros _ _. apply emits_press.
  - apply Hscroll; [done|]. destruct (0 <=? v); lia.
  - apply Hscroll; [done|]. destruct (0 <=? v); lia.
  - by apply emits_none.
  - eapply emits_more; [|by apply emits_relative|done]. lia.
Qed.

End emits.

(** ** The worker *)

Section worker.
Context {X : X11} {BF : Bitflags} (home_of : text -> option text).
Context {D : Type} {DH : RdpServerInputHandler D} (active : XWorld -> option D).

(** A bound X11 desktop is known by the name of its display number. *)
Definition gate_named (g : Gate) : Prop := forall b, bound g = Some b -> kind b <> Compositor ->
  exists d, is_u16 d /\ display b = lit ":" ++ decimal d.
Definition call_wf (c : GateCall) : Prop :=
  match c with Bind _ d _ _ _ | BindGreeter d _ _ _ => is_u16 d | _ => True end.

Lemma gate_call_named c g : call_wf c -> gate_named g -> gate_named (gate_call home_of c g).2.
Proof.
  intros Hc Hg b. pose proof (gate_call_spec home_of c g) as Hs. cbv zeta in Hs. destruct Hs as [_ Hs].
  destruct (wants home_of c) as [w|] eqn:Ew; [|destruct Hs as [-> _]; apply Hg].
  destruct (bind_into (bound g) w); [destruct Hs as [-> _]; apply Hg|]. destruct Hs as (_ & -> & _). intros [= <-].
  destruct c as [| | |u d x rd sz|k u rd sz|d x rd sz]; try done; cbn [wants] in Ew; injection Ew as <-; cbn [call_wf kind display] in *; try done; by eauto.
Qed.

(** Without a new generation an armed gate points where it did. *)
Lemma gate_call_points c g : armed g = true -> 0 <= generation g -> generation g + 1 < 2 ^ 64 ->
  let g' := (gate_call home_of c g).2 in
  armed g' = true /\ generation g <= generation g' <= generation g + 1 /\ (generation g' = generation g -> display_name g' = display_name g).
Proof.
  intros Ha H0 Hg g'. pose proof (gate_call_spec home_of c g) as Hs. cbv zeta in Hs. fold g' in Hs. destruct Hs as [H1 Hs]. specialize (H1 Ha).
  assert (Hw : wadd64 (generation g) 1 = generation g + 1) by (apply wadd64_small; width).
  assert (Hsame : bound g' = bound g -> display_name g' = display_name g) by (intros E; unfold display_name, is_armed; by rewrite Ha, H1, E).
  destruct (wants home_of c) as [w|]; [destruct (bind_into (bound g) w)|].
  - destruct Hs as (E1 & E2 & _). split_and!; [done|lia|lia|auto].
  - destruct Hs as (_ & _ & E & _). rewrite E, Hw. split_and!; [done|lia|lia|lia].
  - destruct Hs as (E1 & E2). split_and!; [done|lia|lia|auto].
Qed.

Lemma connect_target_named g name e : armed g = true -> gate_named g -> connect_target g = inr (name, e) ->
  display_name g = inr name /\ exists d path, name = lit ":" ++ decimal d /\ e = Some (d, path).
Proof.
  intros Ha Hn. unfold connect_target. destruct (display_name g) as [|n] eqn:Hd; [done|]. unfold display_name, is_armed in Hd. rewrite Ha in Hd. cbn [negb] in Hd.
  destruct (bound g) as [b|] eqn:Hb; [|done]. case_bool_decide as Hk; [done|]. injection Hd as <-.
  destruct (Hn b Hb Hk) as (d & Hu & Ed). unfold bound_display_number, gate_xauthority. rewrite Hb. cbn [mbind option_bind fmap option_fmap].
  rewrite Ed, display_number by done. intros [= <- <-]. split; [done|]. by exists d, (xauthority b).
Qed.

Lemma gate_connect_aims g w c s w' : armed g = true -> gate_named g -> gate_connect g w = (Some (c, s), w') ->
  display_name g = inr (conn_display c).
Proof.
  intros Ha Hn. unfold gate_connect. destruct (connect_target g) as [|[name e]] eqn:Ht; [done|].
  apply connect_target_named in Ht as (Hd & d & path & -> & ->); [|done|done]. rewrite Hd.
  destruct (x_socket _ w) as [[st|] w1] eqn:Es; [|done]. destruct (x_read path w1 ≫= _) as [auth|]; [|done].
  destruct (x_setup st _ auth w1) as [[c'|] w2] eqn:Eu; [|done]. intros [= -> _ _].
  rewrite (x_setup_display _ _ _ _ _ _ Eu), (x_socket_display _ _ _ _ Es). done.
Qed.

(** A connection the handler starts with *)
Lemma connect_emits g m : armed g = true -> gate_named g ->
  match x11_connect g m with
  | (r, m') => (forall h, r = Some h -> aims g h) /\ exists new, sent m' = sent m ++ new /\ Forall (sent_well g) new /\ llen new <= 2
  end.
Proof.
  intros Ha Hn. unfold x11_connect. destruct (gate_connect g (x_world m)) as [r w] eqn:Eg.
  assert (Hnil : exists new, sent (mkMachine w (sent m)) = sent m ++ new /\ Forall (sent_well g) new /\ llen new <= 2) by (exists []; by rewrite app_nil_r).
  destruct r as [[c s]|]; [|done]. destruct (x_root c s) as [r|]; [|done]. apply gate_connect_aims in Eg; [|done|done].
  pose proof (emits_release_all g (mkX11 c r None 0 ∅ None) (mkMachine w (sent m))) as H. destruct (release_all_keys _) as [u [h m']].
  destruct H as (H1 & _ & H2); [by split|]. split; [by intros h' [= <-]|exact H2].
Qed.

(** The cached connection is used only while the gate has not moved. *)
Definition deferred_ok (g : Gate) (a : AnyInput (D := D)) : Prop :=
  match a with
  | AnyX11 _ => False
  | DeferredX11 slot _ at_ => at_ <= generation g /\ forall h, slot = Some h -> at_ = generation g -> aims g h
  | _ => True
  end.

Lemma on_x11_emits g n f a m : armed g = true -> gate_named g -> deferred_ok g a -> 0 <= n -> emits g n f (fun _ => True) ->
  match on_x11 g f a m with
  | (a', m') => deferred_ok g a' /\ exists new, sent m' = sent m ++ new /\ Forall (sent_well g) new /\ llen new <= 2 + n
  end.
Proof.
  intros Ha Hn Hd H0 Hf. destruct a as [h|slot log at_|d|d]; [done| |split; [done|]; exists []; rewrite app_nil_r; split_and!; [done|done|unfold llen; cbn [length]; lia]..].
  destruct Hd as [Hle Hslot]. cbn [on_x11]. set (slot' := if at_ =? generation g then slot else None).
  assert (Hslot' : forall h, slot' = Some h -> aims g h) by (intros h; subst slot'; destruct (Z.eqb_spec at_ (generation g)); [auto|done]).
  assert (Hrun : forall h m0, aims g h -> match f (h, m0) with (_, (h', m1)) =>
    aims g h' /\ exists new, sent m1 = sent m0 ++ new /\ Forall (sent_well g) new /\ llen new <= n end).
  { intros h m0 Hh. specialize (Hf h m0 Hh). destruct (f (h, m0)) as [u [h' m1]]. tauto. }
  destruct slot' as [h|].
  - specialize (Hrun h m (Hslot' h eq_refl)). destruct (f (h, m)) as [u [h' m']]. destruct Hrun as (H1 & new & H2 & H3 & H4).
    split; [split; [lia|]; by intros h0 [= <-]|]. exists new. split_and!; [done|done|lia].
  - pose proof (connect_emits g m Ha Hn) as Hc. destruct (x11_connect g m) as [[h|] m1]; destruct Hc as (Hc1 & new1 & E1 & W1 & L1).
    + specialize (Hrun h m1 (Hc1 h eq_refl)). destruct (f (h, m1)) as [u [h' m']]. destruct Hrun as (H1 & new & H2 & H3 & H4).
      split; [split; [lia|]; by intros h0 [= <-]|]. exists (new1 ++ new). rewrite H2, E1, app_assoc, llen_app. split_and!; [done|by apply Forall_app|lia].
    + unfold report. destruct (x_now (x_world m1)) as [now w]. assert (Hl : forall l, deferred_ok g (DeferredX11 None l (generation g))) by (intros l; split; [lia|done]).
      destruct (log_last log); [destruct (_ <? _)|]; (split; [apply Hl|]; exists new1; split_and!; [done|done|lia]).
Qed.

(** A worker's life: calls of the gate between events of the client *)
Inductive WorkerStep := Gated (c : GateCall) | Key (e : Handler.KeyboardEvent) | Pointer (e : Handler.MouseEvent).
Definition step_wf (s : WorkerStep) : Prop :=
  match s with Gated c => call_wf c | Key e => key_event_wf e | Pointer e => mouse_event_wf e end.

(** The requests of each event, with the gate as it was when the event came *)
Fixpoint worker_trace (steps : list WorkerStep) (g : Gate) (a : AnyInput (D := D)) (m : Machine) : list (Gate * list Sent) :=
  match steps with
  | [] => []
  | Gated c :: rest => worker_trace rest (gate_call home_of c g).2 a m
  | Key e :: rest =>
      let '(a', m') := any_keyboard g active e a m in
      (g, drop (length (sent m)) (sent m')) :: worker_trace rest g a' m'
  | Pointer e :: rest =>
      let '(a', m') := any_mouse g active e a m in
      (g, drop (length (sent m)) (sent m')) :: worker_trace rest g a' m'
  end.

Definition event_sends (g : Gate) (a : AnyInput (D := D)) (m : Machine) (r : AnyInput (D := D) * Machine) : Prop :=
  deferred_ok g r.1 /\ exists new, sent r.2 = sent m ++ new /\ Forall (sent_well g) new /\ llen new <= 28.

Lemma any_emits g (f : On unit) (df : D -> D) a m : armed g = true -> gate_named g -> deferred_ok g a -> emits g 26 f (fun _ => True) ->
  event_sends g a m (match follow_compositor active a m with
    | AnyWayland d => (AnyWayland (df d), m) | AnyCompositor d => (AnyCompositor (df d), m) | a => on_x11 g f a m end).
Proof.
  intros Ha Hn Hd Hf. assert (Hnil : forall d, event_sends g a m (d, m) <-> deferred_ok g d).
  { intros d. unfold event_sends. split; [tauto|]. intros Hd'. split; [done|]. exists []. rewrite app_nil_r. by split_and!. }
  pose proof (fun a' H => on_x11_emits g 26 f a' m Ha Hn H ltac:(lia) Hf) as Hx.
  destruct a as [h|slot log at_|d|d]; [done| |by apply Hnil..]. cbn [follow_compositor]. destruct (active (x_world m)) as [d|]; [by apply Hnil|].
  specialize (Hx _ Hd). unfold event_sends. by destruct (on_x11 g f _ m) as [a' m'].
Qed.

Lemma worker_trace_well steps g a m : armed g = true -> gate_named g -> deferred_ok g a -> 0 <= generation g ->
  generation g + llen steps < 2 ^ 64 -> Forall step_wf steps ->
  Forall (fun '(g', new) => Forall (sent_well g') new /\ llen new <= 28) (worker_trace steps g a m).
Proof.
  intros Ha Hn Hd H0 Hg Hs. revert g a m Ha Hn Hd H0 Hg. induction Hs as [|s steps Hs _ IH]; intros g a m Ha Hn Hd H0 Hg; [constructor|].
  rewrite llen_cons in Hg. pose proof (llen_nonneg steps).
  assert (Hev : forall r, event_sends g a m r ->
    Forall (fun '(g', new) => Forall (sent_well g') new /\ llen new <= 28) ((g, drop (length (sent m)) (sent r.2)) :: worker_trace steps g r.1 r.2)).
  { intros [a' m'] (Hd' & new & E & Hw & Hl). cbn [fst snd] in *. apply Forall_cons. split; [rewrite E, drop_app_length; done|]. apply IH; try done. lia. }
  destruct s as [c|e|e]; cbn [worker_trace step_wf] in *.
  - destruct (gate_call_points c g Ha H0 ltac:(lia)) as (Ha' & Hg' & Hp). apply IH; [done|by apply gate_call_named| |lia|lia].
    destruct a as [h|slot log at_|d|d]; try done. destruct Hd as [Hle Hslot]. split; [lia|]. intros h E Ea.
    destruct (Hslot h E) as [H1 H2]; [lia|]. split; [rewrite Hp by lia; exact H1|exact H2].
  - pose proof (any_emits g (x11_keyboard g e) (keyboard e) a m Ha Hn Hd (emits_keyboard g e Hs)) as He.
    fold (any_keyboard g active e a m) in He. specialize (Hev _ He). by destruct (any_keyboard g active e a m).
  - pose proof (any_emits g (x11_mouse g e) (mouse e) a m Ha Hn Hd (emits_more g 16 26 _ _ _ ltac:(lia) (emits_mouse g e Hs) (fun _ H => H))) as He.
    fold (any_mouse g active e a m) in He. specialize (Hev _ He). by destruct (any_mouse g active e a m).
Qed.

(** C9: input reaches the desktop the gate names and no other.  For a deferred
    worker, any interleaving of gate calls with keyboard and mouse events, and X
    servers that answer, fail and come back in any way: every request an event
    causes - the retries after a reconnection included - goes out on a connection
    to the display the gate names at that moment.  After the logon screen has
    handed over to a session, no keystroke goes to the logon screen's display. *)
Theorem input_isolation (steps : list WorkerStep) (g : Gate) (m : Machine) :
  armed g = true -> gate_named g -> 0 <= generation g -> generation g + llen steps < 2 ^ 64 -> Forall step_wf steps ->
  Forall (fun '(g', new) => Forall (to_gate g') new) (worker_trace steps g (DeferredX11 None log_new (generation g)) m).
Proof.
  intros Ha Hn H0 Hg Hs. eapply Forall_impl; [apply worker_trace_well; [done|done|split; [lia|done]|done|done|done]|].
  intros [g' new] [Hw _]. eapply Forall_impl; [exact Hw|]. by intros s [].
Qed.

(** C26: an event costs a bounded number of well-formed requests.  Whatever the
    X servers answer, one event of the client makes at most 28 requests (the
    connection, a reset, the event and its retries), and each has an XTEST event
    type, an 8-bit detail and 16-bit coordinates. *)
Theorem input_work_bounded (steps : list WorkerStep) (g : Gate) (m : Machine) :
  armed g = true -> gate_named g -> 0 <= generation g -> generation g + llen steps < 2 ^ 64 -> Forall step_wf steps ->
  Forall (fun '(_, new) => llen new <= 28 /\ Forall (fun s => request_wf (request s)) new)
    (worker_trace steps g (DeferredX11 None log_new (generation g)) m).
Proof.
  intros Ha Hn H0 Hg Hs. eapply Forall_impl; [apply worker_trace_well; [done|done|split; [lia|done]|done|done|done]|].
  intros [g' new] [Hw Hl]. split; [done|]. eapply Forall_impl; [exact Hw|]. by intros s [].
Qed.

End worker.

(** ** Lock keys *)

Inductive Lock := Caps | Num | ScrollLock.
#[export] Instance Lock_eq_dec : EqDecision Lock.
Proof. solve_decision. Defined.
Definition lock_bit (l : Lock) : Z := match l with Caps => 2 | Num => 1 | ScrollLock => 0 end.
Definition lock_key (l : Lock) : Z :=
  match l with Caps => KEYCODE_CAPS_LOCK | Num => KEYCODE_NUM_LOCK | ScrollLock => KEYCODE_SCROLL_LOCK end.

Section locks.
Context {X : X11} {BF : Bitflags} (g : Gate).

(** Whether a request presses the lock's key, and whether an odd number of them do *)
Definition presses (l : Lock) (s : Sent) : bool :=
  match request s with Fake ty detail _ _ _ => (ty =? FAKE_KEY_PRESS) && (detail =? lock_key l) | _ => false end.
Definition toggled (l : Lock) (new : list Sent) : bool := foldr (fun s b => xorb (presses l s) b) false new.
Lemma toggled_app l new new' : toggled l (new ++ new') = xorb (toggled l new) (toggled l new').
Proof.
  induction new as [|s new IH]; [change ([] ++ new') with new'; by destruct (toggled l new')|]. cbn [app toggled foldr]. change (foldr _ false ?n) with (toggled l n).
  by rewrite IH, xorb_assoc.
Qed.

(** The X server is there: what is sent to it is accepted.  It has keysyms on
    its lock keys, so that none of them is found free. *)
Definition live : Prop := forall c r w, (x_request c r w).1 = true.
Definition locks_bound : Prop := forall l h m, (find_free_keycode (h, m)).1 <> Some (lock_key l).

Definition steady (h : X11InputHandler) : Prop := forall l, unicode_keycode h <> Some (lock_key l).

(** The lock bits the handler keeps change as the keys it presses toggle them. *)
Definition tracks {A} (op : On A) : Prop := forall h m, steady h ->
  match op (h, m) with
  | (_, (h', m')) => steady h' /\ exists new, sent m' = sent m ++ new /\
      forall l, Z.testbit (locks h') (lock_bit l) = xorb (Z.testbit (locks h) (lock_bit l)) (toggled l new)
  end.

Lemma tracks_bind {A B} (op : On A) (k : A -> On B) : tracks op -> (forall a, tracks (k a)) -> tracks (op ≫= k).
Proof.
  intros Hop Hk h m Hs. unfold mbind, On_bind. specialize (Hop h m Hs). destruct (op (h, m)) as [a [h1 m1]].
  destruct Hop as (Hs1 & new1 & E1 & L1). specialize (Hk a h1 m1 Hs1). destruct (k a (h1, m1)) as [b [h2 m2]].
  destruct Hk as (Hs2 & new2 & E2 & L2). split; [done|]. exists (new1 ++ new2). split; [by rewrite E2, E1, app_assoc|].
  intros l. rewrite L2, L1, toggled_app. apply xorb_assoc.
Qed.
(** An operation that changes no lock and presses no lock's key *)
Lemma tracks_idle {A} (op : On A) :
  (forall h m, steady h -> match op (h, m) with
    | (_, (h', m')) => steady h' /\ locks h' = locks h /\ exists new, sent m' = sent m ++ new /\ forall l, toggled l new = false end) ->
  tracks op.
Proof.
  intros H h m Hs. specialize (H h m Hs). destruct (op (h, m)) as [a [h' m']]. destruct H as (Hs' & El & new & E & Ht).
  split; [done|]. exists new. split; [done|]. intros l. by rewrite El, Ht, xorb_false_r.
Qed.
Lemma tracks_ret {A} (a : A) : tracks (mret a).
Proof. apply tracks_idle. intros h m Hs. split_and!; [done|done|]. exists []. by rewrite app_nil_r. Qed.
Lemma tracks_self {A} (f : X11InputHandler -> A) : tracks (self f).
Proof. apply tracks_idle. intros h m Hs. split_and!; [done|done|]. exists []. by rewrite app_nil_r. Qed.
Lemma tracks_world {A} (f : XWorld -> A * XWorld) : tracks (world f).
Proof.
  apply tracks_idle. intros h m Hs. unfold world. cbn. destruct (f (x_world m)) as [a w]. cbn. split_and!; [done|done|]. exists []. by rewrite app_nil_r.
Qed.
Lemma tracks_modify f : (forall h, steady h -> steady (f h)) -> (forall h, locks (f h) = locks h) -> tracks (modify f).
Proof. intros H1 H2. apply tracks_idle. intros h m Hs. cbn. split_and!; [by apply H1|done|]. exists []. by rewrite app_nil_r. Qed.
Lemma tracks_send r : (forall c ok l, presses l (mkSent c r ok) = false) -> tracks (send r).
Proof.
  intros Hr. apply tracks_idle. intros h m Hs. unfold send. destruct (x_request _ _ _) as [ok w]. split_and!; [done|done|].
  eexists. split; [reflexivity|]. intros l. cbn. by rewrite Hr.
Qed.
Lemma tracks_fake_input ty d x y : (forall l, (ty =? FAKE_KEY_PRESS) && (d =? lock_key l) = false) -> tracks (xtest_fake_input ty d x y).
Proof. intros H. apply tracks_bind; [apply tracks_self|]. intros r. apply tracks_send. intros c ok l. apply H. Qed.
Lemma tracks_release_all : tracks release_all_keys.
Proof.
  apply tracks_bind; [apply tracks_fake_input; by intros []|]. intros _. apply tracks_bind; [by apply tracks_fake_input|]. intros _.
  by apply tracks_modify.
Qed.

Hypothesis Hlive : live.
Hypothesis Hbound : locks_bound.

Lemma live_send r h m : exists w, send r (h, m) = (true, (h, mkMachine w (sent m ++ [mkSent (conn h) r true]))).
Proof. unfold send. specialize (Hlive (conn h) r (x_world m)). destruct (x_request _ _ _) as [ok w]. cbn in Hlive. subst ok. by exists w. Qed.
Lemma live_fake ty d x y h m :
  exists w, fake g ty d x y (h, m) = (tt, (h, mkMachine w (sent m ++ [mkSent (conn h) (Fake ty d (root h) x y) true]))).
Proof.
  unfold fake, xtest_fake_input, self, mbind, On_bind. cbn [fst snd]. destruct (live_send (Fake ty d (root h) x y) h m) as [w E]. rewrite E. by exists w.
Qed.
Lemma tracks_fake ty d x y : (forall l, (ty =? FAKE_KEY_PRESS) && (d =? lock_key l) = false) -> tracks (fake g ty d x y).
Proof.
  intros H. apply tracks_idle. intros h m Hs. destruct (live_fake ty d x y h m) as [w ->]. split_and!; [done|done|].
  eexists. split; [reflexivity|]. intros l. cbn. unfold presses. cbn. by rewrite H.
Qed.

Lemma tracks_key k pressed : (forall l, k <> lock_key l) -> tracks (fake_key g k pressed).
Proof. intros Hk. apply tracks_fake. intros l. apply andb_false_intro2, Z.eqb_neq, Hk. Qed.
Lemma tracks_other ty d x y : ty <> FAKE_KEY_PRESS -> tracks (fake g ty d x y).
Proof. intros Ht. apply tracks_fake. intros l. apply andb_false_intro1, Z.eqb_neq, Ht. Qed.

Lemma tracks_find_free : tracks find_free_keycode.
Proof.
  apply tracks_bind; [apply tracks_self|]. intros c. destruct (x_keycodes c). apply tracks_bind; [apply tracks_world|]. intros r. apply tracks_ret.
Qed.
(** The scratch key is no lock's key. *)
Lemma tracks_scratch : tracks (free ← find_free_keycode; modify (set_keycode free)).
Proof.
  intros h m Hs. unfold mbind, On_bind. pose proof (tracks_find_free h m Hs) as H. pose proof (fun l => Hbound l h m) as Hf.
  destruct (find_free_keycode (h, m)) as [free [h' m']]. cbn. destruct H as (_ & H). split; [|exact H]. intros l. apply Hf.
Qed.
Lemma tracks_unicode c : tracks (send_unicode g c).
Proof.
  unfold send_unicode. destruct (is_scalar c); [|apply tracks_ret]. cbn [negb]. cbv zeta. apply tracks_bind; [apply tracks_self|]. intros k.
  apply tracks_bind; [destruct k; [apply tracks_ret|apply tracks_scratch]|]. intros _ h m Hs. unfold mbind at 1, On_bind at 1, self at 1. cbn [fst].
  destruct (unicode_keycode h) as [k'|] eqn:Ek; [|by apply tracks_ret]. assert (Hk : forall l, k' <> lock_key l) by (intros l ->; by apply (Hs l)).
  revert h m Hs Ek. intros h m Hs _. revert h m Hs. apply tracks_bind; [by apply tracks_send|]. intros ok. destruct ok; [|apply tracks_ret].
  apply tracks_bind; [apply tracks_self|]. intros c'. apply tracks_bind; [apply tracks_world|]. intros _.
  apply tracks_bind; [by apply tracks_key|]. intros _. by apply tracks_key.
Qed.

Lemma xorb_switch a b : xorb a (negb (Bool.eqb b a)) = b.
Proof. by destruct a, b. Qed.

(** One toggle presses its own key, once if the states differ. *)
Definition lock_flag (l : Lock) : Z := 2 ^ lock_bit l.
Definition switched (l : Lock) (desired current : bool) (v : Z) : Z := if Bool.eqb desired current then v else Z.lxor v (lock_flag l).
Lemma switched_bit l l' d c v :
  Z.testbit (switched l d c v) (lock_bit l') = xorb (Z.testbit v (lock_bit l')) (bool_decide (l = l') && negb (Bool.eqb d c)).
Proof.
  unfold switched. destruct (Bool.eqb d c); [by rewrite andb_false_r, xorb_false_r|]. rewrite Z.lxor_spec. f_equal. by destruct l, l'.
Qed.
Lemma live_toggle l d c h m : exists w new,
  toggle_lock g (d, c, lock_key l, lock_flag l) (h, m) = (tt, (set_locks (switched l d c (locks h)) h, mkMachine w (sent m ++ new))) /\
  forall l', toggled l' new = bool_decide (l = l') && negb (Bool.eqb d c).
Proof.
  unfold toggle_lock, switched. destruct (Bool.eqb d c) eqn:E.
  - exists (x_world m), []. rewrite app_nil_r. destruct h, m. split; [done|]. intros l'. by rewrite andb_false_r.
  - unfold mbind, On_bind, fake_key. destruct (live_fake FAKE_KEY_PRESS (lock_key l) 0 0 h m) as [w1 E1]. rewrite E1.
    match goal with |- context [fake g FAKE_KEY_RELEASE ?k 0 0 (h, ?m1)] => destruct (live_fake FAKE_KEY_RELEASE k 0 0 h m1) as [w2 E2] end. rewrite E2.
    eexists w2, _. split; [unfold modify; cbn; rewrite symmetric_difference_bits, <- app_assoc; reflexivity|].
    intros l'. cbn. unfold presses. cbn. by destruct l, l'.
Qed.
Lemma tracks_toggle l d c : tracks (toggle_lock g (d, c, lock_key l, lock_flag l)).
Proof.
  intros h m Hs. destruct (live_toggle l d c h m) as (w & new & -> & Ht). split; [done|]. exists new. split; [done|].
  intros l'. rewrite Ht. apply switched_bit.
Qed.
Lemma tracks_synchronize want : tracks (synchronize g want).
Proof.
  apply tracks_bind; [apply tracks_release_all|]. intros _. apply tracks_bind; [apply tracks_self|]. intros v. cbv zeta.
  apply tracks_bind; [apply (tracks_toggle Caps)|]. intros _. apply tracks_bind; [apply (tracks_toggle Num)|]. intros _. apply (tracks_toggle ScrollLock).
Qed.
(** Afterwards the handler's locks are those asked for. *)
Lemma synchronize_locks want h m l : Z.testbit (locks (synchronize g want (h, m)).2.1) (lock_bit l) = Z.testbit want (lock_bit l).
Proof.
  unfold synchronize, mbind, On_bind. assert (Hl : locks (release_all_keys (h, m)).2.1 = locks h).
  { unfold release_all_keys, xtest_fake_input, self, send, mbind, On_bind. cbn. by repeat (destruct (x_request _ _ _) as [? ?]; cbn). }
  destruct (release_all_keys (h, m)) as [u [h0 m0]]. cbn [fst snd] in Hl. unfold self. cbn [fst].
  change SynchronizeFlags.CAPS_LOCK with (lock_flag Caps). change SynchronizeFlags.NUM_LOCK with (lock_flag Num). change SynchronizeFlags.SCROLL_LOCK with (lock_flag ScrollLock).
  change KEYCODE_CAPS_LOCK with (lock_key Caps). change KEYCODE_NUM_LOCK with (lock_key Num). change KEYCODE_SCROLL_LOCK with (lock_key ScrollLock).
  assert (Hc : forall z l0, contains z (lock_flag l0) = Z.testbit z (lock_bit l0)) by (intros z l0; apply contains_pow2; by destruct l0). rewrite !Hc.
  edestruct (live_toggle Caps) as (w1 & n1 & E1 & _). rewrite E1. edestruct (live_toggle Num) as (w2 & n2 & E2 & _). rewrite E2.
  edestruct (live_toggle ScrollLock) as (w3 & n3 & E3 & _). rewrite E3. cbn [fst snd locks set_locks]. rewrite !switched_bit.
  destruct l; repeat (case_bool_decide; try done); cbn [andb]; rewrite ?xorb_false_r; apply xorb_switch.
Qed.

Lemma tracks_flushed {A} (op : On A) : tracks op -> tracks (_ ← op; c ← self conn; world (fun w => (tt, x_flush c w))).
Proof. intros H. apply tracks_bind; [exact H|]. intros _. apply tracks_bind; [apply tracks_self|]. intros c. apply tracks_world. Qed.

(** The client does not press a lock's key itself. *)
Definition leaves_locks (e : Handler.KeyboardEvent + Handler.MouseEvent) : Prop :=
  match e with inl (Handler.Pressed c x) => forall l, keycode_for c x <> Some (lock_key l) | _ => True end.
Definition x11_event (e : Handler.KeyboardEvent + Handler.MouseEvent) : On unit :=
  match e with inl k => x11_keyboard g k | inr p => x11_mouse g p end.
Fixpoint x11_events (es : list (Handler.KeyboardEvent + Handler.MouseEvent)) : On unit :=
  match es with [] => mret tt | e :: rest => _ ← x11_event e; x11_events rest end.

Lemma tracks_clicks n b : tracks (clicks g n b).
Proof.
  induction n as [|n IH]; [apply tracks_ret|]. cbn [clicks]. apply tracks_bind; [by apply tracks_other|]. intros _.
  apply tracks_bind; [by apply tracks_other|]. by intros _.
Qed.
Lemma tracks_press b pressed : tracks (press_button g b pressed).
Proof. unfold press_button. destruct (_ =? 0); [apply tracks_ret|]. apply tracks_other. by destruct pressed. Qed.

Lemma tracks_event e : leaves_locks e -> tracks (x11_event e).
Proof.
  intros He. destruct e as [k|p]; cbn [x11_event]; apply tracks_flushed.
  - destruct k as [c x|c x|c|c|f]; [| |apply tracks_unicode|apply tracks_ret|apply tracks_synchronize].
    + destruct (keycode_for c x) as [kc|] eqn:E; [|apply tracks_ret]. apply tracks_bind; [by apply tracks_modify|]. intros _.
      apply tracks_key. intros l ->. by apply (He l).
    + destruct (keycode_for c x) as [kc|] eqn:E; [|apply tracks_ret]. apply tracks_bind; [by apply tracks_modify|]. intros _. by apply tracks_other.
  - destruct p as [x y|x y b p|x y b p|v|v|x y|x y]; [by apply tracks_other| | |apply tracks_clicks|apply tracks_clicks|apply tracks_ret|by apply tracks_other].
    + apply tracks_bind; [by apply tracks_other|]. intros _. apply tracks_press.
    + apply tracks_bind; [by apply tracks_other|]. intros _. apply tracks_press.
Qed.
Lemma tracks_events es : Forall leaves_locks es -> tracks (x11_events es).
Proof. induction 1 as [|e es He _ IH]; [apply tracks_ret|]. apply tracks_bind; [by apply tracks_event|]. by intros _. Qed.

End locks.

(** C30: lock keys follow the client.  On an X server that takes every request
    and has keysyms on its lock keys, so that none of them is borrowed for a
    character, and from a handler that has pressed nothing yet: whatever keys,
    characters, pointer events and synchronisations came before, if the client
    pressed no lock key itself, after a synchronisation the handler has pressed
    the key of each lock an odd number of times exactly if the client wants that
    lock on - so the locks of a server that started with all of them off are as
    the client wants them. *)
Theorem locks_follow_client {X : X11} {BF : Bitflags} (g : Gate) (es : list (Handler.KeyboardEvent + Handler.MouseEvent)) (want : Z) h m :
  live -> locks_bound -> locks h = 0 -> unicode_keycode h = None -> Forall leaves_locks es ->
  match (_ ← x11_events g es; x11_keyboard g (Handler.Synchronize want)) (h, m) with
  | (_, (h', m')) => exists new, sent m' = sent m ++ new /\
      forall l, toggled l new = Z.testbit want (lock_bit l) /\ Z.testbit (locks h') (lock_bit l) = Z.testbit want (lock_bit l)
  end.
Proof.
  intros Hlive Hbound Hl Hk He. assert (Hs : steady h) by (intros l; by rewrite Hk).
  pose proof (tracks_bind _ _ (tracks_events g Hlive Hbound es He) (fun _ => tracks_event g Hlive Hbound (inl (Handler.Synchronize want)) I) h m Hs) as H.
  unfold mbind, On_bind in *. destruct (x11_events g es (h, m)) as [u [h1 m1]]. cbn [x11_event] in H.
  assert (Hsync : forall l, Z.testbit (locks (x11_keyboard g (Handler.Synchronize want) (h1, m1)).2.1) (lock_bit l) = Z.testbit want (lock_bit l)).
  { intros l. rewrite <- (synchronize_locks g Hlive want h1 m1 l). unfold x11_keyboard, mbind, On_bind, self, world.
    by destruct (synchronize g want (h1, m1)) as [u' [h2 m2]]. }
  destruct (x11_keyboard g _ (h1, m1)) as [u' [h2 m2]]. cbn [fst snd] in Hsync. destruct H as (_ & new & E & Ht). exists new. split; [done|].
  intros l. specialize (Ht l). rewrite Hsync, Hl, Z.bits_0, xorb_false_l in Ht. by split.
Qed.

(** ** Cookie files *)

Lemma field_app v rest : llen v < 65536 -> Xauth.field (Xauth.length_field (llen v) ++ v ++ rest) = Some (v, rest).
Proof.
  intros Hv. unfold Xauth.length_field. rewrite (proj2 (Z.ltb_lt _ _) Hv). pose proof (llen_nonneg v) as H0. pose proof (length_to_be_bytes 2 (llen v)) as Hl.
  pose proof (from_to_be_bytes 2 (llen v)) as Hf. rewrite Z.mod_small in Hf by (change (256 ^ Z.of_nat 2) with 65536; lia).
  destruct (to_be_bytes 2 (llen v)) as [|a [|b []]]; try discriminate Hl. cbn [app Xauth.field]. rewrite Hf, llen_app.
  pose proof (llen_nonneg rest). rewrite (proj2 (Z.leb_le _ _)) by lia. unfold llen. by rewrite Nat2Z.id, take_app_length, drop_app_length.
Qed.

Lemma field_none rest : Xauth.field (to_be_bytes 2 0 ++ rest) = Some ([], rest).
Proof. exact (field_app [] rest eq_refl). Qed.

Definition xauth_file (entries : list (Z * list Z)) : list Z := entries ≫= fun '(d, cookie) => Xauth.xauthority_entry d cookie.
Definition xauth_wf : Z * list Z -> Prop := fun '(d, cookie) => is_u16 d /\ llen cookie < 65536.

Lemma decimal_short d : is_u16 d -> llen (decimal d) < 65536.
Proof.
  intros _. unfold decimal. assert (H : forall f n, (length (decimal_digits f n) <= f)%nat); [|specialize (H 20%nat d); unfold llen; lia].
  induction f as [|f IH]; intros n; [done|]. cbn [decimal_digits]. rewrite length_app. specialize (IH (n / 10)). destruct (_ =? 0); cbn [length]; lia.
Qed.

Lemma cookie_loop_entries entries display fuel : is_u16 display -> Forall xauth_wf entries -> (length (xauth_file entries) <= fuel)%nat ->
  Xauth.cookie_loop fuel (decimal display) (xauth_file entries) =
  find_map (fun '(d, cookie) => if d =? display then Some (Xauth.NAME, cookie) else None) entries.
Proof.
  intros Hd He. revert fuel. induction He as [|[d cookie] entries [Hu Hc] _ IH]; intros fuel Hf; [by destruct fuel|].
  unfold xauth_file in *. rewrite bind_cons in *. unfold Xauth.xauthority_entry in *. cbv zeta in *. rewrite <- !app_assoc in *.
  set (rest := entries ≫= _) in *. pose proof (length_to_be_bytes 2 0xFFFF) as Hl. destruct (to_be_bytes 2 0xFFFF) as [|a [|b []]]; try discriminate Hl. clear Hl.
  destruct fuel as [|fuel]; [exfalso; cbn in Hf; lia|]. cbn [app Xauth.cookie_loop drop]. rewrite (proj2 (Z.ltb_ge _ _)) by (unfold llen; cbn [length]; lia).
  rewrite drop_0, field_none, (field_app (decimal d)), (field_app Xauth.NAME), (field_app cookie) by first [done|by apply decimal_short].
  cbn [find_map]. destruct (Z.eqb_spec d display) as [->|Hne]; [by rewrite bool_decide_true|].
  rewrite bool_decide_false; [|intros E; apply Hne, decimal_inj; [unfold is_u16 in *; lia..|done]]. apply IH.
  rewrite !length_app in Hf. cbn [length] in Hf. lia.
Qed.

(** A cookie file gives each display its own secret.  From a file of any
    number of records as the keeper writes them, the reader returns the cookie
    of the first record of the display it asks for, whatever records of other
    displays are in front of it, and nothing if there is none. *)
Theorem cookie_roundtrip (entries : list (Z * list Z)) (display : Z) :
  is_u16 display -> Forall xauth_wf entries ->
  Xauth.cookie_for (xauth_file entries) display =
  find_map (fun '(d, cookie) => if d =? display then Some (Xauth.NAME, cookie) else None) entries.
Proof. intros Hd He. by apply cookie_loop_entries. Qed.

(** ** A worker at work *)

Lemma cookie_roundtrip_witness :
  Xauth.cookie_for (xauth_file [(10, [1; 2; 3]); (11, [4; 5; 6])]) 11 = Some (Xauth.NAME, [4; 5; 6]).
Proof.
  rewrite (cookie_roundtrip [(10, [1; 2; 3]); (11, [4; 5; 6])] 11).
  - reflexivity.
  - split; vm_compute; congruence.
  - repeat (apply Forall_cons; split; [split; [split; vm_compute; congruence|vm_compute; reflexivity]|]). apply Forall_nil. exact I.
Defined.

(** X servers that are always there, one cookie file for every display, and a
    keyboard with one free key. *)
Definition cookies : list Z := xauth_file [(90, [1; 2; 3]); (11, [4; 5; 6])].
Definition socket_display (path : text) : option text := app (lit ":") <$> strip_prefix (lit "/tmp/.X11-unix/X") path.
Lemma socket_display_of n s : socket_display (lit "/tmp/.X11-unix/X" ++ decimal n) = Some s -> s = lit ":" ++ decimal n.
Proof. unfold socket_display. rewrite strip_prefix_app. by intros [= <-]. Qed.
Program Definition there : X11 := {|
  Conn := text;
  Stream := text;
  XWorld := Z;
  conn_display := id;
  stream_display := id;
  x_now w := (w, w + 1);
  x_connect name w := (Some (name, 0), w);
  x_socket path w := (socket_display path, w);
  x_read _ _ := Some cookies;
  x_setup s _ _ w := (Some s, w);
  x_root _ _ := Some 1;
  x_keycodes _ := (8, 255);
  x_request _ _ w := (true, w);
  x_mapping _ _ _ w := (Some (1, (fun k => if k =? 255 then 0 else 1) <$> seqZ 8 248), w);
  x_sync _ w := w;
  x_flush _ w := w;
|}.
Next Obligation. by intros name w c s w' [= -> _ _]. Qed.
Next Obligation. intros n w s w' E. apply socket_display_of. exact (f_equal fst E). Qed.
Next Obligation. by intros s n a w c w' [= -> _]. Qed.

#[local] Existing Instances bits_flags there.
#[local] Instance no_compositor : RdpServerInputHandler Empty_set := {| keyboard _ d := d; mouse _ d := d |}.

Definition nothing_sent : Machine := mkMachine (X := there) 0 [].
Definition armed_gate : Gate := arm (fresh_gate ∅).
(** The logon screen on display 90, then alice's desktop on display 11. *)
Definition a_login : list WorkerStep :=
  [Key (Handler.Pressed 0x1E false); Gated (BindGreeter 90 (lit "/x90") (lit "/run/linrdp") (800, 600));
   Key (Handler.Pressed 0x1E false); Gated (Bind (lit "alice") 11 (lit "/x11") (lit "/run/user/1002") (1920, 1080));
   Key (Handler.Released 0x1E false); Pointer (Handler.Button 5 5 Handler.Left true)].
Definition login_trace : list (Gate * list Sent) :=
  worker_trace homes (fun _ : XWorld => @None Empty_set) a_login armed_gate (DeferredX11 None log_new (generation armed_gate)) nothing_sent.

Lemma armed_gate_named : gate_named armed_gate.
Proof. by intros b. Qed.
Lemma a_login_wf : Forall step_wf a_login.
Proof. repeat (apply Forall_cons; split; [cbn; try split; try split; vm_compute; congruence|]). constructor. Qed.

Lemma input_isolation_witness :
  Forall (fun '(g', new) => Forall (to_gate g') new) login_trace /\
  map (fun r => map (to (X := there)) r.2) login_trace =
    [[]; [lit ":90"; lit ":90"; lit ":90"]; [lit ":11"; lit ":11"; lit ":11"]; [lit ":11"; lit ":11"]].
Proof.
  split; [|vm_compute; reflexivity].
  pose proof (input_isolation homes (fun _ : XWorld => @None Empty_set) a_login armed_gate nothing_sent) as H.
  unfold login_trace. apply H.
  - reflexivity.
  - exact armed_gate_named.
  - vm_compute. discriminate.
  - vm_compute. reflexivity.
  - exact a_login_wf.
Defined.

Lemma input_work_bounded_witness :
  Forall (fun '(_, new) => llen new <= 28 /\ Forall (fun s => request_wf (request s)) new) login_trace.
Proof.
  pose proof (input_work_bounded homes (fun _ : XWorld => @None Empty_set) a_login armed_gate nothing_sent) as H.
  unfold login_trace. apply H.
  - reflexivity.
  - exact armed_gate_named.
  - vm_compute. discriminate.
  - vm_compute. reflexivity.
  - exact a_login_wf.
Defined.

Definition a_handler : X11InputHandler := mkX11 (X := there) (lit ":11") 1 None 0 ∅ None.
Lemma there_locks_bound : locks_bound (X := there).
Proof. intros l h m. vm_compute. by destruct l. Qed.

Lemma locks_follow_client_witness :
  match (_ ← x11_events armed_gate [inl (Handler.Synchronize 1); inl (Handler.UnicodePressed 0x17C)];
         x11_keyboard armed_gate (Handler.Synchronize 6)) (a_handler, nothing_sent) with
  | (_, (h', m')) => exists new, sent m' = new /\ forall l, toggled l new = Z.testbit 6 (lock_bit l) /\ Z.testbit (locks h') (lock_bit l) = Z.testbit 6 (lock_bit l)
  end.
Proof.
  apply (locks_follow_client armed_gate [inl (Handler.Synchronize 1); inl (Handler.UnicodePressed 0x17C)] 6 a_handler nothing_sent).
  - intros c r w. reflexivity.
  - exact there_locks_bound.
  - reflexivity.
  - reflexivity.
  - repeat constructor.
Defined.

(** The handler keeps its own idea of the locks, and a client that presses the
    CapsLock key changes them behind it: the next synchronisation presses the key
    once more, and the lock the client has on is off. *)
Lemma caps_lock_inverted :
  match (_ ← x11_events armed_gate [inl (Handler.Pressed 0x3A false); inl (Handler.Released 0x3A false)];
         x11_keyboard armed_gate (Handler.Synchronize SynchronizeFlags.CAPS_LOCK)) (a_handler, nothing_sent) with
  | (_, (h', m')) => toggled Caps (sent m') = false /\ contains (locks h') SynchronizeFlags.CAPS_LOCK = true
  end.
Proof. vm_compute. split; reflexivity. Qed.

(** A character past the basic plane comes as two surrogates, and neither is a
    character: nothing is typed. *)
Lemma emoji_dropped :
  (x11_events armed_gate [inl (Handler.UnicodePressed 0xD83D); inl (Handler.UnicodePressed 0xDE00)] (a_handler, nothing_sent)).2.2 = nothing_sent.
Proof. vm_compute. reflexivity. Qed.

(** The side buttons move the pointer and press nothing. *)
Lemma side_buttons_dropped :
  map (request (X := there)) (sent (x11_mouse armed_gate (Handler.Button 5 5 Handler.X1 true) (a_handler, nothing_sent)).2.2) = [Fake FAKE_MOTION 0 1 5 5].
Proof. vm_compute. reflexivity. Qed.
